(* ===== verification/_CoqProject ===== *)
-Q . S2P
Prelude.v
ProcTable.v
ProcInv.v
ProcProps.v
Bswap.v
Bitmap.v
Array.v
Queue.v
UserCopy.v
Uio.v
Coremap.v
AddrSpace.v
VmInv.v
AsCopy.v
VmFault.v
VmProps.v
UserMem.v
KernBuf.v
Exec.v
LoadSpec.v
ExecSpec.v
ExecProps.v
PageAlloc.v
Kmalloc.v
KmallocInv.v
KmallocFree.v
KmallocProps.v
ThreadList.v
Interleave.v
Semaphore.v
LockCv.v
Disk.v
Vfs.v
SfsTypes.v
Sfs.v
SfsNode.v
SfsMount.v
SfsBlk.v
SfsMap.v
SfsIo.v
SfsDir.v
SfsTrunc.v
SfsInv.v
SfsVnode.v
SfsTree.v
SfsOps.v
SfsFile.v
SfsSync.v
Afs.v
SfsAbs.v
SfsDemo.v
SfsProps.v
VfsSpec.v
VfsTable.v
VfsMount.v
VfsOps.v
VfsPath.v
VfsSfs.v
VfsSfsLaws.v
VfsProps.v
Sched.v
SchedOps.v
SchedSwitch.v
SchedInv.v
SchedStep.v
SchedMove.v
SchedRun.v
SchedBoot.v
SchedMigrate.v
SchedProps.v
