(* ===== verification/Prelude.v ===== *)
(** * Toy-OS (OS/161): a verification of its kernel

    The sources under src/kern are an OS/161 kernel for a simulated MIPS machine with
    the course's options A1, A2 and A3 built in: processes with fork, exit and
    waitpid, a page-table virtual memory system, locks and condition variables, and
    the simple file system SFS on a disk.  This library models the parts below as
    Rocq definitions that follow the C code routine by routine and proves what each
    part promises to its callers.

    ** How C is modelled

    Kernel code runs in a small state monad, [M S A], with four outcomes: a result,
    an error code with the state it leaves behind, a panic (also a failed KASSERT),
    and undefined behaviour (an index out of bounds, a null or dangling pointer).
    [wp m Q E s] says that [m] started in [s] neither panics nor goes wrong, ends, and
    leaves [Q] on success and [E] on an error; [wlp] allows a panic.  Integers are
    [Z], reduced with u8, u16, u32 and i32 where the C type can wrap.  Loops that are
    not structural carry fuel, and the theorems show that the fuel given suffices,
    since running out is undefined behaviour and wp excludes that.  What is not in the
    sources is an input of the model: the answers of kmalloc where a routine calls it,
    user memory that faults, media errors of the disk, the size of physical memory.

    ** Processes (ProcTable.v, ProcInv.v, ProcProps.v)

    kern/proc/proc.c and kern/syscall/proc_syscalls.c with the parts of thread.c and
    menu.c they use: the table active_proc_list, pids, fork, _exit, waitpid, getpid
    and the menu's program start, as a transition system over processes and their
    threads.  Every reachable state satisfies the table and life-cycle invariants; a
    sleeping parent has a live child that will wake it; fork, exit and waitpid do what
    their callers expect; exit always completes.  The runs in which a recycled pid
    deadlocks two processes, in which a failed fork leaks its address space, and in
    which waitpid panics the kernel are theorems too.

    ** Memory (Coremap.v, AddrSpace.v, VmInv.v, AsCopy.v, VmFault.v, VmProps.v)

    kern/arch/mips/vm/dumbvm.c and ram.c: the coremap, address spaces with their page
    tables in physical memory, vm_fault and the TLB.  coremap_alloc returns the lowest
    free run; as_copy gives a child equal pages of its own and undoes itself; whatever
    faults a process takes, every TLB entry maps a page of the process to the frame of
    its page table.

    ** Program loading (UserMem.v, KernBuf.v, Exec.v, LoadSpec.v, ExecSpec.v, ExecProps.v)

    load_elf (loadelf.c), sys_execv (proc_syscalls.c) and runprogram.  UserMem.v is the
    memory a process sees through the TLB, with mips_trap (trap.c) and vm_fault behind
    a miss, and copyout on it; KernBuf.v the buffers and strings of the kernel; Exec.v
    the routines, with vfs_open and VOP_READ as parameters.  LoadSpec.v and ExecSpec.v
    follow a program and its arguments from the file and the old address space into
    the new one.  ExecProps.v concludes that execv and runprogram start a program with
    its segments and arguments in place and that copyout through the TLB is copyout on
    a flat memory; and it has the runs in which execv does not: the second one in a
    process, a file that is not executable, a bad pointer.

    ** The kernel heap (PageAlloc.v, Kmalloc.v, KmallocInv.v, KmallocFree.v, KmallocProps.v)

    kern/vm/kmalloc.c over the interface [PageAlloc] of pages, which the coremap
    implements: blocks are aligned, large enough and disjoint, kfree frees exactly its
    block.

    ** Synchronisation (Interleave.v, Semaphore.v, LockCv.v, ThreadList.v)

    kern/thread/synch.c at the granularity of single spinlock and wait-channel
    operations, for any number of threads in any interleaving: mutual exclusion, no
    lost wakeups, cv_wait is atomic.  kern/thread/threadlist.c implements disjoint
    lists.

    ** Threads and the scheduler (Sched.v to SchedProps.v)

    Sched.v is kern/thread/thread.c, spl.c, spinlock.c and clock.c with the interrupt
    part of trap.c and lamebus_machdep.c, for any number of processors: creation and
    exit, the context switch, yielding and idling, wait channels, migration,
    inter-processor interrupts, the clock.  Every routine is given the processor that
    executes it; a thread's saved context is where it goes on.  SchedOps.v and
    SchedSwitch.v compute what each routine does from a state in which the locks it
    takes are free.

    SchedInv.v makes this a machine: a step is one section of one processor's code,
    between acquiring a lock of the thread system and releasing it, so that wakeups and
    migrations of different processors, and interrupts, interleave; the code that uses
    the thread system is arbitrary within the rules of the interface, the guards.  Its
    invariant says where every thread is, which interrupt level and which locks go with
    what a processor does, and that a waiting processor with work has an interrupt
    pending.  SchedStep.v, SchedMove.v and SchedRun.v show that every operation runs and
    keeps the invariant, SchedBoot.v that booting establishes it.  SchedMigrate.v is
    about a whole migration.  SchedProps.v concludes: no operation fails, each thread is
    in one place, idle processors are woken, threads take turns, migration balances; and
    that an interrupt can get lost and a shootdown can be written outside its array.
    The loops of migration are structural in the number of processors and of threads to
    send, which bound them in the code.

    ** Data structures and user memory (Bitmap.v, Array.v, Queue.v, Bswap.v, UserCopy.v, Uio.v)

    kern/lib and kern/vm/copyinout.c: dynamic arrays and queues refine lists, the copy
    routines never touch memory outside the user's range, uiomove moves exactly the
    bytes it says.

    ** The file system

    Disk.v models the uio as a byte stream and lhd_io of kern/dev/lamebus/lhd.c on a
    card whose errors are an input.  SfsTypes.v has the on-disk structures of
    kern/include/kern/sfs.h as bytes.  Sfs.v, SfsNode.v and SfsMount.v are
    kern/fs/sfs/sfs_io.c, sfs_vnode.c and sfs_fs.c routine by routine, with the
    reference counts of kern/vfs/vnode.c and the big lock of kern/vfs/vfslist.c.  The
    record [sfs] is one mounted file system: the device, the superblock, the free map,
    the table of loaded vnodes and the vnodes by pointer.

    The specifications go bottom up: blocks and the free map (SfsBlk.v), the block map
    of an inode (SfsMap.v), reading and writing (SfsIo.v), directories (SfsDir.v),
    truncation (SfsTrunc.v); then the invariant of a mounted file system (SfsInv.v:
    each object owns its blocks, the free map marks exactly those, the vnodes in
    memory and the inodes on disk agree; SfsTree.v: the root directory names the
    files and link counts count names), loading and reclaiming vnodes (SfsVnode.v),
    the operations on names (SfsOps.v), on files (SfsFile.v), sync and mount
    (SfsSync.v).  Afs.v and SfsAbs.v state what all this is for: an abstract file
    system of names, file contents and open counts, which every operation implements.  The
    theorems are in SfsProps.v, on the example volume of SfsDemo.v where they need an
    instance: the refinement; what was synced survives a remount; what was written is
    read back; and the code's faults: truncation that keeps blocks past the end, a
    failed write that lengthens its file, a write error that is swallowed by the
    retry.  The specifications assume a working disk of at most 2^23 blocks, so that
    byte offsets on the device fit 32 bits as sfs_blockio needs, and offsets in files
    below 2^41, from where on the code's block numbers wrap.

    ** The VFS layer (Vfs.v, VfsSpec.v, VfsTable.v, VfsMount.v, VfsOps.v, VfsPath.v,
    VfsSfs.v, VfsSfsLaws.v, VfsProps.v)

    kern/vfs: the table of devices and mounts, name resolution, the operations on paths
    and the current directory, over any file system that is an instance of the class
    [FileSystem] and keeps the laws [FsLaws] of VfsSpec.v.  VfsTable.v and VfsMount.v
    have the invariant of the table and the operations that change it, VfsOps.v and
    VfsPath.v the operations on paths as steps of abstract mounted file systems.
    VfsSfs.v and VfsSfsLaws.v make SFS an instance, and VfsProps.v concludes with SFS
    mounted: paths refine the abstract file system, the table stays well formed, a name
    stands for the first device that answers to it, only idle file systems are
    unmounted.

    ** Not modelled

    The start of further processors (cpu_hatch, thread_start_cpus), clocksleep and the
    allocation done by the create and destroy functions of synch.c.  The models of
    synch.c and of processes are not built on Sched.v: they take wait channels and
    spinlocks as SchedProps.v justifies them, as lists of sleepers and atomic flags.
    The assembly code (exception entry, the register part of a context switch) and the
    system call dispatch.  The LAMEbus drivers other than the disk's, whose hardware is
    not part of the sources.  Console I/O, the kernel menu apart from starting
    programs, the test drivers, the user programs. *)

From stdpp Require Export base numbers list option decidable gmap relations.
From stdpp Require Export tactics list_basics list_relations list_misc.

#[global] Open Scope Z_scope.

(** ** Machine words

    C integers are kept as [Z]; an operation that can leave its type's range is
    followed by an explicit reduction. *)

Definition u8 (x : Z) : Z := x mod 2 ^ 8.
Definition u16 (x : Z) : Z := x mod 2 ^ 16.
Definition u32 (x : Z) : Z := x mod 2 ^ 32.
Definition u64 (x : Z) : Z := x mod 2 ^ 64.

(** Reduction of an integer to a signed 32-bit [int]. *)
Definition i32 (x : Z) : Z :=
  let y := x mod 2 ^ 32 in if y <? 2 ^ 31 then y else y - 2 ^ 32.

(** The rounding macros of kern/include/lib.h, on unsigned operands. *)
Definition DIVROUNDUP (a b : Z) : Z := (a + b - 1) / b.
Definition ROUNDUP (a b : Z) : Z := DIVROUNDUP a b * b.

(** ** Error codes of kern/include/kern/errno.h *)

Definition ENOSYS : Z := 1.
Definition EUNIMP : Z := 2.
Definition ENOMEM : Z := 3.
Definition EFAULT : Z := 6.
Definition ENAMETOOLONG : Z := 7.
Definition EINVAL : Z := 8.
Definition ENPROC : Z := 12.
Definition ENOEXEC : Z := 13.
Definition E2BIG : Z := 14.
Definition ESRCH : Z := 15.
Definition ECHILD : Z := 16.
Definition ENOTDIR : Z := 17.
Definition EISDIR : Z := 18.
Definition ENOENT : Z := 19.
Definition EEXIST : Z := 22.
Definition EXDEV : Z := 24.
Definition ENODEV : Z := 25.
Definition ENXIO : Z := 26.
Definition EBUSY : Z := 27.
Definition EBADF : Z := 30.
Definition EIO : Z := 32.
Definition ENOSPC : Z := 36.
Definition EFBIG : Z := 38.
Definition ESPIPE : Z := 33.

(** ** Constants of kern/fcntl.h, kern/stattypes.h and kern/limits.h *)

Definition O_RDONLY : Z := 0.
Definition O_WRONLY : Z := 1.
Definition O_RDWR : Z := 2.
Definition O_CREAT : Z := 4.
Definition O_EXCL : Z := 8.
Definition O_TRUNC : Z := 16.
Definition O_APPEND : Z := 32.
Definition O_ACCMODE : Z := 3.
Definition S_IFREG : Z := 8 ^ 4.
Definition S_IFDIR : Z := 2 * 8 ^ 4.
Definition S_IFCHR : Z := 6 * 8 ^ 4.
Definition S_IFBLK : Z := 7 * 8 ^ 4.
Definition NAME_MAX : Z := 255.
Definition PATH_MAX : Z := 1024.

(** Characters. *)
Definition SLASH : Z := 47.
Definition COLON : Z := 58.

(** ** The kernel monad

    A kernel routine runs on an explicit state.  It hands back a value, or an
    error code (a nonzero [int] result) together with the state reached so far,
    or the machine stops: [Panic] is a call of panic() or a KASSERT that does
    not hold, [Undef] is an access the C language gives no meaning to (an index
    outside an array, a NULL dereference). *)

Inductive outcome (S A : Type) : Type :=
  | Ok (a : A) (s : S)
  | Err (e : Z) (s : S)
  | Panic
  | Undef.
Arguments Ok {S A} a s.
Arguments Err {S A} e s.
Arguments Panic {S A}.
Arguments Undef {S A}.

Definition M (S A : Type) : Type := S → outcome S A.

Declare Scope kern_scope.
Delimit Scope kern_scope with kern.

Section Monad.
Context {S : Type}.

Definition ret {A} (a : A) : M S A := λ s, Ok a s.
Definition bind {A B} (m : M S A) (k : A → M S B) : M S B := λ s,
  match m s with
  | Ok a s' => k a s'
  | Err e s' => Err e s'
  | Panic => Panic
  | Undef => Undef
  end.
(** [return e;] for a nonzero error code [e]. *)
Definition fail {A} (e : Z) : M S A := λ s, Err e s.
Definition panic {A} : M S A := λ _, Panic.
Definition undef {A} : M S A := λ _, Undef.
(** KASSERT(b) *)
Definition kassert (b : bool) : M S unit := if b then ret tt else panic.
Definition get : M S S := λ s, Ok s s.
Definition gets {A} (f : S → A) : M S A := λ s, Ok (f s) s.
Definition modify (f : S → S) : M S unit := λ s, Ok tt (f s).
(** Read through a pointer or an index: [None] is outside the object. *)
Definition deref {A} (o : option A) : M S A :=
  match o with Some a => ret a | None => undef end.
(** [result = m; ...]: the error code becomes a value. *)
Definition attempt {A} (m : M S A) : M S (A + Z) := λ s,
  match m s with
  | Ok a s' => Ok (inl a) s'
  | Err e s' => Ok (inr e) s'
  | Panic => Panic
  | Undef => Undef
  end.
(** [result = m; if (result) { h; return result; }] *)
Definition on_error {A} (m : M S A) (h : M S unit) : M S A := λ s,
  match m s with
  | Err e s' =>
      match h s' with
      | Ok _ s'' => Err e s''
      | Err e' s'' => Err e' s''
      | Panic => Panic
      | Undef => Undef
      end
  | o => o
  end.
(** [for (i = lo; i < lo + n; i++) body] *)
Fixpoint for_n (n : nat) (lo : Z) (body : Z → M S unit) : M S unit :=
  match n with
  | O => ret tt
  | Datatypes.S n' => bind (body lo) (λ _, for_n n' (lo + 1) body)
  end.
(** [for (i = lo; i < hi; i++) body], the bounds read once. *)
Definition for_ (lo hi : Z) (body : Z → M S unit) : M S unit :=
  for_n (Z.to_nat (hi - lo)) lo body.
End Monad.

Notation "x <- m ;; k" := (bind m (λ x, k))
  (at level 100, m at next level, right associativity) : kern_scope.
Notation "m ;; k" := (bind m (λ _, k))
  (at level 100, right associativity) : kern_scope.

(** Run a routine on a component of a larger state. *)
Definition lift {S T A} (proj : T → S) (inj : S → T → T) (m : M S A) : M T A := λ t,
  match m (proj t) with
  | Ok a s => Ok a (inj s t)
  | Err e s => Err e (inj s t)
  | Panic => Panic
  | Undef => Undef
  end.

(** ** Weakest preconditions

    [wpx X m Q E s]: from [s], [m] does nothing undefined; if it returns normally
    the result satisfies [Q], if it returns an error code the result satisfies
    [E], and it may panic only if [X] holds.  [wp] forbids panics, [wlp] allows
    them. *)

Definition wpx {S A} (X : Prop) (m : M S A) (Q : A → S → Prop) (E : Z → S → Prop)
    (s : S) : Prop :=
  match m s with
  | Ok a s' => Q a s'
  | Err e s' => E e s'
  | Panic => X
  | Undef => False
  end.
Abbreviation wp := (wpx False).
Abbreviation wlp := (wpx True).

Section WpRules.
Context {S : Type} {X : Prop}.
Implicit Types (s : S) (E : Z → S → Prop).

Lemma wp_ret {A} (a : A) (Q : A → S → Prop) E s : Q a s → wpx X (ret a) Q E s.
Proof. done. Qed.

Lemma wp_fail {A} e (Q : A → S → Prop) E s : E e s → wpx X (fail e) Q E s.
Proof. done. Qed.

Lemma wp_bind {A B} (m : M S A) (k : A → M S B) Q E s :
  wpx X m (λ a s', wpx X (k a) Q E s') E s → wpx X (bind m k) Q E s.
Proof. unfold wpx, bind. destruct (m s); done. Qed.

Lemma wp_conseq {A} (m : M S A) (Q Q' : A → S → Prop) E E' s :
  wpx X m Q E s → (∀ a s', Q a s' → Q' a s') → (∀ e s', E e s' → E' e s') →
  wpx X m Q' E' s.
Proof. unfold wpx. destruct (m s); naive_solver. Qed.

Lemma wp_gets {A} (f : S → A) Q E s : Q (f s) s → wpx X (gets f) Q E s.
Proof. done. Qed.

Lemma wp_get Q E s : Q s s → wpx X get Q E s.
Proof. done. Qed.

Lemma wp_modify (f : S → S) Q E s : Q tt (f s) → wpx X (modify f) Q E s.
Proof. done. Qed.

Lemma wp_kassert b Q E s : b = true → Q tt s → wpx X (kassert b) Q E s.
Proof. by intros ->. Qed.

Lemma wp_deref {A} (o : option A) a Q E s :
  o = Some a → Q a s → wpx X (deref o) Q E s.
Proof. by intros ->. Qed.

Lemma wp_attempt {A} (m : M S A) Q E s :
  wpx X m (λ a, Q (inl a)) (λ e, Q (inr e)) s → wpx X (attempt m) Q E s.
Proof. unfold wpx, attempt. destruct (m s); done. Qed.

Lemma wp_on_error {A} (m : M S A) h Q E s :
  wpx X m Q (λ e, wpx X h (λ _, E e) E) s → wpx X (on_error m h) Q E s.
Proof.
  unfold wpx, on_error. destruct (m s) as [|e s'| |]; try done.
  by destruct (h s').
Qed.

Lemma wp_ok {A} (m : M S A) a s s' Q E :
  m s = Ok a s' → Q a s' → wpx X m Q E s.
Proof. unfold wpx. by intros ->. Qed.

Lemma wp_ext {A} (m m' : M S A) Q E s s' : m s = m' s' → wpx X m' Q E s' → wpx X m Q E s.
Proof. unfold wpx. by intros ->. Qed.

Lemma wp_elim {A} (m : M S A) Q E s : wpx X m Q E s →
  (∀ a s', m s = Ok a s' → Q a s') ∧ (∀ e s', m s = Err e s' → E e s').
Proof. unfold wpx. destruct (m s); naive_solver. Qed.

(** The loop rule: an invariant indexed by the loop variable. *)
Lemma wp_for_n (I : Z → S → Prop) n lo body E s :
  I lo s →
  (∀ i s', lo ≤ i < lo + Z.of_nat n → I i s' → wpx X (body i) (λ _, I (i + 1)) E s') →
  wpx X (for_n n lo body) (λ _, I (lo + Z.of_nat n)) E s.
Proof.
  revert lo s. induction n as [|n IH]; intros lo s HI Hbody; simpl.
  - apply wp_ret. by rewrite Z.add_0_r.
  - apply wp_bind. eapply wp_conseq; [apply Hbody; [lia|done]| |done].
    intros [] s' HI'. eapply wp_conseq; [apply IH; [done|]| |done].
    + intros i s'' ??. apply Hbody; [lia|done].
    + intros [] s''. simpl.
      by replace (lo + 1 + Z.of_nat n) with (lo + Z.of_nat (Datatypes.S n)) by lia.
Qed.

Lemma wp_for (I : Z → S → Prop) lo hi body Q E s :
  lo ≤ hi → I lo s →
  (∀ i s', lo ≤ i < hi → I i s' → wpx X (body i) (λ _, I (i + 1)) E s') →
  (∀ s', I hi s' → Q tt s') →
  wpx X (for_ lo hi body) Q E s.
Proof.
  intros Hle HI Hbody HQ. unfold for_.
  eapply wp_conseq; [apply (wp_for_n I); [done|]| |done].
  - intros i s' ??. apply Hbody; [lia|done].
  - intros [] s'. simpl. rewrite Z2Nat.id by lia.
    replace (lo + (hi - lo)) with hi by lia. apply HQ.
Qed.
End WpRules.

Lemma wp_weaken_panic {S A} (X : Prop) (m : M S A) Q E s : wp m Q E s → wpx X m Q E s.
Proof. unfold wpx. destruct (m s); naive_solver. Qed.

Lemma wp_panic {S A} (Q : A → S → Prop) E s : wlp panic Q E s.
Proof. done. Qed.

(** What a statement that is known to come out a certain way makes of the rest. *)
Lemma bind_ok {S A B} (m : M S A) (k : A → M S B) s a s' : m s = Ok a s' → bind m k s = k a s'.
Proof. unfold bind. by intros ->. Qed.
Lemma bind_err {S A B} (m : M S A) (k : A → M S B) s e s' : m s = Err e s' → bind m k s = Err e s'.
Proof. unfold bind. by intros ->. Qed.
Lemma bind_undef {S A B} (m : M S A) (k : A → M S B) s : m s = Undef → bind m k s = Undef.
Proof. unfold bind. by intros ->. Qed.

(** Regrouping a run of statements. *)
Lemma wp_bind2 {S A} X (m1 m2 : M S unit) (k : M S A) Q E s :
  wpx X (bind m1 (λ _, m2)) (λ _, wpx X k Q E) E s →
  wpx X (bind m1 (λ _, bind m2 (λ _, k))) Q E s.
Proof. unfold wpx, bind. destruct (m1 s) as [? s1| | |]; try done. by destruct (m2 s1). Qed.

Lemma wp_bind3 {S A} X (m1 m2 m3 : M S unit) (k : M S A) Q E s :
  wpx X (bind m1 (λ _, bind m2 (λ _, m3))) (λ _, wpx X k Q E) E s →
  wpx X (bind m1 (λ _, bind m2 (λ _, bind m3 (λ _, k)))) Q E s.
Proof.
  unfold wpx, bind. destruct (m1 s) as [? s1| | |]; try done. destruct (m2 s1) as [? s2| | |]; try done.
  by destruct (m3 s2).
Qed.

Lemma wp_lift {S T A} X (proj : T → S) (inj : S → T → T) (m : M S A) Q E t :
  wpx X m (λ a s, Q a (inj s t)) (λ e s, E e (inj s t)) (proj t) →
  wpx X (lift proj inj m) Q E t.
Proof. unfold wpx, lift. destruct (m (proj t)); done. Qed.

(** [wp_step] applies the rule for the head operation. *)
(** Partial correctness: what holds if the routine returns normally. *)
Definition wpo {S A} (m : M S A) (Q : A → S → Prop) (s : S) : Prop :=
  match m s with Ok a s' => Q a s' | _ => True end.

Lemma wpo_of_wp {S A} X (m : M S A) Q E s : wpx X m Q E s → wpo m Q s.
Proof. unfold wpx, wpo. by destruct (m s). Qed.

Lemma wpo_bind {S A B} (m : M S A) (k : A → M S B) Q s :
  wpo m (λ a s', wpo (k a) Q s') s → wpo (bind m k) Q s.
Proof. unfold wpo, bind. by destruct (m s). Qed.

Lemma wpo_conseq {S A} (m : M S A) (Q Q' : A → S → Prop) s :
  wpo m Q s → (∀ a s', Q a s' → Q' a s') → wpo m Q' s.
Proof. unfold wpo. destruct (m s); naive_solver. Qed.

(** A routine that ends in an error never returns normally. *)
Lemma wpo_then_fail {S A B} (m : M S A) e (Q : B → S → Prop) s :
  wpo (bind m (λ _, fail e)) Q s.
Proof. unfold wpo, bind, fail. by destruct (m s). Qed.

Lemma wpo_ok {S A} (m : M S A) Q s a s' : wpo m Q s → m s = Ok a s' → Q a s'.
Proof. unfold wpo. by intros H E; rewrite E in H. Qed.

Ltac wp_step :=
  lazymatch goal with
  | |- wpx _ (bind _ _) _ _ _ => apply wp_bind
  | |- wpx _ (ret _) _ _ _ => apply wp_ret
  | |- wpx _ (fail _) _ _ _ => apply wp_fail
  | |- wpx _ get _ _ _ => apply wp_get
  | |- wpx _ (gets _) _ _ _ => apply wp_gets
  | |- wpx _ (modify _) _ _ _ => apply wp_modify
  | |- wpx _ (attempt _) _ _ _ => apply wp_attempt
  | |- wpx _ (on_error _ _) _ _ _ => apply wp_on_error
  | |- wpx _ (lift _ _ _) _ _ _ => apply wp_lift
  end; cbv beta.
Ltac wp_steps := repeat wp_step.

(** ** Loops without a bound of their own

    [while p body a] runs [body] from [a] until it gives a result; [inl] is the
    value to go on with.  At most [p] rounds are run, counted in binary so that a
    generous bound costs nothing; using them up is undefined, which [wp] excludes. *)

Section While.
Context {S A B : Type}.
#[local] Open Scope kern_scope.

Fixpoint rounds (p : positive) (body : A → M S (A + B)) (a : A) : M S (A + B) :=
  match p with
  | xH => body a
  | xO q =>
      r <- rounds q body a ;;
      match r with inl a' => rounds q body a' | inr b => ret (inr b) end
  | xI q =>
      r <- body a ;;
      match r with
      | inl a' =>
          r <- rounds q body a' ;;
          match r with inl a'' => rounds q body a'' | inr b => ret (inr b) end
      | inr b => ret (inr b)
      end
  end.

Definition while (p : positive) (body : A → M S (A + B)) (a : A) : M S B :=
  r <- rounds p body a ;;
  match r with inl _ => undef | inr b => ret b end.

(** The rule: an invariant, and a measure that every further round lowers. *)
Section Rule.
Context (X : Prop) (I : A → S → Prop) (mu : A → Z) (body : A → M S (A + B)).
Context (Q : B → S → Prop) (E : Z → S → Prop).
Context (Hbody : ∀ a s, I a s → wpx X (body a) (λ r s',
  match r with inl a' => I a' s' ∧ 0 ≤ mu a' < mu a | inr b => Q b s' end) E s).

Lemma wp_rounds p a s : I a s → 0 ≤ mu a →
  wpx X (rounds p body a) (λ r s',
    match r with inl a' => I a' s' ∧ 0 ≤ mu a' ≤ mu a - Z.pos p | inr b => Q b s' end) E s.
Proof.
  revert a s. induction p as [q IH|q IH|]; intros a s HI Hmu; simpl.
  - wp_step. eapply wp_conseq; [by apply Hbody| |done]. intros [a1|b] s1; [|by intros; wp_step].
    intros [HI1 Hm1]. wp_step. eapply wp_conseq; [apply IH; [done|lia]| |done].
    intros [a2|b] s2; [|by intros; wp_step]. intros [HI2 Hm2].
    eapply wp_conseq; [apply IH; [done|lia]| |done]. intros [a3|b] s3; [|done]. intros [? ?]. split; [done|lia].
  - wp_step. eapply wp_conseq; [by apply IH| |done]. intros [a1|b] s1; [|by intros; wp_step]. intros [HI1 Hm1].
    eapply wp_conseq; [apply IH; [done|lia]| |done]. intros [a2|b] s2; [|done]. intros [? ?]. split; [done|lia].
  - eapply wp_conseq; [by apply Hbody| |done]. intros [a1|b] s1; [|done]. intros [? ?]. split; [done|lia].
Qed.

Lemma wp_while p a s : I a s → 0 ≤ mu a < Z.pos p → wpx X (while p body a) Q E s.
Proof.
  intros HI Hmu. unfold while. wp_step. eapply wp_conseq; [apply wp_rounds; [done|lia]| |done].
  intros [a'|b] s'; [lia|]. intros. by wp_step.
Qed.
End Rule.
End While.

(** ** Lists indexed by C integers *)

Definition lookupZ {A} (l : list A) (i : Z) : option A :=
  if decide (0 ≤ i) then l !! Z.to_nat i else None.
Definition updateZ {A} (l : list A) (i : Z) (x : A) : list A :=
  if decide (0 ≤ i) then <[Z.to_nat i := x]> l else l.
Definition lengthZ {A} (l : list A) : Z := Z.of_nat (length l).

Notation "l .[ i ]" := (lookupZ l i) (at level 1, format "l .[ i ]") : kern_scope.
Notation "l .[ i := x ]" := (updateZ l i x)
  (at level 1, format "l .[ i  :=  x ]") : kern_scope.

Section ListZ.
Context {A : Type}.
Implicit Types (l : list A) (i j n : Z) (x : A).
#[local] Open Scope kern_scope.

Lemma lookupZ_Some_range l i x : l.[i] = Some x → 0 ≤ i < lengthZ l.
Proof.
  unfold lookupZ, lengthZ. case_decide; [|done].
  intros ?%lookup_lt_Some. lia.
Qed.

Lemma lookupZ_is_Some l i : is_Some l.[i] ↔ 0 ≤ i < lengthZ l.
Proof.
  split; [intros [x ?]; by eapply lookupZ_Some_range|].
  unfold lookupZ, lengthZ. intros ?. rewrite decide_True by lia.
  apply lookup_lt_is_Some. lia.
Qed.

Lemma lookupZ_lt l i : 0 ≤ i < lengthZ l → ∃ x, l.[i] = Some x.
Proof. intros H. by apply lookupZ_is_Some in H. Qed.

Lemma lookupZ_None l i : l.[i] = None ↔ ¬ (0 ≤ i < lengthZ l).
Proof. rewrite <- lookupZ_is_Some, eq_None_not_Some. done. Qed.

Lemma lookupZ_nat l i : 0 ≤ i → l.[i] = l !! Z.to_nat i.
Proof. intros. unfold lookupZ. by rewrite decide_True. Qed.

Lemma lookupZ_of_nat l (k : nat) : l.[Z.of_nat k] = l !! k.
Proof. rewrite lookupZ_nat by lia. by rewrite Nat2Z.id. Qed.

Lemma lengthZ_nonneg l : 0 ≤ lengthZ l.
Proof. unfold lengthZ. lia. Qed.

Lemma lengthZ_update l i x : lengthZ (l.[i := x]) = lengthZ l.
Proof. unfold lengthZ, updateZ. case_decide; [by rewrite length_insert|done]. Qed.

Lemma lengthZ_app l1 l2 : lengthZ (l1 ++ l2) = lengthZ l1 + lengthZ l2.
Proof. unfold lengthZ. rewrite length_app. lia. Qed.

Lemma lengthZ_cons x l : lengthZ (x :: l) = 1 + lengthZ l.
Proof. unfold lengthZ. simpl. lia. Qed.

Lemma lengthZ_replicate (k : nat) x : lengthZ (replicate k x) = Z.of_nat k.
Proof. unfold lengthZ. by rewrite length_replicate. Qed.

Lemma lookupZ_update_eq l i x : 0 ≤ i < lengthZ l → (l.[i := x]).[i] = Some x.
Proof.
  unfold lookupZ, updateZ, lengthZ. intros. rewrite !decide_True by lia.
  apply list_lookup_insert_eq. lia.
Qed.

Lemma lookupZ_update_ne l i j x : i ≠ j → (l.[i := x]).[j] = l.[j].
Proof.
  unfold lookupZ, updateZ. intros. repeat case_decide; try done.
  apply list_lookup_insert_ne. lia.
Qed.

Lemma lookupZ_update l i j x :
  0 ≤ i < lengthZ l →
  (l.[i := x]).[j] = if decide (i = j) then Some x else l.[j].
Proof.
  intros. case_decide; subst; [by apply lookupZ_update_eq|].
  by apply lookupZ_update_ne.
Qed.

Lemma lookupZ_replicate (k : nat) x i :
  0 ≤ i < Z.of_nat k → (replicate k x).[i] = Some x.
Proof. intros. rewrite lookupZ_nat by lia. apply lookup_replicate_2. lia. Qed.

Lemma lookupZ_app_l l1 l2 i : i < lengthZ l1 → (l1 ++ l2).[i] = l1.[i].
Proof.
  unfold lookupZ, lengthZ. intros. case_decide; [|done].
  apply lookup_app_l. lia.
Qed.

Lemma lookupZ_app_r l1 l2 i :
  lengthZ l1 ≤ i → (l1 ++ l2).[i] = l2.[i - lengthZ l1].
Proof.
  unfold lookupZ, lengthZ. intros. rewrite !decide_True by lia.
  rewrite lookup_app_r by lia. f_equal. lia.
Qed.

Lemma listZ_eq l1 l2 :
  lengthZ l1 = lengthZ l2 →
  (∀ i, 0 ≤ i < lengthZ l1 → l1.[i] = l2.[i]) → l1 = l2.
Proof.
  unfold lengthZ. intros Hlen H. apply list_eq. intros k.
  destruct (decide (k < length l1)%nat).
  - rewrite <- !lookupZ_of_nat. apply H. lia.
  - rewrite !lookup_ge_None_2 by lia. done.
Qed.

Lemma updateZ_id l i x : l.[i] = Some x → l.[i := x] = l.
Proof.
  unfold lookupZ, updateZ. case_decide; [|done]. apply list_insert_id.
Qed.

Lemma updateZ_update l i x y : (l.[i := x]).[i := y] = l.[i := y].
Proof. unfold updateZ. case_decide; [|done]. apply list_insert_insert_eq. Qed.
End ListZ.

(** ** Words *)

Lemma u32_small x : 0 ≤ x < 2 ^ 32 → u32 x = x.
Proof. apply Z.mod_small. Qed.

Lemma u32_range x : 0 ≤ u32 x < 2 ^ 32.
Proof. apply Z.mod_pos_bound. lia. Qed.

Lemma i32_small x : - 2 ^ 31 ≤ x < 2 ^ 31 → i32 x = x.
Proof.
  intros. unfold i32. destruct (Z.ltb_spec (x mod 2 ^ 32) (2 ^ 31)) as [H1|H1];
    revert H1; pose proof (Z.div_mod x (2 ^ 32)); pose proof (Z.mod_pos_bound x (2 ^ 32));
    nia.
Qed.

(** Masks of a single bit, in words of [n] bits. *)
Lemma mask_test w k : 0 ≤ k → (Z.land w (2 ^ k) =? 0) = negb (Z.testbit w k).
Proof.
  intros Hk. destruct (Z.testbit w k) eqn:E; simpl.
  - apply Z.eqb_neq. intros H. assert (Z.testbit (Z.land w (2 ^ k)) k = false) as H'.
    { rewrite H. apply Z.bits_0. }
    by rewrite Z.land_spec, E, Z.pow2_bits_true in H' by done.
  - apply Z.eqb_eq, Z.bits_inj'. intros j Hj. rewrite Z.land_spec, Z.bits_0.
    destruct (decide (k = j)) as [<-|]; [by rewrite E|].
    by rewrite Z.pow2_bits_false, andb_false_r by done.
Qed.

Lemma mask_set w k j : 0 ≤ k → 0 ≤ j →
  Z.testbit (Z.lor w (2 ^ k)) j = bool_decide (j = k) || Z.testbit w j.
Proof.
  intros. rewrite Z.lor_spec, Z.pow2_bits_eqb by done. case_bool_decide as E.
  - subst. by rewrite Z.eqb_refl, orb_true_r.
  - by rewrite (proj2 (Z.eqb_neq k j)), orb_false_r by lia.
Qed.

Lemma mask_clear n w k j : 0 ≤ k < n → 0 ≤ j < n →
  Z.testbit (Z.land w (Z.lnot (2 ^ k) mod 2 ^ n)) j = negb (bool_decide (j = k)) && Z.testbit w j.
Proof.
  intros. rewrite Z.land_spec, Z.mod_pow2_bits_low, Z.lnot_spec by lia.
  rewrite Z.pow2_bits_eqb, andb_comm by lia. f_equal. case_bool_decide as E.
  - subst. by rewrite Z.eqb_refl.
  - by rewrite (proj2 (Z.eqb_neq k j)) by lia.
Qed.

Lemma word_high n w j : 0 ≤ n ≤ j → 0 ≤ w < 2 ^ n → Z.testbit w j = false.
Proof. intros ? Hw. rewrite <- (Z.mod_small w (2 ^ n)) by done. apply Z.mod_pow2_bits_high. lia. Qed.

Lemma word_all_ones n w :
  0 ≤ n → 0 ≤ w < 2 ^ n → (∀ k, 0 ≤ k < n → Z.testbit w k = true) → w = Z.ones n.
Proof.
  intros Hn Hw H. apply Z.bits_inj'. intros k Hk.
  destruct (decide (k < n)); [rewrite Z.ones_spec_low by lia; apply H; lia|].
  rewrite Z.ones_spec_high by lia. apply (word_high n); [lia|done].
Qed.

Lemma word_lor_mask n w k : 0 ≤ w < 2 ^ n → 0 ≤ k < n → 0 ≤ Z.lor w (2 ^ k) < 2 ^ n.
Proof.
  intros Hw Hk. assert (Z.lor w (2 ^ k) = Z.lor w (2 ^ k) mod 2 ^ n) as ->.
  - apply Z.bits_inj'. intros j Hj. destruct (decide (j < n)).
    + by rewrite Z.mod_pow2_bits_low by lia.
    + rewrite Z.mod_pow2_bits_high, Z.lor_spec, Z.pow2_bits_false, orb_false_r by lia.
      apply (word_high n); [lia|done].
  - apply Z.mod_pos_bound. apply Z.pow_pos_nonneg; lia.
Qed.

Lemma word_land n w x : 0 ≤ n → 0 ≤ x < 2 ^ n → 0 ≤ Z.land w x < 2 ^ n.
Proof.
  intros Hn Hx. rewrite <- (Z.mod_small x (2 ^ n)), <- Z.land_ones, Z.land_assoc, Z.land_ones by lia.
  apply Z.mod_pos_bound. apply Z.pow_pos_nonneg; lia.
Qed.

Lemma DIVROUNDUP_spec a b :
  0 ≤ a → 0 < b → a ≤ DIVROUNDUP a b * b < a + b.
Proof.
  intros. unfold DIVROUNDUP.
  pose proof (Z.div_mod (a + b - 1) b). pose proof (Z.mod_pos_bound (a + b - 1) b).
  nia.
Qed.

(** ** Words and bytes

    The machine is big-endian. *)

Definition is_byte (x : Z) : Prop := 0 ≤ x < 256.
Definition is_word (x : Z) : Prop := 0 ≤ x < 2 ^ 32.

Definition word_bytes (w : Z) : list Z := [w / 2 ^ 24; w / 2 ^ 16 mod 256; w / 2 ^ 8 mod 256; w mod 256].
Definition word_of (a b c d : Z) : Z := 2 ^ 24 * a + 2 ^ 16 * b + 2 ^ 8 * c + d.

Definition bytes_of_words (l : list Z) : list Z := l ≫= word_bytes.
Fixpoint words_of_bytes (l : list Z) : list Z :=
  match l with
  | a :: b :: c :: d :: l' => word_of a b c d :: words_of_bytes l'
  | _ => []
  end.

Lemma word_bytes_spec w : is_word w →
  Forall is_byte (word_bytes w) ∧ ∀ l, words_of_bytes (word_bytes w ++ l) = w :: words_of_bytes l.
Proof.
  intros Hw. unfold is_word, word_bytes, is_byte in *.
  assert (w / 2 ^ 16 = w / 2 ^ 24 * 256 + w / 2 ^ 16 mod 256) as H1.
  { rewrite (Z.div_mod (w / 2 ^ 16) 256) at 1 by lia. rewrite Z.div_div by lia. change (2 ^ 16 * 256) with (2 ^ 24). lia. }
  assert (w / 2 ^ 8 = w / 2 ^ 16 * 256 + w / 2 ^ 8 mod 256) as H2.
  { rewrite (Z.div_mod (w / 2 ^ 8) 256) at 1 by lia. rewrite Z.div_div by lia. change (2 ^ 8 * 256) with (2 ^ 16). lia. }
  assert (w = w / 2 ^ 8 * 256 + w mod 256) as H3.
  { rewrite (Z.div_mod w 256) at 1 by lia. change (2 ^ 8) with 256. lia. }
  pose proof (Z.mod_pos_bound (w / 2 ^ 16) 256 ltac:(lia)). pose proof (Z.mod_pos_bound (w / 2 ^ 8) 256 ltac:(lia)).
  pose proof (Z.mod_pos_bound w 256 ltac:(lia)).
  split.
  - assert (0 ≤ w / 2 ^ 24 < 256) by lia. repeat constructor; lia.
  - intros l. simpl. f_equal. unfold word_of. lia.
Qed.

Lemma word_of_spec a b c d : is_byte a → is_byte b → is_byte c → is_byte d →
  is_word (word_of a b c d) ∧ word_bytes (word_of a b c d) = [a; b; c; d].
Proof.
  unfold is_byte, is_word, word_of, word_bytes. intros Ha Hb Hc Hd.
  assert (∀ q r n, 0 ≤ r < n → (n * q + r) / n = q ∧ (n * q + r) mod n = r) as Hdm.
  { intros q r n Hr. split; symmetry; [by apply (Z.div_unique_pos _ _ _ r)|by apply (Z.mod_unique_pos _ _ q)]. }
  set (w := 2 ^ 24 * a + 2 ^ 16 * b + 2 ^ 8 * c + d). split; [lia|].
  assert (w / 2 ^ 24 = a) as -> by (replace w with (2 ^ 24 * a + (2 ^ 16 * b + 2 ^ 8 * c + d)) by lia; apply Hdm; lia).
  assert (w / 2 ^ 16 = 256 * a + b) as -> by (replace w with (2 ^ 16 * (256 * a + b) + (2 ^ 8 * c + d)) by lia; apply Hdm; lia).
  assert (w / 2 ^ 8 = 256 * (256 * a + b) + c) as ->
    by (replace w with (2 ^ 8 * (256 * (256 * a + b) + c) + d) by lia; apply Hdm; lia).
  assert (w mod 256 = d) as -> by (replace w with (256 * (256 * (256 * a + b) + c) + d) by lia; apply Hdm; lia).
  by rewrite (proj2 (Hdm a b 256 Hb)), (proj2 (Hdm (256 * a + b) c 256 Hc)).
Qed.

Create HintDb kern.
Create Rewrite HintDb kern.
#[export] Hint Resolve lengthZ_nonneg : kern.
#[export] Hint Rewrite @lengthZ_update @lengthZ_app @lengthZ_replicate @lengthZ_cons : kern.
