(* ===== verification/ProcTable.v ===== *)
(** * Processes: the process table, fork, _exit and waitpid

    Models kern/proc/proc.c, the process system calls of
    kern/syscall/proc_syscalls.c, thread_fork and thread_exit of
    kern/thread/thread.c as far as processes see them, and common_prog of
    kern/startup/menu.c, in the configuration the repository builds (UW, A2, A3).

    A [struct proc] lives in the kernel heap under its pointer; the table
    [active_proc_list] holds pointers.  What other components decide is read
    from [fate]: the answers of kmalloc and of the calls that can run out of
    memory, in the order they are asked for ([true]: the call succeeds).  Every
    theorem quantifies over [fate].

    The file ends with the transition system whose steps are the system calls
    of the live threads; waitpid is split where cv_wait releases the lock. *)

From S2P Require Import Prelude.
#[local] Open Scope kern_scope.

(** ** Constants *)

Definition PID_MIN : Z := 2.
Definition PID_MAX : Z := 32767.
Definition MAX_PROC : Z := 32768.

(** The wait-status macros of kern/include/kern/wait.h, on 32-bit ints. *)
Definition _WWHAT (x : Z) : Z := Z.land x 3.
Definition _WVAL (x : Z) : Z := Z.shiftr x 2.
Definition _MKWVAL (x : Z) : Z := i32 (Z.shiftl x 2).
Definition __WEXITED : Z := 0.
Definition WIFEXITED (x : Z) : bool := _WWHAT x =? __WEXITED.
Definition WEXITSTATUS (x : Z) : Z := _WVAL x.
Definition _MKWAIT_EXIT (x : Z) : Z := Z.lor (_MKWVAL x) __WEXITED.

(** ** Data *)

(** struct proc of kern/include/proc.h.  [p_waiters] is the queue of the wait
    channel inside [wait_child]. *)
Record proc := mkProc {
  p_threads : list Z;
  p_addrspace : option Z;
  p_cwd : option Z;
  p_console : option Z;
  p_exit : Z;
  p_exitcode : Z;
  p_parent_pid : Z;
  p_pid : Z;
  p_waiters : list Z;
  p_loaded : bool
}.

(** What a live thread is doing: started by the menu and on its way to user
    mode, running user code, asleep in the cv_wait of waitpid for a given child,
    or woken there and about to test again. *)
Inductive activity :=
  | Starting
  | Running
  | Asleep (child : Z)
  | Woken (child : Z).

Record pstate := mkPState {
  procs : gmap Z proc;                 (* the struct procs, by address *)
  active_proc_list : list (option Z);  (* the process table *)
  current_largest_pid : Z;
  proc_count : Z;
  no_proc_sem : Z;                     (* sem_count of no_proc_sem *)
  threads : gmap Z (Z * activity);     (* live threads: t_proc, activity *)
  spaces : gset Z;                     (* live address spaces *)
  vnode_refs : gmap Z Z;               (* vn_refcount, by vnode *)
  next_ptr : Z;                        (* the next address kmalloc hands out *)
  fate : list bool
}.

Abbreviation PM := (M pstate).

Definition set_procs f s := mkPState (f (procs s)) (active_proc_list s)
  (current_largest_pid s) (proc_count s) (no_proc_sem s) (threads s) (spaces s)
  (vnode_refs s) (next_ptr s) (fate s).
Definition set_table f s := mkPState (procs s) (f (active_proc_list s))
  (current_largest_pid s) (proc_count s) (no_proc_sem s) (threads s) (spaces s)
  (vnode_refs s) (next_ptr s) (fate s).
Definition set_largest v s := mkPState (procs s) (active_proc_list s)
  v (proc_count s) (no_proc_sem s) (threads s) (spaces s)
  (vnode_refs s) (next_ptr s) (fate s).
Definition set_count v s := mkPState (procs s) (active_proc_list s)
  (current_largest_pid s) v (no_proc_sem s) (threads s) (spaces s)
  (vnode_refs s) (next_ptr s) (fate s).
Definition set_sem v s := mkPState (procs s) (active_proc_list s)
  (current_largest_pid s) (proc_count s) v (threads s) (spaces s)
  (vnode_refs s) (next_ptr s) (fate s).
Definition set_threads f s := mkPState (procs s) (active_proc_list s)
  (current_largest_pid s) (proc_count s) (no_proc_sem s) (f (threads s)) (spaces s)
  (vnode_refs s) (next_ptr s) (fate s).
Definition set_spaces f s := mkPState (procs s) (active_proc_list s)
  (current_largest_pid s) (proc_count s) (no_proc_sem s) (threads s) (f (spaces s))
  (vnode_refs s) (next_ptr s) (fate s).
Definition set_vrefs f s := mkPState (procs s) (active_proc_list s)
  (current_largest_pid s) (proc_count s) (no_proc_sem s) (threads s) (spaces s)
  (f (vnode_refs s)) (next_ptr s) (fate s).
Definition set_next v s := mkPState (procs s) (active_proc_list s)
  (current_largest_pid s) (proc_count s) (no_proc_sem s) (threads s) (spaces s)
  (vnode_refs s) v (fate s).
Definition set_fate v s := mkPState (procs s) (active_proc_list s)
  (current_largest_pid s) (proc_count s) (no_proc_sem s) (threads s) (spaces s)
  (vnode_refs s) (next_ptr s) v.

Definition proc_set_threads v p := mkProc v (p_addrspace p) (p_cwd p) (p_console p)
  (p_exit p) (p_exitcode p) (p_parent_pid p) (p_pid p) (p_waiters p) (p_loaded p).
Definition proc_set_addrspace v p := mkProc (p_threads p) v (p_cwd p) (p_console p)
  (p_exit p) (p_exitcode p) (p_parent_pid p) (p_pid p) (p_waiters p) (p_loaded p).
Definition proc_set_cwd v p := mkProc (p_threads p) (p_addrspace p) v (p_console p)
  (p_exit p) (p_exitcode p) (p_parent_pid p) (p_pid p) (p_waiters p) (p_loaded p).
Definition proc_set_console v p := mkProc (p_threads p) (p_addrspace p) (p_cwd p) v
  (p_exit p) (p_exitcode p) (p_parent_pid p) (p_pid p) (p_waiters p) (p_loaded p).
Definition proc_set_exit v c p := mkProc (p_threads p) (p_addrspace p) (p_cwd p) (p_console p)
  v c (p_parent_pid p) (p_pid p) (p_waiters p) (p_loaded p).
Definition proc_set_parent v p := mkProc (p_threads p) (p_addrspace p) (p_cwd p) (p_console p)
  (p_exit p) (p_exitcode p) v (p_pid p) (p_waiters p) (p_loaded p).
Definition proc_set_pid v p := mkProc (p_threads p) (p_addrspace p) (p_cwd p) (p_console p)
  (p_exit p) (p_exitcode p) (p_parent_pid p) v (p_waiters p) (p_loaded p).
Definition proc_set_waiters v p := mkProc (p_threads p) (p_addrspace p) (p_cwd p) (p_console p)
  (p_exit p) (p_exitcode p) (p_parent_pid p) (p_pid p) v (p_loaded p).

(** Read and write a struct proc through its pointer. *)
Definition read_proc (p : Z) : PM proc := s <- get ;; deref (procs s !! p).
Definition update_proc (p : Z) (f : proc → proc) : PM unit :=
  x <- read_proc p ;; modify (set_procs <[p := f x]>).

(** ** Calls into other components *)

(** Ask for the next answer of [fate]; an exhausted list answers yes. *)
Definition ask : PM bool := λ s,
  match fate s with
  | [] => Ok true s
  | b :: r => Ok b (set_fate r s)
  end.

(** kmalloc of an object whose address matters: NULL or a fresh address. *)
Definition kmalloc : PM (option Z) :=
  b <- ask ;;
  if b then
    a <- gets next_ptr ;; modify (λ s, set_next (a + 1) s) ;; ret (Some a)
  else ret None.

(** cv_create: the cv, its name and its wait channel are allocated in turn. *)
Definition cv_create : PM bool :=
  b1 <- ask ;; if negb b1 then ret false else
  b2 <- ask ;; if negb b2 then ret false else
  ask.

Definition VOP_INCREF (v : Z) : PM unit :=
  modify (set_vrefs (λ m, <[v := default 0 (m !! v) + 1]> m)).
Definition VOP_DECREF (v : Z) : PM unit :=
  modify (set_vrefs (λ m, <[v := default 0 (m !! v) - 1]> m)).

(** The console vnode vfs_open("con:") finds. *)
Definition CONSOLE : Z := 1.

(** as_copy, as far as the process sees it: a new address space or ENOMEM. *)
Definition as_copy : PM Z :=
  o <- kmalloc ;;
  match o with
  | Some a => modify (set_spaces ({[a]} ∪.)) ;; ret a
  | None => fail ENOMEM
  end.
Definition as_destroy (a : Z) : PM unit := modify (set_spaces (.∖ {[a]})).

(** ** kern/proc/proc.c *)

(** proc_create: kmalloc the structure, kstrdup the name. *)
Definition proc_create : PM (option Z) :=
  o <- kmalloc ;;
  match o with
  | None => ret None
  | Some p =>
      b <- ask ;;
      if negb b then ret None else
      modify (set_procs <[p := mkProc [] None None None 0 0 0 0 [] false]>) ;;
      ret (Some p)
  end.

(** The search of add_to_active_proc_list: [for (i = 2; i <= largest; i++)]. *)
Fixpoint find_free_slot (fuel : nat) (i largest : Z) (l : list (option Z)) : option (option Z) :=
  match fuel with
  | O => None
  | S fuel' =>
      if i <=? largest then
        match l.[i] with
        | None => None
        | Some None => Some (Some i)
        | Some (Some _) => find_free_slot fuel' (i + 1) largest l
        end
      else Some None
  end.

(** A store into active_proc_list; outside the array it is undefined. *)
Definition table_store (i : Z) (v : option Z) : PM unit :=
  l <- gets active_proc_list ;;
  if (0 <=? i) && (i <? lengthZ l) then modify (set_table (λ l, l.[i := v])) else undef.

Definition add_to_active_proc_list (p : Z) : PM unit :=
  s <- get ;;
  r <- deref (find_free_slot (Z.to_nat MAX_PROC) 2 (current_largest_pid s) (active_proc_list s)) ;;
  match r with
  | Some i =>
      update_proc p (proc_set_pid i) ;;
      table_store i (Some p)
  | None =>
      let n := current_largest_pid s + 1 in
      modify (set_largest n) ;;
      update_proc p (proc_set_pid n) ;;
      table_store n (Some p)
  end.

(** proc_create_runprogram; [cwd] is curproc->p_cwd. *)
Definition proc_create_runprogram (cwd : option Z) : PM (option Z) :=
  o <- proc_create ;;
  match o with
  | None => ret None
  | Some p =>
      cv <- cv_create ;;
      if negb cv then modify (set_procs (delete p)) ;; ret None else
      update_proc p (proc_set_parent (-1)) ;;
      update_proc p (proc_set_exit 0 0) ;;
      path <- ask ;;
      (if (path : bool) then ret tt else panic) ;;
      opened <- ask ;;
      (if (opened : bool) then VOP_INCREF CONSOLE else panic) ;;
      update_proc p (proc_set_console (Some CONSOLE)) ;;
      update_proc p (proc_set_addrspace None) ;;
      match cwd with
      | Some v => VOP_INCREF v ;; update_proc p (proc_set_cwd (Some v))
      | None => ret tt
      end ;;
      modify (λ s, set_count (proc_count s + 1) s) ;;
      add_to_active_proc_list p ;;
      ret (Some p)
  end.

(** proc_destroy; [kproc] is never passed by the callers modelled here. *)
Definition proc_destroy (p : Z) : PM unit :=
  x <- read_proc p ;;
  match p_cwd x with Some v => VOP_DECREF v | None => ret tt end ;;
  match p_console x with Some v => VOP_DECREF v | None => ret tt end ;;
  kassert (bool_decide (p_threads x = [])) ;;           (* threadarray_cleanup *)
  table_store (p_pid x) None ;;
  l <- gets current_largest_pid ;;
  (if p_pid x =? l then modify (set_largest (l - 1)) else ret tt) ;;
  kassert (bool_decide (p_waiters x = [])) ;;           (* cv_destroy *)
  modify (set_procs (delete p)) ;;
  n <- gets proc_count ;;
  kassert (0 <? n) ;;
  modify (set_count (n - 1)) ;;
  if n - 1 =? 0 then modify (λ s, set_sem (no_proc_sem s + 1) s) else ret tt.

(** proc_addthread: threadarray_add may run out of memory. *)
Definition proc_addthread (p t : Z) (a : activity) : PM unit :=
  b <- ask ;;
  if (b : bool) then
    update_proc p (λ x, proc_set_threads (p_threads x ++ [t]) x) ;;
    modify (set_threads <[t := (p, a)]>)
  else fail ENOMEM.

(** proc_remthread: find the thread in the array, close the gap. *)
Definition proc_remthread (t : Z) : PM unit :=
  s <- get ;;
  pa <- deref (threads s !! t) ;;
  let p := (pa : Z * activity).1 in
  x <- read_proc p ;;
  if bool_decide (t ∈ p_threads x) then
    update_proc p (proc_set_threads (filter (λ u, u ≠ t) (p_threads x))) ;;
    modify (set_threads (delete t))
  else panic.

Definition curproc_setas (p : Z) (new : option Z) : PM (option Z) :=
  x <- read_proc p ;;
  update_proc p (proc_set_addrspace new) ;;
  ret (p_addrspace x).

Definition check_proc_limit : PM bool :=
  n <- gets proc_count ;; ret (n =? PID_MAX - PID_MIN + 1).

(** The [KASSERT]s bound the index before it is used; the test for -1 after
    them can never be reached. *)
Definition find_proc (pid : Z) : PM (option Z) :=
  kassert (pid <=? PID_MAX) ;;
  kassert (PID_MIN <=? pid) ;;
  l <- gets active_proc_list ;;
  deref (l.[pid]).

Definition parent_checker (pid : Z) : PM Z :=
  kassert (pid <=? PID_MAX) ;;
  kassert (PID_MIN <=? pid) ;;
  if pid =? -1 then ret 0 else
  l <- gets active_proc_list ;;
  o <- deref (l.[pid]) ;;
  match o with
  | Some q => x <- read_proc q ;; ret (if p_exit x =? 1 then 0 else 1)
  | None => ret 0
  end.

(** exited_children_cleanup: [current_largest_pid] is read in every test. *)
Fixpoint exited_children_cleanup_loop (fuel : nat) (i pid : Z) : PM unit :=
  match fuel with
  | O => undef
  | S fuel' =>
      s <- get ;;
      if i <=? current_largest_pid s then
        o <- deref ((active_proc_list s).[i]) ;;
        match o with
        | Some q =>
            x <- read_proc q ;;
            if (p_parent_pid x =? pid) && (p_exit x =? 1) then proc_destroy q else ret tt
        | None => ret tt
        end ;;
        exited_children_cleanup_loop fuel' (i + 1) pid
      else ret tt
  end.
Definition exited_children_cleanup (pid : Z) : PM unit :=
  exited_children_cleanup_loop (Z.to_nat MAX_PROC) 2 pid.

(** proc_bootstrap, once the kernel's own process and semaphores exist. *)
Definition proc_bootstrap (f : list bool) (next : Z) : pstate :=
  mkPState ∅ (replicate (Z.to_nat MAX_PROC) None) 2 0 0 ∅ ∅ ∅ next f.

(** ** kern/thread/thread.c, the part that touches processes *)

(** thread_fork: the thread, its name and its stack are allocated in turn, then
    the thread joins process [p]; [a] says where its entry point leads.  Hands
    back the new thread. *)
Definition thread_fork (p : Z) (a : activity) : PM Z :=
  o <- kmalloc ;;
  match o with
  | None => fail ENOMEM
  | Some t =>
      b1 <- ask ;; if negb b1 then fail ENOMEM else
      b2 <- ask ;; if negb b2 then fail ENOMEM else
      proc_addthread p t a ;;
      ret t
  end.

(** cv_wait on wait_child: the thread joins the queue and sleeps. *)
Definition cv_wait_child (p t child : Z) : PM unit :=
  update_proc p (λ x, proc_set_waiters (p_waiters x ++ [t]) x) ;;
  modify (set_threads <[t := (p, Asleep child)]>).

(** wchan_wakeone of a thread asleep in waitpid. *)
Definition wake_thread (t : Z) : PM unit :=
  s <- get ;;
  match threads s !! t with
  | Some (p, Asleep c) => modify (set_threads <[t := (p, Woken c)]>)
  | _ => undef
  end.

(** cv_signal(p->wait_child): wake the first thread of the queue, if any. *)
Definition cv_signal_child (p : Z) : PM unit :=
  x <- read_proc p ;;
  match p_waiters x with
  | [] => ret tt
  | t :: r => update_proc p (proc_set_waiters r) ;; wake_thread t
  end.

(** ** kern/syscall/proc_syscalls.c *)

(** The part of sys__exit under the global lock. *)
Definition exit_locked (p exitcode : Z) : PM unit :=
  x <- read_proc p ;;
  orphan <- (if p_parent_pid x =? -1 then ret true
             else (r <- parent_checker (p_parent_pid x) ;; ret (negb (r =? 1)))) ;;
  if (orphan : bool) then
    exited_children_cleanup (p_pid x) ;;
    proc_destroy p
  else
    parent <- find_proc (p_parent_pid x) ;;
    update_proc p (proc_set_exit 1 (_MKWAIT_EXIT exitcode)) ;;
    q <- deref parent ;;
    cv_signal_child q ;;
    exited_children_cleanup (p_pid x).

Definition sys__exit (t exitcode : Z) : PM unit :=
  s <- get ;;
  pa <- deref (threads s !! t) ;;
  let p := (pa : Z * activity).1 in
  x <- read_proc p ;;
  kassert (bool_decide (is_Some (p_addrspace x))) ;;
  old <- curproc_setas p None ;;
  match old with Some a => as_destroy a | None => undef end ;;
  proc_remthread t ;;
  exit_locked p exitcode.

(** sys_waitpid up to and including the first test of the loop, and after each
    wake-up: [Some code] when the child has been reaped, [None] when the caller
    went to sleep.  [copied] is the result of copyout. *)
Definition waitpid_test (t p child : Z) (copied : option Z) : PM (option Z) :=
  c <- read_proc child ;;
  if p_exit c =? 1 then
    match copied with
    | Some e => fail e
    | None => proc_destroy child ;; ret (Some (p_exitcode c))
    end
  else
    cv_wait_child p t child ;; ret None.

Definition sys_waitpid (t pid options : Z) (copied : option Z) : PM (option Z) :=
  if negb (options =? 0) then fail EINVAL else
  s <- get ;;
  pa <- deref (threads s !! t) ;;
  let p := (pa : Z * activity).1 in
  o <- find_proc pid ;;
  match o with
  | None => fail ESRCH
  | Some child =>
      c <- read_proc child ;;
      x <- read_proc p ;;
      if negb (p_parent_pid c =? p_pid x) then fail ECHILD else
      waitpid_test t p child copied
  end.

(** The thread comes back from cv_wait and goes round the loop. *)
Definition waitpid_resume (t : Z) (copied : option Z) : PM (option Z) :=
  s <- get ;;
  pa <- deref (threads s !! t) ;;
  match (pa : Z * activity) with
  | (p, Woken child) =>
      modify (set_threads <[t := (p, Running)]>) ;;
      waitpid_test t p child copied
  | _ => undef
  end.

(** The end of sys_fork: the trapframe, then the thread of the new process. *)
Definition fork_start (n : Z) : PM Z :=
  tf <- ask ;;
  if negb tf then proc_destroy n ;; fail ENOMEM else
  on_error (thread_fork n Running) (proc_destroy n) ;;
  y <- read_proc n ;;
  ret (p_pid y).

Definition sys_fork (t : Z) : PM Z :=
  full <- check_proc_limit ;;
  if (full : bool) then fail ENPROC else
  s <- get ;;
  pa <- deref (threads s !! t) ;;
  let p := (pa : Z * activity).1 in
  x <- read_proc p ;;
  o <- proc_create_runprogram (p_cwd x) ;;
  match o with
  | None => fail ENOMEM
  | Some n =>
      update_proc n (proc_set_parent (p_pid x)) ;;
      a <- on_error as_copy (proc_destroy n) ;;
      update_proc n (proc_set_addrspace (Some a)) ;;
      fork_start n
  end.

Definition sys_getpid (t : Z) : PM Z :=
  s <- get ;;
  pa <- deref (threads s !! t) ;;
  x <- read_proc (pa : Z * activity).1 ;;
  ret (p_pid x).

(** ** kern/startup/menu.c *)

(** common_prog up to the P(no_proc_sem) in which the menu waits. *)
Definition common_prog (cwd : option Z) : PM Z :=
  o <- proc_create_runprogram cwd ;;
  match o with
  | None => fail ENOMEM
  | Some n =>
      on_error (thread_fork n Starting) (proc_destroy n) ;;
      ret n
  end.

(** The process side of runprogram in the new thread: it gets an address space
    and goes to user mode.  When runprogram fails, cmd_progthread returns and
    thread_exit finds the thread still attached to its process. *)
Definition cmd_progthread (t : Z) : PM unit :=
  s <- get ;;
  pa <- deref (threads s !! t) ;;
  let p := (pa : Z * activity).1 in
  x <- read_proc p ;;
  opened <- ask ;;
  if negb opened then panic else
  kassert (bool_decide (p_addrspace x = None)) ;;
  o <- kmalloc ;;
  match o with
  | None => panic
  | Some a =>
      modify (set_spaces ({[a]} ∪.)) ;;
      update_proc p (proc_set_addrspace (Some a)) ;;
      loaded <- ask ;;
      if negb loaded then panic else
      modify (set_threads <[t := (p, Running)]>)
  end.

#[global] Arguments add_to_active_proc_list : simpl never.
#[global] Arguments exited_children_cleanup : simpl never.

(** ** The transition system *)

(** [m] run from [s] comes back, with a value or an error code, in [s']. *)
Definition returns {S A} (m : M S A) (s s' : S) : Prop :=
  (∃ a, m s = Ok a s') ∨ (∃ e, m s = Err e s').

Definition thread_is (s : pstate) (t : Z) (a : activity) : Prop :=
  ∃ p, threads s !! t = Some (p, a).

(** The menu starts programs one at a time; nothing in common_prog itself looks
    at the number of processes, so the step asks for a table with room. *)
Inductive pstep (s s' : pstate) : Prop :=
  | step_menu cwd : proc_count s < PID_MAX - PID_MIN + 1 →
      returns (common_prog cwd) s s' → pstep s s'
  | step_menu_wait : 0 < no_proc_sem s → s' = set_sem (no_proc_sem s - 1) s → pstep s s'
  | step_start t : thread_is s t Starting → returns (cmd_progthread t) s s' → pstep s s'
  | step_fork t : thread_is s t Running → returns (sys_fork t) s s' → pstep s s'
  | step_exit t code : thread_is s t Running → returns (sys__exit t code) s s' → pstep s s'
  | step_waitpid t pid options copied : thread_is s t Running →
      returns (sys_waitpid t pid options copied) s s' → pstep s s'
  | step_resume t c copied : thread_is s t (Woken c) →
      returns (waitpid_resume t copied) s s' → pstep s s'.

(** States the system can reach after boot. *)
Definition reachable (s : pstate) : Prop :=
  ∃ f next, rtc pstep (proc_bootstrap f next) s.
