(* ===== verification/ProcInv.v ===== *)
(** * Invariants and specifications of the process layer

    The table invariant [table_inv] relates active_proc_list to the heap of
    struct procs and is preserved by every routine of proc.c; the life-cycle
    invariant [life_inv] speaks of processes, their threads, parents and waiters
    and is preserved by every system call.  The theorems at the end are stated
    over all reachable states. *)

From S2P Require Import Prelude ProcTable.
#[local] Open Scope kern_scope.

(** ** The table *)

Record table_inv (s : pstate) : Prop := {
  ti_len : lengthZ (active_proc_list s) = MAX_PROC;
  ti_largest : 1 ≤ current_largest_pid s < MAX_PROC;
  ti_iff : ∀ i p, (active_proc_list s).[i] = Some (Some p) ↔
                  ∃ x, procs s !! p = Some x ∧ p_pid x = i;
  ti_range : ∀ p x, procs s !! p = Some x → 2 ≤ p_pid x ≤ current_largest_pid s;
  ti_count : proc_count s = Z.of_nat (size (procs s));
  ti_fresh : ∀ p x, procs s !! p = Some x → p < next_ptr s
}.

Lemma pid_injective s p q x y :
  table_inv s → procs s !! p = Some x → procs s !! q = Some y →
  p_pid x = p_pid y → p = q.
Proof.
  intros [_ _ Hiff _ _ _] Hp Hq E.
  assert ((active_proc_list s).[p_pid x] = Some (Some p)) by (apply Hiff; eauto).
  assert ((active_proc_list s).[p_pid x] = Some (Some q)) by (apply Hiff; eauto).
  congruence.
Qed.

(** Symbolic execution of the accessors. *)
Lemma wp_read_proc X p x (Q : proc → pstate → Prop) E s :
  procs s !! p = Some x → Q x s → wpx X (read_proc p) Q E s.
Proof. intros H HQ. unfold read_proc. wp_steps. by eapply wp_deref. Qed.

Lemma wp_update_proc X p f x (Q : unit → pstate → Prop) E s :
  procs s !! p = Some x → Q tt (set_procs <[p := f x]> s) →
  wpx X (update_proc p f) Q E s.
Proof. intros H HQ. unfold update_proc. wp_step. eapply wp_read_proc; [done|]. by wp_step. Qed.

Lemma wp_table_store X i v (Q : unit → pstate → Prop) E s :
  0 ≤ i < lengthZ (active_proc_list s) →
  Q tt (set_table (λ l, l.[i := v]) s) → wpx X (table_store i v) Q E s.
Proof.
  intros Hi HQ. unfold table_store. wp_steps.
  replace ((0 <=? i) && (i <? lengthZ (active_proc_list s))) with true by lia.
  by wp_step.
Qed.

(** Reference counts never influence anything else. *)
Lemma wp_release_vnode X (o : option Z) (Q : unit → pstate → Prop) E s :
  (∀ f, Q tt (set_vrefs f s)) →
  wpx X (match o with Some v => VOP_DECREF v | None => ret tt end) Q E s.
Proof.
  intros HQ. destruct o; [apply wp_modify, HQ|]. apply wp_ret.
  specialize (HQ id). by destruct s.
Qed.

Lemma size_delete_Some (m : gmap Z proc) p x :
  m !! p = Some x → Z.of_nat (size (delete p m)) = Z.of_nat (size m) - 1.
Proof.
  intros H. rewrite map_size_delete, H. simpl.
  assert (size m ≠ 0%nat); [|lia].
  intros E%map_size_empty_inv. by rewrite E, lookup_empty in H.
Qed.

(** The pure effect of proc_destroy. *)
Definition destroyed (p : Z) (x : proc) (s s' : pstate) : Prop :=
  procs s' = delete p (procs s) ∧ threads s' = threads s ∧ spaces s' = spaces s ∧
  next_ptr s' = next_ptr s ∧ fate s' = fate s ∧
  current_largest_pid s' =
    (if p_pid x =? current_largest_pid s then current_largest_pid s - 1
     else current_largest_pid s) ∧
  no_proc_sem s' = no_proc_sem s + (if proc_count s =? 1 then 1 else 0).

Lemma table_inv_destroyed p x s s' :
  table_inv s → procs s !! p = Some x → destroyed p x s s' →
  active_proc_list s' = (active_proc_list s).[p_pid x := None] →
  proc_count s' = proc_count s - 1 → table_inv s'.
Proof.
  intros Hinv Hp (Hpr & _ & _ & Hn & _ & Hl & _) Ht Hc.
  destruct (Hinv) as [Hlen Hlg Hiff Hrg Hcnt Hfr]. pose proof (Hrg _ _ Hp) as Hpid.
  constructor; rewrite ?Hpr, ?Ht, ?Hl, ?Hn.
  - by rewrite lengthZ_update.
  - case_match; lia.
  - intros i q. rewrite lookupZ_update by (unfold MAX_PROC in *; lia).
    setoid_rewrite lookup_delete_Some. case_decide as Hi.
    + split; [done|]. intros (y & [Hne Hq] & Hy).
      exfalso. apply Hne. eapply pid_injective; eauto. congruence.
    + rewrite Hiff. split; [|naive_solver].
      intros (y & Hq & Hy). exists y. split_and!; try done. intros ->. congruence.
  - intros q y [Hne Hq]%lookup_delete_Some. pose proof (Hrg _ _ Hq).
    assert (p_pid y ≠ p_pid x).
    { intros E. apply Hne. symmetry. by eapply pid_injective. }
    case_match; lia.
  - rewrite (size_delete_Some _ _ _ Hp). lia.
  - intros q y [Hne Hq]%lookup_delete_Some. eauto.
Qed.

Lemma proc_destroy_spec X p x s :
  table_inv s → procs s !! p = Some x → p_threads x = [] → p_waiters x = [] →
  wpx X (proc_destroy p) (λ _ s', table_inv s' ∧ destroyed p x s s') (λ _ _, False) s.
Proof.
  intros Hinv Hp Ht Hw. destruct (Hinv) as [Hlen Hlg Hiff Hrg Hcnt Hfr].
  pose proof (Hrg _ _ Hp) as Hpid. pose proof (size_delete_Some _ _ _ Hp) as Hsz.
  unfold proc_destroy. wp_step. eapply wp_read_proc; [done|].
  wp_step. apply wp_release_vnode. intros f1. wp_step. apply wp_release_vnode. intros f2.
  wp_step. apply wp_kassert; [by rewrite Ht|].
  wp_step. apply wp_table_store; [simpl; unfold MAX_PROC in *; lia|].
  wp_steps. simpl.
  set (l' := if p_pid x =? current_largest_pid s then current_largest_pid s - 1
             else current_largest_pid s).
  set (s1 := set_table _ _).
  apply (wp_ok _ tt _ (set_largest l' s1)).
  { unfold l', s1. case_match; by destruct s. }
  wp_step. apply wp_kassert; [by rewrite Hw|]. wp_steps. simpl.
  apply wp_kassert; [lia|]. wp_steps. simpl.
  assert ((proc_count s - 1 =? 0) = (proc_count s =? 1)) as -> by lia.
  case_match eqn:E; wp_step;
    (split; [eapply (table_inv_destroyed p x); try done|]);
    repeat split; simpl; rewrite ?E; try done; lia.
Qed.

(** ** Reaping exited children *)

Definition zombie_of (pid : Z) (x : proc) : Prop := p_parent_pid x = pid ∧ p_exit x = 1.
#[export] Instance zombie_of_dec pid x : Decision (zombie_of pid x).
Proof. unfold zombie_of. apply _. Defined.

(** What exited_children_cleanup leaves when it has yet to visit pids >= [i]. *)
Definition keep_from (pid i : Z) (kv : Z * proc) : Prop :=
  ¬ (zombie_of pid kv.2 ∧ i ≤ p_pid kv.2).
#[export] Instance keep_from_dec pid i kv : Decision (keep_from pid i kv).
Proof. unfold keep_from. apply _. Defined.

Definition reap (pid : Z) (m : gmap Z proc) : gmap Z proc :=
  filter (λ kv, ¬ zombie_of pid kv.2) m.

Lemma lookup_reap pid m p x :
  reap pid m !! p = Some x ↔ m !! p = Some x ∧ ¬ zombie_of pid x.
Proof. apply map_lookup_filter_Some. Qed.

(** The fields no routine of the reaper touches. *)
Definition same_frame (s s' : pstate) : Prop :=
  threads s' = threads s ∧ spaces s' = spaces s ∧ next_ptr s' = next_ptr s.

#[export] Instance same_frame_preorder : PreOrder same_frame.
Proof. split; [done|]. intros s1 s2 s3. unfold same_frame. intuition congruence. Qed.

Definition zombies_quiet (s : pstate) : Prop :=
  ∀ p x, procs s !! p = Some x → p_exit x = 1 → p_threads x = [] ∧ p_waiters x = [].

Lemma keep_from_step pid i q y (m : gmap Z proc) :
  m !! q = Some y → p_pid y = i → zombie_of pid y →
  (∀ p x, m !! p = Some x → p_pid x = i → p = q) →
  filter (keep_from pid (i + 1)) (delete q m) = filter (keep_from pid i) m.
Proof.
  intros Hq Hi Hz Huniq. apply map_eq. intros p. apply option_eq. intros x.
  rewrite !map_lookup_filter_Some, lookup_delete_Some. unfold keep_from. simpl.
  split.
  - intros [[Hne Hp] Hk]. split; [done|]. intros [Hzx Hle]. apply Hk.
    split; [done|]. destruct (decide (p_pid x = i)) as [E|]; [|lia].
    exfalso. apply Hne. symmetry. eauto.
  - intros [Hp Hk]. split; [split; [|done]|].
    + intros ->. simplify_eq. apply Hk. split; [done|lia].
    + intros [Hzx Hle]. apply Hk. split; [done|lia].
Qed.

Lemma keep_from_skip pid i (m : gmap Z proc) :
  (∀ p x, m !! p = Some x → p_pid x = i → ¬ zombie_of pid x) →
  filter (keep_from pid (i + 1)) m = filter (keep_from pid i) m.
Proof.
  intros H. apply map_filter_ext. intros p x Hp. unfold keep_from. simpl.
  destruct (decide (p_pid x = i)) as [E|]; [|split; intros ? [? ?]; naive_solver lia].
  pose proof (H _ _ Hp E). naive_solver.
Qed.

Lemma cleanup_loop_spec X pid fuel i s :
  table_inv s → zombies_quiet s → 2 ≤ i →
  current_largest_pid s + 2 - i ≤ Z.of_nat fuel → (0 < fuel)%nat →
  wpx X (exited_children_cleanup_loop fuel i pid)
    (λ _ s', table_inv s' ∧ procs s' = filter (keep_from pid i) (procs s) ∧ same_frame s s')
    (λ _ _, False) s.
Proof.
  revert i s. induction fuel as [|fuel IH]; intros i s Hinv Hq Hi Hf Hpos; [lia|].
  destruct (Hinv) as [Hlen Hlg Hiff Hrg _ _]. unfold MAX_PROC in *. simpl. wp_steps.
  case_match eqn:Hle; [|wp_step; split_and!; [done| |done]].
  2: { symmetry. rewrite map_filter_id; [done|]. intros p x Hp [_ ?].
       simpl in *. pose proof (Hrg _ _ Hp). lia. }
  destruct (lookupZ_lt (active_proc_list s) i) as [o Ho]; [lia|].
  wp_step. eapply wp_deref; [done|]. wp_step.
  assert (∀ p x, procs s !! p = Some x → p_pid x = i → o = Some p) as Huniq.
  { intros p x Hp E. enough (Some o = Some (Some p)) by congruence.
    rewrite <- Ho. apply Hiff. eauto. }
  destruct o as [q|].
  - destruct (proj1 (Hiff _ _) Ho) as (y & Hy & Hpid).
    wp_step. eapply wp_read_proc; [done|].
    case_match eqn:Hz.
    + assert (zombie_of pid y) as Hzy by (unfold zombie_of; lia).
      destruct (Hq _ _ Hy) as [Ht Hw]; [apply Hzy|].
      eapply wp_conseq; [by apply (proc_destroy_spec X q y)| |done].
      intros [] s1 [Hinv1 (Hp1 & Ht1 & Hs1 & Hn1 & _ & Hl1 & _)].
      eapply wp_conseq; [apply IH; try done| |done].
      * intros p x. rewrite Hp1. intros [_ Hp]%lookup_delete_Some. eauto.
      * lia.
      * rewrite Hl1. case_match; lia.
      * lia.
      * intros [] s2 (? & Hp2 & Hfr2). split_and!; [done| |].
        { rewrite Hp2, Hp1. apply (keep_from_step _ _ _ y); try done.
          intros p x Hp E. specialize (Huniq _ _ Hp E). congruence. }
        { etrans; [|done]. by repeat split. }
    + wp_step. eapply wp_conseq; [apply IH; try done; lia| |done].
      intros [] s2 (? & Hp2 & Hfr2). split_and!; [done| |done].
      rewrite Hp2. apply keep_from_skip. intros p x Hp E.
      specialize (Huniq _ _ Hp E). simplify_eq. unfold zombie_of. lia.
  - wp_step. eapply wp_conseq; [apply IH; try done; lia| |done].
    intros [] s2 (? & Hp2 & Hfr2). split_and!; [done| |done].
    rewrite Hp2. apply keep_from_skip. intros p x Hp E. by specialize (Huniq _ _ Hp E).
Qed.

Lemma exited_children_cleanup_spec X pid s :
  table_inv s → zombies_quiet s →
  wpx X (exited_children_cleanup pid)
    (λ _ s', table_inv s' ∧ procs s' = reap pid (procs s) ∧ same_frame s s')
    (λ _ _, False) s.
Proof.
  intros Hinv Hq. destruct (Hinv) as [_ Hlg _ Hrg _ _]. unfold exited_children_cleanup.
  eapply wp_conseq; [apply cleanup_loop_spec; try done| |done].
  - unfold MAX_PROC in *. lia.
  - unfold MAX_PROC. lia.
  - intros [] s' (? & Hp & ?). split_and!; [done| |done]. rewrite Hp.
    apply map_filter_ext. intros p x Hpx. pose proof (Hrg _ _ Hpx).
    unfold keep_from. simpl. naive_solver lia.
Qed.

(** ** Handing out pids *)

(** [i] is the lowest pid from PID_MIN up that the table leaves free. *)
Definition least_free (l : list (option Z)) (i : Z) : Prop :=
  l.[i] = Some None ∧ ∀ k, PID_MIN ≤ k < i → ∃ q, l.[k] = Some (Some q).

Lemma find_free_slot_spec fuel i largest l :
  lengthZ l = MAX_PROC → largest < MAX_PROC → 0 ≤ i →
  largest + 2 - i ≤ Z.of_nat fuel → (0 < fuel)%nat →
  ∃ r, find_free_slot fuel i largest l = Some r ∧
    match r with
    | Some j => i ≤ j ≤ largest ∧ l.[j] = Some None ∧
                ∀ k, i ≤ k < j → ∃ q, l.[k] = Some (Some q)
    | None => ∀ k, i ≤ k ≤ largest → ∃ q, l.[k] = Some (Some q)
    end.
Proof.
  intros Hlen Hlg. revert i. induction fuel as [|fuel IH]; intros i Hi Hf Hpos; [lia|].
  simpl. case_match eqn:Hle; [|exists None; split; [done|intros; lia]].
  destruct (lookupZ_lt l i) as [o Ho]; [lia|]. rewrite Ho. destruct o as [q|].
  - destruct (IH (i + 1)) as (r & Hr & Hspec); [lia..|]. exists r. split; [done|].
    destruct r as [j|].
    + destruct Hspec as (? & ? & Hk). split_and!; [lia|lia|done|].
      intros k ?. destruct (decide (k = i)) as [->|]; [eauto|]. apply Hk. lia.
    + intros k ?. destruct (decide (k = i)) as [->|]; [eauto|]. apply Hspec. lia.
  - exists (Some i). split_and!; [done|lia|lia|done|intros; lia].
Qed.

(** A table full up to pid 1 + [n] holds [n] processes. *)
Lemma full_table_size s (n : nat) :
  table_inv s →
  (∀ k, 2 ≤ k < 2 + Z.of_nat n → ∃ q, (active_proc_list s).[k] = Some (Some q)) →
  ∃ D : gset Z, D ⊆ dom (procs s) ∧ size D = n ∧
    ∀ p, p ∈ D → ∃ x, procs s !! p = Some x ∧ p_pid x < 2 + Z.of_nat n.
Proof.
  intros Hinv. induction n as [|n IH]; intros Hfull.
  - exists ∅. split_and!; [set_solver|done|set_solver].
  - destruct IH as (D & HD & Hsz & Hlt); [intros; apply Hfull; lia|].
    destruct (Hfull (2 + Z.of_nat n)) as [q Hq]; [lia|].
    apply (ti_iff _ Hinv) in Hq as (x & Hx & Hpid).
    assert (q ∉ D). { intros (y & Hy & ?)%Hlt. simplify_eq. lia. }
    exists ({[q]} ∪ D). split_and!.
    + apply union_subseteq; split; [|done]. apply singleton_subseteq_l, elem_of_dom. eauto.
    + rewrite size_union by set_solver. rewrite size_singleton. lia.
    + intros p [->%elem_of_singleton|Hp]%elem_of_union; [exists x; split; [done|lia]|].
      destruct (Hlt _ Hp) as (y & ? & ?). exists y. split; [done|lia].
Qed.

Lemma full_table_count s :
  table_inv s →
  (∀ k, 2 ≤ k ≤ current_largest_pid s → ∃ q, (active_proc_list s).[k] = Some (Some q)) →
  current_largest_pid s ≤ proc_count s + 1.
Proof.
  intros Hinv Hfull. destruct (ti_largest _ Hinv).
  destruct (full_table_size s (Z.to_nat (current_largest_pid s - 1)) Hinv) as (D & HD & Hsz & _).
  { intros k ?. apply Hfull. lia. }
  apply subseteq_size in HD. rewrite size_dom in HD.
  rewrite (ti_count _ Hinv). lia.
Qed.

Lemma table_inv_added p x i s0 s :
  table_inv s0 → procs s0 !! p = None →
  procs s = <[p := proc_set_pid i x]> (procs s0) →
  active_proc_list s = (active_proc_list s0).[i := Some p] →
  (active_proc_list s0).[i] = Some None → 2 ≤ i →
  current_largest_pid s = Z.max i (current_largest_pid s0) →
  proc_count s = proc_count s0 + 1 → p < next_ptr s → next_ptr s0 ≤ next_ptr s →
  table_inv s.
Proof.
  intros Hinv Hp Hpr Ht Hfree Hi Hl Hc Hfp Hn.
  destruct (Hinv) as [Hlen Hlg Hiff Hrg Hcnt Hfr].
  pose proof (lookupZ_Some_range _ _ _ Hfree) as Hir.
  constructor; rewrite ?Hpr, ?Ht, ?Hl, ?Hc.
  - by rewrite lengthZ_update.
  - lia.
  - intros j q. rewrite lookupZ_update by done. setoid_rewrite lookup_insert_Some.
    case_decide as E; subst.
    + split; [intros [= ->]; eexists; split; [by left|done]|].
      intros (y & [[-> <-]|[Hne Hq]] & Hy); [done|].
      exfalso. assert ((active_proc_list s0).[p_pid y] = Some (Some q)) as Hc'.
      { apply Hiff. eauto. } rewrite Hy in Hc'. congruence.
    + rewrite Hiff. split.
      * intros (y & Hq & Hy). exists y. split; [|done]. right. split; [|done].
        intros ->. congruence.
      * intros (y & [[-> <-]|[Hne Hq]] & Hy); [simpl in Hy; congruence|eauto].
  - intros q y [[-> <-]|[Hne Hq]]%lookup_insert_Some; [simpl; lia|].
    pose proof (Hrg _ _ Hq). lia.
  - rewrite map_size_insert_None by done. lia.
  - intros q y [[-> <-]|[Hne Hq]]%lookup_insert_Some; [done|].
    pose proof (Hfr _ _ Hq). lia.
Qed.

(** The state [s] in which add_to_active_proc_list is called differs from the
    consistent state [s0] by the unregistered process [p]. *)
Lemma add_to_active_proc_list_spec X p x s0 s :
  table_inv s0 → procs s0 !! p = None → procs s = <[p := x]> (procs s0) →
  active_proc_list s = active_proc_list s0 →
  current_largest_pid s = current_largest_pid s0 →
  proc_count s = proc_count s0 + 1 → proc_count s0 < PID_MAX - PID_MIN + 1 →
  p < next_ptr s → next_ptr s0 ≤ next_ptr s →
  wpx X (add_to_active_proc_list p)
    (λ _ s', ∃ i, procs s' = <[p := proc_set_pid i x]> (procs s0) ∧ table_inv s' ∧
       same_frame s s' ∧ PID_MIN ≤ i ≤ PID_MAX ∧ least_free (active_proc_list s0) i)
    (λ _ _, False) s.
Proof.
  intros Hinv Hp Hpr Ht Hl Hc Hlim Hfp Hn. destruct (Hinv) as [Hlen Hlg Hiff Hrg Hcnt Hfr].
  unfold PID_MAX, PID_MIN, MAX_PROC, least_free in *. unfold add_to_active_proc_list. wp_steps.
  destruct (find_free_slot_spec (Z.to_nat MAX_PROC) 2 (current_largest_pid s)
    (active_proc_list s)) as (r & Hr & Hspec); unfold MAX_PROC in *;
    [rewrite ?Ht, ?Hl; lia..|].
  eapply wp_deref; [done|]. rewrite Ht in Hspec. rewrite Hl in Hspec.
  assert (procs s !! p = Some x) as Hpx by (rewrite Hpr; apply lookup_insert_eq).
  destruct r as [i|].
  - destruct Hspec as (Hi & Hfree & Hk). wp_step. eapply wp_update_proc; [done|].
    apply wp_table_store; [simpl; rewrite Ht; lia|]. exists i. unfold PID_MIN.
    split_and!; try done; [..|lia|lia].
    + simpl. rewrite Hpr. apply insert_insert_eq.
    + eapply (table_inv_added p x i s0); simpl; rewrite ?Ht, ?Hpr, ?insert_insert_eq; try done; lia.
  - pose proof (full_table_count _ Hinv Hspec) as Hfc.
    destruct (lookupZ_lt (active_proc_list s0) (current_largest_pid s0 + 1)) as [o Ho]; [lia|].
    assert (o = None) as ->.
    { destruct o as [q|]; [|done]. apply Hiff in Ho as (y & Hy & Hpid).
      pose proof (Hrg _ _ Hy). lia. }
    cbv zeta. rewrite Hl. wp_step. wp_step. wp_step. eapply wp_update_proc; [done|].
    apply wp_table_store; [simpl; rewrite Ht; lia|].
    exists (current_largest_pid s0 + 1). unfold PID_MIN.
    split_and!; try done; [..|lia|lia|].
    + simpl. rewrite Hpr. apply insert_insert_eq.
    + eapply (table_inv_added p x (current_largest_pid s0 + 1) s0);
        simpl; rewrite ?Ht, ?Hpr, ?insert_insert_eq; try done; lia.
    + intros k Hk. apply Hspec. lia.
Qed.

(** ** Creating processes and threads *)

Lemma table_inv_frame s s' :
  table_inv s → procs s' = procs s → active_proc_list s' = active_proc_list s →
  current_largest_pid s' = current_largest_pid s → proc_count s' = proc_count s →
  next_ptr s ≤ next_ptr s' → table_inv s'.
Proof.
  intros [? ? Hiff Hrg ? Hfr] Hp Ht Hl Hc Hn.
  constructor; rewrite ?Hp, ?Ht, ?Hl, ?Hc; try done.
  intros p x Hx. specialize (Hfr _ _ Hx). lia.
Qed.

Section Asking.
Context {X : Prop}.

Lemma wp_ask (Q : bool → pstate → Prop) E s :
  (∀ b f, Q b (set_fate f s)) → wpx X ask Q E s.
Proof.
  intros HQ. unfold ask, wpx. destruct (fate s) eqn:Ef; [|apply HQ].
  specialize (HQ true []). rewrite <- Ef in HQ. by destruct s.
Qed.

Lemma wp_kmalloc (Q : option Z → pstate → Prop) E s :
  (∀ f, Q None (set_fate f s)) →
  (∀ f, Q (Some (next_ptr s)) (set_next (next_ptr s + 1) (set_fate f s))) →
  wpx X kmalloc Q E s.
Proof.
  intros H1 H2. unfold kmalloc. wp_step. apply wp_ask. intros [] f; wp_steps; auto.
Qed.

Lemma wp_cv_create (Q : bool → pstate → Prop) E s :
  (∀ b f, Q b (set_fate f s)) → wpx X cv_create Q E s.
Proof.
  intros HQ. unfold cv_create.
  wp_step. apply wp_ask. intros [] f1; simpl; [|apply wp_ret, HQ].
  wp_step. apply wp_ask. intros [] f2; simpl; [|apply wp_ret, HQ].
  apply wp_ask. intros b f3. apply HQ.
Qed.

Lemma wp_incref v (Q : unit → pstate → Prop) E s :
  (∀ f, Q tt (set_vrefs f s)) → wpx X (VOP_INCREF v) Q E s.
Proof. intros HQ. apply wp_modify, HQ. Qed.
End Asking.

(** A process as proc_create_runprogram hands it out. *)
Definition new_proc (cwd : option Z) (pid : Z) : proc :=
  mkProc [] None cwd (Some CONSOLE) 0 0 (-1) pid [] false.

Definition created (cwd : option Z) (s : pstate) (o : option Z) (s' : pstate) : Prop :=
  table_inv s' ∧ threads s' = threads s ∧ spaces s' = spaces s ∧
  next_ptr s ≤ next_ptr s' ∧
  match o with
  | None => procs s' = procs s
  | Some n => ∃ i, procs s' = <[n := new_proc cwd i]> (procs s) ∧ procs s !! n = None ∧
      next_ptr s ≤ n < next_ptr s' ∧ PID_MIN ≤ i ≤ PID_MAX ∧
      least_free (active_proc_list s) i
  end.

Lemma proc_create_runprogram_spec cwd s :
  table_inv s → proc_count s < PID_MAX - PID_MIN + 1 →
  wlp (proc_create_runprogram cwd) (created cwd s) (λ _ _, False) s.
Proof.
  intros Hinv Hlim. unfold proc_create_runprogram.
  assert (procs s !! next_ptr s = None) as Hfresh.
  { apply eq_None_not_Some. intros [x Hx]. pose proof (ti_fresh _ Hinv _ _ Hx). lia. }
  assert (∀ s', procs s' = procs s → active_proc_list s' = active_proc_list s →
    current_largest_pid s' = current_largest_pid s → proc_count s' = proc_count s →
    threads s' = threads s → spaces s' = spaces s →
    next_ptr s ≤ next_ptr s' → created cwd s None s') as Hnone.
  { intros s' ???????. split_and!; try done. by eapply table_inv_frame. }
  wp_step. unfold proc_create. wp_step. apply wp_kmalloc; intros f0;
    [wp_steps; apply Hnone; simpl; (done || lia)|].
  wp_step. apply wp_ask. intros b0 f1. destruct b0; simpl;
    [|wp_steps; apply Hnone; simpl; (done || lia)].
  wp_steps. apply wp_cv_create. intros b1 f2. destruct b1; simpl.
  2: { wp_steps. apply Hnone; simpl; try done; [|lia]. by apply delete_insert_id. }
  wp_step. eapply wp_update_proc; [apply lookup_insert_eq|].
  wp_step. eapply wp_update_proc; [apply lookup_insert_eq|].
  wp_step. apply wp_ask. intros [] f3; [|apply wp_bind, wp_panic]. wp_steps.
  apply wp_ask. intros [] f4; [|apply wp_bind, wp_panic]. wp_steps.
  apply wp_incref. intros f5.
  wp_step. eapply wp_update_proc; [apply lookup_insert_eq|].
  wp_step. eapply wp_update_proc; [apply lookup_insert_eq|]. wp_step.
  apply (wp_conseq _ (λ _ s', procs s' = <[next_ptr s := new_proc cwd 0]> (procs s) ∧
    active_proc_list s' = active_proc_list s ∧
    current_largest_pid s' = current_largest_pid s ∧ proc_count s' = proc_count s ∧
    threads s' = threads s ∧ spaces s' = spaces s ∧ next_ptr s' = next_ptr s + 1)
    _ (λ _ _, False)); [| |done].
  { destruct cwd as [v|].
    - wp_step. apply wp_incref. intros f6.
      eapply wp_update_proc; [apply lookup_insert_eq|]. simpl.
      by rewrite !insert_insert_eq.
    - wp_step. simpl. by rewrite !insert_insert_eq. }
  intros [] s2 (Hp2 & Ht2 & Hl2 & Hc2 & Hth2 & Hs2 & Hn2). wp_steps.
  eapply wp_conseq; [apply (add_to_active_proc_list_spec _ _ (new_proc cwd 0) s);
    simpl; (done || lia)| |done].
  intros [] s' (i & Hp' & Hinv' & (Ht & Hs & Hn) & Hi & Hlf). wp_steps. simpl in *.
  split_and!; try congruence; [lia|]. exists i. split_and!; try done; unfold PID_MIN in *; lia.
Qed.

Lemma proc_addthread_spec X n t x a s :
  procs s !! n = Some x → 
  wpx X (proc_addthread n t a)
    (λ _ s', ∃ f, s' = set_threads <[t := (n, a)]>
       (set_procs <[n := proc_set_threads (p_threads x ++ [t]) x]> (set_fate f s)))
    (λ _ s', ∃ f, s' = set_fate f s) s.
Proof.
  intros Hn. unfold proc_addthread. wp_step. apply wp_ask. intros [] f; [|wp_step; eauto].
  wp_step. eapply wp_update_proc; [done|]. wp_step. eauto.
Qed.

Lemma thread_fork_spec X n x a s :
  procs s !! n = Some x →
  wpx X (thread_fork n a)
    (λ t s', t = next_ptr s ∧ ∃ f, s' = set_threads <[t := (n, a)]>
       (set_procs <[n := proc_set_threads (p_threads x ++ [t]) x]>
          (set_next (next_ptr s + 1) (set_fate f s))))
    (λ _ s', ∃ f k, s' = set_next k (set_fate f s) ∧ next_ptr s ≤ k) s.
Proof.
  intros Hn. unfold thread_fork. wp_step. apply wp_kmalloc; intros f0.
  - wp_step. exists f0, (next_ptr s). split; [by destruct s|lia].
  - wp_step. apply wp_ask. intros [] f1; simpl;
      [|wp_step; exists f1, (next_ptr s + 1); split; [done|lia]].
    wp_step. apply wp_ask. intros [] f2; simpl;
      [|wp_step; exists f2, (next_ptr s + 1); split; [done|lia]].
    wp_step. eapply wp_conseq; [by apply (proc_addthread_spec _ _ _ x)| |].
    + intros [] s' [f ->]. wp_step. eauto.
    + intros e s' [f ->]. exists f, (next_ptr s + 1). split; [done|simpl; lia].
Qed.

(** ** The life cycle *)

(** What holds of process [x], stored at [p], and its thread [t], given the
    thread's activity. *)
Definition activity_ok (m : gmap Z proc) (t : Z) (x : proc) (a : activity) : Prop :=
  match a with
  | Starting => p_addrspace x = None ∧ p_waiters x = []
  | Running => is_Some (p_addrspace x) ∧ p_waiters x = []
  | Asleep c => is_Some (p_addrspace x) ∧ p_waiters x = [t] ∧
      ∃ y, m !! c = Some y ∧ p_parent_pid y = p_pid x ∧ p_exit y = 0
  | Woken c => is_Some (p_addrspace x) ∧ p_waiters x = [] ∧
      ∃ y, m !! c = Some y ∧ p_parent_pid y = p_pid x
  end.

(** [dead] is a pid whose exited children are about to be reaped; 0 if none. *)
Record life_inv (dead : Z) (m : gmap Z proc) (th : gmap Z (Z * activity)) (nxt : Z) : Prop := {
  li_exit : ∀ p x, m !! p = Some x → p_exit x = 0 ∨ p_exit x = 1;
  li_parent : ∀ p x, m !! p = Some x →
    p_parent_pid x = -1 ∨ PID_MIN ≤ p_parent_pid x ≤ PID_MAX;
  li_self : ∀ p x, m !! p = Some x → p_parent_pid x ≠ p_pid x;
  li_zombie : ∀ p x, m !! p = Some x → p_exit x = 1 →
    p_threads x = [] ∧ p_addrspace x = None ∧ p_waiters x = [] ∧
    (p_parent_pid x ≠ dead →
     ∃ q y, m !! q = Some y ∧ p_pid y = p_parent_pid x ∧ p_exit y = 0);
  li_live : ∀ p x, m !! p = Some x → p_exit x = 0 →
    ∃ t a, p_threads x = [t] ∧ th !! t = Some (p, a);
  li_thread : ∀ t p a, th !! t = Some (p, a) →
    ∃ x, m !! p = Some x ∧ p_exit x = 0 ∧ p_threads x = [t] ∧ t < nxt ∧ activity_ok m t x a
}.

Definition proc_inv (s : pstate) : Prop :=
  table_inv s ∧ life_inv 0 (procs s) (threads s) (next_ptr s).

(** Reaping the exited children of [pid], when no thread belongs to [pid]. *)
Lemma life_inv_reap pid m th nxt :
  life_inv pid m th nxt →
  (∀ t p a x, th !! t = Some (p, a) → m !! p = Some x → p_pid x ≠ pid) →
  life_inv 0 (reap pid m) th nxt.
Proof.
  intros [He Hpa Hse Hz Hl Ht] Hno.
  assert (∀ p x, m !! p = Some x → p_exit x = 0 → reap pid m !! p = Some x) as Hkeep.
  { intros p x Hp E. apply lookup_reap. split; [done|]. unfold zombie_of. lia. }
  constructor.
  - intros p x [Hp _]%lookup_reap. eauto.
  - intros p x [Hp _]%lookup_reap. eauto.
  - intros p x [Hp _]%lookup_reap. eauto.
  - intros p x [Hp Hnz]%lookup_reap E. destruct (Hz _ _ Hp E) as (?&?&?&Hpar).
    split_and!; try done. intros _. destruct Hpar as (q & y & ? & ? & ?).
    { intros E'. apply Hnz. by split. }
    exists q, y. auto.
  - intros p x [Hp _]%lookup_reap. eauto.
  - intros t p a Hta. destruct (Ht _ _ _ Hta) as (x & Hp & E & Hth & Hn & Ha).
    exists x. split_and!; auto. destruct a as [| |c|c]; simpl in *; try done.
    + destruct Ha as (? & ? & y & ? & ? & ?). eauto 10.
    + destruct Ha as (? & ? & y & Hy & E'). split_and!; try done. exists y.
      split; [|done]. apply lookup_reap. split; [done|]. intros [E1 _].
      eapply Hno; eauto. congruence.
Qed.

(** A process that nobody will wait for goes away with its thread. *)
Lemma life_inv_orphan_exit m th nxt p x t a :
  life_inv 0 m th nxt → (∀ q y, m !! q = Some y → p_pid y = p_pid x → q = p) →
  m !! p = Some x → th !! t = Some (p, a) → p_threads x = [t] →
  (∀ q y, m !! q = Some y → p_pid y = p_parent_pid x → p_exit y ≠ 0) →
  life_inv (p_pid x) (delete p m) (delete t th) nxt.
Proof.
  intros [He Hpa Hse Hz Hl Ht] Hinj Hp Hta Hth Horph. constructor.
  - intros q y [_ Hq]%lookup_delete_Some. eauto.
  - intros q y [_ Hq]%lookup_delete_Some. eauto.
  - intros q y [_ Hq]%lookup_delete_Some. eauto.
  - intros q y [Hne Hq]%lookup_delete_Some E. destruct (Hz _ _ Hq E) as (?&?&?&Hpar).
    split_and!; try done. intros Hd. destruct (Hpar) as (r & z & Hr & Hrp & ?).
    { pose proof (Hpa _ _ Hq). unfold PID_MIN in *. lia. }
    exists r, z. split_and!; try done. apply lookup_delete_Some. split; [|done].
    intros <-. simplify_eq.
  - intros q y [Hne Hq]%lookup_delete_Some E. destruct (Hl _ _ Hq E) as (u & b & Hu & Hub).
    exists u, b. split; [done|]. apply lookup_delete_Some. split; [|done].
    intros <-. simplify_eq.
  - intros u q b [Hne Hub]%lookup_delete_Some.
    destruct (Ht _ _ _ Hub) as (y & Hq & E & Hu & Hn & Ha).
    assert (p ≠ q) by (intros <-; simplify_eq; congruence). exists y.
    split_and!; try done; [by apply lookup_delete_Some|].
    destruct b as [| |c|c]; simpl in *; try done;
      destruct Ha as (? & ? & z & Hc & Hz'); split_and!; try done; exists z;
      (split; [|done]); apply lookup_delete_Some; (split; [|done]); intros <-;
      simplify_eq; eapply Horph; eauto; naive_solver.
Qed.

(** Moving thread [t] of process [p] to activity [a'], its process becoming [x']
    with the same identity: the other threads see no difference. *)
Lemma life_inv_move d m th nxt p x x' t a a' :
  life_inv d m th nxt → m !! p = Some x → th !! t = Some (p, a) →
  p_pid x' = p_pid x → p_parent_pid x' = p_parent_pid x → p_exit x' = p_exit x →
  p_threads x' = p_threads x →
  activity_ok (<[p := x']> m) t x' a' →
  life_inv d (<[p := x']> m) (<[t := (p, a')]> th) nxt.
Proof.
  intros [He Hpa Hse Hz Hl Ht] Hp Hta E1 E2 E3 E4 Hok.
  destruct (Ht _ _ _ Hta) as (x0 & Hp0 & Hx0 & Hth0 & Hn0 & _). simplify_eq.
  assert (∀ c z, m !! c = Some z → ∃ z', <[p := x']> m !! c = Some z' ∧
    p_pid z' = p_pid z ∧ p_parent_pid z' = p_parent_pid z ∧ p_exit z' = p_exit z) as Hsim.
  { intros c z Hc. destruct (decide (c = p)) as [->|].
    - simplify_eq. exists x'. by rewrite lookup_insert_eq.
    - exists z. by rewrite lookup_insert_ne. }
  constructor.
  - intros q y [[-> <-]|[_ Hq]]%lookup_insert_Some; [rewrite E3|]; eauto.
  - intros q y [[-> <-]|[_ Hq]]%lookup_insert_Some; [rewrite E2|]; eauto.
  - intros q y [[-> <-]|[_ Hq]]%lookup_insert_Some; [rewrite E1, E2|]; eauto.
  - intros q y [[-> <-]|[_ Hq]]%lookup_insert_Some E; [congruence|].
    destruct (Hz _ _ Hq E) as (?&?&?&Hpar). split_and!; try done.
    intros (r & z & Hr & ? & ?)%Hpar. destruct (Hsim _ _ Hr) as (z' & ? & ? & ? & ?).
    exists r, z'. split_and!; congruence.
  - intros q y [[-> <-]|[Hne Hq]]%lookup_insert_Some E.
    + exists t, a'. rewrite lookup_insert_eq, E4. done.
    + destruct (Hl _ _ Hq E) as (u & b & Hu & Hub). exists u, b. split; [done|].
      rewrite lookup_insert_ne; [done|]. intros <-. simplify_eq.
  - intros u q b [[-> [= <- <-]]|[Hne Hub]]%lookup_insert_Some.
    + exists x'. rewrite lookup_insert_eq, E3, E4. done.
    + destruct (Ht _ _ _ Hub) as (y & Hq & E & Hu & Hn & Ha).
      assert (p ≠ q) by (intros <-; simplify_eq; congruence).
      exists y. rewrite lookup_insert_ne by done. split_and!; try done.
      destruct b as [| |c|c]; simpl in *; try done;
        destruct Ha as (? & ? & z & Hc & Hcz); destruct (Hsim _ _ Hc) as (z' & ? & ? & ? & ?);
        split_and!; try done; exists z'; naive_solver congruence.
Qed.

(** A process whose parent is alive becomes a zombie. *)
Lemma life_inv_zombie_exit m th nxt p x x' t a q y :
  life_inv 0 m th nxt → (∀ r z, m !! r = Some z → p_pid z = p_pid x → r = p) →
  m !! p = Some x → th !! t = Some (p, a) → p_threads x = [t] → p_exit x = 0 →
  m !! q = Some y → p_pid y = p_parent_pid x → p_exit y = 0 →
  (∀ u r c, th !! u = Some (r, Asleep c) → c ≠ p) →
  p_pid x' = p_pid x → p_parent_pid x' = p_parent_pid x → p_exit x' = 1 →
  p_threads x' = [] → p_addrspace x' = None → p_waiters x' = [] →
  life_inv (p_pid x) (<[p := x']> m) (delete t th) nxt.
Proof.
  intros [He Hpa Hse Hz Hl Ht] Hinj Hp Hta Hth Hx Hq Hpar Hy Hnas E1 E2 E3 E4 E5 E6.
  assert (p ≠ q) as Hpq by (intros <-; simplify_eq; eapply Hse; eauto).
  constructor.
  - intros r z [[-> <-]|[_ Hr]]%lookup_insert_Some; [rewrite E3; auto|eauto].
  - intros r z [[-> <-]|[_ Hr]]%lookup_insert_Some; [rewrite E2|]; eauto.
  - intros r z [[-> <-]|[_ Hr]]%lookup_insert_Some; [rewrite E1, E2|]; eauto.
  - intros r z [[-> <-]|[Hne Hr]]%lookup_insert_Some E.
    + split_and!; try done. intros _. exists q, y. rewrite lookup_insert_ne by done.
      split_and!; congruence.
    + destruct (Hz _ _ Hr E) as (?&?&?&Hw). split_and!; try done. intros Hd.
      destruct Hw as (v & w & Hv & Hvp & ?). { pose proof (Hpa _ _ Hr). unfold PID_MIN in *. lia. }
      exists v, w. rewrite lookup_insert_ne; [done|]. intros <-. congruence.
  - intros r z [[-> <-]|[Hne Hr]]%lookup_insert_Some E; [lia|].
    destruct (Hl _ _ Hr E) as (u & b & Hu & Hub). exists u, b. split; [done|].
    apply lookup_delete_Some. split; [|done]. intros <-. simplify_eq.
  - intros u r b [Hne Hub]%lookup_delete_Some.
    destruct (Ht _ _ _ Hub) as (z & Hr & E & Hu & Hn & Ha).
    assert (p ≠ r) by (intros <-; simplify_eq; congruence).
    exists z. rewrite lookup_insert_ne by done. split_and!; try done.
    destruct b as [| |c|c]; simpl in *; try done; destruct Ha as (? & ? & w & Hc & Hw).
    + assert (c ≠ p) by (eapply Hnas; eauto). split_and!; try done.
      exists w. by rewrite lookup_insert_ne.
    + split_and!; try done. destruct (decide (c = p)) as [->|].
      * exists x'. rewrite lookup_insert_eq. simplify_eq. split; congruence.
      * exists w. by rewrite lookup_insert_ne.
Qed.

(** A fresh process [n] with one fresh thread [t]. *)
Lemma life_inv_add m th nxt nxt' n x t a :
  life_inv 0 m th nxt → m !! n = None → th !! t = None → nxt ≤ nxt' → t < nxt' →
  p_threads x = [t] → p_exit x = 0 → p_waiters x = [] →
  p_parent_pid x = -1 ∨ PID_MIN ≤ p_parent_pid x ≤ PID_MAX →
  p_parent_pid x ≠ p_pid x →
  (a = Starting ∧ p_addrspace x = None ∨ a = Running ∧ is_Some (p_addrspace x)) →
  life_inv 0 (<[n := x]> m) (<[t := (n, a)]> th) nxt'.
Proof.
  intros [He Hpa Hse Hz Hl Ht] Hn Htn Hle Hlt Hth Hx Hw Hpar Hself Ha.
  assert (∀ c y, m !! c = Some y → <[n := x]> m !! c = Some y) as Hmono.
  { intros c y Hc. rewrite lookup_insert_ne; [done|]. intros <-. congruence. }
  constructor.
  - intros q y [[-> <-]|[_ Hq]]%lookup_insert_Some; [auto|eauto].
  - intros q y [[-> <-]|[_ Hq]]%lookup_insert_Some; [auto|eauto].
  - intros q y [[-> <-]|[_ Hq]]%lookup_insert_Some; [auto|eauto].
  - intros q y [[-> <-]|[_ Hq]]%lookup_insert_Some E; [lia|].
    destruct (Hz _ _ Hq E) as (?&?&?&Hp). split_and!; try done.
    intros (r & z & ? & ? & ?)%Hp. exists r, z. auto.
  - intros q y [[-> <-]|[_ Hq]]%lookup_insert_Some E.
    + exists t, a. by rewrite lookup_insert_eq.
    + destruct (Hl _ _ Hq E) as (u & b & Hu & Hub). exists u, b. split; [done|].
      rewrite lookup_insert_ne; [done|]. intros <-. congruence.
  - intros u q b [[-> [= <- <-]]|[Hne Hub]]%lookup_insert_Some.
    + exists x. rewrite lookup_insert_eq. split_and!; try done. destruct Ha as [[-> ?]|[-> ?]]; done.
    + destruct (Ht _ _ _ Hub) as (y & Hq & E & Hu & Hu' & Hb). exists y.
      split_and!; auto; [lia|]. destruct b as [| |c|c]; simpl in *; naive_solver.
Qed.

(** Destroying a zombie. *)
Lemma life_inv_delete_zombie m th nxt c z :
  life_inv 0 m th nxt → m !! c = Some z → p_exit z = 1 →
  (∀ t p, th !! t = Some (p, Woken c) → False) →
  life_inv 0 (delete c m) th nxt.
Proof.
  intros [He Hpa Hse Hz Hl Ht] Hc Hz1 Hnw. constructor.
  - intros q y [_ Hq]%lookup_delete_Some. eauto.
  - intros q y [_ Hq]%lookup_delete_Some. eauto.
  - intros q y [_ Hq]%lookup_delete_Some. eauto.
  - intros q y [Hne Hq]%lookup_delete_Some E. destruct (Hz _ _ Hq E) as (?&?&?&Hp).
    split_and!; try done. intros (r & w & Hr & ? & ?)%Hp. exists r, w.
    split_and!; try done. apply lookup_delete_Some. split; [|done]. intros <-. simplify_eq. lia.
  - intros q y [Hne Hq]%lookup_delete_Some. eauto.
  - intros u q b Hub. destruct (Ht _ _ _ Hub) as (y & Hq & E & Hu & Hu' & Hb). exists y.
    split_and!; try done; [apply lookup_delete_Some; split; [intros <-; simplify_eq; lia|done]|].
    destruct b as [| |d|d]; simpl in *; try done; destruct Hb as (? & ? & w & Hd & Hw);
      split_and!; try done; exists w; (split; [|done]); apply lookup_delete_Some;
      (split; [|done]); intros <-; simplify_eq.
    + lia.
    + eauto.
Qed.

(** ** System calls preserve the invariant *)

Lemma table_inv_update s s' p x x' :
  table_inv s → procs s !! p = Some x → p_pid x' = p_pid x →
  procs s' = <[p := x']> (procs s) → active_proc_list s' = active_proc_list s →
  current_largest_pid s' = current_largest_pid s → proc_count s' = proc_count s →
  next_ptr s ≤ next_ptr s' → table_inv s'.
Proof.
  intros [? ? Hiff Hrg Hc Hfr] Hp E Hpr Ht Hl Hcn Hn.
  constructor; rewrite ?Hpr, ?Ht, ?Hl, ?Hcn; try done.
  - intros i q. rewrite Hiff. setoid_rewrite lookup_insert_Some. split.
    + intros (y & Hq & Hy). destruct (decide (p = q)) as [->|]; [|by eauto].
      simplify_eq. eauto.
    + intros (y & [[-> <-]|[_ Hq]] & Hy); eauto. exists x. split; congruence.
  - intros q y [[-> <-]|[_ Hq]]%lookup_insert_Some; [rewrite E|]; eauto.
  - by rewrite map_size_insert_Some.
  - intros q y [[-> <-]|[_ Hq]]%lookup_insert_Some; [|apply Hfr in Hq; lia].
    apply Hfr in Hp. lia.
Qed.

Lemma life_zombies_quiet d s s' :
  life_inv d (procs s) (threads s) (next_ptr s) → procs s' = procs s → zombies_quiet s'.
Proof. intros H E p x Hp Hx. rewrite E in Hp. destruct (li_zombie _ _ _ _ H _ _ Hp Hx). naive_solver. Qed.

(** The table agrees with the heap on who has a pid. *)
Lemma table_lookup s pid :
  table_inv s → PID_MIN ≤ pid ≤ PID_MAX →
  ∃ o, (active_proc_list s).[pid] = Some o ∧
    match o with
    | Some q => ∃ y, procs s !! q = Some y ∧ p_pid y = pid
    | None => ∀ q y, procs s !! q = Some y → p_pid y ≠ pid
    end.
Proof.
  intros [Hlen _ Hiff _ _ _] Hpid. unfold PID_MIN, PID_MAX, MAX_PROC in *.
  destruct (lookupZ_lt (active_proc_list s) pid) as [o Ho]; [lia|].
  exists o. split; [done|]. destruct o as [q|]; [by apply Hiff|].
  intros q y Hq E. assert ((active_proc_list s).[pid] = Some (Some q)); [|congruence].
  apply Hiff. eauto.
Qed.

Lemma parent_checker_spec X s pid :
  table_inv s → PID_MIN ≤ pid ≤ PID_MAX →
  wpx X (parent_checker pid)
    (λ r s', s' = s ∧
       (r = 1 ∧ (∃ q y, (active_proc_list s).[pid] = Some (Some q) ∧
                        procs s !! q = Some y ∧ p_pid y = pid ∧ p_exit y ≠ 1) ∨
        r = 0 ∧ (∀ q y, procs s !! q = Some y → p_pid y = pid → p_exit y = 1)))
    (λ _ _, False) s.
Proof.
  intros Hinv Hpid. destruct (table_lookup _ _ Hinv Hpid) as (o & Ho & Hspec).
  unfold parent_checker, PID_MIN, PID_MAX in *.
  wp_step. apply wp_kassert; [lia|]. wp_step. apply wp_kassert; [lia|].
  replace (pid =? -1) with false by lia. wp_steps. eapply wp_deref; [done|].
  destruct o as [q|].
  - destruct Hspec as (y & Hy & Hyp). wp_step. eapply wp_read_proc; [done|]. wp_step.
    split; [done|]. case_match; [right|left].
    + split; [done|]. intros q' y' Hq' Hp'.
      assert (q' = q) as -> by (eapply pid_injective; eauto; congruence).
      simplify_eq. lia.
    + split; [done|]. exists q, y. split_and!; try done. lia.
  - wp_step. split; [done|]. right. split; [done|]. intros q y Hq E. by destruct (Hspec _ _ Hq).
Qed.

Lemma find_proc_spec X s pid :
  table_inv s → PID_MIN ≤ pid ≤ PID_MAX →
  wpx X (find_proc pid) (λ o s', s' = s ∧ (active_proc_list s).[pid] = Some o) (λ _ _, False) s.
Proof.
  intros Hinv Hpid. destruct (table_lookup _ _ Hinv Hpid) as (o & Ho & _).
  unfold find_proc, PID_MIN, PID_MAX in *.
  wp_step. apply wp_kassert; [lia|]. wp_step. apply wp_kassert; [lia|]. wp_steps.
  by eapply wp_deref.
Qed.

Lemma proc_remthread_spec X t p a x s :
  threads s !! t = Some (p, a) → procs s !! p = Some x → p_threads x = [t] →
  wpx X (proc_remthread t)
    (λ _ s', s' = set_threads (delete t) (set_procs <[p := proc_set_threads [] x]> s))
    (λ _ _, False) s.
Proof.
  intros Ht Hp Hx. unfold proc_remthread. wp_steps. eapply wp_deref; [done|].
  cbv zeta. simpl. wp_step. eapply wp_read_proc; [done|].
  rewrite Hx, bool_decide_true by set_solver.
  wp_step. eapply wp_update_proc; [done|]. wp_step.
  replace (filter (λ u, u ≠ t) [t]) with (@nil Z); [done|].
  symmetry. by rewrite filter_cons_False, filter_nil by naive_solver.
Qed.

(** The process left behind by the first half of sys__exit. *)
Definition detached (x : proc) : proc := proc_set_threads [] (proc_set_addrspace None x).

Lemma life_woken_injective d m th nxt (s : pstate) t p c t' p' :
  life_inv d m th nxt → (∀ q q' y y', m !! q = Some y → m !! q' = Some y' →
    p_pid y = p_pid y' → q = q') →
  th !! t = Some (p, Woken c) → th !! t' = Some (p', Woken c) → t = t'.
Proof.
  intros H Hinj Ht Ht'.
  destruct (li_thread _ _ _ _ H _ _ _ Ht) as (x & Hp & _ & Hx & _ & _ & _ & y & Hy & E).
  destruct (li_thread _ _ _ _ H _ _ _ Ht') as (x' & Hp' & _ & Hx' & _ & _ & _ & y' & Hy' & E').
  assert (p = p') as <- by (eapply Hinj; eauto; congruence). simplify_eq. congruence.
Qed.

Lemma cv_signal_child_spec X q y s :
  procs s !! q = Some y →
  (p_waiters y = [] ∨ ∃ u c, p_waiters y = [u] ∧ threads s !! u = Some (q, Asleep c)) →
  wpx X (cv_signal_child q)
    (λ _ s', p_waiters y = [] ∧ s' = s ∨
       ∃ u c, p_waiters y = [u] ∧ threads s !! u = Some (q, Asleep c) ∧
         s' = set_threads <[u := (q, Woken c)]> (set_procs <[q := proc_set_waiters [] y]> s))
    (λ _ _, False) s.
Proof.
  intros Hq Hw. unfold cv_signal_child. wp_step. eapply wp_read_proc; [done|].
  destruct Hw as [E|(u & c & E & Hu)]; rewrite E.
  - wp_step. auto.
  - wp_step. eapply wp_update_proc; [done|]. unfold wake_thread. wp_steps. simpl.
    rewrite Hu. wp_step. right. eauto 6.
Qed.

(** Waiters of a live process, read off its thread. *)
Lemma live_waiters d m th nxt q y :
  life_inv d m th nxt → m !! q = Some y → p_exit y = 0 →
  p_waiters y = [] ∧ (∀ u c, th !! u ≠ Some (q, Asleep c)) ∨
  ∃ u c, p_waiters y = [u] ∧ th !! u = Some (q, Asleep c) ∧
    (∀ u' c', th !! u' = Some (q, Asleep c') → u' = u).
Proof.
  intros H Hq E. destruct (li_live _ _ _ _ H _ _ Hq E) as (u & a & Hu & Hua).
  assert (∀ u' a', th !! u' = Some (q, a') → u' = u) as Huniq.
  { intros u' a' Hu'. destruct (li_thread _ _ _ _ H _ _ _ Hu') as (z & Hz & _ & Hz' & _).
    simplify_eq. congruence. }
  destruct (li_thread _ _ _ _ H _ _ _ Hua) as (z & Hz & _ & _ & _ & Ha). simplify_eq.
  destruct a as [| |c|c]; simpl in Ha.
  1,2,4: left; split; [naive_solver|]; intros u' c' Hu';
    rewrite (Huniq _ _ Hu') in Hu'; congruence.
  right. exists u, c. split_and!; [naive_solver|done|]. intros u' c' Hu'. eauto.
Qed.

(** What a step of another thread may do to a thread: leave it, or wake it. *)
Definition others_kept (t : Z) (s s' : pstate) : Prop :=
  ∀ v r a, v ≠ t → threads s !! v = Some (r, a) →
  ∃ a', threads s' !! v = Some (r, a') ∧ (a' = a ∨ ∃ c, a = Asleep c ∧ a' = Woken c).
(** No process appears, none changes its pid or its parent. *)
Definition pids_kept (m m' : gmap Z proc) : Prop :=
  ∀ r z, m' !! r = Some z →
  ∃ z0, m !! r = Some z0 ∧ p_pid z0 = p_pid z ∧ p_parent_pid z0 = p_parent_pid z.

(** What sys__exit does: the calling thread is gone, no exited child of the
    process remains, and the process is either destroyed (nobody is left to wait
    for it) or a zombie holding the encoded exit code for its live parent. *)
Definition exited (p : Z) (x : proc) (t code : Z) (s s' : pstate) : Prop :=
  threads s' !! t = None ∧ others_kept t s s' ∧ pids_kept (procs s) (procs s') ∧
  (∀ q y, procs s' !! q = Some y → ¬ zombie_of (p_pid x) y) ∧
  (procs s' !! p = None ∧
     (∀ q y, procs s !! q = Some y → p_pid y = p_parent_pid x → p_exit y = 1) ∨
   (∃ x', procs s' !! p = Some x' ∧ p_pid x' = p_pid x ∧ p_exit x' = 1 ∧
      p_exitcode x' = _MKWAIT_EXIT code) ∧
   (∃ q y, procs s !! q = Some y ∧ p_pid y = p_parent_pid x ∧ p_exit y = 0)).

Lemma sys__exit_orphan X p x t s s1 :
  proc_inv s → procs s !! p = Some x → threads s !! t = Some (p, Running) →
  p_threads x = [t] → p_waiters x = [] → table_inv s1 →
  procs s1 = <[p := detached x]> (procs s) → threads s1 = delete t (threads s) →
  next_ptr s1 = next_ptr s →
  (∀ q y, procs s !! q = Some y → p_pid y = p_parent_pid x → p_exit y = 1) →
  zombies_quiet s1 →
  wpx X (exited_children_cleanup (p_pid x) ;; proc_destroy p)
    (λ _ s', proc_inv s' ∧ procs s' = reap (p_pid x) (delete p (procs s)) ∧
             threads s' = delete t (threads s)) (λ _ _, False) s1.
Proof.
  intros [Hti Hli] Hp Ht Hth Hw Hti1 Hp1 Ht1 Hn1 Horph Hzq.
  destruct (li_thread _ _ _ _ Hli _ _ _ Ht) as (x0 & ? & Hex & _). simplify_eq.
  wp_step. eapply wp_conseq; [by apply exited_children_cleanup_spec| |done].
  intros [] s2 (Hti2 & Hp2 & Hth2 & _ & Hn2).
  eapply wp_conseq; [eapply (proc_destroy_spec _ p (detached x)); try done| |done].
  { rewrite Hp2, Hp1. apply lookup_reap. rewrite lookup_insert_eq. split; [done|].
    intros [_ ?]. simpl in *. lia. }
  intros [] s3 [Hti3 (Hp3 & Hth3 & _ & Hn3 & _)].
  assert (procs s3 = reap (p_pid x) (delete p (procs s))) as E3.
  { rewrite Hp3, Hp2, Hp1. unfold reap. rewrite <- map_filter_delete.
    by rewrite delete_insert_eq. }
  split; [split; [done|]|split; [done|congruence]].
  rewrite E3, Hth3, Hth2, Ht1, Hn3, Hn2, Hn1. apply life_inv_reap.
  - eapply life_inv_orphan_exit; try done.
    + intros q y Hq E. eapply (pid_injective s q p y x); eauto.
    + intros q y Hq E. rewrite (Horph _ _ Hq E). done.
  - intros u q b y [Hne Hu]%lookup_delete_Some [Hne' Hq]%lookup_delete_Some E.
    apply Hne'. by eapply (pid_injective s p q x y).
Qed.

Lemma sys__exit_alone X p x t code s s1 :
  proc_inv s → procs s !! p = Some x → threads s !! t = Some (p, Running) →
  p_threads x = [t] → p_waiters x = [] → table_inv s1 →
  procs s1 = <[p := detached x]> (procs s) → threads s1 = delete t (threads s) →
  next_ptr s1 = next_ptr s →
  (∀ q y, procs s !! q = Some y → p_pid y = p_parent_pid x → p_exit y = 1) →
  wpx X (exited_children_cleanup (p_pid x) ;; proc_destroy p)
    (λ _ s', proc_inv s' ∧ exited p x t code s s') (λ _ _, False) s1.
Proof.
  intros Hinv Hp Ht Hth Hw Hti1 Hp1 Ht1 Hn1 Horph.
  eapply wp_conseq; [apply (sys__exit_orphan _ p x t s s1); try done| |done].
  { intros r z. rewrite Hp1. intros [[-> <-]|[_ Hr]]%lookup_insert_Some E; [done|].
    by destruct (li_zombie _ _ _ _ (proj2 Hinv) _ _ Hr E) as (?&?&?&_). }
  intros [] s' (Hinv' & Hp' & Ht'). split; [done|]. split_and!.
  - by rewrite Ht', lookup_delete_eq.
  - intros v r b Hne Hv. exists b. rewrite Ht', lookup_delete_ne by done. auto.
  - intros r z. rewrite Hp'. intros [[_ ?]%lookup_delete_Some _]%lookup_reap. eauto.
  - intros q y. rewrite Hp'. by intros [_ ?]%lookup_reap.
  - left. split; [|done]. rewrite Hp'. apply eq_None_not_Some. intros [y [Hy _]%lookup_reap].
    by rewrite lookup_delete_eq in Hy.
Qed.

(** The life cycle after a process [x] with a live parent [y] has been marked as
    exited and the parent has been signalled. *)
Section ExitSignal.
Context (m : gmap Z proc) (th : gmap Z (Z * activity)) (nxt p t code q : Z) (x y : proc).
Context (Hli : life_inv 0 m th nxt).
Context (Hinj : ∀ r r' z z', m !! r = Some z → m !! r' = Some z' → p_pid z = p_pid z' → r = r').
Context (Hp : m !! p = Some x) (Ht : th !! t = Some (p, Running)) (Hth : p_threads x = [t]).
Context (Hw : p_waiters x = []) (Hex : p_exit x = 0).
Context (Hq : m !! q = Some y) (Hqp : p_pid y = p_parent_pid x) (Hy : p_exit y = 0).

Definition exit_mark : proc := proc_set_exit 1 (_MKWAIT_EXIT code) (detached x).

Lemma exit_parent_ne : p ≠ q.
Proof. intros <-. simplify_eq. by eapply (li_self _ _ _ _ Hli). Qed.

(** Only the parent's thread can be asleep waiting for [p]. *)
Lemma exit_waiter u r : th !! u = Some (r, Asleep p) → r = q ∧ p_waiters y = [u].
Proof.
  intros Hu. destruct (li_thread _ _ _ _ Hli _ _ _ Hu)
    as (z & Hr & _ & _ & _ & _ & Hzw & z' & Hz' & E & _).
  simplify_eq. assert (r = q) as -> by (eapply Hinj; eauto; congruence).
  simplify_eq. done.
Qed.

Lemma life_inv_exit_unwaited :
  p_waiters y = [] → life_inv (p_pid x) (<[p := exit_mark]> m) (delete t th) nxt.
Proof.
  intros Hw0. eapply (life_inv_zombie_exit _ _ _ p x exit_mark t _ q y); try done.
  - intros r z Hr E. by eapply (Hinj r p z x).
  - intros u r c Hu ->. destruct (exit_waiter _ _ Hu). congruence.
Qed.

Lemma life_inv_exit_waited u c :
  p_waiters y = [u] → th !! u = Some (q, Asleep c) →
  life_inv (p_pid x) (<[q := proc_set_waiters [] y]> (<[p := exit_mark]> m))
    (<[u := (q, Woken c)]> (delete t th)) nxt.
Proof.
  intros Hwu Hu. pose proof exit_parent_ne as Hpq.
  assert (t ≠ u) by (intros <-; simplify_eq).
  rewrite (insert_insert_ne _ q p) by done. rewrite <- delete_insert_ne by done.
  eapply (life_inv_zombie_exit _ _ _ p x exit_mark t Running q (proc_set_waiters [] y));
    try done.
  - eapply (life_inv_move _ _ _ _ q y _ u (Asleep c)); try done. simpl.
    destruct (li_thread _ _ _ _ Hli _ _ _ Hu) as (z & Hz & _ & _ & _ & Ha & _ & z' & Hz' & E & _).
    simplify_eq. split_and!; try done. destruct (decide (c = q)) as [->|].
    { exists (proc_set_waiters [] y). rewrite lookup_insert_eq. simplify_eq. done. }
    exists z'. by rewrite lookup_insert_ne.
  - intros r z [[-> <-]|[_ Hr]]%lookup_insert_Some E.
    + by eapply (Hinj r p y x).
    + by eapply (Hinj r p z x).
  - by rewrite lookup_insert_ne.
  - by rewrite lookup_insert_ne.
  - by rewrite lookup_insert_eq.
  - intros v r d Hv ->. apply lookup_insert_Some in Hv as [[-> [=]]|[Hne' Hv]].
    destruct (exit_waiter _ _ Hv). congruence.
Qed.
End ExitSignal.

Lemma pids_kept_insert m p x x' :
  m !! p = Some x → p_pid x = p_pid x' → p_parent_pid x = p_parent_pid x' →
  pids_kept m (<[p := x']> m).
Proof. intros ??? r z [[-> <-]|[_ ?]]%lookup_insert_Some; eauto. Qed.

Lemma pids_kept_trans m1 m2 m3 : pids_kept m1 m2 → pids_kept m2 m3 → pids_kept m1 m3.
Proof.
  intros H1 H2 r z Hz. destruct (H2 _ _ Hz) as (z' & Hz' & ? & ?).
  destruct (H1 _ _ Hz') as (z0 & ? & ? & ?). exists z0. split_and!; congruence.
Qed.

(** The state after the parent [q] of the exiting [p] has been signalled. *)
Definition signalled (p : Z) (x : proc) (t code : Z) (s s' : pstate) : Prop :=
  table_inv s' ∧ life_inv (p_pid x) (procs s') (threads s') (next_ptr s') ∧
  threads s' !! t = None ∧ procs s' !! p = Some (exit_mark code x) ∧
  others_kept t s s' ∧ pids_kept (procs s) (procs s').

Lemma exit_signal X p x t code q y s s2 :
  proc_inv s → procs s !! p = Some x → threads s !! t = Some (p, Running) →
  p_threads x = [t] → p_waiters x = [] → p_exit x = 0 → table_inv s2 →
  procs s2 = <[p := exit_mark code x]> (procs s) → threads s2 = delete t (threads s) →
  next_ptr s2 = next_ptr s →
  procs s !! q = Some y → p_pid y = p_parent_pid x → p_exit y = 0 →
  wpx X (cv_signal_child q) (λ _, signalled p x t code s) (λ _ _, False) s2.
Proof.
  intros [Hti Hli] Hp Ht Hth Hw Hex Hti2 Hp2 Ht2 Hn2 Hq Hqp Hy.
  assert (p ≠ q) as Hpq by (by eapply exit_parent_ne).
  assert (∀ r r' z z', procs s !! r = Some z → procs s !! r' = Some z' →
    p_pid z = p_pid z' → r = r') as Hinj by (intros; by eapply (pid_injective s)).
  assert (procs s2 !! q = Some y) as Hq2 by (rewrite Hp2; by rewrite lookup_insert_ne).
  assert (pids_kept (procs s) (procs s2)) as Hk2.
  { rewrite Hp2. by eapply pids_kept_insert. }
  eapply wp_conseq; [apply (cv_signal_child_spec _ q y); [done|]| |done].
  { destruct (live_waiters _ _ _ _ _ _ Hli Hq Hy) as [[? _]|(u & c & ? & Hu & _)]; [by left|].
    right. exists u, c. split; [done|]. rewrite Ht2.
    apply lookup_delete_Some. split; [|done]. intros <-. simplify_eq. }
  intros [] s3 [[Hw0 ->]|(u & c & Hwu & Hu & ->)].
  - split_and!; [done| |by rewrite Ht2, lookup_delete_eq|by rewrite Hp2, lookup_insert_eq| |done].
    + rewrite Hp2, Ht2, Hn2. by eapply life_inv_exit_unwaited.
    + intros v r a Hne Hv. exists a. rewrite Ht2, lookup_delete_ne by done. auto.
  - rewrite Ht2 in Hu. apply lookup_delete_Some in Hu as [Hne Hu]. split_and!; simpl.
    + by eapply (table_inv_update s2 _ q y (proc_set_waiters [] y)).
    + rewrite Hp2, Ht2, Hn2. by eapply life_inv_exit_waited.
    + rewrite Ht2, lookup_insert_ne by congruence. apply lookup_delete_eq.
    + rewrite lookup_insert_ne, Hp2 by done. apply lookup_insert_eq.
    + intros v r a Hnv Hv. simpl. rewrite Ht2. destruct (decide (v = u)) as [->|].
      * simplify_eq. eexists. rewrite lookup_insert_eq. naive_solver.
      * exists a. rewrite lookup_insert_ne, lookup_delete_ne by done. auto.
    + eapply pids_kept_trans; [done|]. by eapply (pids_kept_insert _ q y).
Qed.

Lemma sys__exit_zombie X p x t code q y s s1 :
  proc_inv s → procs s !! p = Some x → threads s !! t = Some (p, Running) →
  p_threads x = [t] → p_waiters x = [] → p_exit x = 0 → table_inv s1 →
  procs s1 = <[p := detached x]> (procs s) → threads s1 = delete t (threads s) →
  next_ptr s1 = next_ptr s →
  procs s !! q = Some y → p_pid y = p_parent_pid x → p_exit y = 0 →
  wpx X (update_proc p (proc_set_exit 1 (_MKWAIT_EXIT code)) ;;
         cv_signal_child q ;; exited_children_cleanup (p_pid x))
    (λ _ s', proc_inv s' ∧ exited p x t code s s') (λ _ _, False) s1.
Proof.
  intros Hinv Hp Ht Hth Hw Hex Hti1 Hp1 Ht1 Hn1 Hq Hqp Hy.
  assert (procs s1 !! p = Some (detached x)) as Hps1 by (rewrite Hp1; apply lookup_insert_eq).
  wp_step. eapply wp_update_proc; [done|]. fold (exit_mark code x). set (s2 := set_procs _ _).
  wp_step. eapply wp_conseq; [apply (exit_signal _ p x t code q y s s2); try done| |done].
  { by eapply (table_inv_update s1 s2 p (detached x) (exit_mark code x)). }
  { unfold s2. simpl. by rewrite Hp1, insert_insert_eq. }
  intros [] s3 (Hti3 & Hli3 & Hth3 & Hp3 & Ho3 & Hk3).
  eapply wp_conseq; [apply exited_children_cleanup_spec; [done|]| |done].
  { by eapply life_zombies_quiet. }
  intros [] s4 (Hti4 & Hp4 & Hth4 & _ & Hn4).
  assert (procs s4 !! p = Some (exit_mark code x)) as Hps4.
  { rewrite Hp4. apply lookup_reap. split; [done|]. intros [E _].
    by eapply (li_self _ _ _ _ (proj2 Hinv) _ _ Hp). }
  split; [split; [done|]|split_and!].
  - rewrite Hp4, Hth4, Hn4. apply life_inv_reap; [done|]. intros v r b z Hv Hr E.
    assert (r = p) as -> by (by eapply (pid_injective s3 r p z (exit_mark code x))).
    destruct (li_thread _ _ _ _ Hli3 _ _ _ Hv) as (z' & Hz' & _ & Hz't & _).
    rewrite Hz' in Hp3. by injection Hp3 as ->.
  - by rewrite Hth4.
  - unfold others_kept. by rewrite Hth4.
  - intros r z. rewrite Hp4. intros [? _]%lookup_reap. by apply Hk3.
  - intros r z. rewrite Hp4. by intros [_ ?]%lookup_reap.
  - right. split; [|by eauto]. by exists (exit_mark code x).
Qed.

(** [s1] is [s] once the exiting thread has left its process and the address
    space is gone. *)
Lemma exit_locked_spec X p x t code s s1 :
  proc_inv s → procs s !! p = Some x → threads s !! t = Some (p, Running) → table_inv s1 →
  procs s1 = <[p := detached x]> (procs s) → threads s1 = delete t (threads s) →
  next_ptr s1 = next_ptr s →
  wpx X (exit_locked p code) (λ _ s', proc_inv s' ∧ exited p x t code s s') (λ _ _, False) s1.
Proof.
  intros Hinv Hp Ht Hti1 Hp1 Ht1 Hn1. destruct (Hinv) as [Hti Hli].
  destruct (li_thread _ _ _ _ Hli _ _ _ Ht) as (x0 & ? & Hex & Hth & _ & _ & Hw). simplify_eq.
  unfold exit_locked. wp_step. eapply wp_read_proc; [rewrite Hp1; apply lookup_insert_eq|]. simpl.
  wp_step. case_match eqn:Hpar.
  - wp_step. eapply sys__exit_alone; try done.
    intros q y Hq E. pose proof (ti_range _ Hti _ _ Hq). lia.
  - assert (PID_MIN ≤ p_parent_pid x ≤ PID_MAX) as Hrange.
    { destruct (li_parent _ _ _ _ Hli _ _ Hp); [lia|done]. }
    wp_step. eapply wp_conseq; [by apply parent_checker_spec| |done].
    intros r s1' [-> Hr]. wp_step.
    destruct Hr as [[-> (q & y & Hlk & Hq & Hqp & Hy)]|[-> Horph]]; simpl.
    + rewrite Hp1 in Hq. apply lookup_insert_Some in Hq as [[-> <-]|[Hne Hq]].
      { exfalso. by eapply (li_self _ _ _ _ Hli _ _ Hp). }
      assert (p_exit y = 0) as Hy0 by (destruct (li_exit _ _ _ _ Hli _ _ Hq); lia).
      wp_step. eapply wp_conseq; [by apply find_proc_spec| |done].
      intros o s1' [-> Ho]. rewrite Hlk in Ho. injection Ho as <-.
      by apply (sys__exit_zombie _ p x t code q y s s1).
    + eapply sys__exit_alone; try done. intros q y Hq E. destruct (decide (q = p)) as [->|].
      { simplify_eq. exfalso. by eapply (li_self _ _ _ _ Hli _ _ Hp). }
      apply (Horph q y); [|done]. rewrite Hp1. by rewrite lookup_insert_ne.
Qed.

Lemma sys__exit_spec X p x t code s :
  proc_inv s → threads s !! t = Some (p, Running) → procs s !! p = Some x →
  wpx X (sys__exit t code) (λ _ s', proc_inv s' ∧ exited p x t code s s') (λ _ _, False) s.
Proof.
  intros Hinv Ht Hp. destruct (Hinv) as [Hti Hli].
  destruct (li_thread _ _ _ _ Hli _ _ _ Ht) as (x0 & ? & Hex & Hth & _ & [a Ha] & Hw). simplify_eq.
  unfold sys__exit. wp_steps. eapply wp_deref; [done|]. cbv zeta. simpl.
  wp_step. eapply wp_read_proc; [done|]. wp_step. apply wp_kassert; [by rewrite Ha|].
  unfold curproc_setas. wp_step. wp_step. eapply wp_read_proc; [done|].
  wp_step. eapply wp_update_proc; [done|]. wp_step. rewrite Ha. wp_step.
  unfold as_destroy. wp_step.
  wp_step. eapply wp_conseq; [eapply proc_remthread_spec; simpl; [done|apply lookup_insert_eq|done]| |done].
  intros [] s1 ->. simpl. set (s1 := set_threads _ _).
  assert (procs s1 = <[p := detached x]> (procs s)) as Hp1.
  { unfold s1. simpl. by rewrite insert_insert_eq. }
  apply exit_locked_spec; try done. by eapply (table_inv_update s s1 p x (detached x)).
Qed.

(** The two ways out of the loop test of waitpid: the child [c], which has
    exited, is reaped and its code handed back; or the thread is asleep. *)
Definition waited (t p c : Z) (z : proc) (s : pstate) (r : option Z) (s' : pstate) : Prop :=
  match r with
  | Some code => p_exit z = 1 ∧ code = p_exitcode z ∧
      procs s' = delete c (procs s) ∧ threads s' = threads s
  | None => p_exit z = 0 ∧ threads s' !! t = Some (p, Asleep c)
  end.

Lemma waitpid_test_spec X t p x c z copied s :
  proc_inv s → threads s !! t = Some (p, Running) → procs s !! p = Some x →
  procs s !! c = Some z → p_parent_pid z = p_pid x →
  wpx X (waitpid_test t p c copied)
    (λ r s', proc_inv s' ∧ waited t p c z s r s')
    (λ e s', s' = s ∧ copied = Some e ∧ p_exit z = 1) s.
Proof.
  intros [Hti Hli] Ht Hp Hc Hz.
  destruct (li_thread _ _ _ _ Hli _ _ _ Ht) as (x0 & ? & Hex & Hth & _ & Has & Hw). simplify_eq.
  assert (c ≠ p) as Hcp. { intros ->. simplify_eq. by eapply (li_self _ _ _ _ Hli). }
  unfold waitpid_test. wp_step. eapply wp_read_proc; [done|]. case_match eqn:Hx1.
  - destruct copied as [e|]; [wp_step; split_and!; (done || lia)|].
    destruct (li_zombie _ _ _ _ Hli _ _ Hc) as (Hzt & _ & Hzw & _); [lia|].
    wp_step. eapply wp_conseq; [by apply (proc_destroy_spec _ c z)| |done].
    intros [] s' [Hti' (Hp' & Ht' & _ & Hn' & _)]. wp_step.
    split; [split; [done|]|by split_and!; (done || lia)].
    rewrite Hp', Ht', Hn'. eapply life_inv_delete_zombie; [done..|lia|].
    intros u r Hu. destruct (li_thread _ _ _ _ Hli _ _ _ Hu)
      as (y & Hy & _ & Hyt & _ & _ & _ & z' & Hz' & E). simplify_eq.
    assert (r = p) as -> by (eapply (pid_injective s r p); eauto; congruence).
    simplify_eq. rewrite Hth in Hyt. simplify_eq.
  - assert (p_exit z = 0) as Hz0 by (destruct (li_exit _ _ _ _ Hli _ _ Hc); lia).
    unfold cv_wait_child. wp_steps. eapply wp_update_proc; [done|]. wp_steps.
    split; [split|].
    + by eapply (table_inv_update s _ p x (proc_set_waiters (p_waiters x ++ [t]) x)).
    + simpl. eapply (life_inv_move _ _ _ _ p x _ t Running); try done. simpl.
      rewrite Hw. split_and!; try done. exists z. by rewrite lookup_insert_ne.
    + split; [done|]. simpl. by rewrite lookup_insert_eq.
Qed.

Lemma sys_waitpid_spec t p x pid options copied s :
  proc_inv s → threads s !! t = Some (p, Running) → procs s !! p = Some x →
  wpx (¬ (PID_MIN ≤ pid ≤ PID_MAX)) (sys_waitpid t pid options copied)
    (λ r s', proc_inv s' ∧ ∃ c z, procs s !! c = Some z ∧ p_pid z = pid ∧
       p_parent_pid z = p_pid x ∧ waited t p c z s r s')
    (λ e s', s' = s) s.
Proof.
  intros Hinv Ht Hp. unfold sys_waitpid. destruct (options =? 0); simpl; [|by wp_step].
  wp_steps. eapply wp_deref; [done|]. cbv zeta. simpl. wp_step.
  destruct (decide (PID_MIN ≤ pid ≤ PID_MAX)) as [Hr|Hr].
  2: { unfold find_proc, PID_MIN, PID_MAX in *. wp_step.
       destruct (pid <=? 32767) eqn:?; simpl; [|done]. wp_steps.
       by replace (2 <=? pid) with false by lia. }
  eapply wp_conseq; [apply find_proc_spec; [apply Hinv|done]| |done].
  intros o s' [-> Ho]. destruct o as [c|]; [|by wp_step].
  apply (ti_iff _ (proj1 Hinv)) in Ho as (z & Hc & Hzp).
  wp_step. eapply wp_read_proc; [done|]. wp_step. eapply wp_read_proc; [done|].
  case_match eqn:E; [by wp_step|].
  eapply wp_conseq; [apply (waitpid_test_spec _ t p x c z); try done; lia| |naive_solver].
  intros r s' [? ?]. split; [done|]. exists c, z. split_and!; try done. lia.
Qed.

Lemma waitpid_resume_spec X t p c copied s :
  proc_inv s → threads s !! t = Some (p, Woken c) →
  wpx X (waitpid_resume t copied) (λ r s', proc_inv s' ∧ ∃ z, procs s !! c = Some z ∧
      waited t p c z (set_threads <[t := (p, Running)]> s) r s')
    (λ e s', proc_inv s' ∧ copied = Some e) s.
Proof.
  intros [Hti Hli] Ht.
  destruct (li_thread _ _ _ _ Hli _ _ _ Ht) as (x & Hp & Hex & Hth & _ & Has & Hw & z & Hc & Hz).
  assert (proc_inv (set_threads <[t := (p, Running)]> s)) as Hinv'.
  { split; [by eapply table_inv_frame|]. simpl.
    rewrite <- (insert_id (procs s) p x) by done.
    by eapply (life_inv_move _ _ _ _ p x x t (Woken c)). }
  unfold waitpid_resume. wp_steps. eapply wp_deref; [done|]. simpl. wp_steps.
  eapply wp_conseq; [by apply (waitpid_test_spec _ t p x c z); simpl; rewrite ?lookup_insert_eq| |].
  - intros r s' [? ?]. split; [done|]. eauto.
  - by intros e s' (-> & ? & _).
Qed.

(** Woken for a child that has exited, the thread reaps it. *)
Lemma waitpid_resume_ok X t p c z s :
  proc_inv s → threads s !! t = Some (p, Woken c) → procs s !! c = Some z → p_exit z = 1 →
  wpx X (waitpid_resume t None)
    (λ r s', proc_inv s' ∧ r = Some (p_exitcode z) ∧ procs s' = delete c (procs s))
    (λ e s', False) s.
Proof.
  intros Hinv Ht Hc Hz.
  eapply wp_conseq; [by eapply waitpid_resume_spec| |]; simpl.
  - intros [r|] s' (? & z' & ? & Hw); simplify_eq; [by destruct Hw as (_ & -> & ? & _)|].
    destruct Hw. lia.
  - naive_solver.
Qed.

(** The table holds at most as many processes as there are pids. *)
Lemma proc_count_bound s : table_inv s → proc_count s ≤ current_largest_pid s - 1.
Proof.
  intros Hinv. destruct (Hinv) as [_ Hlg _ Hrg Hc _]. rewrite Hc.
  assert (((λ kv : Z * proc, p_pid kv.2) <$> map_to_list (procs s)) ⊆+
    seqZ 2 (current_largest_pid s - 1)) as Hsub.
  { apply NoDup_submseteq.
    - apply NoDup_fmap_2_strong; [|apply NoDup_map_to_list].
      intros [p x] [q y] Hp%elem_of_map_to_list Hq%elem_of_map_to_list E. simpl in E.
      assert (p = q) as -> by (by eapply (pid_injective s)). by simplify_eq.
    - intros i (kv & -> & Hkv)%list_elem_of_fmap. destruct kv as [p x].
      apply elem_of_map_to_list in Hkv. apply elem_of_seqZ. simpl.
      pose proof (Hrg _ _ Hkv). lia. }
  apply submseteq_length in Hsub. rewrite length_fmap, length_seqZ in Hsub.
  rewrite length_map_to_list in Hsub. lia.
Qed.

Lemma proc_as_copy_spec X s :
  wpx X as_copy
    (λ a s', procs s' = procs s ∧ active_proc_list s' = active_proc_list s ∧
       current_largest_pid s' = current_largest_pid s ∧ proc_count s' = proc_count s ∧
       threads s' = threads s ∧ next_ptr s ≤ next_ptr s')
    (λ e s', ∃ f, s' = set_fate f s) s.
Proof.
  unfold as_copy. wp_step. apply wp_kmalloc; intros f; [wp_step; eauto|].
  wp_steps. simpl. split_and!; (done || lia).
Qed.

(** A successful fork adds one process with one thread, a child of [x] on the
    lowest free pid. *)
Definition forked (x : proc) (s : pstate) (pid : Z) (s' : pstate) : Prop :=
  ∃ n t a, procs s !! n = None ∧ threads s !! t = None ∧
    procs s' = <[n := mkProc [t] (Some a) (p_cwd x) (Some CONSOLE) 0 0 (p_pid x) pid [] false]> (procs s) ∧
    threads s' = <[t := (n, Running)]> (threads s) ∧
    PID_MIN ≤ pid ≤ PID_MAX ∧ least_free (active_proc_list s) pid.

(** Undoing the creation of [n]. *)
Lemma destroy_created X n y s0 s :
  proc_inv s0 → table_inv s → procs s0 !! n = None → procs s = <[n := y]> (procs s0) →
  p_threads y = [] → p_waiters y = [] → threads s = threads s0 → next_ptr s0 ≤ next_ptr s →
  wpx X (proc_destroy n) (λ _ s', proc_inv s' ∧ procs s' = procs s0 ∧ threads s' = threads s0)
    (λ _ _, False) s.
Proof.
  intros [_ Hli] Hti Hn Hp Ht Hw Hth Hnx.
  eapply wp_conseq; [eapply (proc_destroy_spec _ n y); try done|  |done].
  { rewrite Hp. apply lookup_insert_eq. }
  intros [] s' [Hti' (Hp' & Ht' & _ & Hn' & _)].
  assert (procs s' = procs s0) as E by (rewrite Hp', Hp; by apply delete_insert_id).
  split_and!; [split; [done|]|done|congruence]. rewrite E, Ht', Hth, Hn'.
  destruct Hli as [? ? ? ? ? Hthr]. constructor; try done.
  intros t p a Hta. destruct (Hthr _ _ _ Hta) as (x & ? & ? & ? & ? & ?).
  exists x. split_and!; (done || lia).
Qed.

Ltac undo_creation n y s0 s :=
  eapply (destroy_created _ n y s0); simpl in *;
    first [done | lia | by eapply (table_inv_frame s) | idtac].

Lemma life_inv_next d m th nxt nxt' :
  life_inv d m th nxt → nxt ≤ nxt' → life_inv d m th nxt'.
Proof.
  intros [? ? ? ? ? Hthr] Hle. constructor; try done.
  intros u q a Hu. destruct (Hthr _ _ _ Hu) as (y & ? & ? & ? & ? & ?).
  exists y. split_and!; (done || lia).
Qed.

Lemma next_ptr_fresh s k : proc_inv s → next_ptr s ≤ k → threads s !! k = None.
Proof.
  intros [_ Hli] Hk. apply eq_None_not_Some. intros [[q b] Hq].
  destruct (li_thread _ _ _ _ Hli _ _ _ Hq) as (_ & _ & _ & _ & ? & _). lia.
Qed.

(** [s4] is [s] plus a new process [n] that still needs its thread. *)
Lemma fork_start_spec p x n i a s s4 :
  proc_inv s → procs s !! p = Some x → p_exit x = 0 →
  table_inv s4 → procs s !! n = None → least_free (active_proc_list s) i → PID_MIN ≤ i ≤ PID_MAX →
  procs s4 = <[n := proc_set_addrspace (Some a)
                     (proc_set_parent (p_pid x) (new_proc (p_cwd x) i))]> (procs s) →
  threads s4 = threads s → next_ptr s ≤ next_ptr s4 →
  wlp (fork_start n) (λ pid s', proc_inv s' ∧ forked x s pid s')
    (λ _ s', proc_inv s' ∧ procs s' = procs s ∧ threads s' = threads s) s4.
Proof.
  intros Hinv Hp Hx0 Hti4 Hfresh Hlf Hi Hp4 Ht4 Hn4. destruct (Hinv) as [Hti Hli].
  set (np := proc_set_addrspace _ _) in *. unfold fork_start.
  assert (procs s4 !! n = Some np) as Hnp by (rewrite Hp4; apply lookup_insert_eq).
  wp_step. apply wp_ask. intros b f. destruct b; simpl.
  2: { wp_step. eapply wp_conseq; [undo_creation n np s s4| |done]. intros [] s5 Hs5. by wp_step. }
  wp_step. wp_step. eapply wp_conseq; [by apply (thread_fork_spec _ n np)| |].
  2: { intros e s5 (f' & k & -> & Hk). simpl in Hk.
       eapply wp_conseq; [undo_creation n np s s4|done..]. }
  intros t' s5 [-> [f' ->]]. wp_step. eapply wp_read_proc; [apply lookup_insert_eq|]. wp_step.
  simpl. pose proof (next_ptr_fresh s (next_ptr s4) Hinv Hn4) as Htf.
  assert (p_pid x ≠ i) as Hne.
  { intros <-. destruct Hlf as [Hlf _].
    assert ((active_proc_list s).[p_pid x] = Some (Some p)) by (apply (ti_iff _ Hti); eauto).
    congruence. }
  pose proof (ti_range _ Hti _ _ Hp) as Hxr. pose proof (ti_largest _ Hti) as Hlr.
  split; [split|].
  - eapply (table_inv_update s4 _ n np (proc_set_threads ([] ++ [next_ptr s4]) np));
      simpl; (done || lia).
  - simpl. rewrite Hp4, !insert_insert_eq, Ht4.
    eapply (life_inv_add _ _ (next_ptr s)); try done; try lia.
    + right. simpl. unfold PID_MIN, PID_MAX, MAX_PROC in *. lia.
    + right. split; [done|]. simpl. eauto.
  - exists n, (next_ptr s4), a. simpl. rewrite Hp4, !insert_insert_eq, Ht4. done.
Qed.

Lemma sys_fork_spec t p x s :
  proc_inv s → threads s !! t = Some (p, Running) → procs s !! p = Some x →
  wlp (sys_fork t) (λ pid s', proc_inv s' ∧ forked x s pid s')
    (λ _ s', proc_inv s' ∧ procs s' = procs s ∧ threads s' = threads s) s.
Proof.
  intros Hinv Ht Hp. destruct (Hinv) as [Hti Hli]. unfold sys_fork, check_proc_limit. wp_steps.
  case_match eqn:Hfull; [by wp_step|].
  assert (proc_count s < PID_MAX - PID_MIN + 1) as Hlim.
  { pose proof (proc_count_bound _ Hti). pose proof (ti_largest _ Hti).
    unfold PID_MAX, PID_MIN, MAX_PROC in *. lia. }
  wp_steps. eapply wp_deref; [done|]. cbv zeta. simpl.
  wp_step. eapply wp_read_proc; [done|]. wp_step.
  eapply wp_conseq; [by apply (proc_create_runprogram_spec (p_cwd x) s)| |done].
  intros o s1 (Hti1 & Ht1 & _ & Hn1 & Ho). destruct o as [n|].
  2: { wp_step. split_and!; try done. split; [done|]. rewrite Ho, Ht1. by eapply life_inv_next. }
  destruct Ho as (i & Hp1 & Hfresh & Hnr & Hi & Hlf).
  assert (procs s1 !! n = Some (new_proc (p_cwd x) i)) as Hns1 by (rewrite Hp1; apply lookup_insert_eq).
  wp_step. eapply wp_update_proc; [done|]. set (s2 := set_procs _ _).
  set (np := proc_set_parent (p_pid x) (new_proc (p_cwd x) i)).
  assert (procs s2 = <[n := np]> (procs s)) as Hp2.
  { unfold s2. simpl. by rewrite Hp1, insert_insert_eq. }
  assert (table_inv s2) as Hti2 by (by eapply (table_inv_update s1 s2 n (new_proc (p_cwd x) i) np)).
  wp_step. wp_step. eapply wp_conseq; [apply proc_as_copy_spec| |].
  2: { intros e s3 [f ->]. eapply wp_conseq; [undo_creation n np s s2|done..]. }
  intros a s3 (Hp3 & Htb3 & Hl3 & Hc3 & Ht3 & Hn3).
  assert (procs s3 !! n = Some np) as Hn3p by (rewrite Hp3, Hp2; apply lookup_insert_eq).
  wp_step. eapply wp_update_proc; [done|].
  destruct (li_thread _ _ _ _ Hli _ _ _ Ht) as (x0 & ? & Hx0 & _). simplify_eq.
  eapply (fork_start_spec p x n i a); try done; simpl.
  - eapply (table_inv_update s3 _ n np (proc_set_addrspace (Some a) np)); try done.
    by eapply (table_inv_frame s2).
  - by rewrite Hp3, Hp2, insert_insert_eq.
  - by rewrite Ht3.
  - unfold s2 in *. simpl in *. lia.
Qed.

Lemma common_prog_spec cwd s :
  proc_inv s → proc_count s < PID_MAX - PID_MIN + 1 →
  wlp (common_prog cwd) (λ _, proc_inv) (λ _, proc_inv) s.
Proof.
  intros Hinv Hlim. destruct (Hinv) as [Hti Hli]. unfold common_prog. wp_step.
  eapply wp_conseq; [by apply (proc_create_runprogram_spec cwd s)| |done].
  intros o s1 (Hti1 & Ht1 & _ & Hn1 & Ho). destruct o as [n|].
  2: { wp_step. split; [done|]. rewrite Ho, Ht1. by eapply life_inv_next. }
  destruct Ho as (i & Hp1 & Hfresh & Hnr & Hi & Hlf).
  assert (procs s1 !! n = Some (new_proc cwd i)) as Hn by (rewrite Hp1; apply lookup_insert_eq).
  wp_step. wp_step. eapply wp_conseq; [by apply (thread_fork_spec _ n (new_proc cwd i))| |].
  2: { intros e s2 (f & k & -> & Hk).
       eapply wp_conseq; [undo_creation n (new_proc cwd i) s s1|naive_solver..]. }
  intros t s2 [-> [f ->]]. wp_step. split.
  - eapply (table_inv_update s1 _ n (new_proc cwd i)
      (proc_set_threads ([] ++ [next_ptr s1]) (new_proc cwd i))); simpl; try done; lia.
  - simpl. rewrite Hp1, insert_insert_eq, Ht1.
    eapply (life_inv_add _ _ (next_ptr s)); try done; try lia; simpl;
      [|by left|unfold PID_MIN in *; lia|by left].
    by apply next_ptr_fresh.
Qed.

Lemma cmd_progthread_spec t p s :
  proc_inv s → threads s !! t = Some (p, Starting) →
  wlp (cmd_progthread t) (λ _, proc_inv) (λ _ _, False) s.
Proof.
  intros [Hti Hli] Ht. unfold cmd_progthread.
  destruct (li_thread _ _ _ _ Hli _ _ _ Ht) as (x & Hp & Hex & Hth & _ & Has & Hw).
  wp_steps. eapply wp_deref; [done|]. cbv zeta. simpl.
  wp_step. eapply wp_read_proc; [done|]. wp_step. apply wp_ask. intros [] f1; simpl; [|done].
  wp_step. apply wp_kassert; [by rewrite Has|]. wp_step. apply wp_kmalloc; intros f2; [done|].
  wp_steps. eapply wp_update_proc; [done|]. wp_step. apply wp_ask. intros [] f3; simpl; [|done].
  wp_step. set (x' := proc_set_addrspace _ x). split.
  - eapply (table_inv_update s _ p x x'); simpl; try done. lia.
  - simpl. eapply life_inv_next; [|shelve].
    eapply (life_inv_move _ _ _ _ p x x' t Starting); done.
  Unshelve. lia.
Qed.

Lemma empty_table_inv k f next :
  Z.of_nat k = MAX_PROC → table_inv (mkPState ∅ (replicate k None) 2 0 0 ∅ ∅ ∅ next f).
Proof.
  intros Hk. constructor; simpl.
  - by rewrite lengthZ_replicate.
  - unfold MAX_PROC. lia.
  - intros i p. split; [|intros (x & Hx & _); by rewrite lookup_empty in Hx].
    intros H. pose proof (lookupZ_Some_range _ _ _ H) as Hr.
    rewrite lengthZ_replicate in Hr. by rewrite lookupZ_replicate in H.
  - intros p x. by rewrite lookup_empty.
  - by rewrite map_size_empty.
  - intros p x. by rewrite lookup_empty.
Qed.

Lemma proc_bootstrap_inv f next : proc_inv (proc_bootstrap f next).
Proof.
  split; [apply empty_table_inv; by rewrite Z2Nat.id|].
  constructor; simpl; intros *; rewrite lookup_empty; done.
Qed.

(** What a triple says about a routine that returns. *)
Lemma returns_post {S A} X (m : M S A) Q E (R : S → Prop) s s' :
  wpx X m Q E s → (∀ a s1, Q a s1 → R s1) → (∀ e s1, E e s1 → R s1) → returns m s s' → R s'.
Proof.
  intros H HQ HE [[a Ha]|[e He]]; destruct (wp_elim _ _ _ _ H) as [H1 H2]; eauto.
Qed.

Lemma pstep_inv s s' : proc_inv s → pstep s s' → proc_inv s'.
Proof.
  intros Hinv [cwd Hlim Hr| Hpos ->|t [p Ht] Hr|t [p Ht] Hr|t code [p Ht] Hr
              |t pid opts cp [p Ht] Hr|t c cp [p Ht] Hr].
  - eapply returns_post; [by apply (common_prog_spec cwd)|naive_solver..].
  - destruct Hinv as [Hti Hli]. split; [by eapply table_inv_frame|done].
  - eapply returns_post; [by apply (cmd_progthread_spec t p)|naive_solver..].
  - destruct (li_thread _ _ _ _ (proj2 Hinv) _ _ _ Ht) as (x & Hx & _).
    eapply returns_post; [by eapply sys_fork_spec|naive_solver..].
  - destruct (li_thread _ _ _ _ (proj2 Hinv) _ _ _ Ht) as (x & Hx & _).
    eapply returns_post; [by eapply (sys__exit_spec True)|naive_solver..].
  - destruct (li_thread _ _ _ _ (proj2 Hinv) _ _ _ Ht) as (x & Hx & _).
    eapply returns_post; [by eapply sys_waitpid_spec|naive_solver..].
  - eapply returns_post; [by eapply (waitpid_resume_spec True)|naive_solver..].
Qed.

Lemma reachable_inv s : reachable s → proc_inv s.
Proof.
  intros (f & next & H). remember (proc_bootstrap f next) as s0 eqn:E.
  assert (proc_inv s0) as Hinv by (subst; apply proc_bootstrap_inv). clear E.
  induction H; eauto using pstep_inv.
Qed.
