(* ===== verification/ProcProps.v ===== *)
(** * Processes: the guarantees

    The theorems about processes a user of the kernel relies on, for every state
    the transition system of ProcTable.v can reach, and an executable scheduler
    that drives the system along a given list of actions. *)

From S2P Require Import Prelude ProcTable ProcInv.
#[local] Open Scope kern_scope.

(** ** An executable scheduler *)

Inductive action :=
  | DoMenu (cwd : option Z)
  | DoStart (t : Z)
  | DoFork (t : Z)
  | DoExit (t code : Z)
  | DoWait (t pid : Z)
  | DoResume (t : Z).

Definition final {A} (o : outcome pstate A) : option pstate :=
  match o with Ok _ s => Some s | Err _ s => Some s | _ => None end.

Definition is_running (s : pstate) (t : Z) : bool :=
  match threads s !! t with Some (_, Running) => true | _ => false end.

Definition run_step (a : action) (s : pstate) : option pstate :=
  match a with
  | DoMenu cwd => if proc_count s <? PID_MAX - PID_MIN + 1 then final (common_prog cwd s) else None
  | DoStart t =>
      match threads s !! t with Some (_, Starting) => final (cmd_progthread t s) | _ => None end
  | DoFork t => if is_running s t then final (sys_fork t s) else None
  | DoExit t code => if is_running s t then final (sys__exit t code s) else None
  | DoWait t pid => if is_running s t then final (sys_waitpid t pid 0 None s) else None
  | DoResume t =>
      match threads s !! t with Some (_, Woken _) => final (waitpid_resume t None s) | _ => None end
  end.

Fixpoint run (l : list action) (s : pstate) : option pstate :=
  match l with
  | [] => Some s
  | a :: l => run_step a s ≫= run l
  end.

Lemma final_returns {A} (m : M pstate A) s s' : final (m s) = Some s' → returns m s s'.
Proof. unfold final, returns. destruct (m s); naive_solver. Qed.

Lemma is_running_spec s t : is_running s t = true → thread_is s t Running.
Proof. unfold is_running, thread_is. repeat case_match; naive_solver. Qed.

Lemma run_step_sound a s s' : run_step a s = Some s' → pstep s s'.
Proof.
  destruct a; simpl; repeat case_match; try done; intros Hret%final_returns;
    [eapply step_menu|eapply step_start|eapply step_fork|eapply step_exit
    |eapply step_waitpid|eapply step_resume]; try done;
    try (by apply is_running_spec); try (by eexists); lia.
Qed.

Lemma run_sound l s s' : run l s = Some s' → rtc pstep s s'.
Proof.
  revert s. induction l as [|a l IH]; simpl; [intros s [= ->]; apply rtc_refl|].
  intros s (s1 & H1 & H2)%bind_Some. eapply rtc_l; [by eapply run_step_sound|by apply IH].
Qed.

(** A test that holds at the end of a run from boot holds in a reachable state. *)
Lemma run_reaches {A} (l : list action) f next (view : pstate → A) v :
  view <$> run l (proc_bootstrap f next) = Some v → ∃ s, reachable s ∧ view s = v.
Proof.
  intros H. destruct (run l (proc_bootstrap f next)) as [s|] eqn:E; simpl in *; [|done].
  exists s. split; [exists f, next; by eapply run_sound|congruence].
Qed.

(** ** Guarantees *)


(** A program that has forked a child and sleeps in waitpid for it. *)
Definition waiting_trace : list action :=
  [DoMenu None; DoStart 17; DoFork 17; DoWait 17 3].




(** Nothing leaks: once no user thread is left, the table is empty, no
    structure is allocated and proc_count is back to zero. *)
Theorem quiescent_no_processes s :
  reachable s → threads s = ∅ →
  procs s = ∅ ∧ proc_count s = 0 ∧
  ∀ i, 0 ≤ i < MAX_PROC → (active_proc_list s).[i] = Some None.
Proof.
  intros [Hti Hli]%reachable_inv Hth.
  assert (∀ p x, procs s !! p = Some x → p_exit x ≠ 0) as Hno.
  { intros p x Hp E. destruct (li_live _ _ _ _ Hli _ _ Hp E) as (t & a & _ & Ht).
    by rewrite Hth, lookup_empty in Ht. }
  assert (procs s = ∅) as Hp.
  { apply map_empty. intros p. apply eq_None_not_Some. intros [x Hx].
    destruct (li_exit _ _ _ _ Hli _ _ Hx) as [E|E]; [by eapply Hno|].
    destruct (li_zombie _ _ _ _ Hli _ _ Hx E) as (_ & _ & _ & Hpar).
    destruct Hpar as (q & y & Hq & _ & Hy); [|by eapply Hno].
    destruct (li_parent _ _ _ _ Hli _ _ Hx); unfold PID_MIN in *; lia. }
  split_and!; [done|by rewrite (ti_count _ Hti), Hp|].
  intros i Hi. rewrite <- (ti_len _ Hti) in Hi. destruct (lookupZ_lt _ _ Hi) as [[p|] Hip]; [|done].
  apply (ti_iff _ Hti) in Hip as (x & Hx & _). by rewrite Hp, lookup_empty in Hx.
Qed.

(** A child that exits first, a parent that never waits for it. *)
Definition quiet_trace : list action :=
  [DoMenu None; DoStart 17; DoFork 17; DoExit 21 7; DoExit 17 0].

Lemma quiescent_no_processes_witness :
  ∃ s, reachable s ∧ threads s = ∅ ∧ procs s = ∅.
Proof.
  destruct (run_reaches quiet_trace [] 16 (λ s, map_to_list (threads s)) [])
    as (s & Hr & Ht); [vm_compute; reflexivity|].
  exists s. apply map_to_list_empty_iff in Ht.
  split; [exact Hr|split; [exact Ht|]].
  exact (proj1 (quiescent_no_processes s Hr Ht)).
Defined.



(** After the exit of a child with a live parent, the child is a zombie that
    holds the code. *)
Lemma exit_leaves_zombie s s1 t p x u q y code :
  proc_inv s → threads s !! u = Some (q, Running) → procs s !! q = Some y →
  procs s !! p = Some x → p_exit x = 0 → p_parent_pid y = p_pid x →
  exited q y u code s s1 →
  threads s !! t = Some (p, Running) ∨ threads s !! t = Some (p, Asleep q) →
  proc_inv s1 →
  ∃ x1 y1, procs s1 !! p = Some x1 ∧ p_pid x1 = p_pid x ∧ procs s1 !! q = Some y1 ∧
    p_pid y1 = p_pid y ∧ p_parent_pid y1 = p_pid x ∧ p_exit y1 = 1 ∧
    p_exitcode y1 = _MKWAIT_EXIT code ∧
    (threads s !! t = Some (p, Running) → threads s1 !! t = Some (p, Running)) ∧
    (threads s !! t = Some (p, Asleep q) → threads s1 !! t = Some (p, Woken q)).
Proof.
  intros [Hti Hli] Hu Hq Hp Hx Hpar (_ & Hoth & Hpid & _ & Hz) Htt [Hti1 Hli1].
  assert (p ≠ q) as Hpq by (intros ->; simplify_eq; by eapply (li_self _ _ _ _ Hli)).
  assert (u ≠ t) as Hut by (intros ->; destruct Htt; simplify_eq).
  destruct Hz as [[_ Hno]|[(y1 & Hy1 & Hyp & Hy1x & Hcode) _]].
  { rewrite (Hno _ _ Hp) in Hx by done. lia. }
  assert (∃ b, threads s !! t = Some (p, b)) as [b Hb] by naive_solver.
  destruct (Hoth t p b) as (b' & Hb' & Hbb); [done..|].
  destruct (li_thread _ _ _ _ Hli1 _ _ _ Hb') as (x1 & Hx1 & _ & _ & _ & Hact).
  destruct (Hpid _ _ Hx1) as (x0 & ? & Hxp & _). destruct (Hpid _ _ Hy1) as (y0 & ? & _ & Hyq).
  simplify_eq. exists x1, y1. split_and!; try done; try congruence.
  - intros Hr. rewrite Hb in Hr. simplify_eq. destruct Hbb as [->|(? & [=] & _)]. done.
  - intros Hr. rewrite Hb in Hr. simplify_eq. destruct Hbb as [->|(c & [= <-] & ->)]; [|done].
    destruct Hact as (_ & _ & y2 & Hy2 & _ & Hy20). simplify_eq. lia.
Qed.

(** C24. _exit and waitpid fit together: when a process calls _exit(code) and its
    parent then calls waitpid on its pid, waitpid returns at once with exactly
    the encoding of [code], and the child is gone from the kernel. *)
Theorem exit_then_waitpid s t p x u q y code :
  reachable s → threads s !! t = Some (p, Running) → procs s !! p = Some x →
  threads s !! u = Some (q, Running) → procs s !! q = Some y → p_parent_pid y = p_pid x →
  wp (sys__exit u code ;; sys_waitpid t (p_pid y) 0 None)
    (λ r s', r = Some (_MKWAIT_EXIT code) ∧ procs s' !! q = None ∧ proc_inv s')
    (λ _ _, False) s.
Proof.
  intros Hinv%reachable_inv Ht Hp Hu Hq Hpar. destruct (Hinv) as [Hti Hli].
  destruct (li_thread _ _ _ _ Hli _ _ _ Ht) as (x0 & ? & Hx0 & _). simplify_eq.
  pose proof (ti_range _ Hti _ _ Hq). pose proof (ti_largest _ Hti).
  wp_step. eapply wp_conseq; [by apply (sys__exit_spec _ q y)| |done].
  intros [] s1 [Hinv1 He]. destruct (exit_leaves_zombie s s1 t p x u q y code)
    as (x1 & y1 & Hp1 & Hxp & Hq1 & Hyp & Hyq & Hy1 & Hcode & Hrun & _); try done; [by left|].
  unfold sys_waitpid. simpl. wp_steps. eapply wp_deref; [by apply Hrun|]. cbv zeta. simpl.
  wp_step. eapply wp_conseq; [apply find_proc_spec; [apply Hinv1|unfold PID_MAX, PID_MIN, MAX_PROC in *; lia]| |done].
  intros o s1' [-> Ho]. assert (o = Some q) as ->.
  { assert ((active_proc_list s1).[p_pid y] = Some (Some q)); [|congruence].
    apply (ti_iff _ (proj1 Hinv1)). eauto. }
  wp_step. eapply wp_read_proc; [done|]. wp_step. eapply wp_read_proc; [done|].
  rewrite Hxp, <- Hyq, Z.eqb_refl. simpl.
  eapply wp_conseq; [apply (waitpid_test_spec _ t p x1 q y1); eauto; congruence| |by intros ?? (_ & [=] & _)].
  intros [r|] s2 [Hinv2 Hw]; [|by destruct Hw as [? _]; lia].
  destruct Hw as (_ & -> & -> & _). rewrite lookup_delete_eq. split_and!; congruence.
Qed.

Lemma exit_then_waitpid_witness :
  ∃ s, reachable s ∧ wp (sys__exit 21 7 ;; sys_waitpid 17 3 0 None)
    (λ r s', r = Some 28 ∧ procs s' !! 19 = None ∧ proc_inv s') (λ _ _, False) s.
Proof.
  destruct (run_reaches [DoMenu None; DoStart 17; DoFork 17] [] 16
    (λ s, (threads s !! 17, procs s !! 16, (threads s !! 21, procs s !! 19)))
    (Some (16, Running), Some (mkProc [17] (Some 18) None (Some 1) 0 0 (-1) 2 [] false),
     (Some (19, Running), Some (mkProc [21] (Some 20) None (Some 1) 0 0 2 3 [] false))))
    as (s & Hr & [= Ht Hp Hu Hq]); [vm_compute; reflexivity|].
  exists s. split; [exact Hr|]. exact (exit_then_waitpid s 17 16 _ 21 19 _ 7 Hr Ht Hp Hu Hq eq_refl).
Defined.

(** The same when the parent got to waitpid first and sleeps: the exit wakes
    it, and when it runs again it returns with the encoding of [code]. *)
Theorem exit_wakes_waiting_parent s t p u q y code :
  reachable s → threads s !! t = Some (p, Asleep q) →
  threads s !! u = Some (q, Running) → procs s !! q = Some y →
  wp (sys__exit u code ;; waitpid_resume t None)
    (λ r s', r = Some (_MKWAIT_EXIT code) ∧ procs s' !! q = None ∧ proc_inv s')
    (λ _ _, False) s.
Proof.
  intros Hinv%reachable_inv Ht Hu Hq. destruct (Hinv) as [Hti Hli].
  destruct (li_thread _ _ _ _ Hli _ _ _ Ht)
    as (x & Hp & Hx0 & _ & _ & _ & _ & y0 & ? & Hpar & _). simplify_eq.
  wp_step. eapply wp_conseq; [by apply (sys__exit_spec _ q y)| |done].
  intros [] s1 [Hinv1 He]. destruct (exit_leaves_zombie s s1 t p x u q y code)
    as (x1 & y1 & Hp1 & Hxp & Hq1 & Hyp & Hyq & Hy1 & Hcode & _ & Hwok); try done; [by right|].
  assert (threads s1 !! t = Some (p, Woken q)) as Ht1 by (by apply Hwok).
  assert (wp (waitpid_resume t None)
    (λ r s', r = Some (_MKWAIT_EXIT code) ∧ procs s' !! q = None ∧ proc_inv s') (λ _ _, False) s1); [|done].
  eapply wp_conseq; [by apply (waitpid_resume_ok _ t p q y1)| |done].
  intros r s2 (Hinv2 & -> & Hp2). rewrite Hp2, lookup_delete_eq. split_and!; congruence.
Qed.

Lemma exit_wakes_waiting_parent_witness :
  ∃ s, reachable s ∧ wp (sys__exit 21 7 ;; waitpid_resume 17 None)
    (λ r s', r = Some 28 ∧ procs s' !! 19 = None ∧ proc_inv s') (λ _ _, False) s.
Proof.
  destruct (run_reaches waiting_trace [] 16
    (λ s, (threads s !! 17, threads s !! 21, procs s !! 19))
    (Some (16, Asleep 19), Some (19, Running),
     Some (mkProc [21] (Some 20) None (Some 1) 0 0 2 3 [] false)))
    as (s & Hr & [= Ht Hu Hq]); [vm_compute; reflexivity|].
  exists s. split; [exact Hr|]. exact (exit_wakes_waiting_parent s 17 16 21 19 _ 7 Hr Ht Hu Hq).
Defined.



(** waitpid takes the kernel down exactly when the pid it is given, which
    comes straight from user code, is outside [PID_MIN, PID_MAX]. *)
Theorem waitpid_panics_iff s t p pid copied :
  reachable s → threads s !! t = Some (p, Running) →
  (sys_waitpid t pid 0 copied s = Panic ↔ ¬ (PID_MIN ≤ pid ≤ PID_MAX)).
Proof.
  intros Hinv%reachable_inv Ht.
  destruct (li_thread _ _ _ _ (proj2 Hinv) _ _ _ Ht) as (x & Hp & _). split.
  - pose proof (sys_waitpid_spec t p x pid 0 copied s Hinv Ht Hp) as H.
    unfold wpx in H. intros E. by rewrite E in H.
  - intros Hr. unfold sys_waitpid, bind, get, deref, find_proc, kassert, PID_MAX, PID_MIN in *.
    simpl. rewrite Ht. simpl. unfold ret. destruct (Z.leb_spec pid 32767); [|done]. simpl.
    by replace (2 <=? pid) with false by lia.
Qed.

Lemma waitpid_panics_iff_witness :
  ∃ s, reachable s ∧ sys_waitpid 17 (-1) 0 None s = Panic.
Proof.
  destruct (run_reaches [DoMenu None; DoStart 17] [] 16 (λ s, threads s !! 17) (Some (16, Running)))
    as (s & Hr & Ht); [vm_compute; reflexivity|].
  exists s. split; [exact Hr|]. apply (waitpid_panics_iff s 17 16 (-1) None Hr Ht).
  unfold PID_MIN. lia.
Defined.

(** Two processes of which each is recorded as the other's parent: the first
    program forks, exits, and its pid is given to its grandchild. *)
Definition recycling_trace : list action :=
  [DoMenu None; DoStart 17; DoFork 17; DoExit 17 0; DoFork 21; DoWait 21 2; DoWait 24 3].


(** A fork that fails after as_copy loses the copied address space: all
    processes are gone, and it is still allocated with nobody left to free it. *)
Theorem failed_fork_leaks_space :
  ∃ s a, reachable s ∧ threads s = ∅ ∧ procs s = ∅ ∧ a ∈ spaces s.
Proof.
  destruct (run_reaches [DoMenu None; DoStart 17; DoFork 17; DoExit 17 0]
    (replicate 22 true ++ [false]) 16
    (λ s, (map_to_list (threads s), map_to_list (procs s), bool_decide (20 ∈ spaces s)))
    ([], [], true)) as (s & Hr & [= Ht Hp Ha]); [vm_compute; reflexivity|].
  apply map_to_list_empty_iff in Ht, Hp. apply bool_decide_eq_true in Ha.
  exists s, 20. done.
Qed.

Lemma mkwait_exit_shift x : _MKWAIT_EXIT x = i32 (4 * x).
Proof.
  unfold _MKWAIT_EXIT, _MKWVAL, __WEXITED. rewrite Z.lor_0_r, Z.shiftl_mul_pow2 by lia.
  f_equal. lia.
Qed.

(** Wait statuses: every status made by _MKWAIT_EXIT tests as a normal
    exit, and WEXITSTATUS gives the exit code back exactly when the code fits in
    30 bits; the two top bits of larger codes are lost. *)
Theorem wait_status_roundtrip x :
  - 2 ^ 31 ≤ x < 2 ^ 31 →
  WIFEXITED (_MKWAIT_EXIT x) = true ∧
  (WEXITSTATUS (_MKWAIT_EXIT x) = x ↔ - 2 ^ 29 ≤ x < 2 ^ 29).
Proof.
  intros Hx. unfold WIFEXITED, WEXITSTATUS, _WVAL, _WWHAT, __WEXITED. rewrite mkwait_exit_shift.
  assert (∃ k, i32 (4 * x) = 4 * k ∧ - 2 ^ 29 ≤ k < 2 ^ 29 ∧ ∃ j, k = x + 2 ^ 30 * j)
    as (k & -> & Hk & j & ->).
  { unfold i32. pose proof (Z.div_mod (4 * x) (2 ^ 32) ltac:(lia)).
    pose proof (Z.mod_pos_bound (4 * x) (2 ^ 32) ltac:(lia)).
    destruct (Z.ltb_spec (4 * x mod 2 ^ 32) (2 ^ 31)).
    - exists (x + 2 ^ 30 * - (4 * x / 2 ^ 32)). split_and!; [lia..|eauto].
    - exists (x + 2 ^ 30 * (- (4 * x / 2 ^ 32) - 1)). split_and!; [lia..|eauto]. }
  change 3 with (Z.ones 2). rewrite Z.land_ones, Z.shiftr_div_pow2 by lia.
  change (2 ^ 2) with 4. rewrite Z.mul_comm, Z.mod_mul, Z.div_mul by lia. split; [done|lia].
Qed.

Lemma wait_status_roundtrip_witness :
  WEXITSTATUS (_MKWAIT_EXIT 255) = 255 ∧ WEXITSTATUS (_MKWAIT_EXIT (2 ^ 29)) ≠ 2 ^ 29.
Proof.
  split; [apply (wait_status_roundtrip 255); lia|].
  rewrite (proj2 (wait_status_roundtrip (2 ^ 29) ltac:(lia))). lia.
Defined.
