(* ===== verification/Bswap.v ===== *)
(** * Byte swapping and 64-bit halves

    Models kern/lib/bswap.c: bswap16/32/64, the ntoh/hton family for both byte
    orders the file can be built for, join32to64 and split64to32.  The meaning of
    a value is the sequence of its bytes in memory; the theorems state every
    routine in terms of that sequence. *)

From S2P Require Import Prelude.

(** ** The routines *)

Definition bswap16 (val : Z) : Z :=
  u16 (Z.lor (Z.shiftl (Z.land val 0x00ff) 8) (Z.shiftr (Z.land val 0xff00) 8)).

Definition bswap32 (val : Z) : Z :=
  Z.lor (Z.lor (Z.lor
    (u32 (Z.shiftl (Z.land val 0x000000ff) 24))
    (u32 (Z.shiftl (Z.land val 0x0000ff00) 8)))
    (Z.shiftr (Z.land val 0x00ff0000) 8))
    (Z.shiftr (Z.land val 0xff000000) 24).

Definition bswap64 (val : Z) : Z :=
  Z.lor (Z.lor (Z.lor (Z.lor (Z.lor (Z.lor (Z.lor
    (u64 (Z.shiftl (Z.land val 0x00000000000000ff) 56))
    (u64 (Z.shiftl (Z.land val 0x000000000000ff00) 40)))
    (u64 (Z.shiftl (Z.land val 0x0000000000ff0000) 24)))
    (u64 (Z.shiftl (Z.land val 0x00000000ff000000) 8)))
    (u64 (Z.shiftl (Z.land val 0x000000ff00000000) 8)))
    (u64 (Z.shiftl (Z.land val 0x0000ff0000000000) 24)))
    (Z.shiftr (Z.land val 0x00ff000000000000) 40))
    (Z.shiftr (Z.land val 0xff00000000000000) 56).

(** _BYTE_ORDER; the kernel is built for a big-endian machine. *)
Inductive byte_order := LITTLE_ENDIAN | BIG_ENDIAN.

(** The TO macro, which defines ntoh and hton for one width. *)
Definition TO (o : byte_order) (bswap : Z → Z) (val : Z) : Z :=
  match o with LITTLE_ENDIAN => bswap val | BIG_ENDIAN => val end.
Definition htons (o : byte_order) := TO o bswap16.
Definition ntohs (o : byte_order) := TO o bswap16.
Definition htonl (o : byte_order) := TO o bswap32.
Definition ntohl (o : byte_order) := TO o bswap32.
Definition htonll (o : byte_order) := TO o bswap64.
Definition ntohll (o : byte_order) := TO o bswap64.

Definition join32to64 (o : byte_order) (x1 x2 : Z) : Z :=
  match o with
  | BIG_ENDIAN => Z.lor (u64 (Z.shiftl x1 32)) x2
  | LITTLE_ENDIAN => Z.lor x1 (u64 (Z.shiftl x2 32))
  end.

Definition split64to32 (o : byte_order) (x : Z) : Z * Z :=
  match o with
  | BIG_ENDIAN => (u32 (Z.shiftr x 32), Z.land x 0xffffffff)
  | LITTLE_ENDIAN => (Z.land x 0xffffffff, u32 (Z.shiftr x 32))
  end.

(** ** Bytes of a value *)

(** Byte number [i] of [x], counted from the least significant end. *)
Definition byte_of (x i : Z) : Z := Z.land (Z.shiftr x (8 * i)) 255.

(** The [n] bytes of [x], most significant first. *)
Fixpoint be_bytes (n : nat) (x : Z) : list Z :=
  match n with
  | O => []
  | S n' => byte_of x (Z.of_nat n') :: be_bytes n' x
  end.

(** The [n] bytes of [x] in the order they have in memory. *)
Definition mem_bytes (o : byte_order) (n : nat) (x : Z) : list Z :=
  match o with
  | BIG_ENDIAN => be_bytes n x
  | LITTLE_ENDIAN => reverse (be_bytes n x)
  end.

(** Evaluate every bit test of a closed position or a closed value. *)
Ltac eval_bits :=
  repeat match goal with
  | |- context [Z.testbit (Zpos ?c) ?n] =>
      let v := eval vm_compute in (Z.testbit (Zpos c) n) in
      change (Z.testbit (Zpos c) n) with v
  end;
  repeat match goal with
  | |- context [Z.testbit ?x ?n] =>
      lazymatch n with
      | Z0 => fail
      | Zpos _ => fail
      | Zneg _ => fail
      | _ => let v := eval vm_compute in n in change (Z.testbit x n) with (Z.testbit x v)
      end
  end;
  rewrite ?andb_true_r, ?andb_false_r, ?orb_false_r, ?orb_false_l.

(** Push a test of a closed bit position down to the variables. *)
Ltac push_bits :=
  unfold byte_of, u16, u32, u64; rewrite <- ?Z.land_ones by lia;
  rewrite ?Z.land_spec, ?Z.lor_spec, ?Z.shiftr_spec by lia;
  repeat first [ rewrite Z.shiftl_spec by lia | rewrite Z.shiftr_spec by lia
               | rewrite Z.land_spec | rewrite Z.lor_spec ];
  eval_bits.

Lemma byte_eq a b : 0 ≤ a < 256 → 0 ≤ b < 256 →
  (∀ k, k ∈ [0; 1; 2; 3; 4; 5; 6; 7] → Z.testbit a k = Z.testbit b k) → a = b.
Proof.
  intros Ha Hb H. apply Z.bits_inj'. intros k Hk. destruct (decide (k < 8)).
  - apply H. rewrite !list_elem_of_In. simpl. lia.
  - rewrite <- (Z.mod_small a (2 ^ 8)), <- (Z.mod_small b (2 ^ 8)) by lia.
    by rewrite !Z.mod_pow2_bits_high by lia.
Qed.

Lemma byte_of_range x i : 0 ≤ byte_of x i < 256.
Proof. unfold byte_of. change 255 with (Z.ones 8). rewrite Z.land_ones by lia. apply Z.mod_pos_bound. lia. Qed.

Lemma byte_lor_range x i y j : 0 ≤ Z.lor (byte_of x i) (byte_of y j) < 256.
Proof.
  unfold byte_of. rewrite <- Z.land_lor_distr_l. change 255 with (Z.ones 8).
  rewrite Z.land_ones by lia. apply Z.mod_pos_bound. lia.
Qed.

(** One byte of a result, settled bit by bit. *)
Ltac solve_byte :=
  apply byte_eq; [first [apply byte_of_range | apply byte_lor_range | lia]..|];
  intros k Hk; rewrite !list_elem_of_In in Hk; simpl in Hk;
  destruct_or! Hk; try done; subst k; push_bits; try done.

(** A list of bytes, byte by byte. *)
Ltac solve_bytes :=
  simpl; unfold reverse; simpl; repeat apply (f_equal2 (@cons Z)); [solve_byte..|done].

Lemma bswap16_bytes x : be_bytes 2 (bswap16 x) = reverse (be_bytes 2 x).
Proof. unfold bswap16. solve_bytes. Qed.

Lemma bswap32_bytes x : be_bytes 4 (bswap32 x) = reverse (be_bytes 4 x).
Proof. unfold bswap32. solve_bytes. Qed.

(** What bswap64 really computes, from the least significant byte up. *)
Lemma bswap64_bytes x :
  be_bytes 8 (bswap64 x) =
  [byte_of x 0; byte_of x 1; Z.lor (byte_of x 2) (byte_of x 4); byte_of x 3; 0; 0;
   byte_of x 6; byte_of x 7].
Proof. unfold bswap64. solve_bytes. Qed.

(** A value of [n] bytes is determined by them. *)
Lemma be_bytes_inj n x y :
  0 ≤ x < 2 ^ (8 * Z.of_nat n) → 0 ≤ y < 2 ^ (8 * Z.of_nat n) →
  be_bytes n x = be_bytes n y → x = y.
Proof.
  intros Hx Hy E. apply Z.bits_inj'. intros k Hk.
  destruct (decide (k < 8 * Z.of_nat n)) as [Hlt|].
  2: { rewrite <- (Z.mod_small x (2 ^ (8 * Z.of_nat n))), <- (Z.mod_small y (2 ^ (8 * Z.of_nat n))) by lia.
       by rewrite !Z.mod_pow2_bits_high by lia. }
  assert (∀ i : nat, (i < n)%nat → byte_of x (Z.of_nat i) = byte_of y (Z.of_nat i)) as Hb.
  { clear -E. induction n as [|n IH]; simpl in *; [lia|]. intros i Hi. injection E as E1 E2.
    destruct (decide (i = n)) as [->|]; [done|]. apply IH; [done|lia]. }
  specialize (Hb (Z.to_nat (k / 8))). rewrite Z2Nat.id in Hb by (apply Z.div_pos; lia).
  assert (byte_of x (k / 8) = byte_of y (k / 8)) as Hkb.
  { apply Hb. apply Nat2Z.inj_lt. rewrite Z2Nat.id by (apply Z.div_pos; lia).
    apply Z.div_lt_upper_bound; lia. }
  assert (∀ z, Z.testbit z k = Z.testbit (byte_of z (k / 8)) (k mod 8)) as Hz; [|by rewrite !Hz, Hkb].
  intros z. pose proof (Z.mod_pos_bound k 8). unfold byte_of.
  change 255 with (Z.ones 8). rewrite Z.land_spec, Z.shiftr_spec, Z.ones_spec_low by lia.
  rewrite andb_true_r. f_equal. pose proof (Z.div_mod k 8). lia.
Qed.

Lemma lor_bound a b n : 0 ≤ n → 0 ≤ a < 2 ^ n → 0 ≤ b < 2 ^ n → 0 ≤ Z.lor a b < 2 ^ n.
Proof.
  intros Hn Ha Hb.
  assert (Z.lor a b = Z.lor a b mod 2 ^ n) as ->; [|apply Z.mod_pos_bound; lia].
  apply Z.bits_inj'. intros k Hk. destruct (decide (k < n)).
  - by rewrite Z.mod_pow2_bits_low by lia.
  - rewrite Z.mod_pow2_bits_high, Z.lor_spec by lia.
    rewrite <- (Z.mod_small a (2 ^ n)), <- (Z.mod_small b (2 ^ n)) by lia.
    by rewrite !Z.mod_pow2_bits_high by lia.
Qed.

Lemma land_bound x c n : 0 ≤ n → Z.land c (Z.ones n) = c → 0 ≤ Z.land x c < 2 ^ n.
Proof. intros Hn <-. rewrite Z.land_assoc, Z.land_ones by done. apply Z.mod_pos_bound. lia. Qed.

Lemma bswap32_range x : 0 ≤ bswap32 x < 2 ^ 32.
Proof.
  unfold bswap32. rewrite !Z.shiftr_land.
  repeat apply lor_bound; try apply u32_range; try apply land_bound; done.
Qed.

Lemma u16_range x : 0 ≤ u16 x < 2 ^ 16.
Proof. apply Z.mod_pos_bound. lia. Qed.

(** For either byte order of the machine, htons and htonl lay a value out in
    memory most significant byte first, and ntohs and ntohl undo them. *)
Theorem network_order_roundtrip o x y :
  0 ≤ x < 2 ^ 16 → 0 ≤ y < 2 ^ 32 →
  mem_bytes o 2 (htons o x) = be_bytes 2 x ∧ ntohs o (htons o x) = x ∧
  mem_bytes o 4 (htonl o y) = be_bytes 4 y ∧ ntohl o (htonl o y) = y.
Proof.
  intros Hx Hy. destruct o; [|done].
  unfold mem_bytes, htons, ntohs, htonl, ntohl, TO.
  rewrite bswap16_bytes, bswap32_bytes, !reverse_involutive. split_and!; [done| |done|].
  - apply (be_bytes_inj 2); [apply u16_range|done|].
    by rewrite !bswap16_bytes, reverse_involutive.
  - apply (be_bytes_inj 4); [apply bswap32_range|done|].
    by rewrite !bswap32_bytes, reverse_involutive.
Qed.

Lemma network_order_roundtrip_witness :
  mem_bytes LITTLE_ENDIAN 4 (htonl LITTLE_ENDIAN 0x12345678) = [0x12; 0x34; 0x56; 0x78] ∧
  ntohl LITTLE_ENDIAN (htonl LITTLE_ENDIAN 0x12345678) = 0x12345678.
Proof.
  pose proof (network_order_roundtrip LITTLE_ENDIAN 0 0x12345678 ltac:(lia) ltac:(lia))
    as (_ & _ & H1 & H2).
  split; [rewrite H1; vm_compute; reflexivity|exact H2].
Defined.

(** bswap64 reverses the eight bytes of its argument exactly when bytes 4 and
    5 are zero: two of its eight terms shift left where they should shift right. *)
Theorem bswap64_correct_iff x :
  be_bytes 8 (bswap64 x) = reverse (be_bytes 8 x) ↔ byte_of x 4 = 0 ∧ byte_of x 5 = 0.
Proof.
  rewrite bswap64_bytes. split.
  - intros [= _ E4 E5]. by split.
  - intros [E4 E5]. unfold reverse. cbn -[byte_of Z.of_nat].
    change (Z.of_nat 4) with 4. change (Z.of_nat 5) with 5. by rewrite E4, E5, Z.lor_0_r.
Qed.

Lemma masked x n : 0 ≤ n → 0 ≤ x < 2 ^ n → ∃ a, x = Z.land a (Z.ones n).
Proof. intros Hn Hx. exists x. by rewrite Z.land_ones, Z.mod_small by lia. Qed.

Lemma join32to64_range o x1 x2 :
  0 ≤ x1 < 2 ^ 32 → 0 ≤ x2 < 2 ^ 32 → 0 ≤ join32to64 o x1 x2 < 2 ^ 64.
Proof.
  intros. destruct o; apply lor_bound; try lia; apply Z.mod_pos_bound; lia.
Qed.

Lemma split64to32_range o x :
  0 ≤ (split64to32 o x).1 < 2 ^ 32 ∧ 0 ≤ (split64to32 o x).2 < 2 ^ 32.
Proof. destruct o; split; first [apply u32_range | by apply land_bound]. Qed.

Lemma join32to64_bytes o x1 x2 :
  0 ≤ x1 < 2 ^ 32 → 0 ≤ x2 < 2 ^ 32 →
  mem_bytes o 8 (join32to64 o x1 x2) = mem_bytes o 4 x1 ++ mem_bytes o 4 x2.
Proof.
  intros [a ->]%masked [b ->]%masked; [|lia..].
  unfold mem_bytes, join32to64. destruct o; solve_bytes.
Qed.

Lemma split_join o x1 x2 :
  0 ≤ x1 < 2 ^ 32 → 0 ≤ x2 < 2 ^ 32 → split64to32 o (join32to64 o x1 x2) = (x1, x2).
Proof.
  intros H1 H2. pose proof (split64to32_range o (join32to64 o x1 x2)) as [R1 R2].
  revert R1 R2. destruct (masked x1 32) as [a Ea]; [done..|]. destruct (masked x2 32) as [b Eb]; [done..|].
  unfold split64to32, join32to64. destruct o; cbn [fst snd]; intros R1 R2;
    f_equal; (apply (be_bytes_inj 4); [done..|]; subst; solve_bytes).
Qed.

(** join32to64 puts the bytes of its first argument before those of its
    second in memory, whatever the byte order, and split64to32 is its inverse in
    both directions. *)
Theorem join_split_inverse o x1 x2 y :
  0 ≤ x1 < 2 ^ 32 → 0 ≤ x2 < 2 ^ 32 → 0 ≤ y < 2 ^ 64 →
  mem_bytes o 8 (join32to64 o x1 x2) = mem_bytes o 4 x1 ++ mem_bytes o 4 x2 ∧
  split64to32 o (join32to64 o x1 x2) = (x1, x2) ∧
  join32to64 o (split64to32 o y).1 (split64to32 o y).2 = y.
Proof.
  intros H1 H2 Hy. split_and!; [by apply join32to64_bytes|by apply split_join|].
  destruct (split64to32_range o y) as [R1 R2].
  apply (be_bytes_inj 8); [by apply join32to64_range|done|].
  unfold split64to32, join32to64. destruct o; solve_bytes.
Qed.

Lemma join_split_inverse_witness :
  split64to32 BIG_ENDIAN (join32to64 BIG_ENDIAN 1 2) = (1, 2) ∧
  mem_bytes LITTLE_ENDIAN 8 (join32to64 LITTLE_ENDIAN 1 2) = [1; 0; 0; 0; 2; 0; 0; 0].
Proof.
  split; [apply (join_split_inverse BIG_ENDIAN 1 2 0); lia|].
  rewrite (proj1 (join_split_inverse LITTLE_ENDIAN 1 2 0 ltac:(lia) ltac:(lia) ltac:(lia))).
  vm_compute. reflexivity.
Defined.
