(* ===== verification/Bitmap.v ===== *)
(** * Bitmaps

    Models kern/lib/bitmap.c: a fixed-size array of bits kept in bytes, used for
    the free-block map of the file system.  The abstract view of a bitmap is the
    predicate [bit b i]; every operation is specified against it, and the leftover
    bits of the last byte are part of the invariant. *)

From S2P Require Import Prelude.
#[local] Open Scope kern_scope.

Definition BITS_PER_WORD : Z := 8.
Definition WORD_ALLBITS : Z := 0xff.

Record bitmap := mkBitmap { nbits : Z; v : list Z }.

Abbreviation BM := (M bitmap).

Definition set_v f b := mkBitmap (nbits b) (f (v b)).

(** ** Operations *)

(** [for (j=overbits; j<BITS_PER_WORD; j++) b->v[ix] |= 1 << j], on the words. *)
Definition mark_leftover (ix overbits : Z) : M (list Z) unit :=
  for_ overbits BITS_PER_WORD (λ j,
    l <- get ;; w <- deref l.[ix] ;;
    modify (λ l, l.[ix := u8 (Z.lor w (Z.shiftl 1 j))])).

(** bitmap_create; [mem_b] and [mem_v] say whether the two kmallocs succeed. *)
Definition bitmap_create (nbits : Z) (mem_b mem_v : bool) : M unit (option bitmap) :=
  let words := u32 (nbits + BITS_PER_WORD - 1) / BITS_PER_WORD in
  if negb mem_b then ret None else
  if negb mem_v then ret None else
  let zeros := replicate (Z.to_nat words) 0 in
  if nbits / BITS_PER_WORD <? words then
    let ix := words - 1 in
    let overbits := u32 (nbits - ix * BITS_PER_WORD) in
    kassert (nbits / BITS_PER_WORD =? words - 1) ;;
    kassert ((0 <? overbits) && (overbits <? BITS_PER_WORD)) ;;
    match mark_leftover ix overbits zeros with
    | Ok _ l => ret (Some (mkBitmap nbits l))
    | _ => undef
    end
  else ret (Some (mkBitmap nbits zeros)).

Definition bitmap_getdata (b : bitmap) : list Z := v b.

(** The inner loop of bitmap_alloc: the first clear bit of word [w], from
    [offset] up. *)
Fixpoint first_clear (fuel : nat) (offset w : Z) : option Z :=
  match fuel with
  | O => None
  | S fuel' =>
      if offset <? BITS_PER_WORD then
        let mask := u8 (Z.shiftl 1 offset) in
        if Z.land w mask =? 0 then Some offset else first_clear fuel' (offset + 1) w
      else None
  end.

(** The outer loop; [fuel] words are left to look at. *)
Fixpoint bitmap_alloc_loop (fuel : nat) (ix : Z) : BM Z :=
  match fuel with
  | O => fail ENOSPC
  | S fuel' =>
      b <- get ;; w <- deref (v b).[ix] ;;
      if negb (w =? WORD_ALLBITS) then
        match first_clear 8 0 w with
        | Some offset =>
            modify (set_v (λ l, l.[ix := Z.lor w (u8 (Z.shiftl 1 offset))])) ;;
            let index := ix * BITS_PER_WORD + offset in
            kassert (index <? nbits b) ;;
            ret index
        | None => panic
        end
      else bitmap_alloc_loop fuel' (ix + 1)
  end.
Definition bitmap_alloc : BM Z :=
  b <- get ;;
  let maxix := u32 (nbits b + BITS_PER_WORD - 1) / BITS_PER_WORD in
  bitmap_alloc_loop (Z.to_nat maxix) 0.

Definition bitmap_translate (bitno : Z) : Z * Z :=
  (bitno / BITS_PER_WORD, u8 (Z.shiftl 1 (bitno mod BITS_PER_WORD))).

Definition bitmap_mark (index : Z) : BM unit :=
  b <- get ;;
  kassert (index <? nbits b) ;;
  let '(ix, mask) := bitmap_translate index in
  w <- deref (v b).[ix] ;;
  kassert (Z.land w mask =? 0) ;;
  modify (set_v (λ l, l.[ix := Z.lor w mask])).

Definition bitmap_unmark (index : Z) : BM unit :=
  b <- get ;;
  kassert (index <? nbits b) ;;
  let '(ix, mask) := bitmap_translate index in
  w <- deref (v b).[ix] ;;
  kassert (negb (Z.land w mask =? 0)) ;;
  modify (set_v (λ l, l.[ix := Z.land w (u8 (Z.lnot mask))])).

Definition bitmap_isset (index : Z) : BM Z :=
  b <- get ;;
  let '(ix, mask) := bitmap_translate index in
  w <- deref (v b).[ix] ;;
  ret (Z.land w mask).

(** ** Abstract view and invariant *)

(** Bit [i], wherever it is stored. *)
Definition bit (b : bitmap) (i : Z) : bool :=
  match (v b).[i / 8] with Some w => Z.testbit w (i mod 8) | None => true end.

Record bitmap_wf (b : bitmap) : Prop := {
  bw_nbits : 0 ≤ nbits b ≤ 2 ^ 32 - 8;
  bw_len : lengthZ (v b) = DIVROUNDUP (nbits b) 8;
  bw_bytes : Forall (λ w, 0 ≤ w < 256) (v b);
  bw_leftover : ∀ i, nbits b ≤ i → bit b i = true
}.

(** ** Masks *)

Lemma mask_pow2 k : 0 ≤ k < 8 → u8 (Z.shiftl 1 k) = 2 ^ k.
Proof.
  intros. unfold u8. rewrite Z.shiftl_1_l. apply Z.mod_small.
  pose proof (Z.pow_lt_mono_r 2 k 8). lia.
Qed.

(** ** The representation *)

Lemma words_spec b : bitmap_wf b →
  u32 (nbits b + BITS_PER_WORD - 1) / BITS_PER_WORD = lengthZ (v b).
Proof.
  intros [Hn -> _ _]. unfold u32, DIVROUNDUP, BITS_PER_WORD. by rewrite Z.mod_small by lia.
Qed.

Lemma bit_word b i : bitmap_wf b → 0 ≤ i < nbits b →
  ∃ w, (v b).[i / 8] = Some w ∧ 0 ≤ w < 256 ∧ bit b i = Z.testbit w (i mod 8).
Proof.
  intros [Hn Hlen Hby _] Hi. destruct (lookupZ_lt (v b) (i / 8)) as [w Hw].
  { rewrite Hlen. pose proof (DIVROUNDUP_spec (nbits b) 8).
    split; [apply Z.div_pos; lia|]. apply Z.div_lt_upper_bound; lia. }
  exists w. split_and!; [done|..| unfold bit; by rewrite Hw];
    rewrite lookupZ_nat in Hw by (apply Z.div_pos; lia);
    eapply Forall_lookup in Hw; [|exact Hby| |exact Hby]; simpl in *; lia.
Qed.

Lemma word_bit b i w k : (v b).[i] = Some w → 0 ≤ k < 8 → bit b (8 * i + k) = Z.testbit w k.
Proof.
  intros Hw Hk. unfold bit.
  replace ((8 * i + k) / 8) with i by (apply (Z.div_unique_pos _ _ _ k); lia).
  replace ((8 * i + k) mod 8) with k by (apply (Z.mod_unique_pos _ _ i); lia).
  by rewrite Hw.
Qed.

(** Replacing one word so that only bit [k] of it changes. *)
Lemma bitmap_wf_word b i w w' k :
  bitmap_wf b → (v b).[i] = Some w → 0 ≤ k < 8 → 8 * i + k < nbits b → 0 ≤ w' < 256 →
  (∀ j, 0 ≤ j < 8 → j ≠ k → Z.testbit w' j = Z.testbit w j) →
  let b' := set_v (λ l, l.[i := w']) b in
  bitmap_wf b' ∧ ∀ j, 0 ≤ j → bit b' j = if decide (j = 8 * i + k) then Z.testbit w' k else bit b j.
Proof.
  intros [Hn Hlen Hby Hlo] Hw Hk Hlt Hw' Hsame b'.
  pose proof (lookupZ_Some_range _ _ _ Hw) as Hr.
  assert (∀ j, 0 ≤ j → bit b' j = if decide (j = 8 * i + k) then Z.testbit w' k else bit b j) as Hbit.
  { intros j Hj. unfold bit at 1. simpl. rewrite lookupZ_update by done.
    pose proof (Z.div_mod j 8). pose proof (Z.mod_pos_bound j 8).
    case_decide as E1; case_decide as E2.
    - f_equal. lia.
    - unfold bit. rewrite <- E1, Hw. apply Hsame; lia.
    - exfalso. apply E1. subst j. apply (Z.div_unique_pos _ _ _ k); lia.
    - done. }
  split; [|done]. constructor; simpl; [done|by rewrite lengthZ_update| |].
  - unfold updateZ. case_decide; [|done]. by apply Forall_insert.
  - intros j Hj. simpl in Hj. rewrite Hbit by lia. rewrite decide_False by lia. by apply Hlo.
Qed.

(** ** Specifications *)

Lemma first_clear_spec fuel k w :
  0 ≤ k → 8 - k ≤ Z.of_nat fuel →
  match first_clear fuel k w with
  | Some o => k ≤ o < 8 ∧ Z.testbit w o = false ∧ ∀ j, k ≤ j < o → Z.testbit w j = true
  | None => ∀ j, k ≤ j < 8 → Z.testbit w j = true
  end.
Proof.
  revert k. induction fuel as [|fuel IH]; intros k Hk Hf; simpl; [lia|].
  unfold BITS_PER_WORD. destruct (Z.ltb_spec k 8); [|lia].
  rewrite mask_pow2, mask_test by lia. destruct (Z.testbit w k) eqn:E; simpl.
  - specialize (IH (k + 1) ltac:(lia) ltac:(lia)).
    assert (∀ j, k ≤ j → j = k ∨ k + 1 ≤ j) as Hsplit by lia.
    destruct (first_clear fuel (k + 1) w) as [o|].
    + destruct IH as (? & ? & IH). split_and!; [lia..|done|].
      intros j Hj. destruct (Hsplit j); [lia|by subst|apply IH; lia].
    + intros j Hj. destruct (Hsplit j); [lia|by subst|apply IH; lia].
  - split_and!; [lia..|done|lia].
Qed.

#[global] Arguments first_clear : simpl never.

(** Setting bit [k] of word [i]. *)
Lemma bitmap_set_bit b i w k :
  bitmap_wf b → (v b).[i] = Some w → 0 ≤ k < 8 → 8 * i + k < nbits b →
  let b' := set_v (λ l, l.[i := Z.lor w (2 ^ k)]) b in
  bitmap_wf b' ∧ ∀ j, 0 ≤ j → bit b' j = bool_decide (j = 8 * i + k) || bit b j.
Proof.
  intros Hwf Hw Hk Hn.
  assert (0 ≤ w < 256).
  { pose proof (lookupZ_Some_range _ _ _ Hw). rewrite lookupZ_nat in Hw by lia.
    by eapply Forall_lookup in Hw; [|apply Hwf]. }
  destruct (bitmap_wf_word b i w (Z.lor w (2 ^ k)) k) as [Hwf' Hbits]; try done.
  { by apply (word_lor_mask 8). }
  { intros j ? ?. rewrite mask_set by lia. by rewrite bool_decide_eq_false_2 by done. }
  split; [done|]. intros j Hj. rewrite Hbits by done.
  case_decide; case_bool_decide; try done. rewrite mask_set by lia. by rewrite bool_decide_eq_true_2.
Qed.

(** What a successful bitmap_alloc returns: the lowest clear bit, now set. *)
Definition allocated (b : bitmap) (i : Z) (b' : bitmap) : Prop :=
  bitmap_wf b' ∧ nbits b' = nbits b ∧ 0 ≤ i < nbits b ∧ bit b i = false ∧
  (∀ j, 0 ≤ j < i → bit b j = true) ∧
  ∀ j, 0 ≤ j → bit b' j = bool_decide (j = i) || bit b j.

Lemma bitmap_alloc_loop_spec X fuel ix b :
  bitmap_wf b → 0 ≤ ix → ix + Z.of_nat fuel = lengthZ (v b) →
  (∀ j, 0 ≤ j < 8 * ix → bit b j = true) →
  wpx X (bitmap_alloc_loop fuel ix) (allocated b)
    (λ e b', e = ENOSPC ∧ b' = b ∧ ∀ j, 0 ≤ j → bit b j = true) b.
Proof.
  intros Hwf. revert ix. induction fuel as [|fuel IH]; intros ix Hix Hlen Hset; simpl.
  - wp_step. split_and!; [done..|]. intros j Hj.
    destruct (decide (j < 8 * ix)); [by apply Hset; lia|]. apply (bw_leftover _ Hwf).
    pose proof (bw_nbits _ Hwf). pose proof (DIVROUNDUP_spec (nbits b) 8).
    pose proof (bw_len _ Hwf). lia.
  - destruct (lookupZ_lt (v b) ix) as [w Hw]; [lia|].
    assert (0 ≤ w < 256) as Hrange.
    { rewrite lookupZ_nat in Hw by done. by eapply Forall_lookup in Hw; [|apply Hwf]. }
    wp_steps. eapply wp_deref; [done|]. pose proof (first_clear_spec 8 0 w) as Hfc.
    destruct (first_clear 8 0 w) as [o|].
    + destruct Hfc as (Ho & Hclr & Hbelow); [lia..|].
      assert (bit b (8 * ix + o) = false) as Hbit by (by rewrite (word_bit _ _ _ _ Hw)).
      assert (8 * ix + o < nbits b) as Hn.
      { apply Z.nle_gt. intros Hge. by rewrite (bw_leftover _ Hwf) in Hbit. }
      case_match eqn:Hall.
      * rewrite mask_pow2 by lia. wp_steps. unfold BITS_PER_WORD.
        apply wp_kassert; [simpl; lia|]. wp_steps.
        destruct (bitmap_set_bit b ix w o) as [Hwf' Hbits]; try done.
        replace (ix * 8 + o) with (8 * ix + o) by lia. split_and!; try done; try lia.
        intros j Hj. destruct (decide (j < 8 * ix)); [by apply Hset; lia|].
        replace j with (8 * ix + (j - 8 * ix)) by lia.
        rewrite (word_bit _ _ _ _ Hw) by lia. apply Hbelow. lia.
      * apply negb_false_iff, Z.eqb_eq in Hall. subst w.
        change WORD_ALLBITS with (Z.ones 8) in Hclr. by rewrite Z.ones_spec_low in Hclr by lia.
    + assert (w = 255) as -> by (apply (word_all_ones 8); [lia|done|]; intros; apply Hfc; lia). simpl.
      apply IH; [lia..|]. intros j Hj. destruct (decide (j < 8 * ix)); [by apply Hset; lia|].
      replace j with (8 * ix + (j - 8 * ix)) by lia. rewrite (word_bit _ _ _ _ Hw) by lia.
      apply Hfc; lia.
Qed.

Lemma bitmap_alloc_spec X b :
  bitmap_wf b →
  wpx X bitmap_alloc (allocated b)
    (λ e b', e = ENOSPC ∧ b' = b ∧ ∀ j, 0 ≤ j → bit b j = true) b.
Proof.
  intros Hwf. unfold bitmap_alloc. wp_steps. cbv zeta. rewrite (words_spec _ Hwf).
  apply bitmap_alloc_loop_spec; try done; unfold lengthZ; lia.
Qed.

Lemma bitmap_mark_spec X b i :
  bitmap_wf b → 0 ≤ i < nbits b → bit b i = false →
  wpx X (bitmap_mark i) (λ _ b', bitmap_wf b' ∧ nbits b' = nbits b ∧
      ∀ j, 0 ≤ j → bit b' j = bool_decide (j = i) || bit b j) (λ _ _, False) b.
Proof.
  intros Hwf Hi Hclr. unfold bitmap_mark, bitmap_translate, BITS_PER_WORD. wp_steps.
  apply wp_kassert; [lia|]. destruct (bit_word b i Hwf Hi) as (w & Hw & Hr & Hb).
  pose proof (Z.mod_pos_bound i 8 ltac:(lia)). pose proof (Z.div_mod i 8 ltac:(lia)) as Hdm.
  wp_steps. eapply wp_deref; [done|]. rewrite mask_pow2, mask_test, <- Hb, Hclr by lia. simpl.
  wp_steps. destruct (bitmap_set_bit b (i / 8) w (i mod 8)) as [Hwf' Hbits]; try done; [lia|].
  split_and!; [done..|]. intros j Hj. rewrite Hbits by done. by rewrite <- Hdm.
Qed.

Lemma bitmap_unmark_spec X b i :
  bitmap_wf b → 0 ≤ i < nbits b → bit b i = true →
  wpx X (bitmap_unmark i) (λ _ b', bitmap_wf b' ∧ nbits b' = nbits b ∧
      ∀ j, 0 ≤ j → bit b' j = negb (bool_decide (j = i)) && bit b j) (λ _ _, False) b.
Proof.
  intros Hwf Hi Hset. unfold bitmap_unmark, bitmap_translate, BITS_PER_WORD. wp_steps.
  apply wp_kassert; [lia|]. destruct (bit_word b i Hwf Hi) as (w & Hw & Hr & Hb).
  pose proof (Z.mod_pos_bound i 8 ltac:(lia)). pose proof (Z.div_mod i 8 ltac:(lia)) as Hdm.
  wp_steps. eapply wp_deref; [done|]. rewrite mask_pow2, mask_test, <- Hb, Hset by lia. simpl.
  wp_steps. destruct (bitmap_wf_word b (i / 8) w (Z.land w (u8 (Z.lnot (2 ^ (i mod 8))))) (i mod 8))
    as [Hwf' Hbits]; try done; try lia.
  { apply (word_land 8); [lia|]. apply Z.mod_pos_bound. lia. }
  { intros j ? ?. unfold u8; rewrite mask_clear by lia. by rewrite bool_decide_eq_false_2 by done. }
  split_and!; [done..|]. intros j Hj. rewrite Hbits by done. rewrite <- Hdm.
  case_decide; case_bool_decide; try done. unfold u8; rewrite mask_clear by lia. by rewrite bool_decide_eq_true_2.
Qed.

Lemma bitmap_isset_spec X b i :
  bitmap_wf b → 0 ≤ i < nbits b →
  wpx X (bitmap_isset i) (λ r b', b' = b ∧ negb (r =? 0) = bit b i) (λ _ _, False) b.
Proof.
  intros Hwf Hi. unfold bitmap_isset, bitmap_translate, BITS_PER_WORD. wp_steps.
  destruct (bit_word b i Hwf Hi) as (w & Hw & Hr & Hb).
  pose proof (Z.mod_pos_bound i 8 ltac:(lia)).
  wp_steps. eapply wp_deref; [done|]. wp_steps. split; [done|].
  by rewrite mask_pow2, mask_test, Hb, negb_involutive by lia.
Qed.

(** The loop of bitmap_create sets exactly the bits from [overbits] up. *)
Lemma mark_leftover_spec ix k l :
  l.[ix] = Some 0 → 0 ≤ k ≤ 8 →
  wp (mark_leftover ix k)
    (λ _ l', ∃ w, l' = l.[ix := w] ∧ 0 ≤ w < 256 ∧
       ∀ j, 0 ≤ j < 8 → Z.testbit w j = (k <=? j)) (λ _ _, False) l.
Proof.
  intros Hl Hk. pose proof (lookupZ_Some_range _ _ _ Hl) as Hr. unfold mark_leftover.
  apply (wp_for (λ n l', ∃ w, l' = l.[ix := w] ∧ 0 ≤ w < 256 ∧
    ∀ j, 0 ≤ j < 8 → Z.testbit w j = (k <=? j) && (j <? n))).
  - unfold BITS_PER_WORD. lia.
  - exists 0. split_and!; [by rewrite updateZ_id|lia..|].
    intros j Hj. rewrite Z.bits_0. destruct (Z.leb_spec k j), (Z.ltb_spec j k); done || lia.
  - intros n l' Hn (w & -> & Hw & Hbits). unfold BITS_PER_WORD in Hn.
    wp_steps. eapply wp_deref; [by apply lookupZ_update_eq|]. wp_steps.
    unfold u8. rewrite Z.shiftl_1_l, Z.mod_small by (apply (word_lor_mask 8 w n); lia).
    exists (Z.lor w (2 ^ n)). split_and!; [by rewrite updateZ_update|apply (word_lor_mask 8); lia..|].
    intros j Hj. rewrite mask_set, Hbits by lia. case_bool_decide; simpl; [subst; lia|].
    destruct (Z.leb_spec k j), (Z.ltb_spec j n), (Z.ltb_spec j (n + 1)); done || lia.
  - intros l' (w & -> & Hw & Hbits). exists w. split_and!; [done|lia..|].
    intros j Hj. rewrite Hbits by done. unfold BITS_PER_WORD.
    destruct (Z.leb_spec k j), (Z.ltb_spec j 8); done || lia.
Qed.

Lemma bit_zeros n k j : 0 ≤ j < 8 * Z.of_nat k → bit (mkBitmap n (replicate k 0)) j = false.
Proof.
  intros Hj. unfold bit. simpl. rewrite lookupZ_replicate; [apply Z.bits_0|].
  split; [apply Z.div_pos; lia|apply Z.div_lt_upper_bound; lia].
Qed.

(** What bitmap_create makes: a well-formed map of [n] clear bits. *)
Definition fresh_bitmap (n : Z) (b : bitmap) : Prop :=
  bitmap_wf b ∧ nbits b = n ∧ ∀ j, 0 ≤ j < n → bit b j = false.

(** The words before the last leftover bits are settled: [q] whole words and,
    if [r] is not zero, one more whose first [r] bits are clear. *)
Lemma fresh_bitmap_words n w :
  0 ≤ n ≤ 2 ^ 32 - 8 → n mod 8 ≠ 0 → 0 ≤ w < 256 →
  (∀ j, 0 ≤ j < 8 → Z.testbit w j = (n mod 8 <=? j)) →
  fresh_bitmap n (mkBitmap n ((replicate (Z.to_nat (n / 8 + 1)) 0).[n / 8 := w])).
Proof.
  intros Hn Hr Hw Hbits. set (l := replicate _ _).
  pose proof (Z.mod_pos_bound n 8 ltac:(lia)). pose proof (Z.div_mod n 8 ltac:(lia)) as Hdm.
  assert (lengthZ l = n / 8 + 1) as Hlen by (unfold l; rewrite lengthZ_replicate; lia).
  assert (∀ j, 0 ≤ j → bit (mkBitmap n (l.[n / 8 := w])) j = (n <=? j)) as Hall.
  { intros j Hj. pose proof (Z.mod_pos_bound j 8 ltac:(lia)). pose proof (Z.div_mod j 8 ltac:(lia)).
    unfold bit. simpl. rewrite lookupZ_update by lia. case_decide as E.
    - rewrite Hbits by lia. destruct (Z.leb_spec (n mod 8) (j mod 8)), (Z.leb_spec n j); done || lia.
    - destruct (Z.leb_spec n j).
      + assert (n / 8 ≤ j / 8) by (by apply Z.div_le_mono; lia).
        rewrite (proj2 (lookupZ_None l (j / 8))); [done|]. lia.
      + assert (0 ≤ j / 8 ≤ n / 8) by (split; [apply Z.div_pos|apply Z.div_le_mono]; lia).
        unfold l. rewrite lookupZ_replicate by lia. apply Z.bits_0. }
  split_and!; [|done|intros j Hj; rewrite Hall by lia; apply Z.leb_gt; lia].
  constructor; simpl; [done| | |intros j Hj; simpl in Hj; rewrite Hall by lia; lia].
  - rewrite lengthZ_update, Hlen. unfold DIVROUNDUP.
    apply (Z.div_unique_pos _ _ _ (n mod 8 - 1)); lia.
  - unfold updateZ. case_decide; [apply Forall_insert; [|done]|]; unfold l; by apply Forall_replicate.
Qed.

Lemma bitmap_create_spec X n mem_b mem_v :
  0 ≤ n ≤ 2 ^ 32 - 8 →
  wpx X (bitmap_create n mem_b mem_v)
    (λ o _, match o with
            | Some b => mem_b && mem_v = true ∧ fresh_bitmap n b
            | None => mem_b && mem_v = false
            end) (λ _ _, False) tt.
Proof.
  intros Hn. unfold bitmap_create, BITS_PER_WORD, u32. rewrite !(Z.mod_small (n + 8 - 1)) by lia.
  destruct mem_b, mem_v; simpl; try (by wp_step).
  pose proof (Z.mod_pos_bound n 8 ltac:(lia)). pose proof (Z.div_mod n 8 ltac:(lia)) as Hdm.
  destruct (decide (n mod 8 = 0)) as [H0|H0].
  - assert ((n + 8 - 1) / 8 = n / 8) as -> by (symmetry; apply (Z.div_unique_pos _ _ _ 7); lia).
    rewrite Z.ltb_irrefl. wp_step. split; [done|].
    assert (∀ j, 0 ≤ j → bit (mkBitmap n (replicate (Z.to_nat (n / 8)) 0)) j = (n <=? j)) as Hall.
    { intros j Hj. destruct (Z.leb_spec n j); [|apply bit_zeros; lia].
      unfold bit. simpl. rewrite (proj2 (lookupZ_None _ (j / 8))); [done|].
      rewrite lengthZ_replicate. assert (n / 8 ≤ j / 8) by (by apply Z.div_le_mono; lia). lia. }
    split_and!; [|done|intros j Hj; rewrite Hall by lia; apply Z.leb_gt; lia].
    constructor; simpl; [done| |by apply Forall_replicate|intros j Hj; simpl in Hj; rewrite Hall by lia; lia].
    rewrite lengthZ_replicate. unfold DIVROUNDUP.
    replace ((n + 8 - 1) / 8) with (n / 8) by (apply (Z.div_unique_pos _ _ _ 7); lia). lia.
  - assert ((n + 8 - 1) / 8 = n / 8 + 1) as ->
      by (symmetry; apply (Z.div_unique_pos _ _ _ (n mod 8 - 1)); lia).
    replace (n / 8 <? n / 8 + 1) with true by (symmetry; lia).
    replace (n / 8 + 1 - 1) with (n / 8) by lia. rewrite Z.mod_small by lia.
    replace (n - n / 8 * 8) with (n mod 8) by lia.
    wp_steps. apply wp_kassert; [lia|]. wp_steps. apply wp_kassert; [lia|].
    pose proof (mark_leftover_spec (n / 8) (n mod 8) (replicate (Z.to_nat (n / 8 + 1)) 0)) as Hm.
    unfold wpx in Hm. destruct (mark_leftover _ _ _); try (apply Hm; [apply lookupZ_replicate|]; lia).
    destruct Hm as (w & -> & Hw & Hbits); [apply lookupZ_replicate; lia|lia|].
    wp_step. split; [done|]. by apply fresh_bitmap_words.
Qed.


Lemma mask_roundtrip w k : 0 ≤ w < 256 → 0 ≤ k < 8 → Z.testbit w k = false →
  Z.land (Z.lor w (2 ^ k)) (u8 (Z.lnot (2 ^ k))) = w.
Proof.
  intros Hw Hk Hclr. apply Z.bits_inj'. intros j Hj. destruct (decide (j < 8)).
  - unfold u8; rewrite mask_clear, mask_set by lia. case_bool_decide; simpl; by subst.
  - rewrite Z.land_spec. unfold u8. rewrite Z.mod_pow2_bits_high, andb_false_r by lia.
    rewrite <- (Z.mod_small w (2 ^ 8)) by lia. by rewrite Z.mod_pow2_bits_high by lia.
Qed.

(** bitmap_mark stops the kernel exactly when its index is out of range or
    already set, bitmap_unmark exactly when it is out of range or clear, and
    unmarking what was marked gives the very same bitmap back. *)
Theorem bitmap_mark_unmark b i :
  bitmap_wf b → 0 ≤ i →
  (bitmap_mark i b = Panic ↔ ¬ (i < nbits b ∧ bit b i = false)) ∧
  (bitmap_unmark i b = Panic ↔ ¬ (i < nbits b ∧ bit b i = true)) ∧
  (i < nbits b → bit b i = false → (bitmap_mark i ;; bitmap_unmark i) b = Ok tt b).
Proof.
  intros Hwf Hi. unfold bitmap_mark, bitmap_unmark, bitmap_translate, BITS_PER_WORD, bind, get, kassert.
  pose proof (Z.mod_pos_bound i 8 ltac:(lia)). rewrite mask_pow2 by lia.
  destruct (Z.ltb_spec i (nbits b)) as [Hlt|Hge]; simpl; [|split_and!; try lia; split; done || lia].
  destruct (bit_word b i Hwf ltac:(lia)) as (w & Hw & Hr & Hb).
  rewrite Hw. simpl. unfold ret. rewrite mask_test, <- Hb by lia. simpl.
  destruct (bit b i) eqn:Hbit; simpl; [by split_and!; [split|split|]; naive_solver|].
  pose proof (lookupZ_Some_range _ _ _ Hw).
  split_and!; [by split; naive_solver..|]. intros _ _. destruct (Z.ltb_spec i (nbits b)); [|lia].
  rewrite lookupZ_update_eq by done. simpl. rewrite mask_test, mask_set by lia.
  rewrite bool_decide_eq_true_2 by done. simpl. unfold modify, set_v. simpl.
  rewrite mask_roundtrip by (done || lia || congruence).
  rewrite updateZ_update, updateZ_id by done. by destruct b.
Qed.

Lemma bitmap_mark_unmark_witness :
  bitmap_mark 8 (mkBitmap 8 [0]) = Panic ∧
  (bitmap_mark 3 ;; bitmap_unmark 3) (mkBitmap 8 [0]) = Ok tt (mkBitmap 8 [0]).
Proof.
  assert (bitmap_wf (mkBitmap 8 [0])) as Hwf.
  { constructor; [simpl; lia|reflexivity|repeat constructor; lia|].
    intros i Hi. simpl in Hi. unfold bit. rewrite (proj2 (lookupZ_None _ (i / 8))); [reflexivity|].
    assert (1 ≤ i / 8) by (apply Z.div_le_lower_bound; lia). unfold lengthZ. simpl. lia. }
  split.
  - apply (bitmap_mark_unmark (mkBitmap 8 [0]) 8 Hwf); [lia|]. simpl. lia.
  - apply (bitmap_mark_unmark (mkBitmap 8 [0]) 3 Hwf); [lia|simpl; lia|reflexivity].
Defined.
