(* ===== verification/Array.v ===== *)
(** * Resizable arrays

    Models kern/lib/array.c and the inline operations of kern/include/array.h,
    the arrays of pointers the kernel keeps its threads, CPUs and devices in.  A
    cell that has been allocated but never stored to is [None].  The abstract view
    is a list: [array_rep a l] says that the array holds exactly [l]. *)

From S2P Require Import Prelude.
#[local] Open Scope kern_scope.

Section Array.
Context {A : Type}.
Implicit Types (l : list A) (x : A).

Record array := mkArray { av : list (option A); num : Z; max : Z }.
Abbreviation AM := (M array).

(** ** Operations *)

Definition array_init : array := mkArray [] 0 0.

(** array_create; [mem] says whether kmalloc succeeds. *)
Definition array_create (mem : bool) : option array := if mem then Some array_init else None.

Definition array_cleanup : AM unit :=
  a <- get ;;
  kassert (num a =? 0) ;;
  modify (λ a, mkArray [] (num a) (max a)).

Definition array_destroy : AM unit := array_cleanup.

(** [while (num > newmax) newmax = newmax ? newmax*2 : 4] on 32-bit unsigneds;
    from any start the loop is done after 33 rounds or never. *)
Fixpoint grow_max (fuel : nat) (num newmax : Z) : option Z :=
  match fuel with
  | O => None
  | S fuel' =>
      if newmax <? num then
        grow_max fuel' num (if newmax =? 0 then 4 else u32 (newmax * 2))
      else Some newmax
  end.

(** The memcpy of [n] cells of [old] over the start of [new]. *)
Definition copy_cells (n : Z) (old new : list (option A)) : list (option A) :=
  take (Z.to_nat n) old ++ drop (Z.to_nat n) new.

(** array_setsize; a pointer takes four bytes. *)
Definition array_setsize (mem : bool) (n : Z) : AM unit :=
  a <- get ;;
  if max a <? n then
    newmax <- deref (grow_max 34 n (max a)) ;;
    if negb mem then fail ENOMEM else
    let newptr := replicate (Z.to_nat (u32 (newmax * 4) / 4)) None in
    if (num a <=? lengthZ (av a)) && (num a <=? lengthZ newptr) then
      modify (λ a, mkArray (copy_cells (num a) (av a) newptr) n newmax)
    else undef
  else modify (λ a, mkArray (av a) n (max a)).

Definition array_num : AM Z := gets num.

Definition array_get (index : Z) : AM A :=
  a <- get ;;
  kassert (index <? num a) ;;
  c <- deref (av a).[index] ;;
  deref c.

(** A store through [a->v]. *)
Definition store_cell (index : Z) (val : A) : AM unit :=
  a <- get ;;
  if (0 <=? index) && (index <? lengthZ (av a)) then
    modify (λ a, mkArray ((av a).[index := Some val]) (num a) (max a))
  else undef.

Definition array_set (index : Z) (val : A) : AM unit :=
  a <- get ;;
  kassert (index <? num a) ;;
  store_cell index val.

Definition array_add (mem : bool) (val : A) : AM Z :=
  index <- gets num ;;
  array_setsize mem (u32 (index + 1)) ;;
  store_cell index val ;;
  ret index.

(** array_remove: the cells after [index] slide down by one. *)
Definition array_remove (index : Z) : AM unit :=
  a <- get ;;
  kassert (num a <=? max a) ;;
  kassert (index <? num a) ;;
  let num_to_move := num a - (index + 1) in
  if (0 <=? index) && (num a <=? lengthZ (av a)) then
    modify (λ a, mkArray
      (take (Z.to_nat index) (av a) ++
       take (Z.to_nat num_to_move) (drop (Z.to_nat (index + 1)) (av a)) ++
       drop (Z.to_nat (index + num_to_move)) (av a)) (num a - 1) (max a))
  else undef.

(** ** Representation *)

Definition array_rep (a : array) (l : list A) : Prop :=
  num a = lengthZ l ∧ num a ≤ max a < 2 ^ 30 ∧ lengthZ (av a) = max a ∧
  take (length l) (av a) = Some <$> l.

Lemma array_rep_get a l i : array_rep a l → 0 ≤ i < num a → (av a).[i] = Some <$> l.[i].
Proof.
  intros (Hn & Hm & Hlen & Hl) Hi. rewrite !lookupZ_nat by lia.
  rewrite <- list_lookup_fmap, <- Hl. rewrite lookup_take_lt; [done|]. unfold lengthZ in *. lia.
Qed.

Lemma array_rep_intro a l :
  num a = lengthZ l → num a ≤ max a < 2 ^ 30 → lengthZ (av a) = max a →
  (∀ i x, l.[i] = Some x → (av a).[i] = Some (Some x)) → array_rep a l.
Proof.
  intros Hn Hm Hlen H. split_and!; try done; try lia. apply list_eq. intros k.
  rewrite list_lookup_fmap. destruct (l !! k) as [x|] eqn:E; simpl.
  - rewrite lookup_take_lt by (by eapply lookup_lt_Some).
    specialize (H (Z.of_nat k) x). rewrite !lookupZ_of_nat in H. by apply H.
  - apply lookup_ge_None in E. apply lookup_ge_None. rewrite length_take. lia.
Qed.

(** The doubling loop ends, with less than twice what was asked for. *)
Lemma grow_max_pos fuel n m :
  0 < m < 2 * n → n ≤ 2 ^ 28 → n ≤ m * 2 ^ Z.of_nat fuel →
  ∃ r, grow_max (S fuel) n m = Some r ∧ n ≤ r < 2 * n.
Proof.
  revert m. induction fuel as [|fuel IH]; intros m Hm Hn Hf.
  - exists m. simpl. destruct (Z.ltb_spec m n); [lia|]. split; [done|lia].
  - remember (S fuel) as f. simpl. subst f. destruct (Z.ltb_spec m n); [|exists m; split; [done|lia]].
    destruct (Z.eqb_spec m 0); [lia|]. unfold u32. rewrite Z.mod_small by lia.
    apply IH; [lia..|]. rewrite Nat2Z.inj_succ, Z.pow_succ_r in Hf by lia. lia.
Qed.

Lemma grow_max_S fuel n m : grow_max (S fuel) n m =
  if m <? n then grow_max fuel n (if m =? 0 then 4 else u32 (m * 2)) else Some m.
Proof. done. Qed.

Lemma grow_max_spec n m :
  0 ≤ m < n → n ≤ 2 ^ 28 → ∃ r, grow_max 34 n m = Some r ∧ n ≤ r < 2 ^ 30.
Proof.
  intros Hm Hn. destruct (decide (m = 0)) as [->|].
  - rewrite grow_max_S. destruct (Z.ltb_spec 0 n); [|lia]. rewrite Z.eqb_refl.
    destruct (decide (n ≤ 4)).
    + exists 4. rewrite grow_max_S. destruct (Z.ltb_spec 4 n); [lia|]. split; [done|lia].
    + destruct (grow_max_pos 32 n 4) as (r & ? & ?); [lia..|]. exists r. split; [done|lia].
  - destruct (grow_max_pos 33 n m) as (r & ? & ?); [lia|lia| |exists r; split; [done|lia]].
    transitivity (1 * 2 ^ Z.of_nat 33); [lia|]. apply Z.mul_le_mono_nonneg_r; lia.
Qed.

Lemma copy_cells_lookup n old new i :
  0 ≤ n ≤ lengthZ old → n ≤ lengthZ new →
  (copy_cells n old new).[i] = if decide (i < n) then old.[i] else new.[i].
Proof.
  intros Hn Hn'. unfold copy_cells, lookupZ. repeat case_decide; try done.
  - rewrite lookup_app_l; [by rewrite lookup_take_lt by lia|].
    rewrite length_take. unfold lengthZ in *. lia.
  - rewrite lookup_app_r; rewrite length_take; unfold lengthZ in *; [|lia].
    rewrite lookup_drop. f_equal. lia.
Qed.

Lemma copy_cells_length n old new :
  0 ≤ n ≤ lengthZ old → n ≤ lengthZ new → lengthZ (copy_cells n old new) = lengthZ new.
Proof.
  unfold copy_cells, lengthZ. intros. rewrite length_app, length_take, length_drop. lia.
Qed.

(** ** Specifications *)

(** The state after array_setsize: [a'] has room for [n] cells and keeps the
    elements it had, up to [n] of them. *)
Definition resized (l : list A) (n : Z) (a' : array) : Prop :=
  num a' = n ∧ n ≤ max a' < 2 ^ 30 ∧ lengthZ (av a') = max a' ∧
  ∀ i x, l.[i] = Some x → i < n → (av a').[i] = Some (Some x).

Lemma array_setsize_spec mem n a l :
  array_rep a l → 0 ≤ n ≤ 2 ^ 28 →
  wp (array_setsize mem n) (λ _, resized l n)
    (λ e a', e = ENOMEM ∧ a' = a ∧ mem = false ∧ max a < n) a.
Proof.
  intros Hrep Hn. destruct (Hrep) as (Hnum & Hmax & Hlen & _). unfold array_setsize. wp_steps.
  pose proof (lengthZ_nonneg l). destruct (Z.ltb_spec (max a) n).
  - destruct (grow_max_spec n (max a)) as (r & Hr & ?); [lia..|].
    wp_steps. eapply wp_deref; [done|]. destruct mem; simpl; [|by wp_step].
    unfold u32. rewrite Z.mod_small, Z.div_mul by lia. rewrite lengthZ_replicate, Z2Nat.id by lia.
    destruct (Z.leb_spec (num a) (lengthZ (av a))); [|lia].
    destruct (Z.leb_spec (num a) r); [|lia]. simpl. wp_steps.
    split_and!; simpl; try done; try lia.
    + rewrite copy_cells_length by (rewrite ?lengthZ_replicate; lia).
      rewrite lengthZ_replicate. lia.
    + intros i x Hi Hin. pose proof (lookupZ_Some_range _ _ _ Hi).
      rewrite copy_cells_lookup by (rewrite ?lengthZ_replicate; lia).
      rewrite decide_True, (array_rep_get a l) by (done || lia). by rewrite Hi.
  - wp_steps. split_and!; simpl; try done; try lia.
    intros i x Hi Hin. pose proof (lookupZ_Some_range _ _ _ Hi).
    rewrite (array_rep_get a l) by (done || lia). by rewrite Hi.
Qed.

Lemma array_get_spec X a l i :
  array_rep a l → 0 ≤ i < num a →
  wpx X (array_get i) (λ x a', a' = a ∧ l.[i] = Some x) (λ _ _, False) a.
Proof.
  intros Hrep Hi. destruct (Hrep) as (Hnum & _). destruct (lookupZ_lt l i) as [x Hx]; [lia|].
  unfold array_get. wp_steps. apply wp_kassert; [lia|]. wp_steps.
  eapply wp_deref; [by erewrite (array_rep_get a l), Hx by done|].
  eapply wp_deref; [done|]. done.
Qed.

Lemma array_set_spec X a l i x :
  array_rep a l → 0 ≤ i < num a →
  wpx X (array_set i x) (λ _ a', array_rep a' (l.[i := x])) (λ _ _, False) a.
Proof.
  intros Hrep Hi. destruct (Hrep) as (Hnum & Hmax & Hlen & _).
  unfold array_set, store_cell. wp_steps. apply wp_kassert; [lia|]. wp_steps.
  destruct (Z.leb_spec 0 i); [|lia]. destruct (Z.ltb_spec i (lengthZ (av a))); [|lia].
  simpl. wp_steps. apply array_rep_intro; simpl; rewrite ?lengthZ_update; try done; try lia.
  intros j y. rewrite !lookupZ_update by lia. case_decide; [by intros [= <-]|].
  intros Hj. pose proof (lookupZ_Some_range _ _ _ Hj).
  rewrite (array_rep_get a l) by (done || lia). by rewrite Hj.
Qed.

Lemma array_add_spec mem a l x :
  array_rep a l → num a < 2 ^ 28 →
  wp (array_add mem x) (λ i a', i = lengthZ l ∧ array_rep a' (l ++ [x]))
    (λ e a', e = ENOMEM ∧ a' = a ∧ mem = false ∧ max a = num a) a.
Proof.
  intros Hrep Hn. destruct (Hrep) as (Hnum & Hmax & _). pose proof (lengthZ_nonneg l).
  unfold array_add. wp_steps. unfold u32. rewrite Z.mod_small by lia.
  eapply wp_conseq; [by apply (array_setsize_spec mem (num a + 1) a l); [|lia]| |].
  2: { intros e a' (-> & -> & -> & ?). split_and!; done || lia. }
  intros [] a' (Hnum' & Hmax' & Hlen' & Hold). unfold store_cell. wp_steps.
  destruct (Z.leb_spec 0 (num a)); [|lia]. destruct (Z.ltb_spec (num a) (lengthZ (av a'))); [|lia].
  simpl. wp_steps. split; [done|].
  apply array_rep_intro; simpl; rewrite ?lengthZ_update, ?lengthZ_app; try done; try lia.
  { rewrite Hnum', Hnum. done. }
  intros j y Hj. pose proof (lookupZ_Some_range _ _ _ Hj) as Hr. rewrite lengthZ_app in Hr.
  rewrite lookupZ_update by lia. unfold lengthZ at 2 in Hr. simpl in Hr. case_decide as E.
  - rewrite lookupZ_app_r in Hj by lia. subst j.
    replace (num a - lengthZ l) with 0 in Hj by lia. by injection Hj as <-.
  - rewrite lookupZ_app_l in Hj by lia. apply Hold; [done|lia].
Qed.

Lemma array_remove_spec X a l i :
  array_rep a l → 0 ≤ i < num a →
  wpx X (array_remove i) (λ _ a', array_rep a' (delete (Z.to_nat i) l)) (λ _ _, False) a.
Proof.
  intros Hrep Hi. destruct (Hrep) as (Hnum & Hmax & Hlen & _).
  unfold array_remove. wp_steps. apply wp_kassert; [lia|]. wp_steps. apply wp_kassert; [lia|].
  destruct (Z.leb_spec 0 i); [|lia]. destruct (Z.leb_spec (num a) (lengthZ (av a))); [|lia].
  simpl. wp_steps. unfold lengthZ in *.
  apply array_rep_intro; unfold lengthZ; simpl.
  - rewrite length_delete by (apply lookup_lt_is_Some; lia). lia.
  - lia.
  - rewrite !length_app, !length_take, !length_drop. lia.
  - intros j y Hj. pose proof (lookupZ_Some_range _ _ _ Hj) as Hr. unfold lengthZ in Hr.
    rewrite length_delete in Hr by (apply lookup_lt_is_Some; lia).
    rewrite lookupZ_nat in Hj by lia. rewrite list_lookup_delete in Hj.
    assert (∀ k, 0 ≤ k < num a → l !! Z.to_nat k = Some y → av a !! Z.to_nat k = Some (Some y)) as Hget.
    { intros k Hk E. pose proof (array_rep_get a l k Hrep Hk) as Hg.
      rewrite !lookupZ_nat in Hg by lia. by rewrite Hg, E. }
    rewrite lookupZ_nat by lia. case_decide.
    + rewrite lookup_app_l by (rewrite length_take; lia). rewrite lookup_take_lt by lia.
      apply Hget; [lia|done].
    + rewrite lookup_app_r by (rewrite length_take; lia). rewrite length_take.
      rewrite lookup_app_l by (rewrite length_take, length_drop; lia).
      rewrite lookup_take_lt by lia. rewrite lookup_drop.
      replace (_ + _)%nat with (Z.to_nat (j + 1)) by lia. apply Hget; [lia|].
      by replace (Z.to_nat (j + 1)) with (S (Z.to_nat j)) by lia.
Qed.

(** ** Refinement: the array is a list *)

(** A call of the interface, and what it answers. *)
Inductive array_op :=
  | OpAdd (mem : bool) (x : A)
  | OpRemove (i : Z)
  | OpSet (i : Z) (x : A)
  | OpGet (i : Z).
Inductive array_answer :=
  | Done
  | Index (i : Z)
  | Element (x : A)
  | NoMemory.

Definition exec_op (o : array_op) : AM array_answer :=
  match o with
  | OpAdd mem x => r <- attempt (array_add mem x) ;;
                   ret (match r with inl i => Index i | inr _ => NoMemory end)
  | OpRemove i => array_remove i ;; ret Done
  | OpSet i x => array_set i x ;; ret Done
  | OpGet i => x <- array_get i ;; ret (Element x)
  end.

(** The same interface on lists; adding may fail only without memory. *)
Inductive list_op : array_op → list A → array_answer → list A → Prop :=
  | list_add mem x l : list_op (OpAdd mem x) l (Index (lengthZ l)) (l ++ [x])
  | list_nomem x l : list_op (OpAdd false x) l NoMemory l
  | list_remove i l : 0 ≤ i < lengthZ l → list_op (OpRemove i) l Done (delete (Z.to_nat i) l)
  | list_set i x l : 0 ≤ i < lengthZ l → list_op (OpSet i x) l Done (l.[i := x])
  | list_get i x l : l.[i] = Some x → list_op (OpGet i) l (Element x) l.

(** Indices are unsigned. *)
Definition op_index_ok (o : array_op) : Prop :=
  match o with OpAdd _ _ => True | OpRemove i | OpSet i _ | OpGet i => 0 ≤ i end.

Lemma array_rep_init : array_rep array_init [].
Proof. unfold array_rep, array_init, lengthZ. simpl. split_and!; done || lia. Qed.

(** Past the end, the index assertion fires. *)
Lemma array_remove_oob a i : num a ≤ max a → num a ≤ i → array_remove i a = Panic.
Proof.
  intros. unfold array_remove, bind, get, kassert.
  by replace (i <? num a) with false by lia; replace (num a <=? max a) with true by lia.
Qed.
Lemma array_set_oob a i x : num a ≤ i → array_set i x a = Panic.
Proof. intros. unfold array_set, bind, get, kassert. by replace (i <? num a) with false by lia. Qed.
Lemma array_get_oob a i : num a ≤ i → array_get i a = Panic.
Proof. intros. unfold array_get, bind, get, kassert. by replace (i <? num a) with false by lia. Qed.

Lemma array_op_sim a l o :
  array_rep a l → lengthZ l < 2 ^ 28 → op_index_ok o →
  match exec_op o a with
  | Ok r a' => ∃ l', list_op o l r l' ∧ array_rep a' l'
  | Err _ _ => False
  | Panic => ∀ r l', ¬ list_op o l r l'
  | Undef => False
  end.
Proof.
  intros Hrep Hlen Hok. destruct (Hrep) as (Hnum & Hmax & _).
  assert (∀ m Q, wp m Q (λ _ _, False) a → (∀ r a', Q r a' → ∃ l', list_op o l r l' ∧ array_rep a' l') →
    match m a with Ok r a' => ∃ l', list_op o l r l' ∧ array_rep a' l' | Err _ _ => False
                 | Panic => ∀ r l', ¬ list_op o l r l' | Undef => False end) as Huse.
  { intros m Q H HQ. unfold wpx in H. destruct (m a); naive_solver. }
  destruct o as [mem x|i|i x|i]; simpl in Hok |- *.
  - eapply (Huse _ (λ r a', ∃ l', list_op (OpAdd mem x) l r l' ∧ array_rep a' l')); [|done].
    wp_steps. eapply wp_conseq; [by apply (array_add_spec mem a l x); [|lia]| |].
    + intros i a' [-> ?]. wp_step. eauto using list_add.
    + intros e a' (_ & -> & -> & _). wp_step. eauto using list_nomem.
  - destruct (decide (i < num a)).
    + eapply (Huse _ (λ r a', r = Done ∧ array_rep a' (delete (Z.to_nat i) l))).
      * wp_steps. eapply wp_conseq; [by apply array_remove_spec| |done]. intros [] a' ?. by wp_step.
      * intros r a' [-> ?]. eexists. split; [apply list_remove; lia|done].
    + unfold bind. rewrite array_remove_oob by lia. intros r l' H. inversion H; lia.
  - destruct (decide (i < num a)).
    + eapply (Huse _ (λ r a', r = Done ∧ array_rep a' (l.[i := x]))).
      * wp_steps. eapply wp_conseq; [by apply array_set_spec| |done]. intros [] a' ?. by wp_step.
      * intros r a' [-> ?]. eexists. split; [apply list_set; lia|done].
    + unfold bind. rewrite array_set_oob by lia. intros r l' H. inversion H; lia.
  - destruct (decide (i < num a)).
    + eapply (Huse _ (λ r a', ∃ x, r = Element x ∧ a' = a ∧ l.[i] = Some x)).
      * wp_steps. eapply wp_conseq; [by apply array_get_spec| |done]. intros x a' ?. wp_step. naive_solver.
      * intros r a' (x & -> & -> & ?). eexists. split; [by apply list_get|done].
    + unfold bind. rewrite array_get_oob by lia. intros r l' H.
      inversion H as [| | | |? ? ? Hx]; subst. apply lookupZ_Some_range in Hx. lia.
Qed.
End Array.

Arguments array : clear implicits.


