(* ===== verification/Queue.v ===== *)
(** * Queues of pointers

    Models kern/lib/queue.c: a ring buffer that doubles when it is full.
    q_addtail and q_grow call each other: growing re-adds every element to the new
    buffer.  The recursion is bounded by a depth; depth two is enough, since an
    addition to a buffer that has just grown never grows it again.  The abstract
    view is the list of elements from the oldest to the newest. *)

From S2P Require Import Prelude.
#[local] Open Scope kern_scope.

Section Queue.
Context {A : Type}.
Implicit Types (l : list A) (x : A).

Record queue := mkQueue {
  size : Z;
  nextwrite : Z;
  nextread : Z;
  data : list (option A)
}.
Abbreviation QM := (M queue).

(** ** Operations *)

(** [n] pointers from kmalloc; a pointer takes four bytes. *)
Definition alloc_cells (n : Z) : list (option A) := replicate (Z.to_nat (u32 (n * 4) / 4)) None.

(** q_create; [mem_q] and [mem_data] say whether the two kmallocs succeed. *)
Definition q_create (mem_q mem_data : bool) (sz : Z) : option queue :=
  if mem_q && mem_data then Some (mkQueue sz 0 0 (alloc_cells sz)) else None.

(** [while (nsize < targetsize) { nsize *= 2; KASSERT(nsize > 0); }]; a 32-bit
    int is doubled at most 32 times before the assertion or the test stops it. *)
Fixpoint grow_size (fuel : nat) (nsize targetsize : Z) : QM Z :=
  match fuel with
  | O => undef
  | S fuel' =>
      if nsize <? targetsize then
        let nsize := i32 (nsize * 2) in
        kassert (0 <? nsize) ;; grow_size fuel' nsize targetsize
      else ret nsize
  end.

(** [for (i=onr; i!=onw; i = (i+1)%osize) q_addtail(q, olddata[i])]. *)
Fixpoint readd (fuel : nat) (addtail : A → QM unit) (olddata : list (option A))
    (i onw osize : Z) : QM unit :=
  match fuel with
  | O => undef
  | S fuel' =>
      if i =? onw then ret tt else
      c <- deref olddata.[i] ;;
      ptr <- deref c ;;
      r <- attempt (addtail ptr) ;;
      kassert (match r with inl _ => true | inr _ => false end) ;;
      readd fuel' addtail olddata ((i + 1) mod osize) onw osize
  end.

(** q_grow, with the q_addtail it calls. *)
Definition q_grow_with (addtail : A → QM unit) (mem : bool) (targetsize : Z) : QM unit :=
  q <- get ;;
  nsize <- grow_size 33 (size q) targetsize ;;
  if negb mem then fail ENOMEM else
  modify (λ _, mkQueue nsize 0 0 (alloc_cells nsize)) ;;
  readd (S (Z.to_nat (size q))) addtail (data q) (nextread q) (nextwrite q) (size q).

(** The store at the end of q_addtail. *)
Definition q_store (ptr : A) (nextnext : Z) : QM unit :=
  q <- get ;;
  if (0 <=? nextwrite q) && (nextwrite q <? lengthZ (data q)) then
    modify (λ q, mkQueue (size q) nextnext (nextread q) ((data q).[nextwrite q := Some ptr]))
  else undef.

Fixpoint q_addtail_depth (depth : nat) (mem : bool) (ptr : A) : QM unit :=
  match depth with
  | O => undef
  | S depth' =>
      q <- get ;;
      kassert (0 <? size q) ;;
      if (nextwrite q + 1) mod size q =? nextread q then
        q_grow_with (q_addtail_depth depth' mem) mem (size q + 1) ;;
        q <- get ;;
        q_store ptr ((nextwrite q + 1) mod size q)
      else q_store ptr ((nextwrite q + 1) mod size q)
  end.

Definition q_addtail (mem : bool) (ptr : A) : QM unit := q_addtail_depth 2 mem ptr.
Definition q_grow (mem : bool) (targetsize : Z) : QM unit :=
  q_grow_with (q_addtail_depth 1 mem) mem targetsize.

Definition q_preallocate (mem : bool) (sz : Z) : QM unit :=
  q <- get ;;
  kassert (0 <? size q) ;;
  if size q <? sz then q_grow mem sz else ret tt.

Definition q_empty : QM bool := gets (λ q, nextwrite q =? nextread q).

Definition q_remhead : QM A :=
  q <- get ;;
  kassert (0 <? size q) ;;
  e <- q_empty ;;
  kassert (negb e) ;;
  c <- deref (data q).[nextread q] ;;
  r <- deref c ;;
  modify (λ q, mkQueue (size q) (nextwrite q) ((nextread q + 1) mod size q) (data q)) ;;
  ret r.

Definition q_destroy : QM unit := e <- q_empty ;; kassert e.

Definition q_getguy (index : Z) : QM A :=
  q <- get ;;
  kassert ((0 <=? index) && (index <? size q)) ;;
  c <- deref (data q).[index] ;;
  deref c.

Definition q_peek : QM (option A) :=
  q <- get ;;
  kassert (0 <? size q) ;;
  e <- q_empty ;;
  if (e : bool) then ret None
  else c <- deref (data q).[nextread q] ;; r <- deref c ;; ret (Some r).

(** The counting loop of q_len. *)
Fixpoint q_len_loop (fuel : nat) (tmp count : Z) : QM Z :=
  match fuel with
  | O => undef
  | S fuel' =>
      q <- get ;;
      if tmp =? nextwrite q then ret count
      else q_len_loop fuel' ((tmp + 1) mod size q) (count + 1)
  end.
Definition q_len : QM Z := q <- get ;; q_len_loop (S (Z.to_nat (size q))) (nextread q) 0.

(** ** Representation *)

(** The queue holds [l]: element [i] sits [i] places after [nextread]. *)
Record queue_rep (q : queue) (l : list A) : Prop := {
  qr_size : 0 < size q ≤ 2 ^ 29;
  qr_read : 0 ≤ nextread q < size q;
  qr_write : nextwrite q = (nextread q + lengthZ l) mod size q;
  qr_room : lengthZ l < size q;
  qr_data : lengthZ (data q) = size q;
  qr_cells : ∀ i x, l.[i] = Some x → (data q).[(nextread q + i) mod size q] = Some (Some x)
}.

Lemma ring_inj r n i j :
  0 ≤ i < n → 0 ≤ j < n → (r + i) mod n = (r + j) mod n → i = j.
Proof.
  intros Hi Hj E. pose proof (Z.div_mod (r + i) n). pose proof (Z.div_mod (r + j) n).
  assert (i - j = n * ((r + i) / n - (r + j) / n)) by lia.
  assert ((r + i) / n - (r + j) / n = 0) by nia. lia.
Qed.

Lemma ring_succ r n k : 0 < n → ((r + k) mod n + 1) mod n = (r + (k + 1)) mod n.
Proof. intros. rewrite Zplus_mod_idemp_l. f_equal. lia. Qed.

Lemma ring_start r n : 0 ≤ r < n → (r + 0) mod n = r.
Proof. intros. rewrite Z.add_0_r. by apply Z.mod_small. Qed.

Lemma queue_write_range q l : queue_rep q l → 0 ≤ nextwrite q < size q.
Proof. intros [? ? -> _ _ _]. apply Z.mod_pos_bound. lia. Qed.

Lemma queue_empty_iff q l : queue_rep q l → (nextwrite q =? nextread q) = bool_decide (l = []).
Proof.
  intros [Hs Hr Hw Hroom _ _]. pose proof (lengthZ_nonneg l).
  case_bool_decide as E; [subst l; rewrite Hw; unfold lengthZ; simpl; rewrite ring_start by lia; lia|].
  apply Z.eqb_neq. rewrite Hw. intros Hq. rewrite <- (ring_start (nextread q) (size q)) in Hq at 2 by done.
  apply ring_inj in Hq; [|lia..]. destruct l; [done|]. rewrite lengthZ_cons in Hq.
  pose proof (lengthZ_nonneg l). lia.
Qed.

(** The test of q_addtail: the buffer is full when one cell is left. *)
Lemma queue_full_iff q l :
  queue_rep q l → ((nextwrite q + 1) mod size q =? nextread q) = (lengthZ l + 1 =? size q).
Proof.
  intros [Hs Hr Hw Hroom _ _]. pose proof (lengthZ_nonneg l). rewrite Hw, ring_succ by lia.
  destruct (Z.eqb_spec (lengthZ l + 1) (size q)) as [E|E].
  - rewrite E. apply Z.eqb_eq. rewrite <- (Z.mul_1_l (size q)) at 1. rewrite Z.mod_add by lia.
    by apply Z.mod_small.
  - apply Z.eqb_neq. intros Hq. rewrite <- (ring_start (nextread q) (size q)) in Hq at 2 by done.
    apply ring_inj in Hq; lia.
Qed.

(** ** Specifications *)

Lemma q_store_spec X q l x :
  queue_rep q l → lengthZ l + 1 < size q →
  wpx X (q_store x ((nextwrite q + 1) mod size q))
    (λ _ q', queue_rep q' (l ++ [x]) ∧ size q' = size q) (λ _ _, False) q.
Proof.
  intros Hrep Hroom. pose proof (queue_write_range _ _ Hrep) as Hwr.
  destruct (Hrep) as [Hs Hr Hw _ Hd Hc]. pose proof (lengthZ_nonneg l).
  unfold q_store. wp_steps. destruct (Z.leb_spec 0 (nextwrite q)); [|lia].
  destruct (Z.ltb_spec (nextwrite q) (lengthZ (data q))); [|lia]. simpl. wp_steps.
  split; [|done]. constructor; simpl; rewrite ?lengthZ_app, ?lengthZ_update; try done.
  - rewrite Hw, ring_succ by lia. done.
  - intros i y Hi. pose proof (lookupZ_Some_range _ _ _ Hi) as Hir. rewrite lengthZ_app in Hir.
    unfold lengthZ at 2 in Hir. simpl in Hir. rewrite lookupZ_update by lia.
    case_decide as E; rewrite Hw in E.
    + apply ring_inj in E; [|lia..]. subst i. rewrite lookupZ_app_r, Z.sub_diag in Hi by lia.
      by injection Hi as <-.
    + rewrite lookupZ_app_l in Hi; [by apply Hc|]. destruct (decide (i = lengthZ l)); [by subst|lia].
Qed.

Lemma q_addtail_room X d mem q l x :
  queue_rep q l → lengthZ l + 1 < size q →
  wpx X (q_addtail_depth (S d) mem x)
    (λ _ q', queue_rep q' (l ++ [x]) ∧ size q' = size q) (λ _ _, False) q.
Proof.
  intros Hrep Hroom. simpl. wp_steps. apply wp_kassert; [pose proof (qr_size _ _ Hrep); lia|].
  rewrite (queue_full_iff q l Hrep). destruct (Z.eqb_spec (lengthZ l + 1) (size q)); [lia|].
  by apply q_store_spec.
Qed.

Lemma readd_spec X d mem q l k n q' fuel :
  queue_rep q l → 0 ≤ k ≤ lengthZ l → lengthZ l < n → size q' = n →
  queue_rep q' (take (Z.to_nat k) l) → lengthZ l - k < Z.of_nat fuel →
  wpx X (readd fuel (q_addtail_depth (S d) mem) (data q) ((nextread q + k) mod size q)
           (nextwrite q) (size q))
    (λ _ q'', queue_rep q'' l ∧ size q'' = n) (λ _ _, False) q'.
Proof.
  intros Hrep. destruct (Hrep) as [Hs Hr Hw Hroom Hd Hc]. revert k q'.
  induction fuel as [|fuel IH]; intros k q' Hk Hn Hsz Hrep' Hf; [lia|].
  cbn [readd]. rewrite Hw at 1.
  destruct (Z.eqb_spec ((nextread q + k) mod size q) ((nextread q + lengthZ l) mod size q)) as [E|E].
  - apply ring_inj in E; [|lia..]. wp_step. split; [|done].
    rewrite take_ge in Hrep' by (unfold lengthZ in *; lia). done.
  - destruct (decide (k = lengthZ l)) as [->|Hne]; [done|].
    destruct (lookupZ_lt l k) as [x Hx]; [lia|].
    wp_step. eapply wp_deref; [by apply Hc|]. wp_step. eapply wp_deref; [done|]. wp_step. wp_step.
    eapply wp_conseq; [apply (q_addtail_room _ d mem q' _ x Hrep')| |done].
    { unfold lengthZ in *. rewrite length_take. lia. }
    intros [] q2 [Hq2 Hsz2]. wp_steps. rewrite ring_succ by lia. apply IH; try lia.
    rewrite lookupZ_nat in Hx by lia.
    replace (Z.to_nat (k + 1)) with (S (Z.to_nat k)) by lia. by rewrite (take_S_r _ _ x).
Qed.

Lemma grow_size_spec X fuel n target q :
  0 < n ≤ 2 ^ 28 → 0 < target ≤ 2 ^ 28 → target ≤ n * 2 ^ Z.of_nat fuel →
  wpx X (grow_size (S fuel) n target)
    (λ r q', q' = q ∧ target ≤ r ≤ 2 ^ 29 ∧ n ≤ r) (λ _ _, False) q.
Proof.
  revert n. induction fuel as [|fuel IH]; intros n Hn Ht Hf.
  - simpl. destruct (Z.ltb_spec n target); [lia|]. wp_step. split_and!; done || lia.
  - remember (S fuel) as f. simpl. subst f. destruct (Z.ltb_spec n target); [|wp_step; split_and!; done || lia].
    rewrite i32_small by lia. wp_step. apply wp_kassert; [lia|].
    destruct (decide (n * 2 ≤ 2 ^ 28)).
    + eapply wp_conseq; [apply IH| |done]; [lia..| |].
      * rewrite Nat2Z.inj_succ, Z.pow_succ_r in Hf by lia. lia.
      * intros r q' (-> & ? & ?). split_and!; done || lia.
    + simpl. destruct (Z.ltb_spec (n * 2) target); [lia|]. wp_step. split_and!; done || lia.
Qed.

Lemma fresh_queue_rep n : 0 < n ≤ 2 ^ 29 → queue_rep (mkQueue n 0 0 (alloc_cells n)) [].
Proof.
  intros Hn. constructor; cbn [size nextwrite nextread data]; try change (lengthZ (@nil A)) with 0;
    [lia|lia|by rewrite Z.mod_0_l by lia|lia|..].
  - unfold alloc_cells, u32. rewrite lengthZ_replicate, Z.mod_small, Z.div_mul by lia. lia.
  - intros i x Hi%lookupZ_Some_range. change (lengthZ (@nil A)) with 0 in Hi. lia.
Qed.

(** Growing keeps the elements and their order, and makes room. *)
Lemma q_grow_spec X d mem q l target :
  queue_rep q l → size q ≤ 2 ^ 28 → size q < target ≤ 2 ^ 28 →
  wpx X (q_grow_with (q_addtail_depth (S d) mem) mem target)
    (λ _ q', queue_rep q' l ∧ target ≤ size q') (λ e q', e = ENOMEM ∧ q' = q ∧ mem = false) q.
Proof.
  intros Hrep Hsz Ht. pose proof (qr_size _ _ Hrep). pose proof (qr_room _ _ Hrep).
  pose proof (lengthZ_nonneg l). unfold q_grow_with. wp_steps.
  eapply wp_conseq; [apply (grow_size_spec _ 32); [lia|lia|]| |done].
  { transitivity (1 * 2 ^ Z.of_nat 32); [lia|]. apply Z.mul_le_mono_nonneg_r; lia. }
  intros n q' (-> & Hn & Hn'). destruct mem; cbn [negb]; [|by wp_step]. wp_steps.
  rewrite <- (ring_start (nextread q) (size q)) at 1 by apply Hrep.
  eapply wp_conseq; [apply (readd_spec _ d true q l 0 n); try done; try lia| |done]; simpl.
  - by apply fresh_queue_rep; lia.
  - intros [] q2 [? ->]. split; [done|lia].
Qed.

Lemma q_addtail_S d mem x : q_addtail_depth (S d) mem x =
  (q <- get ;;
   kassert (0 <? size q) ;;
   if (nextwrite q + 1) mod size q =? nextread q then
     q_grow_with (q_addtail_depth d mem) mem (size q + 1) ;;
     q <- get ;;
     q_store x ((nextwrite q + 1) mod size q)
   else q_store x ((nextwrite q + 1) mod size q)).
Proof. done. Qed.

Lemma q_addtail_spec X mem q l x :
  queue_rep q l → size q < 2 ^ 28 →
  wpx X (q_addtail mem x) (λ _ q', queue_rep q' (l ++ [x]))
    (λ e q', e = ENOMEM ∧ q' = q ∧ mem = false ∧ lengthZ l + 1 = size q) q.
Proof.
  intros Hrep Hsz. unfold q_addtail. destruct (decide (lengthZ l + 1 < size q)).
  { eapply wp_conseq; [by apply q_addtail_room|naive_solver..]. }
  pose proof (qr_room _ _ Hrep). pose proof (qr_size _ _ Hrep).
  rewrite q_addtail_S. wp_steps. apply wp_kassert; [lia|].
  rewrite (queue_full_iff q l Hrep). destruct (Z.eqb_spec (lengthZ l + 1) (size q)); [|lia].
  wp_step. eapply wp_conseq; [apply (q_grow_spec _ 0 mem q l); [done|lia..]| |].
  - intros [] q' [Hq' ?]. wp_steps.
    eapply wp_conseq; [apply q_store_spec; [done|lia]|naive_solver..].
  - intros err q' (-> & -> & ->). done.
Qed.

Lemma q_preallocate_spec X mem q l sz :
  queue_rep q l → size q ≤ 2 ^ 28 → sz ≤ 2 ^ 28 →
  wpx X (q_preallocate mem sz) (λ _ q', queue_rep q' l ∧ sz ≤ size q')
    (λ e q', e = ENOMEM ∧ q' = q ∧ mem = false ∧ size q < sz) q.
Proof.
  intros Hrep Hsz Ht. unfold q_preallocate. wp_steps.
  apply wp_kassert; [pose proof (qr_size _ _ Hrep); lia|].
  destruct (Z.ltb_spec (size q) sz); [|wp_step; split; [done|lia]].
  eapply wp_conseq; [apply (q_grow_spec _ 0 mem q l); [done|lia..]|done|naive_solver].
Qed.

Lemma q_head_cell q x l : queue_rep q (x :: l) → (data q).[nextread q] = Some (Some x).
Proof.
  intros Hrep. rewrite <- (ring_start (nextread q) (size q)) by apply Hrep.
  by apply (qr_cells _ _ Hrep).
Qed.

Lemma q_remhead_spec X q x l :
  queue_rep q (x :: l) →
  wpx X q_remhead (λ y q', y = x ∧ queue_rep q' l ∧ size q' = size q) (λ _ _, False) q.
Proof.
  intros Hrep. destruct (Hrep) as [Hs Hr Hw Hroom Hd Hc]. rewrite lengthZ_cons in Hw, Hroom.
  unfold q_remhead, q_empty. wp_steps. apply wp_kassert; [lia|]. wp_steps.
  apply wp_kassert; [by rewrite (queue_empty_iff _ _ Hrep), bool_decide_eq_false_2|].
  wp_step. eapply wp_deref; [by eapply q_head_cell|]. wp_step. eapply wp_deref; [done|]. wp_steps.
  assert (∀ i, ((nextread q + 1) mod size q + i) mod size q = (nextread q + (1 + i)) mod size q) as Hshift.
  { intros i. rewrite Zplus_mod_idemp_l. f_equal. lia. }
  split_and!; [done| |done]. constructor; simpl; rewrite ?Hshift; try done; try lia.
  - apply Z.mod_pos_bound. lia.
  - intros i y Hi. rewrite Hshift. apply Hc. pose proof (lookupZ_Some_range _ _ _ Hi).
    rewrite lookupZ_nat in Hi |- * by lia. by replace (Z.to_nat (1 + i)) with (S (Z.to_nat i)) by lia.
Qed.

Lemma q_peek_spec X q l :
  queue_rep q l → wpx X q_peek (λ r q', q' = q ∧ r = head l) (λ _ _, False) q.
Proof.
  intros Hrep. unfold q_peek, q_empty. wp_steps. apply wp_kassert; [pose proof (qr_size _ _ Hrep); lia|].
  wp_steps. rewrite (queue_empty_iff _ _ Hrep). destruct l as [|x l].
  - by rewrite bool_decide_eq_true_2; [wp_step|].
  - rewrite bool_decide_eq_false_2 by done. wp_step. eapply wp_deref; [by eapply q_head_cell|].
    wp_step. eapply wp_deref; [done|]. by wp_step.
Qed.

Lemma q_len_spec X q l :
  queue_rep q l → wpx X q_len (λ r q', q' = q ∧ r = lengthZ l) (λ _ _, False) q.
Proof.
  intros Hrep. destruct (Hrep) as [Hs Hr Hw Hroom _ _]. pose proof (lengthZ_nonneg l).
  assert (∀ fuel k, 0 ≤ k ≤ lengthZ l → lengthZ l - k < Z.of_nat fuel →
    wpx X (q_len_loop fuel ((nextread q + k) mod size q) k)
      (λ r q', q' = q ∧ r = lengthZ l) (λ _ _, False) q) as Hloop.
  { induction fuel as [|fuel IH]; intros k Hk Hf; [lia|]. simpl. wp_steps. rewrite Hw at 1.
    destruct (Z.eqb_spec ((nextread q + k) mod size q) ((nextread q + lengthZ l) mod size q)) as [E|E].
    - apply ring_inj in E; [|lia..]. by wp_step.
    - rewrite ring_succ by lia. destruct (decide (k = lengthZ l)) as [->|]; [done|]. apply IH; lia. }
  unfold q_len. wp_steps. rewrite <- (ring_start (nextread q) (size q)) at 1 by done.
  apply Hloop; lia.
Qed.
End Queue.

Arguments queue : clear implicits.

(** ** Refinement: the ring buffer is a first-in first-out list *)

Inductive queue_op (A : Type) :=
  | OpAddtail (mem : bool) (x : A)
  | OpRemhead
  | OpPeek
  | OpLen
  | OpPreallocate (mem : bool) (sz : Z).
Arguments OpAddtail {A}.
Arguments OpRemhead {A}.
Arguments OpPeek {A}.
Arguments OpLen {A}.
Arguments OpPreallocate {A}.

Inductive queue_answer (A : Type) :=
  | QDone
  | QError (e : Z)
  | QElement (o : option A)
  | QLength (n : Z).
Arguments QDone {A}.
Arguments QError {A}.
Arguments QElement {A}.
Arguments QLength {A}.

Definition exec_queue {A} (o : queue_op A) : M (queue A) (queue_answer A) :=
  let answer r := match r : unit + Z with inl _ => QDone | inr e => QError e end in
  match o with
  | OpAddtail mem x => r <- attempt (q_addtail mem x) ;; ret (answer r)
  | OpRemhead => x <- q_remhead ;; ret (QElement (Some x))
  | OpPeek => o <- q_peek ;; ret (QElement o)
  | OpLen => n <- q_len ;; ret (QLength n)
  | OpPreallocate mem sz => r <- attempt (q_preallocate mem sz) ;; ret (answer r)
  end.

Inductive fifo_op {A} : queue_op A → list A → queue_answer A → list A → Prop :=
  | fifo_add mem x l : fifo_op (OpAddtail mem x) l QDone (l ++ [x])
  | fifo_nomem x l : fifo_op (OpAddtail false x) l (QError ENOMEM) l
  | fifo_rem x l : fifo_op OpRemhead (x :: l) (QElement (Some x)) l
  | fifo_peek l : fifo_op OpPeek l (QElement (head l)) l
  | fifo_len l : fifo_op OpLen l (QLength (lengthZ l)) l
  | fifo_pre mem sz l : fifo_op (OpPreallocate mem sz) l QDone l
  | fifo_pre_nomem sz l : fifo_op (OpPreallocate false sz) l (QError ENOMEM) l.

(** C29. The ring buffer is a first-in first-out queue: each call answers and
    changes the contents as the same call on a list does, through wrap-around and
    growth; removing from an empty queue is the only way to stop the kernel, and
    ENOMEM, the only error, loses nothing. *)
Theorem queue_refines_fifo {A} (q : queue A) (l : list A) (o : queue_op A) :
  queue_rep q l → size q < 2 ^ 28 →
  (∀ mem sz, o = OpPreallocate mem sz → sz ≤ 2 ^ 28) →
  match exec_queue o q with
  | Ok r q' => ∃ l', fifo_op o l r l' ∧ queue_rep q' l'
  | Err _ _ => False
  | Panic => o = OpRemhead ∧ l = []
  | Undef => False
  end.
Proof.
  intros Hrep Hsz Hpre.
  assert (∀ m Q, wp m Q (λ _ _, False) q → (∀ r q', Q r q' → ∃ l', fifo_op o l r l' ∧ queue_rep q' l') →
    match m q with Ok r q' => ∃ l', fifo_op o l r l' ∧ queue_rep q' l' | Err _ _ => False
                 | Panic => o = OpRemhead ∧ l = [] | Undef => False end) as Huse.
  { intros m Q H HQ. unfold wpx in H. destruct (m q); naive_solver. }
  destruct o as [mem x| | | |mem sz]; simpl.
  - eapply (Huse _ (λ r q', ∃ l', fifo_op (OpAddtail mem x) l r l' ∧ queue_rep q' l')); [|done].
    wp_steps. eapply wp_conseq; [by apply (q_addtail_spec _ mem q l x)| |].
    + intros [] q' ?. wp_step. eauto using fifo_add.
    + intros e q' (-> & -> & -> & _). wp_step. eauto using fifo_nomem.
  - destruct l as [|x l].
    + unfold q_remhead, q_empty, gets, bind, get, kassert. pose proof (qr_size _ _ Hrep).
      replace (0 <? size q) with true by lia. simpl.
      by rewrite (queue_empty_iff _ _ Hrep), bool_decide_eq_true_2.
    + eapply (Huse _ (λ r q', r = QElement (Some x) ∧ queue_rep q' l)).
      * wp_step. eapply wp_conseq; [by apply q_remhead_spec| |done].
        intros y q' (-> & ? & _). by wp_step.
      * intros r q' [-> ?]. eauto using fifo_rem.
  - eapply (Huse _ (λ r q', q' = q ∧ r = QElement (head l))).
    + wp_step. eapply wp_conseq; [by apply q_peek_spec| |done]. intros r q' [-> ->]. by wp_step.
    + intros r q' [-> ->]. eauto using fifo_peek.
  - eapply (Huse _ (λ r q', q' = q ∧ r = QLength (lengthZ l))).
    + wp_step. eapply wp_conseq; [by apply q_len_spec| |done]. intros r q' [-> ->]. by wp_step.
    + intros r q' [-> ->]. eauto using fifo_len.
  - eapply (Huse _ (λ r q', ∃ l', fifo_op (OpPreallocate mem sz) l r l' ∧ queue_rep q' l')); [|done].
    wp_steps. eapply wp_conseq; [apply (q_preallocate_spec _ mem q l sz); [done|lia|eauto]| |].
    + intros [] q' [? _]. wp_step. eauto using fifo_pre.
    + intros e q' (-> & -> & -> & _). wp_step. eauto using fifo_pre_nomem.
Qed.

(** A buffer of two cells that wraps and grows. *)
Lemma queue_refines_fifo_witness :
  ∃ q', exec_queue (OpAddtail true 9) (mkQueue 2 0 1 [None; Some 8]) = Ok QDone q' ∧
        queue_rep q' [8; 9].
Proof.
  assert (queue_rep (mkQueue 2 0 1 [None; Some 8]) [8]) as Hrep.
  { constructor; try reflexivity; try (simpl; lia).
    intros i x Hi. pose proof (lookupZ_Some_range _ _ _ Hi) as Hr. unfold lengthZ in Hr. simpl in Hr.
    replace i with 0 in * by lia. injection Hi as <-. reflexivity. }
  pose proof (queue_refines_fifo _ [8] (OpAddtail true 9) Hrep ltac:(simpl; lia) ltac:(done)) as H.
  eexists. split; [vm_compute; reflexivity|].
  destruct H as (l' & Hop & Hr). inversion Hop; subst. exact Hr.
Defined.
