(* ===== verification/UserCopy.v ===== *)
(** * Copying to and from user space

    Models kern/vm/copyinout.c: copycheck, copyin, copyout and the string
    versions, on a byte-addressed memory in which user addresses lie below
    USERSPACETOP.  Whether the processor can complete an access to a given user
    address is decided by the VM system; it is the parameter [accessible].  An
    access that cannot be completed resumes at copyfail, so the copy stops there
    with EFAULT. *)

From S2P Require Import Prelude.
#[local] Open Scope kern_scope.

Definition USERSPACETOP : Z := 0x80000000.

Definition memory : Type := Z → Z.
Abbreviation MM := (M memory).

Definition put (a x : Z) (m : memory) : memory := λ b, if decide (b = a) then x else m b.

(** [len] is a size_t, [userptr] an address; both are 32 bits wide. *)
Definition copycheck (userptr len : Z) : Z + Z :=
  let bot := userptr in
  let top := u32 (bot + len - 1) in
  if top <? bot then inr EFAULT
  else if USERSPACETOP <=? bot then inr EFAULT
  else if USERSPACETOP <=? top then inl (USERSPACETOP - bot)
  else inl len.

Section Copy.
Context (accessible : Z → bool).

(** An access to user memory; [fail EFAULT] stands for the longjmp. *)
Definition touch (a : Z) : MM unit := if accessible a then ret tt else fail EFAULT.

(** memcpy of [n] bytes, [user] being the side in user space. *)
Fixpoint memcpy_user (n : nat) (dest src user : Z) : MM unit :=
  match n with
  | O => ret tt
  | S n' =>
      touch user ;;
      x <- gets (λ m, m src) ;;
      modify (put dest x) ;;
      memcpy_user n' (dest + 1) (src + 1) (user + 1)
  end.

Definition copyin (usersrc dest len : Z) : MM unit :=
  match copycheck usersrc len with
  | inr e => fail e
  | inl stoplen =>
      if negb (stoplen =? len) then fail EFAULT
      else memcpy_user (Z.to_nat len) dest usersrc usersrc
  end.

Definition copyout (src userdest len : Z) : MM unit :=
  match copycheck userdest len with
  | inr e => fail e
  | inl stoplen =>
      if negb (stoplen =? len) then fail EFAULT
      else memcpy_user (Z.to_nat len) userdest src userdest
  end.

(** copystr from index [i]; [user] is the base of the user-space side.  Gives
    back [gotlen]. *)
Fixpoint copystr_loop (fuel : nat) (i dest src user maxlen stoplen : Z) : MM Z :=
  match fuel with
  | O => undef
  | S fuel' =>
      if (i <? maxlen) && (i <? stoplen) then
        touch (user + i) ;;
        x <- gets (λ m, m (src + i)) ;;
        modify (put (dest + i) x) ;;
        x <- gets (λ m, m (src + i)) ;;
        if x =? 0 then ret (i + 1)
        else copystr_loop fuel' (i + 1) dest src user maxlen stoplen
      else if stoplen <? maxlen then fail EFAULT
      else fail ENAMETOOLONG
  end.
Definition copystr (dest src user maxlen stoplen : Z) : MM Z :=
  copystr_loop (S (Z.to_nat maxlen)) 0 dest src user maxlen stoplen.

Definition copyinstr (usersrc dest len : Z) : MM Z :=
  match copycheck usersrc len with
  | inr e => fail e
  | inl stoplen => copystr dest usersrc usersrc len stoplen
  end.

Definition copyoutstr (src userdest len : Z) : MM Z :=
  match copycheck userdest len with
  | inr e => fail e
  | inl stoplen => copystr userdest src userdest len stoplen
  end.

(** ** Blocks of memory *)

Definition read_bytes (m : memory) (p : Z) (n : Z) : list Z := m <$> seqZ p n.

Fixpoint write_at (m : memory) (addrs vals : list Z) : memory :=
  match addrs, vals with
  | a :: addrs, x :: vals => write_at (put a x m) addrs vals
  | _, _ => m
  end.
End Copy.

Lemma write_at_app m as1 as2 vs1 vs2 :
  length as1 = length vs1 →
  write_at m (as1 ++ as2) (vs1 ++ vs2) = write_at (write_at m as1 vs1) as2 vs2.
Proof.
  revert m vs1. induction as1 as [|a as1 IH]; intros m [|v vs1] E; simplify_eq/=; auto.
Qed.

Lemma write_at_ne m addrs vals a : a ∉ addrs → write_at m addrs vals a = m a.
Proof.
  revert m vals. induction addrs as [|b addrs IH]; intros m [|x vals] H; simpl; try done.
  apply not_elem_of_cons in H as [Hne H]. rewrite IH by done.
  unfold put. by rewrite decide_False.
Qed.

Lemma write_at_lookup m addrs vals i a x :
  NoDup addrs → addrs !! i = Some a → vals !! i = Some x → write_at m addrs vals a = x.
Proof.
  revert m vals i. induction addrs as [|b addrs IH]; intros m [|y vals] [|i] Hnd Ha Hx;
    simplify_eq/=; pose proof (NoDup_cons_1_1 _ _ Hnd); pose proof (NoDup_cons_1_2 _ _ Hnd).
  - rewrite write_at_ne by done. unfold put. by rewrite decide_True.
  - by eapply IH.
Qed.

Lemma read_bytes_ext m m' p n :
  (∀ a, p ≤ a < p + n → m a = m' a) → read_bytes m p n = read_bytes m' p n.
Proof. intros H. apply list_fmap_ext. intros i a Ha. apply lookup_seqZ in Ha. apply H. lia. Qed.

Lemma length_read_bytes m p n : length (read_bytes m p n) = Z.to_nat n.
Proof. unfold read_bytes. by rewrite length_fmap, length_seqZ. Qed.

Lemma seqZ_S p (n : nat) : seqZ p (Z.of_nat (S n)) = p :: seqZ (p + 1) (Z.of_nat n).
Proof. rewrite seqZ_cons by lia. f_equal; f_equal; lia. Qed.

Lemma read_bytes_S m p (n : nat) :
  read_bytes m p (Z.of_nat (S n)) = m p :: read_bytes m (p + 1) (Z.of_nat n).
Proof. unfold read_bytes. by rewrite seqZ_S. Qed.

(** ** copycheck *)

(** A block of at least one byte passes unchanged exactly when it lies in user
    space; if it starts there and runs into the kernel, [stoplen] says how much of
    it does not. *)
Lemma copycheck_spec p len :
  0 ≤ p < 2 ^ 32 → 0 < len < 2 ^ 32 →
  match copycheck p len with
  | inl stoplen => p < USERSPACETOP ∧ stoplen = Z.min len (USERSPACETOP - p) ∧ p + len ≤ 2 ^ 32
  | inr e => e = EFAULT ∧ (USERSPACETOP ≤ p ∨ 2 ^ 32 < p + len)
  end.
Proof.
  intros Hp Hl. unfold copycheck, USERSPACETOP, u32.
  destruct (decide (p + len ≤ 2 ^ 32)).
  - rewrite Z.mod_small by lia. repeat case_match; simplify_eq/=; split_and!; done || lia.
  - rewrite <- (Z.mod_add (p + len - 1) (-1)), Z.mod_small by lia.
    repeat case_match; simplify_eq/=; split_and!; done || lia.
Qed.

(** A block of no bytes is always refused. *)
Lemma copycheck_empty p :
  0 ≤ p < 2 ^ 32 →
  match copycheck p 0 with inl stoplen => stoplen ≠ 0 | inr e => e = EFAULT end.
Proof.
  intros Hp. unfold copycheck, USERSPACETOP, u32. destruct (decide (p = 0)) as [->|]; [done|].
  rewrite Z.mod_small by lia. repeat case_match; simplify_eq/=; done || lia.
Qed.

Section CopySpec.
Context (accessible : Z → bool).

(** The block copy: all of it, or the part before the first address that cannot
    be accessed. *)
Lemma memcpy_user_spec X n dest src user m :
  (∀ a, dest ≤ a < dest + Z.of_nat n → src ≤ a < src + Z.of_nat n → False) →
  wpx X (memcpy_user accessible n dest src user)
    (λ _ m', m' = write_at m (seqZ dest (Z.of_nat n)) (read_bytes m src (Z.of_nat n)) ∧
       ∀ a, user ≤ a < user + Z.of_nat n → accessible a = true)
    (λ e m', e = EFAULT ∧ (∃ a, user ≤ a < user + Z.of_nat n ∧ accessible a = false) ∧
       ∀ a, ¬ (dest ≤ a < dest + Z.of_nat n) → m' a = m a) m.
Proof.
  revert dest src user m. induction n as [|n IH]; intros dest src user m Hdis.
  { simpl. wp_step. split; [done|lia]. }
  cbn [memcpy_user]. unfold touch. wp_step. destruct (accessible user) eqn:Ha.
  2: { wp_step. split_and!; [done| |done]. exists user. split; [lia|done]. }
  wp_steps. eapply wp_conseq; [apply IH| |].
  - intros a ??. apply (Hdis a); lia.
  - intros [] m' [-> Hacc]. split.
    + rewrite seqZ_S, read_bytes_S. simpl. f_equal. apply read_bytes_ext. intros a Hra.
      unfold put. rewrite decide_False; [done|]. intros ->. apply (Hdis dest); lia.
    + intros a Hra. destruct (decide (a = user)) as [->|]; [done|]. apply Hacc. lia.
  - intros e m' (-> & (a & Hra & Hacc) & Hout). split_and!; [done|exists a; split; [lia|done]|].
    intros b Hb. rewrite Hout by lia. unfold put. rewrite decide_False; [done|lia].
Qed.

(** Nothing outside the destination block changes, whatever happens. *)
Lemma memcpy_user_frame X n dest src user m :
  wpx X (memcpy_user accessible n dest src user)
    (λ _ m', ∀ a, ¬ (dest ≤ a < dest + Z.of_nat n) → m' a = m a)
    (λ _ m', ∀ a, ¬ (dest ≤ a < dest + Z.of_nat n) → m' a = m a) m.
Proof.
  revert dest src user m. induction n as [|n IH]; intros dest src user m.
  { simpl. by wp_step. }
  cbn [memcpy_user]. unfold touch. wp_step. destruct (accessible user); wp_steps; [|done].
  eapply wp_conseq; [apply IH|..]; intros r m' H a Ha; rewrite H by lia;
    unfold put; rewrite decide_False; done || lia.
Qed.

(** String copies write only inside the [maxlen] and [stoplen] bytes allowed. *)
Lemma copystr_frame X dest src user maxlen stoplen m :
  0 ≤ maxlen →
  wpx X (copystr accessible dest src user maxlen stoplen)
    (λ _ m', ∀ a, ¬ (dest ≤ a < dest + Z.min maxlen stoplen) → m' a = m a)
    (λ _ m', ∀ a, ¬ (dest ≤ a < dest + Z.min maxlen stoplen) → m' a = m a) m.
Proof.
  intros Hmax. unfold copystr.
  assert (∀ fuel i m, 0 ≤ i ≤ maxlen → maxlen - i < Z.of_nat fuel →
    wpx X (copystr_loop accessible fuel i dest src user maxlen stoplen)
      (λ _ m', ∀ a, ¬ (dest ≤ a < dest + Z.min maxlen stoplen) → m' a = m a)
      (λ _ m', ∀ a, ¬ (dest ≤ a < dest + Z.min maxlen stoplen) → m' a = m a) m) as Hloop;
    [|apply Hloop; lia].
  induction fuel as [|fuel IH]; intros i m' Hi Hf; [lia|].
  cbn [copystr_loop]. case_match eqn:Hb; [|by case_match; wp_step].
  apply andb_true_iff in Hb as [?%Z.ltb_lt ?%Z.ltb_lt].
  unfold touch. wp_step. destruct (accessible (user + i)); wp_steps; [|done].
  assert (∀ a, ¬ (dest ≤ a < dest + Z.min maxlen stoplen) →
    put (dest + i) (m' (src + i)) m' a = m' a) as Hput.
  { intros a Ha. unfold put. rewrite decide_False; done || lia. }
  case_match; [by wp_step|].
  eapply wp_conseq; [apply IH; lia|..]; intros r m2 Hm2 a Ha; by rewrite Hm2, Hput.
Qed.

(** copyout and copyoutstr never write to kernel memory: whatever address
    and length a user program passes, and however the copy ends, every byte from
    USERSPACETOP up is unchanged. *)
Theorem copyout_kernel_safe src userdest len m :
  0 ≤ userdest < 2 ^ 32 → 0 ≤ len < 2 ^ 32 →
  let kernel_kept m' := ∀ a, USERSPACETOP ≤ a → m' a = m a in
  wp (copyout accessible src userdest len) (λ _, kernel_kept) (λ _, kernel_kept) m ∧
  wp (copyoutstr accessible src userdest len) (λ _, kernel_kept) (λ _, kernel_kept) m.
Proof.
  intros Hd Hl kernel_kept. unfold copyout, copyoutstr.
  destruct (decide (len = 0)) as [->|].
  { pose proof (copycheck_empty userdest Hd) as Hc.
    destruct (copycheck userdest 0) as [st|e]; [|split; by wp_step]. split.
    - destruct (Z.eqb_spec st 0); [done|]. cbn [negb]. by wp_step.
    - unfold copystr. change (S (Z.to_nat 0)) with 1%nat. cbn [copystr_loop].
      rewrite Z.ltb_irrefl. cbn [andb]. destruct (st <? 0); by wp_step. }
  pose proof (copycheck_spec userdest len Hd ltac:(lia)) as Hc.
  destruct (copycheck userdest len) as [st|e]; [|split; by wp_step].
  destruct Hc as (Ht & -> & _). unfold USERSPACETOP in *. split.
  - destruct (Z.eqb_spec (Z.min len (0x80000000 - userdest)) len); cbn [negb]; [|by wp_step].
    eapply wp_conseq; [apply memcpy_user_frame|..]; intros r m' H a Ha; apply H;
      unfold USERSPACETOP in *; lia.
  - eapply wp_conseq; [apply copystr_frame; lia|..]; intros r m' H a Ha; apply H;
      unfold USERSPACETOP in *; lia.
Qed.

(** copyin either delivers exactly the user's bytes, all of which lay in
    accessible user space, or fails with EFAULT because some of them did not; in
    both cases it writes only to the destination. *)
Theorem copyin_correct usersrc dest len m :
  0 ≤ usersrc < 2 ^ 32 → 0 < len < 2 ^ 32 → USERSPACETOP ≤ dest →
  let valid := usersrc + len ≤ USERSPACETOP ∧
               ∀ a, usersrc ≤ a < usersrc + len → accessible a = true in
  wp (copyin accessible usersrc dest len)
    (λ _ m', valid ∧ m' = write_at m (seqZ dest len) (read_bytes m usersrc len))
    (λ e m', e = EFAULT ∧ ¬ valid ∧ ∀ a, ¬ (dest ≤ a < dest + len) → m' a = m a) m.
Proof.
  intros Hs Hl Hd valid. unfold copyin. pose proof (copycheck_spec usersrc len Hs Hl) as Hc.
  destruct (copycheck usersrc len) as [st|e].
  2: { destruct Hc as [-> Hc]. wp_step. split_and!; [done| |done]. intros [Hv _].
       unfold USERSPACETOP in *. lia. }
  destruct Hc as (Ht & -> & Hw). destruct (Z.eqb_spec (Z.min len (USERSPACETOP - usersrc)) len); simpl.
  2: { wp_step. split_and!; [done| |done]. intros [Hv _]. lia. }
  eapply wp_conseq; [apply memcpy_user_spec|..]; rewrite ?Z2Nat.id by lia.
  - intros a ??. lia.
  - intros [] m' [-> Hacc]. split; [split; [lia|done]|done].
  - intros err m' (-> & (a & Ha & Hacc) & Hout).
    split_and!; [done| |done]. intros [_ Hv]. by rewrite Hv in Hacc.
Qed.

(** A string of [n] nonzero bytes and a NUL at [p]. *)
Definition string_at (m : memory) (p n : Z) : Prop :=
  0 ≤ n ∧ m (p + n) = 0 ∧ ∀ k, 0 ≤ k < n → m (p + k) ≠ 0.

Lemma copystr_spec X dest src user maxlen stoplen m :
  0 < maxlen → 0 ≤ stoplen →
  (∀ a, dest ≤ a < dest + maxlen → src ≤ a < src + maxlen → False) →
  wpx X (copystr accessible dest src user maxlen stoplen)
    (λ got m', string_at m src (got - 1) ∧ got ≤ maxlen ∧ got ≤ stoplen ∧
       m' = write_at m (seqZ dest got) (read_bytes m src got))
    (λ e m', (e = ENAMETOOLONG ∧ maxlen ≤ stoplen ∧ (∀ k, 0 ≤ k < maxlen → m (src + k) ≠ 0)) ∨
       (e = EFAULT ∧ ((stoplen < maxlen ∧ ∀ k, 0 ≤ k < stoplen → m (src + k) ≠ 0) ∨
                      ∃ k, 0 ≤ k < maxlen ∧ accessible (user + k) = false))) m.
Proof.
  intros Hmax Hstop Hdis. unfold copystr.
  set (Q := λ got m', string_at m src (got - 1) ∧ got ≤ maxlen ∧ got ≤ stoplen ∧
       m' = write_at m (seqZ dest got) (read_bytes m src got)).
  set (E := λ e _, _). 
  assert (∀ fuel i, 0 ≤ i ≤ maxlen → i ≤ stoplen → maxlen - i < Z.of_nat fuel →
    (∀ k, 0 ≤ k < i → m (src + k) ≠ 0) →
    wpx X (copystr_loop accessible fuel i dest src user maxlen stoplen) Q E
      (write_at m (seqZ dest i) (read_bytes m src i))) as Hloop.
  { induction fuel as [|fuel IH]; intros i Hi His Hf Hnz; [lia|].
    cbn [copystr_loop]. case_match eqn:Hb.
    2: { apply andb_false_iff in Hb. destruct (Z.ltb_spec stoplen maxlen) as [Hlt|Hge]; wp_step.
         - right. split; [done|]. left. split; [done|]. intros k Hk. apply Hnz. lia.
         - left. split_and!; [done..|]. intros k Hk. apply Hnz. lia. }
    apply andb_true_iff in Hb as [?%Z.ltb_lt ?%Z.ltb_lt].
    unfold touch. wp_step. destruct (accessible (user + i)) eqn:Hacc.
    2: { wp_step. right. split; [done|]. right. exists i. split; [lia|done]. }
    set (mi := write_at m (seqZ dest i) (read_bytes m src i)).
    assert (mi (src + i) = m (src + i)) as Hmi.
    { apply write_at_ne. rewrite elem_of_seqZ. intros ?. apply (Hdis (src + i)); lia. }
    assert (put (dest + i) (mi (src + i)) mi =
      write_at m (seqZ dest (i + 1)) (read_bytes m src (i + 1))) as Hnext.
    { unfold read_bytes. rewrite !(seqZ_app _ i 1), fmap_app by lia.
      rewrite write_at_app by (by rewrite length_fmap, !length_seqZ). simpl. by rewrite Hmi. }
    wp_steps. rewrite Hnext. clearbody mi.
    assert (write_at m (seqZ dest (i + 1)) (read_bytes m src (i + 1)) (src + i) = m (src + i)) as Hsrc.
    { apply write_at_ne. rewrite elem_of_seqZ. intros ?. apply (Hdis (src + i)); lia. }
    rewrite Hsrc. destruct (Z.eqb_spec (m (src + i)) 0) as [Hz|Hz].
    - wp_step. split_and!; [|lia|lia|done]. replace (i + 1 - 1) with i by lia. split_and!; done || lia.
    - apply IH; try lia. intros k Hk. destruct (decide (k = i)) as [->|]; [done|]. apply Hnz. lia. }
  apply (Hloop (S (Z.to_nat maxlen)) 0); lia.
Qed.

End CopySpec.

(** User space holds the string ab at address 16; the first page is readable. *)
Definition demo_memory : memory := λ a, if a =? 16 then 97 else if a =? 17 then 98 else 0.
Definition demo_accessible (a : Z) : bool := a <? 4096.

Lemma copyout_kernel_safe_witness :
  wp (copyout demo_accessible USERSPACETOP 4090 16)
    (λ _ m', ∀ a, USERSPACETOP ≤ a → m' a = demo_memory a)
    (λ _ m', ∀ a, USERSPACETOP ≤ a → m' a = demo_memory a) demo_memory.
Proof.
  apply (copyout_kernel_safe demo_accessible USERSPACETOP 4090 16 demo_memory); lia.
Defined.

Lemma copyin_correct_witness :
  wp (copyin demo_accessible 16 USERSPACETOP 2)
    (λ _ m', (16 + 2 ≤ USERSPACETOP ∧ ∀ a, 16 ≤ a < 16 + 2 → demo_accessible a = true) ∧
       m' = write_at demo_memory (seqZ USERSPACETOP 2) (read_bytes demo_memory 16 2))
    (λ e m', e = EFAULT ∧ ¬ (16 + 2 ≤ USERSPACETOP ∧ ∀ a, 16 ≤ a < 16 + 2 → demo_accessible a = true) ∧
       ∀ a, ¬ (USERSPACETOP ≤ a < USERSPACETOP + 2) → m' a = demo_memory a) demo_memory.
Proof. apply (copyin_correct demo_accessible 16 USERSPACETOP 2 demo_memory); lia. Defined.

