(* ===== verification/Uio.v ===== *)
(** * I/O descriptors

    Models kern/lib/uio.c: uiomove, uiomovezeros and uio_kinit over struct uio
    and struct iovec.  The memory and the user copies are those of UserCopy.v.
    The meaning of a uio is the list of the addresses it still describes;
    uiomove transfers between that list and a kernel buffer. *)

From S2P Require Import Prelude UserCopy.
#[local] Open Scope kern_scope.

Inductive uio_rw := UIO_READ | UIO_WRITE.
Inductive uio_seg := UIO_USERISPACE | UIO_USERSPACE | UIO_SYSSPACE.

Record iovec := mkIovec { iov_base : Z; iov_len : Z }.

(** [uio_iov] is the array from the current iovec on; its length is uio_iovcnt. *)
Record uio := mkUio {
  uio_iov : list iovec;
  uio_offset : Z;
  uio_resid : Z;
  uio_segflg : uio_seg;
  uio_rw' : uio_rw;
  uio_space : option Z
}.

Record ustate := mkUState { umem : memory; uuio : uio }.
Abbreviation UM := (M ustate).

Definition set_umem v s := mkUState v (uuio s).
Definition set_uuio v s := mkUState (umem s) v.

Section Uio.
Context (accessible : Z → bool).   (* user addresses the VM system can serve *)
Context (curas : option Z).        (* curproc_getas() *)

(** memmove inside the kernel. *)
Definition memmove (dst src n : Z) : M memory unit :=
  modify (λ m, write_at m (seqZ dst n) (read_bytes m src n)).

(** One round of copying [size] bytes between [ptr] and the iovec at [base]. *)
Definition move_chunk (seg : uio_seg) (rw : uio_rw) (ptr base size : Z) : M memory unit :=
  match seg, rw with
  | UIO_SYSSPACE, UIO_READ => memmove base ptr size
  | UIO_SYSSPACE, UIO_WRITE => memmove ptr base size
  | _, UIO_READ => copyout accessible ptr base size
  | _, UIO_WRITE => copyin accessible base ptr size
  end.

(** The loop of uiomove.  Each round uses up an iovec or moves a byte. *)
Fixpoint uiomove_loop (fuel : nat) (ptr n : Z) : UM unit :=
  match fuel with
  | O => undef
  | S fuel' =>
      u <- gets uuio ;;
      if (0 <? n) && (0 <? uio_resid u) then
        match uio_iov u with
        | [] => undef
        | iov :: rest =>
            let size := if n <? iov_len iov then n else iov_len iov in
            if size =? 0 then
              modify (set_uuio (mkUio rest (uio_offset u) (uio_resid u) (uio_segflg u)
                                  (uio_rw' u) (uio_space u))) ;;
              (if lengthZ rest =? 0 then panic else ret tt) ;;
              uiomove_loop fuel' ptr n
            else
              lift umem set_umem (move_chunk (uio_segflg u) (uio_rw' u) ptr (iov_base iov) size) ;;
              modify (set_uuio (mkUio
                (mkIovec (iov_base iov + size) (iov_len iov - size) :: rest)
                (uio_offset u + size) (u32 (uio_resid u - size)) (uio_segflg u)
                (uio_rw' u) (uio_space u))) ;;
              uiomove_loop fuel' (ptr + size) (n - size)
        end
      else ret tt
  end.

Definition uiomove (ptr n : Z) : UM unit :=
  u <- gets uuio ;;
  match uio_segflg u with
  | UIO_SYSSPACE => kassert (bool_decide (uio_space u = None))
  | _ => kassert (bool_decide (uio_space u = curas))
  end ;;
  uiomove_loop (S (Z.to_nat n + length (uio_iov u))) ptr n.

(** uiomovezeros; [zeros] is the address of its static buffer of 16 zeros. *)
Fixpoint uiomovezeros_loop (fuel : nat) (zeros n : Z) : UM unit :=
  match fuel with
  | O => undef
  | S fuel' =>
      if 0 <? n then
        let amt := if n <? 16 then n else 16 in
        uiomove zeros amt ;;
        uiomovezeros_loop fuel' zeros (n - amt)
      else ret tt
  end.
Definition uiomovezeros (zeros n : Z) : UM unit :=
  u <- gets uuio ;;
  kassert (match uio_rw' u with UIO_READ => true | UIO_WRITE => false end) ;;
  uiomovezeros_loop (S (Z.to_nat n)) zeros n.

Definition uio_kinit (kbuf len pos : Z) (rw : uio_rw) : uio :=
  mkUio [mkIovec kbuf len] pos len UIO_SYSSPACE rw None.

(** ** What a uio describes *)

Definition iov_addrs (l : list iovec) : list Z :=
  l ≫= λ iov, seqZ (iov_base iov) (iov_len iov).

(** uio_resid is the total amount of data, as uio.h asks. *)
Definition uio_ok (u : uio) : Prop :=
  Forall (λ iov, 0 ≤ iov_len iov) (uio_iov u) ∧
  uio_resid u = lengthZ (iov_addrs (uio_iov u)) ∧ uio_resid u < 2 ^ 32.

(** The memory after moving the first [k] bytes. *)
Definition transfer (rw : uio_rw) (m : memory) (ptr : Z) (addrs : list Z) (k : Z) : memory :=
  match rw with
  | UIO_READ => write_at m (take (Z.to_nat k) addrs) (read_bytes m ptr k)
  | UIO_WRITE => write_at m (seqZ ptr k) (m <$> take (Z.to_nat k) addrs)
  end.

(** [u'] is [u] after [k] bytes. *)
Definition advanced (u : uio) (k : Z) (u' : uio) : Prop :=
  uio_ok u' ∧ iov_addrs (uio_iov u') = drop (Z.to_nat k) (iov_addrs (uio_iov u)) ∧
  uio_offset u' = uio_offset u + k ∧ uio_resid u' = uio_resid u - k ∧
  uio_segflg u' = uio_segflg u ∧ uio_rw' u' = uio_rw' u ∧ uio_space u' = uio_space u.

Definition apart (ptr n : Z) (addrs : list Z) : Prop :=
  ∀ a, a ∈ addrs → ¬ (ptr ≤ a < ptr + n).

Lemma copycheck_error p len e : copycheck p len = inr e → e = EFAULT.
Proof. unfold copycheck. repeat case_match; congruence. Qed.

(** One chunk is copied whole, or the access faults. *)
Lemma move_chunk_spec X seg rw ptr base size m :
  0 ≤ size → apart ptr size (seqZ base size) →
  wpx X (move_chunk seg rw ptr base size)
    (λ _ m', m' = transfer rw m ptr (seqZ base size) size)
    (λ e _, e = EFAULT ∧ seg ≠ UIO_SYSSPACE) m.
Proof.
  intros Hs Hap. unfold apart in Hap.
  assert (take (Z.to_nat size) (seqZ base size) = seqZ base size) as Htake.
  { apply take_ge. rewrite length_seqZ. lia. }
  assert (∀ dest src user, (dest = base ∧ src = ptr ∨ dest = ptr ∧ src = base) → seg ≠ UIO_SYSSPACE →
    wpx X (memcpy_user accessible (Z.to_nat size) dest src user)
      (λ _ m', m' = write_at m (seqZ dest size) (read_bytes m src size))
      (λ e _, e = EFAULT ∧ seg ≠ UIO_SYSSPACE) m) as Hcopy.
  { intros dest src user Hds Hseg. eapply wp_conseq; [apply memcpy_user_spec| |]; rewrite ?Z2Nat.id by lia.
    - intros a ??. eapply (Hap a); [apply elem_of_seqZ|]; lia.
    - by intros [] m' [-> _].
    - by intros e m' [-> _]. }
  unfold transfer, move_chunk, memmove. destruct seg, rw; try (wp_step; by rewrite ?Htake);
    rewrite ?Htake; unfold copyin, copyout; destruct (copycheck _ _) eqn:Hc;
    try (apply copycheck_error in Hc as ->; wp_step; done);
    (destruct (negb _); [wp_step; done|apply Hcopy; auto]).
Qed.

Lemma transfer_app rw m ptr as1 as2 k :
  apart ptr (lengthZ as1 + k) (as1 ++ as2) → 0 ≤ k ≤ lengthZ as2 →
  transfer rw (transfer rw m ptr as1 (lengthZ as1)) (ptr + lengthZ as1) as2 k =
  transfer rw m ptr (as1 ++ as2) (lengthZ as1 + k).
Proof.
  intros Hap Hk. pose proof (lengthZ_nonneg as1). unfold transfer, lengthZ in *.
  rewrite !Nat2Z.id, firstn_all.
  replace (Z.to_nat (Z.of_nat (length as1) + k)) with (length as1 + Z.to_nat k)%nat by lia.
  rewrite take_app_add. unfold read_bytes. rewrite !seqZ_app, !fmap_app by lia. destruct rw.
  - rewrite write_at_app by (rewrite length_fmap, length_seqZ; lia). f_equal.
    apply list_fmap_ext. intros i a Ha%lookup_seqZ. apply write_at_ne. intros Hin.
    apply (Hap a); [set_solver|lia].
  - rewrite write_at_app by (rewrite length_fmap, length_seqZ; lia). f_equal.
    apply list_fmap_ext. intros i a Ha. apply write_at_ne. rewrite elem_of_seqZ. intros Hin.
    apply list_elem_of_lookup_2 in Ha. apply (Hap a); [|lia].
    apply elem_of_app. right. apply elem_of_take in Ha as (?&?&?). by eapply list_elem_of_lookup_2.
Qed.

#[global] Arguments iov_addrs : simpl never.

Lemma iov_addrs_cons iov l :
  iov_addrs (iov :: l) = seqZ (iov_base iov) (iov_len iov) ++ iov_addrs l.
Proof. done. Qed.

(** The descriptor after [size] bytes of its first iovec. *)
Lemma advanced_chunk u iov rest size :
  uio_ok u → uio_iov u = iov :: rest → 0 ≤ size ≤ iov_len iov →
  advanced u size (mkUio (mkIovec (iov_base iov + size) (iov_len iov - size) :: rest)
    (uio_offset u + size) (u32 (uio_resid u - size)) (uio_segflg u) (uio_rw' u) (uio_space u)).
Proof.
  intros (Hpos & Hres & Hmax) Hiov Hsz. unfold advanced, uio_ok. simpl.
  rewrite Hiov in *. rewrite !iov_addrs_cons. rewrite iov_addrs_cons in Hres. simpl.
  apply Forall_cons_1 in Hpos as [Hp Hpos].
  assert (seqZ (iov_base iov) (iov_len iov) =
    seqZ (iov_base iov) size ++ seqZ (iov_base iov + size) (iov_len iov - size)) as Hseq.
  { replace (iov_len iov) with (size + (iov_len iov - size)) at 1 by lia. apply seqZ_app; lia. }
  rewrite Hseq, lengthZ_app, lengthZ_app in Hres.
  assert (lengthZ (seqZ (iov_base iov) size) = size) as Hl by (unfold lengthZ; rewrite length_seqZ; lia).
  pose proof (lengthZ_nonneg (iov_addrs rest)).
  pose proof (lengthZ_nonneg (seqZ (iov_base iov + size) (iov_len iov - size))).
  unfold u32. rewrite Z.mod_small by lia. rewrite Hseq.
  rewrite <- app_assoc, drop_app_length' by (rewrite length_seqZ; lia).
  split_and!; try done; try lia.
  - constructor; [simpl; lia|done].
  - rewrite lengthZ_app. lia.
Qed.

(** The outcome of uiomove in terms of what the uio described before. *)
Definition moved (ptr n : Z) (s s' : ustate) : Prop :=
  let k := Z.min n (uio_resid (uuio s)) in
  umem s' = transfer (uio_rw' (uuio s)) (umem s) ptr (iov_addrs (uio_iov (uuio s))) k ∧
  advanced (uuio s) k (uuio s').
Definition stopped (n : Z) (s : ustate) (e : Z) (s' : ustate) : Prop :=
  e = EFAULT ∧ uio_segflg (uuio s) ≠ UIO_SYSSPACE ∧
  ∃ k, 0 ≤ k < Z.min n (uio_resid (uuio s)) ∧ advanced (uuio s) k (uuio s').

Lemma advanced_trans u k u1 k1 u2 :
  0 ≤ k → 0 ≤ k1 → advanced u k u1 → advanced u1 k1 u2 → advanced u (k + k1) u2.
Proof.
  intros Hk Hk1 (_ & Ha & Ho & Hr & ? & ? & ?) (? & Ha2 & Ho2 & Hr2 & ? & ? & ?).
  split_and!; try congruence; try lia.
  rewrite Ha2, Ha, drop_drop. f_equal. lia.
Qed.

Lemma advanced_refl u u' :
  uio_ok u' → iov_addrs (uio_iov u') = iov_addrs (uio_iov u) → uio_offset u' = uio_offset u →
  uio_resid u' = uio_resid u → uio_segflg u' = uio_segflg u → uio_rw' u' = uio_rw' u →
  uio_space u' = uio_space u → advanced u 0 u'.
Proof. intros. split_and!; try done; lia. Qed.

(** Moving [size] bytes first and the rest after is moving all of them. *)
Lemma moved_step ptr n size s m1 u1 s2 :
  uio_ok (uuio s) → 0 < size ≤ Z.min n (uio_resid (uuio s)) →
  apart ptr n (iov_addrs (uio_iov (uuio s))) →
  m1 = transfer (uio_rw' (uuio s)) (umem s) ptr (take (Z.to_nat size) (iov_addrs (uio_iov (uuio s)))) size →
  advanced (uuio s) size u1 →
  moved (ptr + size) (n - size) (mkUState m1 u1) s2 → moved ptr n s s2.
Proof.
  intros Hok Hsz Hap -> Hadv [Hm Hadv2]. destruct (Hok) as (_ & Hres & _).
  destruct (Hadv) as (Hok1 & Ha1 & _ & Hr1 & _ & Hrw & _). simpl in *.
  set (addrs := iov_addrs (uio_iov (uuio s))) in *.
  rewrite Hrw, Ha1, Hr1 in Hm. rewrite Hr1 in Hadv2.
  set (k := Z.min (n - size) (uio_resid (uuio s) - size)) in *.
  assert (Z.min n (uio_resid (uuio s)) = size + k) as Hk by lia.
  assert (lengthZ (take (Z.to_nat size) addrs) = size) as Hl1.
  { unfold lengthZ in *. rewrite length_take. lia. }
  split; rewrite Hk; [|by eapply advanced_trans; [lia|lia|..]].
  rewrite Hm. rewrite <- Hl1 at 2 3.
  rewrite transfer_app; rewrite ?take_drop, ?Hl1; [done| |].
  - intros a Ha Hra. apply (Hap a Ha). lia.
  - unfold lengthZ in *. rewrite length_drop. lia.
Qed.

Lemma uio_ok_resid u : uio_ok u → 0 ≤ uio_resid u.
Proof. intros (_ & -> & _). apply lengthZ_nonneg. Qed.

(** Dropping an exhausted iovec changes nothing. *)
Lemma skip_empty ptr n s s1 :
  umem s1 = umem s → advanced (uuio s) 0 (uuio s1) →
  (∀ s', moved ptr n s1 s' → moved ptr n s s') ∧ (∀ e s', stopped n s1 e s' → stopped n s e s').
Proof.
  intros Hm Hadv. destruct (Hadv) as (_ & Ha & _ & Hr & Hseg & Hrw & _).
  rewrite Z.sub_0_r in Hr. rewrite drop_0 in Ha. split.
  - intros s' [Hm' Hadv']. rewrite Hm, Hrw, Ha, Hr in Hm'. rewrite Hr in Hadv'. split; [done|].
    pose proof (uio_ok_resid _ (proj1 Hadv)).
    destruct (decide (0 ≤ n)) as [Hn|Hn].
    + rewrite <- (Z.add_0_l (Z.min _ _)). eapply advanced_trans; [lia|lia|done|done].
    + destruct Hadv as (? & ? & ? & ? & ? & ? & ?), Hadv' as (? & Ha' & ? & ? & ? & ? & ?).
      split_and!; try congruence; try lia.
  - intros e s' (-> & Hs & k & Hk & Hadv'). rewrite Hr in Hk. rewrite Hseg in Hs.
    split_and!; [done..|]. exists k. split; [done|].
    rewrite <- (Z.add_0_l k). eapply advanced_trans; [lia|lia|done|done].
Qed.

Lemma uiomove_loop_spec X fuel ptr n s :
  uio_ok (uuio s) → 0 ≤ n → n + lengthZ (uio_iov (uuio s)) < Z.of_nat fuel →
  apart ptr n (iov_addrs (uio_iov (uuio s))) →
  wpx X (uiomove_loop fuel ptr n) (λ _, moved ptr n s) (stopped n s) s.
Proof.
  revert ptr n s. induction fuel as [|fuel IH]; intros ptr n s Hok Hn Hf Hap.
  { pose proof (lengthZ_nonneg (uio_iov (uuio s))). lia. }
  destruct (Hok) as (Hpos & Hres & Hmax). cbn [uiomove_loop]. wp_steps.
  destruct (Z.ltb_spec 0 n), (Z.ltb_spec 0 (uio_resid (uuio s))); cbn [andb].
  2-4: pose proof (lengthZ_nonneg (iov_addrs (uio_iov (uuio s)))); wp_step; unfold moved;
       replace (Z.min n (uio_resid (uuio s))) with 0 by lia;
       (split; [by destruct (uio_rw' (uuio s))|by apply advanced_refl]).
  destruct (uio_iov (uuio s)) as [|iov rest] eqn:Hiov.
  { unfold lengthZ in Hres. simpl in Hres. lia. }
  apply Forall_cons_1 in Hpos as [Hp Hpos]. rewrite iov_addrs_cons, lengthZ_app in Hres.
  pose proof (lengthZ_nonneg (iov_addrs rest)) as Hrest. rewrite lengthZ_cons in Hf.
  assert (lengthZ (seqZ (iov_base iov) (iov_len iov)) = iov_len iov) as Hl.
  { unfold lengthZ. rewrite length_seqZ. lia. }
  set (size := if n <? iov_len iov then n else iov_len iov).
  assert (0 ≤ size ≤ iov_len iov ∧ size ≤ n) as [Hsz Hszn] by (unfold size; case_match; lia).
  destruct (Z.eqb_spec size 0) as [E|E].
  - assert (iov_len iov = 0) as Hl0 by (unfold size in E; case_match; lia).
    assert (iov_addrs (iov :: rest) = iov_addrs rest) as Haddrs by (rewrite iov_addrs_cons, Hl0; done).
    wp_steps. destruct (Z.eqb_spec (lengthZ rest) 0) as [E0|E0].
    { destruct rest; [unfold lengthZ in Hrest; simpl in *; change (lengthZ (iov_addrs [])) with 0 in *; lia|].
      rewrite lengthZ_cons in E0. pose proof (lengthZ_nonneg rest). lia. }
    wp_steps. set (s1 := set_uuio _ s).
    assert (uio_ok (uuio s1)) as Hok1 by (split_and!; simpl; [done|lia|lia]).
    destruct (skip_empty ptr n s s1) as [Hsk1 Hsk2]; [done|apply advanced_refl; by rewrite ?Hiov, ?Haddrs|].
    eapply wp_conseq; [apply IH; [done|done|simpl; lia|]|eauto..].
    simpl. by rewrite <- Haddrs.
  - wp_steps. eapply wp_conseq; [apply move_chunk_spec; [lia|]| |].
    + intros a Ha Hra. apply (Hap a); [|lia]. rewrite iov_addrs_cons. apply elem_of_app. left.
      apply elem_of_seqZ in Ha. apply elem_of_seqZ. lia.
    + intros [] m1 ->. wp_steps.
      pose proof (advanced_chunk (uuio s) iov rest size Hok Hiov Hsz) as Hadv.
      destruct (Hadv) as (Hok1 & Ha1 & _ & Hr1 & _).
      eapply wp_conseq; [apply IH|..]; cbn [uuio set_uuio set_umem]; [done|lia| | |..].
      * simpl. rewrite lengthZ_cons. lia.
      * rewrite Ha1. intros a Ha Hra. rewrite Hiov in Ha. apply (Hap a); [|lia].
        rewrite <- (take_drop (Z.to_nat size) (iov_addrs (iov :: rest))). set_solver.
      * intros [] s2 Hs2. eapply (moved_step ptr n size); [done|lia| | |exact Hadv|exact Hs2].
        -- by rewrite Hiov.
        -- f_equal. rewrite Hiov, iov_addrs_cons, take_app_le by (rewrite length_seqZ; lia).
           replace (iov_len iov) with (size + (iov_len iov - size)) by lia.
           rewrite seqZ_app, take_app_length' by (rewrite ?length_seqZ; lia). done.
      * intros e s2 (-> & Hseg & k & Hk & Hadv2). split_and!; [done|done|].
        exists (size + k). simpl in *. split; [lia|]. eapply advanced_trans; [lia|lia|exact Hadv|done].
    + intros e m1 [-> Hseg]. split_and!; [done..|]. exists 0. split; [lia|]. by apply advanced_refl.
Qed.

(** The assertion uiomove opens with. *)
Definition space_ok (u : uio) : Prop :=
  match uio_segflg u with UIO_SYSSPACE => uio_space u = None | _ => uio_space u = curas end.

Lemma uiomove_spec X ptr n s :
  uio_ok (uuio s) → space_ok (uuio s) → 0 ≤ n → apart ptr n (iov_addrs (uio_iov (uuio s))) →
  wpx X (uiomove ptr n) (λ _, moved ptr n s) (stopped n s) s.
Proof.
  intros Hok Hsp Hn Hap. unfold uiomove, space_ok in *. wp_steps.
  apply (wp_conseq _ (λ _ s', s' = s) _ (λ _ _, False)); [|intros [] s' ->|done].
  - destruct (uio_segflg (uuio s)); apply wp_kassert; try done; by apply bool_decide_eq_true.
  - apply uiomove_loop_spec; try done. unfold lengthZ. lia.
Qed.

(** Sixteen zero bytes at [z]. *)
Definition zero_block (m : memory) (z : Z) : Prop := ∀ a, z ≤ a < z + 16 → m a = 0.

Lemma read_zeros m z k : zero_block m z → 0 ≤ k ≤ 16 → read_bytes m z k = replicate (Z.to_nat k) 0.
Proof.
  intros Hz Hk. apply list_eq. intros i. unfold read_bytes. rewrite list_lookup_fmap.
  destruct (decide (i < Z.to_nat k)%nat).
  - rewrite lookup_replicate_2 by done. rewrite lookup_seqZ_lt by lia. simpl. by rewrite Hz by lia.
  - rewrite (proj2 (lookup_ge_None (seqZ z k) i)) by (rewrite length_seqZ; lia).
    symmetry. apply lookup_ge_None. rewrite length_replicate. lia.
Qed.

Definition zeroed (n : Z) (s s' : ustate) : Prop :=
  let k := Z.min n (uio_resid (uuio s)) in
  umem s' = write_at (umem s) (take (Z.to_nat k) (iov_addrs (uio_iov (uuio s)))) (replicate (Z.to_nat k) 0) ∧
  advanced (uuio s) k (uuio s').

Lemma zeroed_step z n amt s s1 s2 :
  uio_ok (uuio s) → uio_rw' (uuio s) = UIO_READ → zero_block (umem s) z → 0 ≤ amt ≤ 16 → amt ≤ n →
  moved z amt s s1 → zeroed (n - amt) s1 s2 → zeroed n s s2.
Proof.
  intros Hok Hrw Hz Ham Hn [Hm Hadv] [Hm2 Hadv2]. pose proof (uio_ok_resid _ Hok) as Hr0.
  rewrite Hrw in Hm. destruct (Hadv) as (Hok1 & Ha & _ & Hr & _).
  set (k := Z.min amt (uio_resid (uuio s))) in *. set (addrs := iov_addrs (uio_iov (uuio s))) in *.
  rewrite Hr in Hm2, Hadv2. set (k2 := Z.min (n - amt) (uio_resid (uuio s) - k)) in *.
  assert (Z.min n (uio_resid (uuio s)) = k + k2) as Hk by lia.
  unfold transfer in Hm. rewrite (read_zeros _ _ k Hz) in Hm by lia.
  split; rewrite Hk; [|by eapply advanced_trans; [lia|lia|..]].
  rewrite Hm2, Ha, Hm. fold addrs. rewrite Z2Nat.inj_add, replicate_add by lia.
  rewrite <- (take_take_drop addrs (Z.to_nat k) (Z.to_nat k2)).
  rewrite write_at_app; [done|]. destruct Hok as (_ & Hres & _). fold addrs in Hres.
  unfold lengthZ in Hres. rewrite length_take, length_replicate. lia.
Qed.

Lemma uiomovezeros_loop_spec X fuel z n s :
  uio_ok (uuio s) → space_ok (uuio s) → uio_segflg (uuio s) = UIO_SYSSPACE →
  uio_rw' (uuio s) = UIO_READ → zero_block (umem s) z → 0 ≤ n < Z.of_nat fuel →
  apart z 16 (iov_addrs (uio_iov (uuio s))) →
  wpx X (uiomovezeros_loop fuel z n) (λ _, zeroed n s) (λ _ _, False) s.
Proof.
  revert n s. induction fuel as [|fuel IH]; intros n s Hok Hsp Hseg Hrw Hz Hn Hap; [lia|].
  pose proof (uio_ok_resid _ Hok). cbn [uiomovezeros_loop]. destruct (Z.ltb_spec 0 n).
  2: { wp_step. unfold zeroed. replace (Z.min n _) with 0 by lia. split; [done|by apply advanced_refl]. }
  set (amt := if n <? 16 then n else 16).
  assert (0 < amt ≤ 16 ∧ amt ≤ n) as [Ham Hamn] by (unfold amt; case_match; lia).
  wp_step. eapply wp_conseq; [apply (uiomove_spec _ z amt s); try done; try lia| |].
  { intros a Ha Hra. apply (Hap a Ha). lia. }
  2: { intros e s' (_ & Hs & _). done. }
  intros [] s1 Hmv. destruct (Hmv) as [Hm (Hok1 & Ha & _ & _ & Hsg1 & Hrw1 & Hsp1)].
  assert (∀ a, a ∈ iov_addrs (uio_iov (uuio s1)) → a ∈ iov_addrs (uio_iov (uuio s))) as Hsub.
  { intros a. rewrite Ha. intros Hin%list_elem_of_lookup_1. destruct Hin as [i Hi].
    rewrite lookup_drop in Hi. by eapply list_elem_of_lookup_2. }
  eapply wp_conseq; [apply IH|..]; try congruence; try lia.
  - unfold space_ok in *. by rewrite Hsg1, Hsp1.
  - intros a Hra. rewrite Hm, Hrw. simpl. rewrite write_at_ne; [by apply Hz|].
    intros Hin%elem_of_take. destruct Hin as (i & Hi & _). apply list_elem_of_lookup_2 in Hi. by apply (Hap a Hi).
  - intros a Ha1. apply Hap. by apply Hsub.
  - intros [] s2 Hs2. by eapply (zeroed_step z n amt); [..|lia|lia| |].
Qed.


(** uiomovezeros stores zeros to the first min(n, uio_resid) addresses of a
    kernel uio, in chunks of sixteen, and advances the uio by as much. *)
Theorem uiomovezeros_correct zeros n s :
  uio_ok (uuio s) → space_ok (uuio s) → uio_segflg (uuio s) = UIO_SYSSPACE →
  uio_rw' (uuio s) = UIO_READ → zero_block (umem s) zeros → 0 ≤ n →
  apart zeros 16 (iov_addrs (uio_iov (uuio s))) →
  wp (uiomovezeros zeros n) (λ _, zeroed n s) (λ _ _, False) s.
Proof.
  intros Hok Hsp Hseg Hrw Hz Hn Hap. unfold uiomovezeros. wp_steps. rewrite Hrw.
  apply wp_kassert; [done|]. apply uiomovezeros_loop_spec; try done. lia.
Qed.
End Uio.

(** Two kernel iovecs with an empty one between them. *)
Definition demo_uio : uio :=
  mkUio [mkIovec 100 2; mkIovec 200 0; mkIovec 300 3] 7 5 UIO_SYSSPACE UIO_READ None.
Definition demo_ustate : ustate := mkUState (λ a, if a <? 100 then a else 0) demo_uio.

Lemma demo_uio_ok : uio_ok demo_uio.
Proof. split_and!; [repeat constructor; simpl; lia|reflexivity|simpl; lia]. Qed.

Lemma demo_uio_apart ptr n :
  ptr + n ≤ 100 ∨ 303 ≤ ptr → apart ptr n (iov_addrs (uio_iov demo_uio)).
Proof.
  intros H a Ha. assert (iov_addrs (uio_iov demo_uio) = [100; 101; 300; 301; 302]) as E by reflexivity.
  rewrite E, list_elem_of_In in Ha. simpl in Ha. lia.
Qed.


Lemma uiomovezeros_correct_witness :
  wp (uiomovezeros demo_accessible None 400 4) (λ _, zeroed 4 demo_ustate) (λ _ _, False) demo_ustate.
Proof.
  apply (uiomovezeros_correct demo_accessible None 400 4 demo_ustate demo_uio_ok eq_refl eq_refl eq_refl).
  - intros a Ha. simpl. destruct (Z.ltb_spec a 100); lia.
  - lia.
  - apply demo_uio_apart. lia.
Defined.
