(* ===== verification/Coremap.v ===== *)
(** * Physical memory: RAM at boot and the coremap

    Models kern/arch/mips/vm/ram.c and the frame allocator of
    kern/arch/mips/vm/dumbvm.c: vm_bootstrap, coremap_alloc, coremap_dealloc,
    getppages, alloc_kpages, free_kpages and pagetable_alloc.  The abstract view
    of the coremap is a finite map from the first page of each allocation to its
    length in pages. *)

From S2P Require Import Prelude.
#[local] Open Scope kern_scope.

(** ** Constants and state *)

Definition PAGE_SIZE : Z := 4096.
Definition PAGE_FRAME : Z := 0xfffff000.
Definition MIPS_KSEG0 : Z := 0x80000000.
Definition PADDR_TO_KVADDR (pa : Z) : Z := u32 (pa + MIPS_KSEG0).
Definition KVADDR_TO_PADDR (va : Z) : Z := u32 (va - MIPS_KSEG0).

(** struct coremap_entry of kern/include/coremap.h; it takes eight bytes. *)
Record coremap_entry := mkCE { used : Z; count : Z }.
Definition sizeof_coremap_entry : Z := 8.

(** The static variables of ram.c and dumbvm.c. *)
Record cmstate := mkCM {
  firstpaddr : Z;
  lastpaddr : Z;
  vm_bootstrap_flag : bool;
  num_of_coremap_pages : Z;
  num_of_pages : Z;
  firstaddr : Z;
  lastaddr : Z;
  coremap : list coremap_entry
}.
Abbreviation CM := (M cmstate).

Definition set_ram lo hi s := mkCM lo hi (vm_bootstrap_flag s) (num_of_coremap_pages s)
  (num_of_pages s) (firstaddr s) (lastaddr s) (coremap s).
Definition set_coremap f s := mkCM (firstpaddr s) (lastpaddr s) (vm_bootstrap_flag s)
  (num_of_coremap_pages s) (num_of_pages s) (firstaddr s) (lastaddr s) (f (coremap s)).

(** ** kern/arch/mips/vm/ram.c *)

(** ram_bootstrap, from the size the bus reports and the end of the kernel. *)
Definition ram_bootstrap (mainbus_ramsize firstfree : Z) : CM unit :=
  let ramsize := if 508 * 1024 * 1024 <? mainbus_ramsize then 508 * 1024 * 1024
                 else mainbus_ramsize in
  modify (set_ram (u32 (firstfree - MIPS_KSEG0)) ramsize).

Definition ram_stealmem (npages : Z) : CM Z :=
  s <- get ;;
  let size := u32 (npages * PAGE_SIZE) in
  if lastpaddr s <? u32 (firstpaddr s + size) then ret 0
  else modify (set_ram (u32 (firstpaddr s + size)) (lastpaddr s)) ;; ret (firstpaddr s).

Definition ram_getsize : CM (Z * Z) :=
  s <- get ;;
  modify (set_ram 0 0) ;;
  ret (firstpaddr s, lastpaddr s).

(** ** kern/arch/mips/vm/dumbvm.c *)

Definition read_entry (i : Z) : CM coremap_entry := s <- get ;; deref (coremap s).[i].
Definition write_entry (i : Z) (e : coremap_entry) : CM unit :=
  s <- get ;;
  if (0 <=? i) && (i <? lengthZ (coremap s)) then modify (set_coremap (λ l, l.[i := e]))
  else undef.

(** vm_bootstrap; [junk] is what the memory of the coremap held before. *)
Definition vm_bootstrap (junk : coremap_entry) : CM unit :=
  r <- ram_getsize ;;
  let first := (r : Z * Z).1 in
  let last := r.2 in
  let npages := u32 (last - first) / PAGE_SIZE in
  let coremap_size := u32 (npages * sizeof_coremap_entry) in
  let ncoremap := ROUNDUP coremap_size PAGE_SIZE / PAGE_SIZE in
  modify (λ s, mkCM (firstpaddr s) (lastpaddr s) (vm_bootstrap_flag s) ncoremap npages
                 first last (replicate (Z.to_nat npages) junk)) ;;
  for_ 0 npages (λ i,
    if i <? ncoremap then write_entry i (mkCE 1 1) else write_entry i (mkCE 0 0)) ;;
  modify (λ s, mkCM (firstpaddr s) (lastpaddr s) true (num_of_coremap_pages s)
                 (num_of_pages s) (firstaddr s) (lastaddr s) (coremap s)).

Definition coremap_dealloc (pa : Z) : CM unit :=
  s <- get ;;
  let start := u32 (pa - firstaddr s) / PAGE_SIZE in
  e <- read_entry start ;;
  let end_ := u32 (start + count e) in
  for_ start end_ (λ i, write_entry i (mkCE 0 0)).

(** The search of coremap_alloc; [fuel] entries are left to look at. *)
Fixpoint coremap_alloc_loop (fuel : nat) (i length npages : Z) : CM Z :=
  match fuel with
  | O => ret 0
  | S fuel' =>
      e <- read_entry i ;;
      if used e =? 0 then
        let length := length + 1 in
        if length =? npages then
          let start := i - length + 1 in
          write_entry start (mkCE 1 npages) ;;
          for_ (start + 1) (i + 1) (λ j, write_entry j (mkCE 1 1)) ;;
          s <- get ;;
          ret (u32 (firstaddr s + start * PAGE_SIZE))
        else coremap_alloc_loop fuel' (i + 1) length npages
      else coremap_alloc_loop fuel' (i + 1) 0 npages
  end.
Definition coremap_alloc (npages : Z) : CM Z :=
  s <- get ;;
  coremap_alloc_loop (Z.to_nat (num_of_pages s - num_of_coremap_pages s))
    (num_of_coremap_pages s) 0 npages.

Definition getppages (npages : Z) : CM Z :=
  s <- get ;;
  if vm_bootstrap_flag s then coremap_alloc npages else ram_stealmem npages.

(** alloc_kpages takes an int and hands it on as an unsigned long. *)
Definition alloc_kpages (npages : Z) : CM Z :=
  pa <- getppages (u32 npages) ;;
  if pa =? 0 then ret 0 else ret (PADDR_TO_KVADDR pa).

Definition free_kpages (addr : Z) : CM unit := coremap_dealloc (KVADDR_TO_PADDR addr).

(** pagetable_alloc; a page table entry takes four bytes. *)
Definition sizeof_pagetable_entry : Z := 4.
Definition pagetable_pages (npages : Z) : Z :=
  ROUNDUP (u32 (npages * sizeof_pagetable_entry)) PAGE_SIZE / PAGE_SIZE.
Definition pagetable_alloc (npages : Z) : CM Z := alloc_kpages (pagetable_pages npages).

(** ** Abstract view *)

(** Page [i] belongs to the allocation of [n] pages at [r]. *)
Definition in_run (r n i : Z) : Prop := r ≤ i < r + n.

(** The coremap holds exactly the allocations [runs]; pages are numbered from
    [firstaddr], and the first of them hold the coremap itself. *)
Record cm_rep (s : cmstate) (runs : gmap Z Z) : Prop := {
  cr_flag : vm_bootstrap_flag s = true;
  cr_len : lengthZ (coremap s) = num_of_pages s;
  cr_pages : 0 ≤ num_of_coremap_pages s ≤ num_of_pages s;
  cr_first : 0 < firstaddr s ∧ firstaddr s mod PAGE_SIZE = 0;
  cr_top : firstaddr s + num_of_pages s * PAGE_SIZE ≤ 2 ^ 29;
  cr_range : ∀ r n, runs !! r = Some n →
    num_of_coremap_pages s ≤ r ∧ 0 < n ∧ r + n ≤ num_of_pages s;
  cr_disjoint : ∀ r n r' n', runs !! r = Some n → runs !! r' = Some n' → r ≠ r' →
    r + n ≤ r' ∨ r' + n' ≤ r;
  cr_head : ∀ r n, runs !! r = Some n → (coremap s).[r] = Some (mkCE 1 n);
  cr_tail : ∀ r n i, runs !! r = Some n → r < i < r + n → (coremap s).[i] = Some (mkCE 1 1);
  cr_free : ∀ i, num_of_coremap_pages s ≤ i < num_of_pages s →
    (∀ r n, runs !! r = Some n → ¬ in_run r n i) → (coremap s).[i] = Some (mkCE 0 0);
  cr_self : ∀ i, 0 ≤ i < num_of_coremap_pages s → (coremap s).[i] = Some (mkCE 1 1)
}.

(** [n] free pages in a row from [r] on, clear of the coremap. *)
Definition window (s : cmstate) (r n : Z) : Prop :=
  num_of_coremap_pages s ≤ r ∧ r + n ≤ num_of_pages s ∧
  ∀ i, in_run r n i → ∃ e, (coremap s).[i] = Some e ∧ used e = 0.

(** The physical address of page [r]. *)
Definition page_addr (s : cmstate) (r : Z) : Z := firstaddr s + r * PAGE_SIZE.

(** ** Specifications *)

Lemma set_coremap_id s : set_coremap (λ _, coremap s) s = s.
Proof. by destruct s. Qed.

Lemma write_entry_spec X i e s (Q : unit → cmstate → Prop) E :
  0 ≤ i < lengthZ (coremap s) → Q tt (set_coremap (λ _, (coremap s).[i := e]) s) →
  wpx X (write_entry i e) Q E s.
Proof.
  intros Hi HQ. unfold write_entry. wp_steps. destruct (Z.leb_spec 0 i); [|lia].
  destruct (Z.ltb_spec i (lengthZ (coremap s))); [|lia]. simpl. by wp_steps.
Qed.

(** The entries from [a] up to [b] all become [e]. *)
Definition filled (a b : Z) (e : coremap_entry) (l l' : list coremap_entry) : Prop :=
  lengthZ l' = lengthZ l ∧ ∀ i, l'.[i] = if decide (a ≤ i < b) then Some e else l.[i].

Lemma fill_spec X a b e s :
  0 ≤ a → b ≤ lengthZ (coremap s) →
  wpx X (for_ a b (λ i, write_entry i e))
    (λ _ s', ∃ l', s' = set_coremap (λ _, l') s ∧ filled a b e (coremap s) l') (λ _ _, False) s.
Proof.
  intros Ha Hb. destruct (decide (a ≤ b)) as [Hle|Hgt].
  2: { unfold for_. rewrite Z2Nat.nonpos by lia. simpl. wp_step. exists (coremap s).
       split; [by rewrite set_coremap_id|]. split; [done|]. intros i. by rewrite decide_False by lia. }
  apply (wp_for (λ k s', ∃ l', s' = set_coremap (λ _, l') s ∧ filled a k e (coremap s) l'));
    [done| | |done].
  - exists (coremap s). split; [by rewrite set_coremap_id|]. split; [done|].
    intros i. by rewrite decide_False by lia.
  - intros k s' Hk (l' & -> & Hlen & Hl'). apply write_entry_spec; simpl; [lia|].
    exists (l'.[k := e]). split; [done|]. split; [by rewrite lengthZ_update|].
    intros i. rewrite lookupZ_update by lia. case_decide; subst.
    + by rewrite decide_True by lia.
    + rewrite Hl'. repeat case_decide; done || lia.
Qed.

Lemma page_index s runs r :
  cm_rep s runs → 0 ≤ r < num_of_pages s → u32 (page_addr s r - firstaddr s) / PAGE_SIZE = r.
Proof.
  intros Hrep Hr. destruct Hrep. unfold page_addr, u32, PAGE_SIZE in *.
  replace (firstaddr s + r * 4096 - firstaddr s) with (r * 4096) by lia.
  rewrite Z.mod_small by lia. apply Z.div_mul. lia.
Qed.

(** Only the coremap array differs. *)
Definition same_layout (s s' : cmstate) : Prop :=
  ∃ l, s' = set_coremap (λ _, l) s.

Lemma coremap_dealloc_spec X s runs r n :
  cm_rep s runs → runs !! r = Some n →
  wpx X (coremap_dealloc (page_addr s r))
    (λ _ s', cm_rep s' (delete r runs) ∧ same_layout s s') (λ _ _, False) s.
Proof.
  intros Hrep Hr. destruct (cr_range _ _ Hrep _ _ Hr) as (Hlo & Hn & Hhi).
  pose proof (cr_pages _ _ Hrep). pose proof (cr_top _ _ Hrep). pose proof (cr_first _ _ Hrep).
  pose proof (cr_len _ _ Hrep) as Hlen. unfold coremap_dealloc, read_entry. wp_steps.
  rewrite (page_index s runs r Hrep) by lia.
  eapply wp_deref; [by apply (cr_head _ _ Hrep)|]. simpl. unfold u32, PAGE_SIZE in *.
  rewrite Z.mod_small by lia.
  eapply wp_conseq; [apply fill_spec; lia| |done]. intros [] s' (l' & -> & Hlen' & Hl').
  split; [|by exists l'].
  assert (∀ i, ¬ in_run r n i → l'.[i] = (coremap s).[i]) as Hold.
  { intros i Hi. rewrite Hl', decide_False; done. }
  destruct Hrep as [Hflag _ Hp Hf Ht Hrg Hdis Hhd Htl Hfree Hself]. constructor; simpl; try done.
  - by rewrite Hlen'.
  - intros r' n' [_ ?]%lookup_delete_Some. eauto.
  - intros r1 n1 r2 n2 [_ ?]%lookup_delete_Some [_ ?]%lookup_delete_Some. eauto.
  - intros r' n' [Hne Hr']%lookup_delete_Some. rewrite Hold; [by apply Hhd|].
    destruct (Hdis _ _ _ _ Hr Hr' Hne), (Hrg _ _ Hr') as (?&?&?); unfold in_run; lia.
  - intros r' n' i [Hne Hr']%lookup_delete_Some Hi. rewrite Hold; [by eapply Htl|].
    destruct (Hdis _ _ _ _ Hr Hr' Hne), (Hrg _ _ Hr') as (?&?&?); unfold in_run; lia.
  - intros i Hi Hno. rewrite Hl'. case_decide as Hin; [done|]. apply Hfree; [done|].
    intros r' n' Hr'. destruct (decide (r' = r)) as [->|]; [by simplify_eq|].
    apply Hno. by apply lookup_delete_Some.
  - intros i Hi. rewrite Hold; [by apply Hself|]. unfold in_run. lia.
Qed.

(** The state after [n] pages from [r] on have been taken. *)
Lemma cm_rep_alloc s runs r n l' :
  cm_rep s runs → 0 < n → window s r n →
  lengthZ l' = lengthZ (coremap s) →
  l'.[r] = Some (mkCE 1 n) → (∀ i, r < i < r + n → l'.[i] = Some (mkCE 1 1)) →
  (∀ i, ¬ in_run r n i → l'.[i] = (coremap s).[i]) →
  cm_rep (set_coremap (λ _, l') s) (<[r := n]> runs) ∧
  ∀ r' n' i, runs !! r' = Some n' → in_run r n i → ¬ in_run r' n' i.
Proof.
  intros Hrep Hn (Hlo & Hhi & Hfree) Hlen Hhead Htail Hold.
  destruct Hrep as [Hflag Hl Hp Hf Ht Hrg Hdis Hhd Htl Hfr Hself].
  assert (∀ r' n' i, runs !! r' = Some n' → in_run r n i → ¬ in_run r' n' i) as Hapart.
  { intros r' n' i Hr' Hi Hi'. destruct (Hfree i Hi) as (e & He & Hu).
    destruct (decide (i = r')) as [->|].
    - rewrite (Hhd _ _ Hr') in He. by injection He as <-.
    - rewrite (Htl _ _ i Hr') in He by (unfold in_run in *; lia). by injection He as <-. }
  assert (∀ r' n', runs !! r' = Some n' → r + n ≤ r' ∨ r' + n' ≤ r) as Hsep.
  { intros r' n' Hr'. destruct (Hrg _ _ Hr') as (? & ? & ?).
    destruct (decide (r + n ≤ r')), (decide (r' + n' ≤ r)); [lia..|].
    exfalso. apply (Hapart r' n' (Z.max r r') Hr'); unfold in_run; lia. }
  split; [|done]. constructor; simpl; try done.
  - by rewrite Hlen.
  - intros r' n' [[-> <-]|[_ ?]]%lookup_insert_Some; [lia|eauto].
  - intros r1 n1 r2 n2 [[-> <-]|[_ H1]]%lookup_insert_Some [[-> <-]|[_ H2]]%lookup_insert_Some Hne;
      [done|eauto| |eauto]. destruct (Hsep _ _ H1); lia.
  - intros r' n' [[-> <-]|[_ Hr']]%lookup_insert_Some; [done|]. rewrite Hold; [by apply Hhd|].
    destruct (Hsep _ _ Hr'), (Hrg _ _ Hr') as (?&?&?); unfold in_run; lia.
  - intros r' n' i [[-> <-]|[_ Hr']]%lookup_insert_Some Hi; [by apply Htail|].
    rewrite Hold; [by eapply Htl|]. destruct (Hsep _ _ Hr'); unfold in_run; lia.
  - intros i Hi Hno. assert (¬ in_run r n i) as Hir by (apply Hno; apply lookup_insert_eq).
    rewrite Hold by done. apply Hfr; [done|]. intros r' n' Hr' Hin.
    apply (Hno r' n'); [|done]. rewrite lookup_insert_ne; [done|]. intros <-.
    destruct (Hsep _ _ Hr'), (Hrg _ _ Hr') as (?&?&?); lia.
  - intros i Hi. rewrite Hold; [by apply Hself|]. unfold in_run. lia.
Qed.

(** What coremap_alloc gives: no window was there, or the lowest one is taken. *)
Definition cm_allocated (s : cmstate) (runs : gmap Z Z) (n a : Z) (s' : cmstate) : Prop :=
  if decide (a = 0) then s' = s ∧ ∀ r, ¬ window s r n
  else ∃ r, a = page_addr s r ∧ window s r n ∧ (∀ r', r' < r → ¬ window s r' n) ∧
       runs !! r = None ∧ cm_rep s' (<[r := n]> runs) ∧ same_layout s s'.

(** The state of the search before page [i]: the last [k] pages are free, no
    longer stretch ends here, and no window ends earlier. *)
Record searching (s : cmstate) (n i k : Z) : Prop := {
  se_range : num_of_coremap_pages s ≤ i ∧ 0 ≤ k < n ∧ k ≤ i - num_of_coremap_pages s;
  se_free : ∀ j, i - k ≤ j < i → ∃ e, (coremap s).[j] = Some e ∧ used e = 0;
  se_max : k = i - num_of_coremap_pages s ∨
           ∃ e, (coremap s).[i - k - 1] = Some e ∧ used e ≠ 0;
  se_none : ∀ r, r + n ≤ i → ¬ window s r n
}.

Lemma searching_free s n i k e :
  searching s n i k → (coremap s).[i] = Some e → used e = 0 → k + 1 ≠ n →
  searching s n (i + 1) (k + 1).
Proof.
  intros [Hr Hf Hm Hno] He Hu Hk. constructor; [lia| | |].
  - intros j Hj. destruct (decide (j = i)) as [->|]; [eauto|]. apply Hf. lia.
  - destruct Hm as [?|(e' & ? & ?)]; [left; lia|right]. exists e'.
    by replace (i + 1 - (k + 1) - 1) with (i - k - 1) by lia.
  - intros r Hrn. destruct (decide (r + n ≤ i)); [by apply Hno|].
    intros (Hlo & _ & Hw). destruct Hm as [?|(e' & He' & Hu')]; [lia|].
    destruct (Hw (i - k - 1)) as (e2 & He2 & ?); [unfold in_run; lia|]. congruence.
Qed.

Lemma searching_used s n i k e :
  searching s n i k → (coremap s).[i] = Some e → used e ≠ 0 → searching s n (i + 1) 0.
Proof.
  intros [Hr Hf Hm Hno] He Hu. constructor; [lia|lia| |].
  - right. exists e. by replace (i + 1 - 0 - 1) with i by lia.
  - intros r Hrn. destruct (decide (r + n ≤ i)); [by apply Hno|].
    intros (_ & _ & Hw). destruct (Hw i) as (e2 & He2 & ?); [unfold in_run; lia|]. congruence.
Qed.

Lemma take_window X s runs n i :
  cm_rep s runs → 0 < n → window s (i - n + 1) n → (∀ r', r' + n ≤ i → ¬ window s r' n) →
  wpx X (write_entry (i - n + 1) (mkCE 1 n) ;;
         for_ (i - n + 1 + 1) (i + 1) (λ j, write_entry j (mkCE 1 1)) ;;
         s <- get ;; ret (u32 (firstaddr s + (i - n + 1) * PAGE_SIZE)))
    (cm_allocated s runs n) (λ _ _, False) s.
Proof.
  intros Hrep Hn Hw Hfirst. pose proof (cr_len _ _ Hrep) as Hlen. destruct (Hw) as (Hlo & Hhi & _).
  pose proof (cr_pages _ _ Hrep). pose proof (cr_first _ _ Hrep) as [Hf0 _]. pose proof (cr_top _ _ Hrep).
  wp_step. apply write_entry_spec; [lia|]. wp_step.
  eapply wp_conseq; [apply fill_spec; simpl; rewrite ?lengthZ_update; lia| |done].
  intros [] s' (l' & -> & Hlen' & Hl'). simpl in Hlen', Hl'. rewrite lengthZ_update in Hlen'.
  wp_steps. simpl. unfold u32, PAGE_SIZE in *. rewrite Z.mod_small by lia.
  unfold cm_allocated. rewrite decide_False by lia.
  destruct (cm_rep_alloc s runs (i - n + 1) n l') as [Hrep' Hap]; try done.
  - rewrite Hl', decide_False by lia. apply lookupZ_update_eq. lia.
  - intros j Hj. rewrite Hl', decide_True by lia. done.
  - intros j Hj. unfold in_run in Hj. rewrite Hl', decide_False by lia.
    apply lookupZ_update_ne. lia.
  - exists (i - n + 1). split_and!; try done.
    + intros r' Hr'. apply Hfirst. lia.
    + apply eq_None_not_Some. intros [n' Hn'].
      destruct (cr_range _ _ Hrep _ _ Hn') as (?&?&?).
      apply (Hap _ _ (i - n + 1) Hn'); unfold in_run; lia.
    + by exists l'.
Qed.

Lemma coremap_alloc_loop_spec X s runs n fuel i k :
  cm_rep s runs → searching s n i k → Z.of_nat fuel = num_of_pages s - i →
  wpx X (coremap_alloc_loop fuel i k n) (cm_allocated s runs n) (λ _ _, False) s.
Proof.
  intros Hrep. pose proof (cr_len _ _ Hrep) as Hlen. revert i k.
  induction fuel as [|fuel IH]; intros i k Hs Hf; cbn [coremap_alloc_loop].
  - wp_step. unfold cm_allocated. rewrite decide_True by done. split; [done|].
    intros r Hw. apply (se_none _ _ _ _ Hs r); [|done]. destruct Hw as (_ & ? & _). lia.
  - pose proof (se_range _ _ _ _ Hs). pose proof (cr_pages _ _ Hrep).
    destruct (lookupZ_lt (coremap s) i) as [e He]; [lia|].
    unfold read_entry. wp_steps. eapply wp_deref; [done|].
    destruct (Z.eqb_spec (used e) 0) as [Hu|Hu].
    + cbv zeta. destruct (Z.eqb_spec (k + 1) n) as [Hk|Hk].
      * rewrite Hk. apply take_window; try done; [lia| |apply Hs].
        split_and!; [lia..|]. intros j Hj. unfold in_run in Hj.
        destruct (decide (j = i)) as [->|]; [by eauto|]. apply (se_free _ _ _ _ Hs). lia.
      * apply IH; [by eapply searching_free|lia].
    + apply IH; [by eapply searching_used|lia].
Qed.

Lemma coremap_alloc_spec X s runs n :
  cm_rep s runs → 0 < n →
  wpx X (coremap_alloc n) (cm_allocated s runs n) (λ _ _, False) s.
Proof.
  intros Hrep Hn. pose proof (cr_pages _ _ Hrep). unfold coremap_alloc. wp_steps.
  apply coremap_alloc_loop_spec; [done| |lia]. constructor; [lia|lia|left; lia|].
  intros r Hr (Hlo & _). lia.
Qed.

(** coremap_alloc never finds a window of no pages. *)
Lemma coremap_alloc_zero X s runs :
  cm_rep s runs → wpx X (coremap_alloc 0) (λ a s', a = 0 ∧ s' = s) (λ _ _, False) s.
Proof.
  intros Hrep. pose proof (cr_pages _ _ Hrep). pose proof (cr_len _ _ Hrep).
  assert (∀ fuel i k, 0 ≤ k → 0 ≤ i → Z.of_nat fuel = num_of_pages s - i →
    wpx X (coremap_alloc_loop fuel i k 0) (λ a s', a = 0 ∧ s' = s) (λ _ _, False) s) as Hloop.
  { induction fuel as [|fuel IH]; intros i k Hk Hi Hf; cbn [coremap_alloc_loop]; [by wp_step|].
    destruct (lookupZ_lt (coremap s) i) as [e He]; [lia|].
    unfold read_entry. wp_steps. eapply wp_deref; [done|].
    destruct (used e =? 0); [|apply IH; lia]. cbv zeta. destruct (Z.eqb_spec (k + 1) 0); [lia|].
    apply IH; lia. }
  unfold coremap_alloc. wp_steps. apply Hloop; lia.
Qed.

#[global] Instance in_run_dec r n i : Decision (in_run r n i).
Proof. unfold in_run. apply _. Defined.

(** A page is in some allocation or in none. *)
Lemma owner_dec (runs : gmap Z Z) i :
  (∃ r n, runs !! r = Some n ∧ in_run r n i) ∨ (∀ r n, runs !! r = Some n → ¬ in_run r n i).
Proof.
  destruct (decide (Exists (λ rn, in_run rn.1 rn.2 i) (map_to_list runs))) as [He|Hn].
  - left. apply Exists_exists in He as ([r n] & Hin & Hr).
    exists r, n. split; [by apply elem_of_map_to_list|done].
  - right. intros r n Hr Hin. apply Hn, Exists_exists. exists (r, n).
    split; [by apply elem_of_map_to_list|done].
Qed.

(** The allocations determine the coremap. *)
Lemma cm_rep_inj s runs l : cm_rep s runs → cm_rep (set_coremap (λ _, l) s) runs → l = coremap s.
Proof.
  intros H1 H2. pose proof (cr_len _ _ H1) as L1. pose proof (cr_len _ _ H2) as L2. simpl in L2.
  apply listZ_eq; [congruence|]. intros i Hi. rewrite L2 in Hi.
  assert (∃ e, ∀ s', cm_rep s' runs → num_of_coremap_pages s' = num_of_coremap_pages s →
    num_of_pages s' = num_of_pages s → (coremap s').[i] = Some e) as [e He].
  { destruct (decide (i < num_of_coremap_pages s)).
    { eexists. intros s' H Hc _. apply (cr_self _ _ H). lia. }
    destruct (owner_dec runs i) as [(r & n' & Hr & Hin)|Hno]; eexists; intros s' H Hc Hp.
    - instantiate (1 := if decide (i = r) then mkCE 1 n' else mkCE 1 1).
      case_decide as E; [subst i; by apply (cr_head _ _ H)|].
      unfold in_run in Hin. eapply (cr_tail _ _ H); [done|lia].
    - apply (cr_free _ _ H); [lia|done]. }
  rewrite (He s H1) by done. by apply (He _ H2).
Qed.

(** Masking with PAGE_FRAME rounds down to a page. *)
Lemma land_PAGE_FRAME va : 0 ≤ va < 2 ^ 32 → Z.land va PAGE_FRAME = va / PAGE_SIZE * PAGE_SIZE.
Proof.
  intros Hva. unfold PAGE_SIZE. change 4096 with (2 ^ 12).
  rewrite <- Z.shiftr_div_pow2, <- Z.shiftl_mul_pow2 by lia. change PAGE_FRAME with (Z.shiftl (Z.ones 20) 12).
  apply Z.bits_inj'. intros n Hn. rewrite Z.land_spec, !Z.shiftl_spec, Z.testbit_ones by lia.
  destruct (decide (n < 12)).
  - rewrite (proj2 (Z.leb_gt 0 (n - 12))) by lia. rewrite andb_false_r. by rewrite Z.testbit_neg_r by lia.
  - rewrite Z.shiftr_spec by lia. replace (n - 12 + 12) with n by lia.
    destruct (decide (n < 32)).
    + rewrite (proj2 (Z.leb_le 0 (n - 12))), (proj2 (Z.ltb_lt (n - 12) 20)) by lia. apply andb_true_r.
    + rewrite <- (Z.mod_small va (2 ^ 32)) by lia. by rewrite Z.mod_pow2_bits_high by lia.
Qed.

Lemma kvaddr_roundtrip a : 0 ≤ a < 2 ^ 31 → KVADDR_TO_PADDR (PADDR_TO_KVADDR a) = a.
Proof.
  intros Ha. unfold KVADDR_TO_PADDR, PADDR_TO_KVADDR, MIPS_KSEG0, u32.
  rewrite (Z.mod_small (a + _)) by lia. replace (a + 2147483648 - 2147483648) with a by lia.
  apply Z.mod_small. lia.
Qed.

Lemma page_addr_range s runs r :
  cm_rep s runs → 0 ≤ r < num_of_pages s → 0 < page_addr s r < 2 ^ 29.
Proof.
  intros Hrep Hr. pose proof (cr_first _ _ Hrep). pose proof (cr_top _ _ Hrep).
  unfold page_addr, PAGE_SIZE in *. lia.
Qed.

Lemma getppages_spec X s runs n :
  cm_rep s runs → 0 < n → wpx X (getppages n) (cm_allocated s runs n) (λ _ _, False) s.
Proof.
  intros Hrep Hn. unfold getppages. wp_steps. rewrite (cr_flag _ _ Hrep). by apply coremap_alloc_spec.
Qed.

(** alloc_kpages hands out the kernel virtual address of the run. *)
Lemma alloc_kpages_spec X s runs n :
  cm_rep s runs → 0 < n < 2 ^ 31 →
  wpx X (alloc_kpages n)
    (λ va s', if decide (va = 0) then s' = s ∧ ∀ r, ¬ window s r n
              else ∃ r, va = PADDR_TO_KVADDR (page_addr s r) ∧ window s r n ∧ runs !! r = None ∧
                   cm_rep s' (<[r := n]> runs) ∧ same_layout s s') (λ _ _, False) s.
Proof.
  intros Hrep Hn. unfold alloc_kpages, u32. rewrite Z.mod_small by lia.
  wp_step. eapply wp_conseq; [apply (getppages_spec _ s runs n); [done|lia]| |done].
  intros a s' Ha. unfold cm_allocated in Ha. case_decide as E.
  - subst a. simpl. wp_step. by rewrite decide_True.
  - destruct Ha as (r & -> & Hw & _ & Hnone & Hrep' & Hl). destruct (Hw) as (Hlo & Hhi & _).
    pose proof (cr_pages _ _ Hrep). pose proof (page_addr_range s runs r Hrep ltac:(lia)).
    destruct (Z.eqb_spec (page_addr s r) 0); [lia|]. wp_step. rewrite decide_False; [by eauto 10|].
    unfold PADDR_TO_KVADDR, MIPS_KSEG0, u32. rewrite Z.mod_small by lia. lia.
Qed.

Lemma free_kpages_spec X s runs r n :
  cm_rep s runs → runs !! r = Some n →
  wpx X (free_kpages (PADDR_TO_KVADDR (page_addr s r)))
    (λ _ s', cm_rep s' (delete r runs) ∧ same_layout s s') (λ _ _, False) s.
Proof.
  intros Hrep Hr. destruct (cr_range _ _ Hrep _ _ Hr) as (?&?&?). pose proof (cr_pages _ _ Hrep).
  pose proof (page_addr_range s runs r Hrep ltac:(lia)).
  unfold free_kpages. rewrite kvaddr_roundtrip by lia. by eapply coremap_dealloc_spec.
Qed.

(** The state vm_bootstrap finds: page-aligned memory above the kernel. *)
Record boot_memory (s : cmstate) : Prop := {
  bm_first : 0 < firstpaddr s ∧ firstpaddr s mod PAGE_SIZE = 0;
  bm_last : firstpaddr s ≤ lastpaddr s ≤ 508 * 1024 * 1024
}.

Lemma ROUNDUP_pages x : 0 ≤ x →
  x ≤ ROUNDUP x PAGE_SIZE / PAGE_SIZE * PAGE_SIZE < x + PAGE_SIZE ∧
  0 ≤ ROUNDUP x PAGE_SIZE / PAGE_SIZE.
Proof.
  intros Hx. unfold ROUNDUP, PAGE_SIZE. rewrite Z.div_mul by lia.
  pose proof (DIVROUNDUP_spec x 4096 Hx ltac:(lia)). split; [lia|].
  unfold DIVROUNDUP. apply Z.div_pos; lia.
Qed.

Lemma vm_bootstrap_spec X junk s :
  boot_memory s →
  wpx X (vm_bootstrap junk)
    (λ _ s', cm_rep s' ∅ ∧ firstaddr s' = firstpaddr s ∧
       num_of_pages s' = (lastpaddr s - firstpaddr s) / PAGE_SIZE ∧
       num_of_pages s' * sizeof_coremap_entry ≤ num_of_coremap_pages s' * PAGE_SIZE)
    (λ _ _, False) s.
Proof.
  intros [[Hf Hal] [Hle Hmax]]. unfold vm_bootstrap, ram_getsize. wp_steps. cbv zeta. simpl.
  unfold u32, sizeof_coremap_entry, PAGE_SIZE in *. rewrite !(Z.mod_small (lastpaddr s - firstpaddr s)) by lia.
  set (np := (lastpaddr s - firstpaddr s) / 4096).
  assert (0 ≤ np ∧ np * 4096 ≤ lastpaddr s - firstpaddr s) as [Hnp0 Hnp].
  { unfold np. split; [apply Z.div_pos; lia|]. pose proof (Z.mul_div_le (lastpaddr s - firstpaddr s) 4096). lia. }
  rewrite (Z.mod_small (np * 8)) by lia.
  set (nc := ROUNDUP (np * 8) 4096 / 4096).
  assert (np * 8 ≤ nc * 4096 < np * 8 + 4096 ∧ 0 ≤ nc) as [Hnc Hnc0].
  { apply (ROUNDUP_pages (np * 8)). lia. }
  assert (nc ≤ np) as Hncnp by lia.
  set (s1 := mkCM _ _ _ _ _ _ _ _). wp_steps.
  apply (wp_for (λ k s', ∃ l, s' = set_coremap (λ _, l) s1 ∧ lengthZ l = np ∧
    ∀ i, 0 ≤ i < k → l.[i] = Some (if i <? nc then mkCE 1 1 else mkCE 0 0))); [lia| | |].
  - exists (coremap s1). split; [by rewrite set_coremap_id|]. split; [|lia].
    unfold s1. simpl. rewrite lengthZ_replicate. lia.
  - intros k s' Hk (l & -> & Hl & Hlk).
    apply (wp_conseq _ (λ _ s', s' = set_coremap (λ _, l.[k := if k <? nc then mkCE 1 1 else mkCE 0 0]) s1)
      _ (λ _ _, False)); [|intros [] s' ->|done].
    { case_match; apply write_entry_spec; simpl; done || lia. }
    eexists. split; [done|]. rewrite lengthZ_update. split; [done|].
    intros i Hi. rewrite lookupZ_update by lia. case_decide; [by subst|]. apply Hlk. lia.
  - intros s' (l & -> & Hl & Hlk). wp_steps. unfold s1, set_coremap. simpl.
    split_and!; try done; [|lia].
    constructor; unfold PAGE_SIZE; simpl; try done; try lia; try (intros *; by rewrite lookup_empty).
    + intros i Hi _. rewrite Hlk by lia. by replace (i <? nc) with false by lia.
    + intros i Hi. rewrite Hlk by lia. by replace (i <? nc) with true by lia.
Qed.

(** ** Properties *)

(** vm_bootstrap takes over all of physical memory above the kernel: every
    page is free except the first ones, which are marked in use and are exactly
    enough to hold the coremap itself. *)
Theorem vm_bootstrap_correct junk s :
  boot_memory s →
  wp (vm_bootstrap junk)
    (λ _ s', cm_rep s' ∅ ∧ firstaddr s' = firstpaddr s ∧
       num_of_pages s' = (lastpaddr s - firstpaddr s) / PAGE_SIZE ∧
       num_of_pages s' * sizeof_coremap_entry ≤ num_of_coremap_pages s' * PAGE_SIZE)
    (λ _ _, False) s.
Proof. apply vm_bootstrap_spec. Qed.

(** A machine with eight free pages. *)
Definition demo_boot : cmstate := mkCM 0x30000 0x38000 false 0 0 0 0 [].
Lemma demo_boot_memory : boot_memory demo_boot.
Proof. constructor; vm_compute; repeat split; discriminate. Qed.

(** The demo machine once booted. *)
Definition demo_cm : cmstate :=
  mkCM 0 0 true 1 8 0x30000 0x38000 (mkCE 1 1 :: replicate 7 (mkCE 0 0)).
Lemma demo_boots : vm_bootstrap (mkCE 7 7) demo_boot = Ok tt demo_cm.
Proof. vm_compute. reflexivity. Qed.
Lemma demo_cm_rep : cm_rep demo_cm ∅.
Proof.
  pose proof (vm_bootstrap_spec False (mkCE 7 7) demo_boot demo_boot_memory) as H.
  apply (proj1 (wp_elim _ _ _ _ H) tt demo_cm demo_boots).
Qed.

Lemma vm_bootstrap_correct_witness :
  vm_bootstrap (mkCE 7 7) demo_boot = Ok tt demo_cm ∧ cm_rep demo_cm ∅.
Proof.
  pose proof (vm_bootstrap_correct (mkCE 7 7) demo_boot demo_boot_memory) as H.
  split; [exact demo_boots|exact (proj1 (proj1 (wp_elim _ _ _ _ H) tt demo_cm demo_boots))].
Defined.

(** C25. coremap_alloc returns the lowest run of [n] contiguous free pages and
    records exactly that run, or returns 0 and changes nothing when no such run
    exists; pages of other allocations are never handed out. *)
Theorem coremap_alloc_correct s runs n :
  cm_rep s runs → 0 < n → wp (coremap_alloc n) (cm_allocated s runs n) (λ _ _, False) s.
Proof. apply coremap_alloc_spec. Qed.

Definition demo_cm3 : cmstate := set_coremap (λ _,
  mkCE 1 1 :: mkCE 1 3 :: mkCE 1 1 :: mkCE 1 1 :: replicate 4 (mkCE 0 0)) demo_cm.
Lemma coremap_alloc_correct_witness :
  ∃ s', coremap_alloc 3 demo_cm = Ok 0x31000 s' ∧ cm_rep s' {[1 := 3]}.
Proof.
  pose proof (coremap_alloc_correct demo_cm ∅ 3 demo_cm_rep ltac:(lia)) as H.
  assert (coremap_alloc 3 demo_cm = Ok 0x31000 demo_cm3) as E by (vm_compute; reflexivity).
  exists demo_cm3. split; [exact E|].
  destruct (proj1 (wp_elim _ _ _ _ H) _ _ E) as (r & Hr & _ & _ & _ & Hrep & _).
  assert (r = 1) as -> by (unfold page_addr, PAGE_SIZE in Hr; simpl in Hr; lia). exact Hrep.
Defined.

(** Freeing what was allocated gives back the very same coremap. *)
Theorem coremap_alloc_free s runs n :
  cm_rep s runs → 0 < n →
  wp (a <- coremap_alloc n ;; if a =? 0 then ret tt else coremap_dealloc a)
    (λ _ s', s' = s) (λ _ _, False) s.
Proof.
  intros Hrep Hn. wp_step. eapply wp_conseq; [by apply (coremap_alloc_spec _ s runs n)| |done].
  intros a s1 Ha. unfold cm_allocated in Ha. case_decide as E.
  { subst a. simpl. wp_step. apply Ha. }
  destruct Ha as (r & -> & _ & _ & Hnone & Hrep1 & [l ->]). destruct (Z.eqb_spec (page_addr s r) 0); [lia|].
  eapply wp_conseq; [eapply (coremap_dealloc_spec _ (set_coremap (λ _, l) s)); [done|apply lookup_insert_eq]| |done].
  intros [] s2 [Hrep2 [l2 ->]]. rewrite delete_insert_id in Hrep2 by done.
  apply (cm_rep_inj s runs l2) in Hrep2; [|done]. subst l2. by destruct s.
Qed.

Lemma coremap_alloc_free_witness :
  wp (a <- coremap_alloc 2 ;; if a =? 0 then ret tt else coremap_dealloc a)
    (λ _ s', s' = demo_cm) (λ _ _, False) demo_cm.
Proof. apply (coremap_alloc_free demo_cm ∅ 2 demo_cm_rep). lia. Defined.

(** A page that was handed out before vm_bootstrap cannot be given back:
    freeing an address below the coremap's first page indexes the coremap far
    outside its bounds. *)
Theorem coremap_dealloc_early_undefined s runs pa :
  cm_rep s runs → 0 ≤ pa < firstaddr s → coremap_dealloc pa s = Undef.
Proof.
  intros Hrep Hpa. pose proof (cr_top _ _ Hrep). pose proof (cr_len _ _ Hrep). pose proof (cr_pages _ _ Hrep).
  unfold coremap_dealloc, read_entry, bind, get, deref, u32, PAGE_SIZE in *.
  rewrite <- (Z.mod_add (pa - firstaddr s) 1), Z.mod_small by lia.
  rewrite (proj2 (lookupZ_None _ _)); [done|].
  assert (2 ^ 19 ≤ (pa - firstaddr s + 1 * 2 ^ 32) / 4096) by (apply Z.div_le_lower_bound; lia). lia.
Qed.

Lemma coremap_dealloc_early_undefined_witness : coremap_dealloc 0x2f000 demo_cm = Undef.
Proof. apply (coremap_dealloc_early_undefined demo_cm ∅ 0x2f000 demo_cm_rep). simpl. lia. Defined.
