(* ===== verification/AddrSpace.v ===== *)
(** * Address spaces, page tables and the TLB

    Models the rest of kern/arch/mips/vm/dumbvm.c: vm_fault and the as_ family,
    with struct addrspace of kern/include/addrspace.h.  Page tables live in
    physical memory, in pages taken from the coremap, exactly as in the code: a
    table entry is the word at its address, and a table that has not been filled
    in holds whatever was there.  Physical memory is a map from the address of a
    word to its value. *)

From S2P Require Import Prelude Coremap.
#[local] Open Scope kern_scope.

Definition USERSTACK : Z := 0x80000000.
Definition DUMBVM_STACKPAGES : Z := 12.
Definition NUM_TLB : Z := 64.
Definition TLBLO_DIRTY : Z := 0x400.
Definition TLBLO_VALID : Z := 0x200.
Definition TLBHI_INVALID (i : Z) : Z := Z.shiftl (0x80000 + i) 12.
Definition TLBLO_INVALID : Z := 0.
Definition EX_MOD : Z := 1.

Inductive faulttype := VM_FAULT_READ | VM_FAULT_WRITE | VM_FAULT_READONLY | VM_FAULT_OTHER.
Inductive segment_type := TEXT_SEGMENT | DATA_SEGMENT | STACK_SEGMENT.

(** struct addrspace; a page table pointer is a kernel address, 0 being NULL. *)
Record addrspace := mkAS {
  as_vbase1 : Z;
  page_pbase1 : Z;
  as_npages1 : Z;
  as_vbase2 : Z;
  page_pbase2 : Z;
  as_npages2 : Z;
  page_stackpbase : Z
}.

Record vmstate := mkVM {
  cms : cmstate;
  pmem : Z → Z;                  (* physical memory, by word address *)
  aspaces : gmap Z addrspace;    (* the struct addrspaces, by pointer *)
  tlb : list (Z * Z);            (* TLB slots: ehi, elo *)
  curproc_as : option (option Z); (* no process; or its address space *)
  loaded : bool;                 (* curproc->loaded *)
  vm_next : Z;                   (* the next address kmalloc hands out *)
  vm_fate : list bool            (* the answers of kmalloc *)
}.
Abbreviation VM := (M vmstate).

Definition set_cms v s := mkVM v (pmem s) (aspaces s) (tlb s) (curproc_as s) (loaded s)
  (vm_next s) (vm_fate s).
Definition set_pmem v s := mkVM (cms s) v (aspaces s) (tlb s) (curproc_as s) (loaded s)
  (vm_next s) (vm_fate s).
Definition set_aspaces f s := mkVM (cms s) (pmem s) (f (aspaces s)) (tlb s) (curproc_as s)
  (loaded s) (vm_next s) (vm_fate s).
Definition set_tlb f s := mkVM (cms s) (pmem s) (aspaces s) (f (tlb s)) (curproc_as s)
  (loaded s) (vm_next s) (vm_fate s).
Definition set_loaded v s := mkVM (cms s) (pmem s) (aspaces s) (tlb s) (curproc_as s) v
  (vm_next s) (vm_fate s).

Definition set_pbase1 v x := mkAS (as_vbase1 x) v (as_npages1 x) (as_vbase2 x) (page_pbase2 x)
  (as_npages2 x) (page_stackpbase x).
Definition set_pbase2 v x := mkAS (as_vbase1 x) (page_pbase1 x) (as_npages1 x) (as_vbase2 x) v
  (as_npages2 x) (page_stackpbase x).
Definition set_pstack v x := mkAS (as_vbase1 x) (page_pbase1 x) (as_npages1 x) (as_vbase2 x)
  (page_pbase2 x) (as_npages2 x) v.

(** ** Memory access *)

Definition cm {A} (m : M cmstate A) : VM A := lift cms set_cms m.

Definition read_as (a : Z) : VM addrspace := s <- get ;; deref (aspaces s !! a).
Definition write_as (a : Z) (x : addrspace) : VM unit := modify (set_aspaces <[a := x]>).

(** Entry [i] of the page table at kernel address [t]; through NULL there is
    nothing to read. *)
Definition pte_addr (t i : Z) : Z := KVADDR_TO_PADDR t + sizeof_pagetable_entry * i.
Definition pt_read (t i : Z) : VM Z :=
  if t =? 0 then undef else gets (λ s, pmem s (pte_addr t i)).
Definition pt_write (t i v : Z) : VM unit :=
  if t =? 0 then undef else
  modify (λ s, set_pmem (λ a, if decide (a = pte_addr t i) then v else pmem s a) s).

(** as_zero_region: bzero of [npages] pages. *)
Definition as_zero_region (paddr npages : Z) : VM unit :=
  modify (λ s, set_pmem (λ a, if decide (paddr ≤ a < paddr + npages * PAGE_SIZE) then 0
                              else pmem s a) s).

(** memmove of one page between physical addresses. *)
Definition copy_page (dst src : Z) : VM unit :=
  modify (λ s, set_pmem (λ a, if decide (dst ≤ a < dst + PAGE_SIZE) then pmem s (src + (a - dst))
                              else pmem s a) s).

(** ** Address spaces *)

Definition as_create : VM (option Z) := λ s,
  let '(b, rest) := match vm_fate s with [] => (true, []) | b :: r => (b, r) end in
  let s := mkVM (cms s) (pmem s) (aspaces s) (tlb s) (curproc_as s) (loaded s) (vm_next s) rest in
  if b : bool then
    Ok (Some (vm_next s))
       (mkVM (cms s) (pmem s) (<[vm_next s := mkAS 0 0 0 0 0 0 0]> (aspaces s)) (tlb s)
             (curproc_as s) (loaded s) (vm_next s + 1) rest)
  else Ok None s.

(** Free the frames entered in one page table. *)
Definition free_frames (t n : Z) : VM unit :=
  for_ 0 n (λ i, pa <- pt_read t i ;; cm (free_kpages (PADDR_TO_KVADDR pa))).

Definition as_destroy (a : Z) : VM unit :=
  x <- read_as a ;;
  free_frames (page_pbase1 x) (as_npages1 x) ;;
  free_frames (page_pbase2 x) (as_npages2 x) ;;
  free_frames (page_stackpbase x) DUMBVM_STACKPAGES ;;
  cm (free_kpages (page_pbase1 x)) ;;
  cm (free_kpages (page_pbase2 x)) ;;
  cm (free_kpages (page_stackpbase x)) ;;
  modify (set_aspaces (delete a)).

Definition as_activate : VM unit :=
  s <- get ;;
  match curproc_as s with
  | Some (Some _) =>
      for_ 0 NUM_TLB (λ i, modify (set_tlb (λ l, l.[i := (TLBHI_INVALID i, TLBLO_INVALID)])))
  | _ => ret tt
  end.

Definition as_deactivate : VM unit := ret tt.

Definition as_define_region (a vaddr sz : Z) : VM unit :=
  x <- read_as a ;;
  let sz := u32 (sz + Z.land vaddr (u32 (Z.lnot PAGE_FRAME))) in
  let vaddr := Z.land vaddr PAGE_FRAME in
  let sz := Z.land (u32 (sz + PAGE_SIZE - 1)) PAGE_FRAME in
  let npages := sz / PAGE_SIZE in
  if as_vbase1 x =? 0 then
    write_as a (mkAS vaddr (page_pbase1 x) npages (as_vbase2 x) (page_pbase2 x) (as_npages2 x)
                  (page_stackpbase x))
  else if as_vbase2 x =? 0 then
    write_as a (mkAS (as_vbase1 x) (page_pbase1 x) (as_npages1 x) vaddr (page_pbase2 x) npages
                  (page_stackpbase x))
  else fail EUNIMP.

(** Give every entry of one page table a zeroed frame of its own. *)
Definition map_frames (t n : Z) : VM unit :=
  for_ 0 n (λ i,
    pa <- cm (getppages 1) ;;
    pt_write t i pa ;;
    if pa =? 0 then fail ENOMEM else as_zero_region pa 1).

(** Take the pages of one page table and note its address. *)
Definition new_table (a n : Z) (set : Z → addrspace → addrspace) : VM Z :=
  t <- cm (pagetable_alloc n) ;;
  x <- read_as a ;;
  write_as a (set t x) ;;
  if t =? 0 then fail ENOMEM else ret t.

Definition as_prepare_load (a : Z) : VM unit :=
  x <- read_as a ;;
  kassert (page_pbase1 x =? 0) ;;
  kassert (page_pbase2 x =? 0) ;;
  kassert (page_stackpbase x =? 0) ;;
  t1 <- new_table a (as_npages1 x) set_pbase1 ;;
  t2 <- new_table a (as_npages2 x) set_pbase2 ;;
  t3 <- new_table a DUMBVM_STACKPAGES set_pstack ;;
  map_frames t1 (as_npages1 x) ;;
  map_frames t2 (as_npages2 x) ;;
  map_frames t3 DUMBVM_STACKPAGES.

Definition as_complete_load : VM unit :=
  modify (set_loaded true) ;;
  as_activate.

Definition as_define_stack (a : Z) : VM Z :=
  x <- read_as a ;;
  kassert (negb (page_stackpbase x =? 0)) ;;
  ret USERSTACK.

(** Copy the pages of one table to those of another. *)
Definition copy_frames (new old n : Z) : VM unit :=
  for_ 0 n (λ i,
    d <- pt_read new i ;;
    p <- pt_read old i ;;
    copy_page (KVADDR_TO_PADDR (PADDR_TO_KVADDR d)) (KVADDR_TO_PADDR (PADDR_TO_KVADDR p))).

Definition as_copy (old : Z) : VM Z :=
  o <- as_create ;;
  match o with
  | None => fail ENOMEM
  | Some new =>
      x <- read_as old ;;
      y <- read_as new ;;
      write_as new (mkAS (as_vbase1 x) (page_pbase1 y) (as_npages1 x) (as_vbase2 x)
                      (page_pbase2 y) (as_npages2 x) (page_stackpbase y)) ;;
      r <- attempt (as_prepare_load new) ;;
      match r with
      | inr _ => as_destroy new ;; fail ENOMEM
      | inl _ =>
          y <- read_as new ;;
          kassert (negb (page_pbase1 y =? 0)) ;;
          kassert (negb (page_pbase2 y =? 0)) ;;
          kassert (negb (page_stackpbase y =? 0)) ;;
          copy_frames (page_pbase1 y) (page_pbase1 x) (as_npages1 y) ;;
          copy_frames (page_pbase2 y) (page_pbase2 x) (as_npages2 y) ;;
          copy_frames (page_stackpbase y) (page_stackpbase x) DUMBVM_STACKPAGES ;;
          ret new
      end
  end.

(** ** Page faults *)

(** What a fault comes to: handled, or the process is made to exit. *)
Inductive fault_result := Handled | Killed (code : Z).

Definition is_valid (elo : Z) : bool := negb (Z.land elo TLBLO_VALID =? 0).
Definition is_writable (elo : Z) : bool := negb (Z.land elo TLBLO_DIRTY =? 0).

(** The loop over the TLB: the first slot that is not valid. *)
Fixpoint find_invalid (fuel : nat) (i : Z) (l : list (Z * Z)) : option (option Z) :=
  match fuel with
  | O => Some None
  | S fuel' =>
      match l.[i] with
      | None => None
      | Some (_, elo) => if is_valid elo then find_invalid fuel' (i + 1) l else Some (Some i)
      end
  end.

Definition make_elo (paddr : Z) (seg : segment_type) (ld : bool) : Z :=
  let elo := Z.lor (Z.lor paddr TLBLO_DIRTY) TLBLO_VALID in
  match seg with
  | TEXT_SEGMENT => if ld then Z.land elo (u32 (Z.lnot TLBLO_DIRTY)) else elo
  | _ => elo
  end.

(** The end of vm_fault; [rnd] is the slot tlb_random picks. *)
Definition tlb_install (faultaddress paddr rnd : Z) (seg : segment_type) : VM fault_result :=
  kassert (Z.land paddr PAGE_FRAME =? paddr) ;;
  s <- get ;;
  slot <- deref (find_invalid (Z.to_nat NUM_TLB) 0 (tlb s)) ;;
  modify (set_tlb (λ l, l.[default rnd slot := (faultaddress, make_elo paddr seg (loaded s))])) ;;
  ret Handled.

Definition vm_fault (ft : faulttype) (faultaddress rnd : Z) : VM fault_result :=
  let faultaddress := Z.land faultaddress PAGE_FRAME in
  match ft with
  | VM_FAULT_READONLY => ret (Killed EX_MOD)
  | VM_FAULT_OTHER => fail EINVAL
  | VM_FAULT_READ | VM_FAULT_WRITE =>
      s <- get ;;
      match curproc_as s with
      | None | Some None => fail EFAULT
      | Some (Some a) =>
          x <- read_as a ;;
          kassert (negb (as_vbase1 x =? 0)) ;;
          kassert (negb (page_pbase1 x =? 0)) ;;
          kassert (negb (as_npages1 x =? 0)) ;;
          kassert (negb (page_pbase2 x =? 0)) ;;
          kassert (negb (as_vbase2 x =? 0)) ;;
          kassert (negb (as_npages2 x =? 0)) ;;
          kassert (negb (page_stackpbase x =? 0)) ;;
          kassert (Z.land (as_vbase1 x) PAGE_FRAME =? as_vbase1 x) ;;
          kassert (Z.land (as_vbase2 x) PAGE_FRAME =? as_vbase2 x) ;;
          let vbase1 := as_vbase1 x in
          let vtop1 := u32 (vbase1 + as_npages1 x * PAGE_SIZE) in
          let vbase2 := as_vbase2 x in
          let vtop2 := u32 (vbase2 + as_npages2 x * PAGE_SIZE) in
          let stackbase := USERSTACK - DUMBVM_STACKPAGES * PAGE_SIZE in
          let stacktop := USERSTACK in
          if (vbase1 <=? faultaddress) && (faultaddress <? vtop1) then
            paddr <- pt_read (page_pbase1 x) ((faultaddress - vbase1) / PAGE_SIZE) ;;
            tlb_install faultaddress paddr rnd TEXT_SEGMENT
          else if (vbase2 <=? faultaddress) && (faultaddress <? vtop2) then
            paddr <- pt_read (page_pbase2 x) ((faultaddress - vbase2) / PAGE_SIZE) ;;
            tlb_install faultaddress paddr rnd DATA_SEGMENT
          else if (stackbase <=? faultaddress) && (faultaddress <? stacktop) then
            paddr <- pt_read (page_stackpbase x) ((faultaddress - stackbase) / PAGE_SIZE) ;;
            tlb_install faultaddress paddr rnd STACK_SEGMENT
          else fail EFAULT
      end
  end.

(** ** Ownership *)

(** The pages an address space owns, by number: its three page tables and the
    frames entered in each. *)
Record owner := mkOwner {
  o_t1 : Z; o_f1 : list Z;
  o_t2 : Z; o_f2 : list Z;
  o_ts : Z; o_fs : list Z
}.
Definition owned (o : owner) : list Z :=
  o_t1 o :: o_t2 o :: o_ts o :: o_f1 o ++ o_f2 o ++ o_fs o.

Definition page (s : vmstate) (r : Z) : Z := page_addr (cms s) r.

(** The page table at [va] sits at page [t] and maps [n] pages to [fs]. *)
Record table_rep (s : vmstate) (runs : gmap Z Z) (va n t : Z) (fs : list Z) : Prop := {
  tr_addr : va = PADDR_TO_KVADDR (page s t);
  tr_size : 0 < n ≤ 2 ^ 20;
  tr_run : runs !! t = Some (pagetable_pages n);
  tr_len : lengthZ fs = n;
  tr_frames : ∀ i f, fs.[i] = Some f →
    runs !! f = Some 1 ∧ pmem s (page s t + 4 * i) = page s f
}.

Record as_rep (s : vmstate) (runs : gmap Z Z) (x : addrspace) (o : owner) : Prop := {
  ar_text : table_rep s runs (page_pbase1 x) (as_npages1 x) (o_t1 o) (o_f1 o);
  ar_data : table_rep s runs (page_pbase2 x) (as_npages2 x) (o_t2 o) (o_f2 o);
  ar_stack : table_rep s runs (page_stackpbase x) DUMBVM_STACKPAGES (o_ts o) (o_fs o);
  ar_nodup : NoDup (owned o)
}.

(** [a] is the address of a word in the [n] pages from [r] on. *)
Definition region (s : vmstate) (r n a : Z) : Prop := page s r ≤ a < page s r + n * PAGE_SIZE.

(** Everything but the coremap and the memory is as it was. *)
Definition vm_same (s s' : vmstate) : Prop :=
  same_layout (cms s) (cms s') ∧ aspaces s' = aspaces s ∧ tlb s' = tlb s ∧
  curproc_as s' = curproc_as s ∧ loaded s' = loaded s ∧ vm_next s' = vm_next s.

Lemma same_layout_refl s : same_layout s s.
Proof. exists (coremap s). by rewrite set_coremap_id. Qed.

Lemma same_layout_trans s1 s2 s3 : same_layout s1 s2 → same_layout s2 s3 → same_layout s1 s3.
Proof. intros [l1 ->] [l2 ->]. by exists l2. Qed.

Lemma same_layout_page s s' r : same_layout s s' → page_addr s' r = page_addr s r.
Proof. by intros [l ->]. Qed.

Lemma vm_same_refl s : vm_same s s.
Proof. split_and!; try done. apply same_layout_refl. Qed.

Lemma vm_same_trans s1 s2 s3 : vm_same s1 s2 → vm_same s2 s3 → vm_same s1 s3.
Proof.
  intros (? & ? & ? & ? & ? & ?) (? & ? & ? & ? & ? & ?).
  split_and!; try congruence. by eapply same_layout_trans.
Qed.

Lemma vm_same_page s s' r : vm_same s s' → page s' r = page s r.
Proof. intros [? _]. by apply same_layout_page. Qed.
