(* ===== verification/VmInv.v ===== *)
(** * Address spaces: the lemmas

    How the operations of AddrSpace.v act on the allocations of the coremap and
    on the memory in them: freeing, mapping and copying the frames of a page
    table, then as_destroy, as_prepare_load and as_copy. *)

From S2P Require Import Prelude Coremap AddrSpace.
#[local] Open Scope kern_scope.

Lemma wp_cm {A} X (m : M cmstate A) Q E s :
  wpx X m (λ a c, Q a (set_cms c s)) (λ e c, E e (set_cms c s)) (cms s) → wpx X (cm m) Q E s.
Proof. apply wp_lift. Qed.

Lemma page_range s runs r n :
  cm_rep (cms s) runs → runs !! r = Some n → 0 < page s r < 2 ^ 29.
Proof.
  intros Hrep Hr. destruct (cr_range _ _ Hrep _ _ Hr) as (?&?&?). pose proof (cr_pages _ _ Hrep).
  eapply page_addr_range; [done|lia].
Qed.

Lemma regions_disjoint s runs p k q k' a :
  cm_rep (cms s) runs → runs !! p = Some k → runs !! q = Some k' → p ≠ q →
  region s p k a → region s q k' a → False.
Proof.
  intros Hrep Hp Hq Hne Ha Hb. unfold region, page, page_addr, PAGE_SIZE in *.
  destruct (cr_disjoint _ _ Hrep _ _ _ _ Hp Hq Hne); lia.
Qed.

Lemma page_inj s p q : page s p = page s q → p = q.
Proof. unfold page, page_addr, PAGE_SIZE. lia. Qed.

Lemma kvaddr_nonzero pa : 0 < pa < 2 ^ 29 → PADDR_TO_KVADDR pa ≠ 0.
Proof. intros. unfold PADDR_TO_KVADDR, MIPS_KSEG0, u32. rewrite Z.mod_small by lia. lia. Qed.

Lemma pte_addr_page pa i : 0 < pa < 2 ^ 29 → pte_addr (PADDR_TO_KVADDR pa) i = pa + 4 * i.
Proof. intros. unfold pte_addr, sizeof_pagetable_entry. by rewrite kvaddr_roundtrip by lia. Qed.

(** The table's own words lie in its pages. *)
Lemma pagetable_fits n : 0 < n ≤ 2 ^ 20 → 4 * n ≤ pagetable_pages n * PAGE_SIZE ∧ 0 < pagetable_pages n.
Proof.
  intros Hn. unfold pagetable_pages, sizeof_pagetable_entry, u32. rewrite Z.mod_small by lia.
  destruct (ROUNDUP_pages (n * 4)) as [? ?]; [lia|]. unfold PAGE_SIZE in *. nia.
Qed.

(** ** Reading and freeing a table *)

(** [fs] are the frames entered in the table at page [t]. *)
Definition words (s : vmstate) (t : Z) (fs : list Z) : Prop :=
  ∀ i f, fs.[i] = Some f → pmem s (page s t + 4 * i) = page s f.

Lemma pt_read_spec X s t fs i f (Q : Z → vmstate → Prop) E :
  0 < page s t < 2 ^ 29 → words s t fs → fs.[i] = Some f →
  Q (page s f) s → wpx X (pt_read (PADDR_TO_KVADDR (page s t)) i) Q E s.
Proof.
  intros Hp Hw Hi HQ. unfold pt_read. pose proof (kvaddr_nonzero _ Hp).
  destruct (Z.eqb_spec (PADDR_TO_KVADDR (page s t)) 0); [done|].
  wp_step. rewrite pte_addr_page by done. by rewrite (Hw _ _ Hi).
Qed.

Lemma lookup_foldr_delete (runs : gmap Z Z) l p :
  foldr delete runs l !! p = if decide (p ∈ l) then None else runs !! p.
Proof.
  induction l as [|q l IH]; cbn [foldr].
  { destruct (decide (p ∈ [])) as [Hin|]; [|done]. by apply not_elem_of_nil in Hin. }
  destruct (decide (p = q)) as [->|Hne].
  - rewrite lookup_delete_eq. destruct (decide (q ∈ q :: l)) as [|Hin]; [done|]. destruct Hin. by left.
  - rewrite lookup_delete_ne, IH by done.
    destruct (decide (p ∈ l)) as [H1|H1], (decide (p ∈ q :: l)) as [H2|H2]; try done.
    + destruct H2. by right.
    + apply elem_of_cons in H2. naive_solver.
Qed.

Lemma foldr_delete_app (runs : gmap Z Z) l1 l2 :
  foldr delete runs (l1 ++ l2) = foldr delete (foldr delete runs l2) l1.
Proof. by rewrite foldr_app. Qed.

(** Freeing the pages [l] in turn leaves the map without them, in any order. *)
Lemma foldr_delete_perm (runs : gmap Z Z) l1 l2 :
  l1 ≡ₚ l2 → foldr delete runs l1 = foldr delete runs l2.
Proof.
  intros Hp. apply map_eq. intros p. rewrite !lookup_foldr_delete.
  assert (p ∈ l1 ↔ p ∈ l2) by (by rewrite Hp).
  destruct (decide (p ∈ l1)), (decide (p ∈ l2)); naive_solver.
Qed.

(** Only the coremap's entries differ. *)
Definition cm_only (s s' : vmstate) : Prop :=
  ∃ l, s' = set_cms (set_coremap (λ _, l) (cms s)) s.

Lemma cm_only_refl s : cm_only s s.
Proof. exists (coremap (cms s)). rewrite set_coremap_id. by destruct s. Qed.

Lemma cm_only_trans s1 s2 s3 : cm_only s1 s2 → cm_only s2 s3 → cm_only s1 s3.
Proof. intros [l1 ->] [l2 ->]. by exists l2. Qed.

Lemma cm_only_page s s' r : cm_only s s' → page s' r = page s r.
Proof. by intros [l ->]. Qed.

Lemma cm_only_words s s' t fs : cm_only s s' → words s t fs → words s' t fs.
Proof. by intros [l ->]. Qed.

Lemma free_page_spec X s runs r n :
  cm_rep (cms s) runs → runs !! r = Some n →
  wpx X (cm (free_kpages (PADDR_TO_KVADDR (page s r))))
    (λ _ s', cm_only s s' ∧ cm_rep (cms s') (delete r runs)) (λ _ _, False) s.
Proof.
  intros Hrep Hr. apply wp_cm. eapply wp_conseq; [by eapply free_kpages_spec| |done].
  intros [] c [Hrep' [l ->]]. split; [by exists l|done].
Qed.

Lemma free_frames_spec X s runs t fs :
  cm_rep (cms s) runs → 0 < page s t < 2 ^ 29 → words s t fs → NoDup fs →
  (∀ f, f ∈ fs → ∃ k, runs !! f = Some k) →
  wpx X (free_frames (PADDR_TO_KVADDR (page s t)) (lengthZ fs))
    (λ _ s', cm_only s s' ∧ cm_rep (cms s') (foldr delete runs fs)) (λ _ _, False) s.
Proof.
  intros Hrep Hp Hw Hnd Hin. unfold free_frames.
  apply (wp_for (λ i s', cm_only s s' ∧ cm_rep (cms s') (foldr delete runs (take (Z.to_nat i) fs))));
    [apply lengthZ_nonneg|split; [apply cm_only_refl|done]| |].
  - intros i s' Hi [Ho Hrep']. destruct (lookupZ_lt fs i Hi) as [f Hf].
    wp_step. rewrite <- (cm_only_page s s' t Ho).
    eapply pt_read_spec; [by rewrite (cm_only_page s s' t Ho)|by eapply cm_only_words|done|].
    rewrite lookupZ_nat in Hf by lia.
    destruct (Hin f) as [k Hk]; [by eapply list_elem_of_lookup_2|].
    eapply wp_conseq; [eapply (free_page_spec _ _ _ f k); [done|]| |done].
    + rewrite lookup_foldr_delete. rewrite decide_False; [done|].
      intros (j & Hj & Hlt)%elem_of_take. assert (j = Z.to_nat i) by (by eapply NoDup_lookup). lia.
    + intros [] s2 [Ho2 Hrep2]. split; [by eapply cm_only_trans|].
      replace (Z.to_nat (i + 1)) with (S (Z.to_nat i)) by lia.
      rewrite (take_S_r _ _ f) by done.
      rewrite (foldr_delete_perm _ _ (f :: take (Z.to_nat i) fs)); [exact Hrep2|].
      by rewrite Permutation_app_comm.
  - intros s' [? Hrep']. split; [done|]. unfold lengthZ in Hrep'. by rewrite Nat2Z.id, firstn_all in Hrep'.
Qed.

(** ** as_destroy *)

Lemma table_words s runs va n t fs : table_rep s runs va n t fs → words s t fs.
Proof. intros [_ _ _ _ Hf] i f Hi. by apply Hf. Qed.

Lemma table_elem_run s runs va n t fs f :
  table_rep s runs va n t fs → f ∈ fs → runs !! f = Some 1.
Proof.
  intros [_ _ _ _ Hf] [i Hi]%list_elem_of_lookup_1. eapply (Hf (Z.of_nat i)).
  by rewrite lookupZ_of_nat.
Qed.

Lemma still_there (runs : gmap Z Z) l e k :
  runs !! e = Some k → e ∉ l → foldr delete runs l !! e = Some k.
Proof. intros. rewrite lookup_foldr_delete. by destruct (decide (e ∈ l)). Qed.

(** The owned pages, in the order as_destroy frees them. *)
Lemma owned_order o :
  NoDup (owned o) →
  NoDup (o_f1 o) ∧ NoDup (o_f2 o) ∧ NoDup (o_fs o) ∧
  (∀ f, f ∈ o_f2 o → f ∉ o_f1 o) ∧ (∀ f, f ∈ o_fs o → f ∉ o_f2 o ++ o_f1 o) ∧
  o_t1 o ∉ o_fs o ++ o_f2 o ++ o_f1 o ∧
  o_t2 o ∉ o_t1 o :: o_fs o ++ o_f2 o ++ o_f1 o ∧
  o_ts o ∉ o_t2 o :: o_t1 o :: o_fs o ++ o_f2 o ++ o_f1 o.
Proof.
  unfold owned. rewrite !NoDup_cons, !NoDup_app. set_solver.
Qed.

Lemma as_destroy_spec X s runs a x o :
  cm_rep (cms s) runs → aspaces s !! a = Some x → as_rep s runs x o →
  wpx X (as_destroy a)
    (λ _ s', cm_rep (cms s') (foldr delete runs (owned o)) ∧
       ∃ s1, cm_only s s1 ∧ s' = set_aspaces (delete a) s1) (λ _ _, False) s.
Proof.
  intros Hrep Ha [H1 H2 H3 Hnd]. unfold as_destroy, read_as.
  destruct (owned_order o Hnd) as (N1 & N2 & N3 & A2 & A3 & At1 & At2 & At3).
  pose proof (page_range _ _ _ _ Hrep (tr_run _ _ _ _ _ _ H1)) as P1.
  pose proof (page_range _ _ _ _ Hrep (tr_run _ _ _ _ _ _ H2)) as P2.
  pose proof (page_range _ _ _ _ Hrep (tr_run _ _ _ _ _ _ H3)) as P3.
  wp_steps. eapply wp_deref; [done|].
  rewrite (tr_addr _ _ _ _ _ _ H1), (tr_addr _ _ _ _ _ _ H2), (tr_addr _ _ _ _ _ _ H3).
  rewrite <- (tr_len _ _ _ _ _ _ H1), <- (tr_len _ _ _ _ _ _ H2), <- (tr_len _ _ _ _ _ _ H3).
  wp_step. eapply wp_conseq; [apply (free_frames_spec _ s runs); try done| |done].
  { by eapply table_words. } { intros f Hf. eexists. by eapply (table_elem_run _ _ _ _ _ _ f H1). }
  intros [] s1 [O1 R1]. rewrite <- (cm_only_page s s1 (o_t2 o) O1) in *.
  wp_step. eapply wp_conseq; [apply (free_frames_spec _ s1 (foldr delete runs (o_f1 o))); try done| |done].
  { eapply cm_only_words; [done|by eapply table_words]. }
  { intros f Hf. eexists. eapply still_there; [by eapply (table_elem_run _ _ _ _ _ _ f H2)|by apply A2]. }
  intros [] s2 [O2 R2]. pose proof (cm_only_trans _ _ _ O1 O2) as O2'.
  rewrite <- foldr_delete_app in R2. rewrite <- (cm_only_page s s2 (o_ts o) O2') in *.
  wp_step. eapply wp_conseq; [apply (free_frames_spec _ s2 (foldr delete runs (o_f2 o ++ o_f1 o))); try done| |done].
  { eapply cm_only_words; [done|by eapply table_words]. }
  { intros f Hf. eexists. eapply still_there; [by eapply (table_elem_run _ _ _ _ _ _ f H3)|by apply A3]. }
  intros [] s3 [O3 R3]. pose proof (cm_only_trans _ _ _ O2' O3) as O3'. rewrite <- foldr_delete_app in R3.
  rewrite <- (cm_only_page s s3 (o_t1 o) O3').
  wp_step. eapply wp_conseq; [eapply (free_page_spec _ s3); [done|]| |done].
  { eapply still_there; [apply H1|done]. }
  intros [] s4 [O4 R4]. pose proof (cm_only_trans _ _ _ O3' O4) as O4'.
  rewrite (cm_only_page s s1 (o_t2 o) O1), <- (cm_only_page s s4 (o_t2 o) O4').
  wp_step. eapply wp_conseq; [eapply (free_page_spec _ s4); [done|]| |done].
  { change (delete (o_t1 o) (foldr delete runs ?l)) with (foldr delete runs (o_t1 o :: l)).
    eapply still_there; [apply H2|done]. }
  intros [] s5 [O5 R5]. pose proof (cm_only_trans _ _ _ O4' O5) as O5'.
  rewrite (cm_only_page s s2 (o_ts o) O2'), <- (cm_only_page s s5 (o_ts o) O5').
  wp_step. eapply wp_conseq; [eapply (free_page_spec _ s5); [done|]| |done].
  { change (delete (o_t2 o) (delete (o_t1 o) (foldr delete runs ?l)))
      with (foldr delete runs (o_t2 o :: o_t1 o :: l)). eapply still_there; [apply H3|done]. }
  intros [] s6 [O6 R6]. wp_step. split; [|exists s6; split; [by eapply cm_only_trans|done]].
  rewrite (foldr_delete_perm _ (owned o) (o_ts o :: o_t2 o :: o_t1 o :: o_fs o ++ o_f2 o ++ o_f1 o)); [exact R6|].
  unfold owned. solve_Permutation.
Qed.

(** ** Free pages *)

Definition page_free (runs : gmap Z Z) (p : Z) : Prop := map_Forall (λ r n, ¬ in_run r n p) runs.
#[global] Instance page_free_dec runs p : Decision (page_free runs p).
Proof. unfold page_free. apply _. Defined.

Definition free_pages (c : cmstate) (runs : gmap Z Z) : list Z :=
  filter (page_free runs) (seqZ (num_of_coremap_pages c) (num_of_pages c - num_of_coremap_pages c)).

Lemma window_free c runs p : cm_rep c runs → window c p 1 ↔ p ∈ free_pages c runs.
Proof.
  intros Hrep. unfold free_pages. rewrite list_elem_of_filter, elem_of_seqZ. unfold window, in_run, page_free.
  split.
  - intros (Hlo & Hhi & Hw). destruct (Hw p) as (e & He & Hu); [lia|]. split; [|lia].
    intros r n Hr Hin. unfold in_run in Hin. destruct (decide (p = r)) as [->|].
    + rewrite (cr_head _ _ Hrep _ _ Hr) in He. by injection He as <-.
    + rewrite (cr_tail _ _ Hrep _ _ p Hr) in He by lia. by injection He as <-.
  - intros [Hfree Hr]. split_and!; [lia..|]. intros i Hi. replace i with p by lia.
    exists (mkCE 0 0). split; [|done]. apply (cr_free _ _ Hrep); [lia|]. intros r n Hrn. by apply Hfree.
Qed.

Lemma filter_ne_id (l : list Z) p : p ∉ l → filter (λ q, q ≠ p) l = l.
Proof.
  induction l as [|q l IH]; [done|]. intros [Hne Hp]%not_elem_of_cons.
  rewrite filter_cons_True by done. by rewrite IH.
Qed.

Lemma length_filter_ne (l : list Z) p :
  NoDup l → p ∈ l → S (length (filter (λ q, q ≠ p) l)) = length l.
Proof.
  induction 1 as [|q l Hq Hnd IH]; intros Hin; [by apply not_elem_of_nil in Hin|].
  apply elem_of_cons in Hin as [->|Hin].
  - rewrite filter_cons_False by naive_solver. simpl. by rewrite filter_ne_id.
  - rewrite filter_cons_True by (intros ->; done). simpl. f_equal. by apply IH.
Qed.

(** Taking one free page leaves one less. *)
Lemma free_pages_take c c' runs p :
  same_layout c c' → p ∈ free_pages c runs → runs !! p = None →
  S (length (free_pages c' (<[p := 1]> runs))) = length (free_pages c runs).
Proof.
  intros [l ->] Hp Hnone. rewrite <- (length_filter_ne (free_pages c runs) p); [|apply NoDup_filter, NoDup_seqZ|done].
  do 2 f_equal. unfold free_pages. simpl. rewrite list_filter_filter.
  apply list_filter_iff. intros q. unfold page_free. rewrite map_Forall_insert by done.
  unfold in_run. split; intros [? ?]; split; done || lia.
Qed.

(** ** Mapping the frames of a table *)

Definition add_frames (fs : list Z) (runs : gmap Z Z) : gmap Z Z :=
  foldr (λ f m, <[f := 1]> m) runs fs.

Lemma lookup_add_frames fs runs p :
  add_frames fs runs !! p = if decide (p ∈ fs) then Some 1 else runs !! p.
Proof.
  unfold add_frames. induction fs as [|f fs IH]; cbn [foldr].
  { destruct (decide (p ∈ [])) as [Hin|]; [|done]. by apply not_elem_of_nil in Hin. }
  destruct (decide (p = f)) as [->|Hne].
  - rewrite lookup_insert_eq. destruct (decide (f ∈ f :: fs)) as [|Hin]; [done|]. destruct Hin. by left.
  - rewrite lookup_insert_ne, IH by done.
    destruct (decide (p ∈ fs)) as [H1|H1], (decide (p ∈ f :: fs)) as [H2|H2]; try done.
    + destruct H2. by right.
    + apply elem_of_cons in H2. naive_solver.
Qed.

Lemma add_frames_snoc fs f runs :
  f ∉ fs → add_frames (fs ++ [f]) runs = <[f := 1]> (add_frames fs runs).
Proof.
  intros Hf. apply map_eq. intros p. destruct (decide (p = f)) as [->|Hne].
  - rewrite lookup_insert_eq, lookup_add_frames. destruct (decide (f ∈ fs ++ [f])); [done|set_solver].
  - rewrite lookup_insert_ne, !lookup_add_frames by done.
    destruct (decide (p ∈ fs ++ [f])), (decide (p ∈ fs)); set_solver.
Qed.

(** The frames [fs] have been entered in the table at page [t], each zeroed, and
    no other allocated page has changed. *)
Record mapped (s : vmstate) (runs : gmap Z Z) (t : Z) (fs : list Z) (s' : vmstate) : Prop := {
  mp_same : vm_same s s';
  mp_rep : cm_rep (cms s') (add_frames fs runs);
  mp_nodup : NoDup fs;
  mp_fresh : ∀ f, f ∈ fs → runs !! f = None;
  mp_words : words s' t fs;
  mp_zero : ∀ f a, f ∈ fs → region s f 1 a → pmem s' a = 0;
  mp_kept : ∀ p k a, runs !! p = Some k → p ≠ t → region s p k a → pmem s' a = pmem s a;
  mp_free : (length fs + length (free_pages (cms s') (add_frames fs runs)) =
             length (free_pages (cms s) runs))%nat
}.

(** The memory once frame [f] has been entered as entry [i] of table [t] and
    zeroed. *)
Definition enter_frame (s : vmstate) (t i f : Z) (m : Z → Z) : Z → Z :=
  λ a, if decide (page s f ≤ a < page s f + 1 * PAGE_SIZE) then 0
       else if decide (a = page s t + 4 * i) then page s f else m a.

Section MapStep.
Context (s s1 : vmstate) (runs : gmap Z Z) (t m f : Z) (fs : list Z) (c2 : cmstate).
Context (Hmap : mapped s runs t fs s1) (Ht : runs !! t = Some m).
Context (Hfit : 4 * (lengthZ fs + 1) ≤ m * PAGE_SIZE).
Context (Hnew : add_frames fs runs !! f = None) (Hfree : f ∈ free_pages (cms s1) (add_frames fs runs)).
Context (Hlay : same_layout (cms s1) c2) (Hrep2 : cm_rep c2 (<[f := 1]> (add_frames fs runs))).

Lemma map_step_runs : f ∉ fs ∧ runs !! f = None ∧ f ≠ t.
Proof.
  rewrite lookup_add_frames in Hnew. destruct (decide (f ∈ fs)); [done|].
  split_and!; [done..|]. intros ->. congruence.
Qed.

(** Different allocations of the new state do not share a word. *)
Lemma map_step_apart p k q k' a :
  <[f := 1]> (add_frames fs runs) !! p = Some k → <[f := 1]> (add_frames fs runs) !! q = Some k' →
  p ≠ q → region s p k a → region s q k' a → False.
Proof.
  intros Hp Hq Hne Ha Hb.
  assert (∀ r, page s r = page (set_cms c2 s1) r) as Hpg.
  { intros r. rewrite <- (vm_same_page s s1 r (mp_same _ _ _ _ _ Hmap)). symmetry.
    by apply same_layout_page. }
  unfold region in Ha, Hb. rewrite Hpg in Ha, Hb.
  exact (regions_disjoint (set_cms c2 s1) _ p k q k' a Hrep2 Hp Hq Hne Ha Hb).
Qed.

Lemma map_step_lookup p k :
  runs !! p = Some k → <[f := 1]> (add_frames fs runs) !! p = Some k.
Proof.
  intros Hp. destruct map_step_runs as (Hf1 & Hf2 & _). rewrite lookup_insert_ne by congruence.
  rewrite lookup_add_frames. destruct (decide (p ∈ fs)) as [Hin|]; [|done].
  rewrite (mp_fresh _ _ _ _ _ Hmap _ Hin) in Hp. done.
Qed.

Lemma map_step_frame g : g ∈ fs → <[f := 1]> (add_frames fs runs) !! g = Some 1.
Proof.
  intros Hg. destruct map_step_runs as (Hf1 & _ & _). rewrite lookup_insert_ne by (intros ->; done).
  rewrite lookup_add_frames. by destruct (decide (g ∈ fs)).
Qed.

Lemma map_step_word k : 0 ≤ k ≤ lengthZ fs → region s t m (page s t + 4 * k).
Proof. unfold region. lia. Qed.

Lemma map_step :
  mapped s runs t (fs ++ [f])
    (set_pmem (enter_frame s t (lengthZ fs) f (pmem s1)) (set_cms c2 s1)).
Proof.
  destruct map_step_runs as (Hf1 & Hf2 & Hft). set (s2 := set_pmem _ _).
  destruct (Hmap) as [Hsame Hrep Hnd Hfresh Hw Hz Hk Hcount].
  pose proof (lookup_insert_eq (add_frames fs runs) f 1) as Hff.
  pose proof (map_step_lookup t m Ht) as Htt. pose proof (lengthZ_nonneg fs) as Hl0.
  assert (∀ r, page s2 r = page s r) as Hpg.
  { intros r. rewrite <- (vm_same_page s s1 r Hsame). by apply same_layout_page. }
  assert (∀ p k a, <[f := 1]> (add_frames fs runs) !! p = Some k → p ≠ f → p ≠ t →
    region s p k a → pmem s2 a = pmem s1 a) as Hother.
  { intros p k a Hp Hpf Hpt Ha. simpl. unfold enter_frame. rewrite decide_False.
    - rewrite decide_False; [done|]. intros ->.
      eapply (map_step_apart p k t m); [done..|]. apply map_step_word. lia.
    - intros Hb. by eapply (map_step_apart p k f 1). }
  constructor.
  - destruct Hsame as (? & ? & ? & ? & ? & ?). split_and!; try done. by eapply same_layout_trans.
  - by rewrite add_frames_snoc.
  - apply NoDup_app. split_and!; [done| |apply NoDup_singleton]. set_solver.
  - intros g [Hg|Hg%list_elem_of_singleton]%elem_of_app; [by apply Hfresh|by subst g].
  - intros k g Hg. rewrite !Hpg. simpl. unfold enter_frame.
    pose proof (lookupZ_Some_range _ _ _ Hg) as Hr. rewrite lengthZ_app in Hr.
    change (lengthZ [f]) with 1 in Hr.
    rewrite decide_False.
    2: { intros Hb. eapply (map_step_apart t m f 1); [done..| |exact Hb]. apply map_step_word. lia. }
    destruct (decide (k = lengthZ fs)) as [->|Hkl].
    + rewrite decide_True by done. rewrite lookupZ_app_r, Z.sub_diag in Hg by lia. by injection Hg as ->.
    + rewrite decide_False by lia. rewrite lookupZ_app_l in Hg by lia.
      rewrite <- !(vm_same_page s s1) by done. by apply Hw.
  - intros g a [Hg|Hg%list_elem_of_singleton]%elem_of_app Ha.
    + rewrite (Hother g 1 a); [by eapply Hz|by apply map_step_frame|congruence| |done].
      intros ->. rewrite (Hfresh _ Hg) in Ht. done.
    + subst g. simpl. unfold enter_frame. by rewrite decide_True.
  - intros p k a Hp Hpt Ha. rewrite (Hother p k a); [by eapply Hk|by apply map_step_lookup|congruence|done|done].
  - rewrite add_frames_snoc, length_app by done. simpl.
    pose proof (free_pages_take (cms s1) c2 (add_frames fs runs) f Hlay Hfree Hnew). simpl. lia.
Qed.
End MapStep.

Lemma mapped_nil s runs t : cm_rep (cms s) runs → mapped s runs t [] s.
Proof.
  intros Hrep. constructor; try done; [apply vm_same_refl|apply NoDup_nil_2|..].
  - intros f Hf. by apply not_elem_of_nil in Hf.
  - intros i f Hf%lookupZ_Some_range. change (lengthZ (@nil Z)) with 0 in Hf. lia.
  - intros f a Hf. by apply not_elem_of_nil in Hf.
Qed.

Lemma map_frames_spec X s runs t m n :
  cm_rep (cms s) runs → runs !! t = Some m → 0 ≤ n → 4 * n ≤ m * PAGE_SIZE →
  wpx X (map_frames (PADDR_TO_KVADDR (page s t)) n)
    (λ _ s', ∃ fs, lengthZ fs = n ∧ mapped s runs t fs s')
    (λ e s', e = ENOMEM ∧ Z.of_nat (length (free_pages (cms s) runs)) < n) s.
Proof.
  intros Hrep Ht Hn Hfit. pose proof (page_range _ _ _ _ Hrep Ht) as Hp. unfold map_frames.
  apply (wp_for (λ i s', ∃ fs, lengthZ fs = i ∧ mapped s runs t fs s')); [done| | |done].
  { exists []. split; [done|by apply mapped_nil]. }
  intros i s1 Hi (fs & Hlen & Hmap). pose proof (mp_rep _ _ _ _ _ Hmap) as Hrep1.
  wp_step. apply wp_cm. eapply wp_conseq; [by apply (getppages_spec _ _ (add_frames fs runs) 1)| |done].
  intros pa c2 Hal. unfold cm_allocated in Hal. wp_step.
  assert (page s1 t = page s t) as Hpt by (apply vm_same_page, Hmap).
  unfold pt_write. pose proof (kvaddr_nonzero _ Hp).
  destruct (Z.eqb_spec (PADDR_TO_KVADDR (page s t)) 0); [done|]. wp_step.
  rewrite pte_addr_page by done. destruct (decide (pa = 0)) as [->|Hpa].
  - simpl. wp_step. split; [done|]. destruct Hal as [-> Hno].
    assert (free_pages (cms s1) (add_frames fs runs) = []) as Hnil.
    { apply elem_of_nil_inv. intros p Hin. apply (Hno p). by apply (window_free _ (add_frames fs runs)). }
    pose proof (mp_free _ _ _ _ _ Hmap) as Hc. rewrite Hnil in Hc. unfold lengthZ in Hlen. simpl in Hc. lia.
  - destruct Hal as (f & -> & Hwin & _ & Hnone & Hrep2 & Hlay).
    destruct (Z.eqb_spec (page_addr (cms s1) f) 0); [done|]. unfold as_zero_region. wp_step.
    exists (fs ++ [f]). rewrite lengthZ_app. split; [change (lengthZ [f]) with 1; lia|].
    assert (page_addr (cms s1) f = page s f) as Hpf by (apply (vm_same_page s s1), Hmap).
    rewrite Hpf, <- Hlen. simpl. eapply map_step; try done.
    + rewrite Hlen. unfold PAGE_SIZE in *. lia.
    + by apply window_free.
Qed.

(** ** as_prepare_load *)

Lemma pagetable_one n : 0 < n ≤ 1024 → pagetable_pages n = 1.
Proof.
  intros Hn. unfold pagetable_pages, sizeof_pagetable_entry, u32. rewrite Z.mod_small by lia.
  destruct (ROUNDUP_pages (n * 4)) as [? ?]; [lia|]. unfold PAGE_SIZE in *. nia.
Qed.

Lemma new_table_spec X s runs a x n set :
  cm_rep (cms s) runs → aspaces s !! a = Some x → 0 < n ≤ 2 ^ 20 →
  wpx X (new_table a n set)
    (λ t s', ∃ r c, t = PADDR_TO_KVADDR (page s r) ∧ runs !! r = None ∧
       same_layout (cms s) c ∧ cm_rep c (<[r := pagetable_pages n]> runs) ∧
       s' = set_aspaces <[a := set t x]> (set_cms c s) ∧
       (n ≤ 1024 → S (length (free_pages c (<[r := pagetable_pages n]> runs))) =
                   length (free_pages (cms s) runs)))
    (λ e _, e = ENOMEM ∧ (n ≤ 1024 → length (free_pages (cms s) runs) = 0%nat)) s.
Proof.
  intros Hrep Ha Hn. destruct (pagetable_fits n Hn) as [Hfit Hpos].
  assert (pagetable_pages n < 2 ^ 31) as Hsmall.
  { unfold pagetable_pages, sizeof_pagetable_entry, u32. rewrite Z.mod_small by lia.
    destruct (ROUNDUP_pages (n * 4)) as [? ?]; [lia|]. unfold PAGE_SIZE in *. lia. }
  unfold new_table, pagetable_alloc. wp_step. apply wp_cm.
  eapply wp_conseq; [apply (alloc_kpages_spec _ (cms s) runs (pagetable_pages n)); [done|lia]| |done].
  intros t c Ht. cbv beta in Ht. unfold read_as, write_as. wp_steps. eapply wp_deref; [done|]. wp_steps.
  case_decide as Hne.
  - subst t. simpl. wp_step. split; [done|]. intros Hle. destruct Ht as [-> Hno].
    rewrite pagetable_one in Hno by lia. destruct (free_pages (cms s) runs) as [|p l] eqn:E; [done|].
    exfalso. apply (Hno p), (window_free _ runs p Hrep). rewrite E. by left.
  - destruct Ht as (r & -> & Hw & Hnone & Hrep' & Hlay).
    destruct (Z.eqb_spec (PADDR_TO_KVADDR (page_addr (cms s) r)) 0); [done|]. wp_step.
    exists r, c. split_and!; try done. intros Hle. rewrite pagetable_one in * by lia.
    apply free_pages_take; [done| |done]. by apply window_free.
Qed.

Lemma mapped_lookup s runs t fs s' p k :
  mapped s runs t fs s' → runs !! p = Some k → add_frames fs runs !! p = Some k.
Proof.
  intros Hm Hp. rewrite lookup_add_frames. destruct (decide (p ∈ fs)) as [Hin|]; [|done].
  rewrite (mp_fresh _ _ _ _ _ Hm _ Hin) in Hp. done.
Qed.

Lemma mapped_elem s runs t fs s' f :
  mapped s runs t fs s' → f ∈ fs → add_frames fs runs !! f = Some 1.
Proof. intros _ Hf. rewrite lookup_add_frames. by destruct (decide (f ∈ fs)). Qed.

(** The words of a table survive the filling of another one. *)
Lemma mapped_words s runs t fs s' t2 m2 fs2 :
  mapped s runs t fs s' → runs !! t2 = Some m2 → t2 ≠ t → 4 * lengthZ fs2 ≤ m2 * PAGE_SIZE →
  words s t2 fs2 → words s' t2 fs2.
Proof.
  intros Hm Ht2 Hne Hfit Hw i f Hi. pose proof (lookupZ_Some_range _ _ _ Hi).
  rewrite !(vm_same_page s s') by apply Hm.
  rewrite (mp_kept _ _ _ _ _ Hm t2 m2); [by apply Hw|done..|]. unfold region. lia.
Qed.

(** The three tables of an address space are filled one after the other. *)
Section ThreeTables.
Context (s3 s4 s5 s6 : vmstate) (runs3 : gmap Z Z) (r1 r2 r3 n1 n2 n3 : Z) (f1 f2 f3 : list Z).
Context (H1 : runs3 !! r1 = Some (pagetable_pages n1)) (H2 : runs3 !! r2 = Some (pagetable_pages n2))
        (H3 : runs3 !! r3 = Some (pagetable_pages n3)).
Context (Hn1 : 0 < n1 ≤ 2 ^ 20) (Hn2 : 0 < n2 ≤ 2 ^ 20) (Hn3 : 0 < n3 ≤ 2 ^ 20).
Context (Hne : r1 ≠ r2 ∧ r1 ≠ r3 ∧ r2 ≠ r3).
Context (L1 : lengthZ f1 = n1) (L2 : lengthZ f2 = n2) (L3 : lengthZ f3 = n3).
Context (M1 : mapped s3 runs3 r1 f1 s4).
Context (M2 : mapped s4 (add_frames f1 runs3) r2 f2 s5).
Context (M3 : mapped s5 (add_frames f2 (add_frames f1 runs3)) r3 f3 s6).

Definition runs6 : gmap Z Z := add_frames f3 (add_frames f2 (add_frames f1 runs3)).
Definition owner6 : owner := mkOwner r1 f1 r2 f2 r3 f3.

Lemma three_same : vm_same s3 s6.
Proof. eapply vm_same_trans; [apply M1|]. eapply vm_same_trans; [apply M2|apply M3]. Qed.

Lemma three_ext p k : runs3 !! p = Some k → runs6 !! p = Some k.
Proof.
  intros Hp. eapply (mapped_lookup _ _ _ _ _ _ _ M3). eapply (mapped_lookup _ _ _ _ _ _ _ M2).
  by eapply (mapped_lookup _ _ _ _ _ _ _ M1).
Qed.

Lemma three_frames f : f ∈ f1 ++ f2 ++ f3 → runs6 !! f = Some 1 ∧ runs3 !! f = None.
Proof.
  rewrite !elem_of_app. intros [Hf|[Hf|Hf]]; split.
  - eapply (mapped_lookup _ _ _ _ _ _ _ M3). eapply (mapped_lookup _ _ _ _ _ _ _ M2).
    by eapply (mapped_elem _ _ _ _ _ _ M1).
  - by apply (mp_fresh _ _ _ _ _ M1).
  - eapply (mapped_lookup _ _ _ _ _ _ _ M3). by eapply (mapped_elem _ _ _ _ _ _ M2).
  - pose proof (mp_fresh _ _ _ _ _ M2 _ Hf) as E. rewrite lookup_add_frames in E. by case_decide.
  - by eapply (mapped_elem _ _ _ _ _ _ M3).
  - pose proof (mp_fresh _ _ _ _ _ M3 _ Hf) as E. rewrite !lookup_add_frames in E. by repeat case_decide.
Qed.

Lemma three_only p k : runs6 !! p = Some k → p ∈ f1 ++ f2 ++ f3 ∨ runs3 !! p = Some k.
Proof.
  unfold runs6. rewrite !lookup_add_frames, !elem_of_app.
  destruct (decide (p ∈ f3)); [auto|]. destruct (decide (p ∈ f2)); [auto|]. destruct (decide (p ∈ f1)); auto.
Qed.

Lemma three_nodup : NoDup (owned owner6).
Proof.
  unfold owned. simpl. rewrite !NoDup_cons.
  assert (∀ r k, runs3 !! r = Some k → r ∉ f1 ++ f2 ++ f3) as Hr.
  { intros r k Hk Hin. destruct (three_frames _ Hin). congruence. }
  destruct Hne as (? & ? & ?). rewrite !not_elem_of_cons. split_and!; eauto.
  rewrite !NoDup_app. split_and!; [apply M1| |apply M2| |apply M3].
  - intros f Hf. rewrite not_elem_of_app. split; intros Hin.
    + pose proof (mp_fresh _ _ _ _ _ M2 _ Hin) as E. rewrite lookup_add_frames in E. by case_decide.
    + pose proof (mp_fresh _ _ _ _ _ M3 _ Hin) as E. rewrite !lookup_add_frames in E.
      by repeat case_decide.
  - intros f Hf Hin. pose proof (mp_fresh _ _ _ _ _ M3 _ Hin) as E. rewrite lookup_add_frames in E.
    by case_decide.
Qed.

Lemma three_tables :
  table_rep s6 runs6 (PADDR_TO_KVADDR (page s3 r1)) n1 r1 f1 ∧
  table_rep s6 runs6 (PADDR_TO_KVADDR (page s3 r2)) n2 r2 f2 ∧
  table_rep s6 runs6 (PADDR_TO_KVADDR (page s3 r3)) n3 r3 f3.
Proof.
  destruct Hne as (? & ? & ?).
  destruct (pagetable_fits _ Hn1), (pagetable_fits _ Hn2).
  pose proof (mapped_lookup _ _ _ _ _ _ _ M1 H1). pose proof (mapped_lookup _ _ _ _ _ _ _ M1 H2).
  assert (words s6 r1 f1) as W1.
  { eapply (mapped_words s5 _ _ _ _ _ (pagetable_pages n1)); [done|by eapply mapped_lookup|done|lia|].
    eapply (mapped_words s4); [done..|lia|apply M1]. }
  assert (words s6 r2 f2) as W2.
  { eapply (mapped_words s5 _ _ _ _ _ (pagetable_pages n2)); [done|by eapply mapped_lookup|done|lia|apply M2]. }
  assert (∀ r, page s6 r = page s3 r) as Hpg by (intros r; apply vm_same_page, three_same).
  assert (∀ l i (f : Z), l.[i] = Some f → f ∈ l) as Hel.
  { intros l i f Hi. pose proof (lookupZ_Some_range _ _ _ Hi). rewrite lookupZ_nat in Hi by lia.
    by eapply list_elem_of_lookup_2. }
  split_and!; constructor; rewrite ?Hpg; try done; try (by apply three_ext);
    intros i f Hi; (split; [apply three_frames; rewrite !elem_of_app; eauto|]); rewrite <- !Hpg; eauto.
  by apply (mp_words _ _ _ _ _ M3).
Qed.

Lemma three_zero f a : f ∈ f1 ++ f2 ++ f3 → region s3 f 1 a → pmem s6 a = 0.
Proof.
  assert (∀ r, page s4 r = page s3 r) as P4 by (intros r; apply vm_same_page, M1).
  assert (∀ r, page s5 r = page s3 r) as P5.
  { intros r. rewrite <- P4. apply vm_same_page, M2. }
  assert (∀ f k, runs3 !! f = None → runs3 !! k ≠ None → f ≠ k) as Hd by congruence.
  unfold region. intros Hin Ha. pose proof (three_frames f Hin) as [_ Hf3].
  rewrite !elem_of_app in Hin. destruct Hin as [Hf|[Hf|Hf]].
  - rewrite (mp_kept _ _ _ _ _ M3 f 1), (mp_kept _ _ _ _ _ M2 f 1); unfold region; rewrite ?P4, ?P5; try done.
    + by apply (mp_zero _ _ _ _ _ M1 f).
    + by eapply mapped_elem.
    + apply Hd; congruence.
    + eapply mapped_lookup; [done|]. by eapply mapped_elem.
    + apply Hd; congruence.
  - rewrite (mp_kept _ _ _ _ _ M3 f 1); unfold region; rewrite ?P4, ?P5; try done.
    + apply (mp_zero _ _ _ _ _ M2 f); [done|]. unfold region. by rewrite P4.
    + by eapply mapped_elem.
    + apply Hd; congruence.
  - apply (mp_zero _ _ _ _ _ M3 f); [done|]. unfold region. by rewrite P5.
Qed.

Lemma three_kept p k a :
  runs3 !! p = Some k → p ≠ r1 → p ≠ r2 → p ≠ r3 → region s3 p k a → pmem s6 a = pmem s3 a.
Proof.
  intros Hp Hp1 Hp2 Hp3 Ha.
  assert (∀ r, page s4 r = page s3 r) as P4 by (intros r; apply vm_same_page, M1).
  assert (∀ r, page s5 r = page s3 r) as P5.
  { intros r. rewrite <- P4. apply vm_same_page, M2. }
  pose proof (mapped_lookup _ _ _ _ _ _ _ M1 Hp) as Hk1.
  pose proof (mapped_lookup _ _ _ _ _ _ _ M2 Hk1) as Hk2.
  rewrite (mp_kept _ _ _ _ _ M3 p k), (mp_kept _ _ _ _ _ M2 p k), (mp_kept _ _ _ _ _ M1 p k);
    unfold region in *; by rewrite ?P4, ?P5.
Qed.
End ThreeTables.

(** The pages an address space takes when each table fits in one page. *)
Definition pages_needed (x : addrspace) : Z := 3 + as_npages1 x + as_npages2 x + DUMBVM_STACKPAGES.

(** Address space [x] now has tables and zeroed frames of its own, all of them
    pages that were free, and no allocated page has changed. *)
Record prepared (s : vmstate) (runs : gmap Z Z) (a : Z) (x : addrspace)
    (s' : vmstate) (runs' : gmap Z Z) (x' : addrspace) (o : owner) : Prop := {
  pr_rep : cm_rep (cms s') runs';
  pr_layout : same_layout (cms s) (cms s');
  pr_as : as_rep s' runs' x' o;
  pr_fields : as_vbase1 x' = as_vbase1 x ∧ as_npages1 x' = as_npages1 x ∧
              as_vbase2 x' = as_vbase2 x ∧ as_npages2 x' = as_npages2 x;
  pr_spaces : aspaces s' = <[a := x']> (aspaces s);
  pr_ext : ∀ p k, runs !! p = Some k → runs' !! p = Some k;
  pr_only : ∀ p k, runs' !! p = Some k → p ∈ owned o ∨ runs !! p = Some k;
  pr_fresh : ∀ p, p ∈ owned o → runs !! p = None;
  pr_free : as_npages1 x ≤ 1024 → as_npages2 x ≤ 1024 →
    Z.of_nat (length (free_pages (cms s') runs')) + pages_needed x =
    Z.of_nat (length (free_pages (cms s) runs));
  pr_zero : ∀ f w, f ∈ o_f1 o ++ o_f2 o ++ o_fs o → region s f 1 w → pmem s' w = 0;
  pr_kept : ∀ p k w, runs !! p = Some k → region s p k w → pmem s' w = pmem s w;
  pr_env : tlb s' = tlb s ∧ curproc_as s' = curproc_as s ∧ loaded s' = loaded s
}.

Lemma fill_tables_spec X s3 runs3 r1 r2 r3 n1 n2 n3 :
  cm_rep (cms s3) runs3 → runs3 !! r1 = Some (pagetable_pages n1) →
  runs3 !! r2 = Some (pagetable_pages n2) → runs3 !! r3 = Some (pagetable_pages n3) →
  0 < n1 ≤ 2 ^ 20 → 0 < n2 ≤ 2 ^ 20 → 0 < n3 ≤ 2 ^ 20 →
  wpx X (map_frames (PADDR_TO_KVADDR (page s3 r1)) n1 ;;
         map_frames (PADDR_TO_KVADDR (page s3 r2)) n2 ;;
         map_frames (PADDR_TO_KVADDR (page s3 r3)) n3)
    (λ _ s6, ∃ f1 f2 f3 s4 s5, lengthZ f1 = n1 ∧ lengthZ f2 = n2 ∧ lengthZ f3 = n3 ∧
       mapped s3 runs3 r1 f1 s4 ∧ mapped s4 (add_frames f1 runs3) r2 f2 s5 ∧
       mapped s5 (add_frames f2 (add_frames f1 runs3)) r3 f3 s6)
    (λ e _, e = ENOMEM ∧ Z.of_nat (length (free_pages (cms s3) runs3)) < n1 + n2 + n3) s3.
Proof.
  intros Hrep H1 H2 H3 Hn1 Hn2 Hn3.
  destruct (pagetable_fits _ Hn1), (pagetable_fits _ Hn2), (pagetable_fits _ Hn3).
  wp_step. eapply wp_conseq; [apply (map_frames_spec _ s3 runs3 r1 (pagetable_pages n1)); done || lia| |].
  2: { intros e s4 [-> Hf]. split; [done|lia]. }
  intros [] s4 (f1 & L1 & M1). pose proof (mp_free _ _ _ _ _ M1) as C1. unfold lengthZ in L1.
  rewrite <- !(vm_same_page s3 s4) by apply M1. wp_step.
  eapply wp_conseq; [apply (map_frames_spec _ s4 (add_frames f1 runs3) r2 (pagetable_pages n2));
    [apply M1|by eapply mapped_lookup|lia|lia]| |].
  2: { intros e s5 [-> Hf]. split; [done|lia]. }
  intros [] s5 (f2 & L2 & M2). pose proof (mp_free _ _ _ _ _ M2) as C2. unfold lengthZ in L2.
  rewrite <- (vm_same_page s4 s5) by apply M2.
  eapply wp_conseq; [apply (map_frames_spec _ s5 (add_frames f2 (add_frames f1 runs3)) r3 (pagetable_pages n3));
    [apply M2| |lia|lia]| |].
  { eapply mapped_lookup; [done|]. by eapply mapped_lookup. }
  - intros [] s6 (f3 & L3 & M3). exists f1, f2, f3, s4, s5. done.
  - intros e s6 [-> Hf]. split; [done|lia].
Qed.

Definition three_runs (r1 r2 r3 n1 n2 n3 : Z) (runs : gmap Z Z) : gmap Z Z :=
  <[r3 := pagetable_pages n3]> (<[r2 := pagetable_pages n2]> (<[r1 := pagetable_pages n1]> runs)).

Lemma three_runs_lookup r1 r2 r3 n1 n2 n3 runs :
  r1 ≠ r2 ∧ r1 ≠ r3 ∧ r2 ≠ r3 →
  three_runs r1 r2 r3 n1 n2 n3 runs !! r1 = Some (pagetable_pages n1) ∧
  three_runs r1 r2 r3 n1 n2 n3 runs !! r2 = Some (pagetable_pages n2) ∧
  three_runs r1 r2 r3 n1 n2 n3 runs !! r3 = Some (pagetable_pages n3).
Proof.
  intros (? & ? & ?). unfold three_runs. split_and!; by rewrite ?lookup_insert_ne, lookup_insert_eq by done.
Qed.

Lemma prepared_tables s s3 s4 s5 s6 runs a x r1 r2 r3 f1 f2 f3 :
  let runs3 := three_runs r1 r2 r3 (as_npages1 x) (as_npages2 x) DUMBVM_STACKPAGES runs in
  let x3 := mkAS (as_vbase1 x) (PADDR_TO_KVADDR (page s3 r1)) (as_npages1 x) (as_vbase2 x)
              (PADDR_TO_KVADDR (page s3 r2)) (as_npages2 x) (PADDR_TO_KVADDR (page s3 r3)) in
  r1 ≠ r2 ∧ r1 ≠ r3 ∧ r2 ≠ r3 → runs !! r1 = None ∧ runs !! r2 = None ∧ runs !! r3 = None →
  same_layout (cms s) (cms s3) → pmem s3 = pmem s → aspaces s3 = <[a := x3]> (aspaces s) →
  tlb s3 = tlb s ∧ curproc_as s3 = curproc_as s ∧ loaded s3 = loaded s →
  0 < as_npages1 x ≤ 2 ^ 20 → 0 < as_npages2 x ≤ 2 ^ 20 →
  lengthZ f1 = as_npages1 x → lengthZ f2 = as_npages2 x → lengthZ f3 = DUMBVM_STACKPAGES →
  mapped s3 runs3 r1 f1 s4 → mapped s4 (add_frames f1 runs3) r2 f2 s5 →
  mapped s5 (add_frames f2 (add_frames f1 runs3)) r3 f3 s6 →
  (as_npages1 x ≤ 1024 → as_npages2 x ≤ 1024 →
     (3 + length (free_pages (cms s3) runs3) = length (free_pages (cms s) runs))%nat) →
  prepared s runs a x s6 (runs6 runs3 f1 f2 f3) x3 (owner6 r1 r2 r3 f1 f2 f3).
Proof.
  intros runs3 x3 Hne (E1 & E2 & E3) Lay Hpm Hsp (T1 & T2 & T3) Hn1 Hn2 L1 L2 L3 M1 M2 M3 Hfree.
  destruct (three_runs_lookup r1 r2 r3 (as_npages1 x) (as_npages2 x) DUMBVM_STACKPAGES runs Hne) as (R1 & R2 & R3).
  assert (0 < DUMBVM_STACKPAGES ≤ 2 ^ 20) as Hn3 by done.
  assert (∀ p k, runs !! p = Some k → runs3 !! p = Some k ∧ p ≠ r1 ∧ p ≠ r2 ∧ p ≠ r3) as Hold.
  { intros p k Hp. assert (p ≠ r1 ∧ p ≠ r2 ∧ p ≠ r3) as (? & ? & ?) by (split_and!; congruence).
    unfold runs3, three_runs. by rewrite !lookup_insert_ne by done. }
  assert (∀ r, page s3 r = page s r) as Hpg by (intros r; by apply same_layout_page).
  destruct (three_same _ _ _ _ _ _ _ _ _ _ _ M1 M2 M3) as (V1 & V2 & V3 & V4 & V5 & _).
  constructor.
  - apply M3.
  - exact (same_layout_trans _ _ _ Lay V1).
  - destruct (three_tables s3 s4 s5 s6 runs3 r1 r2 r3 _ _ _ f1 f2 f3 R1 R2 R3 Hn1 Hn2 Hn3 Hne L1 L2 L3 M1 M2 M3)
      as (? & ? & ?). constructor; try done. exact (three_nodup s3 s4 s5 s6 runs3 _ _ _ _ _ _ _ _ _ R1 R2 R3 Hne M1 M2 M3).
  - done.
  - congruence.
  - intros p k Hp. apply (three_ext s3 s4 s5 s6 runs3 r1 r2 r3 f1 f2 f3 M1 M2 M3). by apply Hold.
  - intros p k Hp. destruct (three_only runs3 f1 f2 f3 p k Hp) as [Hin|Hr]; [left; by do 3 right|].
    unfold owned. simpl. destruct (decide (p = r1)) as [->|]; [left; by left|].
    destruct (decide (p = r2)) as [->|]; [left; right; by left|].
    destruct (decide (p = r3)) as [->|]; [left; do 2 right; by left|].
    right. unfold runs3, three_runs in Hr. by rewrite !lookup_insert_ne in Hr by done.
  - intros p Hp. apply eq_None_not_Some. intros [k Hk]. destruct (Hold _ _ Hk) as (Hk3 & ? & ? & ?).
    apply elem_of_cons in Hp as [->|Hp]; [done|]. apply elem_of_cons in Hp as [->|Hp]; [done|].
    apply elem_of_cons in Hp as [->|Hp]; [done|].
    destruct (three_frames s3 s4 s5 s6 runs3 r1 r2 r3 f1 f2 f3 M1 M2 M3 p Hp). congruence.
  - intros Hs1 Hs2. specialize (Hfree Hs1 Hs2). unfold pages_needed, runs6. rewrite <- L1, <- L2, <- L3.
    pose proof (mp_free _ _ _ _ _ M1). pose proof (mp_free _ _ _ _ _ M2). pose proof (mp_free _ _ _ _ _ M3).
    unfold lengthZ. lia.
  - intros f w Hf Hw. apply (three_zero s3 s4 s5 s6 runs3 r1 r2 r3 _ _ f1 f2 f3 R2 R3 M1 M2 M3 f w Hf). unfold region in *. by rewrite Hpg.
  - intros p k w Hp Hw. destruct (Hold _ _ Hp) as (Hk3 & ? & ? & ?). rewrite <- Hpm.
    apply (three_kept s3 s4 s5 s6 runs3 r1 r2 r3 f1 f2 f3 M1 M2 M3 p k); try done. unfold region in *. by rewrite Hpg.
  - split_and!; congruence.
Qed.

Lemma as_prepare_load_spec X s runs a x :
  cm_rep (cms s) runs → aspaces s !! a = Some x →
  page_pbase1 x = 0 → page_pbase2 x = 0 → page_stackpbase x = 0 →
  0 < as_npages1 x ≤ 2 ^ 20 → 0 < as_npages2 x ≤ 2 ^ 20 →
  wpx X (as_prepare_load a)
    (λ _ s', ∃ runs' x' o, prepared s runs a x s' runs' x' o)
    (λ e _, e = ENOMEM ∧ (as_npages1 x ≤ 1024 → as_npages2 x ≤ 1024 →
       Z.of_nat (length (free_pages (cms s) runs)) < pages_needed x)) s.
Proof.
  intros Hrep Ha Z1 Z2 Z3 Hn1 Hn2. unfold as_prepare_load, read_as, pages_needed, DUMBVM_STACKPAGES.
  wp_steps. eapply wp_deref; [done|]. rewrite Z1, Z2, Z3.
  do 3 (wp_step; apply wp_kassert; [done|]). wp_step.
  eapply wp_conseq; [by apply (new_table_spec _ s runs a x)| |].
  2: { intros e s1 [-> Hf]. split; [done|]. intros. rewrite Hf by done. lia. }
  intros t1 s1 (r1 & c1 & -> & E1 & Lay1 & Rep1 & -> & F1).
  set (s1 := set_aspaces _ _). wp_step.
  assert (aspaces s1 !! a = Some (set_pbase1 (PADDR_TO_KVADDR (page s r1)) x)) as Ha1 by apply lookup_insert_eq.
  eapply wp_conseq; [by apply (new_table_spec _ s1 (<[r1 := pagetable_pages (as_npages1 x)]> runs) a _ _ _ Rep1 Ha1)| |].
  2: { intros e s2 [-> Hf]. split; [done|]. intros. simpl in Hf. rewrite Hf in F1 by done. lia. }
  intros t2 s2 (r2 & c2 & -> & E2 & Lay2 & Rep2 & -> & F2). simpl in Lay2, F2.
  set (s2 := set_aspaces _ (set_cms c2 s1)). wp_step.
  assert (aspaces s2 !! a = Some (set_pbase2 (PADDR_TO_KVADDR (page s1 r2))
    (set_pbase1 (PADDR_TO_KVADDR (page s r1)) x))) as Ha2 by apply lookup_insert_eq.
  eapply wp_conseq; [apply (new_table_spec _ s2 _ a _ 12 set_pstack Rep2 Ha2); lia| |].
  2: { intros e s3 [-> Hf]. split; [done|]. intros. simpl in Hf. rewrite Hf in F2 by done. lia. }
  intros t3 s3 (r3 & c3 & -> & E3 & Lay3 & Rep3 & -> & F3). simpl in Lay3, F3.
  apply lookup_insert_None in E2 as [E2 N12]. apply lookup_insert_None in E3 as [E3 N23].
  apply lookup_insert_None in E3 as [E3 N13].
  set (runs3 := <[r3 := _]> _) in *. set (s3 := set_aspaces _ (set_cms c3 s2)).
  assert (same_layout (cms s) (cms s3)) as Lay.
  { exact (same_layout_trans _ _ _ Lay1 (same_layout_trans _ _ _ Lay2 Lay3)). }
  assert (∀ r, page s3 r = page s r) as Hpg by (intros r; by apply same_layout_page).
  replace (page s1 r2) with (page s3 r2) by (rewrite Hpg; symmetry; by apply (same_layout_page (cms s))).
  replace (page s2 r3) with (page s3 r3) by (rewrite Hpg; symmetry;
    exact (same_layout_page _ _ r3 (same_layout_trans _ _ _ Lay1 Lay2))). rewrite <- (Hpg r1).
  eapply wp_conseq; [apply (fill_tables_spec _ s3 runs3 r1 r2 r3 (as_npages1 x) (as_npages2 x) 12); try done; try lia| |].
  1: { unfold runs3. rewrite !lookup_insert_ne by done. apply lookup_insert_eq. }
  1: { unfold runs3. rewrite lookup_insert_ne by done. apply lookup_insert_eq. }
  1: { unfold runs3. apply lookup_insert_eq. }
  2: { intros e s6 [-> Hf]. split; [done|]. intros. specialize (F1 ltac:(done)). specialize (F2 ltac:(done)).
       specialize (F3 ltac:(lia)). simpl in Hf. lia. }
  intros [] s6 (f1 & f2 & f3 & s4 & s5 & L1 & L2 & L3 & M1 & M2 & M3).
  do 3 eexists. apply (prepared_tables s s3 s4 s5 s6 runs a x r1 r2 r3 f1 f2 f3); try done.
  2: { intros Hs1 Hs2. specialize (F1 Hs1). specialize (F2 Hs2). specialize (F3 ltac:(lia)).
       change (3 + length (free_pages c3 runs3) = length (free_pages (cms s) runs))%nat. lia. }
  simpl. rewrite !insert_insert_eq. unfold set_pstack, set_pbase2, set_pbase1. simpl. f_equal.
  f_equal; f_equal; rewrite Hpg; [done|..].
  - by apply (same_layout_page (cms s) c1).
  - exact (same_layout_page _ _ r3 (same_layout_trans _ _ _ Lay1 Lay2)).
Qed.
