(* ===== verification/AsCopy.v ===== *)
(** * Copying an address space

    as_copy of kern/arch/mips/vm/dumbvm.c, which gives a forked child its
    memory: the lemmas on copying the pages of one table to those of another,
    then as_copy as a whole. *)

From S2P Require Import Prelude Coremap AddrSpace VmInv.
#[local] Open Scope kern_scope.

(** Page by page, [ds] holds in memory [m] what [ps] held in [s]. *)
Definition copied (s : vmstate) (m : Z → Z) (ps ds : list Z) : Prop :=
  ∀ i p d w, ps.[i] = Some p → ds.[i] = Some d → 0 ≤ w < PAGE_SIZE →
    m (page s d + w) = pmem s (page s p + w).

(** [m] differs from the memory of [s] in the frames [ds] at most. *)
Definition only_frames (s : vmstate) (m : Z → Z) (ds : list Z) : Prop :=
  ∀ a, (∀ d, d ∈ ds → ¬ region s d 1 a) → m a = pmem s a.

Lemma lookupZ_elem (l : list Z) i f : l.[i] = Some f → f ∈ l.
Proof.
  intros Hi. pose proof (lookupZ_Some_range _ _ _ Hi). rewrite lookupZ_nat in Hi by lia.
  by eapply list_elem_of_lookup_2.
Qed.

(** What is not one of the frames written to stays: [ds] are frames. *)
Section OnlyFrames.
Context (s : vmstate) (runs : gmap Z Z) (m : Z → Z) (ds : list Z).
Context (Hrep : cm_rep (cms s) runs) (Hrun : ∀ d, d ∈ ds → runs !! d = Some 1).
Context (Ho : only_frames s m ds).

Lemma only_frames_at p k a : runs !! p = Some k → p ∉ ds → region s p k a → m a = pmem s a.
Proof.
  intros Hp Hnot Ha. apply Ho. intros d Hd Hb.
  apply (regions_disjoint s runs p k d 1 a); try done; [by apply Hrun|congruence].
Qed.

Lemma only_frames_table va n t fs :
  table_rep s runs va n t fs → t ∉ ds → table_rep (set_pmem m s) runs va n t fs.
Proof.
  intros Ht Hnot. destruct Ht as [Hva Hn Hr Hl Hf]. constructor; try done.
  intros i f Hi. destruct (Hf i f Hi) as [? Hw]. split; [done|].
  change (page (set_pmem m s)) with (page s). simpl. rewrite <- Hw.
  pose proof (lookupZ_Some_range _ _ _ Hi). destruct (pagetable_fits n Hn).
  apply (only_frames_at t (pagetable_pages n)); [done..|]. unfold region. lia.
Qed.

(** An earlier copy is still there, *)
Lemma copied_kept s0 ps fs :
  page s0 = page s → (∀ f, f ∈ fs → runs !! f = Some 1 ∧ f ∉ ds) →
  copied s0 (pmem s) ps fs → copied s0 m ps fs.
Proof.
  intros Hpg Hfs Hc i p d w Hi Hd Hw. rewrite <- (Hc i p d w Hi Hd Hw).
  destruct (Hfs d) as [? ?]; [by eapply lookupZ_elem|].
  apply (only_frames_at d 1); [done..|]. unfold region. rewrite Hpg. lia.
Qed.

(** and a later copy takes what was there to begin with. *)
Lemma copied_from m' ps fs :
  (∀ f, f ∈ ps → runs !! f = Some 1 ∧ f ∉ ds) →
  copied (set_pmem m s) m' ps fs → copied s m' ps fs.
Proof.
  intros Hps Hc i p d w Hi Hd Hw. specialize (Hc i p d w Hi Hd Hw).
  change (page (set_pmem m s)) with (page s) in Hc. rewrite Hc. simpl.
  destruct (Hps p) as [? ?]; [by eapply lookupZ_elem|].
  apply (only_frames_at p 1); [done..|]. unfold region. lia.
Qed.
End OnlyFrames.

Section CopyFrames.
Context (X : Prop) (s : vmstate) (runs : gmap Z Z) (vd vp n td tp : Z) (ds ps : list Z).
Context (Hrep : cm_rep (cms s) runs).
Context (Hd : table_rep s runs vd n td ds) (Hp : table_rep s runs vp n tp ps).
Context (Hnd : NoDup ds) (Hps : ∀ d, d ∈ ds → d ∉ ps) (Htd : td ∉ ds) (Htp : tp ∉ ds).

Lemma lookupZ_take (l : list Z) i j f :
  0 ≤ j → (take (Z.to_nat j) l).[i] = Some f ↔ l.[i] = Some f ∧ i < j.
Proof.
  intros Hj. split.
  - intros H. pose proof (lookupZ_Some_range _ _ _ H). rewrite lookupZ_nat in H by lia.
    apply lookup_take_Some in H as [H ?]. split; [|lia]. by rewrite lookupZ_nat by lia.
  - intros [H ?]. pose proof (lookupZ_Some_range _ _ _ H). rewrite lookupZ_nat in H |- * by lia.
    apply lookup_take_Some. split; [done|lia].
Qed.

Definition copy_inv (k : Z) (s' : vmstate) : Prop :=
  ∃ m, s' = set_pmem m s ∧ only_frames s m (take (Z.to_nat k) ds) ∧
       copied s m ps (take (Z.to_nat k) ds).

Lemma copy_step k m d p :
  0 ≤ k → ds.[k] = Some d → ps.[k] = Some p →
  only_frames s m (take (Z.to_nat k) ds) → copied s m ps (take (Z.to_nat k) ds) →
  copy_inv (k + 1) (set_pmem (λ a, if decide (page s d ≤ a < page s d + PAGE_SIZE)
    then m (page s p + (a - page s d)) else m a) s).
Proof.
  intros Hk Hkd Hkp Ho Hc. pose proof (lookupZ_elem _ _ _ Hkd) as Hdin.
  pose proof (table_elem_run _ _ _ _ _ _ d Hd Hdin) as Rd.
  assert (take (Z.to_nat (k + 1)) ds = take (Z.to_nat k) ds ++ [d]) as Htk.
  { replace (Z.to_nat (k + 1)) with (S (Z.to_nat k)) by lia. apply take_S_r. by rewrite lookupZ_nat in Hkd. }
  eexists. split; [reflexivity|]. split.
  - intros a Ha. rewrite Htk in Ha. rewrite decide_False.
    + apply Ho. intros e He. apply Ha, elem_of_app. by left.
    + intros Hb. apply (Ha d); [apply elem_of_app; right; by left|]. unfold region. lia.
  - intros i q e w Hq He Hw. apply lookupZ_take in He as [He Hik]; [|lia].
    destruct (decide (i = k)) as [->|Hne].
    + rewrite decide_True by (simplify_eq; lia). replace e with d by congruence. replace q with p by congruence.
      rewrite Z.add_simpl_l. apply Ho. intros g Hg Hreg.
      apply (regions_disjoint s runs g 1 p 1 (page s p + w)); [done| | | |done|unfold region; lia].
      * eapply (table_elem_run _ _ _ _ _ _ g Hd). apply (subseteq_take (Z.to_nat k) ds _ Hg).
      * by eapply (table_elem_run _ _ _ _ _ _ p Hp), lookupZ_elem.
      * intros ->. eapply (Hps p); [apply (subseteq_take (Z.to_nat k) ds _ Hg)|by eapply lookupZ_elem].
    + rewrite decide_False.
      * apply (Hc i q e w); [done| |done]. apply lookupZ_take; [done|]. split; [done|lia].
      * intros Hb. apply (regions_disjoint s runs e 1 d 1 (page s e + w)); [done| |done| | |unfold region; lia].
        { by eapply (table_elem_run _ _ _ _ _ _ e Hd), lookupZ_elem. }
        { intros ->. pose proof (lookupZ_Some_range _ _ _ He). rewrite lookupZ_nat in He, Hkd by lia.
          pose proof (NoDup_lookup _ _ _ _ Hnd He Hkd). lia. }
        { unfold region. lia. }
Qed.

Lemma copy_frames_spec E :
  wpx X (copy_frames vd vp n)
    (λ _ s', ∃ m, s' = set_pmem m s ∧ only_frames s m ds ∧ copied s m ps ds) E s.
Proof.
  rewrite (tr_addr _ _ _ _ _ _ Hd), (tr_addr _ _ _ _ _ _ Hp).
  pose proof (page_range _ _ _ _ Hrep (tr_run _ _ _ _ _ _ Hd)) as Pd.
  pose proof (page_range _ _ _ _ Hrep (tr_run _ _ _ _ _ _ Hp)) as Pp.
  destruct (tr_size _ _ _ _ _ _ Hd). unfold copy_frames. apply (wp_for copy_inv); [lia| | |].
  - exists (pmem s). split_and!; [by destruct s|done|]. intros i p d w _ Hl%lookupZ_Some_range.
    change (lengthZ (take (Z.to_nat 0) ds)) with 0 in Hl. lia.
  - intros k s' Hk (m & -> & Ho & Hc).
    destruct (lookupZ_lt ds k) as [d Hkd]; [rewrite (tr_len _ _ _ _ _ _ Hd); lia|].
    destruct (lookupZ_lt ps k) as [p Hkp]; [rewrite (tr_len _ _ _ _ _ _ Hp); lia|].
    assert (only_frames s m ds) as Ho'.
    { intros a Ha. apply Ho. intros e He. apply Ha. by apply (subseteq_take (Z.to_nat k) ds). }
    assert (∀ e, e ∈ ds → runs !! e = Some 1) as Hrun by (intros e; by eapply table_elem_run).
    pose proof (table_elem_run _ _ _ _ _ _ d Hd (lookupZ_elem _ _ _ Hkd)) as Rd.
    pose proof (table_elem_run _ _ _ _ _ _ p Hp (lookupZ_elem _ _ _ Hkp)) as Rp.
    pose proof (page_range _ _ _ _ Hrep Rd). pose proof (page_range _ _ _ _ Hrep Rp).
    wp_step. apply (pt_read_spec X (set_pmem m s) td ds k d); [done|by eapply table_words, (only_frames_table s runs m ds)|done|].
    wp_step. apply (pt_read_spec X (set_pmem m s) tp ps k p); [done|by eapply table_words, (only_frames_table s runs m ds)|done|].
    change (page (set_pmem m s)) with (page s). rewrite !kvaddr_roundtrip by lia.
    unfold copy_page. wp_step. apply (copy_step k m d p); try done; lia.
  - intros s' (m & -> & Ho & Hc). exists m.
    rewrite <- (tr_len _ _ _ _ _ _ Hd) in Ho, Hc. unfold lengthZ in Ho, Hc.
    by rewrite Nat2Z.id, firstn_all in Ho, Hc.
Qed.
End CopyFrames.

Lemma only_frames_trans s m1 m2 l1 l2 :
  only_frames s m1 l1 → only_frames (set_pmem m1 s) m2 l2 → only_frames s m2 (l1 ++ l2).
Proof.
  intros H1 H2 a Ha. rewrite (H2 a); [apply H1|]; intros d Hd; apply Ha, elem_of_app; auto.
Qed.

(** The frames of one table, seen from the rest of an address space. *)
Lemma owned_apart o :
  NoDup (owned o) →
  (o_t1 o ∉ o_f1 o ∧ o_t2 o ∉ o_f1 o ∧ o_ts o ∉ o_f1 o) ∧
  (o_t1 o ∉ o_f2 o ∧ o_t2 o ∉ o_f2 o ∧ o_ts o ∉ o_f2 o) ∧
  (o_t1 o ∉ o_fs o ∧ o_t2 o ∉ o_fs o ∧ o_ts o ∉ o_fs o) ∧
  (NoDup (o_f1 o) ∧ NoDup (o_f2 o) ∧ NoDup (o_fs o)) ∧
  (∀ f, f ∈ o_f1 o → f ∉ o_f2 o ∧ f ∉ o_fs o) ∧ (∀ f, f ∈ o_f2 o → f ∉ o_fs o).
Proof. unfold owned. rewrite !NoDup_cons, !NoDup_app. set_solver. Qed.

Section CopySpace.
Context (X : Prop) (s : vmstate) (runs : gmap Z Z) (x y : addrspace) (o o' : owner).
Context (Hrep : cm_rep (cms s) runs) (Hx : as_rep s runs x o) (Hy : as_rep s runs y o').
Context (Hn1 : as_npages1 y = as_npages1 x) (Hn2 : as_npages2 y = as_npages2 x).
Context (Hdisj : ∀ p, p ∈ owned o' → p ∉ owned o).

Lemma frames_apart f : f ∈ o_f1 o' ++ o_f2 o' ++ o_fs o' →
  o_t1 o ≠ f ∧ o_t2 o ≠ f ∧ o_ts o ≠ f ∧ f ∉ o_f1 o ∧ f ∉ o_f2 o ∧ f ∉ o_fs o.
Proof.
  intros Hf. assert (f ∉ owned o) as Hno by (apply Hdisj; unfold owned; set_solver).
  unfold owned in Hno. rewrite !not_elem_of_cons, !not_elem_of_app in Hno. naive_solver.
Qed.

Lemma copy_space_spec E :
  wpx X (copy_frames (page_pbase1 y) (page_pbase1 x) (as_npages1 y) ;;
         copy_frames (page_pbase2 y) (page_pbase2 x) (as_npages2 y) ;;
         copy_frames (page_stackpbase y) (page_stackpbase x) DUMBVM_STACKPAGES)
    (λ _ s', ∃ m, s' = set_pmem m s ∧ only_frames s m (o_f1 o' ++ o_f2 o' ++ o_fs o') ∧
       copied s m (o_f1 o) (o_f1 o') ∧ copied s m (o_f2 o) (o_f2 o') ∧ copied s m (o_fs o) (o_fs o')) E s.
Proof.
  destruct Hx as [X1 X2 X3 Xn], Hy as [Y1 Y2 Y3 Yn]. rewrite <- Hn1 in X1. rewrite <- Hn2 in X2.
  destruct (owned_apart o' Yn) as ((?&?&?) & (?&?&?) & (?&?&?) & (?&?&?) & D1 & D2).
  pose proof frames_apart as Hap. set (n1 := as_npages1 y) in *. set (n2 := as_npages2 y) in *.
  assert (∀ f, f ∈ o_f1 o' → runs !! f = Some 1) as R1 by (intros f; by eapply table_elem_run).
  assert (∀ f, f ∈ o_f2 o' → runs !! f = Some 1) as R2 by (intros f; by eapply table_elem_run).
  assert (∀ f, f ∈ o_f2 o → runs !! f = Some 1) as Q2 by (intros f; by eapply table_elem_run).
  assert (∀ f, f ∈ o_fs o → runs !! f = Some 1) as Q3 by (intros f; by eapply table_elem_run).
  assert (∀ f, f ∈ o_fs o' → runs !! f = Some 1) as R3 by (intros f; by eapply table_elem_run).
  wp_step. eapply wp_conseq; [apply (copy_frames_spec X s runs _ _ _ _ _ _ _ Hrep Y1 X1); set_solver| |done].
  intros [] s1 (m1 & -> & O1 & C1). wp_step.
  assert (∀ va n t fs, table_rep s runs va n t fs → t ∉ o_f1 o' → table_rep (set_pmem m1 s) runs va n t fs)
    as T1 by (intros; by apply (only_frames_table s runs m1 (o_f1 o'))).
  eapply wp_conseq; [apply (copy_frames_spec X (set_pmem m1 s) runs _ _ _ _ _ (o_f2 o') (o_f2 o) Hrep
    (T1 _ _ _ _ Y2 ltac:(done)) (T1 _ _ _ _ X2 ltac:(set_solver))); set_solver| |done].
  intros [] s2 (m2 & -> & O2 & C2).
  assert (∀ va n t fs, table_rep s runs va n t fs → t ∉ o_f1 o' → t ∉ o_f2 o' →
    table_rep (set_pmem m2 s) runs va n t fs) as T2.
  { intros. apply (only_frames_table (set_pmem m1 s) runs m2 (o_f2 o')); try done. by apply T1. }
  eapply wp_conseq; [apply (copy_frames_spec X (set_pmem m2 s) runs _ _ _ _ _ (o_fs o') (o_fs o) Hrep
    (T2 _ _ _ _ Y3 ltac:(done) ltac:(done)) (T2 _ _ _ _ X3 ltac:(set_solver) ltac:(set_solver))); set_solver| |done].
  intros [] s3 (m3 & -> & O3 & C3). exists m3. split; [done|].
  pose proof (only_frames_trans _ _ _ _ _ O1 O2) as O12.
  pose proof (only_frames_trans _ _ _ _ _ O12 O3) as O123. rewrite <- app_assoc in O123.
  split; [done|]. split_and!.
  - apply (copied_kept (set_pmem m2 s) runs m3 (o_fs o')); try done; [set_solver|].
    apply (copied_kept (set_pmem m1 s) runs m2 (o_f2 o')); try done. set_solver.
  - apply (copied_kept (set_pmem m2 s) runs m3 (o_fs o')); try done; [set_solver|].
    apply (copied_from s runs m1 (o_f1 o')); try done. set_solver.
  - apply (copied_from s runs m2 (o_f1 o' ++ o_f2 o')); try done; set_solver.
Qed.
End CopySpace.

(** The child's address space [y] is a copy of [x] in pages of its own, and
    nothing else has changed. *)
Record space_copied (s : vmstate) (runs : gmap Z Z) (x : addrspace) (o : owner) (new : Z)
    (s' : vmstate) (runs' : gmap Z Z) (y : addrspace) (o' : owner) : Prop := {
  sc_rep : cm_rep (cms s') runs';
  sc_layout : same_layout (cms s) (cms s');
  sc_spaces : aspaces s' = <[new := y]> (aspaces s);
  sc_fields : as_vbase1 y = as_vbase1 x ∧ as_npages1 y = as_npages1 x ∧
              as_vbase2 y = as_vbase2 x ∧ as_npages2 y = as_npages2 x;
  sc_new : as_rep s' runs' y o';
  sc_old : as_rep s' runs' x o;
  sc_ext : ∀ p k, runs !! p = Some k → runs' !! p = Some k;
  sc_only : ∀ p k, runs' !! p = Some k → p ∈ owned o' ∨ runs !! p = Some k;
  sc_fresh : ∀ p, p ∈ owned o' → runs !! p = None;
  sc_text : copied s (pmem s') (o_f1 o) (o_f1 o');
  sc_data : copied s (pmem s') (o_f2 o) (o_f2 o');
  sc_stack : copied s (pmem s') (o_fs o) (o_fs o');
  sc_kept : ∀ p k w, runs !! p = Some k → region s p k w → pmem s' w = pmem s w;
  sc_env : tlb s' = tlb s ∧ curproc_as s' = curproc_as s ∧ loaded s' = loaded s
}.

(** An address space whose pages are still allocated and unchanged is still there. *)
Lemma table_rep_kept s s' runs runs' va n t fs :
  (∀ r, page s' r = page s r) → (∀ p k, runs !! p = Some k → runs' !! p = Some k) →
  (∀ p k w, runs !! p = Some k → region s p k w → pmem s' w = pmem s w) →
  table_rep s runs va n t fs → table_rep s' runs' va n t fs.
Proof.
  intros Hpg Hext Hk [Hva Hn Hr Hl Hf]. constructor; rewrite ?Hpg; auto.
  intros i f Hi. rewrite Hpg. destruct (Hf i f Hi) as [? Hw]. split; [auto|]. rewrite <- Hw.
  pose proof (lookupZ_Some_range _ _ _ Hi). destruct (pagetable_fits n Hn).
  apply (Hk t (pagetable_pages n)); [done|]. unfold region. lia.
Qed.

Lemma as_rep_kept s s' runs runs' x o :
  (∀ r, page s' r = page s r) → (∀ p k, runs !! p = Some k → runs' !! p = Some k) →
  (∀ p k w, runs !! p = Some k → region s p k w → pmem s' w = pmem s w) →
  as_rep s runs x o → as_rep s' runs' x o.
Proof. intros ??? [????]. constructor; try done; by eapply table_rep_kept. Qed.

Lemma owned_run s runs x o p : as_rep s runs x o → p ∈ owned o → ∃ k, runs !! p = Some k.
Proof.
  intros [H1 H2 H3 _]. unfold owned. rewrite !elem_of_cons, !elem_of_app.
  intros [->|[->|[->|[Hp|[Hp|Hp]]]]]; 
    eexists; first [by eapply tr_run | eapply table_elem_run; [|exact Hp]; done].
Qed.

(** What the copying of the three tables leaves, once they are prepared. *)
Lemma space_copied_intro s s1 s2 runs runs' x x1 o new y o' m :
  as_rep s runs x o → cms s1 = cms s → pmem s1 = pmem s → aspaces s1 = <[new := x1]> (aspaces s) →
  tlb s1 = tlb s ∧ curproc_as s1 = curproc_as s ∧ loaded s1 = loaded s →
  as_vbase1 x1 = as_vbase1 x ∧ as_npages1 x1 = as_npages1 x ∧
  as_vbase2 x1 = as_vbase2 x ∧ as_npages2 x1 = as_npages2 x →
  prepared s1 runs new x1 s2 runs' y o' → as_rep s2 runs' x o →
  only_frames s2 m (o_f1 o' ++ o_f2 o' ++ o_fs o') →
  copied s2 m (o_f1 o) (o_f1 o') → copied s2 m (o_f2 o) (o_f2 o') → copied s2 m (o_fs o) (o_fs o') →
  space_copied s runs x o new (set_pmem m s2) runs' y o'.
Proof.
  intros Hx Hcm Hpm Hsp (V1 & V2 & V3) (F1 & F2 & F3 & F4) Hpr Hx2 Ho C1 C2 C3.
  pose proof Hpr as [Prep Play Pas (G1 & G2 & G3 & G4) Psp Pext Ponly Pfresh _ Pz Pk (E1 & E2 & E3)].
  assert (page s1 = page s) as Hpg by (unfold page; by rewrite Hcm).
  assert (∀ r, page s2 r = page s r) as Hpg2.
  { intros r. rewrite <- Hpg. by apply same_layout_page. }
  assert (∀ f, f ∈ o_f1 o' ++ o_f2 o' ++ o_fs o' → runs' !! f = Some 1 ∧ runs !! f = None) as Hfr.
  { intros f Hf. split; [|apply Pfresh; unfold owned; by do 3 right].
    destruct Pas as [T1 T2 T3 _]. rewrite !elem_of_app in Hf.
    destruct Hf as [Hf|[Hf|Hf]]; (eapply table_elem_run; [|exact Hf]; done). }
  assert (∀ p k w, runs' !! p = Some k → p ∉ o_f1 o' ++ o_f2 o' ++ o_fs o' → region s2 p k w →
    m w = pmem s2 w) as Hm.
  { intros p k w. apply (only_frames_at s2 runs'); [done| |done]. intros d Hd. by apply Hfr. }
  assert (∀ p k w, runs !! p = Some k → region s p k w → m w = pmem s w) as Hkept.
  { intros p k w Hp Hw. rewrite (Hm p k w), <- Hpm.
    - apply (Pk p k); [done|]. unfold region. by rewrite Hpg.
    - by apply Pext.
    - intros Hin. destruct (Hfr p Hin). congruence.
    - unfold region. by rewrite Hpg2. }
  assert (∀ ps fs, (∀ p, p ∈ ps → runs !! p = Some 1) → copied s2 m ps fs → copied s m ps fs) as Hcp.
  { intros ps fs Hps Hc i p d w Hi Hd Hw. rewrite <- !Hpg2. rewrite (Hc i p d w Hi Hd Hw).
    rewrite <- Hpm. apply (Pk p 1); [by eapply Hps, lookupZ_elem|]. unfold region. rewrite Hpg, Hpg2. lia. }
  destruct Hx as [X1 X2 X3 Xn]. constructor; simpl; try done; try (split_and!; congruence).
  - by rewrite <- Hcm.
  - rewrite Psp, Hsp. by rewrite insert_insert_eq.
  - destruct Pas as [T1 T2 T3 Tn]. destruct (owned_apart o' Tn) as (? & ? & ? & ? & ?).
    constructor; try done; apply (only_frames_table s2 runs' m _ Prep (λ d Hd, proj1 (Hfr d Hd)) Ho);
      try done; rewrite !not_elem_of_app; naive_solver.
  - eapply (as_rep_kept s); try done.
  - apply Hcp; [|done]. intros p. by eapply table_elem_run.
  - apply Hcp; [|done]. intros p. by eapply table_elem_run.
  - apply Hcp; [|done]. intros p. by eapply table_elem_run.
Qed.

(** as_create hands out a struct with no regions and no tables, or NULL. *)
Lemma as_create_spec X s :
  wpx X as_create
    (λ r s', ∃ fate, let s1 := mkVM (cms s) (pmem s) (aspaces s) (tlb s) (curproc_as s) (loaded s) (vm_next s) fate in
       match r with
       | None => hd true (vm_fate s) = false ∧ s' = s1
       | Some new => new = vm_next s ∧
           s' = mkVM (cms s) (pmem s) (<[new := mkAS 0 0 0 0 0 0 0]> (aspaces s)) (tlb s) (curproc_as s)
                  (loaded s) (vm_next s + 1) fate
       end) (λ _ _, False) s.
Proof.
  unfold wpx, as_create. destruct (vm_fate s) as [|[] l]; simpl; eauto.
Qed.

Lemma table_rep_state s s' runs va n t fs :
  page s' = page s → pmem s' = pmem s → table_rep s runs va n t fs → table_rep s' runs va n t fs.
Proof. intros Hp Hm [????]. constructor; rewrite ?Hp, ?Hm; done. Qed.

Lemma as_copy_spec X s runs old x o :
  cm_rep (cms s) runs → aspaces s !! old = Some x → as_rep s runs x o → vm_next s ≠ old →
  as_npages1 x ≤ 1024 → as_npages2 x ≤ 1024 →
  pages_needed x ≤ Z.of_nat (length (free_pages (cms s) runs)) →
  wpx X (as_copy old)
    (λ new s', new = vm_next s ∧ ∃ runs' y o', space_copied s runs x o new s' runs' y o')
    (λ e s', e = ENOMEM ∧ hd true (vm_fate s) = false ∧
       cms s' = cms s ∧ pmem s' = pmem s ∧ aspaces s' = aspaces s) s.
Proof.
  intros Hrep Hold Hx Hne Hs1 Hs2 Hfree. unfold as_copy, read_as, write_as.
  wp_step. eapply wp_conseq; [apply as_create_spec| |done].
  intros [new|] s' (fate & Hres); cbv zeta in Hres; [|destruct Hres as [? ->]; by wp_step].
  destruct Hres as [-> ->]. set (s0 := mkVM _ _ _ _ _ _ _ fate).
  wp_steps. apply wp_deref with x; [unfold s0; simpl; by rewrite lookup_insert_ne|].
  wp_steps. eapply wp_deref; [apply lookup_insert_eq|]. wp_steps.
  set (x1 := mkAS _ _ _ _ _ _ _). set (s1 := set_aspaces _ s0).
  destruct (Hx) as [X1 X2 X3 Xn].
  assert (aspaces s1 = <[vm_next s := x1]> (aspaces s)) as Hsp1.
  { unfold s1. simpl. apply insert_insert_eq. }
  eapply wp_conseq; [apply (as_prepare_load_spec X s1 runs (vm_next s) x1); try done| |].
  { rewrite Hsp1. apply lookup_insert_eq. } { apply X1. } { apply X2. }
  2: { intros e s2 [_ Hf]. exfalso. specialize (Hf Hs1 Hs2). change (pages_needed x1) with (pages_needed x) in Hf.
       change (cms s1) with (cms s) in Hf. lia. }
  intros [] s2 (runs' & y & o' & Hpr). pose proof Hpr as [Prep Play Pas Pf Psp Pext _ Pfresh _ _ Pk _].
  wp_steps. eapply wp_deref; [rewrite Psp; apply lookup_insert_eq|].
  assert (∀ va n t fs, table_rep s2 runs' va n t fs → negb (va =? 0) = true) as Hnz.
  { intros va n t fs Ht. rewrite (tr_addr _ _ _ _ _ _ Ht).
    pose proof (kvaddr_nonzero _ (page_range _ _ _ _ Prep (tr_run _ _ _ _ _ _ Ht))). lia. }
  wp_step. apply wp_kassert; [eapply Hnz, Pas|]. wp_step. apply wp_kassert; [eapply Hnz, Pas|].
  wp_step. apply wp_kassert; [eapply Hnz, Pas|].
  assert (as_rep s2 runs' x o) as Hx2.
  { eapply (as_rep_kept s1); try done; [intros r; by apply same_layout_page|].
    constructor; try done; by eapply (table_rep_state s). }
  apply wp_bind3. eapply wp_conseq; [apply (copy_space_spec X s2 runs' x y o o' Prep Hx2 Pas) with (E := λ _ _, False); try apply Pf| |done].
  { intros p Hp Hin. destruct (owned_run _ _ _ _ _ Hx Hin) as [k Hk].
    pose proof (Pfresh p Hp). congruence. }
  intros [] s3 (m & -> & Ho & C1 & C2 & C3). wp_step. split; [done|]. exists runs', y, o'.
  by apply (space_copied_intro s s1 s2 runs runs' x x1).
Qed.
