(* ===== verification/VmFault.v ===== *)
(** * Page faults, and the properties of the virtual memory system

    The address translation the three page tables define, vm_fault against it,
    the TLB invariant, and the theorems about address spaces. *)

From S2P Require Import Prelude Coremap AddrSpace VmInv AsCopy.
#[local] Open Scope kern_scope.

(** An address space as_define_region and as_prepare_load have set up: two
    page-aligned regions that do not wrap around. *)
Record as_wf (x : addrspace) : Prop := {
  wf_base1 : 0 < as_vbase1 x ∧ as_vbase1 x mod PAGE_SIZE = 0;
  wf_base2 : 0 < as_vbase2 x ∧ as_vbase2 x mod PAGE_SIZE = 0;
  wf_top1 : as_vbase1 x + as_npages1 x * PAGE_SIZE < 2 ^ 32;
  wf_top2 : as_vbase2 x + as_npages2 x * PAGE_SIZE < 2 ^ 32
}.

(** The frame that page number [n] of the segment at [base] is mapped to. *)
Definition seg_frame (base va : Z) (fs : list Z) : option Z := fs.[(va - base) / PAGE_SIZE].

(** The page [va] lies in: its segment and the frame it is mapped to. *)
Definition translate (x : addrspace) (o : owner) (va : Z) : option (segment_type * Z) :=
  match seg_frame (as_vbase1 x) va (o_f1 o) with
  | Some f => Some (TEXT_SEGMENT, f)
  | None =>
      match seg_frame (as_vbase2 x) va (o_f2 o) with
      | Some f => Some (DATA_SEGMENT, f)
      | None =>
          match seg_frame (USERSTACK - DUMBVM_STACKPAGES * PAGE_SIZE) va (o_fs o) with
          | Some f => Some (STACK_SEGMENT, f)
          | None => None
          end
      end
  end.

Definition page_base (va : Z) : Z := Z.land va PAGE_FRAME.

Lemma page_base_div va : 0 ≤ va < 2 ^ 32 → page_base va = va / PAGE_SIZE * PAGE_SIZE.
Proof. apply land_PAGE_FRAME. Qed.

Lemma page_base_aligned va : 0 ≤ va < 2 ^ 32 → va mod PAGE_SIZE = 0 → page_base va = va.
Proof. intros Hva Hm. rewrite page_base_div by done. unfold PAGE_SIZE in *. pose proof (Z.div_mod va 4096). lia. Qed.

(** Whether a page lies in a segment, as vm_fault decides it. *)
Lemma seg_frame_range base n va fs :
  lengthZ fs = n → 0 ≤ n → 0 ≤ base → base + n * PAGE_SIZE < 2 ^ 32 →
  if (base <=? va) && (va <? u32 (base + n * PAGE_SIZE))
  then ∃ f, seg_frame base va fs = Some f else seg_frame base va fs = None.
Proof.
  intros Hl Hn Hb Ht. unfold u32, seg_frame, PAGE_SIZE in *. rewrite Z.mod_small by lia.
  pose proof (Z.div_mod (va - base) 4096). pose proof (Z.mod_pos_bound (va - base) 4096).
  destruct ((base <=? va) && (va <? base + n * 4096)) eqn:E.
  - apply lookupZ_lt. lia.
  - apply lookupZ_None. lia.
Qed.

Lemma find_invalid_spec (l : list (Z * Z)) fuel i :
  0 ≤ i → i + Z.of_nat fuel ≤ lengthZ l →
  ∃ r, find_invalid fuel i l = Some r ∧
    match r with
    | Some k => i ≤ k < i + Z.of_nat fuel ∧ ∃ e, l.[k] = Some e ∧ is_valid e.2 = false
    | None => ∀ k e, i ≤ k < i + Z.of_nat fuel → l.[k] = Some e → is_valid e.2 = true
    end.
Proof.
  revert i. induction fuel as [|fuel IH]; intros i Hi Hlen; cbn [find_invalid].
  { exists None. split; [done|]. lia. }
  destruct (lookupZ_lt l i) as [[hi lo] Hl]; [lia|]. rewrite Hl. destruct (is_valid lo) eqn:V.
  - destruct (IH (i + 1)) as (r & -> & Hr); [lia..|]. exists r. split; [done|]. destruct r as [k|].
    + destruct Hr as [? ?]. split; [lia|done].
    + intros k e Hk He. destruct (decide (k = i)) as [->|]; [rewrite Hl in He; by injection He as <-|]. apply (Hr k e); [lia|done].
  - exists (Some i). split; [done|]. split; [lia|]. by exists (hi, lo).
Qed.

(** The slot vm_fault fills: the first that is not valid, else the one the
    hardware picks. *)
Definition fault_slot (l : list (Z * Z)) (rnd k : Z) : Prop :=
  0 ≤ k < NUM_TLB ∧
  ((∃ e, l.[k] = Some e ∧ is_valid e.2 = false) ∨
   (k = rnd ∧ ∀ j e, l.[j] = Some e → is_valid e.2 = true)).

Lemma tlb_install_spec X s va pa rnd seg :
  lengthZ (tlb s) = NUM_TLB → 0 ≤ rnd < NUM_TLB → page_base pa = pa →
  wpx X (tlb_install va pa rnd seg)
    (λ r s', r = Handled ∧ ∃ k, fault_slot (tlb s) rnd k ∧
       s' = set_tlb (λ l, l.[k := (va, make_elo pa seg (loaded s))]) s) (λ _ _, False) s.
Proof.
  intros Hlen Hr Hpa. unfold tlb_install. wp_step. apply wp_kassert; [unfold page_base in Hpa; lia|].
  destruct (find_invalid_spec (tlb s) (Z.to_nat NUM_TLB) 0) as (r & Hf & Hslot); [done|by rewrite Hlen|].
  wp_steps. eapply wp_deref; [done|]. wp_steps. split; [done|]. exists (default rnd r).
  split; [|done]. change (0 + Z.of_nat (Z.to_nat NUM_TLB)) with NUM_TLB in Hslot. destruct r as [k|].
  - destruct Hslot. split; [done|by left].
  - split; [done|]. right. split; [done|]. intros j e Hj. apply (Hslot j e); [|done].
    apply lookupZ_Some_range in Hj. lia.
Qed.

(** The current process runs in address space [x], whose pages are [o]. *)
Record running (s : vmstate) (runs : gmap Z Z) (x : addrspace) (o : owner) : Prop := {
  rn_cur : ∃ a, curproc_as s = Some (Some a) ∧ aspaces s !! a = Some x;
  rn_rep : cm_rep (cms s) runs;
  rn_as : as_rep s runs x o;
  rn_wf : as_wf x;
  rn_tlb : lengthZ (tlb s) = NUM_TLB
}.

Lemma frame_aligned s runs f k : cm_rep (cms s) runs → runs !! f = Some k → page_base (page s f) = page s f.
Proof.
  intros Hrep Hf. pose proof (page_range _ _ _ _ Hrep Hf). apply page_base_aligned; [lia|].
  unfold page, page_addr. rewrite Z_mod_plus_full. apply (cr_first _ _ Hrep).
Qed.

(** One segment's part of vm_fault. *)
Lemma seg_fault_spec X s runs va0 n t fs base va rnd seg f :
  cm_rep (cms s) runs → lengthZ (tlb s) = NUM_TLB → 0 ≤ rnd < NUM_TLB →
  table_rep s runs va0 n t fs → seg_frame base va fs = Some f →
  wpx X (paddr <- pt_read va0 ((va - base) / PAGE_SIZE) ;; tlb_install va paddr rnd seg)
    (λ r s', r = Handled ∧ ∃ k, fault_slot (tlb s) rnd k ∧
       s' = set_tlb (λ l, l.[k := (va, make_elo (page s f) seg (loaded s))]) s) (λ _ _, False) s.
Proof.
  intros Hrep Hlen Hr Ht Hf. rewrite (tr_addr _ _ _ _ _ _ Ht). wp_step.
  eapply pt_read_spec; [by eapply page_range, Ht|by eapply table_words|done|].
  apply tlb_install_spec; [done..|]. eapply frame_aligned; [done|].
  eapply table_elem_run; [done|by eapply lookupZ_elem].
Qed.

Lemma vm_fault_spec X s runs x o ft va rnd :
  running s runs x o → ft = VM_FAULT_READ ∨ ft = VM_FAULT_WRITE → 0 ≤ rnd < NUM_TLB →
  wpx X (vm_fault ft va rnd)
    (λ r s', r = Handled ∧ ∃ seg f k, translate x o (page_base va) = Some (seg, f) ∧
       fault_slot (tlb s) rnd k ∧
       s' = set_tlb (λ l, l.[k := (page_base va, make_elo (page s f) seg (loaded s))]) s)
    (λ e s', e = EFAULT ∧ s' = s ∧ translate x o (page_base va) = None) s.
Proof.
  intros [(a & Hc & Ha) Hrep [X1 X2 X3 _] [[B1 A1] [B2 A2] W1 W2] Hlen] Hft Hr.
  assert (vm_fault ft va rnd = vm_fault VM_FAULT_READ va rnd) as -> by (by destruct Hft as [-> | ->]).
  unfold vm_fault, read_as. fold (page_base va). set (v := page_base va).
  wp_steps. rewrite Hc. wp_steps. eapply wp_deref; [done|].
  assert (∀ va n t fs, table_rep s runs va n t fs → negb (va =? 0) = true ∧ negb (n =? 0) = true) as Hnz.
  { intros w n t fs Ht. rewrite (tr_addr _ _ _ _ _ _ Ht). pose proof (tr_size _ _ _ _ _ _ Ht).
    pose proof (kvaddr_nonzero _ (page_range _ _ _ _ Hrep (tr_run _ _ _ _ _ _ Ht))). lia. }
  destruct (Hnz _ _ _ _ X1), (Hnz _ _ _ _ X2), (Hnz _ _ _ _ X3).
  pose proof (tr_size _ _ _ _ _ _ X1) as N1. pose proof (tr_size _ _ _ _ _ _ X2) as N2.
  do 7 (wp_step; apply wp_kassert; [done || lia|]).
  do 2 (wp_step; apply wp_kassert; [apply Z.eqb_eq, page_base_aligned; unfold PAGE_SIZE in *; done || lia|]).
  cbv zeta. unfold translate.
  pose proof (seg_frame_range (as_vbase1 x) (as_npages1 x) v (o_f1 o) (tr_len _ _ _ _ _ _ X1)
    ltac:(lia) ltac:(lia) W1) as S1.
  destruct (_ && _) in S1 |- *.
  { destruct S1 as [f S1]. rewrite S1. eapply wp_conseq; [by eapply seg_fault_spec| |done]. naive_solver. }
  rewrite S1. pose proof (seg_frame_range (as_vbase2 x) (as_npages2 x) v (o_f2 o) (tr_len _ _ _ _ _ _ X2)
    ltac:(lia) ltac:(lia) W2) as S2.
  destruct (_ && _) in S2 |- *.
  { destruct S2 as [f S2]. rewrite S2. eapply wp_conseq; [by eapply seg_fault_spec| |done]. naive_solver. }
  rewrite S2. pose proof (seg_frame_range (USERSTACK - DUMBVM_STACKPAGES * PAGE_SIZE) DUMBVM_STACKPAGES v
    (o_fs o) (tr_len _ _ _ _ _ _ X3) ltac:(done) ltac:(done) ltac:(done)) as S3.
  change (u32 (USERSTACK - DUMBVM_STACKPAGES * PAGE_SIZE + DUMBVM_STACKPAGES * PAGE_SIZE)) with USERSTACK in S3.
  destruct (_ && _) in S3 |- *.
  { destruct S3 as [f S3]. rewrite S3. eapply wp_conseq; [by eapply seg_fault_spec| |done]. naive_solver. }
  rewrite S3. by wp_step.
Qed.

(** ** The TLB *)

(** The flag bits of an entry lie below the frame number. *)
Lemma aligned_low pa j : page_base pa = pa → 0 ≤ j < 12 → Z.testbit pa j = false.
Proof.
  intros Hpa Hj. rewrite <- Hpa. unfold page_base. change PAGE_FRAME with (Z.shiftl (Z.ones 20) 12).
  rewrite Z.land_spec, Z.shiftl_spec_low, andb_false_r by lia. done.
Qed.

Lemma aligned_high pa j : page_base pa = pa → 32 ≤ j → Z.testbit pa j = false.
Proof.
  intros Hpa Hj. rewrite <- Hpa. unfold page_base. change PAGE_FRAME with (Z.shiftl (Z.ones 20) 12).
  rewrite Z.land_spec, Z.shiftl_spec, Z.testbit_ones by lia.
  rewrite (proj2 (Z.ltb_ge (j - 12) 20)), !andb_false_r by lia. done.
Qed.

Definition text_locked (seg : segment_type) (ld : bool) : bool :=
  match seg with TEXT_SEGMENT => ld | _ => false end.

Lemma make_elo_bit pa seg ld j : page_base pa = pa → 0 ≤ j →
  Z.testbit (make_elo pa seg ld) j =
    Z.testbit pa j || (j =? 9) || ((j =? 10) && negb (text_locked seg ld)).
Proof.
  intros Hpa Hj.
  assert (Z.testbit (Z.lor (Z.lor pa TLBLO_DIRTY) TLBLO_VALID) j = Z.testbit pa j || (j =? 9) || (j =? 10)) as Hbase.
  { change TLBLO_DIRTY with (2 ^ 10). change TLBLO_VALID with (2 ^ 9).
    rewrite !Z.lor_spec, !Z.pow2_bits_eqb by lia. rewrite (Z.eqb_sym 10), (Z.eqb_sym 9).
    by destruct (Z.testbit pa j), (j =? 9), (j =? 10). }
  destruct (text_locked seg ld) eqn:Hl.
  - destruct seg; try done. simpl in Hl. subst ld. unfold make_elo. rewrite Z.land_spec, Hbase.
    unfold u32. change TLBLO_DIRTY with (2 ^ 10).
    destruct (decide (j < 32)).
    + rewrite Z.mod_pow2_bits_low, Z.lnot_spec, Z.pow2_bits_eqb by lia. rewrite (Z.eqb_sym 10).
      destruct (Z.eqb_spec j 10) as [->|]; [|by rewrite !orb_false_r, andb_true_r].
      rewrite (aligned_low pa 10) by (done || lia). done.
    + rewrite Z.mod_pow2_bits_high by lia. rewrite (aligned_high pa j) by (done || lia).
      replace (j =? 9) with false by lia. by rewrite !andb_false_r.
  - rewrite andb_true_r, <- Hbase. destruct seg; try done. simpl in Hl. by subst ld.
Qed.

Lemma make_elo_flags pa seg ld : page_base pa = pa →
  is_valid (make_elo pa seg ld) = true ∧
  is_writable (make_elo pa seg ld) = negb (text_locked seg ld) ∧
  page_base (make_elo pa seg ld) = pa.
Proof.
  intros Hpa. unfold is_valid, is_writable. change TLBLO_VALID with (2 ^ 9). change TLBLO_DIRTY with (2 ^ 10).
  rewrite !mask_test, !negb_involutive, !make_elo_bit by (done || lia). split_and!.
  - by rewrite orb_true_r.
  - by rewrite (aligned_low pa 10) by (done || lia).
  - apply Z.bits_inj'. intros j Hj. unfold page_base. rewrite Z.land_spec, make_elo_bit by done.
    rewrite <- Hpa at 2. unfold page_base. rewrite Z.land_spec.
    destruct (Z.eqb_spec j 9) as [->|]; [by rewrite !andb_false_r|].
    destruct (Z.eqb_spec j 10) as [->|]; [by rewrite !andb_false_r|]. by rewrite !orb_false_r.
Qed.

(** Every valid entry maps a page of the current address space to the frame its
    page table gives, writable unless it is text of a loaded program; and no
    page is entered twice. *)
Record tlb_ok (s : vmstate) (x : addrspace) (o : owner) : Prop := {
  tk_sound : ∀ k hi lo, (tlb s).[k] = Some (hi, lo) → is_valid lo = true →
    ∃ seg f, translate x o hi = Some (seg, f) ∧ page_base lo = page s f ∧
      is_writable lo = negb (text_locked seg (loaded s));
  tk_unique : ∀ j k hi lo lo', (tlb s).[j] = Some (hi, lo) → (tlb s).[k] = Some (hi, lo') →
    is_valid lo = true → is_valid lo' = true → j = k
}.

(** The hardware finds no entry for [va], so it traps. *)
Definition tlb_miss (s : vmstate) (va : Z) : Prop :=
  ∀ k lo, (tlb s).[k] = Some (page_base va, lo) → is_valid lo = false.

(** What can happen to the TLB while the process runs. *)
Inductive vm_step (s s' : vmstate) : Prop :=
| step_fault ft va rnd :
    ft = VM_FAULT_READ ∨ ft = VM_FAULT_WRITE → 0 ≤ rnd < NUM_TLB → tlb_miss s va →
    vm_fault ft va rnd s = Ok Handled s' → vm_step s s'
| step_activate : as_activate s = Ok tt s' → vm_step s s'
| step_complete : as_complete_load s = Ok tt s' → vm_step s s'.

Lemma as_activate_spec X s a E :
  curproc_as s = Some (Some a) → lengthZ (tlb s) = NUM_TLB →
  wpx X as_activate
    (λ _ s', ∃ l, s' = set_tlb (λ _, l) s ∧ lengthZ l = NUM_TLB ∧
       ∀ k, 0 ≤ k < NUM_TLB → l.[k] = Some (TLBHI_INVALID k, TLBLO_INVALID)) E s.
Proof.
  intros Hc Hlen. unfold as_activate. wp_steps. rewrite Hc.
  apply (wp_for (λ i s', ∃ l, s' = set_tlb (λ _, l) s ∧ lengthZ l = NUM_TLB ∧
    ∀ k, 0 ≤ k < i → l.[k] = Some (TLBHI_INVALID k, TLBLO_INVALID))); [done| | |done].
  { exists (tlb s). split_and!; [by destruct s|done|lia]. }
  intros i s' Hi (l & -> & Hl & Hk). wp_step. eexists. split; [reflexivity|]. simpl.
  rewrite lengthZ_update. split; [done|]. intros k Hki. rewrite lookupZ_update by lia.
  case_decide; [by subst|]. apply Hk. lia.
Qed.

Lemma flushed_ok s x o :
  lengthZ (tlb s) = NUM_TLB → (∀ k, 0 ≤ k < NUM_TLB → (tlb s).[k] = Some (TLBHI_INVALID k, TLBLO_INVALID)) →
  tlb_ok s x o.
Proof.
  intros Hlen Hk.
  assert (∀ k hi lo, (tlb s).[k] = Some (hi, lo) → is_valid lo = false) as Hno.
  { intros k hi lo H. pose proof (lookupZ_Some_range _ _ _ H) as Hr. rewrite Hlen in Hr.
    rewrite Hk in H by done. by injection H as <- <-. }
  constructor; intros * H1; rewrite (Hno _ _ _ H1); done.
Qed.

Lemma running_tlb s runs x o l ld :
  running s runs x o → lengthZ l = NUM_TLB → running (set_loaded ld (set_tlb (λ _, l) s)) runs x o.
Proof.
  intros [Hc Hrep Has Hwf _] Hl. constructor; try done.
  destruct Has. constructor; try done; by eapply (table_rep_state s).
Qed.

Lemma running_set_tlb s runs x o f :
  running s runs x o → lengthZ (f (tlb s)) = NUM_TLB → running (set_tlb f s) runs x o.
Proof. intros H Hl. apply (running_tlb s runs x o (f (tlb s)) (loaded s) H Hl). Qed.

Lemma translate_run s runs x o va seg f :
  as_rep s runs x o → translate x o va = Some (seg, f) → runs !! f = Some 1.
Proof.
  intros [H1 H2 H3 _]. unfold translate, seg_frame.
  destruct ((o_f1 o).[_]) eqn:E1; [intros; simplify_eq; eapply (table_elem_run _ _ _ _ _ _ _ H1); by eapply lookupZ_elem|].
  destruct ((o_f2 o).[_]) eqn:E2; [intros; simplify_eq; eapply (table_elem_run _ _ _ _ _ _ _ H2); by eapply lookupZ_elem|].
  destruct ((o_fs o).[_]) eqn:E3; [|done]. intros; simplify_eq.
  eapply (table_elem_run _ _ _ _ _ _ _ H3). by eapply lookupZ_elem.
Qed.

Lemma fault_tlb_ok s runs x o va seg f k :
  running s runs x o → tlb_ok s x o → tlb_miss s va → translate x o (page_base va) = Some (seg, f) →
  0 ≤ k < NUM_TLB →
  tlb_ok (set_tlb (λ l, l.[k := (page_base va, make_elo (page s f) seg (loaded s))]) s) x o.
Proof.
  intros Hrun [Hs Hu] Hmiss Ht Hk.
  pose proof (frame_aligned _ _ _ _ (rn_rep _ _ _ _ Hrun) (translate_run _ _ _ _ _ _ _ (rn_as _ _ _ _ Hrun) Ht)) as Hpf.
  destruct (make_elo_flags (page s f) seg (loaded s) Hpf) as (V & W & P).
  constructor; simpl.
  - intros j hi lo Hj Hv. rewrite lookupZ_update in Hj by (rewrite (rn_tlb _ _ _ _ Hrun); lia).
    case_decide; [|by eapply Hs]. injection Hj as <- <-. by exists seg, f.
  - intros i j hi lo lo' Hi Hj V1 V2. rewrite !lookupZ_update in * by (rewrite (rn_tlb _ _ _ _ Hrun); lia).
    repeat case_decide; subst; try done; simplify_eq;
      first [by rewrite (Hmiss _ _ Hi) in V1|by rewrite (Hmiss _ _ Hj) in V2|by eapply Hu].
Qed.

Lemma vm_step_ok s s' runs x o :
  running s runs x o → tlb_ok s x o → vm_step s s' → running s' runs x o ∧ tlb_ok s' x o.
Proof.
  intros Hrun Hok [ft va rnd Hft Hr Hmiss Hf|Ha|Hc].
  - pose proof (vm_fault_spec False s runs x o ft va rnd Hrun Hft Hr) as H.
    destruct (proj1 (wp_elim _ _ _ _ H) _ _ Hf) as (_ & seg & f & k & Ht & [Hk _] & ->).
    split; [apply running_set_tlb; [done|]; rewrite lengthZ_update; apply Hrun|].
    by eapply fault_tlb_ok.
  - destruct (Hrun) as [(a & Hcur & _) _ _ _ Hlen].
    destruct (proj1 (wp_elim _ _ _ _ (as_activate_spec False s a (λ _ _, False) Hcur Hlen)) _ _ Ha) as (l & -> & Hl & Hk).
    split; [by apply running_set_tlb|by apply flushed_ok].
  - destruct (Hrun) as [(a & Hcur & _) _ _ _ Hlen]. unfold as_complete_load, bind, modify in Hc.
    destruct (proj1 (wp_elim _ _ _ _ (as_activate_spec False (set_loaded true s) a (λ _ _, False) Hcur Hlen)) _ _ Hc)
      as (l & -> & Hl & Hk).
    split; [by apply (running_tlb s runs x o l true)|by apply flushed_ok].
Qed.
