(* ===== verification/VmProps.v ===== *)
(** * Virtual memory: the properties

    What fork, exit, page faults and exec rely on the address spaces of
    dumbvm.c for, each with an instance on a machine of 64 pages. *)

From S2P Require Import Prelude Coremap AddrSpace VmInv AsCopy VmFault.
#[local] Open Scope kern_scope.

(** ** A machine to try them on *)

Definition demo_boot64 : cmstate := mkCM 0x30000 0x70000 false 0 0 0 0 [].
Definition demo_cm64 : cmstate :=
  mkCM 0 0 true 1 64 0x30000 0x70000 (mkCE 1 1 :: replicate 63 (mkCE 0 0)).
Lemma demo_boots64 : vm_bootstrap (mkCE 7 7) demo_boot64 = Ok tt demo_cm64.
Proof. vm_compute. reflexivity. Qed.
Lemma demo_cm64_rep : cm_rep demo_cm64 ∅.
Proof.
  assert (boot_memory demo_boot64) as Hb by (constructor; vm_compute; repeat split; discriminate).
  pose proof (vm_bootstrap_spec False (mkCE 7 7) demo_boot64 Hb) as H.
  apply (proj1 (wp_elim _ _ _ _ H) tt demo_cm64 demo_boots64).
Qed.

(** One page of text, one of data; the memory holds whatever it held. *)
Definition demo_space : addrspace := mkAS 0x400000 0 1 0x10000000 0 1 0.
Definition demo_start (ld : bool) : vmstate :=
  mkVM demo_cm64 (λ a, a) {[1000 := demo_space]} (replicate 64 (0, TLBLO_INVALID)) (Some (Some 1000)) ld 1001 [].
Definition demo_vm (ld : bool) : vmstate :=
  match as_prepare_load 1000 (demo_start ld) with Ok _ s => s | _ => demo_start ld end.

Lemma demo_prepared ld : ∃ runs x o, prepared (demo_start ld) ∅ 1000 demo_space (demo_vm ld) runs x o.
Proof.
  pose proof (as_prepare_load_spec False (demo_start ld) ∅ 1000 demo_space demo_cm64_rep eq_refl eq_refl
    eq_refl eq_refl ltac:(simpl; lia) ltac:(simpl; lia)) as H.
  assert (Z.of_nat (length (free_pages demo_cm64 ∅)) = 63) as Hf by (vm_compute; reflexivity).
  unfold demo_vm. unfold wpx in H. destruct (as_prepare_load 1000 (demo_start ld)) as [[] s|e s| |]; try done.
  destruct H as [_ H]. specialize (H ltac:(simpl; lia) ltac:(simpl; lia)). simpl in H. rewrite Hf in H.
  vm_compute in H. done.
Qed.

Record demo_ready (s : vmstate) (runs : gmap Z Z) (x : addrspace) (o : owner) (ld : bool) : Prop := {
  dr_running : running s runs x o;
  dr_space : aspaces s !! 1000 = Some x;
  dr_next : vm_next s = 1001 ∧ aspaces s !! 1001 = None ∧ vm_fate s = [];
  dr_size : as_npages1 x = 1 ∧ as_npages2 x = 1 ∧ as_vbase1 x = 0x400000 ∧ as_vbase2 x = 0x10000000;
  dr_free : pages_needed x ≤ Z.of_nat (length (free_pages (cms s) runs));
  dr_loaded : loaded s = ld
}.

Lemma demo_next ld :
  vm_next (demo_vm ld) = 1001 ∧ aspaces (demo_vm ld) !! 1001 = None ∧ vm_fate (demo_vm ld) = [].
Proof. destruct ld; vm_compute; repeat split. Qed.

Lemma demo_is_ready ld : ∃ runs x o, demo_ready (demo_vm ld) runs x o ld.
Proof.
  destruct (demo_prepared ld) as (runs & x & o & [Hrep Hlay Has (F1 & F2 & F3 & F4) Hsp _ _ _ Hfree _ _ (E1 & E2 & E3)]).
  pose proof (demo_next ld) as Hnext. exists runs, x, o.
  revert Hrep Has Hsp Hfree E1 E2 E3 Hnext. generalize (demo_vm ld). intros s Hrep Has Hsp Hfree E1 E2 E3 Hnext.
  assert (Z.of_nat (length (free_pages demo_cm64 ∅)) = 63) as Hf by (vm_compute; reflexivity).
  assert (aspaces s !! 1000 = Some x) as Hx by (rewrite Hsp; apply lookup_insert_eq).
  constructor; try done.
  - constructor; try done; [exists 1000; by rewrite E2| |by rewrite E1].
    constructor; rewrite ?F1, ?F2, ?F3, ?F4; done.
  - specialize (Hfree ltac:(simpl; lia) ltac:(simpl; lia)).
    change (cms (demo_start ld)) with demo_cm64 in Hfree. rewrite Hf in Hfree.
    change (pages_needed demo_space) with 17 in Hfree. unfold pages_needed. rewrite F2, F4.
    change (as_npages1 demo_space) with 1. change (as_npages2 demo_space) with 1. unfold DUMBVM_STACKPAGES. lia.
Qed.

(** ** Properties *)

(** C8. as_copy, when the pages it needs are free, gives the child an address
    space of the same shape in pages none of which was in use; every word of
    text, data and stack is the parent's, and no word of any page in use
    changes.  It fails only when kmalloc does, and then nothing has changed. *)
Theorem as_copy_correct s runs old x o :
  cm_rep (cms s) runs → aspaces s !! old = Some x → as_rep s runs x o → vm_next s ≠ old →
  as_npages1 x ≤ 1024 → as_npages2 x ≤ 1024 →
  pages_needed x ≤ Z.of_nat (length (free_pages (cms s) runs)) →
  wp (as_copy old)
    (λ new s', new = vm_next s ∧ ∃ runs' y o', space_copied s runs x o new s' runs' y o')
    (λ e s', e = ENOMEM ∧ hd true (vm_fate s) = false ∧
       cms s' = cms s ∧ pmem s' = pmem s ∧ aspaces s' = aspaces s) s.
Proof. apply as_copy_spec. Qed.

Lemma as_copy_correct_witness :
  wp (as_copy 1000)
    (λ new s', new = 1001 ∧ ∃ runs x o runs' y o', space_copied (demo_vm false) runs x o new s' runs' y o')
    (λ _ _, False) (demo_vm false).
Proof.
  destruct (demo_is_ready false) as (runs & x & o & [[_ Hrep Has _ _] Hx (Hn & _ & Hfate) (H1 & H2 & _) Hfree _]).
  assert (vm_next (demo_vm false) ≠ 1000) as Hne by (rewrite Hn; lia).
  eapply wp_conseq; [apply (as_copy_correct _ runs 1000 x o Hrep Hx Has Hne); [rewrite H1; lia|rewrite H2; lia|exact Hfree]| |].
  - intros new s' [-> Hc]. split; [exact Hn|]. exists runs, x, o. exact Hc.
  - intros e s' (_ & Hf & _). rewrite Hfate in Hf. discriminate.
Defined.

Lemma copied_runs s runs x o new s' runs' y o' :
  space_copied s runs x o new s' runs' y o' → foldr delete runs' (owned o') = runs.
Proof.
  intros Hc. apply map_eq. intros p. rewrite lookup_foldr_delete. destruct (decide (p ∈ owned o')) as [Hin|Hno].
  - symmetry. by eapply sc_fresh.
  - destruct (runs' !! p) as [k|] eqn:E.
    + destruct (sc_only _ _ _ _ _ _ _ _ _ Hc p k E); [done|congruence].
    + destruct (runs !! p) as [k|] eqn:E2; [|done]. pose proof (sc_ext _ _ _ _ _ _ _ _ _ Hc p k E2). congruence.
Qed.

(** A child's address space that is copied and then destroyed leaks nothing:
    the coremap is entry for entry what it was, the table of address spaces too,
    and the memory of every page in use is untouched. *)
Theorem as_copy_destroy s runs old x o :
  cm_rep (cms s) runs → aspaces s !! old = Some x → as_rep s runs x o →
  aspaces s !! vm_next s = None → as_npages1 x ≤ 1024 → as_npages2 x ≤ 1024 →
  pages_needed x ≤ Z.of_nat (length (free_pages (cms s) runs)) →
  wp (new <- as_copy old ;; as_destroy new)
    (λ _ s', cms s' = cms s ∧ aspaces s' = aspaces s ∧
       ∀ p k w, runs !! p = Some k → region s p k w → pmem s' w = pmem s w)
    (λ e s', e = ENOMEM ∧ cms s' = cms s ∧ pmem s' = pmem s ∧ aspaces s' = aspaces s) s.
Proof.
  intros Hrep Hold Hx Hnext Hs1 Hs2 Hfree. wp_step.
  eapply wp_conseq; [apply (as_copy_spec _ s runs old x o); try done; congruence| |naive_solver].
  intros new s1 (-> & runs' & y & o' & Hc). destruct (Hc) as [Crep [l Cl] Csp _ Cnew _ _ _ _ _ _ _ Ck _].
  eapply wp_conseq; [apply (as_destroy_spec _ s1 runs' (vm_next s) y o'); try done| |done].
  { rewrite Csp. apply lookup_insert_eq. }
  intros [] s2 (Drep & s3 & [l3 ->] & ->). rewrite (copied_runs _ _ _ _ _ _ _ _ _ Hc) in Drep.
  simpl in *. rewrite Cl in Drep |- *. split_and!; [| |done].
  - apply (cm_rep_inj (cms s) runs l3 Hrep) in Drep. rewrite Drep. by destruct (cms s).
  - rewrite Csp. by apply delete_insert_id.
Qed.

Lemma as_copy_destroy_witness :
  wp (new <- as_copy 1000 ;; as_destroy new)
    (λ _ s', cms s' = cms (demo_vm false) ∧ aspaces s' = aspaces (demo_vm false))
    (λ e _, e = ENOMEM) (demo_vm false).
Proof.
  destruct (demo_is_ready false) as (runs & x & o & [[_ Hrep Has _ _] Hx (Hn & Hnone & _) (H1 & H2 & _) Hfree _]).
  rewrite <- Hn in Hnone.
  eapply wp_conseq; [apply (as_copy_destroy _ runs 1000 x o Hrep Hx Has Hnone); [rewrite H1; lia|rewrite H2; lia|exact Hfree]| |].
  - intros [] s' (Hc & Hs & _). split; [exact Hc|exact Hs].
  - intros e s' (He & _). exact He.
Defined.

Lemma read_as_ok s a x : aspaces s !! a = Some x → read_as a s = Ok x s.
Proof. unfold read_as, bind, get, deref. by intros ->. Qed.

(** No page free means no page table. *)
Lemma alloc_kpages_none c runs n :
  cm_rep c runs → free_pages c runs = [] → 0 < n < 2 ^ 31 → alloc_kpages n c = Ok 0 c.
Proof.
  intros Hrep Hno Hn. pose proof (alloc_kpages_spec False c runs n Hrep Hn) as H. unfold wpx in H.
  destruct (alloc_kpages n c) as [va c'|e c'| |]; try done. case_decide as Hva.
  - subst va. by destruct H as [-> _].
  - destruct H as (r & _ & (Hlo & Hhi & Hw) & _). exfalso.
    assert (window c r 1) as Hr%(window_free c runs r Hrep).
    { split_and!; [done|lia|]. intros i Hi. apply Hw. unfold in_run in *. lia. }
    rewrite Hno in Hr. by apply not_elem_of_nil in Hr.
Qed.

(** When memory has run out, fork does not fail cleanly: as_copy calls
    as_destroy on a space whose text table was never allocated, and as_destroy
    reads the table through the null pointer. *)
Theorem as_copy_no_memory_undefined s runs old x :
  cm_rep (cms s) runs → aspaces s !! old = Some x → vm_next s ≠ old →
  0 < as_npages1 x ≤ 2 ^ 20 → hd true (vm_fate s) = true → free_pages (cms s) runs = [] →
  as_copy old s = Undef.
Proof.
  intros Hrep Hold Hne Hn Hfate Hno.
  assert (alloc_kpages (pagetable_pages (as_npages1 x)) (cms s) = Ok 0 (cms s)) as Hal.
  { apply (alloc_kpages_none _ runs); [done..|]. destruct (pagetable_fits _ Hn). split; [done|].
    unfold pagetable_pages, sizeof_pagetable_entry, u32. rewrite Z.mod_small by lia.
    destruct (ROUNDUP_pages (as_npages1 x * 4)); [lia|]. unfold PAGE_SIZE in *. lia. }
  set (fate := match vm_fate s with [] => [] | _ :: l => l end).
  assert (as_create s = Ok (Some (vm_next s)) (mkVM (cms s) (pmem s) (<[vm_next s := mkAS 0 0 0 0 0 0 0]> (aspaces s))
    (tlb s) (curproc_as s) (loaded s) (vm_next s + 1) fate)) as Hcreate.
  { unfold as_create, fate. destruct (vm_fate s) as [|b l]; [done|]. simpl in Hfate. by subst b. }
  unfold as_copy. rewrite (bind_ok _ _ _ _ _ Hcreate).
  erewrite bind_ok; [|apply read_as_ok; simpl; by rewrite lookup_insert_ne].
  rewrite (bind_ok _ _ _ _ _ (read_as_ok _ (vm_next s) _ (lookup_insert_eq _ _ _))).
  erewrite bind_ok; [|reflexivity].
  set (s1 := set_aspaces _ _). set (y := mkAS _ _ _ _ _ _ _) in s1.
  assert (new_table (vm_next s) (as_npages1 x) set_pbase1 s1 =
    Err ENOMEM (set_aspaces <[vm_next s := set_pbase1 0 y]> s1)) as Htab.
  { unfold new_table, cm, lift, pagetable_alloc. unfold bind at 1. change (cms s1) with (cms s). rewrite Hal.
    erewrite bind_ok; [|apply read_as_ok, lookup_insert_eq]. done. }
  assert (as_prepare_load (vm_next s) s1 = Err ENOMEM (set_aspaces <[vm_next s := set_pbase1 0 y]> s1)) as Hprep.
  { unfold as_prepare_load. erewrite bind_ok; [|apply read_as_ok, lookup_insert_eq].
    do 3 (erewrite bind_ok; [|reflexivity]). apply bind_err. exact Htab. }
  unfold attempt. unfold bind at 1. rewrite Hprep. apply bind_undef. unfold as_destroy.
  erewrite bind_ok; [|apply read_as_ok, lookup_insert_eq]. apply bind_undef.
  unfold free_frames, for_. cbn [as_npages1 set_pbase1 y]. rewrite Z.sub_0_r.
  destruct (Z.to_nat (as_npages1 x)) eqn:E; [lia|done].
Qed.

(** Every page above the coremap taken, as one run. *)
Definition demo_full : vmstate :=
  mkVM (set_coremap (λ _, mkCE 1 1 :: mkCE 1 63 :: replicate 62 (mkCE 1 1)) demo_cm64) (λ a, a)
    {[1000 := demo_space]} [] None false 1001 [].

Lemma as_copy_no_memory_undefined_witness : as_copy 1000 demo_full = Undef.
Proof.
  assert (cm_rep (cms demo_full) {[1 := 63]}) as Hrep.
  { pose proof (coremap_alloc_spec False demo_cm64 ∅ 63 demo_cm64_rep ltac:(lia)) as H.
    assert (coremap_alloc 63 demo_cm64 = Ok 0x31000 (cms demo_full)) as E by (vm_compute; reflexivity).
    destruct (proj1 (wp_elim _ _ _ _ H) _ _ E) as (r & Hr & _ & _ & _ & Hrep & _).
    assert (r = 1) as -> by (unfold page_addr, PAGE_SIZE in Hr; simpl in Hr; lia). exact Hrep. }
  apply (as_copy_no_memory_undefined demo_full {[1 := 63]} 1000 demo_space Hrep);
    [reflexivity|discriminate|simpl; lia|reflexivity|vm_compute; reflexivity].
Defined.

(** C13. A read or write fault is handled exactly when the page lies in the text,
    data or stack of the current address space: vm_fault then enters the frame
    that the segment's page table gives, in a slot that was not valid unless all
    are.  Anywhere else it returns EFAULT and changes nothing. *)
Theorem vm_fault_correct s runs x o ft va rnd :
  running s runs x o → ft = VM_FAULT_READ ∨ ft = VM_FAULT_WRITE → 0 ≤ rnd < NUM_TLB →
  wp (vm_fault ft va rnd)
    (λ r s', r = Handled ∧ ∃ seg f k, translate x o (page_base va) = Some (seg, f) ∧
       fault_slot (tlb s) rnd k ∧
       s' = set_tlb (λ l, l.[k := (page_base va, make_elo (page s f) seg (loaded s))]) s)
    (λ e s', e = EFAULT ∧ s' = s ∧ translate x o (page_base va) = None) s.
Proof. apply vm_fault_spec. Qed.

Lemma vm_fault_correct_witness :
  ∃ runs x o, wp (vm_fault VM_FAULT_WRITE 0x400123 5)
    (λ r s', r = Handled ∧ ∃ seg f k, translate x o 0x400000 = Some (seg, f) ∧
       fault_slot (tlb (demo_vm false)) 5 k ∧
       s' = set_tlb (λ l, l.[k := (0x400000, make_elo (page (demo_vm false) f) seg false)]) (demo_vm false))
    (λ e _, e = EFAULT) (demo_vm false) ∧ running (demo_vm false) runs x o.
Proof.
  destruct (demo_is_ready false) as (runs & x & o & [Hrun _ _ _ _ Hld]). exists runs, x, o. split; [|exact Hrun].
  eapply wp_conseq; [apply (vm_fault_correct _ runs x o VM_FAULT_WRITE 0x400123 5 Hrun); [right; reflexivity|unfold NUM_TLB; lia]| |].
  - intros r s' H. rewrite Hld in H. exact H.
  - intros e s' (He & _). exact He.
Defined.

(** C7. From the moment as_activate has flushed it, the TLB agrees with the page
    tables of the running process, whatever faults are taken and whether or not
    the load completes in between: every valid entry maps a page of the process
    to the frame its table gives, text of a loaded program is not writable, and
    no page is entered twice. *)
Theorem tlb_always_sound s s1 s2 runs x o :
  running s runs x o → as_activate s = Ok tt s1 → rtc vm_step s1 s2 →
  running s2 runs x o ∧ tlb_ok s2 x o.
Proof.
  intros Hrun Ha Hsteps.
  assert (running s1 runs x o ∧ tlb_ok s1 x o) as H1.
  { destruct (Hrun) as [(a & Hcur & _) _ _ _ Hlen].
    destruct (proj1 (wp_elim _ _ _ _ (as_activate_spec False s a (λ _ _, False) Hcur Hlen)) _ _ Ha) as (l & -> & Hl & Hk).
    split; [by apply running_set_tlb|by apply flushed_ok]. }
  clear Ha Hrun s. induction Hsteps as [s1|s1 s' s2 Hstep _ IH]; [done|].
  apply IH. destruct H1. by eapply vm_step_ok.
Qed.

Lemma tlb_always_sound_witness :
  ∃ s1 s2 runs x o, as_activate (demo_vm false) = Ok tt s1 ∧ as_complete_load s1 = Ok tt s2 ∧
    running s2 runs x o ∧ tlb_ok s2 x o.
Proof.
  destruct (demo_is_ready false) as (runs & x & o & [Hrun _ _ _ _ _]).
  destruct (rn_cur _ _ _ _ Hrun) as (a & Hcur & _). pose proof (rn_tlb _ _ _ _ Hrun) as Hlen.
  pose proof (as_activate_spec False _ a (λ _ _, False) Hcur Hlen) as H1. unfold wpx in H1.
  destruct (as_activate (demo_vm false)) as [[] s1|? ?| |] eqn:E1; [|contradiction..].
  destruct H1 as (l & -> & Hl & _).
  pose proof (as_activate_spec False (set_loaded true (set_tlb (λ _, l) (demo_vm false))) a (λ _ _, False) Hcur Hl) as H2.
  unfold wpx in H2. destruct (as_activate (set_loaded _ _)) as [[] s2|? ?| |] eqn:E2; [|contradiction..].
  exists (set_tlb (λ _, l) (demo_vm false)), s2, runs, x, o. split; [reflexivity|]. split; [exact E2|].
  apply (tlb_always_sound _ _ s2 runs x o Hrun E1). apply rtc_once, step_complete. exact E2.
Defined.

(** In a process that has once loaded a program, a write to a text page is
    fatal, even while a new program is being loaded: the write fault enters the
    page without write permission, so that retrying the write kills the process
    with EX_MOD. *)
Theorem loaded_text_write_kills s runs x o va rnd f :
  running s runs x o → loaded s = true → 0 ≤ rnd < NUM_TLB →
  translate x o (page_base va) = Some (TEXT_SEGMENT, f) →
  wp (_ <- vm_fault VM_FAULT_WRITE va rnd ;; vm_fault VM_FAULT_READONLY va rnd)
    (λ r s', r = Killed EX_MOD ∧ ∃ k lo, (tlb s').[k] = Some (page_base va, lo) ∧
       is_valid lo = true ∧ is_writable lo = false ∧ page_base lo = page s f) (λ _ _, False) s.
Proof.
  intros Hrun Hld Hr Ht. wp_step.
  eapply wp_conseq; [apply (vm_fault_spec _ s runs x o VM_FAULT_WRITE va rnd Hrun); auto| |].
  - intros r s' (-> & seg & g & k & Ht' & [Hk _] & ->). unfold vm_fault. wp_step. split; [done|].
    rewrite Ht in Ht'. injection Ht' as <- <-. rewrite Hld.
    pose proof (frame_aligned _ _ _ _ (rn_rep _ _ _ _ Hrun) (translate_run _ _ _ _ _ _ _ (rn_as _ _ _ _ Hrun) Ht)) as Hpf.
    destruct (make_elo_flags (page s f) TEXT_SEGMENT true Hpf) as (V & W & P).
    exists k. eexists. split; [|done]. simpl. rewrite lookupZ_update by (rewrite (rn_tlb _ _ _ _ Hrun); lia).
    by rewrite decide_True.
  - intros e s' (_ & _ & Hno). congruence.
Qed.

Lemma loaded_text_write_kills_witness :
  wp (_ <- vm_fault VM_FAULT_WRITE 0x400010 3 ;; vm_fault VM_FAULT_READONLY 0x400010 3)
    (λ r _, r = Killed EX_MOD) (λ _ _, False) (demo_vm true).
Proof.
  destruct (demo_is_ready true) as (runs & x & o & [Hrun _ _ (H1 & _ & Hb & _) _ Hld]).
  destruct (lookupZ_lt (o_f1 o) 0) as [f Hf].
  { rewrite (tr_len _ _ _ _ _ _ (ar_text _ _ _ _ (rn_as _ _ _ _ Hrun))), H1. lia. }
  assert (translate x o (page_base 0x400010) = Some (TEXT_SEGMENT, f)) as Ht.
  { unfold translate, seg_frame. rewrite Hb. change ((page_base 0x400010 - 0x400000) / PAGE_SIZE) with 0.
    rewrite Hf. reflexivity. }
  eapply wp_conseq; [apply (loaded_text_write_kills _ runs x o 0x400010 3 f Hrun Hld); [unfold NUM_TLB; lia|exact Ht]| |].
  - intros r s' (Hr & _). exact Hr.
  - intros e s' H. exact H.
Defined.
