(* ===== verification/UserMem.v ===== *)
(** * User memory, as the processor reaches it

    What UserCopy.v takes for granted is worked out here: an access to a user
    address goes through the TLB, a miss traps into mips_trap of
    kern/arch/mips/locore/trap.c and from there into vm_fault, and the access is
    tried again.  A fault that vm_fault refuses ends in copyfail when the copy
    routines of kern/vm/copyinout.c have set tm_badfaultfunc, in a panic
    otherwise; a write to the text of a loaded program ends the process.  The
    result is that a process sees one flat memory, [user_byte], whatever the TLB
    holds. *)

From S2P Require Import Prelude UserCopy Coremap AddrSpace VmInv AsCopy VmFault.
#[local] Open Scope kern_scope.

(** ** Bytes of physical memory

    Words are big-endian. *)

Definition byte_weight (a : Z) : Z := 2 ^ (8 * (3 - a mod 4)).
Definition get_byte (m : Z → Z) (a : Z) : Z := m (4 * (a / 4)) / byte_weight a mod 256.
Definition put_byte (m : Z → Z) (a b : Z) : Z → Z := λ w,
  if decide (w = 4 * (a / 4)) then m w + (b - get_byte m a) * byte_weight a else m w.

Lemma get_put_eq m a b : 0 ≤ b < 256 → get_byte (put_byte m a b) a = b.
Proof.
  intros Hb. unfold get_byte at 1. unfold put_byte. rewrite decide_True by done.
  assert (0 < byte_weight a) as Hw by (apply Z.pow_pos_nonneg; [lia|pose proof (Z.mod_pos_bound a 4); lia]).
  rewrite Z.div_add by lia. unfold get_byte. set (q := m _ / byte_weight a).
  rewrite (Z.mod_eq q 256) by lia. replace (q + (b - (q - 256 * (q / 256)))) with (b + (q / 256) * 256) by lia.
  rewrite Z.mod_add by lia. by apply Z.mod_small.
Qed.

(** Changing one byte of a word leaves the other three. *)
Lemma byte_other v d i j :
  0 ≤ i < 4 → 0 ≤ j < 4 → i ≠ j → - 256 < d < 256 →
  0 ≤ v / 2 ^ (8 * i) mod 256 + d < 256 →
  (v + d * 2 ^ (8 * i)) / 2 ^ (8 * j) mod 256 = v / 2 ^ (8 * j) mod 256.
Proof.
  intros Hi Hj Hne Hd Hr. destruct (decide (j < i)).
  - replace (8 * i) with (8 + (8 * (i - j - 1) + 8 * j)) by lia.
    rewrite !Z.pow_add_r by lia.
    replace (v + d * (2 ^ 8 * (2 ^ (8 * (i - j - 1)) * 2 ^ (8 * j)))) with
      (v + (d * 2 ^ (8 * (i - j - 1)) * 256) * 2 ^ (8 * j)) by lia.
    rewrite Z.div_add by lia. by rewrite Z.mod_add by lia.
  - replace (8 * j) with (8 * i + (8 + 8 * (j - i - 1))) by lia.
    rewrite !Z.pow_add_r, <- !Z.div_div by lia. rewrite Z.div_add by lia.
    change (2 ^ 8) with 256. set (q := v / 2 ^ (8 * i)) in *. f_equal. f_equal.
    rewrite (Z.div_mod q 256) at 1 by lia. rewrite <- Z.add_assoc, Z.add_comm, Z.mul_comm, Z.div_add by lia.
    rewrite Z.div_small by lia. lia.
Qed.

Lemma get_put_ne m a b c : 0 ≤ b < 256 → a ≠ c → get_byte (put_byte m a b) c = get_byte m c.
Proof.
  intros Hb Hne. unfold get_byte at 1, put_byte. case_decide as Hw; [|done].
  unfold byte_weight. rewrite byte_other.
  - unfold get_byte. by rewrite Hw.
  - pose proof (Z.mod_pos_bound a 4). lia.
  - pose proof (Z.mod_pos_bound c 4). lia.
  - intros E. apply Hne. pose proof (Z.div_mod a 4). pose proof (Z.div_mod c 4). lia.
  - unfold get_byte. pose proof (Z.mod_pos_bound (m (4 * (a / 4)) / byte_weight a) 256). lia.
  - unfold get_byte. rewrite Hw. fold (byte_weight a).
    pose proof (Z.mod_pos_bound (m (4 * (a / 4)) / byte_weight a) 256). lia.
Qed.

Lemma get_put m a b c : 0 ≤ b < 256 →
  get_byte (put_byte m a b) c = if decide (a = c) then b else get_byte m c.
Proof. intros. case_decide; [subst; by apply get_put_eq|by apply get_put_ne]. Qed.

Lemma get_byte_range m a : 0 ≤ get_byte m a < 256.
Proof. apply Z.mod_pos_bound. lia. Qed.

Lemma get_byte_ext m m' a : m (4 * (a / 4)) = m' (4 * (a / 4)) → get_byte m a = get_byte m' a.
Proof. unfold get_byte. by intros ->. Qed.

(** ** The machine

    Besides the VM system: the number of faults taken so far, which decides what
    tlb_random picks; the blocks kmalloc has handed out, uninitialised cells being
    [None]; and the files held open. *)

Record machine := mkMachine {
  vm : vmstate;
  ticks : Z;
  heap : gmap Z (list (option Z));
  heap_next : Z;
  heap_fate : list bool;
  opened : Z
}.
Definition set_vm v s := mkMachine v (ticks s) (heap s) (heap_next s) (heap_fate s) (opened s).
Definition set_ticks v s := mkMachine (vm s) v (heap s) (heap_next s) (heap_fate s) (opened s).
Definition set_heap v s := mkMachine (vm s) (ticks s) v (heap_next s) (heap_fate s) (opened s).
Definition set_opened v s := mkMachine (vm s) (ticks s) (heap s) (heap_next s) (heap_fate s) v.
Definition on_vm {A} (m : VM A) : M machine A := lift vm set_vm m.

(** Code that may end the process: it comes back with a value, or the thread has
    gone through sys__exit and nothing after it runs, no cleanup either. *)
Inductive ended (A : Type) := Returned (a : A) | Exited (code : Z).
Arguments Returned {A} a.
Arguments Exited {A} code.
Abbreviation XM A := (M machine (ended A)).

Definition xret {A} (a : A) : XM A := ret (Returned a).
Definition xbind {A B} (m : XM A) (k : A → XM B) : XM B :=
  bind m (λ r, match r with Returned a => k a | Exited c => ret (Exited c) end).
Definition xrun {A} (m : M machine A) : XM A := bind m xret.

Notation "x <~ m ;; k" := (xbind m (λ x, k))
  (at level 100, m at next level, right associativity) : kern_scope.
Notation "m ;~ k" := (xbind m (λ _, k)) (at level 100, right associativity) : kern_scope.

(** What holds after a value and what after an exit. *)
Definition fin {A} (Q : A → machine → Prop) (D : Z → machine → Prop) (r : ended A) (s : machine) : Prop :=
  match r with Returned a => Q a s | Exited c => D c s end.

Lemma wp_xbind {A B} X (m : XM A) (k : A → XM B) Q D E s :
  wpx X m (fin (λ a s', wpx X (k a) (fin Q D) E s') D) E s → wpx X (xbind m k) (fin Q D) E s.
Proof.
  intros H. unfold xbind. apply wp_bind. eapply wp_conseq; [exact H| |done].
  intros [a|c] s'; simpl; [done|]. intros. by apply wp_ret.
Qed.

Lemma wp_xret {A} X (a : A) (Q : A → machine → Prop) D E s : Q a s → wpx X (xret a) (fin Q D) E s.
Proof. done. Qed.

Lemma wp_xrun {A} X (m : M machine A) (Q : A → machine → Prop) D E s :
  wpx X m Q E s → wpx X (xrun m) (fin Q D) E s.
Proof. intros H. unfold xrun. wp_step. eapply wp_conseq; [exact H| |done]. intros a s' HQ. exact HQ. Qed.

(** Code that always comes back with a value, and any claim about how the rest
    ends. *)
Lemma after_bind {S A B} (P : outcome S B → Prop) (m : M S A) (k : A → M S B) Q s :
  wp m Q (λ _ _, False) s → (∀ a s', Q a s' → P (k a s')) → P (bind m k s).
Proof. unfold wpx, bind. destruct (m s); naive_solver. Qed.

Lemma after_xbind {A B} (P : outcome machine (ended B) → Prop) (m : XM A) (k : A → XM B) Q s :
  wp m (fin Q (λ _ _, False)) (λ _ _, False) s → (∀ a s', Q a s' → P (k a s')) → P (xbind m k s).
Proof. intros Hm Hk. unfold xbind. eapply after_bind; [exact Hm|]. intros [a|c] s'; [apply Hk|done]. Qed.

Ltac xstep :=
  lazymatch goal with
  | |- wpx _ (xbind _ _) _ _ _ => apply wp_xbind
  | |- wpx _ (xret _) _ _ _ => apply wp_xret
  | |- wpx _ (xrun _) _ _ _ => apply wp_xrun
  | |- _ => wp_step
  end; cbv beta.
Ltac xsteps := repeat xstep.

(** ** Traps *)

Definition EX_IRQ : Z := 0.
Definition EX_TLBL : Z := 2.
Definition EX_TLBS : Z := 3.
Definition EX_ADEL : Z := 4.
Definition EX_ADES : Z := 5.
Definition EX_IBE : Z := 6.
Definition EX_DBE : Z := 7.

(** Where the processor was: in a user program, or in the kernel with or without
    tm_badfaultfunc set. *)
Inductive mode := UserMode | KernelMode (badfaultfunc : bool).

(** A fault in a user program goes to kill_curthread, which panics; one in the
    kernel resumes at copyfail if that is set. *)
Definition fatal_fault {A} (md : mode) : XM A :=
  match md with KernelMode true => fail EFAULT | _ => panic end.

Section Access.
Context (rnd : Z → Z).   (* the slot tlb_random takes at the given fault *)

(** The call of vm_fault in mips_trap, and what follows. *)
Definition trap_fault (md : mode) (ft : faulttype) (va : Z) : XM unit :=
  s <- get ;;
  modify (set_ticks (ticks s + 1)) ;;
  r <- attempt (on_vm (vm_fault ft va (rnd (ticks s)))) ;;
  match r with
  | inl Handled => xret tt
  | inl (Killed c) => ret (Exited c)
  | inr _ => fatal_fault md
  end.

(** mips_trap, for exceptions other than interrupts and system calls. *)
Definition mips_trap (md : mode) (code va : Z) : XM unit :=
  if code =? EX_MOD then trap_fault md VM_FAULT_READONLY va
  else if code =? EX_TLBL then trap_fault md VM_FAULT_READ va
  else if code =? EX_TLBS then trap_fault md VM_FAULT_WRITE va
  else if (code =? EX_IBE) || (code =? EX_DBE) then panic
  else fatal_fault md.

(** The processor's search of the TLB. *)
Fixpoint tlb_probe (l : list (Z * Z)) (va : Z) : option Z :=
  match l with
  | [] => None
  | (hi, lo) :: l' => if (hi =? page_base va) && is_valid lo then Some lo else tlb_probe l' va
  end.

(** The physical address of an access, which is repeated after every fault that
    was dealt with. *)
Fixpoint mmu (fuel : nat) (md : mode) (store : bool) (va : Z) : XM Z :=
  match fuel with
  | O => undef
  | S fuel' =>
      s <- get ;;
      match tlb_probe (tlb (vm s)) va with
      | Some lo =>
          if store && negb (is_writable lo) then mips_trap md EX_MOD va ;~ mmu fuel' md store va
          else xret (page_base lo + va mod PAGE_SIZE)
      | None => mips_trap md (if store then EX_TLBS else EX_TLBL) va ;~ mmu fuel' md store va
      end
  end.

(** Addresses from USERSPACETOP up are the kernel's own: the user may not use
    them, and the kernel's accesses there are not accesses to user memory. *)
Definition user_addr (md : mode) (store : bool) (va : Z) : XM Z :=
  if va <? USERSPACETOP then mmu 2 md store va
  else match md with
       | UserMode => mips_trap md (if store then EX_ADES else EX_ADEL) va ;~ undef
       | KernelMode _ => undef
       end.

Definition load_byte (md : mode) (va : Z) : XM Z :=
  pa <~ user_addr md false va ;;
  s <- get ;;
  xret (get_byte (pmem (vm s)) pa).
Definition store_byte (md : mode) (va b : Z) : XM unit :=
  pa <~ user_addr md true va ;;
  xrun (on_vm (modify (λ s, set_pmem (put_byte (pmem s) pa b) s))).

(** A word, at an address that must be a multiple of four. *)
Definition load_word (md : mode) (va : Z) : XM Z :=
  if negb (va mod 4 =? 0) then mips_trap md EX_ADEL va ;~ undef else
  pa <~ user_addr md false va ;;
  s <- get ;;
  xret (u32 (pmem (vm s) pa)).
End Access.

(** ** The memory a process sees *)

(** The physical address behind a user address, and the byte there. *)
Definition uaddr (s : vmstate) (x : addrspace) (o : owner) (va : Z) : option Z :=
  (λ p : segment_type * Z, page s p.2 + va mod PAGE_SIZE) <$> translate x o (page_base va).
Definition user_byte (s : vmstate) (x : addrspace) (o : owner) (va : Z) : option Z :=
  get_byte (pmem s) <$> uaddr s x o va.

(** The current process runs in [x], and the TLB agrees with its page tables. *)
Record proc_mem (s : machine) (runs : gmap Z Z) (x : addrspace) (o : owner) : Prop := {
  pm_running : running (vm s) runs x o;
  pm_tlb : tlb_ok (vm s) x o
}.

(** Only the TLB and the fault counter differ. *)
Definition refaulted (s s' : machine) : Prop :=
  ∃ l t, s' = set_ticks t (set_vm (set_tlb (λ _, l) (vm s)) s).

Lemma refaulted_refl s : refaulted s s.
Proof. exists (tlb (vm s)), (ticks s). by destruct s as [[]]. Qed.

Lemma refaulted_trans s1 s2 s3 : refaulted s1 s2 → refaulted s2 s3 → refaulted s1 s3.
Proof. intros (l & t & ->) (l' & t' & ->). by exists l', t'. Qed.

Lemma refaulted_same s s' : refaulted s s' →
  pmem (vm s') = pmem (vm s) ∧ (∀ r, page (vm s') r = page (vm s) r) ∧ loaded (vm s') = loaded (vm s) ∧
  aspaces (vm s') = aspaces (vm s) ∧ cms (vm s') = cms (vm s) ∧ heap s' = heap s.
Proof. by intros (l & t & ->). Qed.

Lemma tlb_probe_spec l va :
  match tlb_probe l va with
  | Some lo => (∃ k, l.[k] = Some (page_base va, lo)) ∧ is_valid lo = true
  | None => ∀ k lo, l.[k] = Some (page_base va, lo) → is_valid lo = false
  end.
Proof.
  induction l as [|[hi lo] l IH]; simpl.
  { intros k lo H%lookupZ_Some_range. unfold lengthZ in H. simpl in H. lia. }
  assert (∀ k, 0 < k → ((hi, lo) :: l).[k] = l.[k - 1]) as Hk.
  { intros k ?. change ((hi, lo) :: l) with ([(hi, lo)] ++ l). rewrite lookupZ_app_r; [done|unfold lengthZ; simpl; lia]. }
  destruct ((hi =? page_base va) && is_valid lo) eqn:E.
  { apply andb_true_iff in E as [->%Z.eqb_eq ?]. split; [by exists 0|done]. }
  destruct (tlb_probe l va) as [lo'|].
  - destruct IH as [[k ?] ?]. split; [|done]. exists (k + 1).
    pose proof (lookupZ_Some_range _ _ _ H). rewrite Hk by lia. by rewrite Z.add_simpl_r.
  - intros k lo' Hl. pose proof (lookupZ_Some_range _ _ _ Hl). destruct (decide (k = 0)) as [->|].
    + injection Hl as -> ->. by rewrite Z.eqb_refl in E.
    + rewrite Hk in Hl by lia. by eapply IH.
Qed.

Section AccessSpec.
Context (rnd : Z → Z) (Hrnd : ∀ t, 0 ≤ rnd t < NUM_TLB).
Context (runs : gmap Z Z) (x : addrspace) (o : owner).

(** A miss on a page of the process is dealt with; elsewhere the fault is fatal. *)
Lemma trap_fault_miss X md ft va s :
  proc_mem s runs x o → ft = VM_FAULT_READ ∨ ft = VM_FAULT_WRITE → tlb_miss (vm s) va →
  (translate x o (page_base va) = None → md ≠ KernelMode true → X) →
  wpx X (trap_fault rnd md ft va)
    (fin (λ _ s', refaulted s s' ∧ proc_mem s' runs x o ∧ ¬ tlb_miss (vm s') va ∧
            is_Some (translate x o (page_base va))) (λ _ _, False))
    (λ e s', e = EFAULT ∧ refaulted s s' ∧ proc_mem s' runs x o ∧ md = KernelMode true ∧
       translate x o (page_base va) = None) s.
Proof.
  intros [Hrun Htlb] Hft Hmiss HX. unfold trap_fault.
  wp_steps. unfold on_vm. wp_step. simpl.
  eapply wp_conseq; [apply (vm_fault_spec X (vm s) runs x o ft va (rnd (ticks s)) Hrun Hft)| |]; [done| |].
  - intros r v' (-> & seg & f & k & Ht & [Hk Hs] & ->). xsteps.
    set (g := λ l : list (Z * Z), l.[k := _]).
    assert (lengthZ (g (tlb (vm s))) = NUM_TLB) as Hlen by (unfold g; rewrite lengthZ_update; apply Hrun).
    split_and!.
    + exists (g (tlb (vm s))), (ticks s + 1). done.
    + constructor; simpl; [by apply running_set_tlb|by eapply fault_tlb_ok].
    + intros Hm. specialize (Hm k). simpl in Hm. unfold g in Hm.
      rewrite lookupZ_update_eq in Hm by (rewrite (rn_tlb _ _ _ _ Hrun); done).
      specialize (Hm _ eq_refl).
      destruct (make_elo_flags (page (vm s) f) seg (loaded (vm s))) as [V _]; [|congruence].
      eapply frame_aligned; [apply Hrun|]. eapply translate_run; [apply Hrun|done].
    + by rewrite Ht.
  - intros e v' (-> & -> & Hn). destruct md as [|[]]; simpl; [by apply HX| |by apply HX].
    split_and!; [done| |by constructor|done..]. exists (tlb (vm s)), (ticks s + 1). by destruct s as [[]].
Qed.

Lemma tlb_hit s va lo :
  proc_mem s runs x o → tlb_probe (tlb (vm s)) va = Some lo →
  ∃ seg f, translate x o (page_base va) = Some (seg, f) ∧ page_base lo = page (vm s) f ∧
    is_writable lo = negb (text_locked seg (loaded (vm s))).
Proof.
  intros [Hrun Htlb] Hp. pose proof (tlb_probe_spec (tlb (vm s)) va) as H. rewrite Hp in H.
  destruct H as [[k Hk] Hv]. by apply (tk_sound _ _ _ Htlb) in Hk.
Qed.

Lemma tlb_probe_miss s va : tlb_probe (tlb (vm s)) va = None → tlb_miss (vm s) va.
Proof. intros E. pose proof (tlb_probe_spec (tlb (vm s)) va) as H. by rewrite E in H. Qed.

(** What an access comes to. *)
Definition reached (s : machine) (store : bool) (va : Z) (pa : Z) (s' : machine) : Prop :=
  refaulted s s' ∧ proc_mem s' runs x o ∧ uaddr (vm s) x o va = Some pa ∧
  ∃ seg f, translate x o (page_base va) = Some (seg, f) ∧ (store = true → text_locked seg (loaded (vm s)) = false).
Definition killed (s : machine) (store : bool) (va c : Z) (s' : machine) : Prop :=
  c = EX_MOD ∧ refaulted s s' ∧ proc_mem s' runs x o ∧ store = true ∧ loaded (vm s) = true ∧
  ∃ f, translate x o (page_base va) = Some (TEXT_SEGMENT, f).
Definition refused (s : machine) (md : mode) (va e : Z) (s' : machine) : Prop :=
  e = EFAULT ∧ refaulted s s' ∧ proc_mem s' runs x o ∧ md = KernelMode true ∧
  translate x o (page_base va) = None.

(** With an entry in the TLB the access goes through at once, or the process is
    ended for writing to its text. *)
Lemma mmu_hit X fuel md store va s lo :
  proc_mem s runs x o → tlb_probe (tlb (vm s)) va = Some lo →
  wpx X (mmu rnd (S fuel) md store va) (fin (reached s store va) (killed s store va)) (λ _ _, False) s.
Proof.
  intros Hpm Hp. destruct (tlb_hit s va lo Hpm Hp) as (seg & f & Ht & Hb & Hw).
  simpl. wp_step. wp_step. rewrite Hp, Hw. destruct (store && _) eqn:E.
  - apply andb_true_iff in E as [-> El]. rewrite negb_involutive in El. xstep. unfold mips_trap, trap_fault. simpl.
    wp_steps. unfold on_vm. wp_step. simpl. wp_steps. simpl.
    assert (refaulted s (set_ticks (ticks s + 1) s)) as Hr by (exists (tlb (vm s)), (ticks s + 1); by destruct s as [[]]).
    destruct seg; try done. destruct Hpm. split_and!; [done|by destruct s|by constructor|done..|by eexists].
  - xstep. split_and!; [apply refaulted_refl|done| |].
    + unfold uaddr. by rewrite Ht, Hb.
    + exists seg, f. split; [done|]. intros ->. simpl in E. by rewrite negb_involutive in E.
Qed.

Lemma mmu_miss fuel md (store : bool) va s :
  tlb_probe (tlb (vm s)) va = None →
  mmu rnd (S fuel) md store va s =
  (trap_fault rnd md (if store then VM_FAULT_WRITE else VM_FAULT_READ) va ;~ mmu rnd fuel md store va) s.
Proof. intros E. simpl. unfold bind at 1. simpl. rewrite E. by destruct store. Qed.

Lemma mmu_spec X md store va s :
  proc_mem s runs x o → (translate x o (page_base va) = None → md ≠ KernelMode true → X) →
  wpx X (mmu rnd 2 md store va) (fin (reached s store va) (killed s store va)) (refused s md va) s.
Proof.
  intros Hpm HX. destruct (tlb_probe (tlb (vm s)) va) as [lo|] eqn:E.
  { eapply wp_conseq; [by eapply mmu_hit|done|done]. }
  unfold wpx. rewrite mmu_miss by done. apply wp_xbind.
  eapply wp_conseq; [apply trap_fault_miss; [done|destruct store; auto|by apply tlb_probe_miss|done]| |done].
  intros [[]|c] s1; simpl; [|done]. intros (Hr & Hpm1 & Hno & Ht).
  destruct (tlb_probe (tlb (vm s1)) va) as [lo|] eqn:E1.
  2: { by apply tlb_probe_miss in E1. }
  eapply wp_conseq; [exact (mmu_hit X 0 md store va s1 lo Hpm1 E1)| |done]. destruct (refaulted_same _ _ Hr) as (_ & Hpg & Hl & _).
  intros [pa|c] s2; simpl.
  - intros (? & ? & Hu & seg & f & ? & ?). split_and!; [by eapply refaulted_trans|done| |].
    + rewrite <- Hu. unfold uaddr. destruct (translate x o (page_base va)); simpl; [by rewrite Hpg|done].
    + exists seg, f. by rewrite <- Hl.
  - intros (? & ? & ? & ? & ? & ?). split_and!; try done; [by eapply refaulted_trans|by rewrite <- Hl].
Qed.
End AccessSpec.

(** ** Reading and writing *)

Definition frames (o : owner) : list Z := o_f1 o ++ o_f2 o ++ o_fs o.

(** Different user addresses are different bytes of memory. *)
Lemma seg_frame_inj base p q fs f :
  NoDup fs → base mod PAGE_SIZE = 0 → p mod PAGE_SIZE = 0 → q mod PAGE_SIZE = 0 →
  seg_frame base p fs = Some f → seg_frame base q fs = Some f → p = q.
Proof.
  unfold seg_frame, PAGE_SIZE. intros Hnd Hb Hp Hq H1 H2.
  pose proof (lookupZ_Some_range _ _ _ H1). pose proof (lookupZ_Some_range _ _ _ H2).
  rewrite lookupZ_nat in H1, H2 by lia. pose proof (NoDup_lookup _ _ _ _ Hnd H1 H2). clear H1 H2. Z.div_mod_to_equations. lia.
Qed.

Definition seg_base (x : addrspace) (seg : segment_type) : Z :=
  match seg with
  | TEXT_SEGMENT => as_vbase1 x
  | DATA_SEGMENT => as_vbase2 x
  | STACK_SEGMENT => USERSTACK - DUMBVM_STACKPAGES * PAGE_SIZE
  end.
Definition seg_frames (o : owner) (seg : segment_type) : list Z :=
  match seg with TEXT_SEGMENT => o_f1 o | DATA_SEGMENT => o_f2 o | STACK_SEGMENT => o_fs o end.

Lemma translate_seg x o va seg f :
  translate x o va = Some (seg, f) → seg_frame (seg_base x seg) va (seg_frames o seg) = Some f.
Proof. unfold translate. repeat case_match; naive_solver. Qed.

Lemma translate_inj s runs x o p q g h f :
  as_rep s runs x o → as_wf x → p mod PAGE_SIZE = 0 → q mod PAGE_SIZE = 0 →
  translate x o p = Some (g, f) → translate x o q = Some (h, f) → p = q.
Proof.
  intros Hx [[_ B1] [_ B2] _ _] Hp Hq E1%translate_seg E2%translate_seg.
  destruct (owned_apart o (ar_nodup _ _ _ _ Hx)) as (_ & _ & _ & (N1 & N2 & N3) & D1 & D2).
  pose proof (lookupZ_elem _ _ _ E1) as I1. pose proof (lookupZ_elem _ _ _ E2) as I2.
  destruct g, h; simpl in *; try (exfalso; naive_solver).
  - by apply (seg_frame_inj (as_vbase1 x) p q (o_f1 o) f).
  - by apply (seg_frame_inj (as_vbase2 x) p q (o_f2 o) f).
  - by apply (seg_frame_inj (seg_base x STACK_SEGMENT) p q (o_fs o) f).
Qed.

Lemma page_base_mod va : 0 ≤ va < 2 ^ 32 → page_base va mod PAGE_SIZE = 0.
Proof. intros. rewrite page_base_div by done. apply Z.mod_mul. done. Qed.

Lemma uaddr_inj s runs x o va vb pa :
  as_rep s runs x o → as_wf x → 0 ≤ va < 2 ^ 32 → 0 ≤ vb < 2 ^ 32 →
  uaddr s x o va = Some pa → uaddr s x o vb = Some pa → va = vb.
Proof.
  intros Hx Hwf Ha Hb. unfold uaddr.
  destruct (translate x o (page_base va)) as [[g f]|] eqn:T1; [|done].
  destruct (translate x o (page_base vb)) as [[h f']|] eqn:T2; [|done]. simpl.
  intros [= E1] [= E2].
  pose proof (Z.mod_pos_bound va PAGE_SIZE). pose proof (Z.mod_pos_bound vb PAGE_SIZE).
  assert (f = f') as <- by (unfold page, page_addr, PAGE_SIZE in *; lia).
  pose proof (translate_inj _ _ _ _ _ _ _ _ _ Hx Hwf (page_base_mod _ Ha) (page_base_mod _ Hb) T1 T2) as E.
  rewrite !page_base_div in E by done. pose proof (Z.div_mod va PAGE_SIZE). pose proof (Z.div_mod vb PAGE_SIZE).
  unfold PAGE_SIZE in *. lia.
Qed.

Lemma translate_frame x o va seg f : translate x o va = Some (seg, f) → f ∈ frames o.
Proof.
  intros E%translate_seg%lookupZ_elem. unfold frames. rewrite !elem_of_app. destruct seg; auto.
Qed.

(** The memory of the frames and the TLB may differ, nothing else. *)
Definition touched (o : owner) (s s' : machine) : Prop :=
  ∃ m l t, s' = set_ticks t (set_vm (set_tlb (λ _, l) (set_pmem m (vm s))) s) ∧
    only_frames (vm s) m (frames o).

Lemma touched_refl o s : touched o s s.
Proof. exists (pmem (vm s)), (tlb (vm s)), (ticks s). split; [by destruct s as [[]]|done]. Qed.

Lemma touched_trans o s1 s2 s3 : touched o s1 s2 → touched o s2 s3 → touched o s1 s3.
Proof.
  intros (m & l & t & -> & H1) (m' & l' & t' & -> & H2). exists m', l', t'. split; [done|].
  intros a Ha. rewrite (H2 a) by exact Ha. by apply H1.
Qed.

Lemma refaulted_touched o s s' : refaulted s s' → touched o s s'.
Proof. intros (l & t & ->). exists (pmem (vm s)), l, t. split; [by destruct s as [[]]|done]. Qed.

Lemma touched_same o s s' : touched o s s' →
  (∀ r, page (vm s') r = page (vm s) r) ∧ loaded (vm s') = loaded (vm s) ∧
  aspaces (vm s') = aspaces (vm s) ∧ cms (vm s') = cms (vm s) ∧ heap s' = heap s ∧ opened s' = opened s.
Proof. by intros (m & l & t & -> & _). Qed.

Section Owned.
Context (runs : gmap Z Z) (x : addrspace) (o : owner).

Lemma frames_run s f : as_rep s runs x o → f ∈ frames o → runs !! f = Some 1.
Proof.
  intros [T1 T2 T3 _]. unfold frames. rewrite !elem_of_app.
  intros [Hf|[Hf|Hf]]; (eapply table_elem_run; [|exact Hf]; done).
Qed.

(** Stores to the frames leave the page tables alone. *)
Lemma running_pmem s m : running s runs x o → only_frames s m (frames o) → running (set_pmem m s) runs x o.
Proof.
  intros [Hc Hrep Has Hwf Ht] Ho. constructor; try done.
  destruct (owned_apart o (ar_nodup _ _ _ _ Has)) as ((?&?&?) & (?&?&?) & (?&?&?) & _).
  destruct Has as [T1 T2 T3 Tn] eqn:E.
  assert (∀ d, d ∈ frames o → runs !! d = Some 1) as Hrun by (intros d; by eapply frames_run).
  constructor; [| | |done]; apply (only_frames_table s runs m (frames o) Hrep Hrun Ho); try done;
    unfold frames; rewrite !not_elem_of_app; done.
Qed.

Lemma proc_mem_pmem s m :
  proc_mem s runs x o → only_frames (vm s) m (frames o) → proc_mem (set_vm (set_pmem m (vm s)) s) runs x o.
Proof. intros [Hr [Ht Hu]] Ho. constructor; [by apply running_pmem|by constructor]. Qed.

Definition user_same (s s' : machine) : Prop := ∀ a, user_byte (vm s') x o a = user_byte (vm s) x o a.

Lemma refaulted_user s s' : refaulted s s' → user_same s s'.
Proof. by intros (l & t & ->) a. Qed.

(** One byte. *)
Lemma put_byte_frames s va pa b :
  running s runs x o → uaddr s x o va = Some pa → only_frames s (put_byte (pmem s) pa b) (frames o).
Proof.
  intros Hrun Hu a Ha. unfold uaddr in Hu. destruct (translate x o (page_base va)) as [[g f]|] eqn:Ht; [|done].
  injection Hu as <-. unfold put_byte. rewrite decide_False; [done|]. intros ->.
  apply (Ha f (translate_frame _ _ _ _ _ Ht)).
  pose proof (translate_run _ _ _ _ _ _ _ (rn_as _ _ _ _ Hrun) Ht) as Hf.
  pose proof (frame_aligned _ _ _ _ (rn_rep _ _ _ _ Hrun) Hf) as Hal.
  pose proof (page_range _ _ _ _ (rn_rep _ _ _ _ Hrun) Hf). rewrite page_base_div in Hal by (simpl; lia).
  pose proof (Z.mod_pos_bound va PAGE_SIZE). unfold region, PAGE_SIZE in *. simpl in *. Z.div_mod_to_equations. lia.
Qed.

Lemma put_byte_user s va pa b a :
  running s runs x o → uaddr s x o va = Some pa → 0 ≤ b < 256 → 0 ≤ va < 2 ^ 32 → 0 ≤ a < 2 ^ 32 →
  user_byte (set_pmem (put_byte (pmem s) pa b) s) x o a =
  if decide (a = va) then Some b else user_byte s x o a.
Proof.
  intros Hrun Hu Hb Hva Ha. unfold user_byte. change (uaddr (set_pmem _ s) x o a) with (uaddr s x o a).
  case_decide as E; [subst; rewrite Hu; simpl; by rewrite get_put_eq|].
  destruct (uaddr s x o a) as [pb|] eqn:Hub; simpl; [|done]. f_equal. apply get_put_ne; [done|].
  intros ->. apply E. eapply uaddr_inj; [apply Hrun|apply Hrun|done..].
Qed.
End Owned.

(** The user's bytes after [l] has been written at [va]. *)
Definition upd (f : Z → option Z) (va : Z) (l : list Z) : Z → option Z :=
  λ a, if decide (va ≤ a < va + lengthZ l) then l.[a - va] else f a.

Lemma upd_nil f va a : upd f va [] a = f a.
Proof. unfold upd. rewrite decide_False; [done|]. unfold lengthZ. simpl. lia. Qed.

Lemma upd_cons f g va b l a :
  g a = (if decide (a = va) then Some b else f a) → upd g (va + 1) l a = upd f va (b :: l) a.
Proof.
  intros Hg. unfold upd. rewrite lengthZ_cons, Hg. pose proof (lengthZ_nonneg l).
  destruct (decide (a = va)) as [->|].
  - rewrite decide_False by lia. rewrite decide_True by lia. by rewrite Z.sub_diag.
  - destruct (decide (va + 1 ≤ a < va + 1 + lengthZ l)).
    + rewrite decide_True by lia. change (b :: l) with ([b] ++ l).
      rewrite lookupZ_app_r by (unfold lengthZ; simpl; lia). f_equal. unfold lengthZ. simpl. lia.
    + rewrite decide_False by lia. done.
Qed.

(** ** Copies between kernel and user

    copyout and copyin of kern/vm/copyinout.c with the accesses as the processor
    makes them; the bytes on the kernel side are a list. *)
Section CopyOut.
Context (rnd : Z → Z).

Fixpoint store_bytes (va : Z) (l : list Z) : XM unit :=
  match l with
  | [] => xret tt
  | b :: l' => store_byte rnd (KernelMode true) va b ;~ store_bytes (va + 1) l'
  end.

Definition copyout_bytes (data : list Z) (userdest : Z) : XM unit :=
  match copycheck userdest (lengthZ data) with
  | inr e => fail e
  | inl stoplen => if negb (stoplen =? lengthZ data) then fail EFAULT else store_bytes userdest data
  end.
End CopyOut.

Section StoreSpec.
Context (rnd : Z → Z) (Hrnd : ∀ t, 0 ≤ rnd t < NUM_TLB).
Context (runs : gmap Z Z) (x : addrspace) (o : owner).

Definition mapped_at (va : Z) : Prop := is_Some (translate x o (page_base va)).
(** A byte of the process that it may write to. *)
Definition writable_at (ld : bool) (va : Z) : Prop :=
  ∃ seg f, translate x o (page_base va) = Some (seg, f) ∧ text_locked seg ld = false.

(** The bytes [l] have been written at [va]. *)
Definition wrote (s : machine) (va : Z) (l : list Z) (s' : machine) : Prop :=
  touched o s s' ∧ proc_mem s' runs x o ∧
  ∀ a, 0 ≤ a < 2 ^ 32 → user_byte (vm s') x o a = upd (user_byte (vm s) x o) va l a.
(** The process was ended for writing to its text somewhere in the range. *)
Definition ended_in (s : machine) (va n c : Z) (s' : machine) : Prop :=
  c = EX_MOD ∧ touched o s s' ∧ proc_mem s' runs x o ∧ loaded (vm s) = true ∧
  ∃ k f, 0 ≤ k < n ∧ translate x o (page_base (va + k)) = Some (TEXT_SEGMENT, f).
(** Somewhere in the range there is no page. *)
Definition hole_in (s : machine) (va n e : Z) (s' : machine) : Prop :=
  e = EFAULT ∧ touched o s s' ∧ proc_mem s' runs x o ∧ ∃ k, 0 ≤ k < n ∧ ¬ mapped_at (va + k).

Lemma store_byte_spec X va b s :
  proc_mem s runs x o → 0 ≤ va < USERSPACETOP → 0 ≤ b < 256 →
  wpx X (store_byte rnd (KernelMode true) va b)
    (fin (λ _ s', writable_at (loaded (vm s)) va ∧ touched o s s' ∧ proc_mem s' runs x o ∧
            ∀ a, 0 ≤ a < 2 ^ 32 → user_byte (vm s') x o a = if decide (a = va) then Some b else user_byte (vm s) x o a)
         (ended_in s va 1)) (λ e s', hole_in s va 1 e s' ∧ user_same x o s s') s.
Proof.
  intros Hpm Hva Hb. unfold store_byte, user_addr. rewrite (proj2 (Z.ltb_lt va USERSPACETOP)) by lia. xstep.
  eapply wp_conseq; [by apply (mmu_spec rnd Hrnd runs x o X (KernelMode true) true va s Hpm)| |].
  - intros [pa|c] s1; simpl.
    + intros (Hr & Hpm1 & Hu & seg & f & Ht & Hw). xstep. unfold on_vm. wp_step. wp_step.
      destruct (refaulted_same _ _ Hr) as (Hm & Hpg & Hl & _).
      assert (uaddr (vm s1) x o va = Some pa) as Hu1.
      { rewrite <- Hu. unfold uaddr. destruct (translate x o (page_base va)); simpl; [by rewrite Hpg|done]. }
      pose proof (put_byte_frames runs x o (vm s1) va pa b (pm_running _ _ _ _ Hpm1) Hu1) as Ho.
      split_and!.
      * exists seg, f. split; [done|by apply Hw].
      * eapply touched_trans; [by apply refaulted_touched|]. exists (put_byte (pmem (vm s1)) pa b), (tlb (vm s1)), (ticks s1).
        split; [by destruct s1 as [[]]|done].
      * by apply proc_mem_pmem.
      * intros a Ha. simpl. rewrite (put_byte_user runs x o (vm s1) va pa b a) by (done || apply Hpm1 || (unfold USERSPACETOP in *; lia)).
        case_decide; [done|]. by apply refaulted_user.
    + intros (-> & Hr & Hpm1 & _ & Hl & f & Ht). split_and!; [done|by apply refaulted_touched|done..|].
      exists 0, f. by rewrite Z.add_0_r.
  - intros e s1 (-> & Hr & Hpm1 & _ & Hn). split; [|by apply refaulted_user].
    split_and!; [done|by apply refaulted_touched|done|]. exists 0. rewrite Z.add_0_r. unfold mapped_at. rewrite Hn. split; [lia|by intros []].
Qed.

Lemma store_bytes_spec X l va s :
  proc_mem s runs x o → 0 ≤ va → va + lengthZ l ≤ USERSPACETOP → Forall (λ b, 0 ≤ b < 256) l →
  wpx X (store_bytes rnd va l)
    (fin (λ _, wrote s va l) (ended_in s va (lengthZ l))) (hole_in s va (lengthZ l)) s.
Proof.
  revert va s. induction l as [|b l IH]; intros va s Hpm Hva Hlen Hl.
  { apply wp_xret. split_and!; [apply touched_refl|done|]. intros a Ha. by rewrite upd_nil. }
  apply Forall_cons in Hl as [Hb Hl]. rewrite lengthZ_cons in *. pose proof (lengthZ_nonneg l). simpl. xstep.
  eapply wp_conseq; [apply store_byte_spec; [done|lia|done]| |].
  - intros [[]|c] s1; simpl.
    + intros (Hw & Ht & Hpm1 & Hu). destruct (touched_same _ _ _ Ht) as (_ & Hld & _).
      eapply wp_conseq; [apply (IH (va + 1) s1); [done|lia|lia|done]| |].
      * intros [[]|c] s2; simpl.
        -- intros (Ht2 & Hpm2 & Hu2). split_and!; [by eapply touched_trans|done|]. intros a Ha. rewrite Hu2 by done.
           by apply upd_cons, Hu.
        -- intros (-> & ? & ? & ? & k & f & Hk & Hf). split_and!; [done|by eapply touched_trans|done|congruence|].
           exists (k + 1), f. split; [lia|]. by replace (va + (k + 1)) with (va + 1 + k) by lia.
      * intros e s2 (-> & ? & ? & k & Hk & Hf). split_and!; [done|by eapply touched_trans|done|].
        exists (k + 1). split; [lia|]. by replace (va + (k + 1)) with (va + 1 + k) by lia.
    + intros (-> & ? & ? & ? & k & f & Hk & Hf). split_and!; [done..|]. exists k, f. split; [lia|done].
  - intros e s1 [(-> & ? & ? & k & Hk & Hf) _]. split_and!; [done..|]. exists k. split; [lia|done].
Qed.

Lemma copyout_bytes_spec X l dst s :
  proc_mem s runs x o → 0 < lengthZ l → 0 ≤ dst → dst + lengthZ l ≤ USERSPACETOP → Forall (λ b, 0 ≤ b < 256) l →
  wpx X (copyout_bytes rnd l dst)
    (fin (λ _, wrote s dst l) (ended_in s dst (lengthZ l))) (hole_in s dst (lengthZ l)) s.
Proof.
  intros Hpm Hn Hd Hlen Hl. unfold copyout_bytes.
  pose proof (copycheck_spec dst (lengthZ l)) as Hc. unfold USERSPACETOP in *.
  specialize (Hc ltac:(lia) ltac:(lia)). destruct (copycheck dst (lengthZ l)) as [st|e]; [|lia].
  destruct Hc as (_ & -> & _). replace (negb _) with false by lia. by apply store_bytes_spec.
Qed.
(** Where the process may write, the copy succeeds. *)
Lemma copyout_writable X l dst s :
  proc_mem s runs x o → 0 < lengthZ l → 0 ≤ dst → dst + lengthZ l ≤ USERSPACETOP → Forall (λ b, 0 ≤ b < 256) l →
  (∀ k, 0 ≤ k < lengthZ l → writable_at (loaded (vm s)) (dst + k)) →
  wpx X (copyout_bytes rnd l dst) (fin (λ _, wrote s dst l) (λ _ _, False)) (λ _ _, False) s.
Proof.
  intros Hpm Hn Hd Hlen Hl Hw. eapply wp_conseq; [by apply copyout_bytes_spec| |].
  - intros [[]|c] s1; simpl; [done|]. intros (_ & _ & _ & Hld & k & f & Hk & Ht).
    destruct (Hw k Hk) as (g & h & Ht' & Hx). rewrite Ht in Ht'. injection Ht' as <- <-. rewrite Hld in Hx. done.
  - intros e s1 (_ & _ & _ & k & Hk & Hno). destruct (Hw k Hk) as (g & h & Ht' & _). apply Hno. by eexists.
Qed.

Lemma wrote_app s va l1 s1 l2 s2 :
  wrote s va l1 s1 → wrote s1 (va + lengthZ l1) l2 s2 → wrote s va (l1 ++ l2) s2.
Proof.
  intros (T1 & _ & U1) (T2 & P2 & U2). split_and!; [by eapply touched_trans|done|].
  intros a Ha. rewrite U2 by done. unfold upd at 1. rewrite U1 by done. unfold upd. rewrite lengthZ_app.
  pose proof (lengthZ_nonneg l1). pose proof (lengthZ_nonneg l2).
  repeat case_decide; try done; try lia.
  - rewrite lookupZ_app_r by lia. f_equal. lia.
  - by rewrite lookupZ_app_l by lia.
Qed.

Lemma wrote_nil s va : proc_mem s runs x o → wrote s va [] s.
Proof. intros. split_and!; [apply touched_refl|done|]. intros. by rewrite upd_nil. Qed.
End StoreSpec.
