(* ===== verification/KernBuf.v ===== *)
(** * Kernel buffers and strings

    The buffers sys_execv takes from kmalloc, the strings in them, and the string
    copies of kern/vm/copyinout.c between them and user memory.  A block is a list
    of cells, uninitialised ones being [None]; using a cell that was never written,
    an index outside the block or a block that was freed is undefined.  Strings in
    user memory that the kernel reads without copyin, as sys_execv does, are read
    byte by byte with no badfaultfunc set. *)

From S2P Require Import Prelude UserCopy Coremap AddrSpace VmInv AsCopy VmFault UserMem.
#[local] Open Scope kern_scope.

(** ** Blocks *)

Definition kmalloc_buf (n : Z) : M machine (option Z) := λ s,
  let '(b, rest) := match heap_fate s with [] => (true, []) | b :: r => (b, r) end in
  if b : bool then
    Ok (Some (heap_next s))
       (mkMachine (vm s) (ticks s) (<[heap_next s := replicate (Z.to_nat n) None]> (heap s))
          (heap_next s + 1) rest (opened s))
  else Ok None (mkMachine (vm s) (ticks s) (heap s) (heap_next s) rest (opened s)).

Definition kfree_buf (p : Z) : M machine unit :=
  s <- get ;;
  deref (heap s !! p) ;;
  modify (set_heap (delete p (heap s))).

Definition kread (p i : Z) : M machine Z :=
  s <- get ;;
  b <- deref (heap s !! p) ;;
  c <- deref b.[i] ;;
  deref c.
Definition kwrite (p i v : Z) : M machine unit :=
  s <- get ;;
  b <- deref (heap s !! p) ;;
  if (0 <=? i) && (i <? lengthZ b) then modify (set_heap (<[p := b.[i := Some v]]> (heap s))) else undef.

(** The characters of the string in block [p] from index [i] on. *)
Fixpoint kstring_loop (fuel : nat) (p i : Z) : M machine (list Z) :=
  match fuel with
  | O => undef
  | S fuel' =>
      c <- kread p i ;;
      if c =? 0 then ret [] else l <- kstring_loop fuel' p (i + 1) ;; ret (c :: l)
  end.
Definition kstring (p : Z) : M machine (list Z) :=
  s <- get ;;
  b <- deref (heap s !! p) ;;
  kstring_loop (length b) p 0.
Definition kstrlen (p : Z) : M machine Z := l <- kstring p ;; ret (lengthZ l).

(** ** String copies *)

Section Strings.
Context (rnd : Z → Z).

(** copystr towards the kernel and towards the user. *)
Fixpoint copystr_in (fuel : nat) (i kbuf usersrc maxlen stoplen : Z) : XM unit :=
  match fuel with
  | O => undef
  | S fuel' =>
      if (i <? maxlen) && (i <? stoplen) then
        c <~ load_byte rnd (KernelMode true) (usersrc + i) ;;
        kwrite kbuf i c ;;
        c <~ load_byte rnd (KernelMode true) (usersrc + i) ;;
        if c =? 0 then xret tt else copystr_in fuel' (i + 1) kbuf usersrc maxlen stoplen
      else if stoplen <? maxlen then fail EFAULT else fail ENAMETOOLONG
  end.
Fixpoint copystr_out (fuel : nat) (i kbuf userdest maxlen stoplen : Z) : XM unit :=
  match fuel with
  | O => undef
  | S fuel' =>
      if (i <? maxlen) && (i <? stoplen) then
        c <- kread kbuf i ;;
        store_byte rnd (KernelMode true) (userdest + i) c ;~
        c <- kread kbuf i ;;
        if c =? 0 then xret tt else copystr_out fuel' (i + 1) kbuf userdest maxlen stoplen
      else if stoplen <? maxlen then fail EFAULT else fail ENAMETOOLONG
  end.

Definition copyinstr_buf (usersrc kbuf len : Z) : XM unit :=
  match copycheck usersrc len with
  | inr e => fail e
  | inl stoplen => copystr_in (S (Z.to_nat len)) 0 kbuf usersrc len stoplen
  end.
Definition copyoutstr_buf (kbuf userdest len : Z) : XM unit :=
  match copycheck userdest len with
  | inr e => fail e
  | inl stoplen => copystr_out (S (Z.to_nat len)) 0 kbuf userdest len stoplen
  end.

(** ** Strings the kernel reads from user memory directly *)

(** The bytes from [p] to the first one that satisfies [stop]; that one is given
    back as well.  An address above the user's ends the walk, so that no more than
    2^31 + 1 rounds are run. *)
Definition scan (stop : Z → bool) (p : Z) : XM (list Z * Z) :=
  while (2 ^ 32) (λ a : Z * list Z,
    r <- load_byte rnd (KernelMode false) a.1 ;;
    match r with
    | Exited c => ret (inr (Exited c))
    | Returned c => if stop c then ret (inr (Returned (reverse a.2, c))) else ret (inl (a.1 + 1, c :: a.2))
    end) (p, []).

Definition user_string (p : Z) : XM (list Z) := r <~ scan (λ c, c =? 0) p ;; xret r.1.
Definition user_strlen (p : Z) : XM Z := l <~ user_string p ;; xret (lengthZ l).
End Strings.

(** ** What user memory holds *)

(** The bytes [l] are at [va]. *)
Definition user_bytes (w : vmstate) (x : addrspace) (o : owner) (va : Z) (l : list Z) : Prop :=
  0 ≤ va ∧ va + lengthZ l ≤ USERSPACETOP ∧ ∀ k, 0 ≤ k < lengthZ l → user_byte w x o (va + k) = l.[k].
(** A C string. *)
Definition user_str (w : vmstate) (x : addrspace) (o : owner) (va : Z) (l : list Z) : Prop :=
  Forall (λ b, b ≠ 0) l ∧ user_bytes w x o va (l ++ [0]).

Lemma user_bytes_ext w w' x o va l :
  (∀ a, va ≤ a < va + lengthZ l → user_byte w' x o a = user_byte w x o a) →
  user_bytes w x o va l → user_bytes w' x o va l.
Proof. intros H (? & ? & Hk). split_and!; [done..|]. intros k ?. rewrite H by lia. by apply Hk. Qed.

Lemma user_bytes_app w x o va l1 l2 :
  user_bytes w x o va (l1 ++ l2) ↔ user_bytes w x o va l1 ∧ user_bytes w x o (va + lengthZ l1) l2.
Proof.
  unfold user_bytes. rewrite lengthZ_app. pose proof (lengthZ_nonneg l1). pose proof (lengthZ_nonneg l2). split.
  - intros (? & ? & H3). split; (split; [lia|split; [lia|]]); intros k Hk.
    + rewrite H3 by lia. by rewrite lookupZ_app_l by lia.
    + rewrite <- Z.add_assoc, H3 by lia. rewrite lookupZ_app_r by lia. f_equal. lia.
  - intros ((? & ? & Ha) & (? & ? & Hb)). split_and!; [lia..|]. intros k Hk. destruct (decide (k < lengthZ l1)).
    + rewrite lookupZ_app_l by lia. apply Ha. lia.
    + rewrite lookupZ_app_r by lia. rewrite <- Hb by lia. f_equal. lia.
Qed.

Lemma user_bytes_mapped w x o va l k : user_bytes w x o va l → 0 ≤ k < lengthZ l → mapped_at x o (va + k).
Proof.
  intros (_ & _ & H) Hk. specialize (H k Hk). destruct (lookupZ_lt l k Hk) as [b Hb]. rewrite Hb in H.
  unfold mapped_at, user_byte, uaddr in *. destruct (translate x o (page_base (va + k))); [by eexists|done].
Qed.

Section ReadSpec.
Context (rnd : Z → Z) (Hrnd : ∀ t, 0 ≤ rnd t < NUM_TLB).
Context (runs : gmap Z Z) (x : addrspace) (o : owner).

Lemma load_byte_spec X md va b s :
  proc_mem s runs x o → 0 ≤ va < USERSPACETOP → user_byte (vm s) x o va = Some b →
  wpx X (load_byte rnd md va)
    (fin (λ b' s', b' = b ∧ refaulted s s' ∧ proc_mem s' runs x o) (λ _ _, False)) (λ _ _, False) s.
Proof.
  intros Hpm Hva Hb. unfold load_byte, user_addr. rewrite (proj2 (Z.ltb_lt va USERSPACETOP)) by lia. xstep.
  assert (translate x o (page_base va) ≠ None) as Ht.
  { unfold user_byte, uaddr in Hb. by destruct (translate x o (page_base va)). }
  eapply wp_conseq; [by apply (mmu_spec rnd Hrnd runs x o X md false va s Hpm)| |].
  - intros [pa|c] s1; simpl; [|by intros (_ & _ & _ & ? & _)].
    intros (Hr & Hpm1 & Hu & _). xsteps. split_and!; [|done..].
    destruct (refaulted_same _ _ Hr) as (-> & _). unfold user_byte in Hb. rewrite Hu in Hb. by injection Hb.
  - by intros e s1 (_ & _ & _ & _ & Hn).
Qed.

Lemma word_of_bytes z : word_of (z / 2 ^ 24 mod 256) (z / 2 ^ 16 mod 256) (z / 2 ^ 8 mod 256) (z mod 256) = u32 z.
Proof. unfold word_of, u32. Z.div_mod_to_equations. lia. Qed.

(** Four bytes at an aligned address are a word of memory. *)
Lemma user_word w va z :
  running w runs x o → va mod 4 = 0 → is_word z → user_bytes w x o va (word_bytes z) →
  ∃ pa, uaddr w x o va = Some pa ∧ u32 (pmem w pa) = z.
Proof.
  intros Hrun Hal Hz (Hva & Htop & Hb). unfold USERSPACETOP in *. change (lengthZ (word_bytes z)) with 4 in *.
  assert (∀ k, 0 ≤ k < 4 → page_base (va + k) = page_base va ∧ (va + k) mod PAGE_SIZE = va mod PAGE_SIZE + k) as Hpg.
  { intros k Hk. rewrite !page_base_div by lia. unfold PAGE_SIZE. Z.div_mod_to_equations. lia. }
  pose proof (Hb 0 ltac:(lia)) as B0. unfold user_byte, uaddr in B0 |- *. rewrite Z.add_0_r in B0.
  destruct (translate x o (page_base va)) as [[g f]|] eqn:Ht; [|done]. simpl in *. eexists. split; [done|].
  pose proof (translate_run _ _ _ _ _ _ _ (rn_as _ _ _ _ Hrun) Ht) as Hf.
  pose proof (frame_aligned _ _ _ _ (rn_rep _ _ _ _ Hrun) Hf) as Hfa. pose proof (page_range _ _ _ _ (rn_rep _ _ _ _ Hrun) Hf).
  rewrite page_base_div in Hfa by lia. set (pa := page w f + va mod PAGE_SIZE) in *.
  assert (pa mod 4 = 0) as Hpa by (unfold pa, PAGE_SIZE in *; Z.div_mod_to_equations; lia).
  assert (∀ k b, 0 ≤ k < 4 → (word_bytes z).[k] = Some b → pmem w pa / 2 ^ (8 * (3 - k)) mod 256 = b) as Hk.
  { intros k b Hk Hzk. pose proof (Hb k Hk) as Hbk. rewrite Hzk in Hbk. unfold user_byte, uaddr in Hbk.
    destruct (Hpg k Hk) as [E1 E]. rewrite E1, Ht in Hbk. simpl in Hbk. rewrite E, Z.add_assoc in Hbk. fold pa in Hbk.
    injection Hbk as <-. unfold get_byte, byte_weight.
    replace ((pa + k) mod 4) with k by (Z.div_mod_to_equations; lia).
    replace (4 * ((pa + k) / 4)) with pa by (Z.div_mod_to_equations; lia). done. }
  rewrite <- (word_of_bytes (pmem w pa)).
  pose proof (Hk 0 _ ltac:(lia) eq_refl) as H0. pose proof (Hk 1 _ ltac:(lia) eq_refl) as H1.
  pose proof (Hk 2 _ ltac:(lia) eq_refl) as H2. pose proof (Hk 3 _ ltac:(lia) eq_refl) as H3.
  change (8 * (3 - 0)) with 24 in H0. change (8 * (3 - 1)) with 16 in H1. change (8 * (3 - 2)) with 8 in H2.
  change (8 * (3 - 3)) with 0 in H3. rewrite Z.div_1_r in H3. rewrite H0, H1, H2, H3.
  destruct (word_bytes_spec z Hz) as [_ Hw]. specialize (Hw []). rewrite app_nil_r in Hw. by injection Hw.
Qed.

Lemma load_word_spec X md va z s :
  proc_mem s runs x o → va mod 4 = 0 → is_word z → user_bytes (vm s) x o va (word_bytes z) →
  wpx X (load_word rnd md va)
    (fin (λ z' s', z' = z ∧ refaulted s s' ∧ proc_mem s' runs x o) (λ _ _, False)) (λ _ _, False) s.
Proof.
  intros Hpm Hal Hz Hb. destruct (user_word _ _ _ (pm_running _ _ _ _ Hpm) Hal Hz Hb) as (pa & Hu & Hw).
  destruct (Hb) as (? & Htop & _). change (lengthZ (word_bytes z)) with 4 in *.
  unfold load_word, user_addr. rewrite Hal. simpl negb. cbv iota. rewrite (proj2 (Z.ltb_lt va USERSPACETOP)) by lia. xstep.
  assert (translate x o (page_base va) ≠ None) as Ht by (unfold uaddr in Hu; by destruct (translate x o (page_base va))).
  eapply wp_conseq; [by apply (mmu_spec rnd Hrnd runs x o X md false va s Hpm)| |].
  - intros [pa'|c] s1; simpl; [|by intros (_ & _ & _ & ? & _)].
    intros (Hr & Hpm1 & Hu' & _). xsteps. split_and!; [|done..].
    destruct (refaulted_same _ _ Hr) as (-> & _). congruence.
  - by intros e s1 (_ & _ & _ & _ & Hn).
Qed.

Lemma refaulted_bytes s s' va l : refaulted s s' → user_bytes (vm s) x o va l → user_bytes (vm s') x o va l.
Proof. intros Hr. apply user_bytes_ext. intros a _. by apply refaulted_user. Qed.

Lemma user_str_byte w va l k :
  user_str w x o va l → 0 ≤ k ≤ lengthZ l → user_byte w x o (va + k) = (l ++ [0]).[k] ∧ 0 ≤ va + k < USERSPACETOP.
Proof.
  intros (_ & ? & Htop & H) Hk. rewrite lengthZ_app in *. change (lengthZ [0]) with 1 in *. split; [apply H|]; lia.
Qed.

(** ** Strings read in place *)

Lemma scan_spec X stop p l s :
  proc_mem s runs x o → user_str (vm s) x o p l → stop 0 = true →
  wpx X (scan rnd stop p)
    (fin (λ r s', refaulted s s' ∧ proc_mem s' runs x o ∧ stop r.2 = true ∧
            ∃ n, r.1 = take n l ∧ (l ++ [0]) !! n = Some r.2) (λ _ _, False)) (λ _ _, False) s.
Proof.
  intros Hpm Hstr H0. unfold scan.
  apply (wp_while X (λ a s', refaulted s s' ∧ proc_mem s' runs x o ∧
    ∃ n : nat, Z.of_nat n ≤ lengthZ l ∧ a = (p + Z.of_nat n, reverse (take n l)))
    (λ a, p + lengthZ l - a.1)).
  2: { split_and!; [apply refaulted_refl|done|]. exists 0%nat. pose proof (lengthZ_nonneg l). simpl. by rewrite Z.add_0_r. }
  2: { destruct (user_str_byte _ _ _ (lengthZ l) Hstr) as [_ ?]; [pose proof (lengthZ_nonneg l); lia|].
       destruct (Hstr) as (_ & ? & _). pose proof (lengthZ_nonneg l). simpl. unfold USERSPACETOP in *. lia. }
  intros a s1 (Hr & Hpm1 & n & Hn & ->). simpl fst. wp_step.
  destruct (user_str_byte _ _ _ (Z.of_nat n) Hstr ltac:(lia)) as [Hb Hva]. rewrite lookupZ_of_nat in Hb.
  destruct ((l ++ [0]) !! n) as [c|] eqn:Ec.
  2: { apply lookup_ge_None in Ec. rewrite length_app in Ec. unfold lengthZ in Hn. simpl in Ec. lia. }
  eapply wp_conseq; [eapply (load_byte_spec X); [done|done|rewrite (refaulted_user _ _ _ _ Hr); exact Hb]| |done].
  intros [b|e] s2; simpl; [|done]. intros (-> & Hr2 & Hpm2). assert (refaulted s s2) by (by eapply refaulted_trans).
  destruct (stop c) eqn:Es; wp_step; simpl.
  - rewrite reverse_involutive. split_and!; [done..|]. by exists n.
  - assert (Z.of_nat n ≠ lengthZ l) as Hne.
    { intros E. unfold lengthZ in E. apply Nat2Z.inj in E. subst n. rewrite lookup_app_r, Nat.sub_diag in Ec by done.
      simpl in Ec. congruence. }
    rewrite lookup_app_l in Ec by (unfold lengthZ in *; lia).
    split; [split_and!; [done..|]|lia]. exists (S n). split; [lia|]. f_equal; [lia|].
    rewrite (take_S_r _ _ _ Ec), reverse_app. done.
Qed.

Lemma user_string_spec X p l s :
  proc_mem s runs x o → user_str (vm s) x o p l →
  wpx X (user_string rnd p) (fin (λ r s', r = l ∧ refaulted s s' ∧ proc_mem s' runs x o) (λ _ _, False)) (λ _ _, False) s.
Proof.
  intros Hpm Hstr. unfold user_string. xstep. eapply wp_conseq; [by apply (scan_spec X)| |done].
  intros [[r c]|e] s1; simpl; [|done]. intros (Hr & Hpm1 & ->%Z.eqb_eq & n & -> & Hn). xstep. split_and!; [|done..].
  destruct (decide (n < length l)%nat).
  - rewrite lookup_app_l in Hn by done. destruct Hstr as [Hnz _]. by apply (Forall_lookup_1 _ _ _ _ Hnz) in Hn.
  - apply take_ge. lia.
Qed.

Lemma user_strlen_spec X p l s :
  proc_mem s runs x o → user_str (vm s) x o p l →
  wpx X (user_strlen rnd p) (fin (λ r s', r = lengthZ l ∧ refaulted s s' ∧ proc_mem s' runs x o) (λ _ _, False)) (λ _ _, False) s.
Proof.
  intros Hpm Hstr. unfold user_strlen. xstep. eapply wp_conseq; [by apply (user_string_spec X)| |done].
  intros [r|e] s1; simpl; [|done]. intros (-> & ? & ?). by xstep.
Qed.
End ReadSpec.

(** ** Blocks *)

(** Block [b] once the cells from [i] on hold [cs]. *)
Definition fill (b : list (option Z)) (i : nat) (cs : list Z) : list (option Z) :=
  take i b ++ (Some <$> cs) ++ drop (i + length cs) b.

Lemma fill_cons b i c cs :
  (i < length b)%nat → fill (<[i := Some c]> b) (S i) cs = fill b i (c :: cs).
Proof.
  intros Hi. unfold fill. rewrite (take_S_r _ _ (Some c)) by (by apply list_lookup_insert_eq).
  rewrite take_insert_ge by done. rewrite drop_insert_lt by lia.
  rewrite <- app_assoc. simpl. do 3 f_equal. f_equal. lia.
Qed.

Lemma fill_nil b i : fill b i [] = b.
Proof. unfold fill. simpl. by rewrite Nat.add_0_r, take_drop. Qed.

Lemma length_fill b i cs : (i + length cs ≤ length b)%nat → length (fill b i cs) = length b.
Proof. intros. unfold fill. rewrite !length_app, length_take, length_fmap, length_drop. lia. Qed.

(** The string [l] is at the start of block [p]. *)
Definition kstr (h : gmap Z (list (option Z))) (p : Z) (l : list Z) : Prop :=
  Forall (λ b, b ≠ 0) l ∧ ∃ rest, h !! p = Some ((Some <$> l ++ [0]) ++ rest).

Lemma kread_ok s p i b c : heap s !! p = Some b → b.[i] = Some (Some c) → kread p i s = Ok c s.
Proof. intros Hp Hi. unfold kread, bind, get, deref. rewrite Hp. simpl. by rewrite Hi. Qed.

Lemma kstring_spec s p l : kstr (heap s) p l → kstring p s = Ok l s.
Proof.
  intros (Hnz & rest & Hp). unfold kstring, bind at 1, get. unfold bind, deref. rewrite Hp. simpl.
  assert (∀ i l', Forall (λ b, b ≠ 0) l' → (∀ k c, (l' ++ [0]) !! k = Some c → ((Some <$> l ++ [0]) ++ rest) !! (i + k)%nat = Some (Some c)) →
    ∀ fuel, (length l' < fuel)%nat → kstring_loop fuel p (Z.of_nat i) s = Ok l' s) as Hloop.
  { intros i l'. revert i. induction l' as [|c l' IH]; intros i Hl' Hk fuel Hf; (destruct fuel as [|fuel]; [simpl in Hf; lia|]);
      simpl; unfold bind at 1; (erewrite kread_ok; [|exact Hp|rewrite lookupZ_of_nat; replace i with (i + 0)%nat by lia; by apply (Hk 0%nat)]).
    - done.
    - apply Forall_cons in Hl' as [Hc Hl']. rewrite (proj2 (Z.eqb_neq c 0)) by done. unfold bind.
      replace (Z.of_nat i + 1) with (Z.of_nat (S i)) by lia. rewrite IH; [done|done| |simpl in Hf; lia].
      intros k c' Hkc. replace (S i + k)%nat with (i + S k)%nat by lia. by apply Hk. }
  apply (Hloop 0%nat); [done| |rewrite length_app, length_fmap, length_app; simpl; lia].
  intros k c Hk. simpl. rewrite lookup_app_l by (rewrite length_fmap; by eapply lookup_lt_Some).
  by rewrite list_lookup_fmap, Hk.
Qed.

Lemma kstrlen_spec s p l : kstr (heap s) p l → kstrlen p s = Ok (lengthZ l) s.
Proof. intros Hp. unfold kstrlen, bind. by rewrite (kstring_spec s p l). Qed.

(** ** String copies *)

Section CopySpec.
Context (rnd : Z → Z) (Hrnd : ∀ t, 0 ≤ rnd t < NUM_TLB).
Context (runs : gmap Z Z) (x : addrspace) (o : owner).

(** The user's string has arrived in the block [p]. *)
Definition copied_in (s : machine) (p : Z) (h : gmap Z (list (option Z))) (s' : machine) : Prop :=
  refaulted (set_heap h s) s' ∧ proc_mem s' runs x o.

Lemma proc_mem_heap s h : proc_mem s runs x o → proc_mem (set_heap h s) runs x o.
Proof. intros [??]. by constructor. Qed.

Lemma refaulted_heap s s' h : refaulted s s' → refaulted (set_heap h s) (set_heap h s').
Proof. intros (l & t & ->). by exists l, t. Qed.

(** One character. *)
Lemma copystr_in_step X fuel (i : nat) p u maxlen stoplen b c s Q D E :
  proc_mem s runs x o → user_byte (vm s) x o (u + Z.of_nat i) = Some c → 0 ≤ u + Z.of_nat i < USERSPACETOP →
  heap s !! p = Some b → (i < length b)%nat → Z.of_nat i < maxlen → Z.of_nat i < stoplen →
  (∀ s', copied_in s p (<[p := <[i := Some c]> b]> (heap s)) s' →
     wpx X (if c =? 0 then xret tt else copystr_in rnd fuel (Z.of_nat (S i)) p u maxlen stoplen) (fin Q D) E s') →
  wpx X (copystr_in rnd (S fuel) (Z.of_nat i) p u maxlen stoplen) (fin Q D) E s.
Proof.
  intros Hpm Hc Hva Hp Hb Hmax Hstop Hrest. simpl copystr_in.
  rewrite (proj2 (Z.ltb_lt (Z.of_nat i) maxlen)), (proj2 (Z.ltb_lt (Z.of_nat i) stoplen)) by done. simpl andb. cbv iota.
  xstep. eapply wp_conseq; [by eapply (load_byte_spec rnd Hrnd runs x o X)| |done].
  intros [d|e] s1; simpl; [|done]. intros (-> & Hr1 & Hpm1). destruct (refaulted_same _ _ Hr1) as (_ & _ & _ & _ & _ & Hh1).
  unfold kwrite. wp_steps. rewrite Hh1. eapply wp_deref; [exact Hp|].
  rewrite (proj2 (Z.leb_le 0 (Z.of_nat i))), (proj2 (Z.ltb_lt (Z.of_nat i) (lengthZ b))) by (unfold lengthZ; lia).
  simpl andb. cbv iota. wp_step.
  assert (b.[Z.of_nat i := Some c] = <[i := Some c]> b) as -> by (unfold updateZ; rewrite decide_True by lia; by rewrite Nat2Z.id).
  xstep. eapply wp_conseq; [eapply (load_byte_spec rnd Hrnd runs x o X); [by apply proc_mem_heap|done|]| |done].
  { simpl. by rewrite (refaulted_user _ _ _ _ Hr1). }
  intros [d|e] s2; simpl; [|done]. intros (-> & Hr2 & Hpm2).
  replace (Z.of_nat i + 1) with (Z.of_nat (S i)) by lia. apply Hrest. split; [|done].
  eapply refaulted_trans; [|exact Hr2]. by apply refaulted_heap.
Qed.

Lemma copystr_in_spec X l fuel i p u maxlen stoplen b s :
  proc_mem s runs x o → user_str (vm s) x o (u + Z.of_nat i) l → heap s !! p = Some b →
  (i + length l < length b)%nat → Z.of_nat (i + length l) < maxlen → Z.of_nat (i + length l) < stoplen →
  (length l < fuel)%nat →
  wpx X (copystr_in rnd fuel (Z.of_nat i) p u maxlen stoplen)
    (fin (λ _, copied_in s p (<[p := fill b i (l ++ [0])]> (heap s))) (λ _ _, False)) (λ _ _, False) s.
Proof.
  revert fuel i b s. induction l as [|c l IH]; intros fuel i b s Hpm Hstr Hp Hb Hmax Hstop Hfuel;
    (destruct fuel as [|fuel]; [simpl in Hfuel; lia|]).
  - destruct (user_str_byte x o _ _ _ 0 Hstr) as [Hc Hva]; [done|]. rewrite Z.add_0_r in Hc, Hva. simpl in *.
    eapply (copystr_in_step X fuel i p u maxlen stoplen b 0 s); [done|done|done|done|lia|lia|lia|]. intros s' Hs'. simpl. xstep.
    by rewrite <- (fill_cons b i 0 []), fill_nil by lia.
  - destruct (user_str_byte x o _ _ _ 0 Hstr) as [Hc Hva]; [rewrite lengthZ_cons; pose proof (lengthZ_nonneg l); lia|].
    rewrite Z.add_0_r in Hc, Hva. simpl in *. eapply (copystr_in_step X fuel i p u maxlen stoplen b c s); [done|done|done|done|lia|lia|lia|]. intros s2 [Hr Hpm2].
    destruct Hstr as [Hnz Hby]. apply Forall_cons in Hnz as [Hc0 Hnz]. rewrite (proj2 (Z.eqb_neq c 0)) by done.
    destruct (refaulted_same _ _ Hr) as (_ & _ & _ & _ & _ & Hh2). simpl in Hh2.
    eapply wp_conseq; [apply (IH fuel (S i) (<[i := Some c]> b) s2)| |done]; rewrite ?length_insert; try done; try lia.
    + split; [done|]. eapply user_bytes_ext; [intros a _; by apply (refaulted_user x o _ _ Hr)|]. simpl vm. replace (u + Z.of_nat (S i)) with (u + Z.of_nat i + 1) by lia.
      exact (proj2 (proj1 (user_bytes_app _ _ _ _ [c] (l ++ [0])) Hby)).
    + by rewrite Hh2, lookup_insert_eq.
    + intros [[]|e] s3; simpl; [|done]. intros [Hr3 Hpm3]. split; [|done].
      rewrite Hh2, insert_insert_eq, fill_cons in Hr3 by lia.
      eapply refaulted_trans; [|exact Hr3]. destruct Hr as (tl & t & ->). by exists tl, t.
Qed.

Lemma copyinstr_buf_spec X u p len l b s :
  proc_mem s runs x o → user_str (vm s) x o u l → heap s !! p = Some b →
  lengthZ l < len ≤ lengthZ b → len < 2 ^ 31 →
  wpx X (copyinstr_buf rnd u p len)
    (fin (λ _, copied_in s p (<[p := fill b 0 (l ++ [0])]> (heap s))) (λ _ _, False)) (λ _ _, False) s.
Proof.
  intros Hpm Hstr Hp Hlen Hl. unfold copyinstr_buf.
  destruct (user_str_byte x o _ _ _ (lengthZ l) Hstr) as [_ Htop]; [pose proof (lengthZ_nonneg l); lia|].
  destruct (Hstr) as (_ & Hu & _). pose proof (lengthZ_nonneg l).
  pose proof (copycheck_spec u len) as Hc. unfold USERSPACETOP in *. specialize (Hc ltac:(lia) ltac:(lia)).
  destruct (copycheck u len) as [st|e]; [|lia]. destruct Hc as (_ & -> & _).
  apply (copystr_in_spec X l (S (Z.to_nat len)) 0 p u); try done; unfold lengthZ in *; simpl; try lia. by rewrite Z.add_0_r.
Qed.

Lemma copystr_out_step X fuel (i : nat) p u maxlen stoplen b c s Q D E :
  proc_mem s runs x o → heap s !! p = Some b → b !! i = Some (Some c) → Z.of_nat i < maxlen → Z.of_nat i < stoplen →
  0 ≤ c < 256 → 0 ≤ u + Z.of_nat i < USERSPACETOP → writable_at x o (loaded (vm s)) (u + Z.of_nat i) →
  (∀ s', wrote runs x o s (u + Z.of_nat i) [c] s' →
     wpx X (if c =? 0 then xret tt else copystr_out rnd fuel (Z.of_nat (S i)) p u maxlen stoplen) (fin Q D) E s') →
  wpx X (copystr_out rnd (S fuel) (Z.of_nat i) p u maxlen stoplen) (fin Q D) E s.
Proof.
  intros Hpm Hp Hb Hmax Hstop Hc Hva Hw Hrest. simpl copystr_out. rewrite <- lookupZ_of_nat in Hb.
  rewrite (proj2 (Z.ltb_lt (Z.of_nat i) maxlen)), (proj2 (Z.ltb_lt (Z.of_nat i) stoplen)) by done. simpl andb. cbv iota.
  wp_step. eapply wp_ok; [by eapply kread_ok|]. xstep.
  eapply wp_conseq; [by apply (store_byte_spec rnd Hrnd runs x o X)| |].
  - intros [[]|e] s1; simpl.
    + intros (_ & Ht & Hpm1 & Hu). destruct (touched_same _ _ _ Ht) as (_ & _ & _ & _ & Hh & _).
      wp_step. eapply wp_ok; [eapply kread_ok; [by rewrite Hh|done]|].
      replace (Z.of_nat i + 1) with (Z.of_nat (S i)) by lia. apply Hrest. split_and!; [done..|].
      intros a Ha. rewrite Hu by done. rewrite <- (upd_cons (user_byte (vm s) x o) (user_byte (vm s1) x o)), upd_nil by auto. by rewrite Hu.
    + intros (_ & _ & _ & Hld & k & f & Hk & Ht). destruct Hw as (g & h & Ht' & Hx).
      assert (k = 0) as -> by lia. rewrite Z.add_0_r in Ht. rewrite Ht in Ht'. injection Ht' as <- <-. by rewrite Hld in Hx.
  - intros e s1 [(_ & _ & _ & k & Hk & Hno) _]. destruct Hw as (g & h & Ht' & _). exfalso. apply Hno.
    assert (k = 0) as -> by lia. rewrite Z.add_0_r. by eexists.
Qed.

Lemma copystr_out_spec X l fuel i p u maxlen stoplen b s :
  proc_mem s runs x o → heap s !! p = Some b → Forall (λ c, c ≠ 0) l → Forall is_byte l →
  (∀ k c, (l ++ [0]) !! k = Some c → b !! (i + k)%nat = Some (Some c)) →
  Z.of_nat (i + length l) < maxlen → Z.of_nat (i + length l) < stoplen → (length l < fuel)%nat →
  0 ≤ u → u + Z.of_nat (i + length l) < USERSPACETOP →
  (∀ k, 0 ≤ k ≤ lengthZ l → writable_at x o (loaded (vm s)) (u + Z.of_nat i + k)) →
  wpx X (copystr_out rnd fuel (Z.of_nat i) p u maxlen stoplen)
    (fin (λ _, wrote runs x o s (u + Z.of_nat i) (l ++ [0])) (λ _ _, False)) (λ _ _, False) s.
Proof.
  revert fuel i s. induction l as [|c l IH]; intros fuel i s Hpm Hp Hnz Hby Hb Hmax Hstop Hfuel Hu Htop Hw;
    (destruct fuel as [|fuel]; [simpl in Hfuel; lia|]).
  - eapply (copystr_out_step X fuel i p u maxlen stoplen b 0); [done|done|by rewrite <- (Nat.add_0_r i); apply (Hb 0%nat)|simpl in *; lia|simpl in *; lia|done|simpl in *; lia| |].
    { rewrite <- (Z.add_0_r (u + _)). by apply Hw. }
    intros s' Hs'. simpl. by xstep.
  - apply Forall_cons in Hnz as [Hc Hnz]. apply Forall_cons in Hby as [Hcb Hby].
    pose proof (lengthZ_nonneg l). rewrite lengthZ_cons in Hw.
    eapply (copystr_out_step X fuel i p u maxlen stoplen b c); [done|done|by rewrite <- (Nat.add_0_r i); apply (Hb 0%nat)|simpl in *; lia|simpl in *; lia|done|simpl in *; lia| |].
    { rewrite <- (Z.add_0_r (u + _)). apply Hw. lia. }
    intros s1 Hw1. rewrite (proj2 (Z.eqb_neq c 0)) by done. destruct (Hw1) as (Ht & Hpm1 & _).
    destruct (touched_same _ _ _ Ht) as (_ & Hl1 & _ & _ & Hh1 & _).
    eapply wp_conseq; [apply (IH fuel (S i) s1)| |done]; simpl in *; try done; try lia.
    + by rewrite Hh1.
    + intros k d Hk. rewrite <- Nat.add_succ_r. by apply Hb.
    + intros k Hk. rewrite Hl1. replace (u + Z.of_nat (S i) + k) with (u + Z.of_nat i + (k + 1)) by lia. apply Hw. lia.
    + intros [[]|e] s2; simpl; [|done]. intros Hw2. eapply (wrote_app runs x o s _ [c] s1); [done|].
      change (lengthZ [c]) with 1. by replace (u + Z.of_nat i + 1) with (u + Z.of_nat (S i)) by lia.
Qed.

Lemma copyoutstr_buf_spec X p u len l s :
  proc_mem s runs x o → kstr (heap s) p l → Forall is_byte l → lengthZ l < len < 2 ^ 31 →
  0 ≤ u → u + lengthZ l < USERSPACETOP →
  (∀ k, 0 ≤ k ≤ lengthZ l → writable_at x o (loaded (vm s)) (u + k)) →
  wpx X (copyoutstr_buf rnd p u len)
    (fin (λ _, wrote runs x o s u (l ++ [0])) (λ _ _, False)) (λ _ _, False) s.
Proof.
  intros Hpm (Hnz & rest & Hp) Hby Hlen Hu Htop Hw. unfold copyoutstr_buf. pose proof (lengthZ_nonneg l).
  pose proof (copycheck_spec u len) as Hc. unfold USERSPACETOP in *. specialize (Hc ltac:(lia) ltac:(lia)).
  destruct (copycheck u len) as [st|e]; [|lia]. destruct Hc as (_ & -> & _).
  pose proof (copystr_out_spec X l (S (Z.to_nat len)) 0 p u len (Z.min len (0x80000000 - u)) _ s Hpm Hp Hnz Hby) as Hs.
  change (Z.of_nat 0) with 0 in Hs. rewrite Z.add_0_r in Hs. apply Hs; unfold USERSPACETOP, lengthZ in *; simpl; try lia; [|done].
  intros k c Hk. rewrite lookup_app_l by (rewrite length_fmap; by eapply lookup_lt_Some).
  by rewrite list_lookup_fmap, Hk.
Qed.
End CopySpec.
