(* ===== verification/Exec.v ===== *)
(** * Program loading and execv

    Models load_elf of kern/syscall/loadelf.c with the structures of
    kern/include/elf.h, sys_execv of kern/syscall/proc_syscalls.c and runprogram
    of kern/syscall/runprogram.c, up to the trap frame enter_new_process builds.
    They run on the machine of UserMem.v: every byte of the program and of the
    arguments goes through the TLB into the pages of the address space.

    The file system appears as two functions, [vfs_open] and [vop_read].  A read
    hands its bytes to uiomove in chunks of the file system's choosing and then
    comes back with a result code, 0 being [None]. *)

From S2P Require Import Prelude UserCopy Coremap AddrSpace VmInv AsCopy VmFault UserMem KernBuf.
#[local] Open Scope kern_scope.

Definition ARG_MAX_LEN : Z := 1024.

(** ** ELF structures *)

Definition ELFMAG : list Z := [0x7f; 69; 76; 70].
Definition ELFCLASS32 : Z := 1.
Definition ELFDATA2MSB : Z := 2.
Definition EV_CURRENT : Z := 1.
Definition ET_EXEC : Z := 2.
Definition EM_MACHINE : Z := 8.
Definition PT_NULL : Z := 0.
Definition PT_LOAD : Z := 1.
Definition PT_PHDR : Z := 6.
Definition PT_MIPS_REGINFO : Z := 0x70000000.
Definition sizeof_Ehdr : Z := 52.
Definition sizeof_Phdr : Z := 32.

(** The fields load_elf looks at. *)
Record Elf_Ehdr := mkEhdr {
  e_ident : list Z;
  e_type : Z;
  e_machine : Z;
  e_version : Z;
  e_entry : Z;
  e_phoff : Z;
  e_phentsize : Z;
  e_phnum : Z
}.
Record Elf_Phdr := mkPhdr {
  p_type : Z;
  p_offset : Z;
  p_vaddr : Z;
  p_filesz : Z;
  p_memsz : Z;
  p_flags : Z
}.

Definition byte_at (l : list Z) (i : nat) : Z := default 0 (l !! i).
Definition half_at (l : list Z) (i : nat) : Z := 256 * byte_at l i + byte_at l (i + 1).
Definition word_at (l : list Z) (i : nat) : Z :=
  word_of (byte_at l i) (byte_at l (i + 1)) (byte_at l (i + 2)) (byte_at l (i + 3)).

Definition bytes_Ehdr (l : list Z) : Elf_Ehdr :=
  mkEhdr (take 16 l) (half_at l 16) (half_at l 18) (word_at l 20) (word_at l 24) (word_at l 28)
    (half_at l 42) (half_at l 44).
Definition bytes_Phdr (l : list Z) : Elf_Phdr :=
  mkPhdr (word_at l 0) (word_at l 4) (word_at l 8) (word_at l 16) (word_at l 20) (word_at l 24).

(** The test at the top of load_elf. *)
Definition elf_ok (eh : Elf_Ehdr) : bool :=
  bool_decide (take 4 (e_ident eh) = ELFMAG) && (byte_at (e_ident eh) 4 =? ELFCLASS32) &&
  (byte_at (e_ident eh) 5 =? ELFDATA2MSB) && (byte_at (e_ident eh) 6 =? EV_CURRENT) &&
  (e_version eh =? EV_CURRENT) && (e_type eh =? ET_EXEC) && (e_machine eh =? EM_MACHINE).

(** strrchr: the string from the last [c] on. *)
Fixpoint strrchr (c : Z) (l : list Z) : option (list Z) :=
  match l with
  | [] => None
  | x :: l' =>
      match strrchr c l' with
      | Some r => Some r
      | None => if x =? c then Some l else None
      end
  end.

(** [for (i = lo; i < lo + n; i++)] *)
Fixpoint xfor (n : nat) (lo : Z) (body : Z → XM unit) : XM unit :=
  match n with
  | O => xret tt
  | S n' => body lo ;~ xfor n' (lo + 1) body
  end.

(** The registers enter_new_process fills in. *)
Record trapframe := mkTf { tf_epc : Z; tf_a0 : Z; tf_a1 : Z; tf_sp : Z }.

Section Exec.
Context (rnd : Z → Z).
Context {file : Type}.
Context (vfs_open : list Z → file + Z).
Context (vop_read : file → Z → Z → list (list Z) * option Z).

(** ** Loading *)

(** VOP_READ of a structure into kernel memory, with the check for a short read. *)
Definition read_struct (v : file) (offset n : Z) : XM (list Z) :=
  match vop_read v offset n with
  | (_, Some e) => fail e
  | (chunks, None) => if lengthZ (concat chunks) =? n then xret (concat chunks) else fail ENOEXEC
  end.

(** uiomove of one chunk to a uio of one iovec in user space. *)
Definition uiomove_user (chunk : list Z) (iov : Z * Z * Z) : XM (Z * Z * Z) :=
  let '(base, len, resid) := iov in
  let n := lengthZ chunk in
  if (0 <? n) && (0 <? resid) then
    let size := if n <? len then n else len in
    if size =? 0 then panic else
    copyout_bytes rnd (take (Z.to_nat size) chunk) base ;~
    let resid := u32 (resid - size) in
    if (0 <? n - size) && (0 <? resid) then panic else xret (base + size, len - size, resid)
  else xret iov.

(** VOP_READ to user memory; gives back uio_resid. *)
Fixpoint read_chunks (chunks : list (list Z)) (result : option Z) (iov : Z * Z * Z) : XM Z :=
  match chunks with
  | [] => match result with Some e => fail e | None => xret iov.2 end
  | c :: chunks' => iov <~ uiomove_user c iov ;; read_chunks chunks' result iov
  end.

Definition load_segment (v : file) (offset vaddr memsize filesize : Z) : XM unit :=
  let filesize := if memsize <? filesize then memsize else filesize in
  let '(chunks, result) := vop_read v offset filesize in
  resid <~ read_chunks chunks result (vaddr, memsize, filesize) ;;
  if negb (resid =? 0) then fail ENOEXEC else xret tt.

(** One program header: skipped, refused, or a segment to act on. *)
Definition read_phdr (v : file) (eh : Elf_Ehdr) (i : Z) (act : Elf_Phdr → XM unit) : XM unit :=
  l <~ read_struct v (u32 (e_phoff eh + i * e_phentsize eh)) sizeof_Phdr ;;
  let ph := bytes_Phdr l in
  let t := p_type ph in
  if (t =? PT_NULL) || (t =? PT_PHDR) || (t =? PT_MIPS_REGINFO) then xret tt
  else if negb (t =? PT_LOAD) then fail ENOEXEC
  else act ph.

Definition load_elf (v : file) : XM Z :=
  s <- get ;;
  a <- deref (curproc_as (vm s)) ;;
  a <- deref a ;;
  l <~ read_struct v 0 sizeof_Ehdr ;;
  let eh := bytes_Ehdr l in
  if negb (elf_ok eh) then fail ENOEXEC else
  xfor (Z.to_nat (e_phnum eh)) 0 (λ i,
    read_phdr v eh i (λ ph, xrun (on_vm (as_define_region a (p_vaddr ph) (p_memsz ph))))) ;~
  xrun (on_vm (as_prepare_load a)) ;~
  xfor (Z.to_nat (e_phnum eh)) 0 (λ i,
    read_phdr v eh i (λ ph, load_segment v (p_offset ph) (p_vaddr ph) (p_memsz ph) (p_filesz ph))) ;~
  xrun (on_vm as_complete_load) ;~
  xret (e_entry eh).

(** ** Pieces of sys_execv *)

Definition destroy_array (length kargs : Z) : M machine unit :=
  for_ 0 length (λ i, p <- kread kargs i ;; kfree_buf p) ;;
  kfree_buf kargs.

Definition vfs_close : M machine unit := s <- get ;; modify (set_opened (opened s - 1)).

Definition curproc_setas (a : option Z) : M machine (option Z) :=
  s <- get ;;
  old <- deref (curproc_as (vm s)) ;;
  modify (λ s, set_vm (mkVM (cms (vm s)) (pmem (vm s)) (aspaces (vm s)) (tlb (vm s)) (Some a)
                         (loaded (vm s)) (vm_next (vm s)) (vm_fate (vm s))) s) ;;
  ret old.

(** Go back to the old address space and destroy the new one. *)
Definition exec_undo (old : option Z) (a : Z) : M machine unit :=
  curproc_setas old ;;
  on_vm as_activate ;;
  on_vm (as_destroy a).

(** The test on the length of a path that sys_execv and runprogram start with. *)
Definition name_too_long (l : list Z) : bool :=
  match strrchr SLASH l with
  | Some file_name => (PATH_MAX <? lengthZ l) || (NAME_MAX <? u32 (lengthZ file_name - 1))
  | None => NAME_MAX <? lengthZ l
  end.

(** The loop that looks for a slash, and the test; the length and the last
    component are taken from one reading of the string. *)
Definition check_program (program : Z) : XM unit :=
  r <~ scan rnd (λ c, (c =? 0) || (c =? SLASH)) program ;;
  l <~ user_string rnd program ;;
  if name_too_long l then fail E2BIG else xret tt.

(** while (args[arg] != NULL) ++arg; *)
Definition count_args (args : Z) : XM Z :=
  while (2 ^ 32) (λ arg : Z,
    r <- load_word rnd (KernelMode false) (u32 (args + 4 * arg)) ;;
    match r with
    | Exited c => ret (inr (Exited c))
    | Returned w => if w =? 0 then ret (inr (Returned arg)) else ret (inl (arg + 1))
    end) 0.

(** The buffers for the arguments. *)
Definition alloc_kargs (arg kargs : Z) : M machine unit :=
  for_ 0 arg (λ i,
    o <- kmalloc_buf ARG_MAX_LEN ;;
    match o with
    | None => destroy_array i kargs ;; fail ENOMEM
    | Some p => kwrite kargs i p
    end).

Definition copy_kargs (args arg kargs : Z) : XM unit :=
  xfor (Z.to_nat arg) 0 (λ i,
    u <~ load_word rnd (KernelMode false) (u32 (args + 4 * i)) ;;
    p <- kread kargs i ;;
    on_error (copyinstr_buf rnd u p ARG_MAX_LEN) (destroy_array i kargs)).

(** Copy the strings in the buffers [ps] to the stack, each below the one before;
    gives back the stack pointer and the addresses. *)
Fixpoint push_strings (ps : list Z) (stackptr : Z) : XM (Z * list Z) :=
  match ps with
  | [] => xret (stackptr, [])
  | p :: ps' =>
      len <- kstrlen p ;;
      let stackptr := u32 (stackptr - ROUNDUP (len + 1) 4) in
      copyoutstr_buf rnd p stackptr ARG_MAX_LEN ;~
      r <~ push_strings ps' stackptr ;;
      xret (r.1, stackptr :: r.2)
  end.

(** Copy the pointers out, from the last one to the first: [ws] is the array in
    reverse. *)
Fixpoint push_words (ws : list Z) (stackptr : Z) : XM Z :=
  match ws with
  | [] => xret stackptr
  | w :: ws' =>
      let stackptr := u32 (stackptr - 4) in
      copyout_bytes rnd (word_bytes w) stackptr ;~
      push_words ws' stackptr
  end.

Fixpoint read_cells (n : nat) (p i : Z) : M machine (list Z) :=
  match n with
  | O => ret []
  | S n' => c <- kread p i ;; l <- read_cells n' p (i + 1) ;; ret (c :: l)
  end.

(** ** The system call *)

(** From the new address space on: load the program, lay out the arguments, drop
    the old address space. *)
Definition exec_args (arg kargs : Z) (old : option Z) (a entrypoint stackptr : Z) : XM trapframe :=
  ps <- read_cells (Z.to_nat arg) kargs 0 ;;
  let cleanup := destroy_array arg kargs ;; exec_undo old a in
  r <~ on_error (push_strings (reverse ps) stackptr) cleanup ;;
  argv <~ on_error (push_words (0 :: r.2) r.1) cleanup ;;
  destroy_array arg kargs ;;
  old <- deref old ;;
  on_vm (as_destroy old) ;;
  xret (mkTf entrypoint arg argv (argv - argv mod 8)).

Definition exec_load (arg kargs kprogram : Z) : XM trapframe :=
  path <- kstring kprogram ;;
  match vfs_open path with
  | inr e => destroy_array arg kargs ;; kfree_buf kprogram ;; fail e
  | inl v =>
      s <- get ;;
      modify (set_opened (opened s + 1)) ;;
      kfree_buf kprogram ;;
      o <- on_vm as_create ;;
      match o with
      | None => vfs_close ;; destroy_array arg kargs ;; fail ENOMEM
      | Some a =>
          old <- curproc_setas (Some a) ;;
          on_vm as_activate ;;
          entrypoint <~ on_error (load_elf v)
            (vfs_close ;; destroy_array arg kargs ;; exec_undo old a) ;;
          vfs_close ;;
          stackptr <~ on_error (xrun (on_vm (as_define_stack a)))
            (destroy_array arg kargs ;; exec_undo old a) ;;
          exec_args arg kargs old a entrypoint stackptr
      end
  end.

Definition sys_execv (program args : Z) : XM trapframe :=
  if program =? 0 then fail ENOENT else
  check_program program ;~
  arg <~ count_args args ;;
  o <- kmalloc_buf arg ;;
  match o with
  | None => fail ENOMEM
  | Some kargs =>
      alloc_kargs arg kargs ;;
      copy_kargs args arg kargs ;~
      n <~ user_strlen rnd program ;;
      o <- kmalloc_buf (n + 1) ;;
      match o with
      | None => destroy_array arg kargs ;; fail ENOMEM
      | Some kprogram =>
          n <~ user_strlen rnd program ;;
          on_error (copyinstr_buf rnd program kprogram (n + 1))
            (destroy_array arg kargs ;; kfree_buf kprogram) ;~
          exec_load arg kargs kprogram
      end
  end.

(** runprogram: the first program of a process, started from the menu.  The name
    and the arguments are strings in kernel memory; the latter are the blocks
    [args]. *)
Definition runprogram (progname : list Z) (args : list Z) : XM trapframe :=
  if name_too_long progname then fail E2BIG else
  match vfs_open progname with
  | inr e => fail e
  | inl v =>
      s <- get ;;
      modify (set_opened (opened s + 1)) ;;
      cur <- deref (curproc_as (vm s)) ;;
      kassert (bool_decide (cur = None)) ;;
      o <- on_vm as_create ;;
      match o with
      | None => vfs_close ;; fail ENOMEM
      | Some a =>
          curproc_setas (Some a) ;;
          on_vm as_activate ;;
          entrypoint <~ on_error (load_elf v) vfs_close ;;
          vfs_close ;;
          stackptr <- on_vm (as_define_stack a) ;;
          r <~ push_strings args stackptr ;;
          argv <~ push_words (0 :: reverse r.2) r.1 ;;
          xret (mkTf entrypoint (lengthZ args) argv (argv - argv mod 8))
      end
  end.
End Exec.
