(* ===== verification/LoadSpec.v ===== *)
(** * Loading a program: the lemmas

    load_elf of kern/syscall/loadelf.c on a well-formed executable with two
    segments gives the process an address space that holds, byte for byte, what
    the file says, and zeros in the rest. *)

From S2P Require Import Prelude UserCopy Coremap AddrSpace VmInv AsCopy VmFault UserMem KernBuf Exec.
#[local] Open Scope kern_scope.

(** ** The new address space *)

(** The current process has the new address space [x] at [a], in pages that were
    free; what was in use before is untouched. *)
Record spawned (v : vmstate) (runs : gmap Z Z) (a : Z) (v' : vmstate) (runs' : gmap Z Z)
    (x : addrspace) (o : owner) : Prop := {
  sp_running : running v' runs' x o;
  sp_tlb : tlb_ok v' x o;
  sp_layout : same_layout (cms v) (cms v');
  sp_spaces : aspaces v' = <[a := x]> (aspaces v);
  sp_cur : curproc_as v' = curproc_as v;
  sp_ext : ∀ p k, runs !! p = Some k → runs' !! p = Some k;
  sp_only : ∀ p k, runs' !! p = Some k → p ∈ owned o ∨ runs !! p = Some k;
  sp_fresh : ∀ p, p ∈ owned o → runs !! p = None;
  sp_kept : ∀ p k w, runs !! p = Some k → region v p k w → pmem v' w = pmem v w
}.

Lemma spawned_touched v runs a s1 s2 runs' x o :
  spawned v runs a (vm s1) runs' x o → touched o s1 s2 → proc_mem s2 runs' x o →
  spawned v runs a (vm s2) runs' x o.
Proof.
  intros [Hr Ht Hl Hs Hc He Hon Hf Hk] (m & l & t & -> & Ho) [Hr2 Ht2].
  constructor; simpl in *; try done.
  intros p k w Hp Hw. rewrite <- (Hk p k w Hp Hw). apply Ho. intros d Hd Hreg.
  assert (d ∈ owned o) as Hd' by (unfold owned; unfold frames in Hd; set_solver).
  assert (p ≠ d) as Hne by (intros ->; by rewrite (Hf d Hd') in Hp).
  apply (regions_disjoint (vm s1) runs' p k d 1 w); try done; [apply Hr|by apply He| |].
  - by eapply frames_run; [apply Hr|].
  - unfold region, page in *. by rewrite (same_layout_page _ _ p Hl).
Qed.

(** Zero everywhere the process has a page. *)
Definition zeros (x : addrspace) (o : owner) (va : Z) : option Z :=
  if translate x o (page_base va) then Some 0 else None.

(** What as_prepare_load leaves behind is a fresh address space full of zeros. *)
Lemma prepared_spawned v runs a x0 v' runs' x o :
  prepared v runs a x0 v' runs' x o → curproc_as v = Some (Some a) → lengthZ (tlb v) = NUM_TLB →
  (∀ k, 0 ≤ k < NUM_TLB → (tlb v).[k] = Some (TLBHI_INVALID k, TLBLO_INVALID)) → as_wf x →
  spawned v runs a v' runs' x o ∧ ∀ va, user_byte v' x o va = zeros x o va.
Proof.
  intros [Prep Play Pas Pf Psp Pext Ponly Pfresh _ Pz Pk (E1 & E2 & E3)] Hcur Hlen Hinv Hwf.
  split.
  - constructor; try done.
    + constructor; try done; [|by rewrite E1]. exists a. rewrite E2, Psp. split; [done|apply lookup_insert_eq].
    + apply flushed_ok; rewrite E1; done.
  - intros va. unfold user_byte, uaddr, zeros. destruct (translate x o (page_base va)) as [[g f]|] eqn:Ht; [|done].
    simpl. f_equal. pose proof (translate_frame _ _ _ _ _ Ht) as Hf. pose proof (translate_run _ _ _ _ _ _ _ Pas Ht) as Hr.
    unfold get_byte. rewrite (Pz f); [by rewrite Z.div_0_l by (pose proof (Z.mod_pos_bound (page v' f + va mod PAGE_SIZE) 4); unfold byte_weight; lia)|done|].
    pose proof (frame_aligned _ _ _ _ Prep Hr) as Hal. pose proof (page_range _ _ _ _ Prep Hr).
    rewrite page_base_div in Hal by lia. pose proof (Z.mod_pos_bound va PAGE_SIZE).
    unfold region. change (page v f) with (page_addr (cms v) f). rewrite <- (same_layout_page _ _ f Play).
    change (page_addr (cms v') f) with (page v' f). unfold PAGE_SIZE in *. simpl in *. Z.div_mod_to_equations. lia.
Qed.

(** ** The program *)

(** The file [c] is an executable with header [eh] and program headers [phs]. *)
Record elf_file (c : list Z) (eh : Elf_Ehdr) (phs : list Elf_Phdr) : Prop := {
  ef_bytes : Forall is_byte c;
  ef_header : sizeof_Ehdr ≤ lengthZ c ∧ eh = bytes_Ehdr (take 52 c);
  ef_ok : elf_ok eh = true;
  ef_num : lengthZ phs = e_phnum eh;
  ef_phdrs : ∀ i ph, phs.[i] = Some ph →
    let off := u32 (e_phoff eh + i * e_phentsize eh) in
    off + sizeof_Phdr ≤ lengthZ c ∧ ph = bytes_Phdr (take 32 (drop (Z.to_nat off) c));
  ef_types : Forall (λ ph, p_type ph ∈ [PT_NULL; PT_PHDR; PT_MIPS_REGINFO; PT_LOAD]) phs
}.

Definition loads (phs : list Elf_Phdr) : list Elf_Phdr := filter (λ ph, p_type ph = PT_LOAD) phs.

(** The bottom of the stack. *)
Definition stackbase : Z := USERSTACK - DUMBVM_STACKPAGES * PAGE_SIZE.

(** The pages of a segment. *)
Definition seg_start (ph : Elf_Phdr) : Z := page_base (p_vaddr ph).
Definition seg_pages (ph : Elf_Phdr) : Z := (p_vaddr ph mod PAGE_SIZE + p_memsz ph + PAGE_SIZE - 1) / PAGE_SIZE.

(** A segment that lies in the file and, in memory, above the first page and below
    the stack. *)
Record seg_ok (c : list Z) (ph : Elf_Phdr) : Prop := {
  so_offset : 0 ≤ p_offset ph;
  so_file : 0 ≤ p_filesz ph ≤ p_memsz ph ∧ p_offset ph + p_filesz ph ≤ lengthZ c;
  so_mem : 0 < p_memsz ph;
  so_addr : PAGE_SIZE ≤ p_vaddr ph;
  so_top : p_vaddr ph + p_memsz ph ≤ stackbase
}.

Definition seg_data (c : list Z) (ph : Elf_Phdr) : list Z :=
  take (Z.to_nat (p_filesz ph)) (drop (Z.to_nat (p_offset ph)) c).

Lemma seg_extent c ph : seg_ok c ph →
  0 < seg_start ph ∧ seg_start ph mod PAGE_SIZE = 0 ∧ 0 < seg_pages ph < 2 ^ 20 ∧
  seg_start ph ≤ p_vaddr ph ∧ p_vaddr ph + p_memsz ph ≤ seg_start ph + seg_pages ph * PAGE_SIZE ∧
  seg_start ph + seg_pages ph * PAGE_SIZE ≤ stackbase.
Proof.
  intros [H1 H2 H3 H4 H5]. unfold seg_start, seg_pages, stackbase, USERSTACK, DUMBVM_STACKPAGES in *.
  rewrite page_base_div by (unfold PAGE_SIZE in *; lia). unfold PAGE_SIZE in *.
  rewrite Z.mod_mul by lia. Z.div_mod_to_equations. lia.
Qed.

Lemma land_offset va : 0 ≤ va < 2 ^ 32 → Z.land va (u32 (Z.lnot PAGE_FRAME)) = va mod PAGE_SIZE.
Proof. intros. change (u32 (Z.lnot PAGE_FRAME)) with (Z.ones 12). rewrite Z.land_ones by lia. done. Qed.

(** as_define_region enters the segment in the first region that is free. *)
Lemma as_define_region_spec X c ph v a y :
  seg_ok c ph → aspaces v !! a = Some y → as_vbase1 y = 0 ∨ as_vbase2 y = 0 →
  wpx X (as_define_region a (p_vaddr ph) (p_memsz ph))
    (λ _ v', v' = set_aspaces <[a :=
       if as_vbase1 y =? 0 then mkAS (seg_start ph) (page_pbase1 y) (seg_pages ph) (as_vbase2 y) (page_pbase2 y) (as_npages2 y) (page_stackpbase y)
       else mkAS (as_vbase1 y) (page_pbase1 y) (as_npages1 y) (seg_start ph) (page_pbase2 y) (seg_pages ph) (page_stackpbase y)]> v)
    (λ _ _, False) v.
Proof.
  intros Hs Hy Hfree. destruct (seg_extent c ph Hs) as (? & ? & Hp & ? & ? & ?). destruct Hs as [? ? ? ? ?].
  unfold stackbase, USERSTACK, DUMBVM_STACKPAGES in *.
  assert (0 ≤ p_vaddr ph < 2 ^ 32) as Hva by (unfold PAGE_SIZE in *; lia).
  unfold as_define_region, read_as, write_as. wp_steps. eapply wp_deref; [exact Hy|]. cbv zeta.
  rewrite land_offset by done. pose proof (Z.mod_pos_bound (p_vaddr ph) PAGE_SIZE ltac:(done)) as Hm.
  assert (Z.land (u32 (u32 (p_memsz ph + p_vaddr ph mod PAGE_SIZE) + PAGE_SIZE - 1)) PAGE_FRAME / PAGE_SIZE = seg_pages ph) as ->.
  { unfold seg_pages in *. unfold PAGE_SIZE in *. rewrite (u32_small (p_memsz ph + _)) by lia. rewrite u32_small by lia.
    rewrite land_PAGE_FRAME by lia. unfold PAGE_SIZE. rewrite Z.div_mul by lia. f_equal. lia. }
  fold (page_base (p_vaddr ph)). fold (seg_start ph).
  destruct (Z.eqb_spec (as_vbase1 y) 0) as [E1|E1]; [by wp_step|].
  destruct Hfree as [?|E2]; [done|]. rewrite E2. done.
Qed.

(** ** Reading the file *)

(** The loop over the program headers acts on the loadable ones, in order. *)
Fixpoint each (l : list Elf_Phdr) (act : Elf_Phdr → XM unit) : XM unit :=
  match l with
  | [] => xret tt
  | ph :: l' => act ph ;~ each l' act
  end.

Section Loader.
Context (rnd : Z → Z) (Hrnd : ∀ t, 0 ≤ rnd t < NUM_TLB).
Context {file : Type} (vop_read : file → Z → Z → list (list Z) * option Z).
Context (v : file) (c : list Z).
(** Reads of the file succeed and deliver its bytes, as far as there are any. *)
Context (Hread : ∀ off n, 0 ≤ off → 0 ≤ n < 2 ^ 32 → ∃ chunks,
  vop_read v off n = (chunks, None) ∧ concat chunks = take (Z.to_nat n) (drop (Z.to_nat off) c)).

Lemma read_struct_ok off n :
  0 ≤ off → 0 ≤ n < 2 ^ 32 → off + n ≤ lengthZ c →
  read_struct vop_read v off n = xret (take (Z.to_nat n) (drop (Z.to_nat off) c)).
Proof.
  intros Ho Hn Hlen. unfold read_struct. destruct (Hread off n Ho Hn) as (chunks & -> & ->).
  rewrite (proj2 (Z.eqb_eq _ n)); [done|]. unfold lengthZ in *. rewrite length_take, length_drop. lia.
Qed.

Lemma read_phdr_ok eh phs i ph act s :
  elf_file c eh phs → phs.[i] = Some ph →
  read_phdr vop_read v eh i act s = if decide (p_type ph = PT_LOAD) then act ph s else xret tt s.
Proof.
  intros Hef Hph. destruct (ef_phdrs _ _ _ Hef _ _ Hph) as [Hoff Heq].
  pose proof (lookupZ_Some_range _ _ _ Hph) as Hi.
  assert (p_type ph ∈ [PT_NULL; PT_PHDR; PT_MIPS_REGINFO; PT_LOAD]) as Ht.
  { rewrite lookupZ_nat in Hph by lia. exact (Forall_lookup_1 _ _ _ _ (ef_types _ _ _ Hef) Hph). }
  unfold read_phdr. rewrite read_struct_ok by (done || apply u32_range). unfold xbind, bind, xret, ret.
  change (Z.to_nat sizeof_Phdr) with 32%nat. rewrite <- Heq.
  rewrite !elem_of_cons, elem_of_nil in Ht. by destruct Ht as [Ht|[Ht|[Ht|[Ht|[]]]]]; rewrite Ht.
Qed.

Lemma phdr_loop eh phs act n lo s :
  elf_file c eh phs → 0 ≤ lo → lo + Z.of_nat n = lengthZ phs →
  xfor n lo (λ i, read_phdr vop_read v eh i act) s = each (loads (drop (Z.to_nat lo) phs)) act s.
Proof.
  intros Hef. revert lo s. induction n as [|n IH]; intros lo s Hlo Hlen.
  { rewrite drop_ge; [done|]. unfold lengthZ in *. lia. }
  destruct (lookupZ_lt phs lo ltac:(lia)) as [ph Hph].
  assert (drop (Z.to_nat lo) phs = ph :: drop (Z.to_nat (lo + 1)) phs) as ->.
  { rewrite lookupZ_nat in Hph by lia. rewrite (drop_S _ _ _ Hph). do 2 f_equal. lia. }
  simpl. unfold xbind at 1, bind at 1. rewrite (read_phdr_ok eh phs lo ph act s Hef Hph).
  unfold loads. rewrite filter_cons. case_decide.
  - simpl. unfold xbind, bind. destruct (act ph s) as [[a|e] s1|e s1| |]; try done. apply IH; lia.
  - apply IH; lia.
Qed.

(** ** Segments *)

Section Segment.
Context (runs : gmap Z Z) (x : addrspace) (o : owner).

Lemma unloaded_writable va : mapped_at x o va → writable_at x o false va.
Proof. intros [[g f] Ht]. exists g, f. by destruct g. Qed.

Lemma read_chunks_spec X chunks base len resid s :
  proc_mem s runs x o → loaded (vm s) = false → 0 ≤ base → Forall is_byte (concat chunks) →
  lengthZ (concat chunks) ≤ len → lengthZ (concat chunks) ≤ resid < 2 ^ 32 →
  base + lengthZ (concat chunks) ≤ USERSPACETOP →
  (∀ k, 0 ≤ k < lengthZ (concat chunks) → mapped_at x o (base + k)) →
  wpx X (read_chunks rnd chunks None (base, len, resid))
    (fin (λ r s', r = resid - lengthZ (concat chunks) ∧ wrote runs x o s base (concat chunks) s') (λ _ _, False))
    (λ _ _, False) s.
Proof.
  revert base len resid s. induction chunks as [|ch chunks IH]; intros base len resid s Hpm Hld Hb Hby Hlen Hres Htop Hmap.
  { simpl. xstep. split; [unfold lengthZ; simpl; lia|by apply wrote_nil]. }
  simpl concat in *. rewrite lengthZ_app in *. apply Forall_app in Hby as [Hby1 Hby2].
  pose proof (lengthZ_nonneg ch). pose proof (lengthZ_nonneg (concat chunks)). simpl read_chunks. xstep. unfold uiomove_user.
  destruct (Z.ltb_spec 0 (lengthZ ch)); [|simpl].
  - rewrite (proj2 (Z.ltb_lt 0 resid)) by lia. simpl andb. cbv iota.
    set (size := if lengthZ ch <? len then lengthZ ch else len).
    assert (size = lengthZ ch) as Hsz by (unfold size; destruct (Z.ltb_spec (lengthZ ch) len); lia). clearbody size. subst size.
    rewrite (proj2 (Z.eqb_neq _ 0)) by lia. unfold lengthZ at 1. rewrite Nat2Z.id, firstn_all. xstep.
    eapply wp_conseq; [apply (copyout_writable rnd Hrnd runs x o); try done; [lia|]| |done].
    { intros k Hk. rewrite Hld. apply unloaded_writable, Hmap. lia. }
    intros [[]|e] s1; simpl; [|done]. intros Hw. destruct (Hw) as (Ht & Hpm1 & _). destruct (touched_same _ _ _ Ht) as (_ & Hl & _).
    rewrite Z.sub_diag. simpl andb. cbv iota. xstep.
    eapply wp_conseq; [apply (IH (base + lengthZ ch) (len - lengthZ ch) (u32 (resid - lengthZ ch)) s1)| |done];
      rewrite ?u32_small by lia; try done; try lia; [congruence| |].
    + intros k Hk. replace (base + lengthZ ch + k) with (base + (lengthZ ch + k)) by lia. apply Hmap. lia.
    + intros [r|e] s2; simpl; [|done]. intros [-> Hw2]. split; [lia|]. by eapply wrote_app.
  - xstep. destruct ch; [|rewrite lengthZ_cons in *; pose proof (lengthZ_nonneg ch); lia]. 
    change (lengthZ (@nil Z)) with 0 in *. simpl app. rewrite !Z.add_0_l in *. by apply IH.
Qed.

Lemma load_segment_spec X ph s :
  seg_ok c ph → Forall is_byte c → proc_mem s runs x o → loaded (vm s) = false →
  (∀ va, p_vaddr ph ≤ va < p_vaddr ph + p_memsz ph → mapped_at x o va) →
  wpx X (load_segment rnd vop_read v (p_offset ph) (p_vaddr ph) (p_memsz ph) (p_filesz ph))
    (fin (λ _, wrote runs x o s (p_vaddr ph) (seg_data c ph)) (λ _ _, False)) (λ _ _, False) s.
Proof.
  intros [H1 [H2 H2'] H3 H4 H5] Hby Hpm Hld Hmap. unfold load_segment, stackbase, USERSTACK, DUMBVM_STACKPAGES, PAGE_SIZE in *.
  rewrite (proj2 (Z.ltb_ge (p_memsz ph) (p_filesz ph))) by lia.
  destruct (Hread (p_offset ph) (p_filesz ph)) as (chunks & -> & Hc); [done|lia|].
  change (take _ _) with (seg_data c ph) in Hc.
  assert (lengthZ (seg_data c ph) = p_filesz ph) as Hlen.
  { unfold seg_data, lengthZ in *. rewrite length_take, length_drop. lia. }
  xstep. eapply wp_conseq; [apply (read_chunks_spec X chunks (p_vaddr ph) (p_memsz ph) (p_filesz ph) s)| |done];
    rewrite ?Hc, ?Hlen; try done; unfold USERSPACETOP; try lia.
  - by apply Forall_take, Forall_drop.
  - intros k Hk. apply Hmap. lia.
  - intros [r|e] s1; simpl; [|done]. intros [-> Hw]. rewrite Z.sub_diag. simpl. by xstep.
Qed.

(** Where the text is locked the process does not survive the copy. *)
Definition text_locked_at (s : machine) (va : Z) : Prop :=
  loaded (vm s) = true ∧ ∃ f, translate x o (page_base va) = Some (TEXT_SEGMENT, f).

Lemma copyout_locked X l va s :
  proc_mem s runs x o → text_locked_at s va → 0 ≤ va → va + lengthZ l ≤ USERSPACETOP → 0 < lengthZ l → Forall is_byte l →
  wpx X (copyout_bytes rnd l va) (fin (λ _ _, False) (λ k s', k = EX_MOD ∧ heap s' = heap s ∧ opened s' = opened s)) (λ _ _, False) s.
Proof.
  intros Hpm [Hld [f Hf]] Hva Htop Hn Hl. unfold copyout_bytes. pose proof (copycheck_spec va (lengthZ l)) as Hc. unfold USERSPACETOP in *.
  specialize (Hc ltac:(lia) ltac:(lia)). destruct (copycheck va (lengthZ l)) as [st|e]; [|lia].
  destruct Hc as (_ & -> & _). replace (negb _) with false by lia.
  destruct l as [|b l]; [done|]. rewrite lengthZ_cons in *. apply Forall_cons in Hl as [Hb Hl]. pose proof (lengthZ_nonneg l).
  simpl. xstep. eapply wp_conseq; [apply (store_byte_spec rnd Hrnd runs x o X va b s); [done|unfold USERSPACETOP; lia|done]| |].
  - intros [[]|k] s1; simpl; [|intros (-> & Ht & _); apply touched_same in Ht; naive_solver].
    intros ((g & f' & Ht & Hx) & _). rewrite Hf in Ht. injection Ht as <- <-. by rewrite Hld in Hx.
  - intros e s1 [(_ & _ & _ & k & Hk & Hno) _]. apply Hno. replace (va + k) with va by lia. by eexists.
Qed.

Lemma read_chunks_locked X chunks base len resid s :
  proc_mem s runs x o → text_locked_at s base → 0 ≤ base → Forall is_byte (concat chunks) →
  0 < lengthZ (concat chunks) ≤ len → 0 < resid → base + lengthZ (concat chunks) ≤ USERSPACETOP →
  wpx X (read_chunks rnd chunks None (base, len, resid))
    (fin (λ _ _, False) (λ k s', k = EX_MOD ∧ heap s' = heap s ∧ opened s' = opened s)) (λ _ _, False) s.
Proof.
  induction chunks as [|ch chunks IH]; intros Hpm Hlk Hb Hby Hlen Hres Htop; [unfold lengthZ in Hlen; simpl in Hlen; lia|].
  simpl concat in *. rewrite lengthZ_app in *. apply Forall_app in Hby as [Hby1 Hby2].
  pose proof (lengthZ_nonneg ch). pose proof (lengthZ_nonneg (concat chunks)). simpl read_chunks. xstep. unfold uiomove_user.
  destruct (Z.ltb_spec 0 (lengthZ ch)); [|simpl].
  - rewrite (proj2 (Z.ltb_lt 0 resid)) by lia. simpl andb. cbv iota.
    set (size := if lengthZ ch <? len then lengthZ ch else len).
    assert (size = lengthZ ch) as Hsz by (unfold size; destruct (Z.ltb_spec (lengthZ ch) len); lia). clearbody size. subst size.
    rewrite (proj2 (Z.eqb_neq _ 0)) by lia. unfold lengthZ at 1. rewrite Nat2Z.id, firstn_all. xstep.
    eapply wp_conseq; [apply (copyout_locked X ch base s); try done; lia| |done]. by intros [[]|k] s1.
  - xstep. destruct ch; [|rewrite lengthZ_cons in *; pose proof (lengthZ_nonneg ch); lia].
    change (lengthZ (@nil Z)) with 0 in *. rewrite !Z.add_0_l in *. by apply IH.
Qed.

Lemma load_segment_locked X ph s :
  seg_ok c ph → Forall is_byte c → proc_mem s runs x o → loaded (vm s) = true → 0 < p_filesz ph →
  (∃ f, translate x o (page_base (p_vaddr ph)) = Some (TEXT_SEGMENT, f)) →
  wpx X (load_segment rnd vop_read v (p_offset ph) (p_vaddr ph) (p_memsz ph) (p_filesz ph))
    (fin (λ _ _, False) (λ k s', k = EX_MOD ∧ heap s' = heap s ∧ opened s' = opened s)) (λ _ _, False) s.
Proof.
  intros [H1 [H2 H2'] H3 H4 H5] Hby Hpm Hld Hfz Ht. unfold load_segment, stackbase, USERSTACK, DUMBVM_STACKPAGES, PAGE_SIZE in *.
  rewrite (proj2 (Z.ltb_ge (p_memsz ph) (p_filesz ph))) by lia.
  destruct (Hread (p_offset ph) (p_filesz ph)) as (chunks & -> & Hc); [done|lia|].
  change (take _ _) with (seg_data c ph) in Hc.
  assert (lengthZ (seg_data c ph) = p_filesz ph) as Hlen.
  { unfold seg_data, lengthZ in *. rewrite length_take, length_drop. lia. }
  xstep. eapply wp_conseq; [apply (read_chunks_locked X chunks (p_vaddr ph) (p_memsz ph) (p_filesz ph) s)| |done];
    rewrite ?Hc, ?Hlen; try done; unfold USERSPACETOP; try lia.
  - by apply Forall_take, Forall_drop.
  - by intros [[]|k] s1.
Qed.
End Segment.

(** ** The whole program *)

(** The frame a segment has for an address of its program header. *)
Lemma seg_has_frame x o ph seg va :
  seg_ok c ph → seg_base x seg = seg_start ph → lengthZ (seg_frames o seg) = seg_pages ph →
  p_vaddr ph ≤ va < p_vaddr ph + p_memsz ph → is_Some (seg_frame (seg_base x seg) (page_base va) (seg_frames o seg)).
Proof.
  intros Hs Hb Hn Hva. destruct (seg_extent c ph Hs) as (? & Hal & ? & ? & ? & ?).
  unfold stackbase, USERSTACK, DUMBVM_STACKPAGES in *.
  unfold seg_frame. apply lookupZ_is_Some. rewrite Hb, Hn, page_base_div by (unfold PAGE_SIZE in *; lia).
  unfold PAGE_SIZE in *. Z.div_mod_to_equations. lia.
Qed.

Lemma seg_text x o ph :
  seg_ok c ph → as_vbase1 x = seg_start ph → lengthZ (o_f1 o) = seg_pages ph →
  ∃ f, translate x o (page_base (p_vaddr ph)) = Some (TEXT_SEGMENT, f).
Proof.
  intros Hs Hb Hn. destruct (seg_has_frame x o ph TEXT_SEGMENT (p_vaddr ph) Hs Hb Hn) as [f Hf]; [destruct Hs; lia|].
  exists f. unfold translate. simpl in Hf. by rewrite Hf.
Qed.

Lemma seg_mapped x o ph seg va :
  seg_ok c ph → seg_base x seg = seg_start ph → lengthZ (seg_frames o seg) = seg_pages ph →
  p_vaddr ph ≤ va < p_vaddr ph + p_memsz ph → mapped_at x o va.
Proof.
  intros Hs Hb Hn Hva. destruct (seg_has_frame x o ph seg va Hs Hb Hn Hva) as [f Hf].
  unfold mapped_at, translate. destruct seg; simpl in Hf; rewrite Hf; repeat case_match; by eexists.
Qed.

(** What loading leaves of the rest of the machine. *)
Definition kernel_same (s s' : machine) : Prop :=
  heap s' = heap s ∧ heap_next s' = heap_next s ∧ heap_fate s' = heap_fate s ∧ opened s' = opened s.

(** The bytes of a process that has just been loaded: those of the two segments,
    zero in the rest of its pages. *)
Definition image (x : addrspace) (o : owner) (p1 p2 : Elf_Phdr) : Z → option Z :=
  upd (upd (zeros x o) (p_vaddr p1) (seg_data c p1)) (p_vaddr p2) (seg_data c p2).

Section LoadElf.
Context (eh : Elf_Ehdr) (phs : list Elf_Phdr) (p1 p2 : Elf_Phdr).
Context (Hef : elf_file c eh phs) (Hloads : loads phs = [p1; p2]) (Hs1 : seg_ok c p1) (Hs2 : seg_ok c p2).

(** The regions as as_define_region leaves them. *)
Definition two_regions : addrspace := mkAS (seg_start p1) 0 (seg_pages p1) (seg_start p2) 0 (seg_pages p2) 0.

(** Both loops over the headers. *)
Lemma define_loop X a s :
  aspaces (vm s) !! a = Some (mkAS 0 0 0 0 0 0 0) →
  wpx X (xfor (Z.to_nat (e_phnum eh)) 0 (λ i,
      read_phdr vop_read v eh i (λ ph, xrun (on_vm (as_define_region a (p_vaddr ph) (p_memsz ph))))))
    (fin (λ _ s', s' = set_vm (set_aspaces <[a := two_regions]> (vm s)) s) (λ _ _, False)) (λ _ _, False) s.
Proof.
  intros Ha. pose proof (lengthZ_nonneg phs) as Hn. rewrite (ef_num _ _ _ Hef) in Hn.
  eapply wp_ext; [apply (phdr_loop eh phs); [done|lia|rewrite (ef_num _ _ _ Hef); lia]|].
  change (drop (Z.to_nat 0) phs) with phs. rewrite Hloads. simpl. xsteps. unfold on_vm. wp_step.
  eapply wp_conseq; [by eapply (as_define_region_spec X c p1); [..|left]| |done]. intros [] v1 ->. simpl.
  xsteps. destruct (seg_extent c p1 Hs1) as (? & _).
  eapply wp_conseq; [eapply (as_define_region_spec X c p2); [done|apply lookup_insert_eq|by right]| |done].
  intros [] v2 ->. xstep. simpl. rewrite (proj2 (Z.eqb_neq _ 0)) by lia. unfold set_vm, set_aspaces, two_regions. simpl.
  by rewrite insert_insert_eq.
Qed.

Lemma load_loop X runs x o s :
  proc_mem s runs x o → loaded (vm s) = false →
  as_vbase1 x = seg_start p1 → as_npages1 x = seg_pages p1 →
  as_vbase2 x = seg_start p2 → as_npages2 x = seg_pages p2 →
  (∀ va, user_byte (vm s) x o va = zeros x o va) →
  wpx X (xfor (Z.to_nat (e_phnum eh)) 0 (λ i,
      read_phdr vop_read v eh i (λ ph, load_segment rnd vop_read v (p_offset ph) (p_vaddr ph) (p_memsz ph) (p_filesz ph))))
    (fin (λ _ s', touched o s s' ∧ proc_mem s' runs x o ∧
            ∀ va, 0 ≤ va < 2 ^ 32 → user_byte (vm s') x o va = image x o p1 p2 va) (λ _ _, False)) (λ _ _, False) s.
Proof.
  intros Hpm Hld B1 N1 B2 N2 Hz. pose proof (lengthZ_nonneg phs) as Hn. rewrite (ef_num _ _ _ Hef) in Hn.
  pose proof (rn_as _ _ _ _ (pm_running _ _ _ _ Hpm)) as Has.
  eapply wp_ext; [apply (phdr_loop eh phs); [done|lia|rewrite (ef_num _ _ _ Hef); lia]|].
  change (drop (Z.to_nat 0) phs) with phs. rewrite Hloads. simpl. pose proof (ef_bytes _ _ _ Hef).
  xstep. eapply wp_conseq; [apply (load_segment_spec runs x o); try done| |done].
  { intros va Hva. eapply (seg_mapped x o p1 TEXT_SEGMENT); try done. simpl. rewrite <- N1. apply Has. }
  intros [[]|e] s1; simpl; [|done]. intros (T1 & P1 & U1). destruct (touched_same _ _ _ T1) as (_ & L1 & _).
  xstep. eapply wp_conseq; [apply (load_segment_spec runs x o); try done; [congruence|]| |done].
  { intros va Hva. eapply (seg_mapped x o p2 DATA_SEGMENT); try done. simpl. rewrite <- N2. apply Has. }
  intros [[]|e] s2; simpl; [|done]. intros (T2 & P2 & U2). xstep. split_and!; [by eapply touched_trans|done|].
  intros va Hva. rewrite U2 by done. unfold image, upd. rewrite U1 by done. unfold upd. by rewrite Hz.
Qed.

Lemma two_regions_wf x :
  as_vbase1 x = seg_start p1 → as_npages1 x = seg_pages p1 →
  as_vbase2 x = seg_start p2 → as_npages2 x = seg_pages p2 → as_wf x.
Proof.
  intros B1 N1 B2 N2. destruct (seg_extent c p1 Hs1) as (? & ? & ? & _ & _ & ?).
  destruct (seg_extent c p2 Hs2) as (? & ? & ? & _ & _ & ?).
  unfold stackbase, USERSTACK, DUMBVM_STACKPAGES, PAGE_SIZE in *.
  constructor; rewrite ?B1, ?N1, ?B2, ?N2; unfold PAGE_SIZE; try done; lia.
Qed.

(** The end of the load: the text becomes read-only and the TLB is flushed. *)
Lemma complete_load_spec X w runs a w1 runs' x o :
  spawned w runs a w1 runs' x o →
  wpx X as_complete_load
    (λ _ w', spawned w runs a w' runs' x o ∧ loaded w' = true ∧ ∀ va, user_byte w' x o va = user_byte w1 x o va)
    (λ _ _, False) w1.
Proof.
  intros [Hr Ht Hl Hs Hc He Hon Hf Hk]. destruct (Hr) as [(b & Hb & _) _ _ _ Hlen].
  unfold as_complete_load. wp_steps.
  eapply wp_conseq; [apply (as_activate_spec X (set_loaded true w1) b (λ _ _, False)); done| |done].
  intros [] w2 (l & -> & Hll & Hlk). split; [|done]. constructor; simpl; try done.
  - by apply (running_tlb w1 runs' x o l true).
  - by apply flushed_ok.
Qed.

(** What load_elf does once the regions have their pages. *)
Definition fill_program : XM Z :=
  xfor (Z.to_nat (e_phnum eh)) 0 (λ i,
    read_phdr vop_read v eh i (λ ph, load_segment rnd vop_read v (p_offset ph) (p_vaddr ph) (p_memsz ph) (p_filesz ph))) ;~
  xrun (on_vm as_complete_load) ;~
  xret (e_entry eh).

(** The new address space is there, empty, and the rest of the machine as before. *)
Record prepared_in (s : machine) (runs : gmap Z Z) (a : Z) (s' : machine) (runs' : gmap Z Z) (x : addrspace) (o : owner) : Prop := {
  pi_spawned : spawned (vm s) runs a (vm s') runs' x o;
  pi_kernel : kernel_same s s' ∧ loaded (vm s') = loaded (vm s);
  pi_text : as_vbase1 x = seg_start p1 ∧ as_npages1 x = seg_pages p1;
  pi_data : as_vbase2 x = seg_start p2 ∧ as_npages2 x = seg_pages p2;
  pi_zeros : ∀ va, user_byte (vm s') x o va = zeros x o va
}.

Lemma load_elf_head X s runs a Q D (E : Z → machine → Prop) :
  curproc_as (vm s) = Some (Some a) → aspaces (vm s) !! a = Some (mkAS 0 0 0 0 0 0 0) →
  cm_rep (cms (vm s)) runs → lengthZ (tlb (vm s)) = NUM_TLB →
  (∀ k, 0 ≤ k < NUM_TLB → (tlb (vm s)).[k] = Some (TLBHI_INVALID k, TLBLO_INVALID)) →
  (∀ e s', e = ENOMEM ∧ (seg_pages p1 ≤ 1024 → seg_pages p2 ≤ 1024 →
     Z.of_nat (length (free_pages (cms (vm s)) runs)) < pages_needed two_regions) → E e s') →
  (∀ s' runs' x o, prepared_in s runs a s' runs' x o → wpx X fill_program (fin Q D) E s') →
  wpx X (load_elf rnd vop_read v) (fin Q D) E s.
Proof.
  intros Hcur Ha Hrep Hlen Hinv HE Hk. unfold load_elf. wp_steps. rewrite Hcur. do 2 (eapply wp_deref; [done|]; wp_steps).
  destruct (ef_header _ _ _ Hef) as [Hh Heh]. rewrite read_struct_ok by (done || lia). xsteps.
  change (take (Z.to_nat sizeof_Ehdr) (drop (Z.to_nat 0) c)) with (take 52 c). rewrite <- Heh, (ef_ok _ _ _ Hef). simpl negb. cbv iota.
  xstep. eapply wp_conseq; [by apply define_loop| |done]. intros [[]|e] s1; simpl; [|done]. intros ->.
  xsteps. unfold on_vm. wp_step. destruct (seg_extent c p1 Hs1) as (_ & _ & ? & _), (seg_extent c p2 Hs2) as (_ & _ & ? & _).
  set (w1 := set_aspaces _ (vm s)).
  eapply wp_conseq; [apply (as_prepare_load_spec X w1 runs a two_regions); [done|apply lookup_insert_eq|simpl; (done || lia)..]| |].
  2: { intros e w' Hf. by apply HE. }
  intros [] w2 (runs' & x & o & Hpr). destruct (pr_fields _ _ _ _ _ _ _ _ Hpr) as (B1 & N1 & B2 & N2).
  destruct (pr_env _ _ _ _ _ _ _ _ Hpr) as (_ & _ & Hld2).
  destruct (prepared_spawned _ _ _ _ _ _ _ _ Hpr Hcur Hlen Hinv) as [Hsp Hz]; [by apply two_regions_wf|].
  apply (Hk _ runs' x o). constructor; try done. destruct Hsp as [? ? ? Hspc ? ? ? ? ?]. constructor; try done.
  simpl. rewrite Hspc. simpl. by rewrite insert_insert_eq.
Qed.

Lemma load_elf_spec X s runs a :
  curproc_as (vm s) = Some (Some a) → aspaces (vm s) !! a = Some (mkAS 0 0 0 0 0 0 0) →
  cm_rep (cms (vm s)) runs → lengthZ (tlb (vm s)) = NUM_TLB →
  (∀ k, 0 ≤ k < NUM_TLB → (tlb (vm s)).[k] = Some (TLBHI_INVALID k, TLBLO_INVALID)) →
  loaded (vm s) = false →
  wpx X (load_elf rnd vop_read v)
    (fin (λ entry s', entry = e_entry eh ∧ kernel_same s s' ∧ loaded (vm s') = true ∧
       ∃ runs' x o, spawned (vm s) runs a (vm s') runs' x o ∧
         as_vbase1 x = seg_start p1 ∧ as_npages1 x = seg_pages p1 ∧
         as_vbase2 x = seg_start p2 ∧ as_npages2 x = seg_pages p2 ∧
         ∀ va, 0 ≤ va < 2 ^ 32 → user_byte (vm s') x o va = image x o p1 p2 va) (λ _ _, False))
    (λ e _, e = ENOMEM ∧ (seg_pages p1 ≤ 1024 → seg_pages p2 ≤ 1024 →
       Z.of_nat (length (free_pages (cms (vm s)) runs)) < pages_needed two_regions)) s.
Proof.
  intros Hcur Ha Hrep Hlen Hinv Hld. apply (load_elf_head X s runs a); try done.
  intros s2 runs' x o [Hsp [(K1 & K2 & K3 & K4) Hl2] [B1 N1] [B2 N2] Hz]. unfold fill_program.
  xstep. eapply wp_conseq; [apply (load_loop X runs' x o); try done| |done].
  { constructor; apply Hsp. } { congruence. }
  intros [[]|e] s3; simpl; [|done]. intros (Ht & Hpm & Hu).
  pose proof (spawned_touched _ _ _ _ _ _ _ _ Hsp Ht Hpm) as Hsp3.
  xsteps. unfold on_vm. wp_step. eapply wp_conseq; [by apply (complete_load_spec X)| |done].
  intros [] w4 (Hsp4 & Hl4 & Hu4). xsteps. destruct Ht as (m & l & t & -> & _). split_and!; [done| |done|].
  { split_and!; done. }
  exists runs', x, o. split_and!; try done. intros va Hva. rewrite Hu4. by apply Hu.
Qed.

(** In a process whose text is locked the first byte of the text is fatal. *)
Lemma load_elf_locked X s runs a :
  curproc_as (vm s) = Some (Some a) → aspaces (vm s) !! a = Some (mkAS 0 0 0 0 0 0 0) →
  cm_rep (cms (vm s)) runs → lengthZ (tlb (vm s)) = NUM_TLB →
  (∀ k, 0 ≤ k < NUM_TLB → (tlb (vm s)).[k] = Some (TLBHI_INVALID k, TLBLO_INVALID)) →
  loaded (vm s) = true → 0 < p_filesz p1 →
  wpx X (load_elf rnd vop_read v) (fin (λ _ _, False) (λ k s', k = EX_MOD ∧ opened s' = opened s ∧ heap s' = heap s))
    (λ e _, e = ENOMEM ∧ (seg_pages p1 ≤ 1024 → seg_pages p2 ≤ 1024 →
       Z.of_nat (length (free_pages (cms (vm s)) runs)) < pages_needed two_regions)) s.
Proof.
  intros Hcur Ha Hrep Hlen Hinv Hld Hfz. apply (load_elf_head X s runs a); try done.
  intros s2 runs' x o [Hsp [(K1 & K2 & K3 & K4) Hl2] [B1 N1] [B2 N2] Hz]. unfold fill_program.
  pose proof (lengthZ_nonneg phs) as Hn. rewrite (ef_num _ _ _ Hef) in Hn.
  xstep. eapply wp_ext; [apply (phdr_loop eh phs); [done|lia|rewrite (ef_num _ _ _ Hef); lia]|].
  change (drop (Z.to_nat 0) phs) with phs. rewrite Hloads. simpl. xstep.
  pose proof (rn_as _ _ _ _ (sp_running _ _ _ _ _ _ _ Hsp)) as Has.
  eapply wp_conseq; [apply (load_segment_locked runs' x o X p1); try done; [apply Hef|constructor; apply Hsp|congruence|]| |done].
  { eapply seg_text; [done|done|]. rewrite <- N1. apply Has. }
  intros [[]|k] s3 H; [done|]. destruct H as (-> & Hh & Ho). simpl. split_and!; congruence.
Qed.
End LoadElf.
End Loader.
