(* ===== verification/ExecSpec.v ===== *)
(** * execv: the lemmas

    The argument vector on its way from the old address space through the kernel
    to the new one: the loops of sys_execv of kern/syscall/proc_syscalls.c and of
    runprogram, piece by piece. *)

From S2P Require Import Prelude UserCopy Coremap AddrSpace VmInv AsCopy VmFault UserMem KernBuf Exec LoadSpec.
#[local] Open Scope kern_scope.

Lemma wp_xfor X (I : Z → machine → Prop) n lo body D E s :
  I lo s →
  (∀ i s', lo ≤ i < lo + Z.of_nat n → I i s' → wpx X (body i) (fin (λ _, I (i + 1)) D) E s') →
  wpx X (xfor n lo body) (fin (λ _, I (lo + Z.of_nat n)) D) E s.
Proof.
  revert lo s. induction n as [|n IH]; intros lo s HI Hb; simpl.
  { apply wp_xret. by rewrite Z.add_0_r. }
  xstep. eapply wp_conseq; [apply Hb; [lia|done]| |done]. intros [[]|c] s1; simpl; [|done]. intros HI1.
  eapply wp_conseq; [apply (IH (lo + 1) s1 HI1)| |done].
  - intros i s2 Hi. apply Hb. lia.
  - intros [[]|c] s2; simpl; [|done]. by replace (lo + Z.of_nat (S n)) with (lo + 1 + Z.of_nat n) by lia.
Qed.

(** ** Argument vectors *)

(** At [argv] there is a vector of pointers to the strings [strs], ended by NULL. *)
Definition argv_at (w : vmstate) (x : addrspace) (o : owner) (argv : Z) (strs : list (list Z)) : Prop :=
  argv mod 4 = 0 ∧ ∃ ptrs, Forall (λ p, is_word p ∧ p ≠ 0) ptrs ∧
    user_bytes w x o argv (bytes_of_words (ptrs ++ [0])) ∧ Forall2 (user_str w x o) ptrs strs.

Lemma bytes_of_words_app l1 l2 : bytes_of_words (l1 ++ l2) = bytes_of_words l1 ++ bytes_of_words l2.
Proof. apply bind_app. Qed.

Lemma lengthZ_bytes_of_words l : lengthZ (bytes_of_words l) = 4 * lengthZ l.
Proof.
  induction l as [|w l IH]; [done|]. change (bytes_of_words (w :: l)) with (word_bytes w ++ bytes_of_words l).
  rewrite lengthZ_app, IH, lengthZ_cons. change (lengthZ (word_bytes w)) with 4. lia.
Qed.

Lemma user_bytes_word w x o va ws i z :
  user_bytes w x o va (bytes_of_words ws) → ws.[i] = Some z → user_bytes w x o (va + 4 * i) (word_bytes z).
Proof.
  intros Hb Hi. pose proof (lookupZ_Some_range _ _ _ Hi) as Hr. rewrite lookupZ_nat in Hi by lia.
  rewrite <- (take_drop_middle ws _ _ Hi), bytes_of_words_app in Hb. apply user_bytes_app in Hb as [_ Hb].
  change (bytes_of_words (z :: ?l)) with (word_bytes z ++ bytes_of_words l) in Hb. apply user_bytes_app in Hb as [Hb _].
  rewrite lengthZ_bytes_of_words in Hb. unfold lengthZ in *. rewrite length_take in Hb.
  by replace (4 * i) with (4 * Z.of_nat (Z.to_nat i `min` length ws)) by lia.
Qed.

Lemma user_bytes_range w x o va l : user_bytes w x o va l → Forall is_byte l.
Proof.
  intros (_ & _ & H). apply Forall_lookup. intros k b Hk. rewrite <- lookupZ_of_nat in Hk.
  pose proof (lookupZ_Some_range _ _ _ Hk) as Hr. specialize (H _ Hr). rewrite Hk in H. unfold user_byte in H.
  destruct (uaddr w x o _); [|done]. injection H as <-. apply get_byte_range.
Qed.

Section Args.
Context (rnd : Z → Z) (Hrnd : ∀ t, 0 ≤ rnd t < NUM_TLB).
Context (runs : gmap Z Z) (x : addrspace) (o : owner).

Lemma refaulted_str s s' va l : refaulted s s' → user_str (vm s) x o va l → user_str (vm s') x o va l.
Proof. intros Hr [? ?]. split; [done|]. by eapply refaulted_bytes. Qed.

Lemma refaulted_argv s s' va strs : refaulted s s' → argv_at (vm s) x o va strs → argv_at (vm s') x o va strs.
Proof.
  intros Hr (? & ptrs & ? & ? & Hf). split; [done|]. exists ptrs. split_and!; [done|by eapply refaulted_bytes|].
  eapply Forall2_impl; [exact Hf|]. intros p l. by apply refaulted_str.
Qed.

Lemma check_program_spec X p l s :
  proc_mem s runs x o → user_str (vm s) x o p l → name_too_long l = false →
  wpx X (check_program rnd p)
    (fin (λ _ s', refaulted s s' ∧ proc_mem s' runs x o) (λ _ _, False)) (λ _ _, False) s.
Proof.
  intros Hpm Hstr Hn. unfold check_program. xstep. eapply wp_conseq; [by apply (scan_spec rnd Hrnd runs x o X)| |done].
  intros [r|c] s1; simpl; [|done]. intros (Hr & Hpm1 & _). xstep.
  eapply wp_conseq; [eapply (user_string_spec rnd Hrnd runs x o X); [done|by eapply refaulted_str]| |done].
  intros [r'|c] s2; simpl; [|done]. intros (-> & Hr2 & Hpm2). rewrite Hn. xstep. split; [by eapply refaulted_trans|done].
Qed.

(** The word at an index of the vector. *)
Lemma argv_word X argv ws i z s :
  proc_mem s runs x o → argv mod 4 = 0 → user_bytes (vm s) x o argv (bytes_of_words ws) → ws.[i] = Some z → is_word z →
  wpx X (load_word rnd (KernelMode false) (u32 (argv + 4 * i)))
    (fin (λ z' s', z' = z ∧ refaulted s s' ∧ proc_mem s' runs x o) (λ _ _, False)) (λ _ _, False) s.
Proof.
  intros Hpm Hal Hb Hi Hz. pose proof (user_bytes_word _ _ _ _ _ _ _ Hb Hi) as Hw.
  destruct (Hw) as (? & ? & _). change (lengthZ (word_bytes z)) with 4 in *. unfold USERSPACETOP in *.
  rewrite u32_small by lia. apply load_word_spec; try done. Z.div_mod_to_equations. lia.
Qed.

Lemma count_args_spec X args ptrs s :
  proc_mem s runs x o → args mod 4 = 0 → Forall (λ p, is_word p ∧ p ≠ 0) ptrs →
  user_bytes (vm s) x o args (bytes_of_words (ptrs ++ [0])) →
  wpx X (count_args rnd args)
    (fin (λ n s', n = lengthZ ptrs ∧ refaulted s s' ∧ proc_mem s' runs x o) (λ _ _, False)) (λ _ _, False) s.
Proof.
  intros Hpm Hal Hp Hb. unfold count_args. destruct (Hb) as (? & Htop & _).
  rewrite lengthZ_bytes_of_words, lengthZ_app in Htop. change (lengthZ [0]) with 1 in Htop. unfold USERSPACETOP in Htop.
  pose proof (lengthZ_nonneg ptrs).
  apply (wp_while X (λ i s', 0 ≤ i ≤ lengthZ ptrs ∧ refaulted s s' ∧ proc_mem s' runs x o) (λ i, lengthZ ptrs - i)).
  2: { split_and!; [lia|lia|apply refaulted_refl|done]. }
  2: { lia. }
  intros i s1 (Hi & Hr & Hpm1). wp_step.
  destruct (lookupZ_lt (ptrs ++ [0]) i) as [z Hz]; [rewrite lengthZ_app; change (lengthZ [0]) with 1; lia|].
  assert (is_word z ∧ (z = 0 ↔ i = lengthZ ptrs)) as [Hw Hz0].
  { destruct (decide (i < lengthZ ptrs)).
    - rewrite lookupZ_app_l in Hz by done. rewrite lookupZ_nat in Hz by lia.
      destruct (Forall_lookup_1 _ _ _ _ Hp Hz). split; [done|lia].
    - rewrite lookupZ_app_r in Hz by lia. assert (i = lengthZ ptrs) as -> by lia. rewrite Z.sub_diag in Hz.
      injection Hz as <-. done. }
  eapply wp_conseq; [eapply argv_word; [done|done|by eapply refaulted_bytes|done|done]| |done].
  intros [r|c] s2; simpl; [|done]. intros (-> & Hr2 & Hpm2). assert (refaulted s s2) by (by eapply refaulted_trans).
  destruct (Z.eqb_spec z 0); wp_step; simpl; [split_and!; [tauto|done..]|].
  split; [split_and!; try done|]; lia.
Qed.
End Args.

(** ** The buffers *)

(** The array at [K] points to the [n] buffers after it; the first ones hold
    [strs].  Every other block is as in [h0]. *)
Record kargs_rep (h0 : gmap Z (list (option Z))) (K : Z) (n : nat) (strs : list (list Z))
    (h : gmap Z (list (option Z))) : Prop := {
  kr_array : h !! K = Some (Some <$> seqZ (K + 1) (Z.of_nat n));
  kr_bufs : ∀ i, 0 ≤ i < Z.of_nat n → ∃ b, h !! (K + 1 + i) = Some b ∧ lengthZ b = ARG_MAX_LEN;
  kr_strs : ∀ i l, strs.[i] = Some l → kstr h (K + 1 + i) l;
  kr_other : ∀ p, ¬ (K ≤ p ≤ K + Z.of_nat n) → h !! p = h0 !! p
}.

Lemma kargs_read h0 K n strs s i :
  kargs_rep h0 K n strs (heap s) → 0 ≤ i < Z.of_nat n → kread K i s = Ok (K + 1 + i) s.
Proof.
  intros Hk Hi. eapply kread_ok; [by apply Hk|]. rewrite lookupZ_nat by lia.
  rewrite list_lookup_fmap, lookup_seqZ_lt by lia. simpl. by rewrite Z2Nat.id by lia.
Qed.

Lemma destroy_array_spec X h0 K n strs s :
  kargs_rep h0 K n strs (heap s) → (∀ p, K ≤ p → h0 !! p = None) →
  wpx X (destroy_array (Z.of_nat n) K) (λ _ s', s' = set_heap h0 s) (λ _ _, False) s.
Proof.
  intros Hk Hfresh. unfold destroy_array. wp_step.
  apply (wp_for (λ i s', ∃ h, s' = set_heap h s ∧ h !! K = heap s !! K ∧
    (∀ j, i ≤ j < Z.of_nat n → h !! (K + 1 + j) = heap s !! (K + 1 + j)) ∧
    (∀ j, 0 ≤ j < i → h !! (K + 1 + j) = None) ∧ (∀ p, ¬ (K ≤ p ≤ K + Z.of_nat n) → h !! p = h0 !! p))).
  - lia.
  - exists (heap s). split_and!; [by destruct s|done..|lia|apply Hk].
  - intros i s' Hi (h & -> & HK & Hrest & Hgone & Hother). unfold kfree_buf.
    wp_step. eapply wp_ok.
    { eapply kread_ok; [simpl; rewrite HK; by apply Hk|]. rewrite lookupZ_nat by lia.
      rewrite list_lookup_fmap, lookup_seqZ_lt by lia. done. }
    rewrite Z2Nat.id by lia. destruct (kr_bufs _ _ _ _ _ Hk i Hi) as (b & Hb & _).
    wp_steps. eapply wp_deref; [simpl; rewrite Hrest by lia; done|]. wp_step. exists (delete (K + 1 + i) h). split_and!; [done|..].
    + rewrite lookup_delete_ne by lia. done.
    + intros j Hj. rewrite lookup_delete_ne by lia. apply Hrest. lia.
    + intros j Hj. destruct (decide (j = i)) as [->|]; [by rewrite lookup_delete_eq|].
      rewrite lookup_delete_ne by lia. apply Hgone. lia.
    + intros p Hp. rewrite lookup_delete_ne by lia. by apply Hother.
  - intros s' (h & -> & HK & _ & Hgone & Hother). unfold kfree_buf. wp_steps.
    eapply wp_deref; [simpl; rewrite HK; by apply Hk|]. wp_step. unfold set_heap. simpl. f_equal.
    apply map_eq. intros p. destruct (decide (p = K)) as [->|]; [rewrite lookup_delete_eq; symmetry; by apply Hfresh|].
    rewrite lookup_delete_ne by done. destruct (decide (K ≤ p ≤ K + Z.of_nat n)); [|by apply Hother].
    rewrite (Hfresh p) by lia. replace p with (K + 1 + (p - K - 1)) by lia. apply Hgone. lia.
Qed.

(** kmalloc when it has memory. *)
Definition with_heap (s : machine) (h : gmap Z (list (option Z))) (nx : Z) : machine :=
  mkMachine (vm s) (ticks s) h nx (heap_fate s) (opened s).

Lemma kmalloc_buf_ok s n :
  heap_fate s = [] →
  kmalloc_buf n s = Ok (Some (heap_next s))
    (with_heap s (<[heap_next s := replicate (Z.to_nat n) None]> (heap s)) (heap_next s + 1)).
Proof. intros Hf. unfold kmalloc_buf, with_heap. by rewrite Hf. Qed.

Lemma alloc_kargs_spec X h0 K (n : nat) s :
  heap_fate s = [] → heap_next s = K + 1 → (∀ p, K ≤ p → h0 !! p = None) →
  heap s = <[K := replicate n None]> h0 →
  wpx X (alloc_kargs (Z.of_nat n) K)
    (λ _ s', ∃ h, s' = with_heap s h (K + 1 + Z.of_nat n) ∧ kargs_rep h0 K n [] h) (λ _ _, False) s.
Proof.
  intros Hf Hn Hfresh Hh. unfold alloc_kargs.
  apply (wp_for (λ i s', ∃ h, s' = with_heap s h (K + 1 + i) ∧
    h !! K = Some ((Some <$> seqZ (K + 1) i) ++ replicate (n - Z.to_nat i) None) ∧
    (∀ j, 0 ≤ j < i → ∃ b, h !! (K + 1 + j) = Some b ∧ lengthZ b = ARG_MAX_LEN) ∧
    (∀ p, ¬ (K ≤ p ≤ K + Z.of_nat n) → h !! p = h0 !! p))).
  - lia.
  - exists (heap s). split_and!; [destruct s; unfold with_heap; simpl in *; f_equal; lia|..].
    + rewrite Hh, lookup_insert_eq. simpl. by rewrite Nat.sub_0_r.
    + lia.
    + intros p Hp. rewrite Hh, lookup_insert_ne by lia. done.
  - intros i s' Hi (h & -> & HK & Hb & Ho). wp_step. eapply wp_ok; [by apply kmalloc_buf_ok|].
    cbn [with_heap heap_next heap]. unfold kwrite. wp_steps. cbn [with_heap heap_next heap].
    eapply wp_deref; [rewrite lookup_insert_ne by lia; exact HK|].
    set (b := (Some <$> _) ++ _).
    assert (lengthZ b = Z.of_nat n) as Hlb.
    { unfold b. rewrite lengthZ_app, lengthZ_replicate. unfold lengthZ. rewrite length_fmap, length_seqZ. lia. }
    rewrite (proj2 (Z.leb_le 0 i)), (proj2 (Z.ltb_lt i (lengthZ b))) by lia. simpl andb. cbv iota. wp_step.
    eexists. split_and!; [|..].
    + unfold with_heap, set_heap. cbn. f_equal. lia.
    + rewrite lookup_insert_eq. f_equal. unfold updateZ. rewrite decide_True by lia. unfold b.
      rewrite insert_app_r_alt by (rewrite length_fmap, length_seqZ; lia). rewrite length_fmap, length_seqZ, Nat.sub_diag.
      replace (n - Z.to_nat i)%nat with (S (n - Z.to_nat (i + 1))) by lia. simpl.
      rewrite (seqZ_app (K + 1) i 1) by lia. rewrite fmap_app, <- app_assoc. simpl. done.
    + intros j Hj. rewrite lookup_insert_ne by lia. destruct (decide (j = i)) as [->|].
      * rewrite lookup_insert_eq. eexists. split; [done|]. by rewrite lengthZ_replicate.
      * rewrite lookup_insert_ne by lia. apply Hb. lia.
    + intros p Hp. rewrite !lookup_insert_ne by lia. by apply Ho.
  - intros s' (h & -> & HK & Hb & Ho). exists h. split; [done|].
    constructor; try done; [by rewrite HK, Nat2Z.id, Nat.sub_diag, app_nil_r|].
    intros i l Hl%lookupZ_Some_range. unfold lengthZ in Hl. simpl in Hl. lia.
Qed.

Section CopyArgs.
Context (rnd : Z → Z) (Hrnd : ∀ t, 0 ≤ rnd t < NUM_TLB).
Context (runs : gmap Z Z) (x : addrspace) (o : owner).

(** One buffer filled. *)
Lemma kargs_fill h0 K n strs h i l b :
  kargs_rep h0 K n (take i strs) h → strs !! i = Some l → Z.of_nat i < Z.of_nat n → Forall (λ c, c ≠ 0) l →
  lengthZ l < ARG_MAX_LEN → h !! (K + 1 + Z.of_nat i) = Some b → lengthZ b = ARG_MAX_LEN →
  kargs_rep h0 K n (take (S i) strs) (<[K + 1 + Z.of_nat i := fill b 0 (l ++ [0])]> h).
Proof.
  intros [Ha Hb Hs Ho] Hi Hin Hnz Hl Hp Hlb. constructor.
  - by rewrite lookup_insert_ne by lia.
  - intros j Hj. destruct (decide (j = Z.of_nat i)) as [->|]; [|rewrite lookup_insert_ne by lia; by apply Hb].
    rewrite lookup_insert_eq. eexists. split; [done|]. rewrite <- Hlb. unfold lengthZ in *. f_equal. apply length_fill.
    rewrite length_app. simpl. lia.
  - intros j l' Hj. pose proof (lookupZ_Some_range _ _ _ Hj) as Hr. rewrite lookupZ_nat in Hj by lia.
    apply lookup_take_Some in Hj as [Hj Hlt].
    destruct (decide (Z.to_nat j = i)) as [E|].
    + rewrite E, Hi in Hj. injection Hj as <-. replace (K + 1 + j) with (K + 1 + Z.of_nat i) by lia.
      split; [done|]. rewrite lookup_insert_eq. eexists. unfold fill. by rewrite take_0, app_nil_l.
    + destruct (Hs j l') as [? [rest Hrest]].
      { rewrite lookupZ_nat by lia. apply lookup_take_Some. split; [done|lia]. }
      split; [done|]. exists rest. rewrite lookup_insert_ne by lia. done.
  - intros p Hp'. rewrite lookup_insert_ne by lia. by apply Ho.
Qed.

Lemma copy_kargs_spec X h0 K args ptrs strs s :
  proc_mem s runs x o → args mod 4 = 0 → Forall (λ p, is_word p ∧ p ≠ 0) ptrs →
  user_bytes (vm s) x o args (bytes_of_words (ptrs ++ [0])) → Forall2 (user_str (vm s) x o) ptrs strs →
  Forall (λ l, lengthZ l < ARG_MAX_LEN) strs → kargs_rep h0 K (length ptrs) [] (heap s) →
  wpx X (copy_kargs rnd args (lengthZ ptrs) K)
    (fin (λ _ s', ∃ h, refaulted (set_heap h s) s' ∧ proc_mem s' runs x o ∧ kargs_rep h0 K (length ptrs) strs h)
       (λ _ _, False)) (λ _ _, False) s.
Proof.
  intros Hpm Hal Hp Hb Hf Hlen Hk. pose proof (Forall2_length _ _ _ Hf) as Hl.
  unfold copy_kargs. replace (Z.to_nat (lengthZ ptrs)) with (length ptrs) by (unfold lengthZ; lia).
  eapply wp_conseq; [apply (wp_xfor X (λ i s', ∃ h, refaulted (set_heap h s) s' ∧ proc_mem s' runs x o ∧
    kargs_rep h0 K (length ptrs) (take (Z.to_nat i) strs) h) (length ptrs) 0 _ (λ _ _, False) (λ _ _, False))| |done].
  - exists (heap s). split_and!; [destruct s; apply refaulted_refl|done..].
  - intros i s' Hi (h & Hr & Hpm1 & Hk1). destruct (refaulted_same _ _ Hr) as (_ & _ & _ & _ & _ & Hh1). simpl in Hh1.
    assert (∀ a, user_byte (vm s') x o a = user_byte (vm s) x o a) as Hu by (intros a; exact (refaulted_user x o _ _ Hr a)).
    destruct (lookupZ_lt ptrs i ltac:(unfold lengthZ; lia)) as [p Hpi]. rewrite lookupZ_nat in Hpi by lia.
    destruct (Forall2_lookup_l _ _ _ _ _ Hf Hpi) as (l & Hli & Hstr). destruct (Forall_lookup_1 _ _ _ _ Hp Hpi) as [Hpw _].
    xstep. eapply wp_conseq; [eapply (argv_word rnd Hrnd runs x o X args (ptrs ++ [0]) i p); [done|done| | |done]| |done].
    { eapply user_bytes_ext; [|exact Hb]. auto. }
    { rewrite lookupZ_app_l by (unfold lengthZ; lia). by rewrite lookupZ_nat by lia. }
    intros [z|c] s2; simpl; [|done]. intros (-> & Hr2 & Hpm2). destruct (refaulted_same _ _ Hr2) as (_ & _ & _ & _ & _ & Hh2).
    assert (heap s2 = h) as Hh by congruence.
    wp_step. eapply wp_ok; [eapply kargs_read; [by rewrite Hh|lia]|].
    destruct (kr_bufs _ _ _ _ _ Hk1 i ltac:(lia)) as (b & Hbuf & Hlb). wp_step.
    pose proof (Forall_lookup_1 _ _ _ _ Hlen Hli) as Hll. simpl in Hll.
    eapply wp_conseq; [eapply (copyinstr_buf_spec rnd Hrnd runs x o X p (K + 1 + i) ARG_MAX_LEN l b s2); [done| |by rewrite Hh| |done]| |done].
    { split; [apply Hstr|]. eapply user_bytes_ext; [|apply Hstr]. intros a _. by rewrite (refaulted_user _ _ _ _ Hr2). }
    { lia. }
    intros [[]|c] s3; simpl; [|done]. intros [Hr3 Hpm3]. rewrite Hh in Hr3.
    exists (<[K + 1 + i := fill b 0 (l ++ [0])]> h). split_and!; [|done|].
    { eapply refaulted_trans; [|exact Hr3]. destruct Hr as (l1 & t1 & ->), Hr2 as (l2 & t2 & ->). by exists l2, t2. }
    replace (Z.to_nat (i + 1)) with (S (Z.to_nat i)) by lia. replace (K + 1 + i) with (K + 1 + Z.of_nat (Z.to_nat i)) in * by lia.
    eapply (kargs_fill h0 K (length ptrs)); try done; [lia|apply Hstr].
  - intros [[]|c] s'; simpl; [|done]. intros (h & ? & ? & Hk'). exists h. split_and!; [done..|].
    rewrite take_ge in Hk' by lia. done.
Qed.
End CopyArgs.

(** ** The new stack *)

Definition string_room (l : list Z) : Z := ROUNDUP (lengthZ l + 1) 4.
Definition strings_room (strs : list (list Z)) : Z := foldr (λ l n, string_room l + n) 0 strs.
Fixpoint string_addrs (sp : Z) (strs : list (list Z)) : list Z :=
  match strs with
  | [] => []
  | l :: strs' => (sp - string_room l) :: string_addrs (sp - string_room l) strs'
  end.

Lemma string_room_spec l : lengthZ l < string_room l ∧ string_room l mod 4 = 0 ∧ string_room l < lengthZ l + 5.
Proof.
  pose proof (lengthZ_nonneg l). unfold string_room, ROUNDUP. pose proof (DIVROUNDUP_spec (lengthZ l + 1) 4).
  rewrite Z.mod_mul by lia. lia.
Qed.

Lemma strings_room_nonneg strs : 0 ≤ strings_room strs.
Proof. induction strs as [|l strs IH]; simpl; [lia|]. pose proof (string_room_spec l). pose proof (lengthZ_nonneg l). lia. Qed.

Lemma strings_room_app l1 l2 : strings_room (l1 ++ l2) = strings_room l1 + strings_room l2.
Proof. induction l1 as [|l l1 IH]; simpl; [lia|]. rewrite IH. lia. Qed.

Lemma strings_room_reverse l : strings_room (reverse l) = strings_room l.
Proof. induction l as [|z l IH]; [done|]. rewrite reverse_cons, strings_room_app, IH. simpl. lia. Qed.

Lemma string_addrs_spec strs sp :
  0 < sp - strings_room strs → sp < 2 ^ 32 → Forall (λ p, (is_word p ∧ p ≠ 0) ∧ sp - strings_room strs ≤ p) (string_addrs sp strs) ∧
  length (string_addrs sp strs) = length strs.
Proof.
  revert sp. induction strs as [|l strs IH]; intros sp H1 H2; simpl in *; [done|].
  destruct (string_room_spec l) as (? & _ & _). pose proof (lengthZ_nonneg l). pose proof (strings_room_nonneg strs).
  destruct (IH (sp - string_room l)) as [Hf Hl]; [lia..|]. split; [|by rewrite Hl].
  constructor; [unfold is_word; lia|]. eapply Forall_impl; [exact Hf|]. intros p [? ?]. split; [done|lia].
Qed.

(** The room the arguments take on the stack, and how a program is started on
    them. *)
Definition args_room (strs : list (list Z)) : Z := strings_room strs + 4 * (lengthZ strs + 1).
Definition start_frame (entry : Z) (strs : list (list Z)) : trapframe :=
  let argv := USERSTACK - args_room strs in mkTf entry (lengthZ strs) argv (argv - argv mod 8).

Lemma args_room_split strs : USERSTACK - args_room strs = USERSTACK - strings_room strs - 4 * (lengthZ strs + 1).
Proof. unfold args_room. lia. Qed.

Lemma args_room_strings strs : args_room strs = strings_room strs + 4 * (lengthZ strs + 1) ∧ 0 ≤ strings_room strs ∧ 0 ≤ lengthZ strs.
Proof. split_and!; [done|apply strings_room_nonneg|apply lengthZ_nonneg]. Qed.

Lemma strings_room_aligned strs : strings_room strs mod 4 = 0.
Proof. induction strs as [|l strs IH]; [done|]. simpl. destruct (string_room_spec l) as (_ & ? & _). Z.div_mod_to_equations. lia. Qed.

(** The vector is in place; what lies below it has not changed. *)
Definition args_placed (x : addrspace) (o : owner) (w : vmstate) (strs : list (list Z)) (w' : vmstate) : Prop :=
  argv_at w' x o (USERSTACK - args_room strs) strs ∧
  ∀ va, 0 ≤ va < 2 ^ 32 → ¬ (USERSTACK - args_room strs ≤ va < USERSTACK) → user_byte w' x o va = user_byte w x o va.

Section Stack.
Context (rnd : Z → Z) (Hrnd : ∀ t, 0 ≤ rnd t < NUM_TLB).
Context (runs : gmap Z Z) (x : addrspace) (o : owner).
(** The stack can be written to. *)
Context (Hstack : ∀ ld va, stackbase ≤ va < USERSTACK → writable_at x o ld va).

(** Only bytes from [lo] up to [hi] have changed. *)
Definition pushed (s : machine) (lo hi : Z) (s' : machine) : Prop :=
  touched o s s' ∧ proc_mem s' runs x o ∧
  ∀ a, 0 ≤ a < 2 ^ 32 → ¬ (lo ≤ a < hi) → user_byte (vm s') x o a = user_byte (vm s) x o a.

Lemma wrote_pushed s va l s' : wrote runs x o s va l s' → pushed s va (va + lengthZ l) s'.
Proof.
  intros (? & ? & Hu). split_and!; [done..|]. intros a Ha Hout. rewrite Hu by done. unfold upd. by rewrite decide_False.
Qed.

Lemma pushed_trans s1 s2 s3 lo mid hi hi2 :
  pushed s1 mid hi s2 → pushed s2 lo hi2 s3 → hi2 ≤ hi → lo ≤ mid → pushed s1 lo hi s3.
Proof.
  intros (T1 & P1 & U1) (T2 & P2 & U2) ? ?. split_and!; [by eapply touched_trans|done|].
  intros a Ha Hout. rewrite U2, U1 by (done || lia). done.
Qed.

Lemma wrote_bytes s va l s' :
  wrote runs x o s va l s' → 0 ≤ va → va + lengthZ l ≤ USERSPACETOP → user_bytes (vm s') x o va l.
Proof.
  intros (_ & _ & Hu) Hva Htop. split_and!; [done..|]. intros k Hk. unfold USERSPACETOP in *. rewrite Hu by lia.
  unfold upd. rewrite decide_True by lia. f_equal. lia.
Qed.

Lemma pushed_str s lo hi s' va l :
  pushed s lo hi s' → hi ≤ va → user_str (vm s) x o va l → user_str (vm s') x o va l.
Proof.
  intros (_ & _ & Hu) Hva [Hnz Hb]. split; [done|]. eapply user_bytes_ext; [|exact Hb].
  destruct Hb as (? & Htop & _). unfold USERSPACETOP in *. intros a Ha. apply Hu; lia.
Qed.

Lemma push_strings_spec X ps strs sp s :
  proc_mem s runs x o → sp mod 4 = 0 → sp ≤ USERSTACK → stackbase ≤ sp - strings_room strs →
  Forall2 (λ p l, kstr (heap s) p l ∧ Forall is_byte l ∧ lengthZ l < ARG_MAX_LEN) ps strs →
  wpx X (push_strings rnd ps sp)
    (fin (λ r s', r = (sp - strings_room strs, string_addrs sp strs) ∧ pushed s (sp - strings_room strs) sp s' ∧
            Forall2 (user_str (vm s') x o) (string_addrs sp strs) strs) (λ _ _, False)) (λ _ _, False) s.
Proof.
  intros Hpm Hal Hsp Hroom Hf. revert sp s Hpm Hal Hsp Hroom Hf. revert strs. induction ps as [|p ps IH]; intros strs sp s Hpm Hal Hsp Hroom Hf.
  { apply Forall2_nil_inv_l in Hf as ->. simpl. xstep. rewrite Z.sub_0_r. split_and!; [done| |done].
    split_and!; [apply touched_refl|done..]. }
  apply Forall2_cons_inv_l in Hf as (l & strs' & (Hk & Hby & Hl) & Hf & ->). simpl in Hroom |- *.
  destruct (string_room_spec l) as (R1 & R2 & R3). pose proof (strings_room_nonneg strs'). pose proof (lengthZ_nonneg l).
  unfold stackbase, USERSTACK, DUMBVM_STACKPAGES, PAGE_SIZE in *. pose proof (Hk) as [Hnz _].
  wp_step. eapply wp_ok; [by apply kstrlen_spec|]. fold (string_room l). rewrite u32_small by lia.
  set (sp1 := sp - string_room l) in *. assert (sp1 mod 4 = 0) as Hal1 by (unfold sp1; Z.div_mod_to_equations; lia).
  assert (sp1 + lengthZ (l ++ [0]) ≤ sp) as Hfit by (rewrite lengthZ_app; change (lengthZ [0]) with 1; unfold sp1; lia).
  xstep. eapply wp_conseq; [apply (copyoutstr_buf_spec rnd Hrnd runs x o X p sp1 ARG_MAX_LEN l s); try done; unfold USERSPACETOP, ARG_MAX_LEN, sp1 in *; try lia| |done].
  { intros k Hk'. apply Hstack. lia. }
  intros [[]|c] s1; simpl; [|done]. intros Hw. pose proof (wrote_pushed _ _ _ _ Hw) as Hp1.
  destruct (Hp1) as (T1 & P1 & U1). destruct (touched_same _ _ _ T1) as (_ & _ & _ & _ & Hh1 & _).
  xstep. eapply wp_conseq; [apply (IH strs' sp1 s1); try done; unfold sp1 in *; try lia; by rewrite Hh1| |done].
  intros [r|c] s2; simpl; [|done]. intros (-> & Hp2 & Hstrs). xstep. simpl.
  replace (sp1 - strings_room strs') with (sp - (string_room l + strings_room strs')) in * by (unfold sp1; lia).
  split_and!; [done| |].
  - eapply pushed_trans; [|exact Hp2|unfold sp1; lia|reflexivity].
    split_and!; [done..|]. intros a Ha Hout. apply U1; [done|]. unfold sp1 in *. lia.
  - constructor; [|done]. eapply pushed_str; [exact Hp2|done|]. split; [done|].
    apply (wrote_bytes s); [done|unfold sp1; lia|unfold USERSPACETOP; lia].
Qed.

Lemma push_words_spec X ws sp s :
  proc_mem s runs x o → sp ≤ USERSTACK → stackbase ≤ sp - 4 * lengthZ ws → Forall is_word ws →
  wpx X (push_words rnd ws sp)
    (fin (λ r s', r = sp - 4 * lengthZ ws ∧ pushed s r sp s' ∧ user_bytes (vm s') x o r (bytes_of_words (reverse ws)))
       (λ _ _, False)) (λ _ _, False) s.
Proof.
  revert sp s. induction ws as [|w ws IH]; intros sp s Hpm Hsp Hroom Hw; simpl.
  { xstep. change (lengthZ (@nil Z)) with 0 in *. rewrite Z.sub_0_r. split_and!; [lia|split_and!; [apply touched_refl|done..]|].
    unfold user_bytes, stackbase, USERSTACK, DUMBVM_STACKPAGES, PAGE_SIZE, USERSPACETOP in *. change (lengthZ []) with 0.
    split_and!; [lia|lia|intros; lia]. }
  rewrite lengthZ_cons in *. pose proof (lengthZ_nonneg ws). apply Forall_cons in Hw as [Hw Hws].
  unfold stackbase, USERSTACK, DUMBVM_STACKPAGES, PAGE_SIZE in *. rewrite u32_small by lia.
  xstep. change (lengthZ (word_bytes w)) with 4.
  eapply wp_conseq; [apply (copyout_writable rnd Hrnd runs x o X (word_bytes w) (sp - 4) s); try done; change (lengthZ (word_bytes w)) with 4; unfold USERSPACETOP; try lia| |done].
  { apply (proj1 (word_bytes_spec w Hw)). }
  { intros k Hk. apply Hstack. unfold stackbase, USERSTACK, DUMBVM_STACKPAGES, PAGE_SIZE. lia. }
  intros [[]|c] s1; simpl; [|done]. intros Hwr. pose proof (wrote_pushed _ _ _ _ Hwr) as Hp1. change (lengthZ (word_bytes w)) with 4 in Hp1. rewrite Z.sub_add in Hp1.
  eapply wp_conseq; [apply (IH (sp - 4) s1); [apply Hp1|lia..|done]| |done].
  intros [r|c] s2; simpl; [|done]. intros (-> & Hp2 & Hb). split_and!; [lia| |].
  - eapply pushed_trans; [exact Hp1|exact Hp2|lia|lia].
  - rewrite reverse_cons, bytes_of_words_app. apply user_bytes_app. split; [exact Hb|].
    rewrite lengthZ_bytes_of_words. unfold lengthZ. rewrite length_reverse. fold (lengthZ ws).
    replace (sp - 4 - 4 * lengthZ ws + 4 * lengthZ ws) with (sp - 4) by lia.
    change (bytes_of_words [w]) with (word_bytes w ++ []). rewrite app_nil_r.
    eapply user_bytes_ext; [|apply (wrote_bytes s); [done|lia|change (lengthZ (word_bytes w)) with 4; unfold USERSPACETOP; lia]].
    change (lengthZ (word_bytes w)) with 4. destruct Hp2 as (_ & _ & Hu2). intros a Ha. apply Hu2; lia.
Qed.

(** The strings, then the vector of their addresses: the arguments. *)
Lemma args_pushed s s1 s2 strs addrs :
  stackbase ≤ USERSTACK - args_room strs →
  pushed s (USERSTACK - strings_room strs) USERSTACK s1 →
  pushed s1 (USERSTACK - strings_room strs - 4 * (lengthZ strs + 1)) (USERSTACK - strings_room strs) s2 →
  Forall2 (user_str (vm s1) x o) addrs strs →
  Forall (λ p, (is_word p ∧ p ≠ 0) ∧ USERSTACK - strings_room strs ≤ p) addrs →
  user_bytes (vm s2) x o (USERSTACK - strings_room strs - 4 * (lengthZ strs + 1)) (bytes_of_words (addrs ++ [0])) →
  pushed s (USERSTACK - args_room strs) USERSTACK s2 ∧
  ∀ w, (∀ va, user_byte w x o va = user_byte (vm s2) x o va) → args_placed x o (vm s) strs w.
Proof.
  intros Hroom Hp1 Hp2 Hstrs Haddr Hvec. rewrite <- args_room_split in *. pose proof (args_room_strings strs) as (Hr & ? & ?).
  assert (pushed s (USERSTACK - args_room strs) USERSTACK s2) as Hp by (eapply pushed_trans; [exact Hp1|exact Hp2|lia..]).
  split; [done|]. intros w Hw. split.
  2: { intros va Hva Hout. rewrite Hw. by apply Hp. }
  split; [rewrite Hr; unfold USERSTACK; pose proof (strings_room_aligned strs); Z.div_mod_to_equations; lia|].
  exists addrs. split_and!; [eapply Forall_impl; [exact Haddr|]; by intros p []| |].
  - eapply user_bytes_ext; [|exact Hvec]. intros va _. apply Hw.
  - apply Forall2_same_length_lookup. split; [by eapply Forall2_length|]. intros i p l Hip Hil.
    destruct (Forall_lookup_1 _ _ _ _ Haddr Hip) as [_ Hlo].
    destruct (pushed_str s1 _ _ s2 p l Hp2 Hlo) as [Hnz Hb]; [by eapply Forall2_lookup_lr|].
    split; [done|]. eapply user_bytes_ext; [|exact Hb]. intros va _. apply Hw.
Qed.
End Stack.

(** ** From the load to user mode *)

Lemma stack_writable w runs x o ld va :
  as_rep w runs x o → as_wf x → as_vbase1 x + as_npages1 x * PAGE_SIZE ≤ stackbase →
  as_vbase2 x + as_npages2 x * PAGE_SIZE ≤ stackbase → stackbase ≤ va < USERSTACK → writable_at x o ld va.
Proof.
  intros [T1 T2 T3 _] [[_ A1] [_ A2] _ _] H1 H2 Hva. pose proof (tr_len _ _ _ _ _ _ T1) as L1. pose proof (tr_len _ _ _ _ _ _ T2) as L2.
  pose proof (tr_len _ _ _ _ _ _ T3) as L3. unfold stackbase, USERSTACK, DUMBVM_STACKPAGES in *.
  exists STACK_SEGMENT. unfold translate, seg_frame, USERSTACK, DUMBVM_STACKPAGES. rewrite page_base_div by (unfold PAGE_SIZE in *; lia).
  set (q := va / PAGE_SIZE * PAGE_SIZE).
  assert (0x80000000 - 12 * PAGE_SIZE ≤ q < 0x80000000) as Hq by (unfold q, PAGE_SIZE in *; Z.div_mod_to_equations; lia).
  rewrite !(proj2 (lookupZ_None _ _)) by (rewrite ?L1, ?L2; unfold PAGE_SIZE in *; Z.div_mod_to_equations; lia).
  destruct (lookupZ_lt (o_fs o) ((q - (0x80000000 - 12 * PAGE_SIZE)) / PAGE_SIZE)) as [f Hf].
  { rewrite L3. unfold PAGE_SIZE in *. Z.div_mod_to_equations. lia. }
  exists f. by rewrite Hf.
Qed.

Lemma as_rep_runs w w' runs runs' x o :
  (∀ r, page w' r = page w r) → pmem w' = pmem w →
  (∀ p k, p ∈ owned o → runs !! p = Some k → runs' !! p = Some k) → as_rep w runs x o → as_rep w' runs' x o.
Proof.
  intros Hpg Hm Hr [T1 T2 T3 Hn].
  assert (∀ va n t fs, t ∈ owned o → (∀ f, f ∈ fs → f ∈ owned o) → table_rep w runs va n t fs → table_rep w' runs' va n t fs) as Ht.
  { intros va n t fs Hto Hfo [? ? ? ? Hf]. constructor; rewrite ?Hpg; try done; [by apply Hr|].
    intros i f Hi. rewrite Hpg, Hm. destruct (Hf i f Hi). split; [|done]. apply Hr; [|done]. by eapply Hfo, lookupZ_elem. }
  constructor; [apply Ht|apply Ht|apply Ht|]; try done; unfold owned; set_solver.
Qed.

Section Finish.
Context (rnd : Z → Z) (Hrnd : ∀ t, 0 ≤ rnd t < NUM_TLB).
Context (v0 : vmstate) (runs : gmap Z Z) (old a : Z) (x0 : addrspace) (o0 : owner).
Context (Hrep0 : cm_rep (cms v0) runs) (Has0 : as_rep v0 runs x0 o0) (Hold : aspaces v0 !! old = Some x0) (Hne : old ≠ a) (Hcur0 : curproc_as v0 = Some (Some a)).
Context (runs' : gmap Z Z) (x : addrspace) (o : owner).

(** Dropping the old address space leaves the new one as it is. *)
Lemma drop_old_spec X s :
  spawned v0 runs a (vm s) runs' x o →
  wpx X (on_vm (as_destroy old))
    (λ _ s', ∃ c, s' = set_vm (set_aspaces (delete old) (set_cms c (vm s))) s ∧
       cm_rep c (foldr delete runs' (owned o0)) ∧ same_layout (cms (vm s)) c ∧
       running (vm s') (foldr delete runs' (owned o0)) x o ∧ tlb_ok (vm s') x o ∧
       ∀ va, user_byte (vm s') x o va = user_byte (vm s) x o va) (λ _ _, False) s.
Proof.
  intros [Hr Ht Hl Hs Hc He Hon Hf Hk]. unfold on_vm. wp_step.
  assert (as_rep (vm s) runs' x0 o0) as Has1.
  { eapply (as_rep_kept v0); try done. intros r. by apply same_layout_page. }
  eapply wp_conseq; [apply (as_destroy_spec X (vm s) runs' old x0 o0); [apply Hr| |done]| |done].
  { rewrite Hs, lookup_insert_ne by done. done. }
  intros [] w' (Hcm & w1 & (l & ->) & ->). simpl. eexists. split_and!; [done|done|by eexists|..].
  - destruct Hr as [_ Hrep Has Hwf Hlen]. constructor; simpl; try done.
    + exists a. rewrite Hc, Hs. split; [done|]. rewrite lookup_delete_ne, lookup_insert_eq by done. done.
    + eapply as_rep_runs; [..|exact Has]; try done. intros p k Hp Hpk. apply (still_there runs' (owned o0)); [done|].
      intros Hin. destruct (owned_run _ _ _ _ _ Has0 Hin) as [k' Hk']. by rewrite (Hf p Hp) in Hk'.
  - destruct Ht. by constructor.
  - done.
Qed.

Lemma read_cells_spec h0 K n strs s :
  kargs_rep h0 K n strs (heap s) → read_cells n K 0 s = Ok (seqZ (K + 1) (Z.of_nat n)) s.
Proof.
  intros Hk. assert (∀ m i, 0 ≤ i → i + Z.of_nat m ≤ Z.of_nat n →
    read_cells m K i s = Ok (seqZ (K + 1 + i) (Z.of_nat m)) s) as H.
  { induction m as [|m IH]; intros i Hi Hm; [done|]. simpl. unfold bind. rewrite (kargs_read h0 K n strs) by (done || lia).
    rewrite IH by lia. unfold ret. f_equal. rewrite (seqZ_cons (K + 1 + i)) by lia. do 2 f_equal; lia. }
  rewrite H by lia. by rewrite Z.add_0_r.
Qed.

Lemma kargs_strings h0 K strs h :
  kargs_rep h0 K (length strs) strs h → Forall (λ l, Forall is_byte l ∧ lengthZ l < ARG_MAX_LEN) strs →
  Forall2 (λ p l, kstr h p l ∧ Forall is_byte l ∧ lengthZ l < ARG_MAX_LEN)
    (reverse (seqZ (K + 1) (lengthZ strs))) (reverse strs).
Proof.
  intros Hk Hs. apply Forall2_reverse. apply Forall2_same_length_lookup. unfold lengthZ. rewrite length_seqZ. split; [lia|].
  intros i p l Hp Hl. apply lookup_seqZ in Hp as [-> Hi].
  split; [|exact (Forall_lookup_1 _ _ _ _ Hs Hl)]. apply (kr_strs _ _ _ _ _ Hk). by rewrite lookupZ_of_nat.
Qed.

Lemma exec_args_spec X K h0 strs entry s :
  spawned v0 runs a (vm s) runs' x o → as_vbase1 x + as_npages1 x * PAGE_SIZE ≤ stackbase →
  as_vbase2 x + as_npages2 x * PAGE_SIZE ≤ stackbase → kargs_rep h0 K (length strs) strs (heap s) →
  (∀ p, K ≤ p → h0 !! p = None) → Forall (λ l, Forall is_byte l ∧ lengthZ l < ARG_MAX_LEN) strs →
  stackbase ≤ USERSTACK - args_room strs →
  wpx X (exec_args rnd (lengthZ strs) K (Some old) a entry USERSTACK)
    (fin (λ tf s', tf = start_frame entry strs ∧ args_placed x o (vm s) strs (vm s') ∧ heap s' = h0 ∧
            opened s' = opened s ∧ running (vm s') (foldr delete runs' (owned o0)) x o ∧ tlb_ok (vm s') x o ∧
            aspaces (vm s') = delete old (<[a := x]> (aspaces v0)) ∧ loaded (vm s') = loaded (vm s) ∧
            curproc_as (vm s') = curproc_as v0 ∧
            ∀ p k w, runs !! p = Some k → region v0 p k w → pmem (vm s') w = pmem v0 w) (λ _ _, False))
    (λ _ _, False) s.
Proof.
  intros Hsp Hb1 Hb2 Hk Hfresh Hs Hroom. unfold exec_args. unfold lengthZ at 1. rewrite Nat2Z.id.
  assert (∀ ld va, stackbase ≤ va < USERSTACK → writable_at x o ld va) as Hstack.
  { intros ld va. destruct (sp_running _ _ _ _ _ _ _ Hsp) as [_ _ Has Hwf _]. by eapply stack_writable. }
  wp_step. eapply wp_ok; [by eapply read_cells_spec|]. cbv zeta. xstep. wp_step.
  pose proof (args_room_strings strs) as Hr1. rewrite <- (strings_room_reverse strs) in Hr1.
  eapply wp_conseq; [apply (push_strings_spec rnd Hrnd runs' x o Hstack X _ (reverse strs) USERSTACK s);
    [constructor; apply Hsp|done|done|lia|by apply (kargs_strings h0)]| |done].
  intros [r|c] s1; simpl; [|done]. intros (-> & Hp1 & Hstrs). simpl.
  destruct (string_addrs_spec (reverse strs) USERSTACK) as [Haddr Hlen]; [unfold stackbase, USERSTACK, DUMBVM_STACKPAGES, PAGE_SIZE in *; lia|done|].
  set (addrs := string_addrs USERSTACK (reverse strs)) in *. rewrite length_reverse in Hlen.
  assert (lengthZ (0 :: addrs) = lengthZ strs + 1) as Hl0 by (rewrite lengthZ_cons; unfold lengthZ; lia).
  xstep. wp_step. eapply wp_conseq; [apply (push_words_spec rnd Hrnd runs' x o Hstack X (0 :: addrs) _ s1);
    [apply Hp1|lia|lia|]| |done].
  { constructor; [done|]. eapply Forall_impl; [exact Haddr|]. by intros p [[]]. }
  intros [r|c] s2; simpl; [|done]. rewrite Hl0, reverse_cons, strings_room_reverse. intros (-> & Hp2 & Hvec).
  rewrite strings_room_reverse in Hp1, Haddr.
  destruct (args_pushed runs' x o s s1 s2 strs (reverse addrs)) as (Hp & Hpl); [done|done|done| |by apply Forall_reverse|done|].
  { rewrite <- (reverse_involutive strs). by apply Forall2_reverse. }
  destruct (Hp) as (Ht & Hpm2 & _). destruct (touched_same _ _ _ Ht) as (_ & Hld & _ & _ & Hheap & Hop).
  pose proof (spawned_touched _ _ _ _ _ _ _ _ Hsp Ht Hpm2) as Hsp2.
  wp_step. eapply wp_conseq; [apply (destroy_array_spec X h0 K (length strs) strs); [by rewrite Hheap|done]| |done].
  intros [] s3 ->. wp_steps. eapply wp_conseq; [by apply (drop_old_spec X)| |done].
  intros [] s4 (c & -> & Hrep4 & Hlay & Hrun4 & Htlb4 & Hu4). simpl in *. xstep.
  split_and!; try done; [by rewrite <- args_room_split|by apply Hpl| |apply Hsp2|apply Hsp2].
  simpl. by rewrite (sp_spaces _ _ _ _ _ _ _ Hsp2).
Qed.
End Finish.

(** The arguments of runprogram. *)
Lemma run_args_spec rnd (Hrnd : ∀ t, 0 ≤ rnd t < NUM_TLB) X v0 runs a entry args strs s runs' x o :
  spawned v0 runs a (vm s) runs' x o → as_vbase1 x + as_npages1 x * PAGE_SIZE ≤ stackbase →
  as_vbase2 x + as_npages2 x * PAGE_SIZE ≤ stackbase →
  Forall2 (λ p l, kstr (heap s) p l ∧ Forall is_byte l ∧ lengthZ l < ARG_MAX_LEN) args strs →
  stackbase ≤ USERSTACK - args_room strs →
  wpx X (r <~ push_strings rnd args USERSTACK ;;
         argv <~ push_words rnd (0 :: reverse r.2) r.1 ;;
         xret (mkTf entry (lengthZ args) argv (argv - argv mod 8)))
    (fin (λ tf s', tf = start_frame entry strs ∧ args_placed x o (vm s) strs (vm s') ∧ heap s' = heap s ∧
            opened s' = opened s ∧ spawned v0 runs a (vm s') runs' x o ∧ loaded (vm s') = loaded (vm s)) (λ _ _, False))
    (λ _ _, False) s.
Proof.
  intros Hsp Hb1 Hb2 Hk Hroom. pose proof (args_room_strings strs) as Hr1.
  assert (∀ ld va, stackbase ≤ va < USERSTACK → writable_at x o ld va) as Hstack.
  { intros ld va. destruct (sp_running _ _ _ _ _ _ _ Hsp) as [_ _ Has Hwf _]. by eapply stack_writable. }
  xstep. eapply wp_conseq; [apply (push_strings_spec rnd Hrnd runs' x o Hstack X _ strs USERSTACK s);
    [constructor; apply Hsp|done|done|lia|done]| |done].
  intros [r|c] s1; simpl; [|done]. intros (-> & Hp1 & Hstrs). simpl.
  destruct (string_addrs_spec strs USERSTACK) as [Haddr Hlen]; [unfold stackbase, USERSTACK, DUMBVM_STACKPAGES, PAGE_SIZE in *; lia|done|].
  set (addrs := string_addrs USERSTACK strs) in *.
  assert (lengthZ (0 :: reverse addrs) = lengthZ strs + 1) as Hl0 by (rewrite lengthZ_cons; unfold lengthZ; rewrite length_reverse; lia).
  xstep. eapply wp_conseq; [apply (push_words_spec rnd Hrnd runs' x o Hstack X (0 :: reverse addrs) _ s1);
    [apply Hp1|lia|lia|]| |done].
  { constructor; [done|]. apply Forall_reverse. eapply Forall_impl; [exact Haddr|]. by intros p [[]]. }
  intros [r|c] s2; simpl; [|done]. rewrite Hl0, reverse_cons, reverse_involutive. intros (-> & Hp2 & Hvec).
  destruct (args_pushed runs' x o s s1 s2 strs addrs) as (Hp & Hpl); try done.
  destruct (Hp) as (Ht & Hpm2 & _). destruct (touched_same _ _ _ Ht) as (_ & Hld & _ & _ & Hheap & Hop).
  xstep. split_and!; try done; [|by apply Hpl|by eapply spawned_touched].
  rewrite <- args_room_split. unfold start_frame. by replace (lengthZ args) with (lengthZ strs) by (unfold lengthZ; by rewrite (Forall2_length _ _ _ Hk)).
Qed.

(** ** The arguments gathered *)

Section Gather.
Context (rnd : Z → Z) (Hrnd : ∀ t, 0 ≤ rnd t < NUM_TLB).
Context {file : Type} (vfs_open : list Z → file + Z) (vop_read : file → Z → Z → list (list Z) * option Z).
Context (runs : gmap Z Z) (x : addrspace) (o : owner).

(** The machine [s] but for its heap, the TLB and the fault counter. *)
Definition gathered (s : machine) (h : gmap Z (list (option Z))) (nx : Z) (s' : machine) : Prop :=
  refaulted (with_heap s h nx) s' ∧ proc_mem s' runs x o.

Lemma gathered_refaulted s h nx s1 s2 :
  gathered s h nx s1 → refaulted s1 s2 → proc_mem s2 runs x o → gathered s h nx s2.
Proof. intros [? _] ? ?. split; [by eapply refaulted_trans|done]. Qed.

Lemma gathered_heap s h nx s1 h' nx' : gathered s h nx s1 → gathered s h' nx' (with_heap s1 h' nx').
Proof. intros [(l & t & ->) [??]]. split; [by exists l, t|by constructor]. Qed.

Lemma gathered_copied s h nx s1 h' s2 :
  gathered s h nx s1 → refaulted (set_heap h' s1) s2 → proc_mem s2 runs x o → gathered s h' nx s2.
Proof. intros [(l & t & ->) _] (l' & t' & ->) ?. split; [by exists l', t'|done]. Qed.

Lemma gathered_same s h nx s' : gathered s h nx s' →
  heap s' = h ∧ heap_next s' = nx ∧ heap_fate s' = heap_fate s ∧ opened s' = opened s ∧
  pmem (vm s') = pmem (vm s) ∧ cms (vm s') = cms (vm s) ∧ aspaces (vm s') = aspaces (vm s) ∧
  curproc_as (vm s') = curproc_as (vm s) ∧ loaded (vm s') = loaded (vm s) ∧ vm_next (vm s') = vm_next (vm s) ∧
  vm_fate (vm s') = vm_fate (vm s).
Proof. by intros [(l & t & ->) _]. Qed.

Lemma gathered_user s h nx s' va : gathered s h nx s' → user_byte (vm s') x o va = user_byte (vm s) x o va.
Proof. by intros [(l & t & ->) _]. Qed.

Lemma gathered_str s h nx s' va l : gathered s h nx s' → user_str (vm s) x o va l → user_str (vm s') x o va l.
Proof. intros Hg [? Hb]. split; [done|]. eapply user_bytes_ext; [|exact Hb]. intros. by eapply gathered_user. Qed.

Lemma user_str_is_byte w va l : user_str w x o va l → Forall is_byte l.
Proof.
  intros (_ & _ & _ & Hb). apply Forall_lookup. intros i b Hi. rewrite lengthZ_app in Hb. change (lengthZ [0]) with 1 in Hb.
  pose proof (lookup_lt_Some _ _ _ Hi). specialize (Hb (Z.of_nat i) ltac:(unfold lengthZ; lia)).
  rewrite lookupZ_of_nat, lookup_app_l, Hi in Hb by done. unfold user_byte, get_byte in Hb.
  destruct (uaddr _ _ _ _); simpl in Hb; [|done]. injection Hb as <-. unfold is_byte. apply Z.mod_pos_bound. lia.
Qed.

(** The second half: the strings and the name. *)
Lemma gather_name (P : outcome machine (ended trapframe) → Prop) program args path strs s ptrs s3 h3 :
  let K := heap_next s in let kp := K + 1 + lengthZ strs in
  (∀ p, K ≤ p → heap s !! p = None) → heap_fate s = [] → program ≠ 0 → user_str (vm s) x o program path →
  args mod 4 = 0 → Forall (λ p, is_word p ∧ p ≠ 0) ptrs → user_bytes (vm s) x o args (bytes_of_words (ptrs ++ [0])) →
  Forall2 (user_str (vm s) x o) ptrs strs → Forall (λ l, lengthZ l < ARG_MAX_LEN) strs →
  gathered s h3 kp s3 → kargs_rep (heap s) K (length ptrs) [] h3 →
  (∀ s' h, gathered s h (kp + 1) s' → kstr h kp path → kargs_rep (heap s) K (length strs) strs (delete kp h) →
     P (exec_load rnd vfs_open vop_read (lengthZ strs) K kp s')) →
  P ((copy_kargs rnd args (lengthZ ptrs) K ;~
     n <~ user_strlen rnd program ;;
     o0 <- kmalloc_buf (n + 1) ;;
     match o0 with
     | Some kprogram =>
         n0 <~ user_strlen rnd program ;;
         on_error (copyinstr_buf rnd program kprogram (n0 + 1))
           (destroy_array (lengthZ ptrs) K ;; kfree_buf kprogram) ;~
         exec_load rnd vfs_open vop_read (lengthZ ptrs) K kprogram
     | None => destroy_array (lengthZ ptrs) K ;; fail ENOMEM
     end) s3).
Proof.
  intros K kp Hfresh Hfate Hprog Hpath Hal Hp Hvec Hstrs Hlen G3 Hk3 Hk.
  pose proof (Forall2_length _ _ _ Hstrs) as Hpl. assert (lengthZ ptrs = lengthZ strs) as -> by (unfold lengthZ; lia).
  destruct (gathered_same _ _ _ _ G3) as (Hh3 & Hn3 & Hf3 & _). replace (lengthZ strs) with (lengthZ ptrs) at 1 by (unfold lengthZ; lia).
  eapply after_xbind; [apply (copy_kargs_spec rnd Hrnd runs x o False (heap s) K args ptrs strs); try done; [apply G3| | |by rewrite Hh3]|].
  { eapply user_bytes_ext; [|exact Hvec]. intros. by eapply gathered_user. }
  { eapply Forall2_impl; [exact Hstrs|]. intros p l. by eapply gathered_str. }
  intros [] s4 (h4 & R4 & P4 & Hk4). pose proof (gathered_copied _ _ _ _ _ _ G3 R4 P4) as G4.
  eapply after_xbind; [apply (user_strlen_spec rnd Hrnd runs x o False program path); [done|by eapply gathered_str]|].
  intros n s5 (-> & R5 & P5). pose proof (gathered_refaulted _ _ _ _ _ G4 R5 P5) as G5.
  destruct (gathered_same _ _ _ _ G5) as (Hh5 & Hn5 & Hf5 & _).
  unfold bind at 1. rewrite kmalloc_buf_ok, Hh5, Hn5 by (by rewrite Hf5). cbv iota.
  set (h6 := <[kp := _]> h4). pose proof (gathered_heap _ _ _ _ h6 (kp + 1) G5) as G6. set (s6 := with_heap s5 h6 (kp + 1)) in *.
  eapply after_xbind; [apply (user_strlen_spec rnd Hrnd runs x o False program path); [apply G6|by eapply gathered_str]|].
  intros n s7 (-> & R7 & P7). pose proof (gathered_refaulted _ _ _ _ _ G6 R7 P7) as G7.
  destruct (gathered_same _ _ _ _ G7) as (Hh7 & _). pose proof (lengthZ_nonneg path).
  eapply after_xbind; [wp_step; eapply wp_conseq; [eapply (copyinstr_buf_spec rnd Hrnd runs x o False program kp _ path); [done|by eapply gathered_str| | |]|intros r s' Hr; exact Hr|done]|].
  { rewrite Hh7. apply lookup_insert_eq. }
  { rewrite lengthZ_replicate. lia. }
  { destruct Hpath as (_ & ? & Htop & _). rewrite lengthZ_app in Htop. change (lengthZ [0]) with 1 in Htop. unfold USERSPACETOP in Htop. lia. }
  intros [] s8 [R8 P8]. rewrite Hh7 in R8. apply (Hk s8 _ (gathered_copied _ _ _ _ _ _ G7 R8 P8)).
  - split; [apply Hpath|]. eexists. rewrite lookup_insert_eq. done.
  - unfold h6. rewrite insert_insert_eq, delete_insert_id, <- Hpl; [done|].
    rewrite (kr_other _ _ _ _ _ Hk4) by (unfold kp, lengthZ; lia). apply Hfresh. unfold kp. pose proof (lengthZ_nonneg strs). lia.
Qed.

Lemma sys_execv_gather program args path strs s :
  let K := heap_next s in let kp := K + 1 + lengthZ strs in
  proc_mem s runs x o → heap_fate s = [] → (∀ p, K ≤ p → heap s !! p = None) → program ≠ 0 →
  user_str (vm s) x o program path → name_too_long path = false → argv_at (vm s) x o args strs →
  Forall (λ l, lengthZ l < ARG_MAX_LEN) strs →
  ∃ s' h, gathered s h (kp + 1) s' ∧ kstr h kp path ∧ kargs_rep (heap s) K (length strs) strs (delete kp h) ∧
    sys_execv rnd vfs_open vop_read program args s = exec_load rnd vfs_open vop_read (lengthZ strs) K kp s'.
Proof.
  intros K kp Hpm Hfate Hfresh Hprog Hpath Hname (Hal & ptrs & Hp & Hvec & Hstrs) Hlen.
  set (P := λ r, ∃ s' h, gathered s h (kp + 1) s' ∧ kstr h kp path ∧ kargs_rep (heap s) K (length strs) strs (delete kp h) ∧
    r = exec_load rnd vfs_open vop_read (lengthZ strs) K kp s').
  change (P (sys_execv rnd vfs_open vop_read program args s)). unfold sys_execv.
  rewrite (proj2 (Z.eqb_neq program 0)) by done. pose proof (Forall2_length _ _ _ Hstrs) as Hpl.
  eapply (after_xbind P); [by eapply (check_program_spec rnd Hrnd runs x o False)|]. intros [] s1 [H1 P1].
  assert (gathered s (heap s) K s1) as G1 by (split; [by destruct s|done]).
  eapply (after_xbind P); [apply (count_args_spec rnd Hrnd runs x o False args ptrs); try done; by eapply refaulted_bytes|].
  intros n s2 (-> & R2 & P2). pose proof (gathered_refaulted _ _ _ _ _ G1 R2 P2) as G2.
  destruct (gathered_same _ _ _ _ G2) as (Hh2 & Hn2 & Hf2 & _).
  unfold bind at 1. rewrite kmalloc_buf_ok, Hh2, Hn2 by (by rewrite Hf2). cbv iota. fold K.
  replace (Z.to_nat (lengthZ ptrs)) with (length ptrs) by (unfold lengthZ; lia).
  eapply (after_bind P); [unfold lengthZ; apply (alloc_kargs_spec False (heap s) K); cbn; [by rewrite Hf2|done|done|done]|].
  intros [] s3 (h3 & -> & Hk3). set (n := with_heap s2 _ _). change (with_heap n h3 ?k) with (with_heap s2 h3 k).
  pose proof (gathered_heap _ _ _ _ h3 (K + 1 + Z.of_nat (length ptrs)) G2) as G3. clear n. set (s3 := with_heap s2 h3 _) in *.
  apply (gather_name P program args path strs s ptrs s3 h3); try done.
  - rewrite Hpl in G3. exact G3.
  - intros s' h ? ? ?. by exists s', h.
Qed.
End Gather.

(** A new address space, empty and current. *)
Definition entered (s s1 : machine) : Prop :=
  ∃ l fate, s1 = set_vm (mkVM (cms (vm s)) (pmem (vm s)) (<[vm_next (vm s) := mkAS 0 0 0 0 0 0 0]> (aspaces (vm s))) l
      (Some (Some (vm_next (vm s)))) (loaded (vm s)) (vm_next (vm s) + 1) fate) s ∧
    lengthZ l = NUM_TLB ∧ ∀ k, 0 ≤ k < NUM_TLB → l.[k] = Some (TLBHI_INVALID k, TLBLO_INVALID).

(** sys_execv from the call of load_elf on. *)
Definition exec_rest {file} rnd vop_read (v : file) (arg kargs : Z) (old : option Z) (a : Z) : XM trapframe :=
  entrypoint <~ on_error (load_elf rnd vop_read v)
    (vfs_close ;; destroy_array arg kargs ;; exec_undo old a) ;;
  vfs_close ;;
  stackptr <~ on_error (xrun (on_vm (as_define_stack a)))
    (destroy_array arg kargs ;; exec_undo old a) ;;
  exec_args rnd arg kargs old a entrypoint stackptr.

Lemma exec_load_enter {file} rnd vfs_open vop_read arg K path kp (v : file) s old :
  vfs_open path = inl v → curproc_as (vm s) = Some old → vm_fate (vm s) = [] → lengthZ (tlb (vm s)) = NUM_TLB →
  kstr (heap s) kp path →
  ∃ s1, entered (set_heap (delete kp (heap s)) (set_opened (opened s + 1) s)) s1 ∧
    exec_load rnd vfs_open vop_read arg K kp s = exec_rest rnd vop_read v arg K old (vm_next (vm s)) s1.
Proof.
  intros Hopen Hcur Hfate Hlen Hkp. set (s0 := set_heap _ _).
  set (P := λ r, ∃ s1, entered s0 s1 ∧ r = exec_rest rnd vop_read v arg K old (vm_next (vm s)) s1).
  change (P (exec_load rnd vfs_open vop_read arg K kp s)). destruct (Hkp) as (_ & rest & Hblk).
  unfold exec_load, bind at 1. rewrite (kstring_spec s kp path Hkp), Hopen.
  assert (kfree_buf kp (set_opened (opened s + 1) s) = Ok tt s0) as Hfree.
  { unfold kfree_buf, bind, get, deref. simpl. by rewrite Hblk. }
  unfold bind at 1, get. unfold bind at 1, modify. unfold bind at 1. rewrite Hfree.
  unfold bind at 1, on_vm at 1, lift. unfold as_create. change (vm s0) with (vm s). rewrite Hfate. cbv iota beta.
  unfold bind at 1. unfold curproc_setas at 1, bind at 1, get. unfold bind at 1. simpl curproc_as. rewrite Hcur. unfold deref, ret at 1.
  unfold bind at 1, modify. unfold ret at 1. cbv iota beta.
  apply (after_bind P _ _ (λ _ s1, entered s0 s1)); [|intros [] s1 He; by exists s1].
  unfold on_vm. wp_step. eapply wp_conseq; [apply (as_activate_spec False _ (vm_next (vm s)) (λ _ _, False)); [reflexivity|exact Hlen]| |done].
  intros [] w2 (l & -> & Hl & Hinv). by exists l, [].
Qed.

(** ** A program that has been started *)

Section Execv.
Context (rnd : Z → Z) (Hrnd : ∀ t, 0 ≤ rnd t < NUM_TLB).
Context {file : Type} (vfs_open : list Z → file + Z) (vop_read : file → Z → Z → list (list Z) * option Z).
Context (v : file) (c : list Z).
Context (Hread : ∀ off n, 0 ≤ off → 0 ≤ n < 2 ^ 32 → ∃ chunks,
  vop_read v off n = (chunks, None) ∧ concat chunks = take (Z.to_nat n) (drop (Z.to_nat off) c)).
Context (eh : Elf_Ehdr) (phs : list Elf_Phdr) (p1 p2 : Elf_Phdr).
Context (Hef : elf_file c eh phs) (Hloads : loads phs = [p1; p2]) (Hs1 : seg_ok c p1) (Hs2 : seg_ok c p2).
Context (Hp1 : seg_pages p1 ≤ 1024) (Hp2 : seg_pages p2 ≤ 1024).

(** The process runs the program: the segments of the file and the arguments are
    in its memory, and it starts at the entry point. *)
Record launched (strs : list (list Z)) (tf : trapframe) (w : vmstate) (runs : gmap Z Z) (x : addrspace) (o : owner) : Prop := {
  la_frame : tf = start_frame (e_entry eh) strs;
  la_running : running w runs x o;
  la_tlb : tlb_ok w x o;
  la_loaded : loaded w = true;
  la_text : as_vbase1 x = seg_start p1 ∧ as_npages1 x = seg_pages p1;
  la_data : as_vbase2 x = seg_start p2 ∧ as_npages2 x = seg_pages p2;
  la_args : argv_at w x o (tf_a1 tf) strs;
  la_image : ∀ va, 0 ≤ va < 2 ^ 32 → ¬ (tf_a1 tf ≤ va < USERSTACK) → user_byte w x o va = image c x o p1 p2 va
}.

(** Starting it on machine [s] has created an address space, allocated pages for
    it only, left the [kept] ones, and changed no allocated memory. *)
Definition started (s : machine) (runs kept : gmap Z Z) (spaces : gmap Z addrspace → gmap Z addrspace)
    (strs : list (list Z)) (tf : trapframe) (s' : machine) : Prop :=
  ∃ runs' x o, launched strs tf (vm s') runs' x o ∧
    aspaces (vm s') = spaces (<[vm_next (vm s) := x]> (aspaces (vm s))) ∧
    curproc_as (vm s') = Some (Some (vm_next (vm s))) ∧
    (∀ p, p ∈ owned o → runs !! p = None) ∧ (∀ p, p ∉ owned o → runs' !! p = kept !! p) ∧
    ∀ p k w, runs !! p = Some k → region (vm s) p k w → pmem (vm s') w = pmem (vm s) w.

(** Pages enough for the program. *)
Definition enough (v : vmstate) (runs : gmap Z Z) : Prop :=
  pages_needed (two_regions p1 p2) ≤ Z.of_nat (length (free_pages (cms v) runs)).

(** The program in the new address space. *)
Record filled (s : machine) (runs : gmap Z Z) (s' : machine) (runs' : gmap Z Z) (x : addrspace) (o : owner) : Prop := {
  fl_kernel : kernel_same s s';
  fl_loaded : loaded (vm s') = true;
  fl_spawned : ∃ s1, entered s s1 ∧ spawned (vm s1) runs (vm_next (vm s)) (vm s') runs' x o;
  fl_text : as_vbase1 x = seg_start p1 ∧ as_npages1 x = seg_pages p1;
  fl_data : as_vbase2 x = seg_start p2 ∧ as_npages2 x = seg_pages p2;
  fl_image : ∀ va, 0 ≤ va < 2 ^ 32 → user_byte (vm s') x o va = image c x o p1 p2 va
}.

Lemma load_entered X s s1 runs :
  entered s s1 → cm_rep (cms (vm s)) runs → loaded (vm s) = false → enough (vm s) runs →
  wpx X (load_elf rnd vop_read v) (fin (λ entry s', entry = e_entry eh ∧ ∃ runs' x o, filled s runs s' runs' x o) (λ _ _, False))
    (λ _ _, False) s1.
Proof.
  intros He Hrep Hld Hmem. destruct (He) as (l & fate & -> & Hl & Hinv).
  eapply wp_conseq; [apply (load_elf_spec rnd Hrnd vop_read v c Hread eh phs p1 p2 Hef Hloads Hs1 Hs2 X _ runs (vm_next (vm s))); try done; apply lookup_insert_eq| |].
  2: { simpl. intros e s' [_ Hf]. specialize (Hf Hp1 Hp2). unfold enough in Hmem. lia. }
  intros [entry|k] s' H; [|done]. destruct H as (-> & Hk & Hld' & runs' & x & o & Hsp & B1 & N1 & B2 & N2 & Hu).
  split; [done|]. exists runs', x, o. constructor; try done. by eexists.
Qed.

Lemma as_define_stack_ok w runs a x o :
  running w runs x o → aspaces w !! a = Some x → as_define_stack a w = Ok USERSTACK w.
Proof.
  intros [_ Hrep [_ _ T _] _ _] Ha. unfold as_define_stack, read_as, bind, get, deref. rewrite Ha. unfold kassert, ret at 1.
  pose proof (page_range _ _ _ _ Hrep (tr_run _ _ _ _ _ _ T)) as Hpg. apply kvaddr_nonzero in Hpg.
  rewrite (tr_addr _ _ _ _ _ _ T), (proj2 (Z.eqb_neq _ _)) by done. done.
Qed.

Lemma spawned_runs w runs a w' runs' x o l p :
  spawned w runs a w' runs' x o → p ∉ owned o → foldr delete runs' l !! p = foldr delete runs l !! p.
Proof.
  intros [_ _ _ _ _ He Ho _ _] Hp. rewrite !lookup_foldr_delete. destruct (decide (p ∈ l)); [done|].
  apply option_eq. intros k. split; [|apply He]. intros H. by destruct (Ho p k H).
Qed.

(** The layout the stack needs. *)
Lemma filled_below s runs s' runs' x o :
  filled s runs s' runs' x o → as_vbase1 x + as_npages1 x * PAGE_SIZE ≤ stackbase ∧ as_vbase2 x + as_npages2 x * PAGE_SIZE ≤ stackbase.
Proof.
  intros [_ _ _ [-> ->] [-> ->] _]. destruct (seg_extent c p1 Hs1) as (_ & _ & _ & ?), (seg_extent c p2 Hs2) as (_ & _ & _ & ?). lia.
Qed.

Lemma exec_load_spec X h0 K strs path kp s runs old x0 o0 :
  vfs_open path = inl v → proc_mem s runs x0 o0 → curproc_as (vm s) = Some (Some old) → aspaces (vm s) !! old = Some x0 →
  old ≠ vm_next (vm s) → vm_fate (vm s) = [] → loaded (vm s) = false → enough (vm s) runs →
  kstr (heap s) kp path → kargs_rep h0 K (length strs) strs (delete kp (heap s)) → (∀ p, K ≤ p → h0 !! p = None) →
  Forall (λ l, Forall is_byte l ∧ lengthZ l < ARG_MAX_LEN) strs → stackbase ≤ USERSTACK - args_room strs →
  wpx X (exec_load rnd vfs_open vop_read (lengthZ strs) K kp)
    (fin (λ tf s', heap s' = h0 ∧ opened s' = opened s ∧
       started s runs (foldr delete runs (owned o0)) (delete old) strs tf s') (λ _ _, False))
    (λ _ _, False) s.
Proof.
  intros Hopen [[_ Hrep Has0 Hwf0 Hlen] Htlb] Hcur Hold Hne Hfate Hld Hmem Hkp Hk Hfresh Hs Hroom.
  destruct (exec_load_enter rnd vfs_open vop_read (lengthZ strs) K path kp v s (Some old)) as (s1 & He & Heq); try done.
  eapply wp_ext; [exact Heq|]. clear Heq. set (s0 := set_heap (delete kp (heap s)) (set_opened (opened s + 1) s)) in *.
  unfold exec_rest.
  xstep. wp_step. eapply wp_conseq; [by apply (load_entered X s0 s1 runs)| |done].
  intros [entry|k] s2 H; [|done]. destruct H as (-> & runs' & x & o & Hfl). simpl.
  destruct (filled_below _ _ _ _ _ _ Hfl) as [Hb1 Hb2]. destruct (Hfl) as [(Hh2 & _ & _ & Ho2) Hld2 (s1' & He' & Hsp) Htx Hda Hu].
  unfold vfs_close. wp_steps. xstep. unfold xrun, on_vm. wp_steps. eapply wp_ok.
  { eapply as_define_stack_ok; [apply Hsp|]. simpl. rewrite (sp_spaces _ _ _ _ _ _ _ Hsp). apply lookup_insert_eq. }
  xstep. set (s3 := set_vm _ _). destruct He' as (l' & fate' & -> & _). simpl in Hsp. set (w0 := mkVM _ _ _ _ _ _ _ _) in Hsp.
  eapply wp_conseq; [eapply (exec_args_spec rnd Hrnd) with (v0 := w0) (runs := runs) (x0 := x0) (o0 := o0); try done| |done].
  { eapply as_rep_runs; [..|exact Has0]; done. }
  { simpl. by rewrite lookup_insert_ne. }
  { simpl. by rewrite Hh2. }
  intros [tf|k] s4 H; [|done].
  destruct H as (-> & (Hargs & Hrest) & Hh4 & Hop4 & Hrun4 & Htlb4 & Hsp4 & Hld4 & Hcur4 & Hk4). simpl in *.
  split_and!; [done|rewrite Hop4, Ho2; simpl; lia|]. exists (foldr delete runs' (owned o0)), x, o.
  split_and!; [|by rewrite Hsp4, insert_insert_eq|by rewrite Hcur4|apply Hsp|intros p Hp; exact (spawned_runs _ _ _ _ _ _ _ (owned o0) p Hsp Hp)|done].
  constructor; try done; [by rewrite Hld4|]. intros va Hva Hout. simpl in Hout. rewrite Hrest by done. by apply Hu.
Qed.

Lemma runprogram_spec X progname args strs s runs :
  vfs_open progname = inl v → name_too_long progname = false → curproc_as (vm s) = Some None →
  cm_rep (cms (vm s)) runs → lengthZ (tlb (vm s)) = NUM_TLB → vm_fate (vm s) = [] → loaded (vm s) = false →
  enough (vm s) runs →
  Forall2 (λ p l, kstr (heap s) p l ∧ Forall is_byte l ∧ lengthZ l < ARG_MAX_LEN) args strs →
  stackbase ≤ USERSTACK - args_room strs →
  wpx X (runprogram rnd vfs_open vop_read progname args)
    (fin (λ tf s', heap s' = heap s ∧ opened s' = opened s ∧ started s runs runs id strs tf s') (λ _ _, False))
    (λ _ _, False) s.
Proof.
  intros Hopen Hname Hcur Hrep Hlen Hfate Hld Hmem Hargs Hroom. unfold runprogram. rewrite Hname, Hopen.
  unfold on_vm, curproc_setas. wp_steps. eapply wp_deref; [exact Hcur|]. wp_step. apply wp_kassert; [done|]. wp_steps.
  eapply wp_conseq; [apply as_create_spec| |done]. cbn zeta.
  intros [a|] w1 (fate & Hw); [|exfalso; simpl in Hw; rewrite Hfate in Hw; by destruct Hw]. destruct Hw as [-> ->].
  wp_steps. eapply wp_deref; [exact Hcur|]. wp_steps.
  eapply wp_conseq; [apply (as_activate_spec X _ (vm_next (vm s)) (λ _ _, False)); [reflexivity|exact Hlen]| |done]. intros [] w2 (l & -> & Hl & Hinv).
  set (s0 := set_opened (opened s + 1) s). set (s1 := set_vm _ _).
  assert (entered s0 s1) as He by (by exists l, fate). clearbody s1.
  xstep. wp_step. eapply wp_conseq; [by apply (load_entered X s0 s1 runs)| |done].
  intros [entry|k] s2 H; [|done]. destruct H as (-> & runs' & x & o & Hfl). cbn [fin].
  destruct (filled_below _ _ _ _ _ _ Hfl) as [Hb1 Hb2]. destruct (Hfl) as [(Hh2 & _ & _ & Ho2) Hld2 (s1' & He' & Hsp) Htx Hda Hu].
  unfold vfs_close. wp_steps. eapply wp_ok.
  { eapply as_define_stack_ok; [apply Hsp|]. simpl. rewrite (sp_spaces _ _ _ _ _ _ _ Hsp). apply lookup_insert_eq. }
  set (s3 := set_vm _ _). destruct He' as (l' & fate' & -> & _).
  eapply wp_conseq; [apply (run_args_spec rnd Hrnd X _ _ _ _ args strs s3 runs' x o Hsp Hb1 Hb2); [simpl; by rewrite Hh2|done]| |done].
  intros [tf|k] s4 H; [|done]. destruct H as (-> & (Hpl & Hrest) & Hh4 & Ho4 & Hsp4 & Hld4). simpl in Ho4, Hld4.
  split_and!; [by rewrite Hh4; simpl; rewrite Hh2|rewrite Ho4, Ho2; simpl; lia|]. destruct (Hsp4) as [Hr4 Ht4 _ Hs4 Hc4 He4 Ho5 Hf4 Hk4].
  exists runs', x, o. split_and!; [|by rewrite Hs4; simpl; rewrite insert_insert_eq|by rewrite Hc4|done|intros p Hp; exact (spawned_runs _ _ _ _ _ _ _ [] p Hsp4 Hp)|done].
  constructor; try done; [by rewrite Hld4|]. intros va Hva Hout. rewrite Hrest by done. by apply Hu.
Qed.
End Execv.
