(* ===== verification/ExecProps.v ===== *)
(** * Running programs: the properties

    What execv and runprogram promise a program: the bytes of its file where the
    file says, its arguments, and memory of its own; and what becomes of execv
    where its code does not keep that promise.  The instances run a program of
    two small segments on the machine of VmProps.v. *)

From S2P Require Import Prelude UserCopy Coremap AddrSpace VmInv AsCopy VmFault VmProps UserMem KernBuf Exec LoadSpec ExecSpec.
#[local] Open Scope kern_scope.

(** ** Paged and flat memory *)

Section Flat.
Context (rnd : Z → Z) (Hrnd : ∀ t, 0 ≤ rnd t < NUM_TLB).
Context (runs : gmap Z Z) (x : addrspace) (o : owner).

(** The flat memory [m] holds the bytes the process sees. *)
Definition agrees (m : memory) (w : vmstate) : Prop :=
  ∀ a b, 0 ≤ a < USERSPACETOP → user_byte w x o a = Some b → m a = b.
(** The addresses at which the process has a page. *)
Definition has_page (va : Z) : bool := bool_decide (mapped_at x o va).

(** The copy on flat memory and that on the machine end in the same way. *)
Definition same_end (m0 : memory) (r : outcome memory unit) (r' : outcome machine (ended unit)) : Prop :=
  match r, r' with
  | Ok _ m, Ok (Returned _) s => agrees m (vm s) ∧ proc_mem s runs x o ∧ ∀ a, USERSPACETOP ≤ a → m a = m0 a
  | Err e m, Err e' s => e = e' ∧ agrees m (vm s) ∧ proc_mem s runs x o ∧ ∀ a, USERSPACETOP ≤ a → m a = m0 a
  | _, _ => False
  end.

Lemma store_bytes_flat l src va m s :
  proc_mem s runs x o → loaded (vm s) = false → agrees m (vm s) → 0 ≤ va → va + lengthZ l ≤ USERSPACETOP → USERSPACETOP ≤ src →
  Forall is_byte l → read_bytes m src (lengthZ l) = l →
  same_end m (memcpy_user has_page (length l) va src va m) (store_bytes rnd va l s).
Proof.
  revert src va m s. induction l as [|b l IH]; intros src va m s Hpm Hld Hag Hva Hlen Hsrc Hl Hm; [done|].
  apply Forall_cons in Hl as [Hb Hl]. rewrite lengthZ_cons in *. pose proof (lengthZ_nonneg l).
  pose proof (store_byte_spec rnd Hrnd runs x o False va b s Hpm ltac:(lia) Hb) as Hst.
  assert (m src = b ∧ read_bytes m (src + 1) (lengthZ l) = l) as [Hx Hm'].
  { unfold lengthZ in Hm. replace (1 + Z.of_nat (length l)) with (Z.of_nat (S (length l))) in Hm by lia.
    rewrite read_bytes_S in Hm. by injection Hm. }
  simpl. unfold xbind, bind, touch. unfold wpx in Hst.
  destruct (store_byte rnd (KernelMode true) va b s) as [[[]|c] s1|e s1| |]; simpl in Hst; [..|done|done].
  - destruct Hst as ((g & f & Ht & _) & Htd & Hpm1 & Hu). assert (has_page va = true) as -> by (apply bool_decide_true; by exists (g, f)).
    unfold ret, gets, modify. rewrite Hx. destruct (touched_same _ _ _ Htd) as (_ & Hld1 & _).
    assert (same_end (put va b m) (memcpy_user has_page (length l) (va + 1) (src + 1) (va + 1) (put va b m)) (store_bytes rnd (va + 1) l s1)) as H1.
    { apply IH; [done|congruence| |lia|lia|lia|done|].
      - intros a c Ha Hc. unfold USERSPACETOP in Ha. rewrite Hu in Hc by lia. unfold put. case_decide; [by injection Hc|]. by apply Hag.
      - erewrite read_bytes_ext; [exact Hm'|]. intros a Ha. unfold put. rewrite decide_False by lia. done. }
    assert (∀ a, USERSPACETOP ≤ a → put va b m a = m a) as Hk by (intros a Ha; unfold put; rewrite decide_False by lia; done).
    unfold same_end in H1 |- *. destruct (memcpy_user has_page (length l) (va + 1) (src + 1) (va + 1) (put va b m)), (store_bytes rnd (va + 1) l s1) as [[]|? ?| |]; try contradiction.
    + destruct H1 as (? & ? & Hr). split_and!; [done..|]. intros c Hc. rewrite Hr by done. by apply Hk.
    + destruct H1 as (? & ? & ? & Hr). split_and!; [done..|]. intros c Hc. rewrite Hr by done. by apply Hk.
  - destruct Hst as (_ & _ & _ & Hl1 & _). congruence.
  - destruct Hst as [(-> & _ & Hpm1 & k & Hk & Hn) Hu]. replace (va + k) with va in Hn by lia. assert (has_page va = false) as -> by (by apply bool_decide_false).
    split_and!; [done| |done|done]. intros a c Ha. rewrite Hu. by apply Hag.
Qed.

End Flat.

(** ** A program to try it on *)

(** The slot tlb_random takes. *)
Definition demo_rnd (t : Z) : Z := t mod NUM_TLB.
Lemma demo_rnd_ok t : 0 ≤ demo_rnd t < NUM_TLB.
Proof. apply Z.mod_pos_bound. done. Qed.

Definition demo_heap : gmap Z (list (option Z)) := {[5 := Some <$> [97; 0]; 6 := Some <$> [98; 99; 0]]}.
Definition demo_machine (ld : bool) : machine := mkMachine (demo_vm ld) 0 demo_heap 10 [] 0.

Lemma demo_proc ld : ∃ runs x o, demo_ready (demo_vm ld) runs x o ld ∧ proc_mem (demo_machine ld) runs x o.
Proof.
  destruct (demo_is_ready ld) as (runs & x & o & Hr). exists runs, x, o. split; [done|]. constructor; [apply Hr|].
  assert (tlb (demo_vm ld) = replicate 64 (0, TLBLO_INVALID)) as Ht by (destruct ld; vm_compute; reflexivity).
  assert (∀ k hi lo, (tlb (demo_vm ld)).[k] = Some (hi, lo) → is_valid lo = false) as Hv.
  { intros k hi lo Hk. rewrite Ht in Hk. pose proof (lookupZ_Some_range _ _ _ Hk) as Hr0. rewrite lookupZ_nat in Hk by lia.
    apply lookup_replicate in Hk as [E _]. by injection E as -> ->. }
  constructor; simpl.
  - intros k hi lo Hk Hval. by rewrite (Hv k hi lo Hk) in Hval.
  - intros j k hi lo lo' Hj _ Hval. by rewrite (Hv j hi lo Hj) in Hval.
Qed.


(** The file: a header, two program headers, eight bytes of text and four of
    data, which take up a page each. *)
Definition demo_elf : list Z :=
  ELFMAG ++ [1; 2; 1] ++ replicate 9 0 ++ [0; 2; 0; 8] ++ word_bytes 1 ++ word_bytes 0x400000 ++ word_bytes 52 ++
  replicate 10 0 ++ [0; 32; 0; 2] ++ replicate 6 0 ++
  bytes_of_words [1; 116; 0x400000; 0; 8; 8; 5; 4096] ++ bytes_of_words [1; 124; 0x10000000; 0; 4; 64; 6; 4096] ++
  [1; 2; 3; 4; 5; 6; 7; 8; 9; 10; 11; 12].
Definition demo_open (path : list Z) : unit + Z := if decide (path = [97]) then inl tt else inr ENOENT.
Definition demo_read (c : list Z) (v : unit) (off n : Z) : list (list Z) * option Z :=
  ([take (Z.to_nat n) (drop (Z.to_nat off) c)], None).
Lemma demo_read_ok c off n :
  0 ≤ off → 0 ≤ n < 2 ^ 32 → ∃ chunks,
    demo_read c tt off n = (chunks, None) ∧ concat chunks = take (Z.to_nat n) (drop (Z.to_nat off) c).
Proof. intros _ _. eexists. split; [done|]. apply app_nil_r. Qed.
Definition demo_ph1 : Elf_Phdr := mkPhdr 1 116 0x400000 8 8 5.
Definition demo_ph2 : Elf_Phdr := mkPhdr 1 124 0x10000000 4 64 6.

(** ** Starting a program *)

(** The contents of an executable with a text and a data segment. *)
Record executable (c : list Z) (eh : Elf_Ehdr) (p1 p2 : Elf_Phdr) : Prop := {
  ex_headers : ∃ phs, elf_file c eh phs ∧ loads phs = [p1; p2];
  ex_text : seg_ok c p1 ∧ seg_pages p1 ≤ 1024;
  ex_data : seg_ok c p2 ∧ seg_pages p2 ≤ 1024
}.

(** A process in address space [old] of a machine on which the small allocations
    succeed. *)
Record exec_ready (s : machine) (runs : gmap Z Z) (x : addrspace) (o : owner) (old : Z) : Prop := {
  er_mem : proc_mem s runs x o;
  er_cur : curproc_as (vm s) = Some (Some old) ∧ aspaces (vm s) !! old = Some x ∧ old ≠ vm_next (vm s);
  er_fate : vm_fate (vm s) = [] ∧ heap_fate s = [];
  er_fresh : ∀ p, heap_next s ≤ p → heap s !! p = None
}.

(** Arguments of execv in the memory of the process: a path, and a vector that
    fits the buffers and the stack. *)
Record exec_call (w : vmstate) (x : addrspace) (o : owner) (program args : Z) (path : list Z) (strs : list (list Z)) : Prop := {
  ec_path : program ≠ 0 ∧ user_str w x o program path ∧ name_too_long path = false;
  ec_args : argv_at w x o args strs;
  ec_sizes : Forall (λ l, lengthZ l < ARG_MAX_LEN) strs;
  ec_room : stackbase ≤ USERSTACK - args_room strs
}.

Definition demo_ehdr : Elf_Ehdr := bytes_Ehdr (take 52 demo_elf).
Lemma demo_executable : executable demo_elf demo_ehdr demo_ph1 demo_ph2.
Proof.
  constructor.
  - exists [demo_ph1; demo_ph2]. split; [|vm_compute; reflexivity]. constructor.
    + unfold demo_elf. repeat constructor; vm_compute; intuition discriminate.
    + done.
    + vm_compute. reflexivity.
    + done.
    + intros i ph Hi. pose proof (lookupZ_Some_range _ _ _ Hi) as Hr. change (lengthZ [demo_ph1; demo_ph2]) with 2 in Hr.
      assert (i = 0 ∨ i = 1) as [-> | ->] by lia; injection Hi as <-; split; vm_compute; done.
    + repeat constructor; simpl; set_solver.
  - split; [constructor; vm_compute; intuition discriminate|vm_compute; discriminate].
  - split; [constructor; vm_compute; intuition discriminate|vm_compute; discriminate].
Qed.

(** A process that has put the arguments of execv on its stack. *)
Definition demo_strs : list (list Z) := [[97]; [98; 99]].
Lemma demo_kstrs : Forall2 (λ p l, kstr demo_heap p l ∧ Forall is_byte l ∧ lengthZ l < ARG_MAX_LEN) [5; 6] demo_strs.
Proof.
  assert (∀ p l, Forall (λ b, 0 < b < 256) l → lengthZ l < ARG_MAX_LEN → demo_heap !! p = Some (Some <$> l ++ [0]) →
    kstr demo_heap p l ∧ Forall is_byte l ∧ lengthZ l < ARG_MAX_LEN) as H.
  { intros p l Hl Hn Hp. split_and!; [|eapply Forall_impl; [exact Hl|]; unfold is_byte; lia|done].
    split; [eapply Forall_impl; [exact Hl|]; simpl; lia|]. exists []. by rewrite app_nil_r. }
  constructor; [|constructor; [|constructor]]; apply H; (vm_compute; reflexivity) || by repeat constructor.
Qed.

Lemma demo_heap_fresh p : 10 ≤ p → demo_heap !! p = None.
Proof. intros Hp. unfold demo_heap. rewrite lookup_insert_ne, lookup_singleton_ne by lia. done. Qed.

Lemma demo_caller ld : ∃ s runs x o,
  exec_ready s runs x o 1000 ∧ exec_call (vm s) x o (USERSTACK - 4) (USERSTACK - 20) [97] demo_strs ∧
  loaded (vm s) = ld ∧ enough demo_ph1 demo_ph2 (vm s) runs.
Proof.
  assert (curproc_as (demo_vm ld) = Some (Some 1000)) as Hcur by (destruct ld; vm_compute; reflexivity).
  destruct (demo_proc ld) as (runs & x & o & [Hrun Hsp (Hnx & Hnone & Hfate) (N1 & N2 & B1 & B2) Hfree Hld] & Hpm).
  unfold demo_machine in Hpm. revert Hcur Hrun Hsp Hnx Hnone Hfate Hfree Hld Hpm. generalize (demo_vm ld). intros w Hcur Hrun Hsp Hnx Hnone Hfate Hfree Hld Hpm.
  assert (∀ ld va, stackbase ≤ va < USERSTACK → writable_at x o ld va) as Hstack.
  { intros ld' va. destruct Hrun as [_ _ Has Hwf _]. by eapply stack_writable; rewrite ?B1, ?B2, ?N1, ?N2. }
  set (s0 := mkMachine w 0 demo_heap 10 [] 0) in *.
  pose proof (push_strings_spec demo_rnd demo_rnd_ok runs x o Hstack False [5; 6] demo_strs USERSTACK s0 Hpm
    eq_refl ltac:(done) ltac:(done) demo_kstrs) as H1.
  unfold wpx in H1. destruct (push_strings demo_rnd [5; 6] USERSTACK s0) as [[r|k] s1|? ?| |]; try contradiction.
  destruct H1 as (_ & Hp1 & Hstrs).
  pose proof (push_words_spec demo_rnd demo_rnd_ok runs x o Hstack False [0; USERSTACK - 8; USERSTACK - 4] (USERSTACK - 8) s1
    ltac:(apply Hp1) ltac:(done) ltac:(done) ltac:(repeat constructor; done)) as H2.
  unfold wpx in H2. destruct (push_words demo_rnd _ (USERSTACK - 8) s1) as [[r'|k] s2|? ?| |]; try contradiction.
  destruct H2 as (-> & Hp2 & Hvec). destruct (args_pushed runs x o s0 s1 s2 demo_strs [USERSTACK - 4; USERSTACK - 8]) as (Hp & Hpl); try done.
  { repeat constructor; done. }
  destruct (Hpl (vm s2)) as [Hargs _]; [done|].
  inversion_clear Hstrs as [|? ? ? ? Ha Hr]. pose proof (pushed_str runs x o s1 _ _ _ (USERSTACK - 4) _ Hp2 ltac:(done) Ha) as Ha2.
  destruct Hp as (T2 & Hpm2 & _). exists s2, runs, x, o. destruct T2 as (m & l & t & -> & _).
  split_and!; [constructor|constructor| |]; try done.
  - split_and!; [done|done|simpl; rewrite Hnx; lia].
  - exact demo_heap_fresh.
  - repeat constructor; done.
  - unfold enough. unfold pages_needed in *. rewrite N1, N2 in Hfree. exact Hfree.
Qed.

Section Programs.
Context (rnd : Z → Z) (Hrnd : ∀ t, 0 ≤ rnd t < NUM_TLB).
Context {file : Type} (vfs_open : list Z → file + Z) (vop_read : file → Z → Z → list (list Z) * option Z).
Context (v : file) (c : list Z).
(** Reads of the file succeed and deliver its bytes, as far as there are any. *)
Context (Hread : ∀ off n, 0 ≤ off → 0 ≤ n < 2 ^ 32 → ∃ chunks,
  vop_read v off n = (chunks, None) ∧ concat chunks = take (Z.to_nat n) (drop (Z.to_nat off) c)).

Lemma gathered_started runs x o eh p1 p2 kept spaces strs tf s h nx s1 s' :
  gathered runs x o s h nx s1 → started c eh p1 p2 s1 runs kept spaces strs tf s' →
  started c eh p1 p2 s runs kept spaces strs tf s'.
Proof.
  intros Hg (runs' & y & o' & Hl & Hs & Hc & Hf & Hr & Hk).
  destruct (gathered_same _ _ _ _ _ _ _ Hg) as (_ & _ & _ & _ & Hm & Hcm & Hsp & _ & _ & Hn & _).
  exists runs', y, o'. rewrite <- Hn, <- Hsp, <- Hm. split_and!; try done. intros p k w Hp Hw. apply (Hk p k); [done|].
  unfold region, page in *. by rewrite Hcm.
Qed.

Lemma args_bytes w x o argv strs :
  argv_at w x o argv strs → Forall (λ l, lengthZ l < ARG_MAX_LEN) strs →
  Forall (λ l, Forall is_byte l ∧ lengthZ l < ARG_MAX_LEN) strs.
Proof.
  intros (_ & ptrs & _ & _ & Hf) Hl. apply Forall_and. split; [|done]. apply Forall_lookup. intros i l Hi.
  destruct (Forall2_lookup_r _ _ _ _ _ Hf Hi) as (p & _ & Hp). by eapply user_str_is_byte.
Qed.

(** C9. execv hands the arguments over and starts the program.  In a process whose
    text is not locked, on a machine with pages enough, it does not fail: the
    process ends up in a new address space that holds the two segments of the
    file at their addresses, zeros elsewhere, and at the top of the stack the
    vector argv with copies of the strings of the old address space, NULL at its
    end; the registers are argc, argv, a stack pointer aligned to eight bytes
    below them, and the entry point.  The old address space is gone with all its
    pages, the kernel buffers are freed, the file is closed, and no other
    process's memory has changed. *)
Theorem sys_execv_correct eh p1 p2 runs x0 o0 old program args path strs s :
  executable c eh p1 p2 → exec_ready s runs x0 o0 old → exec_call (vm s) x0 o0 program args path strs →
  vfs_open path = inl v → loaded (vm s) = false → enough p1 p2 (vm s) runs →
  wp (sys_execv rnd vfs_open vop_read program args)
    (fin (λ tf s', heap s' = heap s ∧ opened s' = opened s ∧
            started c eh p1 p2 s runs (foldr delete runs (owned o0)) (delete old) strs tf s') (λ _ _, False))
    (λ _ _, False) s.
Proof.
  intros [(phs & Hef & Hloads) [Hs1 Hp1] [Hs2 Hp2]] [Hpm (Hcur & Hold & Hne) [Hvf Hhf] Hfresh] [(Hprog & Hpath & Hname) Hargs Hlen Hroom] Hopen Hld Hmem.
  destruct (sys_execv_gather rnd Hrnd vfs_open vop_read runs x0 o0 program args path strs s) as (s1 & h & Hg & Hkp & Hk & Heq); try done.
  eapply wp_ext; [exact Heq|]. destruct (gathered_same _ _ _ _ _ _ _ Hg) as (Hh1 & _ & _ & Ho1 & _ & Hcm1 & Hsp1 & Hc1 & Hl1 & Hn1 & Hf1).
  eapply wp_conseq; [eapply (exec_load_spec rnd Hrnd vfs_open vop_read v c Hread eh phs p1 p2 Hef Hloads Hs1 Hs2 Hp1 Hp2 False
    (heap s) (heap_next s) strs path (heap_next s + 1 + lengthZ strs) s1 runs old x0 o0)| |done];
    rewrite ?Hh1, ?Hc1, ?Hsp1, ?Hn1, ?Hl1, ?Hf1; try done; [apply Hg|unfold enough; by rewrite Hcm1|by eapply args_bytes|].
  intros [tf|k] s2 H; [|done]. destruct H as (Hh2 & Ho2 & Hst). split_and!; [done|by rewrite Ho2|by eapply gathered_started].
Qed.

(** runprogram starts the first program of a process in the same way, from
    argument strings in kernel memory, which stay where they are; the process had
    no address space before, so nothing is given back. *)
Theorem runprogram_correct eh p1 p2 runs progname args strs s :
  executable c eh p1 p2 → vfs_open progname = inl v → name_too_long progname = false →
  curproc_as (vm s) = Some None → cm_rep (cms (vm s)) runs → lengthZ (tlb (vm s)) = NUM_TLB →
  vm_fate (vm s) = [] → loaded (vm s) = false → enough p1 p2 (vm s) runs →
  Forall2 (λ p l, kstr (heap s) p l ∧ Forall is_byte l ∧ lengthZ l < ARG_MAX_LEN) args strs →
  stackbase ≤ USERSTACK - args_room strs →
  wp (runprogram rnd vfs_open vop_read progname args)
    (fin (λ tf s', heap s' = heap s ∧ opened s' = opened s ∧ started c eh p1 p2 s runs runs id strs tf s') (λ _ _, False))
    (λ _ _, False) s.
Proof.
  intros [(phs & Hef & Hloads) [Hs1 Hp1] [Hs2 Hp2]] ? ? ? ? ? ? ? ? ? ?. by apply (runprogram_spec rnd Hrnd vfs_open vop_read v c Hread eh phs).
Qed.

(** ** Where execv goes wrong *)

(** C32. execv never resets curproc->loaded, which as_complete_load sets.  In a
    process that already runs a loaded program, the very call that succeeds in a
    freshly forked child is the end of the process: copying the first byte of the
    new text into place is taken for a write to read-only text.  The executable
    stays open, and the buffers with the arguments are never freed. *)
Theorem execv_loaded_killed eh p1 p2 runs x0 o0 old program args path strs s :
  executable c eh p1 p2 → exec_ready s runs x0 o0 old → exec_call (vm s) x0 o0 program args path strs →
  vfs_open path = inl v → loaded (vm s) = true → 0 < p_filesz p1 → enough p1 p2 (vm s) runs →
  wp (sys_execv rnd vfs_open vop_read program args)
    (fin (λ _ _, False) (λ k s', k = EX_MOD ∧ opened s' = opened s + 1 ∧
            kargs_rep (heap s) (heap_next s) (length strs) strs (heap s')))
    (λ _ _, False) s.
Proof.
  intros [(phs & Hef & Hloads) [Hs1 Hp1] [Hs2 Hp2]] [Hpm (Hcur & Hold & Hne) [Hvf Hhf] Hfresh] [(Hprog & Hpath & Hname) Hargs Hlen Hroom] Hopen Hld Hfz Hmem.
  destruct (sys_execv_gather rnd Hrnd vfs_open vop_read runs x0 o0 program args path strs s) as (s1 & h & Hg & Hkp & Hk & Heq); try done.
  eapply wp_ext; [exact Heq|]. clear Heq. destruct (gathered_same _ _ _ _ _ _ _ Hg) as (Hh1 & _ & _ & Ho1 & _ & Hcm1 & Hsp1 & Hc1 & Hl1 & Hn1 & Hf1).
  pose proof (rn_tlb _ _ _ _ (pm_running _ _ _ _ (proj2 Hg))) as Hlen1.
  destruct (exec_load_enter rnd vfs_open vop_read (lengthZ strs) (heap_next s) path (heap_next s + 1 + lengthZ strs) v s1 (Some old)) as (s2 & He & Heq);
    rewrite ?Hh1, ?Hc1, ?Hf1; try done. eapply wp_ext; [exact Heq|]. clear Heq. unfold exec_rest. destruct He as (l & fate & -> & Hl & Hinv).
  xstep. wp_step. eapply wp_conseq; [apply (load_elf_locked rnd Hrnd vop_read v c Hread eh phs p1 p2 Hef Hloads Hs1 Hs2 False _ runs (vm_next (vm s1))); try done| |].
  - apply lookup_insert_eq.
  - simpl. rewrite Hcm1. apply Hpm.
  - simpl. congruence.
  - intros [?|k] s3; simpl; [done|]. intros (-> & Ho3 & Hh3). rewrite Ho3, Hh3, Ho1, Hh1. done.
  - intros e s3 [_ Hf]. simpl in Hf. specialize (Hf Hp1 Hp2). unfold enough in Hmem. rewrite Hcm1 in Hf. lia.
Qed.

(** An address space without page tables cannot be destroyed. *)
Lemma as_destroy_empty a w : aspaces w !! a = Some (mkAS 0 0 0 0 0 0 0) → as_destroy a w = Undef.
Proof. intros Ha. unfold as_destroy, read_as, bind at 1 2, get, deref. by rewrite Ha. Qed.

Lemma exec_undo_empty s cur old a :
  curproc_as (vm s) = Some cur → lengthZ (tlb (vm s)) = NUM_TLB → aspaces (vm s) !! a = Some (mkAS 0 0 0 0 0 0 0) →
  exec_undo (Some old) a s = Undef.
Proof.
  intros Hc Hl Ha. unfold exec_undo.
  apply (after_bind (λ r, r = Undef) _ _ (λ _ s', curproc_as (vm s') = Some (Some old) ∧ tlb (vm s') = tlb (vm s) ∧ aspaces (vm s') = aspaces (vm s))).
  { unfold curproc_setas. wp_steps. eapply wp_deref; [exact Hc|]. by wp_steps. }
  intros _ s1 (Hc1 & Ht1 & Ha1).
  apply (after_bind (λ r, r = Undef) _ _ (λ _ s', aspaces (vm s') = aspaces (vm s))).
  { unfold on_vm. wp_step. eapply wp_conseq; [apply (as_activate_spec False _ old (λ _ _, False)); [done|by rewrite Ht1]| |done].
    by intros [] w (l & -> & _). }
  intros _ s2 Ha2. unfold on_vm, lift. by rewrite as_destroy_empty by (by rewrite Ha2).
Qed.

Lemma load_elf_refuses s a :
  curproc_as (vm s) = Some (Some a) → ¬ (sizeof_Ehdr ≤ lengthZ c ∧ elf_ok (bytes_Ehdr (take 52 c)) = true) →
  load_elf rnd vop_read v s = Err ENOEXEC s.
Proof.
  intros Hc Hno. unfold load_elf, bind at 1, get. unfold bind, deref. rewrite Hc. simpl. unfold ret, xbind, bind, read_struct.
  destruct (Hread 0 sizeof_Ehdr) as (chunks & -> & ->); [done|done|].
  change (take (Z.to_nat sizeof_Ehdr) (drop (Z.to_nat 0) c)) with (take 52 c).
  destruct (Z.eqb_spec (lengthZ (take 52 c)) sizeof_Ehdr) as [E|]; [|done]. unfold xret, ret.
  destruct (elf_ok (bytes_Ehdr (take 52 c))); [|done]. exfalso. apply Hno. split; [|done].
  unfold lengthZ in *. rewrite length_take in E. lia.
Qed.

(** execv of a file that exists but is not an executable, a text file for
    one, does not give ENOEXEC back to the caller: load_elf has by then prepared
    no page tables, and as_destroy on the way out reads the stack's through a
    null pointer. *)
Theorem execv_not_executable_undefined runs x0 o0 old program args path strs s :
  exec_ready s runs x0 o0 old → exec_call (vm s) x0 o0 program args path strs → vfs_open path = inl v →
  ¬ (sizeof_Ehdr ≤ lengthZ c ∧ elf_ok (bytes_Ehdr (take 52 c)) = true) →
  sys_execv rnd vfs_open vop_read program args s = Undef.
Proof.
  intros [Hpm (Hcur & Hold & Hne) [Hvf Hhf] Hfresh] [(Hprog & Hpath & Hname) Hargs Hlen Hroom] Hopen Hno.
  destruct (sys_execv_gather rnd Hrnd vfs_open vop_read runs x0 o0 program args path strs s) as (s1 & h & Hg & Hkp & Hk & ->); try done.
  destruct (gathered_same _ _ _ _ _ _ _ Hg) as (Hh1 & _ & _ & Ho1 & _ & Hcm1 & Hsp1 & Hc1 & Hl1 & Hn1 & Hf1).
  pose proof (rn_tlb _ _ _ _ (pm_running _ _ _ _ (proj2 Hg))) as Hlen1.
  destruct (exec_load_enter rnd vfs_open vop_read (lengthZ strs) (heap_next s) path (heap_next s + 1 + lengthZ strs) v s1 (Some old)) as (s2 & He & ->);
    rewrite ?Hh1, ?Hc1, ?Hf1; try done. destruct He as (l & fate & -> & Hl & Hinv).
  unfold exec_rest, xbind, bind at 1, on_error. erewrite load_elf_refuses; [|done|done].
  set (s3 := set_vm _ _).
  assert ((vfs_close ;; destroy_array (lengthZ strs) (heap_next s) ;; exec_undo (Some old) (vm_next (vm s1))) s3 = Undef) as ->; [|done].
  apply (after_bind (λ r, r = Undef) _ _ (λ _ s', heap s' = heap s3 ∧ vm s' = vm s3)); [unfold vfs_close; by wp_steps|].
  intros _ s4 [Hh4 Hv4]. apply (after_bind (λ r, r = Undef) _ _ (λ _ s', vm s' = vm s4)).
  { eapply wp_conseq; [apply (destroy_array_spec False (heap s) (heap_next s) (length strs) strs); [|done]| |done].
    - rewrite Hh4. simpl. by rewrite Hh1.
    - by intros [] s5 ->. }
  intros _ s5 Hv5. eapply exec_undo_empty; rewrite Hv5, Hv4; [done|done|]. apply lookup_insert_eq.
Qed.

(** sys_execv follows the program pointer it was given without copying
    through copyinstr, so nothing catches a fault there: a pointer to where the
    process has no page panics the kernel. *)
Theorem execv_bad_pointer_panics runs x o program args s :
  proc_mem s runs x o → 0 < program < USERSPACETOP → ¬ mapped_at x o program →
  sys_execv rnd vfs_open vop_read program args s = Panic.
Proof.
  intros Hpm Hp Hno.
  assert (wpx True (sys_execv rnd vfs_open vop_read program args) (fin (λ _ _, False) (λ _ _, False)) (λ _ _, False) s) as H.
  2: { unfold wpx in H. by destruct (sys_execv rnd vfs_open vop_read program args s) as [[]| | |]. }
  unfold sys_execv. rewrite (proj2 (Z.eqb_neq program 0)) by lia. xstep. unfold check_program, scan. xstep.
  apply (wp_while True (λ a s', a = (program, []) ∧ proc_mem s' runs x o) (λ _, 0)); [|done|done].
  intros a s1 [-> Hpm1]. simpl fst. wp_step. unfold load_byte, user_addr. rewrite (proj2 (Z.ltb_lt program USERSPACETOP)) by lia.
  eapply wp_conseq; [apply (wp_xbind True _ _ (λ _ _, False) (λ _ _, False) (λ _ _, False));
    eapply wp_conseq; [apply (mmu_spec rnd Hrnd runs x o True (KernelMode false) false program s1 Hpm1); done| |]| |done].
  - intros [pa|k] s2; simpl; [|by intros (_ & _ & _ & ? & _)]. intros (_ & _ & _ & g & f & Ht & _). destruct Hno. by eexists.
  - by intros k s2 (_ & _ & _ & ? & _).
  - by intros [] s2.
Qed.
End Programs.

(** ** Instances *)

Lemma sys_execv_correct_witness : ∃ s runs o,
  loaded (vm s) = false ∧
  wp (sys_execv demo_rnd demo_open (demo_read demo_elf) (USERSTACK - 4) (USERSTACK - 20))
    (fin (λ tf s', heap s' = heap s ∧ opened s' = opened s ∧
            started demo_elf demo_ehdr demo_ph1 demo_ph2 s runs (foldr delete runs (owned o)) (delete 1000) demo_strs tf s') (λ _ _, False))
    (λ _ _, False) s.
Proof.
  destruct (demo_caller false) as (s & runs & x & o & Hr & Hc & Hl & He). exists s, runs, o. split; [exact Hl|].
  exact (sys_execv_correct demo_rnd demo_rnd_ok demo_open (demo_read demo_elf) tt demo_elf (demo_read_ok demo_elf)
    demo_ehdr demo_ph1 demo_ph2 runs x o 1000 _ _ [97] demo_strs s demo_executable Hr Hc eq_refl Hl He).
Defined.

(** A process without an address space. *)
Definition demo_new : machine :=
  mkMachine (mkVM demo_cm64 (λ a, a) ∅ (replicate 64 (0, TLBLO_INVALID)) (Some None) false 1000 []) 0 demo_heap 10 [] 0.

Lemma runprogram_correct_witness :
  wp (runprogram demo_rnd demo_open (demo_read demo_elf) [97] [5; 6])
    (fin (λ tf s', heap s' = demo_heap ∧ opened s' = 0 ∧
            started demo_elf demo_ehdr demo_ph1 demo_ph2 demo_new ∅ ∅ id demo_strs tf s') (λ _ _, False)) (λ _ _, False) demo_new.
Proof.
  apply (runprogram_correct demo_rnd demo_rnd_ok demo_open (demo_read demo_elf) tt demo_elf (demo_read_ok demo_elf)
    demo_ehdr demo_ph1 demo_ph2 ∅ [97] [5; 6] demo_strs demo_new demo_executable).
  - reflexivity.
  - reflexivity.
  - reflexivity.
  - exact demo_cm64_rep.
  - reflexivity.
  - reflexivity.
  - reflexivity.
  - vm_compute. discriminate.
  - exact demo_kstrs.
  - vm_compute. discriminate.
Defined.

Lemma execv_loaded_killed_witness : ∃ s,
  wp (sys_execv demo_rnd demo_open (demo_read demo_elf) (USERSTACK - 4) (USERSTACK - 20))
    (fin (λ _ _, False) (λ k s', k = EX_MOD ∧ opened s' = opened s + 1 ∧
            kargs_rep (heap s) (heap_next s) 2 demo_strs (heap s'))) (λ _ _, False) s.
Proof.
  destruct (demo_caller true) as (s & runs & x & o & Hr & Hc & Hl & He). exists s.
  exact (execv_loaded_killed demo_rnd demo_rnd_ok demo_open (demo_read demo_elf) tt demo_elf (demo_read_ok demo_elf)
    demo_ehdr demo_ph1 demo_ph2 runs x o 1000 _ _ [97] demo_strs s demo_executable Hr Hc eq_refl Hl eq_refl He).
Defined.

(** A script. *)
Lemma execv_not_executable_undefined_witness : ∃ s,
  loaded (vm s) = false ∧ sys_execv demo_rnd demo_open (demo_read [35; 33; 10]) (USERSTACK - 4) (USERSTACK - 20) s = Undef.
Proof.
  destruct (demo_caller false) as (s & runs & x & o & Hr & Hc & Hl & He). exists s. split; [exact Hl|].
  apply (execv_not_executable_undefined demo_rnd demo_rnd_ok demo_open (demo_read [35; 33; 10]) tt [35; 33; 10] (demo_read_ok _)
    runs x o 1000 _ _ [97] demo_strs s Hr Hc eq_refl).
  intros [H _]. vm_compute in H. by apply H.
Defined.

Lemma execv_bad_pointer_panics_witness :
  sys_execv demo_rnd demo_open (demo_read demo_elf) 4 8 (demo_machine false) = Panic.
Proof.
  destruct (demo_proc false) as (runs & x & o & Hr & Hpm).
  apply (execv_bad_pointer_panics demo_rnd demo_rnd_ok demo_open (demo_read demo_elf) runs x o 4 8 (demo_machine false) Hpm).
  - split; reflexivity.
  - destruct Hr as [[_ _ [T1 T2 T3 _] _ _] _ _ (N1 & N2 & B1 & B2) _ _]. unfold mapped_at, translate, seg_frame. rewrite B1, B2. by intros [].
Defined.
