(* ===== verification/PageAlloc.v ===== *)
(** * The page allocator, as its clients see it

    alloc_kpages and free_kpages are all that kern/vm/kmalloc.c uses of the
    virtual memory system (kern/include/vm.h).  [PageAlloc] is that interface,
    [PageAllocSpec] what it promises: runs of whole pages, page aligned, in the
    directly mapped segment, that never overlap.  The coremap of Coremap.v
    keeps the promise. *)

From S2P Require Import Prelude Coremap.
#[local] Open Scope kern_scope.

Class PageAlloc (P : Type) := {
  kpages_alloc : Z → M P Z;
  kpages_free : Z → M P unit
}.

(** [kpages_rep s runs]: exactly [runs] is handed out, by kernel virtual address
    and number of pages. *)
Class PageAllocSpec (P : Type) `{PageAlloc P} := {
  kpages_rep : P → gmap Z Z → Prop;
  kpages_range s runs va n : kpages_rep s runs → runs !! va = Some n →
    0 < n ∧ va mod PAGE_SIZE = 0 ∧ MIPS_KSEG0 < va ∧ va + n * PAGE_SIZE ≤ MIPS_KSEG0 + 2 ^ 29;
  kpages_disjoint s runs va n va' n' : kpages_rep s runs → runs !! va = Some n → runs !! va' = Some n' →
    va ≠ va' → va + n * PAGE_SIZE ≤ va' ∨ va' + n' * PAGE_SIZE ≤ va;
  kpages_alloc_spec X s runs n : kpages_rep s runs → 0 < n < 2 ^ 31 →
    wpx X (kpages_alloc n)
      (λ va s', if decide (va = 0) then kpages_rep s' runs
                else runs !! va = None ∧ kpages_rep s' (<[va := n]> runs)) (λ _ _, False) s;
  kpages_free_spec X s runs va n : kpages_rep s runs → runs !! va = Some n →
    wpx X (kpages_free va) (λ _ s', kpages_rep s' (delete va runs)) (λ _ _, False) s
}.

(** ** The coremap is one *)

#[global] Instance coremap_pages : PageAlloc cmstate :=
  {| kpages_alloc := alloc_kpages; kpages_free := free_kpages |}.

Definition kvaddr (s : cmstate) (r : Z) : Z := PADDR_TO_KVADDR (page_addr s r).

Definition coremap_kpages (s : cmstate) (runs : gmap Z Z) : Prop :=
  ∃ pages, cm_rep s pages ∧ ∀ va n, runs !! va = Some n ↔ ∃ r, pages !! r = Some n ∧ va = kvaddr s r.

Lemma kvaddr_eq s pages r n :
  cm_rep s pages → pages !! r = Some n → kvaddr s r = page_addr s r + MIPS_KSEG0.
Proof.
  intros Hrep Hr. destruct (cr_range _ _ Hrep _ _ Hr) as (?&?&?). pose proof (cr_pages _ _ Hrep).
  pose proof (page_addr_range s pages r Hrep ltac:(lia)).
  unfold kvaddr, PADDR_TO_KVADDR, u32, MIPS_KSEG0. apply Z.mod_small. lia.
Qed.

Lemma kvaddr_inj s pages r n r' n' :
  cm_rep s pages → pages !! r = Some n → pages !! r' = Some n' → kvaddr s r = kvaddr s r' → r = r'.
Proof.
  intros Hrep Hr Hr'. rewrite (kvaddr_eq s pages r n), (kvaddr_eq s pages r' n') by done.
  unfold page_addr, PAGE_SIZE. lia.
Qed.

Lemma same_layout_kvaddr s s' r : same_layout s s' → kvaddr s' r = kvaddr s r.
Proof. by intros [l ->]. Qed.

(** A new run is a new address, *)
Lemma coremap_kpages_alloc s s' runs pages r n :
  cm_rep s pages → (∀ va n, runs !! va = Some n ↔ ∃ r, pages !! r = Some n ∧ va = kvaddr s r) →
  pages !! r = None → cm_rep s' (<[r := n]> pages) → same_layout s s' →
  runs !! kvaddr s r = None ∧ coremap_kpages s' (<[kvaddr s r := n]> runs).
Proof.
  intros Hrep Hk Hnone Hrep' Hlay.
  assert (∀ q m, pages !! q = Some m → kvaddr s r ≠ kvaddr s q) as Hne.
  { intros q m Hq Heq. rewrite <- !(same_layout_kvaddr s s') in Heq by done.
    assert (r ≠ q) by congruence.
    destruct (kvaddr_inj s' _ r n q m Hrep' (lookup_insert_eq _ _ _) ltac:(by rewrite lookup_insert_ne) Heq). done. }
  split.
  - apply eq_None_not_Some. intros [m Hm]. apply Hk in Hm as (q & Hq & Heq). by eapply Hne.
  - exists (<[r := n]> pages). split; [done|]. intros va m. rewrite lookup_insert_Some, Hk.
    split.
    + intros [[<- <-]|[Hva (q & Hq & ->)]]; [exists r; by rewrite lookup_insert_eq, (same_layout_kvaddr s s')|].
      exists q. rewrite (same_layout_kvaddr s s') by done. rewrite lookup_insert_ne by congruence. done.
    + intros (q & Hq & ->). rewrite (same_layout_kvaddr s s') by done.
      apply lookup_insert_Some in Hq as [[<- <-]|[? Hq]]; [by left|right]. split; [by eapply Hne|by exists q].
Qed.

(** and a freed run is an address gone. *)
Lemma coremap_kpages_free s s' runs pages r n :
  cm_rep s pages → (∀ va n, runs !! va = Some n ↔ ∃ r, pages !! r = Some n ∧ va = kvaddr s r) →
  pages !! r = Some n → cm_rep s' (delete r pages) → same_layout s s' →
  coremap_kpages s' (delete (kvaddr s r) runs).
Proof.
  intros Hrep Hk Hr Hrep' Hlay. exists (delete r pages). split; [done|]. intros va m.
  rewrite lookup_delete_Some, Hk. split.
  - intros [Hva (q & Hq & ->)]. exists q. rewrite (same_layout_kvaddr s s'), lookup_delete_ne by congruence. done.
  - intros (q & Hq & ->). apply lookup_delete_Some in Hq as [Hne Hq]. rewrite (same_layout_kvaddr s s') by done.
    split; [|by exists q]. intros Heq. by apply (kvaddr_inj s pages _ n _ m Hrep Hr Hq) in Heq.
Qed.

#[global] Program Instance coremap_pages_spec : PageAllocSpec cmstate :=
  {| kpages_rep := coremap_kpages |}.
Next Obligation.
  intros s runs va n (pages & Hrep & Hk) (r & Hr & ->)%Hk. rewrite (kvaddr_eq s pages r n) by done.
  destruct (cr_range _ _ Hrep _ _ Hr) as (?&?&?). pose proof (cr_pages _ _ Hrep). pose proof (cr_top _ _ Hrep).
  destruct (cr_first _ _ Hrep) as [? Hf]. unfold page_addr, MIPS_KSEG0, PAGE_SIZE in *. split_and!; try lia.
  replace (firstaddr s + r * 4096 + 2147483648) with (firstaddr s + (r + 524288) * 4096) by lia.
  by rewrite Z_mod_plus_full.
Qed.
Next Obligation.
  intros s runs va n va' n' (pages & Hrep & Hk) (r & Hr & ->)%Hk (q & Hq & ->)%Hk Hne.
  rewrite (kvaddr_eq s pages r n), (kvaddr_eq s pages q n') by done.
  assert (r ≠ q) as Hrq by congruence. unfold page_addr, PAGE_SIZE.
  destruct (cr_disjoint _ _ Hrep _ _ _ _ Hr Hq Hrq); lia.
Qed.
Next Obligation.
  intros X s runs n (pages & Hrep & Hk) Hn. eapply wp_conseq; [by apply (alloc_kpages_spec X s pages n)| |done].
  intros va s' Hva. simpl in Hva. case_decide; [destruct Hva as [-> _]; by exists pages|].
  destruct Hva as (r & -> & _ & Hnone & Hrep' & Hlay). by apply (coremap_kpages_alloc s s' runs pages r n).
Qed.
Next Obligation.
  intros X s runs va n (pages & Hrep & Hk) (r & Hr & ->)%Hk.
  eapply wp_conseq; [by apply (free_kpages_spec X s pages r n)| |done].
  intros [] s' [Hrep' Hlay]. by apply (coremap_kpages_free s s' runs pages r n).
Qed.
