(* ===== verification/Kmalloc.v ===== *)
(** * The kernel heap

    Models kern/vm/kmalloc.c: the subpage allocator, which fills single pages
    with blocks of one size, and kmalloc and kfree on top of it.  The pages come
    from any [PageAlloc].  The heap's bookkeeping is the code's: an array of
    page references linked into lists by index, a bitmap of those in use, and a
    free list threaded through the free blocks of each page.  Kernel memory is a
    map from the virtual address of a word to its value.

    The spinlock is held from beginning to end of each of the pieces below but
    for the calls of the page allocator, where [subpage_kmalloc] and
    [subpage_kfree] let it go. *)

From S2P Require Import Prelude Coremap PageAlloc.
#[local] Open Scope kern_scope.

Definition NSIZES : Z := 8.
Definition sizes : list Z := [16; 32; 64; 128; 256; 512; 1024; 2048].
Definition LARGEST_SUBPAGE_SIZE : Z := 2048.
Definition INVALID_OFFSET : Z := 0xffff.
Definition NPAGEREFS : Z := 256.
Definition INUSE_WORDS : Z := 8.

(** struct pageref; a pointer to one is its index in pagerefs. *)
Record pageref := mkPR {
  next_samesize : option Z;
  next_all : option Z;
  pageaddr_and_blocktype : Z;
  freelist_offset : Z;
  nfree : Z
}.

Definition PR_PAGEADDR (x : pageref) : Z := Z.land (pageaddr_and_blocktype x) PAGE_FRAME.
Definition PR_BLOCKTYPE (x : pageref) : Z :=
  Z.land (pageaddr_and_blocktype x) (u32 (Z.lnot PAGE_FRAME)).
Definition MKPAB (pa blk : Z) : Z :=
  Z.lor (Z.land pa PAGE_FRAME) (Z.land blk (u32 (Z.lnot PAGE_FRAME))).

Section Kmalloc.
Context {P : Type} `{PageAlloc P}.

Record kmstate := mkKM {
  km_pages : P;
  kmem : Z → Z;
  pagerefs : list pageref;
  pagerefs_inuse : list Z;
  sizebases : list (option Z);
  allbase : option Z
}.
Abbreviation KM := (M kmstate).

Definition set_km_pages v s := mkKM v (kmem s) (pagerefs s) (pagerefs_inuse s) (sizebases s) (allbase s).
Definition set_kmem f s := mkKM (km_pages s) (f (kmem s)) (pagerefs s) (pagerefs_inuse s) (sizebases s) (allbase s).
Definition set_pagerefs f s := mkKM (km_pages s) (kmem s) (f (pagerefs s)) (pagerefs_inuse s) (sizebases s) (allbase s).
Definition set_inuse f s := mkKM (km_pages s) (kmem s) (pagerefs s) (f (pagerefs_inuse s)) (sizebases s) (allbase s).
Definition set_sizebases f s := mkKM (km_pages s) (kmem s) (pagerefs s) (pagerefs_inuse s) (f (sizebases s)) (allbase s).
Definition set_allbase v s := mkKM (km_pages s) (kmem s) (pagerefs s) (pagerefs_inuse s) (sizebases s) v.

Definition kpages {A} (m : M P A) : KM A := lift km_pages set_km_pages m.
Definition read_word (a : Z) : KM Z := gets (λ s, kmem s a).
Definition write_word (a v : Z) : KM unit :=
  modify (set_kmem (λ m b, if decide (b = a) then v else m b)).
Definition read_pr (p : Z) : KM pageref := s <- get ;; deref (pagerefs s).[p].
Definition update_pr (p : Z) (f : pageref → pageref) : KM unit :=
  x <- read_pr p ;; modify (set_pagerefs (λ l, l.[p := f x])).

Definition set_next_samesize v x := mkPR v (next_all x) (pageaddr_and_blocktype x) (freelist_offset x) (nfree x).
Definition set_next_all v x := mkPR (next_samesize x) v (pageaddr_and_blocktype x) (freelist_offset x) (nfree x).
Definition set_pab v x := mkPR (next_samesize x) (next_all x) v (freelist_offset x) (nfree x).
Definition set_freelist_offset v x := mkPR (next_samesize x) (next_all x) (pageaddr_and_blocktype x) v (nfree x).
Definition set_nfree v x := mkPR (next_samesize x) (next_all x) (pageaddr_and_blocktype x) (freelist_offset x) v.

Definition fill_deadbeef (ptr len : Z) : KM unit :=
  for_ 0 (len / 4) (λ i, write_word (u32 (ptr + 4 * i)) 0xdeadbeef).

(** ** Page references *)

Definition read_inuse (i : Z) : KM Z := s <- get ;; deref (pagerefs_inuse s).[i].

(** for (k=1,j=0; k!=0; k<<=1,j++): the first clear bit, with its mask. *)
Fixpoint clear_bit (fuel : nat) (j k w : Z) : option (Z * Z) :=
  match fuel with
  | O => None
  | S fuel' =>
      if k =? 0 then None
      else if Z.land w k =? 0 then Some (j, k)
      else clear_bit fuel' (j + 1) (u32 (Z.shiftl k 1)) w
  end.

Fixpoint allocpageref_loop (fuel : nat) (i : Z) : KM (option Z) :=
  match fuel with
  | O => ret None
  | S fuel' =>
      w <- read_inuse i ;;
      if w =? 0xffffffff then allocpageref_loop fuel' (i + 1)
      else match clear_bit 33 0 1 w with
           | Some (j, k) =>
               modify (set_inuse (λ l, l.[i := Z.lor w k])) ;;
               ret (Some (i * 32 + j))
           | None => panic
           end
  end.
Definition allocpageref : KM (option Z) := allocpageref_loop (Z.to_nat INUSE_WORDS) 0.

Definition freepageref (p : Z) : KM unit :=
  kassert ((0 <=? p) && (p <? NPAGEREFS)) ;;
  let i := p / 32 in
  let k := Z.shiftl 1 (p mod 32) in
  w <- read_inuse i ;;
  kassert (negb (Z.land w k =? 0)) ;;
  modify (set_inuse (λ l, l.[i := Z.land w (u32 (Z.lnot k))])).

(** Unlink [pr] from one list: [guy] is the place the pointer under inspection
    is in, the list's base or the link of a page reference. *)
Fixpoint unlink (fuel : nat) (next : pageref → option Z) (store : option Z → option Z → KM unit)
    (guy : option Z) (cur : option Z) (pr : Z) : KM unit :=
  match fuel with
  | O => undef
  | S fuel' =>
      match cur with
      | None => ret tt
      | Some q =>
          x <- read_pr q ;;
          if q =? pr then store guy (next x)
          else unlink fuel' next store (Some q) (next x) pr
      end
  end.

Definition store_samesize (blktype : Z) (guy v : option Z) : KM unit :=
  match guy with
  | None => modify (set_sizebases (λ l, l.[blktype := v]))
  | Some q => update_pr q (set_next_samesize v)
  end.
Definition store_all (guy v : option Z) : KM unit :=
  match guy with
  | None => modify (set_allbase v)
  | Some q => update_pr q (set_next_all v)
  end.

Definition list_fuel : nat := Z.to_nat (NPAGEREFS + 1).

Definition remove_lists (pr blktype : Z) : KM unit :=
  kassert ((0 <=? blktype) && (blktype <? NSIZES)) ;;
  s <- get ;;
  base <- deref (sizebases s).[blktype] ;;
  unlink list_fuel next_samesize (store_samesize blktype) None base pr ;;
  s <- get ;;
  unlink list_fuel next_all store_all None (allbase s) pr.

(** ** The subpage allocator *)

Fixpoint blocktype_loop (l : list Z) (i sz : Z) : KM Z :=
  match l with
  | [] => panic
  | k :: l' => if sz <=? k then ret i else blocktype_loop l' (i + 1) sz
  end.
Definition blocktype (sz : Z) : KM Z := blocktype_loop sizes 0 sz.

(** The search for a page with a free block. *)
Fixpoint find_page (fuel : nat) (blktype : Z) (pr : option Z) : KM (option Z) :=
  match fuel with
  | O => undef
  | S fuel' =>
      match pr with
      | None => ret None
      | Some p =>
          x <- read_pr p ;;
          kassert (PR_BLOCKTYPE x =? blktype) ;;
          if 0 <? nfree x then ret (Some p) else find_page fuel' blktype (next_samesize x)
      end
  end.

(** doalloc: take the first block of the page's free list. *)
Definition doalloc (p : Z) : KM Z :=
  x <- read_pr p ;;
  kassert (freelist_offset x <? PAGE_SIZE) ;;
  let prpage := PR_PAGEADDR x in
  let retptr := u32 (prpage + freelist_offset x) in
  fl <- read_word retptr ;;
  let n := u16 (nfree x - 1) in
  update_pr p (set_nfree n) ;;
  if fl =? 0 then
    kassert (n =? 0) ;;
    update_pr p (set_freelist_offset INVALID_OFFSET) ;;
    ret retptr
  else
    kassert (0 <? n) ;;
    kassert (u32 (fl - prpage) <? PAGE_SIZE) ;;
    update_pr p (set_freelist_offset (u16 (u32 (fl - prpage)))) ;;
    ret retptr.

(** Thread the free list through a fresh page. *)
Definition thread_page (prpage sz n : Z) : KM unit :=
  write_word prpage 0 ;;
  for_ 1 n (λ i,
    let fl := u32 (prpage + i * sz) in
    let next := u32 (prpage + (i - 1) * sz) in
    write_word fl next ;;
    kassert (negb (fl =? next))).

(** A fresh page for blocks of type [blktype]; None is the NULL return. *)
Definition new_page (blktype : Z) : KM (option Z) :=
  prpage <- kpages (kpages_alloc 1) ;;
  if prpage =? 0 then ret None else
  o <- allocpageref ;;
  match o with
  | None => kpages (kpages_free prpage) ;; ret None
  | Some p =>
      sz <- deref sizes.[blktype] ;;
      let n := u16 (PAGE_SIZE / sz) in
      update_pr p (set_pab (MKPAB prpage blktype)) ;;
      update_pr p (set_nfree n) ;;
      thread_page prpage sz n ;;
      let off := u16 (u32 (u32 (prpage + (n - 1) * sz) - prpage)) in
      update_pr p (set_freelist_offset off) ;;
      kassert (off =? (n - 1) * sz) ;;
      s <- get ;;
      base <- deref (sizebases s).[blktype] ;;
      update_pr p (set_next_samesize base) ;;
      modify (set_sizebases (λ l, l.[blktype := Some p])) ;;
      s <- get ;;
      update_pr p (set_next_all (allbase s)) ;;
      modify (set_allbase (Some p)) ;;
      ret (Some p)
  end.

Definition subpage_kmalloc (sz : Z) : KM Z :=
  blktype <- blocktype sz ;;
  s <- get ;;
  base <- deref (sizebases s).[blktype] ;;
  o <- find_page list_fuel blktype base ;;
  match o with
  | Some p => doalloc p
  | None =>
      o <- new_page blktype ;;
      match o with
      | None => ret 0
      | Some p => doalloc p
      end
  end.

(** The search for the page an address lies in. *)
Fixpoint find_owner (fuel : nat) (ptr : Z) (pr : option Z) : KM (option Z) :=
  match fuel with
  | O => undef
  | S fuel' =>
      match pr with
      | None => ret None
      | Some p =>
          x <- read_pr p ;;
          kassert ((0 <=? PR_BLOCKTYPE x) && (PR_BLOCKTYPE x <? NSIZES)) ;;
          if (PR_PAGEADDR x <=? ptr) && (ptr <? u32 (PR_PAGEADDR x + PAGE_SIZE)) then ret (Some p)
          else find_owner fuel' ptr (next_all x)
      end
  end.

(** Put the block on the page's free list. *)
Definition put_block (p prpage offset : Z) : KM unit :=
  x <- read_pr p ;;
  write_word (u32 (prpage + offset))
    (if freelist_offset x =? INVALID_OFFSET then 0 else u32 (prpage + freelist_offset x)) ;;
  update_pr p (set_freelist_offset (u16 offset)) ;;
  update_pr p (set_nfree (u16 (nfree x + 1))).

(** false stands for the return of -1. *)
Definition subpage_kfree (ptr : Z) : KM bool :=
  s <- get ;;
  o <- find_owner list_fuel ptr (allbase s) ;;
  match o with
  | None => ret false
  | Some p =>
      x <- read_pr p ;;
      let prpage := PR_PAGEADDR x in
      let blktype := PR_BLOCKTYPE x in
      sz <- deref sizes.[blktype] ;;
      let offset := u32 (ptr - prpage) in
      (if (PAGE_SIZE <=? offset) || negb (offset mod sz =? 0) then panic else ret tt) ;;
      fill_deadbeef ptr sz ;;
      put_block p prpage offset ;;
      x <- read_pr p ;;
      kassert (nfree x <=? PAGE_SIZE / sz) ;;
      (if nfree x =? PAGE_SIZE / sz then
         remove_lists p blktype ;;
         freepageref p ;;
         kpages (kpages_free prpage)
       else ret tt) ;;
      ret true
  end.

Definition kmalloc (sz : Z) : KM Z :=
  if LARGEST_SUBPAGE_SIZE <=? sz then
    address <- kpages (kpages_alloc (u32 (sz + PAGE_SIZE - 1) / PAGE_SIZE)) ;;
    if address =? 0 then ret 0 else ret address
  else subpage_kmalloc sz.

Definition kfree (ptr : Z) : KM unit :=
  if ptr =? 0 then ret tt else
  found <- subpage_kfree ptr ;;
  if found : bool then ret tt
  else kassert (ptr mod PAGE_SIZE =? 0) ;; kpages (kpages_free ptr).
End Kmalloc.
Arguments kmstate : clear implicits.
