(* ===== verification/KmallocInv.v ===== *)
(** * The kernel heap: the invariant

    The bookkeeping of Kmalloc.v as an abstract heap: which page references are
    in use, the page and block type of each and its free list; and the lemmas
    that each piece of the allocator keeps the two in step. *)

From S2P Require Import Prelude Coremap PageAlloc Kmalloc.
#[local] Open Scope kern_scope.

Definition bsize (t : Z) : Z := 2 ^ (t + 4).
Definition nblocks (t : Z) : Z := 2 ^ (8 - t).

(** A page of the heap: its address, its block type, and the offsets of its free
    blocks in the order of the free list. *)
Record kpage := mkKP { kp_va : Z; kp_type : Z; kp_free : list Z }.

Lemma type_cases t : 0 ≤ t < NSIZES → t = 0 ∨ t = 1 ∨ t = 2 ∨ t = 3 ∨ t = 4 ∨ t = 5 ∨ t = 6 ∨ t = 7.
Proof. unfold NSIZES. lia. Qed.

Lemma bsize_facts t : 0 ≤ t < NSIZES →
  sizes.[t] = Some (bsize t) ∧ PAGE_SIZE / bsize t = nblocks t ∧ nblocks t * bsize t = PAGE_SIZE ∧
  16 ≤ bsize t ≤ 2048 ∧ 2 ≤ nblocks t ≤ 256 ∧ bsize t mod 16 = 0.
Proof.
  intros Ht. destruct (type_cases t Ht) as [->|[->|[->|[->|[->|[->|[->| ->]]]]]]];
    vm_compute; repeat split; discriminate.
Qed.

(** An offset at which a block of type [t] starts. *)
Definition block_off (t o : Z) : Prop := 0 ≤ o < PAGE_SIZE ∧ o mod bsize t = 0.

Lemma block_off_fits t o : 0 ≤ t < NSIZES → block_off t o → o + bsize t ≤ PAGE_SIZE.
Proof.
  intros Ht [Ho Hm]. destruct (bsize_facts t Ht) as (_ & _ & Hn & Hb & _). rewrite <- Hn in *.
  pose proof (Z.div_mod o (bsize t) ltac:(lia)) as Hd. rewrite Hm in Hd.
  assert (o / bsize t < nblocks t) by nia. nia.
Qed.

Lemma block_off_apart t o o' : 0 ≤ t < NSIZES → block_off t o → block_off t o' → o ≠ o' →
  o + bsize t ≤ o' ∨ o' + bsize t ≤ o.
Proof.
  intros Ht [_ Hm] [_ Hm'] Hne. destruct (bsize_facts t Ht) as (_ & _ & _ & Hb & _).
  pose proof (Z.div_mod o (bsize t) ltac:(lia)) as Hd. pose proof (Z.div_mod o' (bsize t) ltac:(lia)) as Hd'.
  rewrite Hm in Hd. rewrite Hm' in Hd'. assert (o / bsize t ≠ o' / bsize t) by congruence. nia.
Qed.

Definition all_offs (t : Z) : list Z := (λ i, i * bsize t) <$> seqZ 0 (nblocks t).

Lemma elem_of_all_offs t o : 0 ≤ t < NSIZES → o ∈ all_offs t ↔ block_off t o.
Proof.
  intros Ht. destruct (bsize_facts t Ht) as (_ & _ & Hn & Hb & ? & _). unfold all_offs, block_off.
  rewrite list_elem_of_fmap. split.
  - intros (i & -> & Hi%elem_of_seqZ). split; [nia|apply Z.mod_mul; lia].
  - intros [Ho Hm]. exists (o / bsize t). pose proof (Z.div_mod o (bsize t) ltac:(lia)) as Hd. rewrite Hm in Hd.
    split; [lia|]. apply elem_of_seqZ. nia.
Qed.

Lemma length_all_offs t : 0 ≤ t < NSIZES → lengthZ (all_offs t) = nblocks t.
Proof.
  intros Ht. destruct (bsize_facts t Ht) as (_ & _ & _ & _ & ? & _). unfold lengthZ, all_offs.
  rewrite length_fmap, length_seqZ. lia.
Qed.

(** A page has no more free blocks than blocks, and when it has as many, every
    block is free. *)
Lemma free_bound t l : 0 ≤ t < NSIZES → NoDup l → (∀ o, o ∈ l → block_off t o) →
  lengthZ l ≤ nblocks t ∧ (lengthZ l = nblocks t → ∀ o, block_off t o → o ∈ l) ∧
  ((∃ o, block_off t o ∧ o ∉ l) → lengthZ l < nblocks t).
Proof.
  intros Ht Hnd Hl.
  assert (l ⊆+ all_offs t) as Hsub.
  { apply NoDup_submseteq; [done|]. intros o Ho. by apply elem_of_all_offs, Hl. }
  pose proof (submseteq_length _ _ Hsub) as Hlen. pose proof (length_all_offs t Ht) as Hall. unfold lengthZ in *.
  assert (Z.of_nat (length l) = nblocks t → ∀ o, block_off t o → o ∈ l) as Hfull.
  { intros Heq o Ho. assert (l ≡ₚ all_offs t) as ->; [|by apply elem_of_all_offs].
    apply submseteq_length_Permutation; [done|lia]. }
  split; [lia|]. split; [done|]. intros (o & Ho & Hno).
  destruct (decide (Z.of_nat (length l) = nblocks t)); [|lia]. by destruct Hno; apply Hfull.
Qed.

(** The free list threaded through memory. *)
Fixpoint chain (mem : Z → Z) (va : Z) (l : list Z) : Prop :=
  match l with
  | [] => True
  | o :: l' => mem (va + o) = match l' with [] => 0 | o' :: _ => va + o' end ∧ chain mem va l'
  end.

Lemma chain_ext mem mem' va l : (∀ o, o ∈ l → mem' (va + o) = mem (va + o)) → chain mem va l → chain mem' va l.
Proof.
  induction l as [|o l IH]; [done|]. intros Hm [H1 H2]. split.
  - rewrite Hm by (by left). done.
  - apply IH; [|done]. intros o' Ho. apply Hm. by right.
Qed.

(** Page references linked from [b] by [next]. *)
Fixpoint linked (prs : list pageref) (next : pageref → option Z) (b : option Z) (l : list Z) : Prop :=
  match l with
  | [] => b = None
  | p :: l' => b = Some p ∧ ∃ x, prs.[p] = Some x ∧ linked prs next (next x) l'
  end.

Lemma linked_ext prs prs' next b l :
  (∀ p x, p ∈ l → prs.[p] = Some x → ∃ x', prs'.[p] = Some x' ∧ next x' = next x) →
  linked prs next b l → linked prs' next b l.
Proof.
  revert b. induction l as [|p l IH]; intros b Hx; [done|]. intros [-> (x & Hp & Hl)].
  split; [done|]. destruct (Hx p x) as (x' & Hp' & Hn); [by left|done|]. exists x'. split; [done|].
  rewrite Hn. apply IH; [|done]. intros q y Hq. apply Hx. by right.
Qed.

Lemma linked_elem prs next b l p : linked prs next b l → p ∈ l → ∃ x, prs.[p] = Some x.
Proof.
  revert b. induction l as [|q l IH]; intros b Hl Hp; [by apply not_elem_of_nil in Hp|].
  destruct Hl as [_ (x & Hx & Hl)]. apply elem_of_cons in Hp as [->|Hp]; [by exists x|by eapply IH].
Qed.

(** Taking [p] out: the link before it now leads to what followed it. *)
Lemma linked_remove prs prs' next b b' l1 p x l2 :
  linked prs next b (l1 ++ p :: l2) → prs.[p] = Some x → NoDup (l1 ++ p :: l2) →
  match last l1 with
  | None => prs' = prs ∧ b' = next x
  | Some q => b' = b ∧ ∃ y y', prs.[q] = Some y ∧ next y' = next x ∧ prs' = prs.[q := y']
  end → linked prs' next b' (l1 ++ l2).
Proof.
  revert b b'. induction l1 as [|q l1 IH]; intros b b' Hl Hp Hnd Hlast.
  - destruct Hl as [_ (x' & Hx' & Hl)]. rewrite Hp in Hx'. injection Hx' as <-. by destruct Hlast as [-> ->].
  - simpl in Hnd. apply NoDup_cons in Hnd as [Hq Hnd]. destruct Hl as [-> (y & Hy & Hl)].
    rewrite last_cons in Hlast. destruct (last l1) as [r|] eqn:Hr.
    + destruct Hlast as (-> & z & z' & Hz & Hn & ->). split; [done|]. exists y.
      assert (r ≠ q). { intros ->. apply Hq, elem_of_app. left. by apply last_Some_elem_of. }
      rewrite lookupZ_update_ne by done. split; [done|].
      apply (IH (next y)); try done. split; [done|]. by exists z, z'.
    + apply last_None in Hr as ->. destruct Hlast as (-> & z & z' & Hz & Hn & ->). split; [done|].
      exists z'. rewrite lookupZ_update_eq by (by eapply lookupZ_Some_range). split; [done|].
      rewrite Hn. destruct Hl as [Hb (x' & Hx' & Hl)]. rewrite Hp in Hx'. injection Hx' as <-.
      eapply linked_ext; [|done]. intros r w Hr Hw. exists w. split; [|done]. rewrite lookupZ_update_ne; [done|].
      intros ->. apply Hq. simpl. by right.
Qed.

Section Inv.
Context {P : Type} {PA : PageAlloc P} {PS : PageAllocSpec P}.
Abbreviation kmstate := (kmstate P).

Record page_ok (mem : Z → Z) (x : pageref) (k : kpage) : Prop := {
  pg_type : 0 ≤ kp_type k < NSIZES;
  pg_va : kp_va k mod PAGE_SIZE = 0 ∧ MIPS_KSEG0 < kp_va k ∧ kp_va k + PAGE_SIZE ≤ MIPS_KSEG0 + 2 ^ 29;
  pg_pab : pageaddr_and_blocktype x = kp_va k + kp_type k;
  pg_nodup : NoDup (kp_free k);
  pg_offs : ∀ o, o ∈ kp_free k → block_off (kp_type k) o;
  pg_nfree : nfree x = lengthZ (kp_free k);
  pg_head : freelist_offset x = match kp_free k with [] => INVALID_OFFSET | o :: _ => o end;
  pg_chain : chain mem (kp_va k) (kp_free k)
}.

Definition inuse_bit (l : list Z) (p : Z) : bool :=
  match l.[p / 32] with Some w => Z.testbit w (p mod 32) | None => false end.

Record inuse_ok (l : list Z) (h : gmap Z kpage) : Prop := {
  iu_len : lengthZ l = INUSE_WORDS;
  iu_word : ∀ i w, l.[i] = Some w → 0 ≤ w < 2 ^ 32;
  iu_bit : ∀ p, 0 ≤ p < NPAGEREFS → inuse_bit l p = true ↔ is_Some (h !! p);
  iu_dom : ∀ p k, h !! p = Some k → 0 ≤ p < NPAGEREFS
}.

(** The heap [h], with its page references listed from allbase in [al] and from
    the bases of the sizes in [bl]; the page allocator has handed out [runs]. *)
Record km_inv (s : kmstate) (h : gmap Z kpage) (al : list Z) (bl : Z → list Z) (runs : gmap Z Z) : Prop := {
  ki_pages : kpages_rep (km_pages s) runs;
  ki_len : lengthZ (pagerefs s) = NPAGEREFS;
  ki_inuse : inuse_ok (pagerefs_inuse s) h;
  ki_page : ∀ p k, h !! p = Some k → ∃ x, (pagerefs s).[p] = Some x ∧ page_ok (kmem s) x k;
  ki_runs : ∀ p k, h !! p = Some k → runs !! kp_va k = Some 1;
  ki_inj : ∀ p q k k', h !! p = Some k → h !! q = Some k' → kp_va k = kp_va k' → p = q;
  ki_all : linked (pagerefs s) next_all (allbase s) al;
  ki_all_dom : NoDup al ∧ ∀ p, p ∈ al ↔ is_Some (h !! p);
  ki_bases : lengthZ (sizebases s) = NSIZES;
  ki_size : ∀ t, 0 ≤ t < NSIZES → ∃ b, (sizebases s).[t] = Some b ∧
    linked (pagerefs s) next_samesize b (bl t) ∧ NoDup (bl t) ∧
    ∀ p, p ∈ bl t ↔ ∃ k, h !! p = Some k ∧ kp_type k = t
}.

(** Between calls no page is wholly free. *)
Definition km_partial (h : gmap Z kpage) : Prop :=
  ∀ p k, h !! p = Some k → lengthZ (kp_free k) < nblocks (kp_type k).

(** The blocks handed out, of a page and altogether: a block of [n] bytes at [a]. *)
Definition page_live (k : kpage) (a n : Z) : Prop :=
  ∃ o, block_off (kp_type k) o ∧ o ∉ kp_free k ∧ a = kp_va k + o ∧ n = bsize (kp_type k).
Definition live (h : gmap Z kpage) (runs : gmap Z Z) (a n : Z) : Prop :=
  (∃ p k, h !! p = Some k ∧ page_live k a n) ∨
  (∃ m, runs !! a = Some m ∧ n = m * PAGE_SIZE ∧ ∀ p k, h !! p = Some k → kp_va k ≠ a).

(** ** Page references *)

Lemma pab_split va t : 0 ≤ t < NSIZES → va mod PAGE_SIZE = 0 → 0 ≤ va → va + PAGE_SIZE ≤ 2 ^ 32 →
  Z.land (va + t) PAGE_FRAME = va ∧ Z.land (va + t) (u32 (Z.lnot PAGE_FRAME)) = t ∧ MKPAB va t = va + t.
Proof.
  intros Ht Hva H0 Hmax. unfold NSIZES, PAGE_SIZE in *.
  change (u32 (Z.lnot PAGE_FRAME)) with (Z.ones 12). unfold MKPAB. change (u32 (Z.lnot PAGE_FRAME)) with (Z.ones 12).
  rewrite !land_PAGE_FRAME, !Z.land_ones by lia. unfold PAGE_SIZE. change (2 ^ 12) with 4096.
  pose proof (Z.div_mod va 4096 ltac:(lia)) as Hd. rewrite Hva in Hd.
  assert ((va + t) / 4096 = va / 4096) as Hq.
  { symmetry. apply (Z.div_unique _ _ _ t); lia. }
  assert ((va + t) mod 4096 = t) as Hr.
  { symmetry. apply (Z.mod_unique _ _ (va / 4096)); lia. }
  rewrite Hq, Hr, (Z.mod_small t) by lia. split_and!; [lia|done|].
  replace (va / 4096 * 4096) with (Z.shiftl (va / 4096) 12) by (rewrite Z.shiftl_mul_pow2; lia).
  replace (va + t) with (Z.shiftl (va / 4096) 12 + t) by (rewrite Z.shiftl_mul_pow2; lia).
  assert (Z.land (Z.shiftl (va / 4096) 12) t = 0) as Hz.
  { rewrite <- (Z.mod_small t (2 ^ 12)), <- Z.land_ones by lia.
    apply Z.bits_inj'. intros n Hn. rewrite !Z.land_spec, Z.bits_0, Z.testbit_ones_nonneg by lia.
    destruct (decide (n < 12)); [by rewrite Z.shiftl_spec_low by lia|].
    replace (n <? 12) with false by lia. by rewrite !andb_false_r. }
  rewrite <- Z.lxor_lor by done. symmetry. by apply Z.add_nocarry_lxor.
Qed.

Lemma page_ok_fields mem x k : page_ok mem x k → PR_PAGEADDR x = kp_va k ∧ PR_BLOCKTYPE x = kp_type k.
Proof.
  intros [Ht (Hm & Hlo & Hhi) Hpab _ _ _ _ _]. unfold PR_PAGEADDR, PR_BLOCKTYPE. rewrite Hpab.
  unfold MIPS_KSEG0 in *. destruct (pab_split (kp_va k) (kp_type k)) as (? & ? & ?); [done|done|lia|lia|done].
Qed.

Lemma wp_read_pr X p x (s : kmstate) (Q : pageref → kmstate → Prop) E :
  (pagerefs s).[p] = Some x → Q x s → wpx X (read_pr p) Q E s.
Proof. intros Hp HQ. unfold read_pr. wp_steps. by eapply wp_deref. Qed.

Lemma wp_update_pr X p x f (s : kmstate) (Q : unit → kmstate → Prop) E :
  (pagerefs s).[p] = Some x → Q tt (set_pagerefs (λ l, l.[p := f x]) s) → wpx X (update_pr p f) Q E s.
Proof. intros Hp HQ. unfold update_pr. wp_step. eapply wp_read_pr; [done|]. by wp_step. Qed.

Definition before (guy : option Z) (l1 : list Z) : option Z :=
  match last l1 with Some q => Some q | None => guy end.

(** unlink stores what followed [p] in the place before it. *)
Lemma unlink_spec X fuel next store guy cur l p (s : kmstate) (Q : unit → kmstate → Prop) E :
  linked (pagerefs s) next cur l → p ∈ l → (length l < fuel)%nat →
  (∀ l1 l2 x, l = l1 ++ p :: l2 → (pagerefs s).[p] = Some x → wpx X (store (before guy l1) (next x)) Q E s) →
  wpx X (unlink fuel next store guy cur p) Q E s.
Proof.
  revert guy cur l. induction fuel as [|fuel IH]; intros guy cur l Hl Hp Hlen HQ; [lia|].
  destruct l as [|q l]; [by apply not_elem_of_nil in Hp|]. destruct Hl as [-> (y & Hy & Hl)].
  cbn [unlink]. wp_step. eapply wp_read_pr; [done|]. destruct (Z.eqb_spec q p) as [->|Hne].
  - by apply (HQ [] l y).
  - apply elem_of_cons in Hp as [->|Hp]; [done|]. apply (IH (Some q) (next y) l); [done|done|simpl in Hlen; lia|].
    intros l1 l2 x -> Hx. specialize (HQ (q :: l1) l2 x eq_refl Hx).
    unfold before in *. rewrite last_cons in HQ. by destruct (last l1).
Qed.

(** ** One page *)

Definition same_links (x x' : pageref) : Prop :=
  next_samesize x' = next_samesize x ∧ next_all x' = next_all x.

(** Memory outside the page at [va] is as it was. *)
Definition same_but (va : Z) (mem mem' : Z → Z) : Prop :=
  ∀ a, ¬ (va ≤ a < va + PAGE_SIZE) → mem' a = mem a.

Lemma page_ok_mem mem mem' x k :
  (∀ a, kp_va k ≤ a < kp_va k + PAGE_SIZE → mem' a = mem a) → page_ok mem x k → page_ok mem' x k.
Proof.
  intros Hm [? ? ? ? Ho ? ? ?]. constructor; try done. eapply chain_ext; [|done].
  intros o Hin. apply Hm. destruct (Ho o Hin). lia.
Qed.

Lemma heap_pages_apart s h al bl runs p q k k' a :
  km_inv s h al bl runs → h !! p = Some k → h !! q = Some k' → p ≠ q →
  kp_va k ≤ a < kp_va k + PAGE_SIZE → ¬ (kp_va k' ≤ a < kp_va k' + PAGE_SIZE).
Proof.
  intros Hinv Hp Hq Hne Ha Hb.
  assert (kp_va k ≠ kp_va k') as Hva by (intros Heq; by apply Hne, (ki_inj _ _ _ _ _ Hinv p q k k')).
  pose proof (ki_runs _ _ _ _ _ Hinv p k Hp). pose proof (ki_runs _ _ _ _ _ Hinv q k' Hq).
  destruct (kpages_disjoint (km_pages s) runs (kp_va k) 1 (kp_va k') 1); try done; try lia. apply Hinv.
Qed.

(** A change to one page: its own entry and its own memory. *)
Lemma km_inv_update s h al bl runs p k k' x x' mem' :
  km_inv s h al bl runs → h !! p = Some k → (pagerefs s).[p] = Some x → same_links x x' →
  kp_va k' = kp_va k → kp_type k' = kp_type k → page_ok mem' x' k' → same_but (kp_va k) (kmem s) mem' →
  km_inv (mkKM (km_pages s) mem' (pagerefs s).[p := x'] (pagerefs_inuse s) (sizebases s) (allbase s))
    (<[p := k']> h) al bl runs.
Proof.
  intros Hinv Hp Hx [Hn1 Hn2] Hva Hty Hok Hmem. pose proof (lookupZ_Some_range _ _ _ Hx) as Hr.
  assert (∀ q, is_Some (<[p := k']> h !! q) ↔ is_Some (h !! q)) as Hdom.
  { intros q. rewrite lookup_insert_is_Some. destruct (decide (p = q)) as [->|]; [rewrite Hp|]; naive_solver. }
  assert (∀ next b l, next x' = next x → linked (pagerefs s) next b l → linked (pagerefs s).[p := x'] next b l) as Hlk.
  { intros next b l Hn. apply linked_ext. intros q y Hq Hy. rewrite lookupZ_update by done.
    case_decide; [|by exists y]. subst q. exists x'. split; [done|]. congruence. }
  assert (∀ q c, <[p := k']> h !! q = Some c → ∃ c0, h !! q = Some c0 ∧ kp_va c = kp_va c0 ∧ kp_type c = kp_type c0) as Hold.
  { intros q c [[<- <-]|[_ Hq]]%lookup_insert_Some; [by exists k|by exists c]. }
  destruct Hinv as [I1 I2 [J1 J2 J3 J4] I4 I5 I6 I7 [I8 I8'] I9 I10]. constructor; simpl; try done.
  - by rewrite lengthZ_update.
  - constructor; try done; [intros q Hq; by rewrite Hdom, J3|].
    intros q c Hq. destruct (Hold q c Hq) as (c0 & ? & _). by eapply J4.
  - intros q c Hq. rewrite lookupZ_update by done. apply lookup_insert_Some in Hq as [[<- <-]|[Hne Hq]].
    { rewrite decide_True by done. by exists x'. }
    rewrite decide_False by done. destruct (I4 q c Hq) as (y & Hy & Hyok). exists y. split; [done|].
    eapply page_ok_mem; [|done]. intros a Ha. apply Hmem.
    eapply (heap_pages_apart s h al bl runs q p); try done.
  - intros q c Hq. destruct (Hold q c Hq) as (c0 & Hc & -> & _). by eapply I5.
  - intros q r c c' Hq Hr'. destruct (Hold q c Hq) as (? & ? & -> & _), (Hold r c' Hr') as (? & ? & -> & _). by apply I6.
  - by apply Hlk.
  - split; [done|]. intros q. by rewrite I8', Hdom.
  - intros t Ht. destruct (I10 t Ht) as (b & Hb & Hl & Hnd & Hm). exists b. split_and!; [done|by apply Hlk|done|].
    intros q. rewrite Hm. split.
    + intros (c & Hc & Hct). destruct (decide (p = q)) as [<-|].
      * exists k'. rewrite lookup_insert_eq. split; [done|]. congruence.
      * exists c. by rewrite lookup_insert_ne.
    + intros (c & Hc & Hct). destruct (Hold q c Hc) as (c0 & ? & _ & ?). exists c0. split; [done|congruence].
Qed.

Lemma doalloc_spec X s h al bl runs p k o l :
  km_inv s h al bl runs → h !! p = Some k → kp_free k = o :: l →
  wpx X (doalloc p)
    (λ v s', v = kp_va k + o ∧ kmem s' = kmem s ∧
       km_inv s' (<[p := mkKP (kp_va k) (kp_type k) l]> h) al bl runs) (λ _ _, False) s.
Proof.
  intros Hinv Hp Hfree. destruct (ki_page _ _ _ _ _ Hinv p k Hp) as (x & Hx & Hok).
  destruct (page_ok_fields _ _ _ Hok) as [Hpa Hbt]. destruct (Hok) as [Ht (Hm & Hlo & Hhi) Hpab Hnd Ho Hn Hh Hc].
  rewrite Hfree in *. destruct (Ho o) as [Hor _]; [by left|]. destruct Hc as [Hw Hc].
  destruct (bsize_facts _ Ht) as (_ & _ & _ & _ & Hnb & _).
  destruct (free_bound (kp_type k) (o :: l) Ht Hnd Ho) as [Hlen _].
  assert (u32 (kp_va k + o) = kp_va k + o) as Hu by (apply Z.mod_small; unfold MIPS_KSEG0, PAGE_SIZE in *; lia).
  rewrite lengthZ_cons in *. pose proof (lengthZ_nonneg l).
  assert (u16 (nfree x - 1) = lengthZ l) as Hn' by (unfold u16; rewrite Z.mod_small; lia).
  unfold doalloc. wp_step. eapply wp_read_pr; [done|]. rewrite Hh, Hpa, Hu, Hn'.
  wp_step. apply wp_kassert; [lia|]. unfold read_word. wp_steps. rewrite Hw.
  eapply wp_update_pr; [done|]. pose proof (lookupZ_Some_range _ _ _ Hx) as Hr.
  destruct l as [|o' l].
  - simpl. wp_steps.
    eapply wp_update_pr; [by apply lookupZ_update_eq|]. wp_step. split_and!; [done..|].
    unfold set_pagerefs. simpl. rewrite updateZ_update.
    eapply km_inv_update; try done. constructor; try done; [apply NoDup_nil_2|].
    intros o' Ho'. by apply not_elem_of_nil in Ho'.
  - destruct (Ho o') as [Hor' _]; [by right; left|].
    assert (u32 (kp_va k + o' - kp_va k) = o') as Hu2
      by (rewrite Z.add_simpl_l; apply Z.mod_small; unfold PAGE_SIZE in *; lia).
    destruct (Z.eqb_spec (kp_va k + o') 0); [unfold MIPS_KSEG0 in *; lia|].
    rewrite lengthZ_cons in *. pose proof (lengthZ_nonneg l).
    wp_step. apply wp_kassert; [lia|]. wp_step. rewrite Hu2. apply wp_kassert; [unfold PAGE_SIZE in *; lia|]. wp_step.
    eapply wp_update_pr; [by apply lookupZ_update_eq|]. wp_step. split_and!; [done..|].
    unfold set_pagerefs. simpl. rewrite updateZ_update.
    eapply km_inv_update; try done. apply NoDup_cons in Hnd as [_ Hnd].
    constructor; try done; [intros q Hq; apply Ho; by right|by rewrite <- lengthZ_cons with (x := o')|].
    simpl. unfold u16. apply Z.mod_small. unfold PAGE_SIZE in *. lia.
Qed.

(** ** The search for a page *)

Lemma heap_list_short s h al bl runs l :
  km_inv s h al bl runs → NoDup l → (∀ p, p ∈ l → is_Some (h !! p)) → (length l < list_fuel)%nat.
Proof.
  intros Hinv Hnd Hl. assert (l ⊆+ seqZ 0 NPAGEREFS) as Hsub%submseteq_length.
  { apply NoDup_submseteq; [done|]. intros p Hp. destruct (Hl p Hp) as [k Hk].
    apply elem_of_seqZ. pose proof (iu_dom _ _ (ki_inuse _ _ _ _ _ Hinv) p k Hk). lia. }
  rewrite length_seqZ in Hsub. unfold list_fuel, NPAGEREFS in *. lia.
Qed.

Lemma find_page_spec X s h al bl runs t fuel cur l :
  km_inv s h al bl runs → linked (pagerefs s) next_samesize cur l → (length l < fuel)%nat →
  (∀ p, p ∈ l → ∃ k, h !! p = Some k ∧ kp_type k = t) →
  wpx X (find_page fuel t cur)
    (λ r s', s' = s ∧ match r with
       | Some p => ∃ k o l', h !! p = Some k ∧ kp_type k = t ∧ kp_free k = o :: l'
       | None => ∀ p k, p ∈ l → h !! p = Some k → kp_free k = []
       end) (λ _ _, False) s.
Proof.
  intros Hinv. revert cur l. induction fuel as [|fuel IH]; intros cur l Hl Hlen Hin; [lia|].
  cbn [find_page]. destruct l as [|p l]; simpl in Hl.
  { subst cur. wp_step. split; [done|]. intros p k Hp. by apply not_elem_of_nil in Hp. }
  destruct Hl as [-> (x & Hx & Hl)]. destruct (Hin p) as (k & Hk & Hkt); [by left|].
  destruct (ki_page _ _ _ _ _ Hinv p k Hk) as (x' & Hx' & Hok). rewrite Hx in Hx'. injection Hx' as <-.
  destruct (page_ok_fields _ _ _ Hok) as [_ Hbt]. wp_step. eapply wp_read_pr; [done|].
  wp_step. apply wp_kassert; [lia|]. rewrite (pg_nfree _ _ _ Hok).
  destruct (kp_free k) as [|o l'] eqn:Hf.
  - change (0 <? lengthZ []) with false. cbv iota.
    eapply wp_conseq; [apply (IH _ l Hl); [simpl in Hlen; lia|intros q Hq; apply Hin; by right]| |done].
    intros [q|] s' [-> Hr]; split; try done. intros q c [->|Hq]%elem_of_cons Hc; [congruence|by eapply Hr].
  - rewrite lengthZ_cons. pose proof (lengthZ_nonneg l'). replace (0 <? 1 + lengthZ l') with true by lia.
    wp_step. split; [done|]. by exists k, o, l'.
Qed.

(** ** Page references *)

Lemma clear_bit_spec w fuel j :
  0 ≤ w < 2 ^ 32 → w ≠ 0xffffffff → 0 ≤ j ≤ 32 → (32 - j < Z.of_nat fuel) →
  (∀ i, 0 ≤ i < j → Z.testbit w i = true) →
  ∃ i, clear_bit fuel j (u32 (2 ^ j)) w = Some (i, 2 ^ i) ∧ 0 ≤ i < 32 ∧ Z.testbit w i = false.
Proof.
  intros Hw Hne. revert j. induction fuel as [|fuel IH]; intros j Hj Hf Hset; [lia|]. cbn [clear_bit].
  destruct (decide (j = 32)) as [->|].
  { destruct Hne. apply (word_all_ones 32); [lia|done|]. apply Hset. }
  assert (2 ^ j < 2 ^ 32) by (apply Z.pow_lt_mono_r; lia). assert (0 < 2 ^ j) by (apply Z.pow_pos_nonneg; lia).
  rewrite (u32_small (2 ^ j)) by lia. destruct (Z.eqb_spec (2 ^ j) 0); [lia|]. rewrite mask_test by lia.
  destruct (Z.testbit w j) eqn:E; simpl; [|exists j; split_and!; done || lia].
  rewrite Z.shiftl_mul_pow2, <- Z.pow_add_r by lia. apply IH; [lia|lia|].
  intros i Hi. destruct (decide (i = j)) as [->|]; [done|]. apply Hset. lia.
Qed.

Lemma inuse_set l h i w j k : inuse_ok l h → l.[i] = Some w → 0 ≤ j < 32 → Z.testbit w j = false →
  h !! (i * 32 + j) = None ∧ 0 ≤ i * 32 + j < NPAGEREFS ∧
  inuse_ok l.[i := Z.lor w (2 ^ j)] (<[i * 32 + j := k]> h).
Proof.
  intros [H1 H2 H3 H4] Hi Hj Hw. pose proof (lookupZ_Some_range _ _ _ Hi) as Hr. rewrite H1 in Hr.
  unfold INUSE_WORDS, NPAGEREFS in *.
  assert (∀ p, (p / 32 = i ∧ p mod 32 = j) ↔ p = i * 32 + j) as Hdm.
  { intros p. pose proof (Z.div_mod p 32). split; [lia|]. intros ->.
    rewrite Z.div_add_l, Z.div_small by lia. rewrite (Z.add_comm (i * 32)), Z.mod_add, Z.mod_small by lia. lia. }
  destruct (proj2 (Hdm (i * 32 + j)) eq_refl) as [Hd Hm].
  assert (h !! (i * 32 + j) = None) as Hnone.
  { apply eq_None_not_Some. rewrite <- H3 by lia. unfold inuse_bit. by rewrite Hd, Hm, Hi, Hw. }
  split_and!; [done|lia|lia|]. constructor.
  - by rewrite lengthZ_update.
  - intros a b Hab. rewrite lookupZ_update in Hab by lia. case_decide; [|by eapply H2].
    injection Hab as <-. apply (word_lor_mask 32); [by eapply H2|lia].
  - intros p Hp. specialize (H3 p Hp). rewrite lookup_insert_is_Some. unfold inuse_bit in *.
    rewrite lookupZ_update by lia. pose proof (Z.mod_pos_bound p 32 ltac:(lia)). specialize (Hdm p).
    destruct (decide (i = p / 32)) as [Hip|Hip].
    + rewrite <- Hip, Hi in H3. rewrite mask_set by lia. case_bool_decide as Hb; simpl.
      * split; [intros _; left; by symmetry; apply Hdm|done].
      * assert (i * 32 + j ≠ p) by (intros E; symmetry in E; apply Hdm in E as [_ ?]; done).
        rewrite H3. naive_solver.
    + assert (i * 32 + j ≠ p) by (intros E; symmetry in E; apply Hdm in E as [? _]; done).
      rewrite H3. naive_solver.
  - intros p c [[<- _]|[_ Hc]]%lookup_insert_Some; [unfold NPAGEREFS; lia|by eapply H4].
Qed.

Lemma allocpageref_spec X (s : kmstate) h fuel i :
  inuse_ok (pagerefs_inuse s) h → 0 ≤ i → i + Z.of_nat fuel ≤ INUSE_WORDS →
  wpx X (allocpageref_loop fuel i)
    (λ r s', match r with
       | None => s' = s
       | Some p => h !! p = None ∧ 0 ≤ p < NPAGEREFS ∧ ∃ l', s' = set_inuse (λ _, l') s ∧ ∀ k, inuse_ok l' (<[p := k]> h)
       end) (λ _ _, False) s.
Proof.
  intros Hok. revert i. induction fuel as [|fuel IH]; intros i Hi Hf; cbn [allocpageref_loop]; [by wp_step|].
  destruct (lookupZ_lt (pagerefs_inuse s) i) as [w Hw]; [rewrite (iu_len _ _ Hok); lia|].
  unfold read_inuse. wp_steps. eapply wp_deref; [done|]. destruct (Z.eqb_spec w 0xffffffff) as [|Hne].
  { apply IH; lia. }
  destruct (clear_bit_spec w 33 0) as (j & Hc & Hj & Hb); [by eapply (iu_word _ _ Hok)|done|lia..|].
  change (u32 (2 ^ 0)) with 1 in Hc. rewrite Hc. wp_steps.
  pose proof (λ k, inuse_set _ _ _ _ _ k Hok Hw Hj Hb) as Hset.
  split_and!; [apply (Hset (mkKP 0 0 []))..|]. eexists. split; [reflexivity|]. intros k. apply (Hset k).
Qed.

Lemma freepageref_spec X (s : kmstate) h p k :
  inuse_ok (pagerefs_inuse s) h → h !! p = Some k →
  wpx X (freepageref p)
    (λ _ s', ∃ l', s' = set_inuse (λ _, l') s ∧ inuse_ok l' (delete p h)) (λ _ _, False) s.
Proof.
  intros [H1 H2 H3 H4] Hp. pose proof (H4 p k Hp) as Hr. unfold freepageref, NPAGEREFS, INUSE_WORDS in *.
  wp_step. apply wp_kassert; [lia|]. cbv zeta. pose proof (Z.div_mod p 32 ltac:(lia)).
  pose proof (Z.mod_pos_bound p 32 ltac:(lia)) as Hj.
  destruct (lookupZ_lt (pagerefs_inuse s) (p / 32)) as [w Hw]; [rewrite H1; lia|].
  unfold read_inuse. wp_steps. eapply wp_deref; [done|]. rewrite Z.shiftl_1_l. wp_step.
  assert (Z.testbit w (p mod 32) = true) as Hb.
  { specialize (H3 p Hr). unfold inuse_bit in H3. rewrite Hw in H3. by apply H3. }
  apply wp_kassert; [by rewrite mask_test, Hb by lia|]. wp_step. eexists. split; [reflexivity|].
  pose proof (H2 _ _ Hw) as Hw32. constructor.
  - by rewrite lengthZ_update.
  - intros a b Hab. rewrite lookupZ_update in Hab by lia. case_decide; [|by eapply H2].
    injection Hab as <-. apply (word_land 32); [lia|apply u32_range].
  - intros q Hq. specialize (H3 q Hq). unfold inuse_bit in *. rewrite lookupZ_update by lia.
    pose proof (Z.mod_pos_bound q 32 ltac:(lia)). pose proof (Z.div_mod q 32 ltac:(lia)).
    destruct (decide (p = q)) as [<-|Hpq].
    + rewrite decide_True by done. unfold u32. rewrite mask_clear by lia.
      rewrite bool_decide_eq_true_2, lookup_delete_eq by done. simpl. split; [done|by intros [? ?]].
    + rewrite lookup_delete_ne by done. destruct (decide (p / 32 = q / 32)) as [E|]; [|done].
      rewrite <- E, Hw in H3. unfold u32. rewrite mask_clear by lia. rewrite bool_decide_eq_false_2; [done|].
      intros E2. lia.
  - intros q c [_ Hc]%lookup_delete_Some. by eapply H4.
Qed.

(** ** A fresh page *)

(** The free list of a page just threaded: from its last block to its first. *)
Fixpoint countdown (n : nat) (sz : Z) : list Z :=
  match n with O => [] | S n' => Z.of_nat n' * sz :: countdown n' sz end.

Lemma elem_of_countdown n sz o : o ∈ countdown n sz ↔ ∃ i, 0 ≤ i < Z.of_nat n ∧ o = i * sz.
Proof.
  induction n as [|n IH]; cbn [countdown].
  { rewrite elem_of_nil. split; [done|]. intros (i & ? & _). lia. }
  rewrite elem_of_cons, IH. split.
  - intros [->|(i & ? & ->)]; [exists (Z.of_nat n)|exists i]; split; done || lia.
  - intros (i & ? & ->). destruct (decide (i = Z.of_nat n)) as [->|]; [by left|right]. exists i. split; done || lia.
Qed.

Lemma NoDup_countdown n sz : 0 < sz → NoDup (countdown n sz).
Proof.
  intros Hsz. induction n as [|n IH]; cbn [countdown]; [apply NoDup_nil_2|]. apply NoDup_cons. split; [|done].
  intros (i & ? & ?)%elem_of_countdown. nia.
Qed.

Lemma length_countdown n sz : length (countdown n sz) = n.
Proof. induction n; simpl; congruence. Qed.

Lemma thread_page_spec X (s : kmstate) va sz n :
  0 < va → 0 < sz → 1 ≤ n → va + n * sz ≤ 2 ^ 32 →
  wpx X (thread_page va sz n)
    (λ _ s', ∃ mem, s' = set_kmem (λ _, mem) s ∧ chain mem va (countdown (Z.to_nat n) sz) ∧
       ∀ a, ¬ (va ≤ a < va + n * sz) → mem a = kmem s a) (λ _ _, False) s.
Proof.
  intros Hva Hsz Hn Hmax. unfold thread_page, write_word. wp_steps.
  apply (wp_for (λ i s', ∃ mem, s' = set_kmem (λ _, mem) s ∧ chain mem va (countdown (Z.to_nat i) sz) ∧
    ∀ a, ¬ (va ≤ a < va + i * sz) → mem a = kmem s a)); [done| | |done].
  - eexists. split; [reflexivity|]. split.
    + change (Z.to_nat 1) with 1%nat. simpl. by rewrite Z.add_0_r, decide_True.
    + intros a Ha. rewrite decide_False; [done|]. lia.
  - intros i s' Hi (mem & -> & Hc & Hm). cbv zeta. rewrite !u32_small by nia. wp_steps.
    apply wp_kassert; [apply negb_true_iff, Z.eqb_neq; nia|]. eexists. split; [reflexivity|]. split.
    + replace (Z.to_nat (i + 1)) with (S (Z.to_nat i)) by lia. cbn [countdown chain]. rewrite Z2Nat.id by lia. split.
      * rewrite decide_True by done. destruct (Z.to_nat i) as [|m] eqn:E; [lia|]. cbn [countdown].
        replace (Z.of_nat m) with (i - 1) by lia. done.
      * eapply chain_ext; [|done]. intros o (j & Hj & ->)%elem_of_countdown. rewrite decide_False; [done|]. nia.
    + intros a Ha. rewrite decide_False by nia. apply Hm. nia.
Qed.

(** A page joins the heap. *)
Section AddPage.
Context (s : kmstate) (h : gmap Z kpage) (al : list Z) (bl : Z → list Z) (runs : gmap Z Z).
Context (p : Z) (k : kpage) (x : pageref) (pg' : P) (mem' : Z → Z) (l' : list Z) (base : option Z).
Context (Hinv : km_inv s h al bl runs) (Hp : h !! p = None) (Hr : 0 ≤ p < NPAGEREFS).
Context (Hva : runs !! kp_va k = None) (Hrep : kpages_rep pg' (<[kp_va k := 1]> runs)).
Context (Hiu : inuse_ok l' (<[p := k]> h)) (Hok : page_ok mem' x k) (Hmem : same_but (kp_va k) (kmem s) mem').
Context (Hbase : (sizebases s).[kp_type k] = Some base).
Context (Hn1 : next_samesize x = base) (Hn2 : next_all x = allbase s).

Lemma add_page_linked next b l :
  (∀ q, q ∈ l → is_Some (h !! q)) → linked (pagerefs s) next b l → linked (pagerefs s).[p := x] next b l.
Proof.
  intros Hl. apply linked_ext. intros q y Hq Hy. exists y. rewrite lookupZ_update_ne; [done|].
  intros ->. apply Hl in Hq as [? ?]. congruence.
Qed.

Lemma add_page_other q c : h !! q = Some c → q ≠ p ∧ kp_va c ≠ kp_va k.
Proof.
  intros Hq. split; [congruence|]. intros Heq. pose proof (ki_runs _ _ _ _ _ Hinv q c Hq) as Hc. congruence.
Qed.

Lemma km_inv_add :
  km_inv (mkKM pg' mem' (pagerefs s).[p := x] l' (sizebases s).[kp_type k := Some p] (Some p))
    (<[p := k]> h) (p :: al) (λ t, if decide (t = kp_type k) then p :: bl t else bl t) (<[kp_va k := 1]> runs).
Proof.
  pose proof add_page_other as Hoth. pose proof add_page_linked as Hlk. pose proof (pg_type _ _ _ Hok) as Ht.
  destruct Hinv as [I1 I2 I3 I4 I5 I6 I7 [I8 I8'] I9 I10].
  assert ((pagerefs s).[p := x].[p] = Some x) as Hpx by (apply lookupZ_update_eq; lia).
  constructor; simpl; try done.
  - by rewrite lengthZ_update.
  - intros q c [[<- <-]|[Hne Hq]]%lookup_insert_Some; [by exists x|].
    destruct (I4 q c Hq) as (y & Hy & Hyok). exists y. rewrite lookupZ_update_ne by done. split; [done|].
    eapply page_ok_mem; [|done]. intros a Ha. apply Hmem. intros Hb. destruct (Hoth q c Hq) as [_ Hne'].
    destruct (kpages_disjoint pg' _ (kp_va c) 1 (kp_va k) 1 Hrep); try done; try lia.
    + rewrite lookup_insert_ne by done. by eapply I5.
    + apply lookup_insert_eq.
  - intros q c [[<- <-]|[Hne Hq]]%lookup_insert_Some; [apply lookup_insert_eq|].
    destruct (Hoth q c Hq). rewrite lookup_insert_ne by done. by eapply I5.
  - intros q r c c' Hq Hr' Heq. apply lookup_insert_Some in Hq, Hr'.
    destruct Hq as [[<- <-]|[Hne Hq]], Hr' as [[<- <-]|[Hne' Hr']]; try done.
    + by destruct (Hoth r c' Hr') as [_ []].
    + by destruct (Hoth q c Hq) as [_ []].
    + by eapply I6.
  - split; [done|]. exists x. split; [done|]. rewrite Hn2. apply Hlk; [|done]. intros q. by rewrite I8'.
  - split.
    + apply NoDup_cons. split; [|done]. rewrite I8', Hp. by intros [? ?].
    + intros q. rewrite elem_of_cons, I8', lookup_insert_is_Some'. naive_solver.
  - by rewrite lengthZ_update.
  - intros t Htt. rewrite lookupZ_update by lia. destruct (I10 t Htt) as (b & Hb & Hl & Hnd & Hm).
    assert (linked (pagerefs s).[p := x] next_samesize b (bl t)) as Hl'.
    { apply Hlk; [|done]. intros q (c & Hc & _)%Hm. by exists c. }
    destruct (decide (t = kp_type k)) as [->|Hne].
    + rewrite decide_True by done. exists (Some p). split_and!; [done| | |].
      * split; [done|]. exists x. split; [done|]. rewrite Hn1. congruence.
      * apply NoDup_cons. split; [|done]. intros (c & Hc & _)%Hm. congruence.
      * intros q. rewrite elem_of_cons, Hm. split.
        { intros [->|(c & Hc & Hct)]; [exists k; by rewrite lookup_insert_eq|].
          exists c. rewrite lookup_insert_ne by congruence. done. }
        { intros (c & [[<- <-]|[_ Hc]]%lookup_insert_Some & Hct); [by left|right; by exists c]. }
    + rewrite decide_False by congruence. exists b. split_and!; try done. intros q. rewrite Hm. split.
      * intros (c & Hc & Hct). exists c. rewrite lookup_insert_ne by congruence. done.
      * intros (c & [[<- <-]|[_ Hc]]%lookup_insert_Some & Hct); [by destruct Hne|by exists c].
Qed.
End AddPage.

Lemma wp_kpages {A} X (m : M P A) Q E (s : kmstate) :
  wpx X m (λ a c, Q a (set_km_pages c s)) (λ e c, E e (set_km_pages c s)) (km_pages s) → wpx X (kpages m) Q E s.
Proof. apply wp_lift. Qed.

Lemma km_inv_pages s h al bl runs pg' :
  km_inv s h al bl runs → kpages_rep pg' runs → km_inv (set_km_pages pg' s) h al bl runs.
Proof. intros [] ?. by constructor. Qed.

(** What a page just threaded looks like. *)
Lemma fresh_page_ok mem x va t :
  0 ≤ t < NSIZES → va mod PAGE_SIZE = 0 → MIPS_KSEG0 < va → va + PAGE_SIZE ≤ MIPS_KSEG0 + 2 ^ 29 →
  pageaddr_and_blocktype x = va + t → nfree x = nblocks t → freelist_offset x = (nblocks t - 1) * bsize t →
  chain mem va (countdown (Z.to_nat (nblocks t)) (bsize t)) →
  page_ok mem x (mkKP va t (countdown (Z.to_nat (nblocks t)) (bsize t))).
Proof.
  intros Ht Hm Hlo Hhi Hpab Hn Hf Hc. destruct (bsize_facts t Ht) as (_ & _ & Hnb & Hb & Hnn & _).
  constructor; simpl; try done.
  - apply NoDup_countdown. lia.
  - intros o (i & Hi & ->)%elem_of_countdown. split; [nia|]. apply Z.mod_mul. lia.
  - unfold lengthZ. rewrite length_countdown. lia.
  - rewrite Hf. destruct (Z.to_nat (nblocks t)) as [|n] eqn:E; [lia|]. cbn [countdown]. f_equal. lia.
Qed.

Lemma kmstate_eq (s : kmstate) a b c d e f :
  km_pages s = a → kmem s = b → pagerefs s = c → pagerefs_inuse s = d → sizebases s = e → allbase s = f →
  s = mkKM a b c d e f.
Proof. destruct s. simpl. congruence. Qed.

Lemma new_page_spec X s h al bl runs t :
  km_inv s h al bl runs → 0 ≤ t < NSIZES →
  wpx X (new_page t)
    (λ r s', match r with
       | None => kmem s' = kmem s ∧ km_inv s' h al bl runs
       | Some p => h !! p = None ∧ ∃ va, runs !! va = None ∧ same_but va (kmem s) (kmem s') ∧
           km_inv s' (<[p := mkKP va t (countdown (Z.to_nat (nblocks t)) (bsize t))]> h) (p :: al)
             (λ u, if decide (u = t) then p :: bl u else bl u) (<[va := 1]> runs)
       end) (λ _ _, False) s.
Proof.
  intros Hinv Ht. destruct (bsize_facts t Ht) as (Hsz & Hdiv & Hnb & Hb & Hnn & _).
  unfold new_page. wp_step. apply wp_kpages.
  eapply wp_conseq; [apply (kpages_alloc_spec X _ runs 1); [apply Hinv|lia]| |done].
  intros va pg1 Hpg. simpl in Hpg. destruct (Z.eqb_spec va 0) as [->|Hva0].
  { rewrite decide_True in Hpg by done. wp_step. split; [done|]. by apply km_inv_pages. }
  rewrite decide_False in Hpg by done. destruct Hpg as [Hva Hrep].
  destruct (kpages_range _ _ va 1 Hrep (lookup_insert_eq _ _ _)) as (_ & Hal & Hlo & Hhi). rewrite Z.mul_1_l in Hhi.
  wp_step. eapply wp_conseq; [apply (allocpageref_spec X (set_km_pages pg1 s) h _ 0); [apply Hinv|lia|done]| |done].
  intros [p|] s1 Hp.
  2: { subst s1. wp_step. apply wp_kpages. eapply wp_conseq; [apply (kpages_free_spec X pg1 _ va 1 Hrep), lookup_insert_eq| |done].
       intros [] pg2 Hrep2. rewrite delete_insert_id in Hrep2 by done. wp_step. split; [done|]. exact (km_inv_pages s h al bl runs pg2 Hinv Hrep2). }
  destruct Hp as (Hpn & Hpr & l' & -> & Hiu). destruct (lookupZ_lt (pagerefs s) p) as [x Hx]; [rewrite (ki_len _ _ _ _ _ Hinv); lia|].
  destruct (ki_size _ _ _ _ _ Hinv t Ht) as (base & Hbase & _). pose proof (lookupZ_Some_range _ _ _ Hx) as Hxr.
  unfold MIPS_KSEG0, PAGE_SIZE in *. destruct (pab_split va t) as (_ & _ & Hpab); [done|done|lia|unfold PAGE_SIZE; lia|].
  wp_steps. eapply wp_deref; [done|]. unfold PAGE_SIZE. rewrite Hdiv, Hpab. unfold u16. rewrite (Z.mod_small (nblocks t)) by lia.
  cbv zeta. wp_step. eapply wp_update_pr; [done|]. wp_step. eapply wp_update_pr; [apply lookupZ_update_eq; first [done|simpl; by rewrite ?lengthZ_update]|].
  wp_step. eapply wp_conseq; [apply thread_page_spec; lia| |done]. intros [] s2 (mem & -> & Hc & Hm).
  rewrite (u32_small (va + _)), Z.add_simpl_l, u32_small by nia. rewrite (Z.mod_small ((nblocks t - 1) * bsize t)) by nia.
  wp_step. eapply wp_update_pr; [apply lookupZ_update_eq; first [done|simpl; by rewrite ?lengthZ_update]|].
  wp_step. apply wp_kassert; [lia|]. wp_steps. eapply wp_deref; [done|]. wp_step.
  eapply wp_update_pr; [apply lookupZ_update_eq; first [done|simpl; by rewrite ?lengthZ_update]|]. wp_steps.
  eapply wp_update_pr; [apply lookupZ_update_eq; first [done|simpl; by rewrite ?lengthZ_update]|]. wp_steps.
  split; [done|]. exists va. split; [done|].
  set (x' := mkPR base (allbase s) (va + t) ((nblocks t - 1) * bsize t) (nblocks t)).
  rewrite (kmstate_eq (set_allbase _ _) pg1 mem (pagerefs s).[p := x'] l' (sizebases s).[t := Some p] (Some p));
    [|reflexivity|reflexivity|simpl; by rewrite !updateZ_update|reflexivity..].
  rewrite Hnb in Hm. split; [done|].
  apply (km_inv_add s h al bl runs p (mkKP va t _) x' pg1 mem l' base); try done. by apply fresh_page_ok.
Qed.
End Inv.
