(* ===== verification/KmallocFree.v ===== *)
(** * The kernel heap: freeing

    The lemmas on subpage_kfree: finding the page of a block, putting the block
    on its free list, and taking a page that has become wholly free out of the
    heap. *)

From S2P Require Import Prelude Coremap PageAlloc Kmalloc KmallocInv.
#[local] Open Scope kern_scope.

Section Free.
Context {P : Type} {PA : PageAlloc P} {PS : PageAllocSpec P}.
Abbreviation kmstate := (kmstate P).

(** ** Taking a page out *)

Definition same_data (x x' : pageref) : Prop :=
  pageaddr_and_blocktype x' = pageaddr_and_blocktype x ∧ freelist_offset x' = freelist_offset x ∧ nfree x' = nfree x.

Lemma page_ok_data mem x x' k : same_data x x' → page_ok mem x k → page_ok mem x' k.
Proof. intros (H1 & H2 & H3) []. constructor; rewrite ?H1, ?H2, ?H3; done. Qed.

(** [prs'] differs from [prs] in links only, and in none that [keep] reads. *)
Definition relinked (keep : pageref → option Z) (prs prs' : list pageref) : Prop :=
  lengthZ prs' = lengthZ prs ∧
  ∀ q x, prs.[q] = Some x → ∃ x', prs'.[q] = Some x' ∧ same_data x x' ∧ keep x' = keep x.

Lemma relinked_refl keep prs : relinked keep prs prs.
Proof. split; [done|]. intros q x Hq. exists x. by repeat split. Qed.

Lemma relinked_update keep prs q y y' :
  prs.[q] = Some y → same_data y y' → keep y' = keep y → relinked keep prs prs.[q := y'].
Proof.
  intros Hq Hd Hk. pose proof (lookupZ_Some_range _ _ _ Hq). split; [apply lengthZ_update|]. intros r x Hr.
  rewrite lookupZ_update by done. case_decide; [subst r|exists x; by repeat split].
  exists y'. rewrite Hq in Hr. by injection Hr as <-.
Qed.

Lemma relinked_linked keep prs prs' b l : relinked keep prs prs' → linked prs keep b l → linked prs' keep b l.
Proof.
  intros [_ Hr]. apply linked_ext. intros q x _ Hq. destruct (Hr q x Hq) as (x' & ? & _ & ?). by exists x'.
Qed.

Lemma last_app_elem (l1 : list Z) q l : last l1 = Some q → q ∈ l1 ++ l.
Proof. intros Hq. apply elem_of_app. left. by apply last_Some_elem_of. Qed.

Lemma unlink_size_spec X (s : kmstate) base t l p :
  (sizebases s).[t] = Some base → linked (pagerefs s) next_samesize base l → NoDup l → p ∈ l →
  (length l < list_fuel)%nat →
  wpx X (unlink list_fuel next_samesize (store_samesize t) None base p)
    (λ _ s', ∃ prs' sb' b' l1 l2, l = l1 ++ p :: l2 ∧
       s' = mkKM (km_pages s) (kmem s) prs' (pagerefs_inuse s) sb' (allbase s) ∧
       relinked next_all (pagerefs s) prs' ∧ lengthZ sb' = lengthZ (sizebases s) ∧
       sb'.[t] = Some b' ∧ linked prs' next_samesize b' (l1 ++ l2) ∧
       (∀ u, u ≠ t → sb'.[u] = (sizebases s).[u]) ∧
       (∀ q, q ∉ l → prs'.[q] = (pagerefs s).[q])) (λ _ _, False) s.
Proof.
  intros Hb Hl Hnd Hp Hlen. eapply unlink_spec; [done..|]. intros l1 l2 x -> Hx. unfold before, store_samesize.
  pose proof (lookupZ_Some_range _ _ _ Hb) as Hbr.
  destruct (last l1) as [q|] eqn:Hlast.
  - pose proof (last_app_elem l1 q (p :: l2) Hlast) as Hq. destruct (linked_elem _ _ _ _ _ Hl Hq) as [y Hy].
    eapply wp_update_pr; [done|]. do 5 eexists. split; [done|]. split; [done|]. split; [by eapply relinked_update|].
    split; [done|]. split; [done|]. split; [|split; [done|]].
    + eapply (linked_remove _ _ _ base base l1 p x l2); try done. rewrite Hlast. split; [done|].
      by exists y, (set_next_samesize (next_samesize x) y).
    + intros r Hr. apply lookupZ_update_ne. congruence.
  - wp_step. do 5 eexists. split; [done|]. split; [done|]. split; [apply relinked_refl|].
    split; [apply lengthZ_update|]. split; [by apply lookupZ_update_eq|]. split; [|split; [|done]].
    + eapply (linked_remove _ _ _ base _ l1 p x l2); try done. by rewrite Hlast.
    + intros u Hu. apply lookupZ_update_ne. congruence.
Qed.

Lemma unlink_all_spec X (s : kmstate) l p :
  linked (pagerefs s) next_all (allbase s) l → NoDup l → p ∈ l → (length l < list_fuel)%nat →
  wpx X (unlink list_fuel next_all store_all None (allbase s) p)
    (λ _ s', ∃ prs' b' l1 l2, l = l1 ++ p :: l2 ∧
       s' = mkKM (km_pages s) (kmem s) prs' (pagerefs_inuse s) (sizebases s) b' ∧
       relinked next_samesize (pagerefs s) prs' ∧ linked prs' next_all b' (l1 ++ l2)) (λ _ _, False) s.
Proof.
  intros Hl Hnd Hp Hlen. eapply unlink_spec; [done..|]. intros l1 l2 x -> Hx. unfold before, store_all.
  destruct (last l1) as [q|] eqn:Hlast.
  - pose proof (last_app_elem l1 q (p :: l2) Hlast) as Hq. destruct (linked_elem _ _ _ _ _ Hl Hq) as [y Hy].
    eapply wp_update_pr; [done|]. do 4 eexists. split; [done|]. split; [done|]. split; [by eapply relinked_update|].
    eapply (linked_remove _ _ _ (allbase s) _ l1 p x l2); try done. rewrite Hlast. split; [done|].
    by exists y, (set_next_all (next_all x) y).
  - wp_step. do 4 eexists. split; [done|]. split; [done|]. split; [apply relinked_refl|].
    eapply (linked_remove _ _ _ (allbase s) _ l1 p x l2); try done. by rewrite Hlast.
Qed.

Lemma removed_elem (l1 l2 : list Z) p : NoDup (l1 ++ p :: l2) →
  NoDup (l1 ++ l2) ∧ ∀ q, q ∈ l1 ++ l2 ↔ q ∈ l1 ++ p :: l2 ∧ q ≠ p.
Proof.
  intros Hnd. rewrite <- Permutation_middle in Hnd. apply NoDup_cons in Hnd as [Hp Hnd]. split; [done|].
  intros q. rewrite <- Permutation_middle, elem_of_cons. split; [|naive_solver].
  intros Hq. split; [by right|]. by intros ->.
Qed.

(** The heap without [p]: its lists, its bitmap and the page allocator agree. *)
Lemma km_inv_remove s h al bl runs p k al1 al2 b1 b2 prs1 prs2 sb' b' ab' l' pg' :
  km_inv s h al bl runs → h !! p = Some k → al = al1 ++ p :: al2 → bl (kp_type k) = b1 ++ p :: b2 →
  relinked next_all (pagerefs s) prs1 → relinked next_samesize prs1 prs2 →
  lengthZ sb' = lengthZ (sizebases s) → sb'.[kp_type k] = Some b' → linked prs1 next_samesize b' (b1 ++ b2) →
  (∀ u, u ≠ kp_type k → sb'.[u] = (sizebases s).[u]) →
  (∀ q, q ∉ bl (kp_type k) → prs1.[q] = (pagerefs s).[q]) →
  linked prs2 next_all ab' (al1 ++ al2) → inuse_ok l' (delete p h) → kpages_rep pg' (delete (kp_va k) runs) →
  km_inv (mkKM pg' (kmem s) prs2 l' sb' ab') (delete p h) (al1 ++ al2)
    (λ t, if decide (t = kp_type k) then b1 ++ b2 else bl t) (delete (kp_va k) runs).
Proof.
  intros [I1 I2 I3 I4 I5 I6 I7 [I8 I8'] I9 I10] Hp Hal Hbl R1 R2 Hsl Hsb Hl1 Hsu Hkeep Hl2 Hiu Hpg.
  rewrite Hal in I8, I8'. destruct (removed_elem _ _ _ I8) as [Nd Ne]. constructor; simpl; try done.
  - rewrite (proj1 R2), (proj1 R1). done.
  - intros q c [Hne Hq]%lookup_delete_Some. destruct (I4 q c Hq) as (x & Hx & Hok).
    destruct (proj2 R1 q x Hx) as (x1 & Hx1 & D1 & _), (proj2 R2 q x1 Hx1) as (x2 & Hx2 & D2 & _).
    exists x2. split; [done|]. by eapply page_ok_data, page_ok_data.
  - intros q c [Hne Hq]%lookup_delete_Some. rewrite lookup_delete_ne; [by eapply I5|].
    intros Heq. by apply Hne, (I6 p q k c).
  - intros q r c c' [_ Hq]%lookup_delete_Some [_ Hr]%lookup_delete_Some. by eapply I6.
  - split; [done|]. intros q. rewrite Ne, I8', lookup_delete_is_Some. naive_solver.
  - congruence.
  - intros t Ht. destruct (I10 t Ht) as (b & Hb & Hl & Hnd & Hm). destruct (decide (t = kp_type k)) as [->|Hne].
    + rewrite Hbl in Hnd, Hm. destruct (removed_elem _ _ _ Hnd) as [Nd' Ne']. exists b'.
      split_and!; [done|by eapply relinked_linked|done|]. intros q. rewrite Ne', Hm. split.
      * intros [(c & Hc & Hct) Hqp]. exists c. by rewrite lookup_delete_ne.
      * intros (c & [Hqp Hc]%lookup_delete_Some & Hct). split; [by exists c|done].
    + exists b. rewrite Hsu by done. split_and!; [done| |done|].
      * eapply relinked_linked; [done|]. eapply linked_ext; [|done]. intros q x Hq Hx. exists x. split; [|done].
        rewrite Hkeep; [done|]. intros Hq'. apply Hm in Hq as (c & Hc & Hct).
        destruct (I10 (kp_type k)) as (_ & _ & _ & _ & Hm'); [destruct (I4 p k Hp) as (y & _ & Hy); apply Hy|].
        apply Hm' in Hq' as (c' & Hc' & Hct'). congruence.
      * intros q. rewrite Hm. split.
        { intros (c & Hc & Hct). exists c. rewrite lookup_delete_ne by congruence. done. }
        { intros (c & [_ Hc]%lookup_delete_Some & Hct). by exists c. }
Qed.

Lemma drop_page_spec X s h al bl runs p k :
  km_inv s h al bl runs → h !! p = Some k →
  wpx X (remove_lists p (kp_type k) ;; freepageref p ;; kpages (kpages_free (kp_va k)))
    (λ _ s', kmem s' = kmem s ∧ ∃ al' bl', km_inv s' (delete p h) al' bl' (delete (kp_va k) runs))
    (λ _ _, False) s.
Proof.
  intros Hinv Hp. destruct (ki_page _ _ _ _ _ Hinv p k Hp) as (x & _ & Hok). pose proof (pg_type _ _ _ Hok) as Ht.
  destruct (ki_size _ _ _ _ _ Hinv _ Ht) as (b & Hb & Hl & Hnd & Hm).
  destruct (ki_all_dom _ _ _ _ _ Hinv) as [And Am].
  unfold remove_lists. wp_step. wp_step. apply wp_kassert; [unfold NSIZES in *; lia|]. wp_steps. eapply wp_deref; [done|].
  wp_step. eapply wp_conseq; [apply (unlink_size_spec X s b (kp_type k) (bl (kp_type k)) p); try done| |done].
  { apply Hm. by exists k. } { eapply heap_list_short; [done..|]. intros q (c & Hc & _)%Hm. by exists c. }
  intros [] s1 (prs1 & sb' & b' & b1 & b2 & Hbl & -> & R1 & Hsl & Hsb & Hl1 & Hsu & Hkeep). wp_steps.
  eapply wp_conseq; [apply (unlink_all_spec X _ al p); try done| |done].
  { eapply relinked_linked; [done|]. apply Hinv. } { apply Am. by exists k. }
  { eapply heap_list_short; [done..|]. intros q. by rewrite Am. }
  intros [] s2 (prs2 & ab' & a1 & a2 & Hal & -> & R2 & Hl2). simpl.
  wp_step. eapply wp_conseq; [apply (freepageref_spec X _ h p k); [apply Hinv|done]| |done].
  intros [] s3 (l' & -> & Hiu). apply wp_kpages.
  eapply wp_conseq; [apply (kpages_free_spec X _ runs (kp_va k) 1); [apply Hinv|by eapply ki_runs]| |done].
  intros [] pg' Hpg. split; [done|]. do 2 eexists. by eapply (km_inv_remove s h al bl runs).
Qed.

(** ** Freeing a block *)

Lemma find_owner_spec X s h al bl runs ptr fuel cur l :
  km_inv s h al bl runs → linked (pagerefs s) next_all cur l → (length l < fuel)%nat →
  (∀ p, p ∈ l → is_Some (h !! p)) →
  wpx X (find_owner fuel ptr cur)
    (λ r s', s' = s ∧ match r with
       | Some p => ∃ k, h !! p = Some k ∧ kp_va k ≤ ptr < kp_va k + PAGE_SIZE
       | None => ∀ p k, p ∈ l → h !! p = Some k → ¬ (kp_va k ≤ ptr < kp_va k + PAGE_SIZE)
       end) (λ _ _, False) s.
Proof.
  intros Hinv. revert cur l. induction fuel as [|fuel IH]; intros cur l Hl Hlen Hin; [lia|].
  cbn [find_owner]. destruct l as [|p l]; simpl in Hl.
  { subst cur. wp_step. split; [done|]. intros p k Hp. by apply not_elem_of_nil in Hp. }
  destruct Hl as [-> (x & Hx & Hl)]. destruct (Hin p) as (k & Hk); [by left|].
  destruct (ki_page _ _ _ _ _ Hinv p k Hk) as (x' & Hx' & Hok). rewrite Hx in Hx'. injection Hx' as <-.
  destruct (page_ok_fields _ _ _ Hok) as [Hpa Hbt]. destruct (pg_va _ _ _ Hok) as (_ & Hlo & Hhi).
  pose proof (pg_type _ _ _ Hok). unfold NSIZES, MIPS_KSEG0 in *.
  wp_step. eapply wp_read_pr; [done|]. rewrite Hpa, Hbt, (u32_small (kp_va k + _)) by (unfold PAGE_SIZE in *; lia).
  wp_step. apply wp_kassert; [lia|]. destruct (_ && _) eqn:E.
  - wp_step. split; [done|]. exists k. split; [done|lia].
  - eapply wp_conseq; [apply (IH _ l Hl); [simpl in Hlen; lia|intros q Hq; apply Hin; by right]| |done].
    intros [q|] s' [-> Hr]; split; try done. intros q c [->|Hq]%elem_of_cons Hc; [|by eapply Hr].
    rewrite Hk in Hc. injection Hc as <-. lia.
Qed.

Lemma fill_deadbeef_spec X (s : kmstate) ptr len :
  0 ≤ ptr → 0 ≤ len → ptr + len ≤ 2 ^ 32 →
  wpx X (fill_deadbeef ptr len)
    (λ _ s', ∃ mem, s' = set_kmem (λ _, mem) s ∧ ∀ a, ¬ (ptr ≤ a < ptr + len) → mem a = kmem s a) (λ _ _, False) s.
Proof.
  intros Hp Hl Hmax. pose proof (Z.mul_div_le len 4 ltac:(lia)). unfold fill_deadbeef.
  apply (wp_for (λ i s', ∃ mem, s' = set_kmem (λ _, mem) s ∧ ∀ a, ¬ (ptr ≤ a < ptr + len) → mem a = kmem s a));
    [apply Z.div_pos; lia| | |done].
  - exists (kmem s). split; [by destruct s|done].
  - intros i s' Hi (mem & -> & Hm). unfold write_word. rewrite u32_small by lia. wp_step.
    eexists. split; [reflexivity|]. intros a Ha. simpl. rewrite decide_False by lia. by apply Hm.
Qed.

(** A block of page [p] goes onto its free list. *)
Lemma put_block_spec X s h al bl runs p k o mem1 :
  km_inv s h al bl runs → h !! p = Some k → block_off (kp_type k) o → o ∉ kp_free k →
  (∀ a, ¬ (kp_va k + o ≤ a < kp_va k + o + bsize (kp_type k)) → mem1 a = kmem s a) →
  wpx X (put_block p (kp_va k) o)
    (λ _ s', km_inv s' (<[p := mkKP (kp_va k) (kp_type k) (o :: kp_free k)]> h) al bl runs ∧
       (∀ x, (pagerefs s').[p] = Some x → nfree x = lengthZ (kp_free k) + 1) ∧
       ∀ a, ¬ (kp_va k + o ≤ a < kp_va k + o + bsize (kp_type k)) → kmem s' a = kmem s a)
    (λ _ _, False) (set_kmem (λ _, mem1) s).
Proof.
  intros Hinv Hp Ho Hno Hm1. destruct (ki_page _ _ _ _ _ Hinv p k Hp) as (x & Hx & Hok).
  pose proof (lookupZ_Some_range _ _ _ Hx) as Hr. destruct (Hok) as [Ht (Hal & Hlo & Hhi) Hpab Hnd Hoff Hn Hh Hc].
  destruct (bsize_facts _ Ht) as (_ & _ & _ & Hb & Hnb & _). pose proof (block_off_fits _ _ Ht Ho) as Hfit.
  destruct (Ho) as [Hor _]. destruct (free_bound _ _ Ht Hnd Hoff) as [Hlen _].
  unfold MIPS_KSEG0, PAGE_SIZE in *. pose proof (lengthZ_nonneg (kp_free k)).
  set (fo := freelist_offset x). set (nx := if fo =? INVALID_OFFSET then 0 else u32 (kp_va k + fo)).
  assert (nx = match kp_free k with [] => 0 | o' :: _ => kp_va k + o' end) as Hnx.
  { unfold nx, fo. rewrite Hh. destruct (kp_free k) as [|o' l]; [done|]. destruct (Hoff o') as [Ho' _]; [by left|].
    unfold INVALID_OFFSET, PAGE_SIZE in *. destruct (Z.eqb_spec o' 0xffff); [lia|]. apply u32_small. lia. }
  unfold put_block, write_word. wp_step. eapply wp_read_pr; [done|]. fold fo nx. wp_steps.
  rewrite (u32_small (kp_va k + o)) by lia. eapply wp_update_pr; [done|]. wp_steps.
  eapply wp_update_pr; [by apply lookupZ_update_eq|]. unfold u16. rewrite Hn, !Z.mod_small by lia.
  unfold set_pagerefs, set_kmem. simpl. rewrite updateZ_update. split_and!.
  - eapply (km_inv_update s h al bl runs p k _ x); try done.
    + constructor; simpl; try done.
      * by apply NoDup_cons.
      * intros q [->|Hq]%elem_of_cons; [done|by apply Hoff].
      * rewrite lengthZ_cons. lia.
      * rewrite decide_True by done. split; [done|]. eapply chain_ext; [|done]. intros q Hq.
        assert (q ≠ o) as Hqo by congruence. rewrite decide_False by lia. apply Hm1.
        destruct (block_off_apart _ _ _ Ht Ho (Hoff q Hq)); [done|lia..].
    + intros a Ha. unfold PAGE_SIZE in Ha. rewrite decide_False by lia. apply Hm1. lia.
  - intros y Hy. rewrite lookupZ_update_eq in Hy by done. by injection Hy as <-.
  - intros a Ha. rewrite decide_False by lia. by apply Hm1.
Qed.
End Free.
