(* ===== verification/KmallocProps.v ===== *)
(** * The kernel heap: the properties

    kmalloc and kfree against the set of live blocks, for any page allocator
    that keeps its promise and then for the coremap. *)

From S2P Require Import Prelude Coremap PageAlloc Kmalloc KmallocInv KmallocFree.
#[local] Open Scope kern_scope.

Section Live.
Context {P : Type} {PA : PageAlloc P} {PS : PageAllocSpec P}.
Abbreviation kmstate := (kmstate P).
Implicit Types (s : kmstate) (h : gmap Z kpage) (runs : gmap Z Z).

(** ** Live blocks *)

Lemma page_live_range (k : kpage) a n : 0 ≤ kp_type k < NSIZES → page_live k a n →
  kp_va k ≤ a ∧ a + n ≤ kp_va k + PAGE_SIZE ∧ 0 < n.
Proof.
  intros Ht (o & Ho & _ & -> & ->). pose proof (block_off_fits _ _ Ht Ho). destruct Ho.
  destruct (bsize_facts _ Ht) as (_ & _ & _ & ? & _). lia.
Qed.

(** Every live block lies in one run of pages: [va], of [m] pages. *)
Lemma live_home s h al bl runs a n : km_inv s h al bl runs → live h runs a n →
  0 < n ∧ ∃ va m, runs !! va = Some m ∧ va ≤ a ∧ a + n ≤ va + m * PAGE_SIZE ∧
    ((∃ p k, h !! p = Some k ∧ page_live k a n ∧ va = kp_va k) ∨ (va = a ∧ ∀ p k, h !! p = Some k → kp_va k ≠ a)).
Proof.
  intros Hinv [(p & k & Hp & Hl)|(m & Hm & -> & Hno)].
  - destruct (ki_page _ _ _ _ _ Hinv p k Hp) as (x & _ & Hok).
    destruct (page_live_range k a n (pg_type _ _ _ Hok) Hl) as (? & ? & ?). split; [done|].
    exists (kp_va k), 1. split; [by eapply ki_runs|]. split_and!; [done|lia|]. left. by exists p, k.
  - destruct (kpages_range _ _ a m (ki_pages _ _ _ _ _ Hinv) Hm) as (? & _). split; [unfold PAGE_SIZE; lia|].
    exists a, m. split_and!; [done|lia|lia|]. by right.
Qed.

Lemma live_disjoint s h al bl runs a n b m :
  km_inv s h al bl runs → live h runs a n → live h runs b m → a ≠ b → a + n ≤ b ∨ b + m ≤ a.
Proof.
  intros Hinv Ha Hb Hne.
  destruct (live_home _ _ _ _ _ _ _ Hinv Ha) as (Hn & va & i & Hi & ? & ? & Ka).
  destruct (live_home _ _ _ _ _ _ _ Hinv Hb) as (Hm & vb & j & Hj & ? & ? & Kb).
  destruct (decide (va = vb)) as [<-|Hv].
  - destruct Ka as [(p & k & Hp & La & ->)|[-> Hnok]].
    + destruct Kb as [(q & c & Hq & Lb & Heq)|[Heq Hnok]]; [|by destruct (Hnok p k Hp)].
      assert (p = q) as <- by (by eapply (ki_inj _ _ _ _ _ Hinv)). assert (k = c) as <- by congruence.
      destruct (ki_page _ _ _ _ _ Hinv p k Hp) as (x & _ & Hok).
      destruct La as (o & Ho & _ & -> & ->), Lb as (o' & Ho' & _ & -> & ->).
      destruct (block_off_apart _ _ _ (pg_type _ _ _ Hok) Ho Ho'); [congruence|lia..].
    + destruct Kb as [(q & c & Hq & Lb & Heq)|[-> _]]; [by destruct (Hnok q c Hq)|done].
  - destruct (kpages_disjoint _ _ va i vb j (ki_pages _ _ _ _ _ Hinv) Hi Hj Hv); lia.
Qed.

(** A page whose free list changes. *)
Lemma live_change h runs p k k' a n : h !! p = Some k → kp_va k' = kp_va k →
  live (<[p := k']> h) runs a n ↔
  page_live k' a n ∨ (∃ q c, h !! q = Some c ∧ q ≠ p ∧ page_live c a n) ∨
  (∃ m, runs !! a = Some m ∧ n = m * PAGE_SIZE ∧ ∀ q c, h !! q = Some c → kp_va c ≠ a).
Proof.
  intros Hp Hva. unfold live. split.
  - intros [(q & c & [[<- <-]|[Hne Hq]]%lookup_insert_Some & Hl)|(m & Hm & -> & Hno)]; [by left|by right; left; eauto|].
    right. right. exists m. split_and!; [done..|]. intros q c Hq. destruct (decide (q = p)) as [->|].
    + rewrite Hp in Hq. injection Hq as <-. rewrite <- Hva. apply (Hno p). apply lookup_insert_eq.
    + apply (Hno q). by rewrite lookup_insert_ne.
  - intros [Hl|[(q & c & Hq & Hne & Hl)|(m & Hm & -> & Hno)]].
    + left. exists p, k'. by rewrite lookup_insert_eq.
    + left. exists q, c. by rewrite lookup_insert_ne.
    + right. exists m. split_and!; [done..|]. intros q c [[<- <-]|[_ Hq]]%lookup_insert_Some; [rewrite Hva|]; by eapply Hno.
Qed.

Lemma live_split h runs p k a n : h !! p = Some k →
  live h runs a n ↔ page_live k a n ∨ (∃ q c, h !! q = Some c ∧ q ≠ p ∧ page_live c a n) ∨
  (∃ m, runs !! a = Some m ∧ n = m * PAGE_SIZE ∧ ∀ q c, h !! q = Some c → kp_va c ≠ a).
Proof. intros Hp. rewrite <- (live_change h runs p k k) by done. by rewrite insert_id. Qed.

(** Taking a block off the free list makes it live; *)
Lemma live_take h runs p k o l a n : h !! p = Some k → kp_free k = o :: l → o ∉ l → block_off (kp_type k) o →
  live (<[p := mkKP (kp_va k) (kp_type k) l]> h) runs a n ↔
  live h runs a n ∨ (a = kp_va k + o ∧ n = bsize (kp_type k)).
Proof.
  intros Hp Hf Hol Ho. rewrite (live_change h runs p k) by done.
  rewrite (live_split h runs p k) by done.
  assert (page_live (mkKP (kp_va k) (kp_type k) l) a n ↔ page_live k a n ∨ (a = kp_va k + o ∧ n = bsize (kp_type k))) as ->.
  { unfold page_live. simpl. rewrite Hf. split.
    - intros (o' & Ho' & Hno & -> & ->). destruct (decide (o' = o)) as [->|]; [by right|left].
      exists o'. split_and!; try done. by apply not_elem_of_cons.
    - intros [(o' & Ho' & [_ Hno]%not_elem_of_cons & -> & ->)|[-> ->]]; [by exists o'|by exists o]. }
  naive_solver.
Qed.

(** (an address in page [p] is a block of no other page and of no other run) *)
Lemma not_elsewhere s h al bl runs p k o n : km_inv s h al bl runs → h !! p = Some k → 0 ≤ o < PAGE_SIZE →
  ¬ ((∃ q c, h !! q = Some c ∧ q ≠ p ∧ page_live c (kp_va k + o) n) ∨
     (∃ m, runs !! (kp_va k + o) = Some m ∧ n = m * PAGE_SIZE ∧ ∀ q c, h !! q = Some c → kp_va c ≠ kp_va k + o)).
Proof.
  intros Hinv Hp Ho [(q & c & Hq & Hqp & Hl)|(m & Hm & _ & Hnok)].
  - destruct (ki_page _ _ _ _ _ Hinv q c Hq) as (x & _ & Hokq).
    destruct (page_live_range c _ _ (pg_type _ _ _ Hokq) Hl) as (? & ? & ?).
    apply (heap_pages_apart s h al bl runs q p c k (kp_va k + o) Hinv Hq Hp Hqp); lia.
  - destruct (kpages_range _ _ _ _ (ki_pages _ _ _ _ _ Hinv) Hm) as (? & _). pose proof (Hnok p k Hp).
    destruct (kpages_disjoint _ _ (kp_va k) 1 (kp_va k + o) m (ki_pages _ _ _ _ _ Hinv)
      (ki_runs _ _ _ _ _ Hinv p k Hp) Hm ltac:(done)); unfold PAGE_SIZE in *; lia.
Qed.

Lemma free_not_live s h al bl runs p k o n : km_inv s h al bl runs → h !! p = Some k → o ∈ kp_free k →
  ¬ live h runs (kp_va k + o) n.
Proof.
  intros Hinv Hp Ho. destruct (ki_page _ _ _ _ _ Hinv p k Hp) as (x & _ & Hok).
  rewrite (live_split h runs p k) by done. intros [(o' & _ & Hno & Heq & _)|Helse].
  - assert (o' = o) as -> by lia. done.
  - eapply not_elsewhere; [done..| |exact Helse]. by apply (pg_offs _ _ _ Hok).
Qed.

(** putting it back makes it dead; *)
Lemma live_put s h al bl runs p k o a n : km_inv s h al bl runs → h !! p = Some k → block_off (kp_type k) o → o ∉ kp_free k →
  live (<[p := mkKP (kp_va k) (kp_type k) (o :: kp_free k)]> h) runs a n ↔
  live h runs a n ∧ a ≠ kp_va k + o.
Proof.
  intros Hinv Hp Ho Hno.
  rewrite (live_change h runs p k) by done.
  assert (page_live (mkKP (kp_va k) (kp_type k) (o :: kp_free k)) a n ↔ page_live k a n ∧ a ≠ kp_va k + o) as ->.
  { unfold page_live. simpl. split.
    - intros (o' & Ho' & [Hne Hno']%not_elem_of_cons & -> & ->). split; [by exists o'|lia].
    - intros [(o' & Ho' & Hno' & -> & ->) Hne]. exists o'. split_and!; try done. apply not_elem_of_cons. split; [|done].
      intros ->. done. }
  rewrite (live_split h runs p k) by done. split; [|naive_solver].
  intros [[Hl Hne]|Helse]; (split; [naive_solver|]); intros ->; [done|].
  eapply not_elsewhere; [done..| |exact Helse]. apply Ho.
Qed.

(** and a page without live blocks comes and goes unnoticed. *)
Lemma live_add h runs p k a n : h !! p = None → runs !! kp_va k = None → (∀ a n, ¬ page_live k a n) →
  live (<[p := k]> h) (<[kp_va k := 1]> runs) a n ↔ live h runs a n.
Proof.
  intros Hp Hva Hno. unfold live. split.
  - intros [(q & c & [[<- <-]|[_ Hq]]%lookup_insert_Some & Hl)|(m & Hm & -> & Hnok)].
    + by apply Hno in Hl.
    + left. by exists q, c.
    + right. exists m. pose proof (Hnok p k (lookup_insert_eq _ _ _)). rewrite lookup_insert_ne in Hm by done.
      split_and!; [done..|]. intros q c Hq. apply (Hnok q). rewrite lookup_insert_ne; [done|congruence].
  - intros [(q & c & Hq & Hl)|(m & Hm & -> & Hnok)].
    + left. exists q, c. rewrite lookup_insert_ne; [done|congruence].
    + right. exists m. assert (kp_va k ≠ a) by congruence. rewrite lookup_insert_ne by done. split_and!; [done..|].
      intros q c [[<- <-]|[_ Hq]]%lookup_insert_Some; [done|by eapply Hnok].
Qed.

Lemma live_drop h runs p k a n : h !! p = Some k → runs !! kp_va k = Some 1 → (∀ a n, ¬ page_live k a n) →
  live (delete p h) (delete (kp_va k) runs) a n ↔ live h runs a n.
Proof.
  intros Hp Hva Hno. rewrite <- (live_add (delete p h) (delete (kp_va k) runs) p k) by (done || apply lookup_delete_eq).
  by rewrite !insert_delete_id.
Qed.

(** ** The heap as its clients see it *)

(** The blocks handed out are exactly [L], by address and length. *)
Definition heap (s : kmstate) (L : Z → Z → Prop) : Prop :=
  ∃ h al bl runs, km_inv s h al bl runs ∧ km_partial h ∧ ∀ a n, L a n ↔ live h runs a n.

(** The contents of the blocks in [L] are as they were. *)
Definition kept (L : Z → Z → Prop) (mem mem' : Z → Z) : Prop :=
  ∀ a n w, L a n → a ≤ w < a + n → mem' w = mem w.

Lemma blocktype_spec X sz s :
  0 ≤ sz ≤ LARGEST_SUBPAGE_SIZE →
  wpx X (blocktype sz) (λ t s', s' = s ∧ 0 ≤ t < NSIZES ∧ sz ≤ bsize t) (λ _ _, False) s.
Proof.
  intros Hsz. unfold blocktype, sizes, LARGEST_SUBPAGE_SIZE in *. simpl.
  repeat (match goal with |- context [sz <=? ?k] => destruct (Z.leb_spec sz k) end;
    [split; [done|]; unfold NSIZES, bsize; simpl; lia|]). lia.
Qed.

Lemma aligned_block k o : 0 ≤ kp_type k < NSIZES → kp_va k mod PAGE_SIZE = 0 → block_off (kp_type k) o →
  (kp_va k + o) mod 16 = 0.
Proof.
  intros Ht Hva [_ Ho]. destruct (bsize_facts _ Ht) as (_ & _ & _ & Hb & _ & H16). unfold PAGE_SIZE in Hva.
  apply Z.mod_divide in Ho, Hva, H16; [|lia..]. apply Z.mod_divide; [lia|].
  apply Z.divide_add_r; [|by etransitivity]. etransitivity; [|done]. by exists 256.
Qed.

(** Handing out the first free block of a page. *)
Lemma take_block X s h al bl runs (L : Z → Z → Prop) p k o l sz :
  km_inv s h al bl runs → (∀ q c, q ≠ p → h !! q = Some c → lengthZ (kp_free c) < nblocks (kp_type c)) →
  (∀ a n, L a n ↔ live h runs a n) → h !! p = Some k → kp_free k = o :: l → sz ≤ bsize (kp_type k) →
  wpx X (doalloc p)
    (λ a s', kmem s' = kmem s ∧ a ≠ 0 ∧ a mod 16 = 0 ∧ ∃ n, sz ≤ n ∧
       (∀ b m, L b m → a + n ≤ b ∨ b + m ≤ a) ∧ heap s' (λ b m, L b m ∨ (b = a ∧ m = n))) (λ _ _, False) s.
Proof.
  intros Hinv Hpart HL Hp Hf Hsz. destruct (ki_page _ _ _ _ _ Hinv p k Hp) as (x & _ & Hok).
  destruct (Hok) as [Ht (Hal & Hlo & Hhi) _ Hnd Hoff _ _ _]. rewrite Hf in Hnd, Hoff.
  pose proof (Hoff o ltac:(by left)) as Ho. apply NoDup_cons in Hnd as [Hol Hnd].
  eapply wp_conseq; [by apply (doalloc_spec X s h al bl runs p k o l)| |done].
  intros a s' (-> & Hmem & Hinv'). destruct (Ho) as [Hor _]. split; [done|].
  split; [unfold MIPS_KSEG0 in *; lia|]. split; [by apply aligned_block|].
  exists (bsize (kp_type k)). split; [done|].
  assert (∀ b m, L b m ∨ (b = kp_va k + o ∧ m = bsize (kp_type k)) ↔
    live (<[p := mkKP (kp_va k) (kp_type k) l]> h) runs b m) as HL'.
  { intros b m. rewrite HL. symmetry. by apply live_take. }
  split.
  - intros b m Hb. apply (live_disjoint _ _ _ _ _ (kp_va k + o) (bsize (kp_type k)) b m Hinv'); [apply HL'; auto..|].
    intros <-. rewrite HL in Hb. refine (free_not_live s h al bl runs p k o m Hinv Hp _ Hb). rewrite Hf. by left.
  - exists (<[p := mkKP (kp_va k) (kp_type k) l]> h), al, bl, runs. split_and!; [done| |done].
    intros q c [[<- <-]|[Hne Hq]]%lookup_insert_Some; [|by eapply Hpart]. simpl.
    apply (free_bound (kp_type k) l); [done|done|intros r Hr; apply Hoff; by right|]. by exists o.
Qed.

Lemma fresh_no_live k t : 0 ≤ t < NSIZES → kp_type k = t → kp_free k = countdown (Z.to_nat (nblocks t)) (bsize t) →
  ∀ a n, ¬ page_live k a n.
Proof.
  intros Ht Htk Hf a n (o & [Ho Hm] & Hno & _). destruct (bsize_facts t Ht) as (_ & _ & Hnb & Hb & Hn & _).
  apply Hno. rewrite Hf. apply elem_of_countdown. rewrite Htk in *. exists (o / bsize t).
  pose proof (Z.div_mod o (bsize t) ltac:(lia)) as Hd. rewrite Hm in Hd. split; [nia|lia].
Qed.

Definition kmalloc_post (s : kmstate) (L : Z → Z → Prop) (sz a : Z) (s' : kmstate) : Prop :=
  kept L (kmem s) (kmem s') ∧
  if decide (a = 0) then heap s' L
  else a mod 16 = 0 ∧ ∃ n, sz ≤ n ∧ (∀ b m, L b m → a + n ≤ b ∨ b + m ≤ a) ∧ heap s' (λ b m, L b m ∨ (b = a ∧ m = n)).

Lemma subpage_kmalloc_spec X s L sz :
  heap s L → 0 ≤ sz < LARGEST_SUBPAGE_SIZE → wpx X (subpage_kmalloc sz) (kmalloc_post s L sz) (λ _ _, False) s.
Proof.
  intros (h & al & bl & runs & Hinv & Hpart & HL) Hsz. unfold subpage_kmalloc.
  wp_step. eapply wp_conseq; [apply blocktype_spec; lia| |done]. intros t s0 (-> & Ht & Hszt).
  destruct (ki_size _ _ _ _ _ Hinv t Ht) as (b & Hb & Hl & Hnd & Hm). wp_steps. eapply wp_deref; [done|].
  wp_step. eapply wp_conseq; [apply (find_page_spec X s h al bl runs t list_fuel b (bl t)); try done| |done].
  { eapply heap_list_short; [done..|]. intros q (c & Hc & _)%Hm. by exists c. } { intros q. apply Hm. }
  intros [p|] s0 [-> Hp].
  - destruct Hp as (k & o & l & Hk & <- & Hf).
    eapply wp_conseq; [apply (take_block X s h al bl runs L p k o l sz); try done; intros q c _; apply Hpart| |done].
    intros a s' (Hmem & Ha0 & Ha & n & Hn & Hd & Hh). split; [intros ???; by rewrite Hmem|].
    rewrite decide_False by done. split; [done|]. by exists n.
  - wp_step. eapply wp_conseq; [by apply (new_page_spec X s h al bl runs t)| |done]. intros [p|] s1 Hnew.
    2: { destruct Hnew as [Hmem Hinv1]. wp_step. split; [intros ???; by rewrite Hmem|]. simpl. by exists h, al, bl, runs. }
    destruct Hnew as (Hpn & va & Hva & Hsame & Hinv1). set (k := mkKP va t _) in Hinv1.
    destruct (bsize_facts t Ht) as (_ & _ & _ & _ & Hnb & _).
    assert (∃ o l, kp_free k = o :: l) as (o & l & Hf).
    { simpl. destruct (Z.to_nat (nblocks t)) as [|m] eqn:E; [lia|]. cbn [countdown]. by eexists _, _. }
    assert (∀ a n, L a n ↔ live (<[p := k]> h) (<[va := 1]> runs) a n) as HL1.
    { intros a n. rewrite HL. symmetry. apply live_add; [done..|]. by apply (fresh_no_live k t). }
    assert (kept L (kmem s) (kmem s1)) as Hkept.
    { intros a n w HLa Hw. apply Hsame. intros Hin. apply HL in HLa.
      destruct (live_home _ _ _ _ _ _ _ Hinv HLa) as (_ & vb & m & Hvb & ? & ? & _).
      destruct (kpages_disjoint _ _ va 1 vb m (ki_pages _ _ _ _ _ Hinv1)); [apply lookup_insert_eq| |congruence|lia..].
      rewrite lookup_insert_ne by congruence. done. }
    eapply wp_conseq; [apply (take_block X s1 _ _ _ _ L p k o l sz Hinv1); try done| |done].
    { intros q c Hq [[? _]|[_ Hc]]%lookup_insert_Some; [done|by eapply Hpart]. } { apply lookup_insert_eq. }
    intros a s' (Hmem & Ha0 & Ha & n & Hn & Hd & Hh). split; [intros ???; by rewrite Hmem; apply Hkept|].
    rewrite decide_False by done. split; [done|]. by exists n.
Qed.

(** ** Whole pages *)

Lemma live_run h runs a m b n : runs !! a = None → (∀ p k, h !! p = Some k → kp_va k ≠ a) →
  live h (<[a := m]> runs) b n ↔ live h runs b n ∨ (b = a ∧ n = m * PAGE_SIZE).
Proof.
  intros Ha Hno. unfold live. split.
  - intros [Hl|(i & [[<- <-]|[Hne Hi]]%lookup_insert_Some & -> & Hnok)]; [by left; left|by right|].
    left. right. by exists i.
  - intros [[Hl|(i & Hi & -> & Hnok)]|[-> ->]]; [by left| |].
    + right. exists i. rewrite lookup_insert_ne by congruence. done.
    + right. exists m. by rewrite lookup_insert_eq.
Qed.

Lemma km_inv_runs s h al bl runs runs' pg' :
  km_inv s h al bl runs → kpages_rep pg' runs' → (∀ p k, h !! p = Some k → runs' !! kp_va k = Some 1) →
  km_inv (set_km_pages pg' s) h al bl runs'.
Proof. intros [] ??. by constructor. Qed.

Lemma kmalloc_spec X s L sz :
  heap s L → 0 ≤ sz ≤ 2 ^ 32 - PAGE_SIZE → wpx X (kmalloc sz) (kmalloc_post s L sz) (λ _ _, False) s.
Proof.
  intros Hheap Hsz. unfold kmalloc. destruct (Z.leb_spec LARGEST_SUBPAGE_SIZE sz) as [Hbig|Hsmall].
  2: { apply subpage_kmalloc_spec; [done|]. lia. }
  destruct (Hheap) as (h & al & bl & runs & Hinv & Hpart & HL).
  unfold LARGEST_SUBPAGE_SIZE, PAGE_SIZE in *. rewrite u32_small by lia. set (n := (sz + 4096 - 1) / 4096).
  assert (0 < n < 2 ^ 31 ∧ sz ≤ n * 4096) as [Hn Hszn].
  { pose proof (Z.div_mod (sz + 4096 - 1) 4096). pose proof (Z.mod_pos_bound (sz + 4096 - 1) 4096). unfold n. lia. }
  wp_step. apply wp_kpages. eapply wp_conseq; [apply (kpages_alloc_spec X _ runs n); [apply Hinv|done]| |done].
  intros a pg' Ha. simpl in Ha. unfold kmalloc_post. destruct (Z.eqb_spec a 0) as [->|Ha0].
  { rewrite decide_True in Ha by done. wp_step. split; [done|]. rewrite decide_True by done.
    exists h, al, bl, runs. split; [by apply km_inv_pages|done]. }
  rewrite decide_False in Ha by done. destruct Ha as [Hnone Hrep]. wp_step. split; [done|].
  assert (∀ p k, h !! p = Some k → runs !! kp_va k = Some 1) as Hruns by apply Hinv.
  assert (∀ p k, h !! p = Some k → kp_va k ≠ a) as Hno by (intros p k Hp; pose proof (Hruns p k Hp); congruence).
  assert (km_inv (set_km_pages pg' s) h al bl (<[a := n]> runs)) as Hinv'.
  { apply (km_inv_runs _ _ _ _ runs); [done..|]. intros p k Hp. rewrite lookup_insert_ne by (pose proof (Hno p k Hp); done). by eapply Hruns. }
  destruct (kpages_range _ _ a n Hrep (lookup_insert_eq _ _ _)) as (_ & Hal & _ & _).
  rewrite decide_False by done. split.
  { apply Z.mod_divide in Hal; [|done]. apply Z.mod_divide; [lia|]. etransitivity; [|done]. by exists 256. }
  assert (∀ b m, L b m ∨ (b = a ∧ m = n * 4096) ↔ live h (<[a := n]> runs) b m) as HL'.
  { intros b m. rewrite HL. symmetry. by apply live_run. }
  exists (n * 4096). split; [done|]. split.
  - intros b m Hb. apply (live_disjoint _ _ _ _ _ a (n * 4096) b m Hinv'); [apply HL'; auto..|]. intros <-.
    apply HL in Hb as [(p & k & Hp & Hl)|(m' & Hm' & _)]; [|congruence].
    destruct (ki_page _ _ _ _ _ Hinv p k Hp) as (x & _ & Hok).
    destruct (page_live_range k a m (pg_type _ _ _ Hok) Hl) as (? & ? & ?).
    destruct (kpages_disjoint _ _ (kp_va k) 1 a n Hrep); [|apply lookup_insert_eq|by eapply Hno|unfold PAGE_SIZE in *; lia..].
    rewrite lookup_insert_ne by (pose proof (Hno p k Hp); done). by eapply Hruns.
  - by exists h, al, bl, (<[a := n]> runs).
Qed.

(** ** kfree *)

Definition kfree_post (s : kmstate) (L : Z → Z → Prop) (a : Z) (s' : kmstate) : Prop :=
  heap s' (λ b m, L b m ∧ b ≠ a) ∧ kept (λ b m, L b m ∧ b ≠ a) (kmem s) (kmem s').

(** Once a block is on the free list, its page is given up if it is wholly free. *)
Lemma settle_page X s h al bl runs (L : Z → Z → Prop) p k (full : bool) :
  km_inv s h al bl runs → (∀ q c, q ≠ p → h !! q = Some c → lengthZ (kp_free c) < nblocks (kp_type c)) →
  (∀ a n, L a n ↔ live h runs a n) → h !! p = Some k → full = (lengthZ (kp_free k) =? nblocks (kp_type k)) →
  wpx X (if full then remove_lists p (kp_type k) ;; freepageref p ;; kpages (kpages_free (kp_va k)) else ret tt)
    (λ _ s', kmem s' = kmem s ∧ heap s' L) (λ _ _, False) s.
Proof.
  intros Hinv Hpart HL Hp Hfull. destruct (ki_page _ _ _ _ _ Hinv p k Hp) as (x & _ & Hok).
  destruct (free_bound _ _ (pg_type _ _ _ Hok) (pg_nodup _ _ _ Hok) (pg_offs _ _ _ Hok)) as (Hle & Hall & _).
  destruct full.
  - eapply wp_conseq; [by apply (drop_page_spec X s h al bl runs p k)| |done].
    intros [] s' (Hmem & al' & bl' & Hinv'). split; [done|]. exists (delete p h), al', bl', (delete (kp_va k) runs).
    split_and!; [done|intros q c [? Hq]%lookup_delete_Some; by eapply Hpart|].
    intros a n. rewrite HL. symmetry. apply live_drop; [done|by eapply ki_runs|].
    intros b m (o & Ho & Hno & _). apply Hno, Hall; [lia|done].
  - wp_step. split; [done|]. exists h, al, bl, runs. split_and!; [done| |done]. intros q c Hq.
    destruct (decide (q = p)) as [->|]; [|by eapply Hpart]. rewrite Hp in Hq. injection Hq as <-. lia.
Qed.

Lemma subpage_kfree_live X s h al bl runs (L : Z → Z → Prop) p k o :
  km_inv s h al bl runs → km_partial h → (∀ a n, L a n ↔ live h runs a n) →
  h !! p = Some k → block_off (kp_type k) o → o ∉ kp_free k →
  wpx X (subpage_kfree (kp_va k + o)) (λ r s', r = true ∧ kfree_post s L (kp_va k + o) s') (λ _ _, False) s.
Proof.
  intros Hinv Hpart HL Hp Ho Hno. destruct (ki_page _ _ _ _ _ Hinv p k Hp) as (x & Hx & Hok).
  destruct (page_ok_fields _ _ _ Hok) as [Hpa Hbt]. destruct (Hok) as [Ht (Hal & Hlo & Hhi) _ _ _ _ _ _].
  destruct (bsize_facts _ Ht) as (Hsz & Hdiv & _ & Hb & Hnb & _). destruct (ki_all_dom _ _ _ _ _ Hinv) as [And Am].
  destruct (Ho) as [Hor Hom]. pose proof (block_off_fits _ _ Ht Ho) as Hfit. unfold MIPS_KSEG0 in *.
  unfold subpage_kfree. wp_steps.
  eapply wp_conseq; [apply (find_owner_spec X s h al bl runs (kp_va k + o) list_fuel (allbase s) al Hinv (ki_all _ _ _ _ _ Hinv))| |done].
  { eapply heap_list_short; [done..|]. intros q. by rewrite Am. } { intros q. by rewrite Am. }
  intros [p'|] s0 [-> Hown].
  2: { exfalso. apply (Hown p k); [apply Am; by exists k|done|lia]. }
  destruct Hown as (k' & Hk' & Hin).
  assert (p' = p) as ->.
  { destruct (decide (p' = p)); [done|]. exfalso.
    apply (heap_pages_apart s h al bl runs p p' k k' (kp_va k + o)); done || lia. }
  wp_step. eapply wp_read_pr; [done|]. rewrite Hpa, Hbt. cbv zeta. wp_step. eapply wp_deref; [done|].
  rewrite Z.add_simpl_l, u32_small by (unfold PAGE_SIZE in *; lia).
  replace ((PAGE_SIZE <=? o) || negb (o mod bsize (kp_type k) =? 0)) with false by (rewrite Hom; simpl; lia).
  wp_steps. eapply wp_conseq; [apply fill_deadbeef_spec; unfold PAGE_SIZE in *; lia| |done].
  intros [] s1 (mem1 & -> & Hm1). wp_step.
  eapply wp_conseq; [by apply (put_block_spec X s h al bl runs p k o mem1)| |done].
  intros [] s2 (Hinv2 & Hn2 & Hm2). set (k2 := mkKP _ _ (o :: _)) in Hinv2.
  assert (<[p := k2]> h !! p = Some k2) as Hp2 by apply lookup_insert_eq.
  destruct (ki_page _ _ _ _ _ Hinv2 p k2 Hp2) as (x2 & Hx2 & Hok2). pose proof (pg_nfree _ _ _ Hok2) as Hnf.
  destruct (free_bound _ _ (pg_type _ _ _ Hok2) (pg_nodup _ _ _ Hok2) (pg_offs _ _ _ Hok2)) as (Hle & _ & _).
  wp_step. eapply wp_read_pr; [done|]. rewrite Hnf, Hdiv. wp_step. apply wp_kassert; [simpl in *; lia|]. wp_step.
  eapply wp_conseq; [apply (settle_page X s2 (<[p := k2]> h) al bl runs (λ b m, L b m ∧ b ≠ kp_va k + o) p k2 _ Hinv2)| |done].
  { intros q c Hq [[? _]|[_ Hc]]%lookup_insert_Some; [done|by eapply Hpart]. }
  { intros a n. rewrite HL. symmetry. by eapply live_put. } { done. } { done. }
  intros [] s3 (Hmem3 & Hheap). wp_step. split; [done|]. split; [done|].
  intros a n w [HLa Hne] Hw. rewrite Hmem3. apply Hm2. apply HL in HLa. intros Hin2.
  destruct (live_disjoint _ _ _ _ _ a n (kp_va k + o) (bsize (kp_type k)) Hinv HLa); try done; try lia.
  left. exists p, k. split; [done|]. by exists o.
Qed.

Lemma live_unrun s h al bl runs a m b n : km_inv s h al bl runs → runs !! a = Some m → (∀ p k, h !! p = Some k → kp_va k ≠ a) →
  live h (delete a runs) b n ↔ live h runs b n ∧ b ≠ a.
Proof.
  intros Hinv Ha Hno. rewrite <- (insert_delete_id runs a m Ha) at 2. rewrite live_run by (done || apply lookup_delete_eq).
  split; [|naive_solver]. intros Hl. split; [by left|]. intros ->.
  destruct Hl as [(p & k & Hp & Hl)|(i & Hi & _)]; [|by rewrite lookup_delete_eq in Hi].
  destruct (ki_page _ _ _ _ _ Hinv p k Hp) as (x & _ & Hok).
  destruct (page_live_range k a n (pg_type _ _ _ Hok) Hl) as (? & ? & ?).
  destruct (kpages_range _ _ a m (ki_pages _ _ _ _ _ Hinv) Ha) as (? & _).
  destruct (kpages_disjoint _ _ (kp_va k) 1 a m (ki_pages _ _ _ _ _ Hinv) (ki_runs _ _ _ _ _ Hinv p k Hp) Ha);
    [by eapply Hno|unfold PAGE_SIZE in *; lia..].
Qed.

Lemma kfree_spec X s L a n :
  heap s L → L a n → wpx X (kfree a) (λ _ s', kfree_post s L a s') (λ _ _, False) s.
Proof.
  intros (h & al & bl & runs & Hinv & Hpart & HL) HLa. pose proof (proj1 (HL a n) HLa) as Hlive.
  destruct (ki_all_dom _ _ _ _ _ Hinv) as [And Am]. unfold kfree. destruct Hlive as [(p & k & Hp & Hl)|(m & Hm & -> & Hnok)].
  - destruct Hl as (o & Ho & Hno & -> & _). destruct (ki_page _ _ _ _ _ Hinv p k Hp) as (x & _ & Hok).
    destruct (pg_va _ _ _ Hok) as (_ & Hlo & _). destruct (Ho) as [Hor _]. unfold MIPS_KSEG0 in *.
    destruct (Z.eqb_spec (kp_va k + o) 0); [lia|]. wp_step.
    eapply wp_conseq; [by apply (subpage_kfree_live X s h al bl runs L p k o)| |done].
    intros r s' [-> Hpost]. by wp_step.
  - destruct (kpages_range _ _ a m (ki_pages _ _ _ _ _ Hinv) Hm) as (Hm0 & Hal & Hlo & _). unfold MIPS_KSEG0 in *.
    destruct (Z.eqb_spec a 0); [lia|]. wp_step. unfold subpage_kfree. wp_steps.
    eapply wp_conseq; [apply (find_owner_spec X s h al bl runs a list_fuel (allbase s) al Hinv (ki_all _ _ _ _ _ Hinv))| |done].
    { eapply heap_list_short; [done..|]. intros q. by rewrite Am. } { intros q. by rewrite Am. }
    intros [p'|] s0 [-> Hown].
    { exfalso. destruct Hown as (k & Hk & Hin).
      destruct (kpages_disjoint _ _ (kp_va k) 1 a m (ki_pages _ _ _ _ _ Hinv) (ki_runs _ _ _ _ _ Hinv p' k Hk) Hm);
        [by eapply Hnok|unfold PAGE_SIZE in *; lia..]. }
    wp_steps. apply wp_kassert; [lia|]. apply wp_kpages.
    eapply wp_conseq; [by apply (kpages_free_spec X _ runs a m (ki_pages _ _ _ _ _ Hinv))| |done].
    intros [] pg' Hrep. split; [|done]. exists h, al, bl, (delete a runs). split_and!; [|done|].
    + apply (km_inv_runs _ _ _ _ runs); [done..|]. intros p k Hp. rewrite lookup_delete_ne by (symmetry; by eapply Hnok).
      by eapply ki_runs.
    + intros b i. rewrite HL. symmetry. by eapply live_unrun.
Qed.

(** The heap's variables as the kernel starts: all zero. *)
Definition km_boot (pg : P) : kmstate :=
  mkKM pg (λ _, 0) (replicate 256 (mkPR None None 0 0 0)) (replicate 8 0) (replicate 8 None) None.

Lemma km_boot_heap pg runs : kpages_rep pg runs →
  heap (km_boot pg) (λ a n, ∃ m, runs !! a = Some m ∧ n = m * PAGE_SIZE).
Proof.
  intros Hrep. exists ∅, [], (λ _, []), runs. split_and!.
  - constructor; cbn [km_boot km_pages kmem pagerefs pagerefs_inuse sizebases allbase]; try done.
    + constructor; try done.
      * intros i w Hi. pose proof (lookupZ_Some_range _ _ _ Hi) as Hr. rewrite lookupZ_replicate in Hi by exact Hr.
        injection Hi as <-. lia.
      * intros p Hp. unfold inuse_bit. rewrite lookup_empty.
        rewrite lookupZ_replicate; [rewrite Z.bits_0; split; [done|by intros [? ?]]|].
        unfold NPAGEREFS in Hp. pose proof (Z.div_mod p 32). pose proof (Z.mod_pos_bound p 32). lia.
    + split; [apply NoDup_nil_2|]. intros p. rewrite lookup_empty, elem_of_nil. split; [done|by intros [? ?]].
    + intros t Ht. exists None. rewrite lookupZ_replicate by (unfold NSIZES in Ht; lia). split_and!; [done..|apply NoDup_nil_2|].
      intros p. rewrite elem_of_nil. split; [done|]. intros (k & Hk & _). by rewrite lookup_empty in Hk.
  - intros p k Hp. by rewrite lookup_empty in Hp.
  - intros a n. unfold live. split.
    + intros (m & Hm & ->). right. exists m. split_and!; [done..|]. intros p k Hp. by rewrite lookup_empty in Hp.
    + intros [(p & k & Hp & _)|(m & Hm & -> & _)]; [by rewrite lookup_empty in Hp|by exists m].
Qed.
End Live.

(** ** Properties *)

Section Properties.
Context {P : Type} {PA : PageAlloc P} {PS : PageAllocSpec P}.

(** C11. kmalloc returns NULL, leaving the heap as it was, or a block of at least
    the size asked for, aligned to 16 bytes, that overlaps none of the blocks
    handed out; the heap then holds those and this one, and their contents are
    untouched.  It neither panics nor loops. *)
Theorem kmalloc_correct (s : kmstate P) L sz :
  heap s L → 0 ≤ sz ≤ 2 ^ 32 - PAGE_SIZE →
  wp (kmalloc sz)
    (λ a s', kept L (kmem s) (kmem s') ∧
       if decide (a = 0) then heap s' L
       else a mod 16 = 0 ∧ ∃ n, sz ≤ n ∧ (∀ b m, L b m → a + n ≤ b ∨ b + m ≤ a) ∧
              heap s' (λ b m, L b m ∨ (b = a ∧ m = n))) (λ _ _, False) s.
Proof. apply kmalloc_spec. Qed.

(** C12. kfree of a block that was handed out takes exactly that block out of the
    heap and leaves the contents of all others alone, whether the block shares
    its page with others, is the last one on it, or is pages of its own. *)
Theorem kfree_correct (s : kmstate P) L a n :
  heap s L → L a n →
  wp (kfree a)
    (λ _ s', heap s' (λ b m, L b m ∧ b ≠ a) ∧ kept (λ b m, L b m ∧ b ≠ a) (kmem s) (kmem s')) (λ _ _, False) s.
Proof. apply kfree_spec. Qed.
End Properties.

(** The heap of the machine with eight pages. *)
Definition demo_heap : kmstate cmstate := km_boot demo_cm.
Lemma demo_heap_ok : heap demo_heap (λ _ _, False).
Proof.
  assert (kpages_rep demo_cm ∅) as Hrep.
  { exists ∅. split; [exact demo_cm_rep|]. intros va n. rewrite lookup_empty. split; [done|].
    intros (r & Hr & _). by rewrite lookup_empty in Hr. }
  destruct (km_boot_heap demo_cm ∅ Hrep) as (h & al & bl & runs & Hinv & Hpart & HL).
  exists h, al, bl, runs. split_and!; [done..|]. intros a n. rewrite <- HL. split; [done|].
  intros (m & Hm & _). by rewrite lookup_empty in Hm.
Qed.

Lemma kmalloc_correct_witness :
  wp (kmalloc 100)
    (λ a s', if decide (a = 0) then heap s' (λ _ _, False)
       else ∃ n, 100 ≤ n ∧ heap s' (λ b m, False ∨ (b = a ∧ m = n))) (λ _ _, False) demo_heap.
Proof.
  eapply wp_conseq; [apply (kmalloc_correct demo_heap _ 100 demo_heap_ok); unfold PAGE_SIZE; lia| |].
  - intros a s' [_ Ha]. case_decide; [exact Ha|]. destruct Ha as (_ & n & Hn & _ & Hh). exists n. split; [exact Hn|exact Hh].
  - intros e s' H. exact H.
Defined.

(** A block of 24 bytes, freed again. *)
Lemma kfree_correct_witness :
  ∃ s L a n, heap s L ∧ L a n ∧ a ≠ 0 ∧
    wp (kfree a) (λ _ s', heap s' (λ b m, L b m ∧ b ≠ a)) (λ _ _, False) s.
Proof.
  pose proof (kmalloc_spec False demo_heap _ 24 demo_heap_ok ltac:(unfold PAGE_SIZE; lia)) as H.
  assert (∃ s', kmalloc 24 demo_heap = Ok 0x80031fe0 s') as [s1 E].
  { eexists. vm_compute. reflexivity. }
  destruct (proj1 (wp_elim _ _ _ _ H) _ _ E) as [_ Hh]. rewrite decide_False in Hh by discriminate.
  destruct Hh as (_ & n & _ & _ & Hh). eexists s1, _, 0x80031fe0, n. split; [exact Hh|].
  split; [right; split; reflexivity|]. split; [discriminate|].
  eapply wp_conseq; [apply (kfree_correct s1 _ 0x80031fe0 n Hh); right; split; reflexivity| |].
  - intros [] s2 [H2 _]. exact H2.
  - intros e s' H2. exact H2.
Defined.
