(* ===== verification/ThreadList.v ===== *)
(** * Thread lists

    Models kern/thread/threadlist.c: doubly linked lists with a bookend node at
    either end, the nodes in between being embedded in the threads.  All lists
    share one store of nodes, so that a thread's node can be on one list at a
    time only; a node is named by what it is part of. *)

From S2P Require Import Prelude.
#[local] Open Scope kern_scope.

(** A node pointer: the head or the tail of a list, or a thread's t_listnode. *)
Inductive nodeptr := Head (tl : Z) | Tail (tl : Z) | Node (t : Z).
#[global] Instance nodeptr_eq_dec : EqDecision nodeptr.
Proof. solve_decision. Defined.

(** struct threadlistnode; None is NULL. *)
Record threadlistnode := mkNode {
  tln_prev : option nodeptr;
  tln_next : option nodeptr;
  tln_self : option Z
}.

Record tlstate := mkTL {
  node : nodeptr → option threadlistnode;    (* the nodes that exist *)
  tl_count : Z → Z                           (* the count of each list *)
}.
Abbreviation TL := (M tlstate).

Definition put_node (p : nodeptr) (x : threadlistnode) (s : tlstate) : tlstate :=
  mkTL (λ q, if decide (q = p) then Some x else node s q) (tl_count s).
Definition read_node (p : nodeptr) : TL threadlistnode := s <- get ;; deref (node s p).
Definition write_node (p : nodeptr) (f : threadlistnode → threadlistnode) : TL unit :=
  x <- read_node p ;; modify (put_node p (f x)).
Definition set_prev v x := mkNode v (tln_next x) (tln_self x).
Definition set_next v x := mkNode (tln_prev x) v (tln_self x).
Definition set_count (tl : Z) (f : Z → Z) : TL unit :=
  modify (λ s, mkTL (node s) (λ l, if decide (l = tl) then u32 (f (tl_count s l)) else tl_count s l)).

Definition threadlistnode_init (t : Z) : TL unit := modify (put_node (Node t) (mkNode None None (Some t))).

Definition is_null {A} (o : option A) : bool := match o with None => true | Some _ => false end.

Definition threadlistnode_cleanup (t : Z) : TL unit :=
  x <- read_node (Node t) ;;
  kassert (is_null (tln_next x)) ;;
  kassert (is_null (tln_prev x)) ;;
  kassert (negb (is_null (tln_self x))).

Definition threadlist_init (tl : Z) : TL unit :=
  modify (put_node (Head tl) (mkNode None (Some (Tail tl)) None)) ;;
  modify (put_node (Tail tl) (mkNode (Some (Head tl)) None None)) ;;
  set_count tl (λ _, 0).

Definition threadlist_isempty (tl : Z) : TL bool := gets (λ s, tl_count s tl =? 0).

Definition threadlist_cleanup (tl : Z) : TL unit :=
  e <- threadlist_isempty tl ;;
  kassert e ;;
  n <- gets (λ s, tl_count s tl) ;;
  kassert (n =? 0).

Definition threadlist_insertafternode (onlist : nodeptr) (t : Z) : TL unit :=
  let addee := Node t in
  write_node addee (set_prev (Some onlist)) ;;
  x <- read_node onlist ;;
  write_node addee (set_next (tln_next x)) ;;
  write_node onlist (set_next (Some addee)) ;;
  x <- read_node addee ;;
  n <- deref (tln_next x) ;;
  write_node n (set_prev (Some addee)).

Definition threadlist_insertbeforenode (t : Z) (onlist : nodeptr) : TL unit :=
  let addee := Node t in
  x <- read_node onlist ;;
  write_node addee (set_prev (tln_prev x)) ;;
  write_node addee (set_next (Some onlist)) ;;
  x <- read_node addee ;;
  p <- deref (tln_prev x) ;;
  write_node p (set_next (Some addee)) ;;
  write_node onlist (set_prev (Some addee)).

Definition threadlist_removenode (tln : nodeptr) : TL unit :=
  x <- read_node tln ;;
  p <- deref (tln_prev x) ;;
  write_node p (set_next (tln_next x)) ;;
  x <- read_node tln ;;
  n <- deref (tln_next x) ;;
  write_node n (set_prev (tln_prev x)) ;;
  write_node tln (set_prev None) ;;
  write_node tln (set_next None).

Definition threadlist_addhead (tl t : Z) : TL unit :=
  threadlist_insertafternode (Head tl) t ;; set_count tl (λ n, n + 1).
Definition threadlist_addtail (tl t : Z) : TL unit :=
  threadlist_insertbeforenode t (Tail tl) ;; set_count tl (λ n, n + 1).

Definition threadlist_remhead (tl : Z) : TL (option Z) :=
  h <- read_node (Head tl) ;;
  tln <- deref (tln_next h) ;;
  x <- read_node tln ;;
  if is_null (tln_next x) then ret None else
  threadlist_removenode tln ;;
  set_count tl (λ n, n - 1) ;;
  x <- read_node tln ;;
  ret (tln_self x).

Definition threadlist_remtail (tl : Z) : TL (option Z) :=
  h <- read_node (Tail tl) ;;
  tln <- deref (tln_prev h) ;;
  x <- read_node tln ;;
  if is_null (tln_prev x) then ret None else
  threadlist_removenode tln ;;
  set_count tl (λ n, n - 1) ;;
  x <- read_node tln ;;
  ret (tln_self x).

Definition threadlist_insertafter (tl onlist addee : Z) : TL unit :=
  threadlist_insertafternode (Node onlist) addee ;; set_count tl (λ n, n + 1).
Definition threadlist_insertbefore (tl addee onlist : Z) : TL unit :=
  threadlist_insertbeforenode addee (Node onlist) ;; set_count tl (λ n, n + 1).
Definition threadlist_remove (tl t : Z) : TL unit :=
  threadlist_removenode (Node t) ;; set_count tl (λ n, n - 1).

(** THREADLIST_FORALL: the first [fuel] threads its body sees, in order. *)
Fixpoint threadlist_forall_loop (fuel : nat) (itervar : option Z) : TL (list Z) :=
  match fuel with
  | O => ret []
  | S fuel' =>
      t <- deref itervar ;;
      x <- read_node (Node t) ;;
      match tln_next x with
      | None => ret []
      | Some n =>
          y <- read_node n ;;
          l <- threadlist_forall_loop fuel' (tln_self y) ;;
          ret (t :: l)
      end
  end.
Definition THREADLIST_FORALL (fuel : nat) (tl : Z) : TL (list Z) :=
  h <- read_node (Head tl) ;;
  n <- deref (tln_next h) ;;
  y <- read_node n ;;
  threadlist_forall_loop fuel (tln_self y).

(** ** What a store of lists means *)

(** The nodes of a list in order, with the bookends. *)
Definition row (tl : Z) (ts : list Z) : list nodeptr := Head tl :: (Node <$> ts) ++ [Tail tl].

Definition nxt (f : nodeptr → option threadlistnode) (a : nodeptr) : option nodeptr := f a ≫= tln_next.
Definition prv (f : nodeptr → option threadlistnode) (a : nodeptr) : option nodeptr := f a ≫= tln_prev.

(** Each node leads to the next and back. *)
Fixpoint links (f : nodeptr → option threadlistnode) (l : list nodeptr) : Prop :=
  match l with
  | a :: ((b :: _) as l') => nxt f a = Some b ∧ prv f b = Some a ∧ links f l'
  | _ => True
  end.

(** [L] gives the threads on each list; [T] the threads there are. *)
Record tl_rep (s : tlstate) (L : gmap Z (list Z)) (T : gset Z) : Prop := {
  tr_links : ∀ tl ts, L !! tl = Some ts → links (node s) (row tl ts);
  tr_head : ∀ tl ts, L !! tl = Some ts → ∃ n, node s (Head tl) = Some (mkNode None n None);
  tr_tail : ∀ tl ts, L !! tl = Some ts → ∃ p, node s (Tail tl) = Some (mkNode p None None);
  tr_count : ∀ tl ts, L !! tl = Some ts → tl_count s tl = u32 (lengthZ ts);
  tr_nodup : ∀ tl ts, L !! tl = Some ts → NoDup ts;
  tr_apart : ∀ tl tl' ts ts' t, L !! tl = Some ts → L !! tl' = Some ts' → t ∈ ts → t ∈ ts' → tl = tl';
  tr_thread : ∀ tl ts t, L !! tl = Some ts → t ∈ ts → t ∈ T;
  tr_self : ∀ t, t ∈ T → ∃ x, node s (Node t) = Some x ∧ tln_self x = Some t;
  tr_off : ∀ t, t ∈ T → (∀ tl ts, L !! tl = Some ts → t ∉ ts) →
    node s (Node t) = Some (mkNode None None (Some t))
}.

(** ** Chains *)

Lemma links_app f l1 a l2 : links f (l1 ++ a :: l2) ↔ links f (l1 ++ [a]) ∧ links f (a :: l2).
Proof.
  induction l1 as [|b l1 IH]; [simpl; naive_solver|].
  destruct l1 as [|c l1]; [simpl in *; naive_solver|].
  change ((b :: c :: l1) ++ a :: l2) with (b :: (c :: l1) ++ a :: l2).
  change ((b :: c :: l1) ++ [a]) with (b :: (c :: l1) ++ [a]).
  assert (∀ l, links f (b :: (c :: l1) ++ l) ↔ (nxt f b = Some c ∧ prv f c = Some b) ∧ links f ((c :: l1) ++ l)) as E
    by (intros l; simpl; naive_solver).
  rewrite !E, IH. naive_solver.
Qed.

Lemma links_from f f' a l : links f (a :: l) → nxt f' a = nxt f a → (∀ q, q ∈ l → f' q = f q) → links f' (a :: l).
Proof.
  revert a. induction l as [|b l IH]; [done|]. intros a (H1 & H2 & H3) Hn Hl.
  assert (f' b = f b) as Hb by (apply Hl; by left).
  split_and!; [by rewrite Hn|unfold prv in *; by rewrite Hb|].
  apply IH; [done|unfold nxt; by rewrite Hb|]. intros q Hq. apply Hl. by right.
Qed.

Lemma links_to f f' l a : links f (l ++ [a]) → prv f' a = prv f a → (∀ q, q ∈ l → f' q = f q) → links f' (l ++ [a]).
Proof.
  induction l as [|b l IH]; [done|]. intros H Hp Hl. destruct l as [|c l].
  - destruct H as (H1 & H2 & _). assert (f' b = f b) as Hb by (apply Hl; by left).
    split_and!; [unfold nxt in *; by rewrite Hb|by rewrite Hp|done].
  - destruct H as (H1 & H2 & H3). assert (f' b = f b) as Hb by (apply Hl; by left).
    assert (f' c = f c) as Hc by (apply Hl; right; by left).
    split_and!; [unfold nxt in *; by rewrite Hb|unfold prv in *; by rewrite Hc|].
    apply IH; [done..|]. intros q Hq. apply Hl. by right.
Qed.

Lemma links_ext f f' l : (∀ q, q ∈ l → f' q = f q) → links f l → links f' l.
Proof.
  destruct l as [|a l]; [done|]. intros Hl H. eapply links_from; [done|unfold nxt; by rewrite (Hl a ltac:(by left))|].
  intros q Hq. apply Hl. by right.
Qed.

(** [t] has been put between [a] and [b], *)
Record spliced (f : nodeptr → option threadlistnode) (a b : nodeptr) (t : Z) (f' : nodeptr → option threadlistnode) : Prop := {
  sp_a : ∃ x, f a = Some x ∧ f' a = Some (set_next (Some (Node t)) x);
  sp_b : ∃ y, f b = Some y ∧ f' b = Some (set_prev (Some (Node t)) y);
  sp_t : ∃ z, f (Node t) = Some z ∧ f' (Node t) = Some (mkNode (Some a) (Some b) (tln_self z));
  sp_other : ∀ q, q ≠ a → q ≠ b → q ≠ Node t → f' q = f q
}.
(** or taken out from there. *)
Record unspliced (f : nodeptr → option threadlistnode) (a b : nodeptr) (t : Z) (f' : nodeptr → option threadlistnode) : Prop := {
  un_a : ∃ x, f a = Some x ∧ f' a = Some (set_next (Some b) x);
  un_b : ∃ y, f b = Some y ∧ f' b = Some (set_prev (Some a) y);
  un_t : ∃ z, f (Node t) = Some z ∧ f' (Node t) = Some (mkNode None None (tln_self z));
  un_other : ∀ q, q ≠ a → q ≠ b → q ≠ Node t → f' q = f q
}.

Lemma nodup_mid {A} (l1 l2 : list A) a b : NoDup (l1 ++ a :: b :: l2) →
  a ≠ b ∧ a ∉ l1 ∧ b ∉ l1 ∧ a ∉ l2 ∧ b ∉ l2 ∧ ∀ q, q ∈ l1 → q ∉ l2.
Proof. rewrite NoDup_app, !NoDup_cons. set_solver. Qed.

Lemma links_insert f f' l1 a b l2 t :
  links f (l1 ++ a :: b :: l2) → NoDup (l1 ++ a :: b :: l2) → Node t ∉ l1 ++ a :: b :: l2 → spliced f a b t f' →
  links f' (l1 ++ a :: Node t :: b :: l2).
Proof.
  intros (H1 & _ & _ & H2)%links_app (Hab & Ha1 & Hb1 & Ha2 & Hb2 & _)%nodup_mid Ht [(x & Fa & Fa') (y & Fb & Fb') (z & Ft & Ft') Fo].
  assert (∀ q, q ∈ l1 ∨ q ∈ l2 → f' q = f q) as Hsame.
  { intros q Hq. apply Fo; [intros ->; naive_solver..|]. intros ->. apply Ht. set_solver. }
  apply links_app. split.
  - eapply links_to; [done|unfold prv; by rewrite Fa, Fa'|]. auto.
  - split_and!; [unfold nxt; by rewrite Fa'|unfold prv; by rewrite Ft'|].
    split_and!; [unfold nxt; by rewrite Ft'|unfold prv; by rewrite Fb'|].
    eapply links_from; [done|unfold nxt; by rewrite Fb, Fb'|]. auto.
Qed.

Lemma links_remove f f' l1 a b l2 t :
  links f (l1 ++ a :: Node t :: b :: l2) → NoDup (l1 ++ a :: Node t :: b :: l2) → unspliced f a b t f' →
  links f' (l1 ++ a :: b :: l2).
Proof.
  intros (H1 & _ & _ & _ & _ & H2)%links_app Hnd [(x & Fa & Fa') (y & Fb & Fb') (z & Ft & Ft') Fo].
  rewrite NoDup_app, !NoDup_cons in Hnd.
  assert (∀ q, q ∈ l1 ∨ q ∈ l2 → f' q = f q) as Hsame by (intros q Hq; apply Fo; set_solver).
  apply links_app. split.
  - eapply links_to; [done|unfold prv; by rewrite Fa, Fa'|]. auto.
  - split_and!; [unfold nxt; by rewrite Fa'|unfold prv; by rewrite Fb'|].
    eapply links_from; [done|unfold nxt; by rewrite Fb, Fb'|]. auto.
Qed.

(** ** The pointer operations *)

Lemma node_put s p x q : node (put_node p x s) q = if decide (q = p) then Some x else node s q.
Proof. done. Qed.
Lemma count_put s p x : tl_count (put_node p x s) = tl_count s.
Proof. done. Qed.

Lemma wp_read_node X p x s (Q : threadlistnode → tlstate → Prop) E :
  node s p = Some x → Q x s → wpx X (read_node p) Q E s.
Proof. intros Hp HQ. unfold read_node. wp_steps. by eapply wp_deref. Qed.

Lemma wp_write_node X p x f s (Q : unit → tlstate → Prop) E :
  node s p = Some x → Q tt (put_node p (f x) s) → wpx X (write_node p f) Q E s.
Proof. intros Hp HQ. unfold write_node. wp_step. eapply wp_read_node; [done|]. by wp_step. Qed.

(** Look a node up in a store just written to. *)
Ltac node_eq := rewrite ?node_put; repeat first [rewrite decide_True by done | rewrite decide_False by congruence]; done.

Lemma insertafternode_spec X s a b t x y z :
  node s a = Some x → tln_next x = Some b → node s b = Some y → node s (Node t) = Some z →
  a ≠ b → a ≠ Node t → b ≠ Node t →
  wpx X (threadlist_insertafternode a t)
    (λ _ s', spliced (node s) a b t (node s') ∧ tl_count s' = tl_count s) (λ _ _, False) s.
Proof.
  intros Ha Hn Hb Ht Hab Hat Hbt. unfold threadlist_insertafternode. cbv zeta.
  wp_step. eapply wp_write_node; [done|]. wp_step. apply wp_read_node with x; [node_eq|].
  wp_step. eapply wp_write_node; [node_eq|]. wp_step. eapply wp_write_node; [node_eq|].
  wp_step. eapply wp_read_node; [node_eq|]. wp_step. simpl. rewrite Hn. eapply wp_deref; [done|].
  eapply wp_write_node; [node_eq|]. split; [|done]. constructor.
  - exists x. split; [done|node_eq].
  - exists y. split; [done|node_eq].
  - exists z. split; [done|]. node_eq.
  - intros q ???. node_eq.
Qed.

Lemma insertbeforenode_spec X s a b t x y z :
  node s a = Some x → node s b = Some y → tln_prev y = Some a → node s (Node t) = Some z →
  a ≠ b → a ≠ Node t → b ≠ Node t →
  wpx X (threadlist_insertbeforenode t b)
    (λ _ s', spliced (node s) a b t (node s') ∧ tl_count s' = tl_count s) (λ _ _, False) s.
Proof.
  intros Ha Hb Hp Ht Hab Hat Hbt. unfold threadlist_insertbeforenode. cbv zeta.
  wp_step. eapply wp_read_node; [done|]. wp_step. eapply wp_write_node; [done|]. wp_step. eapply wp_write_node; [node_eq|].
  wp_step. eapply wp_read_node; [node_eq|]. wp_step. simpl. rewrite Hp. eapply wp_deref; [done|].
  wp_step. eapply wp_write_node; [node_eq|]. eapply wp_write_node; [node_eq|]. split; [|done]. constructor.
  - exists x. split; [done|node_eq].
  - exists y. split; [done|node_eq].
  - exists z. split; [done|]. node_eq.
  - intros q ???. node_eq.
Qed.

Lemma removenode_spec X s a b t x y z :
  node s a = Some x → node s b = Some y → node s (Node t) = Some z →
  tln_prev z = Some a → tln_next z = Some b → a ≠ b → a ≠ Node t → b ≠ Node t →
  wpx X (threadlist_removenode (Node t))
    (λ _ s', unspliced (node s) a b t (node s') ∧ tl_count s' = tl_count s) (λ _ _, False) s.
Proof.
  intros Ha Hb Ht Hp Hn Hab Hat Hbt. unfold threadlist_removenode.
  wp_step. eapply wp_read_node; [done|]. wp_step. rewrite Hp. eapply wp_deref; [done|].
  wp_step. eapply wp_write_node; [node_eq|]. wp_step. apply wp_read_node with z; [node_eq|].
  wp_step. rewrite Hn. eapply wp_deref; [done|]. wp_step. eapply wp_write_node; [node_eq|].
  wp_step. apply wp_write_node with z; [node_eq|]. eapply wp_write_node; [node_eq|]. split; [|done]. rewrite Hp. constructor.
  - exists x. split; [done|node_eq].
  - exists y. split; [done|node_eq].
  - exists z. split; [done|]. node_eq.
  - intros q ???. node_eq.
Qed.

(** ** The lists *)

(** The place between [l1] and [l2] in a row. *)
Definition left_of (tl : Z) (l1 : list Z) : nodeptr := match last l1 with Some u => Node u | None => Head tl end.
Definition right_of (tl : Z) (l2 : list Z) : nodeptr := match l2 with u :: _ => Node u | [] => Tail tl end.

Lemma row_split tl l1 l2 : ∃ r1 r2,
  row tl (l1 ++ l2) = r1 ++ left_of tl l1 :: right_of tl l2 :: r2 ∧
  ∀ t, row tl (l1 ++ t :: l2) = r1 ++ left_of tl l1 :: Node t :: right_of tl l2 :: r2.
Proof.
  assert (∃ r2, (Node <$> l2) ++ [Tail tl] = right_of tl l2 :: r2) as [r2 H2] by (destruct l2; by eexists).
  assert (∃ r1, Head tl :: (Node <$> l1) = r1 ++ [left_of tl l1]) as [r1 H1].
  { unfold left_of. destruct l1 as [|u l1 _] using rev_ind; [by exists []|].
    rewrite last_snoc, fmap_app. by eexists (Head tl :: (Node <$> l1)). }
  exists r1, r2. unfold row. split.
  - rewrite fmap_app, <- app_assoc, H2, app_comm_cons, H1, <- app_assoc. done.
  - intros t. rewrite fmap_app, fmap_cons, <- app_assoc, <- app_comm_cons, H2, app_comm_cons, H1, <- app_assoc. done.
Qed.

Lemma elem_of_row tl ts q : q ∈ row tl ts ↔ q = Head tl ∨ q = Tail tl ∨ ∃ t, q = Node t ∧ t ∈ ts.
Proof. unfold row. rewrite elem_of_cons, elem_of_app, list_elem_of_fmap, list_elem_of_singleton. naive_solver. Qed.

Lemma NoDup_row tl ts : NoDup ts → NoDup (row tl ts).
Proof.
  intros Hnd. unfold row. apply NoDup_cons. split.
  - rewrite elem_of_app, list_elem_of_fmap, list_elem_of_singleton. intros [(? & ? & _)|?]; done.
  - apply NoDup_app. split_and!; [|set_unfold; naive_solver|apply NoDup_singleton].
    apply NoDup_fmap; [intros ??; congruence|done].
Qed.

Section Change.
Context (s s' : tlstate) (L : gmap Z (list Z)) (T : gset Z) (tl t : Z) (l1 l2 : list Z).
Context (Hrep : tl_rep s L T) (Ht : t ∈ T).

(** A change to one list: [ts] becomes [ts'], which differ in [t] at most. *)
Lemma tl_rep_change ts ts' :
  L !! tl = Some ts → links (node s') (row tl ts') → NoDup ts' →
  (∀ u, u ∈ ts' → u ∈ ts ∨ u = t) → (∀ k l, L !! k = Some l → k ≠ tl → t ∉ l) →
  (∀ q x, node s q = Some x → ∃ x', node s' q = Some x' ∧ tln_self x' = tln_self x) →
  (∀ q, q ∉ row tl ts → q ≠ Node t → node s' q = node s q) →
  (∃ n, node s' (Head tl) = Some (mkNode None n None)) → (∃ p, node s' (Tail tl) = Some (mkNode p None None)) →
  (t ∉ ts' → node s' (Node t) = Some (mkNode None None (Some t))) →
  (∀ u, u ∈ ts → u ≠ t → u ∈ ts') →
  (∀ k, tl_count s' k = if decide (k = tl) then u32 (lengthZ ts') else tl_count s k) →
  tl_rep s' (<[tl := ts']> L) T.
Proof.
  intros Htl Hlinks Hnd Hsub Hapart Hself Hkeep Hh Ht' Hoff Hsup Hcount.
  assert (∀ k l q, L !! k = Some l → k ≠ tl → q ∈ row k l → node s' q = node s q) as Hrows.
  { intros k l q Hk Hne Hq. apply Hkeep.
    - intros Hq'. rewrite elem_of_row in Hq, Hq'. destruct Hq as [->|[->|(u & -> & Hu)]]; [naive_solver..|].
      destruct Hq' as [?|[?|(u' & [= <-] & Hu')]]; [done..|]. by apply Hne, (tr_apart _ _ _ Hrep k tl l ts u).
    - intros ->. rewrite elem_of_row in Hq. destruct Hq as [?|[?|(u & [= <-] & Hu)]]; [done..|]. by eapply Hapart. }
  constructor.
  - intros k l [[<- <-]|[Hne Hk]]%lookup_insert_Some; [done|]. eapply links_ext; [|by eapply tr_links].
    intros q. by eapply Hrows.
  - intros k l [[<- <-]|[Hne Hk]]%lookup_insert_Some; [done|]. rewrite (Hrows k l); [by eapply tr_head|done..|].
    rewrite elem_of_row. by left.
  - intros k l [[<- <-]|[Hne Hk]]%lookup_insert_Some; [done|]. rewrite (Hrows k l); [by eapply tr_tail|done..|].
    rewrite elem_of_row. auto.
  - intros k l [[<- <-]|[Hne Hk]]%lookup_insert_Some; rewrite Hcount; [by rewrite decide_True|].
    rewrite decide_False by done. by eapply tr_count.
  - intros k l [[<- <-]|[Hne Hk]]%lookup_insert_Some; [done|by eapply tr_nodup].
  - assert (∀ k l u, L !! k = Some l → k ≠ tl → u ∈ l → u ∈ ts' → False) as Hdis.
    { intros k l u Hk Hne Hu Hu'. destruct (Hsub u Hu') as [Hts| ->]; [|by eapply Hapart].
      by apply Hne, (tr_apart _ _ _ Hrep k tl l ts u). }
    intros k k' l l' u Hk Hk' Hu Hu'. apply lookup_insert_Some in Hk, Hk'.
    destruct Hk as [[<- <-]|[Hne Hk]], Hk' as [[<- <-]|[Hne' Hk']]; try done; [exfalso; eauto..|by eapply tr_apart].
  - intros k l u [[<- <-]|[Hne Hk]]%lookup_insert_Some Hu; [|by eapply tr_thread].
    destruct (Hsub u Hu) as [Hts| ->]; [by eapply tr_thread|done].
  - intros u Hu. destruct (tr_self _ _ _ Hrep u Hu) as (x & Hx & Hs). destruct (Hself _ _ Hx) as (x' & ? & ?).
    exists x'. split; [done|congruence].
  - intros u Hu Huoff. pose proof (Huoff tl ts' (lookup_insert_eq _ _ _)) as Huts.
    destruct (decide (u = t)) as [->|Hut]; [by apply Hoff|].
    assert (∀ k l, L !! k = Some l → u ∉ l) as Huo.
    { intros k l Hk Hul. destruct (decide (k = tl)) as [->|Hk']; [assert (l = ts) as -> by congruence; auto|].
      eapply (Huoff k l); [|done]. by rewrite lookup_insert_ne. }
    rewrite Hkeep; [by apply (tr_off _ _ _ Hrep)| |congruence].
    rewrite elem_of_row. intros [?|[?|(v & [= <-] & Hv)]]; [done..|]. by eapply Huo.
Qed.

Lemma tl_rep_insert :
  L !! tl = Some (l1 ++ l2) → (∀ k l, L !! k = Some l → t ∉ l) →
  spliced (node s) (left_of tl l1) (right_of tl l2) t (node s') →
  (∀ k, tl_count s' k = if decide (k = tl) then u32 (tl_count s k + 1) else tl_count s k) →
  tl_rep s' (<[tl := l1 ++ t :: l2]> L) T.
Proof.
  intros Htl Hoff Hsp Hcount. destruct (row_split tl l1 l2) as (r1 & r2 & Hrow & Hrow').
  pose proof (tr_links _ _ _ Hrep tl _ Htl) as Hlinks. pose proof (tr_nodup _ _ _ Hrep tl _ Htl) as Hnd.
  pose proof (NoDup_row tl _ Hnd) as Hrnd.
  assert (Node t ∉ row tl (l1 ++ l2)) as Hnt.
  { rewrite elem_of_row. intros [?|[?|(u & [= <-] & Hu)]]; [done..|]. by eapply Hoff. }
  assert (left_of tl l1 ∈ row tl (l1 ++ l2) ∧ right_of tl l2 ∈ row tl (l1 ++ l2)) as [Hla Hrb].
  { rewrite Hrow, !elem_of_app, !elem_of_cons. auto. }
  pose proof Hsp as [(x & Fa & Fa') (y & Fb & Fb') (z & Ft & Ft') Fo].
  apply (tl_rep_change (l1 ++ l2)).
  - done.
  - rewrite Hrow'. rewrite Hrow in *. by eapply links_insert.
  - rewrite <- Permutation_middle. apply NoDup_cons. split; [by eapply Hoff|done].
  - intros u. rewrite <- Permutation_middle, elem_of_cons. naive_solver.
  - intros k l Hk _. by eapply Hoff.
  - intros q u Hq. destruct (decide (q = left_of tl l1)) as [->|]; [rewrite Fa in Hq; injection Hq as <-; by eexists|].
    destruct (decide (q = right_of tl l2)) as [->|]; [rewrite Fb in Hq; injection Hq as <-; by eexists|].
    destruct (decide (q = Node t)) as [->|]; [rewrite Ft in Hq; injection Hq as <-; by eexists|].
    exists u. by rewrite Fo.
  - intros q Hq Hqt. apply Fo; [congruence..|done].
  - destruct (tr_head _ _ _ Hrep tl _ Htl) as [n Hn]. unfold left_of, right_of in *.
    destruct (decide (Head tl = left_of tl l1)) as [E|E].
    + unfold left_of in E. rewrite <- E in Fa, Fa'. rewrite Hn in Fa. injection Fa as <-. by eexists.
    + exists n. rewrite Fo; [done|exact E|by destruct l2|done].
  - destruct (tr_tail _ _ _ Hrep tl _ Htl) as [n Hn].
    destruct (decide (Tail tl = right_of tl l2)) as [E|E].
    + rewrite <- E in Fb, Fb'. rewrite Hn in Fb. injection Fb as <-. by eexists.
    + exists n. rewrite Fo; [done|unfold left_of; by destruct (last l1)|exact E|done].
  - intros Hno. destruct Hno. rewrite elem_of_app, elem_of_cons. auto.
  - intros u. rewrite <- Permutation_middle, elem_of_cons. auto.
  - intros k. rewrite Hcount. case_decide; [subst k|done]. rewrite (tr_count _ _ _ Hrep tl _ Htl).
    rewrite !lengthZ_app, lengthZ_cons. unfold u32. rewrite Zplus_mod_idemp_l. f_equal. lia.
Qed.

Lemma tl_rep_remove :
  L !! tl = Some (l1 ++ t :: l2) →
  unspliced (node s) (left_of tl l1) (right_of tl l2) t (node s') →
  (∀ k, tl_count s' k = if decide (k = tl) then u32 (tl_count s k - 1) else tl_count s k) →
  tl_rep s' (<[tl := l1 ++ l2]> L) T.
Proof.
  intros Htl Hun Hcount. destruct (row_split tl l1 l2) as (r1 & r2 & Hrow & Hrow'). specialize (Hrow' t).
  pose proof (tr_links _ _ _ Hrep tl _ Htl) as Hlinks. pose proof (tr_nodup _ _ _ Hrep tl _ Htl) as Hnd.
  pose proof (NoDup_row tl _ Hnd) as Hrnd.
  assert (left_of tl l1 ∈ row tl (l1 ++ t :: l2) ∧ right_of tl l2 ∈ row tl (l1 ++ t :: l2)) as [Hla Hrb].
  { rewrite Hrow', !elem_of_app, !elem_of_cons. auto 10. }
  pose proof Hun as [(x & Fa & Fa') (y & Fb & Fb') (z & Ft & Ft') Fo].
  rewrite <- Permutation_middle in Hnd. apply NoDup_cons in Hnd as [Hno Hnd].
  apply (tl_rep_change (l1 ++ t :: l2)).
  - done.
  - rewrite Hrow. rewrite Hrow' in *. by eapply links_remove.
  - done.
  - intros u. rewrite <- Permutation_middle, elem_of_cons. auto.
  - intros k l Hk Hne Hin. apply Hne, (tr_apart _ _ _ Hrep k tl l _ t Hk Htl Hin). rewrite elem_of_app, elem_of_cons. auto.
  - intros q u Hq. destruct (decide (q = left_of tl l1)) as [->|]; [rewrite Fa in Hq; injection Hq as <-; by eexists|].
    destruct (decide (q = right_of tl l2)) as [->|]; [rewrite Fb in Hq; injection Hq as <-; by eexists|].
    destruct (decide (q = Node t)) as [->|]; [rewrite Ft in Hq; injection Hq as <-; by eexists|].
    exists u. by rewrite Fo.
  - intros q Hq Hqt. apply Fo; [congruence..|done].
  - destruct (tr_head _ _ _ Hrep tl _ Htl) as [n Hn]. destruct (decide (Head tl = left_of tl l1)) as [E|E].
    + rewrite <- E in Fa, Fa'. rewrite Hn in Fa. injection Fa as <-. by eexists.
    + exists n. rewrite Fo; [done|exact E|unfold right_of; by destruct l2|done].
  - destruct (tr_tail _ _ _ Hrep tl _ Htl) as [n Hn]. destruct (decide (Tail tl = right_of tl l2)) as [E|E].
    + rewrite <- E in Fb, Fb'. rewrite Hn in Fb. injection Fb as <-. by eexists.
    + exists n. rewrite Fo; [done|unfold left_of; by destruct (last l1)|exact E|done].
  - intros _. rewrite Ft'. destruct (tr_self _ _ _ Hrep t Ht) as (z' & Hz' & Hs). rewrite Ft in Hz'. injection Hz' as <-.
    by rewrite Hs.
  - intros u. rewrite <- Permutation_middle, elem_of_cons. naive_solver.
  - intros k. rewrite Hcount. case_decide; [subst k|done]. rewrite (tr_count _ _ _ Hrep tl _ Htl).
    rewrite !lengthZ_app, lengthZ_cons. unfold u32. rewrite Zminus_mod_idemp_l. f_equal. lia.
Qed.
End Change.

(** The two ends of a gap in a list. *)
Lemma gap s L T tl l1 l2 : tl_rep s L T → L !! tl = Some (l1 ++ l2) →
  left_of tl l1 ≠ right_of tl l2 ∧ ∃ x y, node s (left_of tl l1) = Some x ∧ tln_next x = Some (right_of tl l2) ∧
    node s (right_of tl l2) = Some y ∧ tln_prev y = Some (left_of tl l1).
Proof.
  intros Hrep Htl. destruct (row_split tl l1 l2) as (r1 & r2 & Hrow & _).
  pose proof (tr_links _ _ _ Hrep tl _ Htl) as Hl. pose proof (NoDup_row tl _ (tr_nodup _ _ _ Hrep tl _ Htl)) as Hnd.
  rewrite Hrow in Hl, Hnd. apply links_app in Hl as [_ (H1 & H2 & _)]. apply nodup_mid in Hnd as [Hne _].
  split; [done|]. unfold nxt, prv in *. destruct (node s (left_of tl l1)) as [x|]; [|done].
  destruct (node s (right_of tl l2)) as [y|]; [|done]. by exists x, y.
Qed.

(** The neighbours of a thread on a list. *)
Lemma neighbours s L T tl l1 t l2 : tl_rep s L T → L !! tl = Some (l1 ++ t :: l2) →
  left_of tl l1 ≠ Node t ∧ right_of tl l2 ≠ Node t ∧ left_of tl l1 ≠ right_of tl l2 ∧
  ∃ x y z, node s (left_of tl l1) = Some x ∧ node s (right_of tl l2) = Some y ∧ node s (Node t) = Some z ∧
    tln_prev z = Some (left_of tl l1) ∧ tln_next z = Some (right_of tl l2) ∧
    tln_next x = Some (Node t) ∧ tln_prev y = Some (Node t).
Proof.
  intros Hrep Htl. destruct (row_split tl l1 l2) as (r1 & r2 & _ & Hrow). specialize (Hrow t).
  pose proof (tr_links _ _ _ Hrep tl _ Htl) as Hl. pose proof (NoDup_row tl _ (tr_nodup _ _ _ Hrep tl _ Htl)) as Hnd.
  rewrite Hrow in Hl, Hnd. apply links_app in Hl as [_ (H1 & H2 & H3 & H4 & _)].
  rewrite NoDup_app, !NoDup_cons, !not_elem_of_cons in Hnd.
  destruct Hnd as (_ & _ & (? & ? & _) & (? & _) & _). split_and!; [done..|].
  unfold nxt, prv in *. destruct (node s (left_of tl l1)) as [x|]; [|done].
  destruct (node s (right_of tl l2)) as [y|]; [|done]. destruct (node s (Node t)) as [z|]; [|done]. by exists x, y, z.
Qed.

Definition off_lists (L : gmap Z (list Z)) (t : Z) : Prop := ∀ tl ts, L !! tl = Some ts → t ∉ ts.

Lemma gap_not_thread L tl l1 l2 t : L !! tl = Some (l1 ++ l2) → off_lists L t → left_of tl l1 ≠ Node t ∧ right_of tl l2 ≠ Node t.
Proof.
  intros Htl Hoff. specialize (Hoff tl _ Htl). rewrite not_elem_of_app in Hoff. destruct Hoff as [H1 H2].
  unfold left_of, right_of. split.
  - destruct (last l1) as [u|] eqn:E; [|done]. apply last_Some_elem_of in E. congruence.
  - destruct l2 as [|u l2]; [done|]. apply not_elem_of_cons in H2. naive_solver.
Qed.

Lemma insert_after_gap X s L T tl l1 l2 t : tl_rep s L T → L !! tl = Some (l1 ++ l2) → t ∈ T → off_lists L t →
  wpx X (threadlist_insertafternode (left_of tl l1) t ;; set_count tl (λ n, n + 1))
    (λ _ s', tl_rep s' (<[tl := l1 ++ t :: l2]> L) T) (λ _ _, False) s.
Proof.
  intros Hrep Htl Ht Hoff. destruct (gap _ _ _ _ _ _ Hrep Htl) as (Hne & x & y & Hx & Hxn & Hy & Hyp).
  destruct (gap_not_thread _ _ _ _ _ Htl Hoff). destruct (tr_self _ _ _ Hrep t Ht) as (z & Hz & _).
  wp_step. eapply wp_conseq; [by apply (insertafternode_spec X s (left_of tl l1) (right_of tl l2) t x y z)| |done]. intros [] s1 [Hsp Hc]. unfold set_count. wp_step.
  eapply (tl_rep_insert s); try done. intros k. simpl. by rewrite Hc.
Qed.

Lemma insert_before_gap X s L T tl l1 l2 t : tl_rep s L T → L !! tl = Some (l1 ++ l2) → t ∈ T → off_lists L t →
  wpx X (threadlist_insertbeforenode t (right_of tl l2) ;; set_count tl (λ n, n + 1))
    (λ _ s', tl_rep s' (<[tl := l1 ++ t :: l2]> L) T) (λ _ _, False) s.
Proof.
  intros Hrep Htl Ht Hoff. destruct (gap _ _ _ _ _ _ Hrep Htl) as (Hne & x & y & Hx & Hxn & Hy & Hyp).
  destruct (gap_not_thread _ _ _ _ _ Htl Hoff). destruct (tr_self _ _ _ Hrep t Ht) as (z & Hz & _).
  wp_step. eapply wp_conseq; [by apply (insertbeforenode_spec X s (left_of tl l1) (right_of tl l2) t x y z)| |done]. intros [] s1 [Hsp Hc]. unfold set_count. wp_step.
  eapply (tl_rep_insert s); try done. intros k. simpl. by rewrite Hc.
Qed.

Lemma remove_thread X s L T tl l1 t l2 (Q : unit → tlstate → Prop) :
  tl_rep s L T → L !! tl = Some (l1 ++ t :: l2) →
  (∀ s', tl_rep s' (<[tl := l1 ++ l2]> L) T → Q tt s') →
  wpx X (threadlist_removenode (Node t) ;; set_count tl (λ n, n - 1)) Q (λ _ _, False) s.
Proof.
  intros Hrep Htl HQ. destruct (neighbours _ _ _ _ _ _ _ Hrep Htl) as (? & ? & ? & x & y & z & Hx & Hy & Hz & Hp & Hn & _).
  wp_step. eapply wp_conseq; [by apply (removenode_spec X s (left_of tl l1) (right_of tl l2) t x y z)| |done].
  intros [] s1 [Hun Hc]. unfold set_count. wp_step.
  apply HQ. eapply (tl_rep_remove s); try done; [|intros k; simpl; by rewrite Hc].
  eapply (tr_thread _ _ _ Hrep tl _ t Htl). rewrite elem_of_app, elem_of_cons. auto.
Qed.

(** ** The list operations against lists *)

Inductive tl_op :=
| AddHead (tl t : Z) | AddTail (tl t : Z) | RemHead (tl : Z) | RemTail (tl : Z)
| InsertAfter (tl onlist t : Z) | InsertBefore (tl t onlist : Z) | Remove (tl t : Z) | IsEmpty (tl : Z).

Inductive tl_answer := Done | Thread (o : option Z) | Empty (b : bool).

Definition exec_tl (o : tl_op) : TL tl_answer :=
  match o with
  | AddHead tl t => threadlist_addhead tl t ;; ret Done
  | AddTail tl t => threadlist_addtail tl t ;; ret Done
  | RemHead tl => r <- threadlist_remhead tl ;; ret (Thread r)
  | RemTail tl => r <- threadlist_remtail tl ;; ret (Thread r)
  | InsertAfter tl u t => threadlist_insertafter tl u t ;; ret Done
  | InsertBefore tl t u => threadlist_insertbefore tl t u ;; ret Done
  | Remove tl t => threadlist_remove tl t ;; ret Done
  | IsEmpty tl => b <- threadlist_isempty tl ;; ret (Empty b)
  end.

(** What each does to the lists. *)
Inductive lists_op (T : gset Z) : tl_op → gmap Z (list Z) → tl_answer → gmap Z (list Z) → Prop :=
| lo_addhead L tl t ts : L !! tl = Some ts → t ∈ T → off_lists L t →
    lists_op T (AddHead tl t) L Done (<[tl := t :: ts]> L)
| lo_addtail L tl t ts : L !! tl = Some ts → t ∈ T → off_lists L t →
    lists_op T (AddTail tl t) L Done (<[tl := ts ++ [t]]> L)
| lo_remhead L tl t ts : L !! tl = Some (t :: ts) → lists_op T (RemHead tl) L (Thread (Some t)) (<[tl := ts]> L)
| lo_remhead_empty L tl : L !! tl = Some [] → lists_op T (RemHead tl) L (Thread None) L
| lo_remtail L tl t ts : L !! tl = Some (ts ++ [t]) → lists_op T (RemTail tl) L (Thread (Some t)) (<[tl := ts]> L)
| lo_remtail_empty L tl : L !! tl = Some [] → lists_op T (RemTail tl) L (Thread None) L
| lo_after L tl u t l1 l2 : L !! tl = Some (l1 ++ u :: l2) → t ∈ T → off_lists L t →
    lists_op T (InsertAfter tl u t) L Done (<[tl := l1 ++ u :: t :: l2]> L)
| lo_before L tl u t l1 l2 : L !! tl = Some (l1 ++ u :: l2) → t ∈ T → off_lists L t →
    lists_op T (InsertBefore tl t u) L Done (<[tl := l1 ++ t :: u :: l2]> L)
| lo_remove L tl t l1 l2 : L !! tl = Some (l1 ++ t :: l2) → lists_op T (Remove tl t) L Done (<[tl := l1 ++ l2]> L)
| lo_empty L tl ts : L !! tl = Some ts → lengthZ ts < 2 ^ 32 →
    lists_op T (IsEmpty tl) L (Empty (bool_decide (ts = []))) L.

Lemma remhead_spec X s L T tl t ts : tl_rep s L T → L !! tl = Some (t :: ts) →
  wpx X (threadlist_remhead tl) (λ r s', r = Some t ∧ tl_rep s' (<[tl := ts]> L) T) (λ _ _, False) s.
Proof.
  intros Hrep Htl. assert (t ∈ T) as Ht by (eapply (tr_thread _ _ _ Hrep tl); [done|by left]).
  destruct (neighbours _ _ _ tl [] t ts Hrep Htl) as (_ & _ & _ & x & y & z & Hx & Hy & Hz & Hp & Hn & Hxn & _).
  unfold threadlist_remhead. wp_step. eapply wp_read_node; [done|]. wp_step. rewrite Hxn. eapply wp_deref; [done|].
  wp_step. eapply wp_read_node; [done|]. rewrite Hn. simpl is_null. cbv iota.
  apply wp_bind2. apply (remove_thread X s L T tl [] t ts); [done..|]. intros s' Hrep'.
  destruct (tr_self _ _ _ Hrep' t Ht) as (w & Hw & Hs). wp_step. eapply wp_read_node; [done|]. by wp_step.
Qed.

Lemma remtail_spec X s L T tl t ts : tl_rep s L T → L !! tl = Some (ts ++ [t]) →
  wpx X (threadlist_remtail tl) (λ r s', r = Some t ∧ tl_rep s' (<[tl := ts]> L) T) (λ _ _, False) s.
Proof.
  intros Hrep Htl. assert (t ∈ T) as Ht by (eapply (tr_thread _ _ _ Hrep tl); [done|set_solver]).
  destruct (neighbours _ _ _ tl ts t [] Hrep Htl) as (_ & _ & _ & x & y & z & Hx & Hy & Hz & Hp & Hn & _ & Hyp).
  unfold threadlist_remtail. wp_step. eapply wp_read_node; [done|]. wp_step. rewrite Hyp. eapply wp_deref; [done|].
  wp_step. eapply wp_read_node; [done|]. rewrite Hp. simpl is_null. cbv iota.
  apply wp_bind2. apply (remove_thread X s L T tl ts t []); [done..|]. rewrite app_nil_r. intros s' Hrep'.
  destruct (tr_self _ _ _ Hrep' t Ht) as (w & Hw & Hs). wp_step. eapply wp_read_node; [done|]. by wp_step.
Qed.

Lemma rem_empty X s L T tl : tl_rep s L T → L !! tl = Some [] →
  wpx X (threadlist_remhead tl) (λ r s', r = None ∧ s' = s) (λ _ _, False) s ∧
  wpx X (threadlist_remtail tl) (λ r s', r = None ∧ s' = s) (λ _ _, False) s.
Proof.
  intros Hrep Htl. destruct (tr_links _ _ _ Hrep tl _ Htl) as (H1 & H2 & _).
  destruct (tr_head _ _ _ Hrep tl _ Htl) as [n Hn], (tr_tail _ _ _ Hrep tl _ Htl) as [p Hp].
  unfold nxt, prv in *. rewrite Hn in H1. rewrite Hp in H2. simpl in H1, H2. subst n p.
  unfold threadlist_remhead, threadlist_remtail. split.
  - wp_step. eapply wp_read_node; [done|]. wp_step. eapply wp_deref; [done|]. wp_step. eapply wp_read_node; [done|].
    cbn [tln_next is_null]. by wp_step.
  - wp_step. eapply wp_read_node; [done|]. wp_step. eapply wp_deref; [done|]. wp_step. eapply wp_read_node; [done|].
    cbn [tln_prev is_null]. by wp_step.
Qed.

Lemma exec_tl_spec X T o s L a L' :
  tl_rep s L T → lists_op T o L a L' → wpx X (exec_tl o) (λ r s', r = a ∧ tl_rep s' L' T) (λ _ _, False) s.
Proof.
  intros Hrep Hop. destruct Hop as [L tl t ts Htl Ht Hoff|L tl t ts Htl Ht Hoff|L tl t ts Htl|L tl Htl|L tl t ts Htl|L tl Htl
    |L tl u t l1 l2 Htl Ht Hoff|L tl u t l1 l2 Htl Ht Hoff|L tl t l1 l2 Htl|L tl ts Htl Hlen]; unfold exec_tl; wp_step.
  - eapply wp_conseq; [by apply (insert_after_gap X s L T tl [] ts t)| |done]. intros [] s' ?. by wp_step.
  - eapply wp_conseq; [apply (insert_before_gap X s L T tl ts [] t); by rewrite ?app_nil_r| |done]. intros [] s' ?. by wp_step.
  - eapply wp_conseq; [by apply remhead_spec| |done]. intros r s' [-> ?]. by wp_step.
  - eapply wp_conseq; [by apply (rem_empty X s L T tl)| |done]. intros r s' [-> ->]. by wp_step.
  - eapply wp_conseq; [by apply remtail_spec| |done]. intros r s' [-> ?]. by wp_step.
  - eapply wp_conseq; [by apply (rem_empty X s L T tl)| |done]. intros r s' [-> ->]. by wp_step.
  - assert (L !! tl = Some ((l1 ++ [u]) ++ l2)) as Htl' by (by rewrite <- app_assoc).
    pose proof (insert_after_gap X s L T tl (l1 ++ [u]) l2 t Hrep Htl' Ht Hoff) as H. unfold left_of in H.
    rewrite last_snoc, <- app_assoc in H. eapply wp_conseq; [exact H| |done]. intros [] s' ?. by wp_step.
  - eapply wp_conseq; [apply (insert_before_gap X s L T tl l1 (u :: l2) t); done| |done]. intros [] s' ?. by wp_step.
  - apply (remove_thread X s L T tl l1 t l2); [done..|]. intros s' ?. by wp_step.
  - unfold threadlist_isempty. wp_steps. split; [|done]. f_equal. rewrite (tr_count _ _ _ Hrep tl ts Htl).
    rewrite u32_small by (pose proof (lengthZ_nonneg ts); lia). case_bool_decide as E; [by subst|].
    destruct ts; [done|]. rewrite lengthZ_cons. pose proof (lengthZ_nonneg ts). lia.
Qed.

(** ** Setting up *)

Definition no_threads : tlstate := mkTL (λ _, None) (λ _, 0).
Lemma no_threads_rep : tl_rep no_threads ∅ ∅.
Proof. constructor; intros *; rewrite ?lookup_empty; done || set_solver. Qed.

Lemma threadlist_init_spec X s L T tl : tl_rep s L T → L !! tl = None →
  wpx X (threadlist_init tl) (λ _ s', tl_rep s' (<[tl := []]> L) T) (λ _ _, False) s.
Proof.
  intros Hrep Hnone. unfold threadlist_init, set_count. wp_steps. set (s' := mkTL _ _).
  assert (∀ q, q ≠ Head tl → q ≠ Tail tl → node s' q = node s q) as Hkeep.
  { intros q H1 H2. unfold s'. simpl. by rewrite !decide_False. }
  assert (∀ k l q, L !! k = Some l → q ∈ row k l → node s' q = node s q) as Hrows.
  { intros k l q Hk Hq. apply Hkeep; rewrite elem_of_row in Hq; naive_solver. }
  assert (node s' (Head tl) = Some (mkNode None (Some (Tail tl)) None)) as Hh.
  { unfold s'. simpl. by rewrite decide_True. }
  assert (node s' (Tail tl) = Some (mkNode (Some (Head tl)) None None)) as Ht.
  { unfold s'. simpl. by rewrite decide_True. }
  constructor.
  - intros k l [[<- <-]|[Hne Hk]]%lookup_insert_Some.
    { split_and!; [unfold nxt; by rewrite Hh|unfold prv; by rewrite Ht|done]. }
    eapply links_ext; [|by eapply tr_links]. intros q. by eapply Hrows.
  - intros k l [[<- <-]|[Hne Hk]]%lookup_insert_Some; [by eexists|].
    rewrite (Hrows k l); [by eapply tr_head|done|]. rewrite elem_of_row. auto.
  - intros k l [[<- <-]|[Hne Hk]]%lookup_insert_Some; [by eexists|].
    rewrite (Hrows k l); [by eapply tr_tail|done|]. rewrite elem_of_row. auto.
  - intros k l [[<- <-]|[Hne Hk]]%lookup_insert_Some; unfold s'; simpl; [by rewrite decide_True|].
    rewrite decide_False by done. by eapply tr_count.
  - intros k l [[<- <-]|[Hne Hk]]%lookup_insert_Some; [apply NoDup_nil_2|by eapply tr_nodup].
  - intros k k' l l' u [[<- <-]|[_ Hk]]%lookup_insert_Some [[<- <-]|[_ Hk']]%lookup_insert_Some Hu Hu'; try done;
      [by apply not_elem_of_nil in Hu|by apply not_elem_of_nil in Hu'|by eapply tr_apart].
  - intros k l u [[<- <-]|[_ Hk]]%lookup_insert_Some Hu; [by apply not_elem_of_nil in Hu|by eapply tr_thread].
  - intros u Hu. rewrite Hkeep by done. by eapply tr_self.
  - intros u Hu Hoff. rewrite Hkeep by done. apply (tr_off _ _ _ Hrep); [done|]. intros k l Hk.
    apply (Hoff k l). rewrite lookup_insert_ne; [done|congruence].
Qed.

Lemma threadlistnode_init_spec X s L T t : tl_rep s L T → t ∉ T →
  wpx X (threadlistnode_init t) (λ _ s', tl_rep s' L ({[t]} ∪ T)) (λ _ _, False) s.
Proof.
  intros Hrep Hnew. unfold threadlistnode_init. wp_step.
  assert (∀ k l q, L !! k = Some l → q ∈ row k l → q ≠ Node t) as Hrows.
  { intros k l q Hk Hq ->. rewrite elem_of_row in Hq. destruct Hq as [?|[?|(u & [= <-] & Hu)]]; [done..|].
    by apply Hnew, (tr_thread _ _ _ Hrep k l). }
  constructor.
  - intros k l Hk. eapply links_ext; [|by eapply tr_links]. intros q Hq. simpl. rewrite decide_False; [done|by eapply Hrows].
  - intros k l Hk. simpl. by eapply tr_head.
  - intros k l Hk. simpl. by eapply tr_tail.
  - apply (tr_count _ _ _ Hrep).
  - apply (tr_nodup _ _ _ Hrep).
  - apply (tr_apart _ _ _ Hrep).
  - intros k l u Hk Hu. apply elem_of_union_r. by eapply tr_thread.
  - intros u [->%elem_of_singleton|Hu]%elem_of_union; simpl; [rewrite decide_True by done; by eexists|].
    rewrite decide_False by congruence. by eapply tr_self.
  - intros u [->%elem_of_singleton|Hu]%elem_of_union Hoff; simpl; [by rewrite decide_True|].
    rewrite decide_False by congruence. by apply (tr_off _ _ _ Hrep).
Qed.

(** The first thread of what is left of a list, as its node records it. *)
Lemma right_self s L T tl l1 ts y : tl_rep s L T → L !! tl = Some (l1 ++ ts) → node s (right_of tl ts) = Some y →
  tln_self y = match ts with [] => None | u :: _ => Some u end.
Proof.
  intros Hrep Htl Hy. destruct ts as [|u ts]; simpl in Hy.
  - destruct (tr_tail _ _ _ Hrep tl _ Htl) as [p Hp]. rewrite Hp in Hy. by injection Hy as <-.
  - destruct (tr_self _ _ _ Hrep u) as (w & Hw & Hs); [|by rewrite Hw in Hy; injection Hy as <-].
    eapply (tr_thread _ _ _ Hrep tl _ u Htl). set_solver.
Qed.

Lemma read_node_ok s p x : node s p = Some x → read_node p s = Ok x s.
Proof. unfold read_node, bind, get, deref. by intros ->. Qed.

(** The run of the macro comes to the tail bookend, which is no thread's. *)
Lemma forall_loop_undef s L T tl l1 ts fuel : tl_rep s L T → L !! tl = Some (l1 ++ ts) → (length ts < fuel)%nat →
  threadlist_forall_loop fuel (match ts with [] => None | t :: _ => Some t end) s = Undef.
Proof.
  intros Hrep. revert l1 ts. induction fuel as [|fuel IH]; intros l1 ts Htl Hlen; [lia|].
  destruct ts as [|t ts]; [done|]. simpl in Hlen. cbn [threadlist_forall_loop].
  destruct (neighbours _ _ _ tl l1 t ts Hrep Htl) as (_ & _ & _ & x & y & z & _ & Hy & Hz & _ & Hn & _).
  assert (L !! tl = Some ((l1 ++ [t]) ++ ts)) as Htl' by (by rewrite <- app_assoc).
  erewrite bind_ok; [|reflexivity]. erewrite bind_ok; [|by apply read_node_ok]. rewrite Hn.
  erewrite bind_ok; [|by apply read_node_ok]. apply bind_undef. rewrite (right_self _ _ _ _ _ _ _ Hrep Htl' Hy).
  apply (IH (l1 ++ [t])); [done|lia].
Qed.

(** ** Properties *)

(** C40. The pointer code implements lists: on any store that represents a family
    of disjoint lists, every operation does to them what it says, returns what it
    says, and leaves every other list alone; nodes taken off are blank again. *)
Theorem threadlist_refines_lists T o s L a L' :
  tl_rep s L T → lists_op T o L a L' → wp (exec_tl o) (λ r s', r = a ∧ tl_rep s' L' T) (λ _ _, False) s.
Proof. apply exec_tl_spec. Qed.

(** THREADLIST_FORALL never ends well: on every list, empty ones included, it
    runs past the last thread to the bookend, whose tln_self is NULL, and looks
    for the next thread through that null pointer. *)
Theorem threadlist_forall_undefined s L T tl ts fuel :
  tl_rep s L T → L !! tl = Some ts → (length ts < fuel)%nat → THREADLIST_FORALL fuel tl s = Undef.
Proof.
  intros Hrep Htl Hlen. destruct (gap _ _ _ tl [] ts Hrep Htl) as (_ & x & y & Hx & Hn & Hy & _).
  unfold THREADLIST_FORALL. erewrite bind_ok; [|by apply read_node_ok]. rewrite Hn.
  erewrite bind_ok; [|reflexivity]. erewrite bind_ok; [|by apply read_node_ok].
  rewrite (right_self _ _ _ _ [] _ _ Hrep Htl Hy). by apply (forall_loop_undef s L T tl [] ts).
Qed.

(** Two threads, 7 and 8, the first of them on list 1. *)
Definition demo_setup : TL unit :=
  threadlistnode_init 7 ;; threadlistnode_init 8 ;; threadlist_init 1 ;; threadlist_addhead 1 7.
Definition demo_lists : tlstate := match demo_setup no_threads with Ok _ s => s | _ => no_threads end.
Lemma demo_lists_rep : tl_rep demo_lists {[1 := [7]]} ({[8]} ∪ ({[7]} ∪ ∅)).
Proof.
  assert (wp demo_setup (λ _ s, tl_rep s {[1 := [7]]} ({[8]} ∪ ({[7]} ∪ ∅))) (λ _ _, False) no_threads) as H.
  { unfold demo_setup. wp_step. eapply wp_conseq; [apply (threadlistnode_init_spec _ _ ∅ ∅ 7 no_threads_rep); set_solver| |done].
    intros [] s1 H1. wp_step. eapply wp_conseq; [apply (threadlistnode_init_spec _ _ _ _ 8 H1); set_solver| |done].
    intros [] s2 H2. wp_step. eapply wp_conseq; [by apply (threadlist_init_spec _ _ _ _ 1 H2)| |done].
    intros [] s3 H3. unfold threadlist_addhead.
    eapply wp_conseq; [apply (insert_after_gap _ s3 _ _ 1 [] [] 7 H3); [done|set_solver|]| |done].
    - intros k l [[<- <-]|[_ Hk]]%lookup_insert_Some; [apply not_elem_of_nil|by rewrite lookup_empty in Hk].
    - intros [] s4 H4. by rewrite insert_insert_eq in H4. }
  unfold demo_lists. unfold wpx in H. by destruct (demo_setup no_threads).
Qed.

Lemma threadlist_refines_lists_witness :
  wp (exec_tl (AddTail 1 8)) (λ r s', r = Done ∧ tl_rep s' {[1 := [7; 8]]} ({[8]} ∪ ({[7]} ∪ ∅)))
    (λ _ _, False) demo_lists.
Proof.
  change {[1 := [7; 8]]} with (<[1 := [7] ++ [8]]> ({[1 := [7]]} : gmap Z (list Z))).
  apply (threadlist_refines_lists ({[8]} ∪ ({[7]} ∪ ∅)) (AddTail 1 8) demo_lists {[1 := [7]]}).
  - exact demo_lists_rep.
  - apply lo_addtail; [reflexivity|set_solver|]. intros k l Hk. apply lookup_singleton_Some in Hk as [_ <-]. set_solver.
Defined.

Lemma threadlist_forall_undefined_witness : THREADLIST_FORALL 5 1 demo_lists = Undef.
Proof.
  apply (threadlist_forall_undefined demo_lists {[1 := [7]]} ({[8]} ∪ ({[7]} ∪ ∅)) 1 [7] 5 demo_lists_rep);
    [reflexivity|simpl; lia].
Defined.
