(* ===== verification/Interleave.v ===== *)
(** * Threads running side by side

    What the models of synch.c share: a list of control states, one for each
    thread, of which one thread at a time takes a step; spinlocks, held by the
    threads whose control state says so; and the counting of threads in given
    control states; and wait channels, whose sleepers are either on the channel
    or in the hands of the thread that is waking them. *)

From S2P Require Import Prelude.
#[local] Open Scope kern_scope.

(** A step is taken, or the thread spins or sleeps, or an assertion fails. *)
Inductive progress (S : Type) := Next (s : S) | Blocked | Crash.
Arguments Next {_} _.
Arguments Blocked {_}.
Arguments Crash {_}.

Section Interleave.
Context {S E : Type} (exec : E → S → progress S).

Definition takes (s s' : S) : Prop := ∃ e, exec e s = Next s'.
Definition reaches : S → S → Prop := rtc takes.

Lemma reaches_ind_inv (I : S → Prop) s0 s :
  I s0 → (∀ s s' e, I s → exec e s = Next s' → I s') → reaches s0 s → I s.
Proof. intros H0 Hstep Hr. induction Hr as [|s s' s'' [e He] _ IH]; [done|]. apply IH. by eapply Hstep. Qed.

(** A run along a list of events, to try things out. *)
Fixpoint run (l : list E) (s : S) : option S :=
  match l with
  | [] => Some s
  | e :: l' => match exec e s with Next s' => run l' s' | _ => None end
  end.

Lemma run_reaches_state l s s' : run l s = Some s' → reaches s s'.
Proof.
  revert s. induction l as [|e l IH]; intros s; simpl; [intros [= ->]; apply rtc_refl|].
  destruct (exec e s) as [s1| |] eqn:He; [|done..]. intros Hr. eapply rtc_l; [by exists e|by apply IH].
Qed.
End Interleave.

Section Pcs.
Context {pc : Type}.
Implicit Types (l : list pc) (f : pc → bool).

(** ** Who holds a spinlock *)

Definition owns (lk : option Z) f l : Prop := ∀ t, lk = Some t ↔ ∃ c, l.[t] = Some c ∧ f c = true.

Lemma lookupZ_goto l t c c' u : l.[t] = Some c → l.[t := c'].[u] = if decide (u = t) then Some c' else l.[u].
Proof.
  intros Ht. rewrite lookupZ_update by (by eapply lookupZ_Some_range). repeat case_decide; congruence.
Qed.

Lemma goto_cases l t c c' u d : l.[t] = Some c → l.[t := c'].[u] = Some d → (u = t ∧ d = c') ∨ (u ≠ t ∧ l.[u] = Some d).
Proof. intros Ht. rewrite (lookupZ_goto _ _ _ _ _ Ht). case_decide; naive_solver. Qed.

Lemma owns_step lk f l t c c' : owns lk f l → l.[t] = Some c → f c' = f c → owns lk f l.[t := c'].
Proof.
  intros Ho Ht Hf u. rewrite (Ho u), (lookupZ_goto _ _ _ _ _ Ht). case_decide; [subst; naive_solver congruence|done].
Qed.

Lemma owns_take f l t c c' : owns None f l → l.[t] = Some c → f c' = true → owns (Some t) f l.[t := c'].
Proof.
  intros Ho Ht Hf u. rewrite (lookupZ_goto _ _ _ _ _ Ht). case_decide as E; [subst u; naive_solver|].
  split; [congruence|]. intros Hu%Ho. done.
Qed.

Lemma owns_drop lk f l t c c' : owns lk f l → l.[t] = Some c → f c = true → f c' = false → owns None f l.[t := c'].
Proof.
  intros Ho Ht Hf Hf' u. rewrite (lookupZ_goto _ _ _ _ _ Ht). split; [done|].
  case_decide; [naive_solver congruence|]. intros Hu%Ho.
  assert (lk = Some t) by (apply Ho; by exists c). congruence.
Qed.

Lemma owns_unique lk f l t u c d : owns lk f l → l.[t] = Some c → l.[u] = Some d → f c = true → f d = true → t = u.
Proof.
  intros Ho Ht Hu Hc Hd. assert (lk = Some t) by (apply Ho; by exists c).
  assert (lk = Some u) by (apply Ho; by exists d). congruence.
Qed.

Lemma owns_none f l t c : owns None f l → l.[t] = Some c → f c = false.
Proof. intros Ho Ht. destruct (f c) eqn:E; [|done]. assert (None = Some t) by (apply Ho; by exists c). done. Qed.

Lemma owns_holder lk f l t : owns lk f l → lk = Some t → ∃ c, l.[t] = Some c ∧ f c = true.
Proof. intros Ho. apply Ho. Qed.

Lemma owns_init f l : (∀ t c, l.[t] = Some c → f c = false) → owns None f l.
Proof. intros H t. split; [done|]. intros (c & Hc & Hf). apply H in Hc. congruence. Qed.

(** ** Counting *)

Definition count f l : Z := lengthZ (filter (λ c, f c = true) l).

Lemma count_nonneg f l : 0 ≤ count f l.
Proof. apply lengthZ_nonneg. Qed.

Lemma count_app f l1 l2 : count f (l1 ++ l2) = count f l1 + count f l2.
Proof. unfold count. rewrite filter_app. apply lengthZ_app. Qed.

Lemma count_cons f c l : count f (c :: l) = Z.b2z (f c) + count f l.
Proof.
  unfold count. destruct (f c) eqn:E.
  - rewrite filter_cons_True by done. apply lengthZ_cons.
  - rewrite filter_cons_False by congruence. simpl. lia.
Qed.

Lemma count_step f l t c c' : l.[t] = Some c → count f l.[t := c'] = count f l - Z.b2z (f c) + Z.b2z (f c').
Proof.
  intros Ht. pose proof (lookupZ_Some_range _ _ _ Ht). unfold updateZ. rewrite decide_True by lia.
  rewrite lookupZ_nat in Ht by lia. rewrite <- (take_drop_middle l (Z.to_nat t) c Ht) at 2.
  rewrite insert_take_drop by (apply lookup_lt_Some in Ht; done). rewrite !count_app, !count_cons. lia.
Qed.

Lemma count_pos f l t c : l.[t] = Some c → f c = true → 0 < count f l.
Proof.
  intros Ht Hf. pose proof (lookupZ_Some_range _ _ _ Ht). rewrite lookupZ_nat in Ht by lia.
  rewrite <- (take_drop_middle l (Z.to_nat t) c Ht), count_app, count_cons, Hf.
  pose proof (count_nonneg f (take (Z.to_nat t) l)). pose proof (count_nonneg f (drop (Datatypes.S (Z.to_nat t)) l)). simpl. lia.
Qed.

Lemma count_zero f l : (∀ t c, l.[t] = Some c → f c = false) → count f l = 0.
Proof.
  intros Hf. unfold count.
  assert (filter (λ c, f c = true) l = []) as ->; [|done].
  apply elem_of_nil_inv. intros c [Hc [i Hi]%list_elem_of_lookup_1]%list_elem_of_filter.
  rewrite (Hf (Z.of_nat i) c) in Hc; [done|by rewrite lookupZ_of_nat].
Qed.

(** ** Wait channels *)

Section Channel.
Context (asleep : pc → bool) (targets : pc → list Z).

Definition sleeps l (u : Z) : Prop := ∃ c, l.[u] = Some c ∧ asleep c = true.

Record chan_inv (threads : list Z) l : Prop := {
  ch_nodup : NoDup threads;
  ch_listed : ∀ u, u ∈ threads → sleeps l u;
  ch_private : ∀ t c, l.[t] = Some c → NoDup (targets c);
  ch_target : ∀ t c u, l.[t] = Some c → u ∈ targets c → sleeps l u ∧ u ∉ threads;
  ch_unique : ∀ t t' c c' u, l.[t] = Some c → l.[t'] = Some c' → u ∈ targets c → u ∈ targets c' → t = t';
  ch_asleep : ∀ u, sleeps l u → u ∈ threads ∨ ∃ t c, l.[t] = Some c ∧ u ∈ targets c
}.

Lemma chan_init l : (∀ t c, l.[t] = Some c → asleep c = false ∧ targets c = []) → chan_inv [] l.
Proof.
  intros H. split.
  - constructor.
  - by intros u ?%elem_of_nil.
  - intros t c [_ ->]%H. constructor.
  - intros t c u [_ ->]%H. by intros ?%elem_of_nil.
  - intros t t' c c' u [_ ->]%H _. by intros ?%elem_of_nil.
  - intros u (c & [Hc _]%H & Hs). congruence.
Qed.

Lemma sleeps_goto l t c c' u : l.[t] = Some c → asleep c' = asleep c → sleeps l.[t := c'] u ↔ sleeps l u.
Proof.
  intros Ht Ha. unfold sleeps. rewrite (lookupZ_goto _ _ _ _ _ Ht).
  case_decide; [subst; naive_solver congruence|done].
Qed.

Lemma sleeps_false l t c u : l.[t] = Some c → asleep c = false → sleeps l u → u ≠ t.
Proof. intros Ht Hc [d [Hd Hs]] ->. congruence. Qed.

(** A step that has nothing to do with the channel. *)
Lemma chan_step threads l t c c' :
  chan_inv threads l → l.[t] = Some c → asleep c' = asleep c → targets c' = targets c → chan_inv threads l.[t := c'].
Proof.
  intros H Ht Ha Htg.
  assert (∀ v d, l.[t := c'].[v] = Some d → ∃ d', l.[v] = Some d' ∧ targets d' = targets d) as Hold.
  { intros v d. rewrite (lookupZ_goto _ _ _ _ _ Ht). case_decide; naive_solver congruence. }
  assert (∀ v d, l.[v] = Some d → ∃ d', l.[t := c'].[v] = Some d' ∧ targets d' = targets d) as Hnew.
  { intros v d. rewrite (lookupZ_goto _ _ _ _ _ Ht). case_decide; naive_solver congruence. }
  destruct H as [H1 H2 H3 H4 H5 H6]. split; intros *; rewrite ?(sleeps_goto _ _ _ _ _ Ht Ha).
  - done.
  - apply H2.
  - intros (d' & Hd & <-)%Hold. by eapply H3.
  - intros (d' & Hd & <-)%Hold. by eapply H4.
  - intros (d1 & Hd1 & <-)%Hold (d2 & Hd2 & <-)%Hold. by eapply H5.
  - intros [Hu|(v & d & Hd & Hin)]%H6; [by left|right]. apply Hnew in Hd as (d' & ? & Heq). exists v, d'.
    by rewrite Heq.
Qed.

Lemma chan_step2 threads l t u c c' d d' :
  chan_inv threads l → u ≠ t → l.[t] = Some c → l.[u] = Some d → asleep c' = asleep c → targets c' = targets c →
  asleep d' = asleep d → targets d' = targets d → chan_inv threads l.[u := d'].[t := c'].
Proof.
  intros H Hne Ht Hu Hc1 Hc2 Hd1 Hd2. eapply chan_step; [by eapply chan_step| |done..].
  by rewrite (lookupZ_goto _ _ _ _ _ Hu), decide_False.
Qed.

(** Going to sleep at the tail of the channel. *)
Lemma chan_sleep threads l t c c' :
  chan_inv threads l → l.[t] = Some c → asleep c = false → asleep c' = true → targets c = [] → targets c' = [] →
  chan_inv (threads ++ [t]) l.[t := c'].
Proof.
  intros [H1 H2 H3 H4 H5 H6] Ht Ha Ha' Htg Htg'.
  assert (∀ u, sleeps l.[t := c'] u ↔ u = t ∨ sleeps l u) as Hs.
  { intros u. unfold sleeps. rewrite (lookupZ_goto _ _ _ _ _ Ht). case_decide; naive_solver congruence. }
  assert (∀ v d u, l.[t := c'].[v] = Some d → u ∈ targets d → l.[v] = Some d) as Hold.
  { intros v d u. rewrite (lookupZ_goto _ _ _ _ _ Ht). case_decide; [|done].
    intros [= <-]. rewrite Htg'. by intros ?%elem_of_nil. }
  split; intros *; rewrite ?Hs.
  - apply NoDup_app. split; [done|]. split; [|apply NoDup_singleton].
    intros u Hu%H2 ->%list_elem_of_singleton. by eapply sleeps_false in Hu.
  - rewrite elem_of_app, list_elem_of_singleton. naive_solver.
  - rewrite (lookupZ_goto _ _ _ _ _ Ht). case_decide; [intros [= <-]; rewrite Htg'; constructor|apply H3].
  - intros Hv Hu. pose proof (Hold _ _ _ Hv Hu) as Hd. destruct (H4 _ _ _ Hd Hu) as [Hsl Hn]. split; [by right|].
    rewrite elem_of_app, list_elem_of_singleton. intros [?| ->]; [done|]. by eapply sleeps_false in Hsl.
  - intros Hv Hv' Hu Hu'. eapply H5; [by eapply Hold|by eapply Hold|done..].
  - rewrite elem_of_app, list_elem_of_singleton. intros [->|[?|(v & d & Hd & Hin)]%H6]; [by left; right|by left; left|].
    right. exists v, d. split; [|done]. rewrite (lookupZ_goto _ _ _ _ _ Ht). rewrite decide_False; [done|].
    intros ->. rewrite Ht in Hd. injection Hd as <-. rewrite Htg in Hin. by apply elem_of_nil in Hin.
Qed.

(** Taking the thread at the head of the channel in hand. *)
Lemma chan_grab u threads l t c c' :
  chan_inv (u :: threads) l → l.[t] = Some c → asleep c' = asleep c → targets c' = targets c ++ [u] →
  chan_inv threads l.[t := c'].
Proof.
  intros [H1 H2 H3 H4 H5 H6] Ht Ha Htg. apply NoDup_cons in H1 as [Hu H1].
  assert (∀ v d w, l.[t := c'].[v] = Some d → w ∈ targets d →
            (v = t ∧ w = u) ∨ (∃ d', l.[v] = Some d' ∧ w ∈ targets d')) as Hold.
  { intros v d w. rewrite (lookupZ_goto _ _ _ _ _ Ht). case_decide; [|naive_solver]. subst v. intros [= <-].
    rewrite Htg, elem_of_app, list_elem_of_singleton. naive_solver. }
  assert (∀ v d, l.[v] = Some d → u ∉ targets d) as Hnt.
  { intros v d Hd Hin. destruct (H4 _ _ _ Hd Hin) as [_ []]. by left. }
  split; intros *; rewrite ?(sleeps_goto _ _ _ _ _ Ht Ha).
  - done.
  - intros Hv. apply H2. by right.
  - rewrite (lookupZ_goto _ _ _ _ _ Ht). case_decide; [|apply H3]. intros [= <-]. rewrite Htg. apply NoDup_app.
    split; [by eapply H3|]. split; [|apply NoDup_singleton].
    intros w Hw ->%list_elem_of_singleton. by eapply Hnt in Hw.
  - intros Hv Hw. destruct (Hold _ _ _ Hv Hw) as [[-> ->]|(d' & Hd & Hin)].
    + split; [apply H2; by left|done].
    + destruct (H4 _ _ _ Hd Hin) as [? Hn]. split; [done|]. intros ?. apply Hn. by right.
  - intros Hv Hv' Hw Hw'. destruct (Hold _ _ _ Hv Hw) as [[-> ->]|(d1 & Hd1 & Hin1)],
      (Hold _ _ _ Hv' Hw') as [[-> E]|(d2 & Hd2 & Hin2)]; try done.
    + by eapply Hnt in Hin2.
    + subst. by eapply Hnt in Hin1.
    + by eapply H5.
  - intros Hsl. rename u0 into w. destruct (H6 _ Hsl) as [[->|Hw]%elem_of_cons|(v & d & Hd & Hin)]; [|by left|].
    + right. exists t, c'. rewrite (lookupZ_goto _ _ _ _ _ Ht), decide_True by done. split; [done|].
      rewrite Htg. apply elem_of_app. right. by left.
    + right. destruct (decide (v = t)) as [->|].
      * exists t, c'. rewrite (lookupZ_goto _ _ _ _ _ Ht), decide_True by done. split; [done|].
        rewrite Htg. apply elem_of_app. left. congruence.
      * exists v, d. by rewrite (lookupZ_goto _ _ _ _ _ Ht), decide_False.
Qed.

(** Making the first of the threads in hand runnable. *)
Lemma chan_wake u us threads l t c c' d d' :
  chan_inv threads l → l.[t] = Some c → targets c = u :: us → targets c' = us → asleep c = false → asleep c' = false →
  l.[u] = Some d → asleep d = true → targets d = [] → asleep d' = false → targets d' = [] →
  chan_inv threads l.[u := d'].[t := c'].
Proof.
  intros [H1 H2 H3 H4 H5 H6] Ht Htg Htg' Ha Ha' Hu Had Htd Had' Htd'.
  assert (u ≠ t) as Hne by (intros ->; congruence).
  assert (u ∈ targets c) as Hin by (rewrite Htg; by left).
  destruct (H4 _ _ _ Ht Hin) as [_ Hnl]. pose proof (H3 _ _ Ht) as Hnd. rewrite Htg in Hnd.
  apply NoDup_cons in Hnd as [Hnu Hnd].
  assert (l.[u := d'].[t] = Some c) as Ht' by (rewrite (lookupZ_goto _ _ _ _ _ Hu), decide_False by done; done).
  assert (∀ v, l.[u := d'].[t := c'].[v] = if decide (v = t) then Some c' else if decide (v = u) then Some d' else l.[v]) as Hl.
  { intros v. rewrite (lookupZ_goto _ _ _ _ _ Ht'). by rewrite (lookupZ_goto _ _ _ _ _ Hu). }
  assert (∀ v, sleeps l.[u := d'].[t := c'] v ↔ sleeps l v ∧ v ≠ u) as Hs.
  { intros v. unfold sleeps. rewrite Hl. repeat case_decide; naive_solver congruence. }
  assert (∀ v e w, l.[u := d'].[t := c'].[v] = Some e → w ∈ targets e → w ≠ u ∧ ∃ e', l.[v] = Some e' ∧ w ∈ targets e') as Hold.
  { intros v e w. rewrite Hl. case_decide as E1.
    - subst v. intros [= <-]. rewrite Htg'. intros Hw. split; [congruence|]. exists c. rewrite Htg. split; [done|by right].
    - case_decide; [intros [= <-]; rewrite Htd'; by intros ?%elem_of_nil|].
      intros He Hw. split; [|by exists e]. intros ->. destruct E1. by eapply H5. }
  split; intros *; rewrite ?Hs.
  - done.
  - intros Hw. split; [by apply H2|]. by intros ->.
  - rewrite Hl. repeat case_decide; [intros [= <-]; congruence|intros [= <-]; rewrite Htd'; constructor|apply H3].
  - intros Hv Hw. destruct (Hold _ _ _ Hv Hw) as (Hwu & e' & He & Hin'). destruct (H4 _ _ _ He Hin'). done.
  - intros Hv Hv' Hw Hw'. destruct (Hold _ _ _ Hv Hw) as (_ & e1 & ? & ?), (Hold _ _ _ Hv' Hw') as (_ & e2 & ? & ?).
    by eapply H5.
  - intros [Hsl Hwu]. rename u0 into w. destruct (H6 _ Hsl) as [?|(v & e & He & Hwe)]; [by left|right].
    destruct (decide (v = t)) as [->|Hvt].
    + exists t, c'. rewrite Hl, decide_True by done. split; [done|]. rewrite Ht in He. injection He as <-.
      rewrite Htg in Hwe. rewrite Htg'. by apply elem_of_cons in Hwe as [->|?].
    + exists v, e. rewrite Hl, decide_False by done. split; [|done]. rewrite decide_False; [done|].
      intros ->. rewrite Hu in He. injection He as <-. rewrite Htd in Hwe. by apply elem_of_nil in Hwe.
Qed.
End Channel.
End Pcs.
