(* ===== verification/Semaphore.v ===== *)
(** * Semaphores

    Models P and V of kern/thread/synch.c, run by any number of threads in any
    order, down to the single accesses to the semaphore's spinlock, its wait
    channel and the channel's spinlock (wchan_sleep and wchan_wakeone of
    kern/thread/thread.c).  A control state says what a thread does next; the
    thread that is to take the next step is chosen freely. *)

From S2P Require Import Prelude Interleave.
#[local] Open Scope kern_scope.

Inductive sem_pc :=
| Outside               (* in neither P nor V *)
| P_lock                (* spinlock_acquire(&sem->sem_lock) *)
| P_test (woken : bool) (* while (sem->sem_count == 0) *)
| P_wlock               (* wchan_lock(sem->sem_wchan) *)
| P_unlock              (* spinlock_release(&sem->sem_lock) *)
| P_sleep               (* wchan_sleep(sem->sem_wchan) *)
| P_asleep              (* off the processor until made runnable *)
| P_relock              (* spinlock_acquire(&sem->sem_lock), awake again *)
| P_take (woken : bool) (* KASSERT(sem->sem_count > 0); sem->sem_count-- *)
| P_done                (* spinlock_release(&sem->sem_lock) *)
| V_lock                (* spinlock_acquire(&sem->sem_lock) *)
| V_add                 (* sem->sem_count++; KASSERT(sem->sem_count > 0) *)
| V_wlock               (* wchan_wakeone: spinlock_acquire(&wc->wc_lock) *)
| V_remove              (* target = threadlist_remhead(&wc->wc_threads) *)
| V_wunlock (target : option Z)  (* spinlock_release(&wc->wc_lock) *)
| V_ready (target : option Z)    (* if (target != NULL) thread_make_runnable(target) *)
| V_done.               (* spinlock_release(&sem->sem_lock) *)

Record sem := mkSem {
  sem_lock : option Z;
  sem_count : Z;
  wc_lock : option Z;
  wc_threads : list Z;
  sem_pcs : list sem_pc;
  taken : Z;            (* how many times the count has gone down *)
  given : Z             (* and up *)
}.

Definition goto (t : Z) (c : sem_pc) (s : sem) : sem :=
  mkSem (sem_lock s) (sem_count s) (wc_lock s) (wc_threads s) (sem_pcs s).[t := c] (taken s) (given s).
Definition set_sem_lock v s := mkSem v (sem_count s) (wc_lock s) (wc_threads s) (sem_pcs s) (taken s) (given s).
Definition set_wc_lock v s := mkSem (sem_lock s) (sem_count s) v (wc_threads s) (sem_pcs s) (taken s) (given s).
Definition set_wc_threads v s := mkSem (sem_lock s) (sem_count s) (wc_lock s) v (sem_pcs s) (taken s) (given s).

(** spinlock_acquire and spinlock_release of either lock. *)
Definition lock_sem (t : Z) (c : sem_pc) (s : sem) : progress sem :=
  match sem_lock s with None => Next (goto t c (set_sem_lock (Some t) s)) | Some _ => Blocked end.
Definition unlock_sem (t : Z) (c : sem_pc) (s : sem) : progress sem := Next (goto t c (set_sem_lock None s)).
Definition lock_wc (t : Z) (c : sem_pc) (s : sem) : progress sem :=
  match wc_lock s with None => Next (goto t c (set_wc_lock (Some t) s)) | Some _ => Blocked end.
Definition unlock_wc (t : Z) (c : sem_pc) (s : sem) : progress sem := Next (goto t c (set_wc_lock None s)).

(** thread_make_runnable: waking a thread that is not asleep would put a running
    thread on a run queue. *)
Definition wake (t : Z) (u : Z) (s : sem) : progress sem :=
  match (sem_pcs s).[u] with Some P_asleep => Next (goto t V_done (goto u P_relock s)) | _ => Crash end.

(** One step of thread [t]. *)
Definition sem_step (t : Z) (s : sem) : progress sem :=
  match (sem_pcs s).[t] with
  | Some P_lock => lock_sem t (P_test false) s
  | Some (P_test w) => Next (goto t (if sem_count s =? 0 then P_wlock else P_take w) s)
  | Some P_wlock => lock_wc t P_unlock s
  | Some P_unlock => unlock_sem t P_sleep s
  | Some P_sleep => unlock_wc t P_asleep (set_wc_threads (wc_threads s ++ [t]) s)
  | Some P_relock => lock_sem t (P_test true) s
  | Some (P_take _) =>
      if 0 <? sem_count s then
        Next (mkSem (sem_lock s) (sem_count s - 1) (wc_lock s) (wc_threads s) (sem_pcs s).[t := P_done]
                (taken s + 1) (given s))
      else Crash
  | Some P_done => unlock_sem t Outside s
  | Some V_lock => lock_sem t V_add s
  | Some V_add =>
      let n := i32 (sem_count s + 1) in
      if 0 <? n then
        Next (mkSem (sem_lock s) n (wc_lock s) (wc_threads s) (sem_pcs s).[t := V_wlock] (taken s) (given s + 1))
      else Crash
  | Some V_wlock => lock_wc t V_remove s
  | Some V_remove =>
      match wc_threads s with
      | [] => Next (goto t (V_wunlock None) s)
      | u :: l => Next (goto t (V_wunlock (Some u)) (set_wc_threads l s))
      end
  | Some (V_wunlock o) => unlock_wc t (V_ready o) s
  | Some (V_ready None) => Next (goto t V_done s)
  | Some (V_ready (Some u)) => wake t u s
  | Some V_done => unlock_sem t Outside s
  | Some Outside | Some P_asleep | None => Blocked
  end.

(** A thread outside may call P or V; any other goes on with what it is doing. *)
Inductive sem_event := Call_P (t : Z) | Call_V (t : Z) | Step (t : Z).
Definition sem_exec (e : sem_event) (s : sem) : progress sem :=
  match e with
  | Call_P t => match (sem_pcs s).[t] with Some Outside => Next (goto t P_lock s) | _ => Blocked end
  | Call_V t => match (sem_pcs s).[t] with Some Outside => Next (goto t V_lock s) | _ => Blocked end
  | Step t => sem_step t s
  end.

(** A semaphore as sem_create(name, n) leaves it, and [k] threads that know of it. *)
Definition sem_init (n : Z) (k : nat) : sem := mkSem None n None [] (replicate k Outside) 0 0.

(** ** The invariant *)

Definition holds_sem (c : sem_pc) : bool :=
  match c with
  | P_test _ | P_wlock | P_unlock | P_take _ | P_done
  | V_add | V_wlock | V_remove | V_wunlock _ | V_ready _ | V_done => true
  | _ => false
  end.
Definition holds_wc (c : sem_pc) : bool :=
  match c with P_unlock | P_sleep | V_remove | V_wunlock _ => true | _ => false end.

(** Threads that have been, or are about to be, woken for the count they find. *)
Definition awake (c : sem_pc) : bool :=
  match c with
  | P_relock | P_test true | P_take true | V_wlock | V_remove | V_wunlock (Some _) | V_ready (Some _) => true
  | _ => false
  end.
(** Threads that have decided to sleep and are not on the channel yet. *)
Definition dozing (c : sem_pc) : bool := match c with P_wlock | P_unlock | P_sleep => true | _ => false end.

Definition is_asleep (c : sem_pc) : bool := match c with P_asleep => true | _ => false end.
Definition sem_targets (c : sem_pc) : list Z :=
  match c with V_wunlock (Some u) | V_ready (Some u) => [u] | _ => [] end.

Record sem_inv (n : Z) (s : sem) : Prop := {
  si_count : 0 ≤ sem_count s < 2 ^ 31;
  si_balance : sem_count s = n + given s - taken s;
  si_sem : owns (sem_lock s) holds_sem (sem_pcs s);
  si_wc : owns (wc_lock s) holds_wc (sem_pcs s);
  si_chan : chan_inv is_asleep sem_targets (wc_threads s) (sem_pcs s);
  si_zero : ∀ t c, (sem_pcs s).[t] = Some c → c = P_wlock ∨ c = P_unlock → sem_count s = 0;
  si_take : ∀ t w, (sem_pcs s).[t] = Some (P_take w) → 0 < sem_count s;
  si_wakeup : wc_threads s ≠ [] ∨ (∃ t c, (sem_pcs s).[t] = Some c ∧ dozing c = true) →
    sem_count s ≤ count awake (sem_pcs s)
}.

Lemma sem_inv_create n k : 0 ≤ n < 2 ^ 31 → sem_inv n (sem_init n k).
Proof.
  intros Hn. assert (∀ t c, (replicate k Outside).[t] = Some c → c = Outside) as Hout.
  { intros t c Ht. pose proof (lookupZ_Some_range _ _ _ Ht). rewrite lookupZ_nat in Ht by lia.
    by apply lookup_replicate in Ht as [-> _]. }
  split; cbn [sem_init sem_lock sem_count wc_lock wc_threads sem_pcs taken given]; try lia.
  - apply owns_init. by intros t c ->%Hout.
  - apply owns_init. by intros t c ->%Hout.
  - apply chan_init. by intros t c ->%Hout.
  - intros t c ->%Hout. by intros [].
  - by intros t w ?%Hout.
  - intros [[]|(t & c & ->%Hout & ?)]; done.
Qed.

(** ** Preservation *)

Section Preserve.
Context (n : Z) (s : sem) (H : sem_inv n s) (t : Z).

(** While somebody holds the semaphore's spinlock, nobody else does. *)
Lemma only_holder c u d :
  (sem_pcs s).[t] = Some c → holds_sem c = true → (sem_pcs s).[u] = Some d → holds_sem d = true → u = t.
Proof. intros Ht Hc Hu Hd. by eapply (owns_unique _ _ _ _ _ _ _ (si_sem _ _ H)). Qed.

(** A step that leaves the count and the channel alone. *)
Lemma sem_move c c' lk lw :
  (sem_pcs s).[t] = Some c →
  owns lk holds_sem (sem_pcs s).[t := c'] → owns lw holds_wc (sem_pcs s).[t := c'] →
  is_asleep c' = is_asleep c → sem_targets c' = sem_targets c →
  (c' = P_wlock ∨ c' = P_unlock → sem_count s = 0) → (∀ w, c' = P_take w → 0 < sem_count s) →
  ((wc_threads s = [] ∧ ∀ u d, (sem_pcs s).[u] = Some d → dozing d = false) ∨ awake c' = awake c ∨ sem_count s = 0) →
  (dozing c' = true → dozing c = true ∨ sem_count s = 0) →
  sem_inv n (mkSem lk (sem_count s) lw (wc_threads s) (sem_pcs s).[t := c'] (taken s) (given s)).
Proof.
  intros Ht Hlk Hlw Has Htg Hz Htk Haw Hdz. destruct H as [H1 H2 H3 H4 H5 H6 H7 H8].
  split; cbn [sem_lock sem_count wc_lock wc_threads sem_pcs taken given]; try done.
  - by eapply chan_step.
  - intros u d [[-> ->]|[_ Hu]]%(goto_cases _ _ _ _ _ _ Ht); [done|by eapply H6].
  - intros u w [[-> ->%eq_sym]|[_ Hu]]%(goto_cases _ _ _ _ _ _ Ht); [by eapply Htk|by eapply H7].
  - rewrite (count_step _ _ _ _ _ Ht). intros Hor.
    pose proof (count_nonneg awake (sem_pcs s).[t := c']) as Hnn. rewrite (count_step _ _ _ _ _ Ht) in Hnn.
    destruct (decide (sem_count s = 0)) as [->|Hne]; [lia|].
    assert (wc_threads s ≠ [] ∨ ∃ u d, (sem_pcs s).[u] = Some d ∧ dozing d = true) as Hold.
    { destruct Hor as [|(u & d & [[-> ->]|[_ Hu]]%(goto_cases _ _ _ _ _ _ Ht) & Hd)]; [by left| |]; right; [|by exists u, d].
      exists t, c. destruct Hdz; done. }
    destruct Haw as [[Hnil Hno]|[->|?]]; [|specialize (H8 Hold); lia|done].
    destruct Hold as [?|(u & d & Hu & Hd)]; [done|]. apply Hno in Hu. congruence.
Qed.

Lemma sem_sleep : (sem_pcs s).[t] = Some P_sleep →
  sem_inv n (mkSem (sem_lock s) (sem_count s) None (wc_threads s ++ [t]) (sem_pcs s).[t := P_asleep] (taken s) (given s)).
Proof.
  intros Ht. destruct H as [H1 H2 H3 H4 H5 H6 H7 H8].
  split; cbn [sem_lock sem_count wc_lock wc_threads sem_pcs taken given]; try done.
  - by eapply owns_step.
  - by eapply owns_drop.
  - by eapply chan_sleep.
  - intros u d [[-> ->]|[_ Hu]]%(goto_cases _ _ _ _ _ _ Ht); [by intros []|by eapply H6].
  - intros u w [[-> ?]|[_ Hu]]%(goto_cases _ _ _ _ _ _ Ht); [done|by eapply H7].
  - intros _. rewrite (count_step _ _ _ _ _ Ht). simpl. rewrite Z.sub_0_r, Z.add_0_r. apply H8. right. by exists t, P_sleep.
Qed.

Lemma sem_take w : (sem_pcs s).[t] = Some (P_take w) →
  sem_inv n (mkSem (sem_lock s) (sem_count s - 1) (wc_lock s) (wc_threads s) (sem_pcs s).[t := P_done] (taken s + 1) (given s)).
Proof.
  intros Ht. destruct H as [H1 H2 H3 H4 H5 H6 H7 H8]. pose proof (H7 _ _ Ht) as Hpos.
  split; cbn [sem_lock sem_count wc_lock wc_threads sem_pcs taken given]; try lia.
  - by eapply owns_step.
  - by eapply owns_step.
  - by eapply chan_step.
  - intros u d [[-> ->]|[Hne Hu]]%(goto_cases _ _ _ _ _ _ Ht); [by intros []|].
    intros Hor. destruct Hne. eapply only_holder; [done..|]. by destruct Hor as [->| ->].
  - intros u w' [[-> ?]|[Hne Hu]]%(goto_cases _ _ _ _ _ _ Ht); [done|]. destruct Hne. by eapply only_holder.
  - rewrite (count_step _ _ _ _ _ Ht). intros Hor. simpl. enough (sem_count s ≤ count awake (sem_pcs s)) by (destruct w; simpl; lia).
    apply H8. destruct Hor as [|(u & d & [[-> ->]|[_ Hu]]%(goto_cases _ _ _ _ _ _ Ht) & Hd)]; [by left|done|right; by exists u, d].
Qed.

Lemma sem_add : (sem_pcs s).[t] = Some V_add → sem_count s + 1 < 2 ^ 31 →
  sem_inv n (mkSem (sem_lock s) (sem_count s + 1) (wc_lock s) (wc_threads s) (sem_pcs s).[t := V_wlock] (taken s) (given s + 1)).
Proof.
  intros Ht Hov. destruct H as [H1 H2 H3 H4 H5 H6 H7 H8].
  split; cbn [sem_lock sem_count wc_lock wc_threads sem_pcs taken given]; try lia.
  - by eapply owns_step.
  - by eapply owns_step.
  - by eapply chan_step.
  - intros u d [[-> ->]|[Hne Hu]]%(goto_cases _ _ _ _ _ _ Ht); [by intros []|].
    intros Hor. destruct Hne. eapply only_holder; [done..|]. by destruct Hor as [->| ->].
  - rewrite (count_step _ _ _ _ _ Ht). intros Hor. simpl. enough (sem_count s ≤ count awake (sem_pcs s)) by lia.
    apply H8. destruct Hor as [|(u & d & [[-> ->]|[_ Hu]]%(goto_cases _ _ _ _ _ _ Ht) & Hd)]; [by left|done|right; by exists u, d].
Qed.

Lemma sem_remove u l : (sem_pcs s).[t] = Some V_remove → wc_threads s = u :: l →
  sem_inv n (mkSem (sem_lock s) (sem_count s) (wc_lock s) l (sem_pcs s).[t := V_wunlock (Some u)] (taken s) (given s)).
Proof.
  intros Ht Hl. destruct H as [H1 H2 H3 H4 H5 H6 H7 H8]. rewrite Hl in H5.
  split; cbn [sem_lock sem_count wc_lock wc_threads sem_pcs taken given]; try done.
  - by eapply owns_step.
  - by eapply owns_step.
  - by eapply chan_grab.
  - intros v d [[-> ->]|[_ Hu]]%(goto_cases _ _ _ _ _ _ Ht); [by intros []|by eapply H6].
  - intros v w [[-> ?]|[_ Hu]]%(goto_cases _ _ _ _ _ _ Ht); [done|by eapply H7].
  - rewrite (count_step _ _ _ _ _ Ht). intros _. simpl. rewrite Z.sub_add. apply H8. left. by rewrite Hl.
Qed.

Lemma sem_wake u : (sem_pcs s).[t] = Some (V_ready (Some u)) → (sem_pcs s).[u] = Some P_asleep ∧
  sem_inv n (mkSem (sem_lock s) (sem_count s) (wc_lock s) (wc_threads s) (sem_pcs s).[u := P_relock].[t := V_done] (taken s) (given s)).
Proof.
  intros Ht. destruct H as [H1 H2 H3 H4 H5 H6 H7 H8].
  assert ((sem_pcs s).[u] = Some P_asleep) as Hu.
  { destruct (ch_target _ _ _ _ H5 t _ u Ht) as [(d & Hd & Ha) _]; [by left|]. by destruct d. }
  split; [done|].
  assert (u ≠ t) as Hne by (intros ->; congruence).
  assert ((sem_pcs s).[u := P_relock].[t] = Some (V_ready (Some u))) as Ht'.
  { by rewrite (lookupZ_goto _ _ _ _ _ Hu), decide_False by done. }
  assert (∀ v d, (sem_pcs s).[u := P_relock].[t := V_done].[v] = Some d → d = V_done ∨ d = P_relock ∨ (sem_pcs s).[v] = Some d) as Hold.
  { intros v d. rewrite (lookupZ_goto _ _ _ _ _ Ht'), (lookupZ_goto _ _ _ _ _ Hu). repeat case_decide; naive_solver. }
  split; cbn [sem_lock sem_count wc_lock wc_threads sem_pcs taken given]; try done.
  - eapply owns_step; [by eapply owns_step|done..].
  - eapply owns_step; [by eapply owns_step|done..].
  - by eapply chan_wake.
  - intros v d [->|[->|Hv]]%Hold; [by intros []..|by eapply H6].
  - intros v w [?|[?|Hv]]%Hold; [done..|by eapply H7].
  - rewrite (count_step _ _ _ _ _ Ht'), (count_step _ _ _ _ _ Hu). intros Hor. simpl.
    enough (sem_count s ≤ count awake (sem_pcs s)) by lia. apply H8.
    destruct Hor as [|(v & d & [->|[->|Hv]]%Hold & Hd)]; [by left|done|done|right; by exists v, d].
Qed.
End Preserve.

Lemma count_up x : 0 ≤ x < 2 ^ 31 → 0 < i32 (x + 1) → i32 (x + 1) = x + 1 ∧ x + 1 < 2 ^ 31.
Proof.
  intros Hx Hpos. destruct (decide (x + 1 < 2 ^ 31)) as [Hlt|]; [split; [apply i32_small; lia|done]|].
  assert (x = 2 ^ 31 - 1) as -> by lia. done.
Qed.

(** A step from [c] to [c'] of a thread that takes or drops a lock, or neither. *)
Ltac owns_auto :=
  match goal with
  | Ho : owns ?lk ?f _ |- owns ?lk ?f _ => by eapply owns_step
  | Ho : owns _ ?f _ |- owns (Some _) ?f _ => by eapply owns_take
  | Ho : owns _ ?f _ |- owns None ?f _ => by eapply owns_drop
  end.
Ltac sem_fields :=
  unfold goto, set_sem_lock, set_wc_lock, set_wc_threads;
  cbn [sem_lock sem_count wc_lock wc_threads sem_pcs taken given].
Ltac sem_move_auto :=
  sem_fields;
  apply (sem_move _ _ ltac:(eassumption) _ _ _ _ _ ltac:(eassumption));
    [owns_auto|owns_auto|done|done|try (by intros [])|try done|try (by right; left)|try done].

Lemma sem_step_inv n s s' t : sem_inv n s → sem_step t s = Next s' → sem_inv n s'.
Proof.
  intros H. pose proof (si_sem _ _ H) as Hs. pose proof (si_wc _ _ H) as Hw. unfold sem_step.
  destruct ((sem_pcs s).[t]) as [c|] eqn:Ht; [|done].
  destruct c; try done; unfold lock_sem, unlock_sem, lock_wc, unlock_wc, wake.
  - destruct (sem_lock s) in Hs |- *; [done|]. intros [= <-]. sem_move_auto.
  - intros [= <-]. destruct (sem_count s =? 0) eqn:E; sem_move_auto; try lia; intros; try lia.
    pose proof (si_count _ _ H). lia.
  - destruct (wc_lock s) in Hw |- *; [done|]. intros [= <-]. sem_move_auto.
    + intros _. by apply (si_zero _ _ H _ _ Ht); left.
    + by left.
  - intros [= <-]. sem_move_auto. by left.
  - intros [= <-]. sem_fields. by apply sem_sleep.
  - destruct (sem_lock s) in Hs |- *; [done|]. intros [= <-]. sem_move_auto.
  - destruct (0 <? sem_count s); [|done]. intros [= <-]. by eapply sem_take.
  - intros [= <-]. sem_move_auto.
  - destruct (sem_lock s) in Hs |- *; [done|]. intros [= <-]. sem_move_auto.
  - destruct (0 <? i32 (sem_count s + 1)) eqn:E; [|done]. intros [= <-].
    apply Z.ltb_lt, (count_up _ (si_count _ _ H)) in E as [-> Hlt]. by apply sem_add.
  - destruct (wc_lock s) in Hw |- *; [done|]. intros [= <-]. sem_move_auto.
  - destruct (wc_threads s) as [|u l] eqn:El; intros [= <-]; sem_fields; [sem_move_auto|by apply sem_remove].
    left. split; [done|]. intros u d Hu. destruct (dozing d) eqn:Ed; [|done].
    destruct d; try done; enough (u = t) by congruence; [by eapply only_holder..|].
    by eapply (owns_unique _ _ _ _ _ _ _ Hw).
  - intros [= <-]. destruct target; sem_move_auto.
  - destruct target as [u|]; [|intros [= <-]; sem_move_auto].
    destruct (sem_wake n s H t u Ht) as [-> ?]. intros [= <-]. by sem_fields.
  - intros [= <-]. sem_move_auto.
Qed.

Lemma sem_exec_inv n s s' e : sem_inv n s → sem_exec e s = Next s' → sem_inv n s'.
Proof.
  intros H. pose proof (si_sem _ _ H) as Hs. pose proof (si_wc _ _ H) as Hw. destruct e as [t|t|t]; simpl.
  - destruct ((sem_pcs s).[t]) as [[]|] eqn:Ht; try done. intros [= <-]. sem_move_auto.
  - destruct ((sem_pcs s).[t]) as [[]|] eqn:Ht; try done. intros [= <-]. sem_move_auto.
  - by apply sem_step_inv.
Qed.

Lemma sem_reachable_inv n k s : 0 ≤ n < 2 ^ 31 → reaches sem_exec (sem_init n k) s → sem_inv n s.
Proof. intros Hn. apply reaches_ind_inv; [by apply sem_inv_create|]. intros. by eapply sem_exec_inv. Qed.

(** The only assertion that can fail is V's, when the count overflows. *)
Lemma sem_crash n s e : sem_inv n s → sem_exec e s = Crash →
  ∃ t, e = Step t ∧ (sem_pcs s).[t] = Some V_add ∧ sem_count s = 2 ^ 31 - 1.
Proof.
  intros H. destruct e as [t|t|t]; simpl; [by destruct ((sem_pcs s).[t]) as [[]|]..|]. unfold sem_step.
  destruct ((sem_pcs s).[t]) as [c|] eqn:Ht; [|done]. unfold lock_sem, unlock_sem, lock_wc, unlock_wc, wake.
  destruct c as [| | | | | | | | | | | | | | |[u|]|]; try done; try (by destruct (sem_lock s)); try (by destruct (wc_lock s)).
  - pose proof (si_take _ _ H _ _ Ht). by rewrite (proj2 (Z.ltb_lt _ _)) by done.
  - destruct (0 <? i32 (sem_count s + 1)) eqn:E; [done|]. intros _. exists t. split; [done|]. split; [done|].
    pose proof (si_count _ _ H). apply Z.ltb_ge in E.
    destruct (decide (sem_count s + 1 < 2 ^ 31)); [|lia]. rewrite i32_small in E by lia. lia.
  - by destruct (wc_threads s).
  - by destruct (sem_wake n s H t u Ht) as [-> _].
Qed.

(** Spinlocks are held only by threads that can go on. *)
Lemma wc_holder_moves n s t : sem_inv n s → wc_lock s = Some t → sem_step t s ≠ Blocked.
Proof.
  intros H Hl. destruct (owns_holder _ _ _ _ (si_wc _ _ H) Hl) as (c & Ht & Hc). unfold sem_step. rewrite Ht.
  destruct c; try done. by destruct (wc_threads s).
Qed.

Lemma sem_holder_moves n s t : sem_inv n s → sem_lock s = Some t → ∃ u, sem_step u s ≠ Blocked.
Proof.
  intros H Hl. destruct (owns_holder _ _ _ _ (si_sem _ _ H) Hl) as (c & Ht & Hc).
  destruct (wc_lock s) as [h|] eqn:Hw; [exists h; by eapply wc_holder_moves|].
  exists t. unfold sem_step, lock_wc, wake. rewrite Ht, Hw. destruct c as [| | | | | | | | | | | | | | |[u|]|]; try done.
  - by case_match.
  - by case_match.
  - by destruct (wc_threads s).
  - by destruct (sem_wake n s H t u Ht) as [-> _].
Qed.

Lemma sem_stuck_quiet n s t c : sem_inv n s → (∀ u, sem_step u s = Blocked) → (sem_pcs s).[t] = Some c → c = Outside ∨ c = P_asleep.
Proof.
  intros H Hb Ht. pose proof (Hb t) as Hbt. unfold sem_step, lock_sem, unlock_sem, lock_wc, unlock_wc in Hbt. rewrite Ht in Hbt.
  assert (sem_lock s = None) as Hs.
  { destruct (sem_lock s) eqn:E; [|done]. edestruct sem_holder_moves as [u Hu]; [done..|]. by destruct Hu. }
  assert (wc_lock s = None) as Hw.
  { destruct (wc_lock s) eqn:E; [|done]. edestruct wc_holder_moves; done. }
  rewrite Hs, Hw in Hbt. assert (holds_sem c = false) as Hh.
  { eapply owns_none; [|done]. rewrite <- Hs. apply (si_sem _ _ H). }
  destruct c; try done; auto.
Qed.

(** C37. The count of a semaphore is its initial value plus the completed V's less the
    completed P's, and never negative; and whatever P and V calls any number of
    threads have in progress, no assertion fails in either, a thread made runnable
    is asleep, and only a V that would make the count overflow stops the kernel. *)
Theorem semaphore_safe n k s :
  0 ≤ n < 2 ^ 31 → reaches sem_exec (sem_init n k) s →
  0 ≤ sem_count s < 2 ^ 31 ∧ sem_count s = n + given s - taken s ∧
  (∀ t u c d, (sem_pcs s).[t] = Some c → (sem_pcs s).[u] = Some d → holds_sem c = true → holds_sem d = true → t = u) ∧
  (∀ e, sem_exec e s = Crash → ∃ t, e = Step t ∧ (sem_pcs s).[t] = Some V_add ∧ sem_count s = 2 ^ 31 - 1).
Proof.
  intros Hn Hr. pose proof (sem_reachable_inv _ _ _ Hn Hr) as H.
  split; [apply H|]. split; [apply H|]. split; [|intros e; by apply (sem_crash n)].
  intros t u c d. apply (owns_unique _ _ _ _ _ _ _ (si_sem _ _ H)).
Qed.

(** Thread 0 falls asleep in P; a V by thread 1 wakes it and both finish. *)
Definition sleeper_run : list sem_event := Call_P 0 :: replicate 5 (Step 0).
Definition handover_run : list sem_event := sleeper_run ++ Call_V 1 :: replicate 7 (Step 1) ++ replicate 4 (Step 0).
Definition after_run (l : list sem_event) : sem :=
  match run sem_exec l (sem_init 0 2) with Some s => s | None => sem_init 0 2 end.

Lemma semaphore_safe_witness :
  reaches sem_exec (sem_init 0 2) (after_run handover_run) ∧ given (after_run handover_run) = 1 ∧
  sem_count (after_run handover_run) = 0 + given (after_run handover_run) - taken (after_run handover_run).
Proof.
  assert (reaches sem_exec (sem_init 0 2) (after_run handover_run)) as Hr
    by (apply (run_reaches_state _ handover_run); vm_compute; reflexivity).
  split; [exact Hr|]. split; [vm_compute; reflexivity|].
  apply (semaphore_safe 0 2 (after_run handover_run)); [lia|exact Hr].
Defined.

(** C36. No wakeup is lost and nobody deadlocks: when no thread can take another step,
    each is outside P and V, or asleep in P with the count at zero. *)
Theorem semaphore_no_lost_wakeup n k s :
  0 ≤ n < 2 ^ 31 → reaches sem_exec (sem_init n k) s → (∀ t, sem_step t s = Blocked) →
  ∀ t c, (sem_pcs s).[t] = Some c → c = Outside ∨ (c = P_asleep ∧ sem_count s = 0 ∧ t ∈ wc_threads s).
Proof.
  intros Hn Hr Hb t c Ht. pose proof (sem_reachable_inv _ _ _ Hn Hr) as H.
  assert (∀ u d, (sem_pcs s).[u] = Some d → d = Outside ∨ d = P_asleep) as Hq by (intros u d; by apply (sem_stuck_quiet n)).
  destruct (Hq t c Ht) as [->| ->]; [by left|right]. split; [done|].
  assert (t ∈ wc_threads s) as Hin.
  { destruct (ch_asleep _ _ _ _ (si_chan _ _ H) t) as [?|(u & d & [->| ->]%Hq & Hd)]; [by exists P_asleep|done|..];
      by apply elem_of_nil in Hd. }
  split; [|done]. pose proof (si_count _ _ H).
  assert (sem_count s ≤ count awake (sem_pcs s)) as Hle.
  { apply (si_wakeup _ _ H). left. intros E. rewrite E in Hin. by apply elem_of_nil in Hin. }
  rewrite count_zero in Hle; [lia|]. by intros u d [->| ->]%Hq.
Qed.

Lemma semaphore_no_lost_wakeup_witness :
  (sem_pcs (after_run sleeper_run)).[0] = Some P_asleep ∧ sem_count (after_run sleeper_run) = 0.
Proof.
  assert ((sem_pcs (after_run sleeper_run)).[0] = Some P_asleep) as H0 by (vm_compute; reflexivity).
  split; [exact H0|].
  destruct (semaphore_no_lost_wakeup 0 2 (after_run sleeper_run)) with (t := 0) (c := P_asleep) as [H|(_ & H & _)].
  - lia.
  - apply (run_reaches_state _ sleeper_run). vm_compute. reflexivity.
  - intros t. unfold sem_step. destruct (decide (t = 0)) as [->|]; [vm_compute; reflexivity|].
    destruct (decide (t = 1)) as [->|]; [vm_compute; reflexivity|].
    rewrite (proj2 (lookupZ_None _ _)); [reflexivity|]. change (lengthZ (sem_pcs (after_run sleeper_run))) with 2. lia.
  - exact H0.
  - discriminate H.
  - exact H.
Defined.
