(* ===== verification/LockCv.v ===== *)
(** * Locks and condition variables

    Models lock_acquire, lock_release, lock_do_i_hold, cv_wait, cv_signal and
    cv_broadcast of kern/thread/synch.c, with wchan_sleep, wchan_wakeone and
    wchan_wakeall of kern/thread/thread.c, for a lock, a condition variable used
    with it, and any number of threads that call these operations in any order,
    rightly or wrongly.  As in [Semaphore], a control state says what a thread
    does next. *)

From S2P Require Import Prelude Interleave.
#[local] Open Scope kern_scope.

(** [mine] records that the thread has come back from lock_acquire (or cv_wait)
    and has not called lock_release since; [cv] that lock_release was called by
    cv_wait; [all] that the wakeup is cv_broadcast's. *)
Inductive lock_pc :=
| Out (mine : bool)
(* lock_acquire *)
| A_check (mine : bool)  (* KASSERT(lock_do_i_hold(lock) == false) *)
| A_lock                 (* spinlock_acquire(&lock->lk_lock) *)
| A_test (woken : bool)  (* while (lock->lk_holder != NULL) *)
| A_wlock                (* wchan_lock(lock->lk_wchan) *)
| A_unlock               (* spinlock_release(&lock->lk_lock) *)
| A_sleep                (* wchan_sleep(lock->lk_wchan) *)
| A_asleep
| A_relock               (* spinlock_acquire(&lock->lk_lock), awake again *)
| A_set (woken : bool)   (* KASSERT(lk_holder == NULL); lk_holder = curthread *)
| A_done                 (* spinlock_release(&lock->lk_lock) *)
(* lock_release *)
| R_check (cv mine : bool) (* KASSERT(lock_do_i_hold(lock) == true) *)
| R_lock (cv : bool)       (* spinlock_acquire(&lock->lk_lock) *)
| R_clear (cv : bool)      (* lock->lk_holder = NULL *)
| R_wlock (cv : bool)      (* wchan_wakeone(lock->lk_wchan): spinlock_acquire *)
| R_remove (cv : bool)     (* target = threadlist_remhead *)
| R_wunlock (cv : bool) (target : option Z)
| R_ready (cv : bool) (target : option Z)
| R_done (cv : bool)       (* spinlock_release(&lock->lk_lock) *)
(* cv_wait *)
| C_lock (mine : bool)   (* wchan_lock(cv->cv_wchan) *)
| C_sleep                (* wchan_sleep(cv->cv_wchan) *)
| C_asleep
(* cv_signal, cv_broadcast *)
| K_check (all mine : bool)  (* KASSERT(lock_do_i_hold(lock) == true) *)
| K_wlock (all : bool)       (* wchan_wakeone/all(cv->cv_wchan): spinlock_acquire *)
| K_grab (all : bool) (l : list Z) (* threadlist_remhead(&wc->wc_threads) *)
| K_wunlock (l : list Z)     (* spinlock_release(&wc->wc_lock) *)
| K_ready (l : list Z).      (* thread_make_runnable(target, false) *)

Record locked := mkLocked {
  lk_lock : option Z;
  lk_holder : option Z;
  lk_wchan_lock : option Z;
  lk_wchan : list Z;
  cv_wchan_lock : option Z;
  cv_wchan : list Z;
  lk_pcs : list lock_pc
}.

Definition set_lk_lock v s := mkLocked v (lk_holder s) (lk_wchan_lock s) (lk_wchan s) (cv_wchan_lock s) (cv_wchan s) (lk_pcs s).
Definition set_lk_holder v s := mkLocked (lk_lock s) v (lk_wchan_lock s) (lk_wchan s) (cv_wchan_lock s) (cv_wchan s) (lk_pcs s).
Definition set_lk_wchan_lock v s := mkLocked (lk_lock s) (lk_holder s) v (lk_wchan s) (cv_wchan_lock s) (cv_wchan s) (lk_pcs s).
Definition set_lk_wchan v s := mkLocked (lk_lock s) (lk_holder s) (lk_wchan_lock s) v (cv_wchan_lock s) (cv_wchan s) (lk_pcs s).
Definition set_cv_wchan_lock v s := mkLocked (lk_lock s) (lk_holder s) (lk_wchan_lock s) (lk_wchan s) v (cv_wchan s) (lk_pcs s).
Definition set_cv_wchan v s := mkLocked (lk_lock s) (lk_holder s) (lk_wchan_lock s) (lk_wchan s) (cv_wchan_lock s) v (lk_pcs s).
Definition goto (t : Z) (c : lock_pc) (s : locked) : locked :=
  mkLocked (lk_lock s) (lk_holder s) (lk_wchan_lock s) (lk_wchan s) (cv_wchan_lock s) (cv_wchan s) (lk_pcs s).[t := c].

Definition lock_do_i_hold (t : Z) (s : locked) : bool := bool_decide (lk_holder s = Some t).

(** spinlock_acquire and spinlock_release of the three spinlocks. *)
Definition lock_lk t c s : progress locked :=
  match lk_lock s with None => Next (goto t c (set_lk_lock (Some t) s)) | Some _ => Blocked end.
Definition unlock_lk t c s : progress locked := Next (goto t c (set_lk_lock None s)).
Definition lock_lwc t c s : progress locked :=
  match lk_wchan_lock s with None => Next (goto t c (set_lk_wchan_lock (Some t) s)) | Some _ => Blocked end.
Definition unlock_lwc t c s : progress locked := Next (goto t c (set_lk_wchan_lock None s)).
Definition lock_cwc t c s : progress locked :=
  match cv_wchan_lock s with None => Next (goto t c (set_cv_wchan_lock (Some t) s)) | Some _ => Blocked end.
Definition unlock_cwc t c s : progress locked := Next (goto t c (set_cv_wchan_lock None s)).

(** KASSERT. *)
Definition asserting (b : bool) (s : locked) : progress locked := if b then Next s else Crash.

(** thread_make_runnable: a thread woken from the lock's channel goes round the loop
    of lock_acquire; one woken from the condition variable's calls lock_acquire. *)
Definition wake_lk (u : Z) (s : locked) : progress locked :=
  match (lk_pcs s).[u] with Some A_asleep => Next (goto u A_relock s) | _ => Crash end.
Definition wake_cv (u : Z) (s : locked) : progress locked :=
  match (lk_pcs s).[u] with Some C_asleep => Next (goto u (A_check false) s) | _ => Crash end.
Definition then_goto (t : Z) (c : lock_pc) (p : progress locked) : progress locked :=
  match p with Next s => Next (goto t c s) | Blocked => Blocked | Crash => Crash end.

Definition acquire_step (t : Z) (c : lock_pc) (s : locked) : progress locked :=
  match c with
  | A_check _ => asserting (negb (lock_do_i_hold t s)) (goto t A_lock s)
  | A_lock => lock_lk t (A_test false) s
  | A_test w => Next (goto t (if lk_holder s is Some _ then A_wlock else A_set w) s)
  | A_wlock => lock_lwc t A_unlock s
  | A_unlock => unlock_lk t A_sleep s
  | A_sleep => unlock_lwc t A_asleep (set_lk_wchan (lk_wchan s ++ [t]) s)
  | A_relock => lock_lk t (A_test true) s
  | A_set _ => asserting (bool_decide (lk_holder s = None)) (goto t A_done (set_lk_holder (Some t) s))
  | A_done => unlock_lk t (Out true) s
  | _ => Blocked
  end.

Definition release_step (t : Z) (c : lock_pc) (s : locked) : progress locked :=
  match c with
  | R_check v _ => asserting (lock_do_i_hold t s) (goto t (R_lock v) s)
  | R_lock v => lock_lk t (R_clear v) s
  | R_clear v => Next (goto t (R_wlock v) (set_lk_holder None s))
  | R_wlock v => lock_lwc t (R_remove v) s
  | R_remove v =>
      match lk_wchan s with
      | [] => Next (goto t (R_wunlock v None) s)
      | u :: l => Next (goto t (R_wunlock v (Some u)) (set_lk_wchan l s))
      end
  | R_wunlock v o => unlock_lwc t (R_ready v o) s
  | R_ready v None => Next (goto t (R_done v) s)
  | R_ready v (Some u) => then_goto t (R_done v) (wake_lk u s)
  | R_done v => unlock_lk t (if v then C_sleep else Out false) s
  | _ => Blocked
  end.

Definition cv_step (t : Z) (c : lock_pc) (s : locked) : progress locked :=
  match c with
  | C_lock h => lock_cwc t (R_check true h) s
  | C_sleep => unlock_cwc t C_asleep (set_cv_wchan (cv_wchan s ++ [t]) s)
  | K_check all _ => asserting (lock_do_i_hold t s) (goto t (K_wlock all) s)
  | K_wlock all => lock_cwc t (K_grab all []) s
  | K_grab all l =>
      match cv_wchan s with
      | [] => Next (goto t (K_wunlock l) s)
      | u :: l' => Next (goto t (if all then K_grab all (l ++ [u]) else K_wunlock (l ++ [u])) (set_cv_wchan l' s))
      end
  | K_wunlock l => unlock_cwc t (K_ready l) s
  | K_ready [] => Next (goto t (Out true) s)
  | K_ready (u :: l) => then_goto t (K_ready l) (wake_cv u s)
  | _ => Blocked
  end.

(** One step of thread [t]. *)
Definition lk_step (t : Z) (s : locked) : progress locked :=
  match (lk_pcs s).[t] with
  | Some c =>
      match c with
      | A_check _ | A_lock | A_test _ | A_wlock | A_unlock | A_sleep | A_relock | A_set _ | A_done => acquire_step t c s
      | R_check _ _ | R_lock _ | R_clear _ | R_wlock _ | R_remove _ | R_wunlock _ _ | R_ready _ _ | R_done _ => release_step t c s
      | _ => cv_step t c s
      end
  | None => Blocked
  end.

Inductive lock_event := Acquire (t : Z) | Release (t : Z) | Wait (t : Z) | Signal (t : Z) | Broadcast (t : Z) | Move (t : Z).

Definition call (t : Z) (entry : bool → lock_pc) (s : locked) : progress locked :=
  match (lk_pcs s).[t] with Some (Out h) => Next (goto t (entry h) s) | _ => Blocked end.

Definition lk_exec (e : lock_event) (s : locked) : progress locked :=
  match e with
  | Acquire t => call t A_check s
  | Release t => call t (R_check false) s
  | Wait t => call t C_lock s
  | Signal t => call t (K_check false) s
  | Broadcast t => call t (K_check true) s
  | Move t => lk_step t s
  end.

(** A fresh lock and condition variable, and [k] threads that know of them. *)
Definition lk_init (k : nat) : locked := mkLocked None None None [] None [] (replicate k (Out false)).

(** ** The invariant *)

Definition holds_lk (c : lock_pc) : bool :=
  match c with
  | A_test _ | A_wlock | A_unlock | A_set _ | A_done
  | R_clear _ | R_wlock _ | R_remove _ | R_wunlock _ _ | R_ready _ _ | R_done _ => true
  | _ => false
  end.
Definition holds_lwc (c : lock_pc) : bool :=
  match c with A_unlock | A_sleep | R_remove _ | R_wunlock _ _ => true | _ => false end.
Definition holds_cwc (c : lock_pc) : bool :=
  match c with
  | R_check v _ | R_lock v | R_clear v | R_wlock v | R_remove v | R_wunlock v _ | R_ready v _ | R_done v => v
  | C_sleep | K_grab _ _ | K_wunlock _ => true
  | _ => false
  end.

(** Threads that have the lock: those that lock_acquire has given it to and that
    have not given it back. *)
Definition has_lock (c : lock_pc) : bool :=
  match c with
  | Out h | A_check h | R_check _ h | C_lock h | K_check _ h => h
  | A_done | R_lock _ | R_clear _ | K_wlock _ | K_grab _ _ | K_wunlock _ | K_ready _ => true
  | _ => false
  end.

Definition asleep_lk (c : lock_pc) : bool := match c with A_asleep => true | _ => false end.
Definition asleep_cv (c : lock_pc) : bool := match c with C_asleep => true | _ => false end.
Definition targets_lk (c : lock_pc) : list Z :=
  match c with R_wunlock _ (Some u) | R_ready _ (Some u) => [u] | _ => [] end.
Definition targets_cv (c : lock_pc) : list Z :=
  match c with K_grab _ l | K_wunlock l | K_ready l => l | _ => [] end.

(** Threads that will find out that the lock is free, or wake one that does. *)
Definition awake (c : lock_pc) : bool :=
  match c with
  | A_relock | A_test true | A_set true | R_wlock _ | R_remove _ | R_wunlock _ (Some _) | R_ready _ (Some _) => true
  | _ => false
  end.
Definition dozing (c : lock_pc) : bool := match c with A_wlock | A_unlock | A_sleep => true | _ => false end.

Record lk_inv (s : locked) : Prop := {
  li_lk : owns (lk_lock s) holds_lk (lk_pcs s);
  li_lwc : owns (lk_wchan_lock s) holds_lwc (lk_pcs s);
  li_cwc : owns (cv_wchan_lock s) holds_cwc (lk_pcs s);
  li_holder : owns (lk_holder s) has_lock (lk_pcs s);
  li_chan : chan_inv asleep_lk targets_lk (lk_wchan s) (lk_pcs s);
  li_cv : chan_inv asleep_cv targets_cv (cv_wchan s) (lk_pcs s);
  li_set : ∀ t w, (lk_pcs s).[t] = Some (A_set w) → lk_holder s = None;
  li_wakeup : lk_wchan s ≠ [] ∨ (∃ t c, (lk_pcs s).[t] = Some c ∧ dozing c = true) →
    lk_holder s ≠ None ∨ ∃ t c, (lk_pcs s).[t] = Some c ∧ awake c = true
}.

Lemma lk_inv_init k : lk_inv (lk_init k).
Proof.
  assert (∀ t c, (replicate k (Out false)).[t] = Some c → c = Out false) as Hout.
  { intros t c Ht. pose proof (lookupZ_Some_range _ _ _ Ht). rewrite lookupZ_nat in Ht by lia.
    by apply lookup_replicate in Ht as [-> _]. }
  split; cbn [lk_init lk_lock lk_holder lk_wchan_lock lk_wchan cv_wchan_lock cv_wchan lk_pcs];
    try (apply owns_init; by intros t c ->%Hout); try (apply chan_init; by intros t c ->%Hout).
  - by intros t w ?%Hout.
  - intros [[]|(t & c & ->%Hout & ?)]; done.
Qed.

(** ** Preservation *)

(** What remains to be shown of a step in which thread [t] goes from [c] to [c'] and
    changes only what the first six parts of the invariant speak of. *)
Lemma lk_move s t c c' lk ho lw th cl ct :
  lk_inv s → (lk_pcs s).[t] = Some c →
  let l' := (lk_pcs s).[t := c'] in
  owns lk holds_lk l' → owns lw holds_lwc l' → owns cl holds_cwc l' → owns ho has_lock l' →
  chan_inv asleep_lk targets_lk th l' → chan_inv asleep_cv targets_cv ct l' →
  (ho = lk_holder s ∨ holds_lk c = true) → (∀ w, c' = A_set w → ho = None) →
  (ho ≠ None ∨ awake c' = true ∨
    ((lk_wchan s = [] → th = [] ∨ dozing c = true) ∧ (dozing c' = true → dozing c = true) ∧
     ((lk_wchan s = [] ∧ ∀ u d, (lk_pcs s).[u] = Some d → dozing d = false) ∨ (ho = lk_holder s ∧ awake c = false)))) →
  lk_inv (mkLocked lk ho lw th cl ct l').
Proof.
  intros H Ht l' Hlk Hlw Hcl Hho Hth Hct Hset Hset' Hwk.
  split; cbn [lk_lock lk_holder lk_wchan_lock lk_wchan cv_wchan_lock cv_wchan lk_pcs]; try done.
  - intros u w [[-> ->%eq_sym]|[Hne Hu]]%(goto_cases _ _ _ _ _ _ Ht); [by eapply Hset'|].
    destruct Hset as [->|Hc]; [by apply (li_set _ H u w)|]. destruct Hne. by eapply (owns_unique _ _ _ _ _ _ _ (li_lk _ H)).
  - intros Hor. destruct Hwk as [?|[Ha|(Hnil & Hdz & Hwk)]]; [by left| |].
    { right. exists t, c'. split; [|done]. unfold l'. by rewrite (lookupZ_goto _ _ _ _ _ Ht), decide_True. }
    assert (lk_wchan s ≠ [] ∨ ∃ u d, (lk_pcs s).[u] = Some d ∧ dozing d = true) as Hold.
    { destruct Hor as [Hth'|(u & d & [[-> ->]|[_ Hu]]%(goto_cases _ _ _ _ _ _ Ht) & Hd)].
      - destruct (lk_wchan s); [|by left]. destruct (Hnil eq_refl); [done|right; by exists t, c].
      - right. exists t, c. auto.
      - right. by exists u, d. }
    destruct Hwk as [[Hn Hno]|[-> Ha]].
    { destruct Hold as [?|(u & d & Hu & Hd)]; [done|]. apply Hno in Hu. congruence. }
    destruct (li_wakeup _ H Hold) as [?|(u & d & Hu & Hd)]; [by left|right]. exists u, d. split; [|done].
    unfold l'. rewrite (lookupZ_goto _ _ _ _ _ Ht), decide_False; [done|]. intros ->. congruence.
Qed.

(** Thread [t], going from [c] to [c'], wakes thread [u], which goes from [d] to [d']. *)
Lemma lk_wake s t u c c' d d' :
  lk_inv s → u ≠ t → (lk_pcs s).[t] = Some c → (lk_pcs s).[u] = Some d →
  let l' := (lk_pcs s).[u := d'].[t := c'] in
  (∀ f, f ∈ [holds_lk; holds_lwc; holds_cwc; has_lock] → f c' = f c ∧ f d' = f d) →
  chan_inv asleep_lk targets_lk (lk_wchan s) l' → chan_inv asleep_cv targets_cv (cv_wchan s) l' →
  (∀ w, c' ≠ A_set w ∧ d' ≠ A_set w) → dozing c' = false → dozing d' = false →
  (awake d' = true ∨ (awake c = false ∧ awake d = false)) →
  lk_inv (mkLocked (lk_lock s) (lk_holder s) (lk_wchan_lock s) (lk_wchan s) (cv_wchan_lock s) (cv_wchan s) l').
Proof.
  intros H Hne Ht Hu l' Hf Hc1 Hc2 Hset Hdc Hdd Hawk.
  assert ((lk_pcs s).[u := d'].[t] = Some c) as Ht' by (by rewrite (lookupZ_goto _ _ _ _ _ Hu), decide_False by done).
  assert (∀ v, l'.[v] = if decide (v = t) then Some c' else if decide (v = u) then Some d' else (lk_pcs s).[v]) as Hl.
  { intros v. unfold l'. by rewrite (lookupZ_goto _ _ _ _ _ Ht'), (lookupZ_goto _ _ _ _ _ Hu). }
  assert (∀ f lk, f ∈ [holds_lk; holds_lwc; holds_cwc; has_lock] → owns lk f (lk_pcs s) → owns lk f l') as Ho.
  { intros f lk [Hf1 Hf2]%Hf Hlk. eapply owns_step; [by eapply owns_step|done..]. }
  destruct H as [H1 H2 H3 H4 H5 H6 H7 H8].
  split; cbn [lk_lock lk_holder lk_wchan_lock lk_wchan cv_wchan_lock cv_wchan lk_pcs]; try done;
    try (apply Ho; [set_solver|done]).
  - intros v w. rewrite Hl. destruct (Hset w). repeat case_decide; [congruence..|apply H7].
  - intros Hor. destruct Hawk as [Ha|[Hac Had]].
    { right. exists u, d'. by rewrite Hl, decide_False, decide_True. }
    assert (lk_wchan s ≠ [] ∨ ∃ t c, (lk_pcs s).[t] = Some c ∧ dozing c = true) as Hold.
    { destruct Hor as [?|(v & e & Hv & He)]; [by left|right]. exists v, e. split; [|done].
      rewrite Hl in Hv. repeat case_decide; simplify_eq; congruence. }
    destruct (H8 Hold) as [?|(v & e & Hv & He)]; [by left|right]. exists v, e. split; [|done].
    rewrite Hl. repeat case_decide; subst; congruence.
Qed.

Ltac lk_fields :=
  unfold goto, set_lk_lock, set_lk_holder, set_lk_wchan_lock, set_lk_wchan, set_cv_wchan_lock, set_cv_wchan;
  cbn [lk_lock lk_holder lk_wchan_lock lk_wchan cv_wchan_lock cv_wchan lk_pcs].
Ltac lk_owns :=
  match goal with
  | Ho : owns ?lk ?f _ |- owns ?lk ?f _ => by eapply owns_step
  | Ho : owns _ ?f _ |- owns (Some _) ?f _ => by eapply owns_take
  | Ho : owns _ ?f _ |- owns None ?f _ => by eapply owns_drop
  end.
Ltac lk_chan := first [by eapply chan_step | by eapply chan_sleep | by eapply chan_grab].
Ltac lk_move_auto :=
  lk_fields;
  apply (lk_move _ _ _ _ _ _ _ _ _ _ ltac:(eassumption) ltac:(eassumption));
    [try lk_owns|try lk_owns|try lk_owns|try lk_owns|try lk_chan|try lk_chan|try (by left)|try done
    |try (by right; left); try (right; right; split_and!; [by auto|done|by right])].

Section Steps.
Context (s : locked) (t : Z) (H : lk_inv s).

Lemma acquire_inv c s' : (lk_pcs s).[t] = Some c → acquire_step t c s = Next s' → lk_inv s'.
Proof.
  intros Ht. destruct H as [H1 H2 H3 H4 H5 H6 H7 H8].
  destruct c as [| h | | w | | | | | | w | | | | | | | | | | | | | | | | |]; try done; simpl; unfold asserting, lock_lk, unlock_lk, lock_lwc, unlock_lwc.
  - destruct (lock_do_i_hold t s) eqn:Eh; [done|]. intros [= <-]. apply bool_decide_eq_false in Eh.
    assert (h = false) as -> by (destruct h; [|done]; destruct Eh; apply H4; by exists (A_check true)).
    lk_move_auto.
  - destruct (lk_lock s) in H1 |- *; [done|]. intros [= <-]. lk_move_auto.
  - intros [= <-]. destruct (lk_holder s) as [z|] eqn:Eh in |- *; lk_move_auto.
    + left. congruence.
    + by destruct w; auto 7.
  - destruct (lk_wchan_lock s) in H2 |- *; [done|]. intros [= <-]. lk_move_auto.
  - intros [= <-]. lk_move_auto.
  - intros [= <-]. lk_move_auto.
  - destruct (lk_lock s) in H1 |- *; [done|]. intros [= <-]. lk_move_auto.
  - destruct (bool_decide (lk_holder s = None)) eqn:Eh; [|done]. intros [= <-]. apply bool_decide_eq_true in Eh.
    rewrite Eh in H4. lk_move_auto; [by right|by left].
  - intros [= <-]. lk_move_auto.
Qed.

Lemma release_inv c s' : (lk_pcs s).[t] = Some c → release_step t c s = Next s' → lk_inv s'.
Proof.
  intros Ht. destruct H as [H1 H2 H3 H4 H5 H6 H7 H8].
  destruct c as [| | | | | | | | | | | v h | v | v | v | v | v o | v o | v | | | | | | | |]; try done; simpl;
    unfold asserting, lock_lk, unlock_lk, lock_lwc, unlock_lwc, wake_lk, then_goto.
  - destruct (lock_do_i_hold t s) eqn:Eh; [|done]. intros [= <-]. apply bool_decide_eq_true in Eh.
    assert (h = true) as -> by (apply H4 in Eh as (c & Hc & Eh); by simplify_eq).
    lk_move_auto.
  - destruct (lk_lock s) in H1 |- *; [done|]. intros [= <-]. lk_move_auto.
  - intros [= <-]. lk_move_auto. by right.
  - destruct (lk_wchan_lock s) in H2 |- *; [done|]. intros [= <-]. lk_move_auto.
  - destruct (lk_wchan s) as [|u l] eqn:El in |- *; intros [= <-]; [|rewrite El in H5]; lk_move_auto.
    rewrite El. right; right. split_and!; [by auto|done|left]. split; [done|].
    intros u d Hu. destruct (dozing d) eqn:Ed; [|done]. destruct d; try done; enough (u = t) by congruence.
    + by eapply (owns_unique _ _ _ _ _ _ _ H1).
    + by eapply (owns_unique _ _ _ _ _ _ _ H1).
    + by eapply (owns_unique _ _ _ _ _ _ _ H2).
  - intros [= <-]. destruct o; lk_move_auto.
  - destruct o as [u|]; [|intros [= <-]; lk_move_auto].
    destruct ((lk_pcs s).[u]) as [[]|] eqn:Hu; try done. intros [= <-]. lk_fields.
    assert (u ≠ t) by congruence. eapply lk_wake; try done.
    + intros f Hf. split; revert Hf; rewrite !elem_of_cons, elem_of_nil; naive_solver.
    + by eapply chan_wake.
    + by eapply chan_step2.
    + by left.
  - intros [= <-]. destruct v; lk_move_auto.
Qed.

Lemma cv_inv c s' : (lk_pcs s).[t] = Some c → cv_step t c s = Next s' → lk_inv s'.
Proof.
  intros Ht. destruct H as [H1 H2 H3 H4 H5 H6 H7 H8].
  destruct c as [| | | | | | | | | | | | | | | | | | | h | | | all h | all | all l | l | l]; try done; simpl;
    unfold asserting, lock_cwc, unlock_cwc, wake_cv, then_goto.
  - destruct (cv_wchan_lock s) in H3 |- *; [done|]. intros [= <-]. lk_move_auto.
  - intros [= <-]. lk_move_auto.
  - destruct (lock_do_i_hold t s) eqn:Eh; [|done]. intros [= <-]. apply bool_decide_eq_true in Eh.
    assert (h = true) as -> by (apply H4 in Eh as (c & Hc & Eh); by simplify_eq).
    lk_move_auto.
  - destruct (cv_wchan_lock s) in H3 |- *; [done|]. intros [= <-]. lk_move_auto.
  - destruct (cv_wchan s) as [|u l'] eqn:El in |- *; intros [= <-]; [lk_move_auto|]. rewrite El in H6.
    destruct all; lk_move_auto.
  - intros [= <-]. lk_move_auto.
  - destruct l as [|u l]; [intros [= <-]; lk_move_auto|].
    destruct ((lk_pcs s).[u]) as [[]|] eqn:Hu; try done. intros [= <-]. lk_fields.
    assert (u ≠ t) by congruence. eapply lk_wake; try done.
    + intros f Hf. split; revert Hf; rewrite !elem_of_cons, elem_of_nil; naive_solver.
    + by eapply chan_step2.
    + by eapply chan_wake.
    + by right.
Qed.

Lemma lk_step_inv s' : lk_step t s = Next s' → lk_inv s'.
Proof.
  unfold lk_step. destruct ((lk_pcs s).[t]) as [c|] eqn:Ht; [|done].
  destruct c; first [by apply acquire_inv|by apply release_inv|by apply cv_inv].
Qed.
End Steps.

Lemma lk_exec_inv s s' e : lk_inv s → lk_exec e s = Next s' → lk_inv s'.
Proof.
  intros H. destruct e as [t|t|t|t|t|t]; simpl; [..|by apply lk_step_inv]; unfold call;
    destruct ((lk_pcs s).[t]) as [[]|] eqn:Ht; try done; intros [= <-]; pose proof H as []; lk_move_auto.
Qed.

Lemma lk_reachable_inv k s : reaches lk_exec (lk_init k) s → lk_inv s.
Proof. apply reaches_ind_inv; [apply lk_inv_init|]. intros. by eapply lk_exec_inv. Qed.

(** ** What can go wrong *)

(** Acquiring a lock one has, or releasing, waiting or signalling without it. *)
Definition misuse (c : lock_pc) : bool :=
  match c with A_check h => h | R_check _ h | K_check _ h => negb h | _ => false end.

Lemma sleeper_lk s t v u : lk_inv s → (lk_pcs s).[t] = Some (R_ready v (Some u)) → (lk_pcs s).[u] = Some A_asleep.
Proof.
  intros H Ht. destruct (ch_target _ _ _ _ (li_chan _ H) t _ u Ht) as [(d & Hd & Ha) _]; [by left|]. by destruct d.
Qed.

Lemma sleeper_cv s t u l : lk_inv s → (lk_pcs s).[t] = Some (K_ready (u :: l)) → (lk_pcs s).[u] = Some C_asleep.
Proof.
  intros H Ht. destruct (ch_target _ _ _ _ (li_cv _ H) t _ u Ht) as [(d & Hd & Ha) _]; [by left|]. by destruct d.
Qed.

Lemma lk_do_i_hold s t c : lk_inv s → (lk_pcs s).[t] = Some c → lock_do_i_hold t s = has_lock c.
Proof.
  intros H Ht. unfold lock_do_i_hold. destruct (has_lock c) eqn:Ec.
  - apply bool_decide_eq_true. apply (li_holder _ H). by exists c.
  - apply bool_decide_eq_false. intros (d & Hd & He)%(li_holder _ H). congruence.
Qed.

Lemma lk_crash s e : lk_inv s → lk_exec e s = Crash → ∃ t c, e = Move t ∧ (lk_pcs s).[t] = Some c ∧ misuse c = true.
Proof.
  intros H. destruct e as [t|t|t|t|t|t]; simpl; [unfold call; by destruct ((lk_pcs s).[t]) as [[]|]..|].
  unfold lk_step. destruct ((lk_pcs s).[t]) as [c|] eqn:Ht; [|done]. pose proof (lk_do_i_hold s t c H Ht) as Hh.
  intros Hc. exists t, c. split; [done|]. split; [done|]. revert Hc.
  destruct c as [| | | | | | | | | | | | | | | | |? [u|]| | | | | | | | |[|u l]]; try done; simpl;
    unfold asserting, lock_lk, lock_lwc, lock_cwc, then_goto, wake_lk, wake_cv; rewrite ?Hh; simpl;
    try (by case_match); try (by case_match; case_match).
  - by destruct mine.
  - by rewrite bool_decide_eq_true_2 by (by eapply (li_set _ H)).
  - by rewrite (sleeper_lk _ _ _ _ H Ht).
  - by rewrite (sleeper_cv _ _ _ _ H Ht).
Qed.

(** ** Progress *)

Section Progress.
Context (s : locked) (H : lk_inv s).

(** A spinlock is held by a thread that can take a step, or waits for one that can. *)
Lemma lwc_holder_moves t : lk_wchan_lock s = Some t → lk_step t s ≠ Blocked.
Proof.
  intros Hl. destruct (owns_holder _ _ _ _ (li_lwc _ H) Hl) as (c & Ht & Hc). unfold lk_step. rewrite Ht.
  destruct c; try done; simpl. by destruct (lk_wchan s).
Qed.

Lemma holder_moves t c : (lk_pcs s).[t] = Some c → holds_lk c = true → lk_wchan_lock s = None → lk_step t s ≠ Blocked.
Proof.
  intros Ht Hc Hw. unfold lk_step. rewrite Ht. destruct c as [| | | | | | | | | | | | | | | | |? [u|]| | | | | | | | |]; try done;
    simpl; unfold lock_lwc, asserting, then_goto, wake_lk; rewrite ?Hw; try done; try (by case_match).
  by rewrite (sleeper_lk _ _ _ _ H Ht).
Qed.

Lemma lk_holder_moves t : lk_lock s = Some t → ∃ u, lk_step u s ≠ Blocked.
Proof.
  intros Hl. destruct (owns_holder _ _ _ _ (li_lk _ H) Hl) as (c & Ht & Hc).
  destruct (lk_wchan_lock s) as [h|] eqn:Hw; [exists h; by apply lwc_holder_moves|].
  exists t. by eapply holder_moves.
Qed.

Lemma cwc_holder_moves t : cv_wchan_lock s = Some t → ∃ u, lk_step u s ≠ Blocked.
Proof.
  intros Hl. destruct (owns_holder _ _ _ _ (li_cwc _ H) Hl) as (c & Ht & Hc).
  destruct (lk_wchan_lock s) as [h|] eqn:Hw; [exists h; by apply lwc_holder_moves|].
  destruct (lk_lock s) as [h|] eqn:Hk; [by eapply lk_holder_moves|].
  exists t. destruct (holds_lk c) eqn:E; [by eapply holder_moves|].
  unfold lk_step. rewrite Ht. destruct c; try done; simpl; unfold lock_lk, asserting; rewrite ?Hk; try done; by case_match.
Qed.

Lemma stuck_free : (∀ u, lk_step u s = Blocked) → lk_lock s = None ∧ lk_wchan_lock s = None ∧ cv_wchan_lock s = None.
Proof.
  intros Hb. split_and!; apply eq_None_not_Some; intros [h Hh].
  - apply lk_holder_moves in Hh as [u Hu]. by destruct Hu.
  - apply lwc_holder_moves in Hh. by destruct Hh.
  - apply cwc_holder_moves in Hh as [u Hu]. by destruct Hu.
Qed.

Lemma lk_stuck_quiet t c : (∀ u, lk_step u s = Blocked) → (lk_pcs s).[t] = Some c →
  (∃ h, c = Out h) ∨ c = A_asleep ∨ c = C_asleep.
Proof.
  intros Hb Ht. destruct (stuck_free Hb) as (Hk & Hw & Hcw). pose proof (Hb t) as Hbt. unfold lk_step in Hbt. rewrite Ht in Hbt.
  assert (holds_lk c = false) as Hh.
  { eapply owns_none; [|done]. rewrite <- Hk. apply (li_lk _ H). }
  assert (holds_cwc c = false) as Hh2.
  { eapply owns_none; [|done]. rewrite <- Hcw. apply (li_cwc _ H). }
  destruct c as [| | | | | | | | | | | | | | | | | | | | | | | | | |[|u l]]; simpl in Hbt;
    unfold lock_lk, unlock_lk, lock_cwc, unlock_lwc, asserting, then_goto, wake_cv in Hbt; rewrite ?Hk, ?Hcw in Hbt;
    try done; try (by case_match); try (by eauto).
  by rewrite (sleeper_cv _ _ _ _ H Ht) in Hbt.
Qed.
End Progress.

(** C38. A lock excludes: whatever the threads do, at most one is past lock_acquire
    without having called lock_release (a return from cv_wait counts as
    lock_acquire), and it is the recorded holder; and the only assertions that can
    fail are those against acquiring a lock one has and against releasing, waiting
    or signalling without having it. *)
Theorem lock_mutual_exclusion k s :
  reaches lk_exec (lk_init k) s →
  (∀ t, lk_holder s = Some t ↔ ∃ c, (lk_pcs s).[t] = Some c ∧ has_lock c = true) ∧
  (∀ t u, (lk_pcs s).[t] = Some (Out true) → (lk_pcs s).[u] = Some (Out true) → t = u) ∧
  (∀ e, lk_exec e s = Crash → ∃ t c, e = Move t ∧ (lk_pcs s).[t] = Some c ∧ misuse c = true).
Proof.
  intros H%lk_reachable_inv. split; [apply H|]. split; [|intros e; by apply lk_crash].
  intros t u Ht Hu. by eapply (owns_unique _ _ _ _ _ _ _ (li_holder _ H)).
Qed.

(** Thread 0 takes the lock and waits; thread 1 takes it and signals. *)
Definition acquire_run (t : Z) : list lock_event := Acquire t :: replicate 5 (Move t).
Definition wait_run : list lock_event := acquire_run 0 ++ Wait 0 :: replicate 10 (Move 0) ++ acquire_run 1.
Definition signal_run : list lock_event := wait_run ++ Signal 1 :: replicate 2 (Move 1).
Definition after_run (l : list lock_event) : locked :=
  match run lk_exec l (lk_init 2) with Some s => s | None => lk_init 2 end.

Lemma lock_mutual_exclusion_witness :
  lk_holder (after_run wait_run) = Some 1 ∧ ∃ c, (lk_pcs (after_run wait_run)).[1] = Some c ∧ has_lock c = true.
Proof.
  assert (lk_holder (after_run wait_run) = Some 1) as H1 by (vm_compute; reflexivity).
  split; [exact H1|]. revert H1. apply (lock_mutual_exclusion 2 (after_run wait_run)).
  apply (run_reaches_state _ wait_run). vm_compute. reflexivity.
Defined.

(** C39. Nobody sleeps for want of a wakeup: when no thread can take another step, a
    thread asleep in lock_acquire waits for a lock that some thread has and has yet
    to release, and one asleep in cv_wait is on the channel of the condition
    variable, where the next signal finds it. *)
Theorem lock_no_lost_wakeup k s :
  reaches lk_exec (lk_init k) s → (∀ t, lk_step t s = Blocked) →
  ∀ t c, (lk_pcs s).[t] = Some c →
  (∃ h, c = Out h) ∨
  (c = A_asleep ∧ t ∈ lk_wchan s ∧ ∃ u, lk_holder s = Some u ∧ (lk_pcs s).[u] = Some (Out true)) ∨
  (c = C_asleep ∧ t ∈ cv_wchan s).
Proof.
  intros H%lk_reachable_inv Hb t c Ht.
  assert (∀ u d, (lk_pcs s).[u] = Some d → (∃ h, d = Out h) ∨ d = A_asleep ∨ d = C_asleep) as Hq
    by (intros u d; by apply lk_stuck_quiet).
  destruct (Hq t c Ht) as [?|[->| ->]]; [by left|right; left|right; right]; (split; [done|]).
  - assert (t ∈ lk_wchan s) as Hin.
    { destruct (ch_asleep _ _ _ _ (li_chan _ H) t) as [?|(u & d & [[h ->]|[->| ->]]%Hq & Hd)]; [by exists A_asleep|done|..];
        by apply elem_of_nil in Hd. }
    split; [done|]. destruct (li_wakeup _ H) as [Hh|(u & d & [[h ->]|[->| ->]]%Hq & Hd)]; [|..|done|done|done].
    { left. intros E. rewrite E in Hin. by apply elem_of_nil in Hin. }
    destruct (lk_holder s) as [u|] eqn:Eu; [|done]. exists u. split; [done|].
    apply (li_holder _ H) in Eu as (d & Hu & Hd). by destruct (Hq u d Hu) as [[h ->]|[->| ->]]; simplify_eq/=.
  - destruct (ch_asleep _ _ _ _ (li_cv _ H) t) as [?|(u & d & [[h ->]|[->| ->]]%Hq & Hd)]; [by exists C_asleep|done|..];
      by apply elem_of_nil in Hd.
Qed.

Lemma lock_no_lost_wakeup_witness :
  (lk_pcs (after_run wait_run)).[0] = Some C_asleep ∧ 0 ∈ cv_wchan (after_run wait_run).
Proof.
  assert ((lk_pcs (after_run wait_run)).[0] = Some C_asleep) as H0 by (vm_compute; reflexivity).
  split; [exact H0|].
  destruct (lock_no_lost_wakeup 2 (after_run wait_run)) with (t := 0) (c := C_asleep) as [[h H]|[(H & _)|(_ & H)]].
  - apply (run_reaches_state _ wait_run). vm_compute. reflexivity.
  - intros t. unfold lk_step. destruct (decide (t = 0)) as [->|]; [vm_compute; reflexivity|].
    destruct (decide (t = 1)) as [->|]; [vm_compute; reflexivity|].
    rewrite (proj2 (lookupZ_None _ _)); [reflexivity|]. change (lengthZ (lk_pcs (after_run wait_run))) with 2. lia.
  - exact H0.
  - discriminate H.
  - discriminate H.
  - exact H.
Defined.

(** Threads that have given the lock up in cv_wait and have not been woken. *)
Definition waiting (c : lock_pc) : bool :=
  match c with
  | R_wlock true | R_remove true | R_wunlock true _ | R_ready true _ | R_done true | C_sleep | C_asleep => true
  | _ => false
  end.

(** Giving up the lock and going to sleep in cv_wait is one step as far as signals
    can tell: when cv_signal or cv_broadcast looks at the channel, every thread that
    has given up the lock in cv_wait is on it, or has been taken off it by that very
    call and is made runnable before the call returns. *)
Theorem cv_wait_atomic k s t all l u c :
  reaches lk_exec (lk_init k) s → (lk_pcs s).[t] = Some (K_grab all l) →
  (lk_pcs s).[u] = Some c → waiting c = true → u ∈ cv_wchan s ++ l.
Proof.
  intros H%lk_reachable_inv Ht Hu Hc.
  assert (holds_cwc c = false) as Hn.
  { destruct (holds_cwc c) eqn:E; [|done]. assert (t = u) as -> by (by eapply (owns_unique _ _ _ _ _ _ _ (li_cwc _ H))).
    rewrite Ht in Hu. by injection Hu as <-. }
  assert (c = C_asleep) as -> by (by destruct c as [| | | | | | | | | | | | | |[]|[]|[] ?|[] ?|[]| | | | | | | |]).
  apply elem_of_app. destruct (ch_asleep _ _ _ _ (li_cv _ H) u) as [?|(v & d & Hv & Hd)]; [by exists C_asleep|by left|right].
  enough (v = t) as -> by (rewrite Ht in Hv; by injection Hv as <-).
  assert (has_lock d = true) as Hhl by (destruct d; try done; by apply elem_of_nil in Hd).
  by eapply (owns_unique _ _ _ _ _ _ _ (li_holder _ H)).
Qed.

Lemma cv_wait_atomic_witness :
  (lk_pcs (after_run signal_run)).[1] = Some (K_grab false []) ∧ 0 ∈ cv_wchan (after_run signal_run) ++ [].
Proof.
  assert ((lk_pcs (after_run signal_run)).[1] = Some (K_grab false [])) as H1 by (vm_compute; reflexivity).
  split; [exact H1|].
  apply (cv_wait_atomic 2 (after_run signal_run) 1 false [] 0 C_asleep).
  - apply (run_reaches_state _ signal_run). vm_compute. reflexivity.
  - exact H1.
  - vm_compute. reflexivity.
  - reflexivity.
Defined.
