(* ===== verification/Disk.v ===== *)
(** * Byte streams and the disk driver

    A uio as file system code sees it: a stream of bytes with an offset and a
    residual count (the uiomove of kern/lib/uio.c, whose pointer-level model is
    Uio.v); and the disk driver kern/dev/lamebus/lhd.c: lhd_io, the translation of
    result codes, and the card, of which a block of data is read or written or a
    media error is reported.  The card is not part of the sources: how its
    operations fare is an input of the model. *)

From S2P Require Import Prelude UserCopy Uio.
#[local] Open Scope kern_scope.

(** ** Streams *)

(** [st_data] holds the bytes delivered so far (UIO_READ) or the bytes still to be
    fetched (UIO_WRITE).  [st_fate] says how the coming transfers fare: [Some j] is
    a fault in user memory after [j] bytes; at the end of the list, and for kernel
    buffers, all goes well. *)
Record stream := mkStream {
  st_rw : uio_rw;
  st_offset : Z;
  st_resid : Z;
  st_data : list Z;
  st_fate : list (option Z)
}.

Definition is_write (u : stream) : bool := match st_rw u with UIO_WRITE => true | UIO_READ => false end.
Definition set_offset v u := mkStream (st_rw u) v (st_resid u) (st_data u) (st_fate u).
Definition set_resid v u := mkStream (st_rw u) (st_offset u) v (st_data u) (st_fate u).

(** uiomove(buf, n, uio); gives back the buffer. *)
Definition advance (k : Z) (buf : list Z) (fate : list (option Z)) (u : stream) : stream :=
  mkStream (st_rw u) (st_offset u + k) (st_resid u - k)
    (match st_rw u with
     | UIO_READ => st_data u ++ take (Z.to_nat k) buf
     | UIO_WRITE => drop (Z.to_nat k) (st_data u)
     end) fate.
Definition stream_move (buf : list Z) (n : Z) : M stream (list Z) := λ u,
  let k := Z.min n (st_resid u) in
  if k <=? 0 then Ok buf u else
  match st_fate u with
  | Some j :: fate => Err EFAULT (advance (Z.max 0 (Z.min j (k - 1))) buf fate u)
  | fate =>
      Ok (match st_rw u with
          | UIO_READ => buf
          | UIO_WRITE => take (Z.to_nat k) (st_data u) ++ drop (Z.to_nat k) buf
          end) (advance k buf (tail fate) u)
  end.

(** uiomovezeros(n, uio): zeros go out sixteen at a time. *)
Fixpoint stream_zeros_loop (fuel : nat) (n : Z) : M stream unit :=
  match fuel with
  | O => undef
  | S fuel' =>
      if 0 <? n then
        let amt := if n <? 16 then n else 16 in
        stream_move (replicate 16 0) amt ;;
        stream_zeros_loop fuel' (n - amt)
      else ret tt
  end.
Definition stream_zeros (n : Z) : M stream unit :=
  u <- get ;;
  kassert (negb (is_write u)) ;;
  stream_zeros_loop (S (Z.to_nat n)) n.

(** uio_kinit of a kernel buffer: for writing, its contents are the stream. *)
Definition stream_kinit (data : list Z) (len pos : Z) (rw : uio_rw) : stream :=
  mkStream rw pos len (match rw with UIO_READ => [] | UIO_WRITE => data end) [].

(** ** The driver *)

Definition LHD_SECTSIZE : Z := 512.
Definition LHD_OK : Z := 4.
Definition LHD_INVSECT : Z := 12.
Definition LHD_MEDIA : Z := 20.
Definition LHD_ISWRITE : Z := 2.
Definition LHD_STATEMASK : Z := 0x1d.
Definition EAGAIN : Z := 4.

(** The card: its sectors, and the results of the coming operations (true for
    success; success at the end of the list).  The on-card buffer is filled before
    each use, so it is a value here that lasts for one sector. *)
Record lhd := mkLhd {
  sectors : list (list Z);
  lh_fate : list bool
}.
Definition d_blocks (d : lhd) : Z := lengthZ (sectors d).

Definition lhd_code_to_errno (code : Z) : Z :=
  let c := Z.land code LHD_STATEMASK in
  if c =? LHD_OK then 0 else if c =? LHD_INVSECT then EINVAL else if c =? LHD_MEDIA then EIO else EAGAIN.

(** The card carries out the operation started on [sector] with [buf] in its buffer;
    it leaves a status and the buffer. *)
Definition card_op (write : bool) (sector : Z) (buf : list Z) (d : lhd) : Z * list Z * lhd :=
  let flag := if write then LHD_ISWRITE else 0 in
  let ok := match lh_fate d with b :: _ => b | [] => true end in
  let rest := tail (lh_fate d) in
  match (sectors d).[sector] with
  | None => (Z.lor LHD_INVSECT flag, buf, mkLhd (sectors d) rest)
  | Some data =>
      if negb ok then (Z.lor LHD_MEDIA flag, buf, mkLhd (sectors d) rest)
      else if write then (Z.lor LHD_OK flag, buf, mkLhd (sectors d).[sector := buf] rest)
      else (Z.lor LHD_OK flag, data, mkLhd (sectors d) rest)
  end.

Record dstate := mkD { dcard : lhd; duio : stream }.
Abbreviation DM := (M dstate).
Definition set_dcard v s := mkD v (duio s).
Definition set_duio v s := mkD (dcard s) v.

(** uiomove(lh->lh_buf, LHD_SECTSIZE, uio) *)
Definition buf_move (buf : list Z) : DM (list Z) := lift duio set_duio (stream_move buf LHD_SECTSIZE).

(** One sector: to the card before a write, from the card after a read; the
    interrupt handler translates the status. *)
Definition sector_io (write : bool) (sector : Z) : DM unit :=
  buf <- (if write then buf_move (replicate 512 0) else ret []) ;;
  s <- get ;;
  let '(code, buf, d) := card_op write sector buf (dcard s) in
  modify (set_dcard d) ;;
  let result := lhd_code_to_errno code in
  if negb (result =? 0) then fail result
  else if write then ret tt else buf_move buf ;; ret tt.

Definition lhd_io : DM unit :=
  s <- get ;;
  let u := duio s in
  let sector := u32 (st_offset u / LHD_SECTSIZE) in
  let sectoff := st_offset u mod LHD_SECTSIZE in
  let len := st_resid u / LHD_SECTSIZE in
  let lenoff := st_resid u mod LHD_SECTSIZE in
  if negb (sectoff =? 0) || negb (lenoff =? 0) then fail EINVAL
  else if d_blocks (dcard s) <? u32 (sector + len) then fail EINVAL
  else for_ 0 len (λ i, sector_io (is_write u) (u32 (sector + i))).

(** ** Block I/O of the file system (kern/fs/sfs/sfs_io.c) *)

(** The retry loop of sfs_rwblock, after [tries] retries. *)
Fixpoint rwblock_loop (fuel : nat) (tries : Z) : DM unit :=
  match fuel with
  | O => undef
  | S fuel' =>
      r <- attempt lhd_io ;;
      match r with
      | inl _ => ret tt
      | inr e =>
          if e =? EINVAL then panic
          else if e =? EIO then
            if tries <? 10 then rwblock_loop fuel' (tries + 1) else fail e
          else fail e
      end
  end.
Definition rwblock : DM unit := rwblock_loop 11 0.

(** ** A working disk *)

(** The transfer of a whole sector between the stream and [data]. *)
Lemma stream_move_sector (X : Prop) buf u Q E :
  LHD_SECTSIZE ≤ st_resid u →
  (st_fate u = [] ∨ (∃ fate, st_fate u = None :: fate) →
   Q (match st_rw u with UIO_READ => buf | UIO_WRITE => take 512 (st_data u) ++ drop 512 buf end)
     (advance LHD_SECTSIZE buf (tail (st_fate u)) u)) →
  (∀ j fate, st_fate u = Some j :: fate →
   E EFAULT (advance (Z.max 0 (Z.min j (LHD_SECTSIZE - 1))) buf fate u)) →
  wpx X (stream_move buf LHD_SECTSIZE) Q E u.
Proof.
  intros Hr HQ HE. unfold wpx, stream_move. rewrite Z.min_l by done.
  destruct (st_fate u) as [|[j|] fate] eqn:Ef; simpl; [apply HQ; by left|by apply HE|apply HQ; right; by exists fate].
Qed.

Record card_ok (d : lhd) : Prop := {
  co_fate : lh_fate d = [];
  co_blocks : ∀ b data, (sectors d).[b] = Some data → lengthZ data = LHD_SECTSIZE ∧ Forall (λ x, 0 ≤ x < 256) data;
  co_size : d_blocks d < 2 ^ 32
}.

Definition write_sector (b : Z) (data : list Z) (d : lhd) : lhd := mkLhd (sectors d).[b := data] (lh_fate d).

(** The outcome of the I/O of sector [b], which holds [data], with a working disk:
    the whole sector moves, or user memory faults under it. *)
Definition sector_done (b : Z) (data : list Z) (s s' : dstate) : Prop :=
  let u := duio s in
  duio s' = advance LHD_SECTSIZE data (tail (st_fate u)) u ∧
  dcard s' = match st_rw u with UIO_READ => dcard s | UIO_WRITE => write_sector b (take 512 (st_data u)) (dcard s) end.
Definition sector_fault (data : list Z) (s : dstate) (e : Z) (s' : dstate) : Prop :=
  e = EFAULT ∧ dcard s' = dcard s ∧ st_fate (duio s) ≠ [] ∧
  ∃ j buf, 0 ≤ j < LHD_SECTSIZE ∧ (st_rw (duio s) = UIO_READ → buf = data) ∧
    duio s' = advance j buf (tail (st_fate (duio s))) (duio s).

Lemma card_op_ok write b buf data d :
  lh_fate d = [] → (sectors d).[b] = Some data →
  card_op write b buf d =
  (if write then (Z.lor LHD_OK LHD_ISWRITE, buf, write_sector b buf d) else (Z.lor LHD_OK 0, data, d)).
Proof.
  intros Hf Hb. unfold card_op, write_sector. rewrite Hb, Hf. simpl. destruct write; [done|]. destruct d; simpl in *. by subst.
Qed.

Lemma sector_io_spec X b data s :
  card_ok (dcard s) → (sectors (dcard s)).[b] = Some data → LHD_SECTSIZE ≤ st_resid (duio s) →
  (st_rw (duio s) = UIO_WRITE → LHD_SECTSIZE ≤ lengthZ (st_data (duio s))) →
  wpx X (sector_io (is_write (duio s)) b) (λ _, sector_done b data s) (sector_fault data s) s.
Proof.
  intros Hok Hb Hr Hd. destruct s as [d u]. unfold sector_io, buf_move, is_write, sector_done, sector_fault. cbn [dcard duio] in *.
  destruct (st_rw u) eqn:Erw; cbv iota; wp_steps.
  - cbn [dcard duio]. rewrite (card_op_ok false b [] data d (co_fate _ Hok) Hb). wp_steps.
    change (lhd_code_to_errno (Z.lor LHD_OK 0)) with 0. simpl. wp_steps.
    apply stream_move_sector; [done|by intros _|]. cbn [set_duio set_dcard dcard duio].
    intros j fate Ef. rewrite Ef. split_and!; [done..|]. exists (Z.max 0 (Z.min j (LHD_SECTSIZE - 1))), data.
    split_and!; [unfold LHD_SECTSIZE; lia..|done|done].
  - apply stream_move_sector; [done| |].
    + intros _. cbn [duio]. rewrite Erw. cbn [set_duio duio dcard].
      assert (take 512 (st_data u) ++ drop 512 (replicate 512 0) = take 512 (st_data u)) as -> by (by rewrite app_nil_r).
      wp_steps. cbn [set_duio duio dcard]. rewrite (card_op_ok true b _ data d (co_fate _ Hok) Hb). wp_steps.
      change (lhd_code_to_errno (Z.lor LHD_OK LHD_ISWRITE)) with 0. simpl. wp_steps. cbn [set_dcard dcard duio].
      split; [|done]. unfold advance. by rewrite Erw.
    + cbn [set_duio duio dcard]. intros j fate Ef. rewrite Ef. split_and!; [done..|].
      exists (Z.max 0 (Z.min j (LHD_SECTSIZE - 1))), (replicate 512 0). split_and!; [unfold LHD_SECTSIZE; lia..|done|done].
Qed.

Lemma rwblock_spec X b data s :
  card_ok (dcard s) → (sectors (dcard s)).[b] = Some data →
  st_offset (duio s) = b * LHD_SECTSIZE → st_resid (duio s) = LHD_SECTSIZE →
  (st_rw (duio s) = UIO_WRITE → LHD_SECTSIZE ≤ lengthZ (st_data (duio s))) →
  wpx X rwblock (λ _, sector_done b data s) (sector_fault data s) s.
Proof.
  intros Hok Hb Ho Hr Hd. pose proof (lookupZ_Some_range _ _ _ Hb) as Hrange. pose proof (co_size _ Hok) as Hsz.
  unfold d_blocks in Hsz. unfold rwblock. cbn [rwblock_loop]. wp_steps. unfold lhd_io. wp_steps. cbv zeta.
  rewrite Ho, Hr. unfold LHD_SECTSIZE. rewrite Z.div_mul, Z.mod_mul by lia. change (512 mod 512) with 0. change (512 / 512) with 1.
  rewrite (u32_small b) by lia. rewrite (u32_small (b + 1)) by lia. simpl (negb _ || _). cbv iota.
  unfold d_blocks. destruct (Z.ltb_spec (lengthZ (sectors (dcard s))) (b + 1)); [lia|].
  change (for_ 0 1 ?f) with (bind (f 0) (λ _, ret tt)). wp_steps. rewrite Z.add_0_r, u32_small by lia.
  eapply wp_conseq; [apply (sector_io_spec _ b data s); rewrite ?Hr; try done; unfold LHD_SECTSIZE; lia| |].
  - intros [] s' Hs. wp_steps. exact Hs.
  - intros e s' Hs. destruct (Hs) as [-> _]. change (EFAULT =? EINVAL) with false. change (EFAULT =? EIO) with false.
    wp_steps. exact Hs.
Qed.

(** A media error on the first attempt at writing a sector: the stream has been
    consumed, and the second attempt has nothing to do. *)
Lemma rwblock_write_lost d b data rest : 0 ≤ b < d_blocks d → d_blocks d < 2 ^ 32 → lengthZ data = LHD_SECTSIZE → lh_fate d = false :: rest →
  let u := stream_kinit data LHD_SECTSIZE (b * LHD_SECTSIZE) UIO_WRITE in
  rwblock (mkD d u) = Ok tt (mkD (mkLhd (sectors d) rest) (advance LHD_SECTSIZE [] [] u)).
Proof.
  intros Hb Hs Hd Hf u. set (s1 := mkD (mkLhd (sectors d) rest) (advance LHD_SECTSIZE [] [] u)). destruct (lookupZ_lt (sectors d) b Hb) as [old Hold].
  assert (lhd_io (mkD d u) = Err EIO s1) as H1.
  { unfold lhd_io. erewrite bind_ok; [|reflexivity]. cbv zeta. unfold u. cbn [duio dcard stream_kinit st_offset st_resid is_write st_rw]. unfold LHD_SECTSIZE.
    rewrite Z.div_mul, Z.mod_mul by lia. change (512 mod 512) with 0. change (512 / 512) with 1. rewrite (u32_small b), (u32_small (b + 1)) by lia.
    simpl (negb _ || _). cbv iota. destruct (Z.ltb_spec (d_blocks d) (b + 1)); [lia|]. change (for_ 0 1 ?f) with (bind (f 0) (λ _, ret tt)). cbv beta. rewrite Z.add_0_r, u32_small by lia.
    unfold bind at 1. unfold sector_io. erewrite bind_ok; [|reflexivity]. erewrite bind_ok; [|reflexivity]. unfold card_op. cbn [dcard set_duio]. rewrite Hold, Hf. reflexivity. }
  assert (lhd_io s1 = Ok tt s1) as H2.
  { unfold lhd_io. erewrite bind_ok; [|reflexivity]. cbv zeta. unfold s1, u. cbn [duio dcard stream_kinit st_offset st_resid advance]. unfold LHD_SECTSIZE.
    replace (b * 512 + 512) with ((b + 1) * 512) by lia. rewrite Z.div_mul, Z.mod_mul by lia. change ((512 - 512) mod 512) with 0. change ((512 - 512) / 512) with 0.
    rewrite (u32_small (b + 1)), Z.add_0_r, u32_small by lia. simpl (negb _ || _). cbv iota. unfold d_blocks in *. cbn [sectors]. destruct (Z.ltb_spec (lengthZ (sectors d)) (b + 1)); [lia|done]. }
  assert (∀ fuel tries st, rwblock_loop (S fuel) tries st = match lhd_io st with
    | Ok _ st' => Ok tt st'
    | Err e st' => if e =? EINVAL then Panic else if e =? EIO then (if tries <? 10 then rwblock_loop fuel (tries + 1) st' else Err e st') else Err e st'
    | Panic => Panic
    | Undef => Undef
    end) as Hstep.
  { intros fuel tries st. cbn [rwblock_loop]. unfold bind, attempt. destruct (lhd_io st) as [[] ?|e ?| |]; try done.
    destruct (e =? EINVAL), (e =? EIO), (tries <? 10); done. }
  unfold rwblock. by rewrite Hstep, H1, Hstep, H2.
Qed.
