(* ===== verification/Vfs.v ===== *)
(** * The virtual file system

    Models kern/vfs: the table of named devices and mounts (vfslist.c), name
    resolution (vfslookup.c), the operations on paths (vfspath.c), the current
    directory (vfscwd.c), devices as vnodes (device.c, devnull.c) and the reference
    counts of their vnodes (vnode.c).

    What struct fs and struct vnode_ops are to the C code, the class [FileSystem]
    is here: the operations a file system hands to the VFS layer, on vnodes that it
    keeps itself, their reference counts included.  VfsSfs.v makes SFS an instance.
    Drivers are an instance of [Driver]; the null device is part of the model. *)

From S2P Require Import Prelude UserCopy Uio Disk.
#[local] Open Scope kern_scope.

(** A kernel string, without its terminator. *)
Abbreviation str := (list Z).
Definition streq (a b : str) : bool := bool_decide (a = b).

(** Is the bit set in the flags? *)
Definition flag (flags bit : Z) : bool := negb (Z.land flags bit =? 0).

(** ** Interfaces *)

(** A file system: struct fs and struct vnode_ops, on vnodes by pointer.  The big
    lock is one for the whole VFS; [fs_set_depth] shows a file system its depth. *)
Class FileSystem (F : Type) := {
  fs_depth : F → Z;
  fs_set_depth : (Z → Z) → F → F;
  fs_sync : M F unit;
  fs_getvolname : M F (option str);
  fs_getroot : M F Z;
  fs_unmount : M F unit;
  op_incref : Z → M F unit;
  op_decref : Z → M F unit;
  op_incopen : Z → M F unit;
  op_decopen : Z → M F unit;
  op_open : Z → Z → M F unit;
  op_read : Z → M (F * stream) unit;
  op_write : Z → M (F * stream) unit;
  op_readlink : Z → M (F * stream) unit;
  op_gettype : Z → M F Z;
  op_truncate : Z → Z → M F unit;
  op_namefile : Z → M (F * stream) unit;
  op_creat : Z → str → bool → M F Z;
  op_symlink : Z → str → str → M F unit;
  op_mkdir : Z → str → M F unit;
  op_link : Z → str → Z → M F unit;
  op_remove : Z → str → M F unit;
  op_rmdir : Z → str → M F unit;
  op_rename : Z → str → Z → str → M F unit;
  op_lookup : Z → str → M F Z;
  op_lookparent : Z → str → Z → M F (Z * str)
}.

(** Device drivers: the functions of struct device, by device. *)
Class Driver (D : Type) := {
  d_open : Z → Z → M D unit;
  d_close : Z → M D unit;
  d_io : Z → M (D * stream) unit;
  d_ioctl : Z → Z → M D unit
}.

(** ** State *)

(** A vnode: that of a device, or one of a file system. *)
Inductive vnode := DevVn (p : Z) | FsVn (f p : Z).
#[export] Instance vnode_eq_dec : EqDecision vnode.
Proof. solve_decision. Defined.

(** struct device; [d_driver] is [None] for null: and else tells the driver which
    one of its devices it is. *)
Record device := mkDevice {
  d_blocks : Z;
  d_blocksize : Z;
  d_devnumber : Z;
  d_driver : option Z
}.

(** struct vnode of a device. *)
Record devnode := mkDn { dn_refcount : Z; dn_opencount : Z; dn_dev : option Z }.

Record knowndev := mkKd {
  kd_name : str;
  kd_rawname : option str;
  kd_device : option Z;
  kd_vnode : Z;
  kd_fs : option Z
}.

Record vfs (F D : Type) := mkVfs {
  knowndevs : list knowndev;
  biglock_depth : Z;
  bootfs_vnode : option vnode;
  p_cwd : option vnode;            (* of the current process *)
  filesystems : gmap Z F;          (* the struct fs, by pointer *)
  devnodes : gmap Z devnode;
  devices : gmap Z device;
  drivers : D;
  vfs_next : Z;                    (* the next pointer kmalloc hands out *)
  vfs_live : Z;                    (* how many blocks the table has allocated *)
  vfs_mem : list bool              (* the answers of kmalloc *)
}.
Arguments mkVfs {F D}.
Arguments knowndevs {F D}. Arguments biglock_depth {F D}. Arguments bootfs_vnode {F D}. Arguments p_cwd {F D}.
Arguments filesystems {F D}. Arguments devnodes {F D}. Arguments devices {F D}. Arguments drivers {F D}.
Arguments vfs_next {F D}. Arguments vfs_live {F D}. Arguments vfs_mem {F D}.

Section Vfs.
Context {F D : Type} `{!FileSystem F, !Driver D}.
Implicit Types s : vfs F D.
#[local] Notation VM := (M (vfs F D)).

Definition set_knowndevs v s : vfs F D := mkVfs v (biglock_depth s) (bootfs_vnode s) (p_cwd s) (filesystems s) (devnodes s) (devices s)
  (drivers s) (vfs_next s) (vfs_live s) (vfs_mem s).
Definition set_biglock v s : vfs F D := mkVfs (knowndevs s) v (bootfs_vnode s) (p_cwd s) (filesystems s) (devnodes s) (devices s)
  (drivers s) (vfs_next s) (vfs_live s) (vfs_mem s).
Definition set_bootfs v s : vfs F D := mkVfs (knowndevs s) (biglock_depth s) v (p_cwd s) (filesystems s) (devnodes s) (devices s)
  (drivers s) (vfs_next s) (vfs_live s) (vfs_mem s).
Definition set_cwd v s : vfs F D := mkVfs (knowndevs s) (biglock_depth s) (bootfs_vnode s) v (filesystems s) (devnodes s) (devices s)
  (drivers s) (vfs_next s) (vfs_live s) (vfs_mem s).
Definition set_filesystems f s : vfs F D := mkVfs (knowndevs s) (biglock_depth s) (bootfs_vnode s) (p_cwd s) (f (filesystems s))
  (devnodes s) (devices s) (drivers s) (vfs_next s) (vfs_live s) (vfs_mem s).
Definition set_devnodes f s : vfs F D := mkVfs (knowndevs s) (biglock_depth s) (bootfs_vnode s) (p_cwd s) (filesystems s)
  (f (devnodes s)) (devices s) (drivers s) (vfs_next s) (vfs_live s) (vfs_mem s).
Definition set_devices f s : vfs F D := mkVfs (knowndevs s) (biglock_depth s) (bootfs_vnode s) (p_cwd s) (filesystems s)
  (devnodes s) (f (devices s)) (drivers s) (vfs_next s) (vfs_live s) (vfs_mem s).
Definition set_drivers v s : vfs F D := mkVfs (knowndevs s) (biglock_depth s) (bootfs_vnode s) (p_cwd s) (filesystems s)
  (devnodes s) (devices s) v (vfs_next s) (vfs_live s) (vfs_mem s).
Definition set_next v s : vfs F D := mkVfs (knowndevs s) (biglock_depth s) (bootfs_vnode s) (p_cwd s) (filesystems s)
  (devnodes s) (devices s) (drivers s) v (vfs_live s) (vfs_mem s).
Definition set_mem v s : vfs F D := mkVfs (knowndevs s) (biglock_depth s) (bootfs_vnode s) (p_cwd s) (filesystems s)
  (devnodes s) (devices s) (drivers s) (vfs_next s) (vfs_live s) v.
Definition set_live f s : vfs F D := mkVfs (knowndevs s) (biglock_depth s) (bootfs_vnode s) (p_cwd s) (filesystems s)
  (devnodes s) (devices s) (drivers s) (vfs_next s) (f (vfs_live s)) (vfs_mem s).

(** ** The big lock *)

Definition biglock_acquire : VM unit := modify (λ s, set_biglock (biglock_depth s + 1) s).
Definition biglock_do_i_hold : VM bool := gets (λ s, 0 <? biglock_depth s).
Definition biglock_release : VM unit :=
  h <- biglock_do_i_hold ;; kassert h ;; modify (λ s, set_biglock (biglock_depth s - 1) s).

(** [result = m; c; return result;] *)
Definition finally {S A} (m : M S A) (c : M S unit) : M S A :=
  r <- attempt m ;;
  c ;;
  match r with inl a => ret a | inr e => fail e end.

(** A function body between acquire and release, which comes on every way out. *)
Definition with_biglock {A} (m : VM A) : VM A := biglock_acquire ;; finally m biglock_release.

(** ** Calls into a file system *)

Definition fs_at (f : Z) s : option F := fs_set_depth (λ _, biglock_depth s) <$> filesystems s !! f.
Definition set_fs_at (f : Z) (x : F) s : vfs F D := set_biglock (fs_depth x) (set_filesystems <[f := x]> s).

Definition on_fs {A} (f : Z) (m : M F A) : VM A := λ s,
  match fs_at f s with
  | None => Undef
  | Some x =>
      match m x with
      | Ok a x' => Ok a (set_fs_at f x' s)
      | Err e x' => Err e (set_fs_at f x' s)
      | Panic => Panic
      | Undef => Undef
      end
  end.

(** A call that is handed a uio runs on the VFS and the uio. *)
Record vio := mkVio { vi_vfs : vfs F D; vi_uio : stream }.
Definition set_vi_vfs v (io : vio) := mkVio v (vi_uio io).
Definition set_vi_uio v (io : vio) := mkVio (vi_vfs io) v.
Definition on_vfs {A} (m : VM A) : M vio A := lift vi_vfs set_vi_vfs m.
Definition on_uio {A} (m : M stream A) : M vio A := lift vi_uio set_vi_uio m.
Definition on_fs_uio {A} (f : Z) (m : M (F * stream) A) : M vio A := λ io,
  match fs_at f (vi_vfs io) with
  | None => Undef
  | Some x =>
      match m (x, vi_uio io) with
      | Ok a (x', u) => Ok a (mkVio (set_fs_at f x' (vi_vfs io)) u)
      | Err e (x', u) => Err e (mkVio (set_fs_at f x' (vi_vfs io)) u)
      | Panic => Panic
      | Undef => Undef
      end
  end.

(** ** Devices as vnodes *)

Definition read_dn (p : Z) : VM devnode := s <- get ;; deref (devnodes s !! p).
Definition write_dn (p : Z) (n : devnode) : VM unit := modify (set_devnodes <[p := n]>).
(** vn_data of a device's vnode, as a device. *)
Definition vn_device (p : Z) : VM device :=
  n <- read_dn p ;; d <- deref (dn_dev n) ;; s <- get ;; deref (devices s !! d).
Definition on_driver {A} (m : M D A) : VM A := lift drivers set_drivers m.
Definition on_driver_uio {A} (m : M (D * stream) A) : M vio A :=
  lift (λ io, (drivers (vi_vfs io), vi_uio io)) (λ p io, mkVio (set_drivers p.1 (vi_vfs io)) p.2) m.

(** vnode_check, which VOP macros begin with. *)
Definition vnode_check (p : Z) : VM unit :=
  with_biglock (
    n <- read_dn p ;;
    kassert (0 <? dn_refcount n) ;;
    kassert (0 <=? dn_opencount n)).

Definition dev_open (p flags : Z) : VM unit :=
  vnode_check p ;;
  d <- vn_device p ;;
  if flag flags (Z.lor (Z.lor O_CREAT O_TRUNC) (Z.lor O_EXCL O_APPEND)) then fail EINVAL else
  match d_driver d with None => ret tt | Some k => on_driver (d_open k flags) end.
Definition dev_close (p : Z) : VM unit :=
  vnode_check p ;;
  d <- vn_device p ;;
  match d_driver d with None => ret tt | Some k => on_driver (d_close k) end.
Definition dev_reclaim (p : Z) : VM unit := ret tt.

(** nullio: reads find the end of the file, writes are discarded. *)
Definition nullio : M stream unit := modify (λ u, if is_write u then set_resid 0 u else u).
Definition dev_io (p : Z) : M vio unit :=
  d <- on_vfs (vn_device p) ;;
  match d_driver d with None => on_uio nullio | Some k => on_driver_uio (d_io k) end.
Definition dev_read (p : Z) : M vio unit :=
  on_vfs (vnode_check p) ;; u <- gets vi_uio ;; kassert (negb (is_write u)) ;; dev_io p.
Definition dev_write (p : Z) : M vio unit :=
  on_vfs (vnode_check p) ;; u <- gets vi_uio ;; kassert (is_write u) ;; dev_io p.
Definition dev_ioctl (p op : Z) : VM unit :=
  vnode_check p ;;
  d <- vn_device p ;;
  match d_driver d with None => fail EINVAL | Some k => on_driver (d_ioctl k op) end.

Definition dev_gettype (p : Z) : VM Z :=
  vnode_check p ;; d <- vn_device p ;; ret (if 0 <? d_blocks d then S_IFBLK else S_IFCHR).
(** Size, mode, links, blocks and device number; blksize is set for block devices. *)
Definition dev_stat (p : Z) : VM (Z * Z * Z * Z * Z) :=
  vnode_check p ;;
  d <- vn_device p ;;
  t <- dev_gettype p ;;
  ret (if 0 <? d_blocks d then u32 (d_blocks d * d_blocksize d) else 0, Z.lor t (6 * 8 ^ 2), 1, d_blocks d, d_devnumber d).
Definition dev_tryseek (p pos : Z) : VM unit :=
  vnode_check p ;;
  d <- vn_device p ;;
  if 0 <? d_blocks d then
    if negb (Z.rem pos (d_blocksize d) =? 0) then fail EINVAL
    else if pos <? 0 then fail EINVAL
    else if d_blocks d <=? Z.quot pos (d_blocksize d) then fail EINVAL
    else ret tt
  else fail ESPIPE.
Definition dev_truncate (p len : Z) : VM unit :=
  vnode_check p ;;
  d <- vn_device p ;;
  if (0 <? d_blocks d) && (u32 (d_blocks d * d_blocksize d) =? len) then ret tt else fail EINVAL.

(** The operations of a device that are only stubs. *)
Definition null_io (p : Z) : M vio unit := on_vfs (vnode_check p) ;; fail EINVAL.
Definition null_fsync (p : Z) : VM unit := vnode_check p.
Definition dev_mmap (p : Z) : VM unit := vnode_check p ;; fail EUNIMP.
Definition dev_namefile (p : Z) : M vio unit := on_vfs (vnode_check p).
Definition null_creat (p : Z) : VM vnode := vnode_check p ;; fail ENOTDIR.
Definition null_nameop (p : Z) : VM unit := vnode_check p ;; fail ENOTDIR.

(** vnode.c, for the vnodes of devices. *)
Definition dev_incref (p : Z) : VM unit :=
  with_biglock (n <- read_dn p ;; write_dn p (mkDn (dn_refcount n + 1) (dn_opencount n) (dn_dev n))).
Definition dev_decref (p : Z) : VM unit :=
  with_biglock (
    n <- read_dn p ;;
    kassert (0 <? dn_refcount n) ;;
    if 1 <? dn_refcount n then write_dn p (mkDn (dn_refcount n - 1) (dn_opencount n) (dn_dev n))
    else attempt (dev_reclaim p) ;; ret tt).
Definition dev_incopen (p : Z) : VM unit :=
  with_biglock (n <- read_dn p ;; write_dn p (mkDn (dn_refcount n) (dn_opencount n + 1) (dn_dev n))).
Definition dev_decopen (p : Z) : VM unit :=
  with_biglock (
    n <- read_dn p ;;
    kassert (0 <? dn_opencount n) ;;
    write_dn p (mkDn (dn_refcount n) (dn_opencount n - 1) (dn_dev n)) ;;
    if 0 <? dn_opencount n - 1 then ret tt else attempt (dev_close p) ;; ret tt).

Definition dev_lookup (p : Z) (pathname : str) : VM vnode :=
  vnode_check p ;;
  if 0 <? lengthZ pathname then fail ENOENT else dev_incref p ;; ret (DevVn p).
Definition dev_lookparent (p : Z) : VM (vnode * str) := vnode_check p ;; fail ENOTDIR.

(** kmalloc: whether it succeeds, and a new pointer. *)
Definition kmalloc_ok : VM bool :=
  s <- get ;;
  modify (set_mem (tail (vfs_mem s))) ;;
  ret (default true (head (vfs_mem s))).
Definition new_pointer : VM Z :=
  s <- get ;;
  modify (set_next (vfs_next s + 1)) ;;
  ret (vfs_next s).
Definition alloc (n : Z) : VM unit := modify (set_live (λ l, l + n)).

(** VOP_INIT leaves a reference count of one. *)
Definition dev_create_vnode (dev : option Z) : VM (option Z) :=
  mem <- kmalloc_ok ;;
  if negb mem then ret None else
  p <- new_pointer ;;
  alloc 1 ;;
  write_dn p (mkDn 1 0 dev) ;;
  ret (Some p).

(** ** Vnodes in general *)

Definition vn_fs (v : vnode) : option Z := match v with DevVn _ => None | FsVn f _ => Some f end.

Definition VOP_INCREF (v : vnode) : VM unit := match v with DevVn p => dev_incref p | FsVn f p => on_fs f (op_incref p) end.
Definition VOP_DECREF (v : vnode) : VM unit := match v with DevVn p => dev_decref p | FsVn f p => on_fs f (op_decref p) end.
Definition VOP_INCOPEN (v : vnode) : VM unit := match v with DevVn p => dev_incopen p | FsVn f p => on_fs f (op_incopen p) end.
Definition VOP_DECOPEN (v : vnode) : VM unit := match v with DevVn p => dev_decopen p | FsVn f p => on_fs f (op_decopen p) end.
Definition VOP_OPEN (v : vnode) (flags : Z) : VM unit :=
  match v with DevVn p => dev_open p flags | FsVn f p => on_fs f (op_open p flags) end.
Definition VOP_GETTYPE (v : vnode) : VM Z := match v with DevVn p => dev_gettype p | FsVn f p => on_fs f (op_gettype p) end.
Definition VOP_TRUNCATE (v : vnode) (len : Z) : VM unit :=
  match v with DevVn p => dev_truncate p len | FsVn f p => on_fs f (op_truncate p len) end.
Definition VOP_READ (v : vnode) : M vio unit := match v with DevVn p => dev_read p | FsVn f p => on_fs_uio f (op_read p) end.
Definition VOP_WRITE (v : vnode) : M vio unit := match v with DevVn p => dev_write p | FsVn f p => on_fs_uio f (op_write p) end.
Definition VOP_READLINK (v : vnode) : M vio unit :=
  match v with DevVn p => null_io p | FsVn f p => on_fs_uio f (op_readlink p) end.
Definition VOP_NAMEFILE (v : vnode) : M vio unit :=
  match v with DevVn p => dev_namefile p | FsVn f p => on_fs_uio f (op_namefile p) end.
Definition VOP_CREAT (v : vnode) (name : str) (excl : bool) : VM vnode :=
  match v with DevVn p => null_creat p | FsVn f p => q <- on_fs f (op_creat p name excl) ;; ret (FsVn f q) end.
Definition VOP_SYMLINK (v : vnode) (name contents : str) : VM unit :=
  match v with DevVn p => null_nameop p | FsVn f p => on_fs f (op_symlink p name contents) end.
Definition VOP_MKDIR (v : vnode) (name : str) : VM unit :=
  match v with DevVn p => null_nameop p | FsVn f p => on_fs f (op_mkdir p name) end.
(** The callers of the next two have checked that both vnodes are of one file
    system. *)
Definition VOP_LINK (v : vnode) (name : str) (file : vnode) : VM unit :=
  match v, file with
  | FsVn f p, FsVn _ q => on_fs f (op_link p name q)
  | DevVn p, _ => null_nameop p
  | FsVn _ _, DevVn _ => undef
  end.
Definition VOP_RENAME (v : vnode) (name : str) (v2 : vnode) (name2 : str) : VM unit :=
  match v, v2 with
  | FsVn f p, FsVn _ q => on_fs f (op_rename p name q name2)
  | DevVn p, _ => null_nameop p
  | FsVn _ _, DevVn _ => undef
  end.
Definition VOP_REMOVE (v : vnode) (name : str) : VM unit :=
  match v with DevVn p => null_nameop p | FsVn f p => on_fs f (op_remove p name) end.
Definition VOP_RMDIR (v : vnode) (name : str) : VM unit :=
  match v with DevVn p => null_nameop p | FsVn f p => on_fs f (op_rmdir p name) end.
Definition VOP_LOOKUP (v : vnode) (path : str) : VM vnode :=
  match v with DevVn p => dev_lookup p path | FsVn f p => q <- on_fs f (op_lookup p path) ;; ret (FsVn f q) end.
Definition VOP_LOOKPARENT (v : vnode) (path : str) (buflen : Z) : VM (vnode * str) :=
  match v with
  | DevVn p => dev_lookparent p
  | FsVn f p => r <- on_fs f (op_lookparent p path buflen) ;; ret (FsVn f r.1, r.2)
  end.

(** ** The table of devices *)

Definition FSOP_GETVOLNAME (f : Z) : VM (option str) := on_fs f fs_getvolname.
Definition FSOP_GETROOT (f : Z) : VM vnode := p <- on_fs f fs_getroot ;; ret (FsVn f p).
Definition FSOP_SYNC (f : Z) : VM unit := on_fs f fs_sync.
(** Unmounting discards the struct fs. *)
Definition FSOP_UNMOUNT (f : Z) : VM unit := on_fs f fs_unmount ;; modify (set_filesystems (delete f)).

Fixpoint sync_loop (l : list knowndev) : VM unit :=
  match l with
  | [] => ret tt
  | kd :: l' => match kd_fs kd with Some f => attempt (FSOP_SYNC f) ;; ret tt | None => ret tt end ;; sync_loop l'
  end.
Definition vfs_sync : VM unit := with_biglock (s <- get ;; sync_loop (knowndevs s)).

(** The body of the loop of vfs_getroot: the vnode the name stands for, if it is
    one of this device's. *)
Definition getroot_dev (kd : knowndev) (devname : str) : VM (option vnode) :=
  let same := streq (kd_name kd) devname in
  r <- match kd_fs kd with
       | Some f =>
           volname <- FSOP_GETVOLNAME f ;;
           if same || match volname with Some n => streq n devname | None => false end
           then v <- FSOP_GETROOT f ;; ret (Some v) else ret None
       | None => if match kd_rawname kd with Some _ => same | None => false end then fail ENXIO else ret None
       end ;;
  match r with
  | Some v => ret (Some v)
  | None =>
      if same then
        kassert (bool_decide (kd_fs kd = None)) ;;
        kassert (bool_decide (kd_rawname kd = None)) ;;
        kassert (bool_decide (kd_device kd ≠ None)) ;;
        dev_incref (kd_vnode kd) ;;
        ret (Some (DevVn (kd_vnode kd)))
      else if match kd_rawname kd with Some n => streq n devname | None => false end then
        kassert (bool_decide (kd_device kd ≠ None)) ;;
        dev_incref (kd_vnode kd) ;;
        ret (Some (DevVn (kd_vnode kd)))
      else ret None
  end.

Fixpoint getroot_loop (l : list knowndev) (devname : str) : VM vnode :=
  match l with
  | [] => fail ENODEV
  | kd :: l' =>
      r <- getroot_dev kd devname ;;
      match r with Some v => ret v | None => getroot_loop l' devname end
  end.
Definition vfs_getroot (devname : str) : VM vnode :=
  h <- biglock_do_i_hold ;; kassert h ;;
  s <- get ;; getroot_loop (knowndevs s) devname.

Fixpoint getdevname_loop (l : list knowndev) (f : Z) : option str :=
  match l with
  | [] => None
  | kd :: l' => if bool_decide (kd_fs kd = Some f) then Some (kd_name kd) else getdevname_loop l' f
  end.
Definition vfs_getdevname (f : Z) : VM (option str) :=
  h <- biglock_do_i_hold ;; kassert h ;;
  s <- get ;; ret (getdevname_loop (knowndevs s) f).

Definition mkrawname (name : str) : str := name ++ [114; 97; 119].

(** Both not NULL, and the same. *)
Definition samestring (a b : option str) : bool :=
  match a, b with Some x, Some y => streq x y | _, _ => false end.
Definition samestring3 (a b c d : option str) : bool := samestring a b || samestring a c || samestring a d.

Fixpoint badnames_loop (l : list knowndev) (n1 n2 n3 : option str) : VM bool :=
  match l with
  | [] => ret false
  | kd :: l' =>
      vol <- match kd_fs kd with Some f => volname <- FSOP_GETVOLNAME f ;; ret (samestring3 volname n1 n2 n3) | None => ret false end ;;
      if vol then ret true
      else if samestring3 (kd_rawname kd) n1 n2 n3 || samestring3 (Some (kd_name kd)) n1 n2 n3 then ret true
      else badnames_loop l' n1 n2 n3
  end.
Definition badnames (n1 n2 n3 : option str) : VM bool :=
  h <- biglock_do_i_hold ;; kassert h ;;
  s <- get ;; badnames_loop (knowndevs s) n1 n2 n3.

(** vfs_doadd; at the label nomem whatever has been allocated is freed. *)
Definition nomem (n : Z) : VM unit := alloc (- n) ;; fail ENOMEM.
Definition vfs_doadd (dname : str) (mountable : bool) (dev : option Z) (fs : option Z) : VM unit :=
  with_biglock (
    mem <- kmalloc_ok ;;
    if negb mem then nomem 0 else
    alloc 1 ;;
    mem <- (if mountable then kmalloc_ok else ret true) ;;
    if negb mem then nomem 1 else
    let rawname := if mountable then Some (mkrawname dname) else None in
    let names := if mountable then 2 else 1 in
    alloc (names - 1) ;;
    o <- dev_create_vnode dev ;;
    match o with
    | None => nomem names
    | Some vn =>
        mem <- kmalloc_ok ;;
        if negb mem then modify (set_devnodes (delete vn)) ;; nomem (names + 1) else
        alloc 1 ;;
        let kd := mkKd dname rawname dev vn fs in
        volname <- match fs with Some f => FSOP_GETVOLNAME f | None => ret None end ;;
        bad <- badnames (Some dname) rawname volname ;;
        if bad then fail EEXIST else
        mem <- kmalloc_ok ;;                            (* knowndevarray_add, which grows the array *)
        if negb mem then fail ENOMEM else
        s <- get ;;
        let index := lengthZ (knowndevs s) in
        modify (set_knowndevs (knowndevs s ++ [kd])) ;;
        match dev with
        | Some d => x <- deref (devices s !! d) ;;
                    modify (set_devices <[d := mkDevice (d_blocks x) (d_blocksize x) (index + 1) (d_driver x)]>)
        | None => ret tt
        end
    end).
Definition vfs_adddev (devname : str) (dev : Z) (mountable : bool) : VM unit := vfs_doadd devname mountable (Some dev) None.
Definition vfs_addfs (devname : str) (f : Z) : VM unit := vfs_doadd devname false None (Some f).

(** devnull_create, vfs_bootstrap: failures here are panics. *)
Definition NULL_NAME : str := [110; 117; 108; 108].
Definition devnull_create : VM unit :=
  mem <- kmalloc_ok ;;
  kassert mem ;;
  d <- new_pointer ;;
  modify (set_devices <[d := mkDevice 0 1 0 None]>) ;;
  r <- attempt (vfs_adddev NULL_NAME d false) ;;
  match r with inl _ => ret tt | inr _ => panic end.
Definition vfs_bootstrap : VM unit :=
  mem <- kmalloc_ok ;;
  kassert mem ;;
  modify (set_knowndevs []) ;;
  mem <- kmalloc_ok ;;
  kassert mem ;;
  modify (set_biglock 0) ;;
  devnull_create.

(** ** Mounting *)

(** The index in the table of the mountable device of that name. *)
Fixpoint findmount_loop (l : list knowndev) (i : nat) (devname : str) : option nat :=
  match l with
  | [] => None
  | kd :: l' =>
      if bool_decide (kd_rawname kd = None) then findmount_loop l' (S i) devname
      else if streq devname (kd_name kd) then Some i else findmount_loop l' (S i) devname
  end.
Definition findmount (devname : str) : VM nat :=
  h <- biglock_do_i_hold ;; kassert h ;;
  s <- get ;;
  match findmount_loop (knowndevs s) 0 devname with Some i => ret i | None => fail ENODEV end.

Definition set_kd_fs (i : nat) (v : option Z) : VM unit :=
  modify (λ s, set_knowndevs (alter (λ kd, mkKd (kd_name kd) (kd_rawname kd) (kd_device kd) (kd_vnode kd) v) i (knowndevs s)) s).

(** [mountfunc] makes a struct fs of the device. *)
Definition vfs_mount (devname : str) (mountfunc : Z → VM Z) : VM unit :=
  with_biglock (
    i <- findmount devname ;;
    s <- get ;;
    kd <- deref (knowndevs s !! i) ;;
    match kd_fs kd with
    | Some _ => fail EBUSY
    | None =>
        kassert (bool_decide (kd_rawname kd ≠ None)) ;;
        kassert (bool_decide (kd_device kd ≠ None)) ;;
        d <- deref (kd_device kd) ;;
        f <- mountfunc d ;;
        set_kd_fs i (Some f) ;;
        FSOP_GETVOLNAME f ;;
        ret tt
    end).

Definition vfs_unmount (devname : str) : VM unit :=
  with_biglock (
    i <- findmount devname ;;
    s <- get ;;
    kd <- deref (knowndevs s !! i) ;;
    match kd_fs kd with
    | None => fail EINVAL
    | Some f =>
        kassert (bool_decide (kd_rawname kd ≠ None)) ;;
        kassert (bool_decide (kd_device kd ≠ None)) ;;
        FSOP_SYNC f ;;
        FSOP_UNMOUNT f ;;
        set_kd_fs i None
    end).

(** One device of vfs_unmountall: a second sync if the first fails; what does not
    succeed stays mounted. *)
Definition unmount_one (i : nat) (f : Z) : VM unit :=
  r <- attempt (FSOP_SYNC f) ;;
  r <- match r with inl _ => ret (inl tt) | inr _ => attempt (FSOP_SYNC f) end ;;
  match r with
  | inr _ => ret tt
  | inl _ =>
      r <- attempt (FSOP_UNMOUNT f) ;;
      match r with inr _ => ret tt | inl _ => set_kd_fs i None end
  end.
Fixpoint unmountall_loop (l : list knowndev) (i : nat) : VM unit :=
  match l with
  | [] => ret tt
  | kd :: l' =>
      match kd_rawname kd, kd_fs kd with
      | Some _, Some f => unmount_one i f
      | _, _ => ret tt
      end ;;
      unmountall_loop l' (S i)
  end.
Definition vfs_unmountall : VM unit := with_biglock (s <- get ;; unmountall_loop (knowndevs s) 0).

(** ** The current directory *)

Definition vfs_getcurdir : VM vnode :=
  s <- get ;;
  match p_cwd s with
  | Some v => VOP_INCREF v ;; ret v
  | None => fail ENOENT
  end.
Definition vfs_setcurdir (dir : vnode) : VM unit :=
  vtype <- VOP_GETTYPE dir ;;
  if negb (vtype =? S_IFDIR) then fail ENOTDIR else
  VOP_INCREF dir ;;
  old <- gets p_cwd ;;
  modify (set_cwd (Some dir)) ;;
  match old with Some v => VOP_DECREF v | None => ret tt end.
Definition vfs_clearcurdir : VM unit :=
  old <- gets p_cwd ;;
  modify (set_cwd None) ;;
  match old with Some v => VOP_DECREF v | None => ret tt end.

(** ** Names *)

Fixpoint skip_slashes (path : str) : str :=
  match path with
  | c :: path' => if c =? SLASH then skip_slashes path' else path
  | [] => []
  end.

(** The first colon or slash: which one it is, what precedes it and what follows. *)
Fixpoint first_mark (path : str) : option (Z * str * str) :=
  match path with
  | [] => None
  | c :: path' =>
      if (c =? COLON) || (c =? SLASH) then Some (c, [], path')
      else '(m, pre, post) ← first_mark path'; Some (m, c :: pre, post)
  end.

(** getdevice; the pointer into the path is the rest of the path. *)
Definition getdevice (path : str) : VM (vnode * str) :=
  h <- biglock_do_i_hold ;; kassert h ;;
  match first_mark path with
  | Some (m, [], rest) =>
      if m =? SLASH then
        s <- get ;;
        match bootfs_vnode s with
        | None => fail ENOENT
        | Some v => VOP_INCREF v ;; ret (v, skip_slashes rest)
        end
      else
        vn <- vfs_getcurdir ;;
        kassert (bool_decide (vn_fs vn ≠ None)) ;;
        f <- deref (vn_fs vn) ;;
        v <- FSOP_GETROOT f ;;
        VOP_DECREF vn ;;
        ret (v, skip_slashes rest)
  | Some (m, dev, rest) =>
      if m =? COLON then v <- vfs_getroot dev ;; ret (v, skip_slashes rest)
      else v <- vfs_getcurdir ;; ret (v, path)
  | None => v <- vfs_getcurdir ;; ret (v, path)
  end.

Definition vfs_lookparent (path : str) (buflen : Z) : VM (vnode * str) :=
  with_biglock (
    p <- getdevice path ;;
    let '(startvn, subpath) := p in
    finally (if lengthZ subpath =? 0 then fail EINVAL else VOP_LOOKPARENT startvn subpath buflen) (VOP_DECREF startvn)).
Definition vfs_lookup (path : str) : VM vnode :=
  with_biglock (
    p <- getdevice path ;;
    let '(startvn, subpath) := p in
    if lengthZ subpath =? 0 then ret startvn
    else finally (VOP_LOOKUP startvn subpath) (VOP_DECREF startvn)).

Definition vfs_chdir (path : str) : VM unit :=
  vn <- vfs_lookup path ;; finally (vfs_setcurdir vn) (VOP_DECREF vn).

Definition change_bootfs (newvn : option vnode) : VM unit :=
  oldvn <- gets bootfs_vnode ;;
  modify (set_bootfs newvn) ;;
  match oldvn with Some v => VOP_DECREF v | None => ret tt end.
(** The name is cut by snprintf; strlen(s) counts the colon that s points to. *)
Definition vfs_setbootfs (fsname : str) : VM unit :=
  with_biglock (
    let tmp := take (Z.to_nat (NAME_MAX - 1)) fsname in
    if bool_decide (COLON ∈ tmp) then fail EINVAL else
    vfs_chdir (tmp ++ [COLON]) ;;
    newguy <- vfs_getcurdir ;;
    change_bootfs (Some newguy)).
Definition vfs_clearbootfs : VM unit := with_biglock (change_bootfs None).

Definition vfs_getcwd : M vio unit :=
  u <- gets vi_uio ;;
  kassert (negb (is_write u)) ;;
  cwd <- on_vfs vfs_getcurdir ;;
  kassert (bool_decide (vn_fs cwd ≠ None)) ;;
  f <- deref (vn_fs cwd) ;;
  volname <- on_vfs (FSOP_GETVOLNAME f) ;;
  name <- match volname with Some n => ret (Some n) | None => on_vfs (with_biglock (vfs_getdevname f)) end ;;
  kassert (bool_decide (name ≠ None)) ;;
  name <- deref name ;;
  finally (
    on_uio (stream_move name (lengthZ name)) ;;
    on_uio (stream_move [COLON] 1) ;;
    VOP_NAMEFILE cwd) (on_vfs (VOP_DECREF cwd)).

(** ** Operations on paths *)

(** sizeof(name) for char name[NAME_MAX+1] *)
Definition NAME_BUF : Z := NAME_MAX + 1.

Definition vfs_open (path : str) (openflags : Z) : VM vnode :=
  let how := Z.land openflags O_ACCMODE in
  if negb ((how =? O_RDONLY) || (how =? O_WRONLY) || (how =? O_RDWR)) then fail EINVAL else
  let canwrite := negb (how =? O_RDONLY) in
  vn <- (if flag openflags O_CREAT then
           p <- vfs_lookparent path NAME_BUF ;;
           let '(dir, name) := p in
           finally (VOP_CREAT dir name (flag openflags O_EXCL)) (VOP_DECREF dir)
         else vfs_lookup path) ;;
  on_error (VOP_OPEN vn openflags) (VOP_DECREF vn) ;;
  VOP_INCOPEN vn ;;
  (if flag openflags O_TRUNC then
     on_error (if negb canwrite then fail EINVAL else VOP_TRUNCATE vn 0) (VOP_DECOPEN vn ;; VOP_DECREF vn)
   else ret tt) ;;
  ret vn.

Definition vfs_close (vn : vnode) : VM unit := VOP_DECOPEN vn ;; VOP_DECREF vn.

(** An operation on a name in a directory. *)
Definition in_parent (path : str) (op : vnode → str → VM unit) : VM unit :=
  p <- vfs_lookparent path NAME_BUF ;;
  let '(dir, name) := p in
  finally (op dir name) (VOP_DECREF dir).
Definition vfs_remove (path : str) : VM unit := in_parent path VOP_REMOVE.
Definition vfs_symlink (contents path : str) : VM unit := in_parent path (λ dir name, VOP_SYMLINK dir name contents).
Definition vfs_mkdir (path : str) : VM unit := in_parent path VOP_MKDIR.
Definition vfs_rmdir (path : str) : VM unit := in_parent path VOP_RMDIR.

(** Both have a file system, and it is the same. *)
Definition same_vn_fs (v1 v2 : vnode) : bool := bool_decide (vn_fs v1 ≠ None ∧ vn_fs v1 = vn_fs v2).

Definition vfs_rename (oldpath newpath : str) : VM unit :=
  p <- vfs_lookparent oldpath NAME_BUF ;;
  let '(olddir, oldname) := p in
  q <- on_error (vfs_lookparent newpath NAME_BUF) (VOP_DECREF olddir) ;;
  let '(newdir, newname) := q in
  finally (if negb (same_vn_fs olddir newdir) then fail EXDEV else VOP_RENAME olddir oldname newdir newname)
    (VOP_DECREF newdir ;; VOP_DECREF olddir).

Definition vfs_link (oldpath newpath : str) : VM unit :=
  oldfile <- vfs_lookup oldpath ;;
  q <- on_error (vfs_lookparent newpath NAME_BUF) (VOP_DECREF oldfile) ;;
  let '(newdir, newname) := q in
  finally (if negb (same_vn_fs oldfile newdir) then fail EXDEV else VOP_LINK newdir newname oldfile)
    (VOP_DECREF newdir ;; VOP_DECREF oldfile).

Definition vfs_readlink (path : str) : M vio unit :=
  vn <- on_vfs (vfs_lookup path) ;;
  finally (VOP_READLINK vn) (on_vfs (VOP_DECREF vn)).
End Vfs.
