(* ===== verification/SfsTypes.v ===== *)
(** * On-disk structures of SFS

    Models kern/include/kern/sfs.h: superblock, inode and directory entry, as
    records and as the bytes of a disk block.  The structures are written to disk
    as they lie in memory, on a big-endian machine, so that word [i] of a block is
    bytes 4i to 4i+3 with the most significant first. *)

From S2P Require Import Prelude.
#[local] Open Scope kern_scope.

Definition SFS_MAGIC : Z := 0xabadf001.
Definition SFS_BLOCKSIZE : Z := 512.
Definition SFS_VOLNAME_SIZE : Z := 32.
Definition SFS_NDIRECT : Z := 15.
Definition SFS_DBPERIDB : Z := 128.
Definition SFS_NAMELEN : Z := 60.
Definition SFS_SB_LOCATION : Z := 0.
Definition SFS_ROOT_LOCATION : Z := 1.
Definition SFS_MAP_LOCATION : Z := 2.
Definition SFS_NOINO : Z := 0.
Definition SFS_BLOCKBITS : Z := SFS_BLOCKSIZE * 8.
Definition SFS_ROUNDUP (a b : Z) : Z := u32 (a + b - 1) / b * b.
Definition SFS_BITMAPSIZE (nblocks : Z) : Z := SFS_ROUNDUP nblocks SFS_BLOCKBITS.
Definition SFS_BITBLOCKS (nblocks : Z) : Z := SFS_BITMAPSIZE nblocks / SFS_BLOCKBITS.
Definition SFS_TYPE_INVAL : Z := 0.
Definition SFS_TYPE_FILE : Z := 1.
Definition SFS_TYPE_DIR : Z := 2.

Record sfs_super := mkSuper {
  sp_magic : Z;
  sp_nblocks : Z;
  sp_volname : list Z;
  sp_reserved : list Z
}.

Record sfs_inode := mkInode {
  sfi_size : Z;
  sfi_type : Z;
  sfi_linkcount : Z;
  sfi_direct : list Z;
  sfi_indirect : Z;
  sfi_waste : list Z
}.

Record sfs_dir := mkDir { sfd_ino : Z; sfd_name : list Z }.
Definition sizeof_sfs_dir : Z := 64.

(** ** The structures as blocks *)

Definition inode_words (x : sfs_inode) : list Z :=
  [sfi_size x; 2 ^ 16 * sfi_type x + sfi_linkcount x] ++ sfi_direct x ++ [sfi_indirect x] ++ sfi_waste x.
Definition inode_bytes (x : sfs_inode) : list Z := bytes_of_words (inode_words x).

Definition words_inode (l : list Z) : sfs_inode :=
  let w i := default 0 (l !! i) in
  mkInode (w 0%nat) (w 1%nat / 2 ^ 16) (w 1%nat mod 2 ^ 16) (take 15 (drop 2 l)) (w 17%nat) (drop 18 l).
Definition bytes_inode (b : list Z) : sfs_inode := words_inode (words_of_bytes b).

Definition super_bytes (x : sfs_super) : list Z :=
  word_bytes (sp_magic x) ++ word_bytes (sp_nblocks x) ++ sp_volname x ++ bytes_of_words (sp_reserved x).
Definition bytes_super (b : list Z) : sfs_super :=
  let w i := default 0 (words_of_bytes b !! i) in
  mkSuper (w 0%nat) (w 1%nat) (take 32 (drop 8 b)) (words_of_bytes (drop 40 b)).

Definition dir_bytes (x : sfs_dir) : list Z := word_bytes (sfd_ino x) ++ sfd_name x.
Definition bytes_dir (b : list Z) : sfs_dir := mkDir (default 0 (words_of_bytes b !! 0%nat)) (take 60 (drop 4 b)).

(** ** Well-formedness: field widths *)

Definition is_block (b : list Z) : Prop := lengthZ b = SFS_BLOCKSIZE ∧ Forall is_byte b.

Record inode_wf (x : sfs_inode) : Prop := {
  iw_size : is_word (sfi_size x);
  iw_type : 0 ≤ sfi_type x < 2 ^ 16;
  iw_links : 0 ≤ sfi_linkcount x < 2 ^ 16;
  iw_ndirect : lengthZ (sfi_direct x) = SFS_NDIRECT;
  iw_direct : Forall is_word (sfi_direct x);
  iw_indirect : is_word (sfi_indirect x);
  iw_nwaste : lengthZ (sfi_waste x) = 110;
  iw_waste : Forall is_word (sfi_waste x)
}.

Record super_wf (x : sfs_super) : Prop := {
  sw_magic : is_word (sp_magic x);
  sw_nblocks : is_word (sp_nblocks x);
  sw_nvolname : lengthZ (sp_volname x) = SFS_VOLNAME_SIZE;
  sw_volname : Forall is_byte (sp_volname x);
  sw_nreserved : lengthZ (sp_reserved x) = 118;
  sw_reserved : Forall is_word (sp_reserved x)
}.

Record dir_wf (x : sfs_dir) : Prop := {
  dw_ino : is_word (sfd_ino x);
  dw_len : lengthZ (sfd_name x) = SFS_NAMELEN;
  dw_name : Forall is_byte (sfd_name x)
}.

(** ** Encoding and decoding are inverse *)

Lemma bytes_of_words_cons w l : bytes_of_words (w :: l) = word_bytes w ++ bytes_of_words l.
Proof. done. Qed.

Lemma words_of_bytes_of_words l : Forall is_word l → words_of_bytes (bytes_of_words l) = l.
Proof.
  induction 1 as [|w l Hw _ IH]; [done|]. rewrite bytes_of_words_cons, (proj2 (word_bytes_spec w Hw)). f_equal. exact IH.
Qed.

Lemma bytes_of_words_bytes l : Forall is_word l → Forall is_byte (bytes_of_words l).
Proof.
  induction 1 as [|w l Hw _ IH]; [constructor|]. apply Forall_app. split; [by apply word_bytes_spec|exact IH].
Qed.

Lemma length_bytes_of_words l : lengthZ (bytes_of_words l) = 4 * lengthZ l.
Proof.
  unfold lengthZ, bytes_of_words. induction l as [|w l IH]; [done|]. cbn [mbind list_bind]. rewrite length_app. simpl. lia.
Qed.

Lemma bytes_of_words_of_bytes (n : nat) l : length l = (4 * n)%nat → Forall is_byte l →
  Forall is_word (words_of_bytes l) ∧ length (words_of_bytes l) = n ∧ bytes_of_words (words_of_bytes l) = l.
Proof.
  revert l. induction n as [|n IH]; intros l Hl Hb; [by destruct l|].
  destruct l as [|a [|b [|c [|d l]]]]; simpl in Hl; try lia. cbn [words_of_bytes].
  repeat match goal with H : Forall is_byte (_ :: _) |- _ => apply Forall_cons_1 in H as [? H] end.
  destruct (IH l) as (Hi1 & Hi2 & Hi3); [lia|done|]. destruct (word_of_spec a b c d) as [Hw Hwb]; [done..|].
  split; [by constructor|]. split; [simpl; lia|]. rewrite bytes_of_words_cons, Hwb. simpl. do 4 f_equal. exact Hi3.
Qed.

Lemma inode_words_spec x : inode_wf x → Forall is_word (inode_words x) ∧ lengthZ (inode_words x) = 128.
Proof.
  intros [H1 H2 H3 H4 H5 H6 H7 H8]. unfold inode_words. unfold SFS_NDIRECT in H4. split.
  - repeat (apply Forall_app; split); try done; repeat constructor; unfold is_word in *; lia.
  - rewrite !lengthZ_app, H4, H7. done.
Qed.

Lemma words_inode_cons w0 w1 r :
  words_inode (w0 :: w1 :: r) =
  mkInode w0 (w1 / 2 ^ 16) (w1 mod 2 ^ 16) (take 15 r) (default 0 (r !! 15%nat)) (drop 16 r).
Proof. done. Qed.

Lemma inode_words_cons x :
  inode_words x = sfi_size x :: (2 ^ 16 * sfi_type x + sfi_linkcount x) :: sfi_direct x ++ sfi_indirect x :: sfi_waste x.
Proof. done. Qed.

Lemma words_inode_words x : inode_wf x → words_inode (inode_words x) = x.
Proof.
  intros [H1 H2 H3 H4 H5 H6 H7 H8]. rewrite inode_words_cons, words_inode_cons.
  destruct x as [sz ty lk di ind wa]. cbn [sfi_size sfi_type sfi_linkcount sfi_direct sfi_indirect sfi_waste] in *.
  unfold lengthZ, SFS_NDIRECT in H4. assert (length di = 15%nat) as Hd by lia.
  rewrite take_app_length' by done. rewrite lookup_app_r, drop_app_ge by lia. rewrite Hd. f_equal.
  - symmetry. apply (Z.div_unique_pos _ _ _ lk); lia.
  - symmetry. apply (Z.mod_unique_pos _ _ ty); lia.
Qed.

Lemma inode_words_words l : Forall is_word l → lengthZ l = 128 →
  inode_wf (words_inode l) ∧ inode_words (words_inode l) = l.
Proof.
  intros Hw Hl. unfold lengthZ in Hl. assert (length l = 128%nat) as Hn by lia.
  destruct l as [|w0 [|w1 l]]; try (simpl in Hn; lia). simpl in Hn. rewrite words_inode_cons.
  destruct (lookup_lt_is_Some_2 l 15) as [ind Hind]; [lia|]. rewrite Hind.
  apply Forall_cons_1 in Hw as [Hw0 Hw]. apply Forall_cons_1 in Hw as [Hw1 Hw].
  pose proof (Z.mod_pos_bound w1 (2 ^ 16) ltac:(lia)). unfold is_word in *.
  assert (0 ≤ w1 / 2 ^ 16 < 2 ^ 16) by (split; [apply Z.div_pos; lia|apply Z.div_lt_upper_bound; lia]).
  split.
  - split; cbn [sfi_size sfi_type sfi_linkcount sfi_direct sfi_indirect sfi_waste default]; try done.
    + unfold lengthZ. rewrite length_take. unfold SFS_NDIRECT. lia.
    + by apply Forall_take.
    + by apply (Forall_lookup_1 _ _ _ _ Hw Hind).
    + unfold lengthZ. rewrite length_drop. lia.
    + by apply Forall_drop.
  - rewrite inode_words_cons. cbn [sfi_size sfi_type sfi_linkcount sfi_direct sfi_indirect sfi_waste default].
    f_equal. f_equal.
    + pose proof (Z.div_mod w1 (2 ^ 16)). lia.
    + by apply take_drop_middle.
Qed.

(** An inode survives being written to disk and read back, and a block the way
    through an inode, unused space included. *)
Lemma inode_roundtrip x : inode_wf x → is_block (inode_bytes x) ∧ bytes_inode (inode_bytes x) = x.
Proof.
  intros Hx. destruct (inode_words_spec x Hx) as [Hw Hl]. unfold inode_bytes, bytes_inode, is_block.
  rewrite length_bytes_of_words, Hl, words_of_bytes_of_words by done.
  split_and!; [done|by apply bytes_of_words_bytes|by apply words_inode_words].
Qed.

Lemma block_words b : is_block b →
  Forall is_word (words_of_bytes b) ∧ lengthZ (words_of_bytes b) = SFS_DBPERIDB ∧ bytes_of_words (words_of_bytes b) = b.
Proof.
  intros [Hl Hb]. unfold lengthZ, SFS_BLOCKSIZE, SFS_DBPERIDB in *.
  destruct (bytes_of_words_of_bytes 128 b) as (H1 & H2 & H3); [lia|done|]. split_and!; [done|lia|done].
Qed.

Lemma words_block l : Forall is_word l → lengthZ l = SFS_DBPERIDB → is_block (bytes_of_words l).
Proof.
  intros Hw Hl. split; [rewrite length_bytes_of_words, Hl; done|by apply bytes_of_words_bytes].
Qed.

Lemma block_inode b : is_block b → inode_wf (bytes_inode b) ∧ inode_bytes (bytes_inode b) = b.
Proof.
  intros Hb. destruct (block_words b Hb) as (H1 & H2 & H3). unfold bytes_inode, inode_bytes.
  destruct (inode_words_words _ H1 H2) as [Hwf ->]. by split.
Qed.

Lemma super_roundtrip x : super_wf x → is_block (super_bytes x) ∧ bytes_super (super_bytes x) = x.
Proof.
  intros [H1 H2 H3 H4 H5 H6]. destruct x as [mg nb vn rs]. simpl in *. unfold SFS_VOLNAME_SIZE in *.
  unfold super_bytes, bytes_super. simpl sp_magic. simpl sp_nblocks. simpl sp_volname. simpl sp_reserved.
  destruct (word_bytes_spec mg H1) as [Hm1 Hm2], (word_bytes_spec nb H2) as [Hn1 Hn2].
  split; [split|].
  - rewrite !lengthZ_app, length_bytes_of_words, H3, H5. done.
  - repeat (apply Forall_app; split); try done. by apply bytes_of_words_bytes.
  - rewrite Hm2, Hn2. simpl. unfold lengthZ in H3. rewrite !drop_0.
    rewrite take_app_length' by lia. f_equal.
    rewrite drop_app_length' by lia. by apply words_of_bytes_of_words.
Qed.

Lemma block_super b : is_block b → super_wf (bytes_super b) ∧ super_bytes (bytes_super b) = b.
Proof.
  intros [Hl Hb]. unfold lengthZ, SFS_BLOCKSIZE in Hl.
  destruct b as [|b0 [|b1 [|b2 [|b3 [|b4 [|b5 [|b6 [|b7 b]]]]]]]]; try (simpl in Hl; lia). simpl in Hl.
  repeat match goal with H : Forall is_byte (_ :: _) |- _ => apply Forall_cons_1 in H as [? H] end.
  destruct (word_of_spec b0 b1 b2 b3) as [Hw0 Hb0]; [done..|]. destruct (word_of_spec b4 b5 b6 b7) as [Hw1 Hb1]; [done..|].
  destruct (bytes_of_words_of_bytes 118 (drop 32 b)) as (Hd1 & Hd2 & Hd3); [rewrite length_drop; lia|by apply Forall_drop|].
  unfold bytes_super. simpl. rewrite !drop_0. split.
  - split; simpl; try done.
    + unfold lengthZ, SFS_VOLNAME_SIZE. rewrite length_take. lia.
    + by apply Forall_take.
    + unfold lengthZ. lia.
  - unfold super_bytes. simpl sp_magic. simpl sp_nblocks. simpl sp_volname. simpl sp_reserved.
    rewrite Hb0, Hb1, Hd3. simpl. by rewrite take_drop.
Qed.

Lemma dir_roundtrip x : dir_wf x →
  Forall is_byte (dir_bytes x) ∧ lengthZ (dir_bytes x) = sizeof_sfs_dir ∧ bytes_dir (dir_bytes x) = x.
Proof.
  intros [H1 H2 H3]. destruct x as [ino name]. simpl in *. unfold SFS_NAMELEN in *. unfold dir_bytes, bytes_dir.
  simpl sfd_ino. simpl sfd_name. destruct (word_bytes_spec ino H1) as [Hm1 Hm2]. split_and!.
  - by apply Forall_app.
  - rewrite lengthZ_app, H2. done.
  - rewrite Hm2. simpl. rewrite drop_0. f_equal. apply take_ge. unfold lengthZ in *. lia.
Qed.

Lemma bytes_dir_wf b : lengthZ b = sizeof_sfs_dir → Forall is_byte b → dir_wf (bytes_dir b) ∧ dir_bytes (bytes_dir b) = b.
Proof.
  intros Hl Hb. assert (length b = 64%nat) as Hn by (unfold lengthZ, sizeof_sfs_dir in Hl; lia). clear Hl.
  destruct b as [|b0 [|b1 [|b2 [|b3 b]]]]; try (simpl in Hn; lia). simpl in Hn.
  repeat match goal with H : Forall is_byte (_ :: _) |- _ => apply Forall_cons_1 in H as [? H] end.
  destruct (word_of_spec b0 b1 b2 b3) as [Hw0 Hb0]; [done..|]. unfold bytes_dir, dir_bytes.
  change (drop 4 (b0 :: b1 :: b2 :: b3 :: b)) with b. rewrite (take_ge b) by lia. cbn [sfd_ino sfd_name].
  change (default 0 _) with (word_of b0 b1 b2 b3). split.
  - split; simpl; [done|unfold lengthZ, SFS_NAMELEN; lia|done].
  - by rewrite Hb0.
Qed.
