(* ===== verification/Sfs.v ===== *)
(** * The simple file system: blocks and files

    Models the lower half of kern/fs/sfs/sfs_vnode.c and kern/fs/sfs/sfs_io.c: the
    in-memory file system and its vnodes, block I/O, space allocation, the block
    map of an inode, and reading and writing of files.  One file system is mounted;
    all of its operations run under vfs_biglock, whose depth is part of the state.
    The answers of kmalloc are an input. *)

From S2P Require Import Prelude Bitmap UserCopy Uio Disk SfsTypes.
#[local] Open Scope kern_scope.

Inductive vnode_ops := sfs_fileops | sfs_dirops.

(** struct sfs_vnode with the fields of its struct vnode. *)
Record sfs_vnode := mkSV {
  vn_ops : vnode_ops;
  vn_refcount : Z;
  vn_opencount : Z;
  sv_i : sfs_inode;
  sv_ino : Z;
  sv_dirty : bool
}.

Record sfs := mkSfs {
  vfs_biglock_depth : Z;
  sfs_device : lhd;
  sfs_sb : sfs_super;
  sfs_superdirty : bool;
  sfs_vnodes : list Z;          (* vnodes loaded into memory, by pointer *)
  sfs_freemap : bitmap;
  sfs_freemapdirty : bool;
  sv_at : gmap Z sfs_vnode;     (* the struct sfs_vnodes, by pointer *)
  sv_next : Z;                  (* the next pointer kmalloc hands out *)
  sfs_mem : list bool           (* the answers of kmalloc *)
}.
Abbreviation SM := (M sfs).

Definition set_depth f s := mkSfs (f (vfs_biglock_depth s)) (sfs_device s) (sfs_sb s) (sfs_superdirty s) (sfs_vnodes s)
  (sfs_freemap s) (sfs_freemapdirty s) (sv_at s) (sv_next s) (sfs_mem s).
Definition set_device v s := mkSfs (vfs_biglock_depth s) v (sfs_sb s) (sfs_superdirty s) (sfs_vnodes s)
  (sfs_freemap s) (sfs_freemapdirty s) (sv_at s) (sv_next s) (sfs_mem s).
Definition set_sb v s := mkSfs (vfs_biglock_depth s) (sfs_device s) v (sfs_superdirty s) (sfs_vnodes s)
  (sfs_freemap s) (sfs_freemapdirty s) (sv_at s) (sv_next s) (sfs_mem s).
Definition set_superdirty v s := mkSfs (vfs_biglock_depth s) (sfs_device s) (sfs_sb s) v (sfs_vnodes s)
  (sfs_freemap s) (sfs_freemapdirty s) (sv_at s) (sv_next s) (sfs_mem s).
Definition set_vnodes f s := mkSfs (vfs_biglock_depth s) (sfs_device s) (sfs_sb s) (sfs_superdirty s) (f (sfs_vnodes s))
  (sfs_freemap s) (sfs_freemapdirty s) (sv_at s) (sv_next s) (sfs_mem s).
Definition set_freemap v s := mkSfs (vfs_biglock_depth s) (sfs_device s) (sfs_sb s) (sfs_superdirty s) (sfs_vnodes s)
  v (sfs_freemapdirty s) (sv_at s) (sv_next s) (sfs_mem s).
Definition set_freemapdirty v s := mkSfs (vfs_biglock_depth s) (sfs_device s) (sfs_sb s) (sfs_superdirty s) (sfs_vnodes s)
  (sfs_freemap s) v (sv_at s) (sv_next s) (sfs_mem s).
Definition set_sv_at f s := mkSfs (vfs_biglock_depth s) (sfs_device s) (sfs_sb s) (sfs_superdirty s) (sfs_vnodes s)
  (sfs_freemap s) (sfs_freemapdirty s) (f (sv_at s)) (sv_next s) (sfs_mem s).

Definition set_inode f x := mkSV (vn_ops x) (vn_refcount x) (vn_opencount x) (f (sv_i x)) (sv_ino x) (sv_dirty x).
Definition set_dirty v x := mkSV (vn_ops x) (vn_refcount x) (vn_opencount x) (sv_i x) (sv_ino x) v.
Definition set_refcount v x := mkSV (vn_ops x) v (vn_opencount x) (sv_i x) (sv_ino x) (sv_dirty x).
Definition set_opencount v x := mkSV (vn_ops x) (vn_refcount x) v (sv_i x) (sv_ino x) (sv_dirty x).

Definition set_size v i := mkInode v (sfi_type i) (sfi_linkcount i) (sfi_direct i) (sfi_indirect i) (sfi_waste i).
Definition set_type v i := mkInode (sfi_size i) v (sfi_linkcount i) (sfi_direct i) (sfi_indirect i) (sfi_waste i).
Definition set_linkcount v i := mkInode (sfi_size i) (sfi_type i) v (sfi_direct i) (sfi_indirect i) (sfi_waste i).
Definition set_direct f i := mkInode (sfi_size i) (sfi_type i) (sfi_linkcount i) (f (sfi_direct i)) (sfi_indirect i) (sfi_waste i).
Definition set_indirect v i := mkInode (sfi_size i) (sfi_type i) (sfi_linkcount i) (sfi_direct i) v (sfi_waste i).

Definition read_sv (sv : Z) : SM sfs_vnode := s <- get ;; deref (sv_at s !! sv).
Definition update_sv (sv : Z) (f : sfs_vnode → sfs_vnode) : SM unit :=
  x <- read_sv sv ;; modify (set_sv_at <[sv := f x]>).

(** ** The big lock *)

Definition vfs_biglock_acquire : SM unit := modify (set_depth (λ d, d + 1)).
Definition vfs_biglock_do_i_hold : SM bool := gets (λ s, 0 <? vfs_biglock_depth s).
Definition vfs_biglock_release : SM unit :=
  h <- vfs_biglock_do_i_hold ;; kassert h ;; modify (set_depth (λ d, d - 1)).

(** A function body between acquire and release, which comes on every way out. *)
Definition under_biglock {A} (m : SM A) : SM A :=
  vfs_biglock_acquire ;;
  r <- attempt m ;;
  vfs_biglock_release ;;
  match r with inl a => ret a | inr e => fail e end.

(** ** Block I/O *)

(** A routine that is handed a uio runs on the file system and the uio. *)
Record iostate := mkIO { io_fs : sfs; io_uio : stream }.
Abbreviation IM := (M iostate).
Definition set_io_fs v s := mkIO v (io_uio s).
Definition set_io_uio v s := mkIO (io_fs s) v.
Definition fs {A} (m : SM A) : IM A := lift io_fs set_io_fs m.
Definition uio_op {A} (m : M stream A) : IM A := lift io_uio set_io_uio m.
Definition dev {A} (m : M dstate A) : IM A :=
  lift (λ s, mkD (sfs_device (io_fs s)) (io_uio s))
       (λ d s, mkIO (set_device (dcard d) (io_fs s)) (duio d)) m.

(** A call with a uio of the caller's own, which it looks at afterwards. *)
Definition with_uio (u : stream) (m : IM unit) : SM stream := λ s,
  match m (mkIO s u) with
  | Ok _ io => Ok (io_uio io) (io_fs io)
  | Err e io => Err e (io_fs io)
  | Panic => Panic
  | Undef => Undef
  end.

Definition sfs_rwblock : IM unit :=
  h <- fs vfs_biglock_do_i_hold ;; kassert h ;; dev rwblock.

(** SFSUIO *)
Definition sfs_uio (data : list Z) (block : Z) (rw : uio_rw) : stream :=
  stream_kinit data SFS_BLOCKSIZE (block * SFS_BLOCKSIZE) rw.
Definition sfs_rblock (block : Z) : SM (list Z) :=
  u <- with_uio (sfs_uio [] block UIO_READ) sfs_rwblock ;; ret (st_data u).
Definition sfs_wblock (data : list Z) (block : Z) : SM unit :=
  with_uio (sfs_uio data block UIO_WRITE) sfs_rwblock ;; ret tt.

Definition zero_data : list Z := replicate 512 0.
Definition sfs_clearblock (block : Z) : SM unit := sfs_wblock zero_data block.

Definition sfs_sync_inode (sv : Z) : SM unit :=
  x <- read_sv sv ;;
  if sv_dirty x then
    sfs_wblock (inode_bytes (sv_i x)) (sv_ino x) ;;
    update_sv sv (set_dirty false)
  else ret tt.

(** ** Space allocation *)

Definition freemap {A} (m : M bitmap A) : SM A := lift sfs_freemap set_freemap m.

Definition sfs_balloc : SM Z :=
  diskblock <- freemap bitmap_alloc ;;
  modify (set_freemapdirty true) ;;
  s <- get ;;
  (if sp_nblocks (sfs_sb s) <=? diskblock then panic else ret tt) ;;
  sfs_clearblock diskblock ;;
  ret diskblock.

Definition sfs_bfree (diskblock : Z) : SM unit :=
  freemap (bitmap_unmark diskblock) ;;
  modify (set_freemapdirty true).

Definition sfs_bused (diskblock : Z) : SM bool :=
  s <- get ;;
  if sp_nblocks (sfs_sb s) <=? diskblock then panic else
  r <- freemap (bitmap_isset diskblock) ;; ret (negb (r =? 0)).

(** ** The block map *)

(** The check sfs_bmap hands a block back with. *)
Definition hand_back (block : Z) : SM Z :=
  if block =? 0 then ret block else
  used <- sfs_bused block ;;
  if used then ret block else panic.

Definition bmap_direct (sv fileblock : Z) (doalloc : bool) : SM Z :=
  x <- read_sv sv ;;
  block <- deref (sfi_direct (sv_i x)).[fileblock] ;;
  block <- (if (block =? 0) && doalloc then
              b <- sfs_balloc ;;
              update_sv sv (λ x, set_dirty true (set_inode (set_direct (λ l, l.[fileblock := b])) x)) ;;
              ret b
            else ret block) ;;
  hand_back block.

(** The indirect block and its contents, allocated if there is none. *)
Definition bmap_idbuf (sv idblock : Z) : SM (Z * list Z) :=
  if idblock =? 0 then
    idblock <- sfs_balloc ;;
    update_sv sv (λ x, set_dirty true (set_inode (set_indirect idblock) x)) ;;
    ret (idblock, replicate 128 0)
  else
    data <- sfs_rblock idblock ;;
    ret (idblock, words_of_bytes data).

Definition bmap_indirect (sv idoff : Z) (doalloc : bool) : SM Z :=
  x <- read_sv sv ;;
  let idblock := sfi_indirect (sv_i x) in
  if (idblock =? 0) && negb doalloc then ret 0
  else
    r <- bmap_idbuf sv idblock ;;
    let '(idblock, idbuf) := r in
    block <- deref idbuf.[idoff] ;;
    block <- (if (block =? 0) && doalloc then
                b <- sfs_balloc ;;
                sfs_wblock (bytes_of_words idbuf.[idoff := b]) idblock ;;
                ret b
              else ret block) ;;
    hand_back block.

Definition sfs_bmap (sv fileblock : Z) (doalloc : bool) : SM Z :=
  if fileblock <? SFS_NDIRECT then bmap_direct sv fileblock doalloc
  else
    let fileblock := fileblock - SFS_NDIRECT in
    let idnum := fileblock / SFS_DBPERIDB in
    let idoff := fileblock mod SFS_DBPERIDB in
    if 0 <? idnum then fail EFBIG else bmap_indirect sv idoff doalloc.

(** ** File I/O *)

Definition sfs_partialio (sv skipstart len : Z) : IM unit :=
  u <- gets io_uio ;;
  let doalloc := is_write u in
  kassert (skipstart + len <=? SFS_BLOCKSIZE) ;;
  let fileblock := u32 (st_offset u / SFS_BLOCKSIZE) in
  diskblock <- fs (sfs_bmap sv fileblock doalloc) ;;
  iobuf <- (if diskblock =? 0 then kassert (negb (is_write u)) ;; ret zero_data
            else fs (sfs_rblock diskblock)) ;;
  moved <- uio_op (stream_move (drop (Z.to_nat skipstart) iobuf) len) ;;
  if is_write u then fs (sfs_wblock (take (Z.to_nat skipstart) iobuf ++ moved) diskblock)
  else ret tt.

Definition sfs_blockio (sv : Z) : IM unit :=
  u <- gets io_uio ;;
  let doalloc := is_write u in
  let fileblock := u32 (st_offset u / SFS_BLOCKSIZE) in
  diskblock <- fs (sfs_bmap sv fileblock doalloc) ;;
  if diskblock =? 0 then
    kassert (negb (is_write u)) ;;
    uio_op (stream_zeros SFS_BLOCKSIZE)
  else
    let saveoff := st_offset u in
    let diskoff := u32 (diskblock * SFS_BLOCKSIZE) in
    kassert (SFS_BLOCKSIZE <=? st_resid u) ;;
    let saveres := st_resid u in
    let diskres := SFS_BLOCKSIZE in
    uio_op (modify (λ u, set_resid diskres (set_offset diskoff u))) ;;
    r <- attempt sfs_rwblock ;;
    uio_op (modify (λ u, set_resid (st_resid u - diskres + saveres)
                          (set_offset (st_offset u - diskoff + saveoff) u))) ;;
    match r with inl _ => ret tt | inr e => fail e end.

(** The transfers of sfs_io, up to the label out. *)
Definition sfs_io_blocks (sv : Z) : IM unit :=
  u <- gets io_uio ;;
  let blkoff := st_offset u mod SFS_BLOCKSIZE in
  (if negb (blkoff =? 0) then
     let len := SFS_BLOCKSIZE - blkoff in
     let len := if st_resid u <? len then st_resid u else len in
     sfs_partialio sv blkoff len
   else ret tt) ;;
  u <- gets io_uio ;;
  if st_resid u =? 0 then ret tt else
  kassert (st_offset u mod SFS_BLOCKSIZE =? 0) ;;
  let nblocks := st_resid u / SFS_BLOCKSIZE in
  for_ 0 nblocks (λ _, sfs_blockio sv) ;;
  u <- gets io_uio ;;
  kassert (st_resid u <? SFS_BLOCKSIZE) ;;
  if 0 <? st_resid u then sfs_partialio sv 0 (st_resid u) else ret tt.

Definition sfs_io_rest (sv extraresid : Z) : IM unit :=
  r <- attempt (sfs_io_blocks sv) ;;
  u <- gets io_uio ;;
  x <- fs (read_sv sv) ;;
  (if is_write u && (sfi_size (sv_i x) <? st_offset u) then
     fs (update_sv sv (λ x, set_dirty true (set_inode (set_size (u32 (st_offset u))) x)))
   else ret tt) ;;
  uio_op (modify (λ u, set_resid (st_resid u + extraresid) u)) ;;
  match r with inl _ => ret tt | inr e => fail e end.

Definition sfs_io (sv : Z) : IM unit :=
  u <- gets io_uio ;;
  x <- fs (read_sv sv) ;;
  if is_write u then sfs_io_rest sv 0 else
  let size := sfi_size (sv_i x) in
  let endpos := st_offset u + st_resid u in
  if size <=? st_offset u then ret tt
  else if size <? endpos then
    let extraresid := u32 (endpos - size) in
    kassert (extraresid <? st_resid u) ;;
    uio_op (modify (λ u, set_resid (st_resid u - extraresid) u)) ;;
    sfs_io_rest sv extraresid
  else sfs_io_rest sv 0.
