(* ===== verification/SfsNode.v ===== *)
(** * The simple file system: directories and vnode operations

    Models the upper half of kern/fs/sfs/sfs_vnode.c (directory I/O, creation,
    truncation, reclaiming, the vnode operations and their tables) and the
    reference counting of kern/vfs/vnode.c as it applies to SFS vnodes. *)

From S2P Require Import Prelude Bitmap UserCopy Uio Disk SfsTypes Sfs.
#[local] Open Scope kern_scope.


(** ** Strings: a C string is the bytes before the first zero. *)

Fixpoint c_string (l : list Z) : list Z :=
  match l with
  | [] => []
  | x :: l' => if x =? 0 then [] else x :: c_string l'
  end.
Definition name_eqb (a b : list Z) : bool := bool_decide (a = b).

(** ** Directory I/O *)

Definition sfs_readdir (sv slot : Z) : SM sfs_dir :=
  let actualpos := u32 (slot * sizeof_sfs_dir) in
  ku <- with_uio (stream_kinit [] sizeof_sfs_dir actualpos UIO_READ) (sfs_io sv) ;;
  if 0 <? st_resid ku then panic else ret (bytes_dir (st_data ku)).

Definition sfs_writedir (sv : Z) (sd : sfs_dir) (slot : Z) : SM unit :=
  kassert (0 <=? slot) ;;
  let actualpos := u32 (slot * sizeof_sfs_dir) in
  ku <- with_uio (stream_kinit (dir_bytes sd) sizeof_sfs_dir actualpos UIO_WRITE) (sfs_io sv) ;;
  if 0 <? st_resid ku then panic else ret tt.

Definition sfs_dir_nentries (sv : Z) : SM Z :=
  x <- read_sv sv ;;
  kassert (sfi_type (sv_i x) =? SFS_TYPE_DIR) ;;
  let size := sfi_size (sv_i x) in
  if negb (size mod sizeof_sfs_dir =? 0) then panic else ret (size / sizeof_sfs_dir).

(** What a search hands back: inode number and slot of the name (none is ENOENT),
    and the last empty slot. *)
Record search := mkSearch { found_at : option (Z * Z); emptyslot : option Z }.

Fixpoint findname_loop (n : nat) (sv i : Z) (name : list Z) (r : search) : SM search :=
  match n with
  | O => ret r
  | S n' =>
      tsd <- sfs_readdir sv i ;;
      if sfd_ino tsd =? SFS_NOINO then
        findname_loop n' sv (i + 1) name (mkSearch (found_at r) (Some i))
      else if name_eqb (c_string (sfd_name tsd).[SFS_NAMELEN - 1 := 0]) name then
        kassert (bool_decide (found_at r = None)) ;;
        findname_loop n' sv (i + 1) name (mkSearch (Some (sfd_ino tsd, i)) (emptyslot r))
      else findname_loop n' sv (i + 1) name r
  end.

Definition sfs_dir_findname (sv : Z) (name : list Z) : SM search :=
  nentries <- sfs_dir_nentries sv ;;
  findname_loop (Z.to_nat nentries) sv 0 name (mkSearch None None).

Definition sfs_dir_link (sv : Z) (name : list Z) (ino : Z) : SM Z :=
  r <- sfs_dir_findname sv name ;;
  match found_at r with
  | Some _ => fail EEXIST
  | None =>
      if SFS_NAMELEN <? lengthZ name + 1 then fail ENAMETOOLONG else
      slot <- match emptyslot r with Some e => ret e | None => sfs_dir_nentries sv end ;;
      let sd := mkDir ino (name ++ replicate (Z.to_nat (SFS_NAMELEN - lengthZ name)) 0) in
      sfs_writedir sv sd slot ;;
      ret slot
  end.

Definition sfs_dir_unlink (sv slot : Z) : SM unit :=
  sfs_writedir sv (mkDir SFS_NOINO (replicate 60 0)) slot.

(** ** Vnodes in memory *)

Definition ask_mem : SM bool := λ s,
  let '(b, rest) := match sfs_mem s with [] => (true, []) | b :: r => (b, r) end in
  Ok b (mkSfs (vfs_biglock_depth s) (sfs_device s) (sfs_sb s) (sfs_superdirty s) (sfs_vnodes s)
          (sfs_freemap s) (sfs_freemapdirty s) (sv_at s) (sv_next s) rest).

(** kmalloc of a struct sfs_vnode; its contents are [x]. *)
Definition new_sv (x : sfs_vnode) : SM Z := λ s,
  Ok (sv_next s) (mkSfs (vfs_biglock_depth s) (sfs_device s) (sfs_sb s) (sfs_superdirty s) (sfs_vnodes s)
    (sfs_freemap s) (sfs_freemapdirty s) (<[sv_next s := x]> (sv_at s)) (sv_next s + 1) (sfs_mem s)).
Definition kfree_sv (sv : Z) : SM unit := modify (set_sv_at (delete sv)).

Definition vnode_incref (sv : Z) : SM unit :=
  under_biglock (update_sv sv (λ x, set_refcount (vn_refcount x + 1) x)).

Definition vnode_cleanup (sv : Z) : SM unit :=
  x <- read_sv sv ;;
  kassert (vn_refcount x =? 1) ;;
  kassert (vn_opencount x =? 0).

(** The search of sfs_loadvnode through the vnodes in memory. *)
Fixpoint find_loaded (l : list Z) (ino : Z) : SM (option Z) :=
  match l with
  | [] => ret None
  | sv :: l' =>
      x <- read_sv sv ;;
      used <- sfs_bused (sv_ino x) ;;
      (if used then ret tt else panic) ;;
      if sv_ino x =? ino then ret (Some sv) else find_loaded l' ino
  end.

Definition ops_of_type (t : Z) : option vnode_ops :=
  if t =? SFS_TYPE_FILE then Some sfs_fileops else if t =? SFS_TYPE_DIR then Some sfs_dirops else None.

Definition sfs_loadvnode (ino forcetype : Z) : SM Z :=
  s <- get ;;
  o <- find_loaded (sfs_vnodes s) ino ;;
  match o with
  | Some sv =>
      kassert (forcetype =? SFS_TYPE_INVAL) ;;
      vnode_incref sv ;;
      ret sv
  | None =>
      mem <- ask_mem ;;
      if negb mem then fail ENOMEM else
      used <- sfs_bused ino ;;
      (if used then ret tt else panic) ;;
      data <- sfs_rblock ino ;;
      let i := bytes_inode data in
      let forced := negb (forcetype =? SFS_TYPE_INVAL) in
      (if forced then kassert (sfi_type i =? SFS_TYPE_INVAL) else ret tt) ;;
      let i := if forced then set_type forcetype i else i in
      match ops_of_type (sfi_type i) with
      | None => panic
      | Some ops =>
          sv <- new_sv (mkSV ops 1 0 i ino forced) ;;
          mem <- ask_mem ;;
          if negb mem then vnode_cleanup sv ;; kfree_sv sv ;; fail ENOMEM else
          modify (set_vnodes (λ l, l ++ [sv])) ;;
          ret sv
      end
  end.

Definition sfs_lookonce (sv : Z) (name : list Z) : SM (Z * Z) :=
  r <- sfs_dir_findname sv name ;;
  match found_at r with
  | None => fail ENOENT
  | Some (ino, slot) =>
      ret_sv <- sfs_loadvnode ino SFS_TYPE_INVAL ;;
      x <- read_sv ret_sv ;;
      if sfi_linkcount (sv_i x) =? 0 then panic else ret (ret_sv, slot)
  end.

Definition sfs_makeobj (type : Z) : SM Z :=
  ino <- sfs_balloc ;;
  sfs_loadvnode ino type.

(** ** Truncation *)

(** One round of the loop over the direct blocks. *)
Definition trunc_direct (sv blocklen i : Z) : SM unit :=
  x <- read_sv sv ;;
  block <- deref (sfi_direct (sv_i x)).[i] ;;
  if (blocklen <=? i) && negb (block =? 0) then
    sfs_bfree block ;;
    update_sv sv (λ x, set_dirty true (set_inode (set_direct (λ l, l.[i := 0])) x))
  else ret tt.

(** The loop over the indirect block from entry [j] on: the entries kept, and
    whether any is nonzero and any was changed. *)
Fixpoint trunc_idbuf (blocklen baseblock j : Z) (idbuf : list Z) : SM (list Z * bool * bool) :=
  match idbuf with
  | [] => ret ([], false, false)
  | b :: rest =>
      let discard := (blocklen <? baseblock + j) && negb (b =? 0) in
      (if discard then sfs_bfree b else ret tt) ;;
      let b := if discard then 0 else b in
      r <- trunc_idbuf blocklen baseblock (j + 1) rest ;;
      let '(rest, hasnonzero, iddirty) := r in
      ret (b :: rest, negb (b =? 0) || hasnonzero, discard || iddirty)
  end.

Definition trunc_indirect (sv blocklen : Z) : SM unit :=
  x <- read_sv sv ;;
  let idblock := sfi_indirect (sv_i x) in
  let baseblock := SFS_NDIRECT in
  let highblock := baseblock + SFS_DBPERIDB - 1 in
  if (blocklen <? highblock) && negb (idblock =? 0) then
    data <- sfs_rblock idblock ;;
    r <- trunc_idbuf blocklen baseblock 0 (words_of_bytes data) ;;
    let '(idbuf, hasnonzero, iddirty) := r in
    if negb hasnonzero then
      sfs_bfree idblock ;;
      update_sv sv (λ x, set_dirty true (set_inode (set_indirect 0) x))
    else if iddirty then sfs_wblock (bytes_of_words idbuf) idblock
    else ret tt
  else ret tt.

Definition sfs_truncate (sv len : Z) : SM unit :=
  let blocklen := u32 ((len + SFS_BLOCKSIZE - 1) / SFS_BLOCKSIZE) in
  under_biglock (
    for_ 0 SFS_NDIRECT (trunc_direct sv blocklen) ;;
    trunc_indirect sv blocklen ;;
    update_sv sv (λ x, set_dirty true (set_inode (set_size (u32 len)) x))).

(** ** Reference counts and reclaiming *)

(** VOP_TRUNCATE, through the table of the vnode. *)
Definition vop_truncate (sv len : Z) : SM unit :=
  x <- read_sv sv ;;
  match vn_ops x with sfs_fileops => sfs_truncate sv len | sfs_dirops => fail EISDIR end.

Fixpoint remove_ptr (sv : Z) (l : list Z) : option (list Z) :=
  match l with
  | [] => None
  | p :: l' => if p =? sv then Some l' else option_map (cons p) (remove_ptr sv l')
  end.

Definition sfs_reclaim (sv : Z) : SM unit :=
  under_biglock (
    x <- read_sv sv ;;
    if negb (vn_refcount x =? 1) then
      kassert (1 <? vn_refcount x) ;;
      update_sv sv (λ x, set_refcount (vn_refcount x - 1) x) ;;
      fail EBUSY
    else
      (if sfi_linkcount (sv_i x) =? 0 then vop_truncate sv 0 else ret tt) ;;
      sfs_sync_inode sv ;;
      x <- read_sv sv ;;
      (if sfi_linkcount (sv_i x) =? 0 then sfs_bfree (sv_ino x) else ret tt) ;;
      s <- get ;;
      match remove_ptr sv (sfs_vnodes s) with
      | None => panic
      | Some l => modify (set_vnodes (λ _, l))
      end ;;
      vnode_cleanup sv) ;;
  kfree_sv sv.

(** vnode_decref; what VOP_RECLAIM returns is only printed. *)
Definition vnode_decref (sv : Z) : SM unit :=
  under_biglock (
    x <- read_sv sv ;;
    kassert (0 <? vn_refcount x) ;;
    if 1 <? vn_refcount x then update_sv sv (λ x, set_refcount (vn_refcount x - 1) x)
    else attempt (sfs_reclaim sv) ;; ret tt).

Definition vnode_incopen (sv : Z) : SM unit :=
  under_biglock (update_sv sv (λ x, set_opencount (vn_opencount x + 1) x)).

(** ** Vnode operations *)

Definition sfs_open (openflags : Z) : SM unit :=
  if negb (Z.land openflags O_APPEND =? 0) then fail EUNIMP else ret tt.
Definition sfs_opendir (openflags : Z) : SM unit :=
  if negb (Z.land openflags O_ACCMODE =? O_RDONLY) then fail EISDIR
  else if negb (Z.land openflags O_APPEND =? 0) then fail EISDIR else ret tt.

Definition sfs_fsync (sv : Z) : SM unit := under_biglock (sfs_sync_inode sv).
Definition sfs_close (sv : Z) : SM unit := sfs_fsync sv.

(** vnode_decopen; what VOP_CLOSE returns is only printed. *)
Definition vnode_decopen (sv : Z) : SM unit :=
  under_biglock (
    x <- read_sv sv ;;
    kassert (0 <? vn_opencount x) ;;
    update_sv sv (λ x, set_opencount (vn_opencount x - 1) x) ;;
    if 0 <? vn_opencount x - 1 then ret tt else attempt (sfs_close sv) ;; ret tt).

(** read() and write(): a lock around sfs_io. *)
Definition io_under_biglock {A} (m : IM A) : IM A :=
  fs vfs_biglock_acquire ;;
  r <- attempt m ;;
  fs vfs_biglock_release ;;
  match r with inl a => ret a | inr e => fail e end.
Definition sfs_read (sv : Z) : IM unit :=
  u <- gets io_uio ;; kassert (negb (is_write u)) ;; io_under_biglock (sfs_io sv).
Definition sfs_write (sv : Z) : IM unit :=
  u <- gets io_uio ;; kassert (is_write u) ;; io_under_biglock (sfs_io sv).

Definition sfs_gettype (sv : Z) : SM Z :=
  under_biglock (
    x <- read_sv sv ;;
    if sfi_type (sv_i x) =? SFS_TYPE_FILE then ret S_IFREG
    else if sfi_type (sv_i x) =? SFS_TYPE_DIR then ret S_IFDIR else panic).
(** The type and size sfs_stat fills in. *)
Definition sfs_stat (sv : Z) : SM (Z * Z) :=
  mode <- sfs_gettype sv ;;
  x <- read_sv sv ;;
  ret (mode, sfi_size (sv_i x)).
Definition sfs_ioctl (sv op : Z) : SM unit := fail EINVAL.
Definition sfs_tryseek (pos : Z) : SM unit := if pos <? 0 then fail EINVAL else ret tt.
Definition sfs_mmap (sv : Z) : SM unit := fail EUNIMP.
Definition sfs_namefile (sv : Z) : SM unit :=
  x <- read_sv sv ;; kassert (sv_ino x =? SFS_ROOT_LOCATION).

Definition add_link (sv d : Z) : SM unit :=
  update_sv sv (λ x, set_dirty true (set_inode (λ i, set_linkcount (u16 (sfi_linkcount i + d)) i) x)).

Definition sfs_creat (sv : Z) (name : list Z) (excl : bool) : SM Z :=
  under_biglock (
    r <- sfs_dir_findname sv name ;;
    match found_at r with
    | Some (ino, _) => if excl then fail EEXIST else sfs_loadvnode ino SFS_TYPE_INVAL
    | None =>
        newguy <- sfs_makeobj SFS_TYPE_FILE ;;
        x <- read_sv newguy ;;
        on_error (sfs_dir_link sv name (sv_ino x)) (vnode_decref newguy) ;;
        add_link newguy 1 ;;
        ret newguy
    end).

Definition sfs_link (dir : Z) (name : list Z) (file : Z) : SM unit :=
  under_biglock (
    f <- read_sv file ;;
    sfs_dir_link dir name (sv_ino f) ;;
    add_link file 1).

Definition sfs_remove (dir : Z) (name : list Z) : SM unit :=
  under_biglock (
    p <- sfs_lookonce dir name ;;
    let '(victim, slot) := p in
    r <- attempt (sfs_dir_unlink dir slot) ;;
    match r with
    | inl _ =>
        x <- read_sv victim ;;
        kassert (0 <? sfi_linkcount (sv_i x)) ;;
        add_link victim (-1)
    | inr _ => ret tt
    end ;;
    vnode_decref victim ;;
    match r with inl _ => ret tt | inr e => fail e end).

(** The part of sfs_rename after the name has been looked up, up to puke. *)
Definition rename_links (sv g1 slot1 : Z) (n2 : list Z) : SM unit :=
  g <- read_sv g1 ;;
  slot2 <- sfs_dir_link sv n2 (sv_ino g) ;;
  add_link g1 1 ;;
  r <- attempt (sfs_dir_unlink sv slot1) ;;
  match r with
  | inl _ =>
      g <- read_sv g1 ;;
      kassert (0 <? sfi_linkcount (sv_i g)) ;;
      add_link g1 (-1)
  | inr e =>
      r2 <- attempt (sfs_dir_unlink sv slot2) ;;
      match r2 with
      | inr _ => panic
      | inl _ =>
          update_sv g1 (set_inode (λ i, set_linkcount (u16 (sfi_linkcount i - 1)) i)) ;;
          fail e
      end
  end.

Definition sfs_rename (d1 : Z) (n1 : list Z) (d2 : Z) (n2 : list Z) : SM unit :=
  under_biglock (
    kassert (d1 =? d2) ;;
    x <- read_sv d1 ;;
    kassert (sv_ino x =? SFS_ROOT_LOCATION) ;;
    p <- sfs_lookonce d1 n1 ;;
    let '(g1, slot1) := p in
    g <- read_sv g1 ;;
    kassert (sfi_type (sv_i g) =? SFS_TYPE_FILE) ;;
    r <- attempt (rename_links d1 g1 slot1 n2) ;;
    vnode_decref g1 ;;
    match r with inl _ => ret tt | inr e => fail e end).

Definition sfs_lookparent (sv : Z) (path : list Z) (buflen : Z) : SM (Z * list Z) :=
  under_biglock (
    x <- read_sv sv ;;
    if negb (sfi_type (sv_i x) =? SFS_TYPE_DIR) then fail ENOTDIR
    else if buflen <? lengthZ path + 1 then fail ENAMETOOLONG
    else vnode_incref sv ;; ret (sv, path)).

Definition sfs_lookup (sv : Z) (path : list Z) : SM Z :=
  under_biglock (
    x <- read_sv sv ;;
    if negb (sfi_type (sv_i x) =? SFS_TYPE_DIR) then fail ENOTDIR
    else p <- sfs_lookonce sv path ;; ret (fst p)).

Definition sfs_getroot : SM Z :=
  under_biglock (
    r <- attempt (sfs_loadvnode SFS_ROOT_LOCATION SFS_TYPE_INVAL) ;;
    match r with inl sv => ret sv | inr _ => panic end).
