(* ===== verification/SfsMount.v ===== *)
(** * The simple file system: mounting and syncing

    Models kern/fs/sfs/sfs_fs.c: reading and writing the free-block bitmap,
    sfs_sync, sfs_unmount and sfs_domount. *)

From S2P Require Import Prelude Bitmap UserCopy Uio Disk SfsTypes Sfs SfsNode.
#[local] Open Scope kern_scope.

Definition SFS_FS_BITMAPSIZE (s : sfs) : Z := SFS_BITMAPSIZE (sp_nblocks (sfs_sb s)).
Definition SFS_FS_BITBLOCKS (s : sfs) : Z := SFS_BITBLOCKS (sp_nblocks (sfs_sb s)).

(** Sector [j] of the bitmap data. *)
Definition map_sector (data : list Z) (j : Z) : list Z :=
  take 512 (drop (Z.to_nat (j * SFS_BLOCKSIZE)) data).
Definition set_map_sector (j : Z) (sector : list Z) (data : list Z) : list Z :=
  take (Z.to_nat (j * SFS_BLOCKSIZE)) data ++ sector ++ drop (Z.to_nat (j * SFS_BLOCKSIZE) + 512) data.

Definition sfs_mapio (rw : uio_rw) : SM unit :=
  s <- get ;;
  for_ 0 (SFS_FS_BITBLOCKS s) (λ j,
    match rw with
    | UIO_READ =>
        sector <- sfs_rblock (SFS_MAP_LOCATION + j) ;;
        freemap (modify (set_v (set_map_sector j sector)))
    | UIO_WRITE =>
        s <- get ;;
        sfs_wblock (map_sector (bitmap_getdata (sfs_freemap s)) j) (SFS_MAP_LOCATION + j)
    end).

(** The loop of sfs_sync over the vnodes; what VOP_FSYNC returns is ignored. *)
Fixpoint sync_vnodes (l : list Z) : SM unit :=
  match l with
  | [] => ret tt
  | sv :: l' => attempt (sfs_fsync sv) ;; sync_vnodes l'
  end.

Definition sfs_sync : SM unit :=
  under_biglock (
    s <- get ;;
    sync_vnodes (sfs_vnodes s) ;;
    s <- get ;;
    (if sfs_freemapdirty s then sfs_mapio UIO_WRITE ;; modify (set_freemapdirty false) else ret tt) ;;
    s <- get ;;
    if sfs_superdirty s then
      sfs_wblock (super_bytes (sfs_sb s)) SFS_SB_LOCATION ;; modify (set_superdirty false)
    else ret tt).

Definition sfs_getvolname : SM (list Z) := under_biglock (gets (λ s, sp_volname (sfs_sb s))).

(** sfs_unmount; on success the state is gone, only the device is left. *)
Definition sfs_unmount : SM unit :=
  under_biglock (
    s <- get ;;
    if 0 <? lengthZ (sfs_vnodes s) then fail EBUSY else
    kassert (negb (sfs_superdirty s)) ;;
    kassert (negb (sfs_freemapdirty s))).

(** bitmap_create, with the answers of its two kmallocs. *)
Definition new_freemap (n : Z) : SM (option bitmap) :=
  m1 <- ask_mem ;;
  m2 <- (if m1 then ask_mem else ret true) ;;
  lift (λ _, tt) (λ _ s, s) (bitmap_create n m1 m2).

(** sfs_domount on a device with sectors of [blocksize] bytes.  The state it starts
    from holds the device and otherwise whatever the memory contained. *)
Definition sfs_domount (blocksize : Z) : SM unit :=
  under_biglock (
    if negb (blocksize =? SFS_BLOCKSIZE) then fail ENXIO else
    mem <- ask_mem ;;
    if negb mem then fail ENOMEM else
    mem <- ask_mem ;;
    if negb mem then fail ENOMEM else
    modify (set_vnodes (λ _, [])) ;;
    data <- sfs_rblock SFS_SB_LOCATION ;;
    modify (set_sb (bytes_super data)) ;;
    s <- get ;;
    if negb (sp_magic (sfs_sb s) =? SFS_MAGIC) then fail EINVAL else
    modify (λ s, let x := sfs_sb s in
      set_sb (mkSuper (sp_magic x) (sp_nblocks x) (sp_volname x).[SFS_VOLNAME_SIZE - 1 := 0] (sp_reserved x)) s) ;;
    s <- get ;;
    o <- new_freemap (SFS_FS_BITMAPSIZE s) ;;
    match o with
    | None => fail ENOMEM
    | Some b =>
        modify (set_freemap b) ;;
        sfs_mapio UIO_READ ;;
        modify (set_superdirty false) ;;
        modify (set_freemapdirty false)
    end).
