(* ===== verification/SfsBlk.v ===== *)
(** * The simple file system: blocks

    Specifications of block I/O and space allocation of Sfs.v on a working disk,
    and of the block map: sfs_bmap finds the block an inode refers to at a given
    place, and when asked to, puts a fresh one there and changes nothing else. *)

From S2P Require Import Prelude Bitmap UserCopy Uio Disk SfsTypes Sfs SfsNode SfsMount.
#[local] Open Scope kern_scope.

Definition nblk (s : sfs) : Z := sp_nblocks (sfs_sb s).
Definition marked (s : sfs) (b : Z) : Prop := bit (sfs_freemap s) b = true.
Definition sect (s : sfs) (b : Z) : list Z := default [] (sectors (sfs_device s)).[b].

(** Blocks that belong to no file: the superblock and the free map. *)
Definition system_block (s : sfs) (b : Z) : Prop :=
  b = SFS_SB_LOCATION ∨ SFS_MAP_LOCATION ≤ b < SFS_MAP_LOCATION + SFS_FS_BITBLOCKS s.

(** The superblock as mounting leaves it in memory: the volume name is terminated. *)
Definition terminated (x : sfs_super) : sfs_super :=
  mkSuper (sp_magic x) (sp_nblocks x) (sp_volname x).[SFS_VOLNAME_SIZE - 1 := 0] (sp_reserved x).

(** The superblock and the free map in memory, and their copies on disk, which are
    up to date unless the dirty flags say otherwise. *)
Record meta_ok (s : sfs) : Prop := {
  mo_super : super_wf (sfs_sb s);
  mo_magic : sp_magic (sfs_sb s) = SFS_MAGIC;
  mo_volname : terminated (sfs_sb s) = sfs_sb s;
  mo_room : SFS_MAP_LOCATION + SFS_FS_BITBLOCKS s ≤ nblk s;
  mo_bits : nbits (sfs_freemap s) = SFS_FS_BITMAPSIZE s;
  mo_marked : ∀ b, system_block s b → marked s b;
  mo_sb : sfs_superdirty s = false → ∃ x, super_wf x ∧ sect s SFS_SB_LOCATION = super_bytes x ∧ sfs_sb s = terminated x;
  mo_map : sfs_freemapdirty s = false →
    ∀ j, 0 ≤ j < SFS_FS_BITBLOCKS s → sect s (SFS_MAP_LOCATION + j) = map_sector (bitmap_getdata (sfs_freemap s)) j
}.

(** A mounted file system on a working disk: the map is sound, blocks past the end
    are marked, and block 0 is. *)
Record fs_ok (s : sfs) : Prop := {
  ok_card : card_ok (sfs_device s);
  ok_size : nblk s ≤ d_blocks (sfs_device s);
  ok_small : 0 ≤ nblk s ≤ 2 ^ 23;
  ok_map : bitmap_wf (sfs_freemap s);
  ok_bits : nblk s ≤ nbits (sfs_freemap s);
  ok_zero : marked s 0;
  ok_beyond : ∀ b, nblk s ≤ b → marked s b;
  ok_meta : meta_ok s
}.

Definition biglocked (s : sfs) : Prop := 0 < vfs_biglock_depth s.

(** What block operations leave alone: everything but the disk, the free map and
    the vnodes themselves. *)
Definition same_rest (s s' : sfs) : Prop :=
  vfs_biglock_depth s' = vfs_biglock_depth s ∧ sfs_sb s' = sfs_sb s ∧ sfs_superdirty s' = sfs_superdirty s ∧
  sfs_vnodes s' = sfs_vnodes s ∧ sv_next s' = sv_next s ∧ sfs_mem s' = sfs_mem s.

Lemma same_rest_refl s : same_rest s s.
Proof. by split_and!. Qed.

Lemma same_rest_trans s1 s2 s3 : same_rest s1 s2 → same_rest s2 s3 → same_rest s1 s3.
Proof.
  intros (H1 & H2 & H3 & H4 & H5 & H6) (K1 & K2 & K3 & K4 & K5 & K6). split_and!; congruence.
Qed.

Lemma system_same s s' b : sfs_sb s' = sfs_sb s → system_block s' b ↔ system_block s b.
Proof. intros E. unfold system_block, SFS_FS_BITBLOCKS. by rewrite E. Qed.

(** fs_ok speaks of the disk, the superblock and the free map. *)
Definition same_flags (s s' : sfs) : Prop := sfs_superdirty s' = sfs_superdirty s ∧ sfs_freemapdirty s' = sfs_freemapdirty s.

Lemma fs_ok_ext s s' : fs_ok s → sfs_device s' = sfs_device s → sfs_sb s' = sfs_sb s → sfs_freemap s' = sfs_freemap s → same_flags s s' → fs_ok s'.
Proof.
  intros [K1 K2 K3 K4 K5 K6 K7 [M1 M2 M3 M4 M5 M6 M7 M8]] E1 E2 E3 [E4 E5]. destruct s, s'. simpl in *. subst. by split.
Qed.

(** ** Block I/O *)

Lemma set_device_id s : set_device (sfs_device s) s = s.
Proof. by destruct s. Qed.

Lemma rwblock_ok b data s :
  card_ok (dcard s) → (sectors (dcard s)).[b] = Some data → st_offset (duio s) = b * LHD_SECTSIZE →
  st_resid (duio s) = LHD_SECTSIZE → (st_rw (duio s) = UIO_WRITE → LHD_SECTSIZE ≤ lengthZ (st_data (duio s))) →
  st_fate (duio s) = [] →
  rwblock s = Ok tt (mkD (match st_rw (duio s) with
                          | UIO_READ => dcard s
                          | UIO_WRITE => write_sector b (take 512 (st_data (duio s))) (dcard s)
                          end) (advance LHD_SECTSIZE data [] (duio s))).
Proof.
  intros Hok Hb Ho Hr Hd Hf. pose proof (rwblock_spec False b data s Hok Hb Ho Hr Hd) as H. unfold wpx in H.
  destruct (rwblock s) as [[] s'|e s'| |]; try done.
  - destruct H as [H1 H2]. rewrite Hf in H1. simpl in H1. rewrite <- H1, <- H2. by destruct s'.
  - by destruct H as (_ & _ & ? & _).
Qed.

Lemma sect_lookup s b : 0 ≤ b < d_blocks (sfs_device s) → (sectors (sfs_device s)).[b] = Some (sect s b).
Proof. intros Hb. destruct (lookupZ_lt _ _ Hb) as [x Hx]. unfold sect. by rewrite Hx. Qed.

Lemma sect_block s b : card_ok (sfs_device s) → 0 ≤ b < d_blocks (sfs_device s) → is_block (sect s b).
Proof. intros Hok Hb. by apply (co_blocks _ Hok b), sect_lookup. Qed.

Lemma sfs_rwblock_ok s u d :
  biglocked s → rwblock (mkD (sfs_device s) u) = Ok tt d →
  sfs_rwblock (mkIO s u) = Ok tt (mkIO (set_device (dcard d) s) (duio d)).
Proof.
  intros Hl Hd. unfold sfs_rwblock. erewrite bind_ok; [|reflexivity]. cbn [io_fs].
  rewrite (proj2 (Z.ltb_lt _ _) Hl). unfold dev, lift, bind, kassert, ret. cbn [set_io_fs io_fs io_uio]. by rewrite Hd.
Qed.

Lemma with_uio_ok s u (m : IM unit) io : m (mkIO s u) = Ok tt io → with_uio u m s = Ok (io_uio io) (io_fs io).
Proof. unfold with_uio. by intros ->. Qed.

Lemma sfs_rblock_eq s b :
  biglocked s → card_ok (sfs_device s) → 0 ≤ b < d_blocks (sfs_device s) → sfs_rblock b s = Ok (sect s b) s.
Proof.
  intros Hl Hok Hb. unfold sfs_rblock. erewrite bind_ok; [|eapply with_uio_ok, sfs_rwblock_ok; [done|]].
  2: { apply (rwblock_ok b (sect s b)); try done. by apply sect_lookup. }
  cbn [sfs_uio stream_kinit st_rw dcard duio io_fs io_uio]. rewrite set_device_id.
  unfold advance, ret. cbn [st_rw st_data]. f_equal. apply take_ge. destruct (sect_block s b Hok Hb) as [Hlen _].
  unfold lengthZ, SFS_BLOCKSIZE in Hlen. unfold LHD_SECTSIZE. lia.
Qed.

Lemma sfs_wblock_eq s b data :
  biglocked s → card_ok (sfs_device s) → 0 ≤ b < d_blocks (sfs_device s) → lengthZ data = SFS_BLOCKSIZE →
  sfs_wblock data b s = Ok tt (set_device (write_sector b data (sfs_device s)) s).
Proof.
  intros Hl Hok Hb Hd. unfold sfs_wblock. erewrite bind_ok; [|eapply with_uio_ok, sfs_rwblock_ok; [done|]].
  2: { apply (rwblock_ok b (sect s b)); try done; [by apply sect_lookup|]. cbn [sfs_uio stream_kinit duio st_data]. by rewrite Hd. }
  cbn [sfs_uio stream_kinit st_rw st_data dcard duio io_fs io_uio].
  rewrite take_ge; [done|]. unfold lengthZ, SFS_BLOCKSIZE in Hd. lia.
Qed.

(** Rewriting one block of a working disk. *)
Lemma sect_write s b data c : 0 ≤ b < d_blocks (sfs_device s) →
  sect (set_device (write_sector b data (sfs_device s)) s) c = if decide (c = b) then data else sect s c.
Proof.
  intros Hb. unfold sect, write_sector. cbn [set_device sfs_device sectors].
  rewrite lookupZ_update by done. repeat case_decide; try congruence; done.
Qed.

Lemma sect_write_other s b data c : c ≠ b → sect (set_device (write_sector b data (sfs_device s)) s) c = sect s c.
Proof.
  intros Hne. destruct (decide (0 ≤ b < lengthZ (sectors (sfs_device s)))) as [Hb|Hb]; [by rewrite sect_write, decide_False|].
  unfold sect, write_sector. cbn [set_device sfs_device sectors]. do 2 f_equal. unfold updateZ, lengthZ in *. case_decide; [|done].
  apply list_insert_ge. lia.
Qed.

Lemma meta_ok_write s b data : meta_ok s → ¬ system_block s b → meta_ok (set_device (write_sector b data (sfs_device s)) s).
Proof.
  intros [M1 M2 M3 M4 M5 M6 M7 M8] Hb. split; try done.
  - intros Hd. rewrite sect_write_other; [by apply M7|]. intros <-. apply Hb. by left.
  - intros Hd j Hj. change (SFS_FS_BITBLOCKS _) with (SFS_FS_BITBLOCKS s) in Hj. rewrite sect_write_other; [by apply M8|]. intros <-. apply Hb. right. lia.
Qed.

Lemma card_ok_write d b data : card_ok d → is_block data → card_ok (write_sector b data d) ∧ d_blocks (write_sector b data d) = d_blocks d.
Proof.
  intros [C1 C2 C3] Hd. assert (d_blocks (write_sector b data d) = d_blocks d) as Hn by (unfold d_blocks; simpl; apply lengthZ_update).
  split; [|done]. split; [done| |by rewrite Hn]. cbn [write_sector sectors]. intros c data' Hc.
  destruct (decide (0 ≤ b < lengthZ (sectors d))) as [Hr|Hr].
  - rewrite lookupZ_update in Hc by done. case_decide; [|by apply (C2 c)]. by simplify_eq.
  - unfold updateZ, lengthZ in *. case_decide; [|by apply (C2 c)]. rewrite list_insert_ge in Hc by lia. by apply (C2 c).
Qed.

Lemma fs_ok_write s b data : fs_ok s → is_block data → ¬ system_block s b → fs_ok (set_device (write_sector b data (sfs_device s)) s).
Proof.
  intros [H1 H2 H3 H4 H5 H6 H7 H8] Hd Hb. destruct (card_ok_write (sfs_device s) b data H1 Hd) as [Hc Hn].
  split; try done; [|by apply meta_ok_write]. simpl. rewrite Hn. exact H2.
Qed.

(** ** Space allocation *)

Lemma bit_negative m j : j < 0 → bit m j = true.
Proof.
  intros Hj. unfold bit. rewrite (proj2 (lookupZ_None _ _)); [done|].
  assert (j / 8 < 0); [|lia]. apply Z.div_lt_upper_bound; lia.
Qed.

(** [s'] is [s] with block [b] taken from the free ones and cleared. *)
Record block_added (s : sfs) (b : Z) (s' : sfs) : Prop := {
  ba_rest : same_rest s s';
  ba_svs : sv_at s' = sv_at s;
  ba_ok : fs_ok s';
  ba_fresh : ¬ marked s b;
  ba_range : 0 < b < nblk s;
  ba_marked : ∀ c, marked s' c ↔ c = b ∨ marked s c;
  ba_sect : ∀ c, sect s' c = if decide (c = b) then zero_data else sect s c
}.

Lemma zero_block_data : is_block zero_data.
Proof. split; [done|]. apply Forall_replicate. unfold is_byte. lia. Qed.

Lemma set_freemap_id s : set_freemap (sfs_freemap s) s = s.
Proof. by destruct s. Qed.

(** No block is free. *)
Definition full (s : sfs) : Prop := ∀ b, 0 ≤ b < nblk s → marked s b.

Lemma sfs_balloc_spec X s : biglocked s → fs_ok s →
  wpx X sfs_balloc (block_added s) (λ e s', e = ENOSPC ∧ s' = s ∧ full s) s.
Proof.
  intros Hl Hok. unfold sfs_balloc, freemap. wp_steps.
  eapply wp_conseq; [apply bitmap_alloc_spec, Hok| |].
  2: { intros e m (-> & -> & Hfull). rewrite set_freemap_id. split_and!; [done..|]. intros b Hb. apply Hfull.
       pose proof (ok_bits _ Hok). lia. }
  intros b m' (Hwf & Hn & Hb & Hclr & _ & Hbits). wp_steps. set (s1 := set_freemapdirty true (set_freemap m' s)).
  destruct Hok as [H1 H2 H3 H4 H5 H6 H7 H8].
  assert (b < nblk s) as Hlt.
  { destruct (decide (b < nblk s)); [done|]. assert (marked s b) by (apply H7; lia). unfold marked in *. congruence. }
  assert (b ≠ 0) as Hb0 by (intros ->; unfold marked in *; congruence).
  change (sp_nblocks (sfs_sb s1)) with (nblk s). destruct (Z.leb_spec (nblk s) b); [lia|]. wp_steps.
  assert (∀ c, marked s1 c ↔ c = b ∨ marked s c) as Hm.
  { intros c. unfold marked, s1. cbn [set_freemapdirty set_freemap sfs_freemap]. destruct (decide (0 ≤ c)) as [Hc|Hc].
    - rewrite Hbits by done. case_bool_decide; simpl; naive_solver.
    - rewrite !bit_negative by lia. naive_solver. }
  assert (fs_ok s1) as Hok1.
  { split; try done.
    - change (sfs_freemap s1) with m'. rewrite Hn. exact H5.
    - apply Hm. by right.
    - intros c Hc. apply Hm. right. by apply H7.
    - destruct H8 as [M1 M2 M3 M4 M5 M6 M7 M8]. split; try done; [by change (sfs_freemap s1) with m'; rewrite Hn|].
      intros c Hc. apply Hm. right. by apply M6. }
  unfold sfs_clearblock. eapply wp_ok; [apply sfs_wblock_eq; try done; change (sfs_device s1) with (sfs_device s); lia|].
  wp_steps. split; try done.
  - apply fs_ok_write; [done|apply zero_block_data|]. intros Hs%(mo_marked _ H8). unfold marked in Hs. congruence.
  - unfold marked. by rewrite Hclr.
  - lia.
  - intros c. rewrite sect_write by (change (sfs_device s1) with (sfs_device s); lia). done.
Qed.

(** [s'] is [s] with block [b] given back. *)
Record block_freed (s : sfs) (b : Z) (s' : sfs) : Prop := {
  bf_rest : same_rest s s';
  bf_svs : sv_at s' = sv_at s;
  bf_ok : fs_ok s';
  bf_marked : ∀ c, marked s' c ↔ c ≠ b ∧ marked s c;
  bf_sect : ∀ c, sect s' c = sect s c
}.

Lemma sfs_bfree_spec X s b : fs_ok s → marked s b → 0 < b < nblk s → ¬ system_block s b →
  wpx X (sfs_bfree b) (λ _, block_freed s b) (λ _ _, False) s.
Proof.
  intros Hok Hm Hb Hsys. destruct Hok as [H1 H2 H3 H4 H5 H6 H7 H8]. unfold sfs_bfree, freemap. wp_steps.
  eapply wp_conseq; [apply bitmap_unmark_spec; [done|lia|done]| |done].
  intros [] m' (Hwf & Hn & Hbits). wp_steps. set (s1 := set_freemapdirty true (set_freemap m' s)).
  assert (∀ c, marked s1 c ↔ c ≠ b ∧ marked s c) as Hm1.
  { intros c. unfold marked, s1. cbn [set_freemapdirty set_freemap sfs_freemap]. destruct (decide (0 ≤ c)) as [Hc|Hc].
    - rewrite Hbits by done. case_bool_decide; simpl; naive_solver.
    - rewrite !bit_negative by lia. split; [|done]. intros _. split; [lia|done]. }
  split; try done; split; try done.
  - change (sfs_freemap s1) with m'. rewrite Hn. exact H5.
  - apply Hm1. split; [lia|done].
  - intros c Hc. apply Hm1. change (nblk s1) with (nblk s) in Hc. split; [lia|by apply H7].
  - destruct H8 as [M1 M2 M3 M4 M5 M6 M7 M8]. split; try done; [by change (sfs_freemap s1) with m'; rewrite Hn|].
    intros c Hc. apply Hm1. split; [by intros ->|by apply M6].
Qed.

Lemma sfs_bused_spec X s b : fs_ok s → 0 ≤ b < nblk s →
  wpx X (sfs_bused b) (λ r s', s' = s ∧ (r = true ↔ marked s b)) (λ _ _, False) s.
Proof.
  intros Hok Hb. destruct Hok as [H1 H2 H3 H4 H5 H6 H7 H8]. unfold sfs_bused, freemap. wp_steps.
  change (sp_nblocks (sfs_sb s)) with (nblk s). destruct (Z.leb_spec (nblk s) b); [lia|]. wp_steps.
  eapply wp_conseq; [apply bitmap_isset_spec; [done|lia]| |done].
  intros r m' [-> Hr]. wp_steps. rewrite set_freemap_id, Hr. done.
Qed.

Lemma hand_back_spec X s b : fs_ok s → b = 0 ∨ (0 < b < nblk s ∧ marked s b) →
  wpx X (hand_back b) (λ r s', r = b ∧ s' = s) (λ _ _, False) s.
Proof.
  intros Hok Hb. unfold hand_back. destruct (Z.eqb_spec b 0); [by wp_steps|]. destruct Hb as [|[Hb Hm]]; [done|]. wp_steps.
  eapply wp_conseq; [apply sfs_bused_spec; [done|lia]| |done]. intros r s' [-> Hr].
  rewrite (proj2 Hr Hm). by wp_steps.
Qed.
