(* ===== verification/SfsMap.v ===== *)
(** * The simple file system: the block map

    What the blocks of a file are, and the specification of sfs_bmap: looking up
    changes nothing; allocating puts one fresh cleared block at the place asked
    for, at most an indirect block besides, and leaves every other file alone. *)

From S2P Require Import Prelude Bitmap UserCopy Uio Disk SfsTypes Sfs SfsNode SfsMount SfsBlk.
#[local] Open Scope kern_scope.

(** A file has at most 143 blocks; place 143 stands for the indirect block itself. *)
Definition NFILE : Z := 143.

(** Block [k] of a file, 0 being none. *)
Definition bref (s : sfs) (i : sfs_inode) (k : Z) : Z :=
  if k <? SFS_NDIRECT then default 0 (sfi_direct i).[k]
  else if sfi_indirect i =? 0 then 0
  else default 0 (words_of_bytes (sect s (sfi_indirect i))).[k - SFS_NDIRECT].
Definition ref (s : sfs) (i : sfs_inode) (k : Z) : Z := if k =? NFILE then sfi_indirect i else bref s i k.

(** The data of block [k]. *)
Definition fdata (s : sfs) (i : sfs_inode) (k : Z) : list Z :=
  if bref s i k =? 0 then zero_data else sect s (bref s i k).

Record file_ok (s : sfs) (i : sfs_inode) : Prop := {
  fo_wf : inode_wf i;
  fo_refs : ∀ k, 0 ≤ k ≤ NFILE → ref s i k = 0 ∨ (0 < ref s i k < nblk s ∧ marked s (ref s i k));
  fo_inj : ∀ k k', 0 ≤ k ≤ NFILE → 0 ≤ k' ≤ NFILE → ref s i k = ref s i k' → ref s i k ≠ 0 → k = k';
  fo_system : ∀ k, 0 ≤ k ≤ NFILE → ref s i k ≠ 0 → ¬ system_block s (ref s i k)
}.

Definition owns_block (s : sfs) (i : sfs_inode) (b : Z) : Prop := b ≠ 0 ∧ ∃ k, 0 ≤ k ≤ NFILE ∧ ref s i k = b.

Lemma owns_block_dec s i b : owns_block s i b ∨ ¬ owns_block s i b.
Proof.
  unfold owns_block. destruct (decide (b ≠ 0 ∧ b ∈ (ref s i <$> seqZ 0 144))) as [[H1 H2]|H].
  - left. split; [done|]. apply list_elem_of_fmap in H2 as (k & -> & Hk%elem_of_seqZ). exists k. split; [unfold NFILE; lia|done].
  - right. intros [H1 (k & Hk & <-)]. apply H. split; [done|]. apply list_elem_of_fmap. exists k. split; [done|].
    apply elem_of_seqZ. unfold NFILE in Hk. lia.
Qed.

(** The vnode [x] with another version of its inode. *)
Definition same_vnode (x x' : sfs_vnode) : Prop :=
  vn_ops x' = vn_ops x ∧ vn_refcount x' = vn_refcount x ∧ vn_opencount x' = vn_opencount x ∧ sv_ino x' = sv_ino x ∧
  sfi_type (sv_i x') = sfi_type (sv_i x) ∧ sfi_linkcount (sv_i x') = sfi_linkcount (sv_i x) ∧
  (x' = x ∨ sv_dirty x' = true).

(** An operation on the file of vnode [sv]: blocks of other files keep their data,
    what the file gains was free, what it loses becomes free. *)
Record file_step (sv : Z) (x x' : sfs_vnode) (s s' : sfs) : Prop := {
  st_rest : same_rest s s';
  st_ok : fs_ok s';
  st_svs : sv_at s' = <[sv := x']> (sv_at s);
  st_vnode : same_vnode x x';
  st_file : file_ok s' (sv_i x');
  st_kept : ∀ c, marked s c → owns_block s (sv_i x) c ∨ (marked s' c ∧ sect s' c = sect s c);
  st_gain : ∀ c, owns_block s' (sv_i x') c → owns_block s (sv_i x) c ∨ ¬ marked s c;
  st_lose : ∀ c, owns_block s (sv_i x) c → owns_block s' (sv_i x') c ∨ ¬ marked s' c;
  st_new : ∀ c, marked s' c → marked s c ∨ owns_block s' (sv_i x') c
}.

Lemma same_vnode_refl x : same_vnode x x.
Proof. split_and!; auto. Qed.

Lemma same_vnode_trans x1 x2 x3 : same_vnode x1 x2 → same_vnode x2 x3 → same_vnode x1 x3.
Proof.
  intros (H1 & H2 & H3 & H4 & H5 & H6 & H7) (K1 & K2 & K3 & K4 & K5 & K6 & K7).
  split_and!; try congruence. destruct H7 as [->|], K7 as [->|]; auto.
Qed.

Lemma marked_dec s b : marked s b ∨ ¬ marked s b.
Proof. unfold marked. destruct (bit _ b); auto. Qed.

Lemma file_step_refl sv x s : fs_ok s → sv_at s !! sv = Some x → file_ok s (sv_i x) → file_step sv x x s s.
Proof.
  intros Hok Hx Hf. split; auto using same_rest_refl, same_vnode_refl. by rewrite insert_id.
Qed.

Lemma file_step_trans sv x1 x2 x3 s1 s2 s3 :
  file_step sv x1 x2 s1 s2 → file_step sv x2 x3 s2 s3 → file_step sv x1 x3 s1 s3.
Proof.
  intros [R1 O1 V1 N1 F1 K1 G1 L1 W1] [R2 O2 V2 N2 F2 K2 G2 L2 W2]. split; try done.
  - by eapply same_rest_trans.
  - by rewrite V2, V1, insert_insert_eq.
  - by eapply same_vnode_trans.
  - intros c Hc. destruct (K1 c Hc) as [?|[Hc2 Hs2]]; [by left|].
    destruct (K2 c Hc2) as [[?|?]%G1|[? Hs3]]; [by left|done|]. right. split; [done|congruence].
  - intros c [?|Hn]%G2; [by apply G1|]. destruct (marked_dec s1 c) as [Hm|?]; [|by right].
    destruct (K1 c Hm) as [?|[? _]]; [by left|done].
  - intros c [?|Hn]%L1; [by apply L2|]. destruct (marked_dec s3 c) as [[?|?]%W2|?]; [done|by left|by right].
  - intros c Hc. destruct (W2 c Hc) as [[?|[?|?]%L2]%W1|?]; auto. done.
Qed.

(** The file's data and length have not changed. *)
Definition same_data (s : sfs) (i : sfs_inode) (s' : sfs) (i' : sfs_inode) : Prop :=
  sfi_size i' = sfi_size i ∧ ∀ k, 0 ≤ k < NFILE → fdata s' i' k = fdata s i k.

Lemma same_data_refl s i : same_data s i s i.
Proof. by split. Qed.

Lemma same_data_trans s1 i1 s2 i2 s3 i3 : same_data s1 i1 s2 i2 → same_data s2 i2 s3 i3 → same_data s1 i1 s3 i3.
Proof. intros [H1 H2] [K1 K2]. split; [congruence|]. intros k Hk. rewrite K2, H2; auto. Qed.

(** ** Putting a fresh block at a free place *)

Section AddRef.
Context (sv k b : Z) (x x' : sfs_vnode) (s s1 s' : sfs).
Context (Hok0 : fs_ok s) (Hx : sv_at s !! sv = Some x) (Hf : file_ok s (sv_i x)) (Hadd : block_added s b s1).
Context (Hk : 0 ≤ k ≤ NFILE) (Hfree : ref s (sv_i x) k = 0).
Context (Hrest : same_rest s1 s') (Hok : fs_ok s') (Hsvs : sv_at s' = <[sv := x']> (sv_at s)).
Context (Hvn : same_vnode x x') (Hwf : inode_wf (sv_i x')).
Context (Hmark : ∀ c, marked s' c ↔ marked s1 c).
Context (Hsect : ∀ c, c = sfi_indirect (sv_i x) ∧ c ≠ 0 ∨ sect s' c = sect s1 c).
Context (Hrefs : ∀ k', 0 ≤ k' ≤ NFILE → ref s' (sv_i x') k' = if decide (k' = k) then b else ref s (sv_i x) k').

Lemma add_ref_sb : sfs_sb s' = sfs_sb s.
Proof. destruct Hrest as (_ & E & _), (ba_rest _ _ _ Hadd) as (_ & E' & _). congruence. Qed.

Lemma add_ref_nblk : nblk s' = nblk s.
Proof. unfold nblk. by rewrite add_ref_sb. Qed.

Lemma fresh_ref k' : 0 ≤ k' ≤ NFILE → ref s (sv_i x) k' ≠ b.
Proof.
  intros Hk'. destruct (fo_refs _ _ Hf k' Hk') as [->|[_ Hm]]; [pose proof (ba_range _ _ _ Hadd); lia|].
  intros E. apply (ba_fresh _ _ _ Hadd). by rewrite <- E.
Qed.

Lemma add_ref_file : file_ok s' (sv_i x').
Proof.
  split; [done|..].
  - intros k' Hk'. rewrite Hrefs, add_ref_nblk by done. case_decide.
    + right. split; [apply (ba_range _ _ _ Hadd)|]. apply Hmark, (ba_marked _ _ _ Hadd). by left.
    + destruct (fo_refs _ _ Hf k' Hk') as [?|[? ?]]; [by left|right]. split; [done|].
      apply Hmark, (ba_marked _ _ _ Hadd). by right.
  - intros k1 k2 H1 H2. rewrite !Hrefs by done. repeat case_decide; subst; try done; intros E Hne.
    + by destruct (fresh_ref k2 H2).
    + by destruct (fresh_ref k1 H1).
    + by apply (fo_inj _ _ Hf).
  - intros k' Hk'. rewrite Hrefs, (system_same s) by (done || apply add_ref_sb). case_decide; [|by apply (fo_system _ _ Hf)].
    intros _ Hs. by apply (ba_fresh _ _ _ Hadd), (mo_marked _ (ok_meta _ Hok0)).
Qed.

Lemma add_ref_step : file_step sv x x' s s'.
Proof.
  pose proof Hadd as [A1 A2 A3 A4 A5 A6 A7]. split; try done.
  - by eapply same_rest_trans.
  - apply add_ref_file.
  - intros c Hc. destruct (Hsect c) as [[-> Hne]|Hs].
    + left. split; [done|]. exists NFILE. split; [unfold NFILE; lia|done].
    + right. split; [apply Hmark, A6; by right|]. rewrite Hs, A7. case_decide; [by subst|done].
  - intros c [Hc (k' & Hk' & E)]. rewrite Hrefs in E by done. case_decide.
    + subst c. by right.
    + left. split; [done|by exists k'].
  - intros c [Hc (k' & Hk' & E)]. left. split; [done|]. exists k'. split; [done|]. rewrite Hrefs by done. case_decide; [|done].
    subst. by rewrite Hfree in Hc.
  - intros c [->|?]%Hmark%A6; [right|by left]. split; [lia|]. exists k. split; [done|]. by rewrite Hrefs, decide_True.
Qed.

(** A block with no data and a cleared one are the same to the reader. *)
Lemma add_ref_data : sect s' b = zero_data → sfi_size (sv_i x') = sfi_size (sv_i x) → same_data s (sv_i x) s' (sv_i x').
Proof.
  intros Hz Hsz. pose proof Hadd as [A1 A2 A3 A4 A5 A6 A7]. split; [done|]. intros k' Hk'. unfold NFILE in *.
  pose proof (Hrefs k' ltac:(lia)) as E. unfold ref in E. destruct (Z.eqb_spec k' NFILE); [unfold NFILE in *; lia|].
  unfold fdata. case_decide as Ek.
  - subst k'. rewrite E. rewrite (proj2 (Z.eqb_neq b 0)) by lia. unfold ref in Hfree. rewrite (proj2 (Z.eqb_neq k NFILE)) in Hfree by done.
    by rewrite Hfree, Hz.
  - rewrite E. destruct (Z.eqb_spec (bref s (sv_i x) k') 0) as [|Hne]; [done|].
    assert (ref s (sv_i x) k' = bref s (sv_i x) k') as Er by (unfold ref; by rewrite (proj2 (Z.eqb_neq k' NFILE))).
    destruct (Hsect (bref s (sv_i x) k')) as [[Ei _]|Es].
    + assert (k' = 143); [|lia]. apply (fo_inj _ _ Hf); unfold NFILE; [lia|lia| |by rewrite Er].
      rewrite Er, Ei. done.
    + rewrite Es, A7, decide_False; [done|]. rewrite <- Er. apply fresh_ref. unfold NFILE. lia.
Qed.
End AddRef.

(** ** sfs_bmap *)

Lemma wp_read_sv X sv x s Q E : sv_at s !! sv = Some x → Q x s → wpx X (read_sv sv) Q E s.
Proof. intros Hx HQ. unfold read_sv. wp_steps. by eapply wp_deref. Qed.

Lemma wp_update_sv X sv f x s Q E : sv_at s !! sv = Some x → Q tt (set_sv_at <[sv := f x]> s) → wpx X (update_sv sv f) Q E s.
Proof. intros Hx HQ. unfold update_sv. wp_steps. eapply wp_read_sv; [done|]. by wp_steps. Qed.

Lemma fs_ok_svs s f : fs_ok s → fs_ok (set_sv_at f s).
Proof. intros H. by apply (fs_ok_ext s). Qed.

Section Bmap.
Context (sv : Z) (x : sfs_vnode) (s : sfs).
Context (Hl : biglocked s) (Hok : fs_ok s) (Hx : sv_at s !! sv = Some x) (Hf : file_ok s (sv_i x)).

Lemma ref_bref k : k ≠ NFILE → ref s (sv_i x) k = bref s (sv_i x) k.
Proof. intros Hk. unfold ref. by rewrite (proj2 (Z.eqb_neq k NFILE)). Qed.

Lemma bref_cases k : 0 ≤ k < NFILE →
  bref s (sv_i x) k = 0 ∨ (0 < bref s (sv_i x) k < nblk s ∧ marked s (bref s (sv_i x) k)).
Proof. intros Hk. rewrite <- ref_bref by lia. apply (fo_refs _ _ Hf). lia. Qed.

Lemma indirect_cases : sfi_indirect (sv_i x) = 0 ∨
  (0 < sfi_indirect (sv_i x) < nblk s ∧ marked s (sfi_indirect (sv_i x))).
Proof. apply (fo_refs _ _ Hf NFILE). unfold NFILE. lia. Qed.

Lemma idbuf_words : sfi_indirect (sv_i x) ≠ 0 →
  let w := words_of_bytes (sect s (sfi_indirect (sv_i x))) in Forall is_word w ∧ lengthZ w = SFS_DBPERIDB.
Proof.
  intros Hne w. destruct indirect_cases as [|[Hr _]]; [done|].
  destruct (block_words (sect s (sfi_indirect (sv_i x)))) as (H1 & H2 & _); [|done].
  apply sect_block; [apply Hok|]. pose proof (ok_size _ Hok). lia.
Qed.

Lemma bref_direct k b : (sfi_direct (sv_i x)).[k] = Some b → k < SFS_NDIRECT → bref s (sv_i x) k = b.
Proof. intros Hb Hk. unfold bref. rewrite (proj2 (Z.ltb_lt _ _) Hk). by rewrite Hb. Qed.

Lemma direct_lookup k : 0 ≤ k < SFS_NDIRECT → (sfi_direct (sv_i x)).[k] = Some (bref s (sv_i x) k).
Proof.
  intros Hk. destruct (lookupZ_lt (sfi_direct (sv_i x)) k) as [b Hb].
  - rewrite (iw_ndirect _ (fo_wf _ _ Hf)). lia.
  - rewrite Hb. f_equal. symmetry. apply bref_direct; [done|lia].
Qed.

Lemma indirect_lookup k : sfi_indirect (sv_i x) ≠ 0 → SFS_NDIRECT ≤ k < NFILE →
  (words_of_bytes (sect s (sfi_indirect (sv_i x)))).[k - SFS_NDIRECT] = Some (bref s (sv_i x) k).
Proof.
  intros Hne Hk. destruct (idbuf_words Hne) as [_ Hlen]. unfold SFS_NDIRECT, SFS_DBPERIDB, NFILE in *.
  destruct (lookupZ_lt (words_of_bytes (sect s (sfi_indirect (sv_i x)))) (k - 15)) as [b Hb]; [lia|].
  rewrite Hb. unfold bref, SFS_NDIRECT. rewrite (proj2 (Z.ltb_ge _ _)) by lia. rewrite (proj2 (Z.eqb_neq _ _) Hne). by rewrite Hb.
Qed.

Lemma sfs_bmap_lookup X k : 0 ≤ k →
  wpx X (sfs_bmap sv k false) (λ b s', b = bref s (sv_i x) k ∧ s' = s ∧ k < NFILE)
    (λ e s', e = EFBIG ∧ s' = s ∧ NFILE ≤ k) s.
Proof.
  intros Hk. unfold sfs_bmap. destruct (Z.ltb_spec k SFS_NDIRECT) as [Hd|Hd].
  - unfold bmap_direct. wp_steps. eapply wp_read_sv; [done|]. wp_steps. eapply wp_deref; [apply direct_lookup; lia|]. wp_steps.
    rewrite andb_false_r. wp_steps. unfold SFS_NDIRECT, NFILE in *.
    eapply wp_conseq; [apply hand_back_spec; [done|apply bref_cases; unfold NFILE; lia]| |done].
    intros b s' [-> ->]. split_and!; [done..|lia].
  - cbv zeta. unfold SFS_DBPERIDB, SFS_NDIRECT, NFILE in *. pose proof (Z.div_mod (k - 15) 128). pose proof (Z.mod_pos_bound (k - 15) 128).
    destruct (Z.ltb_spec 0 ((k - 15) / 128)); [wp_steps; split_and!; [done..|lia]|].
    assert ((k - 15) / 128 = 0) as E0 by (pose proof (Z.div_pos (k - 15) 128); lia).
    assert ((k - 15) mod 128 = k - 15) as -> by lia.
    unfold bmap_indirect. wp_steps. eapply wp_read_sv; [done|]. cbv zeta. destruct (Z.eqb_spec (sfi_indirect (sv_i x)) 0) as [E|E].
    + wp_steps. split_and!; [|done|lia]. unfold bref, SFS_NDIRECT. rewrite (proj2 (Z.ltb_ge _ _)) by lia. by rewrite E.
    + simpl. wp_steps. unfold bmap_idbuf. rewrite (proj2 (Z.eqb_neq _ _) E). wp_steps.
      destruct indirect_cases as [|[Hr _]]; [done|]. pose proof (ok_size _ Hok).
      eapply wp_ok; [apply sfs_rblock_eq; [done|apply Hok|lia]|]. wp_steps.
      eapply wp_deref; [apply indirect_lookup; [done|unfold SFS_NDIRECT, NFILE; lia]|]. wp_steps. rewrite andb_false_r. wp_steps.
      eapply wp_conseq; [apply hand_back_spec; [done|apply bref_cases; unfold NFILE; lia]| |done].
      intros b s' [-> ->]. split_and!; [done..|lia].
Qed.

(** What allocation does: the file has a block at [k] now, and no other data. *)
Definition bmapped (k b : Z) (s' : sfs) : Prop :=
  ∃ x', file_step sv x x' s s' ∧ same_data s (sv_i x) s' (sv_i x') ∧ b = bref s' (sv_i x') k ∧ b ≠ 0.
Definition bmap_failed (k e : Z) (s' : sfs) : Prop :=
  e = ENOSPC ∧ full s' ∧ fdata s (sv_i x) k = zero_data ∧ ∃ x', file_step sv x x' s s' ∧ same_data s (sv_i x) s' (sv_i x').

Lemma bmap_present k : bref s (sv_i x) k ≠ 0 → bmapped k (bref s (sv_i x) k) s.
Proof.
  intros Hne. exists x. split_and!; [by apply file_step_refl|apply same_data_refl|done..].
Qed.

Lemma indirect_kept b s1 : block_added s b s1 → sfi_indirect (sv_i x) ≠ 0 →
  sect s1 (sfi_indirect (sv_i x)) = sect s (sfi_indirect (sv_i x)).
Proof.
  intros Hadd Hne. rewrite (ba_sect _ _ _ Hadd), decide_False; [done|].
  apply (fresh_ref b x s s1 Hf Hadd NFILE). unfold NFILE. lia.
Qed.

Lemma direct_added k b s1 : 0 ≤ k < SFS_NDIRECT → bref s (sv_i x) k = 0 → block_added s b s1 →
  let x' := set_dirty true (set_inode (set_direct (λ l, l.[k := b])) x) in
  let s' := set_sv_at <[sv := x']> s1 in
  file_step sv x x' s s' ∧ same_data s (sv_i x) s' (sv_i x') ∧ b = bref s' (sv_i x') k.
Proof.
  intros Hk Hfree Hadd x' s'. pose proof Hadd as [A1 A2 A3 A4 A5 A6 A7]. pose proof (fo_wf _ _ Hf) as Hwf.
  unfold SFS_NDIRECT, NFILE in *.
  assert (∀ k', 0 ≤ k' ≤ NFILE → ref s' (sv_i x') k' = if decide (k' = k) then b else ref s (sv_i x) k') as Hrefs.
  { intros k' Hk'. unfold ref, bref. unfold x'. cbn [set_dirty set_inode sv_i set_direct sfi_direct sfi_indirect].
    destruct (Z.eqb_spec k' NFILE) as [->|Hne]; [by rewrite decide_False by (unfold NFILE; lia)|].
    unfold SFS_NDIRECT. destruct (Z.ltb_spec k' 15).
    - rewrite lookupZ_update by (rewrite (iw_ndirect _ Hwf); unfold SFS_NDIRECT; lia).
      repeat case_decide; try congruence; done.
    - rewrite decide_False by lia. destruct (Z.eqb_spec (sfi_indirect (sv_i x)) 0); [done|].
      change (sect s' ?c) with (sect s1 c). by rewrite (indirect_kept b s1). }
  assert (ref s (sv_i x) k = 0) as Hfree' by (rewrite ref_bref; [done|unfold NFILE; lia]).
  assert (inode_wf (sv_i x')) as Hwf'.
  { destruct Hwf as [W1 W2 W3 W4 W5 W6 W7 W8]. split; cbn; try done; [by rewrite lengthZ_update|].
    unfold updateZ. rewrite decide_True by lia. apply Forall_insert; [done|]. pose proof (ok_small _ Hok). unfold is_word. lia. }
  assert (same_vnode x x') as Hvn by (split_and!; auto).
  split_and!.
  - eapply (add_ref_step sv k b x x' s s1 s'); try done; [unfold NFILE; lia|by apply fs_ok_svs|by rewrite <- A2|by right].
  - eapply (add_ref_data k b x x' s s1 s'); try done; try (by intros; right); try (unfold NFILE; lia).
    change (sect s' b) with (sect s1 b). rewrite A7. by rewrite decide_True.
  - specialize (Hrefs k ltac:(unfold NFILE; lia)). rewrite decide_True in Hrefs by done. rewrite <- Hrefs.
    unfold ref. by rewrite (proj2 (Z.eqb_neq k NFILE)) by (unfold NFILE; lia).
Qed.

Lemma bmap_direct_spec X k : 0 ≤ k < SFS_NDIRECT → wpx X (bmap_direct sv k true) (bmapped k) (bmap_failed k) s.
Proof.
  intros Hk. unfold bmap_direct. wp_steps. eapply wp_read_sv; [done|]. wp_steps. eapply wp_deref; [apply direct_lookup; lia|]. wp_steps.
  destruct (Z.eqb_spec (bref s (sv_i x) k) 0) as [E|E]; simpl.
  - wp_steps. eapply wp_conseq; [by apply sfs_balloc_spec| |].
    2: { intros e s' (-> & -> & Hfull). split_and!; [done..|unfold fdata; by rewrite E|]. exists x. split; [by apply file_step_refl|apply same_data_refl]. }
    intros b s1 Hadd. pose proof Hadd as [A1 A2 A3 A4 A5 A6 A7]. wp_steps. eapply wp_update_sv; [by rewrite A2|]. wp_steps.
    destruct (direct_added k b s1 Hk E Hadd) as (Hstep & Hdata & Hb).
    eapply wp_conseq; [apply hand_back_spec; [apply (st_ok _ _ _ _ _ Hstep)|]| |done].
    + right. destruct A1 as (_ & Esb & _). unfold nblk. cbn [set_sv_at sfs_sb]. rewrite Esb. split; [exact A5|].
      change (marked s1 b). apply A6. by left.
    + intros r s' [-> ->]. eexists. split_and!; [done..|lia].
  - wp_steps. eapply wp_conseq; [apply hand_back_spec; [done|apply bref_cases; unfold SFS_NDIRECT, NFILE in *; lia]| |done].
    intros r s' [-> ->]. by apply bmap_present.
Qed.

(** A file gets an indirect block: it holds no references yet. *)
Lemma idblock_added b s1 : sfi_indirect (sv_i x) = 0 → block_added s b s1 →
  let x' := set_dirty true (set_inode (set_indirect b) x) in
  let s' := set_sv_at <[sv := x']> s1 in
  file_step sv x x' s s' ∧ same_data s (sv_i x) s' (sv_i x').
Proof.
  intros Hind Hadd x' s'. pose proof Hadd as [A1 A2 A3 A4 A5 A6 A7]. pose proof (fo_wf _ _ Hf) as Hwf.
  assert (sect s' b = zero_data) as Hz by (change (sect s' b) with (sect s1 b); by rewrite A7, decide_True).
  assert (∀ k', 0 ≤ k' ≤ NFILE → ref s' (sv_i x') k' = if decide (k' = NFILE) then b else ref s (sv_i x) k') as Hrefs.
  { intros k' Hk'. unfold ref. destruct (Z.eqb_spec k' NFILE) as [->|Hne]; [by rewrite decide_True|].
    rewrite decide_False by done. unfold bref. unfold x'. cbn [set_dirty set_inode sv_i set_indirect sfi_direct sfi_indirect].
    case_match; [done|]. rewrite Hind. simpl. rewrite (proj2 (Z.eqb_neq b 0)) by lia. rewrite Hz.
    change (words_of_bytes zero_data) with (replicate 128 0). unfold SFS_NDIRECT, NFILE in *.
    rewrite lookupZ_replicate; [done|]. apply Z.ltb_ge in H. lia. }
  assert (inode_wf (sv_i x')) as Hwf'.
  { destruct Hwf as [W1 W2 W3 W4 W5 W6 W7 W8]. split; cbn; try done. pose proof (ok_small _ Hok). unfold is_word. lia. }
  assert (same_vnode x x') as Hvn by (split_and!; auto).
  split.
  - eapply (add_ref_step sv NFILE b x x' s s1 s'); try done; [by apply fs_ok_svs|by rewrite <- A2|by right].
  - eapply (add_ref_data NFILE b x x' s s1 s'); try done; by right.
Qed.

Lemma bmap_idbuf_spec X :
  wpx X (bmap_idbuf sv (sfi_indirect (sv_i x)))
    (λ r s', ∃ x', file_step sv x x' s s' ∧ same_data s (sv_i x) s' (sv_i x') ∧ sfi_indirect (sv_i x') ≠ 0 ∧
       r = (sfi_indirect (sv_i x'), words_of_bytes (sect s' (sfi_indirect (sv_i x')))))
    (λ e s', ∀ k, SFS_NDIRECT ≤ k → bmap_failed k e s') s.
Proof.
  unfold bmap_idbuf. destruct (Z.eqb_spec (sfi_indirect (sv_i x)) 0) as [E|E]; wp_steps.
  - eapply wp_conseq; [by apply sfs_balloc_spec| |].
    2: { intros e s' (-> & -> & Hfull) k Hk. split_and!; [done..| |exists x; split; [by apply file_step_refl|apply same_data_refl]].
         unfold fdata, bref. by rewrite (proj2 (Z.ltb_ge _ _) Hk), E. }
    intros b s1 Hadd. pose proof Hadd as [A1 A2 A3 A4 A5 A6 A7]. wp_steps. eapply wp_update_sv; [by rewrite A2|]. wp_steps.
    destruct (idblock_added b s1 E Hadd) as [Hstep Hdata]. eexists. split_and!; [exact Hstep|exact Hdata|simpl; lia|].
    cbn [set_dirty set_inode sv_i set_indirect sfi_indirect]. change (sect (set_sv_at ?f s1) b) with (sect s1 b).
    by rewrite A7, decide_True.
  - destruct indirect_cases as [|[Hr _]]; [done|]. pose proof (ok_size _ Hok).
    eapply wp_ok; [apply sfs_rblock_eq; [done|apply Hok|lia]|]. wp_steps. exists x.
    split_and!; [by apply file_step_refl|apply same_data_refl|done|done].
Qed.

(** A reference is put in the indirect block, which is written back. *)
Lemma indirect_added k b s1 : sfi_indirect (sv_i x) ≠ 0 → SFS_NDIRECT ≤ k < NFILE → bref s (sv_i x) k = 0 → block_added s b s1 →
  let w := words_of_bytes (sect s (sfi_indirect (sv_i x))) in
  let data := bytes_of_words w.[k - SFS_NDIRECT := b] in
  let s' := set_device (write_sector (sfi_indirect (sv_i x)) data (sfs_device s1)) s1 in
  is_block data ∧ file_step sv x x s s' ∧ same_data s (sv_i x) s' (sv_i x) ∧ b = bref s' (sv_i x) k.
Proof.
  intros Hind Hk Hfree Hadd w data s'. pose proof Hadd as [A1 A2 A3 A4 A5 A6 A7]. pose proof (fo_wf _ _ Hf) as Hwf.
  destruct (idbuf_words Hind) as [Hww Hwl]. fold w in Hww, Hwl. unfold SFS_DBPERIDB in Hwl.
  destruct indirect_cases as [|[Hir _]]; [done|].
  assert (Forall is_word w.[k - SFS_NDIRECT := b]) as Hww'.
  { unfold updateZ. case_decide; [|done]. apply Forall_insert; [done|]. pose proof (ok_small _ Hok). unfold is_word. lia. }
  assert (is_block data) as Hdata by (apply words_block; [done|by rewrite lengthZ_update, Hwl]).
  assert (0 ≤ sfi_indirect (sv_i x) < d_blocks (sfs_device s1)) as Hrange.
  { pose proof (ok_size _ A3). destruct A1 as (_ & Esb & _). unfold nblk in *. rewrite Esb in *. lia. }
  assert (∀ c, sect s' c = if decide (c = sfi_indirect (sv_i x)) then data else sect s1 c) as Hs'.
  { intros c. by apply sect_write. }
  assert (∀ k', 0 ≤ k' ≤ NFILE → ref s' (sv_i x) k' = if decide (k' = k) then b else ref s (sv_i x) k') as Hrefs.
  { intros k' Hk'. unfold ref. unfold SFS_NDIRECT, NFILE in *.
    destruct (Z.eqb_spec k' 143) as [->|Hne]; [by rewrite decide_False by lia|].
    unfold bref, SFS_NDIRECT. destruct (Z.ltb_spec k' 15); [by rewrite decide_False by lia|].
    rewrite (proj2 (Z.eqb_neq _ _) Hind), Hs', decide_True by done. unfold data.
    rewrite words_of_bytes_of_words by done. rewrite lookupZ_update by lia.
    repeat case_decide; try lia; done. }
  assert (ref s (sv_i x) k = 0) as Hfree' by (rewrite ref_bref; [done|lia]).
  split; [done|]. split_and!.
  - eapply (add_ref_step sv k b x x s s1 s'); try done; try (unfold SFS_NDIRECT, NFILE in *; lia).
    + apply fs_ok_write; [done|done|]. rewrite (system_same s) by apply A1. apply (fo_system _ _ Hf NFILE); [unfold NFILE; lia|done].
    + change (sv_at s') with (sv_at s1). by rewrite A2, insert_id.
    + apply same_vnode_refl.
    + intros c. rewrite Hs'. case_decide; [left; by subst|by right].
  - eapply (add_ref_data k b x x s s1 s'); try done; try (unfold SFS_NDIRECT, NFILE in *; lia).
    + intros c. rewrite Hs'. case_decide; [left; by subst|by right].
    + rewrite Hs', decide_False, A7, decide_True; [done|done|].
      intros E. symmetry in E. apply (fresh_ref b x s s1 Hf Hadd NFILE) in E; [done|unfold NFILE; lia].
  - specialize (Hrefs k ltac:(unfold SFS_NDIRECT in *; lia)). rewrite decide_True in Hrefs by done. rewrite <- Hrefs.
    unfold ref. by rewrite (proj2 (Z.eqb_neq k NFILE)) by lia.
Qed.
End Bmap.

Lemma file_step_locked sv x x' s s' : file_step sv x x' s s' → biglocked s → biglocked s'.
Proof. intros [(E & _) _ _ _ _ _ _ _ _]. unfold biglocked. by rewrite E. Qed.

Lemma file_step_sv sv x x' s s' : file_step sv x x' s s' → sv_at s' !! sv = Some x'.
Proof. intros H. rewrite (st_svs _ _ _ _ _ H). apply lookup_insert_eq. Qed.

Lemma file_step_nblk sv x x' s s' : file_step sv x x' s s' → nblk s' = nblk s.
Proof. intros [(_ & E & _) _ _ _ _ _ _ _ _]. unfold nblk. by rewrite E. Qed.

Lemma bmapped_trans sv x x1 s s1 k b s' :
  file_step sv x x1 s s1 → same_data s (sv_i x) s1 (sv_i x1) → bmapped sv x1 s1 k b s' → bmapped sv x s k b s'.
Proof.
  intros H1 H2 (x' & H3 & H4 & H5). exists x'.
  split_and!; [by eapply file_step_trans|by eapply same_data_trans|by apply H5..].
Qed.

Lemma bmap_failed_trans sv x x1 s s1 k e s' : 0 ≤ k < NFILE →
  file_step sv x x1 s s1 → same_data s (sv_i x) s1 (sv_i x1) → bmap_failed sv x1 s1 k e s' → bmap_failed sv x s k e s'.
Proof.
  intros Hk H1 H2 (-> & Hfull & Hz & x' & H3 & H4). split_and!; [done..|rewrite <- (proj2 H2 k Hk); done|]. exists x'.
  split; [by eapply file_step_trans|by eapply same_data_trans].
Qed.

(** With the indirect block at hand. *)
Lemma bmap_in_idbuf X sv x s k : biglocked s → fs_ok s → sv_at s !! sv = Some x → file_ok s (sv_i x) →
  sfi_indirect (sv_i x) ≠ 0 → SFS_NDIRECT ≤ k < NFILE →
  let w := words_of_bytes (sect s (sfi_indirect (sv_i x))) in
  wpx X (block <- deref w.[k - SFS_NDIRECT] ;;
         block <- (if (block =? 0) && true then
                     b <- sfs_balloc ;;
                     sfs_wblock (bytes_of_words w.[k - SFS_NDIRECT := b]) (sfi_indirect (sv_i x)) ;;
                     ret b
                   else ret block) ;;
         hand_back block) (bmapped sv x s k) (bmap_failed sv x s k) s.
Proof.
  intros Hl Hok Hx Hf Hind Hk w. wp_steps. eapply wp_deref; [by apply indirect_lookup|]. wp_steps.
  destruct (Z.eqb_spec (bref s (sv_i x) k) 0) as [E|E]; simpl.
  - wp_steps. eapply wp_conseq; [by apply sfs_balloc_spec| |].
    2: { intros e s' (-> & -> & Hfull). split_and!; [done..|unfold fdata; by rewrite E|]. exists x. split; [by apply file_step_refl|apply same_data_refl]. }
    intros b s1 Hadd. pose proof Hadd as [A1 A2 A3 A4 A5 A6 A7]. wp_steps.
    destruct (indirect_added sv x s Hok Hx Hf k b s1 Hind Hk E Hadd) as (Hblk & Hstep & Hdata & Hb).
    destruct (indirect_cases x s Hf) as [|[Hir _]]; [done|].
    pose proof (ok_size _ A3) as Hsz. destruct A1 as (Ed & Esb & _). unfold nblk in *. rewrite Esb in Hsz.
    eapply wp_ok; [apply sfs_wblock_eq; [unfold biglocked; by rewrite Ed|apply A3|lia|apply Hblk]|]. wp_steps.
    eapply wp_conseq; [apply hand_back_spec; [apply (st_ok _ _ _ _ _ Hstep)|]| |done].
    + right. unfold nblk. cbn [set_device sfs_sb]. rewrite Esb. split; [exact A5|]. change (marked s1 b). apply A6. by left.
    + intros r s' [-> ->]. eexists. split_and!; [done..|lia].
  - wp_steps. eapply wp_conseq; [apply hand_back_spec; [done|apply bref_cases; [done|]; unfold SFS_NDIRECT, NFILE in *; lia]| |done].
    intros r s' [-> ->]. by apply bmap_present.
Qed.

Lemma sfs_bmap_alloc X sv x s k : biglocked s → fs_ok s → sv_at s !! sv = Some x → file_ok s (sv_i x) → 0 ≤ k →
  wpx X (sfs_bmap sv k true) (λ b s', bmapped sv x s k b s' ∧ k < NFILE)
    (λ e s', bmap_failed sv x s k e s' ∧ k < NFILE ∨ (e = EFBIG ∧ s' = s ∧ NFILE ≤ k)) s.
Proof.
  intros Hl Hok Hx Hf Hk. unfold sfs_bmap. destruct (Z.ltb_spec k SFS_NDIRECT) as [Hd|Hd].
  - eapply wp_conseq; [by apply bmap_direct_spec| |left; split; [done|unfold SFS_NDIRECT, NFILE in *; lia]]. intros b s' H. split; [done|]. unfold SFS_NDIRECT, NFILE in *. lia.
  - cbv zeta. unfold SFS_DBPERIDB. pose proof (Z.div_mod (k - SFS_NDIRECT) 128). pose proof (Z.mod_pos_bound (k - SFS_NDIRECT) 128).
    destruct (Z.ltb_spec 0 ((k - SFS_NDIRECT) / 128)); [wp_steps; right; split_and!; [done..|unfold SFS_NDIRECT, NFILE in *; lia]|].
    assert ((k - SFS_NDIRECT) / 128 = 0) as E0 by (pose proof (Z.div_pos (k - SFS_NDIRECT) 128); lia).
    assert ((k - SFS_NDIRECT) mod 128 = k - SFS_NDIRECT) as -> by lia.
    assert (SFS_NDIRECT ≤ k < NFILE) as Hk2 by (unfold SFS_NDIRECT, NFILE in *; lia).
    unfold bmap_indirect. wp_steps. eapply wp_read_sv; [done|]. cbv zeta. simpl negb. rewrite andb_false_r. wp_steps.
    eapply wp_conseq; [by apply bmap_idbuf_spec| |intros e s' He; left; split; [by apply He|lia]].
    intros r s1 (x1 & Hstep & Hdata & Hind & ->). cbv iota beta.
    eapply wp_conseq; [apply (bmap_in_idbuf X sv x1 s1 k)| |].
    + by eapply file_step_locked.
    + apply (st_ok _ _ _ _ _ Hstep).
    + by eapply file_step_sv.
    + apply (st_file _ _ _ _ _ Hstep).
    + done.
    + done.
    + intros b s2 H2. split; [by eapply bmapped_trans|lia].
    + intros e s2 H2. left. split; [eapply bmap_failed_trans; [unfold SFS_NDIRECT in *; lia|done..]|lia].
Qed.
