(* ===== verification/SfsIo.v ===== *)
(** * The simple file system: reading and writing files

    The bytes of a file, and the specification of sfs_io: a read delivers the bytes
    of the file from the offset on, up to its end, and changes nothing; a write puts
    the bytes of the stream in the file at the offset, and nothing else, extending
    it where needed.  Errors leave a prefix transferred. *)

From S2P Require Import Prelude Bitmap UserCopy Uio Disk SfsTypes Sfs SfsNode SfsMount SfsBlk SfsMap.
#[local] Open Scope kern_scope.

(** ** Lists *)

Lemma lookupZ_drop {A} (l : list A) k j : 0 ≤ k → 0 ≤ j → (drop (Z.to_nat k) l).[j] = l.[k + j].
Proof. intros. rewrite !lookupZ_nat by lia. rewrite lookup_drop. f_equal. lia. Qed.

Lemma lookupZ_take_lt {A} (l : list A) k j : j < k → (take (Z.to_nat k) l).[j] = l.[j].
Proof. intros. unfold lookupZ. case_decide; [|done]. rewrite lookup_take_lt by lia. done. Qed.

Lemma lengthZ_take {A} (l : list A) k : 0 ≤ k → lengthZ (take (Z.to_nat k) l) = Z.min k (lengthZ l).
Proof. intros. unfold lengthZ. rewrite length_take. lia. Qed.

Lemma lengthZ_drop {A} (l : list A) k : 0 ≤ k → lengthZ (drop (Z.to_nat k) l) = Z.max 0 (lengthZ l - k).
Proof. intros. unfold lengthZ. rewrite length_drop. lia. Qed.

Lemma drop_dropZ {A} (l : list A) j k : 0 ≤ j → 0 ≤ k → drop (Z.to_nat k) (drop (Z.to_nat j) l) = drop (Z.to_nat (j + k)) l.
Proof. intros. rewrite drop_drop. f_equal. lia. Qed.

(** ** The bytes of a file *)

Definition FILEMAX : Z := NFILE * SFS_BLOCKSIZE.

Definition fbyte (s : sfs) (i : sfs_inode) (p : Z) : Z := default 0 (fdata s i (p / SFS_BLOCKSIZE)).[p mod SFS_BLOCKSIZE].
Definition fbytes (s : sfs) (i : sfs_inode) (off n : Z) : list Z := fbyte s i <$> seqZ off n.

Lemma fbytes_length s i off n : 0 ≤ n → lengthZ (fbytes s i off n) = n.
Proof. intros. unfold fbytes, lengthZ. rewrite length_fmap, length_seqZ. lia. Qed.

Lemma fbytes_lookup s i off n j : 0 ≤ j < n → (fbytes s i off n).[j] = Some (fbyte s i (off + j)).
Proof.
  intros. unfold fbytes. rewrite lookupZ_nat, list_lookup_fmap by lia. rewrite lookup_seqZ_lt by lia. simpl. do 2 f_equal. lia.
Qed.

Lemma fbytes_app s i off n m : 0 ≤ n → 0 ≤ m → fbytes s i off n ++ fbytes s i (off + n) m = fbytes s i off (n + m).
Proof. intros. unfold fbytes. rewrite <- fmap_app, <- seqZ_app by lia. done. Qed.

Lemma fdata_block s i k : fs_ok s → file_ok s i → 0 ≤ k < NFILE → is_block (fdata s i k).
Proof.
  intros Hok Hf Hk. unfold fdata. destruct (Z.eqb_spec (bref s i k) 0) as [E|E]; [apply zero_block_data|].
  assert (bref s i k = ref s i k) as Er by (unfold ref; by rewrite (proj2 (Z.eqb_neq k NFILE)) by lia).
  rewrite Er in *. destruct (fo_refs _ _ Hf k) as [|[Hr _]]; [lia|done|]. apply sect_block; [apply Hok|].
  pose proof (ok_size _ Hok). lia.
Qed.

(** A piece of one block. *)
Lemma fbytes_block s i k skip n : fs_ok s → file_ok s i → 0 ≤ k < NFILE → 0 ≤ skip → 0 ≤ n → skip + n ≤ SFS_BLOCKSIZE →
  fbytes s i (k * SFS_BLOCKSIZE + skip) n = take (Z.to_nat n) (drop (Z.to_nat skip) (fdata s i k)).
Proof.
  intros Hok Hf Hk Hs Hn Hle. destruct (fdata_block s i k Hok Hf Hk) as [Hlen _]. unfold SFS_BLOCKSIZE in *.
  apply listZ_eq; [rewrite fbytes_length, lengthZ_take, lengthZ_drop by lia; lia|].
  rewrite fbytes_length by lia. intros j Hj. rewrite fbytes_lookup by done. rewrite lookupZ_take_lt, lookupZ_drop by lia.
  unfold fbyte, SFS_BLOCKSIZE. assert ((k * 512 + skip + j) / 512 = k) as ->.
  { symmetry. apply (Z.div_unique_pos _ 512 k (skip + j)); lia. }
  assert ((k * 512 + skip + j) mod 512 = skip + j) as ->.
  { symmetry. apply (Z.mod_unique_pos _ 512 k (skip + j)); lia. }
  destruct (lookupZ_lt (fdata s i k) (skip + j)) as [b ->]; [lia|done].
Qed.

(** Writing a block of the file in place. *)
Lemma block_write sv x s k data :
  fs_ok s → sv_at s !! sv = Some x → file_ok s (sv_i x) → 0 ≤ k < NFILE → bref s (sv_i x) k ≠ 0 → is_block data →
  let s' := set_device (write_sector (bref s (sv_i x) k) data (sfs_device s)) s in
  file_step sv x x s s' ∧ ∀ k', 0 ≤ k' < NFILE → fdata s' (sv_i x) k' = if decide (k' = k) then data else fdata s (sv_i x) k'.
Proof.
  intros Hok Hx Hf Hk Hb Hd s'. set (b := bref s (sv_i x) k) in *.
  assert (ref s (sv_i x) k = b) as Er by (apply ref_bref; lia).
  destruct (bref_cases x s Hf k Hk) as [|[Hr Hm]]; [done|]. fold b in Hr, Hm.
  assert (∀ c, sect s' c = if decide (c = b) then data else sect s c) as Hs'.
  { intros c. apply sect_write. pose proof (ok_size _ Hok). lia. }
  assert (sect s' (sfi_indirect (sv_i x)) = sect s (sfi_indirect (sv_i x))) as Hind.
  { rewrite Hs'. case_decide as E; [|done]. exfalso. assert (k = NFILE); [|lia].
    apply (fo_inj _ _ Hf); [lia|unfold NFILE; lia| |by rewrite Er]. rewrite Er, <- E. done. }
  assert (∀ k', bref s' (sv_i x) k' = bref s (sv_i x) k') as Hbref by (intros k'; unfold bref; by rewrite Hind).
  assert (∀ k', ref s' (sv_i x) k' = ref s (sv_i x) k') as Href by (intros k'; unfold ref; by rewrite Hbref).
  assert (∀ c, owns_block s' (sv_i x) c ↔ owns_block s (sv_i x) c) as Hown.
  { intros c. unfold owns_block. setoid_rewrite Href. done. }
  split.
  - split.
    + done.
    + apply fs_ok_write; [done|done|]. rewrite <- Er. apply (fo_system _ _ Hf); [lia|by rewrite Er].
    + by rewrite insert_id.
    + apply same_vnode_refl.
    + destruct Hf as [F1 F2 F3 F4]. split; [done|..]; setoid_rewrite Href; done.
    + intros c Hc. rewrite Hs'. case_decide as E; [|by right]. left. split; [lia|]. exists k. split; [lia|congruence].
    + intros c ?%Hown. by left.
    + intros c ?%Hown. by left.
    + by left.
  - intros k' Hk'. unfold fdata. rewrite Hbref. destruct (Z.eqb_spec (bref s (sv_i x) k') 0) as [E|E].
    + rewrite decide_False; [done|]. intros ->. done.
    + rewrite Hs'. repeat case_decide; subst; try done. exfalso. apply H0. apply (fo_inj _ _ Hf); [lia..| |].
      * rewrite Er, ref_bref by lia. done.
      * rewrite ref_bref by lia. done.
Qed.

(** ** Transfers *)

(** A stream that can be transferred: its offset stays in the range in which block
    numbers do not wrap, and a stream to be written holds what it announces. *)
Record stream_ok (u : stream) : Prop := {
  so_off : 0 ≤ st_offset u;
  so_resid : 0 ≤ st_resid u < 2 ^ 32;
  so_end : st_offset u + st_resid u ≤ 2 ^ 41;
  so_data : st_rw u = UIO_WRITE → st_resid u ≤ lengthZ (st_data u) ∧ Forall is_byte (st_data u)
}.

Record io_ready (sv : Z) (x : sfs_vnode) (s : sfs) (u : stream) : Prop := {
  ir_lock : biglocked s;
  ir_ok : fs_ok s;
  ir_sv : sv_at s !! sv = Some x;
  ir_file : file_ok s (sv_i x);
  ir_stream : stream_ok u
}.

(** [n] bytes went through the stream.  A read has delivered the [n] bytes of the
    file and changed nothing; of the bytes of a write the first [m] are in the file. *)
Record xfer (sv : Z) (x : sfs_vnode) (s : sfs) (u : stream) (n m : Z) (x' : sfs_vnode) (s' : sfs) (u' : stream) : Prop := {
  xf_range : 0 ≤ m ≤ n ∧ n ≤ st_resid u;
  xf_max : m = 0 ∨ st_offset u + m ≤ FILEMAX;
  xf_step : file_step sv x x' s s';
  xf_size : sfi_size (sv_i x') = sfi_size (sv_i x);
  xf_rw : st_rw u' = st_rw u;
  xf_off : st_offset u' = st_offset u + n;
  xf_resid : st_resid u' = st_resid u - n;
  xf_fate : st_fate u = [] → st_fate u' = [];
  xf_read : st_rw u = UIO_READ → s' = s ∧ x' = x ∧ st_data u' = st_data u ++ fbytes s (sv_i x) (st_offset u) n;
  xf_write : st_rw u = UIO_WRITE → st_data u' = drop (Z.to_nat n) (st_data u) ∧
    ∀ p, 0 ≤ p < FILEMAX → fbyte s' (sv_i x') p =
      if decide (st_offset u ≤ p < st_offset u + m) then default 0 (st_data u).[p - st_offset u] else fbyte s (sv_i x) p
}.

(** Why a transfer fails that has moved [n] bytes, [m] of them for good: a fault, or
    the want of a block, in which case nothing is lost. *)
Definition at_boundary (u : stream) (n : Z) : Prop := n = 0 ∨ (st_offset u + n) mod SFS_BLOCKSIZE = 0.
Definition hole (s : sfs) (i : sfs_inode) (p : Z) : Prop :=
  0 ≤ p < FILEMAX ∧ ∀ q, q / SFS_BLOCKSIZE = p / SFS_BLOCKSIZE → fbyte s i q = 0.
Definition io_error (s : sfs) (i : sfs_inode) (u : stream) (n m : Z) (s' : sfs) (e : Z) : Prop :=
  (e = EFAULT ∧ st_fate u ≠ []) ∨
  (m = n ∧ at_boundary u n ∧
   ((e = ENOSPC ∧ st_rw u = UIO_WRITE ∧ full s' ∧ hole s i (st_offset u + n)) ∨ (e = EFBIG ∧ FILEMAX ≤ st_offset u + n))).

Lemma xfer_refl sv x s u : io_ready sv x s u → xfer sv x s u 0 0 x s u.
Proof.
  intros [H1 H2 H3 H4 [U1 U2 U3 U4]]. split; try done; try lia.
  - by apply file_step_refl.
  - intros _. unfold fbytes. by rewrite app_nil_r.
  - intros _. split; [done|]. intros p Hp. rewrite decide_False by lia. done.
Qed.

Lemma xfer_ready sv x s u n m x' s' u' : io_ready sv x s u → xfer sv x s u n m x' s' u' → io_ready sv x' s' u'.
Proof.
  intros [H1 H2 H3 H4 [U1 U2 U3 U4]] [R X0 S Z W O D F Rd Wr]. split.
  - by eapply file_step_locked.
  - apply (st_ok _ _ _ _ _ S).
  - by eapply file_step_sv.
  - apply (st_file _ _ _ _ _ S).
  - split; try lia. rewrite W, D. intros Hw. destruct (Wr Hw) as [-> _]. destruct (U4 Hw) as [L B].
    rewrite lengthZ_drop by lia. split; [lia|]. by apply Forall_drop.
Qed.

Lemma xfer_trans sv x s u n1 x1 s1 u1 n2 m2 x2 s2 u2 : io_ready sv x s u →
  xfer sv x s u n1 n1 x1 s1 u1 → xfer sv x1 s1 u1 n2 m2 x2 s2 u2 → xfer sv x s u (n1 + n2) (n1 + m2) x2 s2 u2.
Proof.
  intros Hr [R X0 S Z W O D F Rd Wr] [R' X' S' Z' W' O' D' F' Rd' Wr']. destruct (ir_stream _ _ _ _ Hr) as [U1 U2 U3 U4]. split; try lia; try congruence.
  - by eapply file_step_trans.
  - intros E. auto.
  - intros E. destruct (Rd E) as (-> & -> & Hd). destruct (Rd' ltac:(congruence)) as (-> & -> & Hd'). split_and!; [done..|].
    rewrite Hd', Hd, O, <- app_assoc, fbytes_app by lia. done.
  - intros E. destruct (Wr E) as [Hd Hb]. destruct (Wr' ltac:(congruence)) as [Hd' Hb']. split.
    + rewrite Hd', Hd, drop_dropZ by lia. done.
    + intros p Hp. rewrite Hb', Hb, O, Hd by done. repeat case_decide; try lia; try done.
      rewrite lookupZ_drop by lia. do 2 f_equal. lia.
Qed.

Lemma hole_trans sv x s u n1 x1 s1 u1 p : io_ready sv x s u → xfer sv x s u n1 n1 x1 s1 u1 → st_rw u = UIO_WRITE → at_boundary u n1 →
  st_offset u + n1 ≤ p → hole s1 (sv_i x1) p → hole s (sv_i x) p.
Proof.
  intros Hr Hx Hw Hb Hp [Hr1 Hz]. split; [done|]. intros q Hq. rewrite <- (Hz q Hq). destruct (xf_write _ _ _ _ _ _ _ _ _ Hx Hw) as [_ Hbytes].
  unfold FILEMAX, NFILE, SFS_BLOCKSIZE, at_boundary in *. pose proof (so_off _ (ir_stream _ _ _ _ Hr)).
  pose proof (Z.div_mod q 512 ltac:(done)). pose proof (Z.mod_pos_bound q 512 ltac:(done)).
  pose proof (Z.div_mod p 512 ltac:(done)). pose proof (Z.mod_pos_bound p 512 ltac:(done)). rewrite Hq in *.
  assert (0 ≤ p / 512 < 143) by (split; [apply Z.div_pos; lia|apply Z.div_lt_upper_bound; lia]).
  rewrite Hbytes by (unfold SFS_BLOCKSIZE in *; lia). rewrite decide_False; [done|]. destruct Hb as [->|Hb]; [lia|].
  pose proof (Z.div_mod (st_offset u + n1) 512 ltac:(done)). assert ((st_offset u + n1) / 512 ≤ p / 512) by (apply Z.div_le_mono; lia). unfold SFS_BLOCKSIZE in Hb. lia.
Qed.

Lemma io_error_trans sv x s u n1 x1 s1 u1 n m e s' : io_ready sv x s u → 0 ≤ n →
  xfer sv x s u n1 n1 x1 s1 u1 → at_boundary u n1 → io_error s1 (sv_i x1) u1 n m s' e → io_error s (sv_i x) u (n1 + n) (n1 + m) s' e.
Proof.
  intros Hr Hn Hx Hb He. pose proof Hx as [R X0 S Z W O D F Rd Wr]. destruct He as [[-> H]|(-> & Hb' & He)].
  - left. split; [done|]. intros E. by apply F in E.
  - right. split; [done|]. split.
    + unfold at_boundary in *. rewrite Z.add_assoc, <- O. destruct Hb' as [->|Hb']; [|by right].
      rewrite !Z.add_0_r. destruct Hb as [->|Hb]; [by left|right; by rewrite O].
    + rewrite Z.add_assoc, <- O. destruct He as [(-> & Hw & Hf & Hh)|He]; [left|by right]. rewrite W in Hw. split_and!; [done..|].
      eapply hole_trans; try done. lia.
Qed.

Definition io_done sv x s u n (io : iostate) : Prop := ∃ x', xfer sv x s u n n x' (io_fs io) (io_uio io).
Definition io_failed sv x s u n (e : Z) (io : iostate) : Prop :=
  ∃ n' m x', xfer sv x s u n' m x' (io_fs io) (io_uio io) ∧ n' ≤ n ∧ (n' = n → n = 0) ∧ io_error s (sv_i x) u n' m (io_fs io) e.

Lemma io_done_trans sv x s u n1 x1 s1 u1 n2 io : io_ready sv x s u → xfer sv x s u n1 n1 x1 s1 u1 →
  io_done sv x1 s1 u1 n2 io → io_done sv x s u (n1 + n2) io.
Proof. intros Hr H1 [x2 H2]. exists x2. by eapply xfer_trans. Qed.

Lemma io_failed_trans sv x s u n1 x1 s1 u1 n2 e io : io_ready sv x s u → xfer sv x s u n1 n1 x1 s1 u1 → at_boundary u n1 → 0 < n2 →
  io_failed sv x1 s1 u1 n2 e io → io_failed sv x s u (n1 + n2) e io.
Proof.
  intros Hr H1 Hb Hpos (n' & m & x2 & H2 & Hn & Hlt & He). exists (n1 + n'), (n1 + m), x2.
  split_and!; [by eapply xfer_trans|lia|lia|]. eapply io_error_trans; try done. pose proof (xf_range _ _ _ _ _ _ _ _ _ H2). lia.
Qed.

(** ** Moving bytes *)

Lemma advance_0 buf u : advance 0 buf (st_fate u) u = u.
Proof. destruct u as [rw o r d f]. unfold advance. simpl. rewrite Z.add_0_r, Z.sub_0_r. destruct rw; [by rewrite app_nil_r|done]. Qed.

Lemma advance_advance j k b1 b2 f1 f2 u : 0 ≤ j → 0 ≤ k → lengthZ b1 = j →
  advance k b2 f2 (advance j b1 f1 u) = advance (j + k) (b1 ++ b2) f2 u.
Proof.
  intros Hj Hk Hb. destruct u as [rw o r d f]. unfold advance. simpl. f_equal; try lia. destruct rw.
  - rewrite <- app_assoc. do 2 f_equal. unfold lengthZ in Hb. rewrite (take_ge b1) by lia.
    rewrite take_app_ge by lia. do 2 f_equal. lia.
  - by rewrite drop_dropZ by done.
Qed.

Definition moved_bytes (buf : list Z) (n : Z) (u : stream) (u' : stream) : Prop :=
  ∃ fate, (st_fate u = [] → fate = []) ∧ u' = advance n buf fate u.
Definition move_fault (buf : list Z) (n : Z) (u : stream) (e : Z) (u' : stream) : Prop :=
  e = EFAULT ∧ st_fate u ≠ [] ∧ ∃ j fate, 0 ≤ j < n ∧ u' = advance j buf fate u.

Lemma stream_move_spec X buf n u : 0 ≤ n ≤ st_resid u →
  wpx X (stream_move buf n)
    (λ r u', moved_bytes buf n u u' ∧
       r = match st_rw u with UIO_READ => buf | UIO_WRITE => take (Z.to_nat n) (st_data u) ++ drop (Z.to_nat n) buf end)
    (move_fault buf n u) u.
Proof.
  intros Hn. unfold wpx, stream_move. rewrite Z.min_l by lia. destruct (Z.leb_spec n 0).
  - assert (n = 0) as -> by lia. split; [exists (st_fate u); by rewrite advance_0|]. by destruct (st_rw u).
  - destruct (st_fate u) as [|[j|] fate] eqn:Ef.
    + split; [|done]. by exists [].
    + split_and!; [done|by rewrite Ef|]. eexists _, fate. split; [|done]. lia.
    + split; [|done]. exists fate. split; [by rewrite Ef|done].
Qed.

Lemma advance_zeros j k (a b c : nat) f1 f2 u : 0 ≤ j → 0 ≤ k → st_rw u = UIO_READ → j ≤ Z.of_nat a → k ≤ Z.of_nat b → j + k ≤ Z.of_nat c →
  advance k (replicate b 0) f2 (advance j (replicate a 0) f1 u) = advance (j + k) (replicate c 0) f2 u.
Proof.
  intros Hj Hk Hrw Ha Hb Hc. unfold advance. cbn [st_rw st_offset st_resid st_data]. rewrite Hrw, !take_replicate, <- app_assoc, <- replicate_add.
  f_equal; [lia..|]. do 2 f_equal. lia.
Qed.

Lemma stream_zeros_loop_spec X fuel n u : 0 ≤ n ≤ st_resid u → (Z.to_nat n < fuel)%nat → st_rw u = UIO_READ →
  wpx X (stream_zeros_loop fuel n) (λ _, moved_bytes (replicate (Z.to_nat n) 0) n u) (move_fault (replicate (Z.to_nat n) 0) n u) u.
Proof.
  revert n u. induction fuel as [|fuel IH]; intros n u Hn Hfuel Hrw; [lia|]. cbn [stream_zeros_loop].
  destruct (Z.ltb_spec 0 n); wp_steps.
  2: { assert (n = 0) as -> by lia. exists (st_fate u). by rewrite advance_0. }
  cbv zeta. set (amt := if n <? 16 then n else 16).
  assert (0 < amt ≤ n ∧ amt ≤ 16) as Hamt by (unfold amt; destruct (Z.ltb_spec n 16); lia).
  wp_steps. eapply wp_conseq; [apply stream_move_spec; lia| |].
  - intros r u1 [(fate & Hf & ->) _].
    eapply wp_conseq; [apply IH; [cbn [advance st_resid]; lia|lia|done]| |].
    + intros _ u2 (f2 & Hf2 & ->). exists f2. split; [intros E; apply Hf2; simpl; auto|].
      rewrite (advance_zeros _ _ _ _ (Z.to_nat n)) by (done || lia). f_equal. lia.
    + intros e u2 (-> & Hf2 & j & f2 & Hj & ->). split_and!; [done|intros E; apply Hf2; simpl; auto|].
      exists (amt + j), f2. split; [lia|]. by rewrite (advance_zeros _ _ _ _ (Z.to_nat n)) by (done || lia).
  - intros e u1 (-> & Hf & j & fate & Hj & ->). split_and!; [done..|]. exists j, fate. split; [lia|].
    unfold advance. rewrite Hrw, !take_replicate. do 3 f_equal. lia.
Qed.

Lemma stream_zeros_spec X u : SFS_BLOCKSIZE ≤ st_resid u → st_rw u = UIO_READ →
  wpx X (stream_zeros SFS_BLOCKSIZE) (λ _, moved_bytes zero_data SFS_BLOCKSIZE u) (move_fault zero_data SFS_BLOCKSIZE u) u.
Proof.
  intros Hr Hrw. unfold stream_zeros. wp_steps. apply wp_kassert; [unfold is_write; by rewrite Hrw|].
  eapply wp_conseq; [apply stream_zeros_loop_spec; [unfold SFS_BLOCKSIZE in *; lia|lia|done]|done|done].
Qed.

(** Between a block of the file and a stream to be read. *)
Lemma xfer_read sv x s u k skip n m fate : io_ready sv x s u → st_rw u = UIO_READ → 0 ≤ k < NFILE →
  st_offset u = k * SFS_BLOCKSIZE + skip → 0 ≤ skip → 0 ≤ n ≤ st_resid u → skip + n ≤ SFS_BLOCKSIZE → 0 ≤ m ≤ n →
  (st_fate u = [] → fate = []) →
  xfer sv x s u n m x s (advance n (drop (Z.to_nat skip) (fdata s (sv_i x) k)) fate u).
Proof.
  intros [H1 H2 H3 H4 [U1 U2 U3 U4]] Hrw Hk Ho Hs Hn Hle Hm Hf.
  split; cbn [advance st_rw st_offset st_resid st_fate st_data]; try done; try lia; rewrite ?Hrw; try done.
  - right. unfold FILEMAX, SFS_BLOCKSIZE in *. lia.
  - by apply file_step_refl.
  - intros _. split_and!; [done..|]. rewrite Ho, fbytes_block by (done || lia). done.
Qed.

(** A write that has not reached the disk. *)
Lemma xfer_unwritten sv x s u n buf fate x' s' : st_rw u = UIO_WRITE → 0 ≤ n ≤ st_resid u → 0 ≤ st_offset u →
  (st_fate u = [] → fate = []) → file_step sv x x' s s' → same_data s (sv_i x) s' (sv_i x') →
  xfer sv x s u n 0 x' s' (advance n buf fate u).
Proof.
  intros Hrw Hn Ho Hf Hstep [Hsz Hdata].
  split; cbn [advance st_rw st_offset st_resid st_fate st_data]; try done; try lia; rewrite ?Hrw; try done.
  intros _. split; [done|]. intros p Hp. rewrite decide_False by lia. unfold fbyte. rewrite Hdata; [done|].
  unfold FILEMAX, SFS_BLOCKSIZE in *. split; [apply Z.div_pos; lia|apply Z.div_lt_upper_bound; lia].
Qed.

(** A write of a block that has. *)
Lemma xfer_written sv x s u k b s1 skip n data buf fate : io_ready sv x s u → st_rw u = UIO_WRITE →
  0 ≤ k < NFILE → bmapped sv x s k b s1 →
  st_offset u = k * SFS_BLOCKSIZE + skip → 0 ≤ skip → 0 ≤ n ≤ st_resid u → skip + n ≤ SFS_BLOCKSIZE →
  (st_fate u = [] → fate = []) → is_block data →
  (∀ j, 0 ≤ j < SFS_BLOCKSIZE → default 0 data.[j] =
     if decide (skip ≤ j < skip + n) then default 0 (st_data u).[j - skip] else default 0 (fdata s (sv_i x) k).[j]) →
  ∃ x', xfer sv x s u n n x' (set_device (write_sector b data (sfs_device s1)) s1) (advance n buf fate u).
Proof.
  intros Hr Hrw Hk (x' & Hstep & [Hsz Hdata] & -> & Hb) Ho Hs Hn Hle Hf Hblk Hj.
  destruct (block_write sv x' s1 k data) as [Hstep' Hdata']; try done.
  { apply (st_ok _ _ _ _ _ Hstep). } { by eapply file_step_sv. } { apply (st_file _ _ _ _ _ Hstep). }
  exists x'. split; cbn [advance st_rw st_offset st_resid st_fate st_data]; try done; try lia; rewrite ?Hrw; try done.
  { right. unfold FILEMAX, SFS_BLOCKSIZE in *. lia. }
  { by eapply file_step_trans. }
  intros _. split; [done|]. intros p Hp. unfold FILEMAX, SFS_BLOCKSIZE, fbyte in *.
  assert (0 ≤ p / 512 < NFILE) as Hp' by (split; [apply Z.div_pos; lia|apply Z.div_lt_upper_bound; lia]).
  unfold SFS_BLOCKSIZE. rewrite Hdata', Hdata by done.
  pose proof (Z.div_mod p 512 ltac:(lia)). pose proof (Z.mod_pos_bound p 512 ltac:(lia)).
  destruct (decide (p / 512 = k)) as [E|E].
  - rewrite Hj by done. rewrite E. repeat case_decide; try lia. do 2 f_equal. lia.
  - rewrite decide_False; [done|]. lia.
Qed.

(** ** One block *)

Lemma wp_fs {A} X (m : SM A) Q E s u :
  wpx X m (λ a s', Q a (mkIO s' u)) (λ e s', E e (mkIO s' u)) s → wpx X (fs m) Q E (mkIO s u).
Proof. intros H. unfold fs. by apply wp_lift. Qed.

Lemma wp_uio_op {A} X (m : M stream A) Q E s u :
  wpx X m (λ a u', Q a (mkIO s u')) (λ e u', E e (mkIO s u')) u → wpx X (uio_op m) Q E (mkIO s u).
Proof. intros H. unfold uio_op. by apply wp_lift. Qed.

Section Block.
Context (X : Prop) (sv : Z) (x : sfs_vnode) (s : sfs) (u : stream).
Context (Hr : io_ready sv x s u).

Lemma fileblock_eq : u32 (st_offset u / SFS_BLOCKSIZE) = st_offset u / SFS_BLOCKSIZE ∨ st_resid u = 0 ∧ st_offset u = 2 ^ 41.
Proof.
  destruct (ir_stream _ _ _ _ Hr) as [U1 U2 U3 _]. unfold SFS_BLOCKSIZE. destruct (decide (st_offset u < 2 ^ 41)).
  - left. apply u32_small. split; [apply Z.div_pos; lia|apply Z.div_lt_upper_bound; lia].
  - right. lia.
Qed.

Lemma absent_hole k : st_offset u / SFS_BLOCKSIZE = k → k < NFILE → fdata s (sv_i x) k = zero_data → hole s (sv_i x) (st_offset u + 0).
Proof.
  intros Hk Hlt Hz. rewrite Z.add_0_r. pose proof (so_off _ (ir_stream _ _ _ _ Hr)). split.
  - unfold FILEMAX, SFS_BLOCKSIZE in *. pose proof (Z.div_mod (st_offset u) 512 ltac:(done)). pose proof (Z.mod_pos_bound (st_offset u) 512 ltac:(done)). lia.
  - intros q Hq. unfold fbyte. rewrite Hq, Hk, Hz. unfold zero_data. rewrite lookupZ_replicate; [done|].
    pose proof (Z.mod_pos_bound q 512). unfold SFS_BLOCKSIZE. lia.
Qed.

Lemma block_failed n k e s' : FILEMAX = NFILE * SFS_BLOCKSIZE → st_offset u / SFS_BLOCKSIZE = k → 0 ≤ n →
  st_rw u = UIO_WRITE ∧ bmap_failed sv x s k e s' ∧ k < NFILE ∨ (e = EFBIG ∧ s' = s ∧ NFILE ≤ k) →
  io_failed sv x s u n e (mkIO s' u).
Proof.
  intros HF Hk Hn [(Hw & (-> & Hfull & Hz & x' & Hstep & Hdata) & Hlt)|(-> & -> & Hbig)].
  - exists 0, 0, x'. split_and!; [|lia|done|right; split_and!; [done|by left|left; split_and!; [done..|by apply (absent_hole k)]]]. cbn [io_fs io_uio].
    rewrite <- (advance_0 [] u) at 2. destruct (ir_stream _ _ _ _ Hr). apply xfer_unwritten; try done; lia.
  - exists 0, 0, x. split_and!; [by apply xfer_refl|lia|done|]. right. split_and!; [done|by left|]. right. split; [done|]. unfold SFS_BLOCKSIZE in *.
    pose proof (Z.div_mod (st_offset u) 512 ltac:(lia)). pose proof (Z.mod_pos_bound (st_offset u) 512 ltac:(lia)). lia.
Qed.
End Block.

Lemma is_block_take_drop u n old skip : is_block old → 0 ≤ skip → 0 ≤ n → skip + n ≤ SFS_BLOCKSIZE → n ≤ lengthZ (st_data u) →
  Forall is_byte (st_data u) →
  let data := take (Z.to_nat skip) old ++ take (Z.to_nat n) (st_data u) ++ drop (Z.to_nat n) (drop (Z.to_nat skip) old) in
  is_block data ∧ ∀ j, 0 ≤ j < SFS_BLOCKSIZE → default 0 data.[j] =
     if decide (skip ≤ j < skip + n) then default 0 (st_data u).[j - skip] else default 0 old.[j].
Proof.
  intros [Hl Hb] Hs Hn Hle Hd Hbu data.
  assert (lengthZ (take (Z.to_nat skip) old) = skip) as L1 by (rewrite lengthZ_take by lia; lia).
  assert (lengthZ (take (Z.to_nat n) (st_data u)) = n) as L2 by (rewrite lengthZ_take by lia; lia).
  split.
  - split.
    + unfold data. rewrite drop_dropZ, !lengthZ_app, L1, L2, lengthZ_drop by lia. lia.
    + unfold data. rewrite !Forall_app. split_and!; auto using Forall_take, Forall_drop.
  - intros j Hj. unfold data. destruct (decide (j < skip)).
    + rewrite lookupZ_app_l, lookupZ_take_lt by lia. rewrite decide_False by lia. done.
    + rewrite lookupZ_app_r, L1 by lia. destruct (decide (j < skip + n)).
      * rewrite lookupZ_app_l, lookupZ_take_lt, decide_True by lia. done.
      * rewrite lookupZ_app_r, L2, drop_dropZ, lookupZ_drop, decide_False by lia. do 2 f_equal. lia.
Qed.

Lemma sfs_partialio_spec X sv x s u len : io_ready sv x s u →
  let skip := st_offset u mod SFS_BLOCKSIZE in
  0 ≤ len ≤ st_resid u → st_offset u < 2 ^ 41 → skip + len ≤ SFS_BLOCKSIZE →
  wpx X (sfs_partialio sv skip len) (λ _, io_done sv x s u len) (io_failed sv x s u len) (mkIO s u).
Proof.
  intros Hr skip Hlen Hoff Hle. pose proof Hr as [H1 H2 H3 H4 [U1 U2 U3 U4]]. unfold sfs_partialio. wp_steps.
  cbn [io_uio]. cbv zeta. apply wp_kassert; [lia|].
  destruct (fileblock_eq sv x s u Hr) as [->|]; [|lia].
  set (k := st_offset u / SFS_BLOCKSIZE).
  assert (st_offset u = k * SFS_BLOCKSIZE + skip ∧ 0 ≤ skip < SFS_BLOCKSIZE ∧ 0 ≤ k) as (Ho & Hskip & Hk).
  { unfold k, skip, SFS_BLOCKSIZE. pose proof (Z.div_mod (st_offset u) 512). pose proof (Z.mod_pos_bound (st_offset u) 512).
    pose proof (Z.div_pos (st_offset u) 512). lia. }
  unfold is_write. destruct (st_rw u) eqn:Erw; wp_steps; apply wp_fs.
  - eapply wp_conseq; [by apply sfs_bmap_lookup| |].
    2: { intros e s' He. eapply block_failed; [done|done|done|lia|by right]. }
    intros b s' (-> & -> & Hk2). cbv beta. wp_steps.
    apply (wp_conseq _ (λ r io, r = fdata s (sv_i x) k ∧ io = mkIO s u) _ (λ _ _, False)); [|intros r io [-> ->]|done].
    + unfold fdata. destruct (bref_cases x s H4 k) as [E|[Hb _]]; [lia| |].
      * rewrite E. simpl. by wp_steps.
      * rewrite (proj2 (Z.eqb_neq _ 0)) by lia. apply wp_fs. pose proof (ok_size _ H2).
        eapply wp_ok; [apply sfs_rblock_eq; [done|apply H2|lia]|]. done.
    + wp_steps. apply wp_uio_op. eapply wp_conseq; [apply stream_move_spec; lia| |].
      * intros r u' [(fate & Hf & ->) _]. wp_steps. exists x. eapply xfer_read; try done; lia.
      * intros e u' (-> & Hf & j & fate & Hj & ->). exists j, j, x. split_and!; [|lia|lia|by left].
        eapply xfer_read; try done; lia.
  - eapply wp_conseq; [by apply sfs_bmap_alloc| |].
    2: { intros e s' He. eapply block_failed; [done|done|done|lia|]. destruct He as [[? ?]|?]; [by left|by right]. }
    intros b s1 [Hmap Hk2]. cbv beta. wp_steps.
    pose proof Hmap as (x1 & Hstep & Hdata & Hb & Hb0). rewrite (proj2 (Z.eqb_neq b 0)) by done. apply wp_fs.
    pose proof (st_ok _ _ _ _ _ Hstep) as Hok1. pose proof (st_file _ _ _ _ _ Hstep) as Hf1.
    assert (biglocked s1) as Hl1 by (by eapply file_step_locked).
    assert (0 ≤ b < d_blocks (sfs_device s1)) as Hbr.
    { destruct (bref_cases x1 s1 Hf1 k) as [|[? _]]; [lia|congruence|]. pose proof (ok_size _ Hok1). lia. }
    eapply wp_ok; [apply sfs_rblock_eq; [done|apply Hok1|done]|].
    assert (sect s1 b = fdata s (sv_i x) k) as ->.
    { destruct Hdata as [_ <-]; [|lia]. unfold fdata. rewrite <- Hb. by rewrite (proj2 (Z.eqb_neq b 0)). }
    destruct (U4 eq_refl) as [Hdl Hdb].
    destruct (is_block_take_drop u len (fdata s (sv_i x) k) skip) as [Hblk Hbytes]; try lia; try done.
    { apply fdata_block; try done; lia. }
    wp_steps. apply wp_uio_op. eapply wp_conseq; [apply stream_move_spec; lia| |].
    * intros r u' [(fate & Hf & ->) ->]. rewrite Erw. apply wp_fs.
      eapply wp_ok; [apply sfs_wblock_eq; [done|apply Hok1|done|apply Hblk]|].
      eapply (xfer_written sv x s u k); try done; lia.
    * intros e u' (-> & Hf & j & fate & Hj & ->). exists j, 0, x1. split_and!; [|lia|lia|by left].
      eapply xfer_unwritten; try done; lia.
Qed.

Lemma sfs_rwblock_spec X b s u : biglocked s → card_ok (sfs_device s) → 0 ≤ b < d_blocks (sfs_device s) →
  st_offset u = b * SFS_BLOCKSIZE → st_resid u = SFS_BLOCKSIZE → (st_rw u = UIO_WRITE → SFS_BLOCKSIZE ≤ lengthZ (st_data u)) →
  wpx X sfs_rwblock
    (λ _ io, io_uio io = advance SFS_BLOCKSIZE (sect s b) (tail (st_fate u)) u ∧
       io_fs io = match st_rw u with
                  | UIO_READ => s
                  | UIO_WRITE => set_device (write_sector b (take 512 (st_data u)) (sfs_device s)) s
                  end)
    (λ e io, e = EFAULT ∧ st_fate u ≠ [] ∧ io_fs io = s ∧
       ∃ j buf fate, 0 ≤ j < SFS_BLOCKSIZE ∧ (st_rw u = UIO_READ → buf = sect s b) ∧ io_uio io = advance j buf fate u)
    (mkIO s u).
Proof.
  intros Hl Hc Hb Ho Hres Hd. unfold sfs_rwblock. wp_steps. apply wp_fs. unfold vfs_biglock_do_i_hold. wp_steps.
  apply wp_kassert; [unfold biglocked in Hl; lia|]. unfold dev. apply wp_lift. cbn [io_fs io_uio].
  eapply wp_conseq; [apply (rwblock_spec X b (sect s b)); try done; by apply sect_lookup| |].
  - intros [] d [H1 H2]. cbn [io_fs io_uio]. rewrite H1, H2. cbn [dcard duio]. split; [done|].
    destruct (st_rw u); [apply set_device_id|done].
  - intros e d (-> & H1 & H2 & j & buf & Hj & Hbuf & Hu). cbn [io_fs io_uio]. rewrite H1. cbn [dcard duio] in *.
    split_and!; [done..|apply set_device_id|]. by exists j, buf, (tail (st_fate u)).
Qed.

(** The offset and the count of the caller are put back after the transfer. *)
Lemma restore_stream j buf fate diskoff diskres u :
  let w := advance j buf fate (set_resid diskres (set_offset diskoff u)) in
  set_resid (st_resid w - diskres + st_resid u) (set_offset (st_offset w - diskoff + st_offset u) w) = advance j buf fate u.
Proof. destruct u as [rw o r d f]. unfold advance, set_resid, set_offset. simpl. f_equal; lia. Qed.

Lemma whole_block u old : is_block old → SFS_BLOCKSIZE ≤ lengthZ (st_data u) → Forall is_byte (st_data u) →
  let data := take 512 (st_data u) in
  is_block data ∧ ∀ j, 0 ≤ j < SFS_BLOCKSIZE → default 0 data.[j] =
     if decide (0 ≤ j < 0 + SFS_BLOCKSIZE) then default 0 (st_data u).[j - 0] else default 0 old.[j].
Proof.
  intros Hold Hd Hb data. change (take 512 (st_data u)) with (take (Z.to_nat 512) (st_data u)) in data. unfold SFS_BLOCKSIZE in *. split.
  - split; [unfold data; rewrite lengthZ_take by lia; unfold SFS_BLOCKSIZE; lia|by apply Forall_take].
  - intros j Hj. rewrite decide_True by lia. unfold data. rewrite lookupZ_take_lt by lia. by rewrite Z.sub_0_r.
Qed.

Section Blockio.
Context (X : Prop) (sv : Z) (x : sfs_vnode) (s : sfs) (u : stream) (k : Z).
Context (Hr : io_ready sv x s u) (Hres : SFS_BLOCKSIZE ≤ st_resid u) (Ho : st_offset u = k * SFS_BLOCKSIZE).

(** The device transfer of sfs_blockio, on the block the map has given. *)
Lemma blockio_transfer b s1 : 0 ≤ k < NFILE → b ≠ 0 →
  (st_rw u = UIO_READ → s1 = s ∧ b = bref s (sv_i x) k) → (st_rw u = UIO_WRITE → bmapped sv x s k b s1) →
  wpx X (let saveoff := st_offset u in
         let diskoff := u32 (b * SFS_BLOCKSIZE) in
         kassert (SFS_BLOCKSIZE <=? st_resid u) ;;
         let saveres := st_resid u in
         let diskres := SFS_BLOCKSIZE in
         uio_op (modify (λ u, set_resid diskres (set_offset diskoff u))) ;;
         r <- attempt sfs_rwblock ;;
         uio_op (modify (λ u, set_resid (st_resid u - diskres + saveres)
                               (set_offset (st_offset u - diskoff + saveoff) u))) ;;
         match r with inl _ => ret tt | inr e => fail e end)
    (λ _, io_done sv x s u SFS_BLOCKSIZE) (io_failed sv x s u SFS_BLOCKSIZE) (mkIO s1 u).
Proof.
  intros Hk Hb0 Hread Hwrite. pose proof Hr as [H1 H2 H3 H4 [U1 U2 U3 U4]].
  assert (∃ x1, file_step sv x x1 s s1 ∧ b = bref s1 (sv_i x1) k ∧ same_data s (sv_i x) s1 (sv_i x1)) as (x1 & Hstep & Hb & Hdata).
  { destruct (st_rw u).
    - destruct Hread as [-> ->]; [done|]. exists x. split_and!; [by apply file_step_refl|done|apply same_data_refl].
    - destruct Hwrite as (x1 & ? & ? & -> & _); [done|]. by exists x1. }
  pose proof (st_ok _ _ _ _ _ Hstep) as Hok1. pose proof (st_file _ _ _ _ _ Hstep) as Hf1.
  assert (0 < b < nblk s1) as Hbr by (destruct (bref_cases x1 s1 Hf1 k Hk) as [|[? _]]; [congruence|lia]).
  pose proof (ok_size _ Hok1). pose proof (ok_small _ Hok1).
  cbv zeta. wp_steps. apply wp_kassert; [lia|]. wp_steps. apply wp_uio_op. wp_steps.
  rewrite u32_small by (unfold SFS_BLOCKSIZE; lia). set (u2 := set_resid _ _).
  eapply wp_conseq; [apply (sfs_rwblock_spec X b s1 u2)| |].
  { by eapply file_step_locked. } { apply Hok1. } { lia. } { done. } { done. }
  { intros Hw. change (st_data u2) with (st_data u). destruct (U4 Hw). lia. }
  - intros [] [s' u'] [Eu Es]. cbn [io_fs io_uio] in Eu, Es. change (st_rw u2) with (st_rw u) in Es. rewrite Eu, Es.
    wp_steps. apply wp_uio_op. wp_steps.
    rewrite (restore_stream _ _ _ (b * SFS_BLOCKSIZE) SFS_BLOCKSIZE u). unfold io_done. cbn [io_fs io_uio].
    destruct (st_rw u) eqn:Erw.
    + destruct Hread as [-> Hb']; [done|]. exists x.
      assert (sect s b = drop (Z.to_nat 0) (fdata s (sv_i x) k)) as ->
        by (unfold fdata; rewrite <- Hb'; by rewrite (proj2 (Z.eqb_neq b 0))).
      eapply xfer_read; try done; try lia; try (unfold SFS_BLOCKSIZE in *; lia). change (st_fate u2) with (st_fate u). by intros ->.
    + destruct (U4 eq_refl) as [Hdl Hdb].
      destruct (whole_block u (fdata s (sv_i x) k)) as [Hblk Hbytes]; [apply fdata_block; done|lia|done|].
      eapply (xfer_written sv x s u k b s1 0); try done; auto; try lia. change (st_fate u2) with (st_fate u). by intros ->.
  - intros e [s' u'] (-> & Hf & Es & j & buf & fate & Hj & Hbuf & Eu). cbn [io_fs io_uio] in Eu, Es. rewrite Eu, Es.
    wp_steps. apply wp_uio_op. wp_steps.
    rewrite (restore_stream _ _ _ (b * SFS_BLOCKSIZE) SFS_BLOCKSIZE u). unfold io_failed. cbn [io_fs io_uio].
    destruct (st_rw u) eqn:Erw.
    + destruct Hread as [-> Hb']; [done|]. exists j, j, x. split_and!; [|lia|lia|by left]. rewrite Hbuf by done.
      assert (sect s b = drop (Z.to_nat 0) (fdata s (sv_i x) k)) as ->
        by (unfold fdata; rewrite <- Hb'; by rewrite (proj2 (Z.eqb_neq b 0))).
      eapply xfer_read; try done; lia.
    + exists j, 0, x1. split_and!; [|lia|lia|by left]. eapply xfer_unwritten; try done; lia.
Qed.

Lemma sfs_blockio_spec : wpx X (sfs_blockio sv) (λ _, io_done sv x s u SFS_BLOCKSIZE) (io_failed sv x s u SFS_BLOCKSIZE) (mkIO s u).
Proof.
  pose proof Hr as [H1 H2 H3 H4 [U1 U2 U3 U4]]. unfold sfs_blockio. wp_steps. cbn [io_uio]. cbv zeta.
  destruct (fileblock_eq sv x s u Hr) as [->|]; [|unfold SFS_BLOCKSIZE in *; lia].
  assert (st_offset u / SFS_BLOCKSIZE = k) as Ek by (rewrite Ho; apply Z.div_mul; done). rewrite Ek.
  assert (0 ≤ k) as Hk by (unfold SFS_BLOCKSIZE in *; lia).
  destruct (st_rw u) eqn:Erw; unfold is_write at 1; rewrite Erw; wp_steps; apply wp_fs.
  - eapply wp_conseq; [by apply sfs_bmap_lookup| |].
    2: { intros e s' He. eapply block_failed; [done|done|exact Ek|unfold SFS_BLOCKSIZE; lia|by right]. }
    intros b s' (-> & -> & Hk2). cbv beta. destruct (Z.eqb_spec (bref s (sv_i x) k) 0) as [E|E].
    + wp_steps. apply wp_kassert; [unfold is_write; by rewrite Erw|]. apply wp_uio_op.
      assert (zero_data = drop (Z.to_nat 0) (fdata s (sv_i x) k)) as Hz by (unfold fdata; by rewrite E).
      eapply wp_conseq; [apply stream_zeros_spec; [done|done]| |].
      * intros _ u' (fate & Hf & ->). exists x. cbn [io_fs io_uio]. rewrite Hz. eapply xfer_read; try done; unfold SFS_BLOCKSIZE in *; lia.
      * intros e u' (-> & Hf & j & fate & Hj & ->). exists j, j, x. split_and!; [|lia|lia|by left]. cbn [io_fs io_uio]. rewrite Hz.
        eapply xfer_read; try done; lia.
    + apply blockio_transfer; try done. rewrite Erw. done.
  - eapply wp_conseq; [by apply sfs_bmap_alloc| |].
    2: { intros e s' He. eapply block_failed; [done|done|exact Ek|unfold SFS_BLOCKSIZE; lia|]. destruct He as [[? ?]|?]; [by left|by right]. }
    intros b s1 [Hmap Hk2]. cbv beta. assert (b ≠ 0) as Hb0 by (by destruct Hmap as (? & _ & _ & _ & ?)).
    rewrite (proj2 (Z.eqb_neq b 0)) by done. apply blockio_transfer; try done. by rewrite Erw.
Qed.
End Blockio.

(** ** sfs_io *)

(** The whole blocks and the last piece, once the offset is at a block boundary. *)
Lemma io_aligned X sv x s u : io_ready sv x s u → st_offset u mod SFS_BLOCKSIZE = 0 → 0 < st_resid u →
  wpx X (for_ 0 (st_resid u / SFS_BLOCKSIZE) (λ _, sfs_blockio sv) ;;
         u <- gets io_uio ;;
         kassert (st_resid u <? SFS_BLOCKSIZE) ;;
         if 0 <? st_resid u then sfs_partialio sv 0 (st_resid u) else ret tt)
    (λ _, io_done sv x s u (st_resid u)) (io_failed sv x s u (st_resid u)) (mkIO s u).
Proof.
  intros Hr Ho Hres. pose proof (ir_stream _ _ _ _ Hr) as [U1 U2 U3 U4].
  pose proof (Z.div_mod (st_offset u) SFS_BLOCKSIZE ltac:(done)) as Hdiv. rewrite Ho in Hdiv.
  pose proof (Z.div_mod (st_resid u) SFS_BLOCKSIZE ltac:(done)) as Hrd.
  pose proof (Z.mod_pos_bound (st_resid u) SFS_BLOCKSIZE ltac:(done)) as Hrm.
  set (nb := st_resid u / SFS_BLOCKSIZE) in *. assert (0 ≤ nb) by (apply Z.div_pos; [lia|done]).
  wp_steps. apply (wp_for (λ i io, io_done sv x s u (i * SFS_BLOCKSIZE) io)); [lia|by exists x; apply xfer_refl| |].
  - intros i [s1 u1] Hi [x1 H1]. cbn [io_fs io_uio] in H1. pose proof (xfer_ready _ _ _ _ _ _ _ _ _ Hr H1) as Hr1.
    pose proof H1 as [R X0 S Z W O D F Rd Wr]. unfold SFS_BLOCKSIZE in *.
    eapply wp_conseq; [apply (sfs_blockio_spec X sv x1 s1 u1 (st_offset u / 512 + i)); [done|unfold SFS_BLOCKSIZE; lia..]| |].
    + intros [] io Hd. replace ((i + 1) * 512) with (i * 512 + 512) by lia. by eapply io_done_trans.
    + intros e io Hf. assert (at_boundary u (i * 512)) as Hb.
      { right. rewrite Hdiv, Z.add_0_r, Z.mul_comm, <- Z.mul_add_distr_r. by apply Z.mod_mul. }
      destruct (io_failed_trans _ _ _ _ _ _ _ _ SFS_BLOCKSIZE _ _ Hr H1 Hb ltac:(done) Hf) as (n' & m & x2 & ? & ? & ? & ?).
      exists n', m, x2. unfold SFS_BLOCKSIZE in *. split_and!; [done|lia|lia|done].
  - intros [s1 u1] [x1 H1]. cbn [io_fs io_uio] in H1. pose proof (xfer_ready _ _ _ _ _ _ _ _ _ Hr H1) as Hr1.
    pose proof H1 as [R X0 S Z W O D F Rd Wr]. wp_steps. cbn [io_uio]. apply wp_kassert; [unfold SFS_BLOCKSIZE in *; lia|].
    assert (st_resid u = nb * SFS_BLOCKSIZE + st_resid u1) as -> by lia.
    destruct (Z.ltb_spec 0 (st_resid u1)); wp_steps.
    + assert (st_offset u1 mod SFS_BLOCKSIZE = 0) as E0.
      { rewrite O, Hdiv. unfold SFS_BLOCKSIZE in *. rewrite Z.add_0_r, Z.mul_comm, <- Z.mul_add_distr_r. by apply Z.mod_mul. }
      pose proof (sfs_partialio_spec X sv x1 s1 u1 (st_resid u1) Hr1) as Hp. cbv zeta in Hp. rewrite E0 in Hp.
      eapply wp_conseq; [apply Hp; [lia|lia|unfold SFS_BLOCKSIZE in *; lia]| |].
      * intros [] io Hd. by eapply io_done_trans.
      * intros e io Hf. eapply io_failed_trans; [done..| |lia|done]. right. by rewrite <- O.
    + exists x1. cbn [io_fs io_uio]. replace (nb * SFS_BLOCKSIZE + st_resid u1) with (nb * SFS_BLOCKSIZE) by (unfold SFS_BLOCKSIZE in *; lia). done.
Qed.

Lemma sfs_io_blocks_spec X sv x s u : io_ready sv x s u →
  wpx X (sfs_io_blocks sv) (λ _, io_done sv x s u (st_resid u)) (io_failed sv x s u (st_resid u)) (mkIO s u).
Proof.
  intros Hr. pose proof (ir_stream _ _ _ _ Hr) as [U1 U2 U3 U4]. unfold sfs_io_blocks. wp_steps. cbn [io_uio].
  set (blkoff := st_offset u mod SFS_BLOCKSIZE).
  assert (0 ≤ blkoff < SFS_BLOCKSIZE) as Hb by (apply Z.mod_pos_bound; done).
  set (n1 := if blkoff =? 0 then 0 else Z.min (st_resid u) (SFS_BLOCKSIZE - blkoff)).
  apply (wp_conseq _ (λ _, io_done sv x s u n1) _ (io_failed sv x s u n1)).
  - unfold n1. destruct (Z.eqb_spec blkoff 0) as [E|E]; simpl; wp_steps; [by exists x; apply xfer_refl|].
    assert ((if st_resid u <? SFS_BLOCKSIZE - blkoff then st_resid u else SFS_BLOCKSIZE - blkoff) =
      Z.min (st_resid u) (SFS_BLOCKSIZE - blkoff)) as -> by (destruct (Z.ltb_spec (st_resid u) (SFS_BLOCKSIZE - blkoff)); lia).
    apply sfs_partialio_spec; [done|lia| |fold blkoff; lia].
    destruct (decide (st_offset u = 2 ^ 41)) as [E2|]; [|lia]. unfold blkoff in E. by rewrite E2 in E.
  - intros [] [s1 u1] [x1 H1]. cbn [io_fs io_uio] in H1. pose proof (xfer_ready _ _ _ _ _ _ _ _ _ Hr H1) as Hr1.
    pose proof H1 as [R X0 S Z W O D F Rd Wr]. wp_steps. cbn [io_uio]. assert (st_resid u = n1 + st_resid u1) as -> by lia.
    destruct (Z.eqb_spec (st_resid u1) 0) as [E|E]; wp_steps.
    + exists x1. cbn [io_fs io_uio]. by rewrite E, Z.add_0_r.
    + assert (st_offset u1 mod SFS_BLOCKSIZE = 0) as Hal.
      { rewrite O. unfold n1 in *. destruct (Z.eqb_spec blkoff 0) as [E0|E0]; [by rewrite Z.add_0_r|].
        rewrite Z.min_r by lia. pose proof (Z.div_mod (st_offset u) SFS_BLOCKSIZE ltac:(done)) as Hdm. fold blkoff in Hdm.
        replace (st_offset u + (SFS_BLOCKSIZE - blkoff)) with ((st_offset u / SFS_BLOCKSIZE + 1) * SFS_BLOCKSIZE)
          by (unfold SFS_BLOCKSIZE in *; lia). by apply Z.mod_mul. }
      apply wp_kassert; [lia|]. cbv zeta. destruct (ir_stream _ _ _ _ Hr1).
      eapply wp_conseq; [apply io_aligned; [done|done|lia]| |].
      * intros [] io Hd. by eapply io_done_trans.
      * intros e io Hf. eapply io_failed_trans; [done..| |lia|done]. right. by rewrite <- O.
  - intros e io (n' & m & x1 & H1 & Hn & Hlt & He). exists n', m, x1. unfold n1 in *. split_and!; [done| | |done].
    + apply H1.
    + destruct (Z.eqb_spec blkoff 0); lia.
Qed.

(** What a read of [n] bytes leaves behind, and a write of [n] bytes of which [m]
    reached the file. *)
Definition delivered (s : sfs) (i : sfs_inode) (u : stream) (n : Z) (u' : stream) : Prop :=
  ∃ fate, (st_fate u = [] → fate = []) ∧
    u' = mkStream UIO_READ (st_offset u + n) (st_resid u - n) (st_data u ++ fbytes s i (st_offset u) n) fate.

Record written (sv : Z) (x : sfs_vnode) (s : sfs) (u : stream) (n m : Z) (x' : sfs_vnode) (s' : sfs) (u' : stream) : Prop := {
  wr_range : 0 ≤ m ≤ n ∧ n ≤ st_resid u;
  wr_max : m = 0 ∨ st_offset u + m ≤ FILEMAX;
  wr_step : file_step sv x x' s s';
  wr_size : sfi_size (sv_i x') =
    if sfi_size (sv_i x) <? st_offset u + n then u32 (st_offset u + n) else sfi_size (sv_i x);
  wr_bytes : ∀ p, 0 ≤ p < FILEMAX → fbyte s' (sv_i x') p =
    if decide (st_offset u ≤ p < st_offset u + m) then default 0 (st_data u).[p - st_offset u] else fbyte s (sv_i x) p;
  wr_stream : ∃ fate, (st_fate u = [] → fate = []) ∧
    u' = mkStream UIO_WRITE (st_offset u + n) (st_resid u - n) (drop (Z.to_nat n) (st_data u)) fate
}.

Lemma resize_step sv x s n : fs_ok s → sv_at s !! sv = Some x → file_ok s (sv_i x) → is_word n →
  let x' := set_dirty true (set_inode (set_size n) x) in
  let s' := set_sv_at <[sv := x']> s in
  file_step sv x x' s s' ∧ ∀ p, fbyte s' (sv_i x') p = fbyte s (sv_i x) p.
Proof.
  intros Hok Hx Hf Hn x' s'. split; [|done]. split; try done.
  - by apply fs_ok_svs.
  - by split_and!; auto.
  - destruct Hf as [[W1 W2 W3 W4 W5 W6 W7 W8] F2 F3 F4]. split; [|done|done|done]. by split.
  - by right.
  - by left.
  - by left.
  - by left.
Qed.

Lemma xfer_written_size sv x s u n m x1 s1 u1 : io_ready sv x s u → st_rw u = UIO_WRITE → xfer sv x s u n m x1 s1 u1 →
  let x' := if sfi_size (sv_i x1) <? st_offset u1 then set_dirty true (set_inode (set_size (u32 (st_offset u1))) x1) else x1 in
  written sv x s u n m x' (set_sv_at <[sv := x']> s1) u1.
Proof.
  intros Hr Hw H1 x'. pose proof (xfer_ready _ _ _ _ _ _ _ _ _ Hr H1) as [_ Hok1 Hsv1 Hf1 _].
  destruct H1 as [R X0 S Z W O D F _ Wr]. destruct (Wr Hw) as [Hd Hb].
  assert (file_step sv x1 x' s1 (set_sv_at <[sv := x']> s1) ∧
    ∀ p, fbyte (set_sv_at <[sv := x']> s1) (sv_i x') p = fbyte s1 (sv_i x1) p) as [Hstep Hb'].
  { unfold x'. destruct (_ <? _); [apply resize_step; [done..|apply u32_range]|].
    split; [|done]. assert (set_sv_at <[sv := x1]> s1 = s1) as ->.
    { unfold set_sv_at. rewrite insert_id by done. by destruct s1. } by apply file_step_refl. }
  split.
  - done.
  - done.
  - by eapply file_step_trans.
  - unfold x'. rewrite O, Z. destruct (sfi_size (sv_i x) <? st_offset u + n); [reflexivity|exact Z].
  - intros p Hp. by rewrite Hb', Hb.
  - exists (st_fate u1). split; [done|]. destruct u1; simpl in *. congruence.
Qed.

Lemma sfs_io_rest_read X sv x s u extra : io_ready sv x s u → st_rw u = UIO_READ →
  wpx X (sfs_io_rest sv extra)
    (λ _ io, io_fs io = s ∧ ∃ u', delivered s (sv_i x) u (st_resid u) u' ∧ io_uio io = set_resid (st_resid u' + extra) u')
    (λ e io, io_fs io = s ∧ ∃ n u', 0 ≤ n ≤ st_resid u ∧ (n = st_resid u → n = 0) ∧ delivered s (sv_i x) u n u' ∧ io_uio io = set_resid (st_resid u' + extra) u' ∧
       ((e = EFAULT ∧ st_fate u ≠ []) ∨ (e = EFBIG ∧ FILEMAX ≤ st_offset u + n)))
    (mkIO s u).
Proof.
  intros Hr Hrd. unfold sfs_io_rest. wp_steps.
  assert (∀ n m x1 s1 u1, xfer sv x s u n m x1 s1 u1 → s1 = s ∧ is_write u1 = false ∧ delivered s (sv_i x) u n u1) as Hres.
  { intros n m x1 s1 u1 [R X0 S Z W O D F Rd _]. destruct (Rd Hrd) as (-> & -> & Hd). split_and!; [done|unfold is_write; by rewrite W, Hrd|].
    exists (st_fate u1). split; [done|]. destruct u1; simpl in *. congruence. }
  eapply wp_conseq; [by apply sfs_io_blocks_spec| |].
  - intros [] [s1 u1] [x1 H1]. cbn [io_fs io_uio] in H1. destruct (Hres _ _ _ _ _ H1) as (-> & Hw & Hd). wp_steps. cbn [io_uio].
    apply wp_fs. eapply wp_read_sv; [apply Hr|]. rewrite Hw. simpl. wp_steps. apply wp_uio_op. wp_steps.
    cbn [io_fs io_uio]. split; [done|by exists u1].
  - intros e [s1 u1] (n & m & x1 & H1 & Hn & Hlt & He). cbn [io_fs io_uio] in H1. destruct (Hres _ _ _ _ _ H1) as (-> & Hw & Hd). wp_steps. cbn [io_uio].
    apply wp_fs. eapply wp_read_sv; [apply Hr|]. rewrite Hw. simpl. wp_steps. apply wp_uio_op. wp_steps.
    cbn [io_fs io_uio]. split; [done|]. exists n, u1. split_and!; try done; [pose proof (xf_range _ _ _ _ _ _ _ _ _ H1); lia|lia|].
    destruct He as [?|(_ & _ & [(_ & Hw' & _)|?])]; [by left|congruence|by right].
Qed.

(** The size update and what follows, after a transfer of [n] bytes. *)
Lemma io_finish_write X sv x s u n m x1 s1 u1 (r : unit + Z) Q E : io_ready sv x s u → st_rw u = UIO_WRITE →
  xfer sv x s u n m x1 s1 u1 →
  (∀ x' s', written sv x s u n m x' s' u1 → (full s1 → full s') →
     wpx X (match r with inl _ => ret tt | inr e => fail e end) Q E (mkIO s' u1)) →
  wpx X (u <- gets io_uio ;; x <- fs (read_sv sv) ;;
    (if is_write u && (sfi_size (sv_i x) <? st_offset u) then
       fs (update_sv sv (λ x, set_dirty true (set_inode (set_size (u32 (st_offset u))) x))) else ret tt) ;;
    uio_op (modify (λ u, set_resid (st_resid u + 0) u)) ;;
    match r with inl _ => ret tt | inr e => fail e end) Q E (mkIO s1 u1).
Proof.
  intros Hr Hrw H1 HQ. pose proof (xfer_ready _ _ _ _ _ _ _ _ _ Hr H1) as Hr1.
  pose proof (xfer_written_size _ _ _ _ _ _ _ _ _ Hr Hrw H1) as Hwr. cbv zeta in Hwr.
  wp_steps. cbn [io_uio]. apply wp_fs. eapply wp_read_sv; [apply Hr1|].
  assert (is_write u1 = true) as -> by (unfold is_write; by rewrite (xf_rw _ _ _ _ _ _ _ _ _ H1), Hrw).
  assert (set_resid (st_resid u1 + 0) u1 = u1) as Eu by (destruct u1; unfold set_resid; simpl; f_equal; lia).
  destruct (sfi_size (sv_i x1) <? st_offset u1); simpl; wp_steps.
  - apply wp_fs. eapply wp_update_sv; [apply Hr1|]. wp_steps. apply wp_uio_op. wp_steps. rewrite Eu. by eapply HQ.
  - apply wp_uio_op. wp_steps. rewrite Eu. eapply HQ; [|done].
    assert (set_sv_at <[sv := x1]> s1 = s1) as <-; [|exact Hwr].
    unfold set_sv_at. rewrite insert_id by apply Hr1. by destruct s1.
Qed.

Lemma sfs_io_rest_write X sv x s u : io_ready sv x s u → st_rw u = UIO_WRITE →
  wpx X (sfs_io_rest sv 0)
    (λ _ io, ∃ x', written sv x s u (st_resid u) (st_resid u) x' (io_fs io) (io_uio io))
    (λ e io, ∃ n m x', written sv x s u n m x' (io_fs io) (io_uio io) ∧ (n = st_resid u → n = 0) ∧ io_error s (sv_i x) u n m (io_fs io) e)
    (mkIO s u).
Proof.
  intros Hr Hrw. unfold sfs_io_rest. do 2 wp_step. eapply wp_conseq; [by apply sfs_io_blocks_spec| |].
  - intros [] [s1 u1] [x1 H1]. eapply (io_finish_write X sv x s u _ _ x1 s1 u1 (inl tt)); [done..|].
    intros x' s' Hwr _. wp_steps. by exists x'.
  - intros e [s1 u1] (n & m & x1 & H1 & Hn & Hlt & He). eapply (io_finish_write X sv x s u _ _ x1 s1 u1 (inr e)); [done..|].
    intros x' s' Hwr Hfull. wp_steps. exists n, m, x'. split_and!; [done|intros ->; auto|].
    destruct He as [?|(? & ? & [(-> & ? & ? & ?)|?])]; [by left|right; split_and!; [done..|left; by auto]|right; split_and!; auto].
Qed.

(** What a read at the offset of [u] can deliver. *)
Definition available (i : sfs_inode) (u : stream) : Z :=
  if sfi_size i <=? st_offset u then 0 else Z.min (st_resid u) (sfi_size i - st_offset u).

Lemma sfs_io_read X sv x s u : io_ready sv x s u → st_rw u = UIO_READ →
  wpx X (sfs_io sv)
    (λ _ io, io_fs io = s ∧ delivered s (sv_i x) u (available (sv_i x) u) (io_uio io))
    (λ e io, io_fs io = s ∧ ∃ n, 0 ≤ n ≤ available (sv_i x) u ∧ (n = available (sv_i x) u → n = 0) ∧ delivered s (sv_i x) u n (io_uio io) ∧
       ((e = EFAULT ∧ st_fate u ≠ []) ∨ (e = EFBIG ∧ FILEMAX ≤ st_offset u + n)))
    (mkIO s u).
Proof.
  intros Hr Hrd. pose proof Hr as [H1 H2 H3 H4 [U1 U2 U3 U4]]. pose proof (iw_size _ (fo_wf _ _ H4)) as Hsz. unfold is_word in Hsz.
  unfold sfs_io. wp_steps. cbn [io_uio]. apply wp_fs. eapply wp_read_sv; [done|].
  unfold is_write. rewrite Hrd. cbv zeta. unfold available. destruct (Z.leb_spec (sfi_size (sv_i x)) (st_offset u)); wp_steps.
  { cbn [io_fs io_uio]. split; [done|]. exists (st_fate u). split; [done|]. destruct u as [rw o r d f]; simpl in *. rewrite Hrd.
    unfold fbytes. simpl. rewrite app_nil_r. f_equal; lia. }
  assert (∀ extra n u0 u1, 0 ≤ n → u0 = set_resid (st_resid u - extra) u → delivered s (sv_i x) u0 n u1 →
    delivered s (sv_i x) u n (set_resid (st_resid u1 + extra) u1)) as Hdel.
  { intros extra n u0 u1 Hn -> (fate & Hf & ->). exists fate. split; [done|]. unfold set_resid. simpl. f_equal. lia. }
  destruct (Z.ltb_spec (sfi_size (sv_i x)) (st_offset u + st_resid u)).
  - rewrite u32_small by lia. wp_steps. apply wp_kassert; [lia|]. wp_steps. apply wp_uio_op. wp_steps.
    set (u0 := set_resid _ u).
    eapply wp_conseq; [apply (sfs_io_rest_read X sv x s u0)| |]; [|done|..].
    + split; try done. split; cbn [u0 set_resid st_offset st_resid st_rw]; try lia. by rewrite Hrd.
    + intros [] io [-> (u' & Hd & ->)]. split; [done|]. rewrite Z.min_r by lia.
      replace (sfi_size (sv_i x) - st_offset u) with (st_resid u0) by (unfold u0; simpl; lia). eapply Hdel; [unfold u0; simpl; lia|done|done].
    + intros e io [-> (n & u' & Hn & Hlt & Hd & -> & He)]. split; [done|]. exists n. unfold u0 in Hn, Hlt. cbn [set_resid st_resid] in Hn, Hlt.
      split_and!; [lia|lia|lia|eapply Hdel; [lia|done|done]|done].
  - eapply wp_conseq; [by apply sfs_io_rest_read| |].
    + intros [] io [-> (u' & Hd & ->)]. split; [done|]. rewrite Z.min_l by lia. eapply Hdel; [lia| |done]. destruct u; unfold set_resid; simpl. f_equal; lia.
    + intros e io [-> (n & u' & Hn & Hlt & Hd & -> & He)]. split; [done|]. exists n. split_and!; [lia|lia|lia| |done].
      eapply Hdel; [lia| |done]. destruct u; unfold set_resid; simpl. f_equal; lia.
Qed.

Lemma sfs_io_write X sv x s u : io_ready sv x s u → st_rw u = UIO_WRITE →
  wpx X (sfs_io sv)
    (λ _ io, ∃ x', written sv x s u (st_resid u) (st_resid u) x' (io_fs io) (io_uio io))
    (λ e io, ∃ n m x', written sv x s u n m x' (io_fs io) (io_uio io) ∧ (n = st_resid u → n = 0) ∧ io_error s (sv_i x) u n m (io_fs io) e)
    (mkIO s u).
Proof.
  intros Hr Hw. unfold sfs_io. wp_steps. cbn [io_uio]. apply wp_fs. eapply wp_read_sv; [apply Hr|].
  unfold is_write. rewrite Hw. by apply sfs_io_rest_write.
Qed.
