(* ===== verification/SfsDir.v ===== *)
(** * The simple file system: directories

    A directory is a file of fixed-size entries.  sfs_dir_findname is a search
    among them, sfs_dir_link fills a free entry or appends one, and sfs_dir_unlink
    clears one; each name is in use at most once. *)

From S2P Require Import Prelude Bitmap UserCopy Uio Disk SfsTypes Sfs SfsNode SfsMount SfsBlk SfsMap SfsIo.
#[local] Open Scope kern_scope.

(** ** Names *)

Definition name_ok (name : list Z) : Prop := Forall (λ c, 0 < c < 256) name.

Lemma c_string_ok l : Forall is_byte l → name_ok (c_string l).
Proof.
  induction 1 as [|b l Hb _ IH]; simpl; [by constructor|]. destruct (Z.eqb_spec b 0); [by constructor|].
  constructor; [unfold is_byte in *; lia|done].
Qed.

Lemma c_string_app name l : name_ok name → c_string (name ++ 0 :: l) = name.
Proof.
  induction 1 as [|b name Hb _ IH]; simpl; [done|]. rewrite (proj2 (Z.eqb_neq b 0)) by lia. by rewrite IH.
Qed.

(** ** Entries *)

Definition dirent (s : sfs) (i : sfs_inode) (slot : Z) : sfs_dir := bytes_dir (fbytes s i (slot * sizeof_sfs_dir) sizeof_sfs_dir).
Definition nslots (i : sfs_inode) : Z := sfi_size i / sizeof_sfs_dir.
Definition ent_name (d : sfs_dir) : list Z := c_string (sfd_name d).[SFS_NAMELEN - 1 := 0].
Definition used (d : sfs_dir) : Prop := sfd_ino d ≠ SFS_NOINO.
Definition MAXSLOTS : Z := FILEMAX / sizeof_sfs_dir.

(** The entry a slot holds, if it is in use. *)
Definition entry (s : sfs) (i : sfs_inode) (slot : Z) : option (list Z * Z) :=
  if decide (0 ≤ slot < nslots i) then
    let d := dirent s i slot in
    if sfd_ino d =? SFS_NOINO then None else Some (ent_name d, sfd_ino d)
  else None.

Record dir_ok (s : sfs) (i : sfs_inode) : Prop := {
  do_type : sfi_type i = SFS_TYPE_DIR;
  do_size : sfi_size i mod sizeof_sfs_dir = 0;
  do_max : sfi_size i ≤ FILEMAX;
  do_names : ∀ a b name k k', entry s i a = Some (name, k) → entry s i b = Some (name, k') → a = b
}.

Lemma dir_size s i : dir_ok s i → sfi_size i = nslots i * sizeof_sfs_dir.
Proof.
  intros H. pose proof (Z.div_mod (sfi_size i) sizeof_sfs_dir ltac:(done)) as E. rewrite (do_size _ _ H) in E.
  unfold nslots. lia.
Qed.

Lemma dir_nslots s i : file_ok s i → dir_ok s i → 0 ≤ nslots i ≤ MAXSLOTS.
Proof.
  intros Hf H. pose proof (dir_size s i H). pose proof (do_max _ _ H). pose proof (iw_size _ (fo_wf _ _ Hf)) as Hw. unfold is_word in Hw.
  unfold MAXSLOTS. change FILEMAX with 73216 in *. unfold sizeof_sfs_dir in *. change (73216 / 64) with 1144. lia.
Qed.

Lemma slot_pos slot : 0 ≤ slot ≤ MAXSLOTS → u32 (slot * sizeof_sfs_dir) = slot * sizeof_sfs_dir.
Proof. intros H. change MAXSLOTS with 1144 in H. unfold sizeof_sfs_dir. apply u32_small. lia. Qed.

Lemma fbyte_byte s i p : fs_ok s → file_ok s i → 0 ≤ p < FILEMAX → is_byte (fbyte s i p).
Proof.
  intros Hok Hf Hp. unfold fbyte, FILEMAX, SFS_BLOCKSIZE in *. destruct (fdata_block s i (p / 512)) as [Hl Hb]; [done..| |].
  { split; [apply Z.div_pos; lia|apply Z.div_lt_upper_bound; lia]. }
  unfold SFS_BLOCKSIZE in *. destruct (lookupZ_lt (fdata s i (p / 512)) (p mod 512)) as [b Hb'].
  { pose proof (Z.mod_pos_bound p 512). lia. }
  rewrite Hb'. simpl. eapply Forall_forall; [exact Hb|]. rewrite lookupZ_nat in Hb' by (apply Z.mod_pos_bound; lia).
  by eapply list_elem_of_lookup_2.
Qed.

Lemma dirent_wf s i slot : fs_ok s → file_ok s i → 0 ≤ slot < MAXSLOTS → dir_wf (dirent s i slot).
Proof.
  intros Hok Hf Hs. apply bytes_dir_wf; [by apply fbytes_length|]. unfold fbytes. apply Forall_fmap, Forall_forall.
  intros p Hp%elem_of_seqZ. apply fbyte_byte; try done. change MAXSLOTS with 1144 in Hs. change FILEMAX with 73216.
  unfold sizeof_sfs_dir in *. lia.
Qed.

Lemma entry_name_ok s i slot name k : fs_ok s → file_ok s i → dir_ok s i → entry s i slot = Some (name, k) →
  name_ok name ∧ lengthZ name < SFS_NAMELEN ∧ k ≠ SFS_NOINO ∧ is_word k.
Proof.
  intros Hok Hf Hd He. unfold entry in He. case_decide as Hs; [|done]. pose proof (dir_nslots s i Hf Hd).
  destruct (dirent_wf s i slot Hok Hf) as [W1 W2 W3]; [lia|]. destruct (Z.eqb_spec (sfd_ino (dirent s i slot)) SFS_NOINO); [done|].
  simplify_eq. split_and!; [|..|done|done].
  - apply c_string_ok. unfold updateZ. case_decide; [|done]. by apply Forall_insert.
  - unfold ent_name. generalize (sfd_name (dirent s i slot)) W2. intros l Hl. unfold SFS_NAMELEN in *.
    assert (l.[60 - 1 := 0] = take 59 l ++ 0 :: drop 60 l) as ->.
    { unfold updateZ. rewrite decide_True by lia. change (Z.to_nat (60 - 1)) with 59%nat. unfold lengthZ in Hl.
      rewrite insert_take_drop by lia. done. }
    assert (∀ a b, lengthZ (c_string (a ++ 0 :: b)) ≤ lengthZ a) as Hc.
    { clear. induction a as [|c a IH]; intros b; [done|]. simpl. destruct (c =? 0); [unfold lengthZ; simpl; lia|].
      rewrite !lengthZ_cons. specialize (IH b). lia. }
    specialize (Hc (take 59 l) (drop 60 l)). unfold lengthZ in *. rewrite length_take in Hc. lia.
Qed.

(** ** Reading and writing entries *)

Lemma wp_with_uio X u (m : IM unit) Q E s :
  wpx X m (λ _ io, Q (io_uio io) (io_fs io)) (λ e io, E e (io_fs io)) (mkIO s u) → wpx X (with_uio u m) Q E s.
Proof. unfold wpx, with_uio. by destruct (m _) as [[] ?|? ?| |]. Qed.

(** A vnode with its file, under the lock. *)
Record at_file (sv : Z) (x : sfs_vnode) (s : sfs) : Prop := {
  af_lock : biglocked s;
  af_ok : fs_ok s;
  af_sv : sv_at s !! sv = Some x;
  af_file : file_ok s (sv_i x)
}.

Lemma at_file_step sv x x' s s' : at_file sv x s → file_step sv x x' s s' → at_file sv x' s'.
Proof.
  intros [H1 H2 H3 H4] Hstep. split.
  - by eapply file_step_locked.
  - apply (st_ok _ _ _ _ _ Hstep).
  - by eapply file_step_sv.
  - apply (st_file _ _ _ _ _ Hstep).
Qed.

Lemma sfs_readdir_spec X sv x s slot Q E : at_file sv x s → dir_ok s (sv_i x) → 0 ≤ slot < nslots (sv_i x) →
  Q (dirent s (sv_i x) slot) s → wpx X (sfs_readdir sv slot) Q E s.
Proof.
  intros [H1 H2 H3 H4] Hd Hs HQ. pose proof (dir_size _ _ Hd). pose proof (dir_nslots _ _ H4 Hd). pose proof (do_max _ _ Hd).
  unfold sfs_readdir. cbv zeta. rewrite slot_pos by lia. wp_steps. apply wp_with_uio. set (u := stream_kinit _ _ _ _).
  assert (available (sv_i x) u = sizeof_sfs_dir) as Hav.
  { unfold available, u. cbn [stream_kinit st_offset st_resid]. unfold sizeof_sfs_dir in *.
    destruct (Z.leb_spec (sfi_size (sv_i x)) (slot * 64)); lia. }
  eapply wp_conseq; [apply (sfs_io_read X sv x s u)| |].
  - split; try done. change MAXSLOTS with 1144 in *. split; unfold u; cbn [stream_kinit st_offset st_resid st_rw]; unfold sizeof_sfs_dir; try lia; done.
  - done.
  - rewrite Hav. intros [] io [-> (fate & _ & ->)]. cbn [st_resid st_data]. unfold u. cbn [stream_kinit st_resid st_data st_offset].
    rewrite Z.sub_diag. simpl. wp_steps. exact HQ.
  - rewrite Hav. intros e io [_ (n & Hn & Hlt & _ & [[_ Hf]|[_ Hbig]])]; [done|]. exfalso. unfold u in Hbig.
    cbn [stream_kinit st_offset] in Hbig. unfold sizeof_sfs_dir in *. lia.
Qed.

(** Entry [slot] of the directory now is [d]; nothing else has changed. *)
Record dir_written (sv : Z) (x : sfs_vnode) (s : sfs) (slot : Z) (d : sfs_dir) (x' : sfs_vnode) (s' : sfs) : Prop := {
  dr_step : file_step sv x x' s s';
  dr_size : sfi_size (sv_i x') = Z.max (sfi_size (sv_i x)) ((slot + 1) * sizeof_sfs_dir);
  dr_ents : ∀ a, 0 ≤ a < MAXSLOTS → dirent s' (sv_i x') a = if decide (a = slot) then d else dirent s (sv_i x) a
}.

(** The want of a block has kept the directory as it was. *)
Definition dir_unwritten (sv : Z) (x : sfs_vnode) (s : sfs) (slot : Z) (e : Z) (s' : sfs) : Prop :=
  ∃ x', file_step sv x x' s s' ∧ sfi_size (sv_i x') = sfi_size (sv_i x) ∧
    (∀ a, 0 ≤ a < MAXSLOTS → dirent s' (sv_i x') a = dirent s (sv_i x) a) ∧
    ((e = ENOSPC ∧ full s' ∧ hole s (sv_i x) (slot * sizeof_sfs_dir)) ∨ (e = EFBIG ∧ MAXSLOTS ≤ slot)).

Lemma fbytes_ext s i s' i' off n : (∀ p, off ≤ p < off + n → fbyte s' i' p = fbyte s i p) → fbytes s' i' off n = fbytes s i off n.
Proof. intros H. unfold fbytes. apply list_fmap_ext. intros j p [-> Hj]%lookup_seqZ. apply H. lia. Qed.

Lemma dirent_written sv x s u m x' s' u' slot d : written sv x s u sizeof_sfs_dir m x' s' u' → m = sizeof_sfs_dir →
  st_offset u = slot * sizeof_sfs_dir → st_data u = dir_bytes d → dir_wf d → 0 ≤ slot < MAXSLOTS →
  ∀ a, 0 ≤ a < MAXSLOTS → dirent s' (sv_i x') a = if decide (a = slot) then d else dirent s (sv_i x) a.
Proof.
  intros [_ _ _ _ Hb _] -> Ho Hdat Hd Hs a Ha. destruct (dir_roundtrip d Hd) as (_ & Hlen & Hrt).
  change MAXSLOTS with 1144 in *. unfold FILEMAX, NFILE, SFS_BLOCKSIZE, sizeof_sfs_dir in *. unfold dirent, sizeof_sfs_dir. case_decide as E.
  - subst a. rewrite <- Hrt. f_equal. apply listZ_eq; [by rewrite fbytes_length by lia|]. rewrite fbytes_length by lia. intros j Hj.
    rewrite fbytes_lookup, Hb by lia. rewrite decide_True by lia. rewrite Hdat, Ho. replace (slot * 64 + j - slot * 64) with j by lia.
    destruct (lookupZ_lt (dir_bytes d) j) as [b ->]; [lia|done].
  - f_equal. apply fbytes_ext. intros p Hp. rewrite Hb by lia. rewrite decide_False by lia. done.
Qed.

Lemma sfs_writedir_spec X sv x s slot d : at_file sv x s → dir_ok s (sv_i x) → dir_wf d → 0 ≤ slot ≤ nslots (sv_i x) →
  wpx X (sfs_writedir sv d slot) (λ _ s', slot < MAXSLOTS ∧ ∃ x', dir_written sv x s slot d x' s') (dir_unwritten sv x s slot) s.
Proof.
  intros [H1 H2 H3 H4] Hd Hwf Hs. pose proof (dir_size _ _ Hd) as Hsz. pose proof (dir_nslots _ _ H4 Hd) as Hn.
  destruct (dir_roundtrip d Hwf) as (Hb & Hlen & _).
  unfold sfs_writedir. cbv zeta. wp_steps. apply wp_kassert; [lia|]. rewrite slot_pos by lia. wp_steps. apply wp_with_uio.
  set (u := stream_kinit _ _ _ _).
  assert (st_offset u = slot * 64 ∧ st_resid u = 64) as [Ho Hr] by done.
  change MAXSLOTS with 1144 in *. unfold sizeof_sfs_dir in *.
  eapply wp_conseq; [apply (sfs_io_write X sv x s u)| |].
  - split; try done. split; [lia..|]. intros _. split; [rewrite Hr; unfold u; simpl; lia|done].
  - done.
  - intros [] io [x' Hw]. rewrite Hr in Hw. destruct (wr_stream _ _ _ _ _ _ _ _ _ Hw) as (fate & _ & ->). cbn [st_resid]. rewrite Hr.
    change (0 <? 64 - 64) with false. cbv iota. wp_steps.
    assert (slot < 1144) as Hlt.
    { pose proof (wr_max _ _ _ _ _ _ _ _ _ Hw) as Hmax. unfold FILEMAX, NFILE, SFS_BLOCKSIZE in Hmax. lia. }
    split; [done|]. exists x'. split; [apply Hw| |].
    + rewrite (wr_size _ _ _ _ _ _ _ _ _ Hw), Ho. unfold sizeof_sfs_dir. destruct (Z.ltb_spec (sfi_size (sv_i x)) (slot * 64 + 64)); [|lia].
      rewrite u32_small by lia. lia.
    + eapply dirent_written; try done. change MAXSLOTS with 1144. lia.
  - intros e io (n & m & x' & Hw & Hne & He). destruct (wr_range _ _ _ _ _ _ _ _ _ Hw) as [Hm Hn2].
    destruct He as [[_ Hf]|(-> & Hbd & He)]; [done|]. unfold at_boundary, SFS_BLOCKSIZE in Hbd.
    assert (n = 0) as ->. { destruct Hbd as [|Hbd]; [done|]. rewrite Ho in Hbd.
      pose proof (Z.div_mod (slot * 64 + n) 512 ltac:(done)). lia. }
    exists x'. split_and!; [apply Hw| | |].
    + rewrite (wr_size _ _ _ _ _ _ _ _ _ Hw), Ho. destruct (Z.ltb_spec (sfi_size (sv_i x)) (slot * 64 + 0)); lia.
    + intros a Ha. unfold dirent. f_equal. apply fbytes_ext. intros p Hp. change MAXSLOTS with 1144 in *. unfold sizeof_sfs_dir in *.
      rewrite (wr_bytes _ _ _ _ _ _ _ _ _ Hw) by (unfold FILEMAX, NFILE, SFS_BLOCKSIZE; lia). rewrite decide_False by lia. done.
    + destruct He as [(-> & _ & ? & Hh)|[-> ?]]; [left; rewrite Ho, Z.add_0_r in Hh; done|right]. split; [done|]. unfold FILEMAX, NFILE, SFS_BLOCKSIZE in *.
      change MAXSLOTS with 1144. lia.
Qed.

(** ** Searching *)

(** What a search of the slots below [n] finds. *)
Record searched (s : sfs) (i : sfs_inode) (name : list Z) (n : Z) (r : search) : Prop := {
  sr_found : ∀ k slot, found_at r = Some (k, slot) → slot < n ∧ entry s i slot = Some (name, k);
  sr_none : found_at r = None → ∀ slot k, slot < n → entry s i slot ≠ Some (name, k);
  sr_empty : ∀ e, emptyslot r = Some e → 0 ≤ e < n ∧ entry s i e = None;
  sr_full : emptyslot r = None → ∀ slot, 0 ≤ slot < n → entry s i slot ≠ None
}.

Lemma entry_range s i slot e : entry s i slot = Some e → 0 ≤ slot < nslots i.
Proof. unfold entry. by case_decide. Qed.

Lemma findname_loop_spec X sv x s name (n : nat) i r Q E : at_file sv x s → dir_ok s (sv_i x) →
  0 ≤ i → i + Z.of_nat n = nslots (sv_i x) → searched s (sv_i x) name i r →
  (∀ r', searched s (sv_i x) name (nslots (sv_i x)) r' → Q r' s) → wpx X (findname_loop n sv i name r) Q E s.
Proof.
  intros Ha Hd. revert i r. induction n as [|n IH]; intros i r Hi Hn [R1 R2 R3 R4] HQ; cbn [findname_loop].
  { wp_steps. apply HQ. replace (nslots (sv_i x)) with i by lia. by split. }
  wp_steps. eapply sfs_readdir_spec; [done|done|lia|].
  assert (entry s (sv_i x) i = if sfd_ino (dirent s (sv_i x) i) =? SFS_NOINO then None
    else Some (ent_name (dirent s (sv_i x) i), sfd_ino (dirent s (sv_i x) i))) as He by (unfold entry; rewrite decide_True by lia; done).
  fold (ent_name (dirent s (sv_i x) i)). destruct (Z.eqb_spec (sfd_ino (dirent s (sv_i x) i)) SFS_NOINO) as [E0|E0].
  - apply IH; [lia|lia| |done]. split; cbn [found_at emptyslot].
    + intros k slot H. destruct (R1 k slot H). split; [lia|done].
    + intros H slot k Hs. destruct (decide (slot = i)) as [->|]; [congruence|apply R2; [done|lia]].
    + intros e [= <-]. split; [lia|done].
    + done.
  - unfold name_eqb. case_bool_decide as En.
    + wp_steps. apply wp_kassert.
      { apply bool_decide_eq_true_2. destruct (found_at r) as [[k slot]|] eqn:Ef; [|done]. exfalso.
        destruct (R1 k slot eq_refl) as [Hlt Hs]. assert (slot = i); [|lia].
        eapply (do_names _ _ Hd); [exact Hs|]. rewrite He, En. done. }
      apply IH; [lia|lia| |done]. split; cbn [found_at emptyslot].
      * intros k slot [= <- <-]. split; [lia|]. by rewrite He, En.
      * done.
      * intros e H. destruct (R3 e H). split; [lia|done].
      * intros H slot Hs. destruct (decide (slot = i)) as [->|]; [by rewrite He|apply R4; [done|lia]].
    + apply IH; [lia|lia| |done]. split.
      * intros k slot H. destruct (R1 k slot H). split; [lia|done].
      * intros H slot k Hs. destruct (decide (slot = i)) as [->|]; [rewrite He; congruence|apply R2; [done|lia]].
      * intros e H. destruct (R3 e H). split; [lia|done].
      * intros H slot Hs. destruct (decide (slot = i)) as [->|]; [by rewrite He|apply R4; [done|lia]].
Qed.

Lemma sfs_dir_nentries_spec X sv x s Q E : at_file sv x s → dir_ok s (sv_i x) → Q (nslots (sv_i x)) s →
  wpx X (sfs_dir_nentries sv) Q E s.
Proof.
  intros Ha Hd HQ. unfold sfs_dir_nentries. wp_steps. eapply wp_read_sv; [apply Ha|]. rewrite (do_type _ _ Hd).
  wp_steps. apply wp_kassert; [done|]. cbv zeta. rewrite (do_size _ _ Hd). simpl. wp_steps. exact HQ.
Qed.

Lemma sfs_dir_findname_spec X sv x s name Q E : at_file sv x s → dir_ok s (sv_i x) →
  (∀ r, searched s (sv_i x) name (nslots (sv_i x)) r → Q r s) → wpx X (sfs_dir_findname sv name) Q E s.
Proof.
  intros Ha Hd HQ. pose proof (dir_nslots _ _ (af_file _ _ _ Ha) Hd). unfold sfs_dir_findname. wp_steps.
  eapply sfs_dir_nentries_spec; [done|done|]. apply (findname_loop_spec X sv x s); try done; [lia|].
  split; try done; [|lia]. intros _ slot k Hs E'%entry_range. lia.
Qed.

(** ** Linking and unlinking *)

Lemma entries_written sv x s slot d x' s' : dir_written sv x s slot d x' s' → dir_ok s (sv_i x) → file_ok s (sv_i x) →
  0 ≤ slot ≤ nslots (sv_i x) → slot < MAXSLOTS →
  nslots (sv_i x') = Z.max (nslots (sv_i x)) (slot + 1) ∧
  ∀ a, entry s' (sv_i x') a = if decide (a = slot) then (if sfd_ino d =? SFS_NOINO then None else Some (ent_name d, sfd_ino d))
                              else entry s (sv_i x) a.
Proof.
  intros [D1 D2 D3] Hd Hf Hs Hmax. pose proof (dir_nslots _ _ Hf Hd) as Hn.
  assert (nslots (sv_i x') = Z.max (nslots (sv_i x)) (slot + 1)) as Hn'.
  { unfold nslots at 1. rewrite D2, (dir_size _ _ Hd). unfold sizeof_sfs_dir.
    rewrite Z.mul_max_distr_nonneg_r by lia. apply Z.div_mul. lia. }
  split; [done|]. intros a. unfold entry. rewrite Hn'. destruct (decide (a = slot)) as [->|Hne].
  - rewrite decide_True by lia. rewrite D3 by lia. by rewrite decide_True.
  - destruct (decide (0 ≤ a < nslots (sv_i x))) as [Ha|Ha].
    + rewrite decide_True by lia. rewrite D3 by lia. by rewrite decide_False.
    + by rewrite decide_False by lia.
Qed.

Lemma dir_ok_written sv x s slot d x' s' : dir_written sv x s slot d x' s' → dir_ok s (sv_i x) → file_ok s (sv_i x) →
  0 ≤ slot ≤ nslots (sv_i x) → slot < MAXSLOTS →
  (sfd_ino d ≠ SFS_NOINO → ∀ a k, a ≠ slot → entry s (sv_i x) a ≠ Some (ent_name d, k)) → dir_ok s' (sv_i x').
Proof.
  intros Hw Hd Hf Hs Hmax Hu. destruct (entries_written _ _ _ _ _ _ _ Hw Hd Hf Hs Hmax) as [Hn He]. destruct Hw as [D1 D2 D3].
  pose proof (dir_size _ _ Hd) as Hsz. pose proof (do_max _ _ Hd) as Hm. destruct Hd as [O1 O2 O3 O4].
  split.
  - destruct (st_vnode _ _ _ _ _ D1) as (_ & _ & _ & _ & -> & _). done.
  - rewrite D2, Hsz. unfold sizeof_sfs_dir. rewrite Z.mul_max_distr_nonneg_r by lia. by apply Z.mod_mul.
  - rewrite D2. change MAXSLOTS with 1144 in *. unfold FILEMAX, NFILE, SFS_BLOCKSIZE, sizeof_sfs_dir in *. lia.
  - intros a b name k k'. rewrite !He. destruct (Z.eqb_spec (sfd_ino d) SFS_NOINO) as [E0|E0].
    + repeat case_decide; try done. apply O4.
    + repeat case_decide; try congruence.
      * intros [= <- _] H'. by apply Hu in H'.
      * intros H' [= <- _]. by apply Hu in H'.
      * apply O4.
Qed.

(** The entries of a directory that nothing has changed. *)
Definition dir_kept (sv : Z) (x : sfs_vnode) (s : sfs) (s' : sfs) : Prop :=
  ∃ x', file_step sv x x' s s' ∧ dir_ok s' (sv_i x') ∧ nslots (sv_i x') = nslots (sv_i x) ∧
    ∀ a, entry s' (sv_i x') a = entry s (sv_i x) a.

(** The directory with another entry in [slot]. *)
Definition dir_changed (sv : Z) (x : sfs_vnode) (s : sfs) (slot : Z) (ent : option (list Z * Z)) (s' : sfs) : Prop :=
  ∃ x', file_step sv x x' s s' ∧ dir_ok s' (sv_i x') ∧ 0 ≤ slot < nslots (sv_i x') ∧
    nslots (sv_i x') = Z.max (nslots (sv_i x)) (slot + 1) ∧
    ∀ a, entry s' (sv_i x') a = if decide (a = slot) then ent else entry s (sv_i x) a.

Lemma dir_unwritten_kept sv x s slot e s' : dir_ok s (sv_i x) → file_ok s (sv_i x) → slot ≤ nslots (sv_i x) → dir_unwritten sv x s slot e s' →
  dir_kept sv x s s' ∧ ((e = ENOSPC ∧ full s') ∨ (e = EFBIG ∧ nslots (sv_i x) = MAXSLOTS)).
Proof.
  intros Hd Hf Hs (x' & Hstep & Hsz & Hents & He). pose proof (dir_nslots _ _ Hf Hd).
  split; [|destruct He as [(? & ? & _)|[? ?]]; [by left|right; split; [done|lia]]]. exists x'.
  assert (nslots (sv_i x') = nslots (sv_i x)) as Hn by (unfold nslots; by rewrite Hsz).
  assert (∀ a, entry s' (sv_i x') a = entry s (sv_i x) a) as Hent.
  { intros a. unfold entry. rewrite Hn. case_decide; [|done]. by rewrite Hents by lia. }
  split_and!; try done. destruct Hd as [O1 O2 O3 O4]. split.
  - destruct (st_vnode _ _ _ _ _ Hstep) as (_ & _ & _ & _ & -> & _). done.
  - by rewrite Hsz.
  - by rewrite Hsz.
  - intros a b name k k'. rewrite !Hent. apply O4.
Qed.

Lemma link_entry name k : name_ok name → lengthZ name < SFS_NAMELEN → is_word k →
  let d := mkDir k (name ++ replicate (Z.to_nat (SFS_NAMELEN - lengthZ name)) 0) in dir_wf d ∧ ent_name d = name.
Proof.
  intros Hn Hl Hk d. unfold SFS_NAMELEN in *. pose proof (lengthZ_nonneg name).
  assert (lengthZ (sfd_name d) = 60) as Hlen by (unfold d; cbn [sfd_name]; rewrite lengthZ_app, lengthZ_replicate; lia).
  split.
  - split; [done|done|]. apply Forall_app. split; [|apply Forall_replicate; unfold is_byte; lia].
    eapply Forall_impl; [exact Hn|]. unfold is_byte. intros c Hc. lia.
  - unfold ent_name, SFS_NAMELEN. rewrite updateZ_id.
    + unfold d. cbn [sfd_name]. destruct (Z.to_nat (60 - lengthZ name)) as [|m] eqn:E; [lia|]. by apply c_string_app.
    + unfold d. cbn [sfd_name]. rewrite lookupZ_app_r by lia. apply lookupZ_replicate. lia.
Qed.

(** The ways sfs_dir_link can fail. *)
Definition link_failed (sv : Z) (x : sfs_vnode) (s : sfs) (name : list Z) (e : Z) (s' : sfs) : Prop :=
  (e = EEXIST ∧ s' = s ∧ ∃ a k, entry s (sv_i x) a = Some (name, k)) ∨
  (e = ENAMETOOLONG ∧ s' = s ∧ SFS_NAMELEN ≤ lengthZ name) ∨
  (dir_kept sv x s s' ∧ ((e = ENOSPC ∧ full s') ∨ (e = EFBIG ∧ nslots (sv_i x) = MAXSLOTS))).

Lemma sfs_dir_link_spec X sv x s name k : at_file sv x s → dir_ok s (sv_i x) → name_ok name → is_word k → k ≠ SFS_NOINO →
  wpx X (sfs_dir_link sv name k)
    (λ slot s', (∀ a k', entry s (sv_i x) a ≠ Some (name, k')) ∧ entry s (sv_i x) slot = None ∧
       dir_changed sv x s slot (Some (name, k)) s')
    (link_failed sv x s name) s.
Proof.
  intros Ha Hd Hname Hk Hk0. pose proof (af_file _ _ _ Ha) as Hf. unfold sfs_dir_link. wp_steps.
  eapply sfs_dir_findname_spec; [done|done|]. intros r [R1 R2 R3 R4]. destruct (found_at r) as [[k' a]|] eqn:Ef.
  { wp_steps. left. destruct (R1 k' a eq_refl). split_and!; [done..|by eauto]. }
  assert (∀ a k', entry s (sv_i x) a ≠ Some (name, k')) as Hnone.
  { intros a k' E. destruct (entry_range _ _ _ _ E). by apply (R2 eq_refl a k'); [lia|]. }
  destruct (Z.ltb_spec SFS_NAMELEN (lengthZ name + 1)); wp_steps; [right; left; split_and!; [done..|lia]|].
  destruct (link_entry name k Hname ltac:(lia) Hk) as [Hwf Hen]. set (d := mkDir _ _) in *.
  apply (wp_conseq _ (λ slot s', s' = s ∧ 0 ≤ slot ≤ nslots (sv_i x) ∧ entry s (sv_i x) slot = None) _ (λ _ _, False)); [| |done].
  { destruct (emptyslot r) as [e|]; wp_steps.
    - destruct (R3 e eq_refl). split_and!; [done|lia|lia|done].
    - eapply sfs_dir_nentries_spec; [done|done|]. pose proof (dir_nslots _ _ Hf Hd). split_and!; [done|lia|lia|].
      unfold entry. by rewrite decide_False by lia. }
  intros slot s' (-> & Hs & Hempty). wp_steps. eapply wp_conseq; [by apply (sfs_writedir_spec X sv x s slot d)| |].
  2: { intros e s' He. right. right. apply dir_unwritten_kept with slot; try done. lia. }
  intros [] s' [Hmax (x' & Hw)]. wp_steps. split_and!; [done..|].
  destruct (entries_written _ _ _ _ _ _ _ Hw Hd Hf Hs Hmax) as [Hn He]. exists x'. split_and!; [apply Hw| |lia|lia|done|].
  - eapply dir_ok_written; try done. intros _ a k' _. rewrite Hen. apply Hnone.
  - intros a. rewrite He, Hen. case_decide; [|done]. change (sfd_ino d) with k. by rewrite (proj2 (Z.eqb_neq k SFS_NOINO)).
Qed.

(** An entry in use is never in a hole of the directory. *)
Lemma hole_entry s i slot : dir_ok s i → hole s i (slot * sizeof_sfs_dir) → entry s i slot = None.
Proof.
  intros Hd [Hp Hz]. unfold entry. case_decide; [|done]. assert (sfd_ino (dirent s i slot) = 0) as ->; [|done].
  assert (∀ j, 0 ≤ j < 64 → fbyte s i (slot * 64 + j) = 0) as Hb.
  { intros j Hj. apply Hz. unfold SFS_BLOCKSIZE, sizeof_sfs_dir. pose proof (Z.div_mod (slot * 64) 512 ltac:(done)).
    pose proof (Z.mod_pos_bound (slot * 64) 512 ltac:(done)). symmetry.
    assert ((slot * 64) mod 512 = 64 * (slot mod 8)) as E by (change 512 with (8 * 64); by rewrite Z.mul_mod_distr_r, Z.mul_comm).
    pose proof (Z.mod_pos_bound slot 8 ltac:(done)).
    apply (Z.div_unique_pos _ 512 _ ((slot * 64) mod 512 + j)); lia. }
  unfold dirent, bytes_dir, sizeof_sfs_dir. cbn [sfd_ino].
  assert (fbytes s i (slot * 64) 64 = replicate 64 0) as ->; [|done].
  apply listZ_eq; [by rewrite fbytes_length|]. rewrite fbytes_length by done. intros j Hj. rewrite fbytes_lookup, Hb by done.
  symmetry. by apply lookupZ_replicate.
Qed.

Lemma sfs_dir_unlink_spec X sv x s slot e : at_file sv x s → dir_ok s (sv_i x) → entry s (sv_i x) slot = Some e →
  wpx X (sfs_dir_unlink sv slot) (λ _, dir_changed sv x s slot None) (λ _ _, False) s.
Proof.
  intros Ha Hd He0. pose proof (entry_range _ _ _ _ He0) as Hs. pose proof (af_file _ _ _ Ha) as Hf. pose proof (dir_nslots _ _ Hf Hd).
  unfold sfs_dir_unlink. set (d := mkDir _ _). assert (dir_wf d) as Hwf.
  { split; [done|done|]. apply Forall_replicate. unfold is_byte. lia. }
  eapply wp_conseq; [apply (sfs_writedir_spec X sv x s slot d); try done; lia| |].
  2: { intros e' s' (_ & _ & _ & _ & [(_ & _ & Hh)|[_ ?]]); [|lia]. by rewrite (hole_entry _ _ _ Hd Hh) in He0. }
  intros [] s' [Hmax (x' & Hw)]. destruct (entries_written _ _ _ _ _ _ _ Hw Hd Hf ltac:(lia) Hmax) as [Hn He].
  exists x'. split_and!; [apply Hw| |lia|lia|done|done]. eapply dir_ok_written; try done. lia.
Qed.
