(* ===== verification/SfsTrunc.v ===== *)
(** * The simple file system: truncation

    sfs_truncate gives back the blocks past the new end and keeps the data before
    it.  Of the blocks reached through the indirect block it keeps one too many;
    truncating to nothing leaves a file without blocks. *)

From S2P Require Import Prelude Bitmap UserCopy Uio Disk SfsTypes Sfs SfsNode SfsMount SfsBlk SfsMap SfsIo SfsDir.
#[local] Open Scope kern_scope.

(** ** Dropping references *)

Section DropRefs.
Context (sv : Z) (x x' : sfs_vnode) (s s' : sfs) (dropped : Z → bool).
Context (Hf : file_ok s (sv_i x)).
Context (Hrest : same_rest s s') (Hok : fs_ok s') (Hsvs : sv_at s' = <[sv := x']> (sv_at s)).
Context (Hvn : same_vnode x x') (Hwf : inode_wf (sv_i x')).
Context (Hmark : ∀ c, marked s' c ↔ marked s c ∧ ¬ (∃ k, 0 ≤ k ≤ NFILE ∧ dropped k = true ∧ ref s (sv_i x) k = c ∧ c ≠ 0)).
Context (Hsect : ∀ c, c = sfi_indirect (sv_i x) ∧ c ≠ 0 ∨ sect s' c = sect s c).
Context (Hrefs : ∀ k, 0 ≤ k ≤ NFILE → ref s' (sv_i x') k = if dropped k then 0 else ref s (sv_i x) k).

Lemma drop_refs_file : file_ok s' (sv_i x').
Proof.
  split; [done|..].
  - intros k Hk. rewrite Hrefs by done. destruct (dropped k) eqn:Ed; [by left|].
    destruct (fo_refs _ _ Hf k Hk) as [?|[Hr Hm]]; [by left|right].
    split; [destruct Hrest as (_ & E & _); unfold nblk in *; by rewrite E|]. apply Hmark. split; [done|].
    intros (k' & Hk' & Hd & E & Hne). assert (k' = k) as -> by (apply (fo_inj _ _ Hf); congruence). congruence.
  - intros k k' Hk Hk'. rewrite !Hrefs by done. destruct (dropped k), (dropped k'); intros E Hne; try congruence.
    by apply (fo_inj _ _ Hf).
  - intros k Hk. rewrite Hrefs, (system_same s) by (done || apply Hrest). destruct (dropped k); [done|]. by apply (fo_system _ _ Hf).
Qed.

Lemma drop_refs_step : file_step sv x x' s s'.
Proof.
  split; try done.
  - apply drop_refs_file.
  - intros c Hc. destruct (Hsect c) as [[-> Hne]|Hs].
    + left. split; [done|]. exists NFILE. split; [unfold NFILE; lia|done].
    + destruct (marked_dec s' c) as [Hm|Hm]; [by right|]. destruct (owns_block_dec s (sv_i x) c) as [Ho|Ho]; [by left|].
      exfalso. apply Hm, Hmark. split; [done|]. intros (k & Hk & _ & E & Hne). apply Ho. split; [done|by exists k].
  - intros c [Hc (k & Hk & E)]. rewrite Hrefs in E by done. destruct (dropped k); [by subst|]. left. split; [done|by exists k].
  - intros c [Hc (k & Hk & E)]. destruct (dropped k) eqn:Ed.
    + right. intros [_ Hn]%Hmark. apply Hn. by exists k.
    + left. split; [done|]. exists k. split; [done|]. by rewrite Hrefs, Ed.
  - intros c [? _]%Hmark. by left.
Qed.

Lemma drop_refs_data k : 0 ≤ k < NFILE → fdata s' (sv_i x') k = if dropped k then zero_data else fdata s (sv_i x) k.
Proof.
  intros Hk. pose proof (Hrefs k ltac:(lia)) as E. rewrite !ref_bref in E by lia. unfold fdata. rewrite E.
  destruct (dropped k); [done|]. destruct (Z.eqb_spec (bref s (sv_i x) k) 0) as [E0|E0]; [done|].
  destruct (Hsect (bref s (sv_i x) k)) as [[Ei _]|Hs]; [|done]. exfalso. assert (k = NFILE); [|lia].
  apply (fo_inj _ _ Hf); [lia|unfold NFILE; lia| |]; rewrite ref_bref by lia; done.
Qed.
End DropRefs.

(** ** Giving back several blocks *)

Record blocks_freed (s : sfs) (freed : Z → Prop) (s' : sfs) : Prop := {
  bs_rest : same_rest s s';
  bs_svs : sv_at s' = sv_at s;
  bs_ok : fs_ok s';
  bs_marked : ∀ c, marked s' c ↔ marked s c ∧ ¬ freed c;
  bs_sect : ∀ c, sect s' c = sect s c
}.

(** The loop over the indirect block frees what it discards and clears it in the
    buffer. *)
Definition discards (blocklen baseblock j : Z) (b : Z) : bool := (blocklen <? baseblock + j) && negb (b =? 0).
Definition trunc_words (blocklen baseblock j : Z) (l : list Z) : list Z :=
  imap (λ n b, if discards blocklen baseblock (j + Z.of_nat n) b then 0 else b) l.

Lemma trunc_words_cons blocklen base j b l : trunc_words blocklen base j (b :: l) =
  (if discards blocklen base j b then 0 else b) :: trunc_words blocklen base (j + 1) l.
Proof.
  unfold trunc_words. rewrite imap_cons. rewrite Z.add_0_r. f_equal. apply imap_ext. intros n c _. simpl.
  by replace (j + Z.of_nat (S n)) with (j + 1 + Z.of_nat n) by lia.
Qed.

Lemma trunc_words_lookup blocklen base j l k : 0 ≤ k < lengthZ l →
  (trunc_words blocklen base j l).[k] = (λ b, if discards blocklen base (j + k) b then 0 else b) <$> l.[k].
Proof.
  intros Hk. rewrite !lookupZ_nat by lia. unfold trunc_words. rewrite list_lookup_imap. destruct (l !! Z.to_nat k); [|done]. simpl.
  by rewrite Z2Nat.id by lia.
Qed.

Lemma trunc_words_length blocklen base j l : lengthZ (trunc_words blocklen base j l) = lengthZ l.
Proof. unfold lengthZ, trunc_words. by rewrite length_imap. Qed.

Lemma trunc_idbuf_spec X blocklen base j l s : fs_ok s →
  (∀ b, b ∈ l → b = 0 ∨ 0 < b < nblk s ∧ marked s b ∧ ¬ system_block s b) →
  (∀ n n' b, l !! n = Some b → l !! n' = Some b → b ≠ 0 → n = n') →
  wpx X (trunc_idbuf blocklen base j l)
    (λ r s', let l' := trunc_words blocklen base j l in
       r = (l', existsb (λ b, negb (b =? 0)) l', negb (bool_decide (l' = l))) ∧
       blocks_freed s (λ c, ∃ n, 0 ≤ n < lengthZ l ∧ l.[n] = Some c ∧ discards blocklen base (j + n) c = true) s')
    (λ _ _, False) s.
Proof.
  revert j s. induction l as [|b l IH]; intros j s Hok Hin Hinj; cbn [trunc_idbuf]; wp_steps.
  { split; [done|]. split; try done. intros c. split; [|by intros [? _]]. intros Hc. split; [done|]. intros (n & Hn & _). unfold lengthZ in Hn. simpl in Hn. lia. }
  fold (discards blocklen base j b). cbv zeta.
  apply (wp_conseq _ (λ _, blocks_freed s (λ c, c = b ∧ discards blocklen base j b = true)) _ (λ _ _, False)); [| |done].
  { destruct (discards blocklen base j b) eqn:Ed; wp_steps.
    - unfold discards in Ed. apply andb_true_iff in Ed as [_ Ed%negb_true_iff%Z.eqb_neq].
      destruct (Hin b) as [|(Hr & Hm & Hsys)]; [by left|done|].
      eapply wp_conseq; [by apply sfs_bfree_spec| |done]. intros [] s' [B1 B2 B3 B4 B5]. split; try done. intros c. rewrite B4. naive_solver.
    - split; try done. intros c. naive_solver. }
  intros [] s1 [B1 B2 B3 B4 B5]. wp_steps.
  assert (nblk s1 = nblk s) as Hnb by (destruct B1 as (_ & E & _); unfold nblk; by rewrite E).
  eapply wp_conseq; [apply IH; [done|..]| |done].
  { intros c Hc. destruct (Hin c) as [?|(Hr & Hm & Hsys)]; [by right|by left|]. right. rewrite Hnb, (system_same s) by apply B1.
    split_and!; [lia|lia| |done]. apply B4. split; [done|].
    intros [-> _]. apply list_elem_of_lookup in Hc as [n Hn]. specialize (Hinj 0%nat (S n) b eq_refl Hn). lia. }
  { intros n n' c H1 H2 Hc. specialize (Hinj (S n) (S n') c H1 H2 Hc). lia. }
  intros r s2 [-> [C1 C2 C3 C4 C5]]. wp_steps. split.
  - rewrite trunc_words_cons. simpl existsb. f_equal. destruct (discards blocklen base j b) eqn:Ed; simpl.
    + rewrite bool_decide_eq_false_2; [done|]. intros [= E _]. unfold discards in Ed. rewrite <- E, andb_false_r in Ed. done.
    + f_equal. apply bool_decide_ext. split; [by intros ->|by intros [=]].
  - split.
    + by eapply same_rest_trans.
    + congruence.
    + done.
    + intros c. rewrite C4, B4. split.
      * intros [[H1 H2] H3]. split; [done|]. intros (n & Hn & Hl & Hd). destruct (decide (n = 0)) as [->|Hn0].
        -- rewrite Z.add_0_r in Hd. injection Hl as <-. by apply H2.
        -- apply H3. exists (n - 1). rewrite lengthZ_cons in Hn. split_and!; [lia..| |].
           ++ rewrite lookupZ_nat in Hl |- * by lia. replace (Z.to_nat n) with (S (Z.to_nat (n - 1))) in Hl by lia. done.
           ++ by replace (j + 1 + (n - 1)) with (j + n) by lia.
      * intros [H1 H2]. split_and!; [done|..].
        -- intros [-> Hd]. apply H2. exists 0. rewrite Z.add_0_r, lengthZ_cons. pose proof (lengthZ_nonneg l). split_and!; [lia..|done|done].
        -- intros (n & Hn & Hl & Hd). apply H2. exists (n + 1). rewrite lengthZ_cons. split_and!; [lia..| |].
           ++ rewrite lookupZ_nat in Hl |- * by lia. by replace (Z.to_nat (n + 1)) with (S (Z.to_nat n)) by lia.
           ++ by replace (j + (n + 1)) with (j + 1 + n) by lia.
    + intros c. by rewrite C5, B5.
Qed.

(** ** The two phases of sfs_truncate *)

(** The file without the blocks at the places [dropped]. *)
Record truncated (sv : Z) (x : sfs_vnode) (s : sfs) (dropped : Z → bool) (x' : sfs_vnode) (s' : sfs) : Prop := {
  tr_step : file_step sv x x' s s';
  tr_size : sfi_size (sv_i x') = sfi_size (sv_i x);
  tr_refs : ∀ k, 0 ≤ k ≤ NFILE → ref s' (sv_i x') k = if dropped k then 0 else ref s (sv_i x) k;
  tr_data : ∀ k, 0 ≤ k < NFILE → fdata s' (sv_i x') k = if dropped k then zero_data else fdata s (sv_i x) k
}.

Lemma truncated_refl sv x s dropped : at_file sv x s → (∀ k, 0 ≤ k ≤ NFILE → dropped k = true → ref s (sv_i x) k = 0) →
  truncated sv x s dropped x s.
Proof.
  intros [H1 H2 H3 H4] Hd. split; try done.
  - by apply file_step_refl.
  - intros k Hk. destruct (dropped k) eqn:E; [by apply Hd|done].
  - intros k Hk. destruct (dropped k) eqn:E; [|done]. unfold fdata. rewrite <- ref_bref by lia. by rewrite Hd by (done || lia).
Qed.

Lemma truncated_trans sv x s d1 x1 s1 d2 x2 s2 d : truncated sv x s d1 x1 s1 → truncated sv x1 s1 d2 x2 s2 →
  (∀ k, 0 ≤ k ≤ NFILE → d k = d1 k || d2 k) → truncated sv x s d x2 s2.
Proof.
  intros [A1 A2 A3 A4] [B1 B2 B3 B4] Hd. split.
  - by eapply file_step_trans.
  - congruence.
  - intros k Hk. rewrite B3, A3, Hd by lia. by destruct (d1 k), (d2 k).
  - intros k Hk. rewrite B4, A4, Hd by lia. by destruct (d1 k), (d2 k).
Qed.

Lemma trunc_direct_spec X sv x s blocklen k : at_file sv x s → 0 ≤ k < SFS_NDIRECT →
  wpx X (trunc_direct sv blocklen k) (λ _ s', ∃ x', truncated sv x s (λ k', (k' =? k) && (blocklen <=? k')) x' s') (λ _ _, False) s.
Proof.
  intros Ha Hk. pose proof Ha as [H1 H2 H3 H4]. unfold trunc_direct. wp_steps. eapply wp_read_sv; [done|]. wp_steps.
  eapply wp_deref; [by apply direct_lookup|]. set (b := bref s (sv_i x) k).
  assert (ref s (sv_i x) k = b) as Er by (apply ref_bref; unfold SFS_NDIRECT, NFILE in *; lia).
  destruct (Z.leb_spec blocklen k); simpl.
  2: { wp_steps. exists x. apply truncated_refl; [done|]. intros k' _. destruct (Z.eqb_spec k' k) as [->|]; [|done]. simpl. lia. }
  destruct (Z.eqb_spec b 0) as [E|E]; simpl.
  { wp_steps. exists x. apply truncated_refl; [done|]. intros k' _. destruct (Z.eqb_spec k' k) as [->|]; [|done]. intros _. congruence. }
  destruct (fo_refs _ _ H4 k) as [?|[Hr Hm]]; [unfold SFS_NDIRECT, NFILE in *; lia|congruence|]. rewrite Er in Hr, Hm.
  assert (¬ system_block s b) as Hsys by (rewrite <- Er; apply (fo_system _ _ H4); [unfold SFS_NDIRECT, NFILE in *; lia|congruence]).
  wp_steps. eapply wp_conseq; [by apply sfs_bfree_spec| |done]. intros [] s1 [B1 B2 B3 B4 B5]. wp_steps.
  eapply wp_update_sv; [by rewrite B2|]. set (x' := set_dirty _ _). set (s' := set_sv_at _ s1). exists x'.
  assert (∀ k', 0 ≤ k' ≤ NFILE → ref s' (sv_i x') k' = if (k' =? k) && (blocklen <=? k') then 0 else ref s (sv_i x) k') as Hrefs.
  { intros k' Hk'. unfold ref, SFS_NDIRECT, NFILE in *. destruct (Z.eqb_spec k' 143) as [->|].
    - rewrite (proj2 (Z.eqb_neq 143 k)) by lia. done.
    - unfold bref, SFS_NDIRECT. destruct (Z.ltb_spec k' 15).
      + unfold x'. cbn [set_dirty set_inode sv_i set_direct sfi_direct]. rewrite lookupZ_update by (rewrite (iw_ndirect _ (fo_wf _ _ H4)); unfold SFS_NDIRECT; lia).
        destruct (Z.eqb_spec k' k) as [->|]; [|by rewrite decide_False]. rewrite decide_True by done. simpl. by rewrite (proj2 (Z.leb_le _ _)) by lia.
      + rewrite (proj2 (Z.eqb_neq k' k)) by lia. simpl. change (sect s' ?c) with (sect s1 c). rewrite B5. done. }
  assert (inode_wf (sv_i x')) as Hwf.
  { destruct (fo_wf _ _ H4) as [W1 W2 W3 W4 W5 W6 W7 W8]. split; cbn; try done; [by rewrite lengthZ_update|].
    unfold updateZ. case_decide; [|done]. apply Forall_insert; [done|]. unfold is_word. lia. }
  assert (∀ c, marked s' c ↔ marked s c ∧ ¬ (∃ k', 0 ≤ k' ≤ NFILE ∧ (k' =? k) && (blocklen <=? k') = true ∧ ref s (sv_i x) k' = c ∧ c ≠ 0)) as Hmark.
  { intros c. change (marked s' c) with (marked s1 c). rewrite B4. split.
    - intros [Hc Hmc]. split; [done|]. intros (k' & _ & [->%Z.eqb_eq _]%andb_true_iff & Ec & _). congruence.
    - intros [Hmc Hn]. split; [|done]. intros ->. apply Hn. exists k. rewrite Z.eqb_refl. unfold SFS_NDIRECT, NFILE in *. split_and!; try done; lia. }
  assert (∀ c, c = sfi_indirect (sv_i x) ∧ c ≠ 0 ∨ sect s' c = sect s c) as Hsect by (intros c; right; apply B5).
  split; [|done|done|].
  - eapply drop_refs_step; [exact H4|exact B1|by apply fs_ok_svs|unfold s'; simpl; by rewrite B2|by split_and!; auto|exact Hwf|exact Hmark|exact Hsect|exact Hrefs].
  - eapply drop_refs_data; done.
Qed.

(** The blocks the second phase drops: those past the end, but not the first of
    them; and the indirect block itself if nothing is left in it. *)
Definition past_end (blocklen k : Z) : bool :=
  (SFS_NDIRECT <=? k) && (k <? NFILE) && (blocklen <? NFILE - 1) && (blocklen <? k).

Section TruncIndirect.
Context (sv : Z) (x : sfs_vnode) (s : sfs) (blocklen : Z).
Context (Ha : at_file sv x s) (Hind : sfi_indirect (sv_i x) ≠ 0) (Hlen : blocklen < NFILE - 1).
#[local] Notation ind := (sfi_indirect (sv_i x)).
#[local] Notation w := (words_of_bytes (sect s ind)).
#[local] Notation w' := (trunc_words blocklen SFS_NDIRECT 0 w).

Lemma indirect_ref k : 15 ≤ k < 143 → w.[k - 15] = Some (ref s (sv_i x) k).
Proof. intros Hk. rewrite ref_bref by (unfold NFILE; lia). destruct Ha. by apply indirect_lookup. Qed.

Lemma truncated_ref k : SFS_NDIRECT ≤ k < NFILE →
  w'.[k - SFS_NDIRECT] = Some (if past_end blocklen k then 0 else ref s (sv_i x) k).
Proof.
  intros Hk. destruct (idbuf_words x s (af_ok _ _ _ Ha) (af_file _ _ _ Ha) Hind) as [_ Hl].
  unfold SFS_DBPERIDB, SFS_NDIRECT, NFILE in *. rewrite trunc_words_lookup by lia. rewrite (indirect_ref k) by lia.
  simpl. f_equal. unfold discards, past_end, SFS_NDIRECT, NFILE. replace (15 + (0 + (k - 15))) with k by lia.
  rewrite (proj2 (Z.leb_le 15 k)), (proj2 (Z.ltb_lt k 143)), (proj2 (Z.ltb_lt blocklen (143 - 1))) by lia. simpl.
  destruct (blocklen <? k); [|done]. simpl. by destruct (Z.eqb_spec (ref s (sv_i x) k) 0).
Qed.

Lemma freed_by_phase2 c : c ≠ 0 →
  (∃ n, 0 ≤ n < lengthZ w ∧ w.[n] = Some c ∧ discards blocklen SFS_NDIRECT (0 + n) c = true) ↔
  (∃ k, 0 ≤ k ≤ NFILE ∧ past_end blocklen k = true ∧ ref s (sv_i x) k = c ∧ c ≠ 0).
Proof.
  intros Hc. destruct (idbuf_words x s (af_ok _ _ _ Ha) (af_file _ _ _ Ha) Hind) as [_ Hl]. unfold SFS_DBPERIDB, SFS_NDIRECT, NFILE in *. split.
  - intros (n & Hn & Hw & Hd). exists (n + 15). pose proof (indirect_ref (n + 15)) as Hr.
    replace (n + 15 - 15) with n in Hr by lia. rewrite Hr in Hw by lia. simplify_eq. split_and!; [lia..| |done|done].
    unfold discards in Hd. unfold past_end, SFS_NDIRECT, NFILE. lia.
  - intros (k & Hk & Hp & <- & _). unfold past_end, SFS_NDIRECT, NFILE in Hp. exists (k - 15).
    rewrite (indirect_ref k) by lia. unfold discards. split_and!; [lia..|done|lia].
Qed.

(** The buffer as trunc_idbuf_spec wants it. *)
Lemma idbuf_marked b : b ∈ w → b = 0 ∨ 0 < b < nblk s ∧ marked s b ∧ ¬ system_block s b.
Proof.
  intros Hb. destruct (idbuf_words x s (af_ok _ _ _ Ha) (af_file _ _ _ Ha) Hind) as [_ Hl]. unfold SFS_DBPERIDB, SFS_NDIRECT, NFILE in *.
  apply list_elem_of_lookup in Hb as [n Hn]. pose proof (lookup_lt_Some _ _ _ Hn) as Hlt. unfold lengthZ in Hl.
  pose proof (indirect_ref (Z.of_nat n + 15)) as Hr. replace (Z.of_nat n + 15 - 15) with (Z.of_nat n) in Hr by lia.
  specialize (Hr ltac:(lia)). rewrite lookupZ_of_nat, Hn in Hr. injection Hr as ->.
  destruct (fo_refs _ _ (af_file _ _ _ Ha) (Z.of_nat n + 15)) as [?|[? ?]]; [unfold NFILE; lia|by left|]. right. split_and!; [lia|lia|done|].
  apply (fo_system _ _ (af_file _ _ _ Ha)); [unfold NFILE; lia|lia].
Qed.

Lemma idbuf_distinct n n' b : w !! n = Some b → w !! n' = Some b → b ≠ 0 → n = n'.
Proof.
  intros H1 H2 Hb. destruct (idbuf_words x s (af_ok _ _ _ Ha) (af_file _ _ _ Ha) Hind) as [_ Hl]. unfold SFS_DBPERIDB, SFS_NDIRECT, NFILE, lengthZ in *.
  pose proof (lookup_lt_Some _ _ _ H1). pose proof (lookup_lt_Some _ _ _ H2).
  assert (∀ m, w !! m = Some b → (m < 128)%nat → ref s (sv_i x) (Z.of_nat m + 15) = b) as Hm.
  { intros m Hw Hm. pose proof (indirect_ref (Z.of_nat m + 15)) as Hr. replace (Z.of_nat m + 15 - 15) with (Z.of_nat m) in Hr by lia.
    rewrite lookupZ_of_nat, Hw in Hr. specialize (Hr ltac:(lia)). congruence. }
  assert (Z.of_nat n + 15 = Z.of_nat n' + 15); [|lia].
  apply (fo_inj _ _ (af_file _ _ _ Ha)); [unfold NFILE; lia..| |]; rewrite ?Hm by (done || lia); done.
Qed.

Lemma indirect_not_freed : ¬ (∃ n, 0 ≤ n < lengthZ w ∧ w.[n] = Some ind ∧ discards blocklen SFS_NDIRECT (0 + n) ind = true).
Proof.
  rewrite (freed_by_phase2 _ Hind). intros (k & Hk & Hp & E & _). assert (k = NFILE) as ->.
  { apply (fo_inj _ _ (af_file _ _ _ Ha)); [done|unfold NFILE; lia|done|congruence]. }
  unfold past_end in Hp. by rewrite Z.ltb_irrefl, andb_false_r in Hp.
Qed.

Lemma words_kept : Forall is_word w' ∧ lengthZ w' = SFS_DBPERIDB.
Proof.
  destruct (idbuf_words x s (af_ok _ _ _ Ha) (af_file _ _ _ Ha) Hind) as [Hw Hl]. rewrite trunc_words_length. split; [|done].
  apply Forall_lookup_2. intros n b Hb. unfold trunc_words in Hb. rewrite list_lookup_imap in Hb.
  destruct (w !! n) as [c|] eqn:Ec; [|done]. simpl in Hb. simplify_eq. case_match; [unfold is_word; lia|].
  by eapply Forall_lookup_1.
Qed.

Lemma nothing_left : (∀ k, SFS_NDIRECT ≤ k < NFILE → past_end blocklen k = true) → ¬ existsb (λ b, negb (b =? 0)) w' = true.
Proof.
  intros Hall [b [Hb Hne]]%existsb_exists. apply list_elem_of_In, list_elem_of_lookup in Hb as [n Hn]. destruct words_kept as [_ Hl].
  pose proof (lookup_lt_Some _ _ _ Hn) as Hlt. unfold SFS_DBPERIDB, lengthZ in Hl.
  pose proof (truncated_ref (Z.of_nat n + SFS_NDIRECT)) as Hr. replace (Z.of_nat n + SFS_NDIRECT - SFS_NDIRECT) with (Z.of_nat n) in Hr by lia.
  unfold SFS_NDIRECT, NFILE in *. rewrite lookupZ_of_nat, Hn, Hall in Hr by lia. specialize (Hr ltac:(lia)). simplify_eq.
Qed.

(** The states the phase can end in: the indirect block is given back, or holds what
    is left. *)
Lemma phase2_freed s1 s2 : blocks_freed s (λ c, ∃ n, 0 ≤ n < lengthZ w ∧ w.[n] = Some c ∧ discards blocklen SFS_NDIRECT (0 + n) c = true) s1 →
  block_freed s1 ind s2 → existsb (λ b, negb (b =? 0)) w' = false →
  let x' := set_dirty true (set_inode (set_indirect 0) x) in
  truncated sv x s (λ k, past_end blocklen k || (k =? NFILE)) x' (set_sv_at <[sv := x']> s2).
Proof.
  intros [B1 B2 B3 B4 B5] [C1 C2 C3 C4 C5] Hz x'. pose proof Ha as [H1 H2 H3 H4]. set (s' := set_sv_at _ s2).
  assert (∀ k, SFS_NDIRECT ≤ k < NFILE → past_end blocklen k = false → ref s (sv_i x) k = 0) as Hzero.
  { intros k Hk Hp. pose proof (truncated_ref k Hk) as Hr. rewrite Hp in Hr. rewrite lookupZ_nat in Hr by lia.
    apply list_elem_of_lookup_2 in Hr. destruct (Z.eqb_spec (ref s (sv_i x) k) 0) as [|Hne]; [done|]. exfalso.
    assert (existsb (λ b, negb (b =? 0)) w' = true) as Ht; [|congruence]. apply existsb_exists. exists (ref s (sv_i x) k).
    split; [by apply list_elem_of_In|]. by rewrite (proj2 (Z.eqb_neq _ _) Hne). }
  assert (∀ k, 0 ≤ k ≤ NFILE → ref s' (sv_i x') k = if past_end blocklen k || (k =? NFILE) then 0 else ref s (sv_i x) k) as Hrefs.
  { intros k Hk. unfold ref at 1. destruct (Z.eqb_spec k NFILE) as [->|Hne]; [by rewrite orb_true_r|]. rewrite orb_false_r. unfold bref.
    destruct (Z.ltb_spec k SFS_NDIRECT) as [Hd|Hd].
    - rewrite ref_bref by done. unfold past_end. rewrite (proj2 (Z.leb_gt _ _) Hd). simpl. unfold bref. by rewrite (proj2 (Z.ltb_lt _ _) Hd).
    - unfold x'. cbn [set_dirty set_inode sv_i set_indirect sfi_indirect]. simpl. destruct (past_end blocklen k) eqn:Ep; [done|].
      symmetry. apply Hzero; [unfold NFILE in *; lia|done]. }
  assert (∀ c, marked s' c ↔ marked s c ∧ ¬ (∃ k, 0 ≤ k ≤ NFILE ∧ past_end blocklen k || (k =? NFILE) = true ∧ ref s (sv_i x) k = c ∧ c ≠ 0)) as Hmark.
  { intros c. change (marked s' c) with (marked s2 c). rewrite C4, B4. destruct (decide (c = 0)) as [->|Hc0].
    - split; [intros (_ & H & _); split; [done|by intros (? & _ & _ & _ & ?)]|]. intros [H _]. split_and!; try done.
      intros (n & _ & _ & Hd). unfold discards in Hd. by rewrite andb_false_r in Hd.
    - rewrite (freed_by_phase2 c Hc0). split.
      + intros (Hne & Hm & Hn). split; [done|]. intros (k & Hk & [Hp|Hp%Z.eqb_eq]%orb_true_iff & E & _); [apply Hn; by exists k|]. subst k. by destruct Hne.
      + intros [Hm Hn]. split_and!; [|done|].
        * intros ->. apply Hn. exists NFILE. rewrite Z.eqb_refl, orb_true_r. unfold NFILE. split_and!; try done; lia.
        * intros (k & Hk & Hp & E & _). apply Hn. exists k. by rewrite Hp. }
  assert (∀ c, c = ind ∧ c ≠ 0 ∨ sect s' c = sect s c) as Hsect by (intros c; right; change (sect s' c) with (sect s2 c); by rewrite C5, B5).
  assert (inode_wf (sv_i x')) as Hwf by (destruct (fo_wf _ _ H4); split; cbn; try done; unfold is_word; lia).
  split; [|done|done|].
  - eapply drop_refs_step; [exact H4|by eapply same_rest_trans|by apply fs_ok_svs|unfold s'; simpl; by rewrite C2, B2|by split_and!; auto|exact Hwf|exact Hmark|exact Hsect|exact Hrefs].
  - eapply drop_refs_data; done.
Qed.

Lemma phase2_kept s1 s' : blocks_freed s (λ c, ∃ n, 0 ≤ n < lengthZ w ∧ w.[n] = Some c ∧ discards blocklen SFS_NDIRECT (0 + n) c = true) s1 →
  same_rest s1 s' → sv_at s' = sv_at s1 → fs_ok s' → (∀ c, marked s' c ↔ marked s1 c) →
  (∀ c, c ≠ ind → sect s' c = sect s1 c) → words_of_bytes (sect s' ind) = w' →
  truncated sv x s (past_end blocklen) x s'.
Proof.
  intros [B1 B2 B3 B4 B5] C1 C2 C3 C4 C5 Hw. pose proof Ha as [H1 H2 H3 H4].
  assert (∀ k, 0 ≤ k ≤ NFILE → ref s' (sv_i x) k = if past_end blocklen k then 0 else ref s (sv_i x) k) as Hrefs.
  { intros k Hk. unfold ref at 1. destruct (Z.eqb_spec k NFILE) as [->|Hne].
    { unfold past_end. rewrite Z.ltb_irrefl, andb_false_r. done. }
    unfold bref. destruct (Z.ltb_spec k SFS_NDIRECT) as [Hd|Hd].
    - rewrite ref_bref by done. unfold past_end. rewrite (proj2 (Z.leb_gt _ _) Hd). simpl. unfold bref. by rewrite (proj2 (Z.ltb_lt _ _) Hd).
    - rewrite (proj2 (Z.eqb_neq _ _) Hind), Hw. rewrite truncated_ref by (unfold NFILE in *; lia). done. }
  assert (∀ c, marked s' c ↔ marked s c ∧ ¬ (∃ k, 0 ≤ k ≤ NFILE ∧ past_end blocklen k = true ∧ ref s (sv_i x) k = c ∧ c ≠ 0)) as Hmark.
  { intros c. rewrite C4, B4. destruct (decide (c = 0)) as [->|Hc0]; [|by rewrite (freed_by_phase2 c Hc0)].
    split; (intros [H _]; split; [done|]); [by intros (? & _ & _ & _ & ?)|].
    intros (n & _ & _ & Hd). unfold discards in Hd. by rewrite andb_false_r in Hd. }
  assert (∀ c, c = ind ∧ c ≠ 0 ∨ sect s' c = sect s c) as Hsect.
  { intros c. destruct (decide (c = ind)) as [->|Hne]; [by left|right]. by rewrite C5, B5. }
  split; [|done|done|].
  - eapply drop_refs_step; [exact H4|by eapply same_rest_trans|done|by rewrite C2, B2, insert_id|apply same_vnode_refl|apply H4|exact Hmark|exact Hsect|exact Hrefs].
  - eapply drop_refs_data; done.
Qed.
End TruncIndirect.

Lemma trunc_indirect_spec X sv x s blocklen : at_file sv x s →
  wpx X (trunc_indirect sv blocklen)
    (λ _ s', ∃ x' d, truncated sv x s d x' s' ∧ (∀ k, 0 ≤ k < NFILE → d k = past_end blocklen k) ∧
       ((∀ k, SFS_NDIRECT ≤ k < NFILE → past_end blocklen k = true) → ref s' (sv_i x') NFILE = 0)) (λ _ _, False) s.
Proof.
  intros Ha. pose proof Ha as [H1 H2 H3 H4]. unfold trunc_indirect. wp_steps. eapply wp_read_sv; [done|]. cbv zeta.
  change (SFS_NDIRECT + SFS_DBPERIDB - 1) with (NFILE - 1).
  destruct (Z.ltb_spec blocklen (NFILE - 1)) as [Hlen|Hlen]; simpl.
  2: { wp_steps. exists x, (past_end blocklen). split_and!; [|done|].
       - apply truncated_refl; [done|]. intros k _. unfold past_end. rewrite (proj2 (Z.ltb_ge _ _) Hlen), andb_false_r. done.
       - intros Hall. specialize (Hall 15). unfold past_end in Hall. rewrite (proj2 (Z.ltb_ge _ _) Hlen), andb_false_r in Hall.
         discriminate Hall. unfold SFS_NDIRECT, NFILE. lia. }
  destruct (Z.eqb_spec (sfi_indirect (sv_i x)) 0) as [Hind|Hind]; simpl.
  { wp_steps. exists x, (past_end blocklen). split_and!; [|done|done]. apply truncated_refl; [done|]. intros k Hk Hp.
    rewrite ref_bref by (intros ->; unfold past_end in Hp; by rewrite Z.ltb_irrefl, andb_false_r in Hp).
    unfold bref. rewrite Hind. destruct (Z.ltb_spec k SFS_NDIRECT) as [Hd|]; [|done]. unfold past_end in Hp. rewrite (proj2 (Z.leb_gt _ _) Hd) in Hp. done. }
  destruct (indirect_cases x s H4) as [|[Hir Him]]; [done|]. pose proof (ok_size _ H2).
  wp_steps. eapply wp_ok; [apply sfs_rblock_eq; [done|apply H2|lia]|]. wp_steps.
  eapply wp_conseq; [apply trunc_idbuf_spec; [done|by eapply idbuf_marked|by eapply idbuf_distinct]| |done].
  intros r s1 [-> Hfr]. pose proof Hfr as [B1 B2 B3 B4 B5]. cbv zeta iota beta. set (w' := trunc_words _ _ _ _).
  assert (nblk s1 = nblk s) as Hnb by (destruct B1 as (_ & E & _); unfold nblk; by rewrite E).
  assert (¬ system_block s1 (sfi_indirect (sv_i x))) as Hsys.
  { rewrite (system_same s) by apply B1. apply (fo_system _ _ (af_file _ _ _ Ha) NFILE); [unfold NFILE; lia|done]. }
  destruct (existsb _ w') eqn:Enz; simpl.
  - assert (∀ s', truncated sv x s (past_end blocklen) x s' → ∃ x' d, truncated sv x s d x' s' ∧
      (∀ k, 0 ≤ k < NFILE → d k = past_end blocklen k) ∧
      ((∀ k, SFS_NDIRECT ≤ k < NFILE → past_end blocklen k = true) → ref s' (sv_i x') NFILE = 0)) as Hend.
    { intros s' Ht. exists x, (past_end blocklen). split_and!; [done..|]. intros Hall. exfalso. revert Enz.
      by eapply nothing_left. }
    destruct (words_kept sv x s blocklen Ha Hind) as [Hww Hwl]. fold w' in Hww, Hwl.
    case_bool_decide as Ew; simpl; wp_steps.
    + apply Hend. eapply phase2_kept; try done. rewrite B5. by symmetry.
    + assert (0 ≤ sfi_indirect (sv_i x) < d_blocks (sfs_device s1)) by (pose proof (ok_size _ B3); lia).
      assert (is_block (bytes_of_words w')) as Hblk by (by apply words_block).
      eapply wp_ok; [apply sfs_wblock_eq; [|apply B3|done|apply Hblk]|].
      { destruct B1 as (E & _). unfold biglocked in *. by rewrite E. }
      apply Hend. eapply (phase2_kept sv x s blocklen Ha Hind Hlen s1); try done.
      * by apply fs_ok_write.
      * intros c Hc. rewrite sect_write by done. by rewrite decide_False.
      * rewrite sect_write by done. rewrite decide_True by done. by apply words_of_bytes_of_words.
  - wp_steps. eapply wp_conseq; [apply (sfs_bfree_spec X s1 (sfi_indirect (sv_i x))); [done| |lia|done]| |done].
    { apply B4. split; [done|]. by eapply indirect_not_freed. }
    intros [] s2 Hfr2. wp_steps. eapply wp_update_sv; [by rewrite (bf_svs _ _ _ Hfr2), B2|].
    eexists _, _. split_and!; [by eapply phase2_freed|..|done].
    intros k Hk. cbv beta. by rewrite (proj2 (Z.eqb_neq k NFILE)), orb_false_r by lia.
Qed.

(** ** sfs_truncate *)

Definition keeps (blocklen k : Z) : bool := if k <? SFS_NDIRECT then k <? blocklen else negb (past_end blocklen k).

Record truncated_to (sv : Z) (x : sfs_vnode) (s : sfs) (len : Z) (x' : sfs_vnode) (s' : sfs) : Prop := {
  tt_step : file_step sv x x' s s';
  tt_size : sfi_size (sv_i x') = u32 len;
  tt_refs : ∀ k, 0 ≤ k < NFILE → bref s' (sv_i x') k = if keeps (u32 ((len + 511) / 512)) k then bref s (sv_i x) k else 0;
  tt_data : ∀ k, 0 ≤ k < NFILE → fdata s' (sv_i x') k = if keeps (u32 ((len + 511) / 512)) k then fdata s (sv_i x) k else zero_data;
  tt_indirect : u32 ((len + 511) / 512) < SFS_NDIRECT → sfi_indirect (sv_i x') = 0
}.

Lemma truncate_body X sv x s len : at_file sv x s → let blocklen := u32 ((len + 511) / 512) in
  wpx X (for_ 0 SFS_NDIRECT (trunc_direct sv blocklen) ;;
         trunc_indirect sv blocklen ;;
         update_sv sv (λ x, set_dirty true (set_inode (set_size (u32 len)) x)))
    (λ _ s', ∃ x', truncated_to sv x s len x' s') (λ _ _, False) s.
Proof.
  intros Ha blocklen. wp_steps.
  apply (wp_for (λ i s', ∃ x', truncated sv x s (λ k, (k <? i) && (blocklen <=? k)) x' s')); [done| | |].
  - exists x. apply truncated_refl; [done|]. intros k Hk. destruct (Z.ltb_spec k 0); [lia|done].
  - intros i s1 Hi (x1 & H1). pose proof (at_file_step _ _ _ _ _ Ha (tr_step _ _ _ _ _ _ H1)) as Ha1.
    eapply wp_conseq; [by apply (trunc_direct_spec X sv x1 s1 blocklen i)| |done]. intros [] s2 (x2 & H2). exists x2.
    eapply truncated_trans; [exact H1|exact H2|]. intros k Hk. cbv beta.
    destruct (Z.ltb_spec k (i + 1)), (Z.ltb_spec k i), (Z.eqb_spec k i); try lia; simpl; by rewrite ?orb_false_r.
  - intros s1 (x1 & H1). pose proof (at_file_step _ _ _ _ _ Ha (tr_step _ _ _ _ _ _ H1)) as Ha1. wp_steps.
    eapply wp_conseq; [by apply trunc_indirect_spec| |done]. intros [] s2 (x2 & d & H2 & Hd & Hz).
    pose proof (at_file_step _ _ _ _ _ Ha1 (tr_step _ _ _ _ _ _ H2)) as [A1 A2 A3 A4].
    eapply wp_update_sv; [done|]. destruct (resize_step sv x2 s2 (u32 len) A2 A3 A4 (u32_range len)) as [Hstep _].
    exists (set_dirty true (set_inode (set_size (u32 len)) x2)). split; [|done|..].
    + eapply file_step_trans; [apply H1|]. eapply file_step_trans; [apply H2|exact Hstep].
    + intros k Hk. change (bref (set_sv_at ?f s2) ?i k) with (bref s2 (sv_i x2) k).
      rewrite <- !ref_bref by lia. rewrite (tr_refs _ _ _ _ _ _ H2), (tr_refs _ _ _ _ _ _ H1), Hd by lia. fold blocklen. unfold keeps, past_end.
      destruct (Z.ltb_spec k SFS_NDIRECT), (Z.leb_spec SFS_NDIRECT k); try lia; simpl;
        destruct (Z.leb_spec blocklen k), (Z.ltb_spec k blocklen); try lia; try done; by destruct (_ && _).
    + intros k Hk. change (fdata (set_sv_at ?f s2) ?i k) with (fdata s2 (sv_i x2) k).
      rewrite (tr_data _ _ _ _ _ _ H2), (tr_data _ _ _ _ _ _ H1), Hd by lia. fold blocklen. unfold keeps, past_end.
      destruct (Z.ltb_spec k SFS_NDIRECT), (Z.leb_spec SFS_NDIRECT k); try lia; simpl;
        destruct (Z.leb_spec blocklen k), (Z.ltb_spec k blocklen); try lia; try done; by destruct (_ && _).
    + fold blocklen. intros Hb. apply Hz. intros k Hk. unfold past_end, SFS_NDIRECT, NFILE in *. lia.
Qed.

(** ** The big lock *)

Lemma wp_under_biglock {A} X (m : SM A) Q E s : 0 ≤ vfs_biglock_depth s →
  wpx X m (λ a s', 0 < vfs_biglock_depth s' ∧ Q a (set_depth (λ d, d - 1) s'))
    (λ e s', 0 < vfs_biglock_depth s' ∧ E e (set_depth (λ d, d - 1) s')) (set_depth (λ d, d + 1) s) →
  wpx X (under_biglock m) Q E s.
Proof.
  intros Hd Hm. unfold under_biglock, vfs_biglock_acquire, vfs_biglock_release, vfs_biglock_do_i_hold. wp_steps.
  eapply wp_conseq; [exact Hm| |].
  - intros a s' [Hl HQ]. wp_steps. apply wp_kassert; [lia|]. by wp_steps.
  - intros e s' [Hl HE]. wp_steps. apply wp_kassert; [lia|]. by wp_steps.
Qed.

Lemma set_depth_undo s : set_depth (λ d, d - 1) (set_depth (λ d, d + 1) s) = s.
Proof. destruct s. unfold set_depth. simpl. f_equal. lia. Qed.

Lemma fs_ok_depth f s : fs_ok s → fs_ok (set_depth f s).
Proof. intros H. by apply (fs_ok_ext s). Qed.

Lemma file_ok_depth f s i : file_ok s i → file_ok (set_depth f s) i.
Proof. intros [H1 H2 H3 H4]. by split. Qed.

Lemma at_file_lock sv x s : 0 ≤ vfs_biglock_depth s → fs_ok s → sv_at s !! sv = Some x → file_ok s (sv_i x) →
  at_file sv x (set_depth (λ d, d + 1) s).
Proof. intros Hd H1 H2 H3. split; [unfold biglocked; simpl; lia|by apply fs_ok_depth|done|by apply file_ok_depth]. Qed.

Lemma file_step_unlock sv x x' s s' : file_step sv x x' (set_depth (λ d, d + 1) s) s' → 0 ≤ vfs_biglock_depth s →
  0 < vfs_biglock_depth s' ∧ file_step sv x x' s (set_depth (λ d, d - 1) s').
Proof.
  intros [(R1 & R2) O V N F K G L W] Hd. simpl in R1. split; [lia|]. split; try done.
  - split; [simpl; lia|done].
  - by apply fs_ok_depth.
  - by apply file_ok_depth.
Qed.

Lemma truncated_to_unlock sv x s len x' s' : truncated_to sv x (set_depth (λ d, d + 1) s) len x' s' → 0 ≤ vfs_biglock_depth s →
  0 < vfs_biglock_depth s' ∧ truncated_to sv x s len x' (set_depth (λ d, d - 1) s').
Proof.
  intros [T1 T2 T3 T4 T5] Hd. destruct (file_step_unlock _ _ _ _ _ T1 Hd) as [Hl Hs]. split; [done|]. by split.
Qed.

Lemma sfs_truncate_spec X sv x s len : 0 ≤ vfs_biglock_depth s → fs_ok s → sv_at s !! sv = Some x → file_ok s (sv_i x) →
  wpx X (sfs_truncate sv len) (λ _ s', ∃ x', truncated_to sv x s len x' s') (λ _ _, False) s.
Proof.
  intros Hd H1 H2 H3. unfold sfs_truncate. cbv zeta. replace (len + SFS_BLOCKSIZE - 1) with (len + 511) by (unfold SFS_BLOCKSIZE; lia).
  apply wp_under_biglock; [done|]. eapply wp_conseq; [apply (truncate_body X sv x); by apply at_file_lock| |done].
  intros [] s' (x' & Ht). destruct (truncated_to_unlock _ _ _ _ _ _ Ht Hd) as [Hl Ht']. split; [done|by exists x'].
Qed.

(** A file truncated to nothing has no blocks. *)
Lemma truncate_zero_empty sv x s x' s' : truncated_to sv x s 0 x' s' → ∀ c, ¬ owns_block s' (sv_i x') c.
Proof.
  intros [T1 T2 T3 T4 T5] c [Hc (k & Hk & E)]. unfold ref in E. destruct (Z.eqb_spec k NFILE) as [->|Hne].
  - rewrite T5 in E; [done|]. done.
  - rewrite T3 in E by lia. assert (keeps (u32 ((0 + 511) / 512)) k = false) as Hkeep; [|by rewrite Hkeep in E].
    change (u32 ((0 + 511) / 512)) with 0. unfold keeps, past_end, SFS_NDIRECT, NFILE in *. destruct (Z.ltb_spec k 15); lia.
Qed.
