(* ===== verification/SfsInv.v ===== *)
(** * The simple file system: the invariant of a mounted file system

    [T] gives the current inode of every object: the one in memory if the object is
    loaded, the one on disk otherwise.  The core invariant says how T, the vnodes in
    memory, the disk and the free map fit together: every object's blocks are its
    own and marked in use.  The tree invariant says that the root directory names
    the files and that link counts are right. *)

From S2P Require Import Prelude Bitmap UserCopy Uio Disk SfsTypes Sfs SfsNode SfsMount SfsBlk SfsMap SfsIo SfsDir SfsTrunc.
#[local] Open Scope kern_scope.

Definition is_loaded (s : sfs) (ino : Z) : Prop := ∃ sv x, sv_at s !! sv = Some x ∧ sv_ino x = ino.

Record vnode_ok (T : gmap Z sfs_inode) (s : sfs) (x : sfs_vnode) : Prop := {
  vo_inode : T !! sv_ino x = Some (sv_i x);
  vo_ref : 1 ≤ vn_refcount x;
  vo_open : 0 ≤ vn_opencount x ≤ vn_refcount x;
  vo_ops : ops_of_type (sfi_type (sv_i x)) = Some (vn_ops x);
  vo_clean : sv_dirty x = false → sect s (sv_ino x) = inode_bytes (sv_i x)
}.

Record object_ok (T : gmap Z sfs_inode) (s : sfs) (ino : Z) (i : sfs_inode) : Prop := {
  oo_range : 0 < ino < nblk s;
  oo_marked : marked s ino;
  oo_file : file_ok s i;
  oo_system : ¬ system_block s ino;
  oo_owned : ∀ b, owns_block s i b → T !! b = None ∧ ¬ system_block s b
}.

(** The blocks: [L] holds those that are marked but belong to nobody. *)
Record disk_core (T : gmap Z sfs_inode) (L : Z → Prop) (s : sfs) : Prop := {
  dc_ok : fs_ok s;
  dc_objects : ∀ ino i, T !! ino = Some i → object_ok T s ino i;
  dc_disjoint : ∀ ino i ino' i' b, T !! ino = Some i → T !! ino' = Some i' → owns_block s i b → owns_block s i' b → ino = ino';
  dc_system : ∀ b, system_block s b → marked s b;
  dc_alloc : ∀ b, 0 ≤ b < nblk s → marked s b →
    system_block s b ∨ is_Some (T !! b) ∨ (∃ ino i, T !! ino = Some i ∧ owns_block s i b) ∨ L b
}.

Record mem_core (T : gmap Z sfs_inode) (s : sfs) : Prop := {
  mc_depth : 0 ≤ vfs_biglock_depth s;
  mc_dom : ∀ sv, is_Some (sv_at s !! sv) ↔ sv ∈ sfs_vnodes s;
  mc_nodup : NoDup (sfs_vnodes s);
  mc_next : ∀ sv, is_Some (sv_at s !! sv) → sv < sv_next s;
  mc_vnodes : ∀ sv x, sv_at s !! sv = Some x → vnode_ok T s x;
  mc_inj : ∀ sv sv' x x', sv_at s !! sv = Some x → sv_at s !! sv' = Some x' → sv_ino x = sv_ino x' → sv = sv';
  mc_disk : ∀ ino i, T !! ino = Some i → ¬ is_loaded s ino → sect s ino = inode_bytes i
}.

Record sfs_core (T : gmap Z sfs_inode) (L : Z → Prop) (s : sfs) : Prop := {
  sc_disk : disk_core T L s;
  sc_mem : mem_core T s
}.

(** ** A file whose blocks are kept *)

Section Frame.
Context (s s' : sfs) (i : sfs_inode).
Context (Hf : file_ok s i) (Hsb : sfs_sb s' = sfs_sb s).
Context (Hkeep : ∀ b, owns_block s i b → marked s' b ∧ sect s' b = sect s b).

Lemma frame_ref k : 0 ≤ k ≤ NFILE → ref s' i k = ref s i k.
Proof.
  intros Hk. unfold ref, bref. destruct (k =? NFILE); [done|]. case_match; [done|]. destruct (Z.eqb_spec (sfi_indirect i) 0); [done|].
  destruct (Hkeep (sfi_indirect i)) as [_ ->]; [|done]. split; [done|]. exists NFILE. split; [unfold NFILE; lia|done].
Qed.

Lemma frame_owns b : owns_block s' i b ↔ owns_block s i b.
Proof.
  unfold owns_block. split; intros [Hb (k & Hk & E)]; (split; [done|]; exists k; split; [done|]).
  - by rewrite frame_ref in E.
  - by rewrite frame_ref.
Qed.

Lemma frame_file : file_ok s' i.
Proof.
  destruct Hf as [F1 F2 F3 F4]. split; [done|..].
  - intros k Hk. rewrite frame_ref by done. unfold nblk. rewrite Hsb. destruct (F2 k Hk) as [?|[Hr Hm]]; [by left|right]. split; [done|].
    apply Hkeep. split; [lia|by exists k].
  - intros k k' Hk Hk'. rewrite !frame_ref by done. by apply F3.
  - intros k Hk. rewrite frame_ref, (system_same s) by done. by apply F4.
Qed.

Lemma frame_data k : 0 ≤ k < NFILE → fdata s' i k = fdata s i k.
Proof.
  intros Hk. unfold fdata. assert (bref s' i k = bref s i k) as E.
  { pose proof (frame_ref k ltac:(lia)) as E. unfold ref in E. by rewrite !(proj2 (Z.eqb_neq k NFILE)) in E by lia. }
  rewrite E. destruct (Z.eqb_spec (bref s i k) 0); [done|]. apply Hkeep. split; [done|]. exists k. split; [lia|].
  unfold ref. by rewrite (proj2 (Z.eqb_neq k NFILE)) by lia.
Qed.

Lemma frame_byte p : 0 ≤ p < FILEMAX → fbyte s' i p = fbyte s i p.
Proof.
  intros Hp. unfold fbyte. rewrite frame_data; [done|]. unfold FILEMAX, SFS_BLOCKSIZE in *.
  split; [apply Z.div_pos; lia|apply Z.div_lt_upper_bound; lia].
Qed.

Lemma frame_entry slot : sfi_size i ≤ FILEMAX → entry s' i slot = entry s i slot.
Proof.
  intros Hsz. unfold entry. case_decide as Hs; [|done]. assert (dirent s' i slot = dirent s i slot) as ->; [|done].
  unfold dirent. f_equal. apply fbytes_ext. intros p Hp. apply frame_byte. unfold nslots, sizeof_sfs_dir in *.
  pose proof (Z.div_mod (sfi_size i) 64 ltac:(done)). pose proof (Z.mod_pos_bound (sfi_size i) 64 ltac:(done)). lia.
Qed.
End Frame.

Lemma nblk_rest s s' : same_rest s s' → nblk s' = nblk s.
Proof. intros (_ & E & _). unfold nblk. by rewrite E. Qed.

Lemma system_rest s s' b : same_rest s s' → system_block s' b ↔ system_block s b.
Proof. intros (_ & E & _). by apply system_same. Qed.

(** ** Steps on one object preserve the core *)

(** An operation on the object of vnode [sv], which may change its counts too. *)
Record obj_step (sv : Z) (x x' : sfs_vnode) (s s' : sfs) : Prop := {
  os_rest : same_rest s s';
  os_ok : fs_ok s';
  os_svs : sv_at s' = <[sv := x']> (sv_at s);
  os_ino : sv_ino x' = sv_ino x;
  os_counts : 1 ≤ vn_refcount x' ∧ 0 ≤ vn_opencount x' ≤ vn_refcount x';
  os_ops : ops_of_type (sfi_type (sv_i x')) = Some (vn_ops x');
  os_dirty : sv_dirty x' = false → sv_i x' = sv_i x ∧ sv_dirty x = false;
  os_file : file_ok s' (sv_i x');
  os_kept : ∀ c, marked s c → owns_block s (sv_i x) c ∨ (marked s' c ∧ sect s' c = sect s c);
  os_gain : ∀ c, owns_block s' (sv_i x') c → owns_block s (sv_i x) c ∨ ¬ marked s c;
  os_lose : ∀ c, owns_block s (sv_i x) c → owns_block s' (sv_i x') c ∨ ¬ marked s' c;
  os_new : ∀ c, marked s' c → marked s c ∨ owns_block s' (sv_i x') c
}.

Lemma file_step_obj T s sv x x' s' : vnode_ok T s x → file_step sv x x' s s' → obj_step sv x x' s s'.
Proof.
  intros [N1 N2 N3 N4 N5] [R O Sv (V1 & V2 & V3 & V4 & V5 & V6 & V7) F K G Lo W]. split; try done; [by rewrite V2, V3|by rewrite V5, V1|].
  intros Hd. destruct V7 as [->|V7]; [done|congruence].
Qed.

(** An update of the vnode that keeps its blocks. *)
Lemma set_sv_obj s sv x x' : fs_ok s → sv_at s !! sv = Some x → file_ok s (sv_i x) → inode_wf (sv_i x') → sv_ino x' = sv_ino x →
  1 ≤ vn_refcount x' ∧ 0 ≤ vn_opencount x' ≤ vn_refcount x' → ops_of_type (sfi_type (sv_i x')) = Some (vn_ops x') →
  (sv_dirty x' = false → sv_i x' = sv_i x ∧ sv_dirty x = false) →
  sfi_direct (sv_i x') = sfi_direct (sv_i x) → sfi_indirect (sv_i x') = sfi_indirect (sv_i x) →
  obj_step sv x x' s (set_sv_at <[sv := x']> s).
Proof.
  intros Hok Hx [F1 F2 F3 F4] Hwf Hino Hcnt Hops Hd E1 E2.
  assert (∀ k, ref (set_sv_at <[sv := x']> s) (sv_i x') k = ref s (sv_i x) k) as Href.
  { intros k. unfold ref, bref. by rewrite E1, E2. }
  assert (∀ c, owns_block (set_sv_at <[sv := x']> s) (sv_i x') c ↔ owns_block s (sv_i x) c) as Hown.
  { intros c. unfold owns_block. by setoid_rewrite Href. }
  split; try done.
  - by apply fs_ok_svs.
  - split; [done|..]; setoid_rewrite Href; done.
  - by right.
  - intros c ?%Hown. by left.
  - intros c ?%Hown. by left.
  - by left.
Qed.

Section ObjStep.
Context (T : gmap Z sfs_inode) (L : Z → Prop) (s s' : sfs) (sv : Z) (x x' : sfs_vnode).
Context (Hc : disk_core T L s) (Hm : mem_core T s) (Hx : sv_at s !! sv = Some x) (Hstep : obj_step sv x x' s s').
#[local] Notation T' := (<[sv_ino x := sv_i x']> T).

Lemma step_ino : sv_ino x' = sv_ino x.
Proof. apply Hstep. Qed.

Lemma step_inode : T !! sv_ino x = Some (sv_i x).
Proof. apply (mc_vnodes _ _ Hm sv x Hx). Qed.

(** Blocks of the others. *)
Lemma step_other ino i b : T !! ino = Some i → ino ≠ sv_ino x → owns_block s i b → marked s' b ∧ sect s' b = sect s b.
Proof.
  intros Hi Hne Hb. destruct (os_kept _ _ _ _ _ Hstep b) as [Ho|?]; [| |done].
  - destruct Hb as [Hb0 (k & Hk & <-)]. destruct (fo_refs _ _ (oo_file _ _ _ _ (dc_objects _ _ _ Hc _ _ Hi)) k Hk) as [?|[_ ?]]; done.
  - destruct Hne. by apply (dc_disjoint _ _ _ Hc ino i (sv_ino x) (sv_i x) b); [done|apply step_inode|..].
Qed.

Lemma step_inode_block ino i : T !! ino = Some i → marked s' ino ∧ sect s' ino = sect s ino.
Proof.
  intros Hi. destruct (dc_objects _ _ _ Hc _ _ Hi) as [O1 O2 O3 O4 O5]. destruct (os_kept _ _ _ _ _ Hstep ino O2) as [Ho|?]; [|done].
  destruct (oo_owned _ _ _ _ (dc_objects _ _ _ Hc _ _ step_inode) ino Ho). congruence.
Qed.

Lemma step_system b : system_block s b → marked s' b ∧ sect s' b = sect s b.
Proof.
  intros Hb. destruct (os_kept _ _ _ _ _ Hstep b (dc_system _ _ _ Hc b Hb)) as [Ho|?]; [|done].
  by destruct (oo_owned _ _ _ _ (dc_objects _ _ _ Hc _ _ step_inode) b Ho).
Qed.

Lemma step_lookup sv' y' : sv_at s' !! sv' = Some y' → (sv' = sv ∧ y' = x') ∨ (sv' ≠ sv ∧ sv_at s !! sv' = Some y').
Proof.
  rewrite (os_svs _ _ _ _ _ Hstep). destruct (decide (sv' = sv)) as [->|Hne].
  - rewrite lookup_insert_eq. intros [= ->]. by left.
  - rewrite lookup_insert_ne by done. by right.
Qed.

Lemma step_loaded ino : is_loaded s' ino ↔ is_loaded s ino.
Proof.
  unfold is_loaded. split.
  - intros (sv' & y & [[-> ->]|[Hne Hy]]%step_lookup & E); [exists sv, x; by rewrite <- E, step_ino|by exists sv', y].
  - intros (sv' & y & Hy & E). rewrite (os_svs _ _ _ _ _ Hstep). destruct (decide (sv' = sv)) as [->|Hne].
    + exists sv, x'. rewrite lookup_insert_eq, step_ino. simplify_eq. done.
    + exists sv', y. by rewrite lookup_insert_ne.
Qed.

(** What a file owns afterwards was its own or free. *)
Lemma step_owner ino i b : T' !! ino = Some i → owns_block s' i b →
  (ino = sv_ino x ∧ i = sv_i x' ∧ (owns_block s (sv_i x) b ∨ ¬ marked s b)) ∨ (ino ≠ sv_ino x ∧ T !! ino = Some i ∧ owns_block s i b).
Proof.
  intros Hi Hb. destruct (decide (ino = sv_ino x)) as [->|Hne].
  - rewrite lookup_insert_eq in Hi. injection Hi as <-. left. split_and!; [done..|]. by apply (os_gain _ _ _ _ _ Hstep).
  - rewrite lookup_insert_ne in Hi by done. right. split_and!; [done..|].
    refine (proj1 (frame_owns s s' i _ b) Hb). intros c Hc'. by eapply step_other.
Qed.

Lemma T'_none b : T !! b = None → T' !! b = None.
Proof. intros Hb. rewrite lookup_insert_ne; [done|]. intros <-. by rewrite step_inode in Hb. Qed.

Lemma step_object ino i : T' !! ino = Some i → object_ok T' s' ino i.
Proof.
  intros Hi. assert (∃ i0, T !! ino = Some i0) as [i0 Hi0].
  { destruct (decide (ino = sv_ino x)) as [->|Hne]; [eexists; apply step_inode|]. rewrite lookup_insert_ne in Hi by done. by eexists. }
  pose proof (dc_objects _ _ _ Hc _ _ Hi0) as [O1 O2 O3 O4 O5]. pose proof (os_rest _ _ _ _ _ Hstep) as Hrest.
  destruct (step_inode_block ino i0 Hi0) as [Hm' Hs]. split.
  - by rewrite (nblk_rest _ _ Hrest).
  - done.
  - destruct (decide (ino = sv_ino x)) as [->|Hne].
    + rewrite lookup_insert_eq in Hi. injection Hi as <-. apply (os_file _ _ _ _ _ Hstep).
    + rewrite lookup_insert_ne in Hi by done. simplify_eq. apply (frame_file s s'); [done|apply Hrest|].
      intros b Hb. by eapply step_other.
  - by rewrite (system_rest s s').
  - intros b Hb. rewrite (system_rest s s') by done.
    destruct (step_owner ino i b Hi Hb) as [(-> & -> & [Hb'|Hb'])|(Hne & Hi' & Hb')].
    + destruct (oo_owned _ _ _ _ (dc_objects _ _ _ Hc _ _ step_inode) b Hb'). split; [by apply T'_none|done].
    + split; [|intros H%(dc_system _ _ _ Hc); done]. apply T'_none. destruct (T !! b) as [j|] eqn:Ej; [|done].
      destruct Hb'. by apply (dc_objects _ _ _ Hc _ _ Ej).
    + destruct (oo_owned _ _ _ _ (dc_objects _ _ _ Hc _ _ Hi') b Hb'). split; [by apply T'_none|done].
Qed.

Lemma step_vnode sv' y : sv_at s' !! sv' = Some y → vnode_ok T' s' y.
Proof.
  intros [[-> ->]|[Hne Hy]]%step_lookup.
  - destruct (mc_vnodes _ _ Hm sv x Hx) as [N1 N2 N3 N4 N5]. destruct (os_counts _ _ _ _ _ Hstep).
    split; rewrite ?step_ino; try done; [by rewrite lookup_insert_eq|apply Hstep|].
    intros Hd. destruct (os_dirty _ _ _ _ _ Hstep Hd) as [-> Hd']. destruct (step_inode_block _ _ step_inode) as [_ ->]. by apply N5.
  - destruct (mc_vnodes _ _ Hm sv' y Hy) as [N1 N2 N3 N4 N5]. split; try done.
    + rewrite lookup_insert_ne; [done|]. intros E. by destruct Hne; apply (mc_inj _ _ Hm sv' sv y x).
    + intros Hd. destruct (step_inode_block _ _ N1) as [_ ->]. by apply N5.
Qed.

Lemma mem_obj_step : mem_core T' s'.
Proof.
  pose proof (os_rest _ _ _ _ _ Hstep) as (R1 & R2 & R3 & R4 & R5 & R6). split.
  - rewrite R1. apply Hm.
  - intros sv'. rewrite R4, <- (mc_dom _ _ Hm), (os_svs _ _ _ _ _ Hstep). rewrite lookup_insert_is_Some'. split; [|by right].
    intros [<-|?]; [by eexists|done].
  - rewrite R4. apply Hm.
  - intros sv' Hsv. rewrite R5. apply (mc_next _ _ Hm). rewrite (os_svs _ _ _ _ _ Hstep), lookup_insert_is_Some' in Hsv.
    destruct Hsv as [<-|?]; [by eexists|done].
  - apply step_vnode.
  - intros sv1 sv2 y1 y2 [[-> ->]|[H1 H1']]%step_lookup [[-> ->]|[H2 H2']]%step_lookup E; rewrite ?step_ino in E; try done.
    + by apply (mc_inj _ _ Hm sv sv2 x y2).
    + by apply (mc_inj _ _ Hm sv1 sv y1 x).
    + by apply (mc_inj _ _ Hm sv1 sv2 y1 y2).
  - intros ino i Hi. rewrite step_loaded. intros Hl. destruct (decide (ino = sv_ino x)) as [->|Hne].
    + destruct Hl. by exists sv, x.
    + rewrite lookup_insert_ne in Hi by done. destruct (step_inode_block ino i Hi) as [_ ->]. by apply (mc_disk _ _ Hm).
Qed.

Lemma owns_marked ino i b : T !! ino = Some i → owns_block s i b → marked s b.
Proof.
  intros Hi [Hb0 (k & Hk & <-)]. by destruct (fo_refs _ _ (oo_file _ _ _ _ (dc_objects _ _ _ Hc _ _ Hi)) k Hk) as [?|[_ ?]].
Qed.

Lemma disk_obj_step : disk_core T' L s'.
Proof.
  pose proof (os_rest _ _ _ _ _ Hstep) as Hrest. split.
  - apply (os_ok _ _ _ _ _ Hstep).
  - apply step_object.
  - intros ino i ino' i' b Hi Hi' Hb Hb'.
    destruct (step_owner _ _ _ Hi Hb) as [(-> & -> & Ho)|(Hne & Hj & Ho)], (step_owner _ _ _ Hi' Hb') as [(-> & -> & Ho')|(Hne' & Hj' & Ho')]; try done.
    + destruct Ho as [Ho|Ho]; [by apply (dc_disjoint _ _ _ Hc _ _ _ _ b step_inode Hj')|]. destruct Ho. by eapply owns_marked.
    + destruct Ho' as [Ho'|Ho']; [by apply (dc_disjoint _ _ _ Hc _ _ _ _ b Hj step_inode)|]. destruct Ho'. by eapply owns_marked.
    + by apply (dc_disjoint _ _ _ Hc _ _ _ _ b Hj Hj').
  - intros b Hb. apply step_system. by apply (system_rest s s').
  - intros b Hb Hmb. rewrite (nblk_rest _ _ Hrest) in Hb. rewrite (system_rest s s') by done.
    destruct (os_new _ _ _ _ _ Hstep b Hmb) as [Hm0|Ho].
    2: { right. right. left. exists (sv_ino x), (sv_i x'). by rewrite lookup_insert_eq. }
    destruct (dc_alloc _ _ _ Hc b Hb Hm0) as [?|[Hi|[(ino & i & Hi & Ho)|?]]].
    + by left.
    + right. left. rewrite lookup_insert_is_Some'. by right.
    + right. right. left. destruct (decide (ino = sv_ino x)) as [->|Hne].
      * rewrite step_inode in Hi. injection Hi as <-. destruct (os_lose _ _ _ _ _ Hstep b Ho) as [Ho'|?]; [|done].
        exists (sv_ino x), (sv_i x'). by rewrite lookup_insert_eq.
      * exists ino, i. rewrite lookup_insert_ne by done. split; [done|].
        refine (proj2 (frame_owns s s' i _ b) Ho). intros c Hc'. by eapply step_other.
    + by right; right; right.
Qed.
End ObjStep.

Lemma core_obj_step T L s sv x x' s' : sfs_core T L s → sv_at s !! sv = Some x → obj_step sv x x' s s' →
  sfs_core (<[sv_ino x := sv_i x']> T) L s'.
Proof. intros [Hc Hm] Hx Hs. split; [by eapply disk_obj_step|by eapply mem_obj_step]. Qed.

(** ** Other steps that preserve the core *)

(** The same blocks belong to the same objects. *)
Lemma disk_transport T T' L s s' : disk_core T L s → fs_ok s' → sfs_sb s' = sfs_sb s → (∀ b, marked s' b ↔ marked s b) →
  (∀ ino i b, T !! ino = Some i → owns_block s i b → sect s' b = sect s b) →
  (∀ ino, is_Some (T' !! ino) ↔ is_Some (T !! ino)) →
  (∀ ino i i', T !! ino = Some i → T' !! ino = Some i' → sfi_direct i' = sfi_direct i ∧ sfi_indirect i' = sfi_indirect i ∧ inode_wf i') →
  disk_core T' L s'.
Proof.
  intros [C1 C2 C3 C4 C5] Hok Hsb Hmark Hsect Hdom HT.
  assert (nblk s' = nblk s) as Hn by (unfold nblk; by rewrite Hsb).
  assert (∀ b, system_block s' b ↔ system_block s b) as Hsys by (intros b; by apply system_same).
  assert (∀ b, T !! b = None → T' !! b = None) as HTn.
  { intros b Hb. apply eq_None_not_Some. rewrite Hdom, Hb. by intros []. }
  assert (∀ ino i', T' !! ino = Some i' → ∃ i, T !! ino = Some i ∧ file_ok s' i' ∧ ∀ b, owns_block s' i' b ↔ owns_block s i b) as Hobj.
  { intros ino i' Hi'. destruct (proj1 (Hdom ino)) as [i Hi]; [by eexists|]. exists i. destruct (HT _ _ _ Hi Hi') as (E1 & E2 & Hwf).
    assert (∀ b, owns_block s i b → marked s' b ∧ sect s' b = sect s b) as Hkeep.
    { intros b Hb. rewrite Hmark. split; [|by eapply Hsect]. by eapply owns_marked. }
    assert (∀ k, ref s' i' k = ref s' i k) as Href by (intros k; unfold ref, bref; by rewrite E1, E2).
    split_and!; [done| |].
    - destruct (frame_file s s' i) as [F1 F2 F3 F4]; [apply (C2 _ _ Hi)|done|done|]. split; [done|..]; setoid_rewrite Href; done.
    - intros b. rewrite <- (frame_owns s s' i) by done. unfold owns_block. by setoid_rewrite Href. }
  split; [done|..].
  - intros ino i' Hi'. destruct (Hobj _ _ Hi') as (i & Hi & Hf & Ho). destruct (C2 _ _ Hi) as [O1 O2 O3 O4 O5].
    split; rewrite ?Hn, ?Hmark, ?Hsys; try done. intros b Hb%Ho. rewrite Hsys. destruct (O5 b Hb). auto.
  - intros ino i ino' i' b Hi Hi' Hb Hb'. destruct (Hobj _ _ Hi) as (j & Hj & _ & Ho), (Hobj _ _ Hi') as (j' & Hj' & _ & Ho').
    apply (C3 ino j ino' j' b); try done; [by apply Ho|by apply Ho'].
  - intros b Hb%Hsys. by apply Hmark, C4.
  - intros b Hb Hm%Hmark. rewrite Hn in Hb. rewrite Hsys, Hdom. destruct (C5 b Hb Hm) as [?|[?|[(ino & i & Hi & Ho)|?]]]; [by auto..| |by auto].
    right. right. left. destruct (proj2 (Hdom ino)) as [i' Hi']; [by eexists|]. destruct (Hobj _ _ Hi') as (j & Hj & _ & Ho').
    simplify_eq. exists ino, i'. split; [done|by apply Ho'].
Qed.

(** The core does not depend on the remaining fields. *)
Lemma core_ext T L s s' : sfs_core T L s → sfs_device s' = sfs_device s → sfs_sb s' = sfs_sb s → sfs_vnodes s' = sfs_vnodes s →
  sfs_freemap s' = sfs_freemap s → same_flags s s' → sv_at s' = sv_at s → sv_next s ≤ sv_next s' → 0 ≤ vfs_biglock_depth s' → sfs_core T L s'.
Proof.
  intros [Hc [C1 C2 C3 C4 C5 C6 C7]] E1 E2 E3 E4 E6 E5 Hn Hd. split.
  - eapply disk_transport; [exact Hc|..]; try done.
    + by apply (fs_ok_ext s); [apply Hc|..].
    + intros b. unfold marked. by rewrite E4.
    + intros ino i b _ _. unfold sect. by rewrite E1.
    + intros ino i i' Hi Hi'. simplify_eq. split_and!; try done. apply (oo_file _ _ _ _ (dc_objects _ _ _ Hc _ _ Hi)).
  - destruct s, s'. simpl in *. subst. split; try done.
    + intros sv Hsv. specialize (C4 sv Hsv). simpl in *. lia.
    + intros sv x Hx. destruct (C5 sv x Hx). by split.
Qed.

Lemma remove_ptr_spec sv l l' : NoDup l → remove_ptr sv l = Some l' → NoDup l' ∧ ∀ p, p ∈ l' ↔ p ≠ sv ∧ p ∈ l.
Proof.
  revert l'. induction l as [|p l IH]; intros l' Hnd Hl; [done|]. simpl in Hl. apply NoDup_cons in Hnd as [Hp Hnd].
  destruct (Z.eqb_spec p sv) as [->|Hne].
  - simplify_eq. split; [done|]. intros q. rewrite elem_of_cons. split; [|naive_solver]. intros H. split; [|by right]. by intros ->.
  - destruct (remove_ptr sv l) as [l0|] eqn:El; [|done]. simpl in Hl. simplify_eq. destruct (IH l0 Hnd eq_refl) as [H1 H2]. split.
    + constructor; [|done]. rewrite H2. naive_solver.
    + intros q. rewrite !elem_of_cons, H2. naive_solver.
Qed.

Lemma remove_ptr_some sv l : sv ∈ l → is_Some (remove_ptr sv l).
Proof.
  induction l as [|p l IH]; [by intros ?%not_elem_of_nil|]. simpl. intros [->|Hl]%elem_of_cons; [rewrite Z.eqb_refl; by eexists|]. case_match; [by eexists|].
  destruct (IH Hl) as [l0 ->]. by eexists.
Qed.

(** Dropping a vnode whose object is gone or has its inode on disk. *)
Lemma mem_drop T T' s sv x l : mem_core T s → sv_at s !! sv = Some x →
  (∀ ino, ino ≠ sv_ino x → T' !! ino = T !! ino) → (∀ i, T' !! sv_ino x = Some i → sect s (sv_ino x) = inode_bytes i) →
  remove_ptr sv (sfs_vnodes s) = Some l → mem_core T' (set_sv_at (delete sv) (set_vnodes (λ _, l) s)).
Proof.
  intros Hmem Hx HT Hd Hl. pose proof Hmem as [C1 C2 C3 C4 C5 C6 C7]. destruct (remove_ptr_spec _ _ _ C3 Hl) as [Hnd Hin].
  assert (∀ sv' y, delete sv (sv_at s) !! sv' = Some y ↔ sv' ≠ sv ∧ sv_at s !! sv' = Some y) as Hlk.
  { intros sv' y. rewrite lookup_delete_Some. naive_solver. }
  split; try done.
  - intros sv'. cbn [set_sv_at set_vnodes sv_at sfs_vnodes]. rewrite Hin, <- C2. unfold is_Some. setoid_rewrite Hlk. naive_solver.
  - intros sv' [y Hy]. cbn [set_sv_at set_vnodes sv_at sv_next] in *. apply Hlk in Hy as [_ Hy]. apply C4. by eexists.
  - intros sv' y [Hne Hy]%Hlk. destruct (C5 sv' y Hy). split; try done. rewrite HT; [done|]. intros E. by destruct Hne; apply (C6 sv' sv y x).
  - intros sv1 sv2 y1 y2 [_ H1]%Hlk [_ H2]%Hlk. by apply C6.
  - intros ino i Hi Hnl. destruct (decide (ino = sv_ino x)) as [->|Hne]; [by apply Hd|]. rewrite HT in Hi by done.
    apply (C7 ino i Hi). intros (sv' & y & Hy & E). apply Hnl. exists sv', y. split; [|done]. apply Hlk. split; [|done]. intros ->. simplify_eq.
Qed.

Lemma core_drop T L s sv x l : sfs_core T L s → sv_at s !! sv = Some x → sv_dirty x = false →
  remove_ptr sv (sfs_vnodes s) = Some l → sfs_core T L (set_sv_at (delete sv) (set_vnodes (λ _, l) s)).
Proof.
  intros [Hc Hm] Hx Hd Hl. destruct (mc_vnodes _ _ Hm sv x Hx) as [V1 V2 V3 V4 V5]. split.
  - eapply disk_transport; [exact Hc|..]; try done.
    + by apply (fs_ok_ext s); [apply Hc|..].
    + intros ino i i' Hi Hi'. simplify_eq. split_and!; try done. apply (oo_file _ _ _ _ (dc_objects _ _ _ Hc _ _ Hi)).
  - eapply mem_drop; [done..| |done]. intros i Hi. simplify_eq. by apply V5.
Qed.

(** A vnode for an object that was not loaded. *)
Record vnode_added (s : sfs) (x : sfs_vnode) (s' : sfs) : Prop := {
  va_device : sfs_device s' = sfs_device s;
  va_sb : sfs_sb s' = sfs_sb s;
  va_freemap : sfs_freemap s' = sfs_freemap s;
  va_flags : same_flags s s';
  va_depth : vfs_biglock_depth s' = vfs_biglock_depth s;
  va_svs : sv_at s' = <[sv_next s := x]> (sv_at s);
  va_vnodes : sfs_vnodes s' = sfs_vnodes s ++ [sv_next s];
  va_next : sv_next s' = sv_next s + 1
}.

Lemma next_fresh T s : mem_core T s → sv_at s !! sv_next s = None.
Proof.
  intros Hm. destruct (sv_at s !! sv_next s) eqn:E; [|done]. pose proof (mc_next _ _ Hm (sv_next s) ltac:(by eexists)). lia.
Qed.

Lemma mem_load T s x s' i : mem_core T s → T !! sv_ino x = Some i → ¬ is_loaded s (sv_ino x) → vnode_added s x s' →
  vn_refcount x = 1 → vn_opencount x = 0 → ops_of_type (sfi_type (sv_i x)) = Some (vn_ops x) →
  (sv_dirty x = false → sv_i x = i) → mem_core (<[sv_ino x := sv_i x]> T) s'.
Proof.
  intros Hmem Hi Hnl [A1 A2 A3 A8 A4 A5 A6 A7] Hrc Hoc Hops Hd. pose proof (next_fresh _ _ Hmem) as Hfresh.
  pose proof Hmem as [C1 C2 C3 C4 C5 C6 C7].
  assert (∀ b, sect s' b = sect s b) as Hsect by (intros b; unfold sect; by rewrite A1).
  assert (∀ sv y, sv_at s' !! sv = Some y → (sv = sv_next s ∧ y = x) ∨ (sv_at s !! sv = Some y ∧ sv_ino y ≠ sv_ino x)) as Hlk.
  { intros sv y. rewrite A5. intros [[<- <-]|[Hne Hy]]%lookup_insert_Some; [by left|right]. split; [done|]. intros E. apply Hnl. by exists sv, y. }
  split.
  - by rewrite A4.
  - intros sv. rewrite A5, A6, lookup_insert_is_Some', elem_of_app, list_elem_of_singleton, <- C2. naive_solver.
  - rewrite A6. apply NoDup_app. split_and!; [done| |apply NoDup_singleton]. intros sv Hsv ->%list_elem_of_singleton.
    apply C2 in Hsv as [y Hy]. congruence.
  - intros sv. rewrite A5, A7, lookup_insert_is_Some'. intros [<-|Hsv]; [lia|]. specialize (C4 sv Hsv). lia.
  - intros sv y [[-> ->]|[Hy Hne]]%Hlk.
    + split; try done; [by rewrite lookup_insert_eq|lia|lia|]. intros E. rewrite Hsect, (Hd E). by apply C7.
    + destruct (C5 sv y Hy). split; try done; [by rewrite lookup_insert_ne|by rewrite Hsect].
  - intros sv sv' y y' [[-> ->]|[Hy Hne]]%Hlk [[-> ->]|[Hy' Hne']]%Hlk E; try done; by apply (C6 sv sv' y y').
  - intros ino j Hj Hn. rewrite Hsect. assert (ino ≠ sv_ino x) as Hne.
    { intros ->. apply Hn. exists (sv_next s), x. by rewrite A5, lookup_insert_eq. }
    rewrite lookup_insert_ne in Hj by done. apply C7; [done|]. intros (sv & y & Hy & E). apply Hn. exists sv, y. split; [|done].
    rewrite A5, lookup_insert_ne; [done|]. intros <-. congruence.
Qed.

Lemma core_load T L s x s' i : sfs_core T L s → T !! sv_ino x = Some i → ¬ is_loaded s (sv_ino x) → vnode_added s x s' →
  vn_refcount x = 1 → vn_opencount x = 0 → ops_of_type (sfi_type (sv_i x)) = Some (vn_ops x) → inode_wf (sv_i x) →
  sfi_direct (sv_i x) = sfi_direct i → sfi_indirect (sv_i x) = sfi_indirect i → (sv_dirty x = false → sv_i x = i) →
  sfs_core (<[sv_ino x := sv_i x]> T) L s'.
Proof.
  intros [Hc Hm] Hi Hnl Ha Hrc Hoc Hops Hwf Ed Ei Hd. split; [|by eapply mem_load].
  destruct Ha as [A1 A2 A3 A8 A4 A5 A6 A7]. eapply disk_transport; [exact Hc|..]; try done.
  - by apply (fs_ok_ext s); [apply Hc|..].
  - intros b. unfold marked. by rewrite A3.
  - intros ino j b _ _. unfold sect. by rewrite A1.
  - intros ino. rewrite lookup_insert_is_Some'. split; [|by right]. intros [<-|?]; [by eexists|done].
  - intros ino j j' Hj [[<- <-]|[Hne Hj']]%lookup_insert_Some; simplify_eq; split_and!; try done.
    apply (oo_file _ _ _ _ (dc_objects _ _ _ Hc _ _ Hj)).
Qed.

(** The inode of a loaded object written back. *)
Lemma core_sync T L s sv x : sfs_core T L s → sv_at s !! sv = Some x →
  sfs_core T L (set_sv_at <[sv := set_dirty false x]> (set_device (write_sector (sv_ino x) (inode_bytes (sv_i x)) (sfs_device s)) s)).
Proof.
  intros [Hc Hm] Hx. pose proof Hm as [C1 C2 C3 C4 C5 C6 C7]. destruct (C5 sv x Hx) as [V1 V2 V3 V4 V5].
  destruct (dc_objects _ _ _ Hc _ _ V1) as [O1 O2 O3 O4 O5]. pose proof (ok_size _ (dc_ok _ _ _ Hc)).
  set (s1 := set_device _ s). set (s' := set_sv_at _ s1).
  assert (∀ b, sect s' b = if decide (b = sv_ino x) then inode_bytes (sv_i x) else sect s b) as Hsect by (intros b; apply sect_write; lia).
  assert (∀ sv' y, sv_at s' !! sv' = Some y → (sv' = sv ∧ y = set_dirty false x) ∨ (sv_at s !! sv' = Some y ∧ sv_ino y ≠ sv_ino x)) as Hlk.
  { intros sv' y. change (sv_at s') with (<[sv := set_dirty false x]> (sv_at s)).
    intros [[<- <-]|[Hne Hy]]%lookup_insert_Some; [by left|right]. split; [done|]. intros E. by destruct Hne; apply (C6 sv sv' x y). }
  split.
  - eapply disk_transport; [exact Hc|..]; try done.
    + apply fs_ok_svs, fs_ok_write; [apply Hc|apply inode_roundtrip, O3|done].
    + intros ino i b Hi Ho. rewrite Hsect, decide_False; [done|]. intros ->. destruct (oo_owned _ _ _ _ (dc_objects _ _ _ Hc _ _ Hi) _ Ho). congruence.
    + intros ino i i' Hi Hi'. simplify_eq. split_and!; try done. apply (oo_file _ _ _ _ (dc_objects _ _ _ Hc _ _ Hi)).
  - split; try done.
    + intros sv'. unfold s'. cbn [set_sv_at sv_at sfs_vnodes s1 set_device]. rewrite <- C2, lookup_insert_is_Some'. split; [|by right].
      intros [<-|?]; [by eexists|done].
    + intros sv' [y [[-> ->]|[Hy _]]%Hlk]; apply C4; by eexists.
    + intros sv' y [[-> ->]|[Hy Hne]]%Hlk.
      * split; try done. intros _. simpl. by rewrite Hsect, decide_True.
      * destruct (C5 sv' y Hy). split; try done. rewrite Hsect, decide_False by done. done.
    + intros sv1 sv2 y1 y2 [[-> ->]|[H1 H1']]%Hlk [[-> ->]|[H2 H2']]%Hlk E; try done; simpl in E; try congruence. by apply (C6 sv1 sv2 y1 y2).
    + intros ino i Hi Hn. rewrite Hsect. rewrite decide_False.
      * apply C7; [done|]. intros (sv' & y & Hy & E). apply Hn. destruct (decide (sv' = sv)) as [->|Hne].
        -- exists sv, (set_dirty false x). simplify_eq. split; [apply lookup_insert_eq|done].
        -- exists sv', y. split; [|done]. unfold s'. simpl. by rewrite lookup_insert_ne.
      * intros ->. apply Hn. exists sv, (set_dirty false x). split; [apply lookup_insert_eq|done].
Qed.

(** ** Objects that come and go *)

Definition zero_inode : sfs_inode := bytes_inode zero_data.

Lemma zero_inode_refs s k : ref s zero_inode k = 0.
Proof.
  unfold ref, bref. change (sfi_indirect zero_inode) with 0. change (sfi_direct zero_inode) with (replicate 15 0).
  destruct (k =? NFILE); [done|]. destruct (k <? SFS_NDIRECT); [|done]. destruct (lookupZ (replicate 15 0) k) as [b|] eqn:E; [|done]. simpl.
  unfold lookupZ in E. case_decide; [|done]. by apply lookup_replicate in E as [-> _].
Qed.

Lemma zero_inode_owns s b : ¬ owns_block s zero_inode b.
Proof. intros [Hb (k & _ & E)]. by rewrite zero_inode_refs in E. Qed.

Lemma zero_inode_ok s : file_ok s zero_inode.
Proof.
  split.
  - apply block_inode, zero_block_data.
  - intros k _. left. apply zero_inode_refs.
  - intros k k' _ _ _ H. by rewrite zero_inode_refs in H.
  - intros k _ H. by rewrite zero_inode_refs in H.
Qed.

Section Added.
Context (T : gmap Z sfs_inode) (L : Z → Prop) (s : sfs) (b : Z) (s1 : sfs).
Context (Hcore : sfs_core T L s) (Hadd : block_added s b s1).

Lemma added_fresh : T !! b = None.
Proof.
  destruct (T !! b) as [i|] eqn:E; [|done]. destruct (ba_fresh _ _ _ Hadd). apply (dc_objects _ _ _ (sc_disk _ _ _ Hcore) _ _ E).
Qed.

Lemma added_kept c : marked s c → marked s1 c ∧ sect s1 c = sect s c.
Proof.
  intros Hc. split; [apply (ba_marked _ _ _ Hadd); by right|]. rewrite (ba_sect _ _ _ Hadd), decide_False; [done|].
  intros ->. by apply (ba_fresh _ _ _ Hadd).
Qed.

Lemma added_object ino i : T !! ino = Some i → ∀ T', (∀ c, marked s c → T !! c = None → T' !! c = None) → object_ok T' s1 ino i.
Proof.
  intros Hi T' HT'. destruct Hcore as [Hc _]. destruct (dc_objects _ _ _ Hc _ _ Hi) as [O1 O2 O3 O4 O5]. pose proof (ba_rest _ _ _ Hadd) as Hrest.
  assert (∀ c, owns_block s i c → marked s1 c ∧ sect s1 c = sect s c) as Hkeep.
  { intros c Hc'. apply added_kept. by eapply owns_marked. }
  split.
  - by rewrite (nblk_rest _ _ Hrest).
  - by apply added_kept.
  - apply (frame_file s); [done|apply Hrest|done].
  - by rewrite (system_rest s s1).
  - intros c Hc'. apply (frame_owns s s1 i Hkeep) in Hc'. rewrite (system_rest s s1) by done. destruct (O5 c Hc'). split; [|done].
    apply HT'; [by eapply owns_marked|done].
Qed.

Lemma added_owns ino i c : T !! ino = Some i → owns_block s1 i c ↔ owns_block s i c.
Proof. intros Hi. apply frame_owns. intros c' Hc'. apply added_kept. destruct Hcore as [Hc _]. by eapply owns_marked. Qed.

Lemma added_mem T' : (∀ ino, ino ≠ b → T' !! ino = T !! ino) → (∀ i, T' !! b = Some i → inode_bytes i = zero_data) → mem_core T' s1.
Proof.
  intros HT' Hb. destruct Hcore as [Hc [C1 C2 C3 C4 C5 C6 C7]]. pose proof added_fresh as Hf. destruct Hadd as [(R1 & R2 & R3 & R4 & R5 & R6) B2 B3 B4 B5 B6 B7].
  split; rewrite ?R1, ?B2, ?R4, ?R5; try done.
  - intros sv x Hx. destruct (C5 sv x Hx) as [V1 V2 V3 V4 V5]. assert (sv_ino x ≠ b) as Hne by congruence. split; try done.
    + by rewrite HT'.
    + rewrite B7, decide_False; done.
  - intros ino i Hi Hl. rewrite B7. case_decide as E; [subst; symmetry; by apply Hb|]. rewrite HT' in Hi by done. apply C7; [done|].
    intros (sv & x & Hx & E'). apply Hl. exists sv, x. by rewrite B2.
Qed.

Lemma core_new_object : sfs_core (<[b := zero_inode]> T) L s1.
Proof.
  pose proof added_fresh as Hf. pose proof (ba_rest _ _ _ Hadd) as Hrest. split.
  2: { apply added_mem; [intros ino Hne; by rewrite lookup_insert_ne|]. rewrite lookup_insert_eq. intros i [= <-]. apply block_inode, zero_block_data. }
  destruct Hcore as [Hc _]. split.
  - apply (ba_ok _ _ _ Hadd).
  - intros ino i [[<- <-]|[Hne Hi]]%lookup_insert_Some.
    + split; [rewrite (nblk_rest _ _ Hrest); apply (ba_range _ _ _ Hadd)|apply (ba_marked _ _ _ Hadd); by left|apply zero_inode_ok| |].
      * rewrite (system_rest s s1) by done. intros H%(dc_system _ _ _ Hc). by apply (ba_fresh _ _ _ Hadd).
      * intros c Hc'. by apply zero_inode_owns in Hc'.
    + apply added_object; [done|]. intros c Hm HTc. rewrite lookup_insert_ne; [done|]. intros <-. by apply (ba_fresh _ _ _ Hadd).
  - intros ino i ino' i' c [[<- <-]|[_ Hi]]%lookup_insert_Some [[<- <-]|[_ Hi']]%lookup_insert_Some Hb Hb'; try by apply zero_inode_owns in Hb.
    + by apply zero_inode_owns in Hb'.
    + apply (dc_disjoint _ _ _ Hc ino i ino' i' c); [done..| |]; [by eapply added_owns|by eapply added_owns].
  - intros c Hs. apply (ba_marked _ _ _ Hadd). right. apply (dc_system _ _ _ Hc). by apply (system_rest s s1).
  - intros c Hr Hm. rewrite (nblk_rest _ _ Hrest) in Hr. rewrite (system_rest s s1) by done. rewrite lookup_insert_is_Some'.
    apply (ba_marked _ _ _ Hadd) in Hm as [->|Hm]; [by auto|].
    destruct (dc_alloc _ _ _ Hc c Hr Hm) as [?|[?|[(ino & i & Hi & Ho)|?]]]; [by auto..| |by auto]. right. right. left. exists ino, i.
    split; [rewrite lookup_insert_ne; [done|congruence]|by eapply added_owns].
Qed.

Lemma core_leak : sfs_core T (λ c, L c ∨ c = b) s1.
Proof.
  pose proof added_fresh as Hf. pose proof (ba_rest _ _ _ Hadd) as Hrest. split; [|apply added_mem; [done|congruence]].
  destruct Hcore as [Hc _]. split.
  - apply (ba_ok _ _ _ Hadd).
  - intros ino i Hi. by apply added_object.
  - intros ino i ino' i' c Hi Hi' Hb Hb'. apply (dc_disjoint _ _ _ Hc ino i ino' i' c); [done..| |]; [by eapply added_owns|by eapply added_owns].
  - intros c Hs. apply (ba_marked _ _ _ Hadd). right. apply (dc_system _ _ _ Hc). by apply (system_rest s s1).
  - intros c Hr Hm. rewrite (nblk_rest _ _ Hrest) in Hr. rewrite (system_rest s s1) by done.
    apply (ba_marked _ _ _ Hadd) in Hm as [->|Hm]; [by auto|].
    destruct (dc_alloc _ _ _ Hc c Hr Hm) as [?|[?|[(ino & i & Hi & Ho)|?]]]; [by auto..| |by auto]. right. right. left. exists ino, i.
    split; [done|by eapply added_owns].
Qed.
End Added.

(** The object of vnode [sv], which has no blocks left, is deleted: its inode's block
    is given back and the vnode dropped. *)
Section Deleted.
Context (T : gmap Z sfs_inode) (L : Z → Prop) (s : sfs) (sv : Z) (x : sfs_vnode) (s1 : sfs).
Context (Hcore : sfs_core T L s) (Hx : sv_at s !! sv = Some x) (Hempty : ∀ c, ¬ owns_block s (sv_i x) c).
Context (Hfree : block_freed s (sv_ino x) s1).

Lemma deleted_kept ino i c : T !! ino = Some i → owns_block s i c → marked s1 c ∧ sect s1 c = sect s c.
Proof.
  intros Hi Ho. destruct Hcore as [Hc Hm]. rewrite (bf_sect _ _ _ Hfree). split; [|done]. apply (bf_marked _ _ _ Hfree).
  split; [|by eapply owns_marked]. intros ->. destruct (oo_owned _ _ _ _ (dc_objects _ _ _ Hc _ _ Hi) _ Ho) as [H _].
  pose proof (vo_inode _ _ _ (mc_vnodes _ _ Hm _ _ Hx)). congruence.
Qed.

Lemma deleted_owns ino i c : T !! ino = Some i → owns_block s1 i c ↔ owns_block s i c.
Proof. intros Hi. apply frame_owns. intros c' Hc'. by eapply deleted_kept. Qed.

Lemma core_delete l : remove_ptr sv (sfs_vnodes s1) = Some l →
  sfs_core (delete (sv_ino x) T) L (set_sv_at (delete sv) (set_vnodes (λ _, l) s1)).
Proof.
  intros Hl. pose proof Hcore as [Hc Hm]. pose proof (vo_inode _ _ _ (mc_vnodes _ _ Hm _ _ Hx)) as Hxi.
  pose proof Hfree as [Hrest B2 B3 B4 B5]. set (T' := delete (sv_ino x) T).
  assert (∀ ino i, T' !! ino = Some i ↔ ino ≠ sv_ino x ∧ T !! ino = Some i) as HT'.
  { intros ino i. unfold T'. rewrite lookup_delete_Some. naive_solver. }
  assert (∀ ino, T !! ino = None → T' !! ino = None) as HTn by (intros ino H; unfold T'; by rewrite lookup_delete_None; right).
  assert (disk_core T' L s1) as Hd1.
  { split; [done|..].
    - intros ino i [Hne Hi]%HT'. destruct (dc_objects _ _ _ Hc _ _ Hi) as [O1 O2 O3 O4 O5]. split.
      + by rewrite (nblk_rest _ _ Hrest).
      + by apply B4.
      + apply (frame_file s); [done|apply Hrest|]. intros c Ho. by eapply deleted_kept.
      + by rewrite (system_rest s s1).
      + intros c Ho%(deleted_owns ino i c Hi). rewrite (system_rest s s1) by done. destruct (O5 c Ho). auto.
    - intros ino i ino' i' c [_ Hi]%HT' [_ Hi']%HT' Ho%(deleted_owns _ _ _ Hi) Ho'%(deleted_owns _ _ _ Hi'). by apply (dc_disjoint _ _ _ Hc ino i ino' i' c).
    - intros c Hs%(system_rest s s1); [|done]. apply B4. split; [|by apply (dc_system _ _ _ Hc)]. intros ->.
      by apply (oo_system _ _ _ _ (dc_objects _ _ _ Hc _ _ Hxi)).
    - intros c Hr [Hne Hmk]%B4. rewrite (nblk_rest _ _ Hrest) in Hr. rewrite (system_rest s s1) by done.
      destruct (dc_alloc _ _ _ Hc c Hr Hmk) as [?|[[i Hi]|[(ino & i & Hi & Ho)|?]]]; [by auto| | |by auto].
      + right. left. exists i. by apply HT'.
      + right. right. left. exists ino, i. split; [|by eapply deleted_owns]. apply HT'. split; [|done]. intros ->. simplify_eq. by apply Hempty in Ho. }
  destruct Hm as [C1 C2 C3 C4 C5 C6 C7]. pose proof Hrest as (R1 & R2 & R3 & R4 & R5 & R6). split.
  - eapply disk_transport; [exact Hd1|..]; try done; [by apply (fs_ok_ext s1); [apply Hd1|..]|].
    intros ino i i' Hi Hi'. simplify_eq. split_and!; try done. apply (oo_file _ _ _ _ (dc_objects _ _ _ Hd1 _ _ Hi)).
  - assert (mem_core T s1) as Hm1.
    { split; rewrite ?R1, ?B2, ?R4, ?R5; try done.
      - intros sv' y Hy. destruct (C5 sv' y Hy). split; try done. by rewrite B5.
      - intros ino i Hi Hn. rewrite B5. apply C7; [done|]. intros (sv' & y & Hy & E). apply Hn. exists sv', y. by rewrite B2. }
    eapply mem_drop; [exact Hm1|by rewrite B2|..|done].
    + intros ino Hne. unfold T'. by rewrite lookup_delete_ne.
    + intros i [Hne _]%HT'. done.
Qed.
End Deleted.
