(* ===== verification/SfsVnode.v ===== *)
(** * The simple file system: vnodes in memory

    Specifications of sfs_loadvnode, of reference counting and of sfs_reclaim
    against the core invariant: loading an object twice gives the same vnode, the
    last reference writes the inode back, and an object that is no longer linked is
    deleted with its blocks. *)

From S2P Require Import Prelude Bitmap UserCopy Uio Disk SfsTypes Sfs SfsNode SfsMount SfsBlk SfsMap SfsIo SfsDir SfsTrunc SfsInv.
#[local] Open Scope kern_scope.

Lemma core_depth T L s f : sfs_core T L s → 0 ≤ f (vfs_biglock_depth s) → sfs_core T L (set_depth f s).
Proof. intros H Hd. by apply (core_ext _ _ _ _ H). Qed.

(** What a step leaves alone: the objects other than [ino], and the vnodes other
    than [sv]. *)
Record others_kept (T : gmap Z sfs_inode) (ino sv : Z) (s s' : sfs) : Prop := {
  ok_sb : sfs_sb s' = sfs_sb s;
  ok_depth : vfs_biglock_depth s' = vfs_biglock_depth s;
  ok_blocks : ∀ ino' i' b, T !! ino' = Some i' → ino' ≠ ino → owns_block s i' b → marked s' b ∧ sect s' b = sect s b;
  ok_vnodes : ∀ sv', sv' ≠ sv → sv_at s' !! sv' = sv_at s !! sv'
}.

(** ** Loading *)

Lemma find_loaded_spec X T L s l ino Q E : sfs_core T L s → (∀ sv, sv ∈ l → is_Some (sv_at s !! sv)) →
  (∀ o, match o with
        | Some sv => sv ∈ l ∧ ∃ x, sv_at s !! sv = Some x ∧ sv_ino x = ino
        | None => ∀ sv x, sv ∈ l → sv_at s !! sv = Some x → sv_ino x ≠ ino
        end → Q o s) → wpx X (find_loaded l ino) Q E s.
Proof.
  intros [Hc Hm]. revert Q. induction l as [|sv l IH]; intros Q Hl HQ; cbn [find_loaded].
  { wp_steps. apply HQ. intros sv x ?%not_elem_of_nil. done. }
  destruct (Hl sv) as [x Hx]; [by left|]. wp_steps. eapply wp_read_sv; [done|]. wp_steps.
  pose proof (dc_objects _ _ _ Hc _ _ (vo_inode _ _ _ (mc_vnodes _ _ Hm _ _ Hx))) as [O1 O2 O3 O4 O5].
  eapply wp_conseq; [apply sfs_bused_spec; [apply Hc|lia]| |done]. intros r s' [-> Hr]. rewrite (proj2 Hr O2). wp_steps.
  destruct (Z.eqb_spec (sv_ino x) ino) as [E0|E0]; wp_steps.
  - apply HQ. split; [by left|by exists x].
  - apply IH; [intros sv' Hs; apply Hl; by right|]. intros [sv'|] Ho; apply HQ.
    + destruct Ho as [H1 H2]. split; [by right|done].
    + intros sv' y [->|Hs]%elem_of_cons Hy; [congruence|by apply (Ho sv')].
Qed.

(** The vnode [sv] for object [ino] after loading: one more reference to the one in
    memory, or a new one. *)
Record vnode_got (T : gmap Z sfs_inode) (ino sv : Z) (x : sfs_vnode) (s s' : sfs) : Prop := {
  vg_sv : sv_at s' !! sv = Some x;
  vg_ino : sv_ino x = ino;
  vg_ref : vn_opencount x < vn_refcount x;
  vg_before : (∃ x0, sv_at s !! sv = Some x0 ∧ x = set_refcount (vn_refcount x0 + 1) x0) ∨
    (sv_at s !! sv = None ∧ ¬ is_loaded s ino ∧ vn_refcount x = 1 ∧ vn_opencount x = 0);
  vg_device : sfs_device s' = sfs_device s;
  vg_freemap : sfs_freemap s' = sfs_freemap s;
  vg_kept : others_kept T ino sv s s'
}.

(** A state that differs in nothing that matters. *)
Definition same_fs (s s' : sfs) : Prop :=
  sfs_device s' = sfs_device s ∧ sfs_sb s' = sfs_sb s ∧ sfs_vnodes s' = sfs_vnodes s ∧ sfs_freemap s' = sfs_freemap s ∧ same_flags s s' ∧
  sv_at s' = sv_at s ∧ sv_next s ≤ sv_next s' ∧ vfs_biglock_depth s' = vfs_biglock_depth s.

Lemma core_same_fs T L s s' : sfs_core T L s → same_fs s s' → sfs_core T L s'.
Proof.
  intros Hc (E1 & E2 & E3 & E4 & E8 & E5 & E6 & E7). apply (core_ext T L s s'); try done. rewrite E7. apply (mc_depth _ _ (sc_mem _ _ _ Hc)).
Qed.

Lemma wp_ask_mem X Q E s : (∀ b mem, Q b (mkSfs (vfs_biglock_depth s) (sfs_device s) (sfs_sb s) (sfs_superdirty s) (sfs_vnodes s)
    (sfs_freemap s) (sfs_freemapdirty s) (sv_at s) (sv_next s) mem)) → wpx X ask_mem Q E s.
Proof. intros H. unfold wpx, ask_mem. by destruct (sfs_mem s). Qed.

Lemma wp_vnode_incref X sv x s Q E : 0 ≤ vfs_biglock_depth s → sv_at s !! sv = Some x →
  Q tt (set_sv_at <[sv := set_refcount (vn_refcount x + 1) x]> s) → wpx X (vnode_incref sv) Q E s.
Proof.
  intros Hd Hx HQ. unfold vnode_incref. apply wp_under_biglock; [done|]. eapply wp_update_sv; [done|]. split; [simpl; lia|].
  assert (set_depth (λ d, d - 1) (set_sv_at <[sv := set_refcount (vn_refcount x + 1) x]> (set_depth (λ d, d + 1) s)) =
    set_sv_at <[sv := set_refcount (vn_refcount x + 1) x]> s) as ->; [|done].
  destruct s. unfold set_depth, set_sv_at. simpl. f_equal. lia.
Qed.

(** Of an object that is not in memory. *)
Lemma loadvnode_miss X T L s ino i forcetype ops :
  biglocked s → sfs_core T L s → T !! ino = Some i → ¬ is_loaded s ino →
  (forcetype ≠ SFS_TYPE_INVAL → sfi_type i = SFS_TYPE_INVAL) →
  let i' := if forcetype =? SFS_TYPE_INVAL then i else set_type forcetype i in
  ops_of_type (sfi_type i') = Some ops →
  wpx X (sfs_loadvnode ino forcetype)
    (λ sv s', sv = sv_next s ∧ vnode_added s (mkSV ops 1 0 i' ino (negb (forcetype =? SFS_TYPE_INVAL))) s')
    (λ e s', e = ENOMEM ∧ same_fs s s') s.
Proof.
  intros Hl Hc Hi Hn Hft i' Hops. pose proof Hc as [Hd Hm]. destruct (dc_objects _ _ _ Hd _ _ Hi) as [O1 O2 O3 O4 O5].
  unfold sfs_loadvnode. wp_steps. eapply find_loaded_spec; [done|intros sv; apply (mc_dom _ _ Hm)|].
  intros [sv|] Ho; [destruct Hn; destruct Ho as (_ & x & ? & ?); by exists sv, x|]. clear Ho.
  wp_steps. apply wp_ask_mem. intros b mem. set (s1 := mkSfs _ _ _ _ _ _ _ _ _ _).
  assert (same_fs s s1) as Hs1 by (split_and!; done || (simpl; lia)). destruct b; simpl negb; cbv iota; wp_steps; [|done].
  assert (fs_ok s1) as Hok1 by (apply (sc_disk T L), (core_same_fs T L s); done).
  eapply wp_conseq; [apply (sfs_bused_spec X s1 ino); [done|change (nblk s1) with (nblk s); lia]| |done]. intros r s' [-> Hr].
  rewrite (proj2 Hr O2). wp_steps. pose proof (ok_size _ Hok1) as Hsz. change (nblk s1) with (nblk s) in Hsz.
  eapply wp_ok; [apply sfs_rblock_eq; [done|apply Hok1|lia]|]. cbv zeta.
  assert (bytes_inode (sect s1 ino) = i) as ->.
  { change (sect s1 ino) with (sect s ino). rewrite (mc_disk _ _ Hm ino i Hi Hn). apply inode_roundtrip, O3. }
  fold i'. assert ((if negb (forcetype =? SFS_TYPE_INVAL) then set_type forcetype i else i) = i') as Ei'.
  { unfold i'. by destruct (forcetype =? SFS_TYPE_INVAL). }
  rewrite Ei', Hops. wp_steps. apply (wp_conseq _ (λ _ s', s' = s1) _ (λ _ _, False)); [| |done].
  { destruct (Z.eqb_spec forcetype SFS_TYPE_INVAL) as [E|E]; simpl; wp_steps; [done|]. apply wp_kassert; [|done]. rewrite (Hft E). done. }
  intros [] s' ->. wp_steps. unfold wpx at 1, new_sv. cbn [s1 sv_next]. wp_steps. apply wp_ask_mem. intros b mem2. destruct b; simpl negb; cbv iota; wp_steps.
  - split; [done|]. split; done.
  - unfold vnode_cleanup. wp_steps. eapply wp_read_sv; [apply lookup_insert_eq|]. wp_steps. apply wp_kassert; [done|]. apply wp_kassert; [done|].
    unfold kfree_sv. wp_steps. split; [done|]. split_and!; try done; simpl; [|lia]. rewrite delete_insert_id; [done|]. by eapply next_fresh.
Qed.

Lemma vnode_added_kept T L s x s' : sfs_core T L s → vnode_added s x s' → others_kept T (sv_ino x) (sv_next s) s s'.
Proof.
  intros [Hd Hm] [A1 A2 A3 A8 A4 A5 A6 A7]. split; try done.
  - intros ino' i' b Hi _ Ho. unfold marked, sect. rewrite A1, A3. split; [|done]. by apply (owns_marked T L s Hd ino' i').
  - intros sv' Hne. by rewrite A5, lookup_insert_ne.
Qed.

Lemma set_sv_kept T L s sv ino x' : sfs_core T L s → others_kept T ino sv s (set_sv_at <[sv := x']> s).
Proof.
  intros [Hd Hm]. split; try done.
  - intros ino' i' b Hi _ Ho. split; [|done]. by apply (owns_marked T L s Hd ino' i').
  - intros sv' Hne. simpl. by rewrite lookup_insert_ne.
Qed.

(** A change of the reference count. *)
Lemma core_set_refcount T L s sv x n : sfs_core T L s → sv_at s !! sv = Some x → 1 ≤ n → vn_opencount x ≤ n →
  sfs_core T L (set_sv_at <[sv := set_refcount n x]> s).
Proof.
  intros Hc Hx Hn Ho. pose proof Hc as [Hd Hm]. destruct (mc_vnodes _ _ Hm _ _ Hx) as [V1 V2 V3 V4 V5].
  destruct (dc_objects _ _ _ Hd _ _ V1) as [O1 O2 O3 O4 O5].
  assert (<[sv_ino x := sv_i (set_refcount n x)]> T = T) as <- by (by rewrite insert_id).
  eapply core_obj_step; [done..|]. apply set_sv_obj; try done; try apply Hd; [apply O3|simpl; lia].
Qed.

(** An object that is in memory only gets one more reference. *)
Lemma loadvnode_hit X T L s ino i : biglocked s → sfs_core T L s → T !! ino = Some i → is_loaded s ino →
  wpx X (sfs_loadvnode ino SFS_TYPE_INVAL) (λ sv s', sfs_core T L s' ∧ ∃ x, vnode_got T ino sv x s s' ∧ sv_i x = i) (λ _ _, False) s.
Proof.
  intros Hl Hc Hi (sv0 & x0 & Hx0 & E0). pose proof Hc as [Hd Hm]. assert (sv0 ∈ sfs_vnodes s) as Hin0 by (apply (mc_dom _ _ Hm); by eexists).
  unfold sfs_loadvnode. wp_steps. eapply find_loaded_spec; [done|intros sv; apply (mc_dom _ _ Hm)|]. intros [sv|] Ho.
  2: { by destruct (Ho sv0 x0). }
  destruct Ho as (Hin & x & Hx & E). wp_steps. apply wp_kassert; [done|]. wp_steps.
  destruct (mc_vnodes _ _ Hm _ _ Hx) as [V1 V2 V3 V4 V5].
  eapply wp_vnode_incref; [apply Hm|done|]. wp_steps. split; [apply core_set_refcount; try done; lia|].
  exists (set_refcount (vn_refcount x + 1) x). split; [|simpl; congruence]. split; try done.
  - simpl. by rewrite lookup_insert_eq.
  - simpl. lia.
  - left. by exists x.
  - by apply (set_sv_kept T L).
Qed.

Lemma sfs_loadvnode_spec X T L s ino i ops : biglocked s → sfs_core T L s → T !! ino = Some i → ops_of_type (sfi_type i) = Some ops →
  wpx X (sfs_loadvnode ino SFS_TYPE_INVAL)
    (λ sv s', sfs_core T L s' ∧ ∃ x, vnode_got T ino sv x s s' ∧ sv_i x = i) (λ e s', e = ENOMEM ∧ same_fs s s') s.
Proof.
  intros Hl Hc Hi Hops. pose proof Hc as [Hd Hm].
  destruct (decide (Exists (λ sv, sv_ino <$> (sv_at s !! sv) = Some ino) (sfs_vnodes s))) as [Hld|Hnl].
  - apply Exists_exists in Hld as (sv0 & Hin0 & Hsv0). destruct (sv_at s !! sv0) as [x0|] eqn:Hx0; [|done]. simpl in Hsv0. injection Hsv0 as E0.
    eapply wp_conseq; [apply (loadvnode_hit X T L s ino i); try done; by exists sv0, x0|done|done].
  - assert (¬ is_loaded s ino) as Hn.
    { intros (sv & x & Hx & E). apply Hnl, Exists_exists. exists sv. split; [apply (mc_dom _ _ Hm); by eexists|]. by rewrite Hx, <- E. }
    eapply wp_conseq; [apply (loadvnode_miss X T L s ino i SFS_TYPE_INVAL ops); try done| |done].
    intros sv s' [-> Ha]. simpl in Ha. set (x := mkSV ops 1 0 i ino false) in *.
    assert (<[sv_ino x := sv_i x]> T = T) as HT by (by rewrite insert_id).
    split; [rewrite <- HT; eapply core_load; try done; apply (dc_objects _ _ _ Hd _ _ Hi)|]. exists x. split; [|done]. split; try done.
    + rewrite (va_svs _ _ _ Ha). apply lookup_insert_eq.
    + right. split_and!; [by eapply next_fresh|done..].
    + apply Ha.
    + apply Ha.
    + by apply (vnode_added_kept T L s x).
Qed.

(** ** Writing back and reclaiming *)

Lemma others_kept_trans T T1 ino sv s s1 s2 : others_kept T ino sv s s1 → others_kept T1 ino sv s1 s2 →
  (∀ ino', ino' ≠ ino → T1 !! ino' = T !! ino') → others_kept T ino sv s s2.
Proof.
  intros [A1 A2 A3 A4] [B1 B2 B3 B4] HT. split; try congruence.
  - intros ino' i' b Hi Hne Ho. destruct (A3 ino' i' b Hi Hne Ho) as [Hm Hs].
    destruct (B3 ino' i' b) as [Hm2 Hs2]; [by rewrite HT|done| |split; congruence].
    apply frame_owns with s; [|done]. intros c Hc. by apply (A3 ino' i').
  - intros sv' Hne. rewrite B4, A4 by done. done.
Qed.

Lemma obj_step_kept T L s sv x x' s' : sfs_core T L s → sv_at s !! sv = Some x → obj_step sv x x' s s' →
  others_kept T (sv_ino x) sv s s'.
Proof.
  intros [Hd Hm] Hx Hs. pose proof (os_rest _ _ _ _ _ Hs) as (R1 & R2 & _). split; try done.
  - intros ino' i' b Hi Hne Ho. by eapply step_other.
  - intros sv' Hne. rewrite (os_svs _ _ _ _ _ Hs). by rewrite lookup_insert_ne.
Qed.

Lemma core_file_step T L s sv x x' s' : sfs_core T L s → sv_at s !! sv = Some x → file_step sv x x' s s' →
  sfs_core (<[sv_ino x := sv_i x']> T) L s' ∧ others_kept T (sv_ino x) sv s s' ∧ sv_at s' !! sv = Some x' ∧ same_vnode x x'.
Proof.
  intros Hc Hx Hs. pose proof (file_step_obj T s sv x x' s' (mc_vnodes _ _ (sc_mem _ _ _ Hc) _ _ Hx) Hs) as Ho.
  split_and!; [by eapply core_obj_step|by eapply obj_step_kept|by eapply file_step_sv|apply Hs].
Qed.

Lemma sfs_sync_inode_spec X T L s sv x k : biglocked s → sfs_core T L s → sv_at s !! sv = Some x →
  wpx X (sfs_sync_inode sv)
    (λ _ s', sfs_core T L s' ∧ others_kept T k sv s s' ∧ sv_at s' !! sv = Some (set_dirty false x) ∧
       sfs_vnodes s' = sfs_vnodes s ∧ ∀ b, marked s' b ↔ marked s b) (λ _ _, False) s.
Proof.
  intros Hl Hc Hx. pose proof Hc as [Hd Hm]. destruct (mc_vnodes _ _ Hm _ _ Hx) as [V1 V2 V3 V4 V5].
  destruct (dc_objects _ _ _ Hd _ _ V1) as [O1 O2 O3 O4 O5]. unfold sfs_sync_inode. wp_steps. eapply wp_read_sv; [done|].
  destruct (sv_dirty x) eqn:Ed; wp_steps.
  - pose proof (ok_size _ (dc_ok _ _ _ Hd)). eapply wp_ok; [apply sfs_wblock_eq; [done|apply Hd|lia|apply inode_roundtrip, O3]|].
    eapply wp_update_sv; [done|]. split_and!; [by apply core_sync| | |done|done].
    + split; try done.
      * intros ino' i' b Hi Hne Ho. split; [by apply (owns_marked T L s Hd ino' i')|].
        change (sect (set_sv_at ?f ?s0) b) with (sect s0 b). rewrite sect_write by lia. rewrite decide_False; [done|]. intros ->.
        destruct (oo_owned _ _ _ _ (dc_objects _ _ _ Hd _ _ Hi) _ Ho). congruence.
      * intros sv' Hne. simpl. by rewrite lookup_insert_ne.
    + simpl. by rewrite lookup_insert_eq.
  - assert (set_dirty false x = x) as -> by (destruct x; simpl in *; by subst). split_and!; try done. split; try done.
    intros ino' i' b Hi _ Ho. split; [|done]. by apply (owns_marked T L s Hd ino' i').
Qed.

Lemma remove_loaded T s sv x : mem_core T s → sv_at s !! sv = Some x → ∃ l, remove_ptr sv (sfs_vnodes s) = Some l.
Proof. intros Hm Hx. destruct (remove_ptr_some sv (sfs_vnodes s)) as [l Hl]; [apply (mc_dom _ _ Hm); by eexists|by exists l]. Qed.

(** What is left of the objects when the last reference to [x] goes. *)
Definition after_reclaim (T : gmap Z sfs_inode) (x : sfs_vnode) : gmap Z sfs_inode :=
  if sfi_linkcount (sv_i x) =? 0 then delete (sv_ino x) T else T.

Lemma reclaim_others (T : gmap Z sfs_inode) (x x1 : sfs_vnode) k ino' : T !! sv_ino x = Some (sv_i x) →
  (sfi_linkcount (sv_i x) = 0 → vn_ops x = sfs_fileops ∧ k = sv_ino x) → (sfi_linkcount (sv_i x) ≠ 0 → sv_i x1 = sv_i x) → ino' ≠ k →
  <[sv_ino x := sv_i x1]> T !! ino' = T !! ino'.
Proof.
  intros Hi Hk Hs Hne. destruct (decide (sfi_linkcount (sv_i x) = 0)) as [E|E]; [|by rewrite (Hs E), insert_id].
  destruct (Hk E) as [_ ->]. by rewrite lookup_insert_ne.
Qed.

(** The first part of sfs_reclaim: an unlinked file loses its blocks, and the inode
    is written. *)
Lemma reclaim_write_back X T L s sv x k : biglocked s → sfs_core T L s → sv_at s !! sv = Some x →
  (sfi_linkcount (sv_i x) = 0 → vn_ops x = sfs_fileops ∧ k = sv_ino x) →
  wpx X ((if sfi_linkcount (sv_i x) =? 0 then vop_truncate sv 0 else ret tt) ;; sfs_sync_inode sv)
    (λ _ s', ∃ x', sfs_core (<[sv_ino x := sv_i x']> T) L s' ∧ sv_at s' !! sv = Some x' ∧ same_vnode x (set_dirty true x') ∧ sv_dirty x' = false ∧
       others_kept T k sv s s' ∧
       (sfi_linkcount (sv_i x) = 0 → ∀ c, ¬ owns_block s' (sv_i x') c) ∧ (sfi_linkcount (sv_i x) ≠ 0 → sv_i x' = sv_i x)) (λ _ _, False) s.
Proof.
  intros Hl Hc Hx Hops. pose proof Hc as [Hd Hm]. destruct (mc_vnodes _ _ Hm _ _ Hx) as [V1 V2 V3 V4 V5].
  destruct (dc_objects _ _ _ Hd _ _ V1) as [O1 O2 O3 O4 O5]. wp_steps.
  apply (wp_conseq _ (λ _ s1, ∃ x1, sfs_core (<[sv_ino x := sv_i x1]> T) L s1 ∧ others_kept T k sv s s1 ∧ sv_at s1 !! sv = Some x1 ∧ same_vnode x x1 ∧
    (sfi_linkcount (sv_i x) = 0 → ∀ c, ¬ owns_block s1 (sv_i x1) c) ∧ (sfi_linkcount (sv_i x) ≠ 0 → sv_i x1 = sv_i x)) _ (λ _ _, False)); [| |done].
  - destruct (Z.eqb_spec (sfi_linkcount (sv_i x)) 0) as [E|E]; wp_steps.
    + unfold vop_truncate. wp_steps. eapply wp_read_sv; [done|]. destruct (Hops E) as [-> ->].
      eapply wp_conseq; [apply (sfs_truncate_spec X sv x s 0); [apply Hm|apply Hd|done|done]| |done].
      intros [] s1 (x1 & Ht). destruct (core_file_step T L s sv x x1 s1 Hc Hx (tt_step _ _ _ _ _ _ Ht)) as (Hc1 & Hk & Hx1 & Hv).
      exists x1. split_and!; try done. intros _. by eapply truncate_zero_empty.
    + exists x. rewrite insert_id by done. split_and!; try done; [|apply same_vnode_refl]. split; try done. intros ino' i' b Hi _ Ho. split; [|done].
      by apply (owns_marked T L s Hd ino' i').
  - intros [] s1 (x1 & Hc1 & Hk1 & Hx1 & Hv & He & Hs). pose proof Hv as (N1 & N2 & N3 & N4 & N5 & N6 & _).
    eapply wp_conseq; [apply (sfs_sync_inode_spec X (<[sv_ino x := sv_i x1]> T) L s1 sv x1 k); try done| |done].
    { unfold biglocked. by rewrite (ok_depth _ _ _ _ _ Hk1). }
    intros [] s2 (Hc2 & Hk2 & Hx2 & _ & _). exists (set_dirty false x1). split_and!; try done; [split_and!; try done; by right| |].
    + eapply others_kept_trans; [exact Hk1|exact Hk2|]. intros ino'. by apply (reclaim_others T x x1).
    + intros E c Ho. apply (He E c). refine (proj1 (frame_owns s1 s2 (sv_i x1) _ c) Ho).
      intros b Hb. by destruct (He E b).
Qed.

Lemma others_kept_unlock T ino sv s s' : others_kept T ino sv (set_depth (λ d, d + 1) s) s' → others_kept T ino sv s (set_depth (λ d, d - 1) s').
Proof. intros [K1 K2 K3 K4]. split; try done. simpl in *. lia. Qed.

Lemma drop_kept T T' L ino sv s l : sfs_core T L s → (∀ ino', ino' ≠ ino → T' !! ino' = T !! ino') →
  others_kept T' ino sv s (set_sv_at (delete sv) (set_vnodes (λ _, l) s)).
Proof.
  intros [Hd Hm] HT. split; try done.
  - intros ino' i' b Hi Hne Ho. split; [|done]. rewrite HT in Hi by done. by apply (owns_marked T L s Hd ino' i').
  - intros sv' Hne. simpl. by rewrite lookup_delete_ne.
Qed.

(** The tail of sfs_reclaim: the vnode is taken out of the table, checked and freed. *)
Lemma reclaim_tail X (T T' : gmap Z sfs_inode) L s sv ino x s2 l : sv_at s2 !! sv = Some x → vn_refcount x = 1 → vn_opencount x = 0 →
  remove_ptr sv (sfs_vnodes s2) = Some l → 0 < vfs_biglock_depth s2 →
  sfs_core T' L (set_sv_at (delete sv) (set_vnodes (λ _, l) s2)) →
  others_kept T ino sv (set_depth (λ d, d + 1) s) (set_sv_at (delete sv) (set_vnodes (λ _, l) s2)) →
  wpx X (s <- get ;; match remove_ptr sv (sfs_vnodes s) with None => panic | Some l => modify (set_vnodes (λ _, l)) end ;; vnode_cleanup sv)
    (λ _ s', 0 < vfs_biglock_depth s' ∧
       wpx X (kfree_sv sv) (λ _ s', sfs_core T' L s' ∧ others_kept T ino sv s s' ∧ sv_at s' !! sv = None) (λ _ _, False) (set_depth (λ d, d - 1) s'))
    (λ _ s', 0 < vfs_biglock_depth s' ∧ False) s2.
Proof.
  intros Hx Hrc Hoc Hl Hdp Hc Hk. wp_steps. rewrite Hl. wp_steps. unfold vnode_cleanup. wp_steps. eapply wp_read_sv; [done|]. wp_steps.
  apply wp_kassert; [lia|]. apply wp_kassert; [lia|]. split; [done|]. unfold kfree_sv. wp_steps. split_and!.
  - apply (core_depth _ _ _ (λ d, d - 1)) in Hc; [exact Hc|simpl; lia].
  - by apply others_kept_unlock in Hk.
  - simpl. apply lookup_delete_eq.
Qed.

(** Nothing of the other objects changes, nor of the object [x] itself unless it is
    unlinked: [k] is then that object. *)
Lemma sfs_reclaim_spec X T L s sv x k : sfs_core T L s → sv_at s !! sv = Some x → vn_refcount x = 1 → vn_opencount x = 0 →
  (sfi_linkcount (sv_i x) = 0 → vn_ops x = sfs_fileops ∧ k = sv_ino x) →
  wpx X (sfs_reclaim sv)
    (λ _ s', sfs_core (after_reclaim T x) L s' ∧ others_kept T k sv s s' ∧ sv_at s' !! sv = None) (λ _ _, False) s.
Proof.
  intros Hc Hx Hrc Hoc Hops. pose proof (mc_depth _ _ (sc_mem _ _ _ Hc)) as Hdep. unfold sfs_reclaim. wp_steps.
  apply wp_under_biglock; [done|]. set (s0 := set_depth (λ d, d + 1) s).
  assert (sfs_core T L s0) as Hc0 by (apply core_depth; [done|lia]). assert (biglocked s0) as Hl0 by (unfold biglocked; simpl; lia).
  wp_steps. eapply wp_read_sv; [done|]. rewrite Hrc. simpl negb. cbv iota. apply wp_bind2.
  eapply wp_conseq; [by apply (reclaim_write_back X T L s0 sv x k)| |done].
  intros [] s1 (x1 & Hc1 & Hx1 & (N1 & N2 & N3 & N4 & N5 & N6 & _) & Hcl & Hk1 & He & Hs). cbn [set_dirty vn_ops vn_refcount vn_opencount sv_ino sv_i] in *.
  wp_steps. eapply wp_read_sv; [done|]. rewrite N6.
  assert (∀ ino', ino' ≠ k → <[sv_ino x := sv_i x1]> T !! ino' = T !! ino') as HT1.
  { intros ino'. apply reclaim_others; try done. apply (mc_vnodes _ _ (sc_mem _ _ _ Hc) _ _ Hx). }
  pose proof (ok_depth _ _ _ _ _ Hk1) as Hdep1. simpl in Hdep1.
  unfold after_reclaim in *. destruct (Z.eqb_spec (sfi_linkcount (sv_i x)) 0) as [E|E]; [wp_steps|do 2 wp_step].
  - pose proof (sc_disk _ _ _ Hc1) as Hd1. pose proof (vo_inode _ _ _ (mc_vnodes _ _ (sc_mem _ _ _ Hc1) _ _ Hx1)) as Hi1.
    destruct (dc_objects _ _ _ Hd1 _ _ Hi1) as [O1 O2 O3 O4 O5].
    eapply wp_conseq; [apply (sfs_bfree_spec X s1 (sv_ino x1)); [apply Hd1|done|done|done]| |done]. intros [] s2 Hfr.
    pose proof (bf_rest _ _ _ Hfr) as (R1 & R2 & R3 & R4 & _). destruct (remove_loaded _ _ _ _ (sc_mem _ _ _ Hc1) Hx1) as [l Hl].
    rewrite <- R4 in Hl. pose proof (core_delete _ _ _ _ _ _ Hc1 Hx1 (He E) Hfr l Hl) as Hc2. rewrite N4, delete_insert_eq in Hc2.
    eapply (reclaim_tail X T _ L s sv _ x1 s2 l); [by rewrite (bf_svs _ _ _ Hfr)|lia|lia|done|rewrite R1; lia|done|].
    eapply others_kept_trans; [exact Hk1| |exact HT1]. split; try done.
    + intros ino' i' b Hi Hne Ho. change (marked s2 b ∧ sect s2 b = sect s1 b). eapply (deleted_kept _ L s1 sv x1 s2); try done.
    + intros sv' Hne. simpl. by rewrite lookup_delete_ne, (bf_svs _ _ _ Hfr).
  - destruct (remove_loaded _ _ _ _ (sc_mem _ _ _ Hc1) Hx1) as [l Hl]. pose proof (core_drop _ _ _ _ _ _ Hc1 Hx1 Hcl Hl) as Hc2.
    eapply (reclaim_tail X T _ L s sv _ x1 s1 l); [done|lia|lia|done|lia|..].
    + rewrite (Hs E), insert_id in Hc2; [done|]. apply (mc_vnodes _ _ (sc_mem _ _ _ Hc) _ _ Hx).
    + eapply others_kept_trans; [exact Hk1| |exact HT1]. by eapply drop_kept.
Qed.

(** The objects after one reference to [x] is given up, and the vnode. *)
Definition after_decref (T : gmap Z sfs_inode) (x : sfs_vnode) : gmap Z sfs_inode :=
  if 1 <? vn_refcount x then T else after_reclaim T x.
Definition decref_vnode (x : sfs_vnode) : option sfs_vnode :=
  if 1 <? vn_refcount x then Some (set_refcount (vn_refcount x - 1) x) else None.

Lemma vnode_decref_spec X T L s sv x k : sfs_core T L s → sv_at s !! sv = Some x → vn_opencount x < vn_refcount x →
  (vn_refcount x ≤ 1 → sfi_linkcount (sv_i x) = 0 → vn_ops x = sfs_fileops ∧ k = sv_ino x) →
  wpx X (vnode_decref sv)
    (λ _ s', sfs_core (after_decref T x) L s' ∧ others_kept T k sv s s' ∧ sv_at s' !! sv = decref_vnode x) (λ _ _, False) s.
Proof.
  intros Hc Hx Ho Hops. pose proof (mc_depth _ _ (sc_mem _ _ _ Hc)) as Hdep. destruct (mc_vnodes _ _ (sc_mem _ _ _ Hc) _ _ Hx) as [V1 V2 V3 V4 V5].
  unfold vnode_decref. apply wp_under_biglock; [done|]. set (s0 := set_depth (λ d, d + 1) s).
  assert (sfs_core T L s0) as Hc0 by (apply core_depth; [done|lia]).
  wp_steps. eapply wp_read_sv; [done|]. wp_steps. apply wp_kassert; [lia|]. unfold after_decref, decref_vnode.
  destruct (Z.ltb_spec 1 (vn_refcount x)).
  - eapply wp_update_sv; [done|]. split; [simpl; lia|]. split_and!.
    + apply (core_depth _ _ _ (λ d, d - 1)); [|simpl; lia]. apply core_set_refcount; try done; lia.
    + apply others_kept_unlock. by apply (set_sv_kept T L).
    + simpl. apply lookup_insert_eq.
  - wp_steps. eapply wp_conseq; [apply (sfs_reclaim_spec X T L s0 sv x k); try done; auto; lia| |done].
    intros [] s1 (Hc1 & Hk1 & Hx1). wp_steps. pose proof (ok_depth _ _ _ _ _ Hk1) as Hd1. simpl in Hd1. split; [lia|]. split_and!.
    + apply (core_depth _ _ _ (λ d, d - 1)); [done|lia].
    + by apply others_kept_unlock.
    + done.
Qed.

(** A vnode that has just been got and is given up again. *)
Lemma decref_got T ino sv x s s' : vnode_got T ino sv x s s' → sfi_linkcount (sv_i x) ≠ 0 →
  after_decref T x = T ∧ (∀ x0, sv_at s !! sv = Some x0 → 1 ≤ vn_refcount x0 → decref_vnode x = Some x0) ∧ (sv_at s !! sv = None → decref_vnode x = None).
Proof.
  intros [G1 G2 G3 G4 G5 G6 G7] Hl. unfold after_decref, after_reclaim, decref_vnode. rewrite (proj2 (Z.eqb_neq _ _) Hl). split_and!.
  - by destruct (1 <? vn_refcount x).
  - intros x0 Hx0 Hr. destruct G4 as [(x1 & E & ->)|(E & _)]; [|congruence]. assert (x1 = x0) as -> by congruence. simpl. destruct (Z.ltb_spec 1 (vn_refcount x0 + 1)); [|lia].
    f_equal. destruct x0. unfold set_refcount. simpl. f_equal. lia.
  - intros E. destruct G4 as [(x1 & E' & _)|(_ & _ & -> & _)]; [congruence|done].
Qed.
