(* ===== verification/SfsTree.v ===== *)
(** * The simple file system: names and links

    The tree invariant: the root directory is sound, every name in it is that of a
    file, and the link count of a file is the number of its names. *)

From S2P Require Import Prelude Bitmap UserCopy Uio Disk SfsTypes Sfs SfsNode SfsMount SfsBlk SfsMap SfsIo SfsDir SfsTrunc SfsInv SfsVnode.
#[local] Open Scope kern_scope.

(** ** Counting links *)

Definition names (e : option (list Z * Z)) (ino : Z) : Z := match e with Some (_, k) => if k =? ino then 1 else 0 | None => 0 end.
Definition links_in (f : Z → option (list Z * Z)) (l : list Z) (ino : Z) : Z := foldr (λ slot n, names (f slot) ino + n) 0 l.
Definition links (f : Z → option (list Z * Z)) (ino : Z) : Z := links_in f (seqZ 0 MAXSLOTS) ino.

Lemma names_range e ino : 0 ≤ names e ino ≤ 1.
Proof. unfold names. repeat case_match; lia. Qed.

Lemma links_in_range f l ino : 0 ≤ links_in f l ino ≤ lengthZ l.
Proof. induction l as [|a l IH]; [done|]. simpl. rewrite lengthZ_cons. pose proof (names_range (f a) ino). unfold links_in in *. lia. Qed.

Lemma links_range f ino : 0 ≤ links f ino ≤ MAXSLOTS.
Proof. unfold links. pose proof (links_in_range f (seqZ 0 MAXSLOTS) ino) as H. unfold lengthZ in H. rewrite length_seqZ in H. change MAXSLOTS with 1144 in *. lia. Qed.

Lemma links_in_same f f' l ino : (∀ a, a ∈ l → f' a = f a) → links_in f' l ino = links_in f l ino.
Proof.
  induction l as [|a l IH]; intros H; [done|]. simpl. unfold links_in in *. rewrite (H a), IH; [done| |by left]. intros b Hb. apply H. by right.
Qed.

Lemma links_pointwise f f' ino : (∀ a, f' a = f a) → links f' ino = links f ino.
Proof. intros H. apply links_in_same. intros a _. apply H. Qed.

Lemma links_in_update f f' l slot e ino : NoDup l → slot ∈ l → (∀ a, f' a = if decide (a = slot) then e else f a) →
  links_in f' l ino = links_in f l ino - names (f slot) ino + names e ino.
Proof.
  intros Hnd Hin Hf. induction l as [|a l IH]; [by apply not_elem_of_nil in Hin|]. apply NoDup_cons in Hnd as [Ha Hnd]. unfold links_in in *. simpl.
  apply elem_of_cons in Hin as [->|Hin].
  - rewrite (Hf a), decide_True by done. fold (links_in f' l ino). rewrite (links_in_same f f' l); [unfold links_in; lia|].
    intros b Hb. rewrite Hf, decide_False; [done|]. intros ->. done.
  - rewrite IH by done. rewrite (Hf a), decide_False; [lia|]. intros ->. done.
Qed.

Lemma links_update f f' slot e ino : 0 ≤ slot < MAXSLOTS → (∀ a, f' a = if decide (a = slot) then e else f a) →
  links f' ino = links f ino - names (f slot) ino + names e ino.
Proof. intros Hs Hf. apply links_in_update; [apply NoDup_seqZ|apply elem_of_seqZ; lia|done]. Qed.

Lemma links_zero f ino : (∀ slot name, f slot ≠ Some (name, ino)) → links f ino = 0.
Proof.
  intros H. unfold links, links_in. induction (seqZ 0 MAXSLOTS) as [|a l IH]; [done|]. simpl. rewrite IH.
  unfold names. destruct (f a) as [[name k]|] eqn:E; [|done]. destruct (Z.eqb_spec k ino) as [->|]; [|done]. by destruct (H a name).
Qed.

Lemma links_pos f slot name ino : 0 ≤ slot < MAXSLOTS → f slot = Some (name, ino) → 0 < links f ino.
Proof.
  intros Hs Hf. pose proof (links_update f (λ a, if decide (a = slot) then None else f a) slot None ino Hs (λ a, eq_refl)) as H.
  rewrite Hf in H. simpl in H. rewrite Z.eqb_refl in H. pose proof (links_range (λ a, if decide (a = slot) then None else f a) ino). lia.
Qed.

#[global] Opaque links.

(** ** The invariant *)

Record sfs_tree (T : gmap Z sfs_inode) (r : sfs_inode) (s : sfs) : Prop := {
  st_root : T !! SFS_ROOT_LOCATION = Some r;
  st_dir : dir_ok s r;
  st_rootlinks : sfi_linkcount r ≠ 0;
  st_types : ∀ ino i, T !! ino = Some i → ino ≠ SFS_ROOT_LOCATION → sfi_type i = SFS_TYPE_FILE;
  st_entries : ∀ slot name k, entry s r slot = Some (name, k) → k ≠ SFS_ROOT_LOCATION ∧ is_Some (T !! k);
  st_links : ∀ ino i, T !! ino = Some i → ino ≠ SFS_ROOT_LOCATION → sfi_linkcount i = links (entry s r) ino;
  st_orphans : ∀ ino i, T !! ino = Some i → sfi_linkcount i = 0 → is_loaded s ino
}.

Record sfs_inv (T : gmap Z sfs_inode) (r : sfs_inode) (L : Z → Prop) (s : sfs) : Prop := {
  si_core : sfs_core T L s;
  si_tree : sfs_tree T r s
}.

(** The references to the root directory are what they were. *)
Definition same_refs (x x' : sfs_vnode) : Prop := sv_ino x' = sv_ino x ∧ vn_refcount x' = vn_refcount x ∧ vn_opencount x' = vn_opencount x.
Definition root_refs (s s' : sfs) : Prop := ∀ v x, sv_at s !! v = Some x → sv_ino x = SFS_ROOT_LOCATION → ∃ x', sv_at s' !! v = Some x' ∧ same_refs x x'.

Lemma same_vnode_refs x x' : same_vnode x x' → same_refs x x'.
Proof. by intros (_ & ? & ? & ? & _). Qed.

Lemma root_refs_trans s s1 s2 : root_refs s s1 → root_refs s1 s2 → root_refs s s2.
Proof.
  intros H1 H2 v x Hx E. destruct (H1 v x Hx E) as (x1 & Hx1 & E1 & E2 & E3). destruct (H2 v x1 Hx1) as (x2 & Hx2 & F1 & F2 & F3); [congruence|].
  exists x2. split; [done|]. split_and!; congruence.
Qed.

(** All vnodes but [sv] are as they were, and so are the references to [sv] if it is
    the root's. *)
Lemma root_refs_but sv s s' : (∀ v, v ≠ sv → sv_at s' !! v = sv_at s !! v) →
  (∀ x, sv_at s !! sv = Some x → sv_ino x = SFS_ROOT_LOCATION → ∃ x', sv_at s' !! sv = Some x' ∧ same_refs x x') → root_refs s s'.
Proof. intros Ho Hsv v x Hx E. destruct (decide (v = sv)) as [->|Hv]; [by apply Hsv|]. exists x. by rewrite Ho. Qed.

Lemma root_refs_same s s' : sv_at s' = sv_at s → root_refs s s'.
Proof. intros E v x Hx _. exists x. by rewrite E. Qed.

(** What a sequence of steps leaves alone. *)
Record kept (T : gmap Z sfs_inode) (P Q : Z → Prop) (s s' : sfs) : Prop := {
  kp_sb : sfs_sb s' = sfs_sb s;
  kp_depth : vfs_biglock_depth s' = vfs_biglock_depth s;
  kp_blocks : ∀ ino i b, T !! ino = Some i → ¬ P ino → owns_block s i b → marked s' b ∧ sect s' b = sect s b;
  kp_vnodes : ∀ sv, ¬ Q sv → sv_at s' !! sv = sv_at s !! sv;
  kp_root : root_refs s s'
}.

Lemma others_kept_kept T ino sv s s' : others_kept T ino sv s s' →
  (∀ x, sv_at s !! sv = Some x → sv_ino x = SFS_ROOT_LOCATION → ∃ x', sv_at s' !! sv = Some x' ∧ same_refs x x') → kept T (λ k, k = ino) (λ v, v = sv) s s'.
Proof. intros [K1 K2 K3 K4] Hsv. split; try done. by eapply root_refs_but. Qed.

Lemma kept_trans_links T T1 P1 Q1 P2 Q2 (P Q : Z → Prop) s s1 s2 : kept T P1 Q1 s s1 → kept T1 P2 Q2 s1 s2 →
  (∀ k i, T !! k = Some i → ¬ P k → ¬ P1 k ∧ ¬ P2 k ∧ ∃ n, T1 !! k = Some (set_linkcount n i)) → (∀ v, ¬ Q v → ¬ Q1 v ∧ ¬ Q2 v) → kept T P Q s s2.
Proof.
  intros [A1 A2 A3 A4 A5] [B1 B2 B3 B4 B5] HP HQ. split; [congruence..| | |by eapply root_refs_trans].
  - intros ino i b Hi Hn Ho. destruct (HP ino i Hi Hn) as (N1 & N2 & n & E). destruct (A3 ino i b Hi N1 Ho) as [Hm Hs].
    destruct (B3 ino _ b E) as [Hm2 Hs2]; [done| |split; congruence].
    change (owns_block s1 i b). apply frame_owns with s; [|done]. intros c Hc. by apply (A3 ino i).
  - intros v Hv. destruct (HQ v Hv). rewrite B4, A4 by done. done.
Qed.

Lemma kept_trans T T1 P1 Q1 P2 Q2 (P Q : Z → Prop) s s1 s2 : kept T P1 Q1 s s1 → kept T1 P2 Q2 s1 s2 →
  (∀ k i, T !! k = Some i → ¬ P k → ¬ P1 k ∧ ¬ P2 k ∧ T1 !! k = Some i) → (∀ v, ¬ Q v → ¬ Q1 v ∧ ¬ Q2 v) → kept T P Q s s2.
Proof.
  intros HA HB HP HQ. apply (kept_trans_links T T1 P1 Q1 P2 Q2 P Q s s1 s2 HA HB); [|done]. intros k i Hi Hn.
  destruct (HP k i Hi Hn) as (N1 & N2 & E). split_and!; [done|done|]. exists (sfi_linkcount i). by destruct i.
Qed.

Lemma kept_weaken T (P Q P' Q' : Z → Prop) s s' : kept T P Q s s' → (∀ k, P k → P' k) → (∀ v, Q v → Q' v) → kept T P' Q' s s'.
Proof. intros [K1 K2 K3 K4 K5] HP HQ. split; try done; [intros ino i b Hi Hn; apply (K3 ino i b Hi)|intros v Hv; apply K4]; auto. Qed.

Lemma kept_refl T L s P Q : sfs_core T L s → kept T P Q s s.
Proof. intros [Hd Hm]. split; try done; [|by apply root_refs_same]. intros ino i b Hi _ Ho. split; [|done]. by apply (owns_marked T L s Hd ino i). Qed.

Lemma same_fs_kept T L s s' P Q : sfs_core T L s → same_fs s s' → kept T P Q s s'.
Proof.
  intros [Hd Hm] (E1 & E2 & E3 & E4 & E8 & E5 & E6 & E7). split; [done|done| |by rewrite E5|by apply root_refs_same]. intros ino i b Hi _ Ho. unfold marked, sect.
  rewrite E1, E4. split; [|done]. by apply (owns_marked T L s Hd ino i).
Qed.

(** Objects that are kept have the same contents. *)
Lemma kept_file T P Q L s s' ino i : kept T P Q s s' → sfs_core T L s → T !! ino = Some i → ¬ P ino →
  file_ok s' i ∧ (∀ p, 0 ≤ p < FILEMAX → fbyte s' i p = fbyte s i p) ∧ (sfi_size i ≤ FILEMAX → ∀ slot, entry s' i slot = entry s i slot).
Proof.
  intros [K1 K2 K3 K4 _] [Hd Hm] Hi Hn. assert (∀ b, owns_block s i b → marked s' b ∧ sect s' b = sect s b) as Hk by (intros b; by apply (K3 ino i b)).
  split_and!.
  - apply (frame_file s); [apply (dc_objects _ _ _ Hd _ _ Hi)|done|done].
  - intros p Hp. by apply frame_byte.
  - intros Hsz slot. by apply frame_entry.
Qed.

(** The directory is sound if its entries are. *)
Lemma dir_ok_same s s' r : dir_ok s r → (∀ slot, entry s' r slot = entry s r slot) → dir_ok s' r.
Proof. intros [D1 D2 D3 D4] He. split; try done. intros a b name k k'. rewrite !He. apply D4. Qed.

Lemma kept_root T r P Q L s s' : kept T P Q s s' → sfs_core T L s → sfs_tree T r s → ¬ P SFS_ROOT_LOCATION →
  dir_ok s' r ∧ ∀ slot, entry s' r slot = entry s r slot.
Proof.
  intros Hk Hc Ht Hn. destruct (kept_file _ _ _ _ _ _ _ _ Hk Hc (st_root _ _ _ Ht) Hn) as (_ & _ & He).
  specialize (He (do_max _ _ (st_dir _ _ _ Ht))). split; [|done]. by eapply dir_ok_same; [apply Ht|].
Qed.

(** ** Looking up *)

Lemma entry_device s s' r slot : sfs_device s' = sfs_device s → entry s' r slot = entry s r slot.
Proof. intros E. unfold entry, dirent, fbytes, fbyte, fdata, bref, sect. by rewrite E. Qed.

Lemma tree_same_dir T r s s' : sfs_tree T r s → (∀ slot, entry s' r slot = entry s r slot) → (∀ ino, is_loaded s ino → is_loaded s' ino) → sfs_tree T r s'.
Proof.
  intros [R1 R2 R3 R4 R5 R6 R7] He Hl. split; try done.
  - by eapply dir_ok_same.
  - intros slot name k. rewrite He. apply R5.
  - intros ino i Hi Hne. rewrite (links_pointwise (entry s r) (entry s' r)) by done. by apply R6.
  - intros ino i Hi H0. apply Hl. by eapply R7.
Qed.

Lemma got_loaded T ino sv x s s' k : vnode_got T ino sv x s s' → is_loaded s k → is_loaded s' k.
Proof.
  intros [G1 G2 G3 G4 G5 G6 G7] (sv' & y & Hy & E). destruct (decide (sv' = sv)) as [->|Hne].
  - destruct G4 as [(x0 & H0 & ->)|(H0 & _)]; [|congruence]. simplify_eq. eexists sv, _. split; [exact G1|done].
  - exists sv', y. split; [|done]. by rewrite (ok_vnodes _ _ _ _ _ G7).
Qed.

Lemma inv_got T r L ino sv x s s' : sfs_inv T r L s → sfs_core T L s' → vnode_got T ino sv x s s' → sfs_inv T r L s'.
Proof.
  intros [Hc Ht] Hc' Hg. split; [done|]. eapply tree_same_dir; [done| |intros k; by eapply got_loaded].
  intros slot. apply entry_device, Hg.
Qed.

Lemma inv_same_fs T r L s s' : sfs_inv T r L s → same_fs s s' → sfs_inv T r L s'.
Proof.
  intros [Hc Ht] Hs. split; [by eapply core_same_fs|]. destruct Hs as (E1 & E2 & E3 & E4 & E8 & E5 & E6 & E7).
  eapply tree_same_dir; [done|intros slot; by apply entry_device|]. intros k (sv & y & Hy & E). exists sv, y. by rewrite E5.
Qed.

Lemma inv_depth T r L s f : sfs_inv T r L s → 0 ≤ f (vfs_biglock_depth s) → sfs_inv T r L (set_depth f s).
Proof.
  intros [Hc Ht] Hd. split; [by apply core_depth|]. eapply tree_same_dir; [done|intros slot; by apply entry_device|done].
Qed.

(** The vnode of the root directory. *)
Record at_root (T : gmap Z sfs_inode) (r : sfs_inode) (L : Z → Prop) (s : sfs) (svd : Z) (xd : sfs_vnode) : Prop := {
  ar_lock : biglocked s;
  ar_inv : sfs_inv T r L s;
  ar_sv : sv_at s !! svd = Some xd;
  ar_ino : sv_ino xd = SFS_ROOT_LOCATION
}.

(** The same outside the lock. *)
Record has_root (T : gmap Z sfs_inode) (r : sfs_inode) (L : Z → Prop) (s : sfs) (svd : Z) (xd : sfs_vnode) : Prop := {
  hr_inv : sfs_inv T r L s;
  hr_sv : sv_at s !! svd = Some xd;
  hr_ino : sv_ino xd = SFS_ROOT_LOCATION
}.

Lemma at_root_has T r L s svd xd : at_root T r L s svd xd → has_root T r L s svd xd.
Proof. intros [H1 H2 H3 H4]. by split. Qed.

Lemma has_root_lock T r L s svd xd : has_root T r L s svd xd → at_root T r L (set_depth (λ d, d + 1) s) svd xd.
Proof.
  intros [H1 H2 H3]. pose proof (mc_depth _ _ (sc_mem _ _ _ (si_core _ _ _ _ H1))). split; try done; [unfold biglocked; simpl; lia|].
  apply inv_depth; [done|lia].
Qed.

Lemma has_root_unlock T r L s svd xd : has_root T r L s svd xd → 0 < vfs_biglock_depth s → has_root T r L (set_depth (λ d, d - 1) s) svd xd.
Proof. intros [H1 H2 H3] Hd. split; try done. apply inv_depth; [done|lia]. Qed.

Lemma kept_unlock T P Q s s' : kept T P Q (set_depth (λ d, d + 1) s) s' → 0 ≤ vfs_biglock_depth s →
  0 < vfs_biglock_depth s' ∧ kept T P Q s (set_depth (λ d, d - 1) s').
Proof. intros [K1 K2 K3 K4 K5] Hd. simpl in K2. split; [lia|]. split; try done. simpl. lia. Qed.

Lemma root_inode T r L s svd xd : at_root T r L s svd xd → sv_i xd = r.
Proof.
  intros [H1 [[Hd Hm] Ht] H3 H4]. pose proof (vo_inode _ _ _ (mc_vnodes _ _ Hm _ _ H3)) as Hi. rewrite H4, (st_root _ _ _ Ht) in Hi. congruence.
Qed.

Lemma root_at_file T r L s svd xd : at_root T r L s svd xd → at_file svd xd s ∧ dir_ok s (sv_i xd) ∧ sv_i xd = r.
Proof.
  intros Hr. pose proof (root_inode _ _ _ _ _ _ Hr) as Ei. destruct Hr as [H1 [[Hd Hm] Ht] H3 H4]. rewrite Ei. split_and!; [|apply Ht|done].
  split; [done|apply Hd|done|]. rewrite Ei. apply (dc_objects _ _ _ Hd _ _ (st_root _ _ _ Ht)).
Qed.

Lemma entry_object T r L s slot name k : sfs_inv T r L s → entry s r slot = Some (name, k) →
  ∃ i, T !! k = Some i ∧ k ≠ SFS_ROOT_LOCATION ∧ sfi_type i = SFS_TYPE_FILE ∧ sfi_linkcount i = links (entry s r) k ∧ 0 < sfi_linkcount i ∧ 0 ≤ slot < MAXSLOTS.
Proof.
  intros [[Hd Hm] Ht] He. destruct (st_entries _ _ _ Ht _ _ _ He) as [Hne [i Hi]]. exists i.
  pose proof (st_links _ _ _ Ht _ _ Hi Hne) as Hl. assert (0 ≤ slot < MAXSLOTS) as Hs.
  { pose proof (entry_range _ _ _ _ He). pose proof (dir_nslots s r (oo_file _ _ _ _ (dc_objects _ _ _ Hd _ _ (st_root _ _ _ Ht))) (st_dir _ _ _ Ht)). lia. }
  split_and!; try done; [by apply (st_types _ _ _ Ht k)|rewrite Hl; by eapply links_pos|lia|lia].
Qed.

Lemma sfs_lookonce_spec X T r L s svd xd name : at_root T r L s svd xd →
  wpx X (sfs_lookonce svd name)
    (λ p s', let '(sv, slot) := p in ∃ ino i x, entry s r slot = Some (name, ino) ∧ T !! ino = Some i ∧ sv_i x = i ∧
       sfs_inv T r L s' ∧ vnode_got T ino sv x s s')
    (λ e s', same_fs s s' ∧ ((e = ENOENT ∧ ∀ slot k, entry s r slot ≠ Some (name, k)) ∨ e = ENOMEM)) s.
Proof.
  intros Hr. destruct (root_at_file _ _ _ _ _ _ Hr) as (Ha & Hdir & Ei). pose proof (ar_inv _ _ _ _ _ _ Hr) as Hinv.
  unfold sfs_lookonce. wp_steps. eapply sfs_dir_findname_spec; [done|done|]. rewrite Ei. intros res [R1 R2 R3 R4].
  destruct (found_at res) as [[ino slot]|] eqn:Ef.
  - destruct (R1 ino slot eq_refl) as [Hs He]. destruct (entry_object _ _ _ _ _ _ _ Hinv He) as (i & Hi & Hne & Hty & Hlc & Hpos & Hsl).
    wp_steps. eapply wp_conseq; [apply (sfs_loadvnode_spec X T L s ino i sfs_fileops); [apply Ha|apply Hinv|done|by rewrite Hty]| |].
    + intros sv s' [Hc' (x & Hg & Ex)]. wp_steps. eapply wp_read_sv; [apply Hg|]. rewrite Ex, (proj2 (Z.eqb_neq _ 0)) by lia.
      wp_steps. exists ino, i, x. split_and!; try done. by eapply inv_got.
    + intros e s' [-> Hs']. split; [done|by right].
  - wp_steps. split; [split_and!; done || lia|]. left. split; [done|]. intros slot k He. apply (R2 eq_refl slot k); [|done].
    destruct (entry_range _ _ _ _ He). lia.
Qed.

(** ** Changing the root directory *)

(** After a step on the root directory its entries are [f]. *)
Record root_step (T : gmap Z sfs_inode) (r : sfs_inode) (L : Z → Prop) (s : sfs) (svd : Z) (xd : sfs_vnode)
    (f : Z → option (list Z * Z)) (r' : sfs_inode) (xd' : sfs_vnode) (s' : sfs) : Prop := {
  rs_core : sfs_core (<[SFS_ROOT_LOCATION := r']> T) L s';
  rs_kept : kept T (λ k, k = SFS_ROOT_LOCATION) (λ v, v = svd) s s';
  rs_sv : sv_at s' !! svd = Some xd';
  rs_vnode : same_vnode xd xd';
  rs_inode : sv_i xd' = r';
  rs_dir : dir_ok s' r';
  rs_entries : ∀ a, entry s' r' a = f a
}.

Section RootStep.
Context (T : gmap Z sfs_inode) (r : sfs_inode) (L : Z → Prop) (s : sfs) (svd : Z) (xd : sfs_vnode).
Context (Hr : at_root T r L s svd xd).

Lemma root_step_of f xd' s' : file_step svd xd xd' s s' → dir_ok s' (sv_i xd') → (∀ a, entry s' (sv_i xd') a = f a) →
  root_step T r L s svd xd f (sv_i xd') xd' s'.
Proof.
  intros Hs Hd He. destruct (core_file_step T L s svd xd xd' s') as (Hc & Hk & Hx & Hv); [apply Hr|apply Hr|done|].
  rewrite (ar_ino _ _ _ _ _ _ Hr) in Hc, Hk. split; try done. apply others_kept_kept; [done|].
  intros x. rewrite (ar_sv _ _ _ _ _ _ Hr). intros [= <-] _. exists xd'. by split; [|apply same_vnode_refs].
Qed.

Lemma root_step_changed slot ent s' : dir_changed svd xd s slot ent s' →
  ∃ r' xd', root_step T r L s svd xd (λ a, if decide (a = slot) then ent else entry s r a) r' xd' s' ∧ 0 ≤ slot < MAXSLOTS.
Proof.
  destruct (root_at_file _ _ _ _ _ _ Hr) as (Ha & Hdir & Ei). intros (xd' & Hs & Hd & Hsl & Hn & He). exists (sv_i xd'), xd'.
  rewrite Ei in He. split; [by apply root_step_of|]. pose proof (dir_nslots _ _ (st_file _ _ _ _ _ Hs) Hd). lia.
Qed.

Lemma root_step_kept s' : dir_kept svd xd s s' → ∃ r' xd', root_step T r L s svd xd (entry s r) r' xd' s'.
Proof.
  destruct (root_at_file _ _ _ _ _ _ Hr) as (Ha & Hdir & Ei). intros (xd' & Hs & Hd & Hn & He). exists (sv_i xd'), xd'.
  rewrite Ei in He. by apply root_step_of.
Qed.

Lemma root_step_refl : root_step T r L s svd xd (entry s r) r xd s.
Proof.
  destruct (root_at_file _ _ _ _ _ _ Hr) as (Ha & Hdir & Ei). destruct Hr as [H1 [Hc Ht] H3 H4]. split; try done.
  - by rewrite insert_id by apply Ht.
  - by eapply kept_refl.
  - apply same_vnode_refl.
  - apply Ht.
Qed.

Lemma root_step_links f r' xd' s' : root_step T r L s svd xd f r' xd' s' → sfi_linkcount r' ≠ 0 ∧ sv_ino xd' = SFS_ROOT_LOCATION.
Proof.
  intros [C K S V I D E]. destruct V as (_ & _ & _ & V4 & _ & V6 & _). rewrite <- I, V6, (root_inode _ _ _ _ _ _ Hr), V4. split; [|apply Hr].
  apply (st_rootlinks _ _ _ (si_tree _ _ _ _ (ar_inv _ _ _ _ _ _ Hr))).
Qed.

Lemma root_step_loaded f r' xd' s' k : root_step T r L s svd xd f r' xd' s' → is_loaded s k ↔ is_loaded s' k.
Proof.
  intros Hs. destruct (root_step_links _ _ _ _ Hs) as [_ Hino]. destruct Hs as [C K S V I D E]. unfold is_loaded. split; intros (sv & y & Hy & Ey).
  - destruct (decide (sv = svd)) as [->|Hne]; [|exists sv, y; by rewrite (kp_vnodes _ _ _ _ _ K)]. exists svd, xd'. split; [done|].
    rewrite (ar_sv _ _ _ _ _ _ Hr) in Hy. simplify_eq. by rewrite Hino, (ar_ino _ _ _ _ _ _ Hr).
  - destruct (decide (sv = svd)) as [->|Hne]; [|exists sv, y; by rewrite <- (kp_vnodes _ _ _ _ _ K)]. exists svd, xd. split; [apply Hr|].
    rewrite S in Hy. simplify_eq. by rewrite Hino, (ar_ino _ _ _ _ _ _ Hr).
Qed.

(** Unlinking never fails on a name in use; linking fails as sfs_dir_link does, with
    the entries unchanged. *)
Lemma root_unlink X slot e : entry s r slot = Some e →
  wpx X (sfs_dir_unlink svd slot)
    (λ _ s', ∃ r' xd', root_step T r L s svd xd (λ a, if decide (a = slot) then None else entry s r a) r' xd' s') (λ _ _, False) s.
Proof.
  intros He. destruct (root_at_file _ _ _ _ _ _ Hr) as (Ha & Hdir & Ei). eapply wp_conseq; [apply (sfs_dir_unlink_spec X svd xd s slot e); [done|done|by rewrite Ei]| |done].
  intros [] s' Hch. destruct (root_step_changed _ _ _ Hch) as (r' & xd' & Hs & _). by exists r', xd'.
Qed.

Definition link_error (name : list Z) (e : Z) (s' : sfs) : Prop :=
  (e = EEXIST ∧ ∃ a k, entry s r a = Some (name, k)) ∨ (e = ENAMETOOLONG ∧ SFS_NAMELEN ≤ lengthZ name) ∨
  (e = ENOSPC ∧ full s') ∨ (e = EFBIG ∧ nslots r = MAXSLOTS).

Lemma root_link X name k : name_ok name → is_word k → k ≠ SFS_NOINO →
  wpx X (sfs_dir_link svd name k)
    (λ slot s', (∀ a k', entry s r a ≠ Some (name, k')) ∧ entry s r slot = None ∧ 0 ≤ slot < MAXSLOTS ∧ ∃ r' xd',
       root_step T r L s svd xd (λ a, if decide (a = slot) then Some (name, k) else entry s r a) r' xd' s')
    (λ e s', link_error name e s' ∧ ∃ r' xd', root_step T r L s svd xd (entry s r) r' xd' s') s.
Proof.
  intros Hn Hw Hk. destruct (root_at_file _ _ _ _ _ _ Hr) as (Ha & Hdir & Ei). eapply wp_conseq; [by apply (sfs_dir_link_spec X svd xd s name k)| |].
  - rewrite Ei. intros slot s' (H1 & H2 & Hch). destruct (root_step_changed _ _ _ Hch) as (r' & xd' & Hs & Hsl). split_and!; try done; [lia..|]. by exists r', xd'.
  - unfold link_failed, link_error. rewrite Ei. intros e s' [(-> & -> & He)|[(-> & -> & He)|[Hkp He]]].
    + split; [by left|]. exists r, xd. apply root_step_refl.
    + split; [by right; left|]. exists r, xd. apply root_step_refl.
    + split; [destruct He; by auto|]. by apply root_step_kept.
Qed.
End RootStep.
