(* ===== verification/SfsOps.v ===== *)
(** * The simple file system: operations on names

    Specifications of the vnode operations of the root directory against the
    invariant: creat, link, remove, rename and lookup change exactly the entries
    they should, keep every other file's contents, and restore everything when they
    fail. *)

From S2P Require Import Prelude Bitmap UserCopy Uio Disk SfsTypes Sfs SfsNode SfsMount SfsBlk SfsMap SfsIo SfsDir SfsTrunc SfsInv SfsVnode SfsTree.
#[local] Open Scope kern_scope.
#[local] Opaque entry.

(** ** Link counts *)

Lemma inode_wf_linkcount i n : inode_wf i → 0 ≤ n < 2 ^ 16 → inode_wf (set_linkcount n i).
Proof. intros [W1 W2 W3 W4 W5 W6 W7 W8] Hn. by split. Qed.

Definition linked_vnode (n : Z) (x : sfs_vnode) : sfs_vnode := set_dirty true (set_inode (set_linkcount n) x).

Lemma core_set_linkcount T L s sv x x' n : sfs_core T L s → sv_at s !! sv = Some x → 0 ≤ n < 2 ^ 16 → x' = linked_vnode n x →
  let s' := set_sv_at <[sv := x']> s in
  sfs_core (<[sv_ino x := set_linkcount n (sv_i x)]> T) L s' ∧ kept T (λ _, False) (λ v, v = sv) s s' ∧ sv_at s' !! sv = Some x'.
Proof.
  intros Hc Hx Hn -> s'. pose proof Hc as [Hd Hm]. destruct (mc_vnodes _ _ Hm _ _ Hx) as [V1 V2 V3 V4 V5].
  destruct (dc_objects _ _ _ Hd _ _ V1) as [O1 O2 O3 O4 O5]. split_and!.
  - apply (core_obj_step T L s sv x (linked_vnode n x) s' Hc Hx). apply set_sv_obj; try done; try apply Hd. apply inode_wf_linkcount; [apply O3|done].
  - split; try done.
    + intros ino i b Hi _ Ho. split; [|done]. by apply (owns_marked T L s Hd ino i).
    + intros v Hv. simpl. by rewrite lookup_insert_ne.
    + apply (root_refs_but sv); [intros v Hv; simpl; by rewrite lookup_insert_ne|]. intros y Hy _. exists (linked_vnode n x). simpl. rewrite lookup_insert_eq. split; [done|].
      assert (y = x) as -> by congruence. done.
  - simpl. apply lookup_insert_eq.
Qed.

Lemma add_link_spec X T L s sv x d Q E : sfs_core T L s → sv_at s !! sv = Some x → 0 ≤ sfi_linkcount (sv_i x) + d < 2 ^ 16 →
  (let n := sfi_linkcount (sv_i x) + d in let s' := set_sv_at <[sv := linked_vnode n x]> s in
   sfs_core (<[sv_ino x := set_linkcount n (sv_i x)]> T) L s' → kept T (λ _, False) (λ v, v = sv) s s' →
   sv_at s' !! sv = Some (linked_vnode n x) → Q tt s') → wpx X (add_link sv d) Q E s.
Proof.
  intros Hc Hx Hn HQ. destruct (core_set_linkcount T L s sv x (linked_vnode (sfi_linkcount (sv_i x) + d) x) (sfi_linkcount (sv_i x) + d)) as (H1 & H2 & H3); try done.
  unfold add_link. eapply wp_update_sv; [done|].
  assert (set_dirty true (set_inode (λ i, set_linkcount (u16 (sfi_linkcount i + d)) i) x) = linked_vnode (sfi_linkcount (sv_i x) + d) x) as ->; [|auto].
  unfold linked_vnode, set_inode. unfold u16. by rewrite Z.mod_small.
Qed.

(** ** Creating *)

Definition new_file : sfs_inode := set_type SFS_TYPE_FILE zero_inode.
Definition new_vnode (b : Z) : sfs_vnode := mkSV sfs_fileops 1 0 new_file b true.

Lemma added_kept_all T L s b s1 : sfs_core T L s → block_added s b s1 → kept T (λ _, False) (λ _, False) s s1.
Proof.
  intros Hc Ha. destruct (ba_rest _ _ _ Ha) as (R1 & R2 & _). split; [done|done| |by rewrite (ba_svs _ _ _ Ha)|apply root_refs_same, Ha].
  intros ino i c Hi _ Ho. eapply added_kept; [done..|]. destruct Hc as [Hd Hm]. by apply (owns_marked T L s Hd ino i).
Qed.

Lemma vnode_added_kept_all T L s x s' : sfs_core T L s → vnode_added s x s' → kept T (λ _, False) (λ v, v = sv_next s) s s'.
Proof.
  intros [Hd Hm] [A1 A2 A3 A8 A4 A5 A6 A7]. assert (∀ v, v ≠ sv_next s → sv_at s' !! v = sv_at s !! v) as Hv by (intros v Hv; by rewrite A5, lookup_insert_ne).
  split; try done.
  - intros ino i b Hi _ Ho. unfold marked, sect. rewrite A1, A3. split; [|done]. by apply (owns_marked T L s Hd ino i).
  - apply (root_refs_but (sv_next s)); [done|]. intros y Hy. by rewrite (next_fresh _ _ Hm) in Hy.
Qed.

Lemma sfs_makeobj_spec X T L s : biglocked s → sfs_core T L s →
  wpx X (sfs_makeobj SFS_TYPE_FILE)
    (λ sv s', ∃ b, T !! b = None ∧ 0 < b < nblk s ∧ sv_at s' !! sv = Some (new_vnode b) ∧ sv_at s !! sv = None ∧
       sfs_core (<[b := new_file]> T) L s' ∧ kept T (λ _, False) (λ v, v = sv) s s')
    (λ e s', (e = ENOSPC ∧ full s ∧ s' = s) ∨
       (e = ENOMEM ∧ ∃ b, T !! b = None ∧ sfs_core T (λ c, L c ∨ c = b) s' ∧ kept T (λ _, False) (λ _, False) s s')) s.
Proof.
  intros Hl Hc. unfold sfs_makeobj. wp_steps. eapply wp_conseq; [by apply sfs_balloc_spec; [|apply Hc]| |].
  2: { intros e s' (-> & -> & Hf). by left. }
  intros b s1 Ha. pose proof (core_new_object T L s b s1 Hc Ha) as Hc1. pose proof (added_fresh T L s b s1 Hc Ha) as Hfresh.
  pose proof (added_kept_all T L s b s1 Hc Ha) as Hk1.
  assert (¬ is_loaded s1 b) as Hnl.
  { intros (sv & y & Hy & E). rewrite (ba_svs _ _ _ Ha) in Hy. pose proof (vo_inode _ _ _ (mc_vnodes _ _ (sc_mem _ _ _ Hc) _ _ Hy)) as Hi. congruence. }
  eapply wp_conseq; [apply (loadvnode_miss X (<[b := zero_inode]> T) L s1 b zero_inode SFS_TYPE_FILE sfs_fileops); try done| |].
  - unfold biglocked. by rewrite (kp_depth _ _ _ _ _ Hk1).
  - by rewrite lookup_insert_eq.
  - intros sv s' [-> Hv]. change (vnode_added s1 (new_vnode b) s') in Hv. exists b. pose proof (next_fresh _ _ (sc_mem _ _ _ Hc1)) as Hn1.
    split_and!; [done|apply (ba_range _ _ _ Ha)|apply (ba_range _ _ _ Ha)| | |..].
    + rewrite (va_svs _ _ _ Hv). apply lookup_insert_eq.
    + by rewrite <- (ba_svs _ _ _ Ha).
    + assert (<[b := new_file]> T = <[b := new_file]> (<[b := zero_inode]> T)) as -> by (by rewrite insert_insert_eq). apply (core_load _ L s1 (new_vnode b) s' zero_inode); try done; [by rewrite lookup_insert_eq|].
      destruct (fo_wf _ _ (zero_inode_ok s)) as [W1 W2 W3 W4 W5 W6 W7 W8]. by split.
    + eapply kept_trans; [exact Hk1|eapply vnode_added_kept_all; [exact Hc1|done]|..]; [|by auto].
      intros k i Hk _. split_and!; auto. rewrite lookup_insert_ne; [done|congruence].
  - intros e s' [-> Hs]. right. split; [done|]. exists b. split_and!; [done|by eapply core_same_fs; [eapply core_leak|]|].
    eapply kept_trans; [exact Hk1|by eapply (same_fs_kept T _ s1 s' (λ _, False) (λ _, False)); [eapply core_leak|]|..]; auto.
Qed.

Lemma kept_loaded T P Q s s' k sv y : kept T P Q s s' → sv_at s !! sv = Some y → ¬ Q sv → sv_ino y = k → is_loaded s' k.
Proof. intros [K1 K2 K3 K4 _] Hy Hn E. exists sv, y. by rewrite K4. Qed.

(** The objects of the root directory when only its own inode has changed. *)
Lemma root_step_inv T r L s svd xd r' xd' s' : at_root T r L s svd xd → root_step T r L s svd xd (entry s r) r' xd' s' →
  at_root (<[SFS_ROOT_LOCATION := r']> T) r' L s' svd xd'.
Proof.
  intros Hr Hs. destruct (root_step_links _ _ _ _ _ _ Hr _ _ _ _ Hs) as [Hlc Hino]. pose proof (ar_inv _ _ _ _ _ _ Hr) as [_ [R1 R2 R3 R4 R5 R6 R7]].
  split; [unfold biglocked; rewrite (kp_depth _ _ _ _ _ (rs_kept _ _ _ _ _ _ _ _ _ _ Hs)); apply Hr| |apply Hs|done].
  split; [apply Hs|]. split; [by rewrite lookup_insert_eq|apply Hs|done|..].
  - intros ino i [[<- <-]|[Hne Hi]]%lookup_insert_Some Hne'; [done|by apply (R4 ino)].
  - intros slot name k He. rewrite (rs_entries _ _ _ _ _ _ _ _ _ _ Hs) in He. destruct (R5 _ _ _ He) as [Hne Hk]. split; [done|].
    by rewrite lookup_insert_ne.
  - intros ino i [[<- <-]|[Hne Hi]]%lookup_insert_Some Hne'; [done|]. rewrite (links_pointwise (entry s r)); [by apply R6|apply Hs].
  - intros ino i [[<- <-]|[Hne Hi]]%lookup_insert_Some H0; [done|]. rewrite <- (root_step_loaded _ _ _ _ _ _ Hr _ _ _ _ _ Hs). by apply (R7 ino i).
Qed.

(** The state once a new object has been made. *)
Lemma made_at_root T r L s svd xd b sv s' : at_root T r L s svd xd → T !! b = None → sv_at s' !! sv = Some (new_vnode b) → sv_at s !! sv = None →
  sfs_core (<[b := new_file]> T) L s' → kept T (λ _, False) (λ v, v = sv) s s' →
  at_root (<[b := new_file]> T) r L s' svd xd ∧ (∀ slot, entry s' r slot = entry s r slot) ∧ svd ≠ sv ∧ b ≠ SFS_ROOT_LOCATION.
Proof.
  intros Hr Hb Hsv Hsv0 Hc Hk. pose proof Hr as [H1 Hinv H3 H4]. pose proof Hinv as [Hc0 Ht]. pose proof Ht as [R1 R2 R3 R4 R5 R6 R7].
  assert (svd ≠ sv) as Hne by congruence. assert (b ≠ SFS_ROOT_LOCATION) as Hb1 by congruence.
  destruct (kept_root _ _ _ _ _ _ _ Hk Hc0 Ht) as [Hd He]; [by intros []|]. split_and!; try done.
  split; [unfold biglocked; by rewrite (kp_depth _ _ _ _ _ Hk)| |by rewrite (kp_vnodes _ _ _ _ _ Hk)|done].
  split; [done|]. split; [by rewrite lookup_insert_ne|done|done|..].
  - intros ino i [[<- <-]|[Hn Hi]]%lookup_insert_Some Hne'; [done|by apply (R4 ino)].
  - intros slot name k. rewrite He. intros He'. destruct (R5 _ _ _ He') as [Hn Hk']. split; [done|]. rewrite lookup_insert_is_Some'. by right.
  - intros ino i Hi Hne'. rewrite (links_pointwise (entry s r)) by done. apply lookup_insert_Some in Hi as [[<- <-]|[Hn Hi]]; [|by apply R6].
    rewrite links_zero; [done|]. intros slot name He'. destruct (R5 _ _ _ He') as [_ [j Hj]]. congruence.
  - intros ino i [[<- <-]|[Hn Hi]]%lookup_insert_Some H0; [by exists sv, (new_vnode b)|]. destruct (R7 ino i Hi H0) as (v & y & Hy & E).
    eapply kept_loaded; [exact Hk|exact Hy| |done]. congruence.
Qed.

(** The names and the other objects are as before. *)
Definition names_same (T : gmap Z sfs_inode) (r : sfs_inode) (L : Z → Prop) (s : sfs) (svd : Z) (s' : sfs) : Prop :=
  ∃ r' xd', has_root (<[SFS_ROOT_LOCATION := r']> T) r' L s' svd xd' ∧ (∀ a, entry s' r' a = entry s r a) ∧
    kept T (λ k, k = SFS_ROOT_LOCATION) (λ v, v = svd) s s'.

Lemma names_same_refl T r L s svd xd : at_root T r L s svd xd → names_same T r L s svd s.
Proof.
  intros Hr. exists r, xd. pose proof (ar_inv _ _ _ _ _ _ Hr) as [Hc Ht]. rewrite insert_id by apply Ht. split_and!; [by apply at_root_has|done|]. by eapply kept_refl.
Qed.

Lemma names_same_step T r L s svd xd r' xd' s' : at_root T r L s svd xd → root_step T r L s svd xd (entry s r) r' xd' s' → names_same T r L s svd s'.
Proof. intros Hr Hs. exists r', xd'. split_and!; [by eapply at_root_has, root_step_inv|apply Hs|apply Hs]. Qed.

(** A directory whose objects have not changed is still at the root. *)
Lemma at_root_kept T r L s svd xd P Q s' : at_root T r L s svd xd → sfs_core T L s' → kept T P Q s s' → ¬ P SFS_ROOT_LOCATION → ¬ Q svd →
  (∀ ino i, T !! ino = Some i → sfi_linkcount i = 0 → is_loaded s' ino) → at_root T r L s' svd xd ∧ ∀ a, entry s' r a = entry s r a.
Proof.
  intros [H1 [Hc Ht] H3 H4] Hc' Hk HP HQ Ho. destruct (kept_root _ _ _ _ _ _ _ Hk Hc Ht HP) as [Hd He]. split; [|done].
  destruct Ht as [R1 R2 R3 R4 R5 R6 R7]. split; [unfold biglocked; by rewrite (kp_depth _ _ _ _ _ Hk)| |by rewrite (kp_vnodes _ _ _ _ _ Hk)|done].
  split; [done|]. split; try done.
  - intros slot name k. rewrite He. apply R5.
  - intros ino i Hi Hne. rewrite (links_pointwise (entry s r)) by done. by apply R6.
Qed.

Lemma kept_restored T P (Q : Z → Prop) sv s s' : kept T P (λ v, Q v ∨ v = sv) s s' → sv_at s' !! sv = sv_at s !! sv → kept T P Q s s'.
Proof. intros [K1 K2 K3 K4 K5] E. split; try done. intros v Hv. destruct (decide (v = sv)) as [->|]; [done|]. apply K4. naive_solver. Qed.

(** Giving up a reference to an object other than the root. *)
Definition dropped (y : sfs_vnode) : Prop := vn_refcount y ≤ 1 ∧ sfi_linkcount (sv_i y) = 0.

Lemma after_decref_eq T y : (dropped y ∧ after_decref T y = delete (sv_ino y) T) ∨ (¬ dropped y ∧ after_decref T y = T).
Proof.
  unfold after_decref, after_reclaim, dropped. destruct (Z.ltb_spec 1 (vn_refcount y)); [right; split; [lia|done]|].
  destruct (Z.eqb_spec (sfi_linkcount (sv_i y)) 0); [by left|right; split; [lia|done]].
Qed.

Record root_decref (T : gmap Z sfs_inode) (r : sfs_inode) (L : Z → Prop) (s : sfs) (svd : Z) (xd : sfs_vnode) (sv : Z) (y : sfs_vnode) (s' : sfs) : Prop := {
  rd_root : has_root (after_decref T y) r L s' svd xd;
  rd_entries : ∀ a, entry s' r a = entry s r a;
  rd_kept : kept T (λ k, k = sv_ino y ∧ dropped y) (λ v, v = sv) s s';
  rd_sv : sv_at s' !! sv = decref_vnode y
}.

Lemma decref_tree T r L s sv y s' : sfs_inv T r L s → sv_at s !! sv = Some y → sv_ino y ≠ SFS_ROOT_LOCATION →
  kept T (λ k, k = sv_ino y ∧ dropped y) (λ v, v = sv) s s' → sv_at s' !! sv = decref_vnode y →
  sfs_tree (after_decref T y) r s' ∧ ∀ a, entry s' r a = entry s r a.
Proof.
  intros Hinv Hy Hne Hk Hy'. pose proof Hinv as [Hc Ht]. destruct (kept_root _ _ _ _ _ _ _ Hk Hc Ht) as [Hd He]; [intros [E _]; congruence|]. split; [|done].
  pose proof (vo_inode _ _ _ (mc_vnodes _ _ (sc_mem _ _ _ Hc) _ _ Hy)) as Hi. destruct Ht as [R1 R2 R3 R4 R5 R6 R7].
  assert (∀ ino i, after_decref T y !! ino = Some i → T !! ino = Some i ∧ (dropped y → ino ≠ sv_ino y)) as HT.
  { intros ino i. destruct (after_decref_eq T y) as [[D ->]|[D ->]]; [intros [H1 H2]%lookup_delete_Some; split; [done|congruence]|by intros]. }
  split; [|done|done|..].
  - destruct (after_decref_eq T y) as [[D ->]|[D ->]]; [by rewrite lookup_delete_ne|done].
  - intros ino i Hi' Hn. by apply (R4 ino i); [apply HT|].
  - intros slot name k. rewrite He. intros He'. destruct (R5 _ _ _ He') as [Hn [i Hi']]. split; [done|].
    destruct (after_decref_eq T y) as [[D ->]|[D ->]]; [|by eexists]. rewrite lookup_delete_ne; [by eexists|]. intros <-.
    destruct (entry_object _ _ _ _ _ _ _ Hinv He') as (j & Hj & _ & _ & _ & Hpos & _). destruct D as [_ D]. assert (j = sv_i y) as -> by congruence. lia.
  - intros ino i Hi' Hn. rewrite (links_pointwise (entry s r)) by done. by apply R6; [apply HT|].
  - intros ino i Hi' H0. destruct (HT _ _ Hi') as [Hi1 Hd']. destruct (R7 ino i Hi1 H0) as (v & z & Hz & E).
    destruct (decide (v = sv)) as [->|Hv]; [|by eapply kept_loaded].
    assert (z = y) as -> by congruence. subst ino. assert (i = sv_i y) as -> by congruence. exists sv. rewrite Hy'. unfold decref_vnode.
    destruct (Z.ltb_spec 1 (vn_refcount y)); [by eexists|]. by destruct Hd'.
Qed.

(** The same whether or not the root directory is in memory. *)
Record file_decref (T : gmap Z sfs_inode) (r : sfs_inode) (L : Z → Prop) (s : sfs) (sv : Z) (y : sfs_vnode) (s' : sfs) : Prop := {
  fd_inv : sfs_inv (after_decref T y) r L s';
  fd_entries : ∀ a, entry s' r a = entry s r a;
  fd_kept : kept T (λ k, k = sv_ino y ∧ dropped y) (λ v, v = sv) s s';
  fd_sv : sv_at s' !! sv = decref_vnode y
}.

Lemma decref_file X T r L s sv y : sfs_inv T r L s → sv_at s !! sv = Some y → sv_ino y ≠ SFS_ROOT_LOCATION → vn_opencount y < vn_refcount y →
  wpx X (vnode_decref sv) (λ _, file_decref T r L s sv y) (λ _ _, False) s.
Proof.
  intros Hinv Hy Hne Ho. pose proof Hinv as [Hc Ht]. destruct (mc_vnodes _ _ (sc_mem _ _ _ Hc) _ _ Hy) as [V1 V2 V3 V4 V5].
  pose proof (proj1 (oo_range _ _ _ _ (dc_objects _ _ _ (sc_disk _ _ _ Hc) _ _ V1))) as Hpos.
  set (k := if decide (vn_refcount y ≤ 1 ∧ sfi_linkcount (sv_i y) = 0) then sv_ino y else -1).
  eapply wp_conseq; [apply (vnode_decref_spec X T L s sv y k); try done| |done].
  { intros H1 H2. unfold k. rewrite decide_True by done. split; [|done]. rewrite (st_types _ _ _ Ht _ _ V1 Hne) in V4. by injection V4. }
  intros [] s' (Hc' & Hk & Hy').
  assert (kept T (λ k, k = sv_ino y ∧ dropped y) (λ v, v = sv) s s') as Hk'.
  { destruct Hk as [K1 K2 K3 K4]. split; try done; [|apply (root_refs_but sv); [done|congruence]]. intros ino i b Hi Hn. apply (K3 ino i b Hi). unfold k. case_decide as D; [by intros ->; apply Hn|].
    pose proof (oo_range _ _ _ _ (dc_objects _ _ _ (sc_disk _ _ _ Hc) _ _ Hi)). lia. }
  destruct (decref_tree _ _ _ _ _ _ _ Hinv Hy Hne Hk' Hy') as [Ht' He]. split; [|done|done|done]. by split.
Qed.

Lemma decref_root X T r L s svd xd sv y : has_root T r L s svd xd → sv_at s !! sv = Some y → sv_ino y ≠ SFS_ROOT_LOCATION → vn_opencount y < vn_refcount y →
  wpx X (vnode_decref sv) (λ _, root_decref T r L s svd xd sv y) (λ _ _, False) s.
Proof.
  intros Hr Hy Hne Ho. eapply wp_conseq; [by apply (decref_file X T r L s sv y); [apply Hr|..]| |done]. intros [] s' [D1 D2 D3 D4].
  assert (svd ≠ sv) as Hsv by (intros ->; pose proof (hr_sv _ _ _ _ _ _ Hr); pose proof (hr_ino _ _ _ _ _ _ Hr); congruence).
  split; [|done|done|done]. split; [done|rewrite (kp_vnodes _ _ _ _ _ D3) by done; apply Hr|apply Hr].
Qed.

Lemma has_root_at T r L s svd xd T0 P Q s0 : has_root T r L s svd xd → kept T0 P Q s0 s → biglocked s0 → at_root T r L s svd xd.
Proof. intros [H1 H2 H3] Hk Hl. split; try done. unfold biglocked. by rewrite (kp_depth _ _ _ _ _ Hk). Qed.

(** Undoing a creation: the only reference to the new object is given up. *)
Lemma creat_undo X T r L s svd xd b sv s2 r' xd' s3 : at_root T r L s svd xd → T !! b = None → sv_at s !! sv = None → svd ≠ sv → b ≠ SFS_ROOT_LOCATION →
  kept T (λ _, False) (λ v, v = sv) s s2 → (∀ a, entry s2 r a = entry s r a) → sv_at s2 !! sv = Some (new_vnode b) →
  at_root (<[b := new_file]> T) r L s2 svd xd → root_step (<[b := new_file]> T) r L s2 svd xd (entry s2 r) r' xd' s3 →
  wpx X (vnode_decref sv) (λ _, names_same T r L s svd) (λ _ _, False) s3.
Proof.
  intros Hr Hb Hsv0 Hne Hb1 Hk1 He1 Hx2 Hr2 Hs. pose proof (root_step_inv _ _ _ _ _ _ _ _ _ Hr2 Hs) as Hr3.
  set (T3 := <[SFS_ROOT_LOCATION := r']> (<[b := new_file]> T)) in *.
  assert (sv_at s3 !! sv = Some (new_vnode b)) as Hx3 by (rewrite (kp_vnodes _ _ _ _ _ (rs_kept _ _ _ _ _ _ _ _ _ _ Hs)); congruence).
  eapply wp_conseq; [by apply (decref_root X T3 r' L s3 svd xd' sv (new_vnode b)); [apply at_root_has|..]| |done].
  intros [] s4 [D1 D2 D3 D4]. change (after_decref T3 (new_vnode b)) with (delete b T3) in D1. change (decref_vnode (new_vnode b)) with (@None sfs_vnode) in D4.
  assert (delete b T3 = <[SFS_ROOT_LOCATION := r']> T) as ET.
  { unfold T3. rewrite delete_insert_ne by done. f_equal. rewrite delete_insert_eq. by apply delete_id. }
  rewrite ET in D1. exists r', xd'. split_and!; [exact D1|intros a; by rewrite D2, (rs_entries _ _ _ _ _ _ _ _ _ _ Hs)|].
  apply (kept_restored _ _ _ sv); [|congruence].
  apply (kept_trans T (<[b := new_file]> T) (λ _, False) (λ v, v = sv) (λ k, k = SFS_ROOT_LOCATION ∨ k = b) (λ v, v = svd ∨ v = sv) _ _ s s2 s4 Hk1).
  - eapply kept_trans; [apply Hs|exact D3|..]; [|naive_solver]. intros k i Hi Hn. split_and!; [naive_solver..|]. unfold T3. rewrite lookup_insert_ne; [done|naive_solver].
  - intros k i Hi Hn. split_and!; [by auto|naive_solver|]. rewrite lookup_insert_ne; [done|congruence].
  - naive_solver.
Qed.

(** ** Linking and unlinking *)

(** An entry of the root directory changes and the link count of object [ino], of
    which [sv] is a vnode, follows. *)
Section Relink.
Context (T : gmap Z sfs_inode) (r : sfs_inode) (L : Z → Prop) (s : sfs) (svd : Z) (xd : sfs_vnode).
Context (Hr : at_root T r L s svd xd).
Context (sv : Z) (x : sfs_vnode) (Hx : sv_at s !! sv = Some x) (Hfile : sv_ino x ≠ SFS_ROOT_LOCATION).
Context (slot d : Z) (ent : option (list Z * Z)) (Hslot : 0 ≤ slot < MAXSLOTS).
Context (Hnames : ∀ k, names ent k = names (entry s r slot) k + (if decide (k = sv_ino x) then d else 0)).
Context (Hent : ∀ name k, ent = Some (name, k) → k = sv_ino x).
#[local] Notation f := (λ a, if decide (a = slot) then ent else entry s r a).
#[local] Notation n := (sfi_linkcount (sv_i x) + d).

Lemma relink_count : n = links f (sv_ino x) ∧ 0 ≤ n < 2 ^ 16 ∧ svd ≠ sv.
Proof.
  destruct Hr as [H1 [[Hdk Hm] Ht] H3 H4]. pose proof (vo_inode _ _ _ (mc_vnodes _ _ Hm _ _ Hx)) as Hi.
  rewrite (st_links _ _ _ Ht _ _ Hi Hfile). pose proof (links_update (entry s r) f slot ent (sv_ino x) Hslot (λ a, eq_refl)) as Hu.
  rewrite Hnames, decide_True in Hu by done. pose proof (links_range f (sv_ino x)). change MAXSLOTS with 1144 in *.
  split_and!; [lia|lia|lia|]. intros ->. congruence.
Qed.

Record relinked (r' : sfs_inode) (xd' : sfs_vnode) (s' : sfs) : Prop := {
  rl_root : has_root (<[sv_ino x := set_linkcount n (sv_i x)]> (<[SFS_ROOT_LOCATION := r']> T)) r' L s' svd xd';
  rl_entries : ∀ a, entry s' r' a = f a;
  rl_kept : kept T (λ k, k = SFS_ROOT_LOCATION) (λ v, v = svd ∨ v = sv) s s';
  rl_sv : sv_at s' !! sv = Some (linked_vnode n x)
}.

Lemma relink X r' xd' s1 : root_step T r L s svd xd f r' xd' s1 → wpx X (add_link sv d) (λ _, relinked r' xd') (λ _ _, False) s1.
Proof.
  intros Hs. destruct relink_count as (Hn & Hnr & Hne). destruct (root_step_links _ _ _ _ _ _ Hr _ _ _ _ Hs) as [Hlc Hino].
  assert (sv_at s1 !! sv = Some x) as Hx1 by (rewrite (kp_vnodes _ _ _ _ _ (rs_kept _ _ _ _ _ _ _ _ _ _ Hs)); [done|congruence]).
  eapply add_link_spec; [apply Hs|done|done|]. cbv zeta. set (s2 := set_sv_at _ s1). intros Hc2 Hk2 Hx2.
  assert (∀ a, entry s2 r' a = f a) as He by (intros a; rewrite (entry_device s1 s2) by done; apply Hs).
  split; [|done| |done].
  - split; [| |done].
    2: { rewrite (kp_vnodes _ _ _ _ _ Hk2) by congruence. apply Hs. }
    split; [done|]. pose proof (ar_inv _ _ _ _ _ _ Hr) as [_ [R1 R2 R3 R4 R5 R6 R7]].
    pose proof (vo_inode _ _ _ (mc_vnodes _ _ (sc_mem _ _ _ (si_core _ _ _ _ (ar_inv _ _ _ _ _ _ Hr))) _ _ Hx)) as Hi.
    assert (∀ ino i, <[sv_ino x := set_linkcount n (sv_i x)]> (<[SFS_ROOT_LOCATION := r']> T) !! ino = Some i → ino ≠ SFS_ROOT_LOCATION →
      (ino = sv_ino x ∧ i = set_linkcount n (sv_i x)) ∨ (ino ≠ sv_ino x ∧ T !! ino = Some i)) as HT.
    { intros ino i [[<- <-]|[Hn1 [[<- <-]|[Hn2 Hi']]%lookup_insert_Some]]%lookup_insert_Some Hn0; auto. done. }
    split; [by rewrite lookup_insert_ne, lookup_insert_eq| |done|..].
    + destruct (rs_dir _ _ _ _ _ _ _ _ _ _ Hs) as [D1 D2 D3 D4]. split; [done..|]. intros a b name k k'. rewrite !(entry_device s1 s2) by done. apply D4.
    + intros ino i Hi' Hn0. destruct (HT _ _ Hi' Hn0) as [[-> ->]|[Hn1 Hi1]]; [simpl; by apply (R4 (sv_ino x))|by apply (R4 ino)].
    + intros sl name k. rewrite He. case_decide.
      * intros ->%Hent. split; [done|]. rewrite lookup_insert_eq. by eexists.
      * intros He'. destruct (R5 _ _ _ He') as [Hn0 Hk]. split; [done|]. rewrite !lookup_insert_is_Some'. auto.
    + intros ino i Hi' Hn0. rewrite (links_pointwise f) by done. destruct (HT _ _ Hi' Hn0) as [[-> ->]|[Hn1 Hi1]]; [done|].
      rewrite (links_update (entry s r) f slot ent) by done. rewrite Hnames, decide_False by done. rewrite (R6 ino i Hi1 Hn0). lia.
    + intros ino i Hi' H0. destruct (decide (ino = SFS_ROOT_LOCATION)) as [->|Hn0].
      { rewrite lookup_insert_ne, lookup_insert_eq in Hi' by done. congruence. }
      destruct (HT _ _ Hi' Hn0) as [[-> ->]|[Hn1 Hi1]]; [eexists sv, _; by rewrite Hx2|].
      apply (root_step_loaded _ _ _ _ _ _ Hr _ _ _ _ ino) in Hs as [Hld _]. destruct (Hld (R7 ino i Hi1 H0)) as (v & y & Hy & E).
      eapply kept_loaded; [exact Hk2|exact Hy| |done]. congruence.
  - eapply kept_trans; [apply Hs|exact Hk2|..]; [|naive_solver]. intros k i Hk Hn0. split_and!; auto. by rewrite lookup_insert_ne.
Qed.
End Relink.

Lemma at_root_weaken T r (L L' : Z → Prop) s svd xd : (∀ c, L c → L' c) → at_root T r L s svd xd → at_root T r L' s svd xd.
Proof.
  intros HL [H1 [[[D1 D2 D3 D4 D5] Hm] Ht] H3 H4]. split; [done| |done|done]. split; [|done]. split; [|done]. split; try done.
  intros b Hb Hm'. destruct (D5 b Hb Hm') as [?|[?|[?|?]]]; auto.
Qed.

(** ** sfs_creat *)

(** A file of that name existed, and [sv] is its vnode. *)
Definition found_file (T : gmap Z sfs_inode) (r : sfs_inode) (L : Z → Prop) (s : sfs) (svd : Z) (name : list Z) (sv : Z) (s' : sfs) : Prop :=
  ∃ slot ino i x xd', entry s r slot = Some (name, ino) ∧ T !! ino = Some i ∧ sv_i x = i ∧ vnode_got T ino sv x s s' ∧ has_root T r L s' svd xd'.

(** An empty file of that name has been made, and [sv] is its vnode. *)
Definition made_file (T : gmap Z sfs_inode) (r : sfs_inode) (L : Z → Prop) (s : sfs) (svd : Z) (name : list Z) (sv : Z) (s' : sfs) : Prop :=
  ∃ slot ino r' xd', (∀ a k, entry s r a ≠ Some (name, k)) ∧ entry s r slot = None ∧ T !! ino = None ∧
    has_root (<[ino := set_linkcount 1 new_file]> (<[SFS_ROOT_LOCATION := r']> T)) r' L s' svd xd' ∧
    (∀ a, entry s' r' a = if decide (a = slot) then Some (name, ino) else entry s r a) ∧
    kept T (λ k, k = SFS_ROOT_LOCATION) (λ v, v = svd ∨ v = sv) s s' ∧
    sv_at s' !! sv = Some (linked_vnode 1 (new_vnode ino)) ∧ sv_at s !! sv = None.

(** Failure leaves everything as it was, but for a block lost when memory is short. *)
Definition creat_failed (T : gmap Z sfs_inode) (r : sfs_inode) (L : Z → Prop) (s : sfs) (svd : Z) (name : list Z) (excl : bool) (e : Z) (s' : sfs) : Prop :=
  ∃ L', names_same T r L' s svd s' ∧
    ((L' = L ∧ (e = EEXIST ∧ excl = true ∧ (∃ a k, entry s r a = Some (name, k)) ∨ e = ENAMETOOLONG ∧ SFS_NAMELEN ≤ lengthZ name ∨
                e = ENOSPC ∨ e = EFBIG ∨ e = ENOMEM)) ∨
     (e = ENOMEM ∧ ∃ b, T !! b = None ∧ L' = (λ c, L c ∨ c = b))).

Lemma made_file_of T r L s svd xd b sv s2 slot name r' xd' s4 :
  at_root T r L s svd xd → T !! b = None → sv_at s !! sv = None → b ≠ SFS_ROOT_LOCATION → svd ≠ sv →
  kept T (λ _, False) (λ v, v = sv) s s2 → (∀ a, entry s2 r a = entry s r a) → (∀ a k, entry s r a ≠ Some (name, k)) → entry s r slot = None →
  relinked (<[b := new_file]> T) r L s2 svd sv (new_vnode b) slot 1 (Some (name, b)) r' xd' s4 → made_file T r L s svd name sv s4.
Proof.
  intros Hr Hb Hsv0 Hb1 Hne Hk1 He1 Hnone Hempty [L1 L2 L3 L4]. exists slot, b, r', xd'. change (sv_ino (new_vnode b)) with b in *.
  change (set_linkcount _ _) with (set_linkcount 1 new_file) in L1.
  assert (<[b := set_linkcount 1 new_file]> (<[SFS_ROOT_LOCATION := r']> (<[b := new_file]> T)) = <[b := set_linkcount 1 new_file]> (<[SFS_ROOT_LOCATION := r']> T)) as ET.
  { rewrite (insert_insert_ne T SFS_ROOT_LOCATION b) by done. by rewrite insert_insert_eq. }
  rewrite ET in L1. split_and!; [exact Hnone|exact Hempty|exact Hb|exact L1| | |exact L4|exact Hsv0].
  - intros a. rewrite L2. by rewrite He1.
  - eapply kept_trans; [exact Hk1|exact L3|..]; [|naive_solver]. intros k i Hi Hn. split_and!; auto. rewrite lookup_insert_ne; [done|congruence].
Qed.

Lemma creat_new X T r L s svd xd name excl : at_root T r L s svd xd → name_ok name → (∀ a k, entry s r a ≠ Some (name, k)) →
  wpx X (newguy <- sfs_makeobj SFS_TYPE_FILE ;;
         x <- read_sv newguy ;;
         on_error (sfs_dir_link svd name (sv_ino x)) (vnode_decref newguy) ;;
         add_link newguy 1 ;;
         ret newguy) (made_file T r L s svd name) (creat_failed T r L s svd name excl) s.
Proof.
  intros Hr Hname Hnone. pose proof (ar_inv _ _ _ _ _ _ Hr) as [Hc Ht]. wp_steps.
  eapply wp_conseq; [apply (sfs_makeobj_spec X T L s); [apply Hr|done]| |].
  2: { intros e s' [(-> & Hf & ->)|(-> & b & Hb & Hc' & Hk)].
    - exists L. split; [by eapply names_same_refl|]. left. naive_solver.
    - exists (λ c, L c ∨ c = b). split; [|right; by eauto]. exists r, xd. rewrite insert_id by apply Ht.
      assert (at_root T r (λ c, L c ∨ c = b) s svd xd) as Hr0.
      { by apply (at_root_weaken T r L); [auto|]. }
      destruct (at_root_kept _ _ _ _ _ _ _ _ _ Hr0 Hc' Hk) as [Hr' He]; [by intros []..| |].
      { intros ino i Hi H0. destruct (st_orphans _ _ _ Ht ino i Hi H0) as (v & y & Hy & E). by eapply kept_loaded; [exact Hk|exact Hy|intros []|]. }
      split_and!; [by apply at_root_has|done|]. by apply (kept_weaken _ _ _ _ _ _ _ Hk). }
  intros sv s2 (b & Hb & Hbr & Hx2 & Hx0 & Hc2 & Hk1). destruct (made_at_root _ _ _ _ _ _ _ _ _ Hr Hb Hx2 Hx0 Hc2 Hk1) as (Hr2 & He2 & Hne & Hb1).
  wp_steps. eapply wp_read_sv; [done|]. wp_steps. pose proof (ok_small _ (dc_ok _ _ _ (sc_disk _ _ _ Hc))) as Hsm.
  eapply wp_conseq; [apply (root_link _ _ _ _ _ _ Hr2 X name b); [done|unfold is_word; lia|unfold SFS_NOINO; lia]| |].
  - intros slot s3 (_ & Hempty & Hsl & r' & xd' & Hs). wp_steps.
    eapply wp_conseq; [eapply (relink _ _ _ _ _ _ Hr2 sv (new_vnode b) Hx2 Hb1 slot 1 (Some (name, b)) Hsl)| |done].
    + intros k. rewrite Hempty. simpl. destruct (Z.eqb_spec b k); case_decide; congruence || done.
    + intros n k [= _ ->]. done.
    + exact Hs.
    + intros [] s4 Hrl. wp_steps. eapply made_file_of; try done. by rewrite <- He2.
  - intros e s3 [He (r' & xd' & Hs)]. wp_steps. eapply wp_conseq; [by eapply (creat_undo X T r L s svd xd b sv s2)| |done].
    intros [] s4 Hsame. wp_steps. exists L. split; [done|]. left. split; [done|]. unfold link_error in He. setoid_rewrite He2 in He. naive_solver.
Qed.

Lemma names_same_unlock T r L s svd s' : names_same T r L (set_depth (λ d, d + 1) s) svd s' → 0 ≤ vfs_biglock_depth s →
  0 < vfs_biglock_depth s' ∧ names_same T r L s svd (set_depth (λ d, d - 1) s').
Proof.
  intros (r' & xd' & Hh & He & Hk) Hd. destruct (kept_unlock _ _ _ _ _ Hk Hd) as [Hl Hk']. split; [done|]. exists r', xd'.
  split_and!; [by apply has_root_unlock| |done]. intros a. rewrite <- (entry_device s (set_depth (λ d, d + 1) s)), <- He by done. by apply entry_device.
Qed.

Lemma vnode_got_unlock T ino sv x s s' : vnode_got T ino sv x (set_depth (λ d, d + 1) s) s' → vnode_got T ino sv x s (set_depth (λ d, d - 1) s').
Proof. intros [G1 G2 G3 G4 G5 G6 G7]. split; try done. by apply others_kept_unlock. Qed.

(** Loading an object other than the root leaves the root where it is. *)
Lemma got_root T r L s svd xd ino sv x s' : has_root T r L s svd xd → sfs_core T L s' → vnode_got T ino sv x s s' → ino ≠ SFS_ROOT_LOCATION →
  has_root T r L s' svd xd ∧ svd ≠ sv.
Proof.
  intros [H1 H2 H3] Hc Hg Hne. assert (svd ≠ sv) as Hs.
  { intros ->. destruct (vg_before _ _ _ _ _ _ Hg) as [(x0 & Hx0 & E)|[E _]]; [|congruence]. pose proof (vg_ino _ _ _ _ _ _ Hg) as Hi.
    rewrite E in Hi. simpl in Hi. congruence. }
  split; [|done]. split; [by eapply inv_got| |done]. by rewrite (ok_vnodes _ _ _ _ _ (vg_kept _ _ _ _ _ _ Hg)).
Qed.

Lemma names_same_fs T r L s svd xd s' : has_root T r L s svd xd → same_fs s s' → names_same T r L s svd s'.
Proof.
  intros [[Hc Ht] H2 H3] Hs. exists r, xd. rewrite insert_id by apply Ht. pose proof Hs as (S1 & S2 & S3 & S4 & S8 & S5 & S6 & S7). split_and!.
  - split; [by eapply inv_same_fs|by rewrite S5|done].
  - intros a. by apply entry_device.
  - by eapply same_fs_kept.
Qed.

Lemma sfs_creat_spec X T r L s svd xd name excl : has_root T r L s svd xd → name_ok name →
  wpx X (sfs_creat svd name excl)
    (λ sv s', (excl = false ∧ found_file T r L s svd name sv s') ∨ made_file T r L s svd name sv s')
    (creat_failed T r L s svd name excl) s.
Proof.
  intros Hh Hname. pose proof (has_root_lock _ _ _ _ _ _ Hh) as Hr. pose proof (mc_depth _ _ (sc_mem _ _ _ (si_core _ _ _ _ (hr_inv _ _ _ _ _ _ Hh)))) as Hd.
  unfold sfs_creat. apply wp_under_biglock; [done|]. set (s0 := set_depth (λ d, d + 1) s) in *.
  assert (∀ a, entry s0 r a = entry s r a) as He0 by (intros a; by apply entry_device).
  destruct (root_at_file _ _ _ _ _ _ Hr) as (Ha & Hdir & Ei).
  wp_steps. eapply sfs_dir_findname_spec; [done|done|]. rewrite Ei. intros res [R1 R2 R3 R4]. destruct (found_at res) as [[ino slot]|] eqn:Ef.
  - destruct (R1 ino slot eq_refl) as [Hs He]. rewrite He0 in He. destruct excl; wp_steps.
    + split; [simpl; lia|]. unfold s0. rewrite set_depth_undo. exists L. split; [|left; split; [done|left; by eauto]].
      exists r, xd. pose proof (hr_inv _ _ _ _ _ _ Hh) as [Hc Ht]. rewrite insert_id by apply Ht. split_and!; [done..|by eapply kept_refl].
    + destruct (entry_object _ _ _ _ _ _ _ (hr_inv _ _ _ _ _ _ Hh) He) as (i & Hi & Hne & Hty & _).
      eapply wp_conseq; [apply (sfs_loadvnode_spec X T L s0 ino i sfs_fileops); [apply Ha|apply Hr|done|by rewrite Hty]| |].
      * intros sv s' [Hc' (x & Hg & Ex)]. pose proof (ok_depth _ _ _ _ _ (vg_kept _ _ _ _ _ _ Hg)) as Hdp. simpl in Hdp. split; [lia|]. left.
        split; [done|]. destruct (got_root _ _ _ _ _ _ _ _ _ _ (at_root_has _ _ _ _ _ _ Hr) Hc' Hg Hne) as [Hr' _].
        exists slot, ino, i, x, xd. split_and!; try done; [by apply vnode_got_unlock|]. apply has_root_unlock; [done|lia].
      * intros e s' [-> Hs']. destruct (names_same_unlock T r L s svd s') as [Hl Hs2]; [by eapply names_same_fs; [by apply at_root_has|]|done|].
        split; [done|]. exists L. split; [done|]. left. split; [done|]. tauto.
  - assert (∀ a k, entry s0 r a ≠ Some (name, k)) as Hnone.
    { intros a k He'. apply (R2 eq_refl a k); [|done]. destruct (entry_range _ _ _ _ He'). lia. }
    eapply wp_conseq; [by apply (creat_new X T r L s0 svd xd name excl)| |].
    + intros sv s' (sl & b & r' & xd' & Hn & Hem & Hb & Hr' & He' & Hk & Hsv & Hsv0). destruct (kept_unlock _ _ _ _ _ Hk Hd) as [Hl Hk'].
      split; [done|]. right. exists sl, b, r', xd'. rewrite He0 in Hem.
      split_and!; [|exact Hem|exact Hb|by apply has_root_unlock| |exact Hk'|exact Hsv|exact Hsv0].
      * intros a k. rewrite <- He0. apply Hn.
      * intros a. rewrite (entry_device s'), He' by reflexivity. by rewrite He0.
    + intros e s' (L' & Hsame & He). destruct (names_same_unlock _ _ _ _ _ _ Hsame Hd) as [Hl Hs']. split; [done|]. exists L'. split; [done|].
      setoid_rewrite He0 in He. done.
Qed.

(** ** sfs_link *)

Lemma relinked_unlock T r L s svd sv x slot d ent r' xd' s' :
  relinked T r L (set_depth (λ d, d + 1) s) svd sv x slot d ent r' xd' s' → 0 ≤ vfs_biglock_depth s →
  0 < vfs_biglock_depth s' ∧ relinked T r L s svd sv x slot d ent r' xd' (set_depth (λ d, d - 1) s').
Proof.
  intros [R1 R2 R3 R4] Hd. destruct (kept_unlock _ _ _ _ _ R3 Hd) as [Hl Hk]. split; [done|]. split; [by apply has_root_unlock| |exact Hk|exact R4].
  intros a. rewrite (entry_device s'), R2, (entry_device s) by reflexivity. done.
Qed.

(** The object of vnode [sv] has one more name. *)
Definition linked_file (T : gmap Z sfs_inode) (r : sfs_inode) (L : Z → Prop) (s : sfs) (svd : Z) (name : list Z) (sv : Z) (x : sfs_vnode) (s' : sfs) : Prop :=
  ∃ slot r' xd', (∀ a k, entry s r a ≠ Some (name, k)) ∧ entry s r slot = None ∧
    relinked T r L s svd sv x slot 1 (Some (name, sv_ino x)) r' xd' s'.

Lemma link_locked X T r L s svd xd name sv x : at_root T r L s svd xd → sv_at s !! sv = Some x → sv_ino x ≠ SFS_ROOT_LOCATION → name_ok name →
  wpx X (sfs_dir_link svd name (sv_ino x))
    (λ slot s', (∀ a k, entry s r a ≠ Some (name, k)) ∧ entry s r slot = None ∧ 0 ≤ slot < MAXSLOTS ∧
       wpx X (add_link sv 1) (λ _ s', ∃ r' xd', relinked T r L s svd sv x slot 1 (Some (name, sv_ino x)) r' xd' s') (λ _ _, False) s')
    (λ e s', names_same T r L s svd s' ∧ link_error r s name e s') s.
Proof.
  intros Hr Hx Hne Hname. pose proof (ar_inv _ _ _ _ _ _ Hr) as [Hc Ht]. pose proof (vo_inode _ _ _ (mc_vnodes _ _ (sc_mem _ _ _ Hc) _ _ Hx)) as Hi.
  pose proof (oo_range _ _ _ _ (dc_objects _ _ _ (sc_disk _ _ _ Hc) _ _ Hi)). pose proof (ok_small _ (dc_ok _ _ _ (sc_disk _ _ _ Hc))).
  eapply wp_conseq; [apply (root_link _ _ _ _ _ _ Hr X name (sv_ino x)); [done|unfold is_word; lia|unfold SFS_NOINO; lia]| |].
  - intros slot s1 (Hn & Hem & Hsl & r' & xd' & Hs). split_and!; [exact Hn|exact Hem|lia|lia|].
    eapply wp_conseq; [eapply (relink _ _ _ _ _ _ Hr sv x Hx Hne slot 1 (Some (name, sv_ino x)) Hsl)| |done].
    + intros k. rewrite Hem. simpl. destruct (Z.eqb_spec (sv_ino x) k); case_decide; congruence || done.
    + intros n k [= _ ->]. done.
    + exact Hs.
    + intros [] s2 Hrl. by exists r', xd'.
  - intros e s1 (He & r' & xd' & Hs). split; [by eapply names_same_step|done].
Qed.

Lemma sfs_link_spec X T r L s svd xd name sv x : has_root T r L s svd xd → sv_at s !! sv = Some x → sv_ino x ≠ SFS_ROOT_LOCATION → name_ok name →
  wpx X (sfs_link svd name sv) (λ _, linked_file T r L s svd name sv x) (λ e s', names_same T r L s svd s' ∧ link_error r s name e s') s.
Proof.
  intros Hh Hx Hne Hname. pose proof (has_root_lock _ _ _ _ _ _ Hh) as Hr. pose proof (mc_depth _ _ (sc_mem _ _ _ (si_core _ _ _ _ (hr_inv _ _ _ _ _ _ Hh)))) as Hd.
  unfold sfs_link. apply wp_under_biglock; [done|]. set (s0 := set_depth (λ d, d + 1) s) in *.
  assert (∀ a, entry s0 r a = entry s r a) as He0 by (intros a; by apply entry_device).
  wp_steps. eapply wp_read_sv; [exact Hx|]. wp_steps. eapply wp_conseq; [by apply (link_locked X T r L s0 svd xd name sv x)| |].
  - intros slot s1 (Hn & Hem & Hsl & Hw). eapply wp_conseq; [exact Hw| |done]. intros [] s2 (r' & xd' & Hrl).
    destruct (relinked_unlock _ _ _ _ _ _ _ _ _ _ _ _ _ Hrl Hd) as [Hl Hrl']. split; [done|]. exists slot, r', xd'. setoid_rewrite He0 in Hn. by rewrite <- He0.
  - intros e s1 [Hs He]. destruct (names_same_unlock _ _ _ _ _ _ Hs Hd) as [Hl Hs']. split; [done|]. split; [done|].
    unfold link_error in *. setoid_rewrite He0 in He. exact He.
Qed.

(** ** sfs_remove *)

(** A vnode that was got, had its link count set to [m] and is given up again is as
    it was before but for the link count; it is dropped when it is unlinked and was not loaded. *)
Lemma got_given_back T L ino sv x s s1 m : sfs_core T L s → vnode_got T ino sv x s s1 →
  (∀ v z, sv_at s !! v = Some z → sv_ino z = ino → v = sv ∧ decref_vnode (linked_vnode m x) = Some (linked_vnode m z)) ∧
  (¬ is_loaded s ino → decref_vnode (linked_vnode m x) = None ∧ sv_at s !! sv = None) ∧
  (is_loaded s ino ∨ ¬ is_loaded s ino) ∧ (dropped (linked_vnode m x) ↔ m = 0 ∧ ¬ is_loaded s ino).
Proof.
  intros [Hd Hm] [G1 G2 G3 G4 G5 G6 G7]. unfold decref_vnode, dropped. cbn [linked_vnode set_dirty set_inode vn_refcount sv_i sfi_linkcount set_linkcount].
  destruct G4 as [(x0 & Hx0 & ->)|(Hx0 & Hnl & -> & Ho)].
  - pose proof (vo_ref _ _ _ (mc_vnodes _ _ Hm _ _ Hx0)) as Hrf. cbn [set_refcount vn_refcount sv_ino] in *. assert (is_loaded s ino) as Hld by (by exists sv, x0).
    destruct (Z.ltb_spec 1 (vn_refcount x0 + 1)); [|lia]. split_and!; [|done|by left|split; [lia|by intros []]].
    intros v z Hz E. assert (v = sv) as -> by (apply (mc_inj _ _ Hm v sv z x0); congruence). split; [done|]. assert (z = x0) as -> by congruence.
    f_equal. destruct x0. unfold linked_vnode, set_dirty, set_inode, set_refcount. simpl. f_equal. lia.
  - rewrite Hx0. split_and!; [|done|by right|split; [intros [_ ?]; done|intros [-> _]; split; [done|done]]]. intros v z Hz E. destruct Hnl. by exists v, z.
Qed.

Lemma got_kept T L ino sv x s s' : sfs_core T L s → vnode_got T ino sv x s s' → ino ≠ SFS_ROOT_LOCATION → kept T (λ _, False) (λ v, v = sv) s s'.
Proof.
  intros [Hd Hm] [G1 G2 G3 G4 G5 G6 [K1 K2 K3 K4]] Hne. split; try done.
  2: { apply (root_refs_but sv); [done|]. intros y Hy E. destruct G4 as [(y0 & Hy0 & ->)|[? _]]; [simpl in G2|]; congruence. }
  intros k i b Hi _ Ho. unfold marked, sect. rewrite G5, G6.
  split; [|done]. by apply (owns_marked T L s Hd k i).
Qed.

(** The objects and names after object [ino] was looked up, got [m] links and was given up. *)
Record given_back (T T' : gmap Z sfs_inode) (r' : sfs_inode) (L : Z → Prop) (s : sfs) (svd : Z) (f : Z → option (list Z * Z)) (ino m : Z) (xd' : sfs_vnode) (s' : sfs) : Prop := {
  gb_gone : m = 0 → ¬ is_loaded s ino → has_root (delete ino T') r' L s' svd xd';
  gb_left : m ≠ 0 ∨ is_loaded s ino → has_root T' r' L s' svd xd';
  gb_entries : ∀ a, entry s' r' a = f a;
  gb_kept : kept T (λ k, k = SFS_ROOT_LOCATION ∨ (k = ino ∧ m = 0 ∧ ¬ is_loaded s ino)) (λ v, v = svd ∨ ∃ y, sv_at s !! v = Some y ∧ sv_ino y = ino) s s';
  gb_vnodes : ∀ v y, sv_at s !! v = Some y → sv_ino y = ino → sv_at s' !! v = Some (linked_vnode m y)
}.

Lemma give_back X T L s ino sv x s1 m i T3 r' svd xd' s3 f : sfs_core T L s → vnode_got T ino sv x s s1 → ino ≠ SFS_ROOT_LOCATION → T !! ino = Some i →
  at_root T3 r' L s3 svd xd' → (∀ a, entry s3 r' a = f a) → kept T (λ k, k = SFS_ROOT_LOCATION) (λ v, v = svd ∨ v = sv) s1 s3 →
  sv_at s3 !! sv = Some (linked_vnode m x) → (∀ k, k ≠ SFS_ROOT_LOCATION → k ≠ ino → T3 !! k = T !! k) → T3 !! ino = Some (set_linkcount m i) →
  wpx X (vnode_decref sv) (λ _, given_back T T3 r' L s svd f ino m xd') (λ _ _, False) s3.
Proof.
  intros Hc Hg Hne Hi Hr He Hk Hsv HT HTi. destruct (got_given_back T L ino sv x s s1 m Hc Hg) as (B1 & B2 & B3 & B4). pose proof (vg_ino _ _ _ _ _ _ Hg) as Ex.
  eapply wp_conseq; [apply (decref_root X T3 r' L s3 svd xd' sv (linked_vnode m x)); [by apply at_root_has|done|by rewrite <- Ex in Hne|apply Hg]| |done].
  intros [] s4 [D1 D2 D3 D4]. change (sv_ino (linked_vnode m x)) with (sv_ino x) in *. rewrite Ex in D3.
  assert (kept T (λ k, k = SFS_ROOT_LOCATION ∨ (k = ino ∧ m = 0 ∧ ¬ is_loaded s ino)) (λ v, v = svd ∨ v = sv) s s4) as Hk4.
  { eapply (kept_trans_links T T3); [|exact D3|..].
    - apply (kept_trans T T (λ _, False) (λ v, v = sv) _ _ (λ k, k = SFS_ROOT_LOCATION) (λ v, v = svd ∨ v = sv) s s1 s3 (got_kept _ _ _ _ _ _ _ Hc Hg Hne) Hk); [by auto|naive_solver].
    - intros k j Hj Hn. split_and!; [by auto|intros [-> D]; apply Hn; right; tauto|]. destruct (decide (k = ino)) as [->|Hki]; [exists m; congruence|].
      exists (sfi_linkcount j). rewrite HT by auto. rewrite Hj. by destruct j.
    - naive_solver. }
  split.
  - intros -> Hnl. assert (after_decref T3 (linked_vnode 0 x) = delete ino T3) as <-; [|done].
    destruct (after_decref_eq T3 (linked_vnode 0 x)) as [[D ->]|[D _]]; [by rewrite <- Ex|]. by destruct D; apply B4.
  - intros Hl. assert (after_decref T3 (linked_vnode m x) = T3) as <-; [|done].
    destruct (after_decref_eq T3 (linked_vnode m x)) as [[D%B4 _]|[D ->]]; [|done]. destruct D as [-> D]. by destruct Hl.
  - intros a. by rewrite D2.
  - destruct B3 as [(v & y & Hy & Ey)|Hnl]; [destruct (B1 v y Hy Ey) as [-> _]; by apply (kept_weaken _ _ _ _ _ _ _ Hk4); [|naive_solver]|].
    destruct (B2 Hnl) as [E1 E2]. apply (kept_weaken _ _ (λ v, v = svd) _ _ _ _ ltac:(apply (kept_restored _ _ _ sv); [exact Hk4|congruence])); naive_solver.
  - intros v y Hy Ey. destruct (B1 v y Hy Ey) as [-> E]. congruence.
Qed.

Lemma given_back_unlock T T' r r' L s svd f ino m xd' s' : given_back T T' r' L (set_depth (λ d, d + 1) s) svd f ino m xd' s' → 0 ≤ vfs_biglock_depth s →
  (∀ a, f a = r a) →
  0 < vfs_biglock_depth s' ∧ given_back T T' r' L s svd r ino m xd' (set_depth (λ d, d - 1) s').
Proof.
  intros [G1 G2 G3 G4 G5] Hd Hf. destruct (kept_unlock _ _ _ _ _ G4 Hd) as [Hl Hk]. split; [done|]. split.
  - intros H1 H2. apply has_root_unlock; [by apply G1|done].
  - intros H1. apply has_root_unlock; [by apply G2|done].
  - intros a. rewrite (entry_device s'), G3 by reflexivity. apply Hf.
  - exact Hk.
  - exact G5.
Qed.

Lemma same_fs_unlock s s' : same_fs (set_depth (λ d, d + 1) s) s' → 0 ≤ vfs_biglock_depth s →
  0 < vfs_biglock_depth s' ∧ same_fs s (set_depth (λ d, d - 1) s').
Proof. intros (E1 & E2 & E3 & E4 & E8 & E5 & E6 & E7) Hd. simpl in E7. split; [lia|]. unfold same_fs. simpl. split_and!; done || lia. Qed.

(** The name is gone, and the object with it when this was its last name and nothing uses it. *)
Definition removed_file (T : gmap Z sfs_inode) (r : sfs_inode) (L : Z → Prop) (s : sfs) (svd : Z) (name : list Z) (s' : sfs) : Prop :=
  ∃ slot ino i r' xd', entry s r slot = Some (name, ino) ∧ T !! ino = Some i ∧
    given_back T (<[ino := set_linkcount (sfi_linkcount i - 1) i]> (<[SFS_ROOT_LOCATION := r']> T)) r' L s svd
      (λ a, if decide (a = slot) then None else entry s r a) ino (sfi_linkcount i - 1) xd' s'.

Definition lookup_failed (r : sfs_inode) (s : sfs) (name : list Z) (e : Z) (s' : sfs) : Prop :=
  same_fs s s' ∧ ((e = ENOENT ∧ ∀ slot k, entry s r slot ≠ Some (name, k)) ∨ e = ENOMEM).

Lemma removed_objects (T : gmap Z sfs_inode) (i r' : sfs_inode) ino m k : ino ≠ SFS_ROOT_LOCATION → k ≠ SFS_ROOT_LOCATION → k ≠ ino →
  <[ino := set_linkcount m i]> (<[SFS_ROOT_LOCATION := r']> T) !! k = T !! k.
Proof. intros H1 H2 H3. by rewrite !lookup_insert_ne. Qed.

(** What sfs_lookonce finds: object [ino], named by [slot], and its vnode [sv]. *)
Record looked_up (T : gmap Z sfs_inode) (r : sfs_inode) (L : Z → Prop) (s : sfs) (svd : Z) (xd : sfs_vnode) (name : list Z)
    (slot ino : Z) (i : sfs_inode) (sv : Z) (x : sfs_vnode) (s' : sfs) : Prop := {
  lu_entry : entry s r slot = Some (name, ino);
  lu_slot : 0 ≤ slot < MAXSLOTS;
  lu_object : T !! ino = Some i;
  lu_inode : sv_i x = i;
  lu_file : sfi_type i = SFS_TYPE_FILE;
  lu_links : 0 < sfi_linkcount i;
  lu_notroot : ino ≠ SFS_ROOT_LOCATION;
  lu_got : vnode_got T ino sv x s s';
  lu_root : at_root T r L s' svd xd;
  lu_vnode : svd ≠ sv;
  lu_entries : ∀ a, entry s' r a = entry s r a
}.

Lemma lookonce_root X T r L s svd xd name : at_root T r L s svd xd →
  wpx X (sfs_lookonce svd name) (λ p s', ∃ ino i x, looked_up T r L s svd xd name (snd p) ino i (fst p) x s') (lookup_failed r s name) s.
Proof.
  intros Hr. eapply wp_conseq; [apply (sfs_lookonce_spec X T r L s svd xd name Hr)| |done].
  intros [sv slot] s1 (ino & i & x & He & Hi & Ex & Hinv1 & Hg). destruct (entry_object _ _ _ _ _ _ _ (ar_inv _ _ _ _ _ _ Hr) He) as (i' & Hi' & Hne & Hty & Hlc & Hpos & Hsl).
  assert (i' = i) as -> by congruence. destruct (got_root _ _ _ _ _ _ _ _ _ _ (at_root_has _ _ _ _ _ _ Hr) (si_core _ _ _ _ Hinv1) Hg Hne) as [Hh1 Hsv].
  exists ino, i, x. split; try assumption; [|intros a; apply entry_device, Hg].
  by eapply has_root_at; [exact Hh1|eapply got_kept; [apply Hr|exact Hg|done]|apply Hr].
Qed.

Lemma sfs_remove_spec X T r L s svd xd name : has_root T r L s svd xd →
  wpx X (sfs_remove svd name) (λ _, removed_file T r L s svd name) (lookup_failed r s name) s.
Proof.
  intros Hh. pose proof (has_root_lock _ _ _ _ _ _ Hh) as Hr. pose proof (mc_depth _ _ (sc_mem _ _ _ (si_core _ _ _ _ (hr_inv _ _ _ _ _ _ Hh)))) as Hd.
  unfold sfs_remove. apply wp_under_biglock; [done|]. set (s0 := set_depth (λ d, d + 1) s) in *.
  assert (∀ a, entry s0 r a = entry s r a) as He0 by (intros a; by apply entry_device).
  wp_step. eapply wp_conseq; [apply (lookonce_root X T r L s0 svd xd name Hr)| |].
  2: { intros e s1 [Hs He]. destruct (same_fs_unlock _ _ Hs Hd) as [Hl Hs']. split; [done|]. split; [done|]. setoid_rewrite He0 in He. exact He. }
  intros [sv slot] s1 (ino & i & x & [He Hsl Hi Ex _ Hpos Hne Hg Hr1 Hsv He1]). cbn [fst snd] in *. pose proof (vg_ino _ _ _ _ _ _ Hg) as Ei.
  assert (sv_ino x ≠ SFS_ROOT_LOCATION) as Hnr by congruence.
  do 2 wp_step. eapply wp_conseq; [eapply (root_unlink _ _ _ _ _ _ Hr1 X slot); by rewrite He1| |done]. intros [] s2 (r' & xd' & Hs).
  do 2 wp_step. eapply wp_read_sv. { rewrite (kp_vnodes _ _ _ _ _ (rs_kept _ _ _ _ _ _ _ _ _ _ Hs)) by congruence. apply Hg. }
  wp_steps. apply wp_kassert; [rewrite Ex; lia|]. eapply wp_conseq; [eapply (relink _ _ _ _ _ _ Hr1 sv x (vg_sv _ _ _ _ _ _ Hg) Hnr slot (-1) None Hsl)| |done].
  { intros k. rewrite He1, He, Ei. simpl. destruct (Z.eqb_spec ino k); case_decide; congruence || done. }
  { done. }
  { exact Hs. }
  intros [] s3 [L1 L2 L3 L4]. rewrite Ei, Ex in *. wp_steps.
  set (T3 := <[ino := set_linkcount (sfi_linkcount i - 1) i]> (<[SFS_ROOT_LOCATION := r']> T)).
  eapply wp_conseq; [apply (give_back X T L s0 ino sv x s1 (sfi_linkcount i - 1) i T3 r' svd xd' s3 (λ a, if decide (a = slot) then None else entry s1 r a))| |done]; try done.
  - apply Hr.
  - eapply has_root_at; [exact L1|exact L3|apply Hr1].
  - intros k. by apply removed_objects.
  - unfold T3. by rewrite lookup_insert_eq.
  - intros [] s4 Hgb. destruct (given_back_unlock _ _ (λ a, if decide (a = slot) then None else entry s r a) _ _ _ _ _ _ _ _ _ Hgb Hd) as [Hl Hgb'].
    { intros a. by rewrite He1, He0. }
    wp_steps. split; [done|]. rewrite He0 in He. by exists slot, ino, i, r', xd'.
Qed.

(** ** sfs_rename *)

(** A vnode that was looked up is given up again, nothing else having happened to it. *)
Lemma names_same_decref X T r L s svd xd name slot ino i sv x s1 s2 : at_root T r L s svd xd → looked_up T r L s svd xd name slot ino i sv x s1 →
  names_same T r L s1 svd s2 → wpx X (vnode_decref sv) (λ _, names_same T r L s svd) (λ _ _, False) s2.
Proof.
  intros Hr [He Hsl Hi Ex _ Hpos Hne Hg Hr1 Hsv He1] (r' & xd' & Hh & He2 & Hk). pose proof (vg_ino _ _ _ _ _ _ Hg) as Ei.
  pose proof (has_root_at _ _ _ _ _ _ _ _ _ _ Hh Hk (ar_lock _ _ _ _ _ _ Hr1)) as Hr2. pose proof (si_core _ _ _ _ (ar_inv _ _ _ _ _ _ Hr)) as Hc.
  assert (sv_at s2 !! sv = Some x) as Hx2 by (rewrite (kp_vnodes _ _ _ _ _ Hk) by congruence; apply Hg).
  eapply wp_conseq; [apply (decref_root X _ _ _ _ _ _ sv x (at_root_has _ _ _ _ _ _ Hr2) Hx2); [congruence|apply Hg]| |done].
  intros [] s3 [D1 D2 D3 D4]. destruct (after_decref_eq (<[SFS_ROOT_LOCATION := r']> T) x) as [[[_ D] _]|[D Ea]]; [congruence || (rewrite Ex in D; lia)|].
  destruct (decref_got _ _ _ _ _ _ Hg) as (_ & B1 & B2); [rewrite Ex; lia|].
  exists r', xd'. split_and!; [by rewrite <- Ea|intros a; by rewrite D2, He2|]. apply (kept_restored _ _ _ sv).
  - eapply kept_trans; [|exact D3|..].
    + apply (kept_trans T T (λ _, False) (λ v, v = sv) _ _ (λ k, k = SFS_ROOT_LOCATION) (λ v, v = svd ∨ v = sv) s s1 s2 (got_kept _ _ _ _ _ _ _ Hc Hg Hne) Hk); [by auto|naive_solver].
    + intros k j Hj Hn. split_and!; [done|naive_solver|]. by rewrite lookup_insert_ne.
    + naive_solver.
  - rewrite D4. destruct (sv_at s !! sv) as [x0|] eqn:E0; [|by apply B2]. apply B1; [done|]. apply (vo_ref _ _ _ (mc_vnodes _ _ (sc_mem _ _ _ Hc) _ _ E0)).
Qed.

(** Object [ino] has name [n2] instead of [n1]. *)
Definition rename_entries (s : sfs) (r : sfs_inode) (slot1 slot2 : Z) (n2 : list Z) (ino a : Z) : option (list Z * Z) :=
  if decide (a = slot1) then None else if decide (a = slot2) then Some (n2, ino) else entry s r a.

Definition renamed_file (T : gmap Z sfs_inode) (r : sfs_inode) (L : Z → Prop) (s : sfs) (svd : Z) (n1 n2 : list Z) (s' : sfs) : Prop :=
  ∃ slot1 slot2 ino i r' xd', entry s r slot1 = Some (n1, ino) ∧ (∀ a k, entry s r a ≠ Some (n2, k)) ∧ entry s r slot2 = None ∧ T !! ino = Some i ∧
    given_back T (<[SFS_ROOT_LOCATION := r']> T) r' L s svd (rename_entries s r slot1 slot2 n2 ino) ino (sfi_linkcount i) xd' s'.

Lemma renamed_objects (T : gmap Z sfs_inode) (i r1 r2 : sfs_inode) ino m : ino ≠ SFS_ROOT_LOCATION → T !! ino = Some i →
  <[ino := set_linkcount (sfi_linkcount i) (set_linkcount m i)]> (<[SFS_ROOT_LOCATION := r2]> (<[ino := set_linkcount m i]> (<[SFS_ROOT_LOCATION := r1]> T))) =
  <[SFS_ROOT_LOCATION := r2]> T.
Proof.
  intros Hne Hi. assert (set_linkcount (sfi_linkcount i) (set_linkcount m i) = i) as -> by (by destruct i). apply map_eq. intros k.
  destruct (decide (k = ino)) as [->|Hk]; [by rewrite lookup_insert_eq, lookup_insert_ne|]. rewrite lookup_insert_ne by done.
  destruct (decide (k = SFS_ROOT_LOCATION)) as [->|Hk']; [by rewrite !lookup_insert_eq|]. by rewrite !lookup_insert_ne.
Qed.

Lemma rename_links_spec X T r L s svd xd n1 n2 slot1 ino i sv x s1 : at_root T r L s svd xd → looked_up T r L s svd xd n1 slot1 ino i sv x s1 → name_ok n2 →
  wpx X (rename_links svd sv slot1 n2)
    (λ _ s', ∃ slot2 r' xd', (∀ a k, entry s r a ≠ Some (n2, k)) ∧ entry s r slot2 = None ∧
       at_root (<[SFS_ROOT_LOCATION := r']> T) r' L s' svd xd' ∧ (∀ a, entry s' r' a = rename_entries s r slot1 slot2 n2 ino a) ∧
       kept T (λ k, k = SFS_ROOT_LOCATION) (λ v, v = svd ∨ v = sv) s1 s' ∧ sv_at s' !! sv = Some (linked_vnode (sfi_linkcount i) x))
    (λ e s', names_same T r L s1 svd s' ∧ link_error r s n2 e s') s1.
Proof.
  intros Hr [He Hsl Hi Ex _ Hpos Hne Hg Hr1 Hsv He1] Hname. pose proof (vg_ino _ _ _ _ _ _ Hg) as Ei. assert (sv_ino x ≠ SFS_ROOT_LOCATION) as Hnr by congruence.
  unfold rename_links. wp_step. eapply wp_read_sv; [apply Hg|]. wp_step.
  eapply wp_conseq; [apply (link_locked X T r L s1 svd xd n2 sv x Hr1 (vg_sv _ _ _ _ _ _ Hg) Hnr Hname)| |].
  2: { intros e s2 [Hs Hle]. split; [done|]. unfold link_error in *. setoid_rewrite He1 in Hle. exact Hle. }
  intros slot2 s2 (Hn & Hem & Hsl2 & Hw). rewrite Ei in *. wp_step. eapply wp_conseq; [exact Hw| |done]. intros [] s3 (r2 & xd2 & [L1 L2 L3 L4]). rewrite Ei, Ex in *.
  pose proof (has_root_at _ _ _ _ _ _ _ _ _ _ L1 L3 (ar_lock _ _ _ _ _ _ Hr1)) as Hr3. rewrite He1 in Hem.
  assert (slot1 ≠ slot2) as Hss by congruence. assert (entry s3 r2 slot1 = Some (n1, ino)) as He3 by (by rewrite L2, decide_False, He1).
  do 2 wp_step. eapply wp_conseq; [eapply (root_unlink _ _ _ _ _ _ Hr3 X slot1); exact He3| |done]. intros [] s4 (r4 & xd4 & Hs). wp_step.
  eapply wp_read_sv. { rewrite (kp_vnodes _ _ _ _ _ (rs_kept _ _ _ _ _ _ _ _ _ _ Hs)) by congruence. exact L4. }
  wp_step. apply wp_kassert; [cbn [linked_vnode set_dirty set_inode sv_i sfi_linkcount set_linkcount]; lia|].
  set (x3 := linked_vnode (sfi_linkcount i + 1) x) in *. assert (sv_ino x3 ≠ SFS_ROOT_LOCATION) as Hnr3 by (by rewrite <- Ei in Hnr).
  eapply wp_conseq; [eapply (relink _ _ _ _ _ _ Hr3 sv x3 L4 Hnr3 slot1 (-1) None Hsl)| |done].
  { intros k. rewrite He3. change (sv_ino x3) with (sv_ino x). rewrite Ei. simpl. destruct (Z.eqb_spec ino k); case_decide; congruence || done. }
  { done. }
  { exact Hs. }
  intros [] s5 [M1 M2 M3 M4]. change (sv_ino x3) with (sv_ino x) in M1. change (sfi_linkcount (sv_i x3)) with (sfi_linkcount i + 1) in M1, M4.
  replace (sfi_linkcount i + 1 + -1) with (sfi_linkcount i) in M1, M4 by lia.
  change (sv_i x3) with (set_linkcount (sfi_linkcount i + 1) (sv_i x)) in M1. rewrite Ei, Ex, renamed_objects in M1 by done.
  exists slot2, r4, xd4. split_and!; [intros a k; rewrite <- He1; apply Hn|done|by eapply has_root_at; [exact M1|exact M3|apply Hr3]| | |done].
  - intros a. rewrite M2. unfold rename_entries. case_decide; [done|]. by rewrite L2, He1.
  - eapply kept_trans_links; [exact L3|exact M3|..]; [|naive_solver]. intros k j Hj Hn0. split_and!; [done|done|].
    destruct (decide (k = ino)) as [->|Hk]; [rewrite lookup_insert_eq; assert (j = i) as -> by congruence; by eexists|].
    exists (sfi_linkcount j). rewrite !lookup_insert_ne by done. rewrite Hj. by destruct j.
Qed.

Lemma sfs_rename_spec X T r L s svd xd n1 n2 : has_root T r L s svd xd → name_ok n2 →
  wpx X (sfs_rename svd n1 svd n2) (λ _, renamed_file T r L s svd n1 n2)
    (λ e s', lookup_failed r s n1 e s' ∨ (names_same T r L s svd s' ∧ ∃ s1, link_error r s n2 e s1)) s.
Proof.
  intros Hh Hname. pose proof (has_root_lock _ _ _ _ _ _ Hh) as Hr. pose proof (mc_depth _ _ (sc_mem _ _ _ (si_core _ _ _ _ (hr_inv _ _ _ _ _ _ Hh)))) as Hd.
  unfold sfs_rename. apply wp_under_biglock; [done|]. set (s0 := set_depth (λ d, d + 1) s) in *.
  assert (∀ a, entry s0 r a = entry s r a) as He0 by (intros a; by apply entry_device).
  wp_step. apply wp_kassert; [lia|]. wp_step. eapply wp_read_sv; [apply Hr|]. wp_step. apply wp_kassert; [rewrite (ar_ino _ _ _ _ _ _ Hr); lia|].
  wp_step. eapply wp_conseq; [apply (lookonce_root X T r L s0 svd xd n1 Hr)| |].
  2: { intros e s1 [Hs He]. destruct (same_fs_unlock _ _ Hs Hd) as [Hl Hs']. split; [done|]. left. split; [done|]. setoid_rewrite He0 in He. exact He. }
  intros [sv slot1] s1 (ino & i & x & Hlu). cbn [fst snd] in *. pose proof Hlu as [He Hsl Hi Ex Hty Hpos Hne Hg Hr1 Hsv He1].
  wp_step. eapply wp_read_sv; [apply Hg|]. wp_step. apply wp_kassert; [rewrite Ex, Hty; lia|]. do 2 wp_step.
  eapply wp_conseq; [by apply (rename_links_spec X T r L s0 svd xd n1 n2 slot1 ino i sv x s1)| |].
  - intros [] s2 (slot2 & r' & xd' & Hn & Hem & Hr2 & He2 & Hk2 & Hx2). wp_step. 
    eapply wp_conseq; [apply (give_back X T L s0 ino sv x s1 (sfi_linkcount i) i (<[SFS_ROOT_LOCATION := r']> T) r' svd xd' s2 (rename_entries s0 r slot1 slot2 n2 ino))| |done]; try done.
    + apply Hr.
    + intros k Hk _. by rewrite lookup_insert_ne.
    + rewrite lookup_insert_ne by done. rewrite Hi. by destruct i.
    + intros [] s3 Hgb. destruct (given_back_unlock _ _ (rename_entries s r slot1 slot2 n2 ino) _ _ _ _ _ _ _ _ _ Hgb Hd) as [Hl Hgb'].
      { intros a. unfold rename_entries. by rewrite He0. }
      wp_step. split; [done|]. setoid_rewrite He0 in Hn. rewrite He0 in He, Hem. by exists slot1, slot2, ino, i, r', xd'.
  - intros e s2 [Hs Hle]. wp_step. eapply wp_conseq; [by apply (names_same_decref X T r L s0 svd xd n1 slot1 ino i sv x s1 s2)| |done]. intros [] s3 Hs3. wp_step.
    destruct (names_same_unlock _ _ _ _ _ _ Hs3 Hd) as [Hl Hs']. split; [done|]. right. split; [done|]. exists s2. unfold link_error in *. setoid_rewrite He0 in Hle. exact Hle.
Qed.

(** ** Looking up *)

Lemma sfs_lookup_spec X T r L s svd xd name : has_root T r L s svd xd →
  wpx X (sfs_lookup svd name) (found_file T r L s svd name) (lookup_failed r s name) s.
Proof.
  intros Hh. pose proof (has_root_lock _ _ _ _ _ _ Hh) as Hr. pose proof (mc_depth _ _ (sc_mem _ _ _ (si_core _ _ _ _ (hr_inv _ _ _ _ _ _ Hh)))) as Hd.
  unfold sfs_lookup. apply wp_under_biglock; [done|]. set (s0 := set_depth (λ d, d + 1) s) in *.
  assert (∀ a, entry s0 r a = entry s r a) as He0 by (intros a; by apply entry_device).
  wp_step. eapply wp_read_sv; [apply Hr|]. rewrite (root_inode _ _ _ _ _ _ Hr), (do_type _ _ (st_dir _ _ _ (si_tree _ _ _ _ (hr_inv _ _ _ _ _ _ Hh)))).
  simpl negb. cbv iota. wp_step. eapply wp_conseq; [apply (lookonce_root X T r L s0 svd xd name Hr)| |].
  - intros [sv slot] s1 (ino & i & x & [He Hsl Hi Ex _ Hpos Hne Hg Hr1 Hsv He1]). cbn [fst snd] in *. wp_step.
    pose proof (ok_depth _ _ _ _ _ (vg_kept _ _ _ _ _ _ Hg)) as Hdp. simpl in Hdp. split; [lia|]. rewrite He0 in He.
    exists slot, ino, i, x, xd. split_and!; [exact He|exact Hi|exact Ex|by apply vnode_got_unlock|]. apply has_root_unlock; [by apply at_root_has|lia].
  - intros e s1 [Hs He]. destruct (same_fs_unlock _ _ Hs Hd) as [Hl Hs']. split; [done|]. split; [done|]. setoid_rewrite He0 in He. exact He.
Qed.
