(* ===== verification/SfsFile.v ===== *)
(** * The simple file system: reading, writing and truncating through a vnode

    sfs_read and sfs_write take the big lock around sfs_io; a step on one file
    leaves the names and the other files as they are. *)

From S2P Require Import Prelude Bitmap UserCopy Uio Disk SfsTypes Sfs SfsNode SfsMount SfsBlk SfsMap SfsIo SfsDir SfsTrunc SfsInv SfsVnode SfsTree SfsOps.
#[local] Open Scope kern_scope.
#[local] Opaque entry.

Lemma wp_io_under_biglock {A} X (m : IM A) Q E s u : 0 ≤ vfs_biglock_depth s →
  wpx X m (λ a io, 0 < vfs_biglock_depth (io_fs io) ∧ Q a (mkIO (set_depth (λ d, d - 1) (io_fs io)) (io_uio io)))
    (λ e io, 0 < vfs_biglock_depth (io_fs io) ∧ E e (mkIO (set_depth (λ d, d - 1) (io_fs io)) (io_uio io))) (mkIO (set_depth (λ d, d + 1) s) u) →
  wpx X (io_under_biglock m) Q E (mkIO s u).
Proof.
  intros Hd Hm. unfold io_under_biglock, vfs_biglock_acquire, vfs_biglock_release, vfs_biglock_do_i_hold. wp_step. apply wp_fs. wp_steps.
  eapply wp_conseq; [exact Hm| |].
  - intros a [s' u'] [Hl HQ]. wp_step. apply wp_fs. wp_steps. apply wp_kassert; [simpl in Hl; lia|]. by wp_steps.
  - intros e [s' u'] [Hl HE]. wp_step. apply wp_fs. wp_steps. apply wp_kassert; [simpl in Hl; lia|]. by wp_steps.
Qed.

Lemma io_ready_lock T r L s d xd sv x u : has_root T r L s d xd → sv_at s !! sv = Some x → stream_ok u → io_ready sv x (set_depth (λ d, d + 1) s) u.
Proof.
  intros [[[Hd Hm] _] _ _] Hx Hu. pose proof (mc_depth _ _ Hm). destruct (mc_vnodes _ _ Hm _ _ Hx) as [V1 _ _ _ _]. split; try done.
  - unfold biglocked. simpl. lia.
  - apply fs_ok_depth, Hd.
  - apply file_ok_depth, (oo_file _ _ _ _ (dc_objects _ _ _ Hd _ _ V1)).
Qed.

(** Reading delivers the bytes of the file from the offset on and changes nothing. *)
Lemma sfs_read_spec X T r L s d xd sv x u : has_root T r L s d xd → sv_at s !! sv = Some x → stream_ok u → st_rw u = UIO_READ →
  wpx X (with_uio u (sfs_read sv))
    (λ u' s', s' = s ∧ delivered s (sv_i x) u (available (sv_i x) u) u')
    (λ e s', s' = s ∧ ((e = EFAULT ∧ st_fate u ≠ []) ∨ (e = EFBIG ∧ FILEMAX < st_offset u + available (sv_i x) u) ∨ (e = EFBIG ∧ FILEMAX ≤ st_offset u))) s.
Proof.
  intros Hh Hx Hu Hrw. pose proof (mc_depth _ _ (sc_mem _ _ _ (si_core _ _ _ _ (hr_inv _ _ _ _ _ _ Hh)))) as Hd.
  apply wp_with_uio. unfold sfs_read. wp_steps. apply wp_kassert; [unfold is_write; simpl; by rewrite Hrw|]. apply wp_io_under_biglock; [done|].
  eapply wp_conseq; [apply (sfs_io_read X sv x); [by eapply io_ready_lock|done]| |].
  - intros [] [s' u'] [-> Hdel]. simpl. split; [lia|]. by rewrite set_depth_undo.
  - intros e [s' u'] [-> (n & Hn & Hn0 & Hdel & He)]. simpl. split; [lia|]. rewrite set_depth_undo. split; [done|].
    destruct He as [?|[-> Hmax]]; [by left|]. destruct (decide (n = available (sv_i x) u)) as [E|E]; [|right; left; split; [done|lia]].
    right. right. split; [done|]. specialize (Hn0 E). lia.
Qed.

Lemma written_unlock sv x s u n m x' s' u' : written sv x (set_depth (λ d, d + 1) s) u n m x' s' u' → 0 ≤ vfs_biglock_depth s →
  0 < vfs_biglock_depth s' ∧ written sv x s u n m x' (set_depth (λ d, d - 1) s') u'.
Proof. intros [W1 W2 W3 W4 W5 W6] Hd. destruct (file_step_unlock _ _ _ _ _ W3 Hd) as [Hl Hs]. split; [done|]. by split. Qed.

Lemma sfs_write_spec X T r L s d xd sv x u : has_root T r L s d xd → sv_at s !! sv = Some x → stream_ok u → st_rw u = UIO_WRITE →
  wpx X (with_uio u (sfs_write sv))
    (λ u' s', ∃ x', written sv x s u (st_resid u) (st_resid u) x' s' u')
    (λ e s', ∃ n m x' u' s1, written sv x s u n m x' s' u' ∧ (n = st_resid u → n = 0) ∧ io_error s (sv_i x) u n m s1 e) s.
Proof.
  intros Hh Hx Hu Hrw. pose proof (mc_depth _ _ (sc_mem _ _ _ (si_core _ _ _ _ (hr_inv _ _ _ _ _ _ Hh)))) as Hd.
  apply wp_with_uio. unfold sfs_write. wp_steps. apply wp_kassert; [unfold is_write; simpl; by rewrite Hrw|]. apply wp_io_under_biglock; [done|].
  eapply wp_conseq; [apply (sfs_io_write X sv x); [by eapply io_ready_lock|done]| |].
  - intros [] [s' u'] [x' Hw]. destruct (written_unlock _ _ _ _ _ _ _ _ _ Hw Hd) as [Hl Hw']. simpl. split; [done|by exists x'].
  - intros e [s' u'] (n & m & x' & Hw & Hn & He). destruct (written_unlock _ _ _ _ _ _ _ _ _ Hw Hd) as [Hl Hw']. simpl. split; [done|]. exists n, m, x', u', s'. by split_and!.
Qed.

(** A step on a file other than the root directory. *)
Lemma inv_file_step T r L s sv x x' s' : sfs_inv T r L s → sv_at s !! sv = Some x → sv_ino x ≠ SFS_ROOT_LOCATION → file_step sv x x' s s' →
  sfs_inv (<[sv_ino x := sv_i x']> T) r L s' ∧ (∀ a, entry s' r a = entry s r a) ∧ kept T (λ k, k = sv_ino x) (λ v, v = sv) s s' ∧
  sv_at s' !! sv = Some x' ∧ same_vnode x x'.
Proof.
  intros [Hc Ht] Hx Hne Hs. destruct (core_file_step T L s sv x x' s' Hc Hx Hs) as (Hc' & Hk & Hx' & Hv). apply others_kept_kept in Hk; [|congruence].
  destruct (kept_root _ _ _ _ _ _ _ Hk Hc Ht) as [Hd He]; [congruence|]. split_and!; try done. split; [done|]. pose proof Ht as [R1 R2 R3 R4 R5 R6 R7].
  pose proof (vo_inode _ _ _ (mc_vnodes _ _ (sc_mem _ _ _ Hc) _ _ Hx)) as Hi. destruct Hv as (_ & _ & _ & V4 & V5 & V6 & _).
  split; [by rewrite lookup_insert_ne|done|done|..].
  - intros ino i [[<- <-]|[Hn Hi']]%lookup_insert_Some Hn0; [rewrite V5|]; by eapply R4.
  - intros slot name k. rewrite He. intros He'. destruct (R5 _ _ _ He') as [Hn Hk']. split; [done|]. rewrite lookup_insert_is_Some'. by right.
  - intros ino i Hi' Hn0. rewrite (links_pointwise (entry s r)) by done. apply lookup_insert_Some in Hi' as [[<- <-]|[Hn Hi']]; [rewrite V6|]; by apply R6.
  - intros ino i [[<- <-]|[Hn Hi']]%lookup_insert_Some H0; [exists sv, x'; done|]. destruct (R7 ino i Hi' H0) as (v & y & Hy & E).
    destruct (decide (v = sv)) as [->|Hvs]; [congruence|]. exists v, y. by rewrite (kp_vnodes _ _ _ _ _ Hk).
Qed.

Lemma root_file_step T r L s d xd sv x x' s' : has_root T r L s d xd → sv_at s !! sv = Some x → sv_ino x ≠ SFS_ROOT_LOCATION → file_step sv x x' s s' →
  has_root (<[sv_ino x := sv_i x']> T) r L s' d xd ∧ (∀ a, entry s' r a = entry s r a) ∧ kept T (λ k, k = sv_ino x) (λ v, v = sv) s s' ∧
  sv_at s' !! sv = Some x' ∧ same_vnode x x' ∧ d ≠ sv.
Proof.
  intros [Hinv H2 H3] Hx Hne Hs. destruct (inv_file_step _ _ _ _ _ _ _ _ Hinv Hx Hne Hs) as (Hinv' & He & Hk & Hx' & Hv).
  assert (d ≠ sv) as Hdv by (intros ->; congruence). split_and!; try done. split; [done|by rewrite (kp_vnodes _ _ _ _ _ Hk)|done].
Qed.
