(* ===== verification/SfsSync.v ===== *)
(** * The simple file system: syncing and mounting

    sfs_sync writes back everything that is dirty and changes nothing else; mounting
    a disk that was synced recovers the file system as it was: the same objects with
    the same contents, the same names and the same free map. *)

From S2P Require Import Prelude Bitmap UserCopy Uio Disk SfsTypes Sfs SfsNode SfsMount SfsBlk SfsMap SfsIo SfsDir SfsTrunc SfsInv SfsVnode SfsTree.
#[local] Open Scope kern_scope.
#[local] Opaque entry.

(** ** The vnodes *)

(** The vnodes in [l] have been written back. *)
Record cleaned (T : gmap Z sfs_inode) (L : Z → Prop) (l : list Z) (s s' : sfs) : Prop := {
  cl_core : sfs_core T L s';
  cl_kept : kept T (λ _, False) (λ v, v ∈ l) s s';
  cl_vnodes : sfs_vnodes s' = sfs_vnodes s;
  cl_clean : ∀ v x, v ∈ l → sv_at s !! v = Some x → sv_at s' !! v = Some (set_dirty false x)
}.

Lemma others_kept_all T L ino sv s s' : sfs_core T L s → others_kept T ino sv s s' → T !! ino = None →
  (∀ x, sv_at s !! sv = Some x → ∃ x', sv_at s' !! sv = Some x' ∧ same_refs x x') → kept T (λ _, False) (λ v, v = sv) s s'.
Proof. intros Hc [K1 K2 K3 K4] Hn Hsv. split; try done; [|apply (root_refs_but sv); auto]. intros k i b Hi _. apply (K3 k i b Hi). congruence. Qed.

Lemma same_refs_clean x : same_refs x (set_dirty false x).
Proof. done. Qed.

Lemma sync_vnode X T L s sv x : sfs_core T L s → sv_at s !! sv = Some x →
  wpx X (sfs_fsync sv) (λ _, cleaned T L [sv] s) (λ _ _, False) s.
Proof.
  intros Hc Hx. pose proof (mc_depth _ _ (sc_mem _ _ _ Hc)) as Hd. unfold sfs_fsync. apply wp_under_biglock; [done|].
  set (s0 := set_depth (λ d, d + 1) s). assert (T !! (-1) = None) as Hn.
  { destruct (T !! (-1)) eqn:E; [|done]. pose proof (oo_range _ _ _ _ (dc_objects _ _ _ (sc_disk _ _ _ Hc) _ _ E)). lia. }
  eapply wp_conseq; [apply (sfs_sync_inode_spec X T L s0 sv x (-1)); [unfold biglocked; simpl; lia|apply core_depth; [done|lia]|done]| |done].
  intros [] s1 (Hc1 & Hk & Hx1 & Hv & _). pose proof (ok_depth _ _ _ _ _ Hk) as Hd1. simpl in Hd1. split; [lia|]. apply others_kept_unlock in Hk. split.
  - apply (core_depth _ _ _ (λ d, d - 1)); [done|lia].
  - apply (kept_weaken _ _ _ _ _ _ _ (others_kept_all _ _ _ _ _ _ Hc Hk Hn ltac:(intros y Hy; simplify_eq; eauto using same_refs_clean))); [done|]. intros v ->. by left.
  - done.
  - intros v y ->%list_elem_of_singleton Hy. simplify_eq. done.
Qed.

Lemma sync_vnodes_spec X T L l s : sfs_core T L s → NoDup l → (∀ sv, sv ∈ l → is_Some (sv_at s !! sv)) →
  wpx X (sync_vnodes l) (λ _, cleaned T L l s) (λ _ _, False) s.
Proof.
  revert s. induction l as [|sv l IH]; intros s Hc Hnd Hl; cbn [sync_vnodes].
  { wp_steps. split; [done|by eapply kept_refl|done|]. intros v x []%not_elem_of_nil. }
  apply NoDup_cons in Hnd as [Hsv Hnd]. destruct (Hl sv) as [x Hx]; [by left|]. do 2 wp_step.
  eapply wp_conseq; [by apply (sync_vnode X T L s sv x)| |done]. intros [] s1 [C1 C2 C3 C4].
  assert (∀ v, v ≠ sv → sv_at s1 !! v = sv_at s !! v) as Hsame.
  { intros v Hv. apply (kp_vnodes _ _ _ _ _ C2). by intros ->%list_elem_of_singleton. }
  eapply wp_conseq; [apply (IH s1); [done|done|]| |done].
  { intros v Hv. rewrite Hsame by congruence. apply Hl. by right. }
  intros [] s2 [D1 D2 D3 D4]. split; [done| |congruence|].
  - eapply kept_trans; [exact C2|exact D2|by auto|]. intros v Hv. rewrite list_elem_of_singleton, elem_of_cons in *. naive_solver.
  - intros v y [->|Hv]%elem_of_cons Hy.
    + rewrite (kp_vnodes _ _ _ _ _ D2) by done. apply C4; [by left|done].
    + apply D4; [done|]. rewrite Hsame; [done|congruence].
Qed.

(** ** Metadata *)

(** Only the superblock and the free map on disk, and the dirty flags, are different. *)
Record meta_step (s s' : sfs) : Prop := {
  ms_ok : fs_ok s';
  ms_depth : vfs_biglock_depth s' = vfs_biglock_depth s;
  ms_sb : sfs_sb s' = sfs_sb s;
  ms_freemap : sfs_freemap s' = sfs_freemap s;
  ms_vnodes : sfs_vnodes s' = sfs_vnodes s;
  ms_next : sv_next s' = sv_next s;
  ms_svs : sv_at s' = sv_at s;
  ms_sect : ∀ b, ¬ system_block s b → sect s' b = sect s b
}.

Lemma meta_step_trans s1 s2 s3 : meta_step s1 s2 → meta_step s2 s3 → meta_step s1 s3.
Proof.
  intros [A1 A2 A3 A4 A5 A6 A7 A8] [B1 B2 B3 B4 B5 B6 B7 B8]. split; try congruence. intros b Hb. rewrite B8, A8; [done..|]. by rewrite (system_same s1).
Qed.

Lemma meta_kept T L s s' : sfs_core T L s → meta_step s s' → sfs_core T L s' ∧ kept T (λ _, False) (λ _, False) s s'.
Proof.
  intros [Hc Hm] [A1 A2 A3 A4 A5 A6 A7 A8]. assert (∀ b, marked s' b ↔ marked s b) as Hmk by (intros b; unfold marked; by rewrite A4).
  assert (∀ ino i b, T !! ino = Some i → owns_block s i b → sect s' b = sect s b) as Hs.
  { intros ino i b Hi Ho. apply A8. by apply (oo_owned _ _ _ _ (dc_objects _ _ _ Hc _ _ Hi)). }
  assert (∀ ino i, T !! ino = Some i → sect s' ino = sect s ino) as Hs2.
  { intros ino i Hi. apply A8. by apply (oo_system _ _ _ _ (dc_objects _ _ _ Hc _ _ Hi)). }
  split; [split|].
  - eapply disk_transport; [exact Hc|done..|]. intros ino i i' Hi Hi'. simplify_eq. split_and!; try done. apply (oo_file _ _ _ _ (dc_objects _ _ _ Hc _ _ Hi)).
  - destruct Hm as [C1 C2 C3 C4 C5 C6 C7]. split; rewrite ?A2, ?A5, ?A6, ?A7; try done.
    + intros sv x Hx. destruct (C5 sv x Hx) as [V1 V2 V3 V4 V5]. split; try done. intros Hd. by rewrite (Hs2 _ _ V1), V5.
    + intros ino i Hi Hn. rewrite (Hs2 _ _ Hi). apply C7; [done|]. intros (sv & y & Hy & E). apply Hn. exists sv, y. by rewrite A7.
  - split; try done; [|by rewrite A7|by apply root_refs_same]. intros ino i b Hi _ Ho. split; [|by eapply Hs]. apply Hmk. by apply (owns_marked T L s Hc ino i).
Qed.

Lemma freemap_size s : fs_ok s →
  0 ≤ SFS_FS_BITBLOCKS s ∧ lengthZ (bitmap_getdata (sfs_freemap s)) = SFS_BLOCKSIZE * SFS_FS_BITBLOCKS s ∧ SFS_FS_BITMAPSIZE s = SFS_BLOCKBITS * SFS_FS_BITBLOCKS s.
Proof.
  intros Hok. pose proof (mo_bits _ (ok_meta _ Hok)) as Hn. pose proof (bw_len _ (ok_map _ Hok)) as Hl. pose proof (ok_small _ Hok) as Hs.
  assert (SFS_FS_BITMAPSIZE s = SFS_BLOCKBITS * SFS_FS_BITBLOCKS s ∧ 0 ≤ SFS_FS_BITBLOCKS s) as [E H0].
  { unfold SFS_FS_BITMAPSIZE, SFS_FS_BITBLOCKS, SFS_BITBLOCKS, SFS_BITMAPSIZE, SFS_ROUNDUP. change SFS_BLOCKBITS with 4096. change (sp_nblocks (sfs_sb s)) with (nblk s).
    unfold u32. rewrite Z.mod_small by lia. rewrite Z.div_mul by lia. split; [lia|]. apply Z.div_pos; lia. }
  split_and!; [done| |done]. unfold bitmap_getdata. rewrite Hl, Hn, E. unfold DIVROUNDUP, SFS_BLOCKBITS, SFS_BLOCKSIZE. symmetry. apply (Z.div_unique_pos _ 8 _ 7); lia.
Qed.

Lemma map_sector_lookup data j k : 0 ≤ j → 0 ≤ k < SFS_BLOCKSIZE → (map_sector data j).[k] = data.[j * SFS_BLOCKSIZE + k].
Proof.
  intros Hj Hk. unfold map_sector, SFS_BLOCKSIZE in *. change (take 512) with (take (A := Z) (Z.to_nat 512)). rewrite lookupZ_take_lt by lia. apply lookupZ_drop; lia.
Qed.

Lemma map_sector_block s j : fs_ok s → 0 ≤ j < SFS_FS_BITBLOCKS s → is_block (map_sector (bitmap_getdata (sfs_freemap s)) j).
Proof.
  intros Hok Hj. destruct (freemap_size s Hok) as (H0 & Hl & _). unfold map_sector, SFS_BLOCKSIZE in *. split.
  - unfold lengthZ in *. rewrite length_take, length_drop. unfold SFS_BLOCKSIZE. lia.
  - apply Forall_take, Forall_drop, (bw_bytes _ (ok_map _ Hok)).
Qed.

(** Writing the free map. *)
Lemma sfs_mapio_write X s : biglocked s → fs_ok s →
  wpx X (sfs_mapio UIO_WRITE)
    (λ _ s', ∃ d, s' = set_device d s ∧ card_ok d ∧ d_blocks d = d_blocks (sfs_device s) ∧
       ∀ b, sect s' b = if decide (SFS_MAP_LOCATION ≤ b < SFS_MAP_LOCATION + SFS_FS_BITBLOCKS s)
                        then map_sector (bitmap_getdata (sfs_freemap s)) (b - SFS_MAP_LOCATION) else sect s b) (λ _ _, False) s.
Proof.
  intros Hl Hok. destruct (freemap_size s Hok) as (H0 & _ & _). pose proof (mo_room _ (ok_meta _ Hok)) as Hroom. pose proof (ok_size _ Hok) as Hsz.
  unfold sfs_mapio. wp_steps.
  apply (wp_for (λ j s', ∃ d, s' = set_device d s ∧ card_ok d ∧ d_blocks d = d_blocks (sfs_device s) ∧
    ∀ b, sect s' b = if decide (SFS_MAP_LOCATION ≤ b < SFS_MAP_LOCATION + j) then map_sector (bitmap_getdata (sfs_freemap s)) (b - SFS_MAP_LOCATION) else sect s b)).
  - done.
  - exists (sfs_device s). rewrite set_device_id. split_and!; [done|apply Hok|done|]. intros b. rewrite decide_False by lia. done.
  - intros j s' Hj (d & -> & Hd & Hn & Hb). wp_steps. cbn [set_device sfs_freemap]. pose proof (map_sector_block s j Hok Hj) as Hblk. unfold SFS_MAP_LOCATION in *.
    eapply wp_ok; [apply sfs_wblock_eq; [done|done|simpl; lia|apply Hblk]|]. destruct (card_ok_write d (2 + j) _ Hd Hblk) as [Hd' Hn'].
    eexists. split_and!; [done|done|simpl; congruence|]. intros b. rewrite sect_write by (simpl; lia). rewrite Hb. repeat case_decide; subst; try lia; try done.
    f_equal. lia.
  - intros s' H. exact H.
Qed.

(** ** sfs_sync *)

(** Nothing is dirty. *)
Record clean (s : sfs) : Prop := {
  cn_super : sfs_superdirty s = false;
  cn_map : sfs_freemapdirty s = false;
  cn_vnodes : ∀ sv x, sv_at s !! sv = Some x → sv_dirty x = false
}.

Lemma sync_map X s : biglocked s → fs_ok s →
  wpx X (if sfs_freemapdirty s then sfs_mapio UIO_WRITE ;; modify (set_freemapdirty false) else ret tt)
    (λ _ s', meta_step s s' ∧ sfs_freemapdirty s' = false ∧ sfs_superdirty s' = sfs_superdirty s) (λ _ _, False) s.
Proof.
  intros Hl Hok. destruct (sfs_freemapdirty s) eqn:Ed; wp_steps; [|by split_and!].
  eapply wp_conseq; [by apply sfs_mapio_write| |done]. intros [] s' (d & -> & Hd & Hn & Hb). wp_steps. split_and!; [|done..]. split; try done.
  - destruct Hok as [K1 K2 K3 K4 K5 K6 K7 [M1 M2 M3 M4 M5 M6 M7 M8]]. split; try done; [by simpl; rewrite Hn|]. split; try done.
    + intros Hsd. destruct (M7 Hsd) as (x & Hx & E1 & E2). exists x. split_and!; [done| |done]. change (sect (set_device d s) SFS_SB_LOCATION = super_bytes x).
      rewrite Hb, decide_False; [done|]. unfold SFS_SB_LOCATION, SFS_MAP_LOCATION. lia.
    + intros _ j Hj. change (sect (set_device d s) (SFS_MAP_LOCATION + j) = map_sector (bitmap_getdata (sfs_freemap s)) j).
      change (SFS_FS_BITBLOCKS _) with (SFS_FS_BITBLOCKS s) in Hj. rewrite Hb, decide_True by lia. f_equal. lia.
  - intros b Hb'. change (sect (set_device d s) b = sect s b). rewrite Hb, decide_False; [done|]. intros ?. apply Hb'. by right.
Qed.

Lemma sync_super X s : biglocked s → fs_ok s → sfs_freemapdirty s = false →
  wpx X (if sfs_superdirty s then sfs_wblock (super_bytes (sfs_sb s)) SFS_SB_LOCATION ;; modify (set_superdirty false) else ret tt)
    (λ _ s', meta_step s s' ∧ sfs_freemapdirty s' = false ∧ sfs_superdirty s' = false) (λ _ _, False) s.
Proof.
  intros Hl Hok Hfd. destruct (sfs_superdirty s) eqn:Ed; wp_steps; [|by split_and!].
  pose proof Hok as [K1 K2 K3 K4 K5 K6 K7 [M1 M2 M3 M4 M5 M6 M7 M8]]. destruct (super_roundtrip _ M1) as [Hblk _]. destruct (freemap_size s Hok) as (H0 & _ & _).
  assert (0 ≤ SFS_SB_LOCATION < d_blocks (sfs_device s)) as Hr by (unfold SFS_SB_LOCATION, SFS_MAP_LOCATION in *; lia).
  eapply wp_ok; [apply sfs_wblock_eq; [done|done|done|apply Hblk]|]. wp_steps. destruct (card_ok_write (sfs_device s) SFS_SB_LOCATION _ K1 Hblk) as [Hd' Hn'].
  set (s1 := set_device _ s). assert (∀ b, sect s1 b = if decide (b = SFS_SB_LOCATION) then super_bytes (sfs_sb s) else sect s b) as Hb by (intros b; by apply sect_write).
  split_and!; [|done..]. split; try done.
  - split; try done; [by simpl; rewrite Hn'|]. split; try done.
    + intros _. exists (sfs_sb s). split_and!; [done| |done]. change (sect s1 SFS_SB_LOCATION = super_bytes (sfs_sb s)). by rewrite Hb.
    + intros Hfd' j Hj. change (sect s1 (SFS_MAP_LOCATION + j) = map_sector (bitmap_getdata (sfs_freemap s)) j).
      rewrite Hb, decide_False; [by apply M8|]. unfold SFS_SB_LOCATION, SFS_MAP_LOCATION. change (SFS_FS_BITBLOCKS _) with (SFS_FS_BITBLOCKS s) in Hj. lia.
  - intros b Hb'. change (sect s1 b = sect s b). rewrite Hb, decide_False; [done|]. intros ->. apply Hb'. by left.
Qed.

Record synced (T : gmap Z sfs_inode) (r : sfs_inode) (L : Z → Prop) (s s' : sfs) : Prop := {
  sy_inv : sfs_inv T r L s';
  sy_clean : clean s';
  sy_kept : kept T (λ _, False) (λ _, True) s s';
  sy_vnodes : ∀ sv x, sv_at s !! sv = Some x → sv_at s' !! sv = Some (set_dirty false x);
  sy_entries : ∀ a, entry s' r a = entry s r a;
  sy_table : sfs_vnodes s' = sfs_vnodes s
}.

Lemma cleaned_synced T r L s s1 s2 : sfs_inv T r L s → cleaned T L (sfs_vnodes s) s s1 → meta_step s1 s2 →
  sfs_superdirty s2 = false → sfs_freemapdirty s2 = false → synced T r L s s2.
Proof.
  intros [Hc Ht] [C1 C2 C3 C4] Hm Hsd Hfd. destruct (meta_kept T L s1 s2 C1 Hm) as [Hc2 Hk2].
  assert (kept T (λ _, False) (λ _, True) s s2) as Hk by (eapply kept_trans; [exact C2|exact Hk2|by auto|naive_solver]).
  assert (∀ sv x, sv_at s !! sv = Some x → sv_at s2 !! sv = Some (set_dirty false x)) as Hv.
  { intros sv x Hx. rewrite (ms_svs _ _ Hm). apply C4; [|done]. apply (mc_dom _ _ (sc_mem _ _ _ Hc)). by eexists. }
  destruct (kept_root _ _ _ _ _ _ _ Hk Hc Ht) as [_ He]; [by intros []|]. split; [|split; try done|done|done|done|by rewrite (ms_vnodes _ _ Hm)].
  - split; [done|]. apply (tree_same_dir _ _ s); [done|done|]. intros ino (sv & x & Hx & E). exists sv, (set_dirty false x). split; [by apply Hv|done].
  - intros sv y Hy. assert (sv ∈ sfs_vnodes s) as Hin.
    { rewrite <- C3, <- (ms_vnodes _ _ Hm). apply (mc_dom _ _ (sc_mem _ _ _ Hc2)). by eexists. }
    apply (mc_dom _ _ (sc_mem _ _ _ Hc)) in Hin as [x Hx]. rewrite (Hv _ _ Hx) in Hy. by injection Hy as <-.
Qed.

Lemma synced_unlock T r L s s' : synced T r L (set_depth (λ d, d + 1) s) s' → 0 ≤ vfs_biglock_depth s →
  0 < vfs_biglock_depth s' ∧ synced T r L s (set_depth (λ d, d - 1) s').
Proof.
  intros [Y1 [N1 N2 N3] Y3 Y4 Y5 Y6] Hd. destruct (kept_unlock _ _ _ _ _ Y3 Hd) as [Hl Hk]. split; [done|]. split; [apply inv_depth; [done|lia]|by split|done|done| |done].
  intros a. rewrite (entry_device s'), Y5 by reflexivity. by apply entry_device.
Qed.

Lemma sfs_sync_spec X T r L s : sfs_inv T r L s → wpx X sfs_sync (λ _, synced T r L s) (λ _ _, False) s.
Proof.
  intros Hinv. pose proof (mc_depth _ _ (sc_mem _ _ _ (si_core _ _ _ _ Hinv))) as Hd. unfold sfs_sync. apply wp_under_biglock; [done|].
  set (s0 := set_depth (λ d, d + 1) s). assert (sfs_inv T r L s0) as Hinv0 by (apply inv_depth; [done|lia]). pose proof (si_core _ _ _ _ Hinv0) as Hc0.
  wp_step. wp_step. wp_step. eapply wp_conseq; [apply (sync_vnodes_spec X T L (sfs_vnodes s0) s0 Hc0); [apply Hc0|]| |done].
  { intros sv. apply (mc_dom _ _ (sc_mem _ _ _ Hc0)). }
  intros [] s1 Hcl. assert (biglocked s1) as Hl1 by (unfold biglocked; rewrite (kp_depth _ _ _ _ _ (cl_kept _ _ _ _ _ Hcl)); simpl; lia).
  wp_step. wp_step. wp_step. eapply wp_conseq; [apply (sync_map X s1 Hl1), (cl_core _ _ _ _ _ Hcl)| |done]. intros [] s2 (Hm2 & Hfd & Hsd).
  wp_step. wp_step. eapply wp_conseq; [apply (sync_super X s2); [unfold biglocked; by rewrite (ms_depth _ _ Hm2)|apply Hm2|done]| |done].
  intros [] s3 (Hm3 & Hfd3 & Hsd3). apply (synced_unlock T r L s s3); [|done].
  by apply (cleaned_synced T r L s0 s1 s3); [| |eapply meta_step_trans| |].
Qed.

(** ** Mounting *)

Lemma set_map_sector_spec j sector data : 0 ≤ j → lengthZ sector = SFS_BLOCKSIZE → (j + 1) * SFS_BLOCKSIZE ≤ lengthZ data →
  lengthZ (set_map_sector j sector data) = lengthZ data ∧
  ∀ k, 0 ≤ k < (j + 1) * SFS_BLOCKSIZE → (set_map_sector j sector data).[k] = if decide (k < j * SFS_BLOCKSIZE) then data.[k] else sector.[k - j * SFS_BLOCKSIZE].
Proof.
  unfold set_map_sector, SFS_BLOCKSIZE, lengthZ. intros Hj Hs Hd. split.
  - rewrite !length_app, length_take, length_drop. lia.
  - intros k Hk. rewrite lookupZ_nat by lia. case_decide.
    + rewrite lookup_app_l by (rewrite length_take; lia). rewrite lookup_take_lt by lia. by rewrite lookupZ_nat by lia.
    + rewrite lookup_app_r by (rewrite length_take; lia). rewrite length_take. rewrite lookup_app_l by lia. rewrite lookupZ_nat by lia. f_equal. lia.
Qed.

(** Reading the free map [m] from the disk. *)
Lemma sfs_mapio_read X s m : biglocked s → card_ok (sfs_device s) → SFS_MAP_LOCATION + SFS_FS_BITBLOCKS s ≤ d_blocks (sfs_device s) → 0 ≤ SFS_FS_BITBLOCKS s →
  nbits (sfs_freemap s) = nbits m → lengthZ (v (sfs_freemap s)) = SFS_BLOCKSIZE * SFS_FS_BITBLOCKS s → lengthZ (v m) = SFS_BLOCKSIZE * SFS_FS_BITBLOCKS s →
  (∀ j, 0 ≤ j < SFS_FS_BITBLOCKS s → sect s (SFS_MAP_LOCATION + j) = map_sector (v m) j) →
  wpx X (sfs_mapio UIO_READ) (λ _ s', s' = set_freemap m s) (λ _ _, False) s.
Proof.
  intros Hl Hc Hroom H0 Hn Hlen Hlm Hs. unfold sfs_mapio. wp_step. wp_step. unfold SFS_BLOCKSIZE in *.
  apply (wp_for (λ j s', ∃ b, s' = set_freemap b s ∧ nbits b = nbits m ∧ lengthZ (v b) = lengthZ (v m) ∧ ∀ k, 0 ≤ k < j * SFS_BLOCKSIZE → (v b).[k] = (v m).[k])).
  - done.
  - exists (sfs_freemap s). rewrite set_freemap_id. split_and!; [done|done|lia|]. intros k Hk. lia.
  - intros j s' Hj (b & -> & Hnb & Hlb & Hb). wp_step. unfold SFS_MAP_LOCATION in *.
    eapply wp_ok; [apply sfs_rblock_eq; [done|done|simpl; lia]|]. change (sect (set_freemap b s) ?c) with (sect s c). rewrite Hs by done. unfold freemap. apply wp_lift. wp_step.
    destruct (set_map_sector_spec j (map_sector (v m) j) (v b)) as [E1 E2]; [lia| |unfold SFS_BLOCKSIZE; lia|].
    { unfold map_sector, lengthZ, SFS_BLOCKSIZE in *. rewrite length_take, length_drop. lia. }
    exists (set_v (set_map_sector j (map_sector (v m) j)) b). split_and!; [done|done|simpl; lia|]. cbn [set_v v]. intros k Hk. rewrite E2 by done.
    case_decide; [apply Hb; lia|]. rewrite map_sector_lookup by lia. f_equal. lia.
  - intros s' (b & -> & Hnb & Hlb & Hb). f_equal. destruct b as [nb vb], m as [nm vm]. simpl in *. subst. f_equal. apply listZ_eq; [done|]. intros k Hk. apply Hb. unfold SFS_BLOCKSIZE. lia.
Qed.

(** [s'] is the file system of [s], freshly mounted in memory [s0]. *)
Record mounted (s s0 s' : sfs) : Prop := {
  mt_device : sfs_device s' = sfs_device s;
  mt_sb : sfs_sb s' = sfs_sb s;
  mt_freemap : sfs_freemap s' = sfs_freemap s;
  mt_flags : sfs_superdirty s' = false ∧ sfs_freemapdirty s' = false;
  mt_vnodes : sfs_vnodes s' = [];
  mt_svs : sv_at s' = sv_at s0;
  mt_next : sv_next s' = sv_next s0;
  mt_depth : vfs_biglock_depth s' = vfs_biglock_depth s0
}.

Lemma new_freemap_spec X n s : 0 ≤ n ≤ 2 ^ 32 - 8 →
  wpx X (new_freemap n) (λ o s', (∃ mem, s' = mkSfs (vfs_biglock_depth s) (sfs_device s) (sfs_sb s) (sfs_superdirty s) (sfs_vnodes s)
    (sfs_freemap s) (sfs_freemapdirty s) (sv_at s) (sv_next s) mem) ∧ ∀ b, o = Some b → fresh_bitmap n b) (λ _ _, False) s.
Proof.
  intros Hn. unfold new_freemap. wp_step. apply wp_ask_mem. intros m1 mem1. wp_step.
  set (s1 := mkSfs _ _ _ _ _ _ _ _ _ _).
  apply (wp_conseq _ (λ _ s', ∃ mem, s' = mkSfs (vfs_biglock_depth s) (sfs_device s) (sfs_sb s) (sfs_superdirty s) (sfs_vnodes s)
    (sfs_freemap s) (sfs_freemapdirty s) (sv_at s) (sv_next s) mem) _ (λ _ _, False)); [| |done].
  { destruct m1; [|wp_step; by eexists]. apply wp_ask_mem. intros m2 mem2. by eexists. }
  intros m2 s2 [mem ->]. apply wp_lift. eapply wp_conseq; [apply (bitmap_create_spec X n m1 m2 Hn)| |done].
  intros o [] Ho. split; [by eexists|]. intros b ->. apply Ho.
Qed.

Lemma sfs_domount_spec X s s0 : fs_ok s → sfs_superdirty s = false → sfs_freemapdirty s = false → sfs_device s0 = sfs_device s → 0 ≤ vfs_biglock_depth s0 →
  wpx X (sfs_domount SFS_BLOCKSIZE) (λ _, mounted s s0) (λ e _, e = ENOMEM) s0.
Proof.
  intros Hok Hsd Hfd Hdev Hd. pose proof Hok as [K1 K2 K3 K4 K5 K6 K7 [M1 M2 M3 M4 M5 M6 M7 M8]]. destruct (freemap_size s Hok) as (H0 & Hlen & Hbits).
  destruct (M7 Hsd) as (x & Hx & Esb & Et). unfold sfs_domount. apply wp_under_biglock; [done|]. simpl negb. cbv iota.
  wp_step. apply wp_ask_mem. intros b1 mem1. destruct b1; simpl negb; cbv iota; [|wp_step; split; [simpl; lia|done]].
  wp_step. apply wp_ask_mem. intros b2 mem2. destruct b2; simpl negb; cbv iota; [|wp_step; split; [simpl; lia|done]].
  do 3 wp_step. set (s1 := set_vnodes _ _). assert (sect s1 SFS_SB_LOCATION = super_bytes x) as E1 by (rewrite <- Esb; unfold sect; simpl; by rewrite Hdev).
  eapply wp_ok; [apply sfs_rblock_eq; [unfold biglocked; simpl; lia|simpl; by rewrite Hdev|simpl; rewrite Hdev; unfold SFS_SB_LOCATION, SFS_MAP_LOCATION in *; lia]|].
  rewrite E1, (proj2 (super_roundtrip x Hx)). do 4 wp_step. cbn [set_sb sfs_sb]. assert (sp_magic x = SFS_MAGIC) as -> by (rewrite <- M2, Et; done).
  simpl negb. cbv iota. do 4 wp_step. cbv zeta. cbn [set_sb sfs_sb].
  change (mkSuper (sp_magic x) (sp_nblocks x) (sp_volname x).[SFS_VOLNAME_SIZE - 1 := 0] (sp_reserved x)) with (terminated x). rewrite <- Et. set (s2 := set_sb _ _).
  change (SFS_FS_BITMAPSIZE s2) with (SFS_FS_BITMAPSIZE s). wp_step.
  eapply wp_conseq; [apply (new_freemap_spec X (SFS_FS_BITMAPSIZE s) s2); rewrite <- M5; apply (bw_nbits _ K4)| |done].
  intros [b|] s3 [[mem ->] Hb]; [|wp_step; split; [simpl; lia|done]]. destruct (Hb b eq_refl) as (Hwf & Hn & _).
  wp_step. wp_step. wp_step. set (s4 := set_freemap b _). eapply wp_conseq; [apply (sfs_mapio_read X s4 (sfs_freemap s))| |done].
  - unfold biglocked. simpl. lia.
  - simpl. by rewrite Hdev.
  - simpl. rewrite Hdev. change (SFS_FS_BITBLOCKS s4) with (SFS_FS_BITBLOCKS s). lia.
  - done.
  - simpl. congruence.
  - change (lengthZ (v b) = SFS_BLOCKSIZE * SFS_FS_BITBLOCKS s). rewrite (bw_len _ Hwf), Hn, <- M5, <- (bw_len _ K4). done.
  - done.
  - intros j Hj. change (SFS_FS_BITBLOCKS s4) with (SFS_FS_BITBLOCKS s) in Hj. transitivity (sect s (SFS_MAP_LOCATION + j)); [|exact (M8 Hfd j Hj)]. unfold sect. simpl. by rewrite Hdev.
  - intros [] s5 ->. do 3 wp_step. split; [simpl; lia|]. split; try done. simpl. lia.
Qed.

(** When nothing is dirty every inode is on the disk. *)
Lemma clean_on_disk T s ino i : mem_core T s → (∀ sv x, sv_at s !! sv = Some x → sv_dirty x = false) → T !! ino = Some i → sect s ino = inode_bytes i.
Proof.
  intros [C1 C2 C3 C4 C5 C6 C7] Hcl Hi. destruct (decide (Exists (λ sv, sv_ino <$> (sv_at s !! sv) = Some ino) (sfs_vnodes s))) as [Hld|Hn].
  - apply Exists_exists in Hld as (sv & _ & E). destruct (sv_at s !! sv) as [x|] eqn:Hx; [|done]. simpl in E. injection E as <-.
    destruct (C5 sv x Hx) as [V1 _ _ _ V5]. rewrite V5 by (by eapply Hcl). congruence.
  - apply C7; [done|]. intros (sv & x & Hx & E). apply Hn, Exists_exists. exists sv. split; [apply C2; by eexists|]. rewrite Hx. simpl. by f_equal.
Qed.

(** A freshly mounted file system has the objects and names it had when it was synced. *)
Lemma mounted_inv T r L s s0 s' : sfs_inv T r L s → clean s → (∀ ino i, T !! ino = Some i → sfi_linkcount i ≠ 0) →
  mounted s s0 s' → sv_at s0 = ∅ → 0 ≤ vfs_biglock_depth s0 → sfs_inv T r L s'.
Proof.
  intros [[Hd Hm] Ht] [N1 N2 N3] Horph [A1 A2 A3 [A4 A5] A6 A7 A8 A9] Hsvs Hdep. rewrite Hsvs in A7.
  assert (∀ b, sect s' b = sect s b) as Hs by (intros b; unfold sect; by rewrite A1). assert (∀ b, marked s' b ↔ marked s b) as Hmk by (intros b; unfold marked; by rewrite A3).
  split; [split|].
  - eapply disk_transport; [exact Hd| |done|done|by intros|done|].
    + apply (fs_ok_ext s); [apply Hd|done..|]. split; congruence.
    + intros ino i i' Hi Hi'. simplify_eq. split_and!; try done. apply (oo_file _ _ _ _ (dc_objects _ _ _ Hd _ _ Hi)).
  - assert (∀ sv, sv_at s' !! sv = None) as He by (intros sv; by rewrite A7). split.
    + lia.
    + intros sv. rewrite He, A6. split; [by intros []|by intros ?%not_elem_of_nil].
    + rewrite A6. apply NoDup_nil_2.
    + intros sv. rewrite He. by intros [].
    + intros sv x. by rewrite He.
    + intros sv sv' x x'. by rewrite He.
    + intros ino i Hi _. rewrite Hs. by eapply clean_on_disk.
  - destruct Ht as [R1 R2 R3 R4 R5 R6 R7]. assert (∀ a, entry s' r a = entry s r a) as He by (intros a; by apply entry_device).
    split; try done; [by apply (dir_ok_same s)|..].
    + intros slot name k. rewrite He. apply R5.
    + intros ino i Hi Hn. rewrite (links_pointwise (entry s r)) by done. by apply R6.
    + intros ino i Hi E. by destruct (Horph ino i Hi).
Qed.
