(* ===== verification/Afs.v ===== *)
(** * An abstract file system

    What a file system with one directory is to its users: names for files, the bytes
    of the files, and how many references there are to each.  SfsAbs.v shows that SFS
    implements it, and VfsSpec.v states what the VFS layer makes of it. *)

From S2P Require Import Prelude.
#[local] Open Scope kern_scope.

Record afs := mkAfs {
  a_names : gmap (list Z) Z;
  a_files : gmap Z (list Z);
  a_open : gmap Z Z
}.

Definition set_names (f : gmap (list Z) Z → gmap (list Z) Z) (a : afs) : afs := mkAfs (f (a_names a)) (a_files a) (a_open a).
Definition set_files (f : gmap Z (list Z) → gmap Z (list Z)) (a : afs) : afs := mkAfs (a_names a) (f (a_files a)) (a_open a).
Definition set_open (f : gmap Z Z → gmap Z Z) (a : afs) : afs := mkAfs (a_names a) (a_files a) (f (a_open a)).

(** A file is in use while it has a name or is open; otherwise it is removed. *)
Definition in_use (a : afs) (ino : Z) : Prop := (∃ name, a_names a !! name = Some ino) ∨ is_Some (a_open a !! ino).
Definition collected (ino : Z) (a a' : afs) : Prop := (in_use a ino ∧ a' = a) ∨ (¬ in_use a ino ∧ a' = set_files (delete ino) a).

Definition reopen (ino : Z) (a : afs) : afs := set_open (λ o, <[ino := default 0 (o !! ino) + 1]> o) a.
Definition reclose (ino : Z) (a : afs) : afs :=
  set_open (λ o, if default 0 (o !! ino) <=? 1 then delete ino o else <[ino := default 0 (o !! ino) - 1]> o) a.
