(* ===== verification/SfsAbs.v ===== *)
(** * The simple file system: what it promises

    The operations of SFS implement those of the abstract file system of Afs.v: a file
    lives as long as it has a name or is open. *)

From S2P Require Import Prelude Afs Bitmap UserCopy Uio Disk SfsTypes Sfs SfsNode SfsMount SfsBlk SfsMap SfsIo SfsDir SfsTrunc SfsInv SfsVnode SfsTree SfsOps SfsFile SfsSync.
#[local] Open Scope kern_scope.
#[local] Opaque entry.

(** ** The bytes of a file *)

Definition contents (s : sfs) (i : sfs_inode) : list Z := fbytes s i 0 (Z.min (sfi_size i) FILEMAX).

Lemma contents_same s i s' i' : sfi_size i' = sfi_size i → (∀ p, 0 ≤ p < FILEMAX → fbyte s' i' p = fbyte s i p) → contents s' i' = contents s i.
Proof. intros Hsz Hb. unfold contents. rewrite Hsz. apply fbytes_ext. intros p Hp. apply Hb. lia. Qed.

Lemma contents_length s i : 0 ≤ sfi_size i → lengthZ (contents s i) = Z.min (sfi_size i) FILEMAX.
Proof. intros Hs. apply fbytes_length. unfold FILEMAX, SFS_BLOCKSIZE, NFILE. lia. Qed.

Lemma contents_lookup s i p : 0 ≤ p < Z.min (sfi_size i) FILEMAX → (contents s i).[p] = Some (fbyte s i p).
Proof. intros Hp. unfold contents. rewrite fbytes_lookup by lia. done. Qed.

Lemma contents_kept T P Q L s s' ino i n : kept T P Q s s' → sfs_core T L s → T !! ino = Some i → ¬ P ino → contents s' (set_linkcount n i) = contents s i.
Proof. intros Hk Hc Hi Hn. apply contents_same; [done|]. by apply (kept_file T P Q L s s' ino i). Qed.

(** ** Representation *)

Record represents (a : afs) (svd : Z) (T : gmap Z sfs_inode) (r : sfs_inode) (L : Z → Prop) (s : sfs) (xd : sfs_vnode) : Prop := {
  re_root : has_root T r L s svd xd;
  re_names : ∀ name k, a_names a !! name = Some k ↔ ∃ slot, entry s r slot = Some (name, k);
  re_files : ∀ ino, a_files a !! ino = if decide (ino = SFS_ROOT_LOCATION) then None else contents s <$> (T !! ino);
  re_open : ∀ ino n, a_open a !! ino = Some n ↔ ino ≠ SFS_ROOT_LOCATION ∧ ∃ sv x, sv_at s !! sv = Some x ∧ sv_ino x = ino ∧ vn_refcount x = n
}.

(** The same, whether or not the root directory is in memory. *)
Record stores (a : afs) (T : gmap Z sfs_inode) (r : sfs_inode) (L : Z → Prop) (s : sfs) : Prop := {
  so_inv : sfs_inv T r L s;
  so_names : ∀ name k, a_names a !! name = Some k ↔ ∃ slot, entry s r slot = Some (name, k);
  so_files : ∀ ino, a_files a !! ino = if decide (ino = SFS_ROOT_LOCATION) then None else contents s <$> (T !! ino);
  so_open : ∀ ino n, a_open a !! ino = Some n ↔ ino ≠ SFS_ROOT_LOCATION ∧ ∃ sv x, sv_at s !! sv = Some x ∧ sv_ino x = ino ∧ vn_refcount x = n
}.

Lemma represents_stores a d T r L s xd : represents a d T r L s xd ↔ stores a T r L s ∧ sv_at s !! d = Some xd ∧ sv_ino xd = SFS_ROOT_LOCATION.
Proof.
  split.
  - intros [[R1 R2 R3] R4 R5 R6]. by split_and!.
  - intros [[S1 S2 S3 S4] [H1 H2]]. by split.
Qed.

(** [d] is the vnode of the root directory of a file system that holds [a]. *)
Definition holds (a : afs) (d : Z) (s : sfs) : Prop := ∃ T r L xd, represents a d T r L s xd.

(** Object [ino] has as many links as it has names. *)
Lemma named_links T r L s ino i : sfs_inv T r L s → T !! ino = Some i → ino ≠ SFS_ROOT_LOCATION →
  sfi_linkcount i = 0 ↔ ∀ slot name, entry s r slot ≠ Some (name, ino).
Proof.
  intros Hinv Hi Hne. split.
  - intros E slot name He. destruct (entry_object _ _ _ _ _ _ _ Hinv He) as (j & Hj & _ & _ & _ & Hpos & _). assert (j = i) as -> by congruence. lia.
  - intros Hn. rewrite (st_links _ _ _ (si_tree _ _ _ _ Hinv) _ _ Hi Hne). apply links_zero. intros slot name. apply Hn.
Qed.

Lemma open_loaded a d T r L s xd ino : represents a d T r L s xd → ino ≠ SFS_ROOT_LOCATION → is_Some (a_open a !! ino) ↔ is_loaded s ino.
Proof.
  intros [R1 R2 R3 R4] Hne. split.
  - intros [n Hn]. apply R4 in Hn as (_ & sv & x & Hx & E & _). by exists sv, x.
  - intros (sv & x & Hx & E). exists (vn_refcount x). apply R4. split; [done|]. by exists sv, x.
Qed.

Lemma in_use_iff a d T r L s xd ino i : represents a d T r L s xd → T !! ino = Some i → ino ≠ SFS_ROOT_LOCATION →
  ¬ in_use a ino ↔ sfi_linkcount i = 0 ∧ ¬ is_loaded s ino.
Proof.
  intros Hrep Hi Hne. unfold in_use. rewrite (open_loaded _ _ _ _ _ _ _ _ Hrep Hne), (named_links _ _ _ _ _ _ (hr_inv _ _ _ _ _ _ (re_root _ _ _ _ _ _ _ Hrep)) Hi Hne).
  setoid_rewrite (re_names _ _ _ _ _ _ _ Hrep). naive_solver.
Qed.

(** Vnodes of objects other than the root and [ino], when only those have changed. *)
Lemma open_others {T T' r r' L L' s s' d xd xd' P sv ino k n} : has_root T r L s d xd → has_root T' r' L' s' d xd' →
  kept T P (λ v, v = d ∨ v = sv) s s' → (∀ x, sv_at s !! sv = Some x → sv_ino x = ino) → (∀ x, sv_at s' !! sv = Some x → sv_ino x = ino) →
  k ≠ SFS_ROOT_LOCATION → k ≠ ino →
  (∃ v x, sv_at s' !! v = Some x ∧ sv_ino x = k ∧ vn_refcount x = n) ↔ (∃ v x, sv_at s !! v = Some x ∧ sv_ino x = k ∧ vn_refcount x = n).
Proof.
  intros [_ S1 I1] [_ S2 I2] Hk H1 H2 Hk1 Hk2. split; intros (v & x & Hx & E & En); exists v, x; (split; [|done]).
  - rewrite <- (kp_vnodes _ _ _ _ _ Hk); [done|]. intros [->| ->]; [congruence|]. specialize (H2 x Hx). congruence.
  - rewrite (kp_vnodes _ _ _ _ _ Hk); [done|]. intros [->| ->]; [congruence|]. specialize (H1 x Hx). congruence.
Qed.

(** The same when only the vnode of [ino] has changed. *)
Lemma open_kept {T P sv s s' ino k n} : kept T P (λ v, v = sv) s s' → (∀ x, sv_at s !! sv = Some x → sv_ino x = ino) → (∀ x, sv_at s' !! sv = Some x → sv_ino x = ino) → k ≠ ino →
  (∃ v x, sv_at s' !! v = Some x ∧ sv_ino x = k ∧ vn_refcount x = n) ↔ (∃ v x, sv_at s !! v = Some x ∧ sv_ino x = k ∧ vn_refcount x = n).
Proof.
  intros Hk H1 H2 Hne. split; intros (v & x & Hx & E & En); exists v, x; (split; [|done]).
  - rewrite <- (kp_vnodes _ _ _ _ _ Hk); [done|]. intros ->. specialize (H2 x Hx). congruence.
  - rewrite (kp_vnodes _ _ _ _ _ Hk); [done|]. intros ->. specialize (H1 x Hx). congruence.
Qed.

(** The vnode of an object is unique. *)
Lemma open_only {T r L s sv x ino n} : sfs_inv T r L s → sv_at s !! sv = Some x → sv_ino x = ino →
  (∃ v y, sv_at s !! v = Some y ∧ sv_ino y = ino ∧ vn_refcount y = n) ↔ n = vn_refcount x.
Proof.
  intros Hinv Hx E. split; [|intros ->; by exists sv, x]. intros (v & y & Hy & Ey & <-).
  assert (v = sv) as -> by (apply (mc_inj _ _ (sc_mem _ _ _ (si_core _ _ _ _ Hinv)) v sv y x); congruence). congruence.
Qed.

Lemma open_unique {T r L s d xd sv x ino n} : has_root T r L s d xd → sv_at s !! sv = Some x → sv_ino x = ino →
  (∃ v y, sv_at s !! v = Some y ∧ sv_ino y = ino ∧ vn_refcount y = n) ↔ n = vn_refcount x.
Proof. intros Hr. apply (open_only (hr_inv _ _ _ _ _ _ Hr)). Qed.

Lemma files_kept a d T r L s xd P Q s' ino i n : represents a d T r L s xd → kept T P Q s s' → T !! ino = Some i → ino ≠ SFS_ROOT_LOCATION → ¬ P ino →
  a_files a !! ino = Some (contents s' (set_linkcount n i)).
Proof.
  intros Hrep Hk Hi Hne HP. rewrite (re_files _ _ _ _ _ _ _ Hrep), decide_False, Hi by done. simpl. f_equal. symmetry.
  eapply contents_kept; [exact Hk|apply (hr_inv _ _ _ _ _ _ (re_root _ _ _ _ _ _ _ Hrep))|done|done].
Qed.

Lemma links_same i : set_linkcount (sfi_linkcount i) i = i.
Proof. by destruct i. Qed.

(** Names when one slot changes. *)
Lemma names_added (s : sfs) (r : sfs_inode) (e' : Z → option (list Z * Z)) (m : gmap (list Z) Z) slot name ino :
  (∀ n k, m !! n = Some k ↔ ∃ a, entry s r a = Some (n, k)) → (∀ a k, entry s r a ≠ Some (name, k)) → entry s r slot = None →
  (∀ a, e' a = if decide (a = slot) then Some (name, ino) else entry s r a) →
  ∀ n k, <[name := ino]> m !! n = Some k ↔ ∃ a, e' a = Some (n, k).
Proof.
  intros Hm Hnone Hem He n k. setoid_rewrite He. rewrite lookup_insert_Some, Hm. split.
  - intros [[<- <-]|[Hn [a Ha]]]; [exists slot; by rewrite decide_True|]. exists a. rewrite decide_False; [done|]. congruence.
  - intros [a Ha]. case_decide; [left; naive_solver|]. right. split; [|by exists a]. intros <-. by apply (Hnone a k).
Qed.

Lemma names_removed (s : sfs) (r : sfs_inode) (e' : Z → option (list Z * Z)) (m : gmap (list Z) Z) slot name ino : dir_ok s r →
  (∀ n k, m !! n = Some k ↔ ∃ a, entry s r a = Some (n, k)) → entry s r slot = Some (name, ino) →
  (∀ a, e' a = if decide (a = slot) then None else entry s r a) →
  ∀ n k, delete name m !! n = Some k ↔ ∃ a, e' a = Some (n, k).
Proof.
  intros Hd Hm Hs He n k. setoid_rewrite He. rewrite lookup_delete_Some, Hm. split.
  - intros [Hn [a Ha]]. exists a. rewrite decide_False; [done|]. congruence.
  - intros [a Ha]. case_decide; [done|]. split; [|by exists a]. intros <-. by apply (do_names _ _ Hd a slot name k ino) in Ha.
Qed.

(** ** sfs_creat *)

Lemma made_holds a d T r L s xd name sv s' : represents a d T r L s xd → made_file T r L s d name sv s' →
  ∃ ino, a_names a !! name = None ∧ a_files a !! ino = None ∧
    holds (mkAfs (<[name := ino]> (a_names a)) (<[ino := []]> (a_files a)) (<[ino := 1]> (a_open a))) d s' ∧ sv_ino <$> sv_at s' !! sv = Some ino.
Proof.
  intros Hrep (slot & ino & r' & xd' & Hnone & Hem & Hi & Hr' & He & Hk & Hsv & Hsv0). pose proof Hrep as [R1 R2 R3 R4].
  pose proof (st_root _ _ _ (si_tree _ _ _ _ (hr_inv _ _ _ _ _ _ R1))) as Hroot. assert (ino ≠ SFS_ROOT_LOCATION) as Hne by congruence.
  exists ino. split_and!.
  - destruct (a_names a !! name) eqn:E; [|done]. apply R2 in E as [sl E]. by apply Hnone in E.
  - by rewrite R3, decide_False, Hi.
  - eexists _, _, _, _. split; [exact Hr'|..].
    + by eapply names_added.
    + intros k. simpl. destruct (decide (k = ino)) as [->|Hk1]; [rewrite decide_False, !lookup_insert_eq by done; done|]. rewrite !lookup_insert_ne by done. case_decide as Hk2; [by subst; rewrite R3|].
      rewrite lookup_insert_ne by done. rewrite R3, decide_False by done. destruct (T !! k) as [j|] eqn:Hj; [|done]. simpl. f_equal. symmetry.
      rewrite <- (links_same j) at 1. by eapply contents_kept; [exact Hk|apply (hr_inv _ _ _ _ _ _ R1)|..].
    + intros k n. simpl. destruct (decide (k = ino)) as [->|Hk1].
      * rewrite lookup_insert_eq, (open_unique Hr' Hsv) by done. simpl. naive_solver.
      * rewrite lookup_insert_ne by done. rewrite R4. destruct (decide (k = SFS_ROOT_LOCATION)) as [->|Hk2]; [naive_solver|].
        rewrite (open_others R1 Hr' Hk (ino := ino)); [done| | |done|done]; intros y Hy; [congruence|]. rewrite Hsv in Hy. by injection Hy as <-.
  - by rewrite Hsv.
Qed.

Lemma found_holds a d T r L s xd name sv s' : represents a d T r L s xd → found_file T r L s d name sv s' →
  ∃ ino, a_names a !! name = Some ino ∧ holds (reopen ino a) d s' ∧ sv_ino <$> sv_at s' !! sv = Some ino.
Proof.
  intros Hrep (slot & ino & i & x & xd' & He & Hi & Ex & Hg & Hr'). pose proof Hrep as [R1 R2 R3 R4].
  destruct (entry_object _ _ _ _ _ _ _ (hr_inv _ _ _ _ _ _ R1) He) as (_ & _ & Hne & _). pose proof (vg_ino _ _ _ _ _ _ Hg) as Ei.
  assert (kept T (λ _, False) (λ v, v = d ∨ v = sv) s s') as Hk.
  { eapply kept_weaken; [eapply got_kept; [apply (hr_inv _ _ _ _ _ _ R1)|exact Hg|done]|done|by auto]. }
  assert (∀ y, sv_at s !! sv = Some y → sv_ino y = ino) as Hsv0.
  { intros y Hy. destruct (vg_before _ _ _ _ _ _ Hg) as [(x0 & Hx0 & ->)|[E _]]; [simpl in Ei|]; congruence. }
  exists ino. split_and!; [apply R2; by exists slot| |rewrite (vg_sv _ _ _ _ _ _ Hg); simpl; by f_equal]. eexists _, _, _, _. split; [exact Hr'|..].
  - intros n k. setoid_rewrite (entry_device s s'); [apply R2|apply Hg].
  - intros k. simpl. rewrite R3. case_decide; [done|]. destruct (T !! k) as [j|] eqn:Hj; [|done]. simpl. f_equal. symmetry.
    rewrite <- (links_same j) at 1. eapply contents_kept; [exact Hk|apply (hr_inv _ _ _ _ _ _ R1)|done|by intros []].
  - intros k n. simpl. destruct (decide (k = ino)) as [->|Hk1].
    + rewrite lookup_insert_eq, (open_unique Hr' (vg_sv _ _ _ _ _ _ Hg)) by done. assert (default 0 (a_open a !! ino) + 1 = vn_refcount x) as ->; [|naive_solver].
      destruct (vg_before _ _ _ _ _ _ Hg) as [(x0 & Hx0 & ->)|(E & Hnl & -> & _)].
      * assert (a_open a !! ino = Some (vn_refcount x0)) as ->; [|done]. apply R4. split; [done|]. exists sv, x0. auto.
      * destruct (a_open a !! ino) eqn:Ea; [|done]. destruct Hnl. apply R4 in Ea as (_ & v & y & Hy & Ey & _). by exists v, y.
    + rewrite lookup_insert_ne by done. rewrite R4. destruct (decide (k = SFS_ROOT_LOCATION)) as [->|Hk2]; [naive_solver|].
      rewrite (open_others R1 Hr' Hk (ino := ino)); [done|done| |done|done]. intros y. rewrite (vg_sv _ _ _ _ _ _ Hg). congruence.
Qed.

(** The names, the files and their vnodes are as before. *)
Lemma same_holds a d T r L s xd L' s' : represents a d T r L s xd → names_same T r L' s d s' → holds a d s'.
Proof.
  intros Hrep (r' & xd' & Hr' & He & Hk). pose proof Hrep as [R1 R2 R3 R4]. eexists _, _, _, _. split; [exact Hr'|..].
  - intros n k. setoid_rewrite He. apply R2.
  - intros k. rewrite R3. case_decide; [done|]. rewrite lookup_insert_ne by done. destruct (T !! k) as [j|] eqn:Hj; [|done]. simpl. f_equal. symmetry.
    rewrite <- (links_same j) at 1. by eapply contents_kept; [exact Hk|apply (hr_inv _ _ _ _ _ _ R1)|..].
  - intros k n. rewrite R4. destruct (decide (k = SFS_ROOT_LOCATION)) as [->|Hk2]; [naive_solver|].
    assert (kept T (λ k, k = SFS_ROOT_LOCATION) (λ v, v = d ∨ v = d) s s') as Hk' by (by eapply kept_weaken; [exact Hk|auto|auto]).
    rewrite (open_others R1 Hr' Hk' (ino := SFS_ROOT_LOCATION)); [done|..|done|done].
    + intros y. rewrite (hr_sv _ _ _ _ _ _ R1). intros [= <-]. apply R1.
    + intros y. rewrite (hr_sv _ _ _ _ _ _ Hr'). intros [= <-]. apply Hr'.
Qed.

(** ** sfs_link *)

Lemma linked_holds a d T r L s xd name sv x s' : represents a d T r L s xd → sv_at s !! sv = Some x → sv_ino x ≠ SFS_ROOT_LOCATION →
  linked_file T r L s d name sv x s' → a_names a !! name = None ∧ holds (set_names <[name := sv_ino x]> a) d s'.
Proof.
  intros Hrep Hx Hne (slot & r' & xd' & Hnone & Hem & [L1 L2 L3 L4]). pose proof Hrep as [R1 R2 R3 R4].
  pose proof (vo_inode _ _ _ (mc_vnodes _ _ (sc_mem _ _ _ (si_core _ _ _ _ (hr_inv _ _ _ _ _ _ R1))) _ _ Hx)) as Hi. split.
  - destruct (a_names a !! name) eqn:E; [|done]. apply R2 in E as [sl E]. by apply Hnone in E.
  - eexists _, _, _, _. split; [exact L1|..].
    + by eapply names_added.
    + intros k. simpl. rewrite R3. case_decide; [done|]. destruct (decide (k = sv_ino x)) as [->|Hk].
      * rewrite lookup_insert_eq, Hi. simpl. f_equal. symmetry. by eapply contents_kept; [exact L3|apply (hr_inv _ _ _ _ _ _ R1)|..].
      * rewrite !lookup_insert_ne by done. destruct (T !! k) as [j|] eqn:Hj; [|done]. simpl. f_equal. symmetry.
        rewrite <- (links_same j) at 1. by eapply contents_kept; [exact L3|apply (hr_inv _ _ _ _ _ _ R1)|..].
    + intros k n. simpl. rewrite R4. destruct (decide (k = SFS_ROOT_LOCATION)) as [->|Hk2]; [naive_solver|]. destruct (decide (k = sv_ino x)) as [->|Hk].
      * by rewrite (open_unique R1 Hx), (open_unique L1 L4).
      * rewrite (open_others R1 L1 L3 (ino := sv_ino x)); [done| | |done|done]; intros y; [|rewrite L4; by intros [= <-]]. congruence.
Qed.

(** ** sfs_remove, sfs_rename *)

Lemma given_open T T' r' L s d xd f ino m xd' s' k n : given_back T T' r' L s d f ino m xd' s' → sv_at s !! d = Some xd → sv_ino xd = SFS_ROOT_LOCATION →
  sv_at s' !! d = Some xd' → sv_ino xd' = SFS_ROOT_LOCATION → k ≠ SFS_ROOT_LOCATION →
  (∃ v x, sv_at s' !! v = Some x ∧ sv_ino x = k ∧ vn_refcount x = n) ↔ (∃ v x, sv_at s !! v = Some x ∧ sv_ino x = k ∧ vn_refcount x = n).
Proof.
  intros [_ _ _ Hk Hv] Hd Id Hd' Id' Hkr.
  assert (∀ v, v ≠ d → sv_at s' !! v = sv_at s !! v ∨ ∃ y, sv_at s !! v = Some y ∧ sv_ino y = ino ∧ sv_at s' !! v = Some (linked_vnode m y)) as Hcase.
  { intros v Hvd. destruct (sv_at s !! v) as [y|] eqn:Hy.
    - destruct (decide (sv_ino y = ino)) as [E|E]; [right; exists y; auto|]. left. rewrite <- Hy. apply (kp_vnodes _ _ _ _ _ Hk). naive_solver.
    - left. rewrite <- Hy. apply (kp_vnodes _ _ _ _ _ Hk). naive_solver. }
  split; intros (v & x & Hx & E & En); (destruct (Hcase v) as [Hs|(y & Hy & Ey & Hy')]; [congruence|exists v, x; by rewrite <- Hs || rewrite Hs|]).
  - exists v, y. rewrite Hx in Hy'. injection Hy' as ->. auto.
  - rewrite Hx in Hy. injection Hy as ->. eexists v, _. split; [exact Hy'|]. auto.
Qed.

Lemma named_dec a ino : (∃ name, a_names a !! name = Some ino) ∨ (∀ name, a_names a !! name ≠ Some ino).
Proof.
  destruct (decide (map_Exists (λ _ k, k = ino) (a_names a))) as [(name & k & H1 & ->)|H]; [left; by exists name|right].
  intros name Hn. apply H. by exists name, ino.
Qed.

Lemma given_holds a d T r L s xd T' r' f ino m i xd' s' names' : represents a d T r L s xd → T !! ino = Some i → ino ≠ SFS_ROOT_LOCATION →
  given_back T T' r' L s d f ino m xd' s' → (∀ k, k ≠ SFS_ROOT_LOCATION → k ≠ ino → T' !! k = T !! k) → T' !! ino = Some (set_linkcount m i) →
  (∀ n k, names' !! n = Some k ↔ ∃ sl, f sl = Some (n, k)) →
  ∃ a', collected ino (set_names (λ _, names') a) a' ∧ holds a' d s'.
Proof.
  intros Hrep Hi Hne Hg HT HTi Hnames. pose proof Hrep as [R1 R2 R3 R4]. pose proof Hg as [G1 G2 G3 G4 G5].
  assert (∀ k, k ≠ SFS_ROOT_LOCATION → k ≠ ino ∨ m ≠ 0 ∨ is_loaded s ino → a_files a !! k = contents s' <$> (T' !! k)) as Hfiles.
  { intros k Hk0 Hk1. rewrite R3, decide_False by done. destruct (decide (k = ino)) as [->|Hk2].
    - rewrite Hi, HTi. simpl. f_equal. symmetry. eapply contents_kept; [exact G4|apply (hr_inv _ _ _ _ _ _ R1)|done|]. naive_solver.
    - rewrite HT by done. destruct (T !! k) as [j|] eqn:Hj; [|done]. simpl. f_equal. symmetry. rewrite <- (links_same j) at 1.
      eapply contents_kept; [exact G4|apply (hr_inv _ _ _ _ _ _ R1)|done|]. naive_solver. }
  assert (∀ T2 xr, has_root T2 xr L s' d xd' → ∀ k n, a_open a !! k = Some n ↔ k ≠ SFS_ROOT_LOCATION ∧ ∃ v x, sv_at s' !! v = Some x ∧ sv_ino x = k ∧ vn_refcount x = n) as Hopen.
  { intros T2 xr Hr' k n. rewrite R4. destruct (decide (k = SFS_ROOT_LOCATION)) as [->|Hk2]; [naive_solver|].
    rewrite (given_open _ _ _ _ _ _ xd _ _ _ _ _ k n Hg); try done; try apply R1; apply Hr'. }
  assert (is_Some (a_open a !! ino) ↔ is_loaded s ino) as Hld by (by eapply open_loaded).
  destruct (decide (is_Some (a_open a !! ino))) as [Hop|Hnop].
  - exists (set_names (λ _, names') a). split; [left; split; [by right|done]|]. specialize (G2 (or_intror (proj1 Hld Hop))). eexists _, _, _, _. split; [exact G2|..].
    + intros n k. setoid_rewrite G3. apply Hnames.
    + intros k. simpl. case_decide as Hk; [subst; by rewrite R3|]. apply Hfiles; [done|]. right. right. by apply Hld.
    + by eapply Hopen.
  - rewrite Hld in Hnop. destruct (decide (m = 0)) as [->|Hm].
    + specialize (G1 eq_refl Hnop). exists (set_files (delete ino) (set_names (λ _, names') a)). split.
      * right. split; [|done]. intros [[name Hn]|Hop]; [|by apply Hnop, Hld]. simpl in Hn. apply Hnames in Hn as [sl Hsl]. rewrite <- G3 in Hsl.
        destruct (st_entries _ _ _ (si_tree _ _ _ _ (hr_inv _ _ _ _ _ _ G1)) _ _ _ Hsl) as [_ [j Hj]]. by rewrite lookup_delete_eq in Hj.
      * eexists _, _, _, _. split; [exact G1|..].
        -- intros n k. setoid_rewrite G3. apply Hnames.
        -- intros k. simpl. destruct (decide (k = ino)) as [->|Hk2]; [by rewrite decide_False, !lookup_delete_eq|]. rewrite !lookup_delete_ne by done.
           case_decide as Hk; [subst; by rewrite R3|]. apply Hfiles; auto.
        -- by eapply Hopen.
    + specialize (G2 (or_introl Hm)). exists (set_names (λ _, names') a). split.
      * left. split; [|done]. left. destruct (named_dec (set_names (λ _, names') a) ino) as [?|Hno]; [done|]. exfalso. apply Hm.
        assert (sfi_linkcount (set_linkcount m i) = 0) as E; [|done]. apply (named_links _ _ _ _ _ _ (hr_inv _ _ _ _ _ _ G2) HTi Hne). intros sl nm. rewrite G3.
        intros Hf. apply (Hno nm), Hnames. by exists sl.
      * eexists _, _, _, _. split; [exact G2|..].
        -- intros n k. setoid_rewrite G3. apply Hnames.
        -- intros k. simpl. case_decide as Hk; [subst; by rewrite R3|]. apply Hfiles; auto.
        -- by eapply Hopen.
Qed.

Lemma removed_holds a d T r L s xd name s' : represents a d T r L s xd → removed_file T r L s d name s' →
  ∃ ino a', a_names a !! name = Some ino ∧ collected ino (set_names (delete name) a) a' ∧ holds a' d s'.
Proof.
  intros Hrep (slot & ino & i & r' & xd' & He & Hi & Hg). pose proof Hrep as [R1 R2 R3 R4].
  destruct (entry_object _ _ _ _ _ _ _ (hr_inv _ _ _ _ _ _ R1) He) as (_ & _ & Hne & _).
  destruct (given_holds a d T r L s xd _ r' _ ino (sfi_linkcount i - 1) i xd' s' (delete name (a_names a)) Hrep Hi Hne Hg) as (a' & Hc & Hh).
  - intros k. by apply removed_objects.
  - apply lookup_insert_eq.
  - eapply (names_removed s r _ (a_names a) slot name ino); [apply (st_dir _ _ _ (si_tree _ _ _ _ (hr_inv _ _ _ _ _ _ R1)))|exact R2|exact He|done].
  - exists ino, a'. split_and!; [apply R2; by exists slot|exact Hc|exact Hh].
Qed.

Lemma renamed_holds a d T r L s xd n1 n2 s' : represents a d T r L s xd → renamed_file T r L s d n1 n2 s' →
  ∃ ino, a_names a !! n1 = Some ino ∧ a_names a !! n2 = None ∧ holds (set_names (λ m, <[n2 := ino]> (delete n1 m)) a) d s'.
Proof.
  intros Hrep (slot1 & slot2 & ino & i & r' & xd' & He & Hnone & Hem & Hi & Hg). pose proof Hrep as [R1 R2 R3 R4].
  destruct (entry_object _ _ _ _ _ _ _ (hr_inv _ _ _ _ _ _ R1) He) as (_ & _ & Hne & _).
  assert (∀ n k, <[n2 := ino]> (delete n1 (a_names a)) !! n = Some k ↔ ∃ sl, rename_entries s r slot1 slot2 n2 ino sl = Some (n, k)) as Hnames.
  { intros n k. rewrite lookup_insert_Some, lookup_delete_Some, R2. unfold rename_entries. split.
    - intros [[<- <-]|(Hn2 & Hn1 & sl & Hsl)]; [exists slot2; rewrite decide_False, decide_True by congruence; done|].
      exists sl. rewrite !decide_False; [done|congruence|congruence].
    - intros [sl Hsl]. repeat case_decide; [done|left; naive_solver|]. right. split_and!; [intros <-; by apply (Hnone sl k)| |by exists sl].
      intros <-. by apply (do_names _ _ (st_dir _ _ _ (si_tree _ _ _ _ (hr_inv _ _ _ _ _ _ R1))) sl slot1 n1 k ino) in Hsl. }
  destruct (given_holds a d T r L s xd _ r' _ ino (sfi_linkcount i) i xd' s' (<[n2 := ino]> (delete n1 (a_names a))) Hrep Hi Hne Hg) as (a' & [[_ ->]|[Hnu _]] & Hh).
  - intros k Hk _. by rewrite lookup_insert_ne.
  - rewrite lookup_insert_ne by done. by rewrite links_same.
  - exact Hnames.
  - exists ino. split_and!; [apply R2; by exists slot1| |exact Hh]. destruct (a_names a !! n2) eqn:E; [|done]. apply R2 in E as [sl E]. by apply Hnone in E.
  - destruct Hnu. left. exists n2. simpl. apply lookup_insert_eq.
Qed.

(** ** Closing *)

Lemma closed_open a T r L s sv y s' k n : stores a T r L s → sv_at s !! sv = Some y → sv_ino y ≠ SFS_ROOT_LOCATION → file_decref T r L s sv y s' →
  a_open (reclose (sv_ino y) a) !! k = Some n ↔ k ≠ SFS_ROOT_LOCATION ∧ ∃ v x, sv_at s' !! v = Some x ∧ sv_ino x = k ∧ vn_refcount x = n.
Proof.
  intros [R1 R2 R3 R4] Hy Hne [D1 D2 D3 D4].
  assert (a_open a !! sv_ino y = Some (vn_refcount y)) as Ho by (apply R4; split; [done|by exists sv, y]).
  unfold reclose. simpl. rewrite Ho. simpl. unfold decref_vnode in D4. destruct (decide (k = sv_ino y)) as [->|Hk1].
  - destruct (Z.leb_spec (vn_refcount y) 1), (Z.ltb_spec 1 (vn_refcount y)); try lia.
    + rewrite lookup_delete_eq. split; [done|]. intros (_ & v & x & Hx & E & _). assert (v ≠ sv) as Hv by congruence.
      rewrite (kp_vnodes _ _ _ _ _ D3) in Hx by done. destruct Hv. by apply (mc_inj _ _ (sc_mem _ _ _ (si_core _ _ _ _ R1)) v sv x y).
    + rewrite lookup_insert_eq, (open_only D1 D4) by done. simpl. naive_solver.
  - assert ((if vn_refcount y <=? 1 then delete (sv_ino y) (a_open a) else <[sv_ino y := vn_refcount y - 1]> (a_open a)) !! k = a_open a !! k) as ->.
    { destruct (vn_refcount y <=? 1); [by rewrite lookup_delete_ne|by rewrite lookup_insert_ne]. }
    rewrite R4. rewrite (open_kept D3 (ino := sv_ino y)); [done|congruence| |done]. rewrite D4. intros x. by case_match; intros [= <-].
Qed.

Lemma closed_stores a T r L s sv y s' : stores a T r L s → sv_at s !! sv = Some y → sv_ino y ≠ SFS_ROOT_LOCATION →
  file_decref T r L s sv y s' → ∃ a', collected (sv_ino y) (reclose (sv_ino y) a) a' ∧ stores a' (after_decref T y) r L s'.
Proof.
  intros Hrep Hy Hne Hrd. assert (∀ k n, _) as Hopen by (intros k n; exact (closed_open a T r L s sv y s' k n Hrep Hy Hne Hrd)).
  destruct Hrd as [D1 D2 D3 D4]. destruct Hrep as [R1 R2 R3 R4].
  pose proof (vo_inode _ _ _ (mc_vnodes _ _ (sc_mem _ _ _ (si_core _ _ _ _ R1)) _ _ Hy)) as Hi.
  assert (a_open a !! sv_ino y = Some (vn_refcount y)) as Ho by (apply R4; split; [done|by exists sv, y]).
  assert (∀ n k, a_names a !! n = Some k ↔ ∃ sl, entry s' r sl = Some (n, k)) as Hnames by (intros n k; setoid_rewrite D2; apply R2).
  assert (∀ k, k ≠ SFS_ROOT_LOCATION → k ≠ sv_ino y ∨ ¬ dropped y → a_files a !! k = contents s' <$> (T !! k)) as Hfiles.
  { intros k Hk Hk1. rewrite R3, decide_False by done. destruct (T !! k) as [j|] eqn:Hj; [|done]. simpl. f_equal. symmetry. rewrite <- (links_same j) at 1.
    eapply contents_kept; [exact D3|apply R1|done|]. naive_solver. }
  assert (sfi_linkcount (sv_i y) = 0 ↔ ∀ name, a_names a !! name ≠ Some (sv_ino y)) as Hnamed.
  { rewrite (named_links _ _ _ _ _ _ R1 Hi Hne). split; [intros H name [sl Hsl]%R2; by apply (H sl name)|].
    intros H sl name Hsl. apply (H name), R2. by exists sl. }
  destruct (after_decref_eq T y) as [[Hd E]|[Hd E]]; rewrite E in D1 |- *.
  - exists (set_files (delete (sv_ino y)) (reclose (sv_ino y) a)). split.
    + right. split; [|done]. intros [[name Hn]|[n Hn]]; [by apply (proj1 Hnamed (proj2 Hd) name)|]. simpl in Hn. rewrite Ho in Hn. simpl in Hn.
      destruct Hd as [Hd _]. rewrite (proj2 (Z.leb_le _ _) Hd), lookup_delete_eq in Hn. done.
    + split; [exact D1|exact Hnames| |exact Hopen]. intros k. simpl. destruct (decide (k = sv_ino y)) as [->|Hk1]; [by rewrite decide_False, !lookup_delete_eq|].
      rewrite !lookup_delete_ne by done. case_decide as Hk; [subst; by rewrite R3|]. apply Hfiles; auto.
  - exists (reclose (sv_ino y) a). split.
    + left. split; [|done]. destruct (decide (vn_refcount y ≤ 1)) as [H1|H1].
      * left. destruct (named_dec a (sv_ino y)) as [?|Hno]; [done|]. destruct Hd. split; [done|]. by apply Hnamed.
      * right. simpl. rewrite Ho. simpl. rewrite (proj2 (Z.leb_gt _ _)) by lia. rewrite lookup_insert_eq. by eexists.
    + split; [exact D1|exact Hnames| |exact Hopen]. intros k. simpl. case_decide as Hk; [subst; by rewrite R3|]. apply Hfiles; auto.
Qed.

Lemma closed_holds a d T r L s xd sv y s' : represents a d T r L s xd → sv_at s !! sv = Some y → sv_ino y ≠ SFS_ROOT_LOCATION →
  root_decref T r L s d xd sv y s' → ∃ a', collected (sv_ino y) (reclose (sv_ino y) a) a' ∧ holds a' d s'.
Proof.
  intros [Hst _]%represents_stores Hy Hne [D1 D2 D3 D4].
  destruct (closed_stores a T r L s sv y s' Hst Hy Hne) as (a' & Hc & Hst'); [split; [apply D1|done..]|].
  exists a'. split; [done|]. eexists _, _, _, _. apply represents_stores. split; [exact Hst'|]. split; apply D1.
Qed.

(** ** Reading, writing and truncating *)

Definition splice (off : Z) (data c : list Z) : list Z := take (Z.to_nat off) c ++ data ++ drop (Z.to_nat off + length data) c.

Lemma splice_length off data c : 0 ≤ off ≤ lengthZ c → lengthZ (splice off data c) = Z.max (off + lengthZ data) (lengthZ c).
Proof. unfold splice, lengthZ. intros H. rewrite !length_app, length_take, length_drop. lia. Qed.

Lemma splice_lookup off data c p : 0 ≤ off ≤ lengthZ c → 0 ≤ p →
  (splice off data c).[p] = if decide (off ≤ p < off + lengthZ data) then data.[p - off] else c.[p].
Proof.
  unfold splice, lengthZ. intros Ho Hp. rewrite (lookupZ_nat c), lookupZ_nat by lia. destruct (decide (p < off)).
  - rewrite decide_False by lia. rewrite lookup_app_l by (rewrite length_take; lia). by rewrite lookup_take_lt by lia.
  - rewrite lookup_app_r by (rewrite length_take; lia). rewrite length_take. case_decide.
    + rewrite lookup_app_l by lia. rewrite lookupZ_nat by lia. f_equal. lia.
    + rewrite lookup_app_r by lia. rewrite lookup_drop. f_equal. lia.
Qed.

(** A write that does not start past the end of the file. *)
Lemma written_contents sv x s u n x' s' u' : written sv x s u n n x' s' u' → stream_ok u → st_rw u = UIO_WRITE → inode_wf (sv_i x) →
  st_offset u ≤ sfi_size (sv_i x) → st_offset u ≤ FILEMAX →
  contents s' (sv_i x') = splice (st_offset u) (take (Z.to_nat n) (st_data u)) (contents s (sv_i x)).
Proof.
  intros [[W0 W1] W2 _ W4 W5 _] [U1 U2 U3 U4] Hrw Hwf Ho Hm. destruct (U4 Hrw) as [Hlen _]. pose proof (iw_size _ Hwf) as Hsz. unfold is_word in Hsz.
  assert (lengthZ (take (Z.to_nat n) (st_data u)) = n) as Hn by (unfold lengthZ in *; rewrite length_take; lia).
  assert (sfi_size (sv_i x') = Z.max (sfi_size (sv_i x)) (st_offset u + n)) as Es.
  { rewrite W4. destruct (Z.ltb_spec (sfi_size (sv_i x)) (st_offset u + n)); [|lia]. unfold u32. rewrite Z.mod_small; [lia|]. unfold FILEMAX, NFILE, SFS_BLOCKSIZE in *. lia. }
  assert (lengthZ (contents s (sv_i x)) = Z.min (sfi_size (sv_i x)) FILEMAX) as Hc by (apply contents_length; lia).
  apply listZ_eq.
  - rewrite splice_length, Hn, Hc, contents_length, Es by lia. unfold FILEMAX, NFILE, SFS_BLOCKSIZE in *. lia.
  - rewrite contents_length by lia. intros p Hp. rewrite contents_lookup, splice_lookup, Hn by lia. rewrite W5 by lia. case_decide as Hr.
    + rewrite lookupZ_take_lt by lia. destruct (lookupZ_lt (st_data u) (p - st_offset u)) as [b ->]; [lia|done].
    + rewrite contents_lookup by (rewrite Es in Hp; lia). done.
Qed.

(** A truncation that does not lengthen the file. *)
Lemma truncated_contents sv x s len x' s' : truncated_to sv x s len x' s' → inode_wf (sv_i x) → 0 ≤ len ≤ sfi_size (sv_i x) →
  contents s' (sv_i x') = take (Z.to_nat len) (contents s (sv_i x)).
Proof.
  intros [_ T2 _ T4 _] Hwf Hl. pose proof (iw_size _ Hwf) as Hsz. unfold is_word in Hsz.
  assert (sfi_size (sv_i x') = len) as Es by (rewrite T2; unfold u32; apply Z.mod_small; lia).
  assert (lengthZ (contents s (sv_i x)) = Z.min (sfi_size (sv_i x)) FILEMAX) as Hc by (apply contents_length; lia).
  apply listZ_eq.
  - rewrite contents_length, Es by lia. unfold lengthZ in *. rewrite length_take. lia.
  - rewrite contents_length by lia. intros p Hp. rewrite lookupZ_take_lt, !contents_lookup by lia. f_equal. unfold fbyte. rewrite T4.
    + assert (p / SFS_BLOCKSIZE < u32 ((len + 511) / 512)) as Hb.
      { unfold u32, SFS_BLOCKSIZE. assert (len ≤ ((len + 511) / 512) * 512) by (pose proof (Z.div_mod (len + 511) 512 ltac:(lia)); pose proof (Z.mod_pos_bound (len + 511) 512 ltac:(lia)); lia).
        rewrite Z.mod_small; [apply Z.div_lt_upper_bound; lia|]. split; [apply Z.div_pos; lia|apply Z.div_lt_upper_bound; lia]. }
      unfold keeps, past_end. destruct (Z.ltb_spec (p / SFS_BLOCKSIZE) SFS_NDIRECT); [by rewrite (proj2 (Z.ltb_lt _ _) Hb)|].
      rewrite (proj2 (Z.ltb_ge (u32 ((len + 511) / 512)) (p / SFS_BLOCKSIZE))) by lia. by rewrite andb_false_r.
    + unfold FILEMAX, SFS_BLOCKSIZE in *. split; [apply Z.div_pos; lia|apply Z.div_lt_upper_bound; lia].
Qed.

Lemma read_contents s i u : 0 ≤ sfi_size i ≤ FILEMAX → stream_ok u →
  fbytes s i (st_offset u) (available i u) = take (Z.to_nat (st_resid u)) (drop (Z.to_nat (st_offset u)) (contents s i)).
Proof.
  intros Hs [U1 U2 U3 _]. assert (lengthZ (contents s i) = sfi_size i) as Hc by (rewrite contents_length by lia; lia). unfold available.
  destruct (Z.leb_spec (sfi_size i) (st_offset u)).
  - rewrite drop_ge by (unfold lengthZ in Hc; lia). rewrite take_nil. unfold fbytes. done.
  - apply listZ_eq; [rewrite fbytes_length by lia; unfold lengthZ in *; rewrite length_take, length_drop; lia|]. rewrite fbytes_length by lia. intros p Hp.
    rewrite fbytes_lookup, lookupZ_take_lt, lookupZ_drop, contents_lookup by lia. done.
Qed.

(** A step on a file changes its bytes only. *)
Lemma step_stores a T r L s sv x x' s' : stores a T r L s → sv_at s !! sv = Some x → sv_ino x ≠ SFS_ROOT_LOCATION → file_step sv x x' s s' →
  stores (set_files <[sv_ino x := contents s' (sv_i x')]> a) (<[sv_ino x := sv_i x']> T) r L s'.
Proof.
  intros [R1 R2 R3 R4] Hx Hne Hs. destruct (inv_file_step _ _ _ _ _ _ _ _ R1 Hx Hne Hs) as (R1' & He & Hk & Hx' & Hv).
  destruct Hv as (_ & V2 & _ & V4 & _). split; [exact R1'|..].
  - intros n k. setoid_rewrite He. apply R2.
  - intros k. simpl. destruct (decide (k = sv_ino x)) as [->|Hk1]; [by rewrite decide_False, !lookup_insert_eq|]. rewrite !lookup_insert_ne by done.
    rewrite R3. case_decide; [done|]. destruct (T !! k) as [j|] eqn:Hj; [|done]. simpl. f_equal. symmetry. rewrite <- (links_same j) at 1.
    by eapply contents_kept; [exact Hk|apply R1|..].
  - intros k n. simpl. rewrite R4. destruct (decide (k = sv_ino x)) as [->|Hk1].
    + by rewrite (open_only R1 Hx), (open_only R1' Hx'), V2.
    + rewrite (open_kept Hk (ino := sv_ino x)); [done| | |done]; intros y; [congruence|rewrite Hx'; by intros [= <-]].
Qed.

Lemma step_holds a d T r L s xd sv x x' s' : represents a d T r L s xd → sv_at s !! sv = Some x → sv_ino x ≠ SFS_ROOT_LOCATION → file_step sv x x' s s' →
  holds (set_files <[sv_ino x := contents s' (sv_i x')]> a) d s'.
Proof.
  intros Hrep Hx Hne Hs. destruct (root_file_step _ _ _ _ _ _ _ _ _ _ (re_root _ _ _ _ _ _ _ Hrep) Hx Hne Hs) as (Hr' & _).
  apply represents_stores in Hrep as [Hst _]. eexists _, _, _, _. apply represents_stores. split; [by eapply step_stores|]. split; apply Hr'.
Qed.

(** The objects and the vnodes of files are as they were. *)
Lemma stores_same a T r L s s' : stores a T r L s → sfs_core T L s' → sfs_sb s' = sfs_sb s →
  (∀ ino i b, T !! ino = Some i → owns_block s i b → marked s' b ∧ sect s' b = sect s b) →
  (∀ k n, k ≠ SFS_ROOT_LOCATION → (∃ v x, sv_at s' !! v = Some x ∧ sv_ino x = k ∧ vn_refcount x = n) ↔ (∃ v x, sv_at s !! v = Some x ∧ sv_ino x = k ∧ vn_refcount x = n)) →
  stores a T r L s'.
Proof.
  intros [[Hc Ht] R2 R3 R4] Hc' Hsb Hb Ho. pose proof Ht as [Y1 Y2 Y3 Y4 Y5 Y6 Y7].
  assert (∀ slot, entry s' r slot = entry s r slot) as He.
  { intros slot. apply frame_entry; [intros b Hb'; by apply (Hb SFS_ROOT_LOCATION r)|apply (do_max _ _ Y2)]. }
  split.
  - split; [done|]. split; [done|by eapply dir_ok_same|done|done|..].
    + intros slot name k. rewrite He. apply Y5.
    + intros ino i Hi Hne. rewrite (links_pointwise (entry s r) (entry s' r)) by done. by apply Y6.
    + intros ino i Hi H0. destruct (Y7 ino i Hi H0) as (v & x & Hx & E). assert (ino ≠ SFS_ROOT_LOCATION) as Hne by congruence.
      destruct (proj2 (Ho ino (vn_refcount x) Hne)) as (v' & x' & Hx' & E' & _); [by exists v, x|by exists v', x'].
  - intros n k. setoid_rewrite He. apply R2.
  - intros k. rewrite R3. case_decide; [done|]. destruct (T !! k) as [j|] eqn:Hj; [|done]. simpl. f_equal. symmetry. apply contents_same; [done|].
    intros p Hp. apply frame_byte; [|done]. intros b Hb'. by apply (Hb k j).
  - intros k n. rewrite R4. destruct (decide (k = SFS_ROOT_LOCATION)) as [->|Hk]; [naive_solver|]. by rewrite (Ho k n Hk).
Qed.

Lemma synced_stores a T r L s s' : stores a T r L s → synced T r L s s' → stores a T r L s'.
Proof.
  intros [R1 R2 R3 R4] [Y1 Y2 Y3 Y4 Y5 Y6]. split.
  - done.
  - intros n k. setoid_rewrite Y5. apply R2.
  - intros k. rewrite R3. case_decide; [done|]. destruct (T !! k) as [j|] eqn:Hj; [|done]. simpl. f_equal. symmetry. rewrite <- (links_same j) at 1.
    eapply contents_kept; [exact Y3|apply R1|done|by intros []].
  - intros k n. rewrite R4. split; intros [Hk (v & x & Hx & E & En)]; (split; [done|]).
    + exists v, (set_dirty false x). split; [by apply Y4|done].
    + assert (v ∈ sfs_vnodes s) as Hv by (rewrite <- Y6; apply (mc_dom _ _ (sc_mem _ _ _ (si_core _ _ _ _ Y1))); by eexists).
      apply (mc_dom _ _ (sc_mem _ _ _ (si_core _ _ _ _ R1))) in Hv as [y Hy]. rewrite (Y4 _ _ Hy) in Hx. injection Hx as <-. by exists v, y.
Qed.

Lemma synced_represents a d T r L s xd s' : represents a d T r L s xd → synced T r L s s' → ∃ xd', represents a d T r L s' xd'.
Proof.
  intros [Hst [Hx Hi]]%represents_stores Hs. exists (set_dirty false xd). apply represents_stores. split; [by eapply synced_stores|]. split; [|done]. by apply Hs.
Qed.

(** ** Operations *)

Inductive fs_op :=
  | Creat (name : list Z) (excl : bool)
  | Lookup (name : list Z)
  | Link (name : list Z) (sv : Z)
  | Remove (name : list Z)
  | Rename (n1 n2 : list Z)
  | Close (sv : Z)
  | Write (sv off : Z) (data : list Z)
  | Truncate (sv len : Z)
  | Sync.

(** The operation, on the file system whose root directory has vnode [d]. *)
Definition run (d : Z) (op : fs_op) : SM unit :=
  match op with
  | Creat name excl => sfs_creat d name excl ;; ret tt
  | Lookup name => sfs_lookup d name ;; ret tt
  | Link name sv => sfs_link d name sv
  | Remove name => sfs_remove d name
  | Rename n1 n2 => sfs_rename d n1 d n2
  | Close sv => vnode_decref sv
  | Write sv off data => with_uio (stream_kinit data (lengthZ data) off UIO_WRITE) (sfs_write sv) ;; ret tt
  | Truncate sv len => sfs_truncate sv len
  | Sync => sfs_sync
  end.

(** The file a vnode stands for. *)
Definition file_of (s : sfs) (sv : Z) : option Z := sv_ino <$> sv_at s !! sv.

(** What the operations are to do. *)
Inductive afs_step (file : Z → option Z) : fs_op → afs → afs → Prop :=
  | creat_opens name a ino :
      a_names a !! name = Some ino → afs_step file (Creat name false) a (reopen ino a)
  | creat_makes name excl a ino :
      a_names a !! name = None → a_files a !! ino = None →
      afs_step file (Creat name excl) a (mkAfs (<[name := ino]> (a_names a)) (<[ino := []]> (a_files a)) (<[ino := 1]> (a_open a)))
  | lookup_opens name a ino :
      a_names a !! name = Some ino → afs_step file (Lookup name) a (reopen ino a)
  | link_names name sv a ino :
      file sv = Some ino → a_names a !! name = None → afs_step file (Link name sv) a (set_names <[name := ino]> a)
  | remove_unnames name a ino a' :
      a_names a !! name = Some ino → collected ino (set_names (delete name) a) a' → afs_step file (Remove name) a a'
  | rename_renames n1 n2 a ino :
      a_names a !! n1 = Some ino → a_names a !! n2 = None →
      afs_step file (Rename n1 n2) a (set_names (λ m, <[n2 := ino]> (delete n1 m)) a)
  | close_closes sv a ino a' :
      file sv = Some ino → collected ino (reclose ino a) a' → afs_step file (Close sv) a a'
  | write_writes sv off data a ino c :
      file sv = Some ino → a_files a !! ino = Some c → afs_step file (Write sv off data) a (set_files <[ino := splice off data c]> a)
  | truncate_cuts sv len a ino c :
      file sv = Some ino → a_files a !! ino = Some c → afs_step file (Truncate sv len) a (set_files <[ino := take (Z.to_nat len) c]> a)
  | sync_nothing a : afs_step file Sync a a.

(** When they may fail: names that are missing, taken or too long, or want of space;
    and what a failure may have done. *)
Inductive op_error (a : afs) : fs_op → Z → Prop :=
  | creat_exists name : is_Some (a_names a !! name) → op_error a (Creat name true) EEXIST
  | creat_long name excl : SFS_NAMELEN ≤ lengthZ name → op_error a (Creat name excl) ENAMETOOLONG
  | lookup_missing name : a_names a !! name = None → op_error a (Lookup name) ENOENT
  | link_exists name sv : is_Some (a_names a !! name) → op_error a (Link name sv) EEXIST
  | link_long name sv : SFS_NAMELEN ≤ lengthZ name → op_error a (Link name sv) ENAMETOOLONG
  | remove_missing name : a_names a !! name = None → op_error a (Remove name) ENOENT
  | rename_missing n1 n2 : a_names a !! n1 = None → op_error a (Rename n1 n2) ENOENT
  | rename_exists n1 n2 : is_Some (a_names a !! n2) → op_error a (Rename n1 n2) EEXIST
  | rename_long n1 n2 : SFS_NAMELEN ≤ lengthZ n2 → op_error a (Rename n1 n2) ENAMETOOLONG
  | no_space op e : e = ENOSPC ∨ e = EFBIG ∨ e = ENOMEM → op_error a op e.

Inductive afs_fails (file : Z → option Z) (a : afs) : fs_op → afs → Prop :=
  | fails_nothing op : afs_fails file a op a
  | write_partly sv off data ino c : file sv = Some ino → is_Some (a_files a !! ino) → afs_fails file a (Write sv off data) (set_files <[ino := c]> a).

(** What the operations rely on: names are C strings, vnodes are those of files, a
    write starts inside the file and a truncation does not lengthen it. *)
Definition op_ok (s : sfs) (op : fs_op) : Prop :=
  match op with
  | Creat name _ => name_ok name
  | Link name sv => name_ok name ∧ ∃ x, sv_at s !! sv = Some x ∧ sv_ino x ≠ SFS_ROOT_LOCATION
  | Rename _ n2 => name_ok n2
  | Close sv => ∃ x, sv_at s !! sv = Some x ∧ sv_ino x ≠ SFS_ROOT_LOCATION ∧ vn_opencount x < vn_refcount x
  | Write sv off data => (∃ x, sv_at s !! sv = Some x ∧ sv_ino x ≠ SFS_ROOT_LOCATION ∧ 0 ≤ off ≤ Z.min (sfi_size (sv_i x)) FILEMAX) ∧
      Forall is_byte data ∧ lengthZ data < 2 ^ 32
  | Truncate sv len => ∃ x, sv_at s !! sv = Some x ∧ sv_ino x ≠ SFS_ROOT_LOCATION ∧ 0 ≤ len ≤ sfi_size (sv_i x)
  | _ => True
  end.

(** ** Each operation refines *)

Definition refines (a : afs) (d : Z) (s : sfs) (op : fs_op) : Prop :=
  wp (run d op) (λ _ s', ∃ a', afs_step (file_of s) op a a' ∧ holds a' d s')
    (λ e s', op_error a op e ∧ ∃ a', afs_fails (file_of s) a op a' ∧ holds a' d s') s.

Section Refines.
Context (a : afs) (d : Z) (T : gmap Z sfs_inode) (r : sfs_inode) (L : Z → Prop) (s : sfs) (xd : sfs_vnode).
Context (Hrep : represents a d T r L s xd).
#[local] Notation Hroot := (re_root _ _ _ _ _ _ _ Hrep).

Lemma name_taken name : (∃ sl k, entry s r sl = Some (name, k)) → is_Some (a_names a !! name).
Proof. intros (sl & k & He). exists k. apply (re_names _ _ _ _ _ _ _ Hrep). by exists sl. Qed.

Lemma name_missing name : (∀ sl k, entry s r sl ≠ Some (name, k)) → a_names a !! name = None.
Proof. intros Hn. destruct (a_names a !! name) eqn:E; [|done]. apply (re_names _ _ _ _ _ _ _ Hrep) in E as [sl E]. by apply Hn in E. Qed.

Lemma lookup_failed_holds name e s' : lookup_failed r s name e s' → ((e = ENOENT ∧ a_names a !! name = None) ∨ e = ENOMEM) ∧ holds a d s'.
Proof.
  intros [Hs He]. split; [destruct He as [[-> Hn]| ->]; [left; split; [done|by apply name_missing]|by right]|].
  eapply same_holds; [exact Hrep|]. eapply names_same_fs; [apply Hroot|done].
Qed.

Lemma creat_refines name excl : name_ok name → refines a d s (Creat name excl).
Proof.
  intros Hn. unfold refines, run. wp_step. eapply wp_conseq; [apply (sfs_creat_spec False T r L s d xd name excl Hroot Hn)| |].
  - intros sv s' [[-> Hf]|Hm]; wp_step.
    + destruct (found_holds _ _ _ _ _ _ _ _ _ _ Hrep Hf) as (ino & H1 & H2 & _). eexists. split; [by apply creat_opens|done].
    + destruct (made_holds _ _ _ _ _ _ _ _ _ _ Hrep Hm) as (ino & H1 & H2 & H3 & _). eexists. split; [by apply (creat_makes _ name excl a ino)|done].
  - intros e s' (L' & Hs & He). split; [|exists a; split; [constructor|by eapply same_holds]].
    destruct He as [[_ [(-> & -> & Ht)|[[-> ?]|He]]]|[-> _]]; [apply creat_exists; by apply name_taken|by apply creat_long|apply no_space; tauto|apply no_space; tauto].
Qed.

Lemma lookup_refines name : refines a d s (Lookup name).
Proof.
  unfold refines, run. wp_step. eapply wp_conseq; [apply (sfs_lookup_spec False T r L s d xd name Hroot)| |].
  - intros sv s' Hf. wp_step. destruct (found_holds _ _ _ _ _ _ _ _ _ _ Hrep Hf) as (ino & H1 & H2 & _). eexists. split; [by apply lookup_opens|done].
  - intros e s' [[[-> Hn]| ->] Hh]%lookup_failed_holds; (split; [|exists a; split; [constructor|done]]); [by apply lookup_missing|apply no_space; tauto].
Qed.

Lemma link_error_op name op e s1 : link_error r s name e s1 → (is_Some (a_names a !! name) → op_error a op EEXIST) →
  (SFS_NAMELEN ≤ lengthZ name → op_error a op ENAMETOOLONG) → op_error a op e.
Proof. intros [[-> H]|[[-> H]|[[-> _]|[-> _]]]] H1 H2; [apply H1; by apply name_taken|by apply H2|apply no_space; tauto|apply no_space; tauto]. Qed.

Lemma link_refines name sv : op_ok s (Link name sv) → refines a d s (Link name sv).
Proof.
  intros (Hn & x & Hx & Hne). unfold refines, run. eapply wp_conseq; [apply (sfs_link_spec False T r L s d xd name sv x Hroot Hx Hne Hn)| |].
  - intros [] s' Hl. destruct (linked_holds _ _ _ _ _ _ _ _ _ _ _ Hrep Hx Hne Hl) as [H1 H2]. eexists. split; [apply link_names; [|done]|done]. unfold file_of. by rewrite Hx.
  - intros e s' [Hs He]. split; [|exists a; split; [constructor|by eapply same_holds]]. eapply link_error_op; [exact He|apply link_exists|apply link_long].
Qed.

Lemma remove_refines name : refines a d s (Remove name).
Proof.
  unfold refines, run. eapply wp_conseq; [apply (sfs_remove_spec False T r L s d xd name Hroot)| |].
  - intros [] s' Hf. destruct (removed_holds _ _ _ _ _ _ _ _ _ Hrep Hf) as (ino & a' & H1 & H2 & H3). exists a'. split; [by eapply remove_unnames|done].
  - intros e s' [[[-> Hn]| ->] Hh]%lookup_failed_holds; (split; [|exists a; split; [constructor|done]]); [by apply remove_missing|apply no_space; tauto].
Qed.

Lemma rename_refines n1 n2 : name_ok n2 → refines a d s (Rename n1 n2).
Proof.
  intros Hn. unfold refines, run. eapply wp_conseq; [apply (sfs_rename_spec False T r L s d xd n1 n2 Hroot Hn)| |].
  - intros [] s' Hf. destruct (renamed_holds _ _ _ _ _ _ _ _ _ _ Hrep Hf) as (ino & H1 & H2 & H3). eexists. split; [by apply rename_renames|done].
  - intros e s' [[[[-> Hm]| ->] Hh]%lookup_failed_holds|[Hs [s1 He]]].
    + split; [by apply rename_missing|exists a; split; [constructor|done]].
    + split; [apply no_space; tauto|exists a; split; [constructor|done]].
    + split; [|exists a; split; [constructor|by eapply same_holds]]. eapply link_error_op; [exact He|apply rename_exists|apply rename_long].
Qed.

Lemma close_refines sv : op_ok s (Close sv) → refines a d s (Close sv).
Proof.
  intros (x & Hx & Hne & Ho). unfold refines, run. eapply wp_conseq; [apply (decref_root False T r L s d xd sv x Hroot Hx Hne Ho)| |done].
  intros [] s' Hrd. destruct (closed_holds _ _ _ _ _ _ _ _ _ _ Hrep Hx Hne Hrd) as (a' & H1 & H2). exists a'. split; [|done].
  apply (close_closes _ sv a (sv_ino x)); [|done]. unfold file_of. by rewrite Hx.
Qed.

Lemma file_inode sv x : sv_at s !! sv = Some x → sv_ino x ≠ SFS_ROOT_LOCATION →
  inode_wf (sv_i x) ∧ a_files a !! sv_ino x = Some (contents s (sv_i x)) ∧ file_of s sv = Some (sv_ino x).
Proof.
  intros Hx Hne. pose proof (hr_inv _ _ _ _ _ _ Hroot) as [[Hd Hm] _]. pose proof (vo_inode _ _ _ (mc_vnodes _ _ Hm _ _ Hx)) as Hi. split_and!.
  - apply (fo_wf _ _ (oo_file _ _ _ _ (dc_objects _ _ _ Hd _ _ Hi))).
  - by rewrite (re_files _ _ _ _ _ _ _ Hrep), decide_False, Hi.
  - unfold file_of. by rewrite Hx.
Qed.

Lemma write_refines sv off data : op_ok s (Write sv off data) → refines a d s (Write sv off data).
Proof.
  intros ((x & Hx & Hne & Ho) & Hb & Hl). destruct (file_inode sv x Hx Hne) as (Hwf & Hc & Hfo). pose proof (iw_size _ Hwf) as Hsz. unfold is_word in Hsz.
  set (u := stream_kinit data (lengthZ data) off UIO_WRITE). assert (stream_ok u) as Hu.
  { split; simpl; [lia|unfold lengthZ in *; lia|unfold FILEMAX, NFILE, SFS_BLOCKSIZE in *; lia|by intros _]. }
  unfold refines, run. fold u. wp_step. eapply wp_conseq; [apply (sfs_write_spec False T r L s d xd sv x u Hroot Hx Hu eq_refl)| |].
  - intros u' s' [x' Hw]. wp_step. eexists. split; [by apply (write_writes _ sv off data a (sv_ino x) _ Hfo Hc)|].
    assert (contents s' (sv_i x') = splice off data (contents s (sv_i x))) as <-.
    { rewrite (written_contents _ _ _ _ _ _ _ _ Hw Hu eq_refl Hwf) by (simpl; lia). simpl. f_equal. apply take_ge. unfold lengthZ. lia. }
    eapply step_holds; [exact Hrep|exact Hx|exact Hne|apply Hw].
  - intros e s' (n & m & x' & u' & s1 & Hw & _ & He). split.
    + destruct He as [[_ ?]|(_ & _ & [[-> _]|[-> _]])]; [done|apply no_space; tauto|apply no_space; tauto].
    + eexists. split; [apply (write_partly _ _ sv off data (sv_ino x)); [done|by eexists]|]. eapply step_holds; [exact Hrep|exact Hx|exact Hne|apply Hw].
Qed.

Lemma truncate_refines sv len : op_ok s (Truncate sv len) → refines a d s (Truncate sv len).
Proof.
  intros (x & Hx & Hne & Hlen). destruct (file_inode sv x Hx Hne) as (Hwf & Hc & Hfo). pose proof (hr_inv _ _ _ _ _ _ Hroot) as [[Hd Hm] _].
  pose proof (oo_file _ _ _ _ (dc_objects _ _ _ Hd _ _ (vo_inode _ _ _ (mc_vnodes _ _ Hm _ _ Hx)))) as Hf.
  unfold refines, run. eapply wp_conseq; [apply (sfs_truncate_spec False sv x s len (mc_depth _ _ Hm) (dc_ok _ _ _ Hd) Hx Hf)| |done].
  intros [] s' [x' Ht]. eexists. split; [by apply (truncate_cuts _ sv len a (sv_ino x) _ Hfo Hc)|]. rewrite <- (truncated_contents _ _ _ _ _ _ Ht Hwf Hlen).
  eapply step_holds; [exact Hrep|exact Hx|exact Hne|apply Ht].
Qed.

Lemma sync_refines : refines a d s Sync.
Proof.
  unfold refines, run. eapply wp_conseq; [apply (sfs_sync_spec False T r L s), Hroot| |done]. intros [] s' Hs. exists a. split; [constructor|].
  destruct (synced_represents _ _ _ _ _ _ _ _ Hrep Hs) as [xd' Hrep']. by exists T, r, L, xd'.
Qed.
End Refines.

(** ** Mounting again *)

Lemma contents_device s s' i : sfs_device s' = sfs_device s → contents s' i = contents s i.
Proof.
  intros E. apply contents_same; [done|]. intros p _. unfold fbyte, fdata, bref, sect. by rewrite E.
Qed.

(** The root directory is loaded, or gets one more reference. *)
Lemma getroot_got X T r L s : X ∨ is_loaded s SFS_ROOT_LOCATION → sfs_inv T r L s →
  wpx X sfs_getroot (λ d s', sfs_core T L s' ∧ ∃ x, vnode_got T SFS_ROOT_LOCATION d x s s') (λ _ _, False) s.
Proof.
  intros HX [Hc Ht]. pose proof (mc_depth _ _ (sc_mem _ _ _ Hc)) as Hd. unfold sfs_getroot. apply wp_under_biglock; [done|].
  set (s0 := set_depth (λ d, d + 1) s). assert (biglocked s0) as Hl by (unfold biglocked; simpl; lia).
  assert (sfs_core T L s0) as Hc0 by (apply core_depth; [done|lia]). do 2 wp_step.
  assert (wpx X (sfs_loadvnode SFS_ROOT_LOCATION SFS_TYPE_INVAL) (λ sv s', sfs_core T L s' ∧ ∃ x, vnode_got T SFS_ROOT_LOCATION sv x s0 s' ∧ sv_i x = r) (λ _ _, X) s0) as Hload.
  { destruct HX as [HX|Hld].
    - eapply wp_conseq; [apply (sfs_loadvnode_spec X T L s0 SFS_ROOT_LOCATION r sfs_dirops Hl Hc0 (st_root _ _ _ Ht)); by rewrite (do_type _ _ (st_dir _ _ _ Ht))|done|done].
    - by eapply wp_conseq; [apply (loadvnode_hit X T L s0 SFS_ROOT_LOCATION r Hl Hc0 (st_root _ _ _ Ht) Hld)|..]. }
  eapply wp_conseq; [exact Hload| |].
  - intros sv s1 [Hc1 (x & Hg & Ex)]. wp_step. pose proof (ok_depth _ _ _ _ _ (vg_kept _ _ _ _ _ _ Hg)) as Hdp. simpl in Hdp. split; [lia|].
    split; [apply core_depth; [done|lia]|]. exists x. by apply vnode_got_unlock.
  - intros e s1 HX'. by unfold wpx.
Qed.

Lemma getroot_spec X T r L s : X → sfs_inv T r L s →
  wpx X sfs_getroot (λ d s', ∃ x, has_root T r L s' d x ∧ sfs_device s' = sfs_device s ∧ (∀ v, v ≠ d → sv_at s' !! v = sv_at s !! v)) (λ _ _, False) s.
Proof.
  intros HX Hinv. eapply wp_conseq; [by apply (getroot_got X T r L s); [left|]| |done]. intros d s' [Hc' (x & Hg)].
  exists x. split_and!; [|apply Hg|apply (ok_vnodes _ _ _ _ _ (vg_kept _ _ _ _ _ _ Hg))]. split; [by eapply inv_got|apply Hg|apply Hg].
Qed.

Lemma mounted_holds a d T r L s xd s0 s1 : represents a d T r L s xd → clean s → (∀ ino, is_Some (a_files a !! ino) → ∃ name, a_names a !! name = Some ino) →
  mounted s s0 s1 → sv_at s0 = ∅ → 0 ≤ vfs_biglock_depth s0 →
  wlp sfs_getroot (λ d' s', holds (set_open (λ _, ∅) a) d' s') (λ _ _, False) s1.
Proof.
  intros Hrep Hcl Hnamed Hm Hsv Hd. pose proof Hrep as [R1 R2 R3 R4]. pose proof (hr_inv _ _ _ _ _ _ R1) as Hinv.
  assert (sfs_inv T r L s1) as Hinv1.
  { eapply mounted_inv; [exact Hinv|exact Hcl| |exact Hm|done|done]. intros ino i Hi. destruct (decide (ino = SFS_ROOT_LOCATION)) as [->|Hne].
    - rewrite (st_root _ _ _ (si_tree _ _ _ _ Hinv)) in Hi. injection Hi as <-. apply (st_rootlinks _ _ _ (si_tree _ _ _ _ Hinv)).
    - destruct (Hnamed ino) as [name Hn]; [rewrite R3, decide_False, Hi by done; by eexists|]. apply R2 in Hn as [sl Hsl].
      intros E. by apply (proj1 (named_links _ _ _ _ _ _ Hinv Hi Hne) E sl name). }
  eapply wp_conseq; [by apply (getroot_spec True T r L s1)| |done]. intros d' s' (x & Hr' & Hdev & Hvs). pose proof (mt_device _ _ _ Hm) as Hdev1.
  exists T, r, L, x. split; [done|..].
  - intros n k. setoid_rewrite (entry_device s s'); [apply R2|congruence].
  - intros k. simpl. rewrite R3. case_decide; [done|]. destruct (T !! k) as [j|] eqn:Hj; [|done]. simpl. f_equal. symmetry. apply contents_device. congruence.
  - intros k n. simpl. rewrite lookup_empty. split; [done|]. intros [Hk (v & y & Hy & E & _)]. destruct (decide (v = d')) as [->|Hv].
    + rewrite (hr_sv _ _ _ _ _ _ Hr') in Hy. injection Hy as <-. rewrite (hr_ino _ _ _ _ _ _ Hr') in E. by subst.
    + rewrite Hvs, (mt_svs _ _ _ Hm), Hsv in Hy by done. done.
Qed.
