(* ===== verification/SfsDemo.v ===== *)
(** * The simple file system: an example

    A mounted volume of twelve blocks with one file, [hi], which holds three bytes:
    the invariants of SfsInv.v and SfsTree.v can hold. *)

From S2P Require Import Prelude Afs Bitmap UserCopy Uio Disk SfsTypes Sfs SfsNode SfsMount SfsBlk SfsMap SfsIo SfsDir SfsTrunc SfsInv SfsVnode SfsTree SfsOps SfsFile SfsSync SfsAbs.
#[local] Open Scope kern_scope.

Definition demo_sb : sfs_super := mkSuper SFS_MAGIC 12 ([116; 111; 121] ++ replicate 29 0) (replicate 118 0).
Definition demo_root : sfs_inode := mkInode 64 SFS_TYPE_DIR 1 ([3] ++ replicate 14 0) 0 (replicate 110 0).
Definition demo_file : sfs_inode := mkInode 3 SFS_TYPE_FILE 1 ([5] ++ replicate 14 0) 0 (replicate 110 0).
Definition hi : list Z := [104; 105].
Definition demo_map : list Z := [0x3f; 0xf0] ++ replicate 510 255.
Definition demo_disk : list (list Z) :=
  [super_bytes demo_sb; inode_bytes demo_root; demo_map; dir_bytes (mkDir 4 (hi ++ replicate 58 0)) ++ replicate 448 0;
   inode_bytes demo_file; [7; 8; 9] ++ replicate 509 0] ++ replicate 6 zero_data.
Definition demo_dirv : sfs_vnode := mkSV sfs_dirops 1 0 demo_root 1 false.
Definition demo_filev : sfs_vnode := mkSV sfs_fileops 1 0 demo_file 4 false.
Definition demo : sfs :=
  mkSfs 0 (mkLhd demo_disk []) demo_sb false [100; 101] (mkBitmap 4096 demo_map) false (<[100 := demo_dirv]> (<[101 := demo_filev]> ∅)) 102 [].
Definition demo_T : gmap Z sfs_inode := <[1 := demo_root]> (<[4 := demo_file]> ∅).
Definition demo_afs : afs := mkAfs (<[hi := 4]> ∅) (<[4 := [7; 8; 9]]> ∅) (<[4 := 1]> ∅).

(** ** Checking ranges *)

Lemma range_check (P : Z → bool) lo n : forallb P (seqZ lo n) = true → ∀ k, lo ≤ k < lo + n → P k = true.
Proof. intros H k Hk. rewrite forallb_forall in H. apply H, list_elem_of_In, elem_of_seqZ. lia. Qed.

Lemma forallb_bytes l : forallb (λ x, (0 <=? x) && (x <? 256)) l = true → Forall is_byte l.
Proof. rewrite forallb_forall. intros H. apply Forall_forall. intros x Hx. unfold is_byte. specialize (H x (proj1 (list_elem_of_In _ _) Hx)). lia. Qed.

Lemma demo_marked b : marked demo b ↔ ¬ (6 ≤ b < 12).
Proof.
  unfold marked. destruct (decide (0 ≤ b < 4096)) as [Hb|Hb].
  - pose proof (range_check (λ b, Bool.eqb (bit (sfs_freemap demo) b) ((b <? 6) || (12 <=? b))) 0 4096 ltac:(by vm_compute) b Hb) as H.
    apply Bool.eqb_prop in H. rewrite H. lia.
  - split; [lia|]. intros _. unfold bit. rewrite (proj2 (lookupZ_None _ _)); [done|]. change (lengthZ (v (sfs_freemap demo))) with 512.
    assert (b / 8 < 0 ∨ 512 ≤ b / 8); [|lia]. destruct (decide (b < 0)); [left; apply Z.div_lt_upper_bound; lia|right; apply Z.div_le_lower_bound; lia].
Qed.

Definition demo_ref (i : sfs_inode) (k : Z) : Z := if k =? 0 then (if sfi_size i =? 64 then 3 else 5) else 0.

Lemma demo_refs i k : i = demo_root ∨ i = demo_file → 0 ≤ k ≤ NFILE → ref demo i k = demo_ref i k.
Proof.
  intros Hi Hk. apply Z.eqb_eq. unfold NFILE in Hk.
  destruct Hi as [->| ->]; [apply (range_check (λ k, ref demo demo_root k =? demo_ref demo_root k) 0 144)|apply (range_check (λ k, ref demo demo_file k =? demo_ref demo_file k) 0 144)];
    [by vm_compute|lia|by vm_compute|lia].
Qed.

(** ** The invariants *)

Lemma demo_inodes : inode_wf demo_root ∧ inode_wf demo_file.
Proof. split; split; try done; apply Forall_replicate || idtac; repeat constructor; done. Qed.

Lemma demo_file_ok i : i = demo_root ∨ i = demo_file → file_ok demo i.
Proof.
  intros Hi. split.
  - destruct demo_inodes, Hi as [->| ->]; done.
  - intros k Hk. rewrite demo_refs by done. unfold demo_ref. destruct (k =? 0); [right|by left]. rewrite demo_marked. change (nblk demo) with 12. case_match; lia.
  - intros k k' Hk Hk'. rewrite !demo_refs by done. unfold demo_ref. destruct (Z.eqb_spec k 0), (Z.eqb_spec k' 0); try lia; case_match; lia.
  - intros k Hk. rewrite demo_refs by done. unfold demo_ref, system_block, SFS_SB_LOCATION, SFS_MAP_LOCATION. change (SFS_FS_BITBLOCKS demo) with 1. destruct (k =? 0); [|done]. case_match; lia.
Qed.

Lemma demo_blocks b data : demo_disk.[b] = Some data → is_block data.
Proof.
  intros H. assert (Forall is_block demo_disk) as Hall.
  { apply Forall_forall. intros l Hl. assert (forallb (λ l, (lengthZ l =? 512) && forallb (λ x, (0 <=? x) && (x <? 256)) l) demo_disk = true) as Hb by (by vm_compute).
    rewrite forallb_forall in Hb. specialize (Hb l (proj1 (list_elem_of_In _ _) Hl)). apply andb_true_iff in Hb as [H1 H2].
    split; [by apply Z.eqb_eq|by apply forallb_bytes]. }
  rewrite Forall_forall in Hall. apply Hall. unfold lookupZ in H. case_decide; [|done]. by eapply list_elem_of_lookup_2.
Qed.

Lemma demo_fs_ok : fs_ok demo.
Proof.
  split; try done.
  - split; [done| |done]. intros b data. apply demo_blocks.
  - split; [done|done|by apply forallb_bytes; vm_compute|]. intros b Hb. apply demo_marked. simpl in Hb. lia.
  - intros b Hb. apply demo_marked. change (nblk demo) with 12 in Hb. lia.
  - split; try done.
    + split; try done; repeat constructor; done.
    + intros b Hb. apply demo_marked. unfold system_block, SFS_SB_LOCATION, SFS_MAP_LOCATION in Hb. change (SFS_FS_BITBLOCKS demo) with 1 in Hb. lia.
    + intros _. exists demo_sb. split_and!; [|done|done]. split; try done; repeat constructor; done.
    + intros _ j Hj. change (SFS_FS_BITBLOCKS demo) with 1 in Hj. assert (j = 0) as -> by lia. by vm_compute.
Qed.

Lemma demo_objects ino i : demo_T !! ino = Some i → (ino = 1 ∧ i = demo_root) ∨ (ino = 4 ∧ i = demo_file).
Proof. unfold demo_T. intros [[<- <-]|[_ [[<- <-]|[_ []%lookup_empty_Some]]%lookup_insert_Some]]%lookup_insert_Some; auto. Qed.

Lemma demo_vnodes sv x : sv_at demo !! sv = Some x → (sv = 100 ∧ x = demo_dirv) ∨ (sv = 101 ∧ x = demo_filev).
Proof. simpl. intros [[<- <-]|[_ [[<- <-]|[_ []%lookup_empty_Some]]%lookup_insert_Some]]%lookup_insert_Some; auto. Qed.

Lemma demo_owns i b : i = demo_root ∨ i = demo_file → owns_block demo i b ↔ b = if sfi_size i =? 64 then 3 else 5.
Proof.
  intros Hi. unfold owns_block. split.
  - intros [Hb (k & Hk & E)]. rewrite demo_refs in E by done. unfold demo_ref in E. destruct (k =? 0); congruence.
  - intros ->. split; [by case_match|]. exists 0. split; [done|]. by rewrite demo_refs.
Qed.

Lemma demo_system b : system_block demo b ↔ b = 0 ∨ b = 2.
Proof. unfold system_block, SFS_SB_LOCATION, SFS_MAP_LOCATION. change (SFS_FS_BITBLOCKS demo) with 1. lia. Qed.

Lemma demo_core : sfs_core demo_T (λ _, False) demo.
Proof.
  split.
  - split.
    + apply demo_fs_ok.
    + intros ino i Hi. apply demo_objects in Hi as Hi'. assert (i = demo_root ∨ i = demo_file) as Hif by naive_solver. split.
      * change (nblk demo) with 12. lia.
      * apply demo_marked. lia.
      * by apply demo_file_ok.
      * rewrite demo_system. lia.
      * intros b Hb%demo_owns; [|done]. rewrite demo_system. subst b. destruct Hi' as [[-> ->]|[-> ->]]; (split; [done|simpl; lia]).
    + intros ino i ino' i' b H1%demo_objects H2%demo_objects. destruct H1 as [[-> ->]|[-> ->]], H2 as [[-> ->]|[-> ->]]; rewrite !demo_owns by auto; simpl; lia.
    + intros b Hb%demo_system. apply demo_marked. lia.
    + intros b Hb Hm%demo_marked. change (nblk demo) with 12 in Hb. rewrite demo_system.
      assert (b = 0 ∨ b = 2 ∨ b = 1 ∨ b = 4 ∨ b = 3 ∨ b = 5) as [->|[->|[->|[->|[->| ->]]]]] by lia; [by auto..| |].
      * right. right. left. exists 1, demo_root. split; [done|]. by apply demo_owns; [left|].
      * right. right. left. exists 4, demo_file. split; [done|]. by apply demo_owns; [right|].
  - split; try done.
    + intros sv. split; [intros [x [[-> _]|[-> _]]%demo_vnodes]; [by left|by right; left]|]. intros [->|[->|?%not_elem_of_nil]%elem_of_cons]%elem_of_cons; [by eexists..|done].
    + apply NoDup_cons. split; [by intros ?%list_elem_of_singleton|]. apply NoDup_singleton.
    + intros sv [x [[-> _]|[-> _]]%demo_vnodes]; done.
    + intros sv x [[-> ->]|[-> ->]]%demo_vnodes; split; try done; by vm_compute.
    + intros sv sv' x x' [[-> ->]|[-> ->]]%demo_vnodes [[-> ->]|[-> ->]]%demo_vnodes; done.
    + intros ino i [[-> ->]|[-> ->]]%demo_objects Hn; destruct Hn; [by exists 100, demo_dirv|by exists 101, demo_filev].
Qed.

Lemma demo_entry slot : entry demo demo_root slot = if decide (slot = 0) then Some (hi, 4) else None.
Proof.
  case_decide as Hs; [subst; by vm_compute|]. unfold entry. rewrite decide_False; [done|]. change (nslots demo_root) with 1. lia.
Qed.

Lemma demo_inv : sfs_inv demo_T demo_root (λ _, False) demo.
Proof.
  split; [apply demo_core|]. split; try done.
  - split; try done. intros a b name k k'. rewrite !demo_entry. repeat case_decide; congruence.
  - intros ino i [[-> ->]|[-> ->]]%demo_objects; done.
  - intros slot name k. rewrite demo_entry. case_decide; [|done]. intros [= <- <-]. by split.
  - intros ino i [[-> ->]|[-> ->]]%demo_objects Hne; [by destruct Hne|]. vm_compute. reflexivity.
  - intros ino i [[-> ->]|[-> ->]]%demo_objects E; discriminate E.
Qed.

Lemma demo_has_root : has_root demo_T demo_root (λ _, False) demo 100 demo_dirv.
Proof. split; [apply demo_inv|done|done]. Qed.

Lemma demo_represents : represents demo_afs 100 demo_T demo_root (λ _, False) demo demo_dirv.
Proof.
  split; [apply demo_has_root|..].
  - intros name k. setoid_rewrite demo_entry. simpl. rewrite lookup_insert_Some, lookup_empty. split.
    + intros [[<- <-]|[_ [=]]]. by exists 0.
    + intros [slot He]. case_decide; [|done]. left. naive_solver.
  - intros ino. simpl. destruct (decide (ino = 4)) as [->|Hn]; [by vm_compute|]. rewrite lookup_insert_ne, lookup_empty by done. case_decide; [done|].
    unfold demo_T. by rewrite !lookup_insert_ne, lookup_empty by done.
  - intros ino n. simpl. rewrite lookup_insert_Some, lookup_empty. split.
    + intros [[<- <-]|[_ [=]]]. split; [done|]. by exists 101, demo_filev.
    + intros [Hne (sv & x & [[-> ->]|[-> ->]]%demo_vnodes & E & En)]; [by subst|]. left. by split.
Qed.
