(* ===== verification/SfsProps.v ===== *)
(** * The simple file system: theorems

    The properties of SFS that the specifications of SfsOps.v, SfsFile.v, SfsSync.v
    and SfsAbs.v add up to. *)

From S2P Require Import Prelude Afs Bitmap UserCopy Uio Disk SfsTypes Sfs SfsNode SfsMount SfsBlk SfsMap SfsIo SfsDir SfsTrunc SfsInv SfsVnode SfsTree SfsOps SfsFile SfsSync SfsAbs SfsDemo.
#[local] Open Scope kern_scope.
#[local] Opaque entry.



(** C6. What has been synced survives: after sfs_sync, mounting the disk in a fresh
    kernel and asking for its root directory gives a file system with the same names
    and the same bytes in every file, in which no file is open. *)
Theorem sfs_sync_survives a d s : holds a d s → (∀ ino, is_Some (a_files a !! ino) → ∃ name, a_names a !! name = Some ino) →
  wp sfs_sync
    (λ _ s1, ∀ s0, sfs_device s0 = sfs_device s1 → sv_at s0 = ∅ → 0 ≤ vfs_biglock_depth s0 →
       wp (sfs_domount SFS_BLOCKSIZE) (λ _, wlp sfs_getroot (holds (mkAfs (a_names a) (a_files a) ∅)) (λ _ _, False)) (λ e _, e = ENOMEM) s0)
    (λ _ _, False) s.
Proof.
  intros (T & r & L & xd & Hrep) Hnamed. eapply wp_conseq; [apply (sfs_sync_spec False T r L s), Hrep| |done]. intros [] s1 Hs s0 Hdev Hsv Hd.
  destruct (synced_represents _ _ _ _ _ _ _ _ Hrep Hs) as [xd' Hrep']. pose proof (sy_clean _ _ _ _ _ Hs) as Hcl.
  eapply wp_conseq; [apply (sfs_domount_spec False s1 s0); [apply (sy_inv _ _ _ _ _ Hs)|apply Hcl|apply Hcl|done|done]| |done].
  intros [] s2 Hm. by eapply (mounted_holds a d T r L s1 xd' s0 s2).
Qed.

Lemma sfs_sync_survives_witness : wp sfs_sync
    (λ _ s1, ∀ s0, sfs_device s0 = sfs_device s1 → sv_at s0 = ∅ → 0 ≤ vfs_biglock_depth s0 →
       wp (sfs_domount SFS_BLOCKSIZE) (λ _, wlp sfs_getroot (holds (mkAfs (<[hi := 4]> ∅) (<[4 := [7; 8; 9]]> ∅) ∅)) (λ _ _, False)) (λ e _, e = ENOMEM) s0)
    (λ _ _, False) demo.
Proof.
  apply (sfs_sync_survives demo_afs 100 demo); [eexists _, _, _, _; exact demo_represents|].
  intros ino [c Hc]. simpl in Hc. apply lookup_insert_Some in Hc as [[<- _]|[_ Hc]]; [by exists hi|by rewrite lookup_empty in Hc].
Defined.

(** C15. Reading a file delivers its bytes from the offset on, as many as are asked
    for and there are, and changes nothing. *)
Theorem sfs_read_delivers a d s sv x off n : holds a d s → sv_at s !! sv = Some x → sv_ino x ≠ SFS_ROOT_LOCATION →
  sfi_size (sv_i x) ≤ FILEMAX → 0 ≤ off < FILEMAX → 0 ≤ n < 2 ^ 32 →
  ∃ c u, a_files a !! sv_ino x = Some c ∧ lengthZ c = sfi_size (sv_i x) ∧
    with_uio (stream_kinit [] n off UIO_READ) (sfs_read sv) s = Ok u s ∧
    st_data u = take (Z.to_nat n) (drop (Z.to_nat off) c) ∧ st_resid u = n - lengthZ (st_data u).
Proof.
  intros (T & r & L & xd & Hrep) Hx Hne Hsz Ho Hn. destruct (file_inode _ _ _ _ _ _ _ Hrep sv x Hx Hne) as (Hwf & Hc & _).
  pose proof (iw_size _ Hwf) as Hw. unfold is_word in Hw. set (u0 := stream_kinit [] n off UIO_READ).
  assert (stream_ok u0) as Hu by (split; simpl; [lia|lia|unfold FILEMAX, NFILE, SFS_BLOCKSIZE in *; lia|done]).
  assert (0 ≤ available (sv_i x) u0 ≤ n ∧ off + available (sv_i x) u0 ≤ Z.max off FILEMAX) as Hav.
  { unfold available. simpl. destruct (Z.leb_spec (sfi_size (sv_i x)) off); lia. }
  pose proof (sfs_read_spec False T r L s d xd sv x u0 (re_root _ _ _ _ _ _ _ Hrep) Hx Hu eq_refl) as H. unfold wpx in H.
  destruct (with_uio u0 (sfs_read sv) s) as [u s'|e s'| |]; [|exfalso|done|done].
  - destruct H as [-> (fate & _ & ->)]. eexists _, _. split_and!; [exact Hc|rewrite contents_length by lia; lia|reflexivity| |]; cbn [st_data st_resid].
    + apply (read_contents s (sv_i x) u0); [lia|done].
    + simpl. rewrite fbytes_length by lia. done.
  - destruct H as [_ [[_ ?]|[[_ ?]|[_ ?]]]]; [done|simpl in *; lia|simpl in *; lia].
Qed.

Lemma sfs_read_delivers_witness : ∃ u, with_uio (stream_kinit [] 10 1 UIO_READ) (sfs_read 101) demo = Ok u demo ∧ st_data u = [8; 9].
Proof.
  destruct (sfs_read_delivers demo_afs 100 demo 101 demo_filev 1 10) as (c & u & Hc & _ & Hr & Hd & _).
  - eexists _, _, _, _; exact demo_represents.
  - reflexivity.
  - discriminate.
  - unfold FILEMAX, NFILE, SFS_BLOCKSIZE. simpl. lia.
  - unfold FILEMAX, NFILE, SFS_BLOCKSIZE. lia.
  - lia.
  - exists u. split; [exact Hr|]. rewrite Hd. assert (c = [7; 8; 9]) as -> by (injection Hc as <-; reflexivity). reflexivity.
Defined.



(** C35. What sfs_truncate keeps: the new size is [len], and of [n] blocks it takes
    the direct blocks below [n] are kept and the others freed; but of the blocks
    named by the indirect block those up to and including [n] are kept, and all of
    them when [n] is 142 or more, so that blocks past the end of the file stay
    allocated. *)
Theorem sfs_truncate_blocks a d s sv x len : holds a d s → sv_at s !! sv = Some x → sv_ino x ≠ SFS_ROOT_LOCATION → 0 ≤ len < 2 ^ 32 →
  let n := (len + 511) / 512 in
  wp (sfs_truncate sv len)
    (λ _ s', ∃ x', sv_at s' !! sv = Some x' ∧ sfi_size (sv_i x') = len ∧
       ∀ k, 0 ≤ k < NFILE → bref s' (sv_i x') k = if decide (k < n ∨ (SFS_NDIRECT ≤ k ∧ (k = n ∨ 142 ≤ n))) then bref s (sv_i x) k else 0)
    (λ _ _, False) s.
Proof.
  intros (T & r & L & xd & Hrep) Hx Hne Hl n. pose proof (hr_inv _ _ _ _ _ _ (re_root _ _ _ _ _ _ _ Hrep)) as [[Hd Hm] _].
  pose proof (oo_file _ _ _ _ (dc_objects _ _ _ Hd _ _ (vo_inode _ _ _ (mc_vnodes _ _ Hm _ _ Hx)))) as Hf.
  assert (0 ≤ n < 2 ^ 23 + 1) as Hn by (unfold n; split; [apply Z.div_pos; lia|apply Z.div_lt_upper_bound; lia]).
  eapply wp_conseq; [apply (sfs_truncate_spec False sv x s len (mc_depth _ _ Hm) (dc_ok _ _ _ Hd) Hx Hf)| |done].
  intros [] s' (x' & [T1 T2 T3 T4 T5]). exists x'. split_and!; [by eapply file_step_sv|rewrite T2; unfold u32; apply Z.mod_small; lia|]. intros k Hk. rewrite T3 by done.
  fold n. unfold u32. rewrite Z.mod_small by lia. unfold keeps, past_end, SFS_NDIRECT, NFILE in *. case_decide as Hc.
  - destruct (Z.ltb_spec k 15); [by rewrite (proj2 (Z.ltb_lt _ _)) by lia|]. assert ((n <? 143 - 1) && (n <? k) = false) as E by lia. by rewrite <- andb_assoc, E, andb_false_r.
  - destruct (Z.ltb_spec k 15); [by rewrite (proj2 (Z.ltb_ge _ _)) by lia|]. by rewrite !(proj2 (Z.ltb_lt _ _)), (proj2 (Z.leb_le _ _)) by lia.
Qed.

Lemma sfs_truncate_blocks_witness : wp (sfs_truncate 101 1)
    (λ _ s', ∃ x', sv_at s' !! 101 = Some x' ∧ sfi_size (sv_i x') = 1 ∧
       ∀ k, 0 ≤ k < NFILE → bref s' (sv_i x') k = if decide (k < 1 ∨ (SFS_NDIRECT ≤ k ∧ (k = 1 ∨ 142 ≤ 1))) then bref demo demo_file k else 0)
    (λ _ _, False) demo.
Proof.
  apply (sfs_truncate_blocks demo_afs 100 demo 101 demo_filev 1); [eexists _, _, _, _; exact demo_represents|reflexivity|discriminate|lia].
Defined.

(** A write error on the disk is lost: when the first attempt at writing a block
    fails, the retry finds nothing left to transfer, and sfs_wblock reports success
    although the block was not written. *)
Theorem sfs_wblock_error_lost s b data rest : biglocked s → 0 ≤ b < d_blocks (sfs_device s) → d_blocks (sfs_device s) < 2 ^ 32 → lengthZ data = SFS_BLOCKSIZE →
  lh_fate (sfs_device s) = false :: rest →
  sfs_wblock data b s = Ok tt (set_device (mkLhd (sectors (sfs_device s)) rest) s).
Proof.
  intros Hl Hb Hs Hd Hf. unfold sfs_wblock. erewrite bind_ok; [|eapply with_uio_ok, sfs_rwblock_ok; [done|by apply rwblock_write_lost]]. reflexivity.
Qed.

Lemma sfs_wblock_error_lost_witness :
  let s := set_device (mkLhd demo_disk [false]) (set_depth (λ _, 1) demo) in
  sfs_wblock (replicate 512 1) 7 s = Ok tt (set_device (mkLhd demo_disk []) s).
Proof.
  apply (sfs_wblock_error_lost (set_device (mkLhd demo_disk [false]) (set_depth (λ _, 1) demo)) 7 (replicate 512 1) []); try reflexivity. split; [lia|reflexivity].
Defined.

(** A write that fails can lengthen its file: with no block free, writing one byte
    at offset 1000 of a file of 3 bytes fails with ENOSPC, and the file is 1000 bytes
    long. *)
Theorem sfs_failed_write_extends :
  let s := set_freemap (mkBitmap 4096 (replicate 512 255)) demo in
  match with_uio (stream_kinit [1] 1 1000 UIO_WRITE) (sfs_write 101) s with
  | Err e s' => e = ENOSPC ∧ (sfi_size ∘ sv_i) <$> sv_at s !! 101 = Some 3 ∧ (sfi_size ∘ sv_i) <$> sv_at s' !! 101 = Some 1000
  | _ => False
  end.
Proof. vm_compute. done. Qed.
