(* ===== verification/VfsSpec.v ===== *)
(** * The virtual file system: interface and rules

    What the VFS layer relies on from a file system: the class [FsLaws] says how each
    operation of [FileSystem] changes an abstract mounted file system, that is an
    abstract file system (Afs.v), the references to its root directory, and the
    vnodes that are loaded.  VfsSfs.v shows that SFS keeps these laws.

    Programs of the VFS layer are then verified on abstract states: [vspec] relates a
    program to the mounted file systems it starts from and ends in, and there is a
    rule for each construct. *)

From S2P Require Import Prelude UserCopy Uio Disk Vfs Afs.
#[local] Open Scope kern_scope.

(** ** Mounted file systems *)

(** [m_root] is the vnode of the root directory while there are [m_refs] references
    to it; [m_vns] has the loaded vnodes of files, with their object and how many
    times they are open. *)
Record mfs := mkMfs {
  m_afs : afs;
  m_vol : option str;
  m_root : Z;
  m_refs : Z;
  m_vns : gmap Z (Z * Z)
}.

Definition set_afs (f : afs → afs) (m : mfs) : mfs := mkMfs (f (m_afs m)) (m_vol m) (m_root m) (m_refs m) (m_vns m).
Definition set_rooted (d n : Z) (m : mfs) : mfs := mkMfs (m_afs m) (m_vol m) d n (m_vns m).
Definition set_vns (f : gmap Z (Z * Z) → gmap Z (Z * Z)) (m : mfs) : mfs := mkMfs (m_afs m) (m_vol m) (m_root m) (m_refs m) (f (m_vns m)).

(** [v] is the vnode of object [ino], or the one it gets if it is not loaded. *)
Definition vnode_for (m : mfs) (ino v : Z) : Prop :=
  (∃ oc, m_vns m !! v = Some (ino, oc)) ∨ (m_vns m !! v = None ∧ a_open (m_afs m) !! ino = None).

(** A reference to object [ino] is handed out. *)
Definition m_get (ino v : Z) (m : mfs) : mfs :=
  set_afs (reopen ino) (set_vns (λ vns, if decide (is_Some (vns !! v)) then vns else <[v := (ino, 0)]> vns) m).
(** A reference is given up; with the last one the vnode goes, and the object if it
    has no name. *)
Definition m_put (ino v : Z) (m m' : mfs) : Prop := ∃ a',
  collected ino (reclose ino (m_afs m)) a' ∧
  m' = set_afs (λ _, a') (set_vns (λ vns, if default 0 (a_open (m_afs m) !! ino) <=? 1 then delete v vns else vns) m).
(** A new file, with a reference to it. *)
Definition m_make (name : str) (ino v : Z) (m : mfs) : mfs :=
  set_afs (λ a, mkAfs (<[name := ino]> (a_names a)) (<[ino := []]> (a_files a)) (<[ino := 1]> (a_open a))) (set_vns <[v := (ino, 0)]> m).
Definition m_opened (v ino oc : Z) (m : mfs) : mfs := set_vns <[v := (ino, oc)]> m.

(** The vnodes are those of the files with references, and none is open more often
    than it is referenced. *)
Record vns_ok (m : mfs) : Prop := {
  vk_vnode : ∀ v ino oc, m_vns m !! v = Some (ino, oc) →
    0 ≤ oc ∧ is_Some (a_files (m_afs m) !! ino) ∧ ∃ n, a_open (m_afs m) !! ino = Some n ∧ oc ≤ n ∧ 1 ≤ n;
  vk_open : ∀ ino n, a_open (m_afs m) !! ino = Some n → ∃ v oc, m_vns m !! v = Some (ino, oc)
}.

(** Errors for want of space or memory. *)
Definition resources (e : Z) : Prop := e = ENOSPC ∨ e = EFBIG ∨ e = ENOMEM.

(** A name as it comes from a kernel string. *)
Definition good_name (name : str) : Prop := Forall (λ c, 0 < c < 256) name.

(** ** The laws of a file system *)

(** [prog] takes the abstract state [m] to one that satisfies [Q] or [E], and leaves
    the lock at its depth. *)
Definition runs {F A} `{!FileSystem F} (rep : mfs → F → Prop) (X : Prop) (prog : M F A) (m : mfs) (Q : A → mfs → Prop) (E : Z → mfs → Prop) : Prop :=
  ∀ x, rep m x → wpx X prog (λ a x', fs_depth x' = fs_depth x ∧ ∃ m', Q a m' ∧ rep m' x') (λ e x', fs_depth x' = fs_depth x ∧ ∃ m', E e m' ∧ rep m' x') x.

Definition no_error (e : Z) (m : mfs) : Prop := False.

Class FsLaws (F : Type) `{!FileSystem F} := {
  fs_rep : mfs → F → Prop;
  fs_namemax : Z;                (* the length of a name that is too long *)
  rep_refs m x : fs_rep m x → 0 ≤ m_refs m;
  rep_set_depth m x n : fs_rep m x → 0 ≤ n → fs_rep m (fs_set_depth (λ _, n) x) ∧ fs_depth (fs_set_depth (λ _, n) x) = n;
  rep_same_depth (x : F) : fs_set_depth (λ _, fs_depth x) x = x;
  rep_vns m x : fs_rep m x → vns_ok m;
  law_getvolname X m : runs fs_rep X fs_getvolname m (λ o m', o = m_vol m ∧ m' = m) no_error;
  (** Loading the root directory may fail, and that panics. *)
  law_getroot m : runs fs_rep (m_refs m = 0) fs_getroot m
    (λ d m', (0 < m_refs m → d = m_root m) ∧ m' = set_rooted d (m_refs m + 1) m) no_error;
  law_sync X m : runs fs_rep X fs_sync m (λ _ m', m' = m) no_error;
  (** Unmounting, which comes after syncing, fails while there are vnodes. *)
  law_unmount X m : runs fs_rep X (fs_sync ;; fs_unmount) m
    (λ _ m', m_refs m = 0 ∧ m_vns m = ∅) (λ e m', e = EBUSY ∧ (0 < m_refs m ∨ m_vns m ≠ ∅) ∧ m' = m);
  law_incref_root X m : 0 < m_refs m → runs fs_rep X (op_incref (m_root m)) m (λ _ m', m' = set_rooted (m_root m) (m_refs m + 1) m) no_error;
  law_decref_root X m : 0 < m_refs m → runs fs_rep X (op_decref (m_root m)) m (λ _ m', m' = set_rooted (m_root m) (m_refs m - 1) m) no_error;
  law_gettype_root X m : 0 < m_refs m → runs fs_rep X (op_gettype (m_root m)) m (λ t m', t = S_IFDIR ∧ m' = m) no_error;
  law_lookparent X m path buflen : 0 < m_refs m → runs fs_rep X (op_lookparent (m_root m) path buflen) m
    (λ r m', r = (m_root m, path) ∧ lengthZ path < buflen ∧ m' = set_rooted (m_root m) (m_refs m + 1) m)
    (λ e m', e = ENAMETOOLONG ∧ buflen ≤ lengthZ path ∧ m' = m);
  law_lookup X m name : 0 < m_refs m → runs fs_rep X (op_lookup (m_root m) name) m
    (λ v m', ∃ ino, a_names (m_afs m) !! name = Some ino ∧ vnode_for m ino v ∧ m' = m_get ino v m)
    (λ e m', ((e = ENOENT ∧ a_names (m_afs m) !! name = None) ∨ e = ENOMEM) ∧ m' = m);
  law_creat X m name excl : 0 < m_refs m → good_name name → runs fs_rep X (op_creat (m_root m) name excl) m
    (λ v m', ∃ ino, (excl = false ∧ a_names (m_afs m) !! name = Some ino ∧ vnode_for m ino v ∧ m' = m_get ino v m) ∨
       (a_names (m_afs m) !! name = None ∧ a_files (m_afs m) !! ino = None ∧ m_vns m !! v = None ∧ m' = m_make name ino v m))
    (λ e m', ((e = EEXIST ∧ excl = true ∧ is_Some (a_names (m_afs m) !! name)) ∨ (e = ENAMETOOLONG ∧ fs_namemax ≤ lengthZ name) ∨ resources e) ∧ m' = m);
  law_link X m name v ino oc : 0 < m_refs m → good_name name → m_vns m !! v = Some (ino, oc) → runs fs_rep X (op_link (m_root m) name v) m
    (λ _ m', a_names (m_afs m) !! name = None ∧ m' = set_afs (set_names <[name := ino]>) m)
    (λ e m', ((e = EEXIST ∧ is_Some (a_names (m_afs m) !! name)) ∨ (e = ENAMETOOLONG ∧ fs_namemax ≤ lengthZ name) ∨ resources e) ∧ m' = m);
  law_remove X m name : 0 < m_refs m → runs fs_rep X (op_remove (m_root m) name) m
    (λ _ m', ∃ ino a', a_names (m_afs m) !! name = Some ino ∧ collected ino (set_names (delete name) (m_afs m)) a' ∧ m' = set_afs (λ _, a') m)
    (λ e m', ((e = ENOENT ∧ a_names (m_afs m) !! name = None) ∨ resources e) ∧ m' = m);
  law_rename X m n1 n2 : 0 < m_refs m → good_name n2 → runs fs_rep X (op_rename (m_root m) n1 (m_root m) n2) m
    (λ _ m', ∃ ino, a_names (m_afs m) !! n1 = Some ino ∧ a_names (m_afs m) !! n2 = None ∧
       m' = set_afs (set_names (λ ns, <[n2 := ino]> (delete n1 ns))) m)
    (λ e m', ((e = ENOENT ∧ a_names (m_afs m) !! n1 = None) ∨ (e = EEXIST ∧ is_Some (a_names (m_afs m) !! n2)) ∨
              (e = ENAMETOOLONG ∧ fs_namemax ≤ lengthZ n2) ∨ resources e) ∧ m' = m);
  law_gettype X m v ino oc : m_vns m !! v = Some (ino, oc) → runs fs_rep X (op_gettype v) m (λ t m', t = S_IFREG ∧ m' = m) no_error;
  law_open X m v ino oc flags : m_vns m !! v = Some (ino, oc) → runs fs_rep X (op_open v flags) m
    (λ _ m', flag flags O_APPEND = false ∧ m' = m) (λ e m', e = EUNIMP ∧ flag flags O_APPEND = true ∧ m' = m);
  law_incopen X m v ino oc n : m_vns m !! v = Some (ino, oc) → a_open (m_afs m) !! ino = Some n → oc < n →
    runs fs_rep X (op_incopen v) m (λ _ m', m' = m_opened v ino (oc + 1) m) no_error;
  law_decopen X m v ino oc : m_vns m !! v = Some (ino, oc) → 0 < oc →
    runs fs_rep X (op_decopen v) m (λ _ m', m' = m_opened v ino (oc - 1) m) no_error;
  law_decref X m v ino oc n : m_vns m !! v = Some (ino, oc) → a_open (m_afs m) !! ino = Some n → oc < n →
    runs fs_rep X (op_decref v) m (λ _ m', m_put ino v m m') no_error;
  law_empty X m v ino oc : m_vns m !! v = Some (ino, oc) → runs fs_rep X (op_truncate v 0) m
    (λ _ m', m' = set_afs (set_files <[ino := []]>) m) no_error
}.

(** ** Programs of the VFS layer *)

Lemma bind_assoc {S A B C} (m : M S A) (k : A → M S B) (h : B → M S C) s : bind (bind m k) h s = bind m (λ a, bind (k a) h) s.
Proof. unfold bind. by destruct (m s). Qed.

Section VSpec.
Context {F D : Type} `{!FileSystem F, !FsLaws F, !Driver D}.
Implicit Types (s w : vfs F D) (ms : gmap Z mfs) (X : Prop).
#[local] Notation VM := (M (vfs F D)).
#[local] Notation vpost A := (A → gmap Z mfs → vfs F D → Prop).

(** The file systems of [s] are [ms]. *)
Definition vrep ms s : Prop :=
  0 ≤ biglock_depth s ∧
  ∀ f, match ms !! f, filesystems s !! f with Some m, Some x => fs_rep m x | None, None => True | _, _ => False end.

(** Everything but the file systems. *)
Definition erase s : vfs F D := set_filesystems (λ _, ∅) s.

Definition vspec {A} X (prog : VM A) ms w (Q : vpost A) (E : vpost Z) : Prop := ∀ s, vrep ms s → erase s = w →
  wpx X prog (λ a s', ∃ ms', Q a ms' (erase s') ∧ vrep ms' s') (λ e s', ∃ ms', E e ms' (erase s') ∧ vrep ms' s') s.

Lemma vs_conseq {A} X (m : VM A) ms w (Q Q' : vpost A) (E E' : vpost Z) : vspec X m ms w Q E →
  (∀ a ms' w', Q a ms' w' → Q' a ms' w') → (∀ e ms' w', E e ms' w' → E' e ms' w') → vspec X m ms w Q' E'.
Proof. intros H HQ HE s Hs Hw. eapply wp_conseq; [by apply H|naive_solver|naive_solver]. Qed.

Lemma vs_ret {A} X (a : A) ms w (Q : vpost A) (E : vpost Z) : Q a ms w → vspec X (ret a) ms w Q E.
Proof. intros H s Hs <-. apply wp_ret. eauto. Qed.

Lemma vs_fail {A} X e ms w (Q : vpost A) (E : vpost Z) : E e ms w → vspec X (fail e) ms w Q E.
Proof. intros H s Hs <-. apply wp_fail. eauto. Qed.

Lemma vs_bind {A B} X (m : VM A) (k : A → VM B) ms w (Q : vpost B) (E : vpost Z) :
  vspec X m ms w (λ a ms' w', vspec X (k a) ms' w' Q E) E → vspec X (bind m k) ms w Q E.
Proof. intros H s Hs Hw. apply wp_bind. eapply wp_conseq; [by apply H| |done]. intros a s' (ms' & Hk & Hs'). by apply Hk. Qed.

Lemma vs_get {B} X (k : vfs F D → VM B) ms w (Q : vpost B) (E : vpost Z) :
  (∀ s, vrep ms s → erase s = w → vspec X (k s) ms w Q E) → vspec X (bind get k) ms w Q E.
Proof. intros H s Hs Hw. apply wp_bind, wp_get. by apply H. Qed.

Lemma vs_gets {A} X (f : vfs F D → A) ms w (Q : vpost A) (E : vpost Z) : (∀ s, f (erase s) = f s) → Q (f w) ms w → vspec X (gets f) ms w Q E.
Proof. intros Hf H s Hs <-. apply wp_gets. rewrite Hf in H. eauto. Qed.

Lemma vs_modify X (g : vfs F D → vfs F D) ms w (Q : vpost unit) (E : vpost Z) :
  (∀ s, erase (g s) = g (erase s) ∧ filesystems (g s) = filesystems s) → 0 ≤ biglock_depth (g w) → Q tt ms (g w) → vspec X (modify g) ms w Q E.
Proof.
  intros Hg Hd H s [_ Hs] <-. apply wp_modify. exists ms. destruct (Hg s) as [E1 E2]. rewrite E1. split; [done|]. split; [|by rewrite E2].
  by rewrite <- E1 in Hd.
Qed.

Lemma vs_kassert X (b : bool) ms w (Q : vpost unit) (E : vpost Z) : b = true → Q tt ms w → vspec X (kassert b) ms w Q E.
Proof. intros ->. apply vs_ret. Qed.

Lemma vs_panic {A} X ms w (Q : vpost A) (E : vpost Z) : X → vspec X panic ms w Q E.
Proof. by intros HX s Hs Hw. Qed.

Lemma vs_deref {A} X (o : option A) a ms w (Q : vpost A) (E : vpost Z) : o = Some a → Q a ms w → vspec X (deref o) ms w Q E.
Proof. intros ->. apply vs_ret. Qed.

Lemma vs_finally {A} X (m : VM A) c ms w (Q : vpost A) (E : vpost Z) :
  vspec X m ms w (λ a ms' w', vspec X c ms' w' (λ _, Q a) E) (λ e ms' w', vspec X c ms' w' (λ _, E e) E) → vspec X (finally m c) ms w Q E.
Proof.
  intros H s Hs Hw. apply wp_bind, wp_attempt. eapply wp_conseq; [by apply H|..]; intros a s' (ms' & Hc & Hs');
    apply wp_bind; (eapply wp_conseq; [by apply Hc| |done]); intros [] s2 Hq; [by apply wp_ret|by apply wp_fail].
Qed.

Lemma vs_attempt {A} X (m : VM A) ms w (Q : vpost (A + Z)) (E : vpost Z) :
  vspec X m ms w (λ a, Q (inl a)) (λ e, Q (inr e)) → vspec X (attempt m) ms w Q E.
Proof. intros H s Hs Hw. apply wp_attempt. by apply H. Qed.

Lemma vs_on_error {A} X (m : VM A) h ms w (Q : vpost A) (E : vpost Z) :
  vspec X m ms w Q (λ e ms' w', vspec X h ms' w' (λ _, E e) E) → vspec X (on_error m h) ms w Q E.
Proof. intros H s Hs Hw. apply wp_on_error. eapply wp_conseq; [by apply H|done|]. intros e s' (ms' & Hc & Hs'). by apply Hc. Qed.

Lemma set_biglock_back w d : set_biglock (biglock_depth w) (set_biglock d w) = w.
Proof. by destruct w. Qed.

(** The lock is as it was when the body leaves it alone. *)
Definition unlocked {A} (Q : vpost A) : vpost A := λ a ms w, 0 < biglock_depth w ∧ Q a ms (set_biglock (biglock_depth w - 1) w).

Lemma vs_biglock {A} X (m : VM A) ms w (Q : vpost A) (E : vpost Z) : 0 ≤ biglock_depth w →
  vspec X m ms (set_biglock (biglock_depth w + 1) w) (unlocked Q) (unlocked E) → vspec X (with_biglock m) ms w Q E.
Proof.
  intros Hd H. unfold with_biglock, biglock_acquire, biglock_release. apply vs_bind, vs_modify; [done|simpl; lia|]. apply vs_finally.
  eapply vs_conseq; [exact H|..]; intros a ms' w' [Hd' Hq]; apply vs_bind, vs_gets; try done; apply vs_bind, vs_kassert; try lia;
    (apply vs_modify; [done|simpl; lia|done]).
Qed.

Lemma vs_on_fs {A} X f m (prog : M F A) ms w (Q : vpost A) (E : vpost Z) : ms !! f = Some m →
  runs fs_rep X prog m (λ a m', Q a (<[f := m']> ms) w) (λ e m', E e (<[f := m']> ms) w) → vspec X (on_fs f prog) ms w Q E.
Proof.
  intros Hf H s [Hd Hs] <-. pose proof (Hs f) as Hx. rewrite Hf in Hx. destruct (filesystems s !! f) as [x|] eqn:Ex; [|done].
  destruct (rep_set_depth m x (biglock_depth s) Hx Hd) as [Hr Hdx].
  assert (∀ m' x', fs_depth x' = biglock_depth s → fs_rep m' x' → vrep (<[f := m']> ms) (set_fs_at f x' s) ∧ erase (set_fs_at f x' s) = erase s) as Hnew.
  { intros m' x' Ed Hx'. unfold set_fs_at. split; [split; [simpl; lia|]|].
    - intros g. simpl. destruct (decide (g = f)) as [->|Hg]; [by rewrite !lookup_insert_eq|]. rewrite !lookup_insert_ne by done. apply Hs.
    - unfold erase, set_filesystems, set_biglock. simpl. by rewrite Ed. }
  specialize (H _ Hr). unfold wpx, on_fs, fs_at in *. rewrite Ex. simpl. destruct (prog _) as [a x'|e x'| |]; try done.
  - destruct H as (Hdep & m' & HQ & Hm'). rewrite Hdx in Hdep. destruct (Hnew m' x' Hdep Hm') as [H1 H2]. exists (<[f := m']> ms). by rewrite H2.
  - destruct H as (Hdep & m' & HQ & Hm'). rewrite Hdx in Hdep. destruct (Hnew m' x' Hdep Hm') as [H1 H2]. exists (<[f := m']> ms). by rewrite H2.
Qed.

(** A law of the file system, for a call through the VFS layer. *)
Lemma vs_law {A} X f m (prog : M F A) ms w Q0 E0 (Q : vpost A) (E : vpost Z) : ms !! f = Some m → runs fs_rep X prog m Q0 E0 →
  (∀ a m', Q0 a m' → Q a (<[f := m']> ms) w) → (∀ e m', E0 e m' → E e (<[f := m']> ms) w) → vspec X (on_fs f prog) ms w Q E.
Proof.
  intros Hf H HQ HE. apply (vs_on_fs X f m); [done|]. intros x Hx. eapply wp_conseq; [by apply H|naive_solver|naive_solver].
Qed.

(** A file system that is represented is sound. *)
Lemma vs_rep {A} X f m (prog : VM A) ms w (Q : vpost A) (E : vpost Z) : ms !! f = Some m → (vns_ok m → 0 ≤ m_refs m → vspec X prog ms w Q E) → vspec X prog ms w Q E.
Proof.
  intros Hf H s Hs Hw. pose proof Hs as [_ Hs']. specialize (Hs' f). rewrite Hf in Hs'. destruct (filesystems s !! f) as [x|]; [|done].
  apply H; [by eapply rep_vns|by eapply rep_refs|done|done].
Qed.

(** Two calls of the same file system. *)
Lemma on_fs_bind {A B} f (a : M F A) (b : M F B) s : bind (on_fs f a) (λ _, on_fs f b) s = on_fs f (bind a (λ _, b)) s.
Proof.
  unfold bind, on_fs. destruct (fs_at f s) as [x|] eqn:Ex; [|done]. destruct (a x) as [y x'|e x'| |]; try done.
  assert (fs_at f (set_fs_at f x' s) = Some x') as ->.
  { unfold fs_at, set_fs_at. simpl. rewrite lookup_insert_eq. simpl. by rewrite rep_same_depth. }
  assert (∀ x2, set_fs_at f x2 (set_fs_at f x' s) = set_fs_at f x2 s) as Hset; [|by destruct (b x'); rewrite ?Hset].
  intros x2. unfold set_fs_at, set_filesystems, set_biglock. simpl. by rewrite insert_insert_eq.
Qed.

Lemma vs_ext {A} X (m m' : VM A) ms w (Q : vpost A) (E : vpost Z) : (∀ s, m s = m' s) → vspec X m' ms w Q E → vspec X m ms w Q E.
Proof. intros Hm H s Hs Hw. eapply wp_ext; [apply Hm|by apply H]. Qed.
End VSpec.
