(* ===== verification/VfsTable.v ===== *)
(** * The virtual file system: the table of devices

    The invariant of the table of vfslist.c, which the operations that add devices,
    mount and unmount preserve; and what vfs_getroot makes of a name. *)

From S2P Require Import Prelude UserCopy Uio Disk Vfs Afs VfsSpec.
#[local] Open Scope kern_scope.

(** ** What a device name stands for *)

Inductive target := DeviceOf (p : Z) | RootOf (f : Z) | NotMounted.

(** The target of a name among those of one device; [vol] has the volume names. *)
Definition kd_find (vol : Z → option str) (kd : knowndev) (devname : str) : option target :=
  let same := bool_decide (kd_name kd = devname) in
  let raw := bool_decide (kd_rawname kd = Some devname) in
  match kd_fs kd with
  | Some f => if same || bool_decide (vol f = Some devname) then Some (RootOf f) else if raw then Some (DeviceOf (kd_vnode kd)) else None
  | None =>
      if same then Some (if bool_decide (kd_rawname kd = None) then DeviceOf (kd_vnode kd) else NotMounted)
      else if raw then Some (DeviceOf (kd_vnode kd)) else None
  end.

(** The first device that answers to the name. *)
Fixpoint table_find (vol : Z → option str) (l : list knowndev) (devname : str) : option target :=
  match l with
  | [] => None
  | kd :: l' => match kd_find vol kd devname with Some t => Some t | None => table_find vol l' devname end
  end.

Definition vol_of (ms : gmap Z mfs) (f : Z) : option str := m ← ms !! f; m_vol m.

Lemma table_find_ext vol vol' l devname : (∀ f, vol f = vol' f) → table_find vol l devname = table_find vol' l devname.
Proof. intros Hv. induction l as [|kd l IH]; [done|]. cbn [table_find]. rewrite IH. unfold kd_find. destruct (kd_fs kd); [|done]. by rewrite Hv. Qed.

(** ** The invariant *)

Section Table.
Context {F D : Type} `{!FileSystem F, !FsLaws F, !Driver D}.
Implicit Types (s w : vfs F D) (ms : gmap Z mfs) (X : Prop).
#[local] Notation VM := (M (vfs F D)).
#[local] Notation vpost A := (A → gmap Z mfs → vfs F D → Prop).

(** One device: what can be mounted has a device, what cannot has a device or a file
    system; the vnode is the device's. *)
Record kd_wf ms w (i : nat) (kd : knowndev) : Prop := {
  kw_device : kd_rawname kd ≠ None ∨ kd_fs kd = None → is_Some (kd_device kd);
  kw_number : ∀ d, kd_device kd = Some d → ∃ x, devices w !! d = Some x ∧ d_devnumber x = Z.of_nat i + 1;
  kw_vnode : ∃ n, devnodes w !! kd_vnode kd = Some n ∧ dn_dev n = kd_device kd ∧ 1 ≤ dn_refcount n ∧ 0 ≤ dn_opencount n;
  kw_fs : ∀ f, kd_fs kd = Some f → is_Some (ms !! f)
}.

Definition kd_names (kd : knowndev) : list str := kd_name kd :: option_list (kd_rawname kd).

Record table_wf ms w : Prop := {
  tw_each : ∀ i kd, knowndevs w !! i = Some kd → kd_wf ms w i kd;
  tw_names : NoDup (knowndevs w ≫= kd_names);
  tw_fs : ∀ i j k1 k2 f, knowndevs w !! i = Some k1 → knowndevs w !! j = Some k2 → kd_fs k1 = Some f → kd_fs k2 = Some f → i = j;
  tw_next : ∀ p, vfs_next w ≤ p → devnodes w !! p = None
}.

(** ** vfs_getroot *)

Definition ref_dev (k p : Z) w : vfs F D :=
  set_devnodes (alter (λ n, mkDn (dn_refcount n + k) (dn_opencount n) (dn_dev n)) p) w.

(** What follows from the target of a name; the root directory may have to be loaded,
    and if there is no memory for that the kernel panics. *)
Definition finds X ms w (t : option target) (Q : vpost vnode) (E : vpost Z) : Prop :=
  match t with
  | None => E ENODEV ms w
  | Some NotMounted => E ENXIO ms w
  | Some (DeviceOf p) => Q (DevVn p) ms (ref_dev 1 p w)
  | Some (RootOf f) => ∃ m, ms !! f = Some m ∧ (m_refs m = 0 → X) ∧
      ∀ d, (0 < m_refs m → d = m_root m) → Q (FsVn f d) (<[f := set_rooted d (m_refs m + 1) m]> ms) w
  end.

Lemma vs_getvolname X f m ms w (Q : vpost (option str)) (E : vpost Z) : ms !! f = Some m → Q (m_vol m) ms w → vspec X (FSOP_GETVOLNAME f) ms w Q E.
Proof.
  intros Hf HQ. apply (vs_law X f m _ ms w _ _ _ _ Hf (law_getvolname X m)); [|by intros]. intros o m' [-> ->]. by rewrite insert_id.
Qed.

Lemma runs_weaken {A} X X' (prog : M F A) m Q E : runs fs_rep X prog m Q E → (X → X') → runs fs_rep X' prog m Q E.
Proof. intros H HX x Hx. specialize (H x Hx). unfold wpx in *. destruct (prog x); auto. Qed.

Lemma vs_getroot X f m ms w (Q : vpost vnode) (E : vpost Z) : ms !! f = Some m → (m_refs m = 0 → X) →
  (∀ d, (0 < m_refs m → d = m_root m) → Q (FsVn f d) (<[f := set_rooted d (m_refs m + 1) m]> ms) w) → vspec X (FSOP_GETROOT f) ms w Q E.
Proof.
  intros Hf HX HQ. apply vs_bind. apply (vs_law X f m _ ms w _ _ _ _ Hf (runs_weaken _ _ _ _ _ _ (law_getroot m) HX)); [|by intros]. intros d m' [Hd ->].
  by apply vs_ret, HQ.
Qed.

Lemma vs_read_dn X p n ms w (Q : vpost devnode) (E : vpost Z) : devnodes w !! p = Some n → Q n ms w → vspec X (read_dn p) ms w Q E.
Proof. intros Hn HQ. apply vs_get. intros s _ <-. by eapply vs_deref. Qed.

Lemma vs_dev_incref X p n ms w (Q : vpost unit) (E : vpost Z) : 0 ≤ biglock_depth w → devnodes w !! p = Some n → Q tt ms (ref_dev 1 p w) →
  vspec X (dev_incref p) ms w Q E.
Proof.
  intros Hd Hn HQ. apply vs_biglock; [done|]. apply vs_bind, (vs_read_dn X p n); [done|]. apply vs_modify; [done|simpl; lia|]. split; [simpl; lia|]. simpl. replace (biglock_depth w + 1 - 1) with (biglock_depth w) by lia.
  assert (set_biglock (biglock_depth w) (set_devnodes <[p := mkDn (dn_refcount n + 1) (dn_opencount n) (dn_dev n)]> (set_biglock (biglock_depth w + 1) w)) = ref_dev 1 p w) as ->; [|done].
  unfold ref_dev, set_devnodes, set_biglock. simpl. f_equal. by rewrite (alter_alt_Some _ _ _ n).
Qed.

Lemma streq_named (o : option str) devname : match o with Some n => streq n devname | None => false end = bool_decide (o = Some devname).
Proof. destruct o as [n|]; [|done]. apply bool_decide_ext. naive_solver. Qed.

(** The device itself is handed out. *)
Lemma vs_give_device X p n ms w (Q : vpost (option vnode)) (E : vpost Z) : 0 ≤ biglock_depth w → devnodes w !! p = Some n → Q (Some (DevVn p)) ms (ref_dev 1 p w) →
  vspec X (dev_incref p ;; ret (Some (DevVn p))) ms w Q E.
Proof. intros Hd Hn HQ. apply vs_bind, (vs_dev_incref X p n); [done|done|]. by apply vs_ret. Qed.

Lemma getroot_dev_spec X ms w i kd devname t (Q : vpost (option vnode)) (E : vpost Z) : 0 ≤ biglock_depth w → kd_wf ms w i kd →
  kd_find (vol_of ms) kd devname = t → (if t then finds X ms w t (λ v, Q (Some v)) E else Q None ms w) →
  vspec X (getroot_dev kd devname) ms w Q E.
Proof.
  intros Hd [W1 W2 W3 W4] <- H. destruct W3 as (n & Hn & _). unfold getroot_dev, kd_find in *. rewrite streq_named. change (streq (kd_name kd) devname) with (bool_decide (kd_name kd = devname)).
  apply vs_bind. destruct (kd_fs kd) as [f|] eqn:Ef.
  - destruct (W4 f eq_refl) as [m Hm]. apply vs_bind, (vs_getvolname X f m); [done|]. unfold vol_of in H. rewrite Hm in H. simpl in H.
    rewrite streq_named. destruct (bool_decide (kd_name kd = devname) || _) eqn:Eo.
    + apply vs_bind. destruct H as (m0 & Hm0 & HX & HQ). assert (m0 = m) as -> by congruence. apply (vs_getroot X f m); [done|done|]. intros d Hd'. by apply vs_ret, vs_ret, HQ.
    + apply vs_ret. apply orb_false_elim in Eo as [-> _]. case_bool_decide; [|by apply vs_ret].
      apply vs_bind, vs_kassert; [apply bool_decide_eq_true; destruct W1 as [? ->]; [left; congruence|done]|]. by apply (vs_give_device X _ n).
  - destruct (W1 (or_intror eq_refl)) as [dv Edv]. rewrite Edv in *. case_bool_decide as Hsame.
    + destruct (kd_rawname kd) as [raw|]; [by apply vs_fail|]. apply vs_ret. do 3 (apply vs_bind, vs_kassert; [by apply bool_decide_eq_true|]). by apply (vs_give_device X _ n).
    + assert (match kd_rawname kd with Some _ => false | None => false end = false) as -> by (by destruct (kd_rawname kd)). apply vs_ret.
      case_bool_decide; [|by apply vs_ret]. apply vs_bind, vs_kassert; [by apply bool_decide_eq_true|]. by apply (vs_give_device X _ n).
Qed.

Lemma getroot_loop_spec X ms w l k devname (Q : vpost vnode) (E : vpost Z) : 0 ≤ biglock_depth w → (∀ i kd, l !! i = Some kd → kd_wf ms w (k + i) kd) →
  finds X ms w (table_find (vol_of ms) l devname) Q E → vspec X (getroot_loop l devname) ms w Q E.
Proof.
  intros Hd. revert k. induction l as [|kd l IH]; intros k Hl H; cbn [getroot_loop table_find] in *; [by apply vs_fail|].
  apply vs_bind. eapply (getroot_dev_spec X ms w (k + 0) kd devname _ _ _ Hd); [by apply Hl|reflexivity|]. destruct (kd_find _ _ _) as [[p|f|]|].
  - by apply vs_ret.
  - destruct H as (m & H1 & H2 & H3). exists m. split_and!; [done|done|]. intros d Hd'. by apply vs_ret, H3.
  - done.
  - apply (IH (S k)); [|done]. intros i kd' Hi. replace (S k + i)%nat with (k + S i)%nat by lia. by apply Hl.
Qed.

Lemma vfs_getroot_spec X ms w devname (Q : vpost vnode) (E : vpost Z) : 0 < biglock_depth w → table_wf ms w →
  finds X ms w (table_find (vol_of ms) (knowndevs w) devname) Q E → vspec X (vfs_getroot devname) ms w Q E.
Proof.
  intros Hd Hw H. apply vs_bind, vs_gets; [done|]. apply vs_bind, vs_kassert; [lia|]. apply vs_get. intros s _ <-.
  apply (getroot_loop_spec X ms (erase s) _ 0); [lia|apply Hw|done].
Qed.

(** ** Adding devices *)

(** [n] is one of the names of the device. *)
Definition answers ms (kd : knowndev) (n : str) : Prop := n ∈ kd_names kd ∨ ∃ f, kd_fs kd = Some f ∧ vol_of ms f = Some n.
Definition one_of (n : str) (a b c : option str) : Prop := a = Some n ∨ b = Some n ∨ c = Some n.
Definition taken ms w (a b c : option str) : Prop := ∃ kd n, kd ∈ knowndevs w ∧ one_of n a b c ∧ answers ms kd n.

Lemma samestring3_spec o a b c : samestring3 o a b c = true ↔ ∃ n, o = Some n ∧ one_of n a b c.
Proof.
  assert (∀ p, samestring o p = true ↔ ∃ n, o = Some n ∧ p = Some n) as Hs.
  { intros p. unfold samestring, streq. destruct o as [x|], p as [y|]; rewrite ?bool_decide_eq_true; naive_solver. }
  unfold samestring3, one_of. rewrite !orb_true_iff, !Hs. naive_solver.
Qed.

Lemma badnames_loop_spec X ms w l a b c (Q : vpost bool) (E : vpost Z) : (∀ kd f, kd ∈ l → kd_fs kd = Some f → is_Some (ms !! f)) →
  (∀ r : bool, (r = true ↔ ∃ kd n, kd ∈ l ∧ one_of n a b c ∧ answers ms kd n) → Q r ms w) → vspec X (badnames_loop l a b c) ms w Q E.
Proof.
  induction l as [|kd l IH] in Q |- *; intros Hl HQ; cbn [badnames_loop].
  { apply vs_ret, HQ. split; [done|]. intros (kd & n & []%not_elem_of_nil & _). }
  apply vs_bind. apply (vs_conseq _ _ _ _ (λ vol ms' w', ms' = ms ∧ w' = w ∧ (vol = true ↔ ∃ f n, kd_fs kd = Some f ∧ vol_of ms f = Some n ∧ one_of n a b c)) _ E); [|..|done].
  - destruct (kd_fs kd) as [f|] eqn:Ef; [|apply vs_ret; split_and!; [done|done|naive_solver]]. destruct (Hl kd f) as [m Hm]; [by left|done|].
    apply vs_bind, (vs_getvolname X f m); [done|]. apply vs_ret. split_and!; [done|done|]. rewrite samestring3_spec. unfold vol_of. split.
    + intros (n & E1 & E2). exists f, n. by rewrite Hm.
    + intros (f' & n & [= <-] & E1 & E2). rewrite Hm in E1. by exists n.
  - intros vol ms' w' (-> & -> & Hvol). destruct vol; [apply vs_ret, HQ; split; [intros _|done]|].
    { destruct Hvol as [(f & n & H1 & H2 & H3) _]; [done|]. exists kd, n. split_and!; [by left|done|]. right. by exists f. }
    destruct (samestring3 (kd_rawname kd) a b c || _) eqn:Eo.
    + apply vs_ret, HQ. split; [intros _|done]. apply orb_true_iff in Eo as [(n & En & Ho)%samestring3_spec|(n & [= En] & Ho)%samestring3_spec].
      * exists kd, n. split_and!; [by left|done|]. left. unfold kd_names. rewrite En. simpl. right. by left.
      * exists kd, n. split_and!; [by left|done|]. left. rewrite <- En. by left.
    + apply orb_false_iff in Eo as [E1 E2]. apply IH; [intros kd' f Hk; apply Hl; by right|]. intros r Hr. apply HQ. rewrite Hr. split.
      * intros (kd' & n & Hk & Ho & Ha). exists kd', n. split_and!; [by right|done|done].
      * intros (kd' & n & [->|Hk]%elem_of_cons & Ho & Ha); [exfalso|by exists kd', n]. destruct Ha as [[->|Hr']%elem_of_cons|(f & Hf & Hv)].
        -- assert (samestring3 (Some (kd_name kd)) a b c = true) by (apply samestring3_spec; eauto). congruence.
        -- destruct (kd_rawname kd) as [raw|]; [|by apply not_elem_of_nil in Hr']. apply list_elem_of_singleton in Hr' as ->.
           assert (samestring3 (Some raw) a b c = true) by (apply samestring3_spec; eauto). congruence.
        -- assert (false = true) by (apply Hvol; by exists f, n). done.
Qed.

Lemma badnames_spec X ms w a b c (Q : vpost bool) (E : vpost Z) : 0 < biglock_depth w → table_wf ms w →
  (∀ r : bool, (r = true ↔ taken ms w a b c) → Q r ms w) → vspec X (badnames a b c) ms w Q E.
Proof.
  intros Hd Hw HQ. apply vs_bind, vs_gets; [done|]. apply vs_bind, vs_kassert; [lia|]. apply vs_get. intros s _ <-.
  apply badnames_loop_spec; [|done]. intros kd f [i Hi]%list_elem_of_lookup Hf. by apply (kw_fs _ _ _ _ (tw_each _ _ Hw i kd Hi)).
Qed.

Lemma vs_kmalloc X ms w (Q : vpost bool) (E : vpost Z) : 0 ≤ biglock_depth w → (∀ b l, Q b ms (set_mem l w)) → vspec X kmalloc_ok ms w Q E.
Proof. intros Hd HQ. apply vs_get. intros s _ _. apply vs_bind, vs_modify; [done|done|]. by apply vs_ret. Qed.

Lemma vs_alloc X n ms w (Q : vpost unit) (E : vpost Z) : 0 ≤ biglock_depth w → Q tt ms (set_live (λ l, l + n) w) → vspec X (alloc n) ms w Q E.
Proof. intros Hd HQ. by apply vs_modify. Qed.

(** What the table does not see: memory, and vnodes that no device has. *)
Record quiet w w' : Prop := {
  qu_devs : knowndevs w' = knowndevs w;
  qu_depth : biglock_depth w' = biglock_depth w;
  qu_boot : bootfs_vnode w' = bootfs_vnode w;
  qu_cwd : p_cwd w' = p_cwd w;
  qu_devices : devices w' = devices w;
  qu_drivers : drivers w' = drivers w;
  qu_next : vfs_next w ≤ vfs_next w';
  qu_old : ∀ p, p < vfs_next w → devnodes w' !! p = devnodes w !! p;
  qu_new : ∀ p, vfs_next w' ≤ p → devnodes w !! p = None → devnodes w' !! p = None
}.

Lemma quiet_refl w : quiet w w.
Proof. by split. Qed.

Lemma quiet_wf ms w w' : quiet w w' → table_wf ms w → table_wf ms w'.
Proof.
  intros [Q1 Q2 Q3 Q4 Q5 Q6 Q7 Q8 Q9] [T1 T2 T3 T4]. split; rewrite ?Q1; try done.
  - intros i kd Hi. destruct (T1 i kd Hi) as [W1 W2 W3 W4]. split; try done; [by rewrite Q5|]. destruct W3 as (n & Hn & Hrest). exists n. split; [|done].
    rewrite Q8; [done|]. destruct (decide (kd_vnode kd < vfs_next w)); [done|]. rewrite T4 in Hn by lia. done.
  - intros p Hp. apply Q9; [done|]. apply T4. lia.
Qed.

Lemma wf_biglock ms w d : table_wf ms w → table_wf ms (set_biglock d w).
Proof. intros [T1 T2 T3 T4]. split; try done. intros i kd Hi. destruct (T1 i kd Hi). by split. Qed.

(** Looking for memory and making the vnode. *)
Lemma vs_create_vnode X dev ms w (Q : vpost (option Z)) (E : vpost Z) : 0 ≤ biglock_depth w → (∀ p, vfs_next w ≤ p → devnodes w !! p = None) →
  (∀ w', quiet w w' → Q None ms w') →
  (∀ w', quiet w w' → vfs_next w < vfs_next w' → devnodes w' !! vfs_next w = Some (mkDn 1 0 dev) → Q (Some (vfs_next w)) ms w') →
  vspec X (dev_create_vnode dev) ms w Q E.
Proof.
  intros Hd Hn HQ1 HQ2. apply vs_bind, vs_kmalloc; [done|]. intros b l. destruct b; [|by apply vs_ret, HQ1]. apply vs_bind. apply vs_get. intros s _ Es.
  assert (vfs_next s = vfs_next w) as -> by (change (vfs_next (erase s) = vfs_next w); by rewrite Es).
  apply vs_bind, vs_modify; [done|done|]. apply vs_ret, vs_bind, vs_alloc; [done|]. apply vs_bind, vs_modify; [done|done|]. apply vs_ret, HQ2; simpl.
  - split; simpl; try done; try lia; [intros p Hp; by rewrite lookup_insert_ne by lia|]. intros p Hp Hnone. rewrite lookup_insert_ne by lia. done.
  - lia.
  - by rewrite lookup_insert_eq.
Qed.

Lemma quiet_trans w1 w2 w3 : quiet w1 w2 → quiet w2 w3 → quiet w1 w3.
Proof.
  intros [A1 A2 A3 A4 A5 A6 A7 A8 A9] [B1 B2 B3 B4 B5 B6 B7 B8 B9]. split; try congruence; [lia|..].
  - intros p Hp. rewrite B8, A8 by lia. done.
  - intros p Hp Hn. apply B9; [lia|]. destruct (decide (p < vfs_next w2)); [lia|]. apply A9; [lia|done].
Qed.

Lemma rawname_new name : name ≠ mkrawname name.
Proof. intros E. apply (f_equal length) in E. unfold mkrawname in E. rewrite length_app in E. simpl in E. lia. Qed.

(** The device that vfs_doadd makes, and when its arguments are right. *)
Definition new_dev (dname : str) (mountable : bool) (dev fs : option Z) (vn : Z) : knowndev :=
  mkKd dname (if mountable then Some (mkrawname dname) else None) dev vn fs.

Record addable ms w (mountable : bool) (dev fs : option Z) : Prop := {
  ad_device : mountable = true ∨ fs = None → is_Some dev;
  ad_known : ∀ d, dev = Some d → is_Some (devices w !! d) ∧ ∀ kd, kd ∈ knowndevs w → kd_device kd ≠ Some d;
  ad_fs : ∀ f, fs = Some f → is_Some (ms !! f) ∧ ∀ kd, kd ∈ knowndevs w → kd_fs kd ≠ Some f
}.

(** The numbering of the new device. *)
Definition numbered (dev : option Z) (n : Z) w w' : Prop :=
  devices w' = match dev with Some d => alter (λ x, mkDevice (d_blocks x) (d_blocksize x) n (d_driver x)) d (devices w) | None => devices w end.

Lemma added_wf ms w w' dname mountable dev fs vn : table_wf ms w → addable ms w mountable dev fs →
  ¬ taken ms w (Some dname) (kd_rawname (new_dev dname mountable dev fs vn)) (fs ≫= vol_of ms) → devnodes w !! vn = Some (mkDn 1 0 dev) →
  knowndevs w' = knowndevs w ++ [new_dev dname mountable dev fs vn] → devnodes w' = devnodes w → vfs_next w' = vfs_next w →
  numbered dev (lengthZ (knowndevs w) + 1) w w' → table_wf ms w'.
Proof.
  intros [T1 T2 T3 T4] [A1 A2 A3] Hfree Hvn E1 E2 E3 E4. set (kd0 := new_dev dname mountable dev fs vn) in *.
  split; rewrite ?E1, ?E2, ?E3; [..|done].
  - intros i kd [Hi|[Hi Hk]]%lookup_app_Some.
    + destruct (T1 i kd Hi) as [W1 W2 W3 W4]. split; rewrite ?E2; try done. intros d Hd. destruct (W2 d Hd) as (x & Hx & Hn). exists x. split; [|done].
      rewrite E4. destruct dev as [d0|]; [|done]. rewrite lookup_alter_ne; [done|]. intros ->. destruct (A2 d eq_refl) as [_ Hno].
      apply (Hno kd); [by eapply list_elem_of_lookup_2|done].
    + apply list_lookup_singleton_Some in Hk as [Hi0 <-]. split.
      * intros [H|H]; apply A1; [left|by right]. by destruct mountable.
      * simpl. intros d ->. destruct (A2 d eq_refl) as [[x Hx] _]. rewrite E4, lookup_alter_eq, Hx. eexists. split; [done|]. simpl. unfold lengthZ. lia.
      * exists (mkDn 1 0 dev). by rewrite E2.
      * intros f Hf. by apply A3.
  - rewrite bind_app. apply NoDup_app. split_and!; [done| |].
    + intros n [kd [Hn Hkd]]%list_elem_of_bind. intros Hn0. apply Hfree. exists kd, n. split_and!; [done| |by left]. simpl in Hn0. rewrite app_nil_r in Hn0.
      apply elem_of_cons in Hn0 as [->|Hn0]; [by left|]. right. left. destruct mountable; [|by apply not_elem_of_nil in Hn0].
      by apply list_elem_of_singleton in Hn0 as ->.
    + simpl. rewrite app_nil_r. unfold kd_names. simpl. destruct mountable; simpl; [|apply NoDup_singleton]. apply NoDup_cons. split; [|apply NoDup_singleton].
      rewrite list_elem_of_singleton. apply rawname_new.
  - intros i j k1 k2 f [H1|[H1 [Hi1 <-]%list_lookup_singleton_Some]]%lookup_app_Some [H2|[H2 [Hj1 <-]%list_lookup_singleton_Some]]%lookup_app_Some F1 F2.
    + by eapply T3.
    + exfalso. destruct (A3 f F2) as [_ Hno]. apply (Hno k1); [by eapply list_elem_of_lookup_2|done].
    + exfalso. destruct (A3 f F1) as [_ Hno]. apply (Hno k2); [by eapply list_elem_of_lookup_2|done].
    + lia.
Qed.

(** vfs_doadd: the device is in the table, or the table is as it was. *)
Definition add_ok ms w dname mountable dev fs (ms' : gmap Z mfs) (w' : vfs F D) : Prop :=
  ms' = ms ∧ table_wf ms w' ∧ (∃ vn, knowndevs w' = knowndevs w ++ [new_dev dname mountable dev fs vn]) ∧
  biglock_depth w' = biglock_depth w ∧ bootfs_vnode w' = bootfs_vnode w ∧ p_cwd w' = p_cwd w.
Definition add_failed ms w dname (mountable : bool) fs (e : Z) (ms' : gmap Z mfs) (w' : vfs F D) : Prop :=
  ms' = ms ∧ quiet w w' ∧
  (e = ENOMEM ∨ (e = EEXIST ∧ taken ms w (Some dname) (if mountable then Some (mkrawname dname) else None) (fs ≫= vol_of ms))).

Lemma quiet_live w f : quiet w (set_live f w).
Proof. by split. Qed.

Lemma quiet_mem w l : quiet w (set_mem l w).
Proof. by split. Qed.

Lemma taken_quiet ms w w' a b c : quiet w w' → taken ms w' a b c ↔ taken ms w a b c.
Proof. intros [Q1 _ _ _ _ _ _ _ _]. unfold taken. by rewrite Q1. Qed.

Lemma addable_quiet ms w w' mountable dev fs : quiet w w' → addable ms w mountable dev fs → addable ms w' mountable dev fs.
Proof. intros [Q1 _ _ _ Q5 _ _ _ _] [A1 A2 A3]. split; rewrite ?Q1, ?Q5; done. Qed.

Lemma quiet_unlock w w' : quiet (set_biglock (biglock_depth w + 1) w) w' → quiet w (set_biglock (biglock_depth w' - 1) w').
Proof. intros [Q1 Q2 Q3 Q4 Q5 Q6 Q7 Q8 Q9]. simpl in *. split; simpl; try done. lia. Qed.

Lemma failed_unlock ms w dname (mountable : bool) fs e w' : 0 ≤ biglock_depth w → quiet (set_biglock (biglock_depth w + 1) w) w' →
  (e = ENOMEM ∨ (e = EEXIST ∧ taken ms w' (Some dname) (if mountable then Some (mkrawname dname) else None) (fs ≫= vol_of ms))) →
  unlocked (add_failed ms w dname mountable fs) e ms w'.
Proof.
  intros Hd Hq He. split; [rewrite (qu_depth _ _ Hq); simpl; lia|]. split_and!; [done|by apply quiet_unlock|]. rewrite (taken_quiet _ _ _ _ _ _ Hq) in He. done.
Qed.

(** The end of vfs_doadd, once the name is known to be free. *)
Lemma doadd_insert X ms w w1 dname (mountable : bool) dev fs vn : 0 ≤ biglock_depth w → table_wf ms w → addable ms w mountable dev fs →
  quiet (set_biglock (biglock_depth w + 1) w) w1 → devnodes w1 !! vn = Some (mkDn 1 0 dev) →
  ¬ taken ms w1 (Some dname) (if mountable then Some (mkrawname dname) else None) (fs ≫= vol_of ms) →
  vspec X (s <- get ;;
           let index := lengthZ (knowndevs s) in
           modify (set_knowndevs (knowndevs s ++ [new_dev dname mountable dev fs vn])) ;;
           match dev with
           | Some d => x <- deref (devices s !! d) ;;
                       modify (set_devices <[d := mkDevice (d_blocks x) (d_blocksize x) (index + 1) (d_driver x)]>)
           | None => ret tt
           end) ms w1 (unlocked (λ _, add_ok ms w dname mountable dev fs)) (unlocked (add_failed ms w dname mountable fs)).
Proof.
  intros Hd Hw Ha Hq Hvn Hfree. pose proof (qu_depth _ _ Hq) as Ed. simpl in Ed. apply vs_get. intros s _ Es. assert (knowndevs s = knowndevs w1 ∧ devices s = devices w1) as [-> ->] by (by rewrite <- Es).
  cbv zeta. apply vs_bind, vs_modify; [done|simpl; lia|]. assert (table_wf ms w1) as Hw1 by (by eapply quiet_wf; [exact Hq|apply wf_biglock]).
  assert (addable ms w1 mountable dev fs) as Ha1 by (eapply addable_quiet; [exact Hq|]; by destruct Ha; split).
  assert (∀ w2, knowndevs w2 = knowndevs w1 ++ [new_dev dname mountable dev fs vn] → devnodes w2 = devnodes w1 → vfs_next w2 = vfs_next w1 → numbered dev (lengthZ (knowndevs w1) + 1) w1 w2 →
    biglock_depth w2 = biglock_depth w1 → bootfs_vnode w2 = bootfs_vnode w1 → p_cwd w2 = p_cwd w1 → unlocked (λ _ : unit, add_ok ms w dname mountable dev fs) tt ms w2) as Hdone.
  { intros w2 E1 E2 E3 E4 E5 E6 E7. split; [lia|]. pose proof (added_wf ms w1 (set_biglock (biglock_depth w2 - 1) w2) dname mountable dev fs vn Hw1 Ha1 Hfree Hvn E1 E2 E3 E4) as Hwf.
    destruct Hq as [Q1 Q2 Q3 Q4 Q5 Q6 Q7 Q8 Q9]. simpl in *. split_and!; [done|done|exists vn; simpl; congruence|simpl; lia|simpl; congruence|simpl; congruence]. }
  destruct dev as [d|]; [|apply vs_ret, Hdone; done]. destruct (ad_known _ _ _ _ _ Ha1 d eq_refl) as [[x Hx] _]. apply vs_bind. eapply vs_deref; [exact Hx|].
  apply vs_modify; [done|simpl; lia|]. apply Hdone; try done. unfold numbered. simpl. by rewrite (alter_alt_Some _ _ _ x Hx).
Qed.

Lemma vfs_doadd_spec X ms w dname mountable dev fs : 0 ≤ biglock_depth w → table_wf ms w → addable ms w mountable dev fs →
  vspec X (vfs_doadd dname mountable dev fs) ms w (λ _, add_ok ms w dname mountable dev fs) (add_failed ms w dname mountable fs).
Proof.
  intros Hd Hw Ha. apply vs_biglock; [done|]. set (w0 := set_biglock (biglock_depth w + 1) w).
  assert (∀ n w1, quiet w0 w1 → vspec X (nomem n) ms w1 (unlocked (λ _ : unit, add_ok ms w dname mountable dev fs)) (unlocked (add_failed ms w dname mountable fs))) as Hnomem.
  { intros n w1 Hq. apply vs_bind, vs_alloc; [rewrite (qu_depth _ _ Hq); simpl; lia|]. apply vs_fail, failed_unlock; [done|by eapply quiet_trans, quiet_live|by left]. }
  assert (∀ w1, quiet w0 w1 → 0 < biglock_depth w1) as Hlock by (intros w1 Hq; rewrite (qu_depth _ _ Hq); simpl; lia).
  pose proof (wf_biglock ms w (biglock_depth w + 1) Hw) as Hw0. fold w0 in Hw0.
  apply vs_bind, vs_kmalloc; [simpl; lia|]. intros b l1. destruct b; [|apply Hnomem, quiet_mem]. apply vs_bind, vs_alloc; [simpl; lia|]. apply vs_bind.
  set (w1 := set_live _ _). assert (quiet w0 w1) as Hq1 by (by split).
  apply (vs_conseq _ _ _ _ (λ b ms' w2, ms' = ms ∧ quiet w0 w2) _ (λ _ _ _, False)); [|intros b ms' w2 [-> Hq2]|done].
  { destruct mountable; [apply vs_kmalloc; [simpl; lia|]; intros b l; by split; [|eapply quiet_trans, quiet_mem]|by apply vs_ret]. }
  destruct b; [|by apply Hnomem]. apply vs_bind, vs_alloc; [by apply Z.lt_le_incl, Hlock|]. apply vs_bind. set (w3 := set_live _ w2). assert (quiet w0 w3) as Hq3 by (by eapply quiet_trans, quiet_live).
  eapply vs_create_vnode; [by apply Z.lt_le_incl, (Hlock _ Hq3)|apply (quiet_wf ms _ _ Hq3 Hw0)|intros w4 Hq4; by eapply Hnomem, quiet_trans|].
  intros w4 Hq4 Hnext Hvn. pose proof (quiet_trans _ _ _ Hq3 Hq4) as Hq04. apply vs_bind, vs_kmalloc; [by apply Z.lt_le_incl, Hlock|]. intros b l5.
  destruct b.
  2: { apply vs_bind, vs_modify; [done|by apply Z.lt_le_incl, (Hlock w4)|]. apply Hnomem. eapply quiet_trans; [exact Hq3|]. destruct Hq4 as [Q1 Q2 Q3 Q4 Q5 Q6 Q7 Q8 Q9].
    split; simpl; try done; [intros p Hp; rewrite lookup_delete_ne by lia; by apply Q8|]. intros p Hp Hnone. rewrite lookup_delete_None. right. by apply Q9. }
  apply vs_bind, vs_alloc; [by apply Z.lt_le_incl, (Hlock w4)|]. set (w5 := set_live _ _). assert (quiet w4 w5) as Hq45 by (by split). pose proof (quiet_trans _ _ _ Hq04 Hq45) as Hq5.
  assert (devnodes w5 !! vfs_next w3 = Some (mkDn 1 0 dev)) as Hvn5 by done. apply vs_bind.
  apply (vs_conseq _ _ _ _ (λ v ms' w', v = fs ≫= vol_of ms ∧ ms' = ms ∧ w' = w5) _ (λ _ _ _, False)); [|intros v ms' w' (-> & -> & ->)|done].
  { destruct fs as [f|]; [|by apply vs_ret]. destruct (ad_fs _ _ _ _ _ Ha f eq_refl) as [[m Hm] _]. apply (vs_getvolname X f m); [done|]. split_and!; [|done|done].
    simpl. unfold vol_of. by rewrite Hm. }
  apply vs_bind, badnames_spec; [by apply Hlock|by eapply quiet_wf|]. intros [] Hbad; [apply vs_fail, failed_unlock; [done|done|by right; split; [|apply Hbad]]|].
  apply vs_bind, vs_kmalloc; [by apply Z.lt_le_incl, (Hlock w4)|]. intros b l6. pose proof (quiet_trans _ _ _ Hq5 (quiet_mem w5 l6)) as Hq6.
  destruct b; [|apply vs_fail, failed_unlock; by auto]. apply (doadd_insert X ms w _ dname mountable dev fs); try done. intros Ht. by apply Hbad in Ht.
Qed.

(** ** The directories the VFS layer holds *)

Definition held_by (f : Z) (o : option vnode) : Z := match o with Some (FsVn g _) => if decide (g = f) then 1 else 0 | _ => 0 end.
Definition held w f : Z := held_by f (p_cwd w) + held_by f (bootfs_vnode w).
Definition root_vnode ms (v : vnode) : Prop := ∃ f m, v = FsVn f (m_root m) ∧ ms !! f = Some m.

(** The current directory and the boot file system are root directories, and there is
    a reference for each. *)
Record dirs_ok ms w : Prop := {
  di_cwd : ∀ v, p_cwd w = Some v → root_vnode ms v;
  di_boot : ∀ v, bootfs_vnode w = Some v → root_vnode ms v;
  di_refs : ∀ f m, ms !! f = Some m → held w f ≤ m_refs m
}.

Record vinv ms w : Prop := {
  vi_depth : 0 ≤ biglock_depth w;
  vi_table : table_wf ms w;
  vi_dirs : dirs_ok ms w
}.

Lemma held_by_pos f d : held_by f (Some (FsVn f d)) = 1.
Proof. unfold held_by. by rewrite decide_True. Qed.

Lemma held_by_nonneg f o : 0 ≤ held_by f o.
Proof. unfold held_by. destruct o as [[]|]; try done. by case_decide. Qed.

(** A file system whose root directory the VFS layer holds has a reference to it. *)
Lemma dir_refs ms w f d m : dirs_ok ms w → (p_cwd w = Some (FsVn f d) ∨ bootfs_vnode w = Some (FsVn f d)) → ms !! f = Some m → m_root m = d ∧ 0 < m_refs m.
Proof.
  intros [D1 D2 D3] Hv Hm. specialize (D3 f m Hm). unfold held in D3. pose proof (held_by_nonneg f (p_cwd w)). pose proof (held_by_nonneg f (bootfs_vnode w)).
  destruct Hv as [Hv|Hv]; rewrite Hv, held_by_pos in D3.
  - destruct (D1 _ Hv) as (f' & m' & [= <- ->] & Hm'). assert (m' = m) as -> by congruence. split; [done|lia].
  - destruct (D2 _ Hv) as (f' & m' & [= <- ->] & Hm'). assert (m' = m) as -> by congruence. split; [done|lia].
Qed.

(** The references to the root directory that there were are still there. *)
Definition still_rooted (m m' : mfs) : Prop := m_refs m ≤ m_refs m' ∧ (0 < m_refs m → m_root m' = m_root m).

Lemma dirs_update ms w f m m' : dirs_ok ms w → ms !! f = Some m → still_rooted m m' → dirs_ok (<[f := m']> ms) w.
Proof.
  intros Hd Hm [H1 H2]. pose proof Hd as [D1 D2 D3].
  assert (∀ v, (p_cwd w = Some v ∨ bootfs_vnode w = Some v) → root_vnode ms v → root_vnode (<[f := m']> ms) v) as Hv.
  { intros v Ho (g & mg & -> & Hg). destruct (decide (g = f)) as [->|Hne].
    - assert (mg = m) as -> by congruence. destruct (dir_refs _ _ _ _ _ Hd Ho Hm) as [_ Hpos]. exists f, m'. rewrite H2, lookup_insert_eq by done. done.
    - exists g, mg. by rewrite lookup_insert_ne. }
  split; [by auto|by auto|]. intros g mg [[<- <-]|[Hne Hg]]%lookup_insert_Some; [|by apply D3]. specialize (D3 f m Hm). lia.
Qed.

Lemma table_update ms w f m' : is_Some (ms !! f) → table_wf ms w → table_wf (<[f := m']> ms) w.
Proof.
  intros Hf [T1 T2 T3 T4]. split; try done. intros i kd Hi. destruct (T1 i kd Hi) as [W1 W2 W3 W4]. split; try done.
  intros g Hg. rewrite lookup_insert_is_Some'. right. by apply W4.
Qed.

Lemma vinv_update ms w f m m' : vinv ms w → ms !! f = Some m → still_rooted m m' → vinv (<[f := m']> ms) w.
Proof. intros [V1 V2 V3] Hm Hr. split; [done|by apply table_update; [eexists|]|by eapply dirs_update]. Qed.

Lemma dirs_same ms w w' : dirs_ok ms w → p_cwd w' = p_cwd w → bootfs_vnode w' = bootfs_vnode w → dirs_ok ms w'.
Proof. intros [D1 D2 D3] E1 E2. split; unfold held; rewrite ?E1, ?E2; done. Qed.

Lemma vinv_quiet ms w w' : vinv ms w → quiet w w' → vinv ms w'.
Proof. intros [V1 V2 V3] Hq. pose proof (qu_depth _ _ Hq). split; [lia|by eapply quiet_wf|eapply dirs_same; [done|apply Hq|apply Hq]]. Qed.

Lemma vinv_biglock ms w d : vinv ms w → 0 ≤ d → vinv ms (set_biglock d w).
Proof. intros [V1 V2 V3] Hd. split; [done|by apply wf_biglock|by eapply dirs_same]. Qed.

(** vfs_adddev and vfs_addfs *)
Lemma doadd_vinv X ms w dname mountable dev fs : vinv ms w → addable ms w mountable dev fs →
  vspec X (vfs_doadd dname mountable dev fs) ms w (λ _ ms' w', vinv ms' w') (λ _ ms' w', vinv ms' w').
Proof.
  intros Hv Ha. eapply vs_conseq; [by apply vfs_doadd_spec; [apply Hv|apply Hv|]|..].
  - intros _ ms' w' (-> & Hw' & _ & E1 & E2 & E3). destruct Hv as [V1 V2 V3]. split; [lia|done|by eapply dirs_same].
  - intros e ms' w' (-> & Hq & _). by eapply vinv_quiet.
Qed.
End Table.
