(* ===== verification/VfsMount.v ===== *)
(** * The virtual file system: mounting

    Specifications of vfs_mount, vfs_unmount, vfs_unmountall, vfs_sync and
    vfs_bootstrap against the invariant of VfsTable.v. *)

From S2P Require Import Prelude UserCopy Uio Disk Vfs Afs VfsSpec VfsTable.
#[local] Open Scope kern_scope.

Section Mount.
Context {F D : Type} `{!FileSystem F, !FsLaws F, !Driver D}.
Implicit Types (s w : vfs F D) (ms : gmap Z mfs) (X : Prop).
#[local] Notation VM := (M (vfs F D)).
#[local] Notation vpost A := (A → gmap Z mfs → vfs F D → Prop).

(** ** Finding the device *)

(** Device [i] can be mounted on and has that name. *)
Definition mountable_at w (devname : str) (i : nat) (kd : knowndev) : Prop :=
  knowndevs w !! i = Some kd ∧ kd_rawname kd ≠ None ∧ kd_name kd = devname.

Lemma findmount_loop_spec l k devname :
  match findmount_loop l k devname with
  | Some j => ∃ i kd, j = (k + i)%nat ∧ l !! i = Some kd ∧ kd_rawname kd ≠ None ∧ kd_name kd = devname
  | None => ∀ kd, kd ∈ l → kd_rawname kd ≠ None → kd_name kd ≠ devname
  end.
Proof.
  revert k. induction l as [|kd l IH]; intros k; cbn [findmount_loop]; [by intros kd []%not_elem_of_nil|]. specialize (IH (S k)).
  assert (∀ j, (∃ i kd', j = (S k + i)%nat ∧ l !! i = Some kd' ∧ kd_rawname kd' ≠ None ∧ kd_name kd' = devname) →
    ∃ i kd', j = (k + i)%nat ∧ (kd :: l) !! i = Some kd' ∧ kd_rawname kd' ≠ None ∧ kd_name kd' = devname) as Hnext.
  { intros j (i & kd' & -> & H). exists (S i), kd'. split; [lia|done]. }
  unfold streq. repeat case_bool_decide.
  - destruct (findmount_loop l (S k) devname); [by apply Hnext|]. intros kd' [->|Hk]%elem_of_cons; [done|by apply IH].
  - exists 0%nat, kd. split_and!; [lia|done|done|done].
  - destruct (findmount_loop l (S k) devname); [by apply Hnext|]. intros kd' [->|Hk]%elem_of_cons; [done|by apply IH].
Qed.

Lemma findmount_spec X ms w devname (Q : vpost nat) (E : vpost Z) : 0 < biglock_depth w →
  (∀ i kd, mountable_at w devname i kd → Q i ms w) → ((∀ i kd, ¬ mountable_at w devname i kd) → E ENODEV ms w) → vspec X (findmount devname) ms w Q E.
Proof.
  intros Hd HQ HE. apply vs_bind, vs_gets; [done|]. apply vs_bind, vs_kassert; [lia|]. apply vs_get. intros s _ <-.
  pose proof (findmount_loop_spec (knowndevs s) 0 devname) as H. destruct (findmount_loop _ _ _) as [j|].
  - destruct H as (i & kd & -> & H1 & H2 & H3). apply vs_ret, (HQ _ kd). done.
  - apply vs_fail, HE. intros i kd (H1 & H2 & H3). apply (H kd); [by eapply list_elem_of_lookup_2|done|done].
Qed.

(** ** Mounting *)

(** What vfs_mount relies on: the function makes a new struct fs. *)
Definition mounts (mountfunc : Z → VM Z) : Prop := ∀ X d ms w, 0 < biglock_depth w →
  vspec X (mountfunc d) ms w (λ f ms' w', ∃ m, ms !! f = None ∧ 0 ≤ m_refs m ∧ ms' = <[f := m]> ms ∧ quiet w w') (λ e ms' w', ms' = ms ∧ quiet w w').

Definition with_fs (kd : knowndev) (v : option Z) : knowndev := mkKd (kd_name kd) (kd_rawname kd) (kd_device kd) (kd_vnode kd) v.

Lemma vs_set_kd_fs X i kd v ms w (Q : vpost unit) (E : vpost Z) : 0 ≤ biglock_depth w → knowndevs w !! i = Some kd →
  Q tt ms (set_knowndevs (<[i := with_fs kd v]> (knowndevs w)) w) → vspec X (set_kd_fs i v) ms w Q E.
Proof.
  intros Hd Hi HQ. apply vs_modify; [done|done|]. cbv beta.
  assert (alter (λ kd, mkKd (kd_name kd) (kd_rawname kd) (kd_device kd) (kd_vnode kd) v) i (knowndevs w) = <[i := with_fs kd v]> (knowndevs w)) as ->; [|done].
  apply list_eq. intros j. destruct (decide (j = i)) as [->|Hj].
  - rewrite list_lookup_alter_eq, Hi, list_lookup_insert_eq by (by eapply lookup_lt_Some). done.
  - by rewrite list_lookup_alter_ne, list_lookup_insert_ne by done.
Qed.

Lemma names_with_fs (l : list knowndev) i kd v : l !! i = Some kd → <[i := with_fs kd v]> l ≫= kd_names = l ≫= kd_names.
Proof.
  revert i. induction l as [|k l IH]; intros [|i] Hi; simpl in *; [done|done| |].
  - by injection Hi as ->.
  - by rewrite IH.
Qed.

(** Changing what is mounted on a device that can be mounted on. *)
Lemma remount_wf ms ms' w w' i kd v : table_wf ms w → knowndevs w !! i = Some kd → kd_rawname kd ≠ None →
  (∀ j k g, j ≠ i → knowndevs w !! j = Some k → kd_fs k = Some g → is_Some (ms' !! g) ∧ v ≠ Some g) → (∀ g, v = Some g → is_Some (ms' !! g)) →
  knowndevs w' = <[i := with_fs kd v]> (knowndevs w) → devnodes w' = devnodes w → devices w' = devices w → vfs_next w' = vfs_next w → table_wf ms' w'.
Proof.
  intros [T1 T2 T3 T4] Hi Hraw Hother Hv E1 E2 E3 E4. pose proof (lookup_lt_Some _ _ _ Hi) as Hlen.
  assert (∀ j k, knowndevs w' !! j = Some k → (j = i ∧ k = with_fs kd v) ∨ (j ≠ i ∧ knowndevs w !! j = Some k)) as Hcase.
  { intros j k. rewrite E1. destruct (decide (j = i)) as [->|Hj]; [rewrite list_lookup_insert_eq by done; naive_solver|]. rewrite list_lookup_insert_ne by done. auto. }
  split.
  - intros j k Hj. destruct (Hcase j k Hj) as [[-> ->]|[Hne Hk]].
    + destruct (T1 i kd Hi) as [W1 W2 W3 W4]. split; rewrite ?E2, ?E3; simpl; auto.
    + destruct (T1 j k Hk) as [W1 W2 W3 W4]. split; rewrite ?E2, ?E3; try done. intros g Hg. by destruct (Hother j k g Hne Hk Hg).
  - by rewrite E1, names_with_fs.
  - intros a b k1 k2 g H1 H2 F1 F2. destruct (Hcase _ _ H1) as [[-> ->]|[N1 K1]], (Hcase _ _ H2) as [[-> ->]|[N2 K2]]; [done|..|by eapply T3]; simpl in *.
    + by destruct (Hother b k2 g N2 K2 F2).
    + by destruct (Hother a k1 g N1 K1 F1).
  - rewrite E2, E4. done.
Qed.

Lemma vfs_mount_spec X ms w devname mountfunc : vinv ms w → mounts mountfunc →
  vspec X (vfs_mount devname mountfunc) ms w
    (λ _ ms' w', vinv ms' w' ∧ ∃ i kd f m, mountable_at w devname i kd ∧ kd_fs kd = None ∧ ms !! f = None ∧ ms' = <[f := m]> ms ∧
       knowndevs w' = <[i := with_fs kd (Some f)]> (knowndevs w))
    (λ e ms' w', vinv ms' w' ∧ ms' = ms ∧ knowndevs w' = knowndevs w) .
Proof.
  intros Hv Hm. pose proof Hv as [V1 V2 V3]. apply vs_biglock; [done|]. set (w0 := set_biglock _ w).
  assert (∀ w1, quiet w0 w1 → 0 < biglock_depth w1 ∧ vinv ms (set_biglock (biglock_depth w1 - 1) w1) ∧ knowndevs w1 = knowndevs w) as Hq0.
  { intros w1 Hq. assert (biglock_depth w1 = biglock_depth w + 1) as Ed by apply Hq. split_and!; [lia| |apply Hq]. eapply vinv_quiet; [exact Hv|]. by apply quiet_unlock. }
  assert (∀ e w1, quiet w0 w1 → unlocked (λ (_ : Z) ms' w', vinv ms' w' ∧ ms' = ms ∧ knowndevs w' = knowndevs w) e ms w1) as Hfail.
  { intros e w1 Hq. destruct (Hq0 w1 Hq) as (H1 & H2 & H3). by split. }
  apply vs_bind, findmount_spec; [simpl; lia| |intros _; apply Hfail, quiet_refl]. intros i kd (Hi & Hraw & Hname). apply vs_get. intros s _ Es.
  apply vs_bind. assert (knowndevs s = knowndevs w) as -> by (change (knowndevs (erase s) = knowndevs w); by rewrite Es). eapply vs_deref; [exact Hi|].
  destruct (kd_fs kd) as [g|] eqn:Ef; [apply vs_fail, Hfail, quiet_refl|]. pose proof (tw_each _ _ V2 i kd Hi) as [W1 W2 W3 W4].
  destruct (W1 (or_intror Ef)) as [d Hd]. apply vs_bind, vs_kassert; [by apply bool_decide_eq_true|]. apply vs_bind, vs_kassert; [apply bool_decide_eq_true; congruence|].
  apply vs_bind. eapply vs_deref; [exact Hd|]. apply vs_bind. eapply vs_conseq; [apply Hm; simpl; lia| |intros e ms' w' [-> Hq]; by apply Hfail].
  intros f ms' w1 (m & Hf & Hm0 & -> & Hq). destruct (Hq0 w1 Hq) as (Hl & Hv1 & Ek). apply vs_bind, (vs_set_kd_fs X i kd); [lia|by rewrite Ek|].
  apply vs_bind, (vs_getvolname X f m); [by rewrite lookup_insert_eq|]. apply vs_ret. split; [done|]. set (w2 := set_biglock _ _).
  assert (∀ j k g, knowndevs w !! j = Some k → kd_fs k = Some g → is_Some (ms !! g)) as Hmnt by (intros j k g Hj; apply (kw_fs _ _ _ _ (tw_each _ _ V2 j k Hj))).
  split; [split|].
  - simpl. lia.
  - apply (remount_wf ms _ _ w2 i kd (Some f) (vi_table _ _ Hv1)); try done; simpl; rewrite ?Ek; try done.
    + intros j k g Hj Hk Hg. split; [rewrite lookup_insert_is_Some'; right; by eapply Hmnt|]. intros [= <-]. destruct (Hmnt j k f Hk Hg). congruence.
    + intros g [= <-]. by rewrite lookup_insert_eq.
  - assert (p_cwd w2 = p_cwd w ∧ bootfs_vnode w2 = bootfs_vnode w) as [C1 C2] by (simpl; split; apply Hq). destruct V3 as [D1 D2 D3].
    assert (∀ v, root_vnode ms v → root_vnode (<[f := m]> ms) v) as Hroot.
    { intros v (g & mg & -> & Hg). exists g, mg. split; [done|]. rewrite lookup_insert_ne; [done|congruence]. }
    split; unfold held; rewrite ?C1, ?C2; [by auto|by auto|]. intros g mg [[<- <-]|[Hne Hg]]%lookup_insert_Some; [|by apply D3].
    assert (∀ o, (∀ v, o = Some v → root_vnode ms v) → held_by f o = 0) as Hz.
    { intros [v|] Ho; [|done]. destruct (Ho v eq_refl) as (g & mg & -> & Hg). unfold held_by. rewrite decide_False; [done|congruence]. }
    rewrite !Hz by done. lia.
  - exists i, kd, f, m. split_and!; try done. simpl. by rewrite Ek.
Qed.

(** ** Unmounting *)

Definition busy (m : mfs) : Prop := 0 < m_refs m ∨ m_vns m ≠ ∅.

Lemma vs_drop_fs X f ms w (Q : vpost unit) (E : vpost Z) : Q tt (delete f ms) w → vspec X (modify (set_filesystems (delete f))) ms w Q E.
Proof.
  intros HQ s [Hd Hs] <-. apply wp_modify. exists (delete f ms). split; [done|]. split; [done|]. intros g. simpl. specialize (Hs g).
  destruct (decide (g = f)) as [->|Hg]; [by rewrite !lookup_delete_eq|]. by rewrite !lookup_delete_ne.
Qed.

Lemma vs_unmount X f m ms w (Q : vpost unit) (E : vpost Z) : ms !! f = Some m → (m_refs m = 0 → m_vns m = ∅ → Q tt (delete f ms) w) →
  (busy m → E EBUSY ms w) → vspec X (FSOP_SYNC f ;; FSOP_UNMOUNT f) ms w Q E.
Proof.
  intros Hf HQ HE. apply (vs_ext X _ (on_fs f (fs_sync ;; fs_unmount) ;; modify (set_filesystems (delete f)))).
  { intros s. unfold FSOP_UNMOUNT. rewrite <- (bind_assoc (FSOP_SYNC f) (λ _, on_fs f fs_unmount)). unfold bind at 1 4, FSOP_SYNC. by rewrite (on_fs_bind f fs_sync fs_unmount). }
  apply vs_bind, (vs_law X f m _ ms w _ _ _ _ Hf (law_unmount X m)).
  - intros _ m' [H1 H2]. apply vs_drop_fs. rewrite delete_insert_eq. by apply HQ.
  - intros e m' (-> & Hb & ->). rewrite insert_id by done. by apply HE.
Qed.

(** The file system on a device is gone, and nothing held it. *)
Lemma unmounted_vinv ms w w' i kd f m : vinv ms w → knowndevs w !! i = Some kd → kd_rawname kd ≠ None → kd_fs kd = Some f → ms !! f = Some m → m_refs m = 0 →
  w' = set_knowndevs (<[i := with_fs kd None]> (knowndevs w)) w → vinv (delete f ms) w'.
Proof.
  intros [V1 V2 V3] Hi Hraw Hf Hm H0 ->. split; [done|..].
  - apply (remount_wf ms _ w _ i kd None V2); try done. intros j k g Hj Hk Hg. split; [|done]. rewrite lookup_delete_ne.
    + by apply (kw_fs _ _ _ _ (tw_each _ _ V2 j k Hk)).
    + intros <-. by apply Hj, (tw_fs _ _ V2 j i k kd f).
  - assert (∀ v, p_cwd w = Some v ∨ bootfs_vnode w = Some v → root_vnode ms v → root_vnode (delete f ms) v) as Hroot.
    { intros v Ho (g & mg & -> & Hg). exists g, mg. split; [done|]. rewrite lookup_delete_ne; [done|]. intros <-. destruct (dir_refs _ _ _ _ _ V3 Ho Hm). lia. }
    destruct V3 as [D1 D2 D3]. split; simpl; [by auto|by auto|]. intros g mg [Hne Hg]%lookup_delete_Some. by apply D3.
Qed.

Lemma vfs_unmount_spec X ms w devname : vinv ms w →
  vspec X (vfs_unmount devname) ms w
    (λ _ ms' w', vinv ms' w' ∧ ∃ i kd f m, mountable_at w devname i kd ∧ kd_fs kd = Some f ∧ ms !! f = Some m ∧ ¬ busy m ∧ ms' = delete f ms ∧
       w' = set_knowndevs (<[i := with_fs kd None]> (knowndevs w)) w)
    (λ e ms' w', ms' = ms ∧ w' = w ∧
       ((e = ENODEV ∧ ∀ i kd, ¬ mountable_at w devname i kd) ∨
        (∃ i kd, mountable_at w devname i kd ∧ ((e = EINVAL ∧ kd_fs kd = None) ∨ (e = EBUSY ∧ ∃ f m, kd_fs kd = Some f ∧ ms !! f = Some m ∧ busy m))))).
Proof.
  intros Hv. pose proof Hv as [V1 V2 V3]. apply vs_biglock; [done|]. set (w0 := set_biglock _ w).
  assert (set_biglock (biglock_depth w0 - 1) w0 = w) as Eback by (replace (biglock_depth w0 - 1) with (biglock_depth w) by (simpl; lia); apply set_biglock_back).
  apply vs_bind, findmount_spec; [simpl; lia| |intros Hno; split; [simpl; lia|]; rewrite Eback; by auto]. intros i kd Hi. apply vs_get. intros s _ Es.
  apply vs_bind. assert (knowndevs s = knowndevs w) as -> by (change (knowndevs (erase s) = knowndevs w); by rewrite Es). pose proof Hi as (Hk & Hraw & Hname).
  eapply vs_deref; [exact Hk|]. pose proof (tw_each _ _ V2 i kd Hk) as [W1 W2 W3 W4].
  destruct (kd_fs kd) as [f|] eqn:Ef; [|apply vs_fail; split; [simpl; lia|]; rewrite Eback; by eauto 10]. destruct (W1 (or_introl Hraw)) as [d Hd]. destruct (W4 f eq_refl) as [m Hm].
  apply vs_bind, vs_kassert; [by apply bool_decide_eq_true|]. apply vs_bind, vs_kassert; [apply bool_decide_eq_true; congruence|].
  apply (vs_ext X _ ((FSOP_SYNC f ;; FSOP_UNMOUNT f) ;; set_kd_fs i None)); [intros s'; by rewrite bind_assoc|].
  apply vs_bind, (vs_unmount X f m); [done| |].
  - intros H0 Hvn. apply (vs_set_kd_fs X i kd); [simpl; lia|done|]. split; [simpl; lia|]. set (w' := set_biglock _ _).
    assert (w' = set_knowndevs (<[i := with_fs kd None]> (knowndevs w)) w) as -> by (rewrite <- Eback at 2; done).
    split; [by eapply (unmounted_vinv ms w)|]. exists i, kd, f, m. split_and!; try done. intros [?|?]; [lia|done].
  - intros Hb. split; [simpl; lia|]. rewrite Eback. split_and!; [done|done|]. right. exists i, kd. eauto 10.
Qed.

(** vfs_unmountall drops the file systems that are not busy. *)
Definition dropped_idle (l : list knowndev) ms ms' : Prop :=
  ms' ⊆ ms ∧ (∀ f m, ms !! f = Some m → busy m → ms' !! f = Some m) ∧
  (∀ kd f m, kd ∈ l → kd_rawname kd ≠ None → kd_fs kd = Some f → ms !! f = Some m → ¬ busy m → ms' !! f = None).

Lemma vs_sync_once X f m ms w (Q : vpost unit) (E : vpost Z) : ms !! f = Some m → Q tt ms w → vspec X (FSOP_SYNC f) ms w Q E.
Proof. intros Hf HQ. apply (vs_law X f m _ ms w _ _ _ _ Hf (law_sync X m)); [|by intros]. intros [] m' ->. by rewrite insert_id. Qed.

Lemma unmount_one_spec X i kd f m ms w (Q : vpost unit) (E : vpost Z) : 0 ≤ biglock_depth w → knowndevs w !! i = Some kd → ms !! f = Some m →
  (m_refs m = 0 → m_vns m = ∅ → Q tt (delete f ms) (set_knowndevs (<[i := with_fs kd None]> (knowndevs w)) w)) → (busy m → Q tt ms w) →
  vspec X (unmount_one i f) ms w Q E.
Proof.
  intros Hd Hi Hm HQ1 HQ2 s Hs Hw.
  assert (unmount_one i f s = bind (attempt (FSOP_SYNC f ;; FSOP_UNMOUNT f)) (λ r, match r with inr _ => ret tt | inl _ => set_kd_fs i None end) s) as E0.
  { unfold unmount_one, bind, attempt. destruct (FSOP_SYNC f s) as [[] s1|e s1| |] eqn:Es; try done.
    assert (vspec True (FSOP_SYNC f) ms w (λ _ _ _, True) (λ _ _ _, False)) as H by (by apply (vs_sync_once True f m)).
    specialize (H s Hs Hw). unfold wpx in H. rewrite Es in H. by destruct H as (? & [] & _). }
  eapply wp_ext; [exact E0|]. clear E0. revert Hw. revert Hs. generalize s. change (vspec X (r <- attempt (FSOP_SYNC f ;; FSOP_UNMOUNT f) ;; match r with inr _ => ret tt | inl _ => set_kd_fs i None end) ms w Q E).
  apply vs_bind, vs_attempt, (vs_unmount X f m); [done| |].
  - intros H1 H2. apply (vs_set_kd_fs X i kd); [done|done|]. by apply HQ1.
  - intros Hb. by apply vs_ret, HQ2.
Qed.

Lemma unmountall_loop_spec X l i ms w (Q : vpost unit) (E : vpost Z) : vinv ms w → drop i (knowndevs w) = l →
  (∀ ms' w', vinv ms' w' → dropped_idle l ms ms' → biglock_depth w' = biglock_depth w → p_cwd w' = p_cwd w → bootfs_vnode w' = bootfs_vnode w → Q tt ms' w') →
  vspec X (unmountall_loop l i) ms w Q E.
Proof.
  revert i ms w. induction l as [|kd l IH]; intros i ms w Hv Hl HQ; cbn [unmountall_loop].
  { apply vs_ret, HQ; try done. split_and!; [done|done|]. intros kd f m []%not_elem_of_nil. }
  assert (knowndevs w !! i = Some kd) as Hi by (rewrite <- (Nat.add_0_r i), <- lookup_drop, Hl; done).
  assert (drop (S i) (knowndevs w) = l) as Hl' by (rewrite <- Nat.add_1_r, <- drop_drop, Hl; done).
  assert (∀ ms1 w1, vinv ms1 w1 → drop (S i) (knowndevs w1) = l → biglock_depth w1 = biglock_depth w → p_cwd w1 = p_cwd w → bootfs_vnode w1 = bootfs_vnode w →
    dropped_idle [kd] ms ms1 → vspec X (unmountall_loop l (S i)) ms1 w1 Q E) as Hnext.
  { intros ms1 w1 Hv1 Hd1 H1 H2 H3 (A1 & A2 & A3). apply IH; [done|done|]. intros ms2 w2 Hv2 (B1 & B2 & B3) F1 F2 F3. apply HQ; [done| |congruence..]. split_and!.
    - by etrans.
    - intros f m Hf Hb. apply B2, Hb. by apply A2.
    - intros kd' f m [->|Hk]%elem_of_cons Hraw Hfs Hm Hb.
      + specialize (A3 kd f m ltac:(by left) Hraw Hfs Hm Hb). destruct (ms2 !! f) eqn:E2; [|done]. pose proof (lookup_weaken _ _ _ _ E2 B1). congruence.
      + destruct (ms1 !! f) as [m1|] eqn:G1.
        * eapply (B3 kd' f m1); try done. pose proof (lookup_weaken _ _ _ _ G1 A1). congruence.
        * destruct (ms2 !! f) eqn:G2; [|done]. pose proof (lookup_weaken _ _ _ _ G2 B1). congruence. }
  apply vs_bind. assert (∀ m, kd_rawname kd = None ∨ kd_fs kd = None ∨ (∃ f, kd_fs kd = Some f ∧ ms !! f = Some m ∧ busy m) → dropped_idle [kd] ms ms) as Hkeep.
  { intros m Hc. split_and!; [done|done|]. intros kd' f m' ->%list_elem_of_singleton Hraw Hfs Hm Hb. destruct Hc as [?|[?|(f' & Hf' & Hm' & Hb')]]; [done|congruence|]. congruence. }
  destruct (kd_rawname kd) as [raw|] eqn:Er; [|apply vs_ret, Hnext; try done; apply (Hkeep (mkMfs (mkAfs ∅ ∅ ∅) None 0 0 ∅)); auto].
  destruct (kd_fs kd) as [f|] eqn:Ef; [|apply vs_ret, Hnext; try done; apply (Hkeep (mkMfs (mkAfs ∅ ∅ ∅) None 0 0 ∅)); auto].
  destruct (kw_fs _ _ _ _ (tw_each _ _ (vi_table _ _ Hv) i kd Hi) f Ef) as [m Hm]. apply (unmount_one_spec X i kd f m); [apply Hv|done|done| |].
  - intros H0 Hvn. apply Hnext; try done; [eapply (unmounted_vinv ms w _ i kd f m); try done; congruence|simpl; by rewrite drop_insert_lt by lia|]. split_and!.
    + apply delete_subseteq.
    + intros g mg Hg Hb. rewrite lookup_delete_ne; [done|]. intros <-. assert (mg = m) as -> by congruence. destruct Hb as [?|?]; [lia|done].
    + intros kd' g mg ->%list_elem_of_singleton _ Hg _ _. assert (g = f) as -> by congruence. apply lookup_delete_eq.
  - intros Hb. apply Hnext; try done. apply (Hkeep m). right. right. by exists f.
Qed.

Lemma vfs_unmountall_spec X ms w : vinv ms w →
  vspec X vfs_unmountall ms w (λ _ ms' w', vinv ms' w' ∧ dropped_idle (knowndevs w) ms ms' ∧ p_cwd w' = p_cwd w ∧ bootfs_vnode w' = bootfs_vnode w) (λ _ _ _, False).
Proof.
  intros Hv. pose proof (vi_depth _ _ Hv). apply vs_biglock; [done|]. apply vs_get. intros s _ Es. assert (knowndevs s = knowndevs w) as -> by (change (knowndevs (erase s) = knowndevs w); by rewrite Es).
  apply unmountall_loop_spec; [apply vinv_biglock; [done|lia]|by rewrite drop_0|]. intros ms' w' Hv' Hd E1 E2 E3. simpl in *. split; [lia|]. split_and!; try done.
  apply vinv_biglock; [done|lia].
Qed.

(** ** Syncing *)

Lemma sync_loop_spec X l ms w (Q : vpost unit) (E : vpost Z) : (∀ kd f, kd ∈ l → kd_fs kd = Some f → is_Some (ms !! f)) → Q tt ms w → vspec X (sync_loop l) ms w Q E.
Proof.
  induction l as [|kd l IH]; intros Hl HQ; cbn [sync_loop]; [by apply vs_ret|]. apply vs_bind.
  assert (vspec X (sync_loop l) ms w Q E) as Hnext by (apply IH; [intros kd' f Hk; apply Hl; by right|done]).
  destruct (kd_fs kd) as [f|] eqn:Ef; [|by apply vs_ret]. destruct (Hl kd f) as [m Hm]; [by left|done|].
  apply vs_bind, vs_attempt, (vs_sync_once X f m); [done|]. by apply vs_ret.
Qed.

Lemma vfs_sync_spec X ms w : vinv ms w → vspec X vfs_sync ms w (λ _ ms' w', ms' = ms ∧ w' = w) (λ _ _ _, False).
Proof.
  intros Hv. pose proof (vi_depth _ _ Hv). apply vs_biglock; [done|]. apply vs_get. intros s _ Es. assert (knowndevs s = knowndevs w) as -> by (change (knowndevs (erase s) = knowndevs w); by rewrite Es).
  apply sync_loop_spec.
  - intros kd f [i Hi]%list_elem_of_lookup Hf. by apply (kw_fs _ _ _ _ (tw_each _ _ (vi_table _ _ Hv) i kd Hi)).
  - split; [simpl; lia|]. split; [done|]. replace (biglock_depth _ - 1) with (biglock_depth w) by (simpl; lia). apply set_biglock_back.
Qed.

(** ** Bootstrapping *)

(** The state before vfs_bootstrap: no directories are held. *)
Record unbooted w : Prop := {
  ub_cwd : p_cwd w = None;
  ub_boot : bootfs_vnode w = None;
  ub_next : ∀ p, vfs_next w ≤ p → devnodes w !! p = None;
  ub_refs : 0 ≤ biglock_depth w
}.

Lemma vs_kmalloc_or_panic X ms w (Q : vpost unit) (E : vpost Z) : X → 0 ≤ biglock_depth w → (∀ l, Q tt ms (set_mem l w)) →
  vspec X (mem <- kmalloc_ok ;; kassert mem) ms w Q E.
Proof. intros HX Hd HQ. apply vs_bind, vs_kmalloc; [done|]. intros [] l; [by apply vs_kassert|by apply vs_panic]. Qed.

(** vfs_bootstrap leaves null: as the only device; it panics only for want of memory. *)
Lemma vfs_bootstrap_spec X ms w : X → unbooted w → (∀ f m, ms !! f = Some m → 0 ≤ m_refs m) →
  vspec X vfs_bootstrap ms w
    (λ _ ms' w', ms' = ms ∧ vinv ms w' ∧ biglock_depth w' = 0 ∧ ∃ d vn, knowndevs w' = [mkKd NULL_NAME None (Some d) vn None]) (λ _ _ _, False).
Proof.
  intros HX [U1 U2 U3 U4] Hms. unfold vfs_bootstrap, devnull_create.
  apply (vs_ext X _ ((mem <- kmalloc_ok ;; kassert mem) ;; (modify (set_knowndevs []) ;; (mem <- kmalloc_ok ;; kassert mem) ;; modify (set_biglock 0) ;; devnull_create))).
  { intros s. unfold bind. by destruct (kmalloc_ok s). }
  apply vs_bind, vs_kmalloc_or_panic; [done|done|]. intros l1. apply vs_bind, vs_modify; [done|done|]. apply vs_bind, vs_kmalloc_or_panic; [done|done|]. intros l2.
  apply vs_bind, vs_modify; [done|done|]. unfold devnull_create.
  apply vs_bind, vs_kmalloc; [done|]. intros b l3. apply vs_bind. destruct b; [|by apply vs_panic]. apply vs_kassert; [done|].
  apply vs_bind, vs_get. intros s _ Es. assert (vfs_next s = vfs_next w) as -> by (change (vfs_next (erase s) = vfs_next w); by rewrite Es).
  apply vs_bind, vs_modify; [done|done|]. apply vs_ret, vs_bind, vs_modify; [done|done|]. set (w1 := set_devices _ _).
  assert (table_wf ms w1) as Hw1.
  { split; simpl; [by intros i kd|constructor|by intros i j k1 k2 f|]. intros p Hp. apply U3. lia. }
  assert (addable ms w1 false (Some (vfs_next w)) None) as Ha.
  { split; [by eexists|..|done]. intros d [= <-]. split; [simpl; rewrite lookup_insert_eq; by eexists|]. by intros kd []%not_elem_of_nil. }
  apply vs_bind, vs_attempt. eapply vs_conseq; [apply vfs_doadd_spec; [done|done|exact Ha]|..].
  - intros [] ms' w' (-> & Hw' & (vn & E1) & E2 & E3 & E4). apply vs_ret. split_and!; [done| |by rewrite E2|by exists (vfs_next w), vn].
    assert (p_cwd w' = None) as C1 by (rewrite E4; exact U1). assert (bootfs_vnode w' = None) as C2 by (rewrite E3; exact U2).
    split; [rewrite E2; simpl; lia|done|]. split; unfold held; rewrite ?C1, ?C2; [done|done|]. intros f m Hf. simpl. by eapply Hms.
  - intros e ms' w' _. by apply vs_panic.
Qed.
End Mount.
