(* ===== verification/VfsOps.v ===== *)
(** * The virtual file system: operations on paths

    Specifications of name resolution (vfslookup.c), the current directory
    (vfscwd.c) and the operations of vfspath.c for paths that lead to a mounted file
    system: each does what the file system's operation does to the name that is left
    of the path, and gives back every reference it took. *)

From S2P Require Import Prelude UserCopy Uio Disk Vfs Afs VfsSpec VfsTable.
#[local] Open Scope kern_scope.

Section Ops.
Context {F D : Type} `{!FileSystem F, !FsLaws F, !Driver D}.
Implicit Types (s w : vfs F D) (ms : gmap Z mfs) (X : Prop).
#[local] Notation VM := (M (vfs F D)).
#[local] Notation vpost A := (A → gmap Z mfs → vfs F D → Prop).

(** ** Where a path starts *)

Definition fs_of (o : option vnode) : option Z := match o with Some (FsVn f _) => Some f | _ => None end.

(** The file system a path leads to, and the rest of the path. *)
Definition start ms w (path : str) : option (Z * str) :=
  match first_mark path with
  | Some (m, [], rest) => f ← fs_of (if m =? SLASH then bootfs_vnode w else p_cwd w); Some (f, skip_slashes rest)
  | Some (m, dev, rest) =>
      if m =? COLON then match table_find (vol_of ms) (knowndevs w) dev with Some (RootOf f) => Some (f, skip_slashes rest) | _ => None end
      else f ← fs_of (p_cwd w); Some (f, path)
  | None => f ← fs_of (p_cwd w); Some (f, path)
  end.

(** ** References *)

Lemma vs_incref_root X f m ms w (Q : vpost unit) (E : vpost Z) : ms !! f = Some m → 0 < m_refs m →
  Q tt (<[f := set_rooted (m_root m) (m_refs m + 1) m]> ms) w → vspec X (VOP_INCREF (FsVn f (m_root m))) ms w Q E.
Proof. intros Hf Hr HQ. apply (vs_law X f m _ ms w _ _ _ _ Hf (law_incref_root X m Hr)); [|by intros]. by intros [] m' ->. Qed.

Lemma vs_decref_root X f m ms w (Q : vpost unit) (E : vpost Z) : ms !! f = Some m → 0 < m_refs m →
  Q tt (<[f := set_rooted (m_root m) (m_refs m - 1) m]> ms) w → vspec X (VOP_DECREF (FsVn f (m_root m))) ms w Q E.
Proof. intros Hf Hr HQ. apply (vs_law X f m _ ms w _ _ _ _ Hf (law_decref_root X m Hr)); [|by intros]. by intros [] m' ->. Qed.

(** [m] with [n] references to the root directory more; [d] is its vnode. *)
Definition rooted (m : mfs) (d n : Z) : mfs := set_rooted d (m_refs m + n) m.
Definition root_of (m : mfs) (d : Z) : Prop := 0 < m_refs m → d = m_root m.

(** The same for a file system that is known under other changes. *)
Lemma vs_decref_at X f m d n ms w (Q : vpost unit) (E : vpost Z) : ms !! f = Some m → m_root m = d → m_refs m = n → 0 < n →
  Q tt (<[f := set_rooted d (n - 1) m]> ms) w → vspec X (VOP_DECREF (FsVn f d)) ms w Q E.
Proof. intros Hf <- <- Hr HQ. by apply vs_decref_root. Qed.

Lemma vs_getcurdir X f d m ms w (Q : vpost vnode) (E : vpost Z) : vinv ms w → p_cwd w = Some (FsVn f d) → ms !! f = Some m →
  (m_root m = d → 0 < m_refs m → Q (FsVn f d) (<[f := rooted m d 1]> ms) w) → vspec X vfs_getcurdir ms w Q E.
Proof.
  intros Hv Hc Hf HQ. destruct (dir_refs _ _ f d m (vi_dirs _ _ Hv) (or_introl Hc) Hf) as [<- Hr]. apply vs_get. intros s _ Es.
  assert (p_cwd s = p_cwd w) as -> by (by rewrite <- Es). rewrite Hc. apply vs_bind, vs_incref_root; [done|done|]. by apply vs_ret, HQ.
Qed.

Lemma rooted_drop m d k n : n = m_refs m + k + 1 → set_rooted d (n - 1) (set_rooted d n m) = rooted m d k.
Proof. intros ->. unfold rooted, set_rooted. simpl. f_equal. lia. Qed.

(** ** getdevice *)

Lemma fs_of_Some o f : fs_of o = Some f → ∃ d, o = Some (FsVn f d).
Proof. destruct o as [[]|]; simpl; naive_solver. Qed.

Lemma vs_getdevice X f m path sub ms w (Q : vpost (vnode * str)) (E : vpost Z) : vinv ms w → 0 < biglock_depth w → start ms w path = Some (f, sub) → ms !! f = Some m →
  (m_refs m = 0 → X) → (∀ d, root_of m d → Q (FsVn f d, sub) (<[f := rooted m d 1]> ms) w) → vspec X (getdevice path) ms w Q E.
Proof.
  intros Hv Hl Hs Hf HX HQ. apply vs_bind, vs_gets; [done|]. apply vs_bind, vs_kassert; [lia|]. unfold start in Hs.
  assert (∀ sub', fs_of (p_cwd w) = Some f → sub' = sub → vspec X (v <- vfs_getcurdir ;; ret (v, sub')) ms w Q E) as Hcwd.
  { intros sub' (d & Hc)%fs_of_Some ->. apply vs_bind, (vs_getcurdir X f d m); [done|done|done|]. intros <- _. by apply vs_ret, HQ. }
  destruct (first_mark path) as [[[mk pre] rest]|]; [|destruct (fs_of (p_cwd w)) eqn:Ef; [|done]; injection Hs as -> ->; by apply Hcwd].
  destruct pre as [|c pre].
  - destruct (mk =? SLASH).
    + destruct (fs_of (bootfs_vnode w)) eqn:Ef; [|done]. injection Hs as -> <-. apply fs_of_Some in Ef as [d Hb]. apply vs_get. intros s _ Es.
      assert (bootfs_vnode s = bootfs_vnode w) as -> by (by rewrite <- Es). rewrite Hb. destruct (dir_refs _ _ f d m (vi_dirs _ _ Hv) (or_intror Hb) Hf) as [<- Hr].
      apply vs_bind, vs_incref_root; [done|done|]. by apply vs_ret, HQ.
    + destruct (fs_of (p_cwd w)) eqn:Ef; [|done]. injection Hs as -> <-. apply fs_of_Some in Ef as [d Hc]. apply vs_bind, (vs_getcurdir X f d m); [done|done|done|].
      intros Hd Hr. apply vs_bind, vs_kassert; [by apply bool_decide_eq_true|]. apply vs_bind. eapply vs_deref; [done|]. set (m1 := rooted m d 1).
      assert (m_refs m1 = m_refs m + 1) as Er by done. apply vs_bind, (vs_getroot X f m1); [by rewrite lookup_insert_eq|lia|]. intros d' Hd'. rewrite Er in Hd'. rewrite Hd' by lia.
      rewrite insert_insert_eq. apply vs_bind, (vs_decref_at X f (set_rooted d (m_refs m + 2) m) d (m_refs m + 2)); [rewrite lookup_insert_eq; f_equal; unfold set_rooted; simpl; f_equal; lia|done|done|lia|].
      rewrite insert_insert_eq. apply vs_ret. rewrite (rooted_drop m d 1) by lia. apply HQ. by intros _.
  - destruct (mk =? COLON); [|destruct (fs_of (p_cwd w)) eqn:Ef; [|done]; injection Hs as -> <-; by apply Hcwd].
    destruct (table_find _ _ _) as [[|g|]|] eqn:Et; try done. injection Hs as -> <-. apply vs_bind, vfs_getroot_spec; [done|apply Hv|]. rewrite Et.
    exists m. split_and!; [done|done|]. intros d Hd. by apply vs_ret, HQ.
Qed.

(** ** Lookup *)

Lemma unlock_same {A} (Q : vpost A) a ms w : 0 ≤ biglock_depth w → Q a ms w → unlocked Q a ms (set_biglock (biglock_depth w + 1) w).
Proof.
  intros Hd HQ. split; [simpl; lia|]. replace (biglock_depth (set_biglock (biglock_depth w + 1) w) - 1) with (biglock_depth w) by (simpl; lia). by rewrite set_biglock_back.
Qed.

Lemma vs_lookparent X f m path name buflen ms w (Q : vpost (vnode * str)) (E : vpost Z) : vinv ms w → start ms w path = Some (f, name) → name ≠ [] → ms !! f = Some m →
  (m_refs m = 0 → X) → 0 ≤ m_refs m →
  (∀ d, root_of m d → lengthZ name < buflen → Q (FsVn f d, name) (<[f := rooted m d 1]> ms) w) →
  (∀ d, root_of m d → buflen ≤ lengthZ name → E ENAMETOOLONG (<[f := rooted m d 0]> ms) w) → vspec X (vfs_lookparent path buflen) ms w Q E.
Proof.
  intros Hv Hs Hn Hf HX H0 HQ HE. pose proof (vi_depth _ _ Hv) as Hd. apply vs_biglock; [done|].
  apply vs_bind, (vs_getdevice X f m path name); [apply vinv_biglock; [done|lia]|simpl; lia|done|done|done|]. intros d Hroot. cbv beta match zeta.
  assert (lengthZ name =? 0 = false) as -> by (destruct name; [done|unfold lengthZ; simpl; lia]). apply vs_finally. set (m1 := rooted m d 1).
  assert (m_refs m1 = m_refs m + 1) as Er by done. assert (0 < m_refs m1) as Hpos by lia. apply vs_bind.
  apply (vs_law X f m1 _ _ _ _ _ _ _ (lookup_insert_eq _ _ _) (law_lookparent X m1 name buflen Hpos)).
  - intros r m' (-> & Hlen & ->). apply vs_ret. rewrite insert_insert_eq. eapply (vs_decref_at X f _ d (m_refs m + 2)); [by rewrite lookup_insert_eq|done|simpl; lia|lia|].
    rewrite insert_insert_eq. apply unlock_same; [done|]. replace (set_rooted _ _ _) with (rooted m d 1) by (unfold rooted, set_rooted; simpl; f_equal; lia). by apply HQ.
  - intros e m' (-> & Hlen & ->). rewrite insert_insert_eq. eapply (vs_decref_at X f _ d (m_refs m + 1)); [by rewrite lookup_insert_eq|done|done|lia|].
    rewrite insert_insert_eq. apply unlock_same; [done|]. replace (set_rooted _ _ _) with (rooted m d 0) by (unfold rooted, set_rooted; simpl; f_equal; lia). by apply HE.
Qed.

Lemma vs_lookup X f m path name ms w (Q : vpost vnode) (E : vpost Z) : vinv ms w → start ms w path = Some (f, name) → name ≠ [] → ms !! f = Some m →
  (m_refs m = 0 → X) → 0 ≤ m_refs m →
  (∀ d v ino, root_of m d → a_names (m_afs m) !! name = Some ino → vnode_for m ino v → Q (FsVn f v) (<[f := m_get ino v (rooted m d 0)]> ms) w) →
  (∀ d e, root_of m d → (e = ENOENT ∧ a_names (m_afs m) !! name = None) ∨ e = ENOMEM → E e (<[f := rooted m d 0]> ms) w) → vspec X (vfs_lookup path) ms w Q E.
Proof.
  intros Hv Hs Hn Hf HX H0 HQ HE. pose proof (vi_depth _ _ Hv) as Hd. apply vs_biglock; [done|].
  apply vs_bind, (vs_getdevice X f m path name); [apply vinv_biglock; [done|lia]|simpl; lia|done|done|done|]. intros d Hroot. cbv beta match zeta.
  assert (lengthZ name =? 0 = false) as -> by (destruct name; [done|unfold lengthZ; simpl; lia]). apply vs_finally. set (m1 := rooted m d 1).
  assert (m_refs m1 = m_refs m + 1) as Er by done. assert (0 < m_refs m1) as Hpos by lia. apply vs_bind.
  apply (vs_law X f m1 _ _ _ _ _ _ _ (lookup_insert_eq _ _ _) (law_lookup X m1 name Hpos)).
  - intros v m' (ino & Hname & Hvn & ->). apply vs_ret. rewrite insert_insert_eq. eapply (vs_decref_at X f _ d (m_refs m + 1)); [by rewrite lookup_insert_eq|done|done|lia|].
    rewrite insert_insert_eq. apply unlock_same; [done|]. replace (set_rooted _ _ _) with (m_get ino v (rooted m d 0)) by (unfold rooted, set_rooted, m_get, set_afs, set_vns; simpl; f_equal; lia).
    by apply HQ.
  - intros e m' [He ->]. rewrite insert_insert_eq. eapply (vs_decref_at X f _ d (m_refs m + 1)); [by rewrite lookup_insert_eq|done|done|lia|].
    rewrite insert_insert_eq. apply unlock_same; [done|]. replace (set_rooted _ _ _) with (rooted m d 0) by (unfold rooted, set_rooted; simpl; f_equal; lia). by apply HE.
Qed.

(** Just the name of a device or a mark: its root directory. *)
Lemma vs_lookup_root X f m path ms w (Q : vpost vnode) (E : vpost Z) : vinv ms w → start ms w path = Some (f, []) → ms !! f = Some m →
  (m_refs m = 0 → X) → (∀ d, root_of m d → Q (FsVn f d) (<[f := rooted m d 1]> ms) w) → vspec X (vfs_lookup path) ms w Q E.
Proof.
  intros Hv Hs Hf HX HQ. pose proof (vi_depth _ _ Hv) as Hd. apply vs_biglock; [done|].
  apply vs_bind, (vs_getdevice X f m path []); [apply vinv_biglock; [done|lia]|simpl; lia|done|done|done|]. intros d Hroot. apply vs_ret, unlock_same; [done|]. by apply HQ.
Qed.

(** ** A path to a file *)

(** [path] leads to [name] in the file system [f], which is [m]; the file system's
    root directory can be had, or the kernel may panic. *)
Record leads X ms w (path : str) (f : Z) (m : mfs) (name : str) : Prop := {
  le_start : start ms w path = Some (f, name);
  le_name : name ≠ [];
  le_good : good_name name;
  le_fs : ms !! f = Some m;
  le_panic : m_refs m = 0 → X;
  le_refs : 0 ≤ m_refs m
}.

(** What an operation in the parent directory may do: change the file system, but not
    the references to its root directory. *)
Definition kept_root f m d ms w (R : mfs → Prop) (ms' : gmap Z mfs) (w' : vfs F D) : Prop :=
  w' = w ∧ ∃ m', ms' = <[f := m']> ms ∧ m_root m' = d ∧ m_refs m' = m_refs m + 1 ∧ R (set_rooted d (m_refs m) m').

Lemma kept_root_intro f m d ms w (R : mfs → Prop) m' : m_root m' = d → m_refs m' = m_refs m + 1 → R (set_rooted d (m_refs m) m') → kept_root f m d ms w R (<[f := m']> ms) w.
Proof. intros H1 H2 H3. split; [done|]. by exists m'. Qed.

Lemma vs_in_parent X f m path name op ms w (Q : vpost unit) (E : vpost Z) : vinv ms w → leads X ms w path f m name →
  (∀ d, root_of m d → lengthZ name < NAME_BUF →
     vspec X (op (FsVn f d) name) (<[f := rooted m d 1]> ms) w
       (λ _, kept_root f m d ms w (λ m', Q tt (<[f := m']> ms) w)) (λ e, kept_root f m d ms w (λ m', E e (<[f := m']> ms) w))) →
  (∀ d, root_of m d → NAME_BUF ≤ lengthZ name → E ENAMETOOLONG (<[f := rooted m d 0]> ms) w) → vspec X (in_parent path op) ms w Q E.
Proof.
  intros Hv [L1 L2 L3 L4 L5 L6] Hop HE. apply vs_bind, (vs_lookparent X f m path name); try done. intros d Hd Hlen. apply vs_finally.
  assert (∀ Q' : vpost unit, (∀ R ms' w', kept_root f m d ms w R ms' w' → (∀ m', R m' → Q' tt (<[f := m']> ms) w) → vspec X (VOP_DECREF (FsVn f d)) ms' w' Q' E)) as Hdec.
  { intros Q' R ms' w' (-> & m' & -> & E1 & E2 & HR) HQ'. apply (vs_decref_at X f m' d (m_refs m + 1)); [by rewrite lookup_insert_eq|done|done|lia|].
    rewrite insert_insert_eq. apply HQ'. by replace (m_refs m + 1 - 1) with (m_refs m) by lia. }
  eapply vs_conseq; [by apply Hop|..]; intros a ms' w' Hk; [destruct a|]; (eapply Hdec; [exact Hk|done]).
Qed.

(** The relation between what the file system was and what it becomes; without
    references to it, the root directory may have got another vnode. *)
Definition becomes f m ms w (R : mfs → mfs → Prop) (ms' : gmap Z mfs) (w' : vfs F D) : Prop :=
  w' = w ∧ ∃ d m', root_of m d ∧ R (rooted m d 0) m' ∧ ms' = <[f := m']> ms.

Lemma becomes_intro f m ms w d m' (R : mfs → mfs → Prop) : root_of m d → R (rooted m d 0) m' → becomes f m ms w R (<[f := m']> ms) w.
Proof. intros Hd HR. split; [done|]. by exists d, m'. Qed.

(** All file systems are as they were. *)
Definition unchanged ms w (ms' : gmap Z mfs) (w' : vfs F D) : Prop :=
  w' = w ∧ (∀ f, ms !! f = None → ms' !! f = None) ∧ ∀ f m, ms !! f = Some m → ∃ d, root_of m d ∧ ms' !! f = Some (rooted m d 0).

Lemma rooted_0 m d : set_rooted d (m_refs m) m = rooted m d 0.
Proof. unfold rooted. f_equal. lia. Qed.

Lemma rooted_same m : rooted m (m_root m) 0 = m.
Proof. rewrite <- rooted_0. by destruct m. Qed.

Lemma rooted_rooted m d d' n : rooted (rooted m d 0) d' n = rooted m d' n.
Proof. unfold rooted, set_rooted. simpl. f_equal. lia. Qed.

Lemma rooted_more m d : rooted (rooted m d 1) d 1 = rooted m d 2.
Proof. unfold rooted, set_rooted. simpl. f_equal. lia. Qed.

Lemma unchanged_refl ms w : unchanged ms w ms w.
Proof. split_and!; [done|done|]. intros f m Hf. exists (m_root m). split; [done|]. by rewrite rooted_same. Qed.

Lemma unchanged_insert ms w ms' f m d : unchanged ms w ms' w → ms !! f = Some m → root_of m d → unchanged ms w (<[f := rooted m d 0]> ms') w.
Proof.
  intros (_ & H1 & H2) Hf Hd. split_and!; [done|..].
  - intros g Hg. rewrite lookup_insert_ne; [by apply H1|congruence].
  - intros g mg Hg. destruct (decide (g = f)) as [->|Hne]; [|rewrite lookup_insert_ne by done; by apply H2].
    assert (mg = m) as -> by congruence. exists d. by rewrite lookup_insert_eq.
Qed.

(** ** remove *)

Definition remove_ok (name : str) (m m' : mfs) : Prop := ∃ ino a',
  a_names (m_afs m) !! name = Some ino ∧ collected ino (set_names (delete name) (m_afs m)) a' ∧ m' = set_afs (λ _, a') m.
Definition remove_error (m : mfs) (name : str) (e : Z) : Prop :=
  (e = ENAMETOOLONG ∧ NAME_BUF ≤ lengthZ name) ∨ (e = ENOENT ∧ a_names (m_afs m) !! name = None) ∨ resources e.

Lemma vfs_remove_spec X f m path name ms w : vinv ms w → leads X ms w path f m name →
  vspec X (vfs_remove path) ms w (λ _, becomes f m ms w (remove_ok name)) (λ e ms' w', unchanged ms w ms' w' ∧ remove_error m name e).
Proof.
  intros Hv Hle. pose proof Hle as [L1 L2 L3 L4 L5 L6]. apply (vs_in_parent X f m path name); [done|done|..].
  - intros d Hd Hlen. set (m1 := rooted m d 1). assert (0 < m_refs m1) as Hpos by (simpl; lia).
    apply (vs_law X f m1 _ _ _ _ _ _ _ (lookup_insert_eq _ _ _) (law_remove X m1 name Hpos)).
    + intros [] m' (ino & a' & H1 & H2 & ->). rewrite insert_insert_eq. apply kept_root_intro; [done|done|]. apply (becomes_intro f m ms w d); [done|].
      rewrite <- rooted_0. by exists ino, a'.
    + intros e m' [He ->]. rewrite insert_insert_eq. apply kept_root_intro; [done|done|]. change (set_rooted d _ m1) with (set_rooted d (m_refs m) m). rewrite rooted_0.
      split; [by apply unchanged_insert; [apply unchanged_refl|..]|by right].
  - intros d Hd Hlen. split; [by apply unchanged_insert; [apply unchanged_refl|..]|by left].
Qed.

(** ** Two paths *)

Lemma same_fs_true f a b : same_vn_fs (FsVn f a) (FsVn f b) = true.
Proof. by apply bool_decide_eq_true. Qed.

Lemma same_fs_false f g a b : f ≠ g → same_vn_fs (FsVn f a) (FsVn g b) = false.
Proof. intros H. apply bool_decide_eq_false. simpl. naive_solver. Qed.

Lemma start_vols ms ms' w path : (∀ f, vol_of ms' f = vol_of ms f) → start ms' w path = start ms w path.
Proof.
  intros Hv. unfold start. destruct (first_mark path) as [[[m [|c pre]] rest]|]; try done. by rewrite (table_find_ext (vol_of ms') (vol_of ms)).
Qed.

Lemma vol_insert ms f m m' : ms !! f = Some m → m_vol m' = m_vol m → ∀ g, vol_of (<[f := m']> ms) g = vol_of ms g.
Proof. intros Hf Hm g. unfold vol_of. destruct (decide (g = f)) as [->|Hne]; [by rewrite lookup_insert_eq, Hf|by rewrite lookup_insert_ne]. Qed.

(** While a reference to the root directory of [f] is held. *)
Lemma vinv_rooted ms w f m d k : vinv ms w → ms !! f = Some m → root_of m d → 0 ≤ k → vinv (<[f := rooted m d k]> ms) w.
Proof. intros Hv Hf Hd Hk. apply (vinv_update ms w f m); [done|done|]. split; [simpl; lia|done]. Qed.

Lemma leads_update X ms w path f m name g mg m' : leads X ms w path f m name → ms !! g = Some mg → m_vol m' = m_vol mg → m_refs mg ≤ m_refs m' →
  leads X (<[g := m']> ms) w path f (if decide (f = g) then m' else m) name.
Proof.
  intros [L1 L2 L3 L4 L5 L6] Hg Hvol Hr. assert (start (<[g := m']> ms) w path = Some (f, name)) as Hs by (rewrite (start_vols ms); [done|by eapply vol_insert]).
  case_decide as Hfg; [subst g; assert (mg = m) as -> by congruence|]; split; try done; try lia.
  - by rewrite lookup_insert_eq.
  - intros E. apply L5. lia.
  - by rewrite lookup_insert_ne.
Qed.

(** Giving up the two directories, in file systems that are as they were. *)
Lemma vs_decref_two X f1 m1 d1 f2 m2 d2 ms w (Q : vpost unit) (E : vpost Z) : ms !! f1 = Some m1 → ms !! f2 = Some m2 → f1 ≠ f2 → root_of m1 d1 → root_of m2 d2 →
  0 ≤ m_refs m1 → 0 ≤ m_refs m2 → (∀ ms', unchanged ms w ms' w → Q tt ms' w) →
  vspec X (VOP_DECREF (FsVn f2 d2) ;; VOP_DECREF (FsVn f1 d1)) (<[f2 := rooted m2 d2 1]> (<[f1 := rooted m1 d1 1]> ms)) w Q E.
Proof.
  intros H1 H2 Hne R1 R2 P1 P2 HQ. apply vs_bind, (vs_decref_at X f2 (rooted m2 d2 1) d2 (m_refs m2 + 1)); [by rewrite lookup_insert_eq|done|done|lia|].
  rewrite insert_insert_eq. apply (vs_decref_at X f1 (rooted m1 d1 1) d1 (m_refs m1 + 1)); [by rewrite lookup_insert_ne, lookup_insert_eq by done|done|done|lia|].
  apply HQ. change (rooted m1 d1 1) with (set_rooted d1 (m_refs m1 + 1) m1). change (rooted m2 d2 1) with (set_rooted d2 (m_refs m2 + 1) m2). rewrite (rooted_drop m1 d1 0), (rooted_drop m2 d2 0) by lia. split_and!; [done|..].
  - intros g Hg. rewrite !lookup_insert_ne; [done|congruence..].
  - intros g m Hg. destruct (decide (g = f1)) as [->|N1]; [|destruct (decide (g = f2)) as [->|N2]].
    + assert (m = m1) as -> by congruence. exists d1. by rewrite lookup_insert_eq.
    + assert (m = m2) as -> by congruence. exists d2. by rewrite lookup_insert_ne, lookup_insert_eq.
    + exists (m_root m). by rewrite !lookup_insert_ne, rooted_same.
Qed.

(** ** rename *)

Definition rename_ok (n1 n2 : str) (m m' : mfs) : Prop := ∃ ino,
  a_names (m_afs m) !! n1 = Some ino ∧ a_names (m_afs m) !! n2 = None ∧ m' = set_afs (set_names (λ ns, <[n2 := ino]> (delete n1 ns))) m.
Definition rename_error (f1 f2 : Z) (m : mfs) (n1 n2 : str) (e : Z) : Prop :=
  (e = EXDEV ∧ f1 ≠ f2) ∨ (e = ENAMETOOLONG ∧ (NAME_BUF ≤ lengthZ n1 ∨ NAME_BUF ≤ lengthZ n2 ∨ fs_namemax ≤ lengthZ n2)) ∨
  (e = ENOENT ∧ a_names (m_afs m) !! n1 = None) ∨ (e = EEXIST ∧ is_Some (a_names (m_afs m) !! n2)) ∨ resources e.

Lemma vfs_rename_spec X f1 m1 p1 n1 f2 m2 p2 n2 ms w : vinv ms w → leads X ms w p1 f1 m1 n1 → leads X ms w p2 f2 m2 n2 →
  vspec X (vfs_rename p1 p2) ms w (λ _ ms' w', f1 = f2 ∧ becomes f1 m1 ms w (rename_ok n1 n2) ms' w')
    (λ e ms' w', unchanged ms w ms' w' ∧ rename_error f1 f2 m1 n1 n2 e).
Proof.
  intros Hv L1 L2. pose proof L1 as [S1 N1 G1 F1 X1 P1]. pose proof L2 as [S2 N2 G2 F2 X2 P2]. apply vs_bind, (vs_lookparent X f1 m1 p1 n1); try done.
  2: { intros d Hd Hlen. split; [by apply unchanged_insert; [apply unchanged_refl|..]|]. right. left. auto. }
  intros d1 D1 Len1. cbv beta match. apply vs_bind, vs_on_error. set (ms1 := <[f1 := rooted m1 d1 1]> ms).
  assert (vinv ms1 w) as Hv1 by (apply vinv_rooted; done). pose proof (leads_update _ _ _ _ _ _ _ f1 m1 (rooted m1 d1 1) L2 F1 eq_refl ltac:(simpl; lia)) as L2'.
  pose proof L2' as [S2' _ _ F2' X2' P2']. eapply (vs_lookparent X f2 _ p2 n2); [done|done|done|exact F2'|exact X2'|exact P2'|..]; case_decide as Hf; [subst f2|..|subst f2|].
  - intros d2 D2 Len2. rewrite (D2 ltac:(simpl; lia)). cbv beta match. rewrite same_fs_true. simpl negb. cbv match. unfold ms1. rewrite insert_insert_eq, rooted_more.
    apply vs_finally. set (m := rooted m1 d1 2). assert (0 < m_refs m) as Hpos by (simpl; lia).
    assert (∀ m' (Q' : vpost unit), m_root m' = d1 → m_refs m' = m_refs m1 + 2 → Q' tt (<[f1 := set_rooted d1 (m_refs m1) m']> ms) w →
      vspec X (VOP_DECREF (FsVn f1 d1) ;; VOP_DECREF (FsVn f1 d1)) (<[f1 := m']> ms) w Q' (λ e ms' w', unchanged ms w ms' w' ∧ rename_error f1 f1 m1 n1 n2 e)) as Hdec.
    { intros m' Q' E1 E2 HQ'. apply vs_bind, (vs_decref_at X f1 m' d1 (m_refs m1 + 2)); [by rewrite lookup_insert_eq|done|done|lia|]. rewrite insert_insert_eq.
      apply (vs_decref_at X f1 (set_rooted d1 (m_refs m1 + 2 - 1) m') d1 (m_refs m1 + 1)); [by rewrite lookup_insert_eq|done|simpl; lia|lia|]. rewrite insert_insert_eq.
      by replace (m_refs m1 + 1 - 1) with (m_refs m1) by lia. }
    apply (vs_law X f1 m _ _ _ _ _ _ _ (lookup_insert_eq _ _ _) (law_rename X m n1 n2 Hpos G2)).
    + intros [] m' (ino & H1 & H2 & ->). rewrite insert_insert_eq. apply Hdec; [done|done|]. split; [done|]. apply (becomes_intro f1 m1 ms w d1); [done|].
      rewrite <- rooted_0. by exists ino.
    + intros e m' [He ->]. rewrite insert_insert_eq. apply Hdec; [done|done|]. change (set_rooted d1 _ m) with (set_rooted d1 (m_refs m1) m1). rewrite rooted_0.
      split; [by apply unchanged_insert; [apply unchanged_refl|..]|]. unfold rename_error. change (m_afs m) with (m_afs m1) in He. tauto.
  - intros d2 D2 Len2. cbv beta match. rewrite same_fs_false by congruence. simpl negb. cbv match. apply vs_finally, vs_fail.
    apply vs_decref_two; try done; try congruence. intros ms' Hu. split; [done|]. left. split; [done|congruence].
  - intros d2 D2 Len2. rewrite (D2 ltac:(simpl; lia)). unfold ms1. rewrite insert_insert_eq. apply (vs_decref_at X f1 (rooted m1 d1 1) d1 (m_refs m1 + 1)); [|done|done|lia|].
    { rewrite lookup_insert_eq. f_equal. unfold rooted, set_rooted. simpl. f_equal. lia. }
    rewrite insert_insert_eq. change (rooted m1 d1 1) with (set_rooted d1 (m_refs m1 + 1) m1). rewrite (rooted_drop m1 d1 0) by lia.
    split; [by apply unchanged_insert; [apply unchanged_refl|..]|]. right. left. auto.
  - intros d2 D2 Len2. unfold ms1. apply (vs_decref_at X f1 (rooted m1 d1 1) d1 (m_refs m1 + 1)); [by rewrite lookup_insert_ne, lookup_insert_eq by congruence|done|done|lia|].
    rewrite insert_insert_ne, insert_insert_eq by congruence. change (rooted m1 d1 1) with (set_rooted d1 (m_refs m1 + 1) m1). rewrite (rooted_drop m1 d1 0) by lia.
    split; [by apply unchanged_insert; [apply unchanged_insert; [apply unchanged_refl|..]|..]|]. right. left. auto.
Qed.

(** ** References to files *)

Lemma vns_rooted m d k : vns_ok m → vns_ok (rooted m d k).
Proof. by intros [A B]. Qed.

(** A vnode that has been handed out is not open as often as it is referenced. *)
Definition ready (m : mfs) (ino v oc : Z) : Prop := m_vns m !! v = Some (ino, oc) ∧ 0 ≤ oc ∧ ∃ n, a_open (m_afs m) !! ino = Some n ∧ oc < n.

Lemma get_ready m ino v : vns_ok m → vnode_for m ino v → ∃ oc, ready (m_get ino v m) ino v oc ∧
  (m_vns m !! v = Some (ino, oc) ∨ (m_vns m !! v = None ∧ oc = 0)).
Proof.
  intros Hx [[oc Hv]|[Hv Ho]].
  - destruct (vk_vnode m Hx v ino oc Hv) as (H0 & _ & n & Hn & Hle & _). exists oc. split; [|by left]. split_and!; [simpl; rewrite decide_True by (by eexists); done|done|].
    exists (n + 1). simpl. rewrite Hn, lookup_insert_eq. split; [done|lia].
  - exists 0. split; [|by right]. split_and!; [|done|].
    + simpl. rewrite Hv, decide_False, lookup_insert_eq by (by intros []). done.
    + exists 1. simpl. rewrite Ho, lookup_insert_eq. split; [done|lia].
Qed.

Lemma make_ready m name ino v : ready (m_make name ino v m) ino v 0.
Proof. split_and!; [simpl; by rewrite lookup_insert_eq|done|]. exists 1. simpl. rewrite lookup_insert_eq. split; [done|lia]. Qed.

(** The reference that was handed out is given up again; the file has a name. *)
Lemma put_get m ino v h m' : vns_ok m → vnode_for m ino v → (∃ name, h (a_names (m_afs m)) !! name = Some ino) →
  m_put ino v (set_afs (set_names h) (m_get ino v m)) m' → m' = set_afs (set_names h) m.
Proof.
  intros Hx Hv Hname (a' & Hc & ->).
  assert ((∃ n, a_open (m_afs m) !! ino = Some n ∧ 1 ≤ n ∧ is_Some (m_vns m !! v)) ∨ (a_open (m_afs m) !! ino = None ∧ m_vns m !! v = None)) as Hcase.
  { destruct Hv as [[oc Hv]|[Hv Ho]]; [left|by right]. destruct (vk_vnode m Hx v ino oc Hv) as (_ & _ & n & Hn & _ & H1). exists n. rewrite Hv. eauto. }
  destruct m as [[nm fl op] vol rt rf vns]. simpl in *. destruct Hc as [[_ ->]|[[] _]]; [|by left].
  unfold set_afs, set_vns, set_names, reclose, reopen, set_open, m_get. simpl. rewrite !lookup_insert_eq. simpl.
  destruct Hcase as [(n & Hn & H1 & Hl)|[Ho Hl]].
  - rewrite Hn. simpl. rewrite (proj2 (Z.leb_gt _ _)) by lia. rewrite decide_True by done. rewrite insert_insert_eq. replace (n + 1 - 1) with n by lia. by rewrite insert_id.
  - rewrite Ho. simpl. rewrite decide_False by (rewrite Hl; by intros []). rewrite !delete_insert_id by done. done.
Qed.

(** The same for a file that was made. *)
Definition m_created (name : str) (ino : Z) (m : mfs) : mfs :=
  set_afs (λ a, mkAfs (<[name := ino]> (a_names a)) (<[ino := []]> (a_files a)) (a_open a)) m.

Lemma put_make m name ino v m' : vns_ok m → a_files (m_afs m) !! ino = None → m_vns m !! v = None →
  m_put ino v (m_make name ino v m) m' → m' = m_created name ino m.
Proof.
  intros Hx Hf Hv (a' & Hc & ->). assert (a_open (m_afs m) !! ino = None) as Ho.
  { destruct (a_open (m_afs m) !! ino) as [n|] eqn:En; [|done]. destruct (vk_open m Hx ino n En) as (u & oc & Hu). destruct (vk_vnode m Hx u ino oc Hu) as (_ & [c Hc'] & _). congruence. }
  destruct m as [[nm fl op] vol rt rf vns]. simpl in *. destruct Hc as [[_ ->]|[[] _]]; [|left; exists name; simpl; by rewrite lookup_insert_eq].
  unfold set_afs, set_vns, reclose, set_open, m_make, m_created. simpl. rewrite !lookup_insert_eq. simpl. by rewrite !delete_insert_id.
Qed.

Lemma vs_decref_file X f m ino v oc ms w (Q : vpost unit) (E : vpost Z) : ms !! f = Some m → ready m ino v oc → (∀ m', m_put ino v m m' → Q tt (<[f := m']> ms) w) →
  vspec X (VOP_DECREF (FsVn f v)) ms w Q E.
Proof.
  intros Hf (Hv & _ & n & Hn & Hlt) HQ. apply (vs_law X f m _ ms w _ _ _ _ Hf (law_decref X m v ino oc n Hv Hn Hlt)); [|by intros]. intros [] m'. apply HQ.
Qed.

(** ** open *)

Definition creates (flags : Z) : bool := flag flags O_CREAT.
Definition access_ok (flags : Z) : bool :=
  let how := Z.land flags O_ACCMODE in (how =? O_RDONLY) || (how =? O_WRONLY) || (how =? O_RDWR).

(** The file of that name, or a new one. *)
Definition obtained (name : str) (flags : Z) (m : mfs) (ino v : Z) (m1 : mfs) : Prop :=
  (a_names (m_afs m) !! name = Some ino ∧ (creates flags = true → flag flags O_EXCL = false) ∧ vnode_for m ino v ∧ m1 = m_get ino v m) ∨
  (creates flags = true ∧ a_names (m_afs m) !! name = None ∧ a_files (m_afs m) !! ino = None ∧ m_vns m !! v = None ∧ m1 = m_make name ino v m).

(** It is open once more, and empty if it was to be truncated. *)
Definition open_ok (name : str) (flags v : Z) (m m' : mfs) : Prop := ∃ ino m1 oc, obtained name flags m ino v m1 ∧ m_vns m1 !! v = Some (ino, oc) ∧
  m' = (if flag flags O_TRUNC then set_afs (set_files <[ino := []]>) else id) (m_opened v ino (oc + 1) m1).

Definition open_error (m : mfs) (name : str) (flags e : Z) : Prop :=
  (e = EINVAL ∧ (access_ok flags = false ∨ (flag flags O_TRUNC = true ∧ Z.land flags O_ACCMODE = O_RDONLY))) ∨
  (e = EUNIMP ∧ flag flags O_APPEND = true) ∨
  (e = EEXIST ∧ creates flags = true ∧ flag flags O_EXCL = true ∧ is_Some (a_names (m_afs m) !! name)) ∨
  (e = ENOENT ∧ creates flags = false ∧ a_names (m_afs m) !! name = None) ∨
  (e = ENAMETOOLONG ∧ creates flags = true ∧ (NAME_BUF ≤ lengthZ name ∨ fs_namemax ≤ lengthZ name)) ∨
  resources e.

(** What a failed open leaves behind: a new file, if it fails for its flags. *)
Definition open_leaves (name : str) (flags e : Z) (m m' : mfs) : Prop :=
  m' = m ∨ ((e = EINVAL ∨ e = EUNIMP) ∧ ∃ ino, creates flags = true ∧ a_names (m_afs m) !! name = None ∧ a_files (m_afs m) !! ino = None ∧ m' = m_created name ino m).

Lemma obtained_ready name flags m ino v m1 : vns_ok m → obtained name flags m ino v m1 → ∃ oc, ready m1 ino v oc.
Proof.
  intros Hx [(_ & _ & Hv & ->)|(_ & _ & _ & _ & ->)]; [destruct (get_ready m ino v Hx Hv) as (oc & Hr & _); by exists oc|]. exists 0. apply make_ready.
Qed.

(** Giving the file up again. *)
Lemma obtained_put name flags e m ino v m1 m' : vns_ok m → obtained name flags m ino v m1 → m_put ino v m1 m' → e = EINVAL ∨ e = EUNIMP →
  open_leaves name flags e m m'.
Proof.
  intros Hx [(Hn & _ & Hv & ->)|(Hc & Hn & Hf & Hv & ->)] Hp He.
  - left. assert (∀ k : mfs, set_afs (set_names id) k = k) as Hid by (by intros [[]]). rewrite <- (Hid (m_get ino v m)) in Hp.
    rewrite (put_get m ino v id m' Hx Hv (ex_intro _ name Hn) Hp). apply Hid.
  - right. split; [done|]. exists ino. split_and!; try done. by eapply put_make.
Qed.

Lemma vs_obtain X f m path name flags ms w (Q : vpost vnode) (E : vpost Z) : vinv ms w → leads X ms w path f m name →
  (∀ d ino v m1, root_of m d → obtained name flags (rooted m d 0) ino v m1 → Q (FsVn f v) (<[f := m1]> ms) w) →
  (∀ d e, root_of m d → open_error m name flags e → E e (<[f := rooted m d 0]> ms) w) →
  vspec X (if flag flags O_CREAT then
             p <- vfs_lookparent path NAME_BUF ;;
             let '(dir, name) := p in
             finally (VOP_CREAT dir name (flag flags O_EXCL)) (VOP_DECREF dir)
           else vfs_lookup path) ms w Q E.
Proof.
  intros Hv [L1 L2 L3 L4 L5 L6] HQ HE. fold (creates flags). destruct (creates flags) eqn:Ec.
  2: { apply (vs_lookup X f m path name); try done.
    - intros d v ino Hd Hn Hvn. apply (HQ d ino); [done|]. left. split_and!; try done. by rewrite Ec.
    - intros d e Hd He. apply HE; [done|]. unfold open_error, resources. tauto. }
  apply vs_bind, (vs_lookparent X f m path name); try done; [|intros d Hd Hlen; apply HE; [done|]; unfold open_error; tauto].
  intros d Hd Hlen. cbv beta match. apply vs_finally. set (m1 := rooted m d 1). assert (0 < m_refs m1) as Hpos by (simpl; lia). apply vs_bind.
  assert (∀ m' (Q' : vpost unit), m_root m' = d → m_refs m' = m_refs m + 1 → Q' tt (<[f := set_rooted d (m_refs m) m']> ms) w →
    vspec X (VOP_DECREF (FsVn f d)) (<[f := m']> ms) w Q' E) as Hdec.
  { intros m' Q' E1 E2 HQ'. apply (vs_decref_at X f m' d (m_refs m + 1)); [by rewrite lookup_insert_eq|done|done|lia|]. rewrite insert_insert_eq.
    by replace (m_refs m + 1 - 1) with (m_refs m) by lia. }
  apply (vs_law X f m1 _ _ _ _ _ _ _ (lookup_insert_eq _ _ _) (law_creat X m1 name (flag flags O_EXCL) Hpos L3)).
  - intros v m' (ino & Hm'). rewrite insert_insert_eq. apply vs_ret. assert (m_root m' = d ∧ m_refs m' = m_refs m + 1) as [E1 E2] by (by destruct Hm' as [(_ & _ & _ & ->)|(_ & _ & _ & ->)]).
    apply Hdec; [done|done|]. apply (HQ d ino); [done|]. rewrite <- rooted_0. destruct Hm' as [(He & Hn & Hvn & ->)|(Hn & Hf & Hvn & ->)]; [left|right]; split_and!; done.
  - intros e m' [He ->]. rewrite insert_insert_eq. apply Hdec; [done|done|]. change (set_rooted d _ m1) with (set_rooted d (m_refs m) m). rewrite rooted_0. apply HE; [done|].
    change (m_afs m1) with (m_afs m) in He. unfold open_error. tauto.
Qed.

Lemma set_vns_back m v ino oc oc' : m_vns m !! v = Some (ino, oc) → m_opened v ino oc (m_opened v ino oc' m) = m.
Proof. intros Hv. unfold m_opened, set_vns. simpl. rewrite insert_insert_eq, insert_id by done. by destruct m. Qed.

(** The part of vfs_open once there is a vnode. *)
Lemma vs_open_tail X f m ino v oc flags ms w (Q : vpost vnode) (E : vpost Z) : ms !! f = Some m → ready m ino v oc →
  Q (FsVn f v) (<[f := (if flag flags O_TRUNC then set_afs (set_files <[ino := []]>) else id) (m_opened v ino (oc + 1) m)]> ms) w →
  (∀ e m', m_put ino v m m' → (e = EUNIMP ∧ flag flags O_APPEND = true) ∨ (e = EINVAL ∧ flag flags O_TRUNC = true ∧ Z.land flags O_ACCMODE = O_RDONLY) → E e (<[f := m']> ms) w) →
  vspec X (on_error (VOP_OPEN (FsVn f v) flags) (VOP_DECREF (FsVn f v)) ;;
           VOP_INCOPEN (FsVn f v) ;;
           (if flag flags O_TRUNC then
              on_error (if negb (negb (Z.land flags O_ACCMODE =? O_RDONLY)) then fail EINVAL else VOP_TRUNCATE (FsVn f v) 0) (VOP_DECOPEN (FsVn f v) ;; VOP_DECREF (FsVn f v))
            else ret tt) ;;
           ret (FsVn f v)) ms w Q E.
Proof.
  intros Hf Hr HQ HE. pose proof Hr as (Hv & H0 & n & Hn & Hlt). apply vs_bind, vs_on_error, (vs_law X f m _ ms w _ _ _ _ Hf (law_open X m v ino oc flags Hv)).
  2: { intros e m' (-> & Ha & ->). rewrite insert_id by done. apply (vs_decref_file X f m ino v oc); [done|done|]. intros m' Hp. apply HE; auto. }
  intros [] m' [Ha ->]. rewrite insert_id by done. apply vs_bind, (vs_law X f m _ ms w _ _ _ _ Hf (law_incopen X m v ino oc n Hv Hn Hlt)); [|by intros]. intros [] m' ->.
  set (m1 := m_opened v ino (oc + 1) m). assert (m_vns m1 !! v = Some (ino, oc + 1)) as Hv1 by (simpl; by rewrite lookup_insert_eq). apply vs_bind.
  destruct (flag flags O_TRUNC) eqn:Et; [|by apply vs_ret, vs_ret]. apply vs_on_error. rewrite negb_involutive. destruct (Z.eqb_spec (Z.land flags O_ACCMODE) O_RDONLY) as [Ero|Ero].
  - apply vs_fail, vs_bind, (vs_law X f m1 _ _ _ _ _ _ _ (lookup_insert_eq _ _ _) (law_decopen X m1 v ino (oc + 1) Hv1 ltac:(lia))); [|by intros]. intros [] m' ->.
    rewrite insert_insert_eq. replace (oc + 1 - 1) with oc by lia. unfold m1. rewrite (set_vns_back m v ino oc) by done. rewrite insert_id by done.
    apply (vs_decref_file X f m ino v oc); [done|done|]. intros m' Hp. apply HE; auto.
  - apply (vs_law X f m1 _ _ _ _ _ _ _ (lookup_insert_eq _ _ _) (law_empty X m1 v ino (oc + 1) Hv1)); [|by intros]. intros [] m' ->. rewrite insert_insert_eq. by apply vs_ret.
Qed.

Lemma vfs_open_spec X f m path name flags ms w : vinv ms w → leads X ms w path f m name →
  vspec X (vfs_open path flags) ms w (λ vn ms' w', ∃ v, vn = FsVn f v ∧ becomes f m ms w (open_ok name flags v) ms' w')
    (λ e ms' w', becomes f m ms w (open_leaves name flags e) ms' w' ∧ open_error m name flags e).
Proof.
  intros Hv Hle. pose proof Hle as [L1 L2 L3 L4 L5 L6]. apply (vs_rep X f m); [done|]. intros Hvk _.
  assert (∀ d : Z, root_of m d → ∀ e, open_error m name flags e → becomes f m ms w (open_leaves name flags e) (<[f := rooted m d 0]> ms) w ∧ open_error m name flags e) as Hfail.
  { intros d Hd e He. split; [|done]. apply (becomes_intro f m ms w d); [done|]. by left. }
  unfold vfs_open. fold (access_ok flags). destruct (access_ok flags) eqn:Ea.
  2: { apply vs_fail. rewrite <- (insert_id ms f m) at 2 by done. rewrite <- (rooted_same m) at 2. apply Hfail; [done|]. unfold open_error. tauto. }
  cbn [negb]. apply vs_bind, (vs_obtain X f m path name); [done|done| |intros d e Hd He; by apply Hfail]. intros d ino v m1 Hd Ho.
  apply (vns_rooted m d 0) in Hvk. destruct (obtained_ready _ _ _ _ _ _ Hvk Ho) as [oc Hr]. apply (vs_open_tail X f m1 ino v oc); [by rewrite lookup_insert_eq|done|..].
  - rewrite insert_insert_eq. exists v. split; [done|]. apply (becomes_intro f m ms w d); [done|]. exists ino, m1, oc. split_and!; [done|apply Hr|done].
  - intros e m' Hp He. rewrite insert_insert_eq. split; [|unfold open_error; tauto]. apply (becomes_intro f m ms w d); [done|].
    eapply obtained_put; [exact Hvk|exact Ho|exact Hp|]. tauto.
Qed.

(** ** close *)

(** The vnode is open once less and referenced once less. *)
Definition close_ok (v : Z) (m m' : mfs) : Prop := ∃ ino oc, m_vns m !! v = Some (ino, oc) ∧ m_put ino v (m_opened v ino (oc - 1) m) m'.

Lemma vfs_close_spec X f m v ino oc ms w : ms !! f = Some m → m_vns m !! v = Some (ino, oc) → 0 < oc →
  vspec X (vfs_close (FsVn f v)) ms w (λ _ ms' w', w' = w ∧ ∃ m', ms' = <[f := m']> ms ∧ close_ok v m m') (λ _ _ _, False).
Proof.
  intros Hf Hv Hoc. apply (vs_rep X f m); [done|]. intros Hvk _. destruct (vk_vnode m Hvk v ino oc Hv) as (_ & _ & n & Hn & Hle & _).
  apply vs_bind, (vs_law X f m _ ms w _ _ _ _ Hf (law_decopen X m v ino oc Hv Hoc)); [|by intros]. intros [] m' ->.
  apply (vs_decref_file X f (m_opened v ino (oc - 1) m) ino v (oc - 1)); [by rewrite lookup_insert_eq| |].
  - split_and!; [simpl; by rewrite lookup_insert_eq|lia|]. exists n. split; [done|lia].
  - intros m' Hp. rewrite insert_insert_eq. split; [done|]. exists m'. split; [done|]. by exists ino, oc.
Qed.

(** ** link *)

Definition link_ok (n1 n2 : str) (m m' : mfs) : Prop := ∃ ino,
  a_names (m_afs m) !! n1 = Some ino ∧ a_names (m_afs m) !! n2 = None ∧ m' = set_afs (set_names <[n2 := ino]>) m.
Definition link_error (f1 f2 : Z) (m1 : mfs) (n1 n2 : str) (e : Z) : Prop :=
  (e = EXDEV ∧ f1 ≠ f2) ∨ (e = ENAMETOOLONG ∧ (NAME_BUF ≤ lengthZ n2 ∨ fs_namemax ≤ lengthZ n2)) ∨
  (e = ENOENT ∧ a_names (m_afs m1) !! n1 = None) ∨ (e = EEXIST ∧ is_Some (a_names (m_afs m1) !! n2)) ∨ resources e.

Lemma get_rooted ino v m d n : set_rooted d n (m_get ino v m) = m_get ino v (set_rooted d n m).
Proof. done. Qed.

Lemma get_names_id ino v m : m_get ino v m = set_afs (set_names id) (m_get ino v m).
Proof. done. Qed.

(** Giving up a file that has a name, in an otherwise unchanged file system. *)
Lemma vs_decref_got X f m ino v n ms w (Q : vpost unit) (E : vpost Z) : vns_ok m → vnode_for m ino v → a_names (m_afs m) !! n = Some ino → ms !! f = Some (m_get ino v m) →
  Q tt (<[f := m]> ms) w → vspec X (VOP_DECREF (FsVn f v)) ms w Q E.
Proof.
  intros Hvk Hv Hn Hf HQ. destruct (get_ready m ino v Hvk Hv) as (oc & Hr & _). apply (vs_decref_file X f (m_get ino v m) ino v oc); [done|done|]. intros m' Hp.
  rewrite get_names_id in Hp. rewrite (put_get m ino v id m' Hvk Hv (ex_intro _ n Hn) Hp). by assert (set_afs (set_names id) m = m) as -> by (by destruct m as [[]]).
Qed.

(** vfs_link once both are found in one file system. *)
Lemma link_same_fs X f m d ino v n1 n2 ms w : vns_ok m → root_of m d → 0 ≤ m_refs m → vnode_for m ino v → a_names (m_afs m) !! n1 = Some ino → good_name n2 → ms !! f = Some m →
  vspec X (finally (if negb (same_vn_fs (FsVn f v) (FsVn f d)) then fail EXDEV else VOP_LINK (FsVn f d) n2 (FsVn f v)) (VOP_DECREF (FsVn f d) ;; VOP_DECREF (FsVn f v)))
    (<[f := m_get ino v (rooted m d 1)]> ms) w
    (λ _ ms' w', becomes f m ms w (link_ok n1 n2) ms' w') (λ e ms' w', unchanged ms w ms' w' ∧ link_error f f m n1 n2 e).
Proof.
  intros Hvk Hd H0 Hv Hn Hg Hf. rewrite same_fs_true. cbn [negb]. apply vs_finally. set (m1 := m_get ino v (rooted m d 1)). assert (0 < m_refs m1) as Hpos by (simpl; lia).
  apply (vns_rooted m d 0) in Hvk. assert (vnode_for (rooted m d 0) ino v) as Hv0 by exact Hv. destruct (get_ready _ ino v Hvk Hv0) as (oc & Hr & _). pose proof (proj1 Hr) as Hvn.
  apply (vs_law X f m1 _ _ _ _ _ _ _ (lookup_insert_eq _ _ _) (law_link X m1 n2 v ino oc Hpos Hg Hvn)).
  - intros [] m' [Hnone ->]. rewrite insert_insert_eq. apply vs_bind, (vs_decref_at X f (set_afs (set_names <[n2 := ino]>) m1) d (m_refs m + 1)); [by rewrite lookup_insert_eq|done|done|lia|]. rewrite insert_insert_eq.
    replace (m_refs m + 1 - 1) with (m_refs m + 0) by lia. set (m2 := set_afs (set_names <[n2 := ino]>) (m_get ino v (rooted m d 0))).
    change (set_rooted d (m_refs m + 0) _) with m2. apply (vs_decref_file X f m2 ino v oc); [by rewrite lookup_insert_eq|exact Hr|].
    intros m' Hp. rewrite insert_insert_eq. apply put_get in Hp; [|done|done|exists n2; by rewrite lookup_insert_eq]. subst m'. apply (becomes_intro f m ms w d); [done|]. by exists ino.
  - intros e m' [He ->]. rewrite insert_insert_eq. apply vs_bind, (vs_decref_at X f m1 d (m_refs m + 1)); [by rewrite lookup_insert_eq|done|done|lia|]. rewrite insert_insert_eq.
    replace (m_refs m + 1 - 1) with (m_refs m + 0) by lia. apply (vs_decref_got X f (rooted m d 0) ino v n1); [done|done|done|by rewrite lookup_insert_eq|]. rewrite insert_insert_eq.
    split; [by apply unchanged_insert; [apply unchanged_refl|..]|]. unfold link_error. change (a_names (m_afs m1)) with (a_names (m_afs m)) in He. tauto.
Qed.

Lemma vfs_link_spec X f1 m1 p1 n1 f2 m2 p2 n2 ms w : vinv ms w → leads X ms w p1 f1 m1 n1 → leads X ms w p2 f2 m2 n2 →
  vspec X (vfs_link p1 p2) ms w (λ _ ms' w', f1 = f2 ∧ becomes f1 m1 ms w (link_ok n1 n2) ms' w')
    (λ e ms' w', unchanged ms w ms' w' ∧ link_error f1 f2 m1 n1 n2 e).
Proof.
  intros Hv L1 L2. pose proof L1 as [S1 N1 G1 F1 X1 P1]. pose proof L2 as [S2 N2 G2 F2 X2 P2]. apply (vs_rep X f1 m1); [done|]. intros Hvk _.
  apply vs_bind, (vs_lookup X f1 m1 p1 n1); try done.
  2: { intros d e Hd He. split; [by apply unchanged_insert; [apply unchanged_refl|..]|]. unfold link_error, resources. tauto. }
  intros d1 v ino D1 Hn Hvn. apply vs_bind, vs_on_error. set (mg := m_get ino v (rooted m1 d1 0)). set (ms1 := <[f1 := mg]> ms).
  assert (m_refs mg = m_refs m1) as Er by (simpl; lia). assert (vinv ms1 w) as Hv1 by (apply (vinv_update ms w f1 m1); [done|done|]; split; [lia|done]).
  pose proof (leads_update _ _ _ _ _ _ _ f1 m1 mg L2 F1 eq_refl ltac:(lia)) as [S2' _ _ F2' X2' P2'].
  eapply (vs_lookparent X f2 _ p2 n2); [done|done|done|exact F2'|exact X2'|exact P2'|..]; case_decide as Hf; [subst f2|..|subst f2|].
  - intros d2 D2 Len2. assert (root_of m1 d2) as D2' by (intros Hp; rewrite <- (D1 Hp); apply D2; lia). unfold ms1. rewrite insert_insert_eq.
    replace (rooted mg d2 1) with (m_get ino v (rooted m1 d2 1)) by (unfold rooted, set_rooted, mg, m_get, set_afs, set_vns; simpl; f_equal; lia).
    eapply vs_conseq; [by apply (link_same_fs X f1 m1 d2 ino v n1 n2)|by auto|by auto].
  - intros d2 D2 Len2. rewrite same_fs_false by congruence. cbn [negb]. apply vs_finally, vs_fail, vs_bind.
    apply (vs_decref_at X f2 (rooted m2 d2 1) d2 (m_refs m2 + 1)); [by rewrite lookup_insert_eq|done|done|lia|]. rewrite insert_insert_eq.
    change (rooted m2 d2 1) with (set_rooted d2 (m_refs m2 + 1) m2). rewrite (rooted_drop m2 d2 0) by lia.
    apply (vs_decref_got X f1 (rooted m1 d1 0) ino v n1); [by apply vns_rooted|done|done|unfold ms1; by rewrite lookup_insert_ne, lookup_insert_eq by congruence|].
    unfold ms1. rewrite insert_insert_ne, insert_insert_eq by congruence. split; [by apply unchanged_insert; [apply unchanged_insert; [apply unchanged_refl|..]|..]|]. left. split; [done|congruence].
  - intros d2 D2 Len2. assert (root_of m1 d2) as D2' by (intros Hp; rewrite <- (D1 Hp); apply D2; lia). unfold ms1. rewrite insert_insert_eq.
    replace (rooted mg d2 0) with (m_get ino v (rooted m1 d2 0)) by (unfold rooted, set_rooted, mg, m_get, set_afs, set_vns; simpl; f_equal; lia).
    apply (vs_decref_got X f1 (rooted m1 d2 0) ino v n1); [by apply vns_rooted|done|done|by rewrite lookup_insert_eq|]. rewrite insert_insert_eq.
    split; [by apply unchanged_insert; [apply unchanged_refl|..]|]. right. left. auto.
  - intros d2 D2 Len2. apply (vs_decref_got X f1 (rooted m1 d1 0) ino v n1); [by apply vns_rooted|done|done|unfold ms1; by rewrite lookup_insert_ne, lookup_insert_eq by congruence|].
    unfold ms1. rewrite insert_insert_ne, insert_insert_eq by congruence. split; [by apply unchanged_insert; [apply unchanged_insert; [apply unchanged_refl|..]|..]|]. right. left. auto.
Qed.

(** ** The current directory *)

(** Only the references to root directories have changed. *)
Definition only_refs ms (ms' : gmap Z mfs) : Prop :=
  (∀ f, ms !! f = None → ms' !! f = None) ∧ ∀ f m, ms !! f = Some m → ∃ d n, ms' !! f = Some (set_rooted d n m).

Lemma only_refs_refl ms : only_refs ms ms.
Proof. split; [done|]. intros f m Hf. exists (m_root m), (m_refs m). rewrite Hf. by destruct m. Qed.

Lemma only_refs_insert ms ms' f m d n : only_refs ms ms' → ms !! f = Some m → only_refs ms (<[f := set_rooted d n m]> ms').
Proof.
  intros [H1 H2] Hf. split.
  - intros g Hg. rewrite lookup_insert_ne; [by apply H1|congruence].
  - intros g mg Hg. destruct (decide (g = f)) as [->|Hne]; [|rewrite lookup_insert_ne by done; by apply H2].
    assert (mg = m) as -> by congruence. exists d, n. by rewrite lookup_insert_eq.
Qed.

Lemma only_refs_trans ms1 ms2 ms3 : only_refs ms1 ms2 → only_refs ms2 ms3 → only_refs ms1 ms3.
Proof.
  intros [A1 A2] [B1 B2]. split; [by auto|]. intros f m Hf. destruct (A2 f m Hf) as (d & n & E). destruct (B2 f _ E) as (d' & n' & E'). exists d', n'. by rewrite E'.
Qed.

(** The invariant while the references in [l], all to root directories, are in the
    hands of an operation. *)
Definition in_hand (f : Z) (l : list vnode) : Z := foldr (λ v n, held_by f (Some v) + n) 0 l.

Lemma in_hand_cons f v l : in_hand f (v :: l) = held_by f (Some v) + in_hand f l.
Proof. done. Qed.

Lemma held_by_ne f g d : g ≠ f → held_by g (Some (FsVn f d)) = 0.
Proof. intros Hne. unfold held_by. by rewrite decide_False by congruence. Qed.

Record vinv_with ms w (l : list vnode) : Prop := {
  vw_depth : 0 ≤ biglock_depth w;
  vw_table : table_wf ms w;
  vw_cwd : ∀ v, p_cwd w = Some v → root_vnode ms v;
  vw_boot : ∀ v, bootfs_vnode w = Some v → root_vnode ms v;
  vw_hand : ∀ v, v ∈ l → root_vnode ms v;
  vw_refs : ∀ f m, ms !! f = Some m → held w f + in_hand f l ≤ m_refs m
}.

Lemma vinv_with_nil ms w : vinv_with ms w [] ↔ vinv ms w.
Proof.
  split.
  - intros [O1 O2 O3 O4 O5 O6]. split; [done|done|]. split; [done|done|]. intros f m Hf. specialize (O6 f m Hf). simpl in O6. lia.
  - intros [V1 V2 [D1 D2 D3]]. split; try done; [by intros v []%not_elem_of_nil|]. intros f m Hf. specialize (D3 f m Hf). simpl. lia.
Qed.

Lemma held_nonneg w f : 0 ≤ held w f.
Proof. unfold held. pose proof (held_by_nonneg f (p_cwd w)). pose proof (held_by_nonneg f (bootfs_vnode w)). lia. Qed.

Lemma in_hand_nonneg f l : 0 ≤ in_hand f l.
Proof. induction l as [|v l IH]; cbn [in_hand foldr]; [done|]. pose proof (held_by_nonneg f (Some v)). unfold in_hand in IH. lia. Qed.

(** Root directories stay what they are when only the count of references changes. *)
Lemma root_vnode_insert ms f m n v : ms !! f = Some m → root_vnode ms v → root_vnode (<[f := set_rooted (m_root m) n m]> ms) v.
Proof.
  intros Hf (g & mg & -> & Hg). destruct (decide (g = f)) as [->|Hne]; [|exists g, mg; by rewrite lookup_insert_ne].
  assert (mg = m) as -> by congruence. eexists f, _. rewrite lookup_insert_eq. by split; [|done].
Qed.

(** One reference more, or one less. *)
Lemma vinv_with_refs ms w l l' f m n : vinv_with ms w l → ms !! f = Some m → (∀ v, v ∈ l' → v ∈ l) →
  (∀ g, g ≠ f → in_hand g l' = in_hand g l) → in_hand f l' - in_hand f l ≤ n - m_refs m → vinv_with (<[f := set_rooted (m_root m) n m]> ms) w l'.
Proof.
  intros [O1 O2 O3 O4 O5 O6] Hf Hl Hg Hn. split; [done|by apply table_update; [eexists|]|..].
  - intros v Hv. apply root_vnode_insert; auto.
  - intros v Hv. apply root_vnode_insert; auto.
  - intros v Hv. apply root_vnode_insert; auto.
  - intros g mg [[<- <-]|[Hne Hmg]]%lookup_insert_Some; [specialize (O6 f m Hf); simpl; lia|]. rewrite Hg by done. by apply O6.
Qed.

Lemma vs_release X v l ms w (Q : vpost unit) (E : vpost Z) : vinv_with ms w (v :: l) → (∀ ms', vinv_with ms' w l → only_refs ms ms' → Q tt ms' w) → vspec X (VOP_DECREF v) ms w Q E.
Proof.
  intros Hv HQ. destruct (vw_hand _ _ _ Hv v) as (f & m & -> & Hf); [by left|]. pose proof (vw_refs _ _ _ Hv f m Hf) as Hr. rewrite in_hand_cons, held_by_pos in Hr.
  pose proof (held_nonneg w f). pose proof (in_hand_nonneg f l). apply vs_decref_root; [done|lia|]. apply HQ; [|apply only_refs_insert; [apply only_refs_refl|done]].
  apply (vinv_with_refs ms w _ l f m _ Hv Hf); [intros v Hv'; by right| |].
  - intros g Hg. by rewrite in_hand_cons, held_by_ne.
  - rewrite !in_hand_cons, !held_by_pos. lia.
Qed.

Lemma vs_again X v l ms w (Q : vpost unit) (E : vpost Z) : vinv_with ms w (v :: l) → (∀ ms', vinv_with ms' w (v :: v :: l) → only_refs ms ms' → Q tt ms' w) → vspec X (VOP_INCREF v) ms w Q E.
Proof.
  intros Hv HQ. destruct (vw_hand _ _ _ Hv v) as (f & m & -> & Hf); [by left|]. pose proof (vw_refs _ _ _ Hv f m Hf) as Hr. rewrite in_hand_cons, held_by_pos in Hr.
  pose proof (held_nonneg w f). pose proof (in_hand_nonneg f l). apply vs_incref_root; [done|lia|]. apply HQ; [|apply only_refs_insert; [apply only_refs_refl|done]].
  apply (vinv_with_refs ms w _ _ f m _ Hv Hf); [by intros v [->|Hv']%elem_of_cons; [left|]| |].
  - intros g Hg. by rewrite !in_hand_cons, held_by_ne.
  - rewrite !in_hand_cons, !held_by_pos. lia.
Qed.

(** A directory in hand takes the place of the current directory, or of the boot file
    system, which is then in hand. *)
Lemma vinv_with_table ms w w' : table_wf ms w → knowndevs w' = knowndevs w → devices w' = devices w → devnodes w' = devnodes w → vfs_next w' = vfs_next w → table_wf ms w'.
Proof. intros [T1 T2 T3 T4] E1 E2 E3 E4. split; rewrite ?E1, ?E3, ?E4; try done. intros i kd Hi. destruct (T1 i kd Hi). split; rewrite ?E2, ?E3; done. Qed.

Lemma vinv_with_cwd ms w v l : vinv_with ms w (v :: l) → vinv_with ms (set_cwd (Some v) w) (option_list (p_cwd w) ++ l).
Proof.
  intros [O1 O2 O3 O4 O5 O6]. split; simpl; [done|by eapply vinv_with_table| |done|..].
  - intros u [= <-]. apply O5. by left.
  - intros u [Hu|Hu]%elem_of_app; [|apply O5; by right]. destruct (p_cwd w); [apply list_elem_of_singleton in Hu as ->; by apply O3|by apply not_elem_of_nil in Hu].
  - intros f m Hf. specialize (O6 f m Hf). unfold held in *. destruct (p_cwd w); simpl in *; lia.
Qed.

Lemma vinv_with_boot ms w v l : vinv_with ms w (v :: l) → vinv_with ms (set_bootfs (Some v) w) (option_list (bootfs_vnode w) ++ l).
Proof.
  intros [O1 O2 O3 O4 O5 O6]. split; simpl; [done|by eapply vinv_with_table|done|..].
  - intros u [= <-]. apply O5. by left.
  - intros u [Hu|Hu]%elem_of_app; [|apply O5; by right]. destruct (bootfs_vnode w); [apply list_elem_of_singleton in Hu as ->; by apply O4|by apply not_elem_of_nil in Hu].
  - intros f m Hf. specialize (O6 f m Hf). unfold held in *. destruct (bootfs_vnode w); simpl in *; lia.
Qed.

Lemma vs_release_old X (o : option vnode) l ms w (Q : vpost unit) (E : vpost Z) : vinv_with ms w (option_list o ++ l) → (∀ ms', vinv_with ms' w l → only_refs ms ms' → Q tt ms' w) →
  vspec X (match o with Some v => VOP_DECREF v | None => ret tt end) ms w Q E.
Proof. intros Hv HQ. destruct o as [v|]; simpl in Hv; [by apply (vs_release X v l)|]. apply vs_ret, HQ; [done|apply only_refs_refl]. Qed.

(** The directory is in hand, and still is afterwards. *)
Lemma vs_setcurdir X v l ms w (Q : vpost unit) (E : vpost Z) : vinv_with ms w (v :: l) →
  (∀ ms', vinv_with ms' (set_cwd (Some v) w) (v :: l) → only_refs ms ms' → Q tt ms' (set_cwd (Some v) w)) → vspec X (vfs_setcurdir v) ms w Q E.
Proof.
  intros Hv HQ. destruct (vw_hand _ _ _ Hv v) as (f & m & -> & Hf); [by left|]. pose proof (vw_refs _ _ _ Hv f m Hf) as Hr. rewrite in_hand_cons, held_by_pos in Hr.
  pose proof (held_nonneg w f). pose proof (in_hand_nonneg f l). assert (0 < m_refs m) as Hpos by lia.
  apply vs_bind, (vs_law X f m _ ms w _ _ _ _ Hf (law_gettype_root X m Hpos)); [|by intros]. intros t m' [-> ->]. rewrite insert_id by done. rewrite Z.eqb_refl. cbn [negb].
  apply vs_bind, (vs_again X _ l); [done|]. intros ms1 Hv1 Hr1. apply vs_bind, vs_gets; [done|]. apply vs_bind, vs_modify; [done|apply Hv1|].
  apply (vs_release_old X (p_cwd w) (FsVn f (m_root m) :: l)); [by apply vinv_with_cwd|]. intros ms2 Hv2 Hr2. apply HQ; [done|by eapply only_refs_trans].
Qed.

Lemma vinv_with_found ms w f m d : vinv ms w → ms !! f = Some m → root_of m d → vinv_with (<[f := rooted m d 1]> ms) w [FsVn f d] ∧ only_refs ms (<[f := rooted m d 1]> ms).
Proof.
  intros Hv Hf Hd. pose proof (vinv_rooted ms w f m d 1 Hv Hf Hd ltac:(lia)) as Hv1. split; [|apply only_refs_insert; [apply only_refs_refl|done]].
  apply vinv_with_nil in Hv1 as [O1 O2 O3 O4 O5 O6]. split; try done.
  - intros v ->%list_elem_of_singleton. exists f, (rooted m d 1). by rewrite lookup_insert_eq.
  - intros g mg Hg. specialize (O6 g mg Hg). rewrite in_hand_cons. destruct (decide (g = f)) as [->|Hne]; [|rewrite held_by_ne by done; lia]. rewrite lookup_insert_eq in Hg. injection Hg as <-.
    rewrite held_by_pos. simpl in *. pose proof (di_refs _ _ (vi_dirs _ _ Hv) f m Hf). lia.
Qed.

(** chdir to the root directory of a file system. *)
Lemma vfs_chdir_spec X f m path ms w : vinv ms w → start ms w path = Some (f, []) → ms !! f = Some m → (m_refs m = 0 → X) →
  vspec X (vfs_chdir path) ms w (λ _ ms' w', ∃ d, w' = set_cwd (Some (FsVn f d)) w ∧ vinv ms' w' ∧ only_refs ms ms') (λ _ _ _, False).
Proof.
  intros Hv Hs Hf HX. apply vs_bind, (vs_lookup_root X f m path); try done. intros d Hd. destruct (vinv_with_found ms w f m d Hv Hf Hd) as [Hv1 Hr1].
  apply vs_finally, (vs_setcurdir X _ []); [done|]. intros ms2 Hv2 Hr2. apply (vs_release X _ []); [done|]. intros ms3 Hv3 Hr3. exists d.
  split_and!; [done|by apply vinv_with_nil|]. eapply only_refs_trans; [exact Hr1|]. by eapply only_refs_trans.
Qed.

(** chdir to a file fails. *)
Lemma vfs_chdir_file X f m path name ms w : vinv ms w → leads X ms w path f m name →
  vspec X (vfs_chdir path) ms w (λ _ _ _, False)
    (λ e ms' w', unchanged ms w ms' w' ∧ ((e = ENOTDIR ∧ is_Some (a_names (m_afs m) !! name)) ∨ (e = ENOENT ∧ a_names (m_afs m) !! name = None) ∨ resources e)).
Proof.
  intros Hv [L1 L2 L3 L4 L5 L6]. apply (vs_rep X f m); [done|]. intros Hvk _. apply vs_bind, (vs_lookup X f m path name); try done.
  2: { intros d e Hd He. split; [by apply unchanged_insert; [apply unchanged_refl|..]|]. unfold resources. tauto. }
  intros d v ino Hd Hn Hvn. apply vs_finally. apply (vns_rooted m d 0) in Hvk. set (m0 := rooted m d 0) in *. destruct (get_ready m0 ino v Hvk Hvn) as (oc & (Hg & _) & _).
  apply vs_bind, (vs_law X f (m_get ino v m0) _ _ _ _ _ _ _ (lookup_insert_eq _ _ _) (law_gettype X _ v ino oc Hg)); [|by intros]. intros t m' [-> ->].
  rewrite insert_insert_eq. change (S_IFREG =? S_IFDIR) with false. cbn [negb]. apply vs_fail, (vs_decref_got X f m0 ino v name); [done|done|done|by rewrite lookup_insert_eq|]. rewrite insert_insert_eq.
  split; [by apply unchanged_insert; [apply unchanged_refl|..]|]. left. split; [done|by eexists].
Qed.

Lemma vfs_clearcurdir_spec X ms w : vinv ms w →
  vspec X vfs_clearcurdir ms w (λ _ ms' w', w' = set_cwd None w ∧ vinv ms' w' ∧ only_refs ms ms') (λ _ _ _, False).
Proof.
  intros Hv. apply vs_bind, vs_gets; [done|]. apply vs_bind, vs_modify; [done|apply Hv|]. apply (vs_release_old X (p_cwd w) []).
  - apply vinv_with_nil in Hv as [O1 O2 O3 O4 O5 O6]. split; simpl; [done|by eapply vinv_with_table|done|done|..].
    + intros u Hu. rewrite app_nil_r in Hu. destruct (p_cwd w); [apply list_elem_of_singleton in Hu as ->; by apply O3|by apply not_elem_of_nil in Hu].
    + intros f m Hf. specialize (O6 f m Hf). unfold held in *. destruct (p_cwd w); simpl in *; lia.
  - intros ms' Hv' Hr. split_and!; [done|by apply vinv_with_nil|done].
Qed.

(** ** The boot file system *)

Lemma change_bootfs_spec X v ms w (Q : vpost unit) (E : vpost Z) : vinv_with ms w [v] →
  (∀ ms', vinv ms' (set_bootfs (Some v) w) → only_refs ms ms' → Q tt ms' (set_bootfs (Some v) w)) → vspec X (change_bootfs (Some v)) ms w Q E.
Proof.
  intros Hv HQ. apply vs_bind, vs_gets; [done|]. apply vs_bind, vs_modify; [done|apply Hv|]. apply (vs_release_old X (bootfs_vnode w) []); [by apply vinv_with_boot|].
  intros ms' Hv' Hr. apply HQ; [by apply vinv_with_nil|done].
Qed.

(** vfs_setbootfs also changes the current directory. *)
Lemma vfs_setbootfs_spec X f m fsname ms w : vinv ms w → let tmp := take (Z.to_nat (NAME_MAX - 1)) fsname in
  COLON ∉ tmp → start ms w (tmp ++ [COLON]) = Some (f, []) → ms !! f = Some m → (m_refs m = 0 → X) →
  vspec X (vfs_setbootfs fsname) ms w
    (λ _ ms' w', ∃ d, w' = set_bootfs (Some (FsVn f d)) (set_cwd (Some (FsVn f d)) w) ∧ vinv ms' w' ∧ only_refs ms ms') (λ _ _ _, False).
Proof.
  intros Hv tmp Hc Hs Hf HX. pose proof (vi_depth _ _ Hv) as Hd. apply vs_biglock; [done|]. cbv zeta. fold tmp. rewrite bool_decide_false by done.
  assert (vinv ms (set_biglock (biglock_depth w + 1) w)) as Hv0 by (apply vinv_biglock; [done|lia]).
  apply vs_bind. eapply vs_conseq; [by apply (vfs_chdir_spec X f m)|cbn beta|by intros]. intros [] ms1 w1 (d & -> & Hv1 & Hr1).
  destruct (proj2 Hr1 f m Hf) as (d1 & n1 & Hf1). set (m1 := set_rooted d1 n1 m) in *. set (w1 := set_cwd _ _) in *.
  apply vs_bind, (vs_getcurdir X f d m1); [done|done|done|]. intros Hroot Hpos. destruct (vinv_with_found ms1 w1 f m1 d Hv1 Hf1) as [Hv2 Hr2]; [by intros _; symmetry|].
  apply change_bootfs_spec; [done|]. intros ms3 Hv3 Hr3. split; [simpl; lia|]. exists d.
  replace (biglock_depth (set_bootfs (Some (FsVn f d)) w1) - 1) with (biglock_depth w) by (simpl; lia). split_and!.
  - by destruct w.
  - apply vinv_biglock; done.
  - eapply only_refs_trans; [exact Hr1|]. by eapply only_refs_trans.
Qed.

Lemma vfs_clearbootfs_spec X ms w : vinv ms w →
  vspec X vfs_clearbootfs ms w (λ _ ms' w', w' = set_bootfs None w ∧ vinv ms' w' ∧ only_refs ms ms') (λ _ _ _, False).
Proof.
  intros Hv. pose proof (vi_depth _ _ Hv) as Hd. apply vs_biglock; [done|]. apply vs_bind, vs_gets; [done|]. apply vs_bind, vs_modify; [done|simpl; lia|].
  apply (vs_release_old X (bootfs_vnode w) []).
  - apply vinv_with_nil in Hv as [O1 O2 O3 O4 O5 O6]. split; simpl; [lia|by eapply vinv_with_table|done|done|..].
    + intros u Hu. rewrite app_nil_r in Hu. destruct (bootfs_vnode w); [apply list_elem_of_singleton in Hu as ->; by apply O4|by apply not_elem_of_nil in Hu].
    + intros f m Hf. specialize (O6 f m Hf). unfold held in *. destruct (bootfs_vnode w); simpl in *; lia.
  - intros ms' Hv' Hr. split; [simpl; lia|]. apply vinv_with_nil in Hv'. apply (vinv_biglock _ _ (biglock_depth w)) in Hv'; [|done].
    replace (biglock_depth (set_bootfs None (set_biglock (biglock_depth w + 1) w)) - 1) with (biglock_depth w) by (simpl; lia). split_and!; [by destruct w|done|done].
Qed.
End Ops.
