(* ===== verification/VfsPath.v ===== *)
(** * The virtual file system: what it promises

    The operations on paths as steps of the mounted abstract file systems: the file
    system and the name that a path stands for, what each operation does there, and
    when it may fail.  Every operation keeps the invariant of VfsTable.v. *)

From S2P Require Import Prelude UserCopy Uio Disk Vfs Afs VfsSpec VfsTable VfsMount VfsOps.
#[local] Open Scope kern_scope.

(** ** Operations *)

Inductive path_op :=
  | VOpen (path : str) (flags : Z)
  | VClose (v : vnode)
  | VRemove (path : str)
  | VRename (p1 p2 : str)
  | VLink (p1 p2 : str)
  | VChdir (path : str).

Section Path.
Context {F D : Type} `{!FileSystem F, !FsLaws F, !Driver D}.
Implicit Types (s w : vfs F D) (ms : gmap Z mfs) (X : Prop).
#[local] Notation VM := (M (vfs F D)).

Definition run_path (op : path_op) : VM (option vnode) :=
  match op with
  | VOpen path flags => v <- vfs_open path flags ;; ret (Some v)
  | VClose v => vfs_close v ;; ret None
  | VRemove path => vfs_remove path ;; ret None
  | VRename p1 p2 => vfs_rename p1 p2 ;; ret None
  | VLink p1 p2 => vfs_link p1 p2 ;; ret None
  | VChdir path => vfs_chdir path ;; ret None
  end.

(** [path] is [name] in the mounted file system [f], which is [m]. *)
Definition stands_for ms w (path : str) (f : Z) (m : mfs) (name : str) : Prop := start ms w path = Some (f, name) ∧ ms !! f = Some m.

(** What an operation does to the file systems and to the rest of the state. *)
Inductive path_step ms w : path_op → option vnode → gmap Z mfs → vfs F D → Prop :=
  | step_open path flags f m name v ms' w' : stands_for ms w path f m name → becomes f m ms w (open_ok name flags v) ms' w' →
      path_step ms w (VOpen path flags) (Some (FsVn f v)) ms' w'
  | step_close f m v m' : ms !! f = Some m → close_ok v m m' → path_step ms w (VClose (FsVn f v)) None (<[f := m']> ms) w
  | step_remove path f m name ms' w' : stands_for ms w path f m name → becomes f m ms w (remove_ok name) ms' w' → path_step ms w (VRemove path) None ms' w'
  | step_rename p1 p2 f m n1 m2 n2 ms' w' : stands_for ms w p1 f m n1 → stands_for ms w p2 f m2 n2 → becomes f m ms w (rename_ok n1 n2) ms' w' →
      path_step ms w (VRename p1 p2) None ms' w'
  | step_link p1 p2 f m n1 m2 n2 ms' w' : stands_for ms w p1 f m n1 → stands_for ms w p2 f m2 n2 → becomes f m ms w (link_ok n1 n2) ms' w' →
      path_step ms w (VLink p1 p2) None ms' w'
  | step_chdir path f m d ms' : stands_for ms w path f m [] → only_refs ms ms' → path_step ms w (VChdir path) None ms' (set_cwd (Some (FsVn f d)) w).

(** What a failure leaves behind: the file systems as they were, but for open. *)
Inductive path_fails ms w : path_op → Z → gmap Z mfs → vfs F D → Prop :=
  | fails_open path flags f m name e ms' w' : stands_for ms w path f m name → becomes f m ms w (open_leaves name flags e) ms' w' → open_error m name flags e →
      path_fails ms w (VOpen path flags) e ms' w'
  | fails_remove path f m name e ms' w' : stands_for ms w path f m name → unchanged ms w ms' w' → remove_error m name e → path_fails ms w (VRemove path) e ms' w'
  | fails_rename p1 p2 f1 m1 n1 f2 m2 n2 e ms' w' : stands_for ms w p1 f1 m1 n1 → stands_for ms w p2 f2 m2 n2 → unchanged ms w ms' w' →
      rename_error f1 f2 m1 n1 n2 e → path_fails ms w (VRename p1 p2) e ms' w'
  | fails_link p1 p2 f1 m1 n1 f2 m2 n2 e ms' w' : stands_for ms w p1 f1 m1 n1 → stands_for ms w p2 f2 m2 n2 → unchanged ms w ms' w' →
      link_error f1 f2 m1 n1 n2 e → path_fails ms w (VLink p1 p2) e ms' w'
  | fails_chdir path f m name e ms' w' : stands_for ms w path f m name → name ≠ [] → unchanged ms w ms' w' →
      (e = ENOTDIR ∧ is_Some (a_names (m_afs m) !! name)) ∨ (e = ENOENT ∧ a_names (m_afs m) !! name = None) ∨ resources e → path_fails ms w (VChdir path) e ms' w'.

(** What the operations rely on: the path is a C string that leads to a name in a
    mounted file system; a vnode that is closed is open. *)
Definition named ms w (path : str) : Prop := good_name path ∧ ∃ f name, start ms w path = Some (f, name) ∧ name ≠ [].
Definition path_ready ms w (op : path_op) : Prop :=
  match op with
  | VOpen path _ | VRemove path => named ms w path
  | VRename p1 p2 | VLink p1 p2 => named ms w p1 ∧ named ms w p2
  | VChdir path => good_name path ∧ is_Some (start ms w path)
  | VClose v => ∃ f p m ino oc, v = FsVn f p ∧ ms !! f = Some m ∧ m_vns m !! p = Some (ino, oc) ∧ 0 < oc
  end.

(** A mounted file system whose root directory has to be loaded first. *)
Definition unloaded_root ms : Prop := ∃ f m, ms !! f = Some m ∧ m_refs m = 0.

(** ** The name is what is left of the path *)

Lemma good_skip path : good_name path → good_name (skip_slashes path).
Proof. unfold good_name. induction path as [|c path IH]; intros H; [done|]. simpl. case_match; [|done]. apply IH. by inversion H. Qed.

Lemma good_mark path m pre post : good_name path → first_mark path = Some (m, pre, post) → good_name post.
Proof.
  unfold good_name. revert m pre post. induction path as [|c path IH]; intros m pre post H; [done|]. simpl. inversion_clear H as [|? ? Hc Hp].
  case_match; [by intros [= <- <- <-]|]. destruct (first_mark path) as [[[m' pre'] post']|] eqn:E; [|done]. intros [= <- <- <-]. by eapply IH.
Qed.

Lemma start_good ms w path f name : good_name path → start ms w path = Some (f, name) → good_name name.
Proof.
  intros Hg. unfold start. destruct (first_mark path) as [[[m pre] post]|] eqn:E.
  - pose proof (good_skip _ (good_mark _ _ _ _ Hg E)). destruct pre; [|case_match].
    + destruct (fs_of _); simpl; [by intros [= <- <-]|done].
    + destruct (table_find _ _ _) as [[]|]; try done. by intros [= <- <-].
    + destruct (fs_of _); simpl; [by intros [= <- <-]|done].
  - destruct (fs_of _); simpl; [by intros [= <- <-]|done].
Qed.

Lemma table_find_mounted vol ms w l k devname f : (∀ i kd, l !! i = Some kd → kd_wf ms w (k + i) kd) → table_find vol l devname = Some (RootOf f) → is_Some (ms !! f).
Proof.
  revert k. induction l as [|kd l IH]; intros k Hl; [done|]. simpl. destruct (kd_find vol kd devname) as [t|] eqn:E.
  - intros [= ->]. unfold kd_find in E. destruct (kd_fs kd) as [g|] eqn:Eg; [|by repeat case_match]. case_match; [|by case_match]. injection E as <-.
    apply (kw_fs _ _ _ _ (Hl 0%nat kd eq_refl) g Eg).
  - apply (IH (S k)). intros i kd' Hi. replace (S k + i)%nat with (k + S i)%nat by lia. by apply Hl.
Qed.

Lemma start_mounted ms w path f name : vinv ms w → start ms w path = Some (f, name) → is_Some (ms !! f).
Proof.
  intros [_ Ht [D1 D2 _]]. assert (∀ o f' (n : str), fs_of o = Some f' → (o = p_cwd w ∨ o = bootfs_vnode w) → is_Some (ms !! f')) as Hd.
  { intros o f' _ Ho Hor. destruct (fs_of_Some _ _ Ho) as [d ->]. destruct Hor as [E|E]; symmetry in E; [destruct (D1 _ E) as (g & m & [= -> _] & Hg)|destruct (D2 _ E) as (g & m & [= -> _] & Hg)]; by eexists. }
  unfold start. destruct (first_mark path) as [[[m pre] post]|]; [destruct pre; [|case_match]|].
  - destruct (fs_of _) eqn:E; simpl; [intros [= -> _]|done]. eapply (Hd _ _ []); [exact E|]. case_match; auto.
  - destruct (table_find _ _ _) as [[]|] eqn:E; try done. intros [= -> _]. by apply (table_find_mounted _ ms w _ 0 _ _ (tw_each _ _ Ht) E).
  - destruct (fs_of _) eqn:E; simpl; [intros [= -> _]|done]. eapply (Hd _ _ []); [exact E|auto].
  - destruct (fs_of _) eqn:E; simpl; [intros [= -> _]|done]. eapply (Hd _ _ []); [exact E|auto].
Qed.

Lemma named_leads ms w path : vinv ms w → named ms w path → ∃ f m name, leads (unloaded_root ms) ms w path f m name.
Proof.
  intros Hv (Hg & f & name & Hs & Hn). destruct (start_mounted _ _ _ _ _ Hv Hs) as [m Hm]. exists f, m, name. pose proof (di_refs _ _ (vi_dirs _ _ Hv) f m Hm) as Hr.
  pose proof (held_nonneg w f). split; [done|done|by eapply start_good|done| |lia]. intros H0. by exists f, m.
Qed.

Lemma leads_for X ms w path f m name : leads X ms w path f m name → stands_for ms w path f m name.
Proof. by intros [L1 _ _ L4 _ _]. Qed.

(** ** The invariant *)

Lemma vinv_all ms ms' w : vinv ms w → (∀ f m, ms !! f = Some m → ∃ m', ms' !! f = Some m' ∧ still_rooted m m') → (∀ f, ms !! f = None → ms' !! f = None) → vinv ms' w.
Proof.
  intros [V1 V2 V3] Hall Hnone. split; [done|..].
  - destruct V2 as [T1 T2 T3 T4]. split; try done. intros i kd Hi. destruct (T1 i kd Hi) as [W1 W2 W3 W4]. split; try done.
    intros g Hg. destruct (W4 g Hg) as [m Hm]. destruct (Hall g m Hm) as (m' & Hm' & _). by eexists.
  - pose proof V3 as [D1 D2 D3]. assert (∀ v, (p_cwd w = Some v ∨ bootfs_vnode w = Some v) → root_vnode ms v → root_vnode ms' v) as Hv.
    { intros v Ho (g & mg & -> & Hg). destruct (Hall g mg Hg) as (m' & Hm' & _ & Hroot). destruct (dir_refs _ _ _ _ _ V3 Ho Hg) as [_ Hpos]. exists g, m'. by rewrite Hroot. }
    split; [by auto|by auto|]. intros f m' Hm'. destruct (ms !! f) as [m|] eqn:Hm; [|by rewrite Hnone in Hm']. destruct (Hall f m Hm) as (m2 & E2 & Hle & _). simplify_eq.
    specialize (D3 f m Hm). lia.
Qed.

Lemma unchanged_vinv ms w ms' w' : vinv ms w → unchanged ms w ms' w' → vinv ms' w'.
Proof.
  intros Hv (-> & Hn & Hs). eapply vinv_all; [done| |done]. intros f m Hm. destruct (Hs f m Hm) as (d & Hd & Hm'). eexists. split; [exact Hm'|]. split; [simpl; lia|by auto].
Qed.

Definition keeps_root (R : mfs → mfs → Prop) : Prop := ∀ m m', R m m' → m_refs m' = m_refs m ∧ m_root m' = m_root m.

Lemma becomes_vinv f m ms w R ms' w' : vinv ms w → ms !! f = Some m → keeps_root R → becomes f m ms w R ms' w' → vinv ms' w'.
Proof.
  intros Hv Hf HR (-> & d & m' & Hd & Hr & ->). destruct (HR _ _ Hr) as [E1 E2]. simpl in E1, E2. eapply vinv_update; [done|done|]. split; [lia|]. intros Hpos. rewrite E2. by apply Hd.
Qed.

Lemma open_keeps name flags v : keeps_root (open_ok name flags v).
Proof.
  intros m m' (ino & m1 & oc & Ho & _ & ->). assert (m_refs m1 = m_refs m ∧ m_root m1 = m_root m) as [E1 E2] by (by destruct Ho as [(_ & _ & _ & ->)|(_ & _ & _ & _ & ->)]).
  by case_match.
Qed.

Lemma leaves_keeps name flags e : keeps_root (open_leaves name flags e).
Proof. intros m m' [->|(_ & ino & _ & _ & _ & ->)]; done. Qed.

Lemma remove_keeps name : keeps_root (remove_ok name).
Proof. by intros m m' (ino & a' & _ & _ & ->). Qed.

Lemma rename_keeps n1 n2 : keeps_root (rename_ok n1 n2).
Proof. by intros m m' (ino & _ & _ & ->). Qed.

Lemma link_keeps n1 n2 : keeps_root (link_ok n1 n2).
Proof. by intros m m' (ino & _ & _ & ->). Qed.

Lemma close_keeps v : keeps_root (close_ok v).
Proof. by intros m m' (ino & oc & _ & a' & _ & ->). Qed.

(** ** Each operation *)

Definition path_refines ms w (op : path_op) : Prop :=
  vspec (unloaded_root ms) (run_path op) ms w (λ r ms' w', vinv ms' w' ∧ path_step ms w op r ms' w') (λ e ms' w', vinv ms' w' ∧ path_fails ms w op e ms' w').

Lemma open_refines ms w path flags : vinv ms w → named ms w path → path_refines ms w (VOpen path flags).
Proof.
  intros Hv Hp. destruct (named_leads _ _ _ Hv Hp) as (f & m & name & Hl). pose proof (leads_for _ _ _ _ _ _ _ Hl) as Hs. pose proof (proj2 Hs) as Hf.
  apply vs_bind. eapply vs_conseq; [by apply (vfs_open_spec _ f m path name flags)|..].
  - intros vn ms' w' (v & -> & Hb). apply vs_ret. split; [by eapply becomes_vinv; [..|apply open_keeps|]|by eapply step_open].
  - intros e ms' w' [Hb He]. split; [by eapply becomes_vinv; [..|apply leaves_keeps|]|by eapply fails_open].
Qed.

Lemma close_path_refines ms w v : vinv ms w → path_ready ms w (VClose v) → path_refines ms w (VClose v).
Proof.
  intros Hv (f & p & m & ino & oc & -> & Hf & Hp & Hoc). apply vs_bind. eapply vs_conseq; [by apply (vfs_close_spec _ f m p ino oc)| |done].
  intros [] ms' w' (-> & m' & -> & Hc). apply vs_ret. split; [|by apply (step_close _ _ f m)]. destruct (close_keeps _ _ _ Hc) as [E1 E2].
  eapply vinv_update; [done|done|]. split; [lia|done].
Qed.

Lemma remove_path_refines ms w path : vinv ms w → named ms w path → path_refines ms w (VRemove path).
Proof.
  intros Hv Hp. destruct (named_leads _ _ _ Hv Hp) as (f & m & name & Hl). pose proof (leads_for _ _ _ _ _ _ _ Hl) as Hs. pose proof (proj2 Hs) as Hf.
  apply vs_bind. eapply vs_conseq; [by apply (vfs_remove_spec _ f m path name)|..].
  - intros [] ms' w' Hb. apply vs_ret. split; [by eapply becomes_vinv; [..|apply remove_keeps|]|by eapply step_remove].
  - intros e ms' w' [Hb He]. split; [by eapply unchanged_vinv|by eapply fails_remove].
Qed.

Lemma rename_path_refines ms w p1 p2 : vinv ms w → named ms w p1 → named ms w p2 → path_refines ms w (VRename p1 p2).
Proof.
  intros Hv H1 H2. destruct (named_leads _ _ _ Hv H1) as (f1 & m1 & n1 & Hl1), (named_leads _ _ _ Hv H2) as (f2 & m2 & n2 & Hl2).
  pose proof (leads_for _ _ _ _ _ _ _ Hl1) as Hs1. pose proof (leads_for _ _ _ _ _ _ _ Hl2) as Hs2. pose proof (proj2 Hs1) as Hf.
  apply vs_bind. eapply vs_conseq; [by apply (vfs_rename_spec _ f1 m1 p1 n1 f2 m2 p2 n2)|..].
  - intros [] ms' w' [<- Hb]. apply vs_ret. split; [by eapply becomes_vinv; [..|apply rename_keeps|]|by eapply step_rename].
  - intros e ms' w' [Hb He]. split; [by eapply unchanged_vinv|by eapply fails_rename].
Qed.

Lemma link_path_refines ms w p1 p2 : vinv ms w → named ms w p1 → named ms w p2 → path_refines ms w (VLink p1 p2).
Proof.
  intros Hv H1 H2. destruct (named_leads _ _ _ Hv H1) as (f1 & m1 & n1 & Hl1), (named_leads _ _ _ Hv H2) as (f2 & m2 & n2 & Hl2).
  pose proof (leads_for _ _ _ _ _ _ _ Hl1) as Hs1. pose proof (leads_for _ _ _ _ _ _ _ Hl2) as Hs2. pose proof (proj2 Hs1) as Hf.
  apply vs_bind. eapply vs_conseq; [by apply (vfs_link_spec _ f1 m1 p1 n1 f2 m2 p2 n2)|..].
  - intros [] ms' w' [<- Hb]. apply vs_ret. split; [by eapply becomes_vinv; [..|apply link_keeps|]|by eapply step_link].
  - intros e ms' w' [Hb He]. split; [by eapply unchanged_vinv|by eapply fails_link].
Qed.

Lemma chdir_refines ms w path : vinv ms w → path_ready ms w (VChdir path) → path_refines ms w (VChdir path).
Proof.
  intros Hv (Hg & [f name] & Hs). destruct (start_mounted _ _ _ _ _ Hv Hs) as [m Hm]. apply vs_bind. destruct (decide (name = [])) as [->|Hn].
  - eapply vs_conseq; [apply (vfs_chdir_spec (unloaded_root ms) f m path); [done|done|done|by exists f, m]| |done].
    intros [] ms' w' (d & -> & Hv' & Ho). apply vs_ret. split; [done|]. by eapply step_chdir.
  - destruct (named_leads ms w path Hv) as (f' & m' & name' & Hl); [by split; [|exists f, name]|]. eapply vs_conseq; [by apply (vfs_chdir_file _ f' m' path name')|done|].
    intros e ms' w' [Hb He]. split; [by eapply unchanged_vinv|]. eapply fails_chdir; [by eapply leads_for|apply Hl|done|done].
Qed.

Lemma path_op_refines ms w op : vinv ms w → path_ready ms w op → path_refines ms w op.
Proof.
  intros Hv Hr. destruct op; [by apply open_refines|by apply close_path_refines|by apply remove_path_refines|destruct Hr; by apply rename_path_refines|destruct Hr; by apply link_path_refines|by apply chdir_refines].
Qed.
End Path.
