(* ===== verification/VfsSfs.v ===== *)
(** * SFS under the VFS layer

    SFS as a file system of the VFS layer: the operations of [FileSystem] by the
    tables sfs_fileops and sfs_dirops of sfs_vnode.c and the functions of struct fs,
    with the check of the vnode that the VOP macros make; and the proof that it
    keeps the laws of VfsSpec.v. *)

From S2P Require Import Prelude Afs Bitmap UserCopy Uio Disk Vfs VfsSpec SfsTypes Sfs SfsNode SfsMount SfsBlk SfsMap SfsIo SfsDir SfsTrunc SfsInv SfsVnode SfsTree SfsOps SfsFile SfsSync SfsAbs.
#[local] Open Scope kern_scope.
#[local] Opaque entry.

(** ** The operations *)

(** vnode_check *)
Definition sfs_vnode_check (sv : Z) : SM unit :=
  under_biglock (
    x <- read_sv sv ;;
    kassert (0 <? vn_refcount x) ;;
    kassert (0 <=? vn_opencount x)).

(** The function in the vnode's table. *)
Definition vop {A} (sv : Z) (file dir : SM A) : SM A :=
  sfs_vnode_check sv ;;
  x <- read_sv sv ;;
  match vn_ops x with sfs_fileops => file | sfs_dirops => dir end.
Definition vop_uio {A} (sv : Z) (file dir : IM A) : M (sfs * stream) A :=
  lift (λ p, mkIO p.1 p.2) (λ io _, (io_fs io, io_uio io))
    (o <- fs (vop sv (ret sfs_fileops) (ret sfs_dirops)) ;; match o with sfs_fileops => file | sfs_dirops => dir end).

#[export] Instance sfs_filesystem : FileSystem sfs := {|
  fs_depth := vfs_biglock_depth;
  fs_set_depth := set_depth;
  fs_sync := sfs_sync;
  fs_getvolname := (v <- sfs_getvolname ;; ret (Some (c_string v)));
  fs_getroot := sfs_getroot;
  fs_unmount := sfs_unmount;
  op_incref := vnode_incref;
  op_decref := vnode_decref;
  op_incopen := vnode_incopen;
  op_decopen := vnode_decopen;
  op_open sv flags := vop sv (sfs_open flags) (sfs_opendir flags);
  op_read sv := vop_uio sv (sfs_read sv) (fail EISDIR);
  op_write sv := vop_uio sv (sfs_write sv) (fail EISDIR);
  op_readlink sv := vop_uio sv (fail ENOTDIR) (fail EISDIR);
  op_gettype sv := vop sv (sfs_gettype sv) (sfs_gettype sv);
  op_truncate sv len := vop sv (sfs_truncate sv len) (fail EISDIR);
  op_namefile sv := vop_uio sv (fail ENOTDIR) (fs (sfs_namefile sv));
  op_creat sv name excl := vop sv (fail ENOTDIR) (sfs_creat sv name excl);
  op_symlink sv name contents := vop sv (fail ENOTDIR) (fail EUNIMP);
  op_mkdir sv name := vop sv (fail ENOTDIR) (fail EUNIMP);
  op_link sv name file := vop sv (fail ENOTDIR) (sfs_link sv name file);
  op_remove sv name := vop sv (fail ENOTDIR) (sfs_remove sv name);
  op_rmdir sv name := vop sv (fail ENOTDIR) (fail EUNIMP);
  op_rename sv n1 sv2 n2 := vop sv (fail ENOTDIR) (sfs_rename sv n1 sv2 n2);
  op_lookup sv path := vop sv (fail ENOTDIR) (sfs_lookup sv path);
  op_lookparent sv path buflen := vop sv (fail ENOTDIR) (sfs_lookparent sv path buflen)
|}.

(** ** Representation *)

(** The vnodes of files: their objects and how often they are open. *)
Definition file_vnode (x : sfs_vnode) : option (Z * Z) := if decide (sv_ino x = SFS_ROOT_LOCATION) then None else Some (sv_ino x, vn_opencount x).
Definition vns_of (s : sfs) : gmap Z (Z * Z) := omap file_vnode (sv_at s).

(** The vnode of the root directory. *)
Definition root_at (s : sfs) (d n : Z) : Prop := ∃ xd, sv_at s !! d = Some xd ∧ sv_ino xd = SFS_ROOT_LOCATION ∧ vn_refcount xd = n ∧ vn_opencount xd = 0.

Record sfs_rep (m : mfs) (s : sfs) : Prop := {
  sr_stores : ∃ T r L, stores (m_afs m) T r L s;
  sr_vol : m_vol m = Some (c_string (sp_volname (sfs_sb s)));
  sr_vns : m_vns m = vns_of s;
  sr_refs : 0 ≤ m_refs m;
  sr_root : 0 < m_refs m → root_at s (m_root m) (m_refs m);
  sr_noroot : m_refs m = 0 → ¬ is_loaded s SFS_ROOT_LOCATION
}.

(** A file system whose root directory is referenced. *)
Lemma rep_represents m s : sfs_rep m s → 0 < m_refs m → ∃ T r L xd, represents (m_afs m) (m_root m) T r L s xd ∧ vn_refcount xd = m_refs m ∧ vn_opencount xd = 0.
Proof.
  intros [(T & r & L & Hs) _ _ _ Hroot _] Hpos. destruct (Hroot Hpos) as (xd & H1 & H2 & H3 & H4). exists T, r, L, xd. by rewrite represents_stores.
Qed.

(** What an operation that leaves the root directory's references alone has to show. *)
Lemma rep_intro m s s' a' vns' : sfs_rep m s → 0 < m_refs m → holds a' (m_root m) s' → root_refs s s' → sfs_sb s' = sfs_sb s → vns_of s' = vns' →
  sfs_rep (mkMfs a' (m_vol m) (m_root m) (m_refs m) vns') s'.
Proof.
  intros Hm Hpos (T & r & L & xd & Hrep) Hrr Hsb <-. apply represents_stores in Hrep as [Hst _]. destruct (sr_root _ _ Hm Hpos) as (xd0 & H1 & H2 & H3 & H4).
  destruct (Hrr _ _ H1 H2) as (xd' & Hx' & E1 & E2 & E3). split; simpl; [by exists T, r, L|rewrite Hsb; apply Hm|done|lia| |lia].
  intros _. exists xd'. split_and!; congruence.
Qed.

(** ** Vnodes of files *)

Lemma vns_lookup s v : vns_of s !! v = sv_at s !! v ≫= file_vnode.
Proof. apply lookup_omap. Qed.

Lemma vns_some s v ino oc : vns_of s !! v = Some (ino, oc) ↔ ∃ x, sv_at s !! v = Some x ∧ sv_ino x = ino ∧ ino ≠ SFS_ROOT_LOCATION ∧ vn_opencount x = oc.
Proof.
  rewrite vns_lookup. unfold file_vnode. destruct (sv_at s !! v) as [x|]; simpl; [|naive_solver]. case_decide; naive_solver.
Qed.

(** The vnodes of files are the same if those that are not are the root's. *)
Lemma vns_same s s' : (∀ v, (sv_at s' !! v = sv_at s !! v) ∨ (sv_at s' !! v ≫= file_vnode = sv_at s !! v ≫= file_vnode)) → vns_of s' = vns_of s.
Proof. intros H. apply map_eq. intros v. rewrite !vns_lookup. by destruct (H v) as [->| ->]. Qed.

Lemma file_vnode_root x : sv_ino x = SFS_ROOT_LOCATION → file_vnode x = None.
Proof. intros E. unfold file_vnode. by rewrite decide_True. Qed.

Lemma sfs_vns_ok m s : sfs_rep m s → vns_ok m.
Proof.
  intros [(T & r & L & [Hinv S2 S3 S4]) _ Hv _ _ _]. split; rewrite Hv.
  - intros v ino oc (x & Hx & E & Hne & Ho)%vns_some. destruct (mc_vnodes _ _ (sc_mem _ _ _ (si_core _ _ _ _ Hinv)) _ _ Hx) as [V1 V2 V3 _ _]. split_and!; [lia|..].
    + rewrite S3, decide_False, <- E, V1 by done. by eexists.
    + exists (vn_refcount x). split_and!; [|lia|lia]. apply S4. split; [done|]. by exists v, x.
  - intros ino n (Hne & v & x & Hx & E & _)%S4. exists v, (vn_opencount x). apply vns_some. by exists x.
Qed.

(** ** Dispatch *)

Lemma set_depth_back s : set_depth (λ d, d - 1) (set_depth (λ d, d + 1) s) = s.
Proof. destruct s. unfold set_depth. simpl. f_equal. lia. Qed.

Lemma wp_vop {A} X T sv x (file dir : SM A) Q E s : 0 ≤ vfs_biglock_depth s → sv_at s !! sv = Some x → vnode_ok T s x →
  wpx X (match vn_ops x with sfs_fileops => file | sfs_dirops => dir end) Q E s → wpx X (vop sv file dir) Q E s.
Proof.
  intros Hd Hx [V1 V2 V3 V4 V5] H. unfold vop, sfs_vnode_check. wp_step. apply wp_under_biglock; [done|]. wp_steps. eapply wp_read_sv; [done|]. wp_steps.
  apply wp_kassert; [lia|]. apply wp_kassert; [lia|]. split; [simpl; lia|]. rewrite set_depth_back. wp_steps. eapply wp_read_sv; [done|]. done.
Qed.

(** The root directory's table, and that of files. *)
Lemma root_ops T r L s d xd : has_root T r L s d xd → vnode_ok T s xd ∧ vn_ops xd = sfs_dirops ∧ 0 ≤ vfs_biglock_depth s ∧ sfi_type (sv_i xd) = SFS_TYPE_DIR.
Proof.
  intros [[Hc Ht] Hx Hi]. pose proof (mc_vnodes _ _ (sc_mem _ _ _ Hc) _ _ Hx) as Hv. pose proof Hv as [V1 V2 V3 V4 V5]. rewrite Hi, (st_root _ _ _ Ht) in V1. injection V1 as E.
  assert (sfi_type (sv_i xd) = SFS_TYPE_DIR) as Et by (rewrite <- E; apply (do_type _ _ (st_dir _ _ _ Ht))). rewrite Et in V4. injection V4 as V4.
  split_and!; [done|done|apply (sc_mem _ _ _ Hc)|done].
Qed.

Lemma file_ops T r L s v x : sfs_inv T r L s → sv_at s !! v = Some x → sv_ino x ≠ SFS_ROOT_LOCATION →
  vnode_ok T s x ∧ vn_ops x = sfs_fileops ∧ 0 ≤ vfs_biglock_depth s ∧ sfi_type (sv_i x) = SFS_TYPE_FILE.
Proof.
  intros [Hc Ht] Hx Hi. pose proof (mc_vnodes _ _ (sc_mem _ _ _ Hc) _ _ Hx) as Hv. pose proof Hv as [V1 V2 V3 V4 V5].
  pose proof (st_types _ _ _ Ht _ _ V1 Hi) as Et. rewrite Et in V4. injection V4 as V4. split_and!; [done|done|apply (sc_mem _ _ _ Hc)|done].
Qed.

(** An operation on the root directory. *)
Lemma wp_root_op {A} X T r L s d xd (file dir : SM A) Q E : has_root T r L s d xd → wpx X dir Q E s → wpx X (vop d file dir) Q E s.
Proof.
  intros Hr H. destruct (root_ops _ _ _ _ _ _ Hr) as (Hv & Ho & Hd & _). eapply wp_vop; [done|apply Hr|done|]. by rewrite Ho.
Qed.

Lemma wp_file_op {A} X T r L s v x (file dir : SM A) Q E : sfs_inv T r L s → sv_at s !! v = Some x → sv_ino x ≠ SFS_ROOT_LOCATION → wpx X file Q E s → wpx X (vop v file dir) Q E s.
Proof.
  intros Hi Hx Hne H. destruct (file_ops _ _ _ _ _ _ Hi Hx Hne) as (Hv & Ho & Hd & _). eapply wp_vop; [done|done|done|]. by rewrite Ho.
Qed.

(** ** The laws: names *)

(** The vnodes of files when only the root's has changed. *)
Lemma vns_kept_root T P s s' d xd xd' : kept T P (λ v, v = d) s s' → sv_at s !! d = Some xd → sv_ino xd = SFS_ROOT_LOCATION → sv_at s' !! d = Some xd' → sv_ino xd' = SFS_ROOT_LOCATION →
  vns_of s' = vns_of s.
Proof.
  intros Hk H1 H2 H3 H4. apply vns_same. intros v. destruct (decide (v = d)) as [->|Hv]; [right|left; by apply (kp_vnodes _ _ _ _ _ Hk)].
  rewrite H1, H3. simpl. by rewrite !file_vnode_root.
Qed.

Section Laws.
Context (X : Prop) (m : mfs) (s : sfs) (Hm : sfs_rep m s) (Hpos : 0 < m_refs m).
#[local] Notation a := (m_afs m).
#[local] Notation d := (m_root m).

(** The state is as before for all that can be seen. *)
Definition same_state (s' : sfs) : Prop := vfs_biglock_depth s' = vfs_biglock_depth s ∧ sfs_rep m s'.

Lemma same_state_names T r L L' xd s' : represents a d T r L s xd → names_same T r L' s d s' → same_state s'.
Proof.
  intros Hrep Hs. pose proof (same_holds _ _ _ _ _ _ _ _ _ Hrep Hs) as Hh. destruct Hs as (r' & xd' & Hr' & He & Hk). pose proof (re_root _ _ _ _ _ _ _ Hrep) as Hr. split; [apply Hk|].
  assert (vns_of s' = m_vns m) as Hv.
  { rewrite (sr_vns _ _ Hm). eapply vns_kept_root; [exact Hk|apply Hr|apply Hr|apply Hr'|apply Hr']. }
  pose proof (rep_intro m s s' a (m_vns m) Hm Hpos Hh (kp_root _ _ _ _ _ Hk) (kp_sb _ _ _ _ _ Hk) Hv) as H. by destruct m.
Qed.

Lemma same_state_fs s' : same_fs s s' → same_state s'.
Proof.
  intros Hs. destruct (rep_represents _ _ Hm Hpos) as (T & r & L & xd & Hrep & _ & _). eapply same_state_names; [exact Hrep|]. eapply names_same_fs; [apply Hrep|done].
Qed.

(** A file has been looked up. *)
Lemma found_state T r L xd name sv s' : represents a d T r L s xd → found_file T r L s d name sv s' →
  vfs_biglock_depth s' = vfs_biglock_depth s ∧ ∃ ino, a_names a !! name = Some ino ∧ vnode_for m ino sv ∧ sfs_rep (m_get ino sv m) s'.
Proof.
  intros Hrep Hf. pose proof Hrep as [R1 R2 R3 R4]. destruct (found_holds _ _ _ _ _ _ _ _ _ _ Hrep Hf) as (ino & Hn & Hh & _). destruct Hf as (slot & ino' & i & x & xd' & He & Hi & Ex & Hg & Hr').
  assert (a_names a !! name = Some ino') as Hn' by (apply R2; by exists slot). assert (ino' = ino) as -> by congruence. clear Hn'.
  destruct (entry_object _ _ _ _ _ _ _ (hr_inv _ _ _ _ _ _ R1) He) as (_ & _ & Hne & _). pose proof (got_kept _ _ _ _ _ _ _ (si_core _ _ _ _ (hr_inv _ _ _ _ _ _ R1)) Hg Hne) as Hk.
  pose proof Hg as [G1 G2 _ G4 _ _ _]. split; [apply Hk|]. exists ino. split; [done|].
  assert ((∃ oc, m_vns m !! sv = Some (ino, oc) ∧ vns_of s' = m_vns m) ∨ (m_vns m !! sv = None ∧ a_open a !! ino = None ∧ vns_of s' = <[sv := (ino, 0)]> (m_vns m))) as Hcase.
  { rewrite (sr_vns _ _ Hm). destruct G4 as [(x0 & Hx0 & ->)|(Hnone & Hnl & _ & Hoc)].
    - left. exists (vn_opencount x0). split; [apply vns_some; by exists x0|]. apply vns_same. intros v. destruct (decide (v = sv)) as [->|Hv]; [right; by rewrite G1, Hx0|].
      left. by apply (kp_vnodes _ _ _ _ _ Hk).
    - right. split_and!; [by rewrite vns_lookup, Hnone| |].
      + destruct (a_open a !! ino) as [n|] eqn:En; [|done]. apply R4 in En as (_ & v & y & Hy & Ey & _). destruct Hnl. by exists v, y.
      + apply map_eq. intros v. destruct (decide (v = sv)) as [->|Hv]; [|by rewrite lookup_insert_ne, !vns_lookup, (kp_vnodes _ _ _ _ _ Hk)].
        rewrite lookup_insert_eq. apply vns_some. by exists x. }
  split; [destruct Hcase as [(oc & E & _)|(E & Eo & _)]; [left; by exists oc|by right]|].
  assert (vns_of s' = if decide (is_Some (m_vns m !! sv)) then m_vns m else <[sv := (ino, 0)]> (m_vns m)) as Hv.
  { destruct Hcase as [(oc & E & ->)|(E & _ & ->)]; rewrite E; case_decide as Hd; [done|by destruct Hd|by destruct Hd|done]. }
  exact (rep_intro m s s' (reopen ino a) _ Hm Hpos Hh (kp_root _ _ _ _ _ Hk) (kp_sb _ _ _ _ _ Hk) Hv).
Qed.

(** A file has been made. *)
Lemma made_state T r L xd name sv s' : represents a d T r L s xd → made_file T r L s d name sv s' →
  vfs_biglock_depth s' = vfs_biglock_depth s ∧ ∃ ino, a_names a !! name = None ∧ a_files a !! ino = None ∧ m_vns m !! sv = None ∧ sfs_rep (m_make name ino sv m) s'.
Proof.
  intros Hrep Hf. pose proof Hrep as [R1 R2 R3 R4]. destruct (made_holds _ _ _ _ _ _ _ _ _ _ Hrep Hf) as (ino & Hn & Hfi & Hh & Hsv).
  destruct Hf as (slot & ino' & r' & xd' & _ & _ & Hi & Hr' & _ & Hk & Hsv' & Hsv0). assert (ino' = ino) as -> by (rewrite Hsv' in Hsv; by injection Hsv).
  assert (ino ≠ SFS_ROOT_LOCATION) as Hne by (pose proof (st_root _ _ _ (si_tree _ _ _ _ (hr_inv _ _ _ _ _ _ R1))); congruence).
  split; [apply Hk|]. exists ino. split_and!; [done|done|by rewrite (sr_vns _ _ Hm), vns_lookup, Hsv0|].
  assert (vns_of s' = <[sv := (ino, 0)]> (m_vns m)) as Hv.
  { rewrite (sr_vns _ _ Hm). apply map_eq. intros v. destruct (decide (v = sv)) as [->|Hv]; [rewrite lookup_insert_eq; apply vns_some; by eexists|]. rewrite lookup_insert_ne, !vns_lookup by done.
    destruct (decide (v = d)) as [->|Hd]; [|rewrite (kp_vnodes _ _ _ _ _ Hk); [done|naive_solver]].
    rewrite (hr_sv _ _ _ _ _ _ R1), (hr_sv _ _ _ _ _ _ Hr'). simpl. rewrite !file_vnode_root; [done|first [apply R1|apply Hr']..]. }
  exact (rep_intro m s s' _ _ Hm Hpos Hh (kp_root _ _ _ _ _ Hk) (kp_sb _ _ _ _ _ Hk) Hv).
Qed.

(** The object [ino] has other links; the vnodes are the same. *)
Lemma relinked_vns T P (Q : Z → Prop) ino s' : kept T P Q s s' →
  (∀ v, Q v → v = d ∨ ∃ y y', sv_at s !! v = Some y ∧ sv_ino y = ino ∧ sv_at s' !! v = Some y' ∧ sv_ino y' = ino ∧ vn_opencount y' = vn_opencount y) → (∀ v, Q v ∨ ¬ Q v) →
  vns_of s' = m_vns m.
Proof.
  intros Hk HQ Hdec. rewrite (sr_vns _ _ Hm). apply vns_same. intros v. destruct (Hdec v) as [Hv|Hv]; [right|left; by apply (kp_vnodes _ _ _ _ _ Hk)].
  destruct (HQ v Hv) as [->|(y & y' & H1 & H2 & H3 & H4 & H5)].
  - destruct (sr_root _ _ Hm Hpos) as (xd & H1 & H2 & _). destruct (kp_root _ _ _ _ _ Hk _ _ H1 H2) as (xd' & H3 & H4 & _). rewrite H1, H3. simpl.
    rewrite !file_vnode_root; [done|congruence..].
  - rewrite H1, H3. simpl. unfold file_vnode. by rewrite H2, H4, H5.
Qed.

Lemma linked_state T r L xd name sv x s' : represents a d T r L s xd → sv_at s !! sv = Some x → sv_ino x ≠ SFS_ROOT_LOCATION → linked_file T r L s d name sv x s' →
  vfs_biglock_depth s' = vfs_biglock_depth s ∧ a_names a !! name = None ∧ sfs_rep (set_afs (set_names <[name := sv_ino x]>) m) s'.
Proof.
  intros Hrep Hx Hne Hl. destruct (linked_holds _ _ _ _ _ _ _ _ _ _ _ Hrep Hx Hne Hl) as [Hn Hh]. destruct Hl as (slot & r' & xd' & _ & _ & [_ _ Hk Hsv]).
  split_and!; [apply Hk|done|]. apply (rep_intro m s s' _ (m_vns m) Hm Hpos Hh (kp_root _ _ _ _ _ Hk) (kp_sb _ _ _ _ _ Hk)).
  eapply (relinked_vns _ _ _ (sv_ino x)); [exact Hk| |intros v; destruct (decide (v = d)), (decide (v = sv)); naive_solver]. intros v [->| ->]; [by left|right]. eexists x, _. by split_and!.
Qed.

Lemma given_back_vns T T' r' L f ino n xd' s' : given_back T T' r' L s d f ino n xd' s' → vns_of s' = m_vns m.
Proof.
  intros [_ _ _ Hk Hv]. eapply (relinked_vns _ _ _ ino); [exact Hk|..].
  - intros v [->|(y & Hy & E)]; [by left|right]. exists y, (linked_vnode n y). split_and!; [done|done|by apply Hv|done|done].
  - intros v. destruct (decide (v = d)) as [->|Hd]; [by auto|]. destruct (sv_at s !! v) as [y|] eqn:Hy; [|right; naive_solver].
    destruct (decide (sv_ino y = ino)); [left; eauto|right; naive_solver].
Qed.

Lemma removed_state T r L xd name s' : represents a d T r L s xd → removed_file T r L s d name s' →
  vfs_biglock_depth s' = vfs_biglock_depth s ∧
  ∃ ino a', a_names a !! name = Some ino ∧ collected ino (set_names (delete name) a) a' ∧ sfs_rep (set_afs (λ _, a') m) s'.
Proof.
  intros Hrep Hf. destruct (removed_holds _ _ _ _ _ _ _ _ _ Hrep Hf) as (ino & a' & H1 & H2 & H3). destruct Hf as (slot & ino' & i & r' & xd' & _ & _ & Hb).
  pose proof (gb_kept _ _ _ _ _ _ _ _ _ _ _ Hb) as Hk. split; [apply Hk|]. exists ino, a'. split_and!; [done|done|].
  apply (rep_intro m s s' _ (m_vns m) Hm Hpos H3 (kp_root _ _ _ _ _ Hk) (kp_sb _ _ _ _ _ Hk)). by eapply given_back_vns.
Qed.

Lemma renamed_state T r L xd n1 n2 s' : represents a d T r L s xd → renamed_file T r L s d n1 n2 s' →
  vfs_biglock_depth s' = vfs_biglock_depth s ∧
  ∃ ino, a_names a !! n1 = Some ino ∧ a_names a !! n2 = None ∧ sfs_rep (set_afs (set_names (λ ns, <[n2 := ino]> (delete n1 ns))) m) s'.
Proof.
  intros Hrep Hf. destruct (renamed_holds _ _ _ _ _ _ _ _ _ _ Hrep Hf) as (ino & H1 & H2 & H3). destruct Hf as (slot1 & slot2 & ino' & i & r' & xd' & _ & _ & _ & _ & Hb).
  pose proof (gb_kept _ _ _ _ _ _ _ _ _ _ _ Hb) as Hk. split; [apply Hk|]. exists ino. split_and!; [done|done|].
  apply (rep_intro m s s' _ (m_vns m) Hm Hpos H3 (kp_root _ _ _ _ _ Hk) (kp_sb _ _ _ _ _ Hk)). by eapply given_back_vns.
Qed.
End Laws.
