(* ===== verification/VfsSfsLaws.v ===== *)
(** * SFS keeps the laws of a file system

    Each operation of SFS, called through its table, changes the abstract mounted file
    system as VfsSpec.v asks, and leaves vfs_biglock at its depth. *)

From S2P Require Import Prelude Afs Bitmap UserCopy Uio Disk Vfs VfsSpec SfsTypes Sfs SfsNode SfsMount SfsBlk SfsMap SfsIo SfsDir SfsTrunc SfsInv SfsVnode SfsTree SfsOps SfsFile SfsSync SfsAbs VfsSfs.
#[local] Open Scope kern_scope.
#[local] Opaque entry.

(** ** Names *)

Section Names.
Context (X : Prop) (m : mfs) (Hpos : 0 < m_refs m).
#[local] Notation a := (m_afs m).
#[local] Notation d := (m_root m).

Lemma sfs_law_lookup name : runs sfs_rep X (op_lookup d name) m
  (λ v m', ∃ ino, a_names a !! name = Some ino ∧ vnode_for m ino v ∧ m' = m_get ino v m)
  (λ e m', ((e = ENOENT ∧ a_names a !! name = None) ∨ e = ENOMEM) ∧ m' = m).
Proof.
  intros s Hm. destruct (rep_represents m s Hm Hpos) as (T & r & L & xd & Hrep & _). pose proof (re_root _ _ _ _ _ _ _ Hrep) as Hr.
  eapply wp_root_op; [exact Hr|]. eapply wp_conseq; [apply (sfs_lookup_spec X T r L s d xd name Hr)|..].
  - intros v s' Hf. destruct (found_state m s Hm Hpos _ _ _ _ _ _ _ Hrep Hf) as (Hd & ino & H1 & H2 & H3). split; [done|]. eexists. split; [exists ino; by split_and!|done].
  - intros e s' Hf. destruct (lookup_failed_holds _ _ _ _ _ _ _ Hrep _ _ _ Hf) as [He _]. destruct (same_state_fs m s Hm Hpos s' (proj1 Hf)). split; [done|]. by exists m.
Qed.

Lemma link_error_names T r L s xd name e s1 : represents a d T r L s xd → link_error r s name e s1 →
  (e = EEXIST ∧ is_Some (a_names a !! name)) ∨ (e = ENAMETOOLONG ∧ SFS_NAMELEN ≤ lengthZ name) ∨ resources e.
Proof.
  intros Hrep [[-> H]|[[-> H]|[[-> _]|[-> _]]]]; [left; split; [done|by eapply name_taken]|by auto|right; right; by left|right; right; right; by left].
Qed.

Lemma sfs_law_creat name excl : good_name name → runs sfs_rep X (op_creat d name excl) m
  (λ v m', ∃ ino, (excl = false ∧ a_names a !! name = Some ino ∧ vnode_for m ino v ∧ m' = m_get ino v m) ∨
     (a_names a !! name = None ∧ a_files a !! ino = None ∧ m_vns m !! v = None ∧ m' = m_make name ino v m))
  (λ e m', ((e = EEXIST ∧ excl = true ∧ is_Some (a_names a !! name)) ∨ (e = ENAMETOOLONG ∧ SFS_NAMELEN ≤ lengthZ name) ∨ resources e) ∧ m' = m).
Proof.
  intros Hn s Hm. destruct (rep_represents m s Hm Hpos) as (T & r & L & xd & Hrep & _). pose proof (re_root _ _ _ _ _ _ _ Hrep) as Hr.
  eapply wp_root_op; [exact Hr|]. eapply wp_conseq; [apply (sfs_creat_spec X T r L s d xd name excl Hr Hn)|..].
  - intros v s' [[-> Hf]|Hf].
    + destruct (found_state m s Hm Hpos _ _ _ _ _ _ _ Hrep Hf) as (Hd & ino & H1 & H2 & H3). split; [done|]. eexists. split; [exists ino; left; by split_and!|done].
    + destruct (made_state m s Hm Hpos _ _ _ _ _ _ _ Hrep Hf) as (Hd & ino & H1 & H2 & H3 & H4). split; [done|]. eexists. split; [exists ino; right; by split_and!|done].
  - intros e s' (L' & Hs & He). destruct (same_state_names m s Hm Hpos _ _ _ _ _ _ Hrep Hs). split; [done|]. exists m. split; [|done]. split; [|done].
    destruct He as [[_ [(-> & -> & Ht)|[[-> ?]|He]]]|[-> _]]; [left; split_and!; [done|done|by eapply name_taken]|by auto|unfold resources; tauto|unfold resources; tauto].
Qed.

Lemma sfs_law_link name v ino oc : good_name name → m_vns m !! v = Some (ino, oc) → runs sfs_rep X (op_link d name v) m
  (λ _ m', a_names a !! name = None ∧ m' = set_afs (set_names <[name := ino]>) m)
  (λ e m', ((e = EEXIST ∧ is_Some (a_names a !! name)) ∨ (e = ENAMETOOLONG ∧ SFS_NAMELEN ≤ lengthZ name) ∨ resources e) ∧ m' = m).
Proof.
  intros Hn Hv s Hm. destruct (rep_represents m s Hm Hpos) as (T & r & L & xd & Hrep & _). pose proof (re_root _ _ _ _ _ _ _ Hrep) as Hr.
  rewrite (sr_vns _ _ Hm) in Hv. apply vns_some in Hv as (x & Hx & <- & Hne & _).
  eapply wp_root_op; [exact Hr|]. eapply wp_conseq; [apply (sfs_link_spec X T r L s d xd name v x Hr Hx Hne Hn)|..].
  - intros [] s' Hf. destruct (linked_state m s Hm Hpos _ _ _ _ _ _ _ _ Hrep Hx Hne Hf) as (Hd & H1 & H2). split; [done|]. eexists. split; [by split|done].
  - intros e s' [Hs He]. destruct (same_state_names m s Hm Hpos _ _ _ _ _ _ Hrep Hs). split; [done|]. exists m. split; [|done]. split; [|done]. by eapply link_error_names.
Qed.

Lemma sfs_law_remove name : runs sfs_rep X (op_remove d name) m
  (λ _ m', ∃ ino a', a_names a !! name = Some ino ∧ collected ino (set_names (delete name) a) a' ∧ m' = set_afs (λ _, a') m)
  (λ e m', ((e = ENOENT ∧ a_names a !! name = None) ∨ resources e) ∧ m' = m).
Proof.
  intros s Hm. destruct (rep_represents m s Hm Hpos) as (T & r & L & xd & Hrep & _). pose proof (re_root _ _ _ _ _ _ _ Hrep) as Hr.
  eapply wp_root_op; [exact Hr|]. eapply wp_conseq; [apply (sfs_remove_spec X T r L s d xd name Hr)|..].
  - intros [] s' Hf. destruct (removed_state m s Hm Hpos _ _ _ _ _ _ Hrep Hf) as (Hd & ino & a' & H1 & H2 & H3). split; [done|]. eexists. split; [exists ino, a'; by split_and!|done].
  - intros e s' Hf. destruct (lookup_failed_holds _ _ _ _ _ _ _ Hrep _ _ _ Hf) as [He _]. destruct (same_state_fs m s Hm Hpos s' (proj1 Hf)). split; [done|].
    exists m. unfold resources. naive_solver.
Qed.

Lemma sfs_law_rename n1 n2 : good_name n2 → runs sfs_rep X (op_rename d n1 d n2) m
  (λ _ m', ∃ ino, a_names a !! n1 = Some ino ∧ a_names a !! n2 = None ∧ m' = set_afs (set_names (λ ns, <[n2 := ino]> (delete n1 ns))) m)
  (λ e m', ((e = ENOENT ∧ a_names a !! n1 = None) ∨ (e = EEXIST ∧ is_Some (a_names a !! n2)) ∨ (e = ENAMETOOLONG ∧ SFS_NAMELEN ≤ lengthZ n2) ∨ resources e) ∧ m' = m).
Proof.
  intros Hn s Hm. destruct (rep_represents m s Hm Hpos) as (T & r & L & xd & Hrep & _). pose proof (re_root _ _ _ _ _ _ _ Hrep) as Hr.
  eapply wp_root_op; [exact Hr|]. eapply wp_conseq; [apply (sfs_rename_spec X T r L s d xd n1 n2 Hr Hn)|..].
  - intros [] s' Hf. destruct (renamed_state m s Hm Hpos _ _ _ _ _ _ _ Hrep Hf) as (Hd & ino & H1 & H2 & H3). split; [done|]. eexists. split; [exists ino; by split_and!|done].
  - intros e s' [Hf|[Hs [s1 He]]].
    + destruct (lookup_failed_holds _ _ _ _ _ _ _ Hrep _ _ _ Hf) as [He _]. destruct (same_state_fs m s Hm Hpos s' (proj1 Hf)). split; [done|]. exists m. unfold resources. naive_solver.
    + destruct (same_state_names m s Hm Hpos _ _ _ _ _ _ Hrep Hs). split; [done|]. exists m. split; [|done]. split; [|done]. right. by eapply link_error_names.
Qed.
End Names.

(** ** The root directory *)

(** Only the vnode of the root directory has changed. *)
Lemma root_changed a T r L s s' d : stores a T r L s → sfs_core T L s' → sfs_sb s' = sfs_sb s →
  (∀ ino i b, T !! ino = Some i → owns_block s i b → marked s' b ∧ sect s' b = sect s b) → (∀ v, v ≠ d → sv_at s' !! v = sv_at s !! v) →
  (∀ x, sv_at s !! d = Some x → sv_ino x = SFS_ROOT_LOCATION) → (∀ x, sv_at s' !! d = Some x → sv_ino x = SFS_ROOT_LOCATION) →
  stores a T r L s' ∧ vns_of s' = vns_of s.
Proof.
  intros Hst Hc' Hsb Hb Hv H1 H2. split.
  - eapply stores_same; [done..|]. intros k n Hk. split; intros (v & x & Hx & E & En); exists v, x; (split; [|done]); destruct (decide (v = d)) as [->|Hd].
    + specialize (H2 _ Hx). congruence.
    + by rewrite <- Hv.
    + specialize (H1 _ Hx). congruence.
    + by rewrite Hv.
  - apply vns_same. intros v. destruct (decide (v = d)) as [->|Hd]; [right|left; by apply Hv].
    destruct (sv_at s !! d) as [x|] eqn:E1, (sv_at s' !! d) as [x'|] eqn:E2; simpl; rewrite ?file_vnode_root; auto.
Qed.

(** It has [n] references now. *)
Lemma rooted_rep m s s' T r L d n : sfs_rep m s → stores (m_afs m) T r L s' → vns_of s' = vns_of s → sfs_sb s' = sfs_sb s → 0 ≤ n →
  (0 < n → root_at s' d n) → (n = 0 → ¬ is_loaded s' SFS_ROOT_LOCATION) → sfs_rep (set_rooted d n m) s'.
Proof. intros Hm Hst Hv Hsb Hn H1 H2. split; simpl; [by exists T, r, L|rewrite Hsb; apply Hm|rewrite Hv; apply Hm|done|done|done]. Qed.

Section Root.
Context (X : Prop) (m : mfs).

(** The root directory of a file system that has it loaded. *)
Lemma rep_root s : sfs_rep m s → 0 < m_refs m → ∃ T r L xd, stores (m_afs m) T r L s ∧ has_root T r L s (m_root m) xd ∧ vn_refcount xd = m_refs m ∧ vn_opencount xd = 0.
Proof.
  intros Hm Hpos. destruct (rep_represents m s Hm Hpos) as (T & r & L & xd & Hrep & H1 & H2). exists T, r, L, xd. split_and!; [|apply Hrep|done|done].
  by apply represents_stores in Hrep as [? _].
Qed.

Lemma incref_rep s T r L xd : sfs_rep m s → stores (m_afs m) T r L s → has_root T r L s (m_root m) xd → vn_refcount xd = m_refs m → vn_opencount xd = 0 → 0 < m_refs m →
  sfs_rep (set_rooted (m_root m) (m_refs m + 1) m) (set_sv_at <[m_root m := set_refcount (vn_refcount xd + 1) xd]> s).
Proof.
  intros Hm Hst Hr E1 E2 Hpos. set (s' := set_sv_at _ s). assert (sfs_core T L s') as Hc'.
  { apply core_set_refcount; [apply Hst|apply Hr|lia|lia]. }
  destruct (root_changed (m_afs m) T r L s s' (m_root m)) as [Hst' Hv]; try done.
  - intros ino i b Hi Ho. split; [|done]. apply (owns_marked T L s (sc_disk _ _ _ (si_core _ _ _ _ (so_inv _ _ _ _ _ Hst))) ino i b Hi Ho).
  - intros v Hv. by apply lookup_insert_ne.
  - intros x. rewrite (hr_sv _ _ _ _ _ _ Hr). intros [= <-]. apply Hr.
  - intros x. unfold s'. simpl. rewrite lookup_insert_eq. intros [= <-]. apply Hr.
  - eapply rooted_rep; [done..|lia| |lia]. intros _. eexists. split; [apply lookup_insert_eq|]. simpl. split_and!; [apply Hr|lia|done].
Qed.

Lemma sfs_law_incref_root : 0 < m_refs m → runs sfs_rep X (op_incref (m_root m)) m (λ _ m', m' = set_rooted (m_root m) (m_refs m + 1) m) no_error.
Proof.
  intros Hpos s Hm. destruct (rep_root s Hm Hpos) as (T & r & L & xd & Hst & Hr & E1 & E2).
  eapply wp_vnode_incref; [apply Hst|apply Hr|]. split; [done|]. eexists. split; [done|]. by eapply incref_rep.
Qed.

Lemma sfs_law_decref_root : 0 < m_refs m → runs sfs_rep X (op_decref (m_root m)) m (λ _ m', m' = set_rooted (m_root m) (m_refs m - 1) m) no_error.
Proof.
  intros Hpos s Hm. destruct (rep_root s Hm Hpos) as (T & r & L & xd & Hst & Hr & E1 & E2). pose proof (hr_inv _ _ _ _ _ _ Hr) as [Hc Ht].
  pose proof (vo_inode _ _ _ (mc_vnodes _ _ (sc_mem _ _ _ Hc) _ _ (hr_sv _ _ _ _ _ _ Hr))) as Hi. rewrite (hr_ino _ _ _ _ _ _ Hr), (st_root _ _ _ Ht) in Hi. injection Hi as Hi.
  assert (sfi_linkcount (sv_i xd) ≠ 0) as Hl by (rewrite <- Hi; apply Ht). assert (T !! (-1) = None) as Hn.
  { destruct (T !! (-1)) eqn:E; [|done]. pose proof (oo_range _ _ _ _ (dc_objects _ _ _ (sc_disk _ _ _ Hc) _ _ E)). lia. }
  eapply wp_conseq; [apply (vnode_decref_spec X T L s (m_root m) xd (-1) Hc (hr_sv _ _ _ _ _ _ Hr)); [lia|done]| |done]. intros [] s' (Hc' & Hk & Hsv).
  split; [apply Hk|]. eexists. split; [done|]. unfold after_decref, after_reclaim in Hc'. rewrite (proj2 (Z.eqb_neq _ _) Hl) in Hc'.
  assert (sfs_core T L s') as Hc'' by (by destruct (1 <? vn_refcount xd)). clear Hc'. unfold decref_vnode in Hsv.
  destruct (root_changed (m_afs m) T r L s s' (m_root m)) as [Hst' Hv]; try done.
  - apply Hk.
  - intros ino i b Hi' Ho. apply (ok_blocks _ _ _ _ _ Hk ino i b Hi'); [congruence|done].
  - apply Hk.
  - intros x. rewrite (hr_sv _ _ _ _ _ _ Hr). intros [= <-]. apply Hr.
  - intros x. rewrite Hsv. case_match; intros [= <-]. apply Hr.
  - eapply rooted_rep; [done|done|done|apply Hk|lia|..].
    + intros Hpos'. rewrite (proj2 (Z.ltb_lt _ _)) in Hsv by lia. eexists. split; [exact Hsv|]. simpl. split_and!; [apply Hr|lia|done].
    + intros H0 (v & x & Hx & E). rewrite (proj2 (Z.ltb_ge _ _)) in Hsv by lia. assert (v ≠ m_root m) as Hne by congruence. rewrite (ok_vnodes _ _ _ _ _ Hk) in Hx by done.
      destruct Hne. apply (mc_inj _ _ (sc_mem _ _ _ Hc) v (m_root m) x xd Hx (hr_sv _ _ _ _ _ _ Hr)). by rewrite E, (hr_ino _ _ _ _ _ _ Hr).
Qed.

Lemma sfs_law_getroot : runs sfs_rep (m_refs m = 0) fs_getroot m (λ d m', (0 < m_refs m → d = m_root m) ∧ m' = set_rooted d (m_refs m + 1) m) no_error.
Proof.
  intros s Hm. destruct (sr_stores _ _ Hm) as (T & r & L & Hst). pose proof (so_inv _ _ _ _ _ Hst) as Hinv. pose proof (si_core _ _ _ _ Hinv) as Hc. pose proof (sr_refs _ _ Hm) as Hnn.
  assert (m_refs m = 0 ∨ is_loaded s SFS_ROOT_LOCATION) as HX.
  { destruct (decide (m_refs m = 0)) as [?|Hne]; [by left|right]. destruct (sr_root _ _ Hm) as (xd & H1 & H2 & _); [lia|]. by exists (m_root m), xd. }
  eapply wp_conseq; [apply (getroot_got _ T r L s HX Hinv)| |done]. intros d s' [Hc' (x & [G1 G2 G3 G4 G5 G6 G7])]. split; [apply G7|]. eexists.
  assert (0 < m_refs m → d = m_root m ∧ vn_refcount x = m_refs m + 1 ∧ vn_opencount x = 0) as Hin.
  { intros Hpos. destruct (sr_root _ _ Hm Hpos) as (xd & H1 & H2 & H3 & H4). destruct G4 as [(x0 & Hx0 & ->)|(_ & Hnl & _)]; [|destruct Hnl; by exists (m_root m), xd].
    assert (d = m_root m) as -> by (apply (mc_inj _ _ (sc_mem _ _ _ Hc) d (m_root m) x0 xd Hx0 H1); simpl in G2; congruence). simplify_eq. split_and!; [done|simpl; lia|done]. }
  split; [split; [|done]; intros Hpos; by apply Hin|].
  assert (vn_refcount x = m_refs m + 1 ∧ vn_opencount x = 0) as [En Eo].
  { destruct (decide (m_refs m = 0)) as [E|Hne]; [|by apply Hin; lia]. destruct G4 as [(x0 & Hx0 & ->)|(_ & _ & -> & ->)]; [|lia]. simpl in G2. destruct (sr_noroot _ _ Hm E). by exists d, x0. }
  destruct (root_changed (m_afs m) T r L s s' d) as [Hst' Hv]; try done.
  - apply G7.
  - intros ino i b Hi Ho. unfold marked, sect. rewrite G5, G6. split; [|done]. apply (owns_marked T L s (sc_disk _ _ _ Hc) ino i b Hi Ho).
  - apply G7.
  - intros y Hy. destruct G4 as [(x0 & Hx0 & ->)|(? & _)]; [simpl in G2|]; congruence.
  - intros y Hy. congruence.
  - eapply rooted_rep; [done|done|done|apply G7|lia| |lia]. intros _. by exists x.
Qed.

Lemma set_sv_back f s : set_depth (λ d, d - 1) (set_sv_at f (set_depth (λ d, d + 1) s)) = set_sv_at f s.
Proof. destruct s. unfold set_depth, set_sv_at. simpl. f_equal. lia. Qed.

(** Taking the lock and letting it go changes nothing. *)
Lemma wp_locked {A} (prog : SM A) Q E s : 0 ≤ vfs_biglock_depth s →
  wpx X prog (λ a s', s' = set_depth (λ d, d + 1) s ∧ Q a s) (λ e s', s' = set_depth (λ d, d + 1) s ∧ E e s) (set_depth (λ d, d + 1) s) → wpx X (under_biglock prog) Q E s.
Proof.
  intros Hd H. apply wp_under_biglock; [done|]. eapply wp_conseq; [exact H|..]; intros a s' [-> Hq]; (split; [simpl; lia|by rewrite set_depth_back]).
Qed.

Lemma sfs_law_getvolname : runs sfs_rep X fs_getvolname m (λ o m', o = m_vol m ∧ m' = m) no_error.
Proof.
  intros s Hm. destruct (sr_stores _ _ Hm) as (T & r & L & Hst). simpl. unfold sfs_getvolname. wp_step. apply wp_locked; [apply Hst|]. wp_steps. split; [done|].
  wp_steps. split; [done|]. exists m. by rewrite (sr_vol _ _ Hm).
Qed.

Lemma sfs_law_gettype_root : 0 < m_refs m → runs sfs_rep X (op_gettype (m_root m)) m (λ t m', t = S_IFDIR ∧ m' = m) no_error.
Proof.
  intros Hpos s Hm. destruct (rep_root s Hm Hpos) as (T & r & L & xd & Hst & Hr & _). destruct (root_ops _ _ _ _ _ _ Hr) as (_ & _ & Hd & Ht).
  eapply wp_root_op; [exact Hr|]. apply wp_locked; [done|]. wp_steps. eapply wp_read_sv; [apply Hr|]. rewrite Ht. simpl. wp_steps. split; [done|]. split; [done|]. by exists m.
Qed.

Lemma sfs_law_lookparent path buflen : 0 < m_refs m → runs sfs_rep X (op_lookparent (m_root m) path buflen) m
  (λ r m', r = (m_root m, path) ∧ lengthZ path < buflen ∧ m' = set_rooted (m_root m) (m_refs m + 1) m)
  (λ e m', e = ENAMETOOLONG ∧ buflen ≤ lengthZ path ∧ m' = m).
Proof.
  intros Hpos s Hm. destruct (rep_root s Hm Hpos) as (T & r & L & xd & Hst & Hr & E1 & E2). destruct (root_ops _ _ _ _ _ _ Hr) as (_ & _ & Hd & Ht).
  eapply wp_root_op; [exact Hr|]. apply wp_under_biglock; [done|]. wp_steps. eapply wp_read_sv; [apply Hr|]. rewrite Ht. simpl negb. cbv iota.
  destruct (Z.ltb_spec buflen (lengthZ path + 1)).
  - wp_steps. split; [simpl; lia|]. rewrite set_depth_back. split; [done|]. exists m. split; [|done]. split_and!; [done|lia|done].
  - wp_steps. eapply wp_vnode_incref; [simpl; lia|apply Hr|]. wp_steps. split; [simpl; lia|].
    rewrite set_sv_back. split; [done|]. eexists. split; [split_and!; [done|lia|done]|by eapply incref_rep].
Qed.
End Root.

(** ** Files *)

Section Files.
Context (X : Prop) (m : mfs).

(** What a step on files has to show. *)
Lemma files_rep s s' a' T r L vns' : sfs_rep m s → stores a' T r L s' → root_refs s s' → (is_loaded s' SFS_ROOT_LOCATION → is_loaded s SFS_ROOT_LOCATION) →
  sfs_sb s' = sfs_sb s → vns_of s' = vns' → sfs_rep (mkMfs a' (m_vol m) (m_root m) (m_refs m) vns') s'.
Proof.
  intros Hm Hst Hrr Hld Hsb <-. split; simpl; [by exists T, r, L|rewrite Hsb; apply Hm|done|apply Hm| |].
  - intros Hpos. destruct (sr_root _ _ Hm Hpos) as (xd & H1 & H2 & H3 & H4). destruct (Hrr _ _ H1 H2) as (xd' & Hx' & E1 & E2 & E3). exists xd'. split_and!; congruence.
  - intros H0 H. by apply (sr_noroot _ _ Hm H0), Hld.
Qed.

(** The vnode [v] of a file, and its state. *)
Lemma rep_file s v ino oc : sfs_rep m s → m_vns m !! v = Some (ino, oc) →
  ∃ T r L x, stores (m_afs m) T r L s ∧ sv_at s !! v = Some x ∧ sv_ino x = ino ∧ ino ≠ SFS_ROOT_LOCATION ∧ vn_opencount x = oc ∧ a_open (m_afs m) !! ino = Some (vn_refcount x) ∧ vnode_ok T s x.
Proof.
  intros Hm Hv. rewrite (sr_vns _ _ Hm) in Hv. apply vns_some in Hv as (x & Hx & E & Hne & Ho). destruct (sr_stores _ _ Hm) as (T & r & L & Hst). exists T, r, L, x.
  split_and!; try done; [|by apply (mc_vnodes _ _ (sc_mem _ _ _ (si_core _ _ _ _ (so_inv _ _ _ _ _ Hst))) _ _ Hx)].
  apply (so_open _ _ _ _ _ Hst). split; [done|]. by exists v, x.
Qed.

(** A step that leaves the other vnodes alone, and that of the file a file's. *)
Lemma file_step_loaded s s' v x : (∀ w, w ≠ v → sv_at s' !! w = sv_at s !! w) → sv_at s !! v = Some x → sv_ino x ≠ SFS_ROOT_LOCATION →
  (∀ y, sv_at s' !! v = Some y → sv_ino y ≠ SFS_ROOT_LOCATION) → root_refs s s' ∧ (is_loaded s' SFS_ROOT_LOCATION → is_loaded s SFS_ROOT_LOCATION).
Proof.
  intros Ho Hx Hne H. split; [apply (root_refs_but v); [done|congruence]|]. intros (w & y & Hy & E). destruct (decide (w = v)) as [->|Hw]; [by destruct (H y)|].
  exists w, y. by rewrite <- Ho.
Qed.

(** The vnode of a file has changed, but not its references. *)
Lemma touched_rep s s' T r L v x x' n : sfs_rep m s → stores (m_afs m) T r L s → sv_at s !! v = Some x → sv_ino x ≠ SFS_ROOT_LOCATION → sfs_core T L s' → sfs_sb s' = sfs_sb s →
  (∀ ino i b, T !! ino = Some i → owns_block s i b → marked s' b ∧ sect s' b = sect s b) → (∀ w, w ≠ v → sv_at s' !! w = sv_at s !! w) →
  sv_at s' !! v = Some x' → sv_ino x' = sv_ino x → vn_refcount x' = vn_refcount x → vn_opencount x' = n → sfs_rep (m_opened v (sv_ino x) n m) s'.
Proof.
  intros Hm Hst Hx Hne Hc' Hsb Hb Ho Hx' E1 E2 <-. destruct (file_step_loaded s s' v x Ho Hx Hne) as [Hrr Hld]; [congruence|].
  eapply files_rep; [done|eapply stores_same; [done..|]|done|done|done|].
  - intros k n Hk. split; intros (w & y & Hy & E & En); destruct (decide (w = v)) as [->|Hw].
    + exists v, x. split_and!; congruence.
    + exists w, y. by rewrite <- Ho.
    + exists v, x'. split_and!; congruence.
    + exists w, y. by rewrite Ho.
  - rewrite (sr_vns _ _ Hm). apply map_eq. intros w. destruct (decide (w = v)) as [->|Hw].
    + rewrite lookup_insert_eq. apply vns_some. exists x'. by rewrite E1.
    + by rewrite lookup_insert_ne, !vns_lookup, Ho.
Qed.

Lemma core_set_opencount T L s sv x n : sfs_core T L s → sv_at s !! sv = Some x → 0 ≤ n ≤ vn_refcount x → sfs_core T L (set_sv_at <[sv := set_opencount n x]> s).
Proof.
  intros Hc Hx Hn. pose proof Hc as [Hd Hm]. destruct (mc_vnodes _ _ Hm _ _ Hx) as [V1 V2 V3 V4 V5]. destruct (dc_objects _ _ _ Hd _ _ V1) as [O1 O2 O3 O4 O5].
  assert (<[sv_ino x := sv_i (set_opencount n x)]> T = T) as <- by (by rewrite insert_id).
  eapply core_obj_step; [done..|]. apply set_sv_obj; try done; try apply Hd; apply O3.
Qed.

Lemma sfs_law_gettype v ino oc : m_vns m !! v = Some (ino, oc) → runs sfs_rep X (op_gettype v) m (λ t m', t = S_IFREG ∧ m' = m) no_error.
Proof.
  intros Hv s Hm. destruct (rep_file s v ino oc Hm Hv) as (T & r & L & x & Hst & Hx & <- & Hne & _ & _ & _). destruct (file_ops _ _ _ _ _ _ (so_inv _ _ _ _ _ Hst) Hx Hne) as (_ & _ & Hd & Ht).
  eapply wp_file_op; [apply Hst|done|done|]. apply wp_locked; [done|]. wp_steps. eapply wp_read_sv; [done|]. rewrite Ht. simpl. wp_steps. split; [done|]. split; [done|]. by exists m.
Qed.

Lemma sfs_law_open v ino oc flags : m_vns m !! v = Some (ino, oc) → runs sfs_rep X (op_open v flags) m
  (λ _ m', flag flags O_APPEND = false ∧ m' = m) (λ e m', e = EUNIMP ∧ flag flags O_APPEND = true ∧ m' = m).
Proof.
  intros Hv s Hm. destruct (rep_file s v ino oc Hm Hv) as (T & r & L & x & Hst & Hx & <- & Hne & _).
  eapply wp_file_op; [apply Hst|done|done|]. unfold sfs_open. fold (flag flags O_APPEND). destruct (flag flags O_APPEND); wp_steps; (split; [done|]; by exists m).
Qed.

(** It is open [n] times now. *)
Lemma opencount_rep s T r L v x n : sfs_rep m s → stores (m_afs m) T r L s → sv_at s !! v = Some x → sv_ino x ≠ SFS_ROOT_LOCATION → 0 ≤ n ≤ vn_refcount x →
  sfs_rep (m_opened v (sv_ino x) n m) (set_sv_at <[v := set_opencount n x]> s).
Proof.
  intros Hm Hst Hx Hne Hn. pose proof (so_inv _ _ _ _ _ Hst) as [Hc _].
  apply (touched_rep s _ T r L v x (set_opencount n x)); [done|done|done|done|by apply core_set_opencount|done| | |apply lookup_insert_eq|done|done|done].
  - intros k i b Hi Hb. split; [|done]. apply (owns_marked T L s (sc_disk _ _ _ Hc) k i b Hi Hb).
  - intros w Hw. by apply lookup_insert_ne.
Qed.

Lemma sfs_law_incopen v ino oc n : m_vns m !! v = Some (ino, oc) → a_open (m_afs m) !! ino = Some n → oc < n →
  runs sfs_rep X (op_incopen v) m (λ _ m', m' = m_opened v ino (oc + 1) m) no_error.
Proof.
  intros Hv Hn Hlt s Hm. destruct (rep_file s v ino oc Hm Hv) as (T & r & L & x & Hst & Hx & <- & Hne & <- & Ho & V). assert (n = vn_refcount x) as -> by congruence. pose proof (vo_open _ _ _ V).
  pose proof (mc_depth _ _ (sc_mem _ _ _ (si_core _ _ _ _ (so_inv _ _ _ _ _ Hst)))) as Hd. apply wp_under_biglock; [done|]. eapply wp_update_sv; [done|]. split; [simpl; lia|].
  rewrite set_sv_back. split; [done|]. eexists. split; [done|]. apply (opencount_rep s T r L); try done. lia.
Qed.

Lemma sfs_law_decref v ino oc n : m_vns m !! v = Some (ino, oc) → a_open (m_afs m) !! ino = Some n → oc < n →
  runs sfs_rep X (op_decref v) m (λ _ m', m_put ino v m m') no_error.
Proof.
  intros Hv Hn Hlt s Hm. destruct (rep_file s v ino oc Hm Hv) as (T & r & L & x & Hst & Hx & <- & Hne & <- & Ho & V). assert (n = vn_refcount x) as -> by congruence.
  eapply wp_conseq; [apply (decref_file X T r L s v x (so_inv _ _ _ _ _ Hst) Hx Hne Hlt)| |done]. intros [] s' Hd.
  destruct (closed_stores _ _ _ _ _ _ _ _ Hst Hx Hne Hd) as (a' & Hc & Hst'). destruct Hd as [D1 D2 D3 D4]. unfold decref_vnode in D4. split; [apply D3|].
  eexists. split; [exists a'; split; [exact Hc|done]|]. destruct (file_step_loaded s s' v x (kp_vnodes _ _ _ _ _ D3) Hx Hne) as [Hrr Hld]; [rewrite D4; intros y; case_match; by intros [= <-]|].
  eapply files_rep; [done|exact Hst'|done|done|apply D3|]. rewrite Ho. simpl. rewrite (sr_vns _ _ Hm). apply map_eq. intros w.
  destruct (decide (w = v)) as [->|Hw].
  - rewrite vns_lookup, D4. destruct (Z.leb_spec (vn_refcount x) 1), (Z.ltb_spec 1 (vn_refcount x)); try lia; [by rewrite lookup_delete_eq|by rewrite vns_lookup, Hx].
  - rewrite vns_lookup, (kp_vnodes _ _ _ _ _ D3) by done. destruct (vn_refcount x <=? 1); [rewrite lookup_delete_ne by done|]; by rewrite vns_lookup.
Qed.

Lemma sfs_law_empty v ino oc : m_vns m !! v = Some (ino, oc) → runs sfs_rep X (op_truncate v 0) m (λ _ m', m' = set_afs (set_files <[ino := []]>) m) no_error.
Proof.
  intros Hv s Hm. destruct (rep_file s v ino oc Hm Hv) as (T & r & L & x & Hst & Hx & <- & Hne & <- & Ho & V). pose proof (so_inv _ _ _ _ _ Hst) as [[Hd Hmm] _].
  pose proof (oo_file _ _ _ _ (dc_objects _ _ _ Hd _ _ (vo_inode _ _ _ V))) as Hf. eapply wp_file_op; [apply Hst|done|done|].
  eapply wp_conseq; [apply (sfs_truncate_spec X v x s 0 (mc_depth _ _ Hmm) (dc_ok _ _ _ Hd) Hx Hf)| |done]. intros [] s' [x' Ht].
  pose proof (truncated_contents _ _ _ _ _ _ Ht (fo_wf _ _ Hf)) as Hct. pose proof (iw_size _ (fo_wf _ _ Hf)) as Hsz. unfold is_word in Hsz. specialize (Hct ltac:(lia)).
  destruct (inv_file_step T r L s v x x' s' (so_inv _ _ _ _ _ Hst) Hx Hne ltac:(apply Ht)) as (_ & _ & Hk & Hx' & Hsv).
  pose proof (step_stores _ _ _ _ _ _ _ _ _ Hst Hx Hne ltac:(apply Ht)) as Hst'. rewrite Hct, take_0 in Hst'. split; [apply Hk|]. eexists. split; [done|].
  destruct Hsv as (_ & _ & V3 & V4 & _). destruct (file_step_loaded s s' v x (kp_vnodes _ _ _ _ _ Hk) Hx Hne) as [Hrr Hld]; [congruence|].
  eapply files_rep; [done|exact Hst'|done|done|apply Hk|]. rewrite (sr_vns _ _ Hm). apply vns_same. intros w. destruct (decide (w = v)) as [->|Hw].
  - right. rewrite Hx, Hx'. simpl. unfold file_vnode. by rewrite V3, V4.
  - left. by apply (kp_vnodes _ _ _ _ _ Hk).
Qed.

Lemma synced_rep s s' T r L : sfs_rep m s → stores (m_afs m) T r L s → synced T r L s s' → sfs_rep m s'.
Proof.
  intros Hm Hst Hs. pose proof (synced_stores _ _ _ _ _ _ Hst Hs) as Hst'. destruct Hs as [Y1 Y2 Y3 Y4 Y5 Y6].
  assert (∀ v, sv_at s' !! v = set_dirty false <$> sv_at s !! v) as Hv.
  { intros v. destruct (sv_at s !! v) as [x|] eqn:Hx; [by apply Y4|]. destruct (sv_at s' !! v) as [y|] eqn:Hy; [|done].
    assert (v ∈ sfs_vnodes s) as Hin by (rewrite <- Y6; apply (mc_dom _ _ (sc_mem _ _ _ (si_core _ _ _ _ Y1))); by eexists).
    apply (mc_dom _ _ (sc_mem _ _ _ (si_core _ _ _ _ (so_inv _ _ _ _ _ Hst)))) in Hin as [? ?]. congruence. }
  assert (vns_of s' = m_vns m) as Hvns.
  { rewrite (sr_vns _ _ Hm). apply vns_same. intros v. right. rewrite Hv. by destruct (sv_at s !! v). }
  assert (is_loaded s' SFS_ROOT_LOCATION → is_loaded s SFS_ROOT_LOCATION) as Hld.
  { intros (v & y & Hy & E). rewrite Hv in Hy. apply fmap_Some in Hy as (x & Hx & ->). by exists v, x. }
  pose proof (files_rep s s' (m_afs m) T r L (m_vns m) Hm Hst' (kp_root _ _ _ _ _ Y3) Hld (kp_sb _ _ _ _ _ Y3) Hvns) as H. by destruct m.
Qed.

Lemma sfs_law_sync : runs sfs_rep X fs_sync m (λ _ m', m' = m) no_error.
Proof.
  intros s Hm. destruct (sr_stores _ _ Hm) as (T & r & L & Hst). eapply wp_conseq; [apply (sfs_sync_spec X T r L s), Hst| |done]. intros [] s' Hs.
  split; [apply Hs|]. exists m. split; [done|]. by eapply synced_rep.
Qed.

Lemma sfs_law_unmount : runs sfs_rep X (fs_sync ;; fs_unmount) m
  (λ _ m', m_refs m = 0 ∧ m_vns m = ∅) (λ e m', e = EBUSY ∧ (0 < m_refs m ∨ m_vns m ≠ ∅) ∧ m' = m).
Proof.
  intros s Hm. destruct (sr_stores _ _ Hm) as (T & r & L & Hst). wp_step. eapply wp_conseq; [apply (sfs_sync_spec X T r L s), Hst| |done]. intros [] s' Hs.
  pose proof (synced_rep _ _ _ _ _ Hm Hst Hs) as Hm'. destruct Hs as [Y1 [N1 N2 _] Y3 _ _ _]. pose proof (mc_dom _ _ (sc_mem _ _ _ (si_core _ _ _ _ Y1))) as Hdom.
  pose proof (sr_refs _ _ Hm) as Hnn. apply wp_locked; [apply Y1|]. do 2 wp_step.
  change (sfs_vnodes (set_depth (λ d, d + 1) s')) with (sfs_vnodes s'). destruct (Z.ltb_spec 0 (lengthZ (sfs_vnodes s'))) as [Hl|Hl].
  - wp_steps. split; [done|]. split; [apply Y3|]. exists m. split; [|done]. split_and!; [done| |done].
    destruct (sfs_vnodes s') as [|v l] eqn:El; [done|]. assert (v ∈ v :: l) as Hin by (by left). apply Hdom in Hin as [x Hx].
    destruct (decide (sv_ino x = SFS_ROOT_LOCATION)) as [E|E].
    + left. destruct (decide (m_refs m = 0)) as [H0|]; [|lia]. destruct (sr_noroot _ _ Hm' H0). by exists v, x.
    + right. rewrite (sr_vns _ _ Hm'). intros He. assert (vns_of s' !! v = Some (sv_ino x, vn_opencount x)) as Hx2 by (apply vns_some; by exists x). rewrite He in Hx2. done.
  - wp_steps. apply wp_kassert; [simpl; by rewrite N1|]. apply wp_kassert; [simpl; by rewrite N2|]. split; [done|]. split; [apply Y3|]. exists m. split; [|done].
    assert (∀ v, sv_at s' !! v = None) as Hnone.
    { intros v. destruct (sv_at s' !! v) as [x|] eqn:Hx; [|done]. assert (v ∈ sfs_vnodes s') as Hin by (apply Hdom; by eexists). destruct (sfs_vnodes s'); [by apply not_elem_of_nil in Hin|].
      unfold lengthZ in Hl. simpl in Hl. lia. }
    split; [|rewrite (sr_vns _ _ Hm'); apply map_eq; intros v; by rewrite vns_lookup, Hnone].
    destruct (decide (m_refs m = 0)) as [|Hne]; [done|]. destruct (sr_root _ _ Hm') as (xd & Hxd & _); [lia|]. by rewrite Hnone in Hxd.
Qed.
End Files.

(** Writing the vnode of a file back. *)
Lemma closed_rep X m s v ino oc : sfs_rep m s → m_vns m !! v = Some (ino, oc) →
  wpx X (sfs_close v) (λ _ s', vfs_biglock_depth s' = vfs_biglock_depth s ∧ sfs_rep m s') (λ _ _, False) s.
Proof.
  intros Hm Hv. destruct (rep_file m s v ino oc Hm Hv) as (T & r & L & x & Hst & Hx & <- & Hne & <- & _ & _).
  eapply wp_conseq; [apply (sync_vnode X T L s v x); [apply Hst|done]| |done]. intros [] s' [C1 C2 _ C4]. split; [apply C2|].
  assert (m_opened v (sv_ino x) (vn_opencount x) m = m) as <- by (unfold m_opened, set_vns; rewrite insert_id by done; by destruct m).
  apply (touched_rep m s s' T r L v x (set_dirty false x)); try done.
  - apply C2.
  - intros k i b Hi Hb. by apply (kp_blocks _ _ _ _ _ C2 k i b Hi); [intros []|].
  - intros w Hw. apply (kp_vnodes _ _ _ _ _ C2). by intros ->%list_elem_of_singleton.
  - apply C4; [by left|done].
Qed.

Lemma rep_depth m s f : sfs_rep m s → 0 ≤ f (vfs_biglock_depth s) → sfs_rep m (set_depth f s).
Proof.
  intros [(T & r & L & [S1 S2 S3 S4]) S5 S6 S7 S8 S9] Hd. split; [|done..]. exists T, r, L. split; [by apply inv_depth| |done|done].
  intros n k. rewrite S2. by setoid_rewrite (entry_device s (set_depth f s)).
Qed.

Lemma sfs_law_decopen X m v ino oc : m_vns m !! v = Some (ino, oc) → 0 < oc →
  runs sfs_rep X (op_decopen v) m (λ _ m', m' = m_opened v ino (oc - 1) m) no_error.
Proof.
  intros Hv Hoc s Hm. pose proof Hm as [(T0 & r0 & L0 & Hst0) _ _ _ _ _]. pose proof (mc_depth _ _ (sc_mem _ _ _ (si_core _ _ _ _ (so_inv _ _ _ _ _ Hst0)))) as Hd.
  apply wp_under_biglock; [done|]. set (s0 := set_depth (λ d, d + 1) s). assert (sfs_rep m s0) as Hm0 by (apply rep_depth; [done|lia]).
  destruct (rep_file m s0 v ino oc Hm0 Hv) as (T & r & L & x & Hst & Hx & <- & Hne & <- & _ & V). pose proof (vo_open _ _ _ V) as Ho.
  wp_step. eapply wp_read_sv; [done|]. wp_step. apply wp_kassert; [lia|]. wp_step. eapply wp_update_sv; [done|].
  assert (sfs_rep (m_opened v (sv_ino x) (vn_opencount x - 1) m) (set_sv_at <[v := set_opencount (vn_opencount x - 1) x]> s0)) as Hm1 by (apply (opencount_rep m s0 T r L); try done; lia).
  assert (∀ s2, vfs_biglock_depth s2 = vfs_biglock_depth s + 1 → sfs_rep (m_opened v (sv_ino x) (vn_opencount x - 1) m) s2 → 0 < vfs_biglock_depth s2 ∧
    vfs_biglock_depth (set_depth (λ d, d - 1) s2) = vfs_biglock_depth s ∧ ∃ m', m' = m_opened v (sv_ino x) (vn_opencount x - 1) m ∧ sfs_rep m' (set_depth (λ d, d - 1) s2)) as Hend.
  { intros s2 E Hs2. split_and!; [lia|simpl; lia|]. eexists. split; [done|]. apply rep_depth; [done|lia]. }
  destruct (0 <? vn_opencount x - 1); [wp_steps; by apply Hend|]. do 2 wp_step.
  eapply wp_conseq; [apply (closed_rep X _ _ v (sv_ino x) (vn_opencount x - 1) Hm1); simpl; apply lookup_insert_eq| |done].
  intros [] s2 [E2 Hm2]. wp_step. by apply Hend.
Qed.

(** ** The interface *)

#[export] Instance sfs_laws : FsLaws sfs.
Proof.
  refine {| fs_rep := sfs_rep; fs_namemax := SFS_NAMELEN |}.
  - intros m x Hm. apply Hm.
  - intros m x n Hm Hn. split; [by apply rep_depth|done].
  - intros []. done.
  - intros m x. apply sfs_vns_ok.
  - intros. apply sfs_law_getvolname.
  - intros. apply sfs_law_getroot.
  - intros. apply sfs_law_sync.
  - intros. apply sfs_law_unmount.
  - intros. by apply sfs_law_incref_root.
  - intros. by apply sfs_law_decref_root.
  - intros. by apply sfs_law_gettype_root.
  - intros. by apply sfs_law_lookparent.
  - intros. by apply sfs_law_lookup.
  - intros. by apply sfs_law_creat.
  - intros. by eapply sfs_law_link.
  - intros. by apply sfs_law_remove.
  - intros. by apply sfs_law_rename.
  - intros. by eapply sfs_law_gettype.
  - intros. by eapply sfs_law_open.
  - intros. by eapply sfs_law_incopen.
  - intros. by eapply sfs_law_decopen.
  - intros. by eapply sfs_law_decref.
  - intros. by eapply sfs_law_empty.
Defined.
