(* ===== verification/VfsProps.v ===== *)
(** * The virtual file system: properties

    The properties of the VFS layer, with SFS as the file system that is mounted, and
    the instances that show their hypotheses can hold: a disk lhd0: with the volume
    of SfsDemo.v mounted on it, as the current directory. *)

From S2P Require Import Prelude UserCopy Uio Disk Vfs Afs VfsSpec VfsTable VfsMount VfsOps VfsPath SfsTypes Sfs SfsNode SfsMount SfsInv SfsTree SfsAbs SfsDemo VfsSfs VfsSfsLaws.
#[local] Open Scope kern_scope.

(** ** An example *)

(** A driver that does nothing. *)
#[local] Instance no_driver : Driver unit := {|
  d_open _ _ := ret tt; d_close _ := ret tt; d_io _ := ret tt; d_ioctl _ _ := fail EINVAL
|}.

Definition lhd0 : str := [108; 104; 100; 48].
Definition demo_kd : knowndev := mkKd lhd0 (Some (mkrawname lhd0)) (Some 1) 2 (Some 7).
Definition demo_mfs : mfs := mkMfs demo_afs (Some [116; 111; 121]) 100 1 {[101 := (4, 0)]}.
Definition demo_ms : gmap Z mfs := {[7 := demo_mfs]}.
Definition demo_vfs : vfs sfs unit :=
  mkVfs [demo_kd] 0 None (Some (FsVn 7 100)) {[7 := demo]} {[2 := mkDn 1 0 (Some 1)]} {[1 := mkDevice 12 512 1 (Some 0)]} tt 3 4 [].

Lemma demo_rep : sfs_rep demo_mfs demo.
Proof.
  pose proof demo_represents as Hrep. apply represents_stores in Hrep as [Hst _]. split; simpl; [by eexists _, _, _|by vm_compute| |done| |done].
  - apply map_eq. intros v. rewrite vns_lookup. destruct (decide (v = 101)) as [->|H1]; [done|]. rewrite lookup_singleton_ne by done.
    destruct (decide (v = 100)) as [->|H2]; [done|]. unfold demo. simpl. by rewrite !lookup_insert_ne, lookup_empty by done.
  - intros _. exists demo_dirv. by split_and!.
Qed.

Lemma demo_vrep : vrep demo_ms demo_vfs.
Proof.
  split; [done|]. intros f. simpl. unfold demo_ms. destruct (decide (f = 7)) as [->|Hf]; [rewrite !lookup_singleton_eq; apply demo_rep|by rewrite !lookup_singleton_ne].
Qed.

Lemma demo_at f m : demo_ms !! f = Some m → f = 7 ∧ m = demo_mfs.
Proof. unfold demo_ms. by intros [<- <-]%lookup_singleton_Some. Qed.

Lemma demo_vinv : vinv demo_ms (erase demo_vfs).
Proof.
  split; [done|split|split]; simpl.
  - intros i kd [-> <-]%list_lookup_singleton_Some. split; simpl; [by eexists| | |].
    + intros d [= <-]. eexists. by rewrite lookup_singleton_eq.
    + eexists. by rewrite lookup_singleton_eq.
    + intros f [= <-]. unfold demo_ms. by rewrite lookup_singleton_eq.
  - apply (bool_decide_unpack _). by vm_compute.
  - by intros i j k1 k2 f [-> <-]%list_lookup_singleton_Some [-> <-]%list_lookup_singleton_Some.
  - intros p Hp. apply lookup_singleton_ne. lia.
  - intros v [= <-]. exists 7, demo_mfs. split; [done|]. unfold demo_ms. by rewrite lookup_singleton_eq.
  - done.
  - intros f m [-> ->]%demo_at. by vm_compute.
Qed.

Lemma demo_loaded : ¬ unloaded_root demo_ms.
Proof. intros (f & m & [-> ->]%demo_at & H). done. Qed.

(** ** Operations on paths *)


Definition demo_path : str := lhd0 ++ [COLON] ++ hi.


(** ** The table of devices *)

Inductive table_op {D} :=
  | TAddDev (name : str) (dev : Z) (mountable : bool)
  | TAddFs (name : str) (f : Z)
  | TMount (name : str) (mountfunc : Z → M (vfs sfs D) Z)
  | TUnmount (name : str)
  | TUnmountAll
  | TSync
  | TClearBootfs
  | TClearCurdir.
Arguments table_op : clear implicits.

Section TableOps.
Context {D : Type} `{!Driver D}.
Implicit Types s w : vfs sfs D.

Definition run_table (op : table_op D) : M (vfs sfs D) unit :=
  match op with
  | TAddDev name dev mountable => vfs_adddev name dev mountable
  | TAddFs name f => vfs_addfs name f
  | TMount name mountfunc => vfs_mount name mountfunc
  | TUnmount name => vfs_unmount name
  | TUnmountAll => vfs_unmountall
  | TSync => vfs_sync
  | TClearBootfs => vfs_clearbootfs
  | TClearCurdir => vfs_clearcurdir
  end.

(** A device or file system that is added is new; the function that mounts makes a
    new struct fs, or fails. *)
Definition table_ready ms w (op : table_op D) : Prop :=
  match op with
  | TAddDev name dev mountable => addable ms w mountable (Some dev) None
  | TAddFs name f => addable ms w false None (Some f)
  | TMount name mountfunc => mounts mountfunc
  | _ => True
  end.

Lemma run_table_spec X ms w op : vinv ms w → table_ready ms w op →
  vspec X (run_table op) ms w (λ _ ms' w', vinv ms' w') (λ _ ms' w', vinv ms' w').
Proof.
  intros Hv Hr. destruct op; simpl in *.
  - by apply doadd_vinv.
  - by apply doadd_vinv.
  - eapply vs_conseq; [by apply vfs_mount_spec|by intros [] ms' w' [? _]|by intros e ms' w' [? _]].
  - eapply vs_conseq; [by apply vfs_unmount_spec|by intros [] ms' w' [? _]|by intros e ms' w' (-> & -> & _)].
  - eapply vs_conseq; [by apply vfs_unmountall_spec|by intros [] ms' w' [? _]|done].
  - eapply vs_conseq; [by apply vfs_sync_spec|by intros [] ms' w' [-> ->]|done].
  - eapply vs_conseq; [by apply vfs_clearbootfs_spec|by intros [] ms' w' (-> & ? & _)|done].
  - eapply vs_conseq; [by apply vfs_clearcurdir_spec|by intros [] ms' w' (-> & ? & _)|done].
Qed.
End TableOps.


(** A second disk is added. *)
Definition demo_more : vfs sfs unit := set_devices <[8 := mkDevice 24 512 0 (Some 1)]> demo_vfs.

Lemma demo_more_vinv : vinv demo_ms (erase demo_more).
Proof.
  destruct demo_vinv as [V1 [T1 T2 T3 T4] V3]. split; [done|split; try done|by eapply dirs_same]. intros i kd Hi. destruct (T1 i kd Hi) as [W1 W2 W3 W4]. split; try done.
  intros d Hd. destruct (W2 d Hd) as (x & Hx & E). exists x. split; [|done]. simpl in *. rewrite lookup_insert_ne; [done|].
  intros <-. by vm_compute in Hx.
Qed.


(** ** Names of devices *)

(** C17. vfs_getroot hands out what a device name stands for: the first device in the
    table that answers to it decides.  A device with a file system mounted on it
    answers to its name and to the volume's label with the root directory, which gets
    one more reference, and to its raw name with the device itself; a device that can
    be mounted on but is not gives ENXIO; a name that nothing answers to is ENODEV. *)
Theorem vfs_getroot_resolves {D} `{!Driver D} (s : vfs sfs D) ms devname : vrep ms s → 0 < biglock_depth s → table_wf ms (erase s) →
  wpx (unloaded_root ms) (vfs_getroot devname)
    (λ v s', match table_find (vol_of ms) (knowndevs s) devname with
             | Some (DeviceOf p) => v = DevVn p ∧ vrep ms s' ∧ erase s' = ref_dev 1 p (erase s)
             | Some (RootOf f) => ∃ m d, ms !! f = Some m ∧ v = FsVn f d ∧ (0 < m_refs m → d = m_root m) ∧
                 vrep (<[f := set_rooted d (m_refs m + 1) m]> ms) s' ∧ erase s' = erase s
             | _ => False
             end)
    (λ e s', vrep ms s' ∧ erase s' = erase s ∧
             match table_find (vol_of ms) (knowndevs s) devname with None => e = ENODEV | Some NotMounted => e = ENXIO | _ => False end) s.
Proof.
  intros Hs Hl Ht. set (t := table_find (vol_of ms) (knowndevs s) devname).
  pose proof (vfs_getroot_spec (unloaded_root ms) ms (erase s) devname
    (λ v ms' w', match t with
                 | Some (DeviceOf p) => v = DevVn p ∧ ms' = ms ∧ w' = ref_dev 1 p (erase s)
                 | Some (RootOf f) => ∃ m d, ms !! f = Some m ∧ v = FsVn f d ∧ (0 < m_refs m → d = m_root m) ∧ ms' = <[f := set_rooted d (m_refs m + 1) m]> ms ∧ w' = erase s
                 | _ => False
                 end)
    (λ e ms' w', ms' = ms ∧ w' = erase s ∧ match t with None => e = ENODEV | Some NotMounted => e = ENXIO | _ => False end)) as H.
  eapply wp_conseq; [apply H; [done|done| |done|done]|..].
  - change (knowndevs (erase s)) with (knowndevs s). fold t. destruct t as [[p|f|]|] eqn:Et; simpl; try by split_and!.
    destruct (table_find_mounted _ ms (erase s) _ 0 _ _ (tw_each _ _ Ht) Et) as [m Hm]. exists m. split_and!; [done|by exists f, m|]. intros d Hd. exists m, d. by split_and!.
  - intros v s' (ms' & Hv & Hs'). destruct t as [[p|f|]|]; try done.
    + destruct Hv as (-> & -> & E). by split_and!.
    + destruct Hv as (m & d & Hm & -> & Hd & -> & E). exists m, d. by split_and!.
  - intros e s' (ms' & (-> & E & He) & Hs'). by split_and!.
Qed.

Lemma vfs_getroot_resolves_witness :
  wpx (unloaded_root demo_ms) (vfs_getroot [116; 111; 121])
    (λ v s', ∃ m d, demo_ms !! 7 = Some m ∧ v = FsVn 7 d ∧ (0 < m_refs m → d = m_root m) ∧
       vrep (<[7 := set_rooted d (m_refs m + 1) m]> demo_ms) s' ∧ erase s' = erase (set_biglock 1 demo_vfs))
    (λ e s', vrep demo_ms s' ∧ erase s' = erase (set_biglock 1 demo_vfs) ∧ False) (set_biglock 1 demo_vfs).
Proof.
  apply (vfs_getroot_resolves (set_biglock 1 demo_vfs) demo_ms [116; 111; 121]); [|done|apply (vi_table demo_ms), (vinv_biglock _ (erase demo_vfs) 1); [exact demo_vinv|lia]].
  destruct demo_vrep as [_ H]. by split.
Defined.

(** C18. vfs_unmount: a device that is not there is ENODEV and one with nothing mounted on
    it EINVAL; a file system is unmounted if and only if none of its vnodes is in use,
    the root directory's included, and else the call fails with EBUSY.  A failure
    changes nothing, success takes away that file system only. *)
Theorem vfs_unmount_idle {D} `{!Driver D} (s : vfs sfs D) ms devname : vrep ms s → vinv ms (erase s) →
  wp (vfs_unmount devname)
    (λ _ s', ∃ i kd f m, mountable_at (erase s) devname i kd ∧ kd_fs kd = Some f ∧ ms !! f = Some m ∧ m_refs m = 0 ∧ m_vns m = ∅ ∧ vrep (delete f ms) s' ∧
       erase s' = set_knowndevs (<[i := with_fs kd None]> (knowndevs s)) (erase s) ∧ vinv (delete f ms) (erase s'))
    (λ e s', vrep ms s' ∧ erase s' = erase s ∧
       ((e = ENODEV ∧ ∀ i kd, ¬ mountable_at (erase s) devname i kd) ∨
        (∃ i kd, mountable_at (erase s) devname i kd ∧
           ((e = EINVAL ∧ kd_fs kd = None) ∨ (e = EBUSY ∧ ∃ f m, kd_fs kd = Some f ∧ ms !! f = Some m ∧ (0 < m_refs m ∨ m_vns m ≠ ∅)))))) s.
Proof.
  intros Hs Hv. eapply wp_conseq; [by apply (vfs_unmount_spec False ms (erase s) devname Hv s)|..].
  - intros [] s' (ms' & (Hv' & i & kd & f & m & H1 & H2 & H3 & Hb & -> & E) & Hs'). exists i, kd, f, m.
    pose proof (di_refs _ _ (vi_dirs _ _ Hv) f m H3). pose proof (held_nonneg (erase s) f). unfold busy in Hb.
    split_and!; try done; [lia|]. destruct (decide (m_vns m = ∅)); [done|]. destruct Hb. by right.
  - intros e s' (ms' & (-> & E & He) & Hs'). by split_and!.
Qed.

Lemma vfs_unmount_idle_witness :
  wp (vfs_unmount lhd0)
    (λ _ s', ∃ i kd f m, mountable_at (erase demo_vfs) lhd0 i kd ∧ kd_fs kd = Some f ∧ demo_ms !! f = Some m ∧ m_refs m = 0 ∧ m_vns m = ∅ ∧ vrep (delete f demo_ms) s' ∧
       erase s' = set_knowndevs (<[i := with_fs kd None]> (knowndevs demo_vfs)) (erase demo_vfs) ∧ vinv (delete f demo_ms) (erase s'))
    (λ e s', vrep demo_ms s' ∧ erase s' = erase demo_vfs ∧
       ((e = ENODEV ∧ ∀ i kd, ¬ mountable_at (erase demo_vfs) lhd0 i kd) ∨
        (∃ i kd, mountable_at (erase demo_vfs) lhd0 i kd ∧
           ((e = EINVAL ∧ kd_fs kd = None) ∨ (e = EBUSY ∧ ∃ f m, kd_fs kd = Some f ∧ demo_ms !! f = Some m ∧ (0 < m_refs m ∨ m_vns m ≠ ∅)))))) demo_vfs.
Proof. apply (vfs_unmount_idle demo_vfs demo_ms lhd0); [exact demo_vrep|exact demo_vinv]. Defined.

(** vfs_setbootfs refuses every name with a colon in it, also one whose colon is at
    its end, which it means to accept: the test strlen(s)>0 counts the colon itself.
    Nothing is changed. *)
Theorem vfs_setbootfs_colon {F D} `{!FileSystem F, !Driver D} (s : vfs F D) dev : 0 ≤ biglock_depth s → lengthZ dev < NAME_MAX - 1 →
  vfs_setbootfs (dev ++ [COLON]) s = Err EINVAL s.
Proof.
  intros Hd Hl. unfold lengthZ in Hl. unfold vfs_setbootfs, with_biglock, finally, biglock_release, biglock_do_i_hold. rewrite take_ge by (rewrite length_app; simpl; lia).
  rewrite bool_decide_true by (apply elem_of_app; right; by left). unfold biglock_acquire, attempt, modify, gets, kassert, bind, fail, ret. simpl.
  rewrite (proj2 (Z.ltb_lt _ _)) by lia. f_equal. destruct s. unfold set_biglock. simpl. f_equal. lia.
Qed.

Lemma vfs_setbootfs_colon_witness : vfs_setbootfs (lhd0 ++ [COLON]) demo_vfs = Err EINVAL demo_vfs.
Proof. apply (vfs_setbootfs_colon demo_vfs lhd0); [simpl; lia|by vm_compute]. Defined.
