(* ===== verification/Sched.v ===== *)
(** * Threads and the scheduler

    Models kern/thread/thread.c, spinlock.c, spl.c and clock.c on a machine with any
    number of processors: threads, run queues, wait channels, the context switch,
    migration and inter-processor interrupts.

    Every routine is given the processor [me] that executes it (curcpu); the current
    thread is the one that processor runs.  The part of thread_switch after the
    context switch is executed by the thread that is switched to: [switch_return], or
    the beginning of thread_startup if the thread is new.  A processor that finds
    nothing to run leaves thread_switch in the middle, idle, and goes on in [unidle]
    when cpu_idle returns.

    A thread list (threadlist.c, modelled in ThreadList.v) is the list of its threads.
    A spinlock that another processor holds would be waited for: acquiring it has no
    result within the call, which is the outcome [Undef]. *)

From Stdlib Require Import String.
From S2P Require Import Prelude.
#[local] Open Scope kern_scope.

(** ** Constants *)

Definition IPL_NONE : Z := 0.
Definition IPL_HIGH : Z := 1.
Definition THREAD_STACK_MAGIC : Z := 0xbaadf00d.
Definition IPI_PANIC : Z := 0.
Definition IPI_OFFLINE : Z := 1.
Definition IPI_UNIDLE : Z := 2.
Definition IPI_TLBSHOOTDOWN : Z := 3.
Definition TLBSHOOTDOWN_MAX : Z := 16.
Definition TLBSHOOTDOWN_ALL : Z := -1.
Definition SCHEDULE_HARDCLOCKS : Z := 4.
Definition MIGRATE_HARDCLOCKS : Z := 16.

(** ** State *)

Inductive threadstate_t := S_RUN | S_READY | S_SLEEP | S_ZOMBIE.
#[export] Instance threadstate_eq_dec : EqDecision threadstate_t.
Proof. solve_decision. Defined.

(** Where a thread that is switched to goes on: in thread_startup, or behind
    switchframe_switch, with the local variable [spl] of thread_switch. *)
Inductive context := NoContext | AtStartup | InSwitch (spl : Z).

(** The stack is known by the four words of its guard band and by [t_frames], the local
    variables [old_in] and [doadjust] of mips_trap for every interrupt the thread is in. *)
Record thread := mkThread {
  t_wchan_name : option string;
  t_state : threadstate_t;
  t_stack : option (list Z);
  t_context : context;
  t_cpu : option nat;
  t_proc : option Z;
  t_in_interrupt : bool;
  t_curspl : Z;
  t_iplhigh_count : Z;
  t_frames : list (bool * bool)
}.

(** [c_irq]: interrupts are enabled in the status register.  [c_ipi]: the LAMEbus
    controller asserts the inter-processor interrupt line.  [c_halted]: in cpu_halt.
    [c_waiting]: executing the WAIT instruction of cpu_idle. *)
Record cpu := mkCpu {
  c_hardware_number : Z;
  c_curthread : Z;
  c_zombies : list Z;
  c_hardclocks : Z;
  c_isidle : bool;
  c_runqueue : list Z;
  c_runqueue_lock : option nat;
  c_ipi_pending : Z;
  c_shootdown : list Z;
  c_numshootdown : Z;
  c_ipi_lock : option nat;
  c_irq : bool;
  c_ipi : bool;
  c_halted : bool;
  c_waiting : bool
}.

Record wchan := mkWchan { wc_name : string; wc_threads : list Z; wc_lock : option nat }.

(** [spins]: the spinlocks of the rest of the kernel, with the processor that holds
    each.  [s_mem]: the answers of kmalloc.  [s_kproc]: the kernel's process. *)
Record sched := mkSched {
  cpus : list cpu;
  threads : gmap Z thread;
  wchans : gmap Z wchan;
  spins : gmap Z (option nat);
  s_kproc : Z;
  s_next : Z;
  s_mem : list bool
}.

#[local] Abbreviation SM := (M sched).

Definition set_cpus v (s : sched) : sched := mkSched v (threads s) (wchans s) (spins s) (s_kproc s) (s_next s) (s_mem s).
Definition set_threads v (s : sched) : sched := mkSched (cpus s) v (wchans s) (spins s) (s_kproc s) (s_next s) (s_mem s).
Definition set_wchans v (s : sched) : sched := mkSched (cpus s) (threads s) v (spins s) (s_kproc s) (s_next s) (s_mem s).
Definition set_spins v (s : sched) : sched := mkSched (cpus s) (threads s) (wchans s) v (s_kproc s) (s_next s) (s_mem s).
Definition set_next v (s : sched) : sched := mkSched (cpus s) (threads s) (wchans s) (spins s) (s_kproc s) v (s_mem s).
Definition set_mem v (s : sched) : sched := mkSched (cpus s) (threads s) (wchans s) (spins s) (s_kproc s) (s_next s) v.
Definition upd_cpu (i : nat) (f : cpu → cpu) (s : sched) : sched := set_cpus (alter f i (cpus s)) s.
Definition upd_thread (t : Z) (f : thread → thread) (s : sched) : sched := set_threads (alter f t (threads s)) s.
Definition upd_wchan (w : Z) (f : wchan → wchan) (s : sched) : sched := set_wchans (alter f w (wchans s)) s.

(** Fields of a thread. *)
Definition set_wchan_name v (x : thread) := mkThread v (t_state x) (t_stack x) (t_context x) (t_cpu x) (t_proc x) (t_in_interrupt x) (t_curspl x) (t_iplhigh_count x) (t_frames x).
Definition set_state v (x : thread) := mkThread (t_wchan_name x) v (t_stack x) (t_context x) (t_cpu x) (t_proc x) (t_in_interrupt x) (t_curspl x) (t_iplhigh_count x) (t_frames x).
Definition set_stack v (x : thread) := mkThread (t_wchan_name x) (t_state x) v (t_context x) (t_cpu x) (t_proc x) (t_in_interrupt x) (t_curspl x) (t_iplhigh_count x) (t_frames x).
Definition set_context v (x : thread) := mkThread (t_wchan_name x) (t_state x) (t_stack x) v (t_cpu x) (t_proc x) (t_in_interrupt x) (t_curspl x) (t_iplhigh_count x) (t_frames x).
Definition set_t_cpu v (x : thread) := mkThread (t_wchan_name x) (t_state x) (t_stack x) (t_context x) v (t_proc x) (t_in_interrupt x) (t_curspl x) (t_iplhigh_count x) (t_frames x).
Definition set_proc v (x : thread) := mkThread (t_wchan_name x) (t_state x) (t_stack x) (t_context x) (t_cpu x) v (t_in_interrupt x) (t_curspl x) (t_iplhigh_count x) (t_frames x).
Definition set_in_interrupt v (x : thread) := mkThread (t_wchan_name x) (t_state x) (t_stack x) (t_context x) (t_cpu x) (t_proc x) v (t_curspl x) (t_iplhigh_count x) (t_frames x).
Definition set_curspl v (x : thread) := mkThread (t_wchan_name x) (t_state x) (t_stack x) (t_context x) (t_cpu x) (t_proc x) (t_in_interrupt x) v (t_iplhigh_count x) (t_frames x).
Definition set_frames v (x : thread) := mkThread (t_wchan_name x) (t_state x) (t_stack x) (t_context x) (t_cpu x) (t_proc x) (t_in_interrupt x) (t_curspl x) (t_iplhigh_count x) v.
Definition add_iplhigh k (x : thread) := mkThread (t_wchan_name x) (t_state x) (t_stack x) (t_context x) (t_cpu x) (t_proc x) (t_in_interrupt x) (t_curspl x) (t_iplhigh_count x + k) (t_frames x).

(** Fields of a processor. *)
Definition set_curthread v (c : cpu) := mkCpu (c_hardware_number c) v (c_zombies c) (c_hardclocks c) (c_isidle c) (c_runqueue c) (c_runqueue_lock c)
  (c_ipi_pending c) (c_shootdown c) (c_numshootdown c) (c_ipi_lock c) (c_irq c) (c_ipi c) (c_halted c) (c_waiting c).
Definition set_zombies v (c : cpu) := mkCpu (c_hardware_number c) (c_curthread c) v (c_hardclocks c) (c_isidle c) (c_runqueue c) (c_runqueue_lock c)
  (c_ipi_pending c) (c_shootdown c) (c_numshootdown c) (c_ipi_lock c) (c_irq c) (c_ipi c) (c_halted c) (c_waiting c).
Definition set_hardclocks v (c : cpu) := mkCpu (c_hardware_number c) (c_curthread c) (c_zombies c) v (c_isidle c) (c_runqueue c) (c_runqueue_lock c)
  (c_ipi_pending c) (c_shootdown c) (c_numshootdown c) (c_ipi_lock c) (c_irq c) (c_ipi c) (c_halted c) (c_waiting c).
Definition set_isidle v (c : cpu) := mkCpu (c_hardware_number c) (c_curthread c) (c_zombies c) (c_hardclocks c) v (c_runqueue c) (c_runqueue_lock c)
  (c_ipi_pending c) (c_shootdown c) (c_numshootdown c) (c_ipi_lock c) (c_irq c) (c_ipi c) (c_halted c) (c_waiting c).
Definition set_runqueue v (c : cpu) := mkCpu (c_hardware_number c) (c_curthread c) (c_zombies c) (c_hardclocks c) (c_isidle c) v (c_runqueue_lock c)
  (c_ipi_pending c) (c_shootdown c) (c_numshootdown c) (c_ipi_lock c) (c_irq c) (c_ipi c) (c_halted c) (c_waiting c).
Definition set_runqueue_lock v (c : cpu) := mkCpu (c_hardware_number c) (c_curthread c) (c_zombies c) (c_hardclocks c) (c_isidle c) (c_runqueue c) v
  (c_ipi_pending c) (c_shootdown c) (c_numshootdown c) (c_ipi_lock c) (c_irq c) (c_ipi c) (c_halted c) (c_waiting c).
Definition set_ipi_pending v (c : cpu) := mkCpu (c_hardware_number c) (c_curthread c) (c_zombies c) (c_hardclocks c) (c_isidle c) (c_runqueue c) (c_runqueue_lock c)
  v (c_shootdown c) (c_numshootdown c) (c_ipi_lock c) (c_irq c) (c_ipi c) (c_halted c) (c_waiting c).
Definition set_shootdown l n (c : cpu) := mkCpu (c_hardware_number c) (c_curthread c) (c_zombies c) (c_hardclocks c) (c_isidle c) (c_runqueue c) (c_runqueue_lock c)
  (c_ipi_pending c) l n (c_ipi_lock c) (c_irq c) (c_ipi c) (c_halted c) (c_waiting c).
Definition set_ipi_lock v (c : cpu) := mkCpu (c_hardware_number c) (c_curthread c) (c_zombies c) (c_hardclocks c) (c_isidle c) (c_runqueue c) (c_runqueue_lock c)
  (c_ipi_pending c) (c_shootdown c) (c_numshootdown c) v (c_irq c) (c_ipi c) (c_halted c) (c_waiting c).
Definition set_irq v (c : cpu) := mkCpu (c_hardware_number c) (c_curthread c) (c_zombies c) (c_hardclocks c) (c_isidle c) (c_runqueue c) (c_runqueue_lock c)
  (c_ipi_pending c) (c_shootdown c) (c_numshootdown c) (c_ipi_lock c) v (c_ipi c) (c_halted c) (c_waiting c).
Definition set_ipi v (c : cpu) := mkCpu (c_hardware_number c) (c_curthread c) (c_zombies c) (c_hardclocks c) (c_isidle c) (c_runqueue c) (c_runqueue_lock c)
  (c_ipi_pending c) (c_shootdown c) (c_numshootdown c) (c_ipi_lock c) (c_irq c) v (c_halted c) (c_waiting c).
Definition set_halted v (c : cpu) := mkCpu (c_hardware_number c) (c_curthread c) (c_zombies c) (c_hardclocks c) (c_isidle c) (c_runqueue c) (c_runqueue_lock c)
  (c_ipi_pending c) (c_shootdown c) (c_numshootdown c) (c_ipi_lock c) (c_irq c) (c_ipi c) v (c_waiting c).
Definition set_waiting v (c : cpu) := mkCpu (c_hardware_number c) (c_curthread c) (c_zombies c) (c_hardclocks c) (c_isidle c) (c_runqueue c) (c_runqueue_lock c)
  (c_ipi_pending c) (c_shootdown c) (c_numshootdown c) (c_ipi_lock c) (c_irq c) (c_ipi c) (c_halted c) v.

Definition set_wc_threads v (w : wchan) := mkWchan (wc_name w) v (wc_lock w).
Definition set_wc_lock v (w : wchan) := mkWchan (wc_name w) (wc_threads w) v.

Definition read_cpu (i : nat) : SM cpu := s <- get ;; deref (cpus s !! i).
Definition write_cpu (i : nat) (f : cpu → cpu) : SM unit := read_cpu i ;; modify (upd_cpu i f).
Definition read_thread (t : Z) : SM thread := s <- get ;; deref (threads s !! t).
Definition write_thread (t : Z) (f : thread → thread) : SM unit := read_thread t ;; modify (upd_thread t f).
Definition read_wchan (w : Z) : SM wchan := s <- get ;; deref (wchans s !! w).
Definition write_wchan (w : Z) (f : wchan → wchan) : SM unit := read_wchan w ;; modify (upd_wchan w f).

Definition kmalloc_ok : SM bool :=
  s <- get ;;
  modify (set_mem (tail (s_mem s))) ;;
  ret (default true (head (s_mem s))).
Definition new_pointer : SM Z :=
  s <- get ;;
  modify (set_next (s_next s + 1)) ;;
  ret (s_next s).

(** The spinlocks: of a run queue, of the pending interrupts of a processor, of a wait
    channel, and any other. *)
Inductive lock := RunqLock (c : nat) | IpiLock (c : nat) | WcLock (w : Z) | SpinLock (k : Z).
#[export] Instance lock_eq_dec : EqDecision lock.
Proof. solve_decision. Defined.

Section Cpu.
Context (me : nat).

Definition curthread : SM Z := c <- read_cpu me ;; ret (c_curthread c).

(** ** Interrupt levels (spl.c) *)

Definition cpu_irqoff : SM unit := write_cpu me (set_irq false).
Definition cpu_irqon : SM unit := write_cpu me (set_irq true).

Definition splraise (oldspl newspl : Z) : SM unit :=
  cur <- curthread ;;
  kassert (oldspl =? IPL_NONE) ;;
  kassert (newspl =? IPL_HIGH) ;;
  x <- read_thread cur ;;
  (if t_iplhigh_count x =? 0 then cpu_irqoff else ret tt) ;;
  write_thread cur (add_iplhigh 1).
Definition spllower (oldspl newspl : Z) : SM unit :=
  cur <- curthread ;;
  kassert (oldspl =? IPL_HIGH) ;;
  kassert (newspl =? IPL_NONE) ;;
  write_thread cur (add_iplhigh (-1)) ;;
  x <- read_thread cur ;;
  if t_iplhigh_count x =? 0 then cpu_irqon else ret tt.
Definition splx (spl : Z) : SM Z :=
  cur <- curthread ;;
  x <- read_thread cur ;;
  if t_curspl x <? spl then
    splraise (t_curspl x) spl ;;
    write_thread cur (set_curspl spl) ;;
    ret (t_curspl x)
  else if spl <? t_curspl x then
    write_thread cur (set_curspl spl) ;;
    spllower (t_curspl x) spl ;;
    ret (t_curspl x)
  else ret spl.
Definition spl0 : SM Z := splx IPL_NONE.
Definition splhigh : SM Z := splx IPL_HIGH.

(** ** Spinlocks (spinlock.c) *)


Definition lk_holder (l : lock) : SM (option nat) :=
  match l with
  | RunqLock c => x <- read_cpu c ;; ret (c_runqueue_lock x)
  | IpiLock c => x <- read_cpu c ;; ret (c_ipi_lock x)
  | WcLock w => x <- read_wchan w ;; ret (wc_lock x)
  | SpinLock k => s <- get ;; deref (spins s !! k)
  end.
Definition set_holder (l : lock) (h : option nat) : SM unit :=
  match l with
  | RunqLock c => write_cpu c (set_runqueue_lock h)
  | IpiLock c => write_cpu c (set_ipi_lock h)
  | WcLock w => write_wchan w (set_wc_lock h)
  | SpinLock k => modify (λ s, set_spins (<[k := h]> (spins s)) s)
  end.

Definition spinlock_acquire (l : lock) : SM unit :=
  splraise IPL_NONE IPL_HIGH ;;
  h <- lk_holder l ;;
  match h with
  | Some c => if decide (c = me) then panic else undef
  | None => set_holder l (Some me)
  end.
Definition spinlock_release (l : lock) : SM unit :=
  h <- lk_holder l ;;
  kassert (bool_decide (h = Some me)) ;;
  set_holder l None ;;
  spllower IPL_HIGH IPL_NONE.
Definition spinlock_do_i_hold (l : lock) : SM bool := h <- lk_holder l ;; ret (bool_decide (h = Some me)).
Definition spinlock_cleanup (l : lock) : SM unit := h <- lk_holder l ;; kassert (bool_decide (h = None)).

(** ** Thread lists *)

Definition remhead_runqueue (i : nat) : SM (option Z) :=
  c <- read_cpu i ;;
  match c_runqueue c with
  | [] => ret None
  | t :: l => write_cpu i (set_runqueue l) ;; ret (Some t)
  end.
Definition addtail_runqueue (i : nat) (t : Z) : SM unit := c <- read_cpu i ;; write_cpu i (set_runqueue (c_runqueue c ++ [t])).
Definition remtail_runqueue (i : nat) : SM (option Z) :=
  c <- read_cpu i ;;
  match last (c_runqueue c) with
  | None => ret None
  | Some t => write_cpu i (set_runqueue (removelast (c_runqueue c))) ;; ret (Some t)
  end.

(** ** Inter-processor interrupts *)

(** lamebus_assert_ipi and lamebus_clear_ipi set the line of one processor. *)
Definition mainbus_send_ipi (target : nat) : SM unit := write_cpu target (set_ipi true).
Definition lamebus_clear_ipi (target : nat) : SM unit := write_cpu target (set_ipi false).

Definition ipi_send (target : nat) (code : Z) : SM unit :=
  kassert ((0 <=? code) && (code <? 32)) ;;
  spinlock_acquire (IpiLock target) ;;
  c <- read_cpu target ;;
  write_cpu target (set_ipi_pending (Z.lor (c_ipi_pending c) (2 ^ code))) ;;
  mainbus_send_ipi target ;;
  spinlock_release (IpiLock target).
Definition ipi_broadcast (code : Z) : SM unit :=
  s <- get ;;
  for_ 0 (lengthZ (cpus s)) (λ i, if decide (Z.to_nat i = me) then ret tt else ipi_send (Z.to_nat i) code).
(** [c_shootdown] holds the entries that were written; a write outside the array is
    undefined. *)
Definition ipi_tlbshootdown (target : nat) (mapping : Z) : SM unit :=
  spinlock_acquire (IpiLock target) ;;
  c <- read_cpu target ;;
  (if c_numshootdown c =? TLBSHOOTDOWN_MAX then write_cpu target (set_shootdown (c_shootdown c) TLBSHOOTDOWN_ALL)
   else if (0 <=? c_numshootdown c) && (c_numshootdown c <? TLBSHOOTDOWN_MAX) then
     write_cpu target (set_shootdown (take (Z.to_nat (c_numshootdown c)) (c_shootdown c) ++ [mapping]) (c_numshootdown c + 1))
   else undef) ;;
  write_cpu target (set_ipi_pending (Z.lor (c_ipi_pending c) (2 ^ IPI_TLBSHOOTDOWN))) ;;
  mainbus_send_ipi target ;;
  spinlock_release (IpiLock target).

(** cpu_halt does not return; what follows it is not executed. *)
Definition cpu_halt : SM unit := cpu_irqoff ;; write_cpu me (set_halted true).

(** The result says whether it returns to its caller.  vm_tlbshootdown and
    vm_tlbshootdown_all of dumbvm.c panic. *)
Definition interprocessor_interrupt : SM bool :=
  spinlock_acquire (IpiLock me) ;;
  c <- read_cpu me ;;
  let bits := c_ipi_pending c in
  if Z.testbit bits IPI_PANIC then cpu_halt ;; ret false
  else if Z.testbit bits IPI_OFFLINE then
    spinlock_acquire (RunqLock me) ;;
    spinlock_release (RunqLock me) ;;
    cpu_halt ;;
    ret false
  else
    (if Z.testbit bits IPI_TLBSHOOTDOWN then
       (if (c_numshootdown c =? TLBSHOOTDOWN_ALL) || (0 <? c_numshootdown c) then panic else ret tt) ;;
       write_cpu me (set_shootdown (c_shootdown c) 0)
     else ret tt) ;;
    write_cpu me (set_ipi_pending 0) ;;
    spinlock_release (IpiLock me) ;;
    ret true.

(** ** Creating and destroying threads *)

Definition guard_band : list Z := replicate 4 THREAD_STACK_MAGIC.
Definition thread_checkstack_init (t : Z) : SM unit := write_thread t (set_stack (Some guard_band)).
Definition thread_checkstack (t : Z) : SM unit :=
  x <- read_thread t ;;
  match t_stack x with Some words => kassert (bool_decide (words = guard_band)) | None => ret tt end.

Definition thread_create : SM (option Z) :=
  mem <- kmalloc_ok ;;
  if negb mem then ret None else
  mem <- kmalloc_ok ;;                   (* kstrdup of the name *)
  if negb mem then ret None else
  t <- new_pointer ;;
  modify (λ s, set_threads (<[t := mkThread (Some "NEW"%string) S_READY None NoContext None None false IPL_HIGH 1 []]> (threads s)) s) ;;
  ret (Some t).

Definition thread_destroy (t : Z) : SM unit :=
  cur <- curthread ;;
  kassert (negb (t =? cur)) ;;
  x <- read_thread t ;;
  kassert (negb (bool_decide (t_state x = S_RUN))) ;;
  kassert (bool_decide (t_proc x = None)) ;;
  modify (λ s, set_threads (delete t (threads s)) s).

(** The loop of exorcise takes one zombie in each round. *)
Fixpoint exorcise_loop (fuel : nat) : SM unit :=
  c <- read_cpu me ;;
  match c_zombies c with
  | [] => ret tt
  | z :: l =>
      match fuel with
      | O => undef
      | S n =>
          write_cpu me (set_zombies l) ;;
          cur <- curthread ;;
          kassert (negb (z =? cur)) ;;
          x <- read_thread z ;;
          kassert (bool_decide (t_state x = S_ZOMBIE)) ;;
          thread_destroy z ;;
          exorcise_loop n
      end
  end.
Definition exorcise : SM unit := c <- read_cpu me ;; exorcise_loop (length (c_zombies c)).

(** proc_addthread fails if its array cannot grow. *)
Definition proc_addthread (p t : Z) : SM unit :=
  x <- read_thread t ;;
  kassert (bool_decide (t_proc x = None)) ;;
  mem <- kmalloc_ok ;;
  if negb mem then fail ENOMEM else write_thread t (set_proc (Some p)).
Definition proc_remthread (t : Z) : SM unit := write_thread t (set_proc None).

(** cpu_create; the new processor gets the next number. *)
Definition cpu_create (hardware_number : Z) : SM nat :=
  mem <- kmalloc_ok ;;
  kassert mem ;;
  mem <- kmalloc_ok ;;                   (* cpuarray_add *)
  kassert mem ;;
  s <- get ;;
  let number := length (cpus s) in
  o <- thread_create ;;
  match o with
  | None => panic
  | Some t =>
      r <- attempt (proc_addthread (s_kproc s) t) ;;
      match r with
      | inr _ => panic
      | inl _ =>
          (if decide (number = 0%nat) then ret tt
           else mem <- kmalloc_ok ;; kassert mem ;; thread_checkstack_init t) ;;
          write_thread t (set_t_cpu (Some number)) ;;
          modify (λ s, set_cpus (cpus s ++ [mkCpu hardware_number t [] 0 false [] None 0 [] 0 None false false false false]) s) ;;
          ret number
      end
  end.

(** ** Making threads run *)

Definition thread_make_runnable (target : Z) (already_have_lock : bool) : SM unit :=
  x <- read_thread target ;;
  targetcpu <- deref (t_cpu x) ;;
  (if already_have_lock then h <- spinlock_do_i_hold (RunqLock targetcpu) ;; kassert h else spinlock_acquire (RunqLock targetcpu)) ;;
  c <- read_cpu targetcpu ;;
  let isidle := c_isidle c in
  addtail_runqueue targetcpu target ;;
  (if (isidle : bool) then ipi_send targetcpu IPI_UNIDLE else ret tt) ;;
  if already_have_lock then ret tt else spinlock_release (RunqLock targetcpu).

Definition thread_fork (proc : option Z) : SM unit :=
  o <- thread_create ;;
  match o with
  | None => fail ENOMEM
  | Some newthread =>
      mem <- kmalloc_ok ;;
      if negb mem then thread_destroy newthread ;; fail ENOMEM else
      thread_checkstack_init newthread ;;
      cur <- curthread ;;
      x <- read_thread cur ;;
      write_thread newthread (set_t_cpu (t_cpu x)) ;;
      p <- deref (match proc with Some p => Some p | None => t_proc x end) ;;
      on_error (proc_addthread p newthread) (thread_destroy newthread) ;;
      write_thread newthread (add_iplhigh 1) ;;
      write_thread newthread (set_context AtStartup) ;;
      thread_make_runnable newthread false
  end.

(** ** The context switch *)

(** What the thread that is switched to does first, in thread_switch or in
    thread_startup, which goes on to call the thread's function.  as_activate changes
    only the TLB. *)
Definition switch_return : SM unit :=
  cur <- curthread ;;
  x <- read_thread cur ;;
  write_thread cur (set_wchan_name None) ;;
  write_thread cur (set_state S_RUN) ;;
  spinlock_release (RunqLock me) ;;
  exorcise ;;
  match t_context x with
  | NoContext => undef
  | AtStartup => spl0 ;; ret tt
  | InSwitch spl => splx spl ;; ret tt
  end.

(** One round of the loop that looks for the next thread: run it, or idle. *)
Definition switch_next : SM unit :=
  next <- remhead_runqueue me ;;
  match next with
  | None => spinlock_release (RunqLock me) ;; write_cpu me (set_waiting true)
  | Some t =>
      write_cpu me (set_isidle false) ;;
      write_cpu me (set_curthread t) ;;
      switch_return
  end.
(** cpu_idle has returned. *)
Definition unidle : SM unit := spinlock_acquire (RunqLock me) ;; switch_next.

Definition wchan_lock (w : Z) : SM unit := spinlock_acquire (WcLock w).
Definition wchan_unlock (w : Z) : SM unit := spinlock_release (WcLock w).

(** Put the thread in the right place. *)
Definition switch_place (newstate : threadstate_t) (wc : option Z) (cur : Z) : SM unit :=
  match newstate with
  | S_RUN => panic
  | S_READY => thread_make_runnable cur true
  | S_SLEEP =>
      w <- deref wc ;;
      x <- read_wchan w ;;
      write_thread cur (set_wchan_name (Some (wc_name x))) ;;
      write_wchan w (set_wc_threads (wc_threads x ++ [cur])) ;;
      wchan_unlock w
  | S_ZOMBIE =>
      write_thread cur (set_wchan_name (Some "ZOMBIE"%string)) ;;
      c <- read_cpu me ;;
      write_cpu me (set_zombies (c_zombies c ++ [cur]))
  end.
Definition thread_switch (newstate : threadstate_t) (wc : option Z) : SM unit :=
  spl <- splhigh ;;
  cur <- curthread ;;
  c <- read_cpu me ;;
  if c_isidle c then splx spl ;; ret tt else
  thread_checkstack cur ;;
  spinlock_acquire (RunqLock me) ;;
  c <- read_cpu me ;;
  if bool_decide (newstate = S_READY) && bool_decide (c_runqueue c = []) then
    spinlock_release (RunqLock me) ;; splx spl ;; ret tt
  else
  switch_place newstate wc cur ;;
  write_thread cur (set_state newstate) ;;
  write_thread cur (set_context (InSwitch spl)) ;;
  write_cpu me (set_isidle true) ;;
  switch_next.

Definition thread_yield : SM unit := thread_switch S_READY None.

Definition thread_exit : SM unit :=
  cur <- curthread ;;
  x <- read_thread cur ;;
  s <- get ;;
  kassert (bool_decide (t_proc x = Some (s_kproc s)) || bool_decide (t_proc x = None)) ;;
  (if bool_decide (t_proc x = Some (s_kproc s)) then proc_remthread cur else ret tt) ;;
  x <- read_thread cur ;;
  kassert (bool_decide (t_proc x = None)) ;;
  thread_checkstack cur ;;
  splhigh ;;
  thread_switch S_ZOMBIE None.

(** ** Wait channels *)

Definition wchan_create (name : string) : SM (option Z) :=
  mem <- kmalloc_ok ;;
  if negb mem then ret None else
  w <- new_pointer ;;
  modify (λ s, set_wchans (<[w := mkWchan name [] None]> (wchans s)) s) ;;
  ret (Some w).
Definition wchan_destroy (w : Z) : SM unit :=
  spinlock_cleanup (WcLock w) ;;
  x <- read_wchan w ;;
  kassert (bool_decide (wc_threads x = [])) ;;
  modify (λ s, set_wchans (delete w (wchans s)) s).
Definition wchan_isempty (w : Z) : SM bool :=
  spinlock_acquire (WcLock w) ;;
  x <- read_wchan w ;;
  spinlock_release (WcLock w) ;;
  ret (bool_decide (wc_threads x = [])).

Definition wchan_sleep (w : Z) : SM unit :=
  cur <- curthread ;;
  x <- read_thread cur ;;
  kassert (negb (t_in_interrupt x)) ;;
  thread_switch S_SLEEP (Some w).

(** The first parts of wchan_wakeone and wchan_wakeall, under the channel's lock: the
    threads that are taken off the channel. *)
Definition wakeone_take (w : Z) : SM (list Z) :=
  spinlock_acquire (WcLock w) ;;
  x <- read_wchan w ;;
  write_wchan w (set_wc_threads (tail (wc_threads x))) ;;
  spinlock_release (WcLock w) ;;
  ret (option_list (head (wc_threads x))).
Definition wakeall_take (w : Z) : SM (list Z) :=
  spinlock_acquire (WcLock w) ;;
  x <- read_wchan w ;;
  write_wchan w (set_wc_threads []) ;;
  spinlock_release (WcLock w) ;;
  ret (wc_threads x).
Fixpoint make_all_runnable (l : list Z) : SM unit :=
  match l with
  | [] => ret tt
  | t :: l' => thread_make_runnable t false ;; make_all_runnable l'
  end.
Definition wchan_wakeone (w : Z) : SM unit := l <- wakeone_take w ;; make_all_runnable l.
Definition wchan_wakeall (w : Z) : SM unit := l <- wakeall_take w ;; make_all_runnable l.

(** ** Migration *)

(** The counts, each read under its run queue's lock: this processor's, and all. *)
Definition count_queue (i : nat) : SM Z :=
  spinlock_acquire (RunqLock i) ;;
  c <- read_cpu i ;;
  spinlock_release (RunqLock i) ;;
  ret (lengthZ (c_runqueue c)).
Fixpoint count_queues (i fuel : nat) (my_count total_count : Z) : SM (Z * Z) :=
  match fuel with
  | O => ret (my_count, total_count)
  | S n =>
      k <- count_queue i ;;
      count_queues (S i) n (if decide (i = me) then k else my_count) (total_count + k)
  end.
(** Taking [n] threads off the end of the run queue, the last one to the back. *)
Fixpoint take_victims (n : nat) (victims : list Z) : SM (list Z) :=
  match n with
  | O => ret victims
  | S n' =>
      o <- remtail_runqueue me ;;
      t <- deref o ;;
      take_victims n' (t :: victims)
  end.
(** The while loop for one other processor; each round lowers to_send. *)
Fixpoint send_loop (i : nat) (one_share : Z) (to_send : nat) (victims : list Z) : SM (nat * list Z) :=
  match to_send with
  | O => ret (O, victims)
  | S n =>
      c <- read_cpu i ;;
      if lengthZ (c_runqueue c) <? one_share then
        cur <- curthread ;;
        match victims with
        | [] => undef
        | t :: vs =>
            if t =? cur then send_loop i one_share n (vs ++ [t])
            else
              write_thread t (set_t_cpu (Some i)) ;;
              addtail_runqueue i t ;;
              (if c_isidle c then ipi_send i IPI_UNIDLE else ret tt) ;;
              send_loop i one_share n vs
        end
      else ret (to_send, victims)
  end.
Definition send_to (i : nat) (one_share : Z) (to_send : nat) (victims : list Z) : SM (nat * list Z) :=
  spinlock_acquire (RunqLock i) ;;
  r <- send_loop i one_share to_send victims ;;
  spinlock_release (RunqLock i) ;;
  ret r.
Fixpoint send_all (i : nat) (fuel : nat) (one_share : Z) (to_send : nat) (victims : list Z) : SM (list Z) :=
  match fuel with
  | O => ret victims
  | S n =>
      if decide (to_send = 0%nat) then ret victims else
      if decide (i = me) then send_all (S i) n one_share to_send victims
      else
        r <- send_to i one_share to_send victims ;;
        send_all (S i) n one_share (fst r) (snd r)
  end.
Definition put_back (victims : list Z) : SM unit :=
  if bool_decide (victims = []) then ret tt else
  spinlock_acquire (RunqLock me) ;;
  c <- read_cpu me ;;
  write_cpu me (set_runqueue (c_runqueue c ++ victims)) ;;
  spinlock_release (RunqLock me).
Definition take_section (n : nat) : SM (list Z) :=
  spinlock_acquire (RunqLock me) ;;
  victims <- take_victims n [] ;;
  spinlock_release (RunqLock me) ;;
  ret victims.
Definition thread_consider_migration : SM unit :=
  s <- get ;;
  let numcpus := length (cpus s) in
  r <- count_queues 0 numcpus 0 0 ;;
  let '(my_count, total_count) := r in
  let one_share := DIVROUNDUP total_count (Z.of_nat numcpus) in
  if my_count <? one_share then ret tt else
  let to_send := Z.to_nat (my_count - one_share) in
  victims <- take_section to_send ;;
  victims <- send_all 0 numcpus one_share to_send victims ;;
  put_back victims.

(** ** Clock *)

Definition schedule : SM unit := ret tt.
(** hardclock up to the migration, and whether it is due. *)
Definition hardclock_count : SM bool :=
  c <- read_cpu me ;;
  let n := u32 (c_hardclocks c + 1) in
  write_cpu me (set_hardclocks n) ;;
  (if n mod SCHEDULE_HARDCLOCKS =? 0 then schedule else ret tt) ;;
  ret (n mod MIGRATE_HARDCLOCKS =? 0).
Definition hardclock : SM unit :=
  due <- hardclock_count ;;
  (if (due : bool) then thread_consider_migration else ret tt) ;;
  thread_yield.
Definition timerclock (lbolt : Z) : SM unit := wchan_wakeall lbolt.

(** ** Panic and shutdown *)

Definition thread_panic : SM unit := ipi_broadcast IPI_PANIC ;; write_cpu me (set_runqueue []).
Definition thread_shutdown : SM unit := ipi_broadcast IPI_OFFLINE.

(** ** Interrupts (trap.c, lamebus_machdep.c) *)

(** Taking an interrupt turns interrupts off and ends a WAIT; the rest is mips_trap up
    to mainbus_interrupt. *)
Definition irq_enter : SM unit :=
  write_cpu me (set_irq false) ;;
  write_cpu me (set_waiting false) ;;
  cur <- curthread ;;
  x <- read_thread cur ;;
  let old_in := t_in_interrupt x in
  write_thread cur (set_in_interrupt true) ;;
  doadjust <- (if t_curspl x =? 0 then
      kassert (t_iplhigh_count x =? 0) ;;
      write_thread cur (set_curspl IPL_HIGH) ;;
      write_thread cur (add_iplhigh 1) ;;
      ret true
    else ret false) ;;
  write_thread cur (set_frames ((old_in, doadjust) :: t_frames x)).
(** mips_trap behind mainbus_interrupt; returning from the exception restores the
    interrupt enable bit, which was on if the processor was not idle. *)
Definition irq_leave : SM unit :=
  cur <- curthread ;;
  x <- read_thread cur ;;
  match t_frames x with
  | [] => undef
  | (old_in, doadjust) :: l =>
      write_thread cur (set_frames l) ;;
      (if (doadjust : bool) then
         kassert (t_curspl x =? IPL_HIGH) ;;
         kassert (t_iplhigh_count x =? 1) ;;
         write_thread cur (add_iplhigh (-1)) ;;
         write_thread cur (set_curspl 0)
       else ret tt) ;;
      write_thread cur (set_in_interrupt old_in) ;;
      write_cpu me (set_irq doadjust)
  end.
Definition LAMEBUS_IRQ_BIT : Z := 0x00000400.
Definition LAMEBUS_IPI_BIT : Z := 0x00000800.
Definition MIPS_TIMER_BIT : Z := 0x00008000.
(** [lamebus_interrupt]: the handlers of the devices. *)
Definition mainbus_interrupt (lamebus_interrupt : SM unit) (cause : Z) : SM unit :=
  cur <- curthread ;;
  x <- read_thread cur ;;
  kassert (0 <? t_curspl x) ;;
  if negb (Z.land cause LAMEBUS_IRQ_BIT =? 0) then lamebus_interrupt
  else if negb (Z.land cause LAMEBUS_IPI_BIT =? 0) then 
    go <- interprocessor_interrupt ;;
    if (go : bool) then lamebus_clear_ipi me else ret tt
  else if negb (Z.land cause MIPS_TIMER_BIT =? 0) then hardclock
  else panic.
End Cpu.

(** hardclock_bootstrap *)
Definition hardclock_bootstrap : SM Z :=
  o <- wchan_create "lbolt"%string ;;
  match o with Some lbolt => ret lbolt | None => panic end.

(** thread_bootstrap *)
Definition thread_bootstrap : SM unit :=
  modify (set_cpus []) ;;
  me <- cpu_create 0 ;;
  cur <- curthread me ;;
  write_thread cur (set_t_cpu (Some me)) ;;
  x <- read_thread cur ;;
  kassert (bool_decide (t_proc x ≠ None)).
