(* ===== verification/SchedOps.v ===== *)
(** * The effect of the operations of the thread system

    Every routine of Sched.v that runs under a spinlock is shown to return, and to
    change the state only in the way the routine is about: what taking and dropping
    the lock does to the interrupt level cancels out. *)

From stdpp Require Import list.
From S2P Require Import Prelude Sched.
#[local] Open Scope kern_scope.

(** ** Looking things up after an update *)

Section Lookup.
Implicit Types (s : sched) (i j : nat) (t : Z).

Lemma cpu_upd s i f c : cpus s !! i = Some c → cpus (upd_cpu i f s) !! i = Some (f c).
Proof. intros H. simpl. by rewrite list_lookup_alter_eq, H. Qed.
Lemma cpu_upd_ne s i j f : i ≠ j → cpus (upd_cpu i f s) !! j = cpus s !! j.
Proof. intros H. simpl. by rewrite list_lookup_alter_ne. Qed.
Lemma thread_upd s t f x : threads s !! t = Some x → threads (upd_thread t f s) !! t = Some (f x).
Proof. intros H. simpl. by rewrite lookup_alter_eq, H. Qed.
Lemma wchan_upd s w f x : wchans s !! w = Some x → wchans (upd_wchan w f s) !! w = Some (f x).
Proof. intros H. simpl. by rewrite lookup_alter_eq, H. Qed.
Lemma wchan_upd_ne s w w' f : w ≠ w' → wchans (upd_wchan w f s) !! w' = wchans s !! w'.
Proof. intros H. simpl. by rewrite lookup_alter_ne. Qed.

Lemma upd_cpu_id s i c f : cpus s !! i = Some c → f c = c → upd_cpu i f s = s.
Proof.
  intros Hc Hf. unfold upd_cpu. replace (alter f i (cpus s)) with (cpus s); [by destruct s|].
  apply list_eq. intros j. destruct (decide (i = j)) as [<-|].
  - by rewrite list_lookup_alter_eq, Hc; simpl; rewrite Hf.
  - by rewrite list_lookup_alter_ne.
Qed.
Lemma sched_eq s s' : cpus s = cpus s' → threads s = threads s' → wchans s = wchans s' → spins s = spins s' →
  s_kproc s = s_kproc s' → s_next s = s_next s' → s_mem s = s_mem s' → s = s'.
Proof. destruct s, s'. simpl. congruence. Qed.
End Lookup.

Create HintDb sched.
Create Rewrite HintDb sched.
#[export] Hint Resolve cpu_upd thread_upd wchan_upd : sched.

Section Basic.
Implicit Types (s : sched) (i me : nat) (t : Z).
Lemma read_cpu_ok s i c : cpus s !! i = Some c → read_cpu i s = Ok c s.
Proof. unfold read_cpu, bind, get, gets, deref. simpl. by intros ->. Qed.
Lemma write_cpu_ok s i c f : cpus s !! i = Some c → write_cpu i f s = Ok tt (upd_cpu i f s).
Proof. intros H. unfold write_cpu. by erewrite bind_ok by by eapply read_cpu_ok. Qed.
Lemma read_thread_ok s t x : threads s !! t = Some x → read_thread t s = Ok x s.
Proof. unfold read_thread, bind, get, gets, deref. simpl. by intros ->. Qed.
Lemma write_thread_ok s t x f : threads s !! t = Some x → write_thread t f s = Ok tt (upd_thread t f s).
Proof. intros H. unfold write_thread. by erewrite bind_ok by by eapply read_thread_ok. Qed.
Lemma read_wchan_ok s w x : wchans s !! w = Some x → read_wchan w s = Ok x s.
Proof. unfold read_wchan, bind, get, gets, deref. simpl. by intros ->. Qed.
Lemma write_wchan_ok s w x f : wchans s !! w = Some x → write_wchan w f s = Ok tt (upd_wchan w f s).
Proof. intros H. unfold write_wchan. by erewrite bind_ok by by eapply read_wchan_ok. Qed.
Lemma curthread_ok s i c : cpus s !! i = Some c → curthread i s = Ok (c_curthread c) s.
Proof. intros H. unfold curthread. by erewrite bind_ok by by eapply read_cpu_ok. Qed.
Lemma kassert_ok s b : b = true → kassert b s = Ok tt s.
Proof. by intros ->. Qed.
End Basic.

(** ** Spinlock sections *)

Definition holder (s : sched) (l : lock) : option (option nat) :=
  match l with
  | RunqLock c => c_runqueue_lock <$> cpus s !! c
  | IpiLock c => c_ipi_lock <$> cpus s !! c
  | WcLock w => wc_lock <$> wchans s !! w
  | SpinLock k => spins s !! k
  end.
Definition hold (l : lock) (h : option nat) (s : sched) : sched :=
  match l with
  | RunqLock c => upd_cpu c (set_runqueue_lock h) s
  | IpiLock c => upd_cpu c (set_ipi_lock h) s
  | WcLock w => upd_wchan w (set_wc_lock h) s
  | SpinLock k => set_spins (<[k := h]> (spins s)) s
  end.

(** Processor [me] runs thread [x]; interrupts are off while its count is not zero. *)
Record exec (s : sched) (me : nat) (c : cpu) (x : thread) : Prop := {
  ex_cpu : cpus s !! me = Some c;
  ex_thread : threads s !! c_curthread c = Some x;
  ex_irq : c_irq c = (t_iplhigh_count x =? 0);
  ex_count : 0 ≤ t_iplhigh_count x
}.

Definition cur_of (me : nat) (s : sched) : Z := default 0 (c_curthread <$> cpus s !! me).
(** The state inside a section of lock [l], and what it shows of a processor and of a
    thread. *)
Definition acquired (me : nat) (l : lock) (s : sched) : sched :=
  hold l (Some me) (upd_cpu me (set_irq false) (upd_thread (cur_of me s) (add_iplhigh 1) s)).
#[global] Arguments acquired : simpl never.
Definition hold_cpu (l : lock) (h : option nat) (i : nat) (c : cpu) : cpu :=
  match l with
  | RunqLock j => if decide (j = i) then set_runqueue_lock h c else c
  | IpiLock j => if decide (j = i) then set_ipi_lock h c else c
  | _ => c
  end.
Definition acq_cpu (me : nat) (l : lock) (i : nat) (c : cpu) : cpu :=
  hold_cpu l (Some me) i (if decide (me = i) then set_irq false c else c).

Lemma cpus_upd s i f j : cpus (upd_cpu i f s) !! j = (if decide (i = j) then f <$> cpus s !! j else cpus s !! j).
Proof. simpl. destruct (decide (i = j)) as [<-|]; [apply list_lookup_alter_eq|by apply list_lookup_alter_ne]. Qed.
Lemma threads_upd s t f t' : threads (upd_thread t f s) !! t' = (if decide (t = t') then f <$> threads s !! t' else threads s !! t').
Proof. simpl. destruct (decide (t = t')) as [<-|]; [apply lookup_alter_eq|by apply lookup_alter_ne]. Qed.

Lemma wchans_upd s w f w' : wchans (upd_wchan w f s) !! w' = (if decide (w = w') then f <$> wchans s !! w' else wchans s !! w').
Proof. simpl. destruct (decide (w = w')) as [<-|]; [apply lookup_alter_eq|by apply lookup_alter_ne]. Qed.

Lemma hold_cpus l h s i : cpus (hold l h s) !! i = hold_cpu l h i <$> cpus s !! i.
Proof.
  destruct l; cbn [hold]; try rewrite cpus_upd; destruct (cpus s !! i) eqn:E; simpl; repeat case_decide; by rewrite ?E.
Qed.
Lemma hold_threads l h s : threads (hold l h s) = threads s.
Proof. by destruct l. Qed.
Lemma acquired_cpus me l s i : cpus (acquired me l s) !! i = acq_cpu me l i <$> cpus s !! i.
Proof.
  unfold acquired. rewrite hold_cpus, cpus_upd. unfold acq_cpu. simpl.
  destruct (decide _); destruct (cpus s !! i); done.
Qed.
Lemma acquired_threads me l s t : threads (acquired me l s) !! t =
  (if decide (cur_of me s = t) then add_iplhigh 1 <$> threads s !! t else threads s !! t).
Proof. unfold acquired. rewrite hold_threads. apply threads_upd. Qed.

(** What a section of a lock does not change of a processor. *)
Section AcqCpu.
Context (me : nat) (l : lock) (h : option nat) (i : nat) (c : cpu).
Lemma acq_runqueue : c_runqueue (acq_cpu me l i c) = c_runqueue c.
Proof. unfold acq_cpu, hold_cpu. by destruct l; repeat case_decide. Qed.
Lemma acq_isidle : c_isidle (acq_cpu me l i c) = c_isidle c.
Proof. unfold acq_cpu, hold_cpu. by destruct l; repeat case_decide. Qed.
Lemma acq_curthread : c_curthread (acq_cpu me l i c) = c_curthread c.
Proof. unfold acq_cpu, hold_cpu. by destruct l; repeat case_decide. Qed.
Lemma acq_pending : c_ipi_pending (acq_cpu me l i c) = c_ipi_pending c.
Proof. unfold acq_cpu, hold_cpu. by destruct l; repeat case_decide. Qed.
Lemma acq_zombies : c_zombies (acq_cpu me l i c) = c_zombies c.
Proof. unfold acq_cpu, hold_cpu. by destruct l; repeat case_decide. Qed.
End AcqCpu.
#[export] Hint Rewrite acq_runqueue acq_isidle acq_curthread acq_pending acq_zombies : sched.

Section Locks.
Implicit Types (s : sched) (i me : nat) (t : Z) (l : lock).

Lemma cur_of_at s me c : cpus s !! me = Some c → cur_of me s = c_curthread c.
Proof. unfold cur_of. by intros ->. Qed.

Lemma lk_holder_ok s l h : holder s l = Some h → lk_holder l s = Ok h s.
Proof.
  destruct l; cbn [holder lk_holder]; intros H; try apply fmap_Some in H as (x & H & ->).
  1,2: by erewrite bind_ok by by apply read_cpu_ok.
  - by erewrite bind_ok by by apply read_wchan_ok.
  - unfold bind, get, gets, deref. simpl. by rewrite H.
Qed.
Lemma set_holder_ok s l h h' : holder s l = Some h → set_holder l h' s = Ok tt (hold l h' s).
Proof.
  destruct l; cbn [holder set_holder]; intros H; try apply fmap_Some in H as (x & H & ->); try done.
  1,2: by eapply write_cpu_ok.
  by eapply write_wchan_ok.
Qed.
Lemma holder_upd_thread s t f l : holder (upd_thread t f s) l = holder s l.
Proof. by destruct l. Qed.
Lemma holder_set_irq s i b l : holder (upd_cpu i (set_irq b) s) l = holder s l.
Proof. destruct l; cbn [holder]; try done; rewrite cpus_upd; case_decide; try done; by destruct (cpus s !! _). Qed.
Lemma holder_hold s l h h' : holder s l = Some h → holder (hold l h' s) l = Some h'.
Proof.
  destruct l; cbn [holder hold]; intros H; try apply fmap_Some in H as (x & H & _).
  1,2: by rewrite cpus_upd, decide_True, H.
  - by erewrite wchan_upd.
  - simpl. apply lookup_insert_eq.
Qed.
Lemma holder_hold_ne s l l' h : l ≠ l' → holder (hold l h s) l' = holder s l'.
Proof.
  destruct l, l'; cbn [holder hold]; intros H; try done; try (rewrite cpus_upd; case_decide; subst; try done; by destruct (cpus s !! _)).
  - rewrite wchan_upd_ne; congruence.
  - simpl. apply lookup_insert_ne. congruence.
Qed.

Lemma do_i_hold_ok s me l h : holder s l = Some h → spinlock_do_i_hold me l s = Ok (bool_decide (h = Some me)) s.
Proof. intros H. unfold spinlock_do_i_hold. by erewrite bind_ok by by apply lk_holder_ok. Qed.

Lemma splraise_ok s me c x : exec s me c x →
  splraise me IPL_NONE IPL_HIGH s = Ok tt (upd_cpu me (set_irq false) (upd_thread (c_curthread c) (add_iplhigh 1) s)).
Proof.
  intros [Hc Hx Hi _]. unfold splraise. erewrite bind_ok by by apply curthread_ok.
  simpl kassert. do 2 (erewrite bind_ok by done). erewrite bind_ok by by apply read_thread_ok.
  destruct (t_iplhigh_count x =? 0).
  - erewrite bind_ok by by eapply write_cpu_ok. by erewrite write_thread_ok.
  - erewrite bind_ok by done. erewrite write_thread_ok by done. f_equal. symmetry.
    apply (upd_cpu_id _ _ c); [done|]. destruct c; simpl in *; by subst.
Qed.
Lemma spllower_ok s me c x : exec s me c x → 1 ≤ t_iplhigh_count x →
  spllower me IPL_HIGH IPL_NONE s =
    Ok tt (upd_cpu me (set_irq (t_iplhigh_count x =? 1)) (upd_thread (c_curthread c) (add_iplhigh (-1)) s)).
Proof.
  intros [Hc Hx Hi _] H1. unfold spllower. erewrite bind_ok by by apply curthread_ok.
  do 2 (erewrite bind_ok by done). erewrite bind_ok by by eapply write_thread_ok.
  erewrite bind_ok by by apply read_thread_ok, thread_upd. simpl.
  replace (t_iplhigh_count x + -1 =? 0) with (t_iplhigh_count x =? 1) by lia.
  destruct (Z.eqb_spec (t_iplhigh_count x) 1).
  - by eapply write_cpu_ok.
  - unfold ret. f_equal. symmetry. apply (upd_cpu_id _ _ c); [done|].
    rewrite (proj2 (Z.eqb_neq _ _)) in Hi by lia. destruct c; simpl in *; by subst.
Qed.
Lemma acquire_ok s me c x l : exec s me c x → holder s l = Some None →
  spinlock_acquire me l s = Ok tt (acquired me l s).
Proof.
  intros He Hl. unfold spinlock_acquire. erewrite bind_ok by by eapply splraise_ok.
  assert (holder (upd_cpu me (set_irq false) (upd_thread (c_curthread c) (add_iplhigh 1) s)) l = Some None) as Hl'.
  { by rewrite holder_set_irq, holder_upd_thread. }
  erewrite bind_ok by by apply lk_holder_ok. cbv beta iota. erewrite set_holder_ok by done.
  unfold acquired. by rewrite (cur_of_at s me c) by apply He.
Qed.
Lemma release_ok s me c x l : exec s me c x → holder s l = Some (Some me) → 1 ≤ t_iplhigh_count x →
  spinlock_release me l s =
    Ok tt (upd_cpu me (set_irq (t_iplhigh_count x =? 1)) (upd_thread (c_curthread c) (add_iplhigh (-1)) (hold l None s))).
Proof.
  intros He Hl H1. unfold spinlock_release. erewrite bind_ok by by apply lk_holder_ok.
  rewrite bool_decide_true by done. erewrite bind_ok by done. erewrite bind_ok by by eapply set_holder_ok.
  destruct He as [Hc Hx Hi H0].
  assert (exec (hold l None s) me (hold_cpu l None me c) x) as He.
  { split; [by rewrite hold_cpus, Hc| |..]; try done.
    - rewrite hold_threads. by destruct l; simpl; repeat case_decide.
    - rewrite <- Hi. by destruct l; simpl; repeat case_decide. }
  erewrite spllower_ok by done. do 3 f_equal. by destruct l; simpl; repeat case_decide.
Qed.
End Locks.

(** An update of a processor, of a thread or of a channel that has nothing to do with
    locks and interrupt levels. *)
Class Quiet (f : cpu → cpu) : Prop := {
  q_irq : ∀ b c, f (set_irq b c) = set_irq b (f c);
  q_rlock : ∀ h c, f (set_runqueue_lock h c) = set_runqueue_lock h (f c);
  q_ilock : ∀ h c, f (set_ipi_lock h c) = set_ipi_lock h (f c);
  q_cur : ∀ c, c_curthread (f c) = c_curthread c
}.
Class QuietT (f : thread → thread) : Prop := {
  qt_add : ∀ k x, f (add_iplhigh k x) = add_iplhigh k (f x);
  qt_count : ∀ x, t_iplhigh_count (f x) = t_iplhigh_count x
}.

#[export] Instance quiet_runqueue v : Quiet (set_runqueue v). Proof. done. Qed.
#[export] Instance quiet_ipi v : Quiet (set_ipi v). Proof. done. Qed.
#[export] Instance quiet_pending v : Quiet (set_ipi_pending v). Proof. done. Qed.
#[export] Instance quiet_zombies v : Quiet (set_zombies v). Proof. done. Qed.
#[export] Instance quiet_isidle v : Quiet (set_isidle v). Proof. done. Qed.
#[export] Instance quiet_t_cpu v : QuietT (set_t_cpu v). Proof. done. Qed.
#[export] Instance quiet_wchan_name v : QuietT (set_wchan_name v). Proof. done. Qed.
#[export] Instance quiet_state v : QuietT (set_state v). Proof. done. Qed.

Section Sections.
Implicit Types (s : sched) (i me : nat) (t : Z) (l : lock).

Lemma acq_quiet f `{Quiet f} me l i c : f (acq_cpu me l i c) = acq_cpu me l i (f c).
Proof.
  unfold acq_cpu, hold_cpu. destruct l; repeat case_decide; rewrite ?q_rlock, ?q_ilock, ?q_irq; done.
Qed.
Lemma cur_of_upd f `{Quiet f} i me s : cur_of me (upd_cpu i f s) = cur_of me s.
Proof. unfold cur_of. rewrite cpus_upd. case_decide; [|done]. destruct (cpus s !! me); simpl; [by rewrite q_cur|done]. Qed.
Lemma acquired_wchans me l s : wchans (acquired me l s) = wchans (hold l (Some me) s).
Proof. by destruct l. Qed.

Lemma acquired_upd_cpu f `{Quiet f} me l i s : upd_cpu i f (acquired me l s) = acquired me l (upd_cpu i f s).
Proof.
  apply sched_eq; try by destruct l.
  - apply list_eq. intros j. rewrite acquired_cpus, !cpus_upd, acquired_cpus.
    case_decide; [|done]. destruct (cpus s !! j); simpl; [by rewrite (acq_quiet f)|done].
  - apply map_eq. intros t. rewrite acquired_threads, (cur_of_upd f). exact (acquired_threads me l s t).
Qed.
Lemma acquired_upd_thread f `{QuietT f} me l t s : upd_thread t f (acquired me l s) = acquired me l (upd_thread t f s).
Proof.
  apply sched_eq; try by destruct l.
  apply map_eq. intros t'. rewrite acquired_threads, !threads_upd, acquired_threads.
  change (cur_of me (upd_thread t f s)) with (cur_of me s).
  repeat case_decide; try done. destruct (threads s !! t'); simpl; [by rewrite qt_add|done].
Qed.
Lemma acquired_set_wc_threads v me l w s :
  upd_wchan w (set_wc_threads v) (acquired me l s) = acquired me l (upd_wchan w (set_wc_threads v) s).
Proof.
  apply sched_eq; try by destruct l.
  apply map_eq. intros w'. rewrite wchans_upd, !acquired_wchans.
  destruct l; cbn [hold wchans upd_cpu set_cpus set_spins]; rewrite ?wchans_upd; try done.
  repeat case_decide; subst; try done; by destruct (wchans s !! _).
Qed.

Lemma exec_acquired s me c x l : exec s me c x → exec (acquired me l s) me (acq_cpu me l me c) (add_iplhigh 1 x).
Proof.
  intros [Hc Hx Hi H0]. split.
  - by rewrite acquired_cpus, Hc.
  - by rewrite acquired_threads, acq_curthread, (cur_of_at _ _ c), decide_True, Hx.
  - simpl. unfold acq_cpu. rewrite decide_True by done. rewrite (proj2 (Z.eqb_neq _ _)) by lia.
    by destruct l; simpl; repeat case_decide.
  - simpl. lia.
Qed.
Lemma holder_acquired s me l h : holder s l = Some h → holder (acquired me l s) l = Some (Some me).
Proof. intros H. unfold acquired. eapply holder_hold. by rewrite holder_set_irq, holder_upd_thread. Qed.
Lemma holder_acquired_ne s me l l' : l ≠ l' → holder (acquired me l s) l' = holder s l'.
Proof. intros H. unfold acquired. by rewrite holder_hold_ne, holder_set_irq, holder_upd_thread. Qed.

Lemma hold_acq l me i c : hold_cpu l None i (acq_cpu me l i c) = hold_cpu l None i (if decide (me = i) then set_irq false c else c).
Proof. unfold acq_cpu, hold_cpu. by destruct l; repeat case_decide. Qed.
Lemma hold_cpu_id s l i c : holder s l = Some None → cpus s !! i = Some c → hold_cpu l None i c = c.
Proof.
  unfold holder, hold_cpu. destruct l; intros H Hc; try case_decide; subst; try done; rewrite Hc in H; destruct c; simpl in *; simplify_eq; done.
Qed.

(** A section that leaves the state as [s] leaves it as [s]. *)
Lemma release_acquired s me c x l : exec s me c x → holder s l = Some None →
  spinlock_release me l (acquired me l s) = Ok tt s.
Proof.
  intros He Hl. erewrite release_ok; [|by eapply exec_acquired|by eapply holder_acquired|simpl; destruct He; lia].
  f_equal. destruct He as [Hc Hx Hi H0]. rewrite acq_curthread. apply sched_eq; try by destruct l.
  - apply list_eq. intros j. rewrite cpus_upd. cbn [cpus upd_thread set_threads]. rewrite hold_cpus, acquired_cpus.
    destruct (cpus s !! j) as [c'|] eqn:Hj; simpl; [|by case_decide].
    rewrite hold_acq. case_decide; simpl.
    + subst. rewrite Hj in Hc. injection Hc as ->. f_equal. pose proof (hold_cpu_id s l j c Hl Hj) as E.
      replace (t_iplhigh_count x + 1 =? 1) with (c_irq c) by (rewrite Hi; lia).
      revert E. unfold hold_cpu. destruct l; repeat case_decide; destruct c; unfold set_irq, set_runqueue_lock, set_ipi_lock; simpl; intros E; simplify_eq; congruence.
    + by rewrite (hold_cpu_id s).
  - apply map_eq. intros t. cbn [threads upd_cpu set_cpus]. rewrite threads_upd, hold_threads, acquired_threads, (cur_of_at _ _ c) by done.
    case_decide; subst; [|done]. rewrite Hx. simpl. f_equal. destruct x; unfold add_iplhigh; simpl. f_equal; lia.
  - destruct l; try done. apply map_eq. intros w'. cbn [hold wchans upd_cpu set_cpus upd_thread set_threads].
    rewrite wchans_upd, acquired_wchans. cbn [hold]. rewrite wchans_upd. case_decide; [subst|done].
    apply fmap_Some in Hl as (y & -> & Hn). destruct y. simpl in *. by subst.
  - destruct l; try done. simpl in *. rewrite insert_insert_eq. by apply insert_id.
Qed.
End Sections.

(** ** Interrupts sent, threads made runnable *)

Definition poke (code : Z) (d : cpu) : cpu := set_ipi true (set_ipi_pending (Z.lor (c_ipi_pending d) (2 ^ code)) d).
Definition enqueue (t : Z) (d : cpu) : cpu :=
  let d' := set_runqueue (c_runqueue d ++ [t]) d in
  if c_isidle d then poke IPI_UNIDLE d' else d'.

#[export] Instance quiet_poke code : Quiet (poke code). Proof. done. Qed.
#[export] Instance quiet_enqueue t : Quiet (enqueue t).
Proof. split; intros; unfold enqueue; simpl; by destruct (c_isidle c). Qed.

Section Enqueue.
Implicit Types (s : sched) (i me : nat) (t : Z) (l : lock).

Lemma upd_cpu_at s i d f g : cpus s !! i = Some d → f d = g d → upd_cpu i f s = upd_cpu i g s.
Proof.
  intros Hd E. apply sched_eq; try done. apply list_eq. intros j. rewrite !cpus_upd. case_decide; [|done].
  subst. rewrite Hd. simpl. congruence.
Qed.
Lemma upd_cpu_upd s i f g : upd_cpu i f (upd_cpu i g s) = upd_cpu i (f ∘ g) s.
Proof. apply sched_eq; try done. apply list_eq. intros j. rewrite !cpus_upd. case_decide; [|done]. by destruct (cpus s !! j). Qed.

Lemma quiet_irq f `{Quiet f} c : c_irq (f c) = c_irq c.
Proof. transitivity (c_irq (f (set_irq (c_irq c) c))); [by destruct c|]. by rewrite q_irq. Qed.
Lemma quiet_locks f `{Quiet f} c : c_runqueue_lock (f c) = c_runqueue_lock c ∧ c_ipi_lock (f c) = c_ipi_lock c.
Proof.
  split.
  - transitivity (c_runqueue_lock (f (set_runqueue_lock (c_runqueue_lock c) c))); [by destruct c|]. by rewrite q_rlock.
  - transitivity (c_ipi_lock (f (set_ipi_lock (c_ipi_lock c) c))); [by destruct c|]. by rewrite q_ilock.
Qed.
Lemma holder_upd_cpu f `{Quiet f} s i l : holder (upd_cpu i f s) l = holder s l.
Proof.
  destruct l; cbn [holder]; try done; rewrite cpus_upd; case_decide; subst; try done;
    destruct (cpus s !! _); simpl; try done; f_equal; apply (quiet_locks f).
Qed.
Lemma exec_upd_cpu f `{Quiet f} s i me c x : exec s me c x → exec (upd_cpu i f s) me (if decide (i = me) then f c else c) x.
Proof.
  intros [Hc Hx Hi H0]. split; try done.
  - rewrite cpus_upd. case_decide; by rewrite Hc.
  - case_decide; [by rewrite q_cur|done].
  - case_decide; [by rewrite quiet_irq|done].
Qed.
Lemma exec_upd_thread f `{QuietT f} s t me c x : exec s me c x →
  exec (upd_thread t f s) me c (if decide (t = c_curthread c) then f x else x).
Proof.
  intros [Hc Hx Hi H0]. split; try done.
  - rewrite threads_upd. case_decide; by rewrite Hx.
  - case_decide; [by rewrite qt_count|done].
  - case_decide; [by rewrite qt_count|done].
Qed.


Lemma ipi_send_ok s me c x i d code : exec s me c x → cpus s !! i = Some d → c_ipi_lock d = None → 0 ≤ code < 32 →
  ipi_send me i code s = Ok tt (upd_cpu i (poke code) s).
Proof.
  intros He Hd Hl Hcode. unfold ipi_send. erewrite bind_ok by (apply kassert_ok; lia).
  assert (holder s (IpiLock i) = Some None) as Hh by (simpl; by rewrite Hd; simpl; rewrite Hl).
  erewrite bind_ok by by eapply acquire_ok.
  assert (cpus (acquired me (IpiLock i) s) !! i = Some (acq_cpu me (IpiLock i) i d)) as Ha by by rewrite acquired_cpus, Hd.
  erewrite bind_ok by by apply read_cpu_ok. erewrite bind_ok by by eapply write_cpu_ok. rewrite acq_pending.
  unfold mainbus_send_ipi. erewrite bind_ok by (eapply write_cpu_ok; by apply cpu_upd).
  rewrite upd_cpu_upd, (upd_cpu_at _ _ _ _ (poke code) Ha) by (unfold poke; by rewrite acq_pending).
  rewrite acquired_upd_cpu by apply _. eapply release_acquired; [by apply exec_upd_cpu; [apply _|]|].
  by rewrite holder_upd_cpu by apply _.
Qed.

Lemma addtail_ok s i d t : cpus s !! i = Some d → addtail_runqueue i t s = Ok tt (upd_cpu i (λ d, set_runqueue (c_runqueue d ++ [t]) d) s).
Proof.
  intros Hd. unfold addtail_runqueue. erewrite bind_ok by by apply read_cpu_ok. erewrite write_cpu_ok by done.
  f_equal. by apply (upd_cpu_at _ _ d).
Qed.
#[local] Instance quiet_addtail t : Quiet (λ d, set_runqueue (c_runqueue d ++ [t]) d). Proof. done. Qed.

Lemma make_runnable_ok s me c x t y j d : exec s me c x → threads s !! t = Some y → t_cpu y = Some j →
  cpus s !! j = Some d → c_runqueue_lock d = None → (c_isidle d = true → c_ipi_lock d = None) →
  thread_make_runnable me t false s = Ok tt (upd_cpu j (enqueue t) s).
Proof.
  intros He Hy Hj Hd Hr Hl. unfold thread_make_runnable. erewrite bind_ok by by apply read_thread_ok.
  rewrite Hj. erewrite bind_ok by done.
  assert (holder s (RunqLock j) = Some None) as Hh by (simpl; by rewrite Hd; simpl; rewrite Hr).
  erewrite bind_ok by by eapply acquire_ok.
  assert (cpus (acquired me (RunqLock j) s) !! j = Some (acq_cpu me (RunqLock j) j d)) as Ha by by rewrite acquired_cpus, Hd.
  erewrite bind_ok by by apply read_cpu_ok. rewrite acq_isidle. erewrite bind_ok by by eapply addtail_ok.
  rewrite acquired_upd_cpu by apply _.
  destruct (c_isidle d) eqn:Hidle.
  - erewrite bind_ok.
    2: { eapply ipi_send_ok; [apply exec_acquired; apply exec_upd_cpu; [apply _|done]|rewrite acquired_cpus; by erewrite cpu_upd| |done].
         unfold acq_cpu, hold_cpu. rewrite decide_True by done. case_decide; simpl; auto. }
    rewrite acquired_upd_cpu, upd_cpu_upd by apply _.
    rewrite (upd_cpu_at s j d _ (enqueue t)) by (done || unfold enqueue; simpl; by rewrite Hidle).
    eapply release_acquired; [by apply exec_upd_cpu; [apply _|]|]. by rewrite holder_upd_cpu by apply _.
  - erewrite bind_ok by done. rewrite (upd_cpu_at s j d _ (enqueue t)) by (done || unfold enqueue; simpl; by rewrite Hidle).
    eapply release_acquired; [by apply exec_upd_cpu; [apply _|]|]. by rewrite holder_upd_cpu by apply _.
Qed.
End Enqueue.

(** ** Wakeups *)

Section Wakeups.
Implicit Types (s : sched) (i me : nat) (t : Z) (l : lock).

Lemma holder_wc_threads s w v l : holder (upd_wchan w (set_wc_threads v) s) l = holder s l.
Proof. destruct l; cbn [holder]; try done. rewrite wchans_upd. case_decide; [|done]. by destruct (wchans s !! _). Qed.
Lemma upd_wchan_at s w y f g : wchans s !! w = Some y → f y = g y → upd_wchan w f s = upd_wchan w g s.
Proof.
  intros Hy E. apply sched_eq; try done. apply map_eq. intros w'. rewrite !wchans_upd. case_decide; [|done].
  subst. rewrite Hy. simpl. congruence.
Qed.
Lemma upd_wchan_upd s w f g : upd_wchan w f (upd_wchan w g s) = upd_wchan w (f ∘ g) s.
Proof. apply sched_eq; try done. apply map_eq. intros w'. rewrite !wchans_upd. case_decide; [|done]. by destruct (wchans s !! w'). Qed.

Section Channel.
Context s me c x w y (He : exec s me c x) (Hy : wchans s !! w = Some y) (Hl : wc_lock y = None).
Lemma wc_free : holder s (WcLock w) = Some None.
Proof. simpl. by rewrite Hy; simpl; rewrite Hl. Qed.
Lemma wc_acquired : wchans (acquired me (WcLock w) s) !! w = Some (set_wc_lock (Some me) y).
Proof. rewrite acquired_wchans. by apply wchan_upd. Qed.
Lemma wc_take v a : (write_wchan w (set_wc_threads v) ;; spinlock_release me (WcLock w) ;; ret a) (acquired me (WcLock w) s)
  = Ok (a : list Z) (upd_wchan w (set_wc_threads v) s).
Proof.
  erewrite bind_ok by (eapply write_wchan_ok, wc_acquired). rewrite acquired_set_wc_threads.
  erewrite bind_ok; [done|]. eapply release_acquired; [by destruct He|]. rewrite holder_wc_threads. apply wc_free.
Qed.
Lemma wakeone_take_ok : wakeone_take me w s =
  Ok (option_list (head (wc_threads y))) (upd_wchan w (set_wc_threads (tail (wc_threads y))) s).
Proof.
  unfold wakeone_take. erewrite bind_ok by (eapply acquire_ok; [done|apply wc_free]).
  erewrite bind_ok by (apply read_wchan_ok, wc_acquired). apply wc_take.
Qed.
Lemma wakeall_take_ok : wakeall_take me w s = Ok (wc_threads y) (upd_wchan w (set_wc_threads []) s).
Proof.
  unfold wakeall_take. erewrite bind_ok by (eapply acquire_ok; [done|apply wc_free]).
  erewrite bind_ok by (apply read_wchan_ok, wc_acquired). apply wc_take.
Qed.
End Channel.
End Wakeups.

(** ** Migration *)

(** A thread handed to processor [i]. *)
Definition give (i : nat) (t : Z) (s : sched) : sched := upd_cpu i (enqueue t) (upd_thread t (set_t_cpu (Some i)) s).
Definition give_all (i : nat) (ts : list Z) (s : sched) : sched := foldl (λ s t, give i t s) s ts.
(** What the loop of thread_consider_migration for one processor does: the threads it
    sends to a run queue of [k] threads, and what is left of to_send and of victims. *)
Fixpoint deal (cur share : Z) (n : nat) (victims : list Z) (k : Z) : list Z * nat * list Z :=
  match n, victims with
  | S n', t :: vs =>
      if k <? share then
        if t =? cur then deal cur share n' (vs ++ [t]) k
        else let '(sent, m, r) := deal cur share n' vs (k + 1) in (t :: sent, m, r)
      else ([], n, victims)
  | _, _ => ([], n, victims)
  end.

Section Migrate.
Implicit Types (s : sched) (i me : nat) (t : Z) (l : lock).

Lemma runq_free s i d : cpus s !! i = Some d → c_runqueue_lock d = None → holder s (RunqLock i) = Some None.
Proof. intros Hd Hl. simpl. by rewrite Hd; simpl; rewrite Hl. Qed.

Lemma count_queue_ok s me c x i d : exec s me c x → cpus s !! i = Some d → c_runqueue_lock d = None →
  count_queue me i s = Ok (lengthZ (c_runqueue d)) s.
Proof.
  intros He Hd Hl. unfold count_queue. erewrite bind_ok by (eapply acquire_ok; [done|by eapply runq_free]).
  erewrite bind_ok by (apply read_cpu_ok; by rewrite acquired_cpus, Hd). rewrite acq_runqueue.
  by erewrite bind_ok by (eapply release_acquired; [done|by eapply runq_free]).
Qed.

Lemma remtail_ok s me c q t : cpus s !! me = Some c → c_runqueue c = q ++ [t] →
  remtail_runqueue me s = Ok (Some t) (upd_cpu me (set_runqueue q) s).
Proof.
  intros Hc Hq. unfold remtail_runqueue. erewrite bind_ok by by apply read_cpu_ok.
  rewrite Hq, last_snoc, removelast_last. by erewrite bind_ok by by eapply write_cpu_ok.
Qed.
Lemma take_victims_ok n s me c q r vs : cpus s !! me = Some c → c_runqueue c = q ++ r → length r = n →
  take_victims me n vs s = Ok (r ++ vs) (upd_cpu me (set_runqueue q) s).
Proof.
  revert s c r vs. induction n as [|n IH]; intros s c r vs Hc Hq Hn; simpl.
  - destruct r; [|done]. rewrite app_nil_r in Hq. unfold ret. f_equal. symmetry. apply (upd_cpu_id _ _ c); [done|].
    destruct c; simpl in *; by subst.
  - destruct r as [|t r _] using rev_ind; [done|]. rewrite length_app in Hn. simpl in Hn.
    erewrite bind_ok by (eapply remtail_ok; [done|by rewrite Hq, app_assoc]). erewrite bind_ok by done.
    erewrite IH; [|by apply cpu_upd|done|lia]. by rewrite upd_cpu_upd, <- app_assoc.
Qed.
Lemma take_section_ok n s me c x q r : exec s me c x → c_runqueue_lock c = None → c_runqueue c = q ++ r → length r = n →
  take_section me n s = Ok r (upd_cpu me (set_runqueue q) s).
Proof.
  intros He Hl Hq Hn. destruct (He) as [Hc _ _ _]. unfold take_section.
  erewrite bind_ok by (eapply acquire_ok; [done|by eapply runq_free]).
  erewrite bind_ok; [|eapply take_victims_ok; [by rewrite acquired_cpus, Hc|by rewrite acq_runqueue|done]].
  rewrite app_nil_r, acquired_upd_cpu by apply _. erewrite bind_ok; [done|].
  eapply release_acquired; [by apply exec_upd_cpu; [apply _|]|]. rewrite holder_upd_cpu by apply _. by eapply runq_free.
Qed.
Lemma put_back_ok vs s me c x : exec s me c x → c_runqueue_lock c = None →
  put_back me vs s = Ok tt (upd_cpu me (λ c, set_runqueue (c_runqueue c ++ vs) c) s).
Proof.
  intros He Hl. destruct (He) as [Hc _ _ _]. unfold put_back. case_bool_decide as Hv.
  - subst. unfold ret. f_equal. symmetry. apply (upd_cpu_id _ _ c); [done|]. rewrite app_nil_r. by destruct c.
  - erewrite bind_ok by (eapply acquire_ok; [done|by eapply runq_free]).
    erewrite bind_ok by (apply read_cpu_ok; by rewrite acquired_cpus, Hc).
    erewrite bind_ok by (eapply write_cpu_ok; by rewrite acquired_cpus, Hc).
    rewrite acq_runqueue, acquired_upd_cpu by apply _.
    rewrite (upd_cpu_at s me c _ (λ c, set_runqueue (c_runqueue c ++ vs) c)) by done.
    eapply release_acquired; [apply exec_upd_cpu; [by split|done]|].
    erewrite holder_upd_cpu by by split. by eapply runq_free.
Qed.

Lemma give_cpu s i d t : cpus s !! i = Some d → cpus (give i t s) !! i = Some (enqueue t d).
Proof. intros Hd. unfold give. by apply cpu_upd. Qed.
Lemma enqueue_fields t d : c_runqueue_lock (enqueue t d) = c_runqueue_lock d ∧ c_ipi_lock (enqueue t d) = c_ipi_lock d ∧
  c_isidle (enqueue t d) = c_isidle d ∧ c_runqueue (enqueue t d) = c_runqueue d ++ [t].
Proof. unfold enqueue. by destruct (c_isidle d) eqn:E; simpl; rewrite ?E. Qed.
Lemma give_exec s i t me c x : exec s me c x → ∃ c' x', exec (give i t s) me c' x' ∧ c_curthread c' = c_curthread c.
Proof.
  intros He. do 2 eexists. split; [by apply exec_upd_cpu, exec_upd_thread; [apply _..|]|].
  case_decide; [by rewrite (q_cur (f := enqueue t))|done].
Qed.

(** One thread sent, inside the section of the other run queue. *)
Lemma send_one {A} s me i t c x d (k : M sched A) : exec s me c x → i ≠ me → cpus s !! i = Some d → (c_isidle d = true → c_ipi_lock d = None) →
  is_Some (threads s !! t) →
  (write_thread t (set_t_cpu (Some i)) ;; addtail_runqueue i t ;; (if c_isidle d then ipi_send me i IPI_UNIDLE else ret tt) ;; k)
    (acquired me (RunqLock i) s) = k (acquired me (RunqLock i) (give i t s)).
Proof.
  intros He Hne Hd Hl [y Hy].
  assert (∃ y', threads (acquired me (RunqLock i) s) !! t = Some y') as [y' Hy'].
  { rewrite acquired_threads, Hy. case_decide; eauto. }
  erewrite bind_ok by by eapply write_thread_ok. rewrite acquired_upd_thread by apply _.
  set (s1 := upd_thread t (set_t_cpu (Some i)) s).
  assert (exec s1 me c (if decide (t = c_curthread c) then set_t_cpu (Some i) x else x)) as He1 by by apply exec_upd_thread; [apply _|].
  assert (cpus s1 !! i = Some d) as Hd1 by done.
  erewrite bind_ok by (eapply addtail_ok; by rewrite acquired_cpus, Hd1).
  assert (Quiet (λ d, set_runqueue (c_runqueue d ++ [t]) d)) as Hq by done. rewrite (acquired_upd_cpu _ _ _ _ s1).
  unfold give. fold s1. destruct (c_isidle d) eqn:Hidle.
  - erewrite bind_ok; [|eapply ipi_send_ok; [apply exec_acquired; by apply exec_upd_cpu|by rewrite acquired_cpus; erewrite cpu_upd| |done]].
    + rewrite acquired_upd_cpu, upd_cpu_upd by apply _. do 2 f_equal. apply (upd_cpu_at _ _ d); [done|]. unfold enqueue; simpl. by rewrite Hidle.
    + unfold acq_cpu, hold_cpu. rewrite decide_True, decide_False by done. simpl. auto.
  - erewrite bind_ok by done. do 2 f_equal. apply (upd_cpu_at _ _ d); [done|]. unfold enqueue; simpl. by rewrite Hidle.
Qed.

Section Send.
Context (me i : nat) (share : Z) (Hne : i ≠ me).
Lemma send_loop_ok n vs s c x d sent m r : exec s me c x → cpus s !! i = Some d → (c_isidle d = true → c_ipi_lock d = None) →
  (∀ t, t ∈ vs → is_Some (threads s !! t)) → (n ≤ length vs)%nat →
  deal (c_curthread c) share n vs (lengthZ (c_runqueue d)) = (sent, m, r) →
  send_loop me i share n vs (acquired me (RunqLock i) s) = Ok (m, r) (acquired me (RunqLock i) (give_all i sent s)).
Proof.
  revert vs s c x d sent m r. induction n as [|n IH]; intros vs s c x d sent m r He Hd Hl Hvs Hn Hdeal; simpl in *.
  { by simplify_eq. }
  destruct vs as [|t vs]; [simpl in Hn; lia|].
  erewrite bind_ok by (apply read_cpu_ok; by rewrite acquired_cpus, Hd). rewrite acq_runqueue, acq_isidle.
  destruct (_ <? share); [|by simplify_eq].
  erewrite bind_ok by by eapply curthread_ok, ex_cpu, exec_acquired. rewrite acq_curthread.
  destruct (Z.eqb_spec t (c_curthread c)) as [->|Hcur].
  { eapply IH; try done; [|rewrite length_app; simpl in *; lia].
    intros t' Ht'. apply Hvs. rewrite elem_of_cons. apply elem_of_app in Ht' as [?|?%list_elem_of_singleton]; auto. }
  destruct (deal _ _ n vs _) as [[sent' m'] r'] eqn:Hd'. injection Hdeal as <- <- <-.
  erewrite send_one by (try done; apply Hvs, list_elem_of_here).
  destruct (give_exec s i t me c x He) as (c' & x' & He' & Hc').
  destruct (enqueue_fields t d) as (_ & Hil & Hid & Hq).
  change (give_all i (t :: sent') s) with (give_all i sent' (give i t s)).
  eapply IH; [done|by eapply give_cpu|by rewrite Hid, Hil| |simpl in *; lia|].
  - intros t' Ht'. destruct (Hvs t' (list_elem_of_further _ _ _ Ht')) as [y Hy]. unfold give. cbn [threads upd_cpu set_cpus].
    rewrite threads_upd, Hy. case_decide; simpl; eauto.
  - rewrite Hc', Hq, lengthZ_app. exact Hd'.
Qed.
Lemma send_to_ok n vs s c x d sent m r : exec s me c x → cpus s !! i = Some d → c_runqueue_lock d = None →
  (c_isidle d = true → c_ipi_lock d = None) →
  (∀ t, t ∈ vs → is_Some (threads s !! t)) → (n ≤ length vs)%nat →
  deal (c_curthread c) share n vs (lengthZ (c_runqueue d)) = (sent, m, r) →
  send_to me i share n vs s = Ok (m, r) (give_all i sent s).
Proof.
  intros He Hd Hr Hl Hvs Hn Hdeal. unfold send_to. erewrite bind_ok by (eapply acquire_ok; [done|by eapply runq_free]).
  erewrite bind_ok by by eapply send_loop_ok.
  assert (∃ c' x', exec (give_all i sent s) me c' x') as (c' & x' & He').
  { clear -He. revert s c x He. induction sent as [|t sent IH]; intros s c x He; [by eauto|].
    destruct (give_exec s i t me c x He) as (c' & x' & He' & _). by eapply IH. }
  assert (∃ d', cpus (give_all i sent s) !! i = Some d' ∧ c_runqueue_lock d' = None) as (d' & Hd' & Hr').
  { clear -Hd Hr. revert s d Hd Hr. induction sent as [|t sent IH]; intros s d Hd Hr; [by eauto|].
    eapply IH; [by eapply give_cpu|]. by rewrite (proj1 (enqueue_fields t d)). }
  by erewrite bind_ok by (eapply release_acquired; [done|by eapply runq_free]).
Qed.
End Send.
End Migrate.
