(* ===== verification/SchedSwitch.v ===== *)
(** * The context switch

    The effect of thread_switch, of leaving the idle loop, and of the interrupt level
    routines, as functions on the state.  A switch has two halves: the current thread
    is put where its new state says, and the processor takes the next thread of its run
    queue or waits for one. *)

From Stdlib Require Import String.
From stdpp Require Import list.
From S2P Require Import Prelude Sched SchedOps.
#[local] Open Scope kern_scope.

(** ** Interrupt levels *)

Definition is_spl (v : Z) : Prop := v = IPL_NONE ∨ v = IPL_HIGH.

(** splx: the level, and the count with it. *)
Definition at_spl (v : Z) (x : thread) : thread := set_curspl v (add_iplhigh (v - t_curspl x) x).
Definition spl_to (me : nat) (v : Z) (x : thread) (s : sched) : sched :=
  upd_cpu me (set_irq (t_iplhigh_count (at_spl v x) =? 0)) (upd_thread (cur_of me s) (at_spl v) s).

Section Spl.
Implicit Types (s : sched) (me : nat).

Lemma upd_thread_at s t y f g : threads s !! t = Some y → f y = g y → upd_thread t f s = upd_thread t g s.
Proof.
  intros Hy E. apply sched_eq; try done. apply map_eq. intros t'. rewrite !threads_upd. case_decide; [|done].
  subst. rewrite Hy. simpl. congruence.
Qed.
Lemma upd_thread_upd s t f g : upd_thread t f (upd_thread t g s) = upd_thread t (f ∘ g) s.
Proof. apply sched_eq; try done. apply map_eq. intros t'. rewrite !threads_upd. case_decide; [|done]. by destruct (threads s !! t'). Qed.
Lemma upd_thread_id s t y f : threads s !! t = Some y → f y = y → upd_thread t f s = s.
Proof.
  intros Hy E. rewrite (upd_thread_at _ _ y _ id) by done. apply sched_eq; try done.
  apply map_eq. intros t'. rewrite threads_upd. case_decide; [|done]. by destruct (threads s !! t').
Qed.

Lemma splx_ok s me c x v : exec s me c x → is_spl v → is_spl (t_curspl x) → t_curspl x ≤ t_iplhigh_count x →
  splx me v s = Ok (t_curspl x) (spl_to me v x s).
Proof.
  intros He Hv Hx H1. destruct (He) as [Hc Ht Hi H0]. unfold splx, spl_to.
  erewrite bind_ok by by apply curthread_ok. erewrite bind_ok by by apply read_thread_ok.
  rewrite (cur_of_at _ _ c Hc). unfold is_spl, IPL_NONE, IPL_HIGH in *.
  destruct Hv as [->| ->], Hx as [E|E]; rewrite E in *; cbv [Z.ltb Z.compare]; cbv iota.
  - unfold ret. f_equal. rewrite (upd_thread_id _ _ x) by (try done; destruct x; unfold at_spl, set_curspl, add_iplhigh; simpl in *; subst; f_equal; lia).
    symmetry. apply (upd_cpu_id _ _ c); [done|]. simpl. rewrite E, Z.sub_diag, Z.add_0_r, <- Hi. by destruct c.
  - erewrite bind_ok by by eapply write_thread_ok.
    erewrite bind_ok; [|eapply spllower_ok; [split; [done|by apply thread_upd|done..]|simpl; lia]].
    unfold ret. f_equal. simpl t_iplhigh_count. rewrite E, upd_thread_upd.
    replace (t_iplhigh_count x =? 1) with (t_iplhigh_count x + (0 - 1) =? 0) by lia.
    f_equal. apply (upd_thread_at _ _ x); [done|]. unfold at_spl. rewrite E. by destruct x.
  - erewrite bind_ok by by eapply splraise_ok. erewrite bind_ok by (eapply write_thread_ok; by apply thread_upd).
    unfold ret. f_equal. simpl t_iplhigh_count. rewrite E. change (upd_thread ?t ?f (upd_cpu ?i ?g ?s)) with (upd_cpu i g (upd_thread t f s)).
    rewrite upd_thread_upd. replace (t_iplhigh_count x + (1 - 0) =? 0) with false by lia.
    f_equal. apply (upd_thread_at _ _ x); [done|]. unfold at_spl. rewrite E. by destruct x.
  - unfold ret. f_equal. rewrite (upd_thread_id _ _ x) by (try done; destruct x; unfold at_spl, set_curspl, add_iplhigh; simpl in *; subst; f_equal; lia).
    symmetry. apply (upd_cpu_id _ _ c); [done|]. simpl. rewrite E, Z.sub_diag, Z.add_0_r, <- Hi. by destruct c.
Qed.
End Spl.

(** ** Burying the dead *)

Definition bury (zs : list Z) (m : gmap Z thread) : gmap Z thread := foldl (λ m z, delete z m) m zs.
Lemma bury_lookup zs m t : bury zs m !! t = (if decide (t ∈ zs) then None else m !! t).
Proof.
  revert m. induction zs as [|z zs IH]; intros m; [by case_decide as Hin; [apply not_elem_of_nil in Hin|]|].
  change (bury (z :: zs) m) with (bury zs (delete z m)). rewrite IH. destruct (decide (z = t)) as [<-|Hne].
  - rewrite (decide_True (P := z ∈ z :: zs)) by left. case_decide; [done|]. apply lookup_delete_eq.
  - rewrite lookup_delete_ne by done. destruct (decide (t ∈ zs)); [rewrite decide_True by by right|rewrite decide_False]; try done.
    by intros [->|?]%elem_of_cons.
Qed.

Section Exorcise.
Implicit Types (s : sched) (me : nat).
Lemma thread_destroy_ok s me c z y : cpus s !! me = Some c → z ≠ c_curthread c → threads s !! z = Some y →
  t_state y ≠ S_RUN → t_proc y = None →
  thread_destroy me z s = Ok tt (set_threads (delete z (threads s)) s).
Proof.
  intros Hc Hz Hy Hs Hp. unfold thread_destroy. erewrite bind_ok by by apply curthread_ok.
  erewrite bind_ok by (apply kassert_ok; lia). erewrite bind_ok by by apply read_thread_ok.
  rewrite bool_decide_false, bool_decide_true by done. by do 2 erewrite bind_ok by done.
Qed.
Lemma exorcise_loop_ok n s me c : cpus s !! me = Some c → length (c_zombies c) = n → NoDup (c_zombies c) →
  (∀ z, z ∈ c_zombies c → z ≠ c_curthread c ∧ ∃ y, threads s !! z = Some y ∧ t_state y = S_ZOMBIE ∧ t_proc y = None) →
  exorcise_loop me n s = Ok tt (upd_cpu me (set_zombies []) (set_threads (bury (c_zombies c) (threads s)) s)).
Proof.
  revert s c. induction n as [|n IH]; intros s c Hc Hn Hnd Hz; simpl; erewrite bind_ok by by apply read_cpu_ok.
  - destruct (c_zombies c) eqn:E; [|done]. unfold ret. f_equal. replace (set_threads _ _) with s by by destruct s.
    symmetry. apply (upd_cpu_id _ _ c); [done|]. destruct c; simpl in *; by subst.
  - destruct (c_zombies c) as [|z l] eqn:E; [done|]. destruct (Hz z) as (Hne & y & Hy & Hst & Hp); [by left|].
    apply NoDup_cons in Hnd as [Hnin Hnd].
    erewrite bind_ok by by eapply write_cpu_ok. erewrite bind_ok by by apply curthread_ok, cpu_upd.
    erewrite bind_ok by (apply kassert_ok; simpl; lia). erewrite bind_ok by by apply read_thread_ok.
    rewrite Hst, bool_decide_true by done. erewrite bind_ok by done.
    erewrite bind_ok by (eapply thread_destroy_ok; [by apply cpu_upd|done|done|by rewrite Hst|done]).
    erewrite IH; [|by apply cpu_upd|simpl; by injection Hn|done|].
    + f_equal. exact (upd_cpu_upd (set_threads (bury (z :: l) (threads s)) s) me (set_zombies []) (set_zombies l)).
    + intros z' Hz'. simpl in Hz'. destruct (Hz z') as (? & y' & ? & ?); [by right|]. split; [done|]. exists y'.
      simpl. rewrite lookup_delete_ne by by intros ->. done.
Qed.
End Exorcise.

(** ** The next thread *)

(** The interrupt level at which a thread that is switched to goes on. *)
Definition resume_spl (x : thread) : option Z :=
  match t_context x with NoContext => None | AtStartup => Some IPL_NONE | InSwitch spl => Some spl end.
Definition resumed (v : Z) (x : thread) : thread :=
  mkThread None S_RUN (t_stack x) (t_context x) (t_cpu x) (t_proc x) (t_in_interrupt x) v v (t_frames x).
Definition take_next (t : Z) (q : list Z) (v : Z) (c : cpu) : cpu :=
  set_zombies [] (set_irq (v =? 0) (set_curthread t (set_isidle false (set_runqueue q c)))).

(** The outcome of the second half of a switch, from a state without the lock. *)
Definition next_state (me : nat) (c : cpu) (s : sched) : sched :=
  match c_runqueue c with
  | [] => upd_cpu me (set_waiting true) (upd_thread (c_curthread c) (add_iplhigh (-1)) s)
  | t :: q =>
      let v := default 0 (threads s !! t ≫= resume_spl) in
      upd_cpu me (take_next t q v) (set_threads (bury (c_zombies c) (alter (resumed v) t (threads s))) s)
  end.

(** A thread that can be switched to: at the switch, the interrupt level and the run
    queue's lock count. *)
Definition parked (y : thread) : Prop :=
  t_iplhigh_count y = 2 ∧ t_curspl y = IPL_HIGH ∧ ∃ v, resume_spl y = Some v ∧ is_spl v.

Lemma remhead_nil s i c : cpus s !! i = Some c → c_runqueue c = [] → remhead_runqueue i s = Ok None s.
Proof. intros Hc Hq. unfold remhead_runqueue. erewrite bind_ok by by apply read_cpu_ok. by rewrite Hq. Qed.
Lemma remhead_cons s i c t q : cpus s !! i = Some c → c_runqueue c = t :: q →
  remhead_runqueue i s = Ok (Some t) (upd_cpu i (set_runqueue q) s).
Proof.
  intros Hc Hq. unfold remhead_runqueue. erewrite bind_ok by by apply read_cpu_ok. rewrite Hq.
  by erewrite bind_ok by by eapply write_cpu_ok.
Qed.

Section Next.
Context (me : nat) (s : sched) (c : cpu) (x : thread).
Context (Hc : cpus s !! me = Some c) (Hl : c_runqueue_lock c = None) (Hirq : c_irq c = false).
Context (Hx : threads s !! c_curthread c = Some x) (Hcount : t_iplhigh_count x = 2).
Let s0 : sched := hold (RunqLock me) (Some me) s.
Let Hc0 : cpus s0 !! me = Some (set_runqueue_lock (Some me) c).
Proof. by apply cpu_upd. Qed.

Lemma switch_next_idle : c_runqueue c = [] → switch_next me s0 = Ok tt (next_state me c s).
Proof.
  intros Hq. unfold switch_next, next_state. rewrite Hq.
  erewrite bind_ok by by apply (remhead_nil _ _ _ Hc0). cbv beta iota.
  erewrite bind_ok.
  2: { eapply release_ok; [split; [done|done|simpl; rewrite Hirq, Hcount; done|lia]| |lia]. eapply (holder_hold s). simpl. by rewrite Hc. }
  erewrite write_cpu_ok by (apply cpu_upd; simpl; rewrite !list_lookup_alter_eq, Hc; done).
  f_equal. simpl c_curthread. apply sched_eq; try done. apply list_eq. intros j.
  cbn [hold s0]. rewrite !cpus_upd. cbn [cpus upd_thread set_threads]. rewrite !cpus_upd. case_decide; [subst|done].
  rewrite Hc. simpl. f_equal. rewrite Hcount. destruct c; simpl in *; by subst.
Qed.

Context (t : Z) (q : list Z) (y : thread) (v : Z) (Hq : c_runqueue c = t :: q) (Hy : threads s !! t = Some y).
Context (Hn : t_iplhigh_count y = 2) (Hs : t_curspl y = IPL_HIGH) (Hv : resume_spl y = Some v) (Hspl : is_spl v).
Context (Hnd : NoDup (c_zombies c)).
Context (Hz : ∀ z, z ∈ c_zombies c → z ≠ t ∧ ∃ y, threads s !! z = Some y ∧ t_state y = S_ZOMBIE ∧ t_proc y = None).

(** Behind the context switch, with the lock; and without it. *)
Let s1 : sched := upd_cpu me (λ c, set_curthread t (set_isidle false (set_runqueue q c))) (upd_thread t (λ y, add_iplhigh (-1) (set_state S_RUN (set_wchan_name None y))) s).

Lemma switch_return_start : (write_thread t (set_wchan_name None) ;; write_thread t (set_state S_RUN) ;; spinlock_release me (RunqLock me))
  (upd_cpu me (set_curthread t) (upd_cpu me (set_isidle false) (upd_cpu me (set_runqueue q) s0))) = Ok tt s1.
Proof.
  erewrite bind_ok by by eapply write_thread_ok. erewrite bind_ok by (eapply write_thread_ok; by apply thread_upd).
  unfold s0. cbn [hold]. rewrite !upd_cpu_upd, upd_thread_upd.
  change (upd_thread ?t ?f (upd_cpu ?i ?g ?s)) with (upd_cpu i g (upd_thread t f s)).
  erewrite release_ok; cycle 1.
  - split; [by apply cpu_upd|by apply thread_upd|simpl; rewrite Hirq, Hn; done|simpl; lia].
  - cbn [holder]. by erewrite cpu_upd by done.
  - simpl. lia.
  - f_equal. simpl c_curthread. cbn [hold]. simpl t_iplhigh_count. rewrite Hn.
    change (upd_thread ?t ?f (upd_cpu ?i ?g ?s)) with (upd_cpu i g (upd_thread t f s)). rewrite !upd_cpu_upd.
    change (upd_thread ?t ?f (upd_cpu ?i ?g ?s)) with (upd_cpu i g (upd_thread t f s)). rewrite !upd_thread_upd, upd_cpu_upd.
    unfold s1. apply (upd_cpu_at _ _ c); [done|]. simpl. destruct c; simpl in *; by subst.
Qed.

Let s2 : sched := upd_cpu me (set_zombies []) (set_threads (bury (c_zombies c) (threads s1)) s1).
Lemma switch_exorcise : exorcise me s1 = Ok tt s2.
Proof.
  unfold exorcise. assert (cpus s1 !! me = Some (set_curthread t (set_isidle false (set_runqueue q c)))) as Hc1 by (unfold s1; by erewrite cpu_upd).
  erewrite bind_ok by by apply read_cpu_ok. simpl c_zombies.
  apply (exorcise_loop_ok _ _ _ _ Hc1); [done|done|]. simpl c_zombies. simpl c_curthread.
  intros z Hin. destruct (Hz z Hin) as (Hne & y' & Hy' & ?). split; [done|]. exists y'.
  split; [|done]. unfold s1. cbn [threads upd_cpu set_cpus]. by rewrite threads_upd, decide_False.
Qed.
Lemma switch_splx : splx me v s2 = Ok IPL_HIGH (next_state me c s).
Proof.
  assert (t ∉ c_zombies c) as Htz by (intros Hin; by destruct (Hz t Hin)).
  set (y2 := add_iplhigh (-1) (set_state S_RUN (set_wchan_name None y))).
  assert (cpus s2 !! me = Some (set_zombies [] (set_curthread t (set_isidle false (set_runqueue q c))))) as Hc2.
  { unfold s2. erewrite cpu_upd; [done|]. cbn [cpus set_threads]. unfold s1. by erewrite cpu_upd. }
  assert (threads s2 !! t = Some y2) as Hy2.
  { unfold s2. cbn [threads upd_cpu set_cpus set_threads]. rewrite bury_lookup, decide_False by done.
    unfold s1. cbn [threads upd_cpu set_cpus]. by erewrite thread_upd. }
  erewrite splx_ok; [|split; [done|exact Hy2|simpl; by rewrite Hirq, Hn|simpl; lia]|done|simpl; rewrite Hs; by right|simpl; rewrite Hs, Hn; done].
  simpl t_curspl. rewrite Hs. f_equal. unfold spl_to. rewrite (cur_of_at _ _ _ Hc2). simpl c_curthread. simpl t_iplhigh_count. rewrite Hn, Hs.
  unfold next_state. rewrite Hq, Hy. simpl mbind. rewrite Hv. simpl default. unfold IPL_HIGH.
  replace (2 + -1 + (v - 1)) with v by lia. apply sched_eq; try done.
  - apply list_eq. intros j. rewrite !cpus_upd. case_decide; [subst|].
    + cbn [cpus set_threads upd_thread]. rewrite Hc2, Hc. done.
    + unfold s2, s1. by repeat (cbn [cpus set_threads upd_thread]; rewrite ?cpus_upd, ?decide_False by done).
  - apply map_eq. intros t'. cbn [threads upd_cpu set_cpus set_threads]. rewrite threads_upd, bury_lookup. unfold s2.
    cbn [threads upd_cpu set_cpus set_threads]. rewrite bury_lookup. case_decide as Ht'; [subst|].
    + rewrite !decide_False by done. rewrite lookup_alter_eq, Hy. unfold s1. cbn [threads upd_cpu set_cpus].
      erewrite thread_upd by done. simpl. f_equal. unfold at_spl, resumed, set_curspl, add_iplhigh. simpl.
      rewrite Hs, Hn. f_equal. unfold IPL_HIGH. lia.
    + case_decide; [done|]. rewrite lookup_alter_ne by done. unfold s1. cbn [threads upd_cpu set_cpus]. by rewrite threads_upd, decide_False.
Qed.

Lemma switch_next_some : switch_next me s0 = Ok tt (next_state me c s).
Proof.
  unfold switch_next. erewrite bind_ok by by apply (remhead_cons _ _ _ t q Hc0). cbv beta iota.
  erewrite bind_ok by (eapply write_cpu_ok; by apply cpu_upd).
  erewrite bind_ok by (eapply write_cpu_ok; apply cpu_upd; by apply cpu_upd).
  unfold switch_return. erewrite bind_ok by (apply curthread_ok, cpu_upd, cpu_upd, cpu_upd; exact Hc0). simpl c_curthread.
  erewrite bind_ok by by apply read_thread_ok.
  pose proof switch_return_start as H. unfold bind in H |- *.
  destruct (write_thread t (set_wchan_name None) _) as [? sa| | |]; try done.
  destruct (write_thread t (set_state S_RUN) sa) as [? sb| | |]; try done. rewrite H.
  rewrite switch_exorcise. pose proof switch_splx as Hx'. pose proof Hv as Hv'. unfold resume_spl in Hv'.
  destruct (t_context y); [done|..]; injection Hv' as Hv'; unfold spl0; rewrite ?Hv'; by rewrite Hx'.
Qed.
End Next.

(** What the second half of a switch needs: the first thread of the run queue can be
    switched to, and the zombies can be buried. *)
Record switchable (s : sched) (c : cpu) : Prop := {
  sw_next : ∀ t q, c_runqueue c = t :: q → (t ∉ c_zombies c) ∧ ∃ y, threads s !! t = Some y ∧ parked y;
  sw_nodup : NoDup (c_zombies c);
  sw_zombies : ∀ z, z ∈ c_zombies c → ∃ y, threads s !! z = Some y ∧ t_state y = S_ZOMBIE ∧ t_proc y = None
}.
Lemma switch_next_ok me s c x : cpus s !! me = Some c → c_runqueue_lock c = None → c_irq c = false →
  threads s !! c_curthread c = Some x → t_iplhigh_count x = 2 → switchable s c →
  switch_next me (hold (RunqLock me) (Some me) s) = Ok tt (next_state me c s).
Proof.
  intros Hc Hl Hi Hx Hn [Hnext Hnd Hz]. destruct (c_runqueue c) as [|t q] eqn:Hq; [by eapply switch_next_idle|].
  destruct (Hnext t q eq_refl) as (Htz & y & Hy & Hyn & Hys & v & Hv & Hspl).
  eapply switch_next_some; try done. intros z Hin. split; [by intros ->|auto].
Qed.
Lemma unidle_ok me s c x : exec s me c x → c_runqueue_lock c = None → t_iplhigh_count x = 1 →
  switchable (upd_thread (c_curthread c) (add_iplhigh 1) s) c →
  unidle me s = Ok tt (next_state me c (upd_thread (c_curthread c) (add_iplhigh 1) s)).
Proof.
  intros He Hl Hn Hsw. destruct (He) as [Hc Hx Hi H0]. unfold unidle.
  erewrite bind_ok by (eapply acquire_ok; [done|by eapply runq_free]).
  unfold acquired. rewrite (cur_of_at _ _ c Hc), (upd_cpu_id _ _ c) by (try done; rewrite Hn in Hi; destruct c; simpl in *; by subst).
  eapply switch_next_ok; try done; [by rewrite Hi, Hn|by apply thread_upd|simpl; lia].
Qed.

(** ** Leaving the processor *)

Definition park (spl : Z) (st : threadstate_t) (name : option String.string) (x : thread) : thread :=
  mkThread name st (t_stack x) (InSwitch spl) (t_cpu x) (t_proc x) (t_in_interrupt x) IPL_HIGH 2 (t_frames x).
(** The outcome of the first half of a switch to [st], without the lock: the current
    thread in its new place, the processor idle. *)
Definition leave_cpu (st : threadstate_t) (t : Z) (c : cpu) : cpu :=
  set_isidle true (set_irq false
    match st with
    | S_READY => set_runqueue (c_runqueue c ++ [t]) c
    | S_ZOMBIE => set_zombies (c_zombies c ++ [t]) c
    | _ => c
    end).
Definition leave_name (st : threadstate_t) (x : thread) (name : String.string) : option String.string :=
  match st with S_SLEEP => Some name | S_ZOMBIE => Some "ZOMBIE"%string | _ => t_wchan_name x end.
Definition leave (me : nat) (st : threadstate_t) (c : cpu) (x : thread) (name : String.string) (s : sched) : sched :=
  upd_cpu me (leave_cpu st (c_curthread c)) (upd_thread (c_curthread c) (park (t_curspl x) st (leave_name st x name)) s).
Definition leave_wchan (t : Z) (y : wchan) : wchan := mkWchan (wc_name y) (wc_threads y ++ [t]) None.

Section Leave.
Context (me : nat) (s : sched) (c : cpu) (x : thread) (He : exec s me c x).
Context (Hl : c_runqueue_lock c = None) (Hs : is_spl (t_curspl x)) (Hge : t_curspl x ≤ t_iplhigh_count x).
Context (Hstack : t_stack x = None ∨ t_stack x = Some guard_band) (Hcpu : t_cpu x = Some me).
Let cur := c_curthread c.
Let Hc := ex_cpu _ _ _ _ He.
Let Hx := ex_thread _ _ _ _ He.

(** The state behind spinlock_acquire in thread_switch. *)
Let s1 : sched := upd_cpu me (λ c, set_runqueue_lock (Some me) (set_irq false c)) (upd_thread cur (λ x, add_iplhigh 1 (at_spl IPL_HIGH x)) s).
Let x1 : thread := add_iplhigh 1 (at_spl IPL_HIGH x).
Let c1 : cpu := set_runqueue_lock (Some me) (set_irq false c).
Let Hc1 : cpus s1 !! me = Some c1.
Proof. exact (cpu_upd _ _ _ _ Hc). Qed.
Let Hx1 : threads s1 !! cur = Some x1.
Proof. exact (thread_upd _ _ _ _ Hx). Qed.

Lemma spl_to_exec v : is_spl v → exec (spl_to me v x s) me (set_irq (t_iplhigh_count (at_spl v x) =? 0) c) (at_spl v x).
Proof.
  intros Hv. unfold spl_to. rewrite (cur_of_at _ _ c Hc). split; [by apply cpu_upd|by apply thread_upd|done|].
  simpl. destruct He, Hv as [->| ->], Hs as [E|E]; unfold IPL_NONE, IPL_HIGH in *; lia.
Qed.
Lemma switch_locked : acquired me (RunqLock me) (spl_to me IPL_HIGH x s) = s1.
Proof.
  destruct (spl_to_exec IPL_HIGH (or_intror eq_refl)) as [Hc2 _ _ _].
  unfold acquired. rewrite (cur_of_at _ _ _ Hc2). simpl c_curthread. unfold spl_to. rewrite (cur_of_at _ _ c Hc).
  change (upd_thread ?t ?f (upd_cpu ?i ?g ?s)) with (upd_cpu i g (upd_thread t f s)). cbn [hold]. by rewrite !upd_cpu_upd, upd_thread_upd.
Qed.
Lemma checkstack_ok s' x' : threads s' !! cur = Some x' → t_stack x' = t_stack x → thread_checkstack cur s' = Ok tt s'.
Proof.
  intros H E. unfold thread_checkstack. erewrite bind_ok by by apply read_thread_ok. rewrite E.
  destruct Hstack as [->| ->]; [done|]. by rewrite bool_decide_true.
Qed.

Lemma spl_to_back v : spl_to me (t_curspl x) (at_spl v x) (spl_to me v x s) = s.
Proof.
  unfold spl_to at 1. assert (cur_of me (spl_to me v x s) = cur) as ->.
  { unfold spl_to, cur_of. rewrite cpus_upd, decide_True by done. cbn [cpus upd_thread set_threads]. by rewrite Hc. }
  unfold spl_to. rewrite (cur_of_at _ _ c Hc).
  change (upd_thread ?t ?f (upd_cpu ?i ?g ?s)) with (upd_cpu i g (upd_thread t f s)). rewrite upd_cpu_upd, upd_thread_upd.
  rewrite (upd_thread_id _ _ x) by (try done; destruct x; unfold at_spl, set_curspl, add_iplhigh; simpl; f_equal; lia).
  apply (upd_cpu_id _ _ c); [done|]. simpl.
  replace (t_iplhigh_count x + (v - t_curspl x) + (t_curspl x - v)) with (t_iplhigh_count x) by lia.
  rewrite <- (ex_irq _ _ _ _ He). by destruct c.
Qed.

(** An idle processor, and one with nothing else to run, go on as they are. *)
Lemma switch_stays st wc : c_isidle c = true ∨ (c_isidle c = false ∧ st = S_READY ∧ c_runqueue c = []) →
  thread_switch me st wc s = Ok tt s.
Proof.
  intros Hcase. unfold thread_switch, splhigh. erewrite bind_ok by (apply (splx_ok _ _ c); [done|by right|done|done]).
  destruct (spl_to_exec IPL_HIGH (or_intror eq_refl)) as [Hc2 Hx2 Hi2 H2]. set (sp := spl_to me IPL_HIGH x s) in *.
  erewrite bind_ok by by apply curthread_ok. erewrite bind_ok by by apply read_cpu_ok. cbn [c_isidle c_curthread set_irq].
  assert (splx me (t_curspl x) sp = Ok IPL_HIGH s) as Hback.
  { erewrite splx_ok; [unfold sp; by rewrite spl_to_back|by split|done|by right|]. simpl. destruct Hs as [E|E]; rewrite E in *; unfold IPL_HIGH, IPL_NONE in *; lia. }
  destruct Hcase as [->|(-> & -> & Hq)].
  { by erewrite bind_ok by done. }
  erewrite bind_ok by by eapply checkstack_ok.
  assert (holder sp (RunqLock me) = Some None) as Hh by (eapply runq_free; [done|exact Hl]).
  erewrite bind_ok by (eapply acquire_ok; [by split|done]).
  erewrite bind_ok by (apply read_cpu_ok; by rewrite acquired_cpus, Hc2). cbv beta. rewrite acq_runqueue. cbn [c_runqueue set_irq].
  rewrite Hq. cbn [bool_decide andb]. rewrite !bool_decide_true by done. cbn [andb].
  erewrite bind_ok by (eapply release_acquired; [by split|done]). by erewrite bind_ok by done.
Qed.

(** thread_switch up to the point where the thread is put in its place. *)
Lemma switch_prefix st wc : c_isidle c = false → ¬ (st = S_READY ∧ c_runqueue c = []) →
  thread_switch me st wc s = (switch_place me st wc cur ;; write_thread cur (set_state st) ;;
    write_thread cur (set_context (InSwitch (t_curspl x))) ;; write_cpu me (set_isidle true) ;; switch_next me) s1.
Proof.
  intros Hidle Hcase. unfold thread_switch, splhigh. erewrite bind_ok by (apply (splx_ok _ _ c); [done|by right|done|done]).
  destruct (spl_to_exec IPL_HIGH (or_intror eq_refl)) as [Hc2 Hx2 Hi2 H2].
  erewrite bind_ok by by apply curthread_ok. erewrite bind_ok by by apply read_cpu_ok. cbn [c_isidle c_curthread set_irq].
  rewrite Hidle. erewrite bind_ok by by eapply checkstack_ok.
  erewrite bind_ok by (eapply acquire_ok; [by split|eapply runq_free; [done|exact Hl]]). rewrite switch_locked.
  erewrite bind_ok; [|apply read_cpu_ok; unfold s1; by erewrite cpu_upd]. cbn [c_runqueue set_irq set_runqueue_lock].
  destruct (bool_decide (st = S_READY) && bool_decide (c_runqueue c = [])) eqn:E; [|done].
  apply andb_true_iff in E as [E1%bool_decide_eq_true E2%bool_decide_eq_true]. by destruct Hcase.
Qed.
(** thread_switch from that point on. *)
Lemma switch_suffix st name F G s' : cpus s' !! me = Some c → threads s' !! cur = Some x →
  set_isidle true (F c) = set_runqueue_lock (Some me) (leave_cpu st cur c) →
  set_context (InSwitch (t_curspl x)) (set_state st (G x)) = park (t_curspl x) st (leave_name st x name) x →
  switchable (leave me st c x name s') (leave_cpu st cur c) →
  (write_thread cur (set_state st) ;; write_thread cur (set_context (InSwitch (t_curspl x))) ;;
   write_cpu me (set_isidle true) ;; switch_next me) (upd_cpu me F (upd_thread cur G s')) =
  Ok tt (next_state me (leave_cpu st cur c) (leave me st c x name s')).
Proof.
  intros Hc' Hx' HF HG Hsw. erewrite bind_ok by (eapply write_thread_ok; by apply thread_upd).
  change (upd_thread ?t ?f (upd_cpu ?i ?g ?s)) with (upd_cpu i g (upd_thread t f s)). rewrite upd_thread_upd.
  erewrite bind_ok by (eapply write_thread_ok; by apply thread_upd).
  change (upd_thread ?t ?f (upd_cpu ?i ?g ?s)) with (upd_cpu i g (upd_thread t f s)). rewrite upd_thread_upd.
  erewrite bind_ok by (eapply write_cpu_ok; by apply cpu_upd). rewrite upd_cpu_upd.
  rewrite (upd_thread_at _ _ x _ (park (t_curspl x) st (leave_name st x name))) by done.
  rewrite (upd_cpu_at _ _ c _ (set_runqueue_lock (Some me) ∘ leave_cpu st cur)) by done.
  rewrite <- upd_cpu_upd. change (upd_cpu me (set_runqueue_lock (Some me)) ?s) with (hold (RunqLock me) (Some me) s).
  eapply switch_next_ok; [by apply cpu_upd|..|done].
  - by destruct st.
  - by destruct st.
  - replace (c_curthread _) with cur by by destruct st. by apply thread_upd.
  - done.
Qed.

Lemma switch_ready wc name : c_isidle c = false → c_runqueue c ≠ [] → t_iplhigh_count x = t_curspl x →
  switchable (leave me S_READY c x name s) (leave_cpu S_READY cur c) →
  thread_switch me S_READY wc s = Ok tt (next_state me (leave_cpu S_READY cur c) (leave me S_READY c x name s)).
Proof.
  intros Hidle Hq Hn Hsw. rewrite switch_prefix by (done || by intros [_ ?]).
  assert (switch_place me S_READY wc cur s1 = Ok tt (upd_cpu me (λ c, set_runqueue (c_runqueue c ++ [cur]) (set_runqueue_lock (Some me) (set_irq false c))) (upd_thread cur (λ x, add_iplhigh 1 (at_spl IPL_HIGH x)) s))) as Hp.
  { unfold switch_place, thread_make_runnable. erewrite bind_ok by by apply read_thread_ok.
    simpl t_cpu. rewrite Hcpu. erewrite bind_ok by done. cbv iota.
    assert (holder s1 (RunqLock me) = Some (Some me)) as Hh by (cbn [holder]; by rewrite Hc1).
    rewrite (bind_ok _ _ _ tt s1).
    2: { erewrite bind_ok by by apply do_i_hold_ok. by rewrite bool_decide_true. }
    erewrite bind_ok by by apply read_cpu_ok. erewrite bind_ok by by eapply addtail_ok.
    simpl c_isidle. rewrite Hidle. unfold s1. by rewrite upd_cpu_upd. }
  erewrite bind_ok by done. eapply switch_suffix; try done.
  unfold park, at_spl, set_context, set_state, add_iplhigh, set_curspl. simpl. f_equal. rewrite Hn. unfold IPL_HIGH. lia.
Qed.
Lemma switch_zombie wc name : c_isidle c = false → t_iplhigh_count x = t_curspl x →
  switchable (leave me S_ZOMBIE c x name s) (leave_cpu S_ZOMBIE cur c) →
  thread_switch me S_ZOMBIE wc s = Ok tt (next_state me (leave_cpu S_ZOMBIE cur c) (leave me S_ZOMBIE c x name s)).
Proof.
  intros Hidle Hn Hsw. rewrite switch_prefix by (done || by intros [? _]).
  assert (switch_place me S_ZOMBIE wc cur s1 = Ok tt (upd_cpu me (λ c, set_zombies (c_zombies c ++ [cur]) (set_runqueue_lock (Some me) (set_irq false c)))
    (upd_thread cur (λ x, set_wchan_name (Some "ZOMBIE"%string) (add_iplhigh 1 (at_spl IPL_HIGH x))) s))) as Hp.
  { unfold switch_place. erewrite bind_ok by by eapply write_thread_ok.
    erewrite bind_ok by by apply read_cpu_ok. erewrite write_cpu_ok by done. f_equal. unfold s1.
    change (upd_thread ?t ?f (upd_cpu ?i ?g ?s)) with (upd_cpu i g (upd_thread t f s)). rewrite upd_cpu_upd, upd_thread_upd.
    by apply (upd_cpu_at _ _ c). }
  erewrite bind_ok by done. eapply switch_suffix; try done.
  unfold park, at_spl, set_context, set_state, add_iplhigh, set_curspl. simpl. f_equal. rewrite Hn. unfold IPL_HIGH. lia.
Qed.
Lemma switch_sleep w y : c_isidle c = false → wchans s !! w = Some y → wc_lock y = Some me → t_iplhigh_count x = t_curspl x + 1 →
  let s' := upd_wchan w (leave_wchan cur) s in
  switchable (leave me S_SLEEP c x (wc_name y) s') (leave_cpu S_SLEEP cur c) →
  thread_switch me S_SLEEP (Some w) s = Ok tt (next_state me (leave_cpu S_SLEEP cur c) (leave me S_SLEEP c x (wc_name y) s')).
Proof.
  intros Hidle Hy Hw Hn s' Hsw. rewrite switch_prefix by (done || by intros [? _]).
  assert (switch_place me S_SLEEP (Some w) cur s1 = Ok tt (upd_cpu me (λ c, set_runqueue_lock (Some me) (set_irq false c))
    (upd_thread cur (λ x, add_iplhigh (-1) (set_wchan_name (Some (wc_name y)) (add_iplhigh 1 (at_spl IPL_HIGH x)))) s'))) as Hp.
  { unfold switch_place. erewrite bind_ok by done. erewrite bind_ok by by apply read_wchan_ok.
    erewrite bind_ok by by eapply write_thread_ok.
    erewrite bind_ok by (by eapply write_wchan_ok). unfold wchan_unlock.
    assert (c_irq c1 = (t_iplhigh_count (set_wchan_name (Some (wc_name y)) x1) =? 0)) as Hi1.
    { simpl. rewrite Hn. symmetry. apply Z.eqb_neq. destruct Hs as [E|E]; rewrite E; done. }
    erewrite release_ok; [|split; [exact Hc1|exact (thread_upd _ _ _ _ Hx1)|exact Hi1|simpl; rewrite Hn; unfold IPL_HIGH; lia]
      |cbn [holder]; erewrite wchan_upd by done; simpl; by rewrite Hw|simpl; rewrite Hn; unfold IPL_HIGH; lia].
    f_equal. simpl t_iplhigh_count. rewrite Hn. replace (_ =? 1) with false by (unfold IPL_HIGH; lia).
    transitivity (upd_cpu me (set_irq false) (upd_cpu me (λ c, set_runqueue_lock (Some me) (set_irq false c))
      (upd_thread cur (add_iplhigh (-1)) (upd_thread cur (set_wchan_name (Some (wc_name y))) (upd_thread cur (λ x, add_iplhigh 1 (at_spl IPL_HIGH x))
        (upd_wchan w (set_wc_lock None) (upd_wchan w (set_wc_threads (wc_threads y ++ [cur])) s))))))); [done|].
    rewrite upd_cpu_upd, !upd_thread_upd, upd_wchan_upd. by rewrite (upd_wchan_at _ _ y _ (leave_wchan cur)). }
  erewrite bind_ok by done. eapply switch_suffix; try done.
  unfold park, at_spl, set_context, set_state, add_iplhigh, set_curspl. simpl. f_equal. rewrite Hn. unfold IPL_HIGH. lia.
Qed.
End Leave.
