(* ===== verification/SchedInv.v ===== *)
(** * The thread system as a machine

    The processors run concurrently; one step is a section of code that holds a run
    queue's or an interrupt lock, or does not touch anything shared.  Between its steps
    a processor can be in the middle of a routine of several sections ([todo]), with
    threads in its hands that are on no list.  [held] are the spinlocks it holds.

    The code that uses the thread system is any code that keeps to its rules, which are
    the guards of the operations: sleep and exit outside of interrupt handlers, without
    spinlocks other than the channel's; lower the interrupt level only outside of
    handlers; destroy only empty channels that are not locked.  A processor that would
    spin makes no step. *)

From Stdlib Require Import String.
From stdpp Require Import list functions.
From S2P Require Import Prelude Sched SchedOps SchedSwitch.
#[local] Open Scope kern_scope.

(** ** Machines *)

(** The rest of the routine a processor is in: wakeups, the stages of
    thread_consider_migration in hardclock, mainbus_interrupt behind
    interprocessor_interrupt. *)
Inductive todo_t :=
  | Nothing
  | Waking (ts : list Z)
  | Counting (i : nat) (my_count total_count : Z)
  | Taking (one_share : Z) (to_send : nat)
  | Sending (i : nat) (one_share : Z) (to_send : nat) (victims : list Z)
  | Putting (victims : list Z)
  | Yielding
  | Clearing.

(** [saved]: the threads a thread had still to wake when it was interrupted. *)
Record machine := mkMachine { st : sched; held : nat → list lock; todo : nat → todo_t; saved : Z → list Z }.

Definition set_st (s : sched) (m : machine) : machine := mkMachine s (held m) (todo m) (saved m).
Definition set_held (i : nat) (l : list lock) (m : machine) : machine := mkMachine (st m) (<[i := l]> (held m)) (todo m) (saved m).
Definition set_todo (i : nat) (d : todo_t) (m : machine) : machine := mkMachine (st m) (held m) (<[i := d]> (todo m)) (saved m).
Definition set_saved (t : Z) (l : list Z) (m : machine) : machine := mkMachine (st m) (held m) (todo m) (<[t := l]> (saved m)).

#[local] Abbreviation MM := (M machine).
Definition on_st {A} (k : M sched A) : MM A := lift st set_st k.

(** What the code on a processor can do. *)
Inductive op :=
  | Acquire (l : lock) | Release (l : lock) | Splx (spl : Z)
  | Fork (proc : option Z) | Yield | Detach | Exit
  | Create (name : string) | Destroy (w : Z) | Sleep (w : Z) | Wakeone (w : Z) | Wakeall (w : Z)
  | Interrupt | Return | Clock | Ipi | Send (target : nat) (code : Z)
  | Unidle | Continue.

Definition to_wake (ts : list Z) : todo_t := match ts with [] => Nothing | _ => Waking ts end.

(** The next section of a routine that is under way. *)
Definition continue (i : nat) : MM unit :=
  m <- get ;;
  let numcpus := length (cpus (st m)) in
  match todo m i with
  | Nothing => undef
  | Waking [] => modify (set_todo i Nothing)
  | Waking (t :: ts) => on_st (thread_make_runnable i t false) ;; modify (set_todo i (Waking ts))
  | Counting j my total =>
      if decide (j < numcpus)%nat then
        k <- on_st (count_queue i j) ;;
        modify (set_todo i (Counting (S j) (if decide (j = i) then k else my) (total + k)))
      else
        let one_share := DIVROUNDUP total (Z.of_nat numcpus) in
        modify (set_todo i (if my <? one_share then Yielding else Taking one_share (Z.to_nat (my - one_share))))
  | Taking one_share n =>
      victims <- on_st (take_section i n) ;;
      modify (set_todo i (Sending 0 one_share n victims))
  | Sending j one_share n victims =>
      if decide (j < numcpus ∧ n ≠ 0)%nat then
        if decide (j = i) then modify (set_todo i (Sending (S j) one_share n victims))
        else
          r <- on_st (send_to i j one_share n victims) ;;
          modify (set_todo i (Sending (S j) one_share (fst r) (snd r)))
      else modify (set_todo i (Putting victims))
  | Putting victims => on_st (put_back i victims) ;; modify (set_todo i Yielding)
  | Yielding => modify (set_todo i Nothing) ;; on_st (thread_yield i)
  | Clearing => on_st (lamebus_clear_ipi i) ;; modify (set_todo i Nothing)
  end.

Definition perform (i : nat) (o : op) : MM unit :=
  m <- get ;;
  match o with
  | Acquire l => on_st (spinlock_acquire i l) ;; modify (set_held i (l :: held m i))
  | Release l => on_st (spinlock_release i l) ;; modify (set_held i (filter (.≠ l) (held m i)))
  | Splx spl => on_st (splx i spl) ;; ret tt
  | Fork proc => attempt (on_st (thread_fork i proc)) ;; ret tt
  | Yield => on_st (thread_yield i)
  | Detach => on_st (cur <- curthread i ;; proc_remthread cur)
  | Exit => on_st (thread_exit i)
  | Create name => on_st (wchan_create name) ;; ret tt
  | Destroy w => on_st (wchan_destroy w)
  | Sleep w => modify (set_held i []) ;; on_st (wchan_sleep i w)
  | Wakeone w => ts <- on_st (wakeone_take i w) ;; modify (set_todo i (Waking ts))
  | Wakeall w => ts <- on_st (wakeall_take i w) ;; modify (set_todo i (Waking ts))
  | Interrupt =>
      cur <- on_st (curthread i) ;;
      on_st (irq_enter i) ;;
      match todo m i with Waking ts => modify (set_saved cur ts) ;; modify (set_todo i Nothing) | _ => ret tt end
  | Return =>
      cur <- on_st (curthread i) ;;
      on_st (irq_leave i) ;;
      modify (set_todo i (to_wake (saved m cur))) ;;
      modify (set_saved cur [])
  | Clock => due <- on_st (hardclock_count i) ;; modify (set_todo i (if (due : bool) then Counting 0 0 0 else Yielding))
  | Ipi =>
      go <- on_st (interprocessor_interrupt i) ;;
      if (go : bool) then modify (set_todo i Clearing) else modify (set_held i (IpiLock i :: held m i))
  | Send target code => on_st (ipi_send i target code)
  | Unidle => on_st (unidle i)
  | Continue => continue i
  end.

(** ** The rules *)

(** A processor executes code of the kernel: it is not halted, it is not idle unless in
    an interrupt handler, and not in the middle of a routine of the thread system. *)
Record runs (m : machine) (i : nat) (c : cpu) (x : thread) : Prop := {
  ru_cpu : cpus (st m) !! i = Some c;
  ru_thread : threads (st m) !! c_curthread c = Some x;
  ru_halted : c_halted c = false;
  ru_code : c_isidle c = false ∨ t_frames x ≠ [];
  ru_todo : todo m i = Nothing
}.
Definition plain_lock (l : lock) : Prop := match l with WcLock _ | SpinLock _ => True | _ => False end.
(** A thread can be queued on processor [j]: the lock for the interrupt, if one is sent,
    is not held. *)
Definition reachable_cpu (s : sched) (j : nat) : Prop :=
  ∀ d, cpus s !! j = Some d → c_isidle d = true → c_ipi_lock d = None.

Definition guard (m : machine) (i : nat) (o : op) : Prop :=
  ∃ c x, cpus (st m) !! i = Some c ∧ threads (st m) !! c_curthread c = Some x ∧ c_halted c = false ∧
  match o with
  | Interrupt => c_irq c = true ∨ c_waiting c = true
  | Unidle => c_isidle c = true ∧ c_waiting c = false ∧ t_frames x = []
  | Continue =>
      match todo m i with
      | Nothing => False
      | Waking (t :: _) => ∀ y j, threads (st m) !! t = Some y → t_cpu y = Some j → reachable_cpu (st m) j
      | Sending j _ _ _ => reachable_cpu (st m) j
      | _ => True
      end
  | _ => runs m i c x ∧
      match o with
      | Acquire l => plain_lock l ∧ holder (st m) l = Some None
      | Release l => plain_lock l ∧ l ∈ held m i
      | Splx spl => is_spl spl ∧ t_frames x = []
      | Fork proc => proc ≠ None ∨ t_proc x ≠ None
      | Yield => held m i = []
      | Detach => t_frames x = []
      | Exit => t_frames x = [] ∧ held m i = [] ∧ (t_proc x = Some (s_kproc (st m)) ∨ t_proc x = None)
      | Destroy w => ∃ y, wchans (st m) !! w = Some y ∧ wc_threads y = [] ∧ wc_lock y = None
      | Sleep w => t_frames x = [] ∧ held m i = [WcLock w]
      | Wakeone w | Wakeall w => holder (st m) (WcLock w) = Some None
      | Clock => t_frames x ≠ [] ∧ held m i = []
      | Return => t_frames x ≠ [] ∧ held m i = []
      | Ipi => t_frames x ≠ [] ∧ c_ipi c = true
      | Send j code => (code = IPI_PANIC ∨ code = IPI_OFFLINE) ∧ holder (st m) (IpiLock j) = Some None
      | _ => True
      end
  end.

Inductive step (m m' : machine) : Prop := step_intro i o : guard m i o → perform i o m = Ok tt m' → step m m'.

(** ** Where the threads are *)

Inductive place := Running (i : nat) | Queued (i : nat) | Dead (i : nat) | InHand (i : nat) | Saved (t : Z) | Asleep (w : Z).

#[export] Instance place_eq_dec : EqDecision place.
Proof. solve_decision. Defined.

Definition in_hand (d : todo_t) : list Z :=
  match d with Waking ts | Sending _ _ _ ts | Putting ts => ts | _ => [] end.
Definition content (m : machine) (p : place) : list Z :=
  match p with
  | Running i => match cpus (st m) !! i with Some c => if c_isidle c then [] else [c_curthread c] | None => [] end
  | Queued i => default [] (c_runqueue <$> cpus (st m) !! i)
  | Dead i => default [] (c_zombies <$> cpus (st m) !! i)
  | InHand i => in_hand (todo m i)
  | Saved t => saved m t
  | Asleep w => default [] (wc_threads <$> wchans (st m) !! w)
  end.

(** Every thread of [D] is in one place. *)
Record placed (C : place → list Z) (D : Z → Prop) : Prop := {
  pl_nodup : ∀ p, NoDup (C p);
  pl_one : ∀ p q t, t ∈ C p → t ∈ C q → p = q;
  pl_all : ∀ t, D t ↔ ∃ p, t ∈ C p
}.

Section Placed.
Implicit Types (C : place → list Z) (D : Z → Prop).

Lemma placed_ext C C' D D' : placed C D → (∀ p, C' p ≡ₚ C p) → (∀ t, D' t ↔ D t) → placed C' D'.
Proof.
  intros [H1 H2 H3] E ED. split.
  - intros p. by rewrite E.
  - intros p q t. rewrite !E. apply H2.
  - intros t. rewrite ED, H3. by setoid_rewrite E.
Qed.
(** Threads are moved from one place to another. *)
Lemma placed_move C C' D p0 q0 ts : placed C D → p0 ≠ q0 → C p0 ≡ₚ ts ++ C' p0 → C' q0 ≡ₚ ts ++ C q0 →
  (∀ p, p ≠ p0 → p ≠ q0 → C' p ≡ₚ C p) → placed C' D.
Proof.
  intros [H1 H2 H3] Hne E0 Eq E. pose proof (H1 p0) as Hnd. rewrite E0 in Hnd. apply NoDup_app in Hnd as (Hts & Hdis & Hnd0).
  assert (∀ t, t ∈ ts → t ∈ C p0) as H0 by (intros t Ht; rewrite E0; set_solver).
  assert (∀ p t, t ∈ C' p ↔ (t ∈ ts ∧ p = q0) ∨ ((t ∉ ts) ∧ t ∈ C p)) as Hin.
  { intros p t. destruct (decide (p = q0)) as [->|]; [rewrite Eq; destruct (decide (t ∈ ts)); set_solver|].
    destruct (decide (p = p0)) as [->|]; [rewrite E0; set_solver|]. rewrite E by done.
    split; [|naive_solver]. intros Ht. right. split; [|done]. intros Hts'. by specialize (H2 _ _ _ Ht (H0 _ Hts')). }
  split.
  - intros p. destruct (decide (p = q0)) as [->|]; [|destruct (decide (p = p0)) as [->|]; [done|by rewrite E]].
    rewrite Eq. apply NoDup_app. split_and!; [done| |done]. intros t Ht Hq. by specialize (H2 _ _ _ (H0 _ Ht) Hq).
  - intros p q t. rewrite !Hin. naive_solver.
  - intros t. rewrite H3. setoid_rewrite Hin. destruct (decide (t ∈ ts)); naive_solver.
Qed.
(** Two places share their threads in another way. *)
Lemma placed_share C C' D p0 q0 : placed C D → p0 ≠ q0 → C' p0 ++ C' q0 ≡ₚ C p0 ++ C q0 →
  (∀ p, p ≠ p0 → p ≠ q0 → C' p ≡ₚ C p) → placed C' D.
Proof.
  intros [H1 H2 H3] Hne E0 E.
  assert (NoDup (C' p0 ++ C' q0)) as Hnd.
  { rewrite E0. apply NoDup_app. split_and!; [done| |done]. intros t Hp Hq. by specialize (H2 _ _ _ Hp Hq). }
  apply NoDup_app in Hnd as (Hn1 & Hdis & Hn2).
  assert (∀ t, (t ∈ C' p0 ∨ t ∈ C' q0) ↔ (t ∈ C p0 ∨ t ∈ C q0)) as Hin by (intros t; by rewrite <- !elem_of_app, E0).
  assert (∀ p t, t ∈ C' p → p = p0 ∨ p = q0 ∨ t ∈ C p) as Hin'.
  { intros p t. destruct (decide (p = p0)), (decide (p = q0)); auto. rewrite E by done. auto. }
  split.
  - intros p. destruct (decide (p = p0)) as [->|]; [done|]. destruct (decide (p = q0)) as [->|]; [done|]. by rewrite E.
  - assert (∀ p q t, t ∈ C' p → t ∈ C' q → (p = p0 ∨ p = q0) → p = q) as Hone.
    { intros p q t Hp Hq Hpq. assert (t ∈ C p0 ∨ t ∈ C q0) as Ht by (apply Hin; destruct Hpq as [->| ->]; auto).
      destruct (decide (q = p0)) as [->|Hq1]; [destruct Hpq as [->| ->]; [done|]; by destruct (Hdis t)|].
      destruct (decide (q = q0)) as [->|Hq2]; [destruct Hpq as [->| ->]; [|done]; by destruct (Hdis t)|].
      rewrite E in Hq by done. destruct Ht as [Ht|Ht]; by specialize (H2 _ _ _ Hq Ht). }
    intros p q t Hp Hq. destruct (Hin' p t Hp) as [->|[->|Hp']]; [by eapply Hone; eauto..|].
    destruct (Hin' q t Hq) as [->|[->|Hq']]; [symmetry; by eapply Hone; eauto..|]. by eapply H2.
  - intros t. rewrite H3. split; intros [p Hp].
    + destruct (decide (p = p0 ∨ p = q0)) as [Hpq|Hpq]; [|exists p; rewrite E; naive_solver].
      assert (t ∈ C' p0 ∨ t ∈ C' q0) as [?|?]; [|by eauto..]. apply Hin. destruct Hpq as [->| ->]; auto.
    + destruct (decide (p = p0 ∨ p = q0)) as [Hpq|Hpq]; [|exists p; rewrite <- E; naive_solver].
      assert (t ∈ C p0 ∨ t ∈ C q0) as [?|?]; [|by eauto..]. apply Hin. destruct Hpq as [->| ->]; auto.
Qed.
Lemma placed_new C C' D D' q0 t : placed C D → ¬ D t → C' q0 ≡ₚ t :: C q0 → (∀ p, p ≠ q0 → C' p ≡ₚ C p) →
  (∀ t', D' t' ↔ D t' ∨ t' = t) → placed C' D'.
Proof.
  intros [H1 H2 H3] Ht Eq E ED.
  assert (∀ p, t ∉ C p) as Hnin by (intros p Hp; apply Ht, H3; eauto).
  assert (∀ p t', t' ∈ C' p ↔ (t' = t ∧ p = q0) ∨ t' ∈ C p) as Hin.
  { intros p t'. destruct (decide (p = q0)) as [->|]; [rewrite Eq; set_solver|]. rewrite E by done. naive_solver. }
  split.
  - intros p. destruct (decide (p = q0)) as [->|]; [|by rewrite E]. rewrite Eq. by apply NoDup_cons.
  - intros p q t'. rewrite !Hin. naive_solver.
  - intros t'. rewrite ED, H3. setoid_rewrite Hin. naive_solver.
Qed.
Lemma placed_gone C C' D D' p0 ts : placed C D → C p0 ≡ₚ ts ++ C' p0 → (∀ p, p ≠ p0 → C' p ≡ₚ C p) →
  (∀ t, D' t ↔ D t ∧ (t ∉ ts)) → placed C' D'.
Proof.
  intros [H1 H2 H3] E0 E ED. pose proof (H1 p0) as Hnd. rewrite E0 in Hnd. apply NoDup_app in Hnd as (Hts & Hdis & Hnd0).
  assert (∀ t, t ∈ ts → t ∈ C p0) as H0 by (intros t Ht; rewrite E0; set_solver).
  assert (∀ p t, t ∈ C' p ↔ (t ∉ ts) ∧ t ∈ C p) as Hin.
  { intros p t. destruct (decide (p = p0)) as [->|]; [rewrite E0; set_solver|]. rewrite E by done.
    split; [|naive_solver]. intros Ht. split; [|done]. intros Hts'. by specialize (H2 _ _ _ Ht (H0 _ Hts')). }
  split.
  - intros p. destruct (decide (p = p0)) as [->|]; [done|by rewrite E].
  - intros p q t. rewrite !Hin. naive_solver.
  - intros t. rewrite ED, H3. setoid_rewrite Hin. naive_solver.
Qed.
End Placed.

(** ** The invariant *)

(** A thread that no processor has as its current one. *)
Definition away (x : thread) : Prop :=
  parked x ∧ (t_frames x = [] ∨ (t_frames x = [(false, true)] ∧ resume_spl x = Some IPL_HIGH)).

Record thread_ok (n : nat) (x : thread) : Prop := {
  to_stack : t_stack x = None ∨ t_stack x = Some guard_band;
  to_spl : is_spl (t_curspl x);
  to_int : t_in_interrupt x = bool_decide (t_frames x ≠ []);
  to_cpu : ∃ j, t_cpu x = Some j ∧ (j < n)%nat
}.

(** Processor [i], its current thread, its locks and what it is doing.  The interrupt
    level is the thread's own plus one for every lock. *)
Record cpu_ok (i : nat) (c : cpu) (x : thread) (h : list lock) (d : todo_t) : Prop := {
  co_cpu : t_cpu x = Some i;
  co_irq : c_irq c = (t_iplhigh_count x =? 0);
  co_count : t_iplhigh_count x = t_curspl x + lengthZ h;
  co_busy : c_isidle c = false → c_waiting c = false ∧ (t_frames x = [] ∨ (t_frames x = [(false, true)] ∧ t_curspl x = IPL_HIGH));
  co_idle : c_isidle c = true → t_curspl x = IPL_HIGH ∧ (∃ v, resume_spl x = Some v ∧ is_spl v) ∧
    ((t_frames x = [] ∧ h = [] ∧ d = Nothing) ∨ t_frames x = [(false, false)]);
  co_todo : t_frames x = [] → d = Nothing ∨ ∃ ts, d = Waking ts;
  co_wait : c_waiting c = true → t_frames x = [] ∧ (c_runqueue c ≠ [] → c_ipi c = true)
}.
(** A processor between the halves of a switch. *)
Record between (i : nat) (c : cpu) (x : thread) (h : list lock) (d : todo_t) : Prop := {
  be_cpu : t_cpu x = Some i;
  be_away : away x;
  be_idle : c_isidle c = true;
  be_irq : c_irq c = false;
  be_wait : c_waiting c = false;
  be_held : h = [];
  be_todo : d = Nothing;
  be_frames : c_runqueue c = [] → t_frames x = []
}.
Definition common (c : cpu) : Prop := c_runqueue_lock c = None ∧ Z.testbit (c_ipi_pending c) IPI_TLBSHOOTDOWN = false.

(** The stages of a migration are run without locks, on the processor's own threads. *)
Definition todo_ok (c : cpu) (h : list lock) (d : todo_t) : Prop :=
  match d with
  | Counting _ my total => h = [] ∧ my ≤ lengthZ (c_runqueue c) ∧ 0 ≤ total
  | Taking _ n => h = [] ∧ (n ≤ length (c_runqueue c))%nat
  | Sending _ _ n vs => h = [] ∧ (n ≤ length vs)%nat
  | Putting _ | Yielding => h = []
  | _ => True
  end.
Definition migrating (d : todo_t) : bool := match d with Sending _ _ _ _ | Putting _ => true | _ => false end.

Definition place_ok (m : machine) (p : place) (x : thread) : Prop :=
  match p with
  | Running i => t_state x = S_RUN ∨ t_state x = S_READY
  | Queued i => t_cpu x = Some i ∧ (t_state x = S_READY ∨ t_state x = S_SLEEP)
  | Dead i => t_cpu x = Some i ∧ t_state x = S_ZOMBIE ∧ t_proc x = None
  | InHand i => (migrating (todo m i) = true → t_cpu x = Some i) ∧ (t_state x = S_READY ∨ t_state x = S_SLEEP)
  | Saved _ => t_state x = S_READY ∨ t_state x = S_SLEEP
  | Asleep w => t_state x = S_SLEEP
  end.
Definition lock_ok (m : machine) (i : nat) (l : lock) : Prop :=
  match l with
  | RunqLock _ => False
  | IpiLock j => j = i ∧ ∃ c, cpus (st m) !! i = Some c ∧ c_halted c = true
  | _ => True
  end.

(** [sw]: the processor that is between the halves of a switch. *)
Definition current (m : machine) (sw : option nat) (t : Z) : Prop :=
  ∃ i c, cpus (st m) !! i = Some c ∧ Some i ≠ sw ∧ c_curthread c = t.
Record inv_sw (sw : option nat) (m : machine) : Prop := {
  in_placed : placed (content m) (λ t, is_Some (threads (st m) !! t));
  in_place : ∀ p t x, t ∈ content m p → threads (st m) !! t = Some x → place_ok m p x;
  in_thread : ∀ t x, threads (st m) !! t = Some x → thread_ok (length (cpus (st m))) x;
  in_away : ∀ t x, threads (st m) !! t = Some x → ¬ current m sw t → away x;
  in_cpu : ∀ i c, cpus (st m) !! i = Some c → common c ∧ todo_ok c (held m i) (todo m i) ∧
    ∃ x, threads (st m) !! c_curthread c = Some x ∧
      if decide (Some i = sw) then between i c x (held m i) (todo m i) else cpu_ok i c x (held m i) (todo m i);
  in_saved : ∀ t, saved m t ≠ [] → ∃ x, threads (st m) !! t = Some x ∧ t_frames x = [(false, true)];
  in_dead : ∀ i t, t ∈ content m (Dead i) → saved m t = [];
  in_held : ∀ l i, holder (st m) l = Some (Some i) ↔ l ∈ held m i;
  in_locks : ∀ i, NoDup (held m i) ∧ ∀ l, l ∈ held m i → lock_ok m i l;
  in_fresh : ∀ t, s_next (st m) ≤ t → threads (st m) !! t = None ∧ wchans (st m) !! t = None
}.
Abbreviation inv := (inv_sw None).
