(* ===== verification/SchedStep.v ===== *)
(** * The invariant of the thread system is kept

    Every operation that the rules allow returns, and leads to a machine that satisfies
    the invariant again. *)

From Stdlib Require Import String.
From stdpp Require Import list functions.
From S2P Require Import Prelude Sched SchedOps SchedSwitch SchedInv.
#[local] Open Scope kern_scope.

Section Facts.
Context (sw : option nat) (m : machine) (Hinv : inv_sw sw m).

Lemma inv_current i c : cpus (st m) !! i = Some c → ∃ x, threads (st m) !! c_curthread c = Some x ∧ t_cpu x = Some i.
Proof.
  intros Hc. destruct (in_cpu _ _ Hinv i c Hc) as (_ & _ & x & Hx & H). exists x. split; [done|].
  case_decide; [by destruct H|by destruct H].
Qed.
(** No thread is the current one of two processors. *)
Lemma inv_unique i j c d : cpus (st m) !! i = Some c → cpus (st m) !! j = Some d → c_curthread c = c_curthread d → i = j.
Proof.
  intros Hc Hd E. destruct (inv_current i c Hc) as (x & Hx & H1), (inv_current j d Hd) as (y & Hy & H2). congruence.
Qed.
Lemma inv_exec i c : cpus (st m) !! i = Some c → Some i ≠ sw → ∃ x, exec (st m) i c x ∧ cpu_ok i c x (held m i) (todo m i) ∧
  thread_ok (length (cpus (st m))) x ∧ 0 ≤ t_curspl x.
Proof.
  intros Hc Hsw. destruct (in_cpu _ _ Hinv i c Hc) as (_ & _ & x & Hx & H). rewrite decide_False in H by done. exists x.
  pose proof (in_thread _ _ Hinv _ _ Hx) as Ht. assert (0 ≤ t_curspl x) by (by destruct (to_spl _ _ Ht) as [-> | ->]).
  split_and!; try done. split; [done|done|apply H|]. rewrite (co_count _ _ _ _ _ H). unfold lengthZ. lia.
Qed.
(** The lock of pending interrupts is free unless its processor has halted. *)
Lemma inv_ipi_free i c : cpus (st m) !! i = Some c → c_halted c = false → c_ipi_lock c = None.
Proof.
  intros Hc Hh. destruct (c_ipi_lock c) as [k|] eqn:E; [|done].
  assert (IpiLock i ∈ held m k) as Hin. { apply (in_held _ _ Hinv). simpl. by rewrite Hc; simpl; rewrite E. }
  destruct (in_locks _ _ Hinv k) as [_ Hl]. destruct (Hl _ Hin) as (-> & c' & Hc' & Hh'). congruence.
Qed.
End Facts.

(** ** Steps that concern one processor and its current thread *)

Section Local.
Context (m m' : machine) (i : nat) (c : cpu) (x : thread) (F : cpu → cpu) (G : thread → thread) (s0 : sched).
Context (Hinv : inv m) (Hc : cpus (st m) !! i = Some c) (Hx : threads (st m) !! c_curthread c = Some x).
Context (Hst : st m' = upd_cpu i F (upd_thread (c_curthread c) G s0)).
Context (Hcpus : cpus s0 = cpus (st m)) (Hthreads : threads s0 = threads (st m)).
Context (Hcur : c_curthread (F c) = c_curthread c) (Hcommon : common (F c)) (Hhalt : c_halted c = true → c_halted (F c) = true).
Context (Hheld : ∀ j, j ≠ i → held m' j = held m j) (Htodo : ∀ j, j ≠ i → todo m' j = todo m j).

Lemma local_cpus j : cpus (st m') !! j = if decide (i = j) then Some (F c) else cpus (st m) !! j.
Proof. rewrite Hst, cpus_upd. cbn [cpus upd_thread set_threads]. rewrite Hcpus. case_decide; [subst; by rewrite Hc|done]. Qed.
Lemma local_threads t : threads (st m') !! t = if decide (c_curthread c = t) then Some (G x) else threads (st m) !! t.
Proof. rewrite Hst. cbn [threads upd_cpu set_cpus]. rewrite threads_upd, Hthreads. case_decide; [subst; by rewrite Hx|done]. Qed.
Lemma local_length : length (cpus (st m')) = length (cpus (st m)).
Proof. rewrite Hst. simpl. by rewrite length_alter, Hcpus. Qed.
Lemma local_dom t : is_Some (threads (st m') !! t) ↔ is_Some (threads (st m) !! t).
Proof. rewrite local_threads. case_decide; [subst; rewrite Hx|done]. split; by eexists. Qed.

Lemma inv_local :
  placed (content m') (λ t, is_Some (threads (st m) !! t)) →
  (∀ p t y, t ∈ content m' p → threads (st m') !! t = Some y → place_ok m' p y) →
  thread_ok (length (cpus (st m))) (G x) →
  todo_ok (F c) (held m' i) (todo m' i) →
  cpu_ok i (F c) (G x) (held m' i) (todo m' i) →
  (∀ t, saved m' t ≠ [] → ∃ y, threads (st m') !! t = Some y ∧ t_frames y = [(false, true)]) →
  (∀ j t, t ∈ content m' (Dead j) → saved m' t = []) →
  (∀ l j, holder (st m') l = Some (Some j) ↔ l ∈ held m' j) →
  (NoDup (held m' i) ∧ ∀ l, l ∈ held m' i → lock_ok m' i l) →
  s_next (st m) ≤ s_next (st m') → (∀ t, s_next (st m') ≤ t → wchans (st m') !! t = None) →
  inv m'.
Proof.
  intros Hp Hpl Hto Htd Hco Hsv Hdd Hh Hl Hn Hw. split; try done.
  - eapply placed_ext; [exact Hp|done|]. intros t. apply local_dom.
  - intros t y. rewrite local_length, local_threads. case_decide; [by intros [= <-]|apply (in_thread _ _ Hinv)].
  - intros t y. rewrite local_threads. case_decide as Ht.
    + intros _ Hcu. destruct Hcu. exists i, (F c). rewrite local_cpus, decide_True by done. split_and!; [done..|congruence].
    + intros Hy Hcu. apply (in_away _ _ Hinv t); [done|]. intros (j & d & Hd & _ & Ej). apply Hcu.
      assert (j ≠ i) as Hne by (intros ->; congruence). exists j, d. rewrite local_cpus, decide_False by done. done.
  - intros j d. rewrite local_cpus. case_decide as Ej; [subst j; intros [= <-]|intros Hd].
    + split; [done|]. split; [done|]. exists (G x). rewrite Hcur, local_threads, decide_True, decide_False by done. done.
    + rewrite Hheld, Htodo by done. destruct (in_cpu _ _ Hinv j d Hd) as (H1 & H2 & y & Hy & H3).
      rewrite decide_False in H3 by done. split; [done|]. split; [done|]. exists y. rewrite (decide_False (P := Some j = None)) by done. split; [|done].
      rewrite local_threads, decide_False; [done|]. intros E. by apply Ej, (inv_unique _ _ Hinv i j c d).
  - intros j. destruct (decide (j = i)) as [->|Ej]; [done|]. rewrite Hheld by done.
    destruct (in_locks _ _ Hinv j) as [Hnd Hl']. split; [done|]. intros l Hin. specialize (Hl' l Hin).
    destruct l; try done. destruct Hl' as (-> & d & Hd & Hhd). split; [done|]. exists d. rewrite local_cpus, decide_False by done. done.
  - intros t Ht. split; [|by apply Hw]. destruct (in_fresh _ _ Hinv t) as [E _]; [lia|].
    rewrite local_threads, decide_False; [done|]. intros <-. congruence.
Qed.

(** The same, if no thread goes to another place. *)
Context (Hidle : c_isidle (F c) = c_isidle c) (Hrq : c_runqueue (F c) = c_runqueue c) (Hzo : c_zombies (F c) = c_zombies c).
Context (Hwc : ∀ w, wc_threads <$> wchans (st m') !! w = wc_threads <$> wchans (st m) !! w).
Context (Hnext : s_next (st m') = s_next (st m)).
Context (Hstate : t_state (G x) = t_state x) (Htcpu : t_cpu (G x) = t_cpu x) (Hproc : t_proc x = None → t_proc (G x) = None).

Lemma local_content p : in_hand (todo m' i) = in_hand (todo m i) → saved m' = saved m → content m' p = content m p.
Proof.
  intros Hh Hs. destruct p as [j|j|j|j|t|w]; simpl; rewrite ?local_cpus.
  - case_decide; [subst; rewrite Hc|done]. by rewrite Hidle, Hcur.
  - case_decide; [subst; rewrite Hc|done]. simpl. done.
  - case_decide; [subst; rewrite Hc|done]. simpl. done.
  - destruct (decide (j = i)) as [->|]; [done|]. by rewrite Htodo.
  - by rewrite Hs.
  - by rewrite Hwc.
Qed.
Lemma inv_still :
  in_hand (todo m' i) = in_hand (todo m i) → (in_hand (todo m i) ≠ [] → migrating (todo m' i) = migrating (todo m i)) →
  saved m' = saved m → (t_frames x = [(false, true)] → t_frames (G x) = t_frames x ∨ saved m (c_curthread c) = []) →
  thread_ok (length (cpus (st m))) (G x) →
  todo_ok (F c) (held m' i) (todo m' i) →
  cpu_ok i (F c) (G x) (held m' i) (todo m' i) →
  (∀ l j, holder (st m') l = Some (Some j) ↔ l ∈ held m' j) →
  (NoDup (held m' i) ∧ ∀ l, l ∈ held m' i → lock_ok m' i l) →
  inv m'.
Proof.
  intros Hh Hmig Hs Hfr Hto Htd Hco Hho Hl. apply inv_local; try done.
  - eapply placed_ext; [apply (in_placed _ _ Hinv)| |done]. intros p. by rewrite local_content.
  - intros p t y Ht Hy. rewrite local_content in Ht by done.
    assert (∃ y0, threads (st m) !! t = Some y0 ∧ t_state y = t_state y0 ∧ t_cpu y = t_cpu y0 ∧ (t_proc y0 = None → t_proc y = None)) as (y0 & Hy0 & E1 & E2 & E3).
    { rewrite local_threads in Hy. case_decide; [|by eauto]. injection Hy as <-. exists x. by subst. }
    pose proof (in_place _ _ Hinv p t y0 Ht Hy0) as Hp. destruct p as [j|j|j|j|t'|w]; simpl in *; rewrite ?E1, ?E2; try done.
    + destruct Hp as (? & ? & ?). auto.
    + destruct (decide (j = i)) as [->|]; [|by rewrite Htodo by done]. rewrite Hmig; [done|]. by destruct (in_hand (todo m i)); [apply not_elem_of_nil in Ht|].
  - intros t. rewrite Hs. intros Ht. destruct (in_saved _ _ Hinv t Ht) as (y & Hy & Hf). rewrite local_threads.
    case_decide as E; [|by eauto]. exists (G x). split; [done|]. subst t. rewrite Hx in Hy. injection Hy as ->. destruct (Hfr Hf) as [->|E']; [done|]. by rewrite E' in Ht.
  - intros j t. rewrite local_content, Hs by done. apply (in_dead _ _ Hinv).
  - lia.
  - intros t Ht. destruct (in_fresh _ _ Hinv t) as [_ E]; [lia|]. specialize (Hwc t). rewrite E in Hwc. by apply fmap_None in Hwc.
Qed.
End Local.

Lemma holder_local s i c F t G l : cpus s !! i = Some c → c_runqueue_lock (F c) = c_runqueue_lock c → c_ipi_lock (F c) = c_ipi_lock c →
  holder (upd_cpu i F (upd_thread t G s)) l = holder s l.
Proof.
  intros Hc E1 E2. destruct l as [j|j| |]; cbn [holder]; try done; rewrite cpus_upd; cbn [cpus upd_thread set_threads];
    case_decide; try done; subst; rewrite Hc; simpl; congruence.
Qed.

(** The locks stay as they are. *)
Section Calm.
Context (m m' : machine) (i : nat) (c : cpu) (x : thread) (F : cpu → cpu) (G : thread → thread).
Context (Hinv : inv m) (Hc : cpus (st m) !! i = Some c) (Hx : threads (st m) !! c_curthread c = Some x).
Context (Hst : st m' = upd_cpu i F (upd_thread (c_curthread c) G (st m))) (Hh : held m' = held m).
Context (Ht : ∀ j, j ≠ i → todo m' j = todo m j).
Context (EF : (c_curthread (F c), c_runqueue_lock (F c), c_ipi_lock (F c), c_halted (F c))
    = (c_curthread c, c_runqueue_lock c, c_ipi_lock c, c_halted c)).
Context (HF : Z.testbit (c_ipi_pending (F c)) IPI_TLBSHOOTDOWN = false).

Lemma calm_common : common (F c).
Proof. destruct (in_cpu _ _ Hinv i c Hc) as ([Hrl _] & _). injection EF as _ E _ _. split; [congruence|done]. Qed.
Lemma calm_held l j : holder (st m') l = Some (Some j) ↔ l ∈ held m' j.
Proof. injection EF as _ E1 E2 _. rewrite Hst, Hh, (holder_local _ _ c) by done. apply (in_held _ _ Hinv). Qed.
Lemma calm_locks : NoDup (held m' i) ∧ ∀ l, l ∈ held m' i → lock_ok m' i l.
Proof.
  injection EF as _ _ _ E. rewrite Hh. destruct (in_locks _ _ Hinv i) as [Hnd Hl]. split; [done|]. intros l Hin. specialize (Hl l Hin).
  destruct l as [|k| |]; try done. destruct Hl as (-> & d & Hd & Hhd). split; [done|]. exists (F d).
  rewrite Hst, cpus_upd, decide_True by done. cbn [cpus upd_thread set_threads]. rewrite Hd. split; [done|]. congruence.
Qed.

Lemma calm_content p : (c_isidle (F c), c_runqueue (F c), c_zombies (F c)) = (c_isidle c, c_runqueue c, c_zombies c) →
  p ≠ InHand i → (∀ t, p = Saved t → saved m' t = saved m t) → content m' p = content m p.
Proof.
  intros E' Hp Hs. injection EF as E1 _ _ _. injection E' as E2 E3 E4.
  assert (∀ j, cpus (st m') !! j = if decide (i = j) then Some (F c) else cpus (st m) !! j) as Hcpus.
  { intros j. rewrite Hst, cpus_upd. cbn [cpus upd_thread set_threads]. case_decide; [subst j; by rewrite Hc|done]. }
  destruct p as [j|j|j|j|t|w]; simpl; rewrite ?Hcpus.
  1,2,3: case_decide; [subst j; rewrite Hc; simpl; by rewrite ?E1, ?E2, ?E3, ?E4|done].
  - rewrite Ht; [done|congruence].
  - by rewrite Hs.
  - by rewrite Hst.
Qed.

Lemma inv_calm_moves : placed (content m') (λ t, is_Some (threads (st m) !! t)) →
  (∀ p t y, t ∈ content m' p → threads (st m') !! t = Some y → place_ok m' p y) →
  thread_ok (length (cpus (st m))) (G x) → todo_ok (F c) (held m i) (todo m' i) → cpu_ok i (F c) (G x) (held m i) (todo m' i) →
  (∀ t, saved m' t ≠ [] → ∃ y, threads (st m') !! t = Some y ∧ t_frames y = [(false, true)]) →
  (∀ j t, t ∈ content m' (Dead j) → saved m' t = []) →
  inv m'.
Proof.
  intros H1 H2 H3 H4 H5 H6 H7. pose proof calm_common. pose proof calm_held. pose proof calm_locks. injection EF as E1 E2 E3 E4.
  apply (inv_local m m' i c x F G (st m)); try done; rewrite ?Hh; try done.
  - by rewrite Hst.
  - rewrite Hst. intros t Hn. apply (in_fresh _ _ Hinv t Hn).
Qed.
Lemma inv_calm : saved m' = saved m →
  (c_isidle (F c), c_runqueue (F c), c_zombies (F c)) = (c_isidle c, c_runqueue c, c_zombies c) →
  (t_state (G x), t_cpu (G x)) = (t_state x, t_cpu x) → (t_proc x = None → t_proc (G x) = None) →
  in_hand (todo m' i) = in_hand (todo m i) → (in_hand (todo m i) ≠ [] → migrating (todo m' i) = migrating (todo m i)) →
  (t_frames x = [(false, true)] → t_frames (G x) = t_frames x ∨ saved m (c_curthread c) = []) →
  thread_ok (length (cpus (st m))) (G x) → todo_ok (F c) (held m i) (todo m' i) → cpu_ok i (F c) (G x) (held m i) (todo m' i) →
  inv m'.
Proof.
  intros Hs EF' EG HG E1 E2 E3 H1 H2 H3. pose proof calm_common. pose proof calm_held. pose proof calm_locks.
  injection EF as Ef1 Ef2 Ef3 Ef4. injection EF' as Ef5 Ef6 Ef7. injection EG as Eg1 Eg2.
  apply (inv_still m m' i c x F G (st m)); try done; rewrite ?Hh; try done; by rewrite Hst.
Qed.
End Calm.

(** A thread that stays where it was. *)
Lemma place_keep sw m m' p t y y0 : inv_sw sw m → t ∈ content m p → threads (st m) !! t = Some y0 →
  t_state y = t_state y0 → t_cpu y = t_cpu y0 → (t_proc y0 = None → t_proc y = None) →
  (∀ i, p = InHand i → migrating (todo m' i) = true → migrating (todo m i) = true) → place_ok m' p y.
Proof.
  intros Hinv Ht Hy E1 E2 E3 E4. pose proof (in_place _ _ Hinv p t y0 Ht Hy) as Hp.
  destruct p as [j|j|j|j|t'|w]; simpl in *; rewrite ?E1, ?E2; try done.
  - destruct Hp as (? & ? & ?). auto.
  - destruct Hp as [Hp ?]. split; [|done]. intros Hm. apply Hp. by apply (E4 j).
Qed.

(** ** Locks and interrupt levels *)

Lemma on_st_ok {A} (k : M sched A) m a s : k (st m) = Ok a s → on_st k m = Ok a (set_st s m).
Proof. unfold on_st, lift. by intros ->. Qed.
Definition ok_step (m : machine) (i : nat) (o : op) : Prop := ∃ m', perform i o m = Ok tt m' ∧ inv m'.

Section Ops.
Context (m : machine) (i : nat) (c : cpu) (x : thread) (Hinv : inv m) (Hr : runs m i c x).
Let Hc := ru_cpu _ _ _ _ Hr.
Let Hx := ru_thread _ _ _ _ Hr.

Lemma runs_facts : exec (st m) i c x ∧ cpu_ok i c x (held m i) (todo m i) ∧ thread_ok (length (cpus (st m))) x ∧ 0 ≤ t_curspl x ∧ common c.
Proof.
  destruct (inv_exec _ _ Hinv i c Hc) as (y & He & Hco & Hto & H0); [done|]. pose proof (ex_thread _ _ _ _ He) as Hy.
  rewrite Hx in Hy. injection Hy as <-. split_and!; try done. all: apply (in_cpu _ _ Hinv i c Hc).
Qed.
(** A processor that executes code can take and drop locks: idle, it is in a handler. *)
Lemma cpu_ok_held F G h : cpu_ok i c x (held m i) (todo m i) → c_isidle (F c) = c_isidle c → c_waiting (F c) = c_waiting c →
  c_irq (F c) = (t_iplhigh_count (G x) =? 0) → t_iplhigh_count (G x) = t_curspl x + lengthZ h →
  t_cpu (G x) = t_cpu x → t_curspl (G x) = t_curspl x → t_frames (G x) = t_frames x → t_context (G x) = t_context x →
  c_runqueue (F c) = c_runqueue c → c_ipi (F c) = c_ipi c →
  cpu_ok i (F c) (G x) h (todo m i).
Proof.
  intros [H1 H2 H3 H4 H5 H6 H7] E1 E2 E3 E4 E5 E6 E7 E8 E9 E10.
  split; rewrite ?E1, ?E2, ?E5, ?E6, ?E7, ?E9, ?E10; try done.
  intros Hi. destruct (H5 Hi) as (? & Hres & [(Hf & _)|]); split_and!; try done; unfold resume_spl in *; rewrite ?E8; try done; try by right.
  destruct (ru_code _ _ _ _ Hr); congruence.
Qed.

Lemma acquires_step l : plain_lock l → holder (st m) l = Some None → ok_step m i (Acquire l).
Proof.
  intros Hp Hl. destruct runs_facts as (He & Hco & Hto & H0 & Hcm).
  unfold ok_step, perform. erewrite bind_ok by done. erewrite bind_ok by by eapply on_st_ok, acquire_ok.
  eexists. split; [done|]. set (m' := set_held _ _ _).
  assert (l ∉ held m i) as Hnin. { intros Hin. apply (in_held _ _ Hinv) in Hin. congruence. }
  apply (inv_still m m' i c x (set_irq false) (add_iplhigh 1) (hold l (Some i) (st m))); try done.
  - simpl. unfold acquired. rewrite (cur_of_at _ _ c Hc). by destruct l.
  - by destruct l.
  - by destruct l.
  - intros j Hj. simpl. by rewrite fn_lookup_insert_ne.
  - intros w. destruct l; try done. simpl. destruct (decide (w0 = w)) as [->|]; [rewrite lookup_alter_eq|by rewrite lookup_alter_ne].
    by destruct (wchans (st m) !! w).
  - by destruct l.
  - intros. by left.
  - by destruct Hto.
  - simpl. by rewrite (ru_todo _ _ _ _ Hr).
  - simpl. rewrite fn_lookup_insert. apply cpu_ok_held; try done; simpl.
    + rewrite (co_count _ _ _ _ _ Hco). symmetry. apply Z.eqb_neq. unfold lengthZ. lia.
    + rewrite (co_count _ _ _ _ _ Hco), lengthZ_cons. lia.
  - intros l' j. simpl. destruct (decide (l = l')) as [<-|Hne].
    + erewrite holder_acquired by done. destruct (decide (j = i)) as [->|Hj].
      * rewrite fn_lookup_insert. split; [by left|done].
      * rewrite fn_lookup_insert_ne by done. split; [congruence|]. intros Hin%(in_held _ _ Hinv). congruence.
    + rewrite holder_acquired_ne by done. rewrite (in_held _ _ Hinv). destruct (decide (j = i)) as [->|Hj].
      * rewrite fn_lookup_insert, elem_of_cons. naive_solver.
      * by rewrite fn_lookup_insert_ne.
  - simpl. rewrite fn_lookup_insert. destruct (in_locks _ _ Hinv i) as [Hnd Hlo]. split; [by apply NoDup_cons|].
    intros l' [->|Hin]%elem_of_cons; [by destruct l|]. specialize (Hlo l' Hin). destruct l'; try done.
    destruct Hlo as (-> & d & Hd & Hhd). pose proof (ru_halted _ _ _ _ Hr). congruence.
Qed.
Lemma releases_step l : plain_lock l → l ∈ held m i → ok_step m i (Release l).
Proof.
  intros Hp Hl. destruct runs_facts as (He & Hco & Hto & H0 & Hcm).
  assert (holder (st m) l = Some (Some i)) as Hh by by apply (in_held _ _ Hinv).
  destruct (in_locks _ _ Hinv i) as [Hnd Hlo].
  assert (lengthZ (held m i) = lengthZ (filter (.≠ l) (held m i)) + 1) as Hlen.
  { clear -Hl Hnd. induction (held m i) as [|l' h IH]; [by apply not_elem_of_nil in Hl|]. apply NoDup_cons in Hnd as [Hnin Hnd].
    rewrite filter_cons. apply elem_of_cons in Hl as [->|Hl].
    - rewrite decide_False by naive_solver. rewrite lengthZ_cons.
      replace (filter (.≠ l') h) with h; [lia|]. clear -Hnin. induction h as [|l h IH]; [done|]. rewrite filter_cons.
      rewrite decide_True by set_solver. f_equal. apply IH. set_solver.
    - rewrite decide_True by by intros ->. rewrite !lengthZ_cons, IH by done. lia. }
  unfold ok_step, perform. erewrite bind_ok by done.
  erewrite bind_ok by (eapply on_st_ok, release_ok; [done|done|rewrite (co_count _ _ _ _ _ Hco), Hlen; unfold lengthZ; lia]).
  eexists. split; [done|]. set (m' := set_held _ _ _).
  apply (inv_still m m' i c x (set_irq (t_iplhigh_count x =? 1)) (add_iplhigh (-1)) (hold l None (st m))); try done.
  - by destruct l.
  - by destruct l.
  - intros j Hj. simpl. by rewrite fn_lookup_insert_ne.
  - intros w. destruct l; try done. simpl. destruct (decide (w0 = w)) as [->|]; [rewrite lookup_alter_eq|by rewrite lookup_alter_ne].
    by destruct (wchans (st m) !! w).
  - by destruct l.
  - intros. by left.
  - by destruct Hto.
  - simpl. by rewrite (ru_todo _ _ _ _ Hr).
  - simpl. rewrite fn_lookup_insert. apply cpu_ok_held; try done; simpl; rewrite (co_count _ _ _ _ _ Hco), Hlen; lia.
  - intros l' j. simpl. rewrite holder_set_irq, holder_upd_thread. destruct (decide (l = l')) as [<-|Hne].
    + erewrite holder_hold by done. split; [done|]. destruct (decide (j = i)) as [->|Hj].
      * rewrite fn_lookup_insert, list_elem_of_filter. naive_solver.
      * rewrite fn_lookup_insert_ne by done. intros Hin%(in_held _ _ Hinv). congruence.
    + rewrite holder_hold_ne by done. rewrite (in_held _ _ Hinv). destruct (decide (j = i)) as [->|Hj].
      * rewrite fn_lookup_insert, list_elem_of_filter. naive_solver.
      * by rewrite fn_lookup_insert_ne.
  - simpl. rewrite fn_lookup_insert. split; [by apply NoDup_filter|]. intros l' [_ Hin]%list_elem_of_filter.
    specialize (Hlo l' Hin). destruct l'; try done. destruct Hlo as (-> & d & Hd & Hhd). pose proof (ru_halted _ _ _ _ Hr). congruence.
Qed.

Lemma splx_step spl : is_spl spl → t_frames x = [] → ok_step m i (Splx spl).
Proof.
  intros Hspl Hf. destruct runs_facts as (He & Hco & Hto & H0 & Hcm). destruct (ru_code _ _ _ _ Hr) as [Hidle|]; [|done].
  assert (0 ≤ lengthZ (held m i)) by (unfold lengthZ; lia).
  unfold ok_step, perform. erewrite bind_ok by done.
  erewrite bind_ok by (eapply on_st_ok, splx_ok; [done|done|by destruct Hto|rewrite (co_count _ _ _ _ _ Hco); lia]).
  eexists. split; [done|]. set (m' := set_st _ _).
  apply (inv_calm m m' i c x (set_irq (t_iplhigh_count (at_spl spl x) =? 0)) (at_spl spl)); try done; [simpl; unfold spl_to; by rewrite (cur_of_at _ _ c Hc)|by apply Hcm|..].
  - intros _. by left.
  - by destruct Hto.
  - simpl. by rewrite (ru_todo _ _ _ _ Hr).
  - destruct Hco as [H1 H2 H3 H4 H5 H6 H7]. split; try done; simpl.
    + rewrite H3. lia.
    + intros _. split; [by apply H4|]. by left.
    + congruence.
Qed.
Lemma detach_step : t_frames x = [] → ok_step m i Detach.
Proof.
  intros Hf. destruct runs_facts as (He & Hco & Hto & H0 & Hcm). destruct (ru_code _ _ _ _ Hr) as [Hidle|]; [|done].
  unfold ok_step, perform. erewrite bind_ok by done.
  assert ((cur <- curthread i ;; proc_remthread cur) (st m) = Ok tt (upd_thread (c_curthread c) (set_proc None) (st m))) as Hrun.
  { erewrite bind_ok by by apply curthread_ok. by eapply write_thread_ok. }
  erewrite on_st_ok by done. eexists. split; [done|]. set (m' := set_st _ _).
  apply (inv_calm m m' i c x id (set_proc None)); try done; [|by apply Hcm|..].
  - simpl. symmetry. by apply (upd_cpu_id _ _ c).
  - intros _. by left.
  - by destruct Hto.
  - simpl. by rewrite (ru_todo _ _ _ _ Hr).
  - by destruct Hco.
Qed.
Lemma clock_step : t_frames x ≠ [] → held m i = [] → ok_step m i Clock.
Proof.
  intros Hf Hh. destruct runs_facts as (He & Hco & Hto & H0 & Hcm).
  unfold ok_step, perform. erewrite bind_ok by done.
  assert (∃ b s', hardclock_count i (st m) = Ok b s' ∧ s' = upd_cpu i (set_hardclocks (u32 (c_hardclocks c + 1))) (st m)) as (b & s' & Hhc & ->).
  { unfold hardclock_count. erewrite bind_ok by by apply read_cpu_ok. cbv beta zeta. erewrite bind_ok by by eapply write_cpu_ok.
    unfold schedule. destruct (_ mod SCHEDULE_HARDCLOCKS =? 0); erewrite bind_ok by done; by do 2 eexists. }
  erewrite bind_ok by by eapply on_st_ok. eexists. split; [done|]. set (m' := set_todo _ _ _).
  apply (inv_calm m m' i c x (set_hardclocks (u32 (c_hardclocks c + 1))) id); try done; [|intros j Hj; simpl; by rewrite fn_lookup_insert_ne|by apply Hcm|..].
  - simpl. by erewrite upd_thread_id.
  - simpl. rewrite fn_lookup_insert, (ru_todo _ _ _ _ Hr). by destruct b.
  - simpl. by rewrite (ru_todo _ _ _ _ Hr).
  - simpl. intros. by left.
  - simpl. rewrite fn_lookup_insert, Hh. destruct b; simpl; [|done]. split; [done|]. unfold lengthZ. lia.
  - simpl. destruct Hco as [H1 H2 H3 H4 H5 H6 H7]. split; try done; simpl.
    intros Hi. destruct (H5 Hi) as (? & ? & [(? & _)|?]); [done|]. split_and!; try done. by right.
Qed.
End Ops.

(** ** Interrupts *)

Definition entered (x : thread) : thread :=
  let x' := if t_curspl x =? 0 then add_iplhigh 1 (set_curspl IPL_HIGH (set_in_interrupt true x)) else set_in_interrupt true x in
  set_frames ((t_in_interrupt x, t_curspl x =? 0) :: t_frames x) x'.
Definition enter_cpu (c : cpu) : cpu := set_waiting false (set_irq false c).
Lemma irq_enter_ok s i c x : cpus s !! i = Some c → threads s !! c_curthread c = Some x → (t_curspl x = 0 → t_iplhigh_count x = 0) →
  irq_enter i s = Ok tt (upd_cpu i enter_cpu (upd_thread (c_curthread c) entered s)).
Proof.
  intros Hc Hx H0. unfold irq_enter. erewrite bind_ok by by eapply write_cpu_ok.
  erewrite bind_ok by (eapply write_cpu_ok; by apply cpu_upd). rewrite upd_cpu_upd.
  erewrite bind_ok by (eapply curthread_ok; by apply cpu_upd). cbn [c_curthread compose set_irq set_waiting].
  erewrite bind_ok by by apply read_thread_ok. cbv beta zeta. erewrite bind_ok by by eapply write_thread_ok.
  change (upd_thread ?t ?f (upd_cpu ?i ?g ?s)) with (upd_cpu i g (upd_thread t f s)).
  assert (threads (upd_cpu i (set_waiting false ∘ set_irq false) (upd_thread (c_curthread c) (set_in_interrupt true) s)) !! c_curthread c = Some (set_in_interrupt true x)) as Hx1 by by apply (thread_upd s).
  unfold entered. destruct (t_curspl x =? 0) eqn:E.
  - erewrite bind_ok.
    2: { erewrite bind_ok by (apply kassert_ok; lia). erewrite bind_ok by by eapply write_thread_ok.
         by erewrite bind_ok by (eapply write_thread_ok; exact (thread_upd _ _ _ _ Hx1)). }
    erewrite write_thread_ok by (exact (thread_upd _ _ _ _ (thread_upd _ _ _ _ Hx1))).
    change (upd_thread ?t ?f (upd_cpu ?i ?g ?s)) with (upd_cpu i g (upd_thread t f s)). rewrite !upd_thread_upd.
    change (upd_thread ?t ?f (upd_cpu ?i ?g ?s)) with (upd_cpu i g (upd_thread t f s)). rewrite !upd_thread_upd.
    do 2 f_equal. apply (upd_thread_at _ _ x); [done|]. simpl. by rewrite E.
  - erewrite bind_ok by done. erewrite write_thread_ok by exact Hx1.
    change (upd_thread ?t ?f (upd_cpu ?i ?g ?s)) with (upd_cpu i g (upd_thread t f s)). rewrite !upd_thread_upd.
    do 2 f_equal. apply (upd_thread_at _ _ x); [done|]. simpl. by rewrite E.
Qed.

Definition returned (x : thread) : thread :=
  match t_frames x with
  | [] => x
  | (old_in, doadjust) :: l =>
      let x' := set_frames l x in
      set_in_interrupt old_in (if (doadjust : bool) then set_curspl 0 (add_iplhigh (-1) x') else x')
  end.
Lemma irq_leave_ok s i c x old_in adj l : cpus s !! i = Some c → threads s !! c_curthread c = Some x → t_frames x = (old_in, adj) :: l →
  (adj = true → t_curspl x = IPL_HIGH ∧ t_iplhigh_count x = 1) →
  irq_leave i s = Ok tt (upd_cpu i (set_irq adj) (upd_thread (c_curthread c) returned s)).
Proof.
  intros Hc Hx Hf Ha. unfold irq_leave. erewrite bind_ok by by apply curthread_ok. erewrite bind_ok by by apply read_thread_ok.
  rewrite Hf. erewrite bind_ok by by eapply write_thread_ok.
  assert (threads (upd_thread (c_curthread c) (set_frames l) s) !! c_curthread c = Some (set_frames l x)) as Hx1 by by apply (thread_upd s).
  destruct adj.
  - destruct Ha as [E1 E2]; [done|]. erewrite bind_ok.
    2: { rewrite E1, E2. do 2 (erewrite bind_ok by done). erewrite bind_ok by by eapply write_thread_ok.
         eapply write_thread_ok. exact (thread_upd _ _ _ _ Hx1). }
    erewrite bind_ok by (eapply write_thread_ok; exact (thread_upd _ _ _ _ (thread_upd _ _ _ _ Hx1))).
    erewrite write_cpu_ok by done. rewrite !upd_thread_upd.
    do 2 f_equal. apply (upd_thread_at _ _ x); [done|]. unfold returned. by rewrite Hf.
  - erewrite bind_ok by done. erewrite bind_ok by (eapply write_thread_ok; exact Hx1).
    erewrite write_cpu_ok by done. rewrite !upd_thread_upd.
    do 2 f_equal. apply (upd_thread_at _ _ x); [done|]. unfold returned. by rewrite Hf.
Qed.

Section Interrupts.
Context (m : machine) (i : nat) (c : cpu) (x : thread) (Hinv : inv m).
Context (Hc : cpus (st m) !! i = Some c) (Hx : threads (st m) !! c_curthread c = Some x).
Let cur := c_curthread c.
Let Hx' : threads (st m) !! cur = Some x := Hx.

(** A processor that takes an interrupt runs a thread with interrupts on, perhaps one
    that was waking others; or it waits. *)
Lemma interruptible : c_irq c = true ∨ c_waiting c = true →
  t_frames x = [] ∧ held m i = [] ∧ saved m cur = [] ∧
  ((c_isidle c = false ∧ t_curspl x = 0 ∧ t_iplhigh_count x = 0 ∧ (todo m i = Nothing ∨ ∃ ts, todo m i = Waking ts)) ∨
   (c_isidle c = true ∧ t_curspl x = IPL_HIGH ∧ todo m i = Nothing)).
Proof.
  intros Hg. destruct (inv_exec _ _ Hinv i c Hc) as (y & He & Hco & Hto & H0); [done|]. pose proof (ex_thread _ _ _ _ He) as Hy.
  rewrite Hx in Hy. injection Hy as <-. destruct Hco as [H1 H2 H3 H4 H5 H6 H7].
  assert (t_frames x = [] → saved m cur = []) as Hsv.
  { intros Hf. destruct (saved m cur) eqn:E; [done|]. destruct (in_saved _ _ Hinv cur) as (y & Hy & ?); [by rewrite E|]. unfold cur in Hy. congruence. }
  assert (0 ≤ lengthZ (held m i)) by (unfold lengthZ; lia).
  destruct (c_isidle c) eqn:Hi.
  - destruct (H5 eq_refl) as (Hs & _ & Hf). destruct Hg as [Hg|Hw].
    + rewrite Hg, H3, Hs in H2. unfold IPL_HIGH in *. lia.
    + destruct (H7 Hw) as [Hf' _]. destruct Hf as [(_ & -> & ->)|]; [|congruence]. split_and!; auto.
  - destruct (H4 eq_refl) as [Hw Hf]. destruct Hg as [Hg|Hw']; [|congruence].
    rewrite Hg in H2. assert (t_curspl x = 0 ∧ lengthZ (held m i) = 0) as [Hs Hl] by lia.
    destruct Hf as [Hf|(_ & Hs')]; [|rewrite Hs' in Hs; done]. assert (held m i = []) as Hh by (destruct (held m i); [done|rewrite lengthZ_cons in Hl; unfold lengthZ in *; lia]).
    split_and!; auto. left. split_and!; auto. lia.
Qed.

Lemma entered_ok : c_irq c = true ∨ c_waiting c = true →
  thread_ok (length (cpus (st m))) (entered x) ∧ cpu_ok i (enter_cpu c) (entered x) [] Nothing.
Proof.
  intros Hg. destruct (interruptible Hg) as (Hf & Hh & _ & Hcase).
  destruct (inv_exec _ _ Hinv i c Hc) as (y & He & Hco & Hto & H0); [done|]. pose proof (ex_thread _ _ _ _ He) as Hy.
  rewrite Hx in Hy. injection Hy as <-. split.
  { destruct Hto as [T1 T2 T3 T4]. unfold entered. split; destruct (t_curspl x =? 0); simpl; try done; by right. }
  destruct Hco as [H1 H2 H3 H4 H5 H6 H7]. unfold entered, enter_cpu.
  destruct Hcase as [(Hi & Hs0 & Hn & _)|(Hi & Hs0 & Hd)].
  - rewrite Hs0. simpl. split; simpl; try done; try lia; try congruence.
    + rewrite Hn. done.
    + intros _. split; [done|]. right. rewrite Hf, (to_int _ _ Hto), Hf. done.
  - rewrite Hs0. simpl. split; simpl; try done; try congruence.
    + rewrite H3, Hs0, Hh. done.
    + intros _. destruct (H5 Hi) as (_ & Hres & _). split_and!; try done. right. rewrite Hf, (to_int _ _ Hto), Hf. done.
Qed.
Lemma interrupt_step : c_irq c = true ∨ c_waiting c = true → ok_step m i Interrupt.
Proof.
  intros Hg. destruct (interruptible Hg) as (Hf & Hh & Hsv & Hcase).
  destruct (inv_exec _ _ Hinv i c Hc) as (y & He & Hco & Hto & H0); [done|]. pose proof (ex_thread _ _ _ _ He) as Hy.
  rewrite Hx in Hy. injection Hy as <-.
  assert (t_curspl x = 0 → t_iplhigh_count x = 0) as H00 by (destruct Hcase as [(_ & _ & ? & _)|(_ & E & _)]; [done|rewrite E; done]).
  unfold ok_step, perform. erewrite bind_ok by done. erewrite bind_ok by (eapply on_st_ok; by apply curthread_ok).
  erewrite bind_ok by (eapply on_st_ok; simpl; by eapply irq_enter_ok). fold cur.
  set (d := todo m i) in *. set (s1 := upd_cpu _ _ _).
  assert (∃ m', (match d with Waking ts => modify (set_saved cur ts) ;; modify (set_todo i Nothing) | _ => ret tt end) (set_st s1 (set_st (st m) m)) = Ok tt m' ∧
    st m' = s1 ∧ held m' = held m ∧ todo m' i = Nothing ∧ (∀ j, j ≠ i → todo m' j = todo m j) ∧ saved m' cur = in_hand d ∧ (∀ t, t ≠ cur → saved m' t = saved m t))
    as (m' & Hrun & Hst & Hh' & Ht & Htj & Hs & Hsj).
  { destruct Hcase as [(_ & _ & _ & [Hd|(ts & Hd)])|(_ & _ & Hd)]; rewrite Hd.
    1,3: by eexists; split; [done|].
    eexists. split; [done|]. simpl. rewrite !fn_lookup_insert. split_and!; try done.
    - intros. by rewrite fn_lookup_insert_ne.
    - intros. by rewrite fn_lookup_insert_ne. }
  exists m'. split; [exact Hrun|].
  assert (migrating d = false) as Hmig by (destruct Hcase as [(_ & _ & _ & [->|(ts & ->)])|(_ & _ & ->)]; done).
  assert (∀ p, p ≠ InHand i → p ≠ Saved cur → content m' p = content m p) as Hcont.
  { intros p H1 H2. apply (calm_content m m' i c enter_cpu entered); try done. intros t ->. apply Hsj. congruence. }
  assert (∀ t y, threads (st m') !! t = Some y → ∃ y0, threads (st m) !! t = Some y0 ∧ t_state y = t_state y0 ∧ t_cpu y = t_cpu y0 ∧ t_proc y = t_proc y0 ∧ (t_frames y0 ≠ [] → t_frames y ≠ [])) as Hthr.
  { intros t y. rewrite Hst. unfold s1. cbn [threads upd_cpu set_cpus]. rewrite threads_upd. case_decide as E; [subst t; rewrite Hx'|by intros Hy; exists y].
    intros [= <-]. exists x. unfold entered. by destruct (t_curspl x =? 0). }
  apply (inv_calm_moves m m' i c x enter_cpu entered); try done.
  - simpl. apply (in_cpu _ _ Hinv i c Hc).
  - eapply (placed_move _ _ _ (InHand i) (Saved cur) (in_hand d)); [apply (in_placed _ _ Hinv)|done|..].
    + simpl. rewrite Ht. simpl. by rewrite app_nil_r.
    + simpl. by rewrite Hs, Hsv, app_nil_r.
    + intros p H1 H2. by rewrite Hcont.
  - intros p t y Ht' Hy. destruct (Hthr t y Hy) as (y0 & Hy0 & E1 & E2 & E3 & _).
    destruct (decide (p = InHand i)) as [->|Hp1]; [simpl in Ht'; rewrite Ht in Ht'; by apply not_elem_of_nil in Ht'|].
    destruct (decide (p = Saved cur)) as [->|Hp2].
    + simpl in Ht'. rewrite Hs in Ht'. simpl. rewrite E1. apply (in_place _ _ Hinv (InHand i) t y0 Ht' Hy0).
    + rewrite Hcont in Ht' by done. eapply place_keep; try done; [by rewrite E3|]. intros j ->. rewrite Htj; [done|congruence].
  - by apply entered_ok.
  - by rewrite Ht.
  - rewrite Ht, Hh. by apply entered_ok.
  - intros t Hne. rewrite Hst. unfold s1. cbn [threads upd_cpu set_cpus]. rewrite threads_upd. case_decide as E.
    + subst t. rewrite Hx'. exists (entered x). split; [done|]. rewrite Hs in Hne. unfold entered.
      destruct Hcase as [(_ & E & _)|(_ & _ & E)]; [|by rewrite E in Hne]. rewrite E, Hf, (to_int _ _ Hto), Hf. done.
    + rewrite Hsj in Hne by done. by apply (in_saved _ _ Hinv).
  - intros j t Hdead. rewrite Hcont in Hdead by done. destruct (decide (t = cur)) as [->|]; [|rewrite Hsj by done; by apply (in_dead _ _ Hinv j)].
    rewrite Hs. destruct Hcase as [(Hi & _)|(_ & _ & ->)]; [|done].
    assert (cur ∈ content m (Running i)) as Hrun' by (cbn [content]; rewrite Hc, Hi; left).
    by specialize (pl_one _ _ (in_placed _ _ Hinv) _ _ _ Hdead Hrun').
Qed.

(** The frame of a handler that is about to return without locks, and the thread then. *)
Lemma return_frame : runs m i c x → t_frames x ≠ [] → held m i = [] →
  ∃ adj, t_frames x = [(false, adj)] ∧ t_curspl x = IPL_HIGH ∧ t_iplhigh_count x = 1 ∧ c_isidle c = negb adj.
Proof.
  intros Hr Hf Hh. destruct (runs_facts m i c x Hinv Hr) as (_ & [H1 H2 H3 H4 H5 H6 H7] & _). destruct (c_isidle c) eqn:Hi.
  - destruct (H5 eq_refl) as (Hs & _ & [(? & _)|?]); [done|]. exists false. rewrite H3, Hs, Hh. done.
  - destruct (H4 eq_refl) as (_ & [?|(? & Hs)]); [done|]. exists true. rewrite H3, Hs, Hh. done.
Qed.
Lemma returned_ok adj : runs m i c x → held m i = [] → t_frames x = [(false, adj)] → t_iplhigh_count x = 1 → t_curspl x = IPL_HIGH → c_isidle c = negb adj →
  thread_ok (length (cpus (st m))) (returned x) ∧ cpu_ok i (set_irq adj c) (returned x) [] (to_wake (saved m cur)).
Proof.
  intros Hr Hh Hfr Hn Hs Hi. destruct (runs_facts m i c x Hinv Hr) as (He & [H1 H2 H3 H4 H5 H6 H7] & Hto & H0 & Hcm).
  assert (t_cpu (returned x) = t_cpu x ∧ t_frames (returned x) = [] ∧ t_in_interrupt (returned x) = false ∧ t_stack (returned x) = t_stack x ∧
    t_context (returned x) = t_context x) as (L2 & L4 & L5 & L6 & L7) by (unfold returned; rewrite Hfr; by destruct adj).
  assert (t_curspl (returned x) = (if adj then 0 else 1) ∧ t_iplhigh_count (returned x) = (if adj then 0 else 1)) as [L8 L9]
    by (unfold returned; rewrite Hfr; destruct adj; simpl; [by rewrite Hn|done]).
  split.
  { destruct Hto as [T1 T2 T3 T4]. split; rewrite ?L2, ?L4, ?L5, ?L6, ?L8; try done. destruct adj; [by left|by right]. }
  split; rewrite ?L2, ?L4, ?L8, ?L9; simpl; try done.
  - by destruct adj.
  - by destruct adj.
  - intros Hi'. split; [by apply H4|by left].
  - intros Hi'. rewrite Hi in Hi'. destruct adj; [done|]. split; [done|]. destruct (H5 Hi) as (_ & Hres & _).
    split; [unfold resume_spl in *; by rewrite L7|]. left. split_and!; try done.
    destruct (saved m cur) eqn:E; [done|]. destruct (in_saved _ _ Hinv cur) as (y & Hy & Hfy); [by rewrite E|].
    rewrite Hx' in Hy. congruence.
  - intros _. destruct (saved m cur); [by left|right; by eexists].
  - intros Hw. destruct (H7 Hw) as [? _]. congruence.
Qed.
Lemma return_step : runs m i c x → t_frames x ≠ [] → held m i = [] → ok_step m i Return.
Proof.
  intros Hr Hf Hh. destruct (runs_facts m i c x Hinv Hr) as (He & _ & _ & _ & Hcm). pose proof (ru_todo _ _ _ _ Hr) as Hd.
  destruct (return_frame Hr Hf Hh) as (adj & Hfr & Hs & Hn & Hi). destruct (returned_ok adj Hr Hh Hfr Hn Hs Hi) as [Hto Hco].
  unfold ok_step, perform. erewrite bind_ok by done. erewrite bind_ok by (eapply on_st_ok; by apply curthread_ok).
  erewrite bind_ok by (eapply on_st_ok; simpl; by eapply irq_leave_ok). fold cur.
  eexists. split; [done|]. set (d := to_wake (saved m cur)). set (m' := set_saved _ _ _).
  assert (in_hand d = saved m cur) as Hhand by (unfold d; by destruct (saved m cur)).
  assert (todo m' i = d) as Ht by apply fn_lookup_insert.
  assert (∀ j, j ≠ i → todo m' j = todo m j) as Htj by (intros; simpl; by rewrite fn_lookup_insert_ne).
  assert (∀ p, p ≠ InHand i → p ≠ Saved cur → content m' p = content m p) as Hcont.
  { intros p E1 E2. apply (calm_content m m' i c (set_irq adj) returned); try done. intros t ->. simpl. rewrite fn_lookup_insert_ne; [done|congruence]. }
  assert (t_state (returned x) = t_state x ∧ t_cpu (returned x) = t_cpu x ∧ t_proc (returned x) = t_proc x) as (L1 & L2 & L3).
  { unfold returned. rewrite Hfr. by destruct adj. }
  apply (inv_calm_moves m m' i c x (set_irq adj) returned); try done.
  - simpl. apply (in_cpu _ _ Hinv i c Hc).
  - eapply (placed_move _ _ _ (Saved cur) (InHand i) (saved m cur)); [apply (in_placed _ _ Hinv)|done|..].
    + simpl. by rewrite fn_lookup_insert, app_nil_r.
    + cbn [content]. by rewrite Ht, Hhand, Hd, app_nil_r.
    + intros p E1 E2. by rewrite Hcont.
  - intros p t y Ht' Hy. cbn [st set_saved set_todo m' set_st threads upd_cpu set_cpus] in Hy. rewrite threads_upd in Hy.
    assert (∃ y0, threads (st m) !! t = Some y0 ∧ t_state y = t_state y0 ∧ t_cpu y = t_cpu y0 ∧ t_proc y = t_proc y0) as (y0 & Hy0 & E1 & E2 & E3).
    { case_decide as E; [subst t; rewrite Hx' in Hy; injection Hy as <-; by exists x|by exists y]. }
    destruct (decide (p = Saved cur)) as [->|Hp1]; [simpl in Ht'; rewrite fn_lookup_insert in Ht'; by apply not_elem_of_nil in Ht'|].
    destruct (decide (p = InHand i)) as [->|Hp2].
    + cbn [content place_ok] in *. rewrite Ht in *. rewrite Hhand in Ht'. split; [unfold d; by destruct (saved m cur)|].
      rewrite E1. apply (in_place _ _ Hinv (Saved cur) t y0 Ht' Hy0).
    + rewrite Hcont in Ht' by done. eapply place_keep; try done; [by rewrite E3|]. intros j ->. rewrite Htj; [done|congruence].
  - rewrite Ht. unfold d. by destruct (saved m cur).
  - by rewrite Ht, Hh.
  - intros t Hne. simpl in Hne. destruct (decide (t = cur)) as [->|Htc]; [by rewrite fn_lookup_insert in Hne|].
    rewrite fn_lookup_insert_ne in Hne by done. cbn [st set_saved set_todo m' set_st threads upd_cpu set_cpus].
    rewrite threads_upd, decide_False by done. by apply (in_saved _ _ Hinv).
  - intros j t Hdead. rewrite Hcont in Hdead by done. simpl. destruct (decide (t = cur)) as [->|]; [by rewrite fn_lookup_insert|].
    rewrite fn_lookup_insert_ne by done. by apply (in_dead _ _ Hinv j).
Qed.
End Interrupts.

(** ** Inter-processor interrupts *)

Definition halt_cpu (i : nat) (c : cpu) : cpu := set_halted true (set_irq false (set_ipi_lock (Some i) c)).

Section IpiHandler.
Context (s : sched) (i : nat) (c : cpu) (x : thread) (He : exec s i c x).
Context (Hil : c_ipi_lock c = None) (Hrl : c_runqueue_lock c = None) (Htlb : Z.testbit (c_ipi_pending c) IPI_TLBSHOOTDOWN = false).
Let Hc := ex_cpu _ _ _ _ He.
Let Hfree : holder s (IpiLock i) = Some None.
Proof. cbn [holder]. rewrite Hc. simpl. by rewrite Hil. Qed.
Let s1 := acquired i (IpiLock i) s.
Let He1 : exec s1 i (acq_cpu i (IpiLock i) i c) (add_iplhigh 1 x) := exec_acquired _ _ _ _ _ He.

Lemma cpu_halt_ok : cpu_halt i s1 = Ok tt (upd_cpu i (halt_cpu i) (upd_thread (c_curthread c) (add_iplhigh 1) s)).
Proof.
  unfold cpu_halt, cpu_irqoff. destruct He1 as [Hc1 _ _ _]. erewrite bind_ok by by eapply write_cpu_ok.
  erewrite write_cpu_ok by by apply cpu_upd. f_equal. unfold s1, acquired. rewrite (cur_of_at _ _ c Hc). cbn [hold]. by rewrite !upd_cpu_upd.
Qed.
Lemma ipi_handler_ok : interprocessor_interrupt i s =
  if Z.testbit (c_ipi_pending c) IPI_PANIC || Z.testbit (c_ipi_pending c) IPI_OFFLINE
  then Ok false (upd_cpu i (halt_cpu i) (upd_thread (c_curthread c) (add_iplhigh 1) s))
  else Ok true (upd_cpu i (set_ipi_pending 0) s).
Proof.
  unfold interprocessor_interrupt. erewrite bind_ok by by eapply acquire_ok. fold s1.
  pose proof (ex_cpu _ _ _ _ He1) as Hc1. erewrite bind_ok by by apply read_cpu_ok. cbv beta zeta. rewrite acq_pending, Htlb.
  destruct (Z.testbit _ IPI_PANIC).
  { by erewrite bind_ok by exact cpu_halt_ok. }
  destruct (Z.testbit _ IPI_OFFLINE).
  - assert (holder s1 (RunqLock i) = Some None) as Hr. { unfold s1. rewrite holder_acquired_ne by done. by eapply runq_free. }
    erewrite bind_ok by by eapply acquire_ok. erewrite bind_ok by by eapply release_acquired.
    by erewrite bind_ok by exact cpu_halt_ok.
  - erewrite bind_ok by done. erewrite bind_ok by by eapply write_cpu_ok. unfold s1. rewrite acquired_upd_cpu by apply _.
    erewrite bind_ok; [done|]. eapply release_acquired; [by apply exec_upd_cpu; [apply _|]|]. by rewrite holder_upd_cpu by apply _.
Qed.
End IpiHandler.

Section IpiStep.
Context (m : machine) (i : nat) (c : cpu) (x : thread) (Hinv : inv m) (Hr : runs m i c x) (Hf : t_frames x ≠ []).
Let Hc := ru_cpu _ _ _ _ Hr.
Let Hx := ru_thread _ _ _ _ Hr.
Let s' := upd_cpu i (halt_cpu i) (upd_thread (c_curthread c) (add_iplhigh 1) (st m)).

Lemma ipi_not_held j : IpiLock i ∉ held m j.
Proof.
  intros Hin%(in_held _ _ Hinv). cbn [holder] in Hin. rewrite Hc in Hin. simpl in Hin.
  rewrite (inv_ipi_free _ _ Hinv i c Hc) in Hin by apply Hr. done.
Qed.
Lemma halted_held l j : holder s' l = Some (Some j) ↔ l ∈ (<[i := IpiLock i :: held m i]> (held m)) j.
Proof.
  destruct (decide (l = IpiLock i)) as [->|Hne].
  - assert (holder s' (IpiLock i) = Some (Some i)) as ->.
    { unfold s'. cbn [holder]. rewrite cpus_upd, decide_True by done. cbn [cpus upd_thread set_threads]. by rewrite Hc. }
    destruct (decide (j = i)) as [->|Hj]; [rewrite fn_lookup_insert; split; [by left|done]|].
    rewrite fn_lookup_insert_ne by done. split; [congruence|]. intros Hin. by destruct (ipi_not_held j).
  - assert (holder s' l = holder (st m) l) as ->.
    { unfold s'. destruct l as [k|k| |]; try done; cbn [holder]; rewrite cpus_upd; cbn [cpus upd_thread set_threads];
        case_decide; try done; subst; [by rewrite Hc|done]. }
    rewrite (in_held _ _ Hinv). destruct (decide (j = i)) as [->|Hj]; [|by rewrite fn_lookup_insert_ne].
    rewrite fn_lookup_insert, elem_of_cons. naive_solver.
Qed.
(** A processor that halts keeps the lock of its pending interrupts. *)
Lemma ipi_halt_inv : inv (set_held i (IpiLock i :: held m i) (set_st s' m)).
Proof.
  destruct (runs_facts m i c x Hinv Hr) as (He & Hco & Hto & H0 & Hcm). set (m' := set_held _ _ _).
  assert (cpus (st m') !! i = Some (halt_cpu i c)) as Hc' by (simpl st; apply cpu_upd; exact Hc).
  pose proof (ru_todo _ _ _ _ Hr) as Htodo.
  apply (inv_still m m' i c x (halt_cpu i) (add_iplhigh 1) (st m)); try done.
  - intros j Hj. simpl. by rewrite fn_lookup_insert_ne.
  - intros _. by left.
  - by destruct Hto.
  - simpl. by rewrite Htodo.
  - simpl. rewrite fn_lookup_insert, Htodo. destruct Hco as [H1 H2 H3 H4 H5 H6 H7]. split; simpl; try done.
    + rewrite H3. symmetry. apply Z.eqb_neq. unfold lengthZ. lia.
    + rewrite H3, lengthZ_cons. lia.
    + intros Hi. destruct (H5 Hi) as (? & ? & [(? & _)|?]); [done|]. split_and!; try done. by right.
  - apply halted_held.
  - simpl. rewrite fn_lookup_insert. destruct (in_locks _ _ Hinv i) as [Hnd Hlo]. split; [apply NoDup_cons; split; [apply ipi_not_held|done]|].
    intros l' [->|Hin]%elem_of_cons; [split; [done|]; by eexists|]. specialize (Hlo l' Hin). destruct l'; try done.
    destruct Hlo as (-> & _). by destruct (ipi_not_held i).
Qed.
Lemma ipi_clear_inv : inv (set_todo i Clearing (set_st (upd_cpu i (set_ipi_pending 0) (st m)) m)).
Proof.
  destruct (runs_facts m i c x Hinv Hr) as (He & Hco & Hto & H0 & Hcm). set (m' := set_todo _ _ _).
  pose proof (ru_todo _ _ _ _ Hr) as Htodo. apply (inv_calm m m' i c x (set_ipi_pending 0) id); try done.
  - simpl. by erewrite upd_thread_id.
  - intros j Hj. simpl. by rewrite fn_lookup_insert_ne.
  - simpl. by rewrite fn_lookup_insert, Htodo.
  - by rewrite Htodo.
  - intros _. by left.
  - simpl. by rewrite fn_lookup_insert.
  - simpl. rewrite fn_lookup_insert. destruct Hco as [H1 H2 H3 H4 H5 H6 H7]. split; try done; simpl.
    intros Hi. destruct (H5 Hi) as (? & ? & [(? & _)|?]); [done|]. split_and!; try done. by right.
Qed.
Lemma ipi_step : ok_step m i Ipi.
Proof.
  destruct (runs_facts m i c x Hinv Hr) as (He & Hco & Hto & H0 & [Hrl Htlb]).
  unfold ok_step, perform. erewrite bind_ok by done.
  assert (c_ipi_lock c = None) as Hil by (eapply inv_ipi_free; [done|apply Hr|apply Hr]).
  pose proof (ipi_handler_ok _ _ _ _ He Hil Hrl Htlb) as Hrun.
  destruct (Z.testbit _ IPI_PANIC || Z.testbit _ IPI_OFFLINE); apply on_st_ok in Hrun; rewrite (bind_ok _ _ _ _ _ Hrun); eexists; (split; [done|]).
  - apply ipi_halt_inv.
  - apply ipi_clear_inv.
Qed.
End IpiStep.
