(* ===== verification/SchedMove.v ===== *)
(** * Threads handed over

    Wakeups, migration and new threads keep the invariant of the thread system. *)

From Stdlib Require Import String.
From stdpp Require Import list functions.
From S2P Require Import Prelude Sched SchedOps SchedSwitch SchedInv SchedStep.
#[local] Open Scope kern_scope.

Definition same_kind (d d' : todo_t) : Prop :=
  match d, d' with
  | Waking _, Waking _ => True
  | Sending _ _ _ _, Sending _ _ n vs => (n ≤ length vs)%nat
  | _, _ => False
  end.

(** ** A thread goes from the hands of a processor to a run queue *)

Section Deliver.
Context (m : machine) (i j : nat) (t : Z) (d : cpu) (y : thread) (D : todo_t) (Hinv : inv m).
Context (Hd : cpus (st m) !! j = Some d) (Hy : threads (st m) !! t = Some y).
Context (Hhand : in_hand (todo m i) ≡ₚ t :: in_hand D) (Hkind : same_kind (todo m i) D).
Context (Hcur : t_cpu y = Some j ∨ ¬ current m None t).
Let m' := set_todo i D (set_st (give j t (st m)) m).

Lemma deliver_cpus k : cpus (st m') !! k = if decide (j = k) then Some (enqueue t d) else cpus (st m) !! k.
Proof. cbn [st m' set_todo set_st]. unfold give. rewrite cpus_upd. cbn [cpus upd_thread set_threads]. case_decide; [subst; by rewrite Hd|done]. Qed.
Lemma deliver_threads t' : threads (st m') !! t' = if decide (t = t') then Some (set_t_cpu (Some j) y) else threads (st m) !! t'.
Proof. cbn [st m' set_todo set_st give threads upd_cpu set_cpus]. rewrite threads_upd. case_decide; [subst; by rewrite Hy|done]. Qed.
Lemma deliver_todo k : k ≠ i → todo m' k = todo m k.
Proof. intros H. simpl. by rewrite fn_lookup_insert_ne. Qed.
Lemma deliver_todo_i : todo m' i = D.
Proof. apply fn_lookup_insert. Qed.
Lemma enqueue_rest : c_curthread (enqueue t d) = c_curthread d ∧ c_zombies (enqueue t d) = c_zombies d ∧ c_irq (enqueue t d) = c_irq d ∧
  c_waiting (enqueue t d) = c_waiting d ∧ c_halted (enqueue t d) = c_halted d ∧ (c_isidle d = true → c_ipi (enqueue t d) = true) ∧
  (Z.testbit (c_ipi_pending d) IPI_TLBSHOOTDOWN = false → Z.testbit (c_ipi_pending (enqueue t d)) IPI_TLBSHOOTDOWN = false).
Proof.
  unfold enqueue. destruct (c_isidle d); split_and!; try done. intros H. unfold poke.
  cbn [c_ipi_pending set_ipi set_ipi_pending set_runqueue]. by rewrite Z.lor_spec, H.
Qed.
Lemma deliver_content p : p ≠ InHand i → p ≠ Queued j → content m' p = content m p.
Proof.
  intros H1 H2. destruct (enqueue_fields t d) as (_ & _ & E1 & E2), enqueue_rest as (E3 & E4 & _).
  destruct p as [k|k|k|k|t'|w]; cbn [content]; rewrite ?deliver_cpus; try done.
  - case_decide; [subst k|done]. rewrite Hd, E1, E3. done.
  - rewrite decide_False by congruence. done.
  - case_decide; [subst k|done]. rewrite Hd. simpl. done.
  - rewrite deliver_todo by congruence. done.
Qed.
Lemma deliver_queue : content m' (Queued j) = content m (Queued j) ++ [t].
Proof. cbn [content]. rewrite deliver_cpus, decide_True, Hd by done. simpl. apply enqueue_fields. Qed.
Lemma deliver_kind : migrating D = migrating (todo m i) ∧ D ≠ Nothing ∧ todo m i ≠ Nothing ∧ ((∃ ts, todo m i = Waking ts) → ∃ ts, D = Waking ts).
Proof. destruct (todo m i), D; simpl in *; try done; split_and!; try done; [intros _; by eexists|by intros [? ?]]. Qed.

Lemma deliver_cpu_ok k c : cpus (st m') !! k = Some c → common c ∧ todo_ok c (held m' k) (todo m' k) ∧
  ∃ x, threads (st m') !! c_curthread c = Some x ∧ cpu_ok k c x (held m' k) (todo m' k).
Proof.
  destruct (enqueue_fields t d) as (E0 & E0' & E1 & E2), enqueue_rest as (E3 & E4 & E5 & E6 & E7 & E8 & E9).
  intros Hk. assert (∃ c0, cpus (st m) !! k = Some c0 ∧ c_curthread c = c_curthread c0 ∧ c_isidle c = c_isidle c0 ∧ c_irq c = c_irq c0 ∧ c_waiting c = c_waiting c0 ∧
    (common c0 → common c) ∧ (length (c_runqueue c0) ≤ length (c_runqueue c))%nat ∧ (c_isidle c0 = true → (c_runqueue c0 ≠ [] → c_ipi c0 = true) → c_runqueue c ≠ [] → c_ipi c = true))
    as (c0 & Hc0 & F1 & F2 & F3 & F4 & F5 & F6 & F7).
  { rewrite deliver_cpus in Hk. case_decide; [subst k; injection Hk as <-|by exists c]. exists d. rewrite E1, E2, E3, E5, E6. unfold common.
    rewrite E0, length_app. split_and!; try done; [by intros [? ?]; auto|lia|auto]. }
  destruct (in_cpu _ _ Hinv k c0 Hc0) as (G1 & G2 & x & Hx & G3). rewrite decide_False in G3 by done. rewrite F1.
  split; [auto|]. destruct deliver_kind as (K1 & K2 & K3 & K4). split.
  - destruct (decide (k = i)) as [->|]; [rewrite deliver_todo_i|rewrite deliver_todo by done].
    + destruct (todo m i), D; simpl in *; try done. split; [apply G2|done].
    + change (held m' k) with (held m k). destruct (todo m k); simpl in *; try done; unfold lengthZ in *; split; try apply G2; lia.
  - assert (∃ x', threads (st m') !! c_curthread c0 = Some x' ∧ t_cpu x' = t_cpu x ∧ t_curspl x' = t_curspl x ∧ t_iplhigh_count x' = t_iplhigh_count x ∧ t_frames x' = t_frames x ∧ resume_spl x' = resume_spl x)
      as (x' & Hx' & J1 & J2 & J3 & J4 & J5).
    { rewrite deliver_threads. case_decide as Ht; [|by exists x]. exists (set_t_cpu (Some j) y). split; [done|]. rewrite <- Ht in Hx.
      rewrite Hy in Hx. injection Hx as Ex. rewrite <- Ex. split_and!; try done. destruct Hcur as [?|Hnc]; [done|]. destruct Hnc. by exists k, c0. }
    exists x'. split; [done|]. change (held m' k) with (held m k). destruct G3 as [H1 H2 H3 H4 H5 H6 H7].
    split; rewrite ?F2, ?F3, ?F4, ?J1, ?J2, ?J3, ?J4, ?J5; try done.
    + intros Hi. destruct (H5 Hi) as (? & ? & Hcase). split_and!; try done.
      destruct (decide (k = i)) as [->|]; [|by rewrite deliver_todo]. destruct Hcase as [(_ & _ & ?)|]; [done|by right].
    + intros Hf. destruct (decide (k = i)) as [->|]; [rewrite deliver_todo_i|rewrite deliver_todo by done; auto].
      destruct (H6 Hf) as [?|?]; [done|]. right. auto.
    + intros Hw. destruct (H7 Hw) as [Hf Hq]. split; [done|]. apply F7; [|done]. destruct (c_isidle c0) eqn:Hi; [done|]. destruct (H4 eq_refl). congruence.
Qed.

Lemma deliver_place p t' y' : t' ∈ content m' p → threads (st m') !! t' = Some y' → place_ok m' p y'.
Proof.
  destruct deliver_kind as (K1 & K2 & K3 & K4).
  assert (t ∈ in_hand (todo m i)) as Hin by (rewrite Hhand; left).
  intros Hp. rewrite deliver_threads. intros Hy'.
  assert (∀ p0, t' ∈ content m p0 → t' ≠ t → (∀ k, p0 = InHand k → migrating (todo m' k) = true → migrating (todo m k) = true) → place_ok m' p0 y') as Hkeep.
  { intros p0 Hp0 Hne Hm. rewrite decide_False in Hy' by done. by eapply place_keep. }
  assert (t ∈ content m p → p = InHand i) as Hone by (intros ?; by eapply (pl_one _ _ (in_placed _ _ Hinv)); [..|exact Hin]).
  destruct (decide (p = Queued j)) as [->|Hq].
  - rewrite deliver_queue in Hp. destruct (decide (t' = t)) as [->|Hne].
    + rewrite decide_True in Hy' by done. injection Hy' as <-. split; [done|]. simpl. apply (in_place _ _ Hinv (InHand i) t y Hin Hy).
    + apply Hkeep; [|done|done]. apply elem_of_app in Hp as [?|?%list_elem_of_singleton]; done.
  - destruct (decide (p = InHand i)) as [->|Hi].
    + cbn [content] in Hp. rewrite deliver_todo_i in Hp. apply Hkeep.
      * cbn [content]. rewrite Hhand. by right.
      * intros ->. pose proof (pl_nodup _ _ (in_placed _ _ Hinv) (InHand i)) as Hnd. cbn [content] in Hnd. rewrite Hhand in Hnd. by apply NoDup_cons in Hnd as [? _].
      * intros k [= <-]. by rewrite deliver_todo_i, K1.
    + rewrite deliver_content in Hp by done. apply Hkeep; [done|intros ->; auto|]. intros k ->. rewrite deliver_todo; [done|congruence].
Qed.
Lemma inv_deliver : inv m'.
Proof.
  assert (length (cpus (st m')) = length (cpus (st m))) as Hlen by (simpl; by rewrite length_alter).
  split.
  - eapply placed_ext; [eapply (placed_move _ _ _ (InHand i) (Queued j) [t]); [apply (in_placed _ _ Hinv)|done|..]|done|].
    + cbn [content]. by rewrite deliver_todo_i.
    + rewrite deliver_queue. by rewrite Permutation_app_comm.
    + intros p H1 H2. by rewrite deliver_content.
    + intros t'. rewrite deliver_threads. case_decide; [subst; rewrite Hy|done]. split; by eexists.
  - apply deliver_place.
  - intros t' y'. rewrite deliver_threads, Hlen. case_decide; [|apply (in_thread _ _ Hinv)]. intros [= <-].
    destruct (in_thread _ _ Hinv _ _ Hy) as [T1 T2 T3 T4]. split; try done. exists j. split; [done|]. by eapply lookup_lt_Some.
  - intros t' y'. rewrite deliver_threads. intros Hy' Hcu.
    assert (∀ t0, current m None t0 → current m' None t0) as Hcur'.
    { intros t0 (k & c & Hc & _ & E). destruct (decide (j = k)) as [<-|].
      - exists j, (enqueue t d). rewrite deliver_cpus, decide_True by done. split_and!; try done. rewrite (proj1 enqueue_rest). congruence.
      - exists k, c. rewrite deliver_cpus, decide_False by done. done. }
    case_decide; [|apply (in_away _ _ Hinv t'); auto]. injection Hy' as <-. subst t'.
    apply (in_away _ _ Hinv t y); auto.
  - intros k c Hk. destruct (deliver_cpu_ok k c Hk) as (? & ? & x & ? & ?). split; [done|]. split; [done|]. exists x. by rewrite decide_False.
  - intros t' Hs. destruct (in_saved _ _ Hinv t' Hs) as (x & Hx & Hf). rewrite deliver_threads. case_decide; [|by eauto].
    subst. eexists. split; [done|]. simpl. congruence.
  - intros k t'. rewrite deliver_content by done. apply (in_dead _ _ Hinv).
  - intros l k. change (holder (st m') l) with (holder (give j t (st m)) l). unfold give. rewrite (holder_upd_cpu (enqueue t)), holder_upd_thread. apply (in_held _ _ Hinv).
  - intros k. destruct (in_locks _ _ Hinv k) as [Hnd Hl]. split; [done|]. intros l Hlin. specialize (Hl l Hlin). destruct l as [|l| |]; try done.
    destruct Hl as (-> & c & Hc & Hh). split; [done|]. rewrite deliver_cpus. case_decide; [subst|by eauto]. eexists. split; [done|].
    destruct enqueue_rest as (_ & _ & _ & _ & -> & _). congruence.
  - intros t' Ht. destruct (in_fresh _ _ Hinv t' Ht) as [E1 E2]. split; [|done]. rewrite deliver_threads, decide_False by congruence. done.
Qed.
End Deliver.

(** ** The stages of a routine *)

Lemma set_st_same m : set_st (st m) m = m.
Proof. by destruct m. Qed.

(** The rest of a routine is rearranged. *)
Lemma inv_retodo m i c x D : inv m → cpus (st m) !! i = Some c → threads (st m) !! c_curthread c = Some x →
  in_hand D ≡ₚ in_hand (todo m i) → (in_hand D ≠ [] → migrating D = true → migrating (todo m i) = true) →
  t_frames x ≠ [] ∨ (D = Nothing ∧ todo m i ≠ Nothing) → todo_ok c (held m i) D →
  inv (set_todo i D m).
Proof.
  intros Hinv Hc Hx Hh Hmig HD Htd. set (m' := set_todo i D m).
  assert (todo m' i = D) as Hi by apply fn_lookup_insert.
  assert (∀ j, j ≠ i → todo m' j = todo m j) as Hj by (intros; simpl; by rewrite fn_lookup_insert_ne).
  destruct (in_cpu _ _ Hinv i c Hc) as (Hcm & _ & y & Hy & Hco). rewrite Hx in Hy. injection Hy as <-. rewrite decide_False in Hco by done.
  assert (∀ p, content m' p ≡ₚ content m p) as Hcont.
  { intros p. destruct (decide (p = InHand i)) as [->|Hp]; [cbn [content]; by rewrite Hi|]. destruct p; try done.
    cbn [content]. rewrite Hj; [done|congruence]. }
  apply (inv_calm_moves m m' i c x id id); try done.
  - simpl. rewrite (upd_thread_id _ _ x) by done. by rewrite (upd_cpu_id _ _ c).
  - apply Hcm.
  - eapply placed_ext; [apply (in_placed _ _ Hinv)|done|done].
  - intros p t z Ht Hz. rewrite Hcont in Ht. eapply place_keep; try done. intros k ->.
    destruct (decide (k = i)) as [->|]; [|by rewrite Hj]. rewrite Hi. apply Hmig. intros E. cbn [content] in Ht. rewrite <- Hh, E in Ht.
    by apply not_elem_of_nil in Ht.
  - apply (in_thread _ _ Hinv _ _ Hx).
  - by rewrite Hi.
  - rewrite Hi. destruct Hco as [H1 H2 H3 H4 H5 H6 H7]. split; try done.
    + intros Hidle. destruct (H5 Hidle) as (? & ? & [(Hf & ? & Hd)|?]); split_and!; try done; [|by right].
      left. split_and!; try done. destruct HD as [|[-> _]]; done.
    + intros Hf. destruct HD as [|[-> _]]; [done|by left].
  - apply (in_saved _ _ Hinv).
  - apply (in_dead _ _ Hinv).
Qed.

Lemma inv_at m i c x : inv m → cpus (st m) !! i = Some c → threads (st m) !! c_curthread c = Some x → exec (st m) i c x ∧ cpu_ok i c x (held m i) (todo m i).
Proof. intros Hinv Hc Hx. destruct (inv_exec _ _ Hinv i c Hc) as (y & He & ? & _); [done|]. pose proof (ex_thread _ _ _ _ He). simplify_eq. done. Qed.

Section Stages.
Context (m : machine) (i : nat) (c : cpu) (x : thread) (Hinv : inv m).
Context (Hc : cpus (st m) !! i = Some c) (Hx : threads (st m) !! c_curthread c = Some x).

Lemma stage_frames : todo m i ≠ Nothing → (∀ ts, todo m i ≠ Waking ts) → t_frames x ≠ [].
Proof. intros H1 H2 Hf. destruct (inv_at m i c x Hinv Hc Hx) as [_ Hco]. destruct (co_todo _ _ _ _ _ Hco Hf) as [?|[ts ?]]; [done|]. by apply (H2 ts). Qed.
Lemma stage_todo : common c ∧ todo_ok c (held m i) (todo m i).
Proof. destruct (in_cpu _ _ Hinv i c Hc) as (? & ? & _). done. Qed.

Definition stage_ok : Prop := ∃ m', continue i m = Ok tt m' ∧ inv m'.

Lemma wake_done_stage : todo m i = Waking [] → stage_ok.
Proof.
  intros Hd. unfold stage_ok, continue. erewrite bind_ok by done. cbv zeta. rewrite Hd. eexists. split; [done|].
  eapply inv_retodo; try done; rewrite ?Hd; try done. by right.
Qed.
Lemma wake_stage t ts : todo m i = Waking (t :: ts) →
  (∀ y j, threads (st m) !! t = Some y → t_cpu y = Some j → reachable_cpu (st m) j) → stage_ok.
Proof.
  intros Hd Hg. destruct (inv_at m i c x Hinv Hc Hx) as [He _].
  assert (is_Some (threads (st m) !! t)) as [y Hy]. { apply (pl_all _ _ (in_placed _ _ Hinv)). exists (InHand i). simpl. rewrite Hd. left. }
  destruct (to_cpu _ _ (in_thread _ _ Hinv t y Hy)) as (j & Hj & Hlt). apply lookup_lt_is_Some in Hlt as [d Hdj].
  destruct (in_cpu _ _ Hinv j d Hdj) as ([Hrl _] & _).
  assert (thread_make_runnable i t false (st m) = Ok tt (give j t (st m))) as Hrun.
  { erewrite make_runnable_ok; [|done|done|done|done|done|by apply (Hg y j)]. f_equal. unfold give.
    rewrite (upd_thread_id _ _ y); [done|done|]. destruct y; simpl in *; by subst. }
  unfold stage_ok, continue. erewrite bind_ok by done. cbv zeta. rewrite Hd. erewrite bind_ok by by eapply on_st_ok.
  eexists. split; [done|]. eapply inv_deliver; try done; rewrite ?Hd; try done. by left.
Qed.
Lemma count_stage j my total : todo m i = Counting j my total → stage_ok.
Proof.
  intros Hd. destruct (inv_at m i c x Hinv Hc Hx) as [He Hco]. destruct stage_todo as [Hcm Htd]. rewrite Hd in Htd. destruct Htd as (Hh & Hmy & Htot).
  assert (t_frames x ≠ []) as Hf by (apply stage_frames; by rewrite Hd).
  unfold stage_ok, continue. erewrite bind_ok by done. cbv zeta. rewrite Hd. case_decide as Hlt.
  - apply lookup_lt_is_Some in Hlt as [d Hdj]. destruct (in_cpu _ _ Hinv j d Hdj) as ([Hrl _] & _).
    erewrite bind_ok by by eapply on_st_ok, count_queue_ok. rewrite set_st_same. eexists. split; [done|].
    eapply inv_retodo; try done; rewrite ?Hd; try done; [by left|]. split; [done|]. unfold lengthZ in *. case_decide; [subst j; simplify_eq; lia|lia].
  - eexists. split; [done|]. eapply inv_retodo; try done; rewrite ?Hd; [by case_match|by case_match|by left|].
    case_match; [done|]. split; [done|]. set (share := DIVROUNDUP _ _).
    assert (0 < Z.of_nat (length (cpus (st m)))) as Hn by (apply lookup_lt_Some in Hc; lia).
    pose proof (DIVROUNDUP_spec total _ Htot Hn) as Hs. fold share in Hs. unfold lengthZ in Hmy. assert (0 ≤ share) by nia. lia.
Qed.
(** The threads of the run queue and those in hand are shared out in another way. *)
Lemma inv_own q D : (migrating (todo m i) = true ∨ in_hand (todo m i) = []) → t_frames x ≠ [] →
  c_runqueue c ++ in_hand (todo m i) ≡ₚ q ++ in_hand D → todo_ok (set_runqueue q c) (held m i) D →
  inv (set_todo i D (set_st (upd_cpu i (set_runqueue q) (st m)) m)).
Proof.
  intros Hmig Hf Hperm Htd. destruct (inv_at m i c x Hinv Hc Hx) as [He Hco]. destruct stage_todo as [Hcm _]. set (m' := set_todo _ _ _).
  assert (todo m' i = D) as Hi by apply fn_lookup_insert.
  assert (∀ j, j ≠ i → todo m' j = todo m j) as Hj by (intros; simpl; by rewrite fn_lookup_insert_ne).
  assert (cpus (st m') !! i = Some (set_runqueue q c)) as Hc' by by apply cpu_upd.
  assert (∀ p, p ≠ Queued i → p ≠ InHand i → content m' p = content m p) as Hcont.
  { intros p H1 H2. destruct p as [j|j|j|j|t|w]; try done; cbn [content].
    1,2,3: destruct (decide (j = i)) as [->|]; [rewrite Hc', Hc; done|].
    1,2,3: cbn [st m' set_todo set_st]; by rewrite cpu_upd_ne.
    by rewrite Hj by congruence. }
  assert (content m' (Queued i) ++ content m' (InHand i) ≡ₚ content m (Queued i) ++ content m (InHand i)) as Hshare.
  { cbn [content]. by rewrite Hc, Hc', Hi. }
  apply (inv_calm_moves m m' i c x (set_runqueue q) id); try done.
  - simpl. by rewrite (upd_thread_id _ _ x).
  - apply Hcm.
  - eapply (placed_share _ _ _ (Queued i) (InHand i)); [apply (in_placed _ _ Hinv)|done|done|]. intros p H1 H2. by rewrite Hcont.
  - intros p t y Ht Hy. assert (t ∈ content m' (Queued i) ++ content m' (InHand i) → t_cpu y = Some i ∧ (t_state y = S_READY ∨ t_state y = S_SLEEP)) as Hown.
    { rewrite Hshare. intros [Hin|Hin]%elem_of_app; [by apply (in_place _ _ Hinv (Queued i) t y)|].
      destruct (in_place _ _ Hinv (InHand i) t y Hin Hy) as [H1 H2]. split; [|done]. destruct Hmig as [|E]; [auto|].
      cbn [content] in Hin. rewrite E in Hin. by apply not_elem_of_nil in Hin. }
    destruct (decide (p = InHand i)) as [->|Hp1]; [|destruct (decide (p = Queued i)) as [->|Hp2]].
    + destruct Hown; [apply elem_of_app; by right|]. done.
    + destruct Hown; [apply elem_of_app; by left|]. done.
    + rewrite Hcont in Ht by done. eapply (place_keep _ m _ _ t); try done. intros k ->. rewrite Hj; [done|congruence].
  - apply (in_thread _ _ Hinv _ _ Hx).
  - by rewrite Hi.
  - rewrite Hi. destruct Hco as [H1 H2 H3 H4 H5 H6 H7]. split; try done.
    + intros Hidle. destruct (H5 Hidle) as (? & ? & [(? & _)|?]); [done|]. split_and!; try done. by right.
    + intros Hw. by destruct (H7 Hw).
  - apply (in_saved _ _ Hinv).
  - intros j t. rewrite Hcont by done. apply (in_dead _ _ Hinv).
Qed.
Lemma take_stage share n : todo m i = Taking share n → stage_ok.
Proof.
  intros Hd. destruct (inv_at m i c x Hinv Hc Hx) as [He Hco]. destruct stage_todo as [Hcm Htd]. rewrite Hd in Htd. destruct Htd as [Hh Hn].
  set (q := take (length (c_runqueue c) - n) (c_runqueue c)). set (r := drop (length (c_runqueue c) - n) (c_runqueue c)).
  assert (c_runqueue c = q ++ r) as Hq by (unfold q, r; by rewrite take_drop).
  assert (length r = n) as Hr by (unfold r; rewrite length_drop; lia).
  unfold stage_ok, continue. erewrite bind_ok by done. cbv zeta. rewrite Hd.
  erewrite bind_ok by (eapply on_st_ok, take_section_ok; [done|apply Hcm|done|done]). eexists. split; [done|].
  apply inv_own; rewrite ?Hd; [by right|apply stage_frames; by rewrite Hd|cbn [in_hand]; by rewrite app_nil_r, <- Hq|]. split; [done|lia].
Qed.
Lemma put_stage vs : todo m i = Putting vs → stage_ok.
Proof.
  intros Hd. destruct (inv_at m i c x Hinv Hc Hx) as [He Hco]. destruct stage_todo as [Hcm Htd]. rewrite Hd in Htd.
  unfold stage_ok, continue. erewrite bind_ok by done. cbv zeta. rewrite Hd.
  erewrite bind_ok by (eapply on_st_ok, put_back_ok; [done|apply Hcm]).
  rewrite (upd_cpu_at _ _ c _ (set_runqueue (c_runqueue c ++ vs))) by done. eexists. split; [done|].
  apply inv_own; rewrite ?Hd; [by left|apply stage_frames; by rewrite Hd|cbn [in_hand]; by rewrite app_nil_r|done].
Qed.
Lemma clear_stage : todo m i = Clearing → stage_ok.
Proof.
  intros Hd. destruct (inv_at m i c x Hinv Hc Hx) as [He Hco]. destruct stage_todo as [Hcm Htd].
  assert (t_frames x ≠ []) as Hf by (apply stage_frames; by rewrite Hd).
  unfold stage_ok, continue. erewrite bind_ok by done. cbv zeta. rewrite Hd.
  erewrite bind_ok by by eapply on_st_ok, write_cpu_ok. eexists. split; [done|]. set (m' := set_todo _ _ _).
  assert (todo m' i = Nothing) as Hi by apply fn_lookup_insert.
  apply (inv_calm m m' i c x (set_ipi false) id); try done; rewrite ?Hi, ?Hd; try done.
  - simpl. by rewrite (upd_thread_id _ _ x).
  - intros j Hj. simpl. by rewrite fn_lookup_insert_ne.
  - apply Hcm.
  - intros _. by left.
  - apply (in_thread _ _ Hinv _ _ Hx).
  - destruct Hco as [H1 H2 H3 H4 H5 H6 H7]. split; try done.
    + intros Hidle. destruct (H5 Hidle) as (? & ? & [(? & _)|?]); [done|]. split_and!; try done. by right.
    + intros Hw. by destruct (H7 Hw).
Qed.
End Stages.

(** Machines that agree on everything. *)
Lemma inv_ext m m' : inv m → st m' = st m → (∀ i, held m' i = held m i) → (∀ i, todo m' i = todo m i) → (∀ t, saved m' t = saved m t) → inv m'.
Proof.
  intros [H1 H2 H3 H4 H5 H6 HD H7 H8 H9] E1 E2 E3 E4.
  assert (∀ p, content m' p = content m p) as Hcont by (intros p; destruct p; simpl; by rewrite ?E1, ?E3, ?E4).
  split; rewrite ?E1; try done.
  - eapply placed_ext; [done| |done]. intros p. by rewrite Hcont.
  - intros p t x Ht Hx. rewrite Hcont in Ht. specialize (H2 p t x Ht Hx). destruct p; simpl in *; by rewrite ?E3.
  - intros t x Hx Hcu. apply (H4 t x Hx). intros (j & c & Hc & ?). apply Hcu. exists j, c. by rewrite E1.
  - intros i c. rewrite E2, E3. apply H5.
  - intros t. rewrite E4. apply H6.
  - intros i t. rewrite Hcont, E4. apply HD.
  - intros l i. rewrite E2. apply H7.
  - intros i. rewrite E2. destruct (H8 i) as [Hnd Hl]. split; [done|]. intros l Hin. specialize (Hl l Hin). destruct l; try done. simpl. by rewrite E1.
Qed.

Section Send.
Context (i j k : nat) (share : Z) (Hne : j ≠ i).

Lemma inv_deal n m vs c x d sent n' r : inv m → todo m i = Sending k share n vs →
  cpus (st m) !! i = Some c → threads (st m) !! c_curthread c = Some x → cpus (st m) !! j = Some d →
  deal (c_curthread c) share n vs (lengthZ (c_runqueue d)) = (sent, n', r) →
  inv (set_todo i (Sending k share n' r) (set_st (give_all j sent (st m)) m)).
Proof.
  revert m vs d sent. induction n as [|n IH]; intros m vs d sent Hinv Htd Hc Hx Hd Hdeal.
  { simpl in Hdeal. simplify_eq. eapply inv_ext; [exact Hinv|done|done| |done].
    intros l. simpl. destruct (decide (l = i)) as [->|]; [by rewrite fn_lookup_insert|by rewrite fn_lookup_insert_ne]. }
  assert (t_frames x ≠ []) as Hf by (apply (stage_frames m i c x); try done; by rewrite Htd).
  destruct (stage_todo m i c Hinv Hc) as [_ Htok]. rewrite Htd in Htok. destruct Htok as [Hh Hn].
  destruct vs as [|t vs]; [simpl in Hn; lia|]. simpl in Hdeal. destruct (_ <? share).
  2: { simplify_eq. eapply inv_ext; [exact Hinv|done|done| |done].
       intros l. simpl. destruct (decide (l = i)) as [->|]; [by rewrite fn_lookup_insert|by rewrite fn_lookup_insert_ne]. }
  destruct (Z.eqb_spec t (c_curthread c)) as [->|Hcur].
  - assert (inv (set_todo i (Sending k share n (vs ++ [c_curthread c])) m)) as Hinv1.
    { eapply inv_retodo; try done; rewrite ?Htd; cbn [in_hand]; [by rewrite Permutation_app_comm|done|by left|]. split; [done|].
      rewrite length_app. simpl in *. lia. }
    eapply inv_ext; [eapply (IH _ (vs ++ [c_curthread c])); [exact Hinv1|apply fn_lookup_insert|done..]|done|done| |done].
    intros l. simpl. destruct (decide (l = i)) as [->|]; [by rewrite !fn_lookup_insert|by rewrite !fn_lookup_insert_ne].
  - destruct (deal _ _ n vs _) as [[sent' m'] r'] eqn:Hd'. injection Hdeal as <- <- <-.
    assert (t ∈ content m (InHand i)) as Hin by (cbn [content]; rewrite Htd; left).
    assert (is_Some (threads (st m) !! t)) as [y Hy] by (apply (pl_all _ _ (in_placed _ _ Hinv)); by eauto).
    destruct (in_place _ _ Hinv _ _ _ Hin Hy) as [Hcpu _]. rewrite Htd in Hcpu. specialize (Hcpu eq_refl).
    set (m1 := set_todo i (Sending k share n vs) (set_st (give j t (st m)) m)).
    assert (inv m1) as Hinv1.
    { eapply inv_deliver; try done; rewrite ?Htd; try done; [simpl in *; lia|]. right. intros (l & c' & Hc' & _ & E).
      destruct (inv_current _ _ Hinv l c' Hc') as (y' & Hy' & Hl). rewrite E in Hy'. simplify_eq. }
    eapply inv_ext; [eapply (IH m1 vs (enqueue t d)); [exact Hinv1|apply fn_lookup_insert|..]|done|done| |done].
    + cbn [st m1 set_todo set_st]. unfold give. by rewrite cpu_upd_ne.
    + cbn [st m1 set_todo set_st give threads upd_cpu set_cpus]. by rewrite threads_upd, decide_False.
    + by apply give_cpu.
    + destruct (enqueue_fields t d) as (_ & _ & _ & ->). rewrite lengthZ_app. exact Hd'.
    + intros l. simpl. destruct (decide (l = i)) as [->|]; [by rewrite !fn_lookup_insert|by rewrite !fn_lookup_insert_ne].
Qed.
End Send.

Lemma send_stage m i c x k share n vs : inv m → cpus (st m) !! i = Some c → threads (st m) !! c_curthread c = Some x →
  todo m i = Sending k share n vs → reachable_cpu (st m) k → stage_ok m i.
Proof.
  intros Hinv Hc Hx Htd Hg. destruct (stage_todo m i c Hinv Hc) as [Hcm Htok]. rewrite Htd in Htok. destruct Htok as [Hh Hn].
  assert (t_frames x ≠ []) as Hf by (apply (stage_frames m i c x); try done; by rewrite Htd).
  destruct (inv_at m i c x Hinv Hc Hx) as [He _].
  unfold stage_ok, continue. erewrite bind_ok by done. cbv zeta. rewrite Htd. case_decide as Hlt.
  - destruct Hlt as [Hlt Hn0]. case_decide as Hk.
    { eexists. split; [done|]. eapply inv_retodo; try done; rewrite ?Htd; try done. by left. }
    apply lookup_lt_is_Some in Hlt as [d Hd]. destruct (in_cpu _ _ Hinv k d Hd) as ([Hrl _] & _).
    destruct (deal (c_curthread c) share n vs (lengthZ (c_runqueue d))) as [[sent n'] r] eqn:Hdeal.
    assert (send_to i k share n vs (st m) = Ok (n', r) (give_all k sent (st m))) as Hrun.
    { eapply send_to_ok; try done; [by apply (Hg d)|]. intros t Ht. apply (pl_all _ _ (in_placed _ _ Hinv)). exists (InHand i). cbn [content]. by rewrite Htd. }
    erewrite bind_ok by by eapply on_st_ok. eexists. split; [done|]. cbn [fst snd].
    pose proof (inv_deal i k k share Hk n m vs c x d sent n' r Hinv Htd Hc Hx Hd Hdeal) as Hinv1. set (m1 := set_todo _ _ _) in Hinv1.
    assert (∃ c1 x1, cpus (st m1) !! i = Some c1 ∧ threads (st m1) !! c_curthread c1 = Some x1) as (c1 & x1 & Hc1 & Hx1).
    { assert (cpus (st m1) !! i = Some c) as E. { cbn [m1 st set_todo set_st]. clear -Hc Hk. revert Hc. generalize (st m).
        induction sent as [|t sent IH]; intros s Hc; [done|]. apply IH. unfold give. by rewrite cpu_upd_ne. }
      exists c. destruct (inv_current _ _ Hinv1 i c E) as (x1 & ? & _). by exists x1. }
    destruct (stage_todo m1 i c1 Hinv1 Hc1) as [_ Htok1]. assert (todo m1 i = Sending k share n' r) as Htd1 by apply fn_lookup_insert. rewrite Htd1 in Htok1.
    eapply inv_ext; [apply (inv_retodo m1 i c1 x1 (Sending (S k) share n' r)); try done; rewrite ?Htd1; try done|done|done| |done].
    + left. apply (stage_frames m1 i c1 x1); try done; by rewrite Htd1.
    + intros l. simpl. destruct (decide (l = i)) as [->|]; [by rewrite !fn_lookup_insert|by rewrite !fn_lookup_insert_ne].
  - eexists. split; [done|]. eapply inv_retodo; try done; rewrite ?Htd; try done. by left.
Qed.

(** ** Wakeups, channels, new threads *)

Section Calls.
Context (m : machine) (i : nat) (c : cpu) (x : thread) (Hinv : inv m) (Hr : runs m i c x).
Let Hc := ru_cpu _ _ _ _ Hr.
Let Hx := ru_thread _ _ _ _ Hr.

(** In the middle of a call the processor is busy, or in a handler. *)
Lemma call_cpu_ok d : d = Nothing ∨ (∃ ts, d = Waking ts) → cpu_ok i c x (held m i) d.
Proof.
  intros Hd. destruct (runs_facts m i c x Hinv Hr) as (_ & [H1 H2 H3 H4 H5 H6 H7] & _). split; try done.
  intros Hi. destruct (H5 Hi) as (? & ? & Hcase). split_and!; try done. destruct (ru_code _ _ _ _ Hr) as [|Hf]; [congruence|].
  destruct Hcase as [(? & _)|?]; [done|by right].
Qed.

Lemma inv_wake w y taken rest : wchans (st m) !! w = Some y → wc_threads y = taken ++ rest →
  inv (set_todo i (Waking taken) (set_st (upd_wchan w (set_wc_threads rest) (st m)) m)).
Proof.
  intros Hw Hl. destruct (runs_facts m i c x Hinv Hr) as (He & Hco & Hto & H0 & Hcm). pose proof (ru_todo _ _ _ _ Hr) as Htd. set (m' := set_todo _ _ _).
  assert (todo m' i = Waking taken) as Hi by apply fn_lookup_insert.
  assert (∀ j, j ≠ i → todo m' j = todo m j) as Hj by (intros; simpl; by rewrite fn_lookup_insert_ne).
  assert (∀ p, p ≠ Asleep w → p ≠ InHand i → content m' p = content m p) as Hcont.
  { intros p H1 H2. destruct p as [j|j|j|j|t|w']; try done; cbn [content].
    - by rewrite Hj by congruence.
    - cbn [st m' set_todo set_st]. by rewrite wchan_upd_ne by congruence. }
  assert (content m (Asleep w) = taken ++ rest) as Hs by (cbn [content]; rewrite Hw; exact Hl).
  assert (content m' (Asleep w) = rest) as Hs' by (cbn [content st m' set_todo set_st]; by erewrite wchan_upd).
  apply (inv_local m m' i c x id id (upd_wchan w (set_wc_threads rest) (st m))); try done; rewrite ?Hi.
  - cbn [st m' set_todo set_st]. rewrite (upd_thread_id _ _ x) by done. by rewrite (upd_cpu_id _ _ c).
  - eapply (placed_move _ _ _ (Asleep w) (InHand i) taken); [apply (in_placed _ _ Hinv)|done|by rewrite Hs, Hs'| |].
    + cbn [content]. rewrite Hi, Htd. simpl. by rewrite app_nil_r.
    + intros p H1 H2. by rewrite Hcont.
  - intros p t z Ht Hz. change (threads (st m') !! t) with (threads (st m) !! t) in Hz.
    destruct (decide (p = InHand i)) as [->|Hp1]; [|destruct (decide (p = Asleep w)) as [->|Hp2]].
    + cbn [content] in Ht. rewrite Hi in Ht. cbn [place_ok]. rewrite Hi. split; [done|]. right.
      apply (in_place _ _ Hinv (Asleep w) t z); [rewrite Hs; apply elem_of_app; by left|done].
    + rewrite Hs' in Ht. eapply (place_keep _ m _ _ t); try done. rewrite Hs. apply elem_of_app. by right.
    + rewrite Hcont in Ht by done. eapply (place_keep _ m _ _ t); try done. intros k ->. rewrite Hj; [done|congruence].
  - done.
  - apply call_cpu_ok. right. by eexists.
  - apply (in_saved _ _ Hinv).
  - intros j t. rewrite Hcont by done. apply (in_dead _ _ Hinv).
  - intros l j. cbn [st m' set_todo set_st held]. rewrite holder_wc_threads. apply (in_held _ _ Hinv).
  - apply (in_locks _ _ Hinv i).
  - intros t Ht. cbn [st m' set_todo set_st]. destruct (in_fresh _ _ Hinv t Ht) as [_ E]. rewrite wchan_upd_ne; congruence.
Qed.
Lemma wakeone_step w : holder (st m) (WcLock w) = Some None → ok_step m i (Wakeone w).
Proof.
  intros Hl. destruct (runs_facts m i c x Hinv Hr) as (He & _). cbn [holder] in Hl. apply fmap_Some in Hl as (y & Hw & Hl).
  unfold ok_step, perform. erewrite bind_ok by done. erewrite bind_ok by by eapply on_st_ok, wakeone_take_ok.
  eexists. split; [done|]. eapply inv_wake; [done|]. by destruct (wc_threads y).
Qed.
Lemma wakeall_step w : holder (st m) (WcLock w) = Some None → ok_step m i (Wakeall w).
Proof.
  intros Hl. destruct (runs_facts m i c x Hinv Hr) as (He & _). cbn [holder] in Hl. apply fmap_Some in Hl as (y & Hw & Hl).
  unfold ok_step, perform. erewrite bind_ok by done. erewrite bind_ok by by eapply on_st_ok, wakeall_take_ok.
  eexists. split; [done|]. eapply inv_wake; [done|]. by rewrite app_nil_r.
Qed.

(** A state that differs in the channels only, and in what is handed out. *)
Lemma inv_wchans s : cpus s = cpus (st m) → threads s = threads (st m) → spins s = spins (st m) →
  (∀ w, wc_threads <$> wchans s !! w = wc_threads <$> wchans (st m) !! w ∨
     (default [] (wc_threads <$> wchans s !! w) = [] ∧ default [] (wc_threads <$> wchans (st m) !! w) = [])) →
  (∀ w j, wc_lock <$> wchans s !! w = Some (Some j) ↔ wc_lock <$> wchans (st m) !! w = Some (Some j)) →
  s_next (st m) ≤ s_next s → (∀ t, s_next s ≤ t → wchans s !! t = None) →
  inv (set_st s m).
Proof.
  intros E1 E2 E3 E4 E5 E6 E7. destruct (runs_facts m i c x Hinv Hr) as (He & Hco & Hto & H0 & Hcm). set (m' := set_st s m).
  assert (∀ p, content m' p = content m p) as Hcont.
  { intros p. destruct p as [j|j|j|j|t|w]; cbn [content st m' set_st]; rewrite ?E1; try done.
    destruct (E4 w) as [->|[-> ->]]; done. }
  apply (inv_local m m' i c x id id s); try done.
  - cbn [st m' set_st]. rewrite (upd_thread_id _ _ x) by (rewrite ?E2; done). by rewrite (upd_cpu_id _ _ c) by (rewrite ?E1; done).
  - eapply placed_ext; [apply (in_placed _ _ Hinv)| |done]. intros p. by rewrite Hcont.
  - intros p t z Ht Hz. rewrite Hcont in Ht. cbn [st m' set_st] in Hz. rewrite E2 in Hz. eapply (place_keep _ m _ _ t); try done.
  - simpl. by rewrite (ru_todo _ _ _ _ Hr).
  - cbn [st m' set_st]. rewrite E2. apply (in_saved _ _ Hinv).
  - intros j t. rewrite Hcont. apply (in_dead _ _ Hinv).
  - intros l j. change (held m' j) with (held m j). rewrite <- (in_held _ _ Hinv). destruct l; cbn [holder st m' set_st]; rewrite ?E1, ?E3; done.
  - destruct (in_locks _ _ Hinv i) as [Hnd Hl]. split; [done|]. intros l Hin. specialize (Hl l Hin). destruct l; try done. simpl. by rewrite E1.
Qed.
Lemma create_step name : ok_step m i (Create name).
Proof.
  unfold ok_step, perform. erewrite bind_ok by done. unfold wchan_create, kmalloc_ok.
  assert (∃ o s, wchan_create name (st m) = Ok o s ∧ inv (set_st s m)) as (o & s & Hrun & Hinv').
  { unfold wchan_create, kmalloc_ok, new_pointer, bind, get, gets, modify, ret. simpl.
    destruct (default true (head (s_mem (st m)))); simpl; (do 2 eexists; split; [done|]).
    - apply inv_wchans; try done; simpl.
      + intros w. destruct (decide (w = s_next (st m))) as [->|]; [|left; by rewrite lookup_insert_ne].
        right. rewrite lookup_insert_eq. destruct (in_fresh _ _ Hinv (s_next (st m))) as [_ ->]; done.
      + intros w j. destruct (decide (w = s_next (st m))) as [->|]; [|by rewrite lookup_insert_ne].
        rewrite lookup_insert_eq. destruct (in_fresh _ _ Hinv (s_next (st m))) as [_ ->]; done.
      + lia.
      + intros t Ht. rewrite lookup_insert_ne by lia. apply (in_fresh _ _ Hinv). lia.
    - apply inv_wchans; try done; simpl; [by left|]. intros t Ht. by apply (in_fresh _ _ Hinv). }
  erewrite bind_ok by by eapply on_st_ok. by eexists.
Qed.
Lemma destroy_step w y : wchans (st m) !! w = Some y → wc_threads y = [] → wc_lock y = None → ok_step m i (Destroy w).
Proof.
  intros Hw Ht Hl. unfold ok_step, perform. erewrite bind_ok by done.
  assert (wchan_destroy w (st m) = Ok tt (set_wchans (delete w (wchans (st m))) (st m))) as Hrun.
  { unfold wchan_destroy, spinlock_cleanup. erewrite bind_ok; [|erewrite bind_ok; [|apply (lk_holder_ok _ (WcLock w) None); cbn [holder]; rewrite Hw; simpl; by rewrite Hl]; done].
    erewrite bind_ok by by apply read_wchan_ok. rewrite Ht. by erewrite bind_ok by done. }
  erewrite on_st_ok by done. eexists. split; [done|]. apply inv_wchans; try done; simpl.
  - intros w'. destruct (decide (w' = w)) as [->|]; [|left; by rewrite lookup_delete_ne]. right. rewrite lookup_delete_eq, Hw. simpl. by rewrite Ht.
  - intros w' j. destruct (decide (w' = w)) as [->|]; [|by rewrite lookup_delete_ne]. rewrite lookup_delete_eq, Hw. simpl. by rewrite Hl.
  - intros t Hn. destruct (in_fresh _ _ Hinv t Hn) as [_ E]. rewrite lookup_delete_ne; [done|congruence].
Qed.

Lemma send_step j code : code = IPI_PANIC ∨ code = IPI_OFFLINE → holder (st m) (IpiLock j) = Some None → ok_step m i (Send j code).
Proof.
  intros Hcode Hl. destruct (runs_facts m i c x Hinv Hr) as (He & _). cbn [holder] in Hl. apply fmap_Some in Hl as (d & Hd & Hl).
  unfold ok_step, perform. erewrite bind_ok by done.
  erewrite on_st_ok by (eapply ipi_send_ok; [done|done|done|destruct Hcode as [->| ->]; done]). eexists. split; [done|]. set (m' := set_st _ _).
  destruct (in_cpu _ _ Hinv j d Hd) as ([Hrl Htlb] & Htd & y & Hy & Hco). rewrite decide_False in Hco by done.
  apply (inv_calm m m' j d y (poke code) id); try done.
  - simpl. by rewrite (upd_thread_id _ _ y).
  - unfold poke. cbn [c_ipi_pending set_ipi set_ipi_pending]. rewrite Z.lor_spec, Htlb. by destruct Hcode as [->| ->].
  - intros _. by left.
  - by apply (in_thread _ _ Hinv _ _ Hy).
  - destruct Hco as [H1 H2 H3 H4 H5 H6 H7]. split; try done. intros Hw. destruct (H7 Hw). done.
Qed.
End Calls.

(** ** thread_fork *)

Definition new_thread (i : nat) (p : Z) : thread := mkThread (Some "NEW"%string) S_READY (Some guard_band) AtStartup (Some i) (Some p) false IPL_HIGH 2 [].
(** What thread_fork leaves if it runs out of memory. *)
Definition barren (s s' : sched) : Prop := ∃ n mem, s_next s ≤ n ∧ s' = set_next n (set_mem mem s).

Lemma kmalloc_run s : ∃ b mem, kmalloc_ok s = Ok b (set_mem mem s).
Proof. unfold kmalloc_ok, bind, get, gets, modify, ret. by do 2 eexists. Qed.

Section ForkRun.
Context (s : sched) (i : nat) (c : cpu) (x : thread) (He : exec s i c x) (Hcpu : t_cpu x = Some i).
Context (Hfresh : threads s !! s_next s = None) (Hrl : c_runqueue_lock c = None) (Hil : c_ipi_lock c = None).
Let t := s_next s.
(** The state once the new thread exists, with fields [y]. *)
Let s1 (mem : list bool) (y : thread) : sched := set_threads (<[t := y]> (threads s)) (set_next (t + 1) (set_mem mem s)).

Lemma thread_create_run : (∃ mem, thread_create s = Ok None (set_mem mem s)) ∨
  (∃ mem, thread_create s = Ok (Some t) (s1 mem (mkThread (Some "NEW"%string) S_READY None NoContext None None false IPL_HIGH 1 []))).
Proof.
  unfold thread_create. destruct (kmalloc_run s) as (b & mem & H1). erewrite bind_ok by exact H1. destruct b; simpl; [|by left; eexists].
  destruct (kmalloc_run (set_mem mem s)) as (b & mem2 & H2). erewrite bind_ok by exact H2. destruct b; simpl; [|by left; eexists].
  right. by exists mem2.
Qed.
Lemma write_new mem y f : write_thread t f (s1 mem y) = Ok tt (s1 mem (f y)).
Proof.
  erewrite write_thread_ok by apply lookup_insert_eq. f_equal. apply sched_eq; try done. simpl. apply alter_insert_eq.
Qed.
Lemma destroy_new mem y : t_state y = S_READY → t_proc y = None → ∃ s', thread_destroy i t (s1 mem y) = Ok tt s' ∧ barren s s'.
Proof.
  intros Hs Hp. assert (t ≠ c_curthread c) as Hne by (intros E; destruct He as [_ Hx _ _]; rewrite <- E in Hx; unfold t in Hx; congruence).
  erewrite (thread_destroy_ok _ _ c); [eexists; split; [done|]|apply He|done|apply lookup_insert_eq|by rewrite Hs|done].
  exists (t + 1), mem. split; [unfold t; lia|]. apply sched_eq; try done. simpl. rewrite delete_insert_eq. by apply delete_id.
Qed.
Lemma kmalloc_new mem y : ∃ b mem', kmalloc_ok (s1 mem y) = Ok b (s1 mem' y).
Proof. unfold kmalloc_ok, bind, get, gets, modify, ret. by do 2 eexists. Qed.

Lemma thread_fork_run proc p : match proc with Some p => Some p | None => t_proc x end = Some p →
  (∃ s', thread_fork i proc s = Err ENOMEM s' ∧ barren s s') ∨
  (∃ mem, thread_fork i proc s = Ok tt (upd_cpu i (enqueue t) (s1 mem (new_thread i p)))).
Proof.
  intros Hp. assert (t ≠ c_curthread c) as Hne by (intros E; destruct He as [_ Hx _ _]; rewrite <- E in Hx; unfold t in Hx; congruence).
  unfold thread_fork. destruct thread_create_run as [[mem H1]|[mem H1]]; erewrite bind_ok by exact H1.
  { left. eexists. split; [done|]. exists (s_next s), mem. split; [lia|]. by destruct s. }
  destruct (kmalloc_new mem (mkThread (Some "NEW"%string) S_READY None NoContext None None false IPL_HIGH 1 [])) as (b & mem2 & H2).
  erewrite bind_ok by exact H2. destruct b; cbn [negb].
  2: { left. edestruct (destroy_new mem2) as (s' & H3 & Hb); cycle 2.
       - exists s'. split; [|exact Hb]. by erewrite bind_ok by exact H3.
       - done.
       - done. }
  unfold thread_checkstack_init. erewrite bind_ok by apply write_new. cbn [set_stack t_stack].
  erewrite bind_ok by (apply curthread_ok; apply He).
  erewrite bind_ok by (apply read_thread_ok; cbn [s1 threads set_threads]; rewrite lookup_insert_ne by done; apply He).
  erewrite bind_ok by apply write_new. rewrite Hp, Hcpu. erewrite bind_ok by done.
  set (y := set_t_cpu _ _).
  destruct (kmalloc_new mem2 y) as (b & mem3 & H3).
  assert (proc_addthread p t (s1 mem2 y) = if b then Ok tt (s1 mem3 (set_proc (Some p) y)) else Err ENOMEM (s1 mem3 y)) as H4.
  { unfold proc_addthread. erewrite bind_ok by (apply read_thread_ok, lookup_insert_eq). erewrite bind_ok by done. erewrite bind_ok by exact H3.
    destruct b; simpl; [apply write_new|done]. }
  destruct b.
  - right. exists mem3. unfold on_error. erewrite bind_ok; [|by rewrite H4]. erewrite bind_ok by apply write_new. erewrite bind_ok by apply write_new.
    assert (exec (s1 mem3 (new_thread i p)) i c x) as He1.
    { destruct He as [? ? ? ?]. split; try done. cbn [s1 threads set_threads]. by rewrite lookup_insert_ne. }
    eapply make_runnable_ok; [exact He1|apply lookup_insert_eq|done|apply He|done|done].
  - left. edestruct (destroy_new mem3 y) as (s' & H5 & Hb); [done|done|]. exists s'. split; [|done].
    unfold bind at 1, on_error. rewrite H4. by rewrite H5.
Qed.
End ForkRun.

Section ForkStep.
Context (m : machine) (i : nat) (c : cpu) (x : thread) (Hinv : inv m) (Hr : runs m i c x).
Let Hc := ru_cpu _ _ _ _ Hr.
Let t := s_next (st m).
Let Hfresh : threads (st m) !! t = None.
Proof. apply (in_fresh _ _ Hinv). unfold t. lia. Qed.

(** The new thread in the hands of its creator. *)
Lemma inv_new mem p : inv (set_todo i (Waking [t]) (set_st (set_threads (<[t := new_thread i p]> (threads (st m))) (set_next (t + 1) (set_mem mem (st m)))) m)).
Proof.
  set (m' := set_todo _ _ _). pose proof (ru_todo _ _ _ _ Hr) as Htd.
  assert (todo m' i = Waking [t]) as Hi by apply fn_lookup_insert.
  assert (∀ j, j ≠ i → todo m' j = todo m j) as Hj by (intros; simpl; by rewrite fn_lookup_insert_ne).
  assert (∀ p, p ≠ InHand i → content m' p = content m p) as Hcont.
  { intros q Hq. destruct q; try done. cbn [content]. by rewrite Hj by congruence. }
  assert (∀ t', threads (st m') !! t' = if decide (t = t') then Some (new_thread i p) else threads (st m) !! t') as Hthr.
  { intros t'. cbn [st m' set_todo set_st threads set_threads]. destruct (decide (t = t')) as [<-|]; [apply lookup_insert_eq|by apply lookup_insert_ne]. }
  assert (∀ p t', t' ∈ content m p → t' ≠ t) as Hold.
  { intros q t' Hin ->. assert (is_Some (threads (st m) !! t)) as [? ?] by (apply (pl_all _ _ (in_placed _ _ Hinv)); eauto). congruence. }
  split; try done.
  - eapply (placed_new _ _ _ _ (InHand i) t); [apply (in_placed _ _ Hinv)| | | |].
    + simpl. rewrite Hfresh. by intros [? ?].
    + cbn [content]. by rewrite Hi, Htd.
    + intros q Hq. by rewrite Hcont.
    + intros t'. rewrite Hthr. case_decide; [subst; rewrite Hfresh; split; [by right|by eexists]|]. split; [by left|]. intros [?|?]; congruence.
  - intros q t' y Hq. rewrite Hthr. destruct (decide (q = InHand i)) as [->|Hne].
    + cbn [content] in Hq. rewrite Hi in Hq. apply list_elem_of_singleton in Hq as ->. rewrite decide_True by done. intros [= <-].
      cbn [place_ok]. rewrite Hi. split; [done|by left].
    + rewrite Hcont in Hq by done. rewrite decide_False by (by apply not_eq_sym, (Hold q)). intros Hy.
      eapply (place_keep _ m _ _ t'); try done. intros k ->. rewrite Hj; [done|congruence].
  - intros t' y. rewrite Hthr. case_decide; [|apply (in_thread _ _ Hinv)]. intros [= <-]. split; try done; [by right|by right|].
    exists i. split; [done|]. by eapply lookup_lt_Some.
  - intros t' y. rewrite Hthr. case_decide; [|intros Hy Hcu; by apply (in_away _ _ Hinv t')]. intros [= <-] _.
    split; [|by left]. split_and!; try done. exists IPL_NONE. split; [done|by left].
  - intros k d Hd. destruct (in_cpu _ _ Hinv k d Hd) as (H1 & H2 & y & Hy & H3). rewrite decide_False in H3 by done. split; [done|].
    change (held m' k) with (held m k). split; [destruct (decide (k = i)) as [->|]; [by rewrite Hi|by rewrite Hj]|].
    exists y. rewrite Hthr, decide_False, decide_False by (done || congruence). split; [done|].
    destruct (decide (k = i)) as [->|]; [|by rewrite Hj]. rewrite Hi. pose proof (ru_cpu _ _ _ _ Hr). pose proof (ru_thread _ _ _ _ Hr). change (cpus (st m')) with (cpus (st m)) in Hd.
    simplify_eq. apply call_cpu_ok; [done|done|]. right. by eexists.
  - intros t' Hs. destruct (in_saved _ _ Hinv t' Hs) as (y & Hy & Hf). exists y. rewrite Hthr, decide_False by congruence. done.
  - apply (in_dead _ _ Hinv).
  - apply (in_held _ _ Hinv).
  - apply (in_locks _ _ Hinv).
  - intros t' Ht. cbn [st m' set_todo set_st s_next set_threads set_next] in Ht. destruct (in_fresh _ _ Hinv t') as [E1 E2]; [unfold t in *; lia|].
    split; [|done]. rewrite Hthr, decide_False by lia. done.
Qed.

Lemma fork_step proc : proc ≠ None ∨ t_proc x ≠ None → ok_step m i (Fork proc).
Proof.
  intros Hp. destruct (runs_facts m i c x Hinv Hr) as (He & Hco & Hto & H0 & [Hrl _]). pose proof (ru_todo _ _ _ _ Hr) as Htd.
  assert (c_ipi_lock c = None) as Hil by (eapply inv_ipi_free; [done|apply Hr|apply Hr]).
  assert (∃ p, match proc with Some p => Some p | None => t_proc x end = Some p) as [p Hp'].
  { destruct proc; [by eexists|]. destruct Hp as [|Hp]; [done|]. destruct (t_proc x); [by eexists|done]. }
  unfold ok_step, perform. erewrite bind_ok by done.
  destruct (thread_fork_run (st m) i c x He (co_cpu _ _ _ _ _ Hco) Hfresh Hrl Hil proc p Hp') as [(s' & Hrun & n & mem & Hn & ->)|[mem Hrun]].
  - erewrite bind_ok; [|unfold attempt, on_st, lift; by rewrite Hrun]. eexists. split; [done|].
    eapply inv_wchans; try done; [by left|]. intros t' Ht'. apply (in_fresh _ _ Hinv). simpl in *. lia.
  - erewrite bind_ok; [|unfold attempt, on_st, lift; by rewrite Hrun]. eexists. split; [done|].
    pose proof (inv_new mem p) as Hinv1. set (m1 := set_todo _ _ _) in Hinv1.
    assert (todo m1 i = Waking [t]) as Hi by apply fn_lookup_insert.
    assert (threads (st m1) !! t = Some (new_thread i p)) as Ht by apply lookup_insert_eq.
    pose proof (inv_deliver m1 i i t c (new_thread i p) (Waking []) Hinv1 Hc Ht) as Hinv2. rewrite Hi in Hinv2.
    specialize (Hinv2 (reflexivity _) I (or_introl eq_refl)). set (m2 := set_todo _ _ _) in Hinv2.
    assert (todo m2 i = Waking []) as Hi2 by apply fn_lookup_insert.
    assert (∃ c2, cpus (st m2) !! i = Some c2) as [c2 Hc2] by (eexists; apply (give_cpu (st m1)); exact Hc).
    destruct (inv_current _ _ Hinv2 i c2 Hc2) as (x2 & Hx2 & _).
    eapply inv_ext; [apply (inv_retodo m2 i c2 x2 Nothing Hinv2 Hc2 Hx2); rewrite ?Hi2; try done; by right|..]; try done.
    + cbn [st set_todo set_st m2]. unfold give. rewrite (upd_thread_id _ _ (new_thread i p)); [done|exact Ht|done].
    + intros k. simpl. destruct (decide (k = i)) as [->|]; [by rewrite fn_lookup_insert, Htd|by rewrite !fn_lookup_insert_ne].
Qed.
End ForkStep.
