(* ===== verification/SchedRun.v ===== *)
(** * Context switches keep the invariant; no operation fails

    The halves of a context switch, the operations that switch, and the conclusion:
    from a machine that satisfies the invariant every operation the rules allow
    returns, and the invariant holds again. *)

From Stdlib Require Import String.
From stdpp Require Import list functions.
From S2P Require Import Prelude Sched SchedOps SchedSwitch SchedInv SchedStep SchedMove.
#[local] Open Scope kern_scope.

(** ** The second half *)

Lemma next_wchans i c s : wchans (next_state i c s) = wchans s.
Proof. unfold next_state. by destruct (c_runqueue c). Qed.
Lemma next_next i c s : s_next (next_state i c s) = s_next s.
Proof. unfold next_state. by destruct (c_runqueue c). Qed.

Section Next.
Context (m : machine) (i : nat) (c : cpu) (x : thread) (Hinv : inv_sw (Some i) m).
Context (Hc : cpus (st m) !! i = Some c) (Hx : threads (st m) !! c_curthread c = Some x).

Lemma next_between : between i c x (held m i) (todo m i) ∧ common c.
Proof.
  destruct (in_cpu _ _ Hinv i c Hc) as (Hcm & _ & y & Hy & H). rewrite decide_True in H by done. rewrite Hx in Hy. injection Hy as <-. done.
Qed.
(** A thread of this processor is not the current one of another. *)
Lemma next_not_current j d t y : cpus (st m) !! j = Some d → j ≠ i → threads (st m) !! t = Some y → t_cpu y = Some i → c_curthread d ≠ t.
Proof. intros Hd Hj Hy Hcpu <-. destruct (inv_current _ _ Hinv j d Hd) as (y' & Hy' & E). simplify_eq. Qed.

Lemma next_switchable : switchable (st m) c.
Proof.
  split.
  - intros t q Hq. assert (t ∈ content m (Queued i)) as Hin by (cbn [content]; rewrite Hc; simpl; rewrite Hq; left).
    assert (is_Some (threads (st m) !! t)) as [y Hy] by (apply (pl_all _ _ (in_placed _ _ Hinv)); eauto).
    destruct (in_place _ _ Hinv _ _ _ Hin Hy) as [Hcpu _]. split.
    + intros Hz. assert (t ∈ content m (Dead i)) as Hd by (cbn [content]; by rewrite Hc).
      by specialize (pl_one _ _ (in_placed _ _ Hinv) _ _ _ Hin Hd).
    + exists y. split; [done|]. apply (in_away _ _ Hinv t y Hy). intros (j & d & Hd & Hne & E).
      apply (next_not_current j d t y); try done. congruence.
  - pose proof (pl_nodup _ _ (in_placed _ _ Hinv) (Dead i)) as Hnd. cbn [content] in Hnd. by rewrite Hc in Hnd.
  - intros z Hz. assert (z ∈ content m (Dead i)) as Hin by (cbn [content]; by rewrite Hc).
    assert (is_Some (threads (st m) !! z)) as [y Hy] by (apply (pl_all _ _ (in_placed _ _ Hinv)); eauto).
    destruct (in_place _ _ Hinv _ _ _ Hin Hy) as (_ & ? & ?). by exists y.
Qed.

(** No thread to run: the processor waits. *)
Lemma next_idle_inv : c_runqueue c = [] → inv (set_st (next_state i c (st m)) m).
Proof.
  intros Hq. destruct next_between as [[B1 [(P1 & P2 & v & P3 & P4) P5] B3 B4 B5 B6 B7 B8] Hcm]. unfold next_state. rewrite Hq. set (m' := set_st _ _).
  assert (∀ j, cpus (st m') !! j = if decide (i = j) then Some (set_waiting true c) else cpus (st m) !! j) as Hcpus.
  { intros j. cbn [st m' set_st]. rewrite cpus_upd. cbn [cpus upd_thread set_threads]. case_decide; [subst; by rewrite Hc|done]. }
  assert (∀ t, threads (st m') !! t = if decide (c_curthread c = t) then Some (add_iplhigh (-1) x) else threads (st m) !! t) as Hthr.
  { intros t. cbn [st m' set_st threads upd_cpu set_cpus]. rewrite threads_upd. case_decide; [subst; by rewrite Hx|done]. }
  assert (∀ p, content m' p = content m p) as Hcont.
  { intros p. destruct p as [j|j|j|j|t|w]; try done; cbn [content]; rewrite Hcpus; case_decide; try done; subst; by rewrite Hc. }
  assert (∀ t y, threads (st m') !! t = Some y → ∃ y0, threads (st m) !! t = Some y0 ∧ t_state y = t_state y0 ∧ t_cpu y = t_cpu y0 ∧ t_proc y = t_proc y0 ∧ t_frames y = t_frames y0) as Hold.
  { intros t y. rewrite Hthr. case_decide; [subst; intros [= <-]; by exists x|by intros Hy; exists y]. }
  split.
  - eapply placed_ext; [apply (in_placed _ _ Hinv)|intros p; by rewrite Hcont|]. intros t. rewrite Hthr. case_decide; [subst; rewrite Hx|done]. split; by eexists.
  - intros p t y Ht Hy. rewrite Hcont in Ht. destruct (Hold t y Hy) as (y0 & Hy0 & E1 & E2 & E3 & _). eapply place_keep; try done. by rewrite E3.
  - intros t y. rewrite Hthr. assert (length (cpus (st m')) = length (cpus (st m))) as -> by (simpl; by rewrite length_alter).
    case_decide; [intros [= <-]|apply (in_thread _ _ Hinv)]. by destruct (in_thread _ _ Hinv _ _ Hx).
  - intros t y. rewrite Hthr. case_decide as Ht.
    + intros _ Hcu. destruct Hcu. exists i, (set_waiting true c). by rewrite Hcpus, decide_True.
    + intros Hy Hcu. apply (in_away _ _ Hinv t y Hy). intros (j & d & Hd & Hne & E). apply Hcu. exists j, d. rewrite Hcpus, decide_False by congruence. done.
  - intros j d. rewrite Hcpus. case_decide as Hj; [subst j; intros [= <-]|intros Hd].
    + split; [done|]. change (todo m' i) with (todo m i). change (held m' i) with (held m i). rewrite B7. split; [done|]. exists (add_iplhigh (-1) x).
      rewrite Hthr, decide_True, decide_False by done. split; [done|]. rewrite B6. split; simpl; try done; try congruence.
      * by rewrite B4, P1.
      * by rewrite P1, P2.
      * intros _. split_and!; [done|by exists v|]. left. auto.
      * intros _. by left.
      * intros _. split; [auto|done].
    + destruct (in_cpu _ _ Hinv j d Hd) as (H1 & H2 & y & Hy & H3). rewrite decide_False in H3 by congruence. split; [done|]. split; [done|].
      exists y. rewrite Hthr, !decide_False; [done|done|]. intros E. by apply (next_not_current j d (c_curthread c) x).
  - intros t Hs. destruct (in_saved _ _ Hinv t Hs) as (y & Hy & Hf). rewrite Hthr. case_decide; [|by eauto]. subst t.
    exists (add_iplhigh (-1) x). split; [done|]. simpl. congruence.
  - intros j t. rewrite Hcont. apply (in_dead _ _ Hinv).
  - intros l j. cbn [st m' set_st held]. rewrite (holder_local _ _ c) by done. apply (in_held _ _ Hinv).
  - intros j. destruct (in_locks _ _ Hinv j) as [Hnd Hl]. split; [done|]. intros l Hin. specialize (Hl l Hin). destruct l as [|k| |]; try done.
    destruct Hl as (-> & d & Hd & Hh). split; [done|]. rewrite Hcpus. case_decide; [subst; rewrite Hc in Hd; injection Hd as <-|]; by eexists.
  - intros t Ht. destruct (in_fresh _ _ Hinv t Ht) as [E1 E2]. split; [|done]. rewrite Hthr, decide_False by congruence. done.
Qed.

(** The next thread runs, and the zombies are gone. *)
Section Take.
Context (t : Z) (q : list Z) (y : thread) (v : Z) (Hq : c_runqueue c = t :: q) (Hy : threads (st m) !! t = Some y) (Hv : resume_spl y = Some v).
Let m' := set_st (next_state i c (st m)) m.

Lemma take_cpus j : cpus (st m') !! j = if decide (i = j) then Some (take_next t q v c) else cpus (st m) !! j.
Proof.
  cbn [st m' set_st]. unfold next_state. rewrite Hq, Hy. simpl mbind. rewrite Hv. simpl default. rewrite cpus_upd. cbn [cpus set_threads].
  case_decide; [subst; by rewrite Hc|done].
Qed.
Lemma take_threads t' : threads (st m') !! t' = if decide (t' ∈ c_zombies c) then None else if decide (t = t') then Some (resumed v y) else threads (st m) !! t'.
Proof.
  cbn [st m' set_st]. unfold next_state. rewrite Hq, Hy. simpl mbind. rewrite Hv. simpl default. cbn [threads upd_cpu set_cpus set_threads].
  rewrite bury_lookup. case_decide; [done|]. destruct (decide (t = t')) as [<-|]; [by rewrite lookup_alter_eq, Hy|by rewrite lookup_alter_ne].
Qed.
Lemma take_next_facts : t ∈ content m (Queued i) ∧ t ∉ c_zombies c ∧ t_cpu y = Some i ∧ (∀ p, t ∈ content m p → p = Queued i) ∧
  (∀ z p, z ∈ c_zombies c → z ∈ content m p → p = Dead i).
Proof.
  assert (t ∈ content m (Queued i)) as Hin by (cbn [content]; rewrite Hc; simpl; rewrite Hq; left).
  split_and!; [done| | |intros p Hp; by eapply (pl_one _ _ (in_placed _ _ Hinv))|].
  - by apply (sw_next _ _ next_switchable t q).
  - by destruct (in_place _ _ Hinv _ _ _ Hin Hy).
  - intros z p Hz Hp. eapply (pl_one _ _ (in_placed _ _ Hinv)); [exact Hp|]. cbn [content]. by rewrite Hc.
Qed.
(** The current thread of another processor is not touched. *)
Lemma take_other j d : cpus (st m) !! j = Some d → j ≠ i → threads (st m') !! c_curthread d = threads (st m) !! c_curthread d.
Proof.
  intros Hd Hj. destruct take_next_facts as (_ & _ & Hcpu & _). rewrite take_threads, decide_False, decide_False; [done|..].
  - intros E. symmetry in E. revert E. by eapply next_not_current.
  - intros Hz. assert (c_curthread d ∈ content m (Dead i)) as Hin by (cbn [content]; by rewrite Hc).
    assert (is_Some (threads (st m) !! c_curthread d)) as [z Hz'] by (apply (pl_all _ _ (in_placed _ _ Hinv)); eauto).
    destruct (in_place _ _ Hinv _ _ _ Hin Hz') as [Hzc _]. by apply (next_not_current j d (c_curthread d) z).
Qed.
Lemma take_placed : placed (content m') (λ t, is_Some (threads (st m') !! t)).
Proof.
  destruct take_next_facts as (Hin & Htz & _ & _ & _). destruct next_between as [[_ _ B3 _ _ _ _ _] _].
  set (C1 := λ p, if decide (p = Running i) then [t] else if decide (p = Queued i) then q else content m p).
  assert (placed C1 (λ t, is_Some (threads (st m) !! t))) as H1.
  { eapply (placed_move _ _ _ (Queued i) (Running i) [t]); [apply (in_placed _ _ Hinv)|done|..]; unfold C1.
    - rewrite decide_False, decide_True by done. cbn [content]. rewrite Hc. simpl. by rewrite Hq.
    - rewrite decide_True by done. cbn [content]. by rewrite Hc, B3.
    - intros p E1 E2. by rewrite !decide_False by done. }
  eapply (placed_gone _ _ _ _ (Dead i) (c_zombies c)); [exact H1|..].
  - unfold C1. rewrite !decide_False by done. cbn [content]. rewrite take_cpus, Hc, decide_True by done. simpl. by rewrite app_nil_r.
  - intros p Hp. unfold C1. destruct (decide (p = Running i)) as [->|Hp1]; [cbn [content]; by rewrite take_cpus, decide_True|].
    destruct (decide (p = Queued i)) as [->|Hp2]; [cbn [content]; by rewrite take_cpus, decide_True|].
    destruct p as [j|j|j|j|t'|w]; try done; cbn [content]; rewrite ?take_cpus, ?decide_False by congruence; try done.
    cbn [st m' set_st]. by rewrite next_wchans.
  - intros t'. rewrite take_threads. case_decide as Hz.
    + split; [by intros [? ?]|by intros [_ ?]].
    + case_decide; [subst; split; [by eexists|by eexists]|]. split; [done|by intros [? _]].
Qed.
Lemma take_holder l : holder (st m') l = holder (st m) l.
Proof.
  cbn [st m' set_st]. unfold next_state. rewrite Hq. destruct l as [j|j| |]; cbn [holder]; try done; rewrite cpus_upd; cbn [cpus set_threads];
    case_decide; try done; subst; by rewrite Hc.
Qed.
Lemma take_place p t' y' : t' ∈ content m' p → threads (st m') !! t' = Some y' → place_ok m' p y'.
Proof.
  destruct take_next_facts as (Hin & Htz & Hcpu & Hone & _). intros Hp Hy'.
  assert (t' = t → p = Running i) as Ht.
  { intros ->. eapply (pl_one _ _ take_placed); [exact Hp|]. cbn [content]. rewrite take_cpus, decide_True by done. left. }
  rewrite take_threads in Hy'. case_decide as Hz; [done|]. destruct (decide (t = t')) as [<-|Hne].
  { injection Hy' as <-. rewrite Ht by done. by left. }
  assert (t' ∈ content m p) as Hp'.
  { destruct p as [j|j|j|j|t0|w]; cbn [content] in *; try done; rewrite ?take_cpus in Hp; try (case_decide; [subst j|done]; rewrite Hc; simpl in *).
    - by apply list_elem_of_singleton in Hp.
    - rewrite Hq. by right.
    - by apply not_elem_of_nil in Hp.
    - cbn [st m' set_st] in Hp. by rewrite next_wchans in Hp. }
  by eapply (place_keep _ m _ _ t').
Qed.
Lemma take_cpu_ok : cpu_ok i (take_next t q v c) (resumed v y) (held m i) (todo m i).
Proof.
  destruct take_next_facts as (Hin & Htz & Hcpu & _). destruct next_between as [[_ _ _ _ B5 B6 B7 _] _]. rewrite B6, B7.
  assert (away y) as [(_ & _ & v' & Hv' & _) Hf].
  { apply (in_away _ _ Hinv t y Hy). intros (j & d & Hd & Hne & E). apply (next_not_current j d t y); try done. congruence. }
  rewrite Hv in *. injection Hv' as <-. split; simpl; try done.
  - unfold lengthZ. simpl. lia.
  - intros _. split; [done|]. destruct Hf as [?|[? E]]; [by left|right]. split; [done|]. congruence.
  - intros _. by left.
  - congruence.
Qed.
Lemma next_run_inv : is_spl v → inv m'.
Proof.
  intros Hspl. destruct take_next_facts as (Hin & Htz & Hcpu & _ & Hdead).
  assert (length (cpus (st m')) = length (cpus (st m))) as Hlen.
  { cbn [st m' set_st]. unfold next_state. destruct (c_runqueue c); simpl; by rewrite length_alter. }
  split.
  - apply take_placed.
  - apply take_place.
  - intros t' y'. rewrite take_threads, Hlen. case_decide; [done|]. case_decide; [|apply (in_thread _ _ Hinv)].
    intros [= <-]. by destruct (in_thread _ _ Hinv _ _ Hy).
  - intros t' y'. rewrite take_threads. case_decide; [done|]. case_decide as Ht.
    + intros _ Hcu. destruct Hcu. exists i, (take_next t q v c). by rewrite take_cpus, decide_True.
    + intros Hy' Hcu. apply (in_away _ _ Hinv t' y' Hy'). intros (j & d & Hd & Hne & E). apply Hcu. exists j, d.
      rewrite take_cpus, decide_False by congruence. done.
  - intros j d. rewrite take_cpus. case_decide as Hj; [subst j; intros [= <-]|intros Hd].
    + destruct next_between as [[_ _ _ _ _ _ B7 _] Hcm]. split; [done|]. change (todo m' i) with (todo m i). split; [by rewrite B7|].
      exists (resumed v y). simpl c_curthread. rewrite take_threads, decide_False, decide_True, decide_False by done. split; [done|]. apply take_cpu_ok.
    + destruct (in_cpu _ _ Hinv j d Hd) as (H1 & H2 & z & Hz & H3). rewrite decide_False in H3 by congruence. split; [done|]. split; [done|].
      exists z. rewrite (take_other j d) by done. by rewrite decide_False.
  - intros t' Hs. destruct (in_saved _ _ Hinv t' Hs) as (z & Hz & Hf). rewrite take_threads, decide_False.
    + case_decide; [subst t'|by eauto]. exists (resumed v y). split; [done|]. simpl. congruence.
    + intros Hz'. destruct Hs. apply (in_dead _ _ Hinv i). cbn [content]. by rewrite Hc.
  - intros j t'. cbn [content]. rewrite take_cpus. case_decide; [simpl; by intros ?%not_elem_of_nil|]. apply (in_dead _ _ Hinv j).
  - intros l j. rewrite take_holder. apply (in_held _ _ Hinv).
  - intros j. destruct (in_locks _ _ Hinv j) as [Hnd Hl]. split; [done|]. intros l Hl'. specialize (Hl l Hl'). destruct l as [|k| |]; try done.
    destruct Hl as (-> & d & Hd & Hh). split; [done|]. rewrite take_cpus. case_decide; [subst; rewrite Hc in Hd; injection Hd as <-|]; by eexists.
  - intros t' Ht. cbn [st m' set_st] in Ht. rewrite next_next in Ht. destruct (in_fresh _ _ Hinv t' Ht) as [E1 E2]. split.
    + rewrite take_threads. case_decide; [done|]. rewrite decide_False by congruence. done.
    + cbn [st m' set_st]. by rewrite next_wchans.
Qed.
End Take.

Lemma next_inv : inv (set_st (next_state i c (st m)) m).
Proof.
  destruct (c_runqueue c) as [|t q] eqn:Hq; [by apply next_idle_inv|].
  destruct (sw_next _ _ next_switchable t q Hq) as (_ & y & Hy & _ & _ & v & Hv & Hspl). by eapply next_run_inv.
Qed.
End Next.

(** ** The first half *)

Definition destination (i : nat) (ns : threadstate_t) (w : Z) : place :=
  match ns with S_READY | S_RUN => Queued i | S_ZOMBIE => Dead i | S_SLEEP => Asleep w end.

Section LeaveInv.
Context (m : machine) (i : nat) (c : cpu) (x : thread) (Hinv : inv m) (Hr : runs m i c x).
Context (ns : threadstate_t) (w : Z) (name : string) (s0 : sched).
Context (Hns : ns ≠ S_RUN) (Hbusy : c_isidle c = false).
(** A sleeper goes on its channel, and unlocks it. *)
Context (Hs0 : s0 = match ns with S_SLEEP => upd_wchan w (leave_wchan (c_curthread c)) (st m) | _ => st m end).
Context (Hw : ns = S_SLEEP → is_Some (wchans (st m) !! w)).
Context (Hheld : held m i = match ns with S_SLEEP => [WcLock w] | _ => [] end).
Context (Hframes : ns ≠ S_READY → t_frames x = []) (Hproc : ns = S_ZOMBIE → t_proc x = None).
Let cur := c_curthread c.
Let Hc := ru_cpu _ _ _ _ Hr.
Let Hx : threads (st m) !! cur = Some x := ru_thread _ _ _ _ Hr.
Let m' := set_held i [] (set_st (leave i ns c x name s0) m).
Let x' := park (t_curspl x) ns (leave_name ns x name) x.

Lemma leave_cpus j : cpus (st m') !! j = if decide (i = j) then Some (leave_cpu ns cur c) else cpus (st m) !! j.
Proof.
  cbn [st m' set_held set_st]. unfold leave. rewrite cpus_upd. cbn [cpus upd_thread set_threads].
  replace (cpus s0) with (cpus (st m)) by by rewrite Hs0; destruct ns. case_decide; [subst; by rewrite Hc|done].
Qed.
Lemma leave_threads t : threads (st m') !! t = if decide (cur = t) then Some x' else threads (st m) !! t.
Proof.
  cbn [st m' set_held set_st]. unfold leave. cbn [threads upd_cpu set_cpus]. rewrite threads_upd.
  replace (threads s0) with (threads (st m)) by by rewrite Hs0; destruct ns. fold cur. case_decide as E; [rewrite <- E; by rewrite Hx|done].
Qed.
Lemma leave_wchans w' : wchans (st m') !! w' = wchans s0 !! w'.
Proof. done. Qed.
Lemma leave_dest : content m' (destination i ns w) ≡ₚ [cur] ++ content m (destination i ns w).
Proof.
  rewrite Permutation_app_comm. pose proof (leave_cpus i) as Hlc. rewrite decide_True in Hlc by done. pose proof (leave_wchans w) as Hlw. rewrite Hs0 in Hlw.
  destruct ns; try done; cbn [destination content]; rewrite ?Hlc, ?Hlw, ?Hc; try done.
  destruct Hw as [y Hy]; [done|]. erewrite wchan_upd by done. rewrite Hy. done.
Qed.
Lemma leave_content p : p ≠ Running i → p ≠ destination i ns w → content m' p = content m p.
Proof.
  intros H1 H2. destruct p as [j|j|j|j|t|w']; try done; cbn [content]; rewrite ?leave_cpus, ?leave_wchans.
  - case_decide; [congruence|done].
  - case_decide; [subst j; rewrite Hc|done]. by destruct ns.
  - case_decide; [subst j; rewrite Hc|done]. by destruct ns.
  - rewrite Hs0. destruct ns; try done. rewrite wchan_upd_ne; [done|]. intros ->. done.
Qed.
Lemma leave_placed : placed (content m') (λ t, is_Some (threads (st m') !! t)).
Proof.
  eapply placed_ext; [eapply (placed_move _ _ _ (Running i) (destination i ns w) [cur])|done|]; [apply (in_placed _ _ Hinv)|by destruct ns|..].
  - cbn [content]. by rewrite Hc, leave_cpus, decide_True, Hbusy by done.
  - apply leave_dest.
  - intros p H1 H2. by rewrite leave_content.
  - intros t. rewrite leave_threads. case_decide as E; [rewrite <- E, Hx; split; by eexists|done].
Qed.
Lemma leave_away : away x' ∧ thread_ok (length (cpus (st m))) x'.
Proof.
  destruct (runs_facts m i c x Hinv Hr) as (_ & Hco & Hto & _). destruct (co_busy _ _ _ _ _ Hco Hbusy) as [_ Hf]. split.
  - split; [split_and!; [done..|]; exists (t_curspl x); split; [done|by destruct Hto]|]. simpl. destruct Hf as [?|[? E]]; [by left|right]. split; [done|]. by rewrite <- E.
  - destruct Hto. split; try done. by right.
Qed.
Lemma leave_held l j : holder (st m') l = Some (Some j) ↔ l ∈ held m' j.
Proof.
  assert (holder (st m') l = holder s0 l) as ->.
  { cbn [st m' set_held set_st]. unfold leave. assert (cpus s0 !! i = Some c) as Hc0 by (rewrite Hs0; destruct ns; exact Hc).
    apply (holder_local s0 i c); [done|by destruct ns|by destruct ns]. }
  cbn [held m' set_held set_st]. rewrite Hs0. destruct ns; try done.
  1,3: rewrite (in_held _ _ Hinv); destruct (decide (j = i)) as [->|]; [by rewrite fn_lookup_insert, Hheld|by rewrite fn_lookup_insert_ne].
  destruct Hw as [y Hy]; [done|]. destruct (decide (l = WcLock w)) as [->|Hne].
  - cbn [holder]. erewrite wchan_upd by done. simpl. split; [done|].
    destruct (decide (j = i)) as [->|]; [rewrite fn_lookup_insert; by intros ?%not_elem_of_nil|]. rewrite fn_lookup_insert_ne by done.
    intros Hj%(in_held _ _ Hinv). assert (WcLock w ∈ held m i) as Hi%(in_held _ _ Hinv) by (rewrite Hheld; left). congruence.
  - assert (holder (upd_wchan w (leave_wchan (c_curthread c)) (st m)) l = holder (st m) l) as ->.
    { destruct l as [| |w'|]; try done. cbn [holder]. rewrite wchan_upd_ne; [done|congruence]. }
    rewrite (in_held _ _ Hinv). destruct (decide (j = i)) as [->|]; [|by rewrite fn_lookup_insert_ne]. rewrite fn_lookup_insert, Hheld.
    split; [|by intros ?%not_elem_of_nil]. intros ?%list_elem_of_singleton. done.
Qed.
Lemma leave_place p t y : t ∈ content m' p → threads (st m') !! t = Some y → place_ok m' p y.
Proof.
  destruct (runs_facts m i c x Hinv Hr) as (_ & Hco & _). intros Hp. rewrite leave_threads. destruct (decide (cur = t)) as [<-|Hne].
  - intros [= <-]. assert (p = destination i ns w) as ->.
    { eapply (pl_one _ _ leave_placed); [exact Hp|]. rewrite leave_dest. left. }
    pose proof (co_cpu _ _ _ _ _ Hco). destruct ns; try done; simpl; auto.
  - intros Hy. assert (t ∈ content m p) as Hp'.
    { destruct (decide (p = Running i)) as [->|]; [cbn [content] in Hp; by rewrite leave_cpus, decide_True in Hp by done; apply not_elem_of_nil in Hp|].
      destruct (decide (p = destination i ns w)) as [->|]; [|by rewrite leave_content in Hp].
      rewrite leave_dest in Hp. apply elem_of_app in Hp as [?%list_elem_of_singleton|?]; [congruence|done]. }
    by eapply (place_keep _ m _ _ t).
Qed.

Lemma leave_inv : (ns = S_READY → c_runqueue c ≠ []) → inv_sw (Some i) m'.
Proof.
  intros Hq. destruct (runs_facts m i c x Hinv Hr) as (He & Hco & Hto & H0 & Hcm). destruct leave_away as [Haway Hto'].
  assert (length (cpus (st m')) = length (cpus (st m))) as Hlen. { simpl. rewrite length_alter, Hs0. by destruct ns. }
  pose proof (ru_todo _ _ _ _ Hr) as Htd. destruct (co_busy _ _ _ _ _ Hco Hbusy) as [Hwt _].
  split.
  - apply leave_placed.
  - apply leave_place.
  - intros t y. rewrite leave_threads, Hlen. case_decide; [by intros [= <-]|apply (in_thread _ _ Hinv)].
  - intros t y. rewrite leave_threads. case_decide as Ht; [by intros [= <-]|]. intros Hy Hcu. apply (in_away _ _ Hinv t y Hy).
    intros (j & d & Hd & _ & E). apply Hcu. assert (j ≠ i) by (intros ->; fold Hc in Hd; rewrite Hc in Hd; simplify_eq). exists j, d. rewrite leave_cpus, decide_False by done. split_and!; congruence.
  - intros j d. rewrite leave_cpus. case_decide as Hj; [subst j; intros [= <-]|intros Hd].
    + cbn [todo held m' set_held set_st]. rewrite Htd. split; [by destruct ns|]. split; [done|]. exists x'.
      rewrite decide_True, fn_lookup_insert by done. replace (c_curthread (leave_cpu ns cur c)) with cur by by destruct ns. rewrite leave_threads, decide_True by done. split; [done|].
      split; try done; [by destruct Hco|by destruct ns|]. intros Hq'. apply Hframes. intros ->. simpl in Hq'. by destruct (c_runqueue c).
    + cbn [todo held m' set_held set_st]. rewrite fn_lookup_insert_ne by done. destruct (in_cpu _ _ Hinv j d Hd) as (H1 & H2 & y & Hy & H3).
      rewrite decide_False in H3 by done. split; [done|]. split; [done|]. exists y. rewrite leave_threads, !decide_False; [done|congruence|].
      intros E. by apply Hj, (inv_unique _ _ Hinv i j c d).
  - intros t Hs. destruct (in_saved _ _ Hinv t Hs) as (y & Hy & Hf). rewrite leave_threads. case_decide as E; [|by eauto]. exists x'. split; [done|].
    rewrite <- E, Hx in Hy. injection Hy as <-. done.
  - intros j t Ht. destruct (decide (Dead j = destination i ns w)) as [E|E]; [|rewrite leave_content in Ht by done; by apply (in_dead _ _ Hinv j)].
    rewrite E, leave_dest in Ht. apply elem_of_app in Ht as [->%list_elem_of_singleton|Ht]; [|rewrite <- E in Ht; by apply (in_dead _ _ Hinv j)].
    change (saved m cur = []). destruct (saved m cur) eqn:Es; [done|]. destruct (in_saved _ _ Hinv cur) as (y & Hy & Hf); [by rewrite Es|].
    rewrite Hx in Hy. injection Hy as <-. rewrite Hframes in Hf; [done|]. by destruct ns.
  - apply leave_held.
  - intros j. cbn [held m' set_held set_st]. destruct (decide (j = i)) as [->|Hj]; [rewrite fn_lookup_insert; split; [constructor|by intros l ?%not_elem_of_nil]|].
    rewrite fn_lookup_insert_ne by done. destruct (in_locks _ _ Hinv j) as [Hnd Hl]. split; [done|]. intros l Hin. specialize (Hl l Hin). destruct l as [|k| |]; try done.
    destruct Hl as (-> & d & Hd & Hh). split; [done|]. rewrite leave_cpus, decide_False by done. by eexists.
  - intros t Ht. destruct (in_fresh _ _ Hinv t) as [E1 E2]; [simpl in Ht; rewrite Hs0 in Ht; by destruct ns|]. split.
    + rewrite leave_threads, decide_False by congruence. done.
    + rewrite leave_wchans, Hs0. destruct ns; try done. destruct Hw as [y Hy]; [done|]. rewrite wchan_upd_ne by congruence. done.
Qed.
End LeaveInv.

(** ** The operations that switch *)

Section Switches.
Context (m : machine) (i : nat) (c : cpu) (x : thread) (Hinv : inv m) (Hr : runs m i c x).
Let Hc := ru_cpu _ _ _ _ Hr.

Lemma runs_switch : exec (st m) i c x ∧ c_runqueue_lock c = None ∧ is_spl (t_curspl x) ∧ t_curspl x ≤ t_iplhigh_count x ∧
  (t_stack x = None ∨ t_stack x = Some guard_band) ∧ t_cpu x = Some i ∧ t_iplhigh_count x = t_curspl x + lengthZ (held m i).
Proof.
  destruct (runs_facts m i c x Hinv Hr) as (He & Hco & Hto & H0 & [Hrl _]). pose proof (co_count _ _ _ _ _ Hco).
  split_and!; try done; try apply Hto; try apply Hco. unfold lengthZ in *. lia.
Qed.
(** A switch whose first half keeps the invariant. *)
Lemma switched ns name s0 mB (sL := leave i ns c x name s0) (c' := leave_cpu ns (c_curthread c) c) :
  inv_sw (Some i) mB → st mB = sL → cpus s0 = cpus (st m) → held mB i = [] → todo mB = todo m → saved mB = saved m → (∀ j, j ≠ i → held mB j = held m j) →
  switchable sL c' ∧ ∀ m', st m' = next_state i c' sL → held m' i = [] → (∀ j, j ≠ i → held m' j = held m j) → todo m' = todo m → saved m' = saved m → inv m'.
Proof.
  intros Hb Es Ecpu Eh Et Ev Ehj.
  assert (cpus (st mB) !! i = Some c') as HcB. { rewrite Es. unfold sL, leave. apply cpu_upd. simpl. by rewrite Ecpu. }
  destruct (inv_current _ _ Hb i c' HcB) as (xB & HxB & _).
  split; [rewrite <- Es; by eapply next_switchable|]. intros m' E1 E2 E3 E4 E5.
  eapply inv_ext; [eapply (next_inv mB); done|simpl; congruence|..].
  - intros j. simpl. destruct (decide (j = i)) as [->|]; [congruence|]. by rewrite E3, Ehj.
  - intros j. simpl. congruence.
  - intros t. simpl. congruence.
Qed.

Lemma yield_run : held m i = [] → ∃ s', thread_yield i (st m) = Ok tt s' ∧ inv (set_st s' m).
Proof.
  intros Hh. destruct runs_switch as (He & Hrl & Hspl & Hge & Hst & Hcpu & Hn). rewrite Hh in Hn. unfold lengthZ in Hn. simpl in Hn.
  unfold thread_yield. destruct (c_isidle c) eqn:Hidle.
  { eexists. split; [eapply switch_stays; try done; by left|]. by rewrite set_st_same. }
  destruct (decide (c_runqueue c = [])) as [Hq|Hq].
  { eexists. split; [eapply switch_stays; try done; by right|]. by rewrite set_st_same. }
  pose proof (leave_inv m i c x Hinv Hr S_READY 0 EmptyString (st m)) as Hl.
  specialize (Hl ltac:(done) Hidle eq_refl ltac:(done) Hh ltac:(done) ltac:(done) ltac:(done)). set (mB := set_held _ _ _) in Hl.
  destruct (switched S_READY EmptyString (st m) mB Hl) as [Hsw Hfin]; try done; [apply fn_lookup_insert|intros; simpl; by rewrite fn_lookup_insert_ne|].
  eexists. split; [eapply switch_ready; try done; lia|]. by apply Hfin.
Qed.
Lemma yield_step : held m i = [] → ok_step m i Yield.
Proof.
  intros Hh. destruct (yield_run Hh) as (s' & Hrun & Hinv'). unfold ok_step, perform. erewrite bind_ok by done. erewrite on_st_ok by done. by eexists.
Qed.
Lemma sleep_step w : t_frames x = [] → held m i = [WcLock w] → ok_step m i (Sleep w).
Proof.
  intros Hf Hh. destruct runs_switch as (He & Hrl & Hspl & Hge & Hst & Hcpu & Hn). rewrite Hh in Hn. unfold lengthZ in Hn. simpl in Hn.
  destruct (runs_facts m i c x Hinv Hr) as (_ & _ & Hto & _). destruct (ru_code _ _ _ _ Hr) as [Hidle|]; [|done].
  assert (holder (st m) (WcLock w) = Some (Some i)) as Hl by (apply (in_held _ _ Hinv); rewrite Hh; left).
  cbn [holder] in Hl. apply fmap_Some in Hl as (y & Hy & Hl).
  pose proof (leave_inv m i c x Hinv Hr S_SLEEP w (wc_name y) (upd_wchan w (leave_wchan (c_curthread c)) (st m))) as Hle.
  specialize (Hle ltac:(done) Hidle eq_refl ltac:(done) Hh ltac:(done) ltac:(done) ltac:(done)). set (mB := set_held _ _ _) in Hle.
  destruct (switched S_SLEEP (wc_name y) (upd_wchan w (leave_wchan (c_curthread c)) (st m)) mB Hle) as [Hsw Hfin]; try done; [apply fn_lookup_insert|intros; simpl; by rewrite fn_lookup_insert_ne|].
  assert (wchan_sleep i w (st m) = Ok tt (next_state i (leave_cpu S_SLEEP (c_curthread c) c) (leave i S_SLEEP c x (wc_name y) (upd_wchan w (leave_wchan (c_curthread c)) (st m))))) as Hrun.
  { unfold wchan_sleep. erewrite bind_ok by (apply curthread_ok, Hr). erewrite bind_ok by (apply read_thread_ok, Hr).
    rewrite (to_int _ _ Hto), Hf, bool_decide_false by (intros E; by destruct E). erewrite bind_ok by done. eapply switch_sleep; try done; lia. }
  unfold ok_step, perform. erewrite bind_ok by done. erewrite bind_ok by done. erewrite on_st_ok by exact Hrun. eexists. split; [done|].
  apply Hfin; try done; [apply fn_lookup_insert|intros; simpl; by rewrite fn_lookup_insert_ne].
Qed.
End Switches.

(** thread_exit: the process is left, interrupts go off, and the thread is a zombie. *)
Section ExitStep.
Context (m : machine) (i : nat) (c : cpu) (x : thread) (Hinv : inv m) (Hr : runs m i c x).
Context (Hf : t_frames x = []) (Hh : held m i = []) (Hp : t_proc x = Some (s_kproc (st m)) ∨ t_proc x = None).
Let cur := c_curthread c.
Let x1 := set_proc None x.
Let m1 := set_st (upd_thread cur (set_proc None) (st m)) m.
Let s2 := spl_to i IPL_HIGH x1 (st m1).
Let m2 := set_st s2 m1.

Lemma exit_detached : inv m1 ∧ runs m1 i c x1.
Proof.
  destruct (detach_step m i c x Hinv Hr Hf) as (m' & Hrun & Hinv'). unfold perform in Hrun. erewrite bind_ok in Hrun by done.
  erewrite on_st_ok in Hrun by (erewrite bind_ok by (apply curthread_ok, Hr); eapply write_thread_ok, Hr). injection Hrun as <-.
  split; [exact Hinv'|]. destruct Hr as [H1 H2 H3 H4 H5]. split; try done. by apply thread_upd.
Qed.
Lemma exit_high : inv m2 ∧ runs m2 i (set_irq (t_iplhigh_count (at_spl IPL_HIGH x1) =? 0) c) (at_spl IPL_HIGH x1) ∧ splhigh i (st m1) = Ok (t_curspl x) s2.
Proof.
  destruct exit_detached as [Hinv1 Hr1]. destruct (runs_switch m1 i c x1 Hinv1 Hr1) as (He & Hrl & Hspl & Hge & Hst & Hcpu & Hn).
  assert (splhigh i (st m1) = Ok (t_curspl x) s2) as Hrun1 by (apply (splx_ok _ _ c x1); [done|by right|done|done]).
  destruct (splx_step m1 i c x1 Hinv1 Hr1 IPL_HIGH (or_intror eq_refl) Hf) as (m' & Hrun & Hinv'). unfold perform in Hrun. erewrite bind_ok in Hrun by done.
  erewrite bind_ok in Hrun by (apply on_st_ok; exact Hrun1). injection Hrun as <-. split; [exact Hinv'|]. split; [|done].
  destruct Hr1 as [H1 H2 H3 H4 H5]. assert (cur_of i (st m1) = cur) as E by by apply cur_of_at. unfold m2, s2, spl_to. rewrite E.
  split; try done; [by apply cpu_upd|cbn [st set_st threads upd_cpu set_cpus]; by apply thread_upd].
Qed.
Lemma exit_step : ok_step m i Exit.
Proof.
  destruct exit_detached as [Hinv1 Hr1], exit_high as (Hinv2 & Hr2 & Hhigh). set (c2 := set_irq _ c) in Hr2. set (x2 := at_spl IPL_HIGH x1) in *.
  destruct (runs_switch m2 i c2 x2 Hinv2 Hr2) as (He & Hrl & Hspl & Hge & Hst & Hcpu & Hn).
  change (held m2 i) with (held m i) in Hn. rewrite Hh in Hn. unfold lengthZ in Hn. simpl in Hn.
  destruct (ru_code _ _ _ _ Hr2) as [Hidle|]; [|done].
  pose proof (leave_inv m2 i c2 x2 Hinv2 Hr2 S_ZOMBIE 0 EmptyString (st m2)) as Hle.
  specialize (Hle ltac:(done) Hidle eq_refl ltac:(done) Hh ltac:(done) ltac:(done) ltac:(done)). set (mB := set_held _ _ _) in Hle.
  destruct (switched m2 i c2 x2 Hr2 S_ZOMBIE EmptyString (st m2) mB Hle) as [Hsw Hfin]; try done; [apply fn_lookup_insert|intros; simpl; by rewrite fn_lookup_insert_ne|].
  assert (∃ s', thread_exit i (st m) = Ok tt s' ∧ s' = next_state i (leave_cpu S_ZOMBIE (c_curthread c2) c2) (leave i S_ZOMBIE c2 x2 EmptyString (st m2))) as (s' & Hrun & Es').
  { eexists. split; [|done]. unfold thread_exit. erewrite bind_ok by (apply curthread_ok, Hr). erewrite bind_ok by (apply read_thread_ok, Hr). erewrite bind_ok by done.
    erewrite bind_ok; [|apply kassert_ok, orb_true_iff; by rewrite !bool_decide_eq_true].
    erewrite (bind_ok _ _ _ tt (st m1)).
    2: { destruct Hp as [E|E]; rewrite E.
         - rewrite bool_decide_true by done. eapply write_thread_ok, Hr.
         - rewrite bool_decide_false by done. unfold ret. f_equal. symmetry. apply (upd_thread_id _ _ x); [apply Hr|]. destruct x; simpl in *; by subst. }
    erewrite bind_ok by (apply read_thread_ok, Hr1). erewrite bind_ok by done.
    erewrite bind_ok; [|eapply checkstack_ok; [..|apply Hr1|done]; [apply Hst]]. erewrite bind_ok by exact Hhigh.
    eapply (switch_zombie i s2 c2 x2); try done. }
  unfold ok_step, perform. erewrite bind_ok by done. erewrite on_st_ok by exact Hrun. eexists. split; [done|]. apply Hfin; try done.
Qed.
End ExitStep.

(** Leaving the idle loop. *)
Section Unidle.
Context (m : machine) (i : nat) (c : cpu) (x : thread) (Hinv : inv m).
Context (Hc : cpus (st m) !! i = Some c) (Hx : threads (st m) !! c_curthread c = Some x).
Context (Hidle : c_isidle c = true) (Hw : c_waiting c = false) (Hf : t_frames x = []).
Let mB := set_st (upd_thread (c_curthread c) (add_iplhigh 1) (st m)) m.

Lemma unidle_facts : exec (st m) i c x ∧ cpu_ok i c x (held m i) (todo m i) ∧ c_runqueue_lock c = None ∧ held m i = [] ∧ todo m i = Nothing ∧
  t_iplhigh_count x = 1 ∧ t_curspl x = IPL_HIGH ∧ ∃ v, resume_spl x = Some v ∧ is_spl v.
Proof.
  destruct (inv_at m i c x Hinv Hc Hx) as [He Hco]. destruct (in_cpu _ _ Hinv i c Hc) as ([Hrl Htlb] & _).
  destruct (co_idle _ _ _ _ _ Hco Hidle) as (Hs & Hv & [(_ & Hh & Htd)|E]); [|congruence].
  split_and!; try done. by rewrite (co_count _ _ _ _ _ Hco), Hs, Hh.
Qed.
Lemma unidle_threads t : threads (st mB) !! t = if decide (c_curthread c = t) then Some (add_iplhigh 1 x) else threads (st m) !! t.
Proof. cbn [st mB set_st]. rewrite threads_upd. case_decide; [subst; by rewrite Hx|done]. Qed.
Lemma unidle_between : inv_sw (Some i) mB.
Proof.
  destruct unidle_facts as (He & Hco & Hrl & Hh & Htd & Hn & Hs & v & Hv & Hspl). pose proof unidle_threads as Hthr. split; try by apply Hinv.
  - eapply placed_ext; [apply (in_placed _ _ Hinv)|done|]. intros t. rewrite Hthr. case_decide; [subst; rewrite Hx; split; by eexists|done].
  - intros p t y Ht. rewrite Hthr. case_decide as E; [|intros Hy; by eapply (place_keep _ m _ _ t)]. subst t. intros [= <-].
    by eapply (place_keep _ m _ _ (c_curthread c)).
  - intros t y. rewrite Hthr. case_decide; [|apply (in_thread _ _ Hinv)]. intros [= <-]. by destruct (in_thread _ _ Hinv _ _ Hx).
  - intros t y. rewrite Hthr. case_decide as E.
    + intros [= <-] _. split; [|by left]. split_and!; simpl; [lia|done|]. by exists v.
    + intros Hy Hcu. apply (in_away _ _ Hinv t y Hy). intros (j & d & Hd & _ & Ed). apply Hcu. exists j, d. split_and!; try done.
      intros [= ->]. simplify_eq.
  - intros j d Hd. destruct (in_cpu _ _ Hinv j d Hd) as (H1 & H2 & y & Hy & H3). rewrite decide_False in H3 by done. split; [done|]. split; [done|].
    destruct (decide (j = i)) as [->|Hj].
    + change (cpus (st mB)) with (cpus (st m)) in Hd. rewrite Hc in Hd. injection Hd as <-. exists (add_iplhigh 1 x). rewrite Hthr, !decide_True by done. split; [done|].
      change (held mB i) with (held m i). change (todo mB i) with (todo m i). split; try done; [by destruct Hco| |by rewrite (co_irq _ _ _ _ _ Hco), Hn].
      split; [|by left]. split_and!; simpl; [lia|done|by exists v].
    + exists y. rewrite Hthr, decide_False, decide_False by congruence || (intros E; apply Hj; symmetry; by eapply (inv_unique _ _ Hinv)). done.
  - intros t Ht. destruct (in_saved _ _ Hinv t Ht) as (y & Hy & Hfy). exists y. rewrite Hthr, decide_False; [done|]. intros <-. congruence.
  - intros t Ht. destruct (in_fresh _ _ Hinv t Ht) as [E1 E2]. split; [|done]. rewrite Hthr, decide_False by congruence. done.
Qed.
Lemma unidle_runs : perform i Unidle m = Ok tt (set_st (next_state i c (st mB)) m).
Proof.
  destruct unidle_facts as (He & Hco & Hrl & Hh & Htd & Hn & Hs & _). unfold perform. erewrite bind_ok by done.
  by erewrite on_st_ok by (eapply unidle_ok; [done..|exact (next_switchable mB i c unidle_between Hc)]).
Qed.
Lemma unidle_step : ok_step m i Unidle.
Proof.
  eexists. split; [exact unidle_runs|]. apply (next_inv mB i c (add_iplhigh 1 x) unidle_between Hc).
  by rewrite unidle_threads, decide_True.
Qed.
(** With a thread on its run queue the processor runs it. *)
Lemma unidle_takes t q m' : c_runqueue c = t :: q → perform i Unidle m = Ok tt m' →
  ∃ c' y', cpus (st m') !! i = Some c' ∧ threads (st m') !! t = Some y' ∧ c_curthread c' = t ∧ c_isidle c' = false ∧ c_runqueue c' = q ∧ t_state y' = S_RUN.
Proof.
  intros Hq. rewrite unidle_runs. intros [= <-]. pose proof unidle_between as HinvB.
  destruct (sw_next _ _ (next_switchable mB i c HinvB Hc) t q Hq) as (Htz & y & Hy & _ & _ & v & Hv & _).
  pose proof (take_cpus mB i c HinvB Hc t q y v Hq Hy Hv i) as Hc'. rewrite decide_True in Hc' by done.
  pose proof (take_threads mB i c t q y v Hq Hy Hv t) as Ht'. rewrite decide_False, decide_True in Ht' by done.
  by exists (take_next t q v c), (resumed v y).
Qed.
End Unidle.

(** ** Every operation *)

Lemma continue_ok m i c x : inv m → cpus (st m) !! i = Some c → threads (st m) !! c_curthread c = Some x → c_halted c = false →
  match todo m i with
  | Nothing => False
  | Waking (t :: _) => ∀ y j, threads (st m) !! t = Some y → t_cpu y = Some j → reachable_cpu (st m) j
  | Sending j _ _ _ => reachable_cpu (st m) j
  | _ => True
  end → stage_ok m i.
Proof.
  intros Hinv Hc Hx Hh Hg. destruct (todo m i) as [|[|t ts]|j my total|share n|j share n vs|vs| |] eqn:Htd; try done.
  - by eapply wake_done_stage.
  - by eapply wake_stage.
  - by eapply count_stage.
  - by eapply take_stage.
  - by eapply send_stage.
  - by eapply put_stage.
  - assert (t_frames x ≠ []) as Hf by (apply (stage_frames m i c x); try done; by rewrite Htd).
    destruct (stage_todo m i c Hinv Hc) as [Hcm Hh']. rewrite Htd in Hh'. simpl in Hh'.
    set (m1 := set_todo i Nothing m). assert (inv m1) as Hinv1 by (eapply inv_retodo; try done; rewrite ?Htd; try done; by left).
    assert (runs m1 i c x) as Hr1 by (split; try done; [by right|apply fn_lookup_insert]).
    destruct (yield_run m1 i c x Hinv1 Hr1 Hh') as (s' & Hrun & Hinv').
    unfold stage_ok, continue. erewrite bind_ok by done. cbv zeta. rewrite Htd. erewrite bind_ok by done. erewrite on_st_ok by exact Hrun. by eexists.
  - by eapply clear_stage.
Qed.
Lemma perform_ok m i o : inv m → guard m i o → ok_step m i o.
Proof.
  intros Hinv (c & x & Hc & Hx & Hh & Hg). destruct o; try destruct Hg as [Hr Hg].
  - destruct Hg. by eapply acquires_step.
  - destruct Hg. by eapply releases_step.
  - destruct Hg. by eapply splx_step.
  - by eapply fork_step.
  - by eapply yield_step.
  - by eapply detach_step.
  - destruct Hg as (? & ? & ?). by eapply exit_step.
  - by eapply create_step.
  - destruct Hg as (y & ? & ? & ?). by eapply destroy_step.
  - destruct Hg. by eapply sleep_step.
  - by eapply wakeone_step.
  - by eapply wakeall_step.
  - by eapply interrupt_step.
  - destruct Hg. by eapply return_step.
  - destruct Hg. by eapply clock_step.
  - destruct Hg. by eapply ipi_step.
  - destruct Hg. by eapply send_step.
  - destruct Hg. by eapply unidle_step.
  - destruct (continue_ok m i c x Hinv Hc Hx Hh) as (m' & Hrun & Hinv'); [done|]. by exists m'.
Qed.
