(* ===== verification/SchedBoot.v ===== *)
(** * Booting

    thread_bootstrap and cpu_create lead to a machine that satisfies the invariant of
    the thread system. *)

From Stdlib Require Import String.
From stdpp Require Import list functions.
From S2P Require Import Prelude Sched SchedOps SchedSwitch SchedInv SchedStep SchedMove SchedRun.
#[local] Open Scope kern_scope.

(** The machine before anything happens: no lock is held, nothing is under way. *)
Definition quiet_machine (s : sched) : machine := mkMachine s (λ _, []) (λ _, Nothing) (λ _, []).
(** The boot processor, and the others that the bus code finds. *)
Fixpoint create_cpus (hardware_numbers : list Z) : M sched unit :=
  match hardware_numbers with
  | [] => ret tt
  | h :: l => cpu_create h ;; create_cpus l
  end.
Definition boot (hardware_numbers : list Z) : M sched unit := thread_bootstrap ;; create_cpus hardware_numbers.
(** The kernel before thread_bootstrap. *)
Definition before_boot (locks : list Z) (kproc next : Z) (mem : list bool) : sched :=
  mkSched [] ∅ ∅ (list_to_map ((λ k, (k, None)) <$> locks)) kproc next mem.

Definition boot_thread (n : nat) (kproc : Z) : thread :=
  mkThread (Some "NEW"%string) S_READY (if decide (n = 0%nat) then None else Some guard_band) NoContext (Some n) (Some kproc) false IPL_HIGH 1 [].
Definition boot_cpu (hw t : Z) : cpu := mkCpu hw t [] 0 false [] None 0 [] 0 None false false false false.
Definition with_cpu (hw : Z) (mem : list bool) (s : sched) : sched :=
  let t := s_next s in
  set_cpus (cpus s ++ [boot_cpu hw t])
    (set_threads (<[t := boot_thread (length (cpus s)) (s_kproc s)]> (threads s)) (set_next (t + 1) (set_mem mem s))).


(** cpu_create panics without memory, and otherwise adds a processor. *)
Lemma cpu_create_run hw s : cpu_create hw s = Panic ∨ ∃ mem, cpu_create hw s = Ok (length (cpus s)) (with_cpu hw mem s).
Proof.
  unfold cpu_create.
  destruct (kmalloc_run s) as (b & mem & H1). erewrite bind_ok by exact H1. destruct b; [|by left]. erewrite bind_ok by done.
  destruct (kmalloc_run (set_mem mem s)) as (b & mem2 & H2). erewrite bind_ok by exact H2. destruct b; [|by left]. erewrite bind_ok by done.
  erewrite bind_ok by done. cbv zeta. change (set_mem mem2 (set_mem mem s)) with (set_mem mem2 s). set (s2 := set_mem mem2 s).
  destruct (thread_create_run s2) as [[mem3 H3]|[mem3 H3]]; erewrite bind_ok by exact H3; [by left|].
  set (y := mkThread _ _ _ _ _ _ _ _ _ _).
  destruct (kmalloc_new s2 mem3 y) as (b & mem4 & H4).
  set (s4 := λ y, set_threads (<[s_next s2 := y]> (threads s2)) (set_next (s_next s2 + 1) (set_mem mem4 s2))).
  assert (proc_addthread (s_kproc s2) (s_next s2) (set_threads (<[s_next s2 := y]> (threads s2)) (set_next (s_next s2 + 1) (set_mem mem3 s2))) =
    if b then Ok tt (s4 (set_proc (Some (s_kproc s2)) y)) else Err ENOMEM (s4 y)) as H5.
  { unfold proc_addthread. erewrite bind_ok by (apply read_thread_ok, lookup_insert_eq). erewrite bind_ok by done. erewrite bind_ok by exact H4.
    destruct b; cbn [negb]; [apply (write_new s2 mem4 y)|done]. }
  destruct b; (erewrite bind_ok; [|unfold attempt; rewrite H5; done]); [|by left].
  change (length (cpus s2)) with (length (cpus s)). unfold with_cpu, boot_thread. case_decide as Hn.
  - right. exists mem4. erewrite bind_ok by done. erewrite bind_ok by apply write_new. erewrite bind_ok by done. unfold ret, s4. rewrite Hn. done.
  - destruct (kmalloc_new s2 mem4 (set_proc (Some (s_kproc s2)) y)) as (b & mem5 & H6). destruct b.
    + right. exists mem5. erewrite bind_ok.
      2: { erewrite bind_ok by exact H6. erewrite bind_ok by done. apply write_new. }
      erewrite bind_ok by apply write_new. erewrite bind_ok by done. done.
    + left. unfold bind at 1. erewrite bind_ok by exact H6. done.
Qed.

Section NewCpu.
Context (s : sched) (hw : Z) (mem : list bool) (Hinv : inv (quiet_machine s)).
Let n := length (cpus s).
Let t := s_next s.
Let m' := quiet_machine (with_cpu hw mem s).
Let Hfresh : threads s !! t = None.
Proof. apply (in_fresh _ _ Hinv). unfold t. simpl. lia. Qed.

Lemma new_cpus j : cpus (st m') !! j = if decide (j = n) then Some (boot_cpu hw t) else cpus s !! j.
Proof.
  cbn [st m' quiet_machine with_cpu cpus set_cpus]. case_decide as E; [subst; unfold n; by rewrite list_lookup_middle|].
  destruct (decide (j < n)%nat); [by rewrite lookup_app_l|]. rewrite !lookup_ge_None_2; [done|unfold n in *; lia|rewrite length_app; simpl; unfold n in *; lia].
Qed.
Lemma new_threads t' : threads (st m') !! t' = if decide (t = t') then Some (boot_thread n (s_kproc s)) else threads s !! t'.
Proof. cbn [st m' quiet_machine with_cpu threads set_cpus set_threads]. destruct (decide (t = t')) as [<-|]; [apply lookup_insert_eq|by apply lookup_insert_ne]. Qed.
Lemma new_out j : j = n → cpus s !! j = None.
Proof. intros ->. by apply lookup_ge_None_2. Qed.
Lemma new_content p : p ≠ Running n → content m' p = content (quiet_machine s) p.
Proof.
  intros Hp. destruct p as [j|j|j|j|t'|w]; try done; cbn [content]; rewrite new_cpus; case_decide as E; try done; cbn [st quiet_machine]; rewrite ?new_out by done; try done. congruence.
Qed.
Lemma new_running : content m' (Running n) = [t] ∧ content (quiet_machine s) (Running n) = [].
Proof. cbn [content]. rewrite new_cpus, decide_True by done. cbn [st quiet_machine]. by rewrite new_out. Qed.

Lemma new_cpu_inv : inv m'.
Proof.
  assert (length (cpus (st m')) = S n) as Hlen by (simpl; rewrite length_app; simpl; unfold n; lia). destruct new_running as [R1 R2].
  assert (∀ p t', t' ∈ content (quiet_machine s) p → t' ≠ t) as Hold.
  { intros q t' Hin ->. assert (is_Some (threads s !! t)) as [? ?] by (apply (pl_all _ _ (in_placed _ _ Hinv)); eauto). congruence. }
  split.
  - eapply (placed_new _ _ _ _ (Running n) t); [apply (in_placed _ _ Hinv)|simpl; rewrite Hfresh; by intros [? ?]|by rewrite R1, R2|intros p Hp; by rewrite new_content|].
    intros t'. rewrite new_threads. case_decide; [subst; simpl; rewrite Hfresh; split; [by right|by eexists]|]. split; [by left|]. intros [?|?]; [done|congruence].
  - intros p t' y Ht. rewrite new_threads. destruct (decide (p = Running n)) as [->|Hp].
    + rewrite R1 in Ht. apply list_elem_of_singleton in Ht as ->. rewrite decide_True by done. intros [= <-]. by right.
    + rewrite new_content in Ht by done. rewrite decide_False by (by apply not_eq_sym, (Hold p)). intros Hy. by eapply (place_keep _ (quiet_machine s) _ _ t').
  - intros t' y. rewrite new_threads, Hlen. case_decide.
    + intros [= <-]. unfold boot_thread. split; simpl; try done; [case_decide; auto|by right|]. exists n. split; [done|lia].
    + intros Hy. destruct (in_thread _ _ Hinv t' y Hy) as [T1 T2 T3 (j & T4 & T5)]. split; try done. exists j. split; [done|]. simpl in T5. unfold n. lia.
  - intros t' y. rewrite new_threads. case_decide as E.
    + intros _ Hcu. destruct Hcu. exists n, (boot_cpu hw t). by rewrite new_cpus, decide_True.
    + intros Hy Hcu. apply (in_away _ _ Hinv t' y Hy). intros (j & d & Hd & _ & Ed). apply Hcu. exists j, d. rewrite new_cpus, decide_False; [done|].
      intros ->. simpl in Hd. rewrite new_out in Hd by done. done.
  - intros j d. rewrite new_cpus. case_decide as E.
    + intros [= <-]. split; [done|]. split; [done|]. exists (boot_thread n (s_kproc s)). cbn [c_curthread boot_cpu]. rewrite new_threads, decide_True, decide_False by done.
      split; [done|]. subst j. split; try done; simpl; [auto|intros _; by left].
    + intros Hd. destruct (in_cpu _ _ Hinv j d Hd) as (H1 & H2 & y & Hy & H3). split; [done|]. split; [done|]. exists y. rewrite decide_False in H3 |- * by done.
      split; [|done]. rewrite new_threads, decide_False; [done|]. intros E'. simpl in Hy. congruence.
  - done.
  - done.
  - intros l j. split; [|by intros ?%not_elem_of_nil]. intros Hl.
    assert (holder s l = Some (Some j)) as Hl'. { destruct l as [k|k| |]; try done; cbn [holder] in *; rewrite new_cpus in Hl; case_decide; done. }
    apply (in_held _ _ Hinv) in Hl'. done.
  - intros j. split; [constructor|by intros l ?%not_elem_of_nil].
  - intros t' Ht. simpl in Ht. destruct (in_fresh _ _ Hinv t') as [E1 E2]; [simpl; lia|]. split; [|done]. rewrite new_threads, decide_False by (unfold t; lia). done.
Qed.
End NewCpu.

Lemma create_cpus_inv hws s s' : inv (quiet_machine s) → create_cpus hws s = Ok tt s' → inv (quiet_machine s').
Proof.
  revert s. induction hws as [|h l IH]; intros s Hinv Hrun; simpl in Hrun; [by injection Hrun as <-|].
  destruct (cpu_create_run h s) as [E|[mem E]]; [unfold bind in Hrun; by rewrite E in Hrun|]. erewrite bind_ok in Hrun by exact E.
  eapply IH; [|exact Hrun]. by apply new_cpu_inv.
Qed.
Lemma before_boot_inv locks kproc next mem : inv (quiet_machine (before_boot locks kproc next mem)).
Proof.
  split.
  - split.
    + intros p. destruct p; constructor.
    + intros p q t Hp. exfalso. destruct p; by apply not_elem_of_nil in Hp.
    + intros t. simpl. rewrite lookup_empty. split; [by intros [? ?]|]. intros [p Hp]. destruct p; by apply not_elem_of_nil in Hp.
  - intros p t x _ Hx. simpl in Hx. by rewrite lookup_empty in Hx.
  - intros t x Hx. simpl in Hx. by rewrite lookup_empty in Hx.
  - intros t x Hx. simpl in Hx. by rewrite lookup_empty in Hx.
  - done.
  - done.
  - done.
  - intros l i. split; [|by intros ?%not_elem_of_nil]. destruct l; simpl; try done.
    intros Hl. apply elem_of_list_to_map_2 in Hl. apply list_elem_of_fmap in Hl as (k' & [= _ ?] & _).
  - intros i. split; [constructor|by intros l ?%not_elem_of_nil].
  - intros t _. simpl. by rewrite !lookup_empty.
Qed.
Lemma boot_inv hws locks kproc next mem s : boot hws (before_boot locks kproc next mem) = Ok tt s → inv (quiet_machine s).
Proof.
  intros Hrun. unfold boot, thread_bootstrap in Hrun. set (s0 := before_boot locks kproc next mem) in *.
  pose proof (before_boot_inv locks kproc next mem) as Hinv0. fold s0 in Hinv0.
  assert (∃ s1, inv (quiet_machine s1) ∧ create_cpus hws s1 = Ok tt s) as (s1 & Hinv1 & Hrun1); [|by eapply create_cpus_inv].
  unfold bind at 1 in Hrun. erewrite bind_ok in Hrun by done. change (set_cpus [] s0) with s0 in Hrun.
  destruct (cpu_create_run 0 s0) as [E|[mem1 E]]; [unfold bind in Hrun; by rewrite E in Hrun|]. erewrite bind_ok in Hrun by exact E.
  set (s1 := with_cpu 0 mem1 s0) in *. assert (cpus s1 !! 0%nat = Some (boot_cpu 0 (s_next s0))) as Hc by done.
  assert (threads s1 !! s_next s0 = Some (boot_thread 0 kproc)) as Ht by apply lookup_insert_eq.
  change (length (cpus s0)) with 0%nat in Hrun. erewrite bind_ok in Hrun by by apply curthread_ok. cbn [c_curthread boot_cpu] in Hrun.
  erewrite bind_ok in Hrun by by eapply write_thread_ok. rewrite (upd_thread_id _ _ _ _ Ht) in Hrun by done.
  erewrite bind_ok in Hrun by by apply read_thread_ok. simpl kassert in Hrun. exists s1. split; [by apply new_cpu_inv|]. exact Hrun.
Qed.
