(* ===== verification/SchedMigrate.v ===== *)
(** * Migration shares the threads out

    What thread_consider_migration does when no other processor interferes: a processor
    with more than its share keeps the share, and the others have room for the rest. *)

From stdpp Require Import list.
From S2P Require Import Prelude Sched SchedOps.
#[local] Open Scope kern_scope.

Definition queue_of (s : sched) (j : nat) : list Z := default [] (c_runqueue <$> cpus s !! j).
(** The run queues' and the interrupt locks are free. *)
Definition locks_free (s : sched) : Prop := ∀ j d, cpus s !! j = Some d → c_runqueue_lock d = None ∧ c_ipi_lock d = None.

(** The threads on the [n] run queues from [i] on, and the room that those of the other
    processors have. *)
Fixpoint queued (s : sched) (i n : nat) : Z :=
  match n with O => 0 | S n' => lengthZ (queue_of s i) + queued s (S i) n' end.
Fixpoint room (s : sched) (me : nat) (share : Z) (i n : nat) : Z :=
  match n with
  | O => 0
  | S n' => (if decide (i = me) then 0 else Z.max 0 (share - lengthZ (queue_of s i))) + room s me share (S i) n'
  end.

Section Counting.
Context (s : sched) (me : nat) (c : cpu) (x : thread) (He : exec s me c x) (Hfree : locks_free s).

Lemma count_queues_ok i n my total : (i + n = length (cpus s))%nat →
  count_queues me i n my total s = Ok (if decide (i ≤ me < i + n)%nat then lengthZ (queue_of s me) else my, total + queued s i n) s.
Proof.
  revert i my total. induction n as [|n IH]; intros i my total Hn; simpl.
  { rewrite decide_False by lia. unfold ret. do 2 f_equal. lia. }
  destruct (lookup_lt_is_Some_2 (cpus s) i) as [d Hd]; [lia|]. destruct (Hfree i d Hd) as [Hl _].
  erewrite bind_ok by by eapply count_queue_ok. rewrite IH by lia. unfold queue_of at 3. rewrite Hd. simpl. do 2 f_equal; [|lia].
  case_decide as E1; [by rewrite decide_True by lia|]. case_decide as E2.
  - subst i. rewrite decide_True by lia. unfold queue_of. by rewrite Hd.
  - by rewrite decide_False by lia.
Qed.

(** The room is enough for what one processor has above a share. *)
Lemma room_enough share : queued s 0 (length (cpus s)) ≤ share * Z.of_nat (length (cpus s)) → share ≤ lengthZ (queue_of s me) →
  lengthZ (queue_of s me) - share ≤ room s me share 0 (length (cpus s)).
Proof.
  intros Htot Hmy. assert (me < length (cpus s))%nat as Hlt by (apply lookup_lt_is_Some; eexists; apply He).
  assert (∀ n i, share * Z.of_nat n - queued s i n + (if decide (i ≤ me < i + n)%nat then lengthZ (queue_of s me) - share else 0) ≤ room s me share i n) as H.
  { induction n as [|n IH]; intros i; simpl queued; simpl room; [rewrite decide_False by lia; lia|]. specialize (IH (S i)).
    destruct (decide (i = me)) as [->|Hne].
    - rewrite decide_True by lia. rewrite decide_False in IH by lia. lia.
    - destruct (decide (S i ≤ me < S i + n)%nat); destruct (decide (i ≤ me < i + S n)%nat); lia. }
  specialize (H (length (cpus s)) 0%nat). rewrite decide_True in H by lia. lia.
Qed.
End Counting.

(** A deal without the current thread: as many as there is room for. *)
Lemma deal_others cur share n vs k : cur ∉ vs → (n ≤ length vs)%nat →
  let r := Nat.min n (Z.to_nat (share - k)) in deal cur share n vs k = (take r vs, (n - r)%nat, drop r vs).
Proof.
  revert vs k. induction n as [|n IH]; intros vs k Hcur Hn; simpl; [done|].
  destruct vs as [|t vs]; [simpl in Hn; lia|]. apply not_elem_of_cons in Hcur as [Hne Hcur]. destruct (Z.ltb_spec k share).
  - rewrite (proj2 (Z.eqb_neq t cur)) by done. rewrite IH; [|done|simpl in *; lia].
    replace (Z.to_nat (share - k)) with (S (Z.to_nat (share - (k + 1)))) by lia. done.
  - replace (Z.to_nat (share - k)) with 0%nat by lia. done.
Qed.

(** ** Threads given to another processor *)

Lemma give_all_other i l s j : j ≠ i → cpus (give_all i l s) !! j = cpus s !! j.
Proof.
  intros Hj. revert s. induction l as [|t l IH]; intros s; [done|]. change (give_all i (t :: l) s) with (give_all i l (give i t s)). rewrite IH.
  unfold give. by rewrite cpu_upd_ne by done.
Qed.
Lemma give_all_cpu i l s d : cpus s !! i = Some d → ∃ d', cpus (give_all i l s) !! i = Some d' ∧ c_runqueue d' = c_runqueue d ++ l ∧
  c_runqueue_lock d' = c_runqueue_lock d ∧ c_ipi_lock d' = c_ipi_lock d.
Proof.
  revert s d. induction l as [|t l IH]; intros s d Hd; [exists d; by rewrite app_nil_r|].
  destruct (IH (give i t s) (enqueue t d)) as (d' & H1 & H2 & H3 & H4); [by apply give_cpu|].
  destruct (enqueue_fields t d) as (E1 & E2 & _ & E4). exists d'. split; [done|]. rewrite H2, H3, H4, E1, E2, E4, <- app_assoc. done.
Qed.
Lemma give_all_threads i l s t : threads (give_all i l s) !! t = if decide (t ∈ l) then set_t_cpu (Some i) <$> threads s !! t else threads s !! t.
Proof.
  revert s. induction l as [|t' l IH]; intros s; [done|]. change (give_all i (t' :: l) s) with (give_all i l (give i t' s)). rewrite IH.
  cbn [give threads upd_cpu set_cpus]. rewrite threads_upd. destruct (decide (t' = t)) as [->|Hne].
  - rewrite (decide_True (P := t ∈ t :: l)) by left. case_decide; [|done]. by destruct (threads s !! t).
  - destruct (decide (t ∈ l)); [by rewrite decide_True by by right|]. rewrite decide_False; [done|]. by intros [->|?]%elem_of_cons.
Qed.
Lemma give_all_length i l s : length (cpus (give_all i l s)) = length (cpus s).
Proof. revert s. induction l as [|t l IH]; intros s; [done|]. change (give_all i (t :: l) s) with (give_all i l (give i t s)). rewrite IH. simpl. apply length_alter. Qed.
Lemma give_all_free i l s : locks_free s → locks_free (give_all i l s).
Proof.
  intros Hf j d Hd. destruct (decide (j = i)) as [->|]; [|rewrite give_all_other in Hd by done; by apply (Hf j)].
  assert (is_Some (cpus s !! i)) as [d0 Hd0] by (apply lookup_lt_is_Some; rewrite <- (give_all_length i l); apply lookup_lt_is_Some; eauto).
  destruct (give_all_cpu i l s d0 Hd0) as (d' & H1 & _ & H3 & H4). destruct (Hf i d0 Hd0). simplify_eq. by rewrite H3, H4.
Qed.

(** What sending the threads [vs] to the processors from [i] on does. *)
Record shared (me : nat) (share : Z) (i : nat) (vs : list Z) (s s' : sched) : Prop := {
  sh_same : ∀ j, (j < i)%nat ∨ j = me → cpus s' !! j = cpus s !! j;
  sh_grow : ∀ j, (i ≤ j)%nat → j ≠ me → ∃ l, queue_of s' j = queue_of s j ++ l ∧ (l ≠ [] → lengthZ (queue_of s' j) ≤ share) ∧
    ∀ t, t ∈ l → t ∈ vs ∧ t_cpu <$> threads s' !! t = Some (Some j);
  sh_sent : ∀ t, t ∈ vs → ∃ j, (i ≤ j)%nat ∧ j ≠ me ∧ t ∈ queue_of s' j;
  sh_rest : ∀ t, t ∉ vs → threads s' !! t = threads s !! t
}.
Lemma shared_nil me share i s : shared me share i [] s s.
Proof. split; try done; [|by intros t ?%not_elem_of_nil]. intros j _ _. exists []. rewrite app_nil_r. split_and!; try done. by intros t ?%not_elem_of_nil. Qed.
Lemma queue_of_ext s s' j : cpus s' !! j = cpus s !! j → queue_of s' j = queue_of s j.
Proof. unfold queue_of. by intros ->. Qed.
Lemma room_ext s s' me share i n : (∀ j, (i ≤ j)%nat → j ≠ me → queue_of s' j = queue_of s j) → room s' me share i n = room s me share i n.
Proof.
  revert i. induction n as [|n IH]; intros i H; [done|]. simpl. rewrite IH by (intros; apply H; [lia|done]). case_decide; [done|]. by rewrite H.
Qed.
Lemma room_nonneg s me share i n : 0 ≤ room s me share i n.
Proof. revert i. induction n as [|n IH]; intros i; simpl; [done|]. specialize (IH (S i)). case_decide; lia. Qed.
(** The first [r] threads to processor [i], the others further on. *)
Lemma shared_cons me share i r vs s s' : i ≠ me → NoDup vs → is_Some (cpus s !! i) → (∀ t, t ∈ vs → is_Some (threads s !! t)) →
  (take r vs ≠ [] → lengthZ (queue_of s i) + lengthZ (take r vs) ≤ share) →
  shared me share (S i) (drop r vs) (give_all i (take r vs) s) s' → shared me share i vs s s'.
Proof.
  intros Hne Hnd [d Hd] Hex Hle [H1 H2 H3 H4]. rewrite <- (take_drop r vs) in Hnd. apply NoDup_app in Hnd as (_ & Hdis & _).
  destruct (give_all_cpu i (take r vs) s d Hd) as (d' & Hd' & Hq & _).
  assert (queue_of s' i = queue_of s i ++ take r vs) as Hqi.
  { unfold queue_of. rewrite H1, Hd', Hd by (left; lia). done. }
  assert (∀ t, t ∈ vs ↔ t ∈ take r vs ∨ t ∈ drop r vs) as Hin by (intros t; by rewrite <- elem_of_app, take_drop).
  split.
  - intros j Hj. rewrite H1 by lia. apply give_all_other. lia.
  - intros j Hj Hjm. destruct (decide (j = i)) as [->|].
    + exists (take r vs). split; [done|]. split; [rewrite Hqi, lengthZ_app; done|]. intros t Ht. split; [apply Hin; by left|].
      rewrite H4 by by apply Hdis. rewrite give_all_threads, decide_True by done. destruct (Hex t) as [y Hy]; [apply Hin; by left|]. by rewrite Hy.
    + destruct (H2 j) as (l & Hl & Hlen & Hc); [lia|done|]. exists l. rewrite Hl. split; [|split; [by rewrite <- Hl|]].
      * f_equal. apply queue_of_ext. by apply give_all_other.
      * intros t Ht. destruct (Hc t Ht). split; [apply Hin; by right|done].
  - intros t [Ht|Ht]%Hin; [exists i; split; [lia|]; split; [done|]; rewrite Hqi; apply elem_of_app; by right|].
    destruct (H3 t Ht) as (j & ? & ? & ?). exists j. split; [lia|done].
  - intros t Ht. rewrite Hin in Ht. rewrite H4 by naive_solver. rewrite give_all_threads, decide_False by naive_solver. done.
Qed.

Lemma send_all_ok fuel me share c i vs s x : exec s me c x → locks_free s → (i + fuel = length (cpus s))%nat → c_curthread c ∉ vs → NoDup vs →
  (∀ t, t ∈ vs → is_Some (threads s !! t)) → lengthZ vs ≤ room s me share i fuel →
  ∃ s', send_all me i fuel share (length vs) vs s = Ok [] s' ∧ shared me share i vs s s' ∧ locks_free s' ∧ ∃ x', exec s' me c x'.
Proof.
  revert i vs s x. induction fuel as [|fuel IH]; intros i vs s x He Hfree Hlen Hcur Hnd Hex Hroom; simpl in *.
  { destruct vs; [|rewrite lengthZ_cons in Hroom; unfold lengthZ in *; lia]. exists s. split; [done|]. split; [apply shared_nil|eauto]. }
  destruct (decide (length vs = 0%nat)) as [Hv|Hv].
  { destruct vs; [|done]. exists s. split; [done|]. split; [apply shared_nil|eauto]. }
  destruct (decide (i = me)) as [Hi|Hi].
  { destruct (IH (S i) vs s x) as (s' & Hrun & [H1 H2 H3 H4] & Hf & Hx'); try done; [lia|]. exists s'. split; [done|]. split; [|done]. split; try done.
    - intros j Hj. apply H1. lia.
    - intros j Hj Hjm. apply H2; [lia|done].
    - intros t Ht. destruct (H3 t Ht) as (j & ? & ? & ?). exists j. split; [lia|done]. }
  destruct (lookup_lt_is_Some_2 (cpus s) i) as [d Hd]; [lia|]. destruct (Hfree i d Hd) as [Hrl Hil].
  set (k := lengthZ (c_runqueue d)). set (r := Nat.min (length vs) (Z.to_nat (share - k))).
  assert (Z.of_nat r = Z.min (Z.of_nat (length vs)) (Z.max 0 (share - k))) as Hr by (unfold r; lia).
  assert (queue_of s i = c_runqueue d) as Hqi by (unfold queue_of; by rewrite Hd).
  erewrite bind_ok by (eapply send_to_ok; try done; by apply deal_others). cbn [fst snd]. fold k r.
  assert (length (drop r vs) = length vs - r)%nat as Hdl by apply length_drop. rewrite <- Hdl.
  set (s1 := give_all i (take r vs) s).
  assert (∀ j, j ≠ i → cpus s1 !! j = cpus s !! j) as Hother by (intros; by apply give_all_other).
  assert (exec s1 me c x) as He1.
  { destruct He as [E1 E2 E3 E4]. split; try done; [by rewrite Hother|]. unfold s1. rewrite give_all_threads, decide_False; [done|].
    intros Ht. apply Hcur. rewrite <- (take_drop r vs). apply elem_of_app. by left. }
  destruct (IH (S i) (drop r vs) s1 x) as (s' & Hrun & Hsh & Hf & Hx'); try done.
  - by apply give_all_free.
  - unfold s1. rewrite give_all_length. lia.
  - intros Ht. apply Hcur. rewrite <- (take_drop r vs). apply elem_of_app. by right.
  - rewrite <- (take_drop r vs) in Hnd. by apply NoDup_app in Hnd as (_ & _ & ?).
  - intros t Ht. unfold s1. rewrite give_all_threads. destruct (Hex t) as [y Hy]; [rewrite <- (take_drop r vs); apply elem_of_app; by right|].
    rewrite Hy. case_decide; by eexists.
  - rewrite (room_ext s s1) by (intros; apply queue_of_ext, Hother; lia). rewrite Hqi in Hroom. fold k in Hroom.
    change (lengthZ (drop r vs)) with (Z.of_nat (length (drop r vs))). change (lengthZ vs) with (Z.of_nat (length vs)) in Hroom.
    rewrite Hdl. pose proof (room_nonneg s me share (S i) fuel). clearbody k r. lia.
  - exists s'. split; [done|]. split; [|done]. eapply (shared_cons _ _ _ r); try done.
    intros Hne. rewrite Hqi. fold k. change (lengthZ (take r vs)) with (Z.of_nat (length (take r vs))). rewrite length_take.
    assert (r ≠ 0%nat) by (by intros E; rewrite E in Hne). clearbody k r. lia.
Qed.

(** ** The whole routine *)

Section Whole.
Context (s : sched) (me : nat) (c : cpu) (x : thread) (He : exec s me c x) (Hfree : locks_free s).
Context (Hcur : c_curthread c ∉ c_runqueue c) (Hnd : NoDup (c_runqueue c)) (Hex : ∀ t, t ∈ c_runqueue c → is_Some (threads s !! t)).
Let n := length (cpus s).
Let share := DIVROUNDUP (queued s 0 n) (Z.of_nat n).
Let Hqme : queue_of s me = c_runqueue c.
Proof. unfold queue_of. by rewrite (ex_cpu _ _ _ _ He). Qed.
Let Hme : (me < n)%nat.
Proof. apply lookup_lt_is_Some. eexists. apply He. Qed.

Lemma queued_nonneg i k : 0 ≤ queued s i k.
Proof. revert i. induction k as [|k IH]; intros i; simpl; [done|]. specialize (IH (S i)). unfold lengthZ. lia. Qed.
Lemma share_bounds : 0 ≤ share ∧ queued s 0 n ≤ share * Z.of_nat n.
Proof.
  pose proof (queued_nonneg 0 n) as H0. pose proof (DIVROUNDUP_spec _ (Z.of_nat n) H0) as H. specialize (H ltac:(lia)). fold share in H. split; [|lia].
  destruct (Z.le_gt_cases 0 share); [done|]. nia.
Qed.

(** Less than a share: nothing is done. *)
Lemma migration_below : lengthZ (c_runqueue c) < share → thread_consider_migration me s = Ok tt s.
Proof.
  intros Hlt. unfold thread_consider_migration. erewrite bind_ok by done. cbv zeta. fold n.
  erewrite bind_ok by by eapply count_queues_ok. fold n. rewrite decide_True, Z.add_0_l, Hqme by lia. cbv beta iota zeta. fold share.
  by rewrite (proj2 (Z.ltb_lt _ _)) by done.
Qed.
(** Otherwise the share is kept, and all others go elsewhere. *)
Lemma migration_above : share ≤ lengthZ (c_runqueue c) → ∃ s', thread_consider_migration me s = Ok tt s' ∧
  queue_of s' me = take (Z.to_nat share) (c_runqueue c) ∧
  shared me share 0 (drop (Z.to_nat share) (c_runqueue c)) (upd_cpu me (set_runqueue (take (Z.to_nat share) (c_runqueue c))) s) s'.
Proof.
  intros Hge. destruct share_bounds as [Hs0 Hs1]. destruct (He) as [Hc Hx _ _]. destruct (Hfree me c Hc) as [Hrl Hil].
  set (q := take (Z.to_nat share) (c_runqueue c)). set (r := drop (Z.to_nat share) (c_runqueue c)).
  assert (c_runqueue c = q ++ r) as Hq by (unfold q, r; by rewrite take_drop).
  assert (length r = Z.to_nat (lengthZ (c_runqueue c) - share)) as Hr by (unfold r, lengthZ; rewrite length_drop; lia).
  unfold thread_consider_migration. erewrite bind_ok by done. cbv zeta. fold n.
  erewrite bind_ok by by eapply count_queues_ok. fold n. rewrite decide_True, Z.add_0_l, Hqme by lia. cbv beta iota zeta. fold share.
  rewrite (proj2 (Z.ltb_ge _ _)) by done. rewrite <- Hr. erewrite bind_ok by by eapply take_section_ok.
  set (s1 := upd_cpu me (set_runqueue q) s).
  assert (exec s1 me (set_runqueue q c) x) as He1.
  { destruct He as [? ? ? ?]. split; try done. by apply cpu_upd. }
  assert (∀ j, j ≠ me → cpus s1 !! j = cpus s !! j) as Hother by (intros; by apply cpu_upd_ne).
  assert (∀ t, t ∈ r → t ∈ c_runqueue c) as Hin by (intros t Ht; rewrite Hq; apply elem_of_app; by right).
  destruct (send_all_ok n me share (set_runqueue q c) 0 r s1 x) as (s' & Hrun & Hsh & Hf & x' & He'); try done.
  - intros j d Hd. destruct (decide (j = me)) as [->|]; [|rewrite Hother in Hd by done; by apply (Hfree j)].
    pose proof (ex_cpu _ _ _ _ He1). simplify_eq. done.
  - unfold s1. simpl. by rewrite length_alter.
  - intros Ht. by apply Hcur, Hin.
  - rewrite Hq in Hnd. by apply NoDup_app in Hnd as (_ & _ & ?).
  - intros t Ht. by apply Hex, Hin.
  - rewrite (room_ext s s1) by (intros; by apply queue_of_ext, Hother). unfold lengthZ at 1. rewrite Hr.
    pose proof (room_enough s me c x He share Hs1) as H. rewrite Hqme in H. fold n in H. lia.
  - exists s'. erewrite bind_ok by exact Hrun. split; [done|]. split; [|done]. unfold queue_of. by rewrite (ex_cpu _ _ _ _ He').
Qed.
End Whole.
