(* ===== verification/SchedProps.v ===== *)
(** * Properties of the thread system

    The states that the thread system reaches from boot, whatever the code on its
    processors does within the rules of the interface, and what holds in them: every
    thread is in one place, no operation fails, a waiting processor is woken, the
    threads of a processor take turns, migration shares them out; and two defects of
    the inter-processor interrupts. *)

From Stdlib Require Import String.
From stdpp Require Import list functions.
From S2P Require Import Prelude Sched SchedOps SchedSwitch SchedInv SchedStep SchedMove SchedRun SchedBoot SchedMigrate.
#[local] Open Scope kern_scope.

(** ** Reachable machines *)

Inductive reachable : machine → Prop :=
  | reach_boot hws locks kproc next mem s : boot hws (before_boot locks kproc next mem) = Ok tt s → reachable (quiet_machine s)
  | reach_step m m' : reachable m → step m m' → reachable m'.
Lemma sched_reachable_inv m : reachable m → inv m.
Proof.
  induction 1 as [hws locks kproc next mem s Hrun|m m' _ IH [i o Hg Hrun]]; [by eapply boot_inv|].
  destruct (perform_ok m i o IH Hg) as (m1 & Hrun1 & Hinv). rewrite Hrun in Hrun1. by injection Hrun1 as <-.
Qed.

(** Operations performed one after the other, each within the rules. *)
Inductive trace : machine → list (nat * op) → machine → Prop :=
  | trace_nil m : trace m [] m
  | trace_cons m m1 m' i o l : guard m i o → perform i o m = Ok tt m1 → trace m1 l m' → trace m ((i, o) :: l) m'.
Lemma trace_reachable m l m' : trace m l m' → reachable m → reachable m'.
Proof. induction 1 as [|m m1 m' i o l Hg Hrun _ IH]; [done|]. intros Hm. apply IH. eapply reach_step; [done|]. by econstructor. Qed.

Lemma trace_app m l m1 l' m' : trace m l m1 → trace m1 l' m' → trace m (l ++ l') m'.
Proof. induction 1; simpl; [done|]. intros. econstructor; eauto. Qed.

(** ** One processor takes turns *)

Section RoundRobin.
Context (i : nat).

(** One yield puts the current thread last. *)
Lemma yield_rotates m c x : inv m → runs m i c x → c_isidle c = false → held m i = [] →
  ∃ m' c' x', guard m i Yield ∧ perform i Yield m = Ok tt m' ∧ inv m' ∧ runs m' i c' x' ∧ c_isidle c' = false ∧ held m' i = [] ∧
    c_curthread c' :: c_runqueue c' = c_runqueue c ++ [c_curthread c].
Proof.
  intros Hinv Hr Hidle Hh. assert (guard m i Yield) as Hg by (exists c, x; destruct (Hr); split_and!; done).
  destruct (runs_switch m i c x Hinv Hr) as (He & Hrl & Hspl & Hge & Hst & Hcpu & Hn). rewrite Hh in Hn. unfold lengthZ in Hn. simpl in Hn.
  pose proof (ru_cpu _ _ _ _ Hr) as Hc. destruct (c_runqueue c) as [|t q] eqn:Hq.
  { exists m, c, x. split; [done|]. split.
    - unfold perform. erewrite bind_ok by done. erewrite on_st_ok by (eapply switch_stays; try done; by right). by rewrite set_st_same.
    - rewrite Hq. split_and!; done. }
  pose proof (leave_inv m i c x Hinv Hr S_READY 0 EmptyString (st m)) as Hl.
  specialize (Hl ltac:(done) Hidle eq_refl ltac:(done) Hh ltac:(done) ltac:(done)). rewrite Hq in Hl. specialize (Hl ltac:(done)). set (mB := set_held _ _ _) in Hl.
  destruct (switched m i c x Hr S_READY EmptyString (st m) mB Hl) as [Hsw Hfin]; try done; [apply fn_lookup_insert|intros; simpl; by rewrite fn_lookup_insert_ne|].
  set (cL := leave_cpu S_READY (c_curthread c) c) in *. set (sL := leave i S_READY c x EmptyString (st m)) in *.
  assert (c_runqueue cL = t :: (q ++ [c_curthread c])) as HqL by (simpl; by rewrite Hq).
  assert (cpus sL !! i = Some cL) as HcL by (unfold sL, leave; by apply cpu_upd).
  destruct (sw_next _ _ Hsw t _ HqL) as (Htz & y & Hy & _ & _ & v & Hv & _).
  pose proof (take_cpus mB i cL Hl HcL t _ y v HqL Hy Hv i) as Hc'. rewrite decide_True in Hc' by done.
  pose proof (take_threads mB i cL t _ y v HqL Hy Hv t) as Ht'. rewrite decide_False, decide_True in Ht' by done.
  exists (set_st (next_state i cL sL) m), (take_next t (q ++ [c_curthread c]) v cL), (resumed v y). split; [done|]. split_and!; try done.
  - unfold perform. erewrite bind_ok by done. erewrite on_st_ok; [done|]. eapply switch_ready; try done; [by rewrite Hq|lia].
  - by apply Hfin.
  - split; try done; [apply Hr|by left|apply Hr].
Qed.
Lemma yields_rotate k : ∀ m c x, inv m → runs m i c x → c_isidle c = false → held m i = [] →
  (k ≤ S (length (c_runqueue c)))%nat →
  ∃ m' c' x', trace m (replicate k (i, Yield)) m' ∧ inv m' ∧ runs m' i c' x' ∧ c_isidle c' = false ∧ held m' i = [] ∧
    c_curthread c' :: c_runqueue c' = drop k (c_curthread c :: c_runqueue c) ++ take k (c_curthread c :: c_runqueue c).
Proof.
  induction k as [|k IH]; intros m c x Hinv Hr Hidle Hh Hk.
  { exists m, c, x. rewrite drop_0, take_0, app_nil_r. split_and!; try done. constructor. }
  destruct (IH m c x) as (m1 & c1 & x1 & Htr & Hinv1 & Hr1 & Hidle1 & Hh1 & E1); try done; [lia|].
  destruct (yield_rotates m1 c1 x1) as (m2 & c2 & x2 & Hg & Hrun & Hinv2 & Hr2 & Hidle2 & Hh2 & E2); try done.
  exists m2, c2, x2. split_and!; try done.
  - rewrite replicate_S_end. eapply trace_app; [exact Htr|]. econstructor; [done..|constructor].
  - rewrite E2. destruct (lookup_lt_is_Some_2 (c_curthread c :: c_runqueue c) k) as [h Hl]; [simpl; lia|].
    rewrite (drop_S _ _ _ Hl) in E1. simpl in E1. injection E1 as -> ->.
    by rewrite (take_S_r _ _ _ Hl), <- app_assoc.
Qed.
End RoundRobin.

(** ** A waiting processor is woken *)

Lemma perform_inv m i o m' : inv m → guard m i o → perform i o m = Ok tt m' → inv m'.
Proof. intros Hinv Hg Hrun. destruct (perform_ok m i o Hinv Hg) as (m1 & Hrun1 & H1). rewrite Hrun in Hrun1. by injection Hrun1 as <-. Qed.

(** The interrupt between cpu_idle and the handler's return. *)
Definition wake_trace (i : nat) : list (nat * op) := [(i, Interrupt); (i, Ipi); (i, Continue); (i, Return); (i, Unidle)].

Section Woken.
Context (m : machine) (i : nat) (c : cpu) (x : thread) (Hinv : inv m).
Context (Hc : cpus (st m) !! i = Some c) (Hx : threads (st m) !! c_curthread c = Some x) (Hlive : c_halted c = false).

(** The handler of a processor that waits. *)
Lemma waiting_interrupt : c_waiting c = true → ∃ m', guard m i Interrupt ∧ perform i Interrupt m = Ok tt m' ∧
  runs m' i (enter_cpu c) (entered x) ∧ t_frames (entered x) = [(t_in_interrupt x, false)] ∧ held m' i = [] ∧ saved m' (c_curthread c) = [] ∧ c_isidle c = true.
Proof.
  intros Hw. destruct (inv_at m i c x Hinv Hc Hx) as [He Hco].
  destruct (interruptible m i c x Hinv Hc Hx (or_intror Hw)) as (Hf & Hh & Hsv & [(Hi & _)|(Hi & Hs & Htd)]).
  { destruct (co_busy _ _ _ _ _ Hco Hi). congruence. }
  set (m' := set_st (upd_cpu i enter_cpu (upd_thread (c_curthread c) entered (st m))) m). exists m'.
  assert (t_frames (entered x) = [(t_in_interrupt x, false)]) as Hfe by (unfold entered; rewrite Hs; simpl; by rewrite Hf).
  split_and!; try done.
  - exists c, x. auto.
  - unfold perform. erewrite bind_ok by done. erewrite bind_ok by (apply on_st_ok; by apply curthread_ok).
    erewrite bind_ok by (apply on_st_ok; eapply irq_enter_ok; [done..|rewrite Hs; done]). by rewrite Htd.
  - split; try done; [by apply (cpu_upd (upd_thread _ _ _))|by apply thread_upd|by rewrite Hfe; right].
Qed.

(** The handler takes the interrupt from another processor, and returns. *)
Lemma handler_ipi : runs m i c x → t_frames x ≠ [] → c_ipi c = true →
  Z.testbit (c_ipi_pending c) IPI_PANIC = false → Z.testbit (c_ipi_pending c) IPI_OFFLINE = false →
  ∃ m', guard m i Ipi ∧ perform i Ipi m = Ok tt m' ∧ cpus (st m') !! i = Some (set_ipi_pending 0 c) ∧ threads (st m') = threads (st m) ∧
    held m' = held m ∧ saved m' = saved m ∧ todo m' i = Clearing.
Proof.
  intros Hr Hf Hipi Hp Ho. destruct (runs_facts m i c x Hinv Hr) as (He & Hco & Hto & H0 & [Hrl Htlb]).
  assert (c_ipi_lock c = None) as Hil by (eapply inv_ipi_free; [done|apply Hr|apply Hr]).
  pose proof (ipi_handler_ok _ _ _ _ He Hil Hrl Htlb) as Hrun. rewrite Hp, Ho in Hrun. apply on_st_ok in Hrun.
  eexists. split; [by exists c, x|]. unfold perform. erewrite bind_ok by done. rewrite (bind_ok _ _ _ _ _ Hrun).
  split; [done|]. split; [by apply cpu_upd|]. split_and!; try done. apply fn_lookup_insert.
Qed.
Lemma handler_clear : todo m i = Clearing → ∃ m', guard m i Continue ∧ perform i Continue m = Ok tt m' ∧
  cpus (st m') !! i = Some (set_ipi false c) ∧ threads (st m') = threads (st m) ∧ held m' = held m ∧ saved m' = saved m ∧ todo m' i = Nothing.
Proof.
  intros Hd. eexists. split; [exists c, x; by rewrite Hd|]. unfold perform, continue. erewrite bind_ok by done.
  erewrite bind_ok by done. cbv zeta. rewrite Hd. erewrite bind_ok by by eapply on_st_ok, write_cpu_ok.
  split; [done|]. split; [by apply cpu_upd|]. split_and!; try done. apply fn_lookup_insert.
Qed.
Lemma handler_return b : runs m i c x → t_frames x = [(b, false)] → held m i = [] → saved m (c_curthread c) = [] →
  ∃ m', guard m i Return ∧ perform i Return m = Ok tt m' ∧
    cpus (st m') !! i = Some (set_irq false c) ∧ threads (st m') !! c_curthread c = Some (returned x).
Proof.
  intros Hr Hf Hh Hsv. eexists. split; [exists c, x; rewrite Hf; by split_and!|]. unfold perform. erewrite bind_ok by done.
  erewrite bind_ok by (apply on_st_ok; by apply curthread_ok).
  erewrite bind_ok by (apply on_st_ok; by eapply (irq_leave_ok _ _ c x b false [])). rewrite Hsv.
  split; [done|]. split; [by apply (cpu_upd (upd_thread _ _ _))|by apply thread_upd].
Qed.
End Woken.

Lemma waiting_wakes m i c t q : inv m → cpus (st m) !! i = Some c → c_halted c = false → c_waiting c = true → c_runqueue c = t :: q →
  Z.testbit (c_ipi_pending c) IPI_PANIC = false → Z.testbit (c_ipi_pending c) IPI_OFFLINE = false →
  ∃ m' c' y', trace m (wake_trace i) m' ∧ cpus (st m') !! i = Some c' ∧ threads (st m') !! t = Some y' ∧
    c_curthread c' = t ∧ c_isidle c' = false ∧ c_runqueue c' = q ∧ t_state y' = S_RUN.
Proof.
  intros Hinv Hc Hl Hw Hq Hp Ho. destruct (inv_current _ _ Hinv i c Hc) as (x & Hx & _). destruct (inv_at m i c x Hinv Hc Hx) as [_ Hco].
  assert (c_ipi c = true) as Hipi by (apply (co_wait _ _ _ _ _ Hco); [done|by rewrite Hq]).
  destruct (waiting_interrupt m i c x Hinv Hc Hx Hl Hw) as (m1 & Hg1 & Hrun1 & Hr1 & Hf1 & Hh1 & Hs1 & Hi).
  pose proof (perform_inv _ _ _ _ Hinv Hg1 Hrun1) as Hinv1.
  destruct (handler_ipi m1 i _ _ Hinv1 (ru_cpu _ _ _ _ Hr1) (ru_thread _ _ _ _ Hr1) Hl Hr1) as (m2 & Hg2 & Hrun2 & Hc2 & Ht2 & Hh2 & Hs2 & Hd2); [by rewrite Hf1|done..|].
  pose proof (perform_inv _ _ _ _ Hinv1 Hg2 Hrun2) as Hinv2.
  assert (threads (st m2) !! c_curthread c = Some (entered x)) as Hx2 by (rewrite Ht2; apply Hr1).
  destruct (handler_clear m2 i _ _ Hc2 Hx2 Hl Hd2) as (m3 & Hg3 & Hrun3 & Hc3 & Ht3 & Hh3 & Hs3 & Hd3).
  pose proof (perform_inv _ _ _ _ Hinv2 Hg3 Hrun3) as Hinv3.
  assert (runs m3 i (set_ipi false (set_ipi_pending 0 (enter_cpu c))) (entered x)) as Hr3.
  { split; try done; [by rewrite Ht3|by rewrite Hf1; right]. }
  destruct (handler_return m3 i _ _ Hc3 (ru_thread _ _ _ _ Hr3) Hl _ Hr3 Hf1) as (m4 & Hg4 & Hrun4 & Hc4 & Hx4); [by rewrite Hh3, Hh2|by rewrite Hs3, Hs2|].
  pose proof (perform_inv _ _ _ _ Hinv3 Hg4 Hrun4) as Hinv4. set (c4 := set_irq false _) in Hc4.
  assert (t_frames (returned (entered x)) = []) as Hf4 by (unfold returned; by rewrite Hf1).
  pose proof (unidle_runs m4 i c4 _ Hinv4 Hc4 Hx4 Hi eq_refl Hf4) as Hrun5.
  destruct (unidle_takes m4 i c4 _ Hinv4 Hc4 Hx4 Hi eq_refl Hf4 t q _ Hq Hrun5) as (c' & y' & Hc' & Hy' & Hrest).
  eexists _, c', y'. split; [|by split_and!; try apply Hrest].
  econstructor; [exact Hg1|exact Hrun1|]. econstructor; [exact Hg2|exact Hrun2|]. econstructor; [exact Hg3|exact Hrun3|].
  econstructor; [exact Hg4|exact Hrun4|]. econstructor; [|exact Hrun5|constructor].
  exists c4, (returned (entered x)). by split_and!.
Qed.

(** ** TLB shootdowns that are asked for *)

Definition noted (v : Z) (d : cpu) : cpu :=
  poke IPI_TLBSHOOTDOWN
    (if c_numshootdown d =? TLBSHOOTDOWN_MAX then set_shootdown (c_shootdown d) TLBSHOOTDOWN_ALL d
     else set_shootdown (take (Z.to_nat (c_numshootdown d)) (c_shootdown d) ++ [v]) (c_numshootdown d + 1) d).
#[export] Instance quiet_noted v : Quiet (noted v).
Proof. split; intros; unfold noted; simpl; by destruct (_ =? _). Qed.
Fixpoint shootdowns (me target : nat) (mappings : list Z) : M sched unit :=
  match mappings with [] => ret tt | v :: l => ipi_tlbshootdown me target v ;; shootdowns me target l end.

Section Shootdown.
Context (me i : nat).

Lemma shootdown_start {A} (k : M sched A) s c x d : exec s me c x → cpus s !! i = Some d → c_ipi_lock d = None →
  (spinlock_acquire me (IpiLock i) ;; k) s = k (acquired me (IpiLock i) s) ∧
  read_cpu i (acquired me (IpiLock i) s) = Ok (acq_cpu me (IpiLock i) i d) (acquired me (IpiLock i) s) ∧ holder s (IpiLock i) = Some None.
Proof.
  intros He Hd Hl. assert (holder s (IpiLock i) = Some None) as Hh by (simpl; by rewrite Hd; simpl; rewrite Hl).
  split_and!; [by erewrite bind_ok by by eapply acquire_ok| |done]. apply read_cpu_ok. by rewrite acquired_cpus, Hd.
Qed.
Lemma acq_shootdown d : c_numshootdown (acq_cpu me (IpiLock i) i d) = c_numshootdown d ∧ c_shootdown (acq_cpu me (IpiLock i) i d) = c_shootdown d.
Proof. unfold acq_cpu, hold_cpu. repeat case_decide; done. Qed.
Lemma shootdown_ok s c x d v : exec s me c x → cpus s !! i = Some d → c_ipi_lock d = None → 0 ≤ c_numshootdown d ≤ TLBSHOOTDOWN_MAX →
  ipi_tlbshootdown me i v s = Ok tt (upd_cpu i (noted v) s).
Proof.
  intros He Hd Hl Hn. destruct (acq_shootdown d) as [E1 E2]. unfold ipi_tlbshootdown.
  edestruct @shootdown_start as (-> & Hrd & Hh); [done..|]. erewrite bind_ok by exact Hrd.
  assert (cpus (acquired me (IpiLock i) s) !! i = Some (acq_cpu me (IpiLock i) i d)) as Ha by by rewrite acquired_cpus, Hd.
  rewrite E1, E2, acq_pending. erewrite bind_ok.
  2: { instantiate (1 := upd_cpu i (λ d, if c_numshootdown d =? TLBSHOOTDOWN_MAX then set_shootdown (c_shootdown d) TLBSHOOTDOWN_ALL d
         else set_shootdown (take (Z.to_nat (c_numshootdown d)) (c_shootdown d) ++ [v]) (c_numshootdown d + 1) d) (acquired me (IpiLock i) s)).
       destruct (c_numshootdown d =? TLBSHOOTDOWN_MAX) eqn:En; [|replace (_ && _) with true by lia];
       (erewrite write_cpu_ok by done); f_equal; apply (upd_cpu_at _ _ _ _ _ Ha); by rewrite E1, E2, En. }
  erewrite bind_ok by (eapply write_cpu_ok; by apply cpu_upd). unfold mainbus_send_ipi.
  erewrite bind_ok by (eapply write_cpu_ok; by do 2 apply cpu_upd). rewrite !upd_cpu_upd.
  rewrite (upd_cpu_at _ _ _ _ (noted v) Ha) by (unfold noted, poke, compose; rewrite E1; by destruct (_ =? _); cbn [set_shootdown c_ipi_pending]; rewrite acq_pending).
  rewrite acquired_upd_cpu by apply _. eapply release_acquired; [by apply exec_upd_cpu; [apply _|]|]. by rewrite holder_upd_cpu by apply _.
Qed.
(** When everything is to be invalidated, another request writes before the array. *)
Lemma shootdown_outside s c x d v : exec s me c x → cpus s !! i = Some d → c_ipi_lock d = None → c_numshootdown d = TLBSHOOTDOWN_ALL →
  ipi_tlbshootdown me i v s = Undef.
Proof.
  intros He Hd Hl Hn. destruct (acq_shootdown d) as [E1 E2]. unfold ipi_tlbshootdown.
  edestruct @shootdown_start as (-> & Hrd & Hh); [done..|]. erewrite bind_ok by exact Hrd. rewrite E1, Hn. done.
Qed.
Lemma shootdowns_ok ms : ∀ s c x d, exec s me c x → cpus s !! i = Some d → c_ipi_lock d = None → 0 ≤ c_numshootdown d ≤ TLBSHOOTDOWN_MAX →
  c_numshootdown d + lengthZ ms ≤ TLBSHOOTDOWN_MAX + 1 →
  ∃ s' c' x' d', shootdowns me i ms s = Ok tt s' ∧ exec s' me c' x' ∧ cpus s' !! i = Some d' ∧ c_ipi_lock d' = None ∧
    c_numshootdown d' = if c_numshootdown d + lengthZ ms <=? TLBSHOOTDOWN_MAX then c_numshootdown d + lengthZ ms else TLBSHOOTDOWN_ALL.
Proof.
  induction ms as [|v ms IH]; intros s c x d He Hd Hl Hn Hlen; cbn [shootdowns].
  { exists s, c, x, d. rewrite Z.add_0_r, (proj2 (Z.leb_le _ _)) by apply Hn. done. }
  erewrite bind_ok by by eapply shootdown_ok. rewrite lengthZ_cons in *. assert (0 ≤ lengthZ ms) by (unfold lengthZ; lia).
  assert (c_ipi_lock (noted v d) = None) as Hl' by (by destruct (quiet_locks (noted v) d) as [_ ->]).
  assert (cpus (upd_cpu i (noted v) s) !! i = Some (noted v d)) as Hd' by by apply cpu_upd.
  pose proof (exec_upd_cpu (noted v) s i me c x He) as He'.
  destruct (Z.eqb_spec (c_numshootdown d) TLBSHOOTDOWN_MAX) as [E|E].
  - destruct ms; [|rewrite lengthZ_cons in *; unfold lengthZ in *; lia]. do 4 eexists. split; [done|]. split; [exact He'|]. split; [exact Hd'|]. split; [done|].
    unfold noted. rewrite (proj2 (Z.eqb_eq _ _)) by done. rewrite (proj2 (Z.leb_gt _ _)) by (unfold lengthZ; simpl; lia). done.
  - assert (c_numshootdown (noted v d) = c_numshootdown d + 1) as En by (unfold noted; by rewrite (proj2 (Z.eqb_neq _ _)) by done).
    destruct (IH _ _ _ _ He' Hd' Hl') as (s' & c' & x' & d' & Hrun & Hrest); [lia..|]. exists s', c', x', d'. split; [done|].
    rewrite En in Hrest. by rewrite Z.add_assoc.
Qed.
End Shootdown.

(** ** A machine with two processors *)

Definition two_cpus_boot : sched :=
  match boot [1] (before_boot [] 7 100 []) with Ok _ s => s | _ => before_boot [] 7 100 [] end.
Lemma two_cpus_booted : boot [1] (before_boot [] 7 100 []) = Ok tt two_cpus_boot.
Proof. vm_compute. reflexivity. Qed.
Definition two_cpus : machine := quiet_machine two_cpus_boot.
Lemma two_cpus_reachable : reachable two_cpus.
Proof. exact (reach_boot _ _ _ _ _ _ two_cpus_booted). Qed.

(** The operations in turn. *)
Fixpoint run_all (l : list (nat * op)) : M machine unit :=
  match l with [] => ret tt | (i, o) :: l' => perform i o ;; run_all l' end.
Definition after (l : list (nat * op)) (m : machine) : machine := match run_all l m with Ok _ m' => m' | _ => m end.

(** The second processor sleeps, and is woken by the first. *)
Definition demo_sleep : list (nat * op) := [(1, Create "w"%string); (1, Acquire (WcLock 102)); (1, Sleep 102)]%nat.
Definition demo_wake : list (nat * op) := [(0, Wakeone 102); (0, Continue)]%nat.

(** Guards on a concrete machine. *)
Ltac demo_now := first [done | by vm_compute | by left | by right | by left; vm_compute | by right; vm_compute | by intros ?; vm_compute].
Ltac demo_ipi :=
  let d := fresh "d" in let Hd := fresh "Hd" in intros d Hd _; vm_compute in Hd; injection Hd as <-; reflexivity.
Ltac demo_guard :=
  do 2 eexists; split; [vm_compute; reflexivity|]; split; [vm_compute; reflexivity|]; split; [reflexivity|];
  first [demo_now | repeat first [demo_now | split]].
Ltac demo_step := eapply trace_cons; [demo_guard|vm_compute; reflexivity|].
Lemma demo_woken : trace two_cpus (demo_sleep ++ demo_wake) (after (demo_sleep ++ demo_wake) two_cpus).
Proof.
  do 4 demo_step. eapply trace_cons; [|vm_compute; reflexivity|].
  { do 2 eexists. split; [vm_compute; reflexivity|]. split; [vm_compute; reflexivity|]. split; [reflexivity|].
    intros y j Hy Hj. vm_compute in Hy. injection Hy as <-. injection Hj as <-. demo_ipi. }
  vm_compute. constructor.
Qed.

(** Four threads on the first processor's run queue. *)
Definition demo_forks : list (nat * op) := replicate 4 (0%nat, Fork None).
Lemma demo_forked : trace two_cpus demo_forks (after demo_forks two_cpus).
Proof. do 4 demo_step. vm_compute. constructor. Qed.
(** The wakeup is over, and the second processor is in the handler, behind
    interprocessor_interrupt. *)
Definition demo_handling : list (nat * op) := [(0, Continue); (1, Interrupt); (1, Ipi)]%nat.
Lemma demo_handled : trace two_cpus ((demo_sleep ++ demo_wake) ++ demo_handling) (after ((demo_sleep ++ demo_wake) ++ demo_handling) two_cpus).
Proof. eapply trace_app; [exact demo_woken|]. vm_compute after at 1. do 3 demo_step. vm_compute. constructor. Qed.

(** ** The properties *)

(** C3. In every state the thread system reaches, each existing thread is in exactly one
    place, once: it runs on a processor, is on a run queue, on a zombie list, in the
    hands of a routine that is moving it, or asleep on a wait channel; its state and its
    processor are those of the place; and no thread is current on two processors. *)
Theorem threads_one_place m : reachable m →
  (∀ t, is_Some (threads (st m) !! t) ↔ ∃ p, t ∈ content m p) ∧
  (∀ p q t, t ∈ content m p → t ∈ content m q → p = q) ∧ (∀ p, NoDup (content m p)) ∧
  (∀ p t x, t ∈ content m p → threads (st m) !! t = Some x → place_ok m p x) ∧
  (∀ i j c d, cpus (st m) !! i = Some c → cpus (st m) !! j = Some d → c_curthread c = c_curthread d → i = j).
Proof.
  intros Hinv%sched_reachable_inv. destruct (in_placed _ _ Hinv) as [H1 H2 H3].
  split_and!; try done; [apply (in_place _ _ Hinv)|apply (inv_unique _ _ Hinv)].
Qed.
Lemma threads_one_place_witness : ∃ x, threads (st (after (demo_sleep ++ demo_wake) two_cpus)) !! 101 = Some x ∧
  place_ok (after (demo_sleep ++ demo_wake) two_cpus) (Queued 1) x.
Proof.
  destruct (threads_one_place (after (demo_sleep ++ demo_wake) two_cpus)) as (_ & _ & _ & H & _).
  - eapply trace_reachable; [exact demo_woken|exact two_cpus_reachable].
  - eexists. split; [vm_compute; reflexivity|]. apply (H _ 101); [vm_compute; left|vm_compute; reflexivity].
Defined.

(** C2. No operation of the thread system fails: from every reachable state, every
    operation that the rules of the interface allow runs to its end, without a failed
    assertion, a lock taken twice or an access to a thread, processor or channel that
    does not exist. *)
Theorem sched_never_fails m i o : reachable m → guard m i o → ∃ m', perform i o m = Ok tt m' ∧ reachable m'.
Proof.
  intros Hm Hg. destruct (perform_ok m i o (sched_reachable_inv m Hm) Hg) as (m' & Hrun & _). exists m'. split; [done|].
  eapply reach_step; [done|]. by econstructor.
Qed.
Lemma sched_never_fails_witness : guard two_cpus 0 (Fork None) ∧ ∃ m', perform 0 (Fork None) two_cpus = Ok tt m' ∧ reachable m'.
Proof.
  assert (guard two_cpus 0 (Fork None)) as Hg by demo_guard.
  split; [exact Hg|]. exact (sched_never_fails two_cpus 0 (Fork None) two_cpus_reachable Hg).
Defined.

(** C20. No wakeup of a processor is lost: a processor that waits in cpu_idle with a
    thread on its run queue has its interrupt pending, and unless it was told to stop the
    interrupt takes it through the handler and out of the idle loop, where it runs the
    first thread of the queue. *)
Theorem idle_cpu_woken m i c t q : reachable m → cpus (st m) !! i = Some c → c_waiting c = true → c_runqueue c = t :: q →
  c_ipi c = true ∧
  (c_halted c = false → Z.testbit (c_ipi_pending c) IPI_PANIC = false → Z.testbit (c_ipi_pending c) IPI_OFFLINE = false →
   ∃ m' c' y, trace m (wake_trace i) m' ∧ cpus (st m') !! i = Some c' ∧ threads (st m') !! t = Some y ∧
     c_curthread c' = t ∧ c_isidle c' = false ∧ c_runqueue c' = q ∧ t_state y = S_RUN).
Proof.
  intros Hinv%sched_reachable_inv Hc Hw Hq. split; [|intros; by eapply waiting_wakes].
  destruct (inv_current _ _ Hinv i c Hc) as (x & Hx & _). destruct (inv_at m i c x Hinv Hc Hx) as [_ Hco].
  apply (co_wait _ _ _ _ _ Hco); [done|by rewrite Hq].
Qed.
Lemma idle_cpu_woken_witness : ∃ c, cpus (st (after (demo_sleep ++ demo_wake) two_cpus)) !! 1%nat = Some c ∧ c_ipi c = true ∧
  ∃ m' c', trace (after (demo_sleep ++ demo_wake) two_cpus) (wake_trace 1) m' ∧ cpus (st m') !! 1%nat = Some c' ∧ c_curthread c' = 101.
Proof.
  eexists. split; [vm_compute; reflexivity|].
  edestruct (idle_cpu_woken (after (demo_sleep ++ demo_wake) two_cpus) 1) as [H1 H2].
  - eapply trace_reachable; [exact demo_woken|exact two_cpus_reachable].
  - vm_compute; reflexivity.
  - reflexivity.
  - reflexivity.
  - split; [exact H1|]. destruct H2 as (m' & c' & y & Htr & Hc' & _ & Ht & _); [reflexivity..|]. by exists m', c'.
Defined.

(** C21. A processor's threads take turns: with the current thread in front of the run
    queue, [k] yields rotate the line by [k], so that each of the threads runs once
    before the first one runs again. *)
Theorem yield_round_robin m i c x k : reachable m → runs m i c x → c_isidle c = false → held m i = [] → (k ≤ S (length (c_runqueue c)))%nat →
  ∃ m' c', trace m (replicate k (i, Yield)) m' ∧ cpus (st m') !! i = Some c' ∧
    c_curthread c' :: c_runqueue c' = drop k (c_curthread c :: c_runqueue c) ++ take k (c_curthread c :: c_runqueue c).
Proof.
  intros Hinv%sched_reachable_inv Hr Hidle Hh Hk. destruct (yields_rotate i k m c x Hinv Hr Hidle Hh Hk) as (m' & c' & x' & Htr & _ & Hr' & _ & _ & E).
  exists m', c'. split; [done|]. split; [apply Hr'|done].
Qed.
Lemma yield_round_robin_witness : ∃ m' c', trace (after demo_forks two_cpus) (replicate 3 (0%nat, Yield)) m' ∧ cpus (st m') !! 0%nat = Some c' ∧
  c_curthread c' :: c_runqueue c' = [104; 105; 100; 102; 103].
Proof.
  edestruct (yield_round_robin (after demo_forks two_cpus) 0) as (m' & c' & Htr & Hc' & E).
  - eapply trace_reachable; [exact demo_forked|exact two_cpus_reachable].
  - split; [vm_compute; reflexivity|vm_compute; reflexivity|reflexivity|by left|reflexivity].
  - reflexivity.
  - reflexivity.
  - instantiate (1 := 3%nat). simpl. lia.
  - exists m', c'. split; [exact Htr|]. split; [exact Hc'|]. rewrite E. reflexivity.
Defined.


(** C34. Requests for TLB shootdowns since the last flush: sixteen are noted and the
    seventeenth asks for everything to be invalidated, but the eighteenth writes outside
    of c_shootdown, at index -1. *)
Theorem shootdown_overflow s me i c x d mappings v : exec s me c x → cpus s !! i = Some d → c_ipi_lock d = None → c_numshootdown d = 0 →
  lengthZ mappings = 17 →
  ∃ s' d', shootdowns me i mappings s = Ok tt s' ∧ cpus s' !! i = Some d' ∧ c_numshootdown d' = TLBSHOOTDOWN_ALL ∧
    ipi_tlbshootdown me i v s' = Undef.
Proof.
  intros He Hd Hl Hn Hlen. destruct (shootdowns_ok me i mappings s c x d) as (s' & c' & x' & d' & Hrun & He' & Hd' & Hl' & E);
    [done..|by rewrite Hn|by rewrite Hn, Hlen|]. rewrite Hn, Hlen in E.
  exists s', d'. split_and!; try done. by eapply shootdown_outside.
Qed.
Lemma shootdown_overflow_witness : ∃ s', shootdowns 0 1 (replicate 17 5) two_cpus_boot = Ok tt s' ∧ ipi_tlbshootdown 0 1 5 s' = Undef.
Proof.
  edestruct (shootdown_overflow two_cpus_boot 0 1) as (s' & d' & Hrun & _ & _ & H).
  - split; [vm_compute; reflexivity|vm_compute; reflexivity|reflexivity|by vm_compute].
  - vm_compute; reflexivity.
  - reflexivity.
  - reflexivity.
  - instantiate (1 := replicate 17 5). reflexivity.
  - exists s'. split; [exact Hrun|exact H].
Defined.

(** C33. An interrupt can be lost: when a processor is behind interprocessor_interrupt in
    its interrupt handler and another one sends it a request to stop, the handler clears
    the line, and the request stays pending while the processor goes on without an
    interrupt. *)
Theorem panic_ipi_lost m i j c : reachable m → i ≠ j → cpus (st m) !! i = Some c → c_halted c = false → todo m i = Clearing →
  guard m j (Send i IPI_PANIC) →
  ∃ m' c', trace m [(j, Send i IPI_PANIC); (i, Continue)] m' ∧ cpus (st m') !! i = Some c' ∧
    Z.testbit (c_ipi_pending c') IPI_PANIC = true ∧ c_ipi c' = false ∧ c_halted c' = false ∧ todo m' i = Nothing.
Proof.
  intros Hinv%sched_reachable_inv Hij Hc Hl Htd Hg. destruct (Hg) as (cj & xj & Hcj & Hxj & _ & Hr & _ & Hfree).
  destruct (runs_facts m j cj xj Hinv Hr) as (He & _). destruct (inv_current _ _ Hinv i c Hc) as (x & Hx & _).
  assert (c_ipi_lock c = None) as Hil by by eapply inv_ipi_free.
  assert (perform j (Send i IPI_PANIC) m = Ok tt (set_st (upd_cpu i (poke IPI_PANIC) (st m)) m)) as Hrun.
  { unfold perform. erewrite bind_ok by done. apply on_st_ok. by eapply ipi_send_ok. }
  destruct (handler_clear (set_st (upd_cpu i (poke IPI_PANIC) (st m)) m) i (poke IPI_PANIC c) x) as (m' & Hg' & Hrun' & Hc' & _ & _ & _ & Htd');
    [by apply cpu_upd|done..|].
  exists m', (set_ipi false (poke IPI_PANIC c)). split.
  - econstructor; [exact Hg|exact Hrun|]. econstructor; [exact Hg'|exact Hrun'|constructor].
  - split_and!; try done. change (Z.testbit (Z.lor (c_ipi_pending c) (2 ^ IPI_PANIC)) IPI_PANIC = true). rewrite Z.lor_spec. apply orb_true_r.
Qed.
Lemma panic_ipi_lost_witness : ∃ m' c', trace (after ((demo_sleep ++ demo_wake) ++ demo_handling) two_cpus) [(0%nat, Send 1 IPI_PANIC); (1%nat, Continue)] m' ∧
  cpus (st m') !! 1%nat = Some c' ∧ Z.testbit (c_ipi_pending c') IPI_PANIC = true ∧ c_ipi c' = false.
Proof.
  edestruct (panic_ipi_lost (after ((demo_sleep ++ demo_wake) ++ demo_handling) two_cpus) 1 0) as (m' & c' & Htr & Hc' & H1 & H2 & _).
  - eapply trace_reachable; [exact demo_handled|exact two_cpus_reachable].
  - done.
  - vm_compute; reflexivity.
  - reflexivity.
  - reflexivity.
  - demo_guard.
  - exists m', c'. split; [exact Htr|]. split; [exact Hc'|]. split; [exact H1|exact H2].
Defined.
